(* ===== verification/_CoqProject ===== *)
-Q . S2P
Prelude.v
Status.v
LinkedList.v
Hash.v
HashMap.v
Vector.v
Owner.v
IntrusiveList.v
BinaryTree.v
OrderedMap.v
PhysMem.v
MemObject.v
MappingTree.v
Paging.v
AddressSpace.v
Capability.v
Sched.v
Ipc.v
Process.v
Teardown.v
KernelHeap.v
Buddy.v
Buffer.v
Yunq.v
YunqMessages.v
Rpc.v
ZionRpc.v
Services.v
Strings.v
Debug.v
Ahci.v
Denali.v
Ext2.v
Vfs.v
Keyboard.v
Xhci.v
RefPtr.v
RawMem.v
Acpi.v
Apic.v
Interrupt.v
Loader.v
Runtime.v
Region.v
AhciInit.v
XhciInit.v
Mount.v
Syscall.v
Startup.v
Mains.v
NewDelete.v
