(* ===== verification/Prelude.v ===== *)
(** * AcadiaOS: a verification library

    AcadiaOS is a capability microkernel (zion/) with its container library
    (lib/glacier), its user-space runtime (lib/mammoth), a serialisation
    library (lib/yunq) and user-space services (sys/).  This library models
    the C++ of the kernel, of the containers it is built on, of the user-space
    heap and runtime, of the serialisation with the code generated for it, and
    of the disk, file and USB services, and proves what makes them correct.

    ** The program and how its parts interact

    A user thread enters the kernel through a system call
    (zion/syscall/syscall.cpp).  The call looks the named capability up in the
    table of its process (zion/capability), checks type and permissions, and
    acts on a kernel object (zion/object): IPC objects with message queues
    (zion/lib/message_queue), mutexes, semaphores, memory objects and address
    spaces.  Blocking calls hand over to the scheduler (zion/scheduler).  A
    page fault goes to the address space, which asks its mapping tree
    (zion/lib/memory_mapping_tree, over glacier's BinaryTree) for the memory
    object behind the address, takes a page from it
    (zion/memory/physical_memory) and enters it in the page tables
    (zion/memory/paging_util).  Kernel objects themselves live on the kernel
    heap (zion/memory/kernel_heap, slab_allocator).

    Processes (zion/object/process) own threads, an address space and a
    capability table; a process that exits is taken apart by the cleanup
    thread (zion/scheduler/cleanup).  At boot the kernel reads the firmware
    tables (zion/boot/acpi), programs the interrupt controllers and the
    descriptor tables (zion/interrupt, zion/common/gdt), and loads the first
    program with a port of boot capabilities (zion/loader), which the runtime
    of the program reads (lib/mammoth/util/init).  Exceptions and interrupts
    enter through zion/interrupt.  User-space services answer requests
    through generated clients and servers over IPC: the file server
    (sys/victoriafalls) resolves paths with the ext2 driver, which reads blocks
    through the disk server (sys/denali), which issues commands to the AHCI
    port and waits for its interrupt.  The USB service (sys/voyageurs) finds
    devices with the xHCI driver and sends the keys of a keyboard to the ports
    of its listeners.

    ** Files

    - [Prelude]: outcomes of C++ code, 64-bit arithmetic, shared list and
      integer lemmas, tactics and hints.
    - [Status]: lib/glacier/status (ErrorCode, ErrorOr, Status).
    - [LinkedList], [Hash], [HashMap], [Vector], [IntrusiveList],
      [BinaryTree]: the headers of the same name in lib/glacier/container and
      lib/glacier/util.  [Vector] also has Array and ArrayView.
    - [OrderedMap]: the interface (a class of operations with laws) between
      BinaryTree and the memory mappings.
    - [PhysMem]: zion/memory/physical_memory.cpp.  [Paging]:
      zion/memory/paging_util.cpp.  [KernelHeap]: zion/memory/kernel_heap,
      slab_allocator, kernel_vmm.
    - [MemObject], [MappingTree], [AddressSpace]: zion/object/memory_object,
      zion/lib/memory_mapping_tree, zion/object/address_space with the user
      and kernel stack managers.
    - [Capability]: zion/capability, zion/object/kernel_object.h and
      zion/syscall/capability.cpp.
    - [Sched]: zion/scheduler/scheduler, zion/object/thread, mutex, semaphore.
    - [Ipc]: zion/lib/message_queue, zion/object/channel, port, endpoint,
      reply_port, zion/interrupt/driver_manager, zion/syscall/ipc.cpp and
      synchronization.cpp.
    - [Process]: zion/object/process, the rest of zion/object/thread,
      zion/scheduler/process_manager and cleanup, zion/syscall/process.cpp,
      thread.cpp, memory_object.cpp, address_space.cpp and the dispatch of
      syscall.cpp: the state of the whole kernel.
    - [Teardown]: the changes of the scheduler as single statements, with timer
      ticks between any two of them, and every system call, interrupt and turn
      of the cleanup thread of [Process] as a sequence of such statements.
    - [Buddy]: lib/mammoth/util/new.cpp, the user-space heap.
    - [Buffer]: lib/glacier/buffer.  [Yunq]: lib/yunq/serialize and
      message_view.  [YunqMessages]: the generated messages of the four
      services and of the example (the .yunq.cpp and .yunq.h files).
    - [Rpc]: the generated clients and servers, over an interface to the
      kernel's calls (the class [RpcKernel], with the limits of the kernel: 0x1000
      bytes, distinct and transmittable capabilities); [ZionRpc]: the kernel of
      [Ipc] and [Sched] as an instance of it; [Services]: the eleven methods.
    - [Strings]: lib/glacier/string.
    - [Ahci], [Denali]: sys/denali/ahci and denali_server, with the device and
      the interrupt thread as a schedule of events.
    - [Ext2], [Vfs]: sys/victoriafalls/fs/ext2 and victoriafalls_server, each
      written against the interface of the one below.
    - [Keyboard], [Xhci]: sys/voyageurs/keyboard with voyageurs_server, and
      sys/voyageurs/xhci.
    - [RefPtr]: lib/glacier/memory, the reference-counted, shared and unique
      pointers, on a store of objects and pointer variables.
    - [RawMem]: memory as a partial map of bytes, and loops that poll a
      register, for the code that reads structures in place.
    - [Acpi]: zion/boot/acpi.cpp.  [Apic]: zion/interrupt/apic.cpp,
      apic_timer.cpp, timer.cpp, the tables of interrupt.cpp and
      zion/common/gdt.cpp.  [Interrupt]: the handlers of interrupt.cpp and
      zion/common/stack_unwind.cpp, on the kernel state of [Process].
    - [Loader]: zion/loader/init_loader.cpp.
    - [Runtime]: lib/mammoth/ipc and util/init.cpp; [Region]:
      util/memory_region, proc/thread, sync/semaphore: the calls of the kernel
      of [Process] as a program makes them.
    - [AhciInit], [XhciInit]: the start-up of the disk and of the USB
      controller, over the states of [Denali] and [Xhci].
    - [Mount]: the file server over the ext2 driver over the disk service: each
      layer's theorems discharge the interface of the layer above
      ([DiskClientLaws], [FsDriverLaws]).
    - [Syscall]: zion/usr/zcall.cpp, zion/include/zcall.h and ztypes.h, and the
      handlers of zion/syscall as they read and write the memory of the
      program: the binary interface of the system calls of [Process].
    - [Startup]: zion/zion.cpp, boot/boot_info.cpp, common/cpu.cpp, msr.cpp,
      the rest of kernel_vmm.cpp and apic_timer.cpp: the start of the kernel up
      to the first switch to a thread.
    - [Debug]: zion/debug, lines on the serial port.
    - [Owner]: the allocations of the arrays, vectors and strings of
      lib/glacier: construction, moves, copies, growth, destruction.
    - [NewDelete]: the operators of zion/memory/kernel_heap.cpp and
      lib/mammoth/util/new.cpp on top of [KernelHeap] and [Buddy].
    - [Mains]: the main programs of denali, victoriafalls and voyageurs, with
      zion/usr/crt0.s, on the kernel of [Process] and the stubs of [Services].

    ** How code becomes definitions

    Definitions keep the names of the code; a C++ method of class C becomes a
    function that takes the object and returns the new one, or a function on
    a store of nodes where the code has pointers that are shared or updated in
    place (BinaryTree, IntrusiveList, Buddy, KernelHeap, page tables, memory
    objects).  A 64-bit unsigned integer is a [Z] and every operation that can
    leave the range is written with the wrap-around operators of [Prelude].
    The type [res] has the outcomes of a call: it returns, it panics, it
    faults (null dereference, out-of-bounds access, division by zero, the
    behaviours C++ leaves undefined) or a loop runs out of fuel.  Errors the
    code reports are values ([ErrorCode], [ErrorOr]).

    Fuel.  A loop over a linked structure takes the number of nodes as fuel
    (BinaryTree, Buddy), a loop over addresses the number of pages or
    elements (MemObject, AddressSpace, KernelHeap: 512 for the elements of a
    4 KiB slab of 8-byte elements).  The theorems show for every such loop
    that the fuel is enough under the invariant of the component, so they
    assert that the call returns.  A loop that polls a device returns when the
    device answers within the fuel, and that it does is a hypothesis about the
    device ([polls], [controller_resets]).  Where the code itself does not terminate
    (a hash of a string of 256 characters, [Hash_String_loop_stuck]) it is
    shown that no fuel is enough.

    Concurrency.  The kernel runs on one processor.  In [Ipc], [Process] and
    [Startup] a kernel entry runs to its end or to its blocking point as one
    step, and a blocked call continues as a step of its own; interleavings are
    sequences of such steps, and the invariants are proved over all of them.
    That is a restriction: system calls run with interrupts enabled
    (zion/syscall/syscall_enter.s), so the theorems on sequences of entries are
    about runs in which no timer tick comes inside of an entry, and they say so.
    Where finer steps matter they are modelled.  [Sched] splits the blocking of a
    thread ([block_begin], then [Yield]) and proves what a tick between the two
    does: the thread is in two queues, and the kernel can panic
    ([interrupted_lock]).  [Teardown] allows a tick between any two statements
    and shows that a process that has exited does not get the processor again.
    [Ahci] has the two stores of IssueCommand as two steps, and [Denali] a list
    of what happens between them ([w_windows]); the theorems on reads exclude an
    interrupt handled there, and [read_returns_without_data] shows what it does.
    In [XhciInit] the interrupt thread has turns before and after the no-op of
    the start-up, and a store to a port register has the effect of that register
    (bits that are read-only, cleared or set by ones).

    ** What is proved

    - Containers: refinement.  HashMap implements a finite map with the code's
      error codes, BinaryTree a sorted map (insert, find, predecessor,
      successor), IntrusiveList and Vector sequences.  The cases where the
      code departs from that (BinaryTree::Delete of a node with two children,
      HashMap::at of a missing key, pushing an object that is queued already)
      are theorems as well.
    - Memory: every physical page is in one place (conservation), memory
      objects give each page number one page, mappings stay disjoint, MapPage
      and UnmapPage change exactly one translation, a handled page fault makes
      the address translate to the right page, stacks do not overlap, and
      neither heap ever hands out overlapping blocks.
    - Capabilities and IPC: no sequence of system calls amplifies authority,
      the table is a map with fresh ids, a message and its reply arrive
      unchanged, and no sequence of IPC, capability, lock and interrupt entries,
      uninterrupted and with readable buffers and room in the tables, panics.
    - Scheduling: the queues hold each thread at most once, in the state the
      queue stands for, and the scheduler does not panic as long as threads
      end by exiting themselves and no tick comes inside of an operation; what
      happens otherwise.
    - Processes: spawning hands over the bootstrap capability and nothing
      else, or reports the error of its branch; a process that exits, with any
      number of threads, never gets the processor again as long as no dying
      thread is started anew; the cleanup thread finishes its threads, wakes
      those that wait, empties its table, and gives back its stacks and mappings.
    - Serialisation, services and strings: every generated message survives a
      round trip, calling a service method is calling its handler (within the
      limits of the kernel on messages), formatting and splitting meet their specifications.
    - Disk and files: the command slots of a port implement a table of
      commands but for an interrupt handled between the stores that issue a
      command; without one, a disk read returns the sectors asked for under every
      schedule of the device that serves it, and answers Ok also when the device
      reports an error; merging runs of blocks does not change
      what is read, an inode is read in the order of its block map (1 KiB
      blocks, no triple-indirect block, no empty file), and opening
      and listing a path resolve it from the root.  Put together: opening any
      sequence of paths answers what the inodes on such a disk say.
    - USB: completions are matched with the commands they answer and take a
      device from its port to its configuration, a control transfer signals its
      semaphore once, and keyboard listeners get exactly the keys with codes
      below 31 that went down (larger codes are undefined).
    - Pointers: after any sequence of operations on reference-counted pointers
      each count is the number of pointers, so nothing dangles or leaks; what
      SharedPtr does where it departs from that.
    - Boot: probing the firmware tables learns what the tables with a correct
      sum say, and nothing when a sum of the roots is wrong; after start-up every interrupt line leads to its own handler
      and the timer has the calibrated count; the loader maps the segments of
      a program with their bytes; the first program names exactly what the
      loader put into its port.
    - Exceptions: a fault of a program is resolved or ends that program and
      nothing else, unless the handler cannot read the frame pointers of the
      program, in which case the kernel faults.
    - System calls and start-up: a call through the stub, the structure in
      memory, the switch and the handler does what the call means and writes
      only where the program pointed; a start-up that reaches the scheduler
      leaves one described state, in which the invariant of the entries of [Ipc]
      holds, so the theorems on sequences of those entries apply from there on.
    - Debug output: a line of dbgln is printed completely or cut with a mark, no
      store leaves a buffer, and printing ends; dbgln_large prints all of its text.
    - Programs: a service that registers has an endpoint, a ready server
      thread on it, and hands out a capability that can send but not receive;
      a program's allocator is started once; the kernel's [new] fills exactly
      its block; owners of allocations neither leak nor free twice.
    - Start-up of the devices: the AHCI controller ends up with an identified,
      idle disk that the read handlers serve, the xHCI controller runs on the
      driver's rings with its connected ports in reset; a memory region is in the
      mapping tree from its construction until it goes out of scope.

    ** What is not modelled

    Code of other languages (rust/, yunq/), the toolchain and the test programs
    (usr/testbed); the structures of the boot loader's protocol
    (zion/boot/limine.h, third party; what they hold is data of [Startup] and a
    parameter of the loader); assembly, except for what crt0.s and the wrappers
    of privileged instructions mean; dumps of registers and of heap statistics,
    which are compiled out or which nothing calls (XhciDriver::DumpDebugInfo
    also writes port registers).  The bodies of the drivers' start-up are
    arguments of the programs in [Mains] and are modelled against their devices
    in [AhciInit], [Mount] and [XhciInit].  Elsewhere in the library pointers
    are values or store locations and destructors operations of their own.  The
    manifest lists every part with its reason. *)

From Stdlib Require Import ZArith Lia.
From stdpp Require Import base tactics numbers list gmap.

Open Scope Z_scope.

(** ** Outcomes of kernel and library code

    Code compiled from C++ either returns, stops the machine through
    [panic] (zion/debug/debug.h), performs an operation the language leaves
    undefined or the processor traps on (null dereference, index out of
    bounds, division by zero), or is still running when the fuel given to a
    loop is used up. *)
Inductive res (A : Type) : Type :=
| Ret (a : A)
| Panic
| Fault
| NoFuel.
Arguments Ret {A} a.
Arguments Panic {A}.
Arguments Fault {A}.
Arguments NoFuel {A}.

#[export] Instance res_ret : MRet res := fun A a => Ret a.
#[export] Instance res_bind : MBind res := fun A B f m =>
  match m with
  | Ret a => f a
  | Panic => Panic
  | Fault => Fault
  | NoFuel => NoFuel
  end.

(** A pointer or array access that must be valid. *)
Definition deref {A} (o : option A) : res A :=
  match o with
  | Some a => Ret a
  | None => Fault
  end.

Lemma bind_Ret {A B} (m : res A) (f : A -> res B) b :
  m ≫= f = Ret b -> exists a, m = Ret a /\ f a = Ret b.
Proof. destruct m; cbn; intros H; try discriminate; eauto. Qed.

Lemma ret_bind {A B} (a : A) (f : A -> res B) : Ret a ≫= f = f a.
Proof. done. Qed.

Lemma deref_Ret {A} (o : option A) a : deref o = Ret a -> o = Some a.
Proof. destruct o; cbn; congruence. Qed.

Lemma bind_assoc {A B C} (m : res A) (f : A -> res B) (g : B -> res C) :
  (m ≫= f) ≫= g = m ≫= (fun a => f a ≫= g).
Proof. by destruct m. Qed.

(** Whether a computation returns, for concrete runs. *)
Definition is_ret {A} (m : res A) : bool := match m with Ret _ => true | _ => false end.

Lemma is_ret_Ret {A} (m : res A) : is_ret m = true -> exists a, m = Ret a.
Proof. destruct m; try done. eauto. Qed.

(** ** Machine integers

    A [w]-bit unsigned integer is a [Z] in [[0, 2^w)]; the arithmetic of
    uint64_t, uint32_t, uint16_t and uint8_t is reduced modulo [2^w]. *)
Definition u64 (z : Z) : Z := z mod 2 ^ 64.
Definition u32 (z : Z) : Z := z mod 2 ^ 32.
Definition u16 (z : Z) : Z := z mod 2 ^ 16.
Definition u8 (z : Z) : Z := z mod 2 ^ 8.

Declare Scope word_scope.
Delimit Scope word_scope with word.
Notation "a [+] b" := (u64 (a + b)) (at level 50, left associativity) : word_scope.
Notation "a [-] b" := (u64 (a - b)) (at level 50, left associativity) : word_scope.
Notation "a [*] b" := (u64 (a * b)) (at level 40, left associativity) : word_scope.
Open Scope word_scope.

(** Bitwise complement of a 64-bit constant, C++ [~c]. *)
Definition not64 (z : Z) : Z := Z.lxor (2 ^ 64 - 1) z.

(** [is_u64 z]: [z] is the value of a uint64_t. *)
Definition is_u64 (z : Z) : Prop := 0 <= z < 2 ^ 64.

#[export] Instance is_u64_dec z : Decision (is_u64 z).
Proof. unfold is_u64. apply _. Defined.

Lemma u64_small z : 0 <= z < 2 ^ 64 -> u64 z = z.
Proof. apply Z.mod_small. Qed.

Lemma u64_range z : 0 <= u64 z < 2 ^ 64.
Proof. apply Z.mod_pos_bound. lia. Qed.

Lemma u64_is_u64 z : is_u64 (u64 z).
Proof. apply u64_range. Qed.

Lemma u64_u64 z : u64 (u64 z) = u64 z.
Proof. apply Z.mod_mod. lia. Qed.

Lemma u64_add_l a b : u64 (u64 a + b) = u64 (a + b).
Proof. apply Z.add_mod_idemp_l. lia. Qed.

Lemma u64_add_r a b : u64 (a + u64 b) = u64 (a + b).
Proof. apply Z.add_mod_idemp_r. lia. Qed.

Lemma u8_range z : 0 <= u8 z < 2 ^ 8.
Proof. apply Z.mod_pos_bound. lia. Qed.

Lemma u32_small z : 0 <= z < 2 ^ 32 -> u32 z = z.
Proof. apply Z.mod_small. Qed.

Lemma u32_range z : 0 <= u32 z < 2 ^ 32.
Proof. apply Z.mod_pos_bound. lia. Qed.

(** Clearing the low [k] bits rounds down to a multiple of [2^k]: the C++
    idiom [x & ~(2^k - 1)]. *)
Lemma land_not64_low x k :
  0 <= k <= 64 -> 0 <= x < 2 ^ 64 ->
  Z.land x (not64 (2 ^ k - 1)) = x - x mod 2 ^ k.
Proof.
  intros Hk Hx.
  replace (x - x mod 2 ^ k) with (Z.ldiff x (Z.ones k)).
  - unfold not64.
    replace (2 ^ 64 - 1) with (Z.ones 64) by (rewrite Z.ones_equiv; lia).
    replace (2 ^ k - 1) with (Z.ones k) by (rewrite Z.ones_equiv; lia).
    apply Z.bits_inj'. intros n Hn.
    rewrite Z.land_spec, Z.lxor_spec, Z.ldiff_spec.
    destruct (Z.lt_ge_cases n 64).
    + rewrite (Z.ones_spec_low 64) by lia. by destruct (Z.testbit x n).
    + rewrite (Z.ones_spec_high 64), (Z.ones_spec_high k) by lia.
      rewrite andb_false_r, andb_true_r.
      destruct (decide (x = 0)) as [->|]; [by rewrite Z.bits_0|].
      symmetry. apply Z.bits_above_log2; [lia|].
      apply Z.log2_lt_pow2; [lia|].
      apply Z.lt_le_trans with (2 ^ 64); [lia|]. apply Z.pow_le_mono_r; lia.
  - rewrite Z.ldiff_ones_r by lia.
    rewrite Z.shiftl_mul_pow2, Z.shiftr_div_pow2 by lia.
    pose proof (Z.div_mod x (2 ^ k)). lia.
Qed.

(** Masking with [2^k - 1] is the remainder. *)
Lemma land_low x k : 0 <= k -> Z.land x (2 ^ k - 1) = x mod 2 ^ k.
Proof.
  intros. rewrite <- Z.land_ones by lia. rewrite Z.ones_equiv. f_equal; lia.
Qed.

(** ** List lemmas shared by the containers *)
Section list_lemmas.
Context {A : Type}.
Implicit Types l : list A.

Lemma length_Z_app l k :
  Z.of_nat (length (l ++ k)) = Z.of_nat (length l) + Z.of_nat (length k).
Proof. rewrite length_app. lia. Qed.

Lemma lookup_snoc_Some l (x y : A) i :
  (l ++ [x]) !! i = Some y <->
  (i < length l)%nat /\ l !! i = Some y \/ i = length l /\ x = y.
Proof.
  split.
  - intros [?|[? H]]%lookup_app_Some.
    + left. split; [by eapply lookup_lt_Some|done].
    + right. apply list_lookup_singleton_Some in H as [? ->]. split; [lia|done].
  - intros [[? ?]|[-> ->]].
    + by rewrite lookup_app_l.
    + rewrite lookup_app_r by lia. by rewrite Nat.sub_diag.
Qed.

Lemma take_insert_app l n (x : A) :
  (n < length l)%nat -> take (S n) (<[n:=x]> l) = take n l ++ [x].
Proof.
  intros H. rewrite (take_S_r _ _ x).
  - by rewrite take_insert_ge by lia.
  - by apply list_lookup_insert_eq.
Qed.

Lemma filter_Forall_id (P : A -> Prop) `{forall x, Decision (P x)} l :
  Forall P l -> filter P l = l.
Proof.
  induction 1 as [|x l Hx Hl IH]; [done|]. by rewrite filter_cons_True, IH.
Qed.

Lemma filter_Forall_nil (P : A -> Prop) `{forall x, Decision (P x)} l :
  Forall (fun x => ~ P x) l -> filter P l = [].
Proof.
  induction 1 as [|x l Hx Hl IH]; [done|]. by rewrite filter_cons_False, IH.
Qed.
End list_lemmas.

(** ** Automation *)

(** [crush_res] inverts an equation [m = Ret v] on the bind structure of [m]. *)
Ltac res_inv1 :=
  match goal with
  | H : _ ≫= _ = Ret _ |- _ =>
      let x := fresh "x" in
      let H1 := fresh "Hm" in
      let H2 := fresh "Hk" in
      apply bind_Ret in H as (x & H1 & H2)
  | H : deref _ = Ret _ |- _ => apply deref_Ret in H
  | H : Ret _ = Ret _ |- _ => injection H; clear H; intros; subst
  | H : mret _ = Ret _ |- _ => injection H; clear H; intros; subst
  | H : Panic = Ret _ |- _ => discriminate H
  | H : Fault = Ret _ |- _ => discriminate H
  | H : NoFuel = Ret _ |- _ => discriminate H
  | p : (_ * _)%type |- _ => destruct p
  end.
Ltac res_inv := repeat (res_inv1; cbn in *).

(** [case_if] splits on the test of the first [if] of the goal. *)
Ltac case_if_goal :=
  match goal with
  | |- context [if ?b then _ else _] => let E := fresh "E" in destruct b eqn:E
  end.
Ltac case_if_hyp H :=
  match type of H with
  | context [if ?b then _ else _] => let E := fresh "E" in destruct b eqn:E
  end.

(** Turns boolean comparisons of the hypotheses into propositions. *)
Ltac zb :=
  repeat match goal with
  | H : (_ <? _) = true |- _ => apply Z.ltb_lt in H
  | H : (_ <? _) = false |- _ => apply Z.ltb_ge in H
  | H : (_ <=? _) = true |- _ => apply Z.leb_le in H
  | H : (_ <=? _) = false |- _ => apply Z.leb_gt in H
  | H : (_ =? _) = true |- _ => apply Z.eqb_eq in H
  | H : (_ =? _) = false |- _ => apply Z.eqb_neq in H
  | H : (_ && _)%bool = true |- _ => apply andb_true_iff in H as [? ?]
  | H : (_ || _)%bool = false |- _ => apply orb_false_iff in H as [? ?]
  | H : negb _ = true |- _ => apply negb_true_iff in H
  | H : negb _ = false |- _ => apply negb_false_iff in H
  end.

Create HintDb acadia.
Create Rewrite HintDb acadia.
#[export] Hint Resolve u64_range u64_is_u64 u8_range u32_range : acadia.
#[export] Hint Rewrite @length_insert @length_app @length_take @length_drop : acadia.
