(* ===== verification/Status.v ===== *)
(** * Status codes (lib/glacier/status)

    The [ErrorCode] enumeration, its printing, the [ErrorOr] union and the
    [Status] class with its constructors. *)

From Stdlib Require Import ZArith Lia.
From stdpp Require Import base tactics numbers list strings.
From S2P Require Import Prelude.

(** status/error.h, [enum ErrorCode : uint64_t]. *)
Inductive ErrorCode : Type :=
| OK
| INVALID_ARGUMENT
| NOT_FOUND
| PERMISSION_DENIED
| NULL_PTR
| EMPTY
| ALREADY_EXISTS
| BUFFER_SIZE
| FAILED_PRECONDITION
| INTERNAL
| UNIMPLEMENTED
| EXHAUSTED
| INVALID_RESPONSE
| CAP_NOT_FOUND
| CAP_WRONG_TYPE
| CAP_PERMISSION_DENIED.

#[export] Instance ErrorCode_eq_dec : EqDecision ErrorCode.
Proof. solve_decision. Defined.

(** The numeric value an enumerator is sent to user space as. *)
Definition ErrorCode_val (c : ErrorCode) : Z :=
  match c with
  | OK => 0x0
  | INVALID_ARGUMENT => 0x1
  | NOT_FOUND => 0x2
  | PERMISSION_DENIED => 0x3
  | NULL_PTR => 0x4
  | EMPTY => 0x5
  | ALREADY_EXISTS => 0x6
  | BUFFER_SIZE => 0x7
  | FAILED_PRECONDITION => 0x8
  | INTERNAL => 0x100
  | UNIMPLEMENTED => 0x101
  | EXHAUSTED => 0x102
  | INVALID_RESPONSE => 0x103
  | CAP_NOT_FOUND => 0x1000
  | CAP_WRONG_TYPE => 0x1001
  | CAP_PERMISSION_DENIED => 0x1002
  end.

Definition all_codes : list ErrorCode :=
  [OK; INVALID_ARGUMENT; NOT_FOUND; PERMISSION_DENIED; NULL_PTR; EMPTY;
   ALREADY_EXISTS; BUFFER_SIZE; FAILED_PRECONDITION; INTERNAL; UNIMPLEMENTED;
   EXHAUSTED; INVALID_RESPONSE; CAP_NOT_FOUND; CAP_WRONG_TYPE;
   CAP_PERMISSION_DENIED].

(** [static_cast<ErrorCode>]: the enumerator of a value, when it is one. *)
Definition ErrorCode_of (z : Z) : option ErrorCode :=
  list_find (fun c => ErrorCode_val c = z) all_codes ≫= fun p => Some p.2.

(** status/error.cpp, [ErrorCodeToStr]: a switch over the raw value. *)
Definition ErrorCodeToStr (code : Z) : string :=
  match ErrorCode_of code with
  | Some OK => "OK"
  | Some INVALID_ARGUMENT => "INVALID_ARGUMENT"
  | Some NOT_FOUND => "NOT_FOUND"
  | Some PERMISSION_DENIED => "PERMISSION_DENIED"
  | Some NULL_PTR => "NULL_PTR"
  | Some EMPTY => "EMPTY"
  | Some ALREADY_EXISTS => "ALREADY_EXISTS"
  | Some BUFFER_SIZE => "BUFFER_SIZE"
  | Some FAILED_PRECONDITION => "FAILED_PRECONDITION"
  | Some INTERNAL => "INTERNAL"
  | Some UNIMPLEMENTED => "UNIMPLEMENTED"
  | Some EXHAUSTED => "EXHAUSTED"
  | Some INVALID_RESPONSE => "INVALID_RESPONSE"
  | Some CAP_NOT_FOUND => "CAP_NOT_FOUND"
  | Some CAP_WRONG_TYPE => "CAP_WRONG_TYPE"
  | Some CAP_PERMISSION_DENIED => "CAP_PERMISSION_DENIED"
  | None => "UNKNOWN"
  end.

(** status/error_or.h, [ErrorOr<T>]: the union of an error and a value with
    the [ok_] flag that says which one is live. *)
Inductive ErrorOr (T : Type) : Type :=
| EErr (error_ : ErrorCode)
| EOk (obj_ : T).
Arguments EErr {T} error_.
Arguments EOk {T} obj_.

Definition ErrorOr_ok {T} (e : ErrorOr T) : bool :=
  match e with EOk _ => true | EErr _ => false end.

(** [ASSIGN_OR_RETURN]: continue with the value, return the error. *)
#[export] Instance ErrorOr_bind : MBind ErrorOr := fun A B f m =>
  match m with EErr e => EErr e | EOk a => f a end.
#[export] Instance ErrorOr_ret : MRet ErrorOr := fun A a => EOk a.

(** status/status.h, [class Status]. *)
Record Status : Type := mkStatus { code_ : ErrorCode; message_ : string }.

Definition Status_Ok : Status := mkStatus OK "".
Definition Status_ok (s : Status) : bool := bool_decide (code_ s = OK).
Definition InvalidArgument (m : string) : Status := mkStatus INVALID_ARGUMENT m.
Definition NotFound (m : string) : Status := mkStatus NOT_FOUND m.

(** The codes of the enumeration are pairwise distinct on the wire, so a
    client recovers the enumerator from the value. *)
Lemma ErrorCode_of_val c : ErrorCode_of (ErrorCode_val c) = Some c.
Proof. by destruct c. Qed.

#[export] Instance ErrorCode_val_inj : Inj (=) (=) ErrorCode_val.
Proof.
  intros a b H. apply (f_equal ErrorCode_of) in H.
  rewrite !ErrorCode_of_val in H. congruence.
Qed.
