(* ===== verification/LinkedList.v ===== *)
(** * LinkedList (lib/glacier/container/linked_list.h)

    The singly linked list of the kernel and the user libraries.  Every
    [ListItem] is owned by exactly one predecessor (or [front_]), so the
    chain that starts at [front_] is a Rocq list; [size_] is the separate
    counter the code keeps beside it. *)

From Stdlib Require Import ZArith Lia.
From stdpp Require Import base tactics numbers list gmap.
From S2P Require Import Prelude.

Record LinkedList (T : Type) : Type := mkLL { front_ : list T; size_ : Z }.
Arguments mkLL {T} front_ size_.
Arguments front_ {T} l.
Arguments size_ {T} l.

Section ops.
Context {T : Type}.
Implicit Types l : LinkedList T.

Definition ll_new : LinkedList T := mkLL [] 0.

Definition ll_empty l : bool := size_ l =? 0.

(** [PeekFront]: dereferences [front_]. *)
Definition ll_PeekFront l : res T := deref (head (front_ l)).

(** [PopFront]: the counter is decremented before [front_] is read. *)
Definition ll_PopFront l : res (T * LinkedList T) :=
  match front_ l with
  | [] => Fault
  | item :: next => Ret (item, mkLL next (size_ l [-] 1))
  end.

Definition ll_PushFront (item : T) l : LinkedList T :=
  mkLL (item :: front_ l) (size_ l [+] 1).

(** The [while (litem->next != nullptr)] walk of [PushBackInternal], from a
    node that is not null. *)
Fixpoint link_at_end (litem : T) (next : list T) (new_item : T) : list T :=
  match next with
  | [] => [litem; new_item]
  | litem' :: next' => litem :: link_at_end litem' next' new_item
  end.

Definition ll_PushBack (item : T) l : LinkedList T :=
  match front_ l with
  | [] => mkLL [item] (size_ l [+] 1)
  | litem :: next => mkLL (link_at_end litem next item) (size_ l [+] 1)
  end.

Context `{EqDecision T}.

(** The loop of [Remove] over [iter], looking one node ahead; [None] when
    it runs off the end without unlinking anything. *)
Fixpoint unlink_after (iter : T) (next : list T) (item : T) : option (list T) :=
  match next with
  | [] => None
  | n :: next' =>
      if decide (n = item) then Some (iter :: next')
      else r ← unlink_after n next' item; Some (iter :: r)
  end.

Definition ll_Remove (item : T) l : res (LinkedList T) :=
  match front_ l with
  | [] => Fault
  | f :: next =>
      if decide (f = item) then '(_, l') ← ll_PopFront l; Ret l'
      else
        match unlink_after f next item with
        | Some c => Ret (mkLL c (size_ l [-] 1))
        | None => Ret l
        end
  end.
End ops.

(** ** Specification *)

(** The counter agrees with the chain. *)
Definition ll_wf {T} (l : LinkedList T) : Prop :=
  size_ l = Z.of_nat (length (front_ l)) /\ Z.of_nat (length (front_ l)) < 2 ^ 64 - 1.

(** What [Remove] promises: the first occurrence goes, the rest stays in order. *)
Fixpoint remove_first {T} `{EqDecision T} (x : T) (l : list T) : list T :=
  match l with
  | [] => []
  | y :: l' => if decide (y = x) then l' else y :: remove_first x l'
  end.

Section spec.
Context {T : Type}.
Implicit Types l : LinkedList T.

Lemma link_at_end_app (x : T) next y : link_at_end x next y = x :: next ++ [y].
Proof. revert x. induction next as [|z next IH]; intros x; cbn; [done|by rewrite IH]. Qed.

Lemma front_PushBack (x : T) l : front_ (ll_PushBack x l) = front_ l ++ [x].
Proof. unfold ll_PushBack. destruct (front_ l); cbn; [done|]. apply link_at_end_app. Qed.

Lemma size_PushBack (x : T) l : size_ (ll_PushBack x l) = size_ l [+] 1.
Proof. unfold ll_PushBack. by destruct (front_ l). Qed.

Lemma ll_empty_spec l : ll_wf l -> ll_empty l = true <-> front_ l = [].
Proof.
  intros [Hs _]. unfold ll_empty. rewrite Hs, Z.eqb_eq.
  destruct (front_ l); cbn; split; try done; lia.
Qed.

Lemma ll_new_wf : ll_wf (@ll_new T).
Proof. by split. Qed.

Lemma ll_PushFront_wf (x : T) l :
  ll_wf l -> size_ l < 2 ^ 64 - 2 -> ll_wf (ll_PushFront x l).
Proof.
  intros [Hs Hb] Hlt. unfold ll_wf, ll_PushFront; cbn [front_ size_ length].
  rewrite u64_small by lia. lia.
Qed.

Lemma ll_PushBack_wf (x : T) l :
  ll_wf l -> size_ l < 2 ^ 64 - 2 -> ll_wf (ll_PushBack x l).
Proof.
  intros [Hs Hb] Hlt. unfold ll_wf. rewrite front_PushBack, size_PushBack, length_Z_app.
  cbn [length]. rewrite u64_small by lia. lia.
Qed.

Lemma ll_PopFront_spec l x l' :
  ll_wf l -> ll_PopFront l = Ret (x, l') -> front_ l = x :: front_ l' /\ ll_wf l'.
Proof.
  intros [Hs Hb]. unfold ll_PopFront. destruct (front_ l) as [|y c] eqn:Ef; [done|].
  intros [= -> <-]. cbn. split; [done|]. unfold ll_wf; cbn [front_ size_ length] in *.
  rewrite u64_small by lia. lia.
Qed.

Context `{EqDecision T}.

Lemma unlink_after_spec (f : T) next x :
  unlink_after f next x =
    if decide (x ∈ next) then Some (f :: remove_first x next) else None.
Proof.
  revert f. induction next as [|n next IH]; intros f; cbn [unlink_after remove_first].
  - rewrite decide_False; [done|]. by apply not_elem_of_nil.
  - destruct (decide (n = x)) as [->|Hne].
    + rewrite decide_True; [done|]. by left.
    + rewrite IH. destruct (decide (x ∈ next)); cbn.
      * rewrite decide_True by (by right). done.
      * rewrite decide_False; [done|]. intros [->|?]%elem_of_cons; done.
Qed.

Lemma length_remove_first (x : T) c :
  x ∈ c -> length c = S (length (remove_first x c)).
Proof.
  induction c as [|y c IH]; [by intros ?%elem_of_nil|]. intros Hin. cbn.
  destruct (decide (y = x)) as [|Hne]; [done|]. cbn. f_equal. apply IH.
  apply elem_of_cons in Hin as [->|?]; done.
Qed.

Lemma remove_first_not_in (x : T) c : x ∉ c -> remove_first x c = c.
Proof.
  induction c as [|y c IH]; [done|]. intros Hn. cbn.
  rewrite decide_False; [f_equal; apply IH|]; set_solver.
Qed.

Lemma remove_first_perm (x : T) c : x ∈ c -> c ≡ₚ x :: remove_first x c.
Proof.
  induction c as [|y c IH]; [by intros ?%elem_of_nil|]. intros Hin. cbn.
  destruct (decide (y = x)) as [->|Hne]; [done|].
  rewrite Permutation_swap. constructor. apply IH.
  apply elem_of_cons in Hin as [->|?]; done.
Qed.

(** [Remove] on a non-empty list unlinks exactly the first node equal to
    [item] and keeps counter and chain in step. *)
Lemma ll_Remove_spec (x : T) l :
  ll_wf l -> front_ l <> [] ->
  exists l', ll_Remove x l = Ret l' /\ front_ l' = remove_first x (front_ l) /\ ll_wf l'.
Proof.
  intros [Hs Hb] Hne. unfold ll_Remove, ll_PopFront.
  destruct (front_ l) as [|f c] eqn:Ef; [done|]. cbn [remove_first].
  cbn [length] in *. destruct (decide (f = x)) as [->|Hfx].
  - eexists. split; [done|]. cbn. split; [done|]. unfold ll_wf; cbn [front_ size_].
    rewrite u64_small; lia.
  - rewrite unlink_after_spec. destruct (decide (x ∈ c)) as [Hin|Hin].
    + eexists. split; [done|]. cbn. split; [done|]. unfold ll_wf; cbn [front_ size_ length].
      pose proof (length_remove_first x c Hin). rewrite u64_small; lia.
    + exists l. split; [done|]. rewrite remove_first_not_in by done. split; [done|].
      unfold ll_wf. rewrite Ef. cbn. lia.
Qed.
End spec.
