(* ===== verification/Hash.v ===== *)
(** * Hash functions (lib/glacier/util/hash.h, hash.cpp)

    The FNV-1 style hashes of 64-bit keys and of strings, and the interface
    [Hash<T>] that HashMap takes its hash function from. *)

From Stdlib Require Import ZArith Lia.
From stdpp Require Import base tactics numbers list gmap.
From S2P Require Import Prelude.

(** [template <typename T> struct Hash]: a uint64_t for every key. *)
Class Hash (K : Type) : Type := {
  hash_of : K -> Z;
  hash_of_range k : 0 <= hash_of k < 2 ^ 64;
}.

Definition kFnvOffset : Z := 0xcbf29ce484222325.
Definition kFnvPrime : Z := 0x100000001b3.

(** The body of both loops: [hash *= kFnvPrime; hash ^= c]. *)
Definition fnv_step (hash c : Z) : Z := Z.lxor (hash [*] kFnvPrime) c.

(** [Hash<uint64_t>::operator()]: the eight bytes, least significant first. *)
Definition Hash_uint64 (value : Z) : Z :=
  fold_left (fun hash i => fnv_step hash (Z.land (Z.shiftr value (8 * i)) 0xFF))
    [0; 1; 2; 3; 4; 5; 6; 7] kFnvOffset.

(** [Hash<String>::operator()].  The loop counter is a uint8_t, and [char] is
    a signed byte that is sign-extended before the exclusive or. *)
Fixpoint Hash_String_loop (fuel : nat) (value : list Z) (i hash : Z) : res Z :=
  match fuel with
  | O => NoFuel
  | S fuel =>
      if i <? Z.of_nat (length value) then
        c ← deref (value !! Z.to_nat i);
        Hash_String_loop fuel value (u8 (i + 1)) (fnv_step hash (u64 c))
      else Ret hash
  end.

Definition Hash_String (fuel : nat) (value : list Z) : res Z :=
  Hash_String_loop fuel value 0 kFnvOffset.

(** The FNV hash the loop means to compute: all characters in order. *)
Definition fnv_all (value : list Z) (hash : Z) : Z :=
  fold_left (fun h c => fnv_step h (u64 c)) value hash.

(** ** Range of the hashes *)
Lemma lxor_u64 a b : 0 <= a < 2 ^ 64 -> 0 <= b < 2 ^ 64 -> 0 <= Z.lxor a b < 2 ^ 64.
Proof.
  intros Ha Hb. split; [by apply Z.lxor_nonneg; lia|].
  destruct (decide (Z.lxor a b = 0)) as [->|Hne]; [lia|].
  assert (0 <= Z.lxor a b) by (apply Z.lxor_nonneg; lia).
  apply Z.log2_lt_pow2; [lia|].
  eapply Z.le_lt_trans; [apply Z.log2_lxor; lia|].
  apply Z.max_lub_lt.
  - destruct (decide (a = 0)) as [->|]; [done|]. apply Z.log2_lt_pow2; lia.
  - destruct (decide (b = 0)) as [->|]; [done|]. apply Z.log2_lt_pow2; lia.
Qed.

Lemma fnv_step_range h c : 0 <= c < 2 ^ 64 -> 0 <= fnv_step h c < 2 ^ 64.
Proof. intros. apply lxor_u64; [apply u64_range|done]. Qed.

Lemma Hash_uint64_range v : 0 <= Hash_uint64 v < 2 ^ 64.
Proof.
  unfold Hash_uint64. cbn [fold_left]. apply fnv_step_range.
  change 0xFF with (Z.ones 8). rewrite Z.land_ones by lia.
  pose proof (Z.mod_pos_bound (Z.shiftr v (8 * 7)) (2 ^ 8)). lia.
Qed.

#[export] Instance Hash_Z : Hash Z :=
  {| hash_of := Hash_uint64; hash_of_range := Hash_uint64_range |}.

(** ** The string loop *)

Lemma Hash_String_loop_run value i hash fuel :
  Z.of_nat (length value) < 256 ->
  (i <= length value)%nat ->
  (length value - i < fuel)%nat ->
  Hash_String_loop fuel value (Z.of_nat i) hash = Ret (fnv_all (drop i value) hash).
Proof.
  intros Hlen. revert i hash. induction fuel as [|fuel IH]; intros i hash Hi Hf; [lia|].
  cbn [Hash_String_loop]. destruct (decide (i = length value)) as [->|Hne].
  - rewrite Z.ltb_irrefl. rewrite drop_ge by lia. done.
  - destruct (Z.ltb_spec (Z.of_nat i) (Z.of_nat (length value))); [|lia].
    destruct (lookup_lt_is_Some_2 value i) as [c Hc]; [lia|].
    rewrite Nat2Z.id, Hc. cbn [deref mbind res_bind].
    unfold u8. rewrite Z.mod_small by lia.
    replace (Z.of_nat i + 1) with (Z.of_nat (S i)) by lia.
    rewrite IH by lia. rewrite (drop_S value c i) by done. done.
Qed.

(** Strings shorter than 256 characters hash to the FNV value of all their
    characters. *)
Lemma Hash_String_short value :
  Z.of_nat (length value) < 256 ->
  Hash_String (S (length value)) value = Ret (fnv_all value kFnvOffset).
Proof.
  intros H. unfold Hash_String. change 0 with (Z.of_nat 0).
  rewrite Hash_String_loop_run by lia. done.
Qed.

Lemma Hash_String_loop_stuck value i hash fuel :
  256 <= Z.of_nat (length value) -> 0 <= i < 256 ->
  Hash_String_loop fuel value i hash = NoFuel.
Proof.
  intros Hlen. revert i hash. induction fuel as [|fuel IH]; intros i hash Hi; [done|].
  cbn [Hash_String_loop]. destruct (Z.ltb_spec i (Z.of_nat (length value))); [|lia].
  destruct (lookup_lt_is_Some_2 value (Z.to_nat i)) as [c ->]; [lia|]. cbn.
  apply IH. apply u8_range.
Qed.
