(* ===== verification/HashMap.v ===== *)
(** * HashMap (lib/glacier/container/hash_map.h)

    Chained hashing over an [Array] of [LinkedList]s.  The map of a
    [HashMap] is read off its buckets ([hm_model]); every operation is
    related to the operation on finite maps it implements. *)

From Stdlib Require Import ZArith Lia.
From stdpp Require Import base tactics numbers list gmap fin_maps.
From S2P Require Import Prelude Status LinkedList Hash.

Record HashMap (K V : Type) : Type := mkHM {
  hm_data : list (LinkedList (K * V));
  hm_size : Z;
}.
Arguments mkHM {K V} hm_data hm_size.
Arguments hm_data {K V} h.
Arguments hm_size {K V} h.

Section ops.
Context {K V : Type} `{EqDecision K, EqDecision V, Hash K}.
Implicit Types m : HashMap K V.

Definition hm_new : HashMap K V := mkHM [] 0.

Definition data_size m : Z := Z.of_nat (length (hm_data m)).

(** [load]: the percentage, 100 for a zero-size array. *)
Definition load m : Z :=
  if data_size m =? 0 then 100 else (hm_size m [*] 100) / data_size m.

(** [hc % n]: the processor traps when [n] is zero. *)
Definition bucket_index (k : K) (n : Z) : res nat :=
  if n =? 0 then Fault else Ret (Z.to_nat (hash_of k mod n)).

(** [for (auto& pair : ll) if (pair.first() == key) ...] *)
Fixpoint find_pair (k : K) (c : list (K * V)) : option V :=
  match c with
  | [] => None
  | p :: c' => if decide (p.1 = k) then Some p.2 else find_pair k c'
  end.

(** [pair.second() = value] on the first pair with the key. *)
Fixpoint set_pair (k : K) (v : V) (c : list (K * V)) : option (list (K * V)) :=
  match c with
  | [] => None
  | p :: c' =>
      if decide (p.1 = k) then Some ((p.1, v) :: c')
      else r ← set_pair k v c'; Some (p :: r)
  end.

(** [Resize]: [while (!ll.empty())] pops each pair into its new bucket. *)
Fixpoint drain (fuel : nat) (ll : LinkedList (K * V)) (new_size : Z)
    (new_data : list (LinkedList (K * V))) : res (list (LinkedList (K * V))) :=
  if ll_empty ll then Ret new_data else
  match fuel with
  | O => NoFuel
  | S fuel =>
      '(p, ll') ← ll_PopFront ll;
      i ← bucket_index p.1 new_size;
      b ← deref (new_data !! i);
      drain fuel ll' new_size (<[i := ll_PushFront p b]> new_data)
  end.

Fixpoint rehash (data : list (LinkedList (K * V))) (new_size : Z)
    (new_data : list (LinkedList (K * V))) : res (list (LinkedList (K * V))) :=
  match data with
  | [] => Ret new_data
  | ll :: data' =>
      nd ← drain (length (front_ ll)) ll new_size new_data;
      rehash data' new_size nd
  end.

Definition Resize (new_size : Z) m : res (HashMap K V) :=
  nd ← rehash (hm_data m) new_size (replicate (Z.to_nat new_size) ll_new);
  Ret (mkHM nd (hm_size m)).

Definition ResizeIfNecessary m : res (HashMap K V) :=
  if data_size m =? 0 then Resize 8 m
  else if 75 <? load m then Resize (data_size m [*] 2) m
  else Ret m.

Definition Contains (k : K) m : res bool :=
  if data_size m =? 0 then Ret false else
  i ← bucket_index k (data_size m);
  ll ← deref (hm_data m !! i);
  Ret (bool_decide (is_Some (find_pair k (front_ ll)))).

(** [at]: a missing key is pushed with a default value; [size_] is not
    touched on that path. *)
Definition at_ (dflt : V) (k : K) m : res (V * HashMap K V) :=
  i ← bucket_index k (data_size m);
  ll ← deref (hm_data m !! i);
  match find_pair k (front_ ll) with
  | Some v => Ret (v, m)
  | None => Ret (dflt, mkHM (<[i := ll_PushFront (k, dflt) ll]> (hm_data m)) (hm_size m))
  end.

Definition Insert (k : K) (v : V) m : res (ErrorCode * HashMap K V) :=
  m ← ResizeIfNecessary m;
  i ← bucket_index k (data_size m);
  ll ← deref (hm_data m !! i);
  match find_pair k (front_ ll) with
  | Some _ => Ret (ALREADY_EXISTS, m)
  | None => Ret (OK, mkHM (<[i := ll_PushFront (k, v) ll]> (hm_data m)) (hm_size m [+] 1))
  end.

Definition Update (k : K) (v : V) m : res (ErrorCode * HashMap K V) :=
  m ← ResizeIfNecessary m;
  i ← bucket_index k (data_size m);
  ll ← deref (hm_data m !! i);
  match set_pair k v (front_ ll) with
  | Some c => Ret (OK, mkHM (<[i := mkLL c (size_ ll)]> (hm_data m)) (hm_size m))
  | None => Ret (NOT_FOUND, m)
  end.

Definition Delete (k : K) m : res (ErrorCode * HashMap K V) :=
  i ← bucket_index k (data_size m);
  ll ← deref (hm_data m !! i);
  match find_pair k (front_ ll) with
  | Some v =>
      ll' ← ll_Remove (k, v) ll;
      Ret (OK, mkHM (<[i := ll']> (hm_data m)) (hm_size m [-] 1))
  | None => Ret (NOT_FOUND, m)
  end.
End ops.

(** ** The map a HashMap stands for *)

Definition hm_pairs {K V} (data : list (LinkedList (K * V))) : list (K * V) :=
  data ≫= front_.

Definition hm_model {K V} `{Countable K} (m : HashMap K V) : gmap K V :=
  list_to_map (hm_pairs (hm_data m)).

(** Every key sits in the bucket of its hash. *)
Definition placed {K V} `{Hash K} (data : list (LinkedList (K * V))) : Prop :=
  forall i ll p, data !! i = Some ll -> p ∈ front_ ll ->
    Z.of_nat i = hash_of p.1 mod Z.of_nat (length data).

(** The invariant of the public operations.  The bound keeps [size_ * 100]
    within a uint64_t. *)
Record hm_wf {K V} `{Hash K} (m : HashMap K V) : Prop := {
  wf_lists : Forall ll_wf (hm_data m);
  wf_nodup : NoDup (hm_pairs (hm_data m)).*1;
  wf_placed : placed (hm_data m);
  wf_size : hm_size m = Z.of_nat (length (hm_pairs (hm_data m)));
  wf_bound : hm_size m < 2 ^ 56;
}.

Section buckets.
Context {K V : Type} `{Countable K, EqDecision V, !Hash K}.
Implicit Types (data : list (LinkedList (K * V))) (m : HashMap K V).

Lemma hm_pairs_lookup data i ll :
  data !! i = Some ll ->
  hm_pairs data = hm_pairs (take i data) ++ front_ ll ++ hm_pairs (drop (S i) data).
Proof.
  intros Hi. rewrite <- (take_drop_middle data i ll Hi) at 1.
  unfold hm_pairs. by rewrite bind_app, bind_cons.
Qed.

(** Replacing a bucket replaces its pairs, up to order. *)
Lemma hm_pairs_insert data i ll ll' :
  data !! i = Some ll ->
  front_ ll ++ hm_pairs (<[i := ll']> data) ≡ₚ front_ ll' ++ hm_pairs data.
Proof.
  intros Hi. assert (i < length data)%nat by (by eapply lookup_lt_Some).
  rewrite (hm_pairs_lookup data i ll Hi).
  rewrite (hm_pairs_lookup (<[i := ll']> data) i ll') by (by apply list_lookup_insert_eq).
  rewrite take_insert_ge, drop_insert_lt by lia. solve_Permutation.
Qed.

Lemma elem_of_hm_pairs data p :
  p ∈ hm_pairs data <-> exists i ll, data !! i = Some ll /\ p ∈ front_ ll.
Proof.
  unfold hm_pairs. rewrite list_elem_of_bind. setoid_rewrite list_elem_of_lookup.
  split.
  - intros (ll & Hin & i & Hi). eauto.
  - intros (i & ll & Hi & Hin). eauto.
Qed.

Lemma hm_pairs_replicate n : hm_pairs (replicate n (@ll_new (K * V))) = [].
Proof. induction n; [done|]. cbn. done. Qed.

Lemma length_bucket data i ll :
  data !! i = Some ll -> (length (front_ ll) <= length (hm_pairs data))%nat.
Proof. intros Hi. rewrite (hm_pairs_lookup _ _ _ Hi), !length_app. lia. Qed.

Lemma find_pair_Some (k : K) c (v : V) : find_pair k c = Some v -> (k, v) ∈ c.
Proof.
  induction c as [|[k' v'] c IH]; cbn; [done|].
  case_decide; [intros [= <-]; subst; by left|right; by apply IH].
Qed.

Lemma find_pair_None (k : K) (c : list (K * V)) : find_pair k c = None <-> k ∉ c.*1.
Proof.
  induction c as [|[k' v'] c IH]; cbn; [split; [intros _; apply not_elem_of_nil|done]|].
  case_decide; subst; rewrite not_elem_of_cons; naive_solver.
Qed.

Lemma bucket_index_lt (k : K) n :
  0 < n -> bucket_index k n = Ret (Z.to_nat (hash_of k mod n)) /\
           (Z.to_nat (hash_of k mod n) < Z.to_nat n)%nat.
Proof.
  intros Hn. unfold bucket_index. destruct (Z.eqb_spec n 0); [lia|].
  pose proof (Z.mod_pos_bound (hash_of k) n Hn). split; [done|lia].
Qed.

(** The bucket a key is looked up in. *)
Lemma bucket_ok data (k : K) :
  data <> [] -> exists i ll,
    bucket_index k (Z.of_nat (length data)) = Ret i /\ data !! i = Some ll /\
    Z.of_nat i = hash_of k mod Z.of_nat (length data).
Proof.
  intros Hd. destruct (bucket_index_lt k (Z.of_nat (length data))) as [Hi Hlt].
  { destruct data; cbn; [done|lia]. }
  rewrite Nat2Z.id in Hlt. destruct (lookup_lt_is_Some_2 data _ Hlt) as [ll Hll].
  exists (Z.to_nat (hash_of k mod Z.of_nat (length data))), ll. split_and!; [done|done|].
  rewrite Z2Nat.id; [done|]. apply Z.mod_pos_bound. destruct data; cbn in *; [done|lia].
Qed.

(** Searching one bucket is searching the whole table. *)
Lemma find_pair_bucket data k i ll :
  placed data -> NoDup (hm_pairs data).*1 -> data !! i = Some ll ->
  Z.of_nat i = hash_of k mod Z.of_nat (length data) ->
  find_pair k (front_ ll) = (list_to_map (hm_pairs data) : gmap K V) !! k.
Proof.
  intros Hp Hnd Hi Hik. destruct (find_pair k (front_ ll)) as [v|] eqn:E.
  - symmetry. apply elem_of_list_to_map_1; [done|]. apply elem_of_hm_pairs.
    exists i, ll. split; [done|]. by apply find_pair_Some.
  - symmetry. apply not_elem_of_list_to_map_1. intros Hin.
    apply list_elem_of_fmap in Hin as ([k' v] & -> & Hin).
    apply elem_of_hm_pairs in Hin as (j & ll' & Hj & Hin). cbn in Hik.
    pose proof (Hp j ll' _ Hj Hin) as Hjk. cbn in Hjk.
    assert (j = i) as -> by lia. assert (ll' = ll) as -> by congruence.
    apply find_pair_None in E. apply E. apply list_elem_of_fmap. by exists (k', v).
Qed.

Lemma placed_insert data i ll ll' :
  placed data -> data !! i = Some ll ->
  (forall p, p ∈ front_ ll' -> p ∈ front_ ll \/ Z.of_nat i = hash_of p.1 mod Z.of_nat (length data)) ->
  placed (<[i := ll']> data).
Proof.
  intros Hp Hi Hnew j lj p Hj Hin. rewrite length_insert.
  apply list_lookup_insert_Some in Hj as [(<- & <- & _)|[? Hj]]; [|by eapply Hp].
  destruct (Hnew p Hin); [by eapply Hp|done].
Qed.

Lemma nodup_perm_keys (l1 l2 : list (K * V)) : l1 ≡ₚ l2 -> NoDup l1.*1 -> NoDup l2.*1.
Proof. intros Hp. by rewrite Hp. Qed.
End buckets.

(** ** Resizing keeps every pair *)
Section resize.
Context {K V : Type} `{Countable K, EqDecision V, !Hash K}.
Implicit Types (data nd : list (LinkedList (K * V))) (m : HashMap K V).

Lemma drain_spec c s nd n :
  ll_wf (mkLL c s) -> placed nd -> Forall ll_wf nd ->
  Z.of_nat (length nd) = n -> 0 < n ->
  Z.of_nat (length c + length (hm_pairs nd)) < 2 ^ 57 ->
  exists nd', drain (length c) (mkLL c s) n nd = Ret nd' /\ placed nd' /\ Forall ll_wf nd' /\
    length nd' = length nd /\ hm_pairs nd' ≡ₚ c ++ hm_pairs nd.
Proof.
  revert s nd. induction c as [|p c IH]; intros s nd Hll Hp Hf Hlen Hn Hb.
  { exists nd. destruct Hll as [Hs _]. cbn in Hs. subst s. by cbn. }
  assert (ll_empty (mkLL (p :: c) s) = false) as He.
  { apply not_true_iff_false. rewrite ll_empty_spec by done. done. }
  cbn [drain length]. rewrite He.
  destruct (ll_PopFront_spec (mkLL (p :: c) s) p (mkLL c (s [-] 1)) Hll eq_refl) as [_ Hll'].
  cbn [ll_PopFront front_ size_ mbind res_bind].
  assert (nd <> []) as Hne by (intros ->; cbn in *; lia).
  destruct (bucket_ok nd p.1 Hne) as (i & b & Hi & Hb' & Hih). rewrite Hlen in *.
  rewrite Hi. cbn [mbind res_bind]. rewrite Hb'. cbn [deref mbind res_bind].
  pose proof (length_bucket _ _ _ Hb') as Hbl.
  assert (ll_wf b) as Hbwf by (by eapply Forall_lookup_1).
  pose proof (hm_pairs_insert nd i b (ll_PushFront p b) Hb') as Hperm. cbn [front_ ll_PushFront] in Hperm.
  assert (hm_pairs (<[i:=ll_PushFront p b]> nd) ≡ₚ p :: hm_pairs nd) as Hp2.
  { apply (Permutation_app_inv_l (front_ b)). rewrite Hperm. solve_Permutation. }
  edestruct (IH (s [-] 1) (<[i := ll_PushFront p b]> nd)) as (nd' & -> & ? & ? & ? & Hperm').
  - done.
  - apply (placed_insert _ _ b); [done|done|]. cbn. intros q [->|?]%elem_of_cons; [right|by left].
    by rewrite Hlen.
  - apply Forall_insert; [done|]. apply ll_PushFront_wf; [done|].
    destruct Hbwf as [-> _]. cbn [length] in Hb. lia.
  - by rewrite length_insert.
  - done.
  - apply Permutation_length in Hp2. cbn [length] in *. lia.
  - exists nd'. rewrite length_insert in *. split_and!; [done..|].
    rewrite Hperm', Hp2. solve_Permutation.
Qed.

Lemma rehash_spec data nd n :
  Forall ll_wf data -> placed nd -> Forall ll_wf nd ->
  Z.of_nat (length nd) = n -> 0 < n ->
  Z.of_nat (length (hm_pairs data) + length (hm_pairs nd)) < 2 ^ 57 ->
  exists nd', rehash data n nd = Ret nd' /\ placed nd' /\ Forall ll_wf nd' /\
    length nd' = length nd /\ hm_pairs nd' ≡ₚ hm_pairs data ++ hm_pairs nd.
Proof.
  revert nd. induction data as [|[c s] data IH]; intros nd Hd Hp Hf Hlen Hn Hb.
  { exists nd. by cbn. }
  apply Forall_cons in Hd as [Hc Hd]. cbn [rehash front_].
  change (hm_pairs (mkLL c s :: data)) with (c ++ hm_pairs data) in *.
  rewrite length_app in Hb.
  destruct (drain_spec c s nd n) as (nd1 & -> & Hp1 & Hf1 & Hl1 & Hperm1); [done..|lia|].
  cbn [mbind res_bind]. apply Permutation_length in Hperm1 as Hpl. rewrite length_app in Hpl.
  destruct (IH nd1) as (nd2 & -> & ? & ? & ? & Hperm2); [done..|lia|done|lia|].
  exists nd2. split_and!; [done..|congruence|]. rewrite Hperm2, Hperm1. solve_Permutation.
Qed.

Lemma placed_replicate n : placed (replicate n (@ll_new (K * V))).
Proof.
  intros i ll p Hi Hin. apply lookup_replicate in Hi as [-> _].
  cbn in Hin. by apply elem_of_nil in Hin.
Qed.

(** [Resize] to any positive size keeps the pairs and re-establishes the
    invariant. *)
Lemma Resize_spec m n :
  hm_wf m -> 0 < n ->
  exists m', Resize n m = Ret m' /\ hm_wf m' /\ hm_pairs (hm_data m') ≡ₚ hm_pairs (hm_data m) /\
    data_size m' = n.
Proof.
  intros [Hl Hnd Hp Hs Hb] Hn. unfold Resize.
  assert (hm_pairs (replicate (Z.to_nat n) (@ll_new (K * V))) = []) as Hr by apply hm_pairs_replicate.
  destruct (rehash_spec (hm_data m) (replicate (Z.to_nat n) ll_new) n) as (nd & -> & Hp' & Hf' & Hl' & Hperm).
  - done.
  - apply placed_replicate.
  - apply Forall_replicate, ll_new_wf.
  - rewrite length_replicate. lia.
  - done.
  - rewrite Hr. cbn. lia.
  - rewrite Hr, app_nil_r in Hperm. eexists. split; [done|].
    rewrite length_replicate in Hl'.
    split; [constructor; cbn; try done|split; [done|unfold data_size; cbn; lia]].
    + by rewrite Hperm.
    + by rewrite Hperm.
Qed.

Lemma ResizeIfNecessary_spec m :
  hm_wf m -> exists m', ResizeIfNecessary m = Ret m' /\ hm_wf m' /\
    hm_pairs (hm_data m') ≡ₚ hm_pairs (hm_data m) /\ hm_data m' <> [].
Proof.
  intros Hwf. unfold ResizeIfNecessary.
  assert (forall n, 0 < n -> exists m', Resize n m = Ret m' /\ hm_wf m' /\
    hm_pairs (hm_data m') ≡ₚ hm_pairs (hm_data m) /\ hm_data m' <> []) as Hres.
  { intros n Hn. destruct (Resize_spec m n Hwf Hn) as (m' & ? & ? & ? & Hsz). exists m'.
    split_and!; try done. intros E. unfold data_size in Hsz. rewrite E in Hsz. cbn in Hsz. lia. }
  destruct (Z.eqb_spec (data_size m) 0) as [E|E]; [by apply Hres|].
  assert (0 < data_size m) by (unfold data_size in *; lia).
  destruct (Z.ltb_spec 75 (load m)) as [L|L].
  - apply Hres. unfold load in L. destruct (Z.eqb_spec (data_size m) 0); [done|].
    destruct Hwf as [_ _ _ Hs Hb]. rewrite u64_small in L by lia.
    assert (data_size m < 2 ^ 63).
    { apply Z.nle_gt. intros Hge. rewrite Z.div_small in L by lia. lia. }
    rewrite u64_small by lia. lia.
  - exists m. split_and!; try done. intros Hd. unfold data_size in E. rewrite Hd in E. done.
Qed.
End resize.

(** ** The operations against finite maps *)
Section refine.
Context {K V : Type} `{Countable K, EqDecision V, !Hash K}.
Implicit Types (m : HashMap K V).

Lemma hm_model_perm m m' :
  NoDup (hm_pairs (hm_data m)).*1 ->
  hm_pairs (hm_data m') ≡ₚ hm_pairs (hm_data m) -> hm_model m' = hm_model m.
Proof. intros Hnd Hp. symmetry. by apply list_to_map_proper. Qed.

Lemma hm_new_wf : hm_wf (@hm_new K V).
Proof.
  constructor; cbn; [constructor|constructor| |done|done].
  intros i ll p Hi. done.
Qed.

Lemma hm_new_model : hm_model (@hm_new K V) = ∅.
Proof. done. Qed.

(** An operation that looks a key up in its bucket reads the model. *)
Lemma lookup_bucket m k :
  hm_wf m -> hm_data m <> [] -> exists i ll,
    bucket_index k (data_size m) = Ret i /\ hm_data m !! i = Some ll /\ ll_wf ll /\
    Z.of_nat i = hash_of k mod data_size m /\
    find_pair k (front_ ll) = hm_model m !! k.
Proof.
  intros Hwf Hne. destruct (bucket_ok (hm_data m) k Hne) as (i & ll & Hi & Hll & Hik).
  exists i, ll. split_and!; try done.
  - eapply Forall_lookup_1; [apply wf_lists|]; done.
  - apply (find_pair_bucket _ _ i); [apply wf_placed|apply wf_nodup| |]; done.
Qed.

Lemma Contains_spec m k :
  hm_wf m -> Contains k m = Ret (bool_decide (is_Some (hm_model m !! k))).
Proof.
  intros Hwf. unfold Contains. destruct (Z.eqb_spec (data_size m) 0) as [E|E].
  - destruct m as [[|] s]; [|cbn in E; unfold data_size in E; cbn in E; lia].
    done.
  - destruct (lookup_bucket m k Hwf) as (i & ll & -> & Hll & _ & _ & Hf).
    { intros Hd. unfold data_size in E. by rewrite Hd in E. }
    cbn. rewrite Hll. cbn. by rewrite Hf.
Qed.

Lemma at_spec m dflt k v :
  hm_wf m -> hm_model m !! k = Some v -> at_ dflt k m = Ret (v, m).
Proof.
  intros Hwf Hk. unfold at_.
  destruct (lookup_bucket m k Hwf) as (i & ll & -> & Hll & _ & _ & Hf).
  { intros Hd. unfold hm_model in Hk. rewrite Hd in Hk. done. }
  cbn. rewrite Hll. cbn. by rewrite Hf, Hk.
Qed.

(** Pushing a pair with a new key onto its bucket. *)
Lemma push_bucket m i ll k v :
  hm_wf m -> hm_data m !! i = Some ll -> Z.of_nat i = hash_of k mod data_size m ->
  hm_model m !! k = None -> hm_size m < 2 ^ 56 - 1 ->
  let m' := mkHM (<[i := ll_PushFront (k, v) ll]> (hm_data m)) (hm_size m [+] 1) in
  hm_wf m' /\ hm_model m' = <[k := v]> (hm_model m).
Proof.
  intros Hwf Hi Hik Hnone Hsz m'. destruct Hwf as [Hl Hnd Hp Hs Hb].
  assert (ll_wf ll) as Hllwf by (by eapply Forall_lookup_1).
  pose proof (hm_pairs_insert _ i ll (ll_PushFront (k, v) ll) Hi) as Hperm.
  cbn [front_ ll_PushFront] in Hperm.
  assert (hm_pairs (hm_data m') ≡ₚ (k, v) :: hm_pairs (hm_data m)) as Hpm.
  { apply (Permutation_app_inv_l (front_ ll)). cbn [hm_data m']. rewrite Hperm. solve_Permutation. }
  pose proof (length_bucket _ _ _ Hi) as Hlb.
  assert (NoDup ((k, v) :: hm_pairs (hm_data m)).*1) as Hnd'.
  { cbn. constructor; [|done]. by apply not_elem_of_list_to_map_2 in Hnone. }
  split; [constructor|].
  - cbn. apply Forall_insert; [done|]. apply ll_PushFront_wf; [done|].
    destruct Hllwf as [-> _]. lia.
  - by rewrite Hpm.
  - cbn. apply (placed_insert _ _ ll); [done|done|]. cbn.
    intros q [->|?]%elem_of_cons; [right; done|by left].
  - rewrite Hpm. cbn [hm_size m' length]. rewrite u64_small by lia. lia.
  - cbn [hm_size m']. rewrite u64_small by lia. lia.
  - unfold hm_model. symmetry. etrans; [|apply list_to_map_proper; [|symmetry; exact Hpm]]; [done|].
    done.
Qed.

Lemma Insert_spec m k v :
  hm_wf m -> hm_size m < 2 ^ 56 - 1 ->
  exists m', hm_wf m' /\
    match hm_model m !! k with
    | Some _ => Insert k v m = Ret (ALREADY_EXISTS, m') /\ hm_model m' = hm_model m
    | None => Insert k v m = Ret (OK, m') /\ hm_model m' = <[k := v]> (hm_model m)
    end /\ hm_data m' <> [].
Proof.
  intros Hwf Hsz. unfold Insert.
  destruct (ResizeIfNecessary_spec m Hwf) as (m1 & -> & Hwf1 & Hperm & Hne). cbn [mbind res_bind].
  assert (hm_model m1 = hm_model m) as Hmod by (apply hm_model_perm; [apply Hwf|done]).
  assert (hm_size m1 < 2 ^ 56 - 1) as Hsz1.
  { rewrite (wf_size m1), (wf_size m) in * by done. by rewrite Hperm. }
  destruct (lookup_bucket m1 k Hwf1 Hne) as (i & ll & -> & Hll & _ & Hik & Hf).
  cbn [mbind res_bind]. rewrite Hll. cbn [deref mbind res_bind]. rewrite Hf, Hmod.
  destruct (hm_model m !! k) eqn:Ek; [by exists m1|]. rewrite <- Hmod in *.
  eexists. split; [|split; [split; [done|]|]].
  - by apply push_bucket.
  - by apply push_bucket.
  - cbn. intros E. apply (f_equal length) in E. rewrite length_insert in E.
    by apply nil_length_inv in E.
Qed.

Lemma set_pair_None (k : K) (v : V) c : find_pair k c = None -> set_pair k v c = None.
Proof.
  induction c as [|[k' v'] c IH]; cbn; [done|].
  case_decide; [done|]. intros Hf. by rewrite IH.
Qed.

Lemma set_pair_Some (k : K) (v v0 : V) c :
  find_pair k c = Some v0 -> exists c1 c2,
    c = c1 ++ (k, v0) :: c2 /\ set_pair k v c = Some (c1 ++ (k, v) :: c2).
Proof.
  induction c as [|[k' v'] c IH]; cbn; [done|]. case_decide as Hk.
  - intros [= ->]. subst. by exists [], c.
  - intros (c1 & c2 & -> & ->)%IH. by exists ((k', v') :: c1), c2.
Qed.

(** Replacing one bucket by [c'] whose pairs are those of the old bucket
    with [(k, v0)] taken out and [new] put in. *)
Lemma replace_bucket m i ll ll' k v0 new s :
  hm_wf m -> hm_data m !! i = Some ll -> Z.of_nat i = hash_of k mod data_size m ->
  ll_wf ll' -> (k, v0) ∈ front_ ll ->
  (k, v0) :: front_ ll' ≡ₚ new ++ front_ ll ->
  Forall (fun p => p.1 = k) new -> (length new <= 1)%nat ->
  s = hm_size m - 1 + Z.of_nat (length new) ->
  let m' := mkHM (<[i := ll']> (hm_data m)) s in
  hm_wf m' /\ (k, v0) :: hm_pairs (hm_data m') ≡ₚ new ++ hm_pairs (hm_data m).
Proof.
  intros [Hl Hnd Hp Hs Hb] Hi Hik Hll' Hin Hc Hnew Hn1 Hsz m'.
  pose proof (hm_pairs_insert _ i ll ll' Hi) as Hperm.
  assert ((k, v0) :: hm_pairs (hm_data m') ≡ₚ new ++ hm_pairs (hm_data m)) as Hpm.
  { apply (Permutation_app_inv_l (front_ ll)).
    transitivity ((k, v0) :: front_ ll ++ hm_pairs (hm_data m')); [solve_Permutation|].
    cbn [hm_data m']. rewrite Hperm.
    change ((k, v0) :: front_ ll' ++ hm_pairs (hm_data m))
      with (((k, v0) :: front_ ll') ++ hm_pairs (hm_data m)).
    rewrite Hc. solve_Permutation. }
  split; [|done]. pose proof (Permutation_length Hpm) as Hlen.
  rewrite length_app in Hlen. cbn [length] in Hlen.
  constructor.
  - cbn. by apply Forall_insert.
  - assert ((k, v0) ∈ hm_pairs (hm_data m)) as Hin'.
    { apply elem_of_hm_pairs. by exists i, ll. }
    apply elem_of_Permutation in Hin' as [rest Hrest].
    rewrite Hrest in Hpm, Hnd. cbn in Hnd. apply NoDup_cons in Hnd as [Hk Hnd].
    assert (hm_pairs (hm_data m') ≡ₚ new ++ rest) as ->.
    { apply (Permutation_cons_inv (a := (k, v0))). rewrite Hpm. solve_Permutation. }
    destruct new as [|[k1 v1] [|]]; [done| |cbn in Hn1; lia].
    apply Forall_cons in Hnew as [Hk1 _]. cbn in Hk1. subst. cbn. by constructor.
  - cbn. apply (placed_insert _ _ ll); [done|done|]. intros q Hq.
    assert (q ∈ new ++ front_ ll) as [Hqn|?]%elem_of_app by (rewrite <- Hc; by right);
      [right|by left].
    rewrite Forall_forall in Hnew. rewrite (Hnew q Hqn). done.
  - cbn [hm_size hm_data m'] in *. lia.
  - cbn [hm_size m']. lia.
Qed.

Lemma Delete_spec m k :
  hm_wf m -> hm_data m <> [] ->
  exists m', hm_wf m' /\ hm_model m' = delete k (hm_model m) /\ hm_data m' <> [] /\
    Delete k m = Ret (if decide (is_Some (hm_model m !! k)) then OK else NOT_FOUND, m').
Proof.
  intros Hwf Hne. unfold Delete.
  destruct (lookup_bucket m k Hwf Hne) as (i & ll & -> & Hll & Hllwf & Hik & Hf).
  cbn [mbind res_bind]. rewrite Hll. cbn [deref mbind res_bind]. rewrite Hf.
  destruct (hm_model m !! k) as [v0|] eqn:Ek.
  - rewrite decide_True by done.
    assert ((k, v0) ∈ front_ ll) as Hin by (apply find_pair_Some; congruence).
    destruct (ll_Remove_spec (k, v0) ll Hllwf) as (ll' & -> & Hfr & Hwf').
    { intros E. rewrite E in Hin. by apply elem_of_nil in Hin. }
    cbn [mbind res_bind]. eexists.
    destruct (replace_bucket m i ll ll' k v0 [] (hm_size m [-] 1)) as [Hw Hpm]; try done.
    + rewrite Hfr. symmetry. by apply remove_first_perm.
    + cbn; lia.
    + pose proof (wf_bound m Hwf). pose proof (wf_size m Hwf) as Hs.
      pose proof (length_bucket _ _ _ Hll). destruct (front_ ll); [by apply elem_of_nil in Hin|].
      cbn [length] in *. rewrite u64_small; lia.
    + split; [exact Hw|]. split; [|split; [|done]].
      * unfold hm_model at 2. cbn in Hpm.
        rewrite <- (list_to_map_proper _ _ (nodup_perm_keys _ _ (symmetry Hpm) (wf_nodup m Hwf)) Hpm).
        cbn. rewrite delete_insert_eq, delete_id; [done|].
        apply not_elem_of_list_to_map_1.
        pose proof (nodup_perm_keys _ _ (symmetry Hpm) (wf_nodup m Hwf)) as Hnd.
        cbn in Hnd. by apply NoDup_cons in Hnd as [? _].
      * cbn. intros E. apply (f_equal length) in E. rewrite length_insert in E.
        by apply nil_length_inv in E.
  - rewrite decide_False by (by intros [? ?]). exists m. split_and!; try done.
    by rewrite delete_id.
Qed.

Lemma Update_spec m k v :
  hm_wf m ->
  exists m', hm_wf m' /\
    match hm_model m !! k with
    | Some _ => Update k v m = Ret (OK, m') /\ hm_model m' = <[k := v]> (hm_model m)
    | None => Update k v m = Ret (NOT_FOUND, m') /\ hm_model m' = hm_model m
    end.
Proof.
  intros Hwf. unfold Update.
  destruct (ResizeIfNecessary_spec m Hwf) as (m1 & -> & Hwf1 & Hperm & Hne). cbn [mbind res_bind].
  assert (hm_model m1 = hm_model m) as Hmod by (apply hm_model_perm; [apply Hwf|done]).
  destruct (lookup_bucket m1 k Hwf1 Hne) as (i & ll & -> & Hll & Hllwf & Hik & Hf).
  cbn [mbind res_bind]. rewrite Hll. cbn [deref mbind res_bind]. rewrite Hmod in Hf.
  destruct (hm_model m !! k) as [v0|] eqn:Ek.
  - destruct (set_pair_Some k v v0 (front_ ll) Hf) as (c1 & c2 & Hc & ->).
    destruct (replace_bucket m1 i ll (mkLL (c1 ++ (k, v) :: c2) (size_ ll)) k v0 [(k, v)] (hm_size m1))
      as [Hw Hpm]; try done.
    + destruct Hllwf as [Hs Hb]. rewrite Hc in *. unfold ll_wf. cbn [front_ size_].
      rewrite !length_app in *. cbn [length] in *. lia.
    + rewrite Hc. apply elem_of_app. right. by left.
    + cbn. rewrite Hc. solve_Permutation.
    + by repeat constructor.
    + cbn; lia.
    + eexists. split; [exact Hw|]. split; [done|]. rewrite <- Hmod. unfold hm_model at 2. cbn in Hpm.
      assert ((k, v) ∈ hm_pairs (<[i:=mkLL (c1 ++ (k, v) :: c2) (size_ ll)]> (hm_data m1))) as Hin.
      { apply elem_of_hm_pairs. exists i. eexists.
        split; [apply list_lookup_insert_eq; by eapply lookup_lt_Some|]. cbn. set_solver. }
      apply elem_of_Permutation in Hin as [rest Hrest].
      assert (hm_pairs (hm_data m1) ≡ₚ (k, v0) :: rest) as Hold.
      { apply (Permutation_cons_inv (a := (k, v))). rewrite <- Hpm, Hrest. solve_Permutation. }
      rewrite (list_to_map_proper _ _ (wf_nodup m1 Hwf1) Hold). cbn. rewrite insert_insert_eq.
      unfold hm_model. rewrite (list_to_map_proper _ _ (wf_nodup _ Hw) Hrest). done.
  - rewrite (set_pair_None k v _ Hf). by exists m1.
Qed.
End refine.

(** ** Properties *)
Section properties.
Context {K V : Type} `{Countable K, EqDecision V, !Hash K}.
Implicit Types (m : HashMap K V).

(** C34.  HashMap implements a finite map.  On every well-formed table
    [Contains] decides membership; [Insert] adds a binding and answers
    ALREADY_EXISTS, without changing the map, when the key is there;
    [Update] replaces a binding and answers NOT_FOUND when there is none;
    [Delete], on a table that has buckets, removes the binding and answers
    NOT_FOUND when there is none.  Resizing on the way changes none of
    this, no operation faults, and the invariant is preserved. *)
Theorem HashMap_refines_gmap m (k : K) (v : V) :
  hm_wf m -> hm_size m < 2 ^ 56 - 1 ->
  let present := is_Some (hm_model m !! k) in
  Contains k m = Ret (bool_decide present) /\
  (exists m', Insert k v m = Ret (if decide present then ALREADY_EXISTS else OK, m') /\
     hm_wf m' /\ hm_model m' = if decide present then hm_model m else <[k := v]> (hm_model m)) /\
  (exists m', Update k v m = Ret (if decide present then OK else NOT_FOUND, m') /\
     hm_wf m' /\ hm_model m' = if decide present then <[k := v]> (hm_model m) else hm_model m) /\
  (hm_data m <> [] -> exists m',
     Delete k m = Ret (if decide present then OK else NOT_FOUND, m') /\
     hm_wf m' /\ hm_model m' = delete k (hm_model m)).
Proof.
  intros Hwf Hsz. cbn zeta. split; [by apply Contains_spec|].
  destruct (Insert_spec m k v Hwf Hsz) as (m1 & Hw1 & H1 & _).
  destruct (Update_spec m k v Hwf) as (m2 & Hw2 & H2).
  split; [|split].
  - exists m1. destruct (hm_model m !! k); destruct H1; [rewrite !decide_True by done|
      rewrite !decide_False by (by intros [? ?])]; done.
  - exists m2. destruct (hm_model m !! k); destruct H2; [rewrite !decide_True by done|
      rewrite !decide_False by (by intros [? ?])]; done.
  - intros Hne. destruct (Delete_spec m k Hwf Hne) as (m3 & ? & ? & ? & ?). by exists m3.
Qed.

(** [at] on a missing key inserts a default value without counting it:
    the map grows by the key, [size_] stays, and the size invariant of the
    table is lost. *)
Theorem HashMap_at_missing_uncounted m (dflt : V) (k : K) :
  hm_wf m -> hm_data m <> [] -> hm_model m !! k = None -> hm_size m < 2 ^ 56 - 1 ->
  exists m', at_ dflt k m = Ret (dflt, m') /\
    hm_model m' = <[k := dflt]> (hm_model m) /\ hm_size m' = hm_size m /\ ~ hm_wf m'.
Proof.
  intros Hwf Hne Hk Hsz. unfold at_.
  destruct (lookup_bucket m k Hwf Hne) as (i & ll & -> & Hll & _ & Hik & Hf).
  cbn [mbind res_bind]. rewrite Hll. cbn [deref mbind res_bind]. rewrite Hf, Hk.
  eexists. split; [done|].
  destruct (push_bucket m i ll k dflt Hwf Hll Hik Hk Hsz) as [Hw Hm].
  split; [exact Hm|]. split; [done|]. intros Hw'.
  pose proof (wf_size _ Hw) as H1. pose proof (wf_size _ Hw') as H2. cbn in H1, H2.
  pose proof (wf_size m Hwf). rewrite u64_small in H1; lia.
Qed.
End properties.

Definition eight_buckets : HashMap Z Z := mkHM (replicate 8 ll_new) 0.

Lemma eight_buckets_wf : hm_wf eight_buckets.
Proof.
  destruct (Resize_spec (@hm_new Z Z) 8 hm_new_wf eq_refl) as (m & Hm & Hw & _).
  change (Resize 8 (@hm_new Z Z)) with (Ret eight_buckets) in Hm. by injection Hm as <-.
Qed.

Lemma HashMap_refines_gmap_witness :
  exists m', Insert 5 7 eight_buckets = Ret (OK, m') /\ hm_model m' = {[5 := 7]}.
Proof.
  destruct (HashMap_refines_gmap eight_buckets 5 7 eight_buckets_wf eq_refl)
    as (_ & (m' & HI & _ & Hm) & _).
  exists m'. split; [exact HI|exact Hm].
Defined.

Lemma HashMap_at_missing_uncounted_witness :
  exists m', at_ 0 5 eight_buckets = Ret (0, m') /\ hm_size m' = 0 /\ ~ hm_wf m'.
Proof.
  destruct (HashMap_at_missing_uncounted eight_buckets 0 5 eight_buckets_wf
              ltac:(discriminate) eq_refl eq_refl) as (m' & H1 & _ & H2 & H3).
  exists m'. split; [exact H1|]. split; [exact H2|exact H3].
Defined.
