(* ===== verification/Vector.v ===== *)
(** * Vector and Array (lib/glacier/container/vector.h, array.h, array_view.h,
    array_iter.h)

    [new T[n]] gives [n] slots that hold no value of interest yet ([None]);
    moving out of a slot leaves it without one.  Writing outside the
    allocation faults. *)

From Stdlib Require Import ZArith Lia.
From stdpp Require Import base tactics numbers list.
From S2P Require Import Prelude.

Notation slots T := (list (option T)).

Record Vector (T : Type) : Type := mkVec {
  vdata_ : option (slots T);   (* [nullptr] is [None] *)
  vsize_ : Z;
  capacity_ : Z;
}.
Arguments mkVec {T} vdata_ vsize_ capacity_.
Arguments vdata_ {T} v.
Arguments vsize_ {T} v.
Arguments capacity_ {T} v.

Section ops.
Context {T : Type}.
Implicit Types v : Vector T.

(** [new T[n]] *)
Definition new_array (n : Z) : slots T := replicate (Z.to_nat n) None.

(** [data[i] = x] *)
Definition slot_store (d : option (slots T)) (i : Z) (x : option T) : res (slots T) :=
  a ← deref d;
  if (0 <=? i) && (i <? Z.of_nat (length a)) then Ret (<[Z.to_nat i := x]> a) else Fault.

(** [data[i]], which must hold a value *)
Definition slot_load (d : option (slots T)) (i : Z) : res T :=
  a ← deref d;
  if 0 <=? i then o ← deref (a !! Z.to_nat i); deref o else Fault.

Definition vec_new : Vector T := mkVec None 0 0.

Definition vec_at v (index : Z) : res T := slot_load (vdata_ v) index.

Definition vec_empty v : bool := vsize_ v =? 0.

(** The copy loop of [Resize]: [n] elements from index [i] on. *)
Fixpoint move_loop (old : slots T) (n : nat) (i : Z) (new_data : slots T) : res (slots T) :=
  match n with
  | O => Ret new_data
  | S n' =>
      x ← deref (old !! Z.to_nat i);
      new_data ← slot_store (Some new_data) i x;
      move_loop old n' (i + 1) new_data
  end.

Definition vec_Resize (capacity : Z) v : res (Vector T) :=
  let new_data := new_array capacity in
  new_data ← match vdata_ v with
             | None => Ret new_data
             | Some d => move_loop d (Z.to_nat (vsize_ v)) 0 new_data
             end;
  Ret (mkVec (Some new_data) (vsize_ v) capacity).

Definition vec_Expand v : res (Vector T) :=
  let new_capacity := if capacity_ v =? 0 then 1 else capacity_ v [*] 2 in
  vec_Resize new_capacity v.

Definition vec_PushBack (item : T) v : res (Vector T) :=
  v ← (if vsize_ v >=? capacity_ v then vec_Expand v else Ret v);
  d ← slot_store (vdata_ v) (vsize_ v) (Some item);
  Ret (mkVec (Some d) (vsize_ v [+] 1) (capacity_ v)).

(** [T] is built from the arguments by its constructor [ctor]. *)
Definition vec_EmplaceBack {Args : Type} (ctor : Args -> T) (args : Args) v : res (Vector T) :=
  v ← (if vsize_ v >=? capacity_ v then vec_Expand v else Ret v);
  d ← slot_store (vdata_ v) (vsize_ v) (Some (ctor args));
  Ret (mkVec (Some d) (vsize_ v [+] 1) (capacity_ v)).

Definition vec_PeekBack v : res T := slot_load (vdata_ v) (vsize_ v [-] 1).

Definition vec_PopBack v : res (T * Vector T) :=
  let size := vsize_ v [-] 1 in
  x ← slot_load (vdata_ v) size;
  d ← slot_store (vdata_ v) size None;
  Ret (x, mkVec (Some d) size (capacity_ v)).

(** [Vector(Vector&& other)]: the new vector and what is left of [other]. *)
Definition vec_move v : Vector T * Vector T := (v, vec_new).

(** [operator=(Vector&& other)] for two vectors: the new value and what is left of [other].  The old elements are deleted;
    assigning a vector to itself deletes them too and leaves it empty. *)
Definition vec_move_assign v (other : Vector T) : Vector T * Vector T := (other, vec_new).
Definition vec_move_assign_self v : Vector T := let '(_, rest) := vec_move_assign v v in rest.

(** *** Iterators (array_iter.h): a position in the allocation, if the pointer is not null, and the elements left *)
Record ArrayIterator : Type := mkIter { item_ : option Z; it_size : Z }.

Definition iter_next (it : ArrayIterator) : ArrayIterator :=
  if it_size it <=? 1 then mkIter None 0 else mkIter (Z.succ <$> item_ it) (it_size it [-] 1).

Definition iter_end : ArrayIterator := mkIter None 0.

(** [it != other] compares the pointers. *)
Definition iter_ne (it other : ArrayIterator) : bool := negb (bool_decide (item_ it = item_ other)).

(** [for (T x : range)] from [it] on, over the elements of [d]. *)
Fixpoint visit (fuel : nat) (d : option (slots T)) (it : ArrayIterator) : res (list T) :=
  if negb (iter_ne it iter_end) then Ret [] else
  match fuel with
  | O => NoFuel
  | S fuel' => i ← deref (item_ it); x ← slot_load d i; l ← visit fuel' d (iter_next it); Ret (x :: l)
  end.

(** [begin()] of vectors and arrays does not look at the size. *)
Definition range_begin (d : option (slots T)) (size : Z) : ArrayIterator := mkIter (match d with Some _ => Some 0 | None => None end) size.
Definition vec_begin v : ArrayIterator := range_begin (vdata_ v) (vsize_ v).
Definition vec_elements v : res (list T) := visit (S (Z.to_nat (vsize_ v))) (vdata_ v) (vec_begin v).
End ops.

(** ** Array *)
Record Array (T : Type) : Type := mkArray { arr_data : option (slots T); arr_size : Z }.
Arguments mkArray {T} arr_data arr_size.
Arguments arr_data {T} a.
Arguments arr_size {T} a.

Section array_ops.
Context {T : Type}.
Implicit Types a : Array T.

Definition Array_default : Array T := mkArray None 0.
Definition Array_sized (size : Z) : Array T := mkArray (Some (new_array size)) size.

Definition Array_get a (index : Z) : res T := slot_load (arr_data a) index.
Definition Array_set a (index : Z) (x : T) : res (Array T) :=
  d ← slot_store (arr_data a) index (Some x); Ret (mkArray (Some d) (arr_size a)).

(** [Array(const ArrayView<T>& view)], from the [view] memory. *)
Fixpoint copy_loop (view : list T) (i : Z) (a : Array T) : res (Array T) :=
  match view with
  | [] => Ret a
  | x :: view' => a ← Array_set a i x; copy_loop view' (i + 1) a
  end.

Definition Array_of_view (view : list T) (size : Z) : res (Array T) :=
  if Z.of_nat (length view) <? size then Fault
  else copy_loop (take (Z.to_nat size) view) 0 (Array_sized size).

Definition Array_begin a : ArrayIterator := range_begin (arr_data a) (arr_size a).
Definition Array_elements a : res (list T) := visit (S (Z.to_nat (arr_size a))) (arr_data a) (Array_begin a).

(** [Array(Array&&)] and [operator=(Array&&)] *)
Definition Array_move a : Array T * Array T := (a, Array_default).
Definition Array_move_assign a (other : Array T) : Array T * Array T := (other, Array_default).

(** ** ArrayView: [begin()] of an empty view is [end()] *)
Definition ArrayView_begin (d : option (slots T)) (size : Z) : ArrayIterator := if size =? 0 then iter_end else mkIter (match d with Some _ => Some 0 | None => None end) size.
Definition ArrayView_elements (d : option (slots T)) (size : Z) : res (list T) := visit (S (Z.to_nat size)) d (ArrayView_begin d size).

(** [empty()] answers the size, as a truth value. *)
Definition ArrayView_empty (size : Z) : bool := negb (size =? 0).
End array_ops.

(** ** Specification: a vector is a sequence *)
Section spec.
Context {T : Type}.
Implicit Types (v : Vector T) (l : list T).

(** [v] holds the sequence [l]. *)
Record vec_is v l : Prop := {
  vi_size : vsize_ v = Z.of_nat (length l);
  vi_cap : vsize_ v <= capacity_ v < 2 ^ 63;
  vi_data : match vdata_ v with
            | None => capacity_ v = 0
            | Some d => Z.of_nat (length d) = capacity_ v /\ take (length l) d = Some <$> l
            end;
}.

Lemma vec_new_is : vec_is vec_new [].
Proof. by split. Qed.

Lemma vec_data_lookup v l i x : vec_is v l -> l !! i = Some x -> exists d, vdata_ v = Some d /\ d !! i = Some (Some x).
Proof.
  intros [Hs Hc Hd] Hi. pose proof (lookup_lt_Some _ _ _ Hi). destruct (vdata_ v) as [d|]; [|lia].
  destruct Hd as [Hl Ht]. exists d. split; [done|]. assert (take (length l) d !! i = Some (Some x)) as Hd by (by rewrite Ht, list_lookup_fmap, Hi).
  by apply lookup_take_Some in Hd as [? _].
Qed.

Lemma slot_store_spec (d : slots T) i x :
  0 <= i < Z.of_nat (length d) -> slot_store (Some d) i x = Ret (<[Z.to_nat i := x]> d).
Proof. intros Hi. unfold slot_store. cbn. by rewrite (proj2 (Z.leb_le _ _)), (proj2 (Z.ltb_lt _ _)) by lia. Qed.

Lemma slot_store_fault (d : option (slots T)) i x :
  match d with Some a => Z.of_nat (length a) | None => 0 end <= i -> slot_store d i x = Fault.
Proof. intros Hi. unfold slot_store. destruct d as [a|]; cbn; [|done]. case_if_goal; [zb; lia|done]. Qed.

Lemma slot_load_spec v l i x : vec_is v l -> l !! i = Some x -> slot_load (vdata_ v) (Z.of_nat i) = Ret x.
Proof.
  intros Hv Hi. destruct (vec_data_lookup v l i x Hv Hi) as (d & -> & Hd). unfold slot_load. cbn.
  rewrite (proj2 (Z.leb_le _ _)) by lia. by rewrite Nat2Z.id, Hd.
Qed.

Lemma move_loop_spec (old : slots T) n i (new_data : slots T) :
  0 <= i -> (Z.to_nat i + n <= length old)%nat -> (Z.to_nat i + n <= length new_data)%nat ->
  take (Z.to_nat i) new_data = take (Z.to_nat i) old ->
  exists d, move_loop old n i new_data = Ret d /\ length d = length new_data /\
    take (Z.to_nat i + n) d = take (Z.to_nat i + n) old.
Proof.
  revert i new_data. induction n as [|n IH]; intros i d Hi Ho Hn Ht; cbn [move_loop].
  { exists d. by rewrite Nat.add_0_r. }
  destruct (lookup_lt_is_Some_2 old (Z.to_nat i)) as [x Hx]; [lia|]. rewrite Hx. cbn [deref]. rewrite ret_bind.
  rewrite slot_store_spec, ret_bind by lia.
  destruct (IH (i + 1) (<[Z.to_nat i:=x]> d)) as (d' & Hm & Hl & Ht').
  - lia.
  - lia.
  - rewrite length_insert. lia.
  - replace (Z.to_nat (i + 1)) with (S (Z.to_nat i)) by lia. rewrite take_insert_app by lia.
    by rewrite Ht, (take_S_r old _ x Hx).
  - exists d'. rewrite length_insert in Hl. replace (Z.to_nat i + S n)%nat with (Z.to_nat (i + 1) + n)%nat by lia. done.
Qed.

Lemma vec_Resize_spec v l capacity :
  vec_is v l -> vsize_ v <= capacity < 2 ^ 63 ->
  exists v', vec_Resize capacity v = Ret v' /\ vec_is v' l /\ capacity_ v' = capacity /\ is_Some (vdata_ v').
Proof.
  intros [Hs Hc Hd] Hcap. unfold vec_Resize. destruct (vdata_ v) as [d|] eqn:Ed.
  - destruct Hd as [Hl Ht].
    assert (length (new_array (T := T) capacity) = Z.to_nat capacity) as Hlen by apply length_replicate.
    destruct (move_loop_spec d (Z.to_nat (vsize_ v)) 0 (new_array capacity)) as (d' & -> & Hl' & Ht'); [lia..|done|].
    rewrite ret_bind. eexists. split; [done|]. split_and!; [split; cbn|done|by eexists].
    + done.
    + done.
    + split; [lia|]. replace (Z.to_nat 0 + Z.to_nat (vsize_ v))%nat with (length l) in Ht' by lia. by rewrite Ht', Ht.
  - rewrite ret_bind. eexists. split; [done|]. split_and!; [split; cbn|done|by eexists].
    + done.
    + done.
    + assert (l = []) as -> by (apply length_zero_iff_nil; lia). split; [|done].
      unfold new_array. rewrite length_replicate. cbn in Hs. lia.
Qed.

Lemma vec_PushBack_spec v l x :
  vec_is v l -> Z.of_nat (length l) < 2 ^ 62 ->
  exists v', vec_PushBack x v = Ret v' /\ vec_is v' (l ++ [x]) /\ capacity_ v <= capacity_ v'.
Proof.
  intros Hv Hlen. unfold vec_PushBack.
  assert (exists v1, (if vsize_ v >=? capacity_ v then vec_Expand v else Ret v) = Ret v1 /\ vec_is v1 l /\
            vsize_ v < capacity_ v1 /\ capacity_ v <= capacity_ v1) as (v1 & -> & Hv1 & Hcap & Hle).
  { pose proof (vi_cap _ _ Hv). pose proof (vi_size _ _ Hv). rewrite Z.geb_leb. case_if_goal; zb; [|by exists v].
    unfold vec_Expand. destruct (capacity_ v =? 0) eqn:E0; zb.
    - destruct (vec_Resize_spec v l 1 Hv) as (v1 & -> & H1 & H2 & H3); [lia|]. exists v1. split_and!; try done; lia.
    - rewrite u64_small by lia. destruct (vec_Resize_spec v l (capacity_ v * 2) Hv) as (v1 & -> & H1 & H2 & H3); [lia|].
      exists v1. split_and!; try done; lia. }
  rewrite ret_bind. pose proof (vi_size _ _ Hv) as Hs0. destruct Hv1 as [Hs Hc Hd]. destruct (vdata_ v1) as [d|]; [|lia].
  destruct Hd as [Hl Ht]. rewrite slot_store_spec, ret_bind by lia. eexists. split; [done|]. split; [split; cbn|done].
  - rewrite u64_small, length_app by lia. cbn. lia.
  - rewrite u64_small by lia. lia.
  - rewrite length_insert. split; [done|]. rewrite Hs, Nat2Z.id, length_app. cbn [length].
    rewrite Nat.add_1_r, take_insert_app, Ht, fmap_app by lia. done.
Qed.

Lemma vec_PopBack_spec v l x :
  vec_is v (l ++ [x]) -> Z.of_nat (length l) < 2 ^ 62 ->
  vec_PeekBack v = Ret x /\ exists v', vec_PopBack v = Ret (x, v') /\ vec_is v' l.
Proof.
  intros Hv Hlen. unfold vec_PeekBack, vec_PopBack.
  assert (vsize_ v [-] 1 = Z.of_nat (length l)) as ->.
  { rewrite (vi_size _ _ Hv), length_app. cbn [length]. rewrite u64_small; lia. }
  rewrite (slot_load_spec v (l ++ [x]) (length l) x Hv) by (by rewrite lookup_app_r, Nat.sub_diag by lia).
  split; [done|]. rewrite ret_bind.
  destruct (vec_data_lookup v (l ++ [x]) (length l) x Hv) as (d & Ed & Hx); [by rewrite lookup_app_r, Nat.sub_diag by lia|].
  pose proof (lookup_lt_Some _ _ _ Hx). rewrite Ed, slot_store_spec, ret_bind by lia.
  destruct Hv as [Hs Hc Hd]. rewrite Ed in Hd. destruct Hd as [Hl Ht]. rewrite length_app in Ht, Hs. cbn [length] in Ht, Hs.
  eexists. split; [done|]. split; cbn; [done|lia|]. rewrite length_insert. split; [done|].
  rewrite Nat2Z.id, take_insert_ge by lia.
  rewrite fmap_app, Nat.add_1_r in Ht. apply (f_equal (take (length l))) in Ht.
  rewrite take_take, Nat.min_l in Ht by lia. rewrite Ht, take_app_le by (by rewrite length_fmap).
  by rewrite take_ge by (by rewrite length_fmap).
Qed.

(** From position [n] on, the elements that are left are visited in order; a count of zero still visits one. *)
Lemma visit_spec (d : slots T) l fuel : forall n, take (length l) (drop n d) = Some <$> l -> l <> [] -> (length l < fuel)%nat -> Z.of_nat (length l) < 2 ^ 63 ->
  visit fuel (Some d) (mkIter (Some (Z.of_nat n)) (Z.of_nat (length l))) = Ret l.
Proof.
  revert fuel. induction l as [|x l IH]; intros fuel n Hd Hne Hf Hl; [done|]. destruct fuel as [|fuel]; [cbn in Hf; lia|]. cbn [visit item_ iter_ne iter_end negb bool_decide].
  assert (d !! n = Some (Some x)) as Hx.
  { assert (take (length (x :: l)) (drop n d) !! 0%nat = Some (Some x)) as H by (by rewrite Hd). rewrite lookup_take_lt in H by (cbn; lia). by rewrite lookup_drop, Nat.add_0_r in H. }
  change (negb (iter_ne _ iter_end)) with false. cbn iota. cbn [deref mbind res_bind].
  assert (slot_load (Some d) (Z.of_nat n) = Ret x) as ->.
  { unfold slot_load. cbn. rewrite (proj2 (Z.leb_le _ _)), Nat2Z.id by lia. by rewrite Hx. }
  rewrite ret_bind. destruct l as [|x' l].
  - unfold iter_next. cbn [it_size length]. rewrite (proj2 (Z.leb_le _ _)) by lia. destruct fuel; done.
  - unfold iter_next. cbn [it_size item_]. rewrite (proj2 (Z.leb_gt _ _)) by (cbn [length]; lia). rewrite u64_small by (cbn [length] in *; lia). cbn [fmap option_fmap option_map].
    replace (Z.succ (Z.of_nat n)) with (Z.of_nat (S n)) by lia. replace (Z.of_nat (length (x :: x' :: l)) - 1) with (Z.of_nat (length (x' :: l))) by (cbn [length]; lia).
    rewrite IH; [done| |done|cbn [length] in *; lia|cbn [length] in *; lia].
    rewrite (drop_S d _ _ Hx) in Hd. cbn [length take fmap list_fmap] in Hd. by injection Hd.
Qed.

Lemma visit_null fuel size (d : option (slots T)) : visit fuel d (mkIter None size) = Ret [].
Proof. by destruct fuel. Qed.

Lemma vec_elements_spec v l : vec_is v l -> Z.of_nat (length l) < 2 ^ 63 -> vdata_ v = None \/ l <> [] -> vec_elements v = Ret l.
Proof.
  intros [Hs Hc Hd] Hl Hne. unfold vec_elements, vec_begin, range_begin. destruct (vdata_ v) as [d|].
  - destruct Hne as [|Hne]; [done|]. rewrite Hs, Nat2Z.id. apply (visit_spec d l _ 0); [|done|lia|done]. rewrite drop_0. by destruct Hd.
  - cbn. assert (l = []) as -> by (destruct l; [done|cbn in *; lia]). done.
Qed.

(** A vector with an allocation but no elements is not skipped: its first slot is visited. *)
Lemma empty_vector_iterates v r : vec_is v [] -> is_Some (vdata_ v) -> vec_elements v = Ret r -> length r = 1%nat.
Proof.
  intros [Hs _ _] [d Hd]. unfold vec_elements, vec_begin, range_begin. rewrite Hd, Hs. cbn [length Z.of_nat Z.to_nat visit]. change (negb (iter_ne _ iter_end)) with false. cbn iota.
  cbn [item_ fmap deref mbind res_bind option_fmap option_map]. intros H. apply bind_Ret in H as (x & _ & H). apply bind_Ret in H as (l & Hl & H).
  cbn in Hl. injection Hl as <-. by injection H as <-.
Qed.

Lemma vec_PopBack_empty v : vec_is v [] -> vec_PopBack v = Fault.
Proof.
  intros [Hs Hc Hd]. unfold vec_PopBack, slot_load. rewrite Hs. cbn [length].
  replace (Z.of_nat 0 [-] 1) with (2 ^ 64 - 1) by done. destruct (vdata_ v) as [d|]; [|done]. cbn [deref]. rewrite ret_bind.
  rewrite (proj2 (Z.leb_le _ _)) by lia. rewrite lookup_ge_None_2; [done|]. destruct Hd as [Hd _]. lia.
Qed.

Lemma move_loop_fault (old : slots T) n i (new_data : slots T) :
  0 <= i <= Z.of_nat (length new_data) -> (Z.to_nat i + n <= length old)%nat -> (length new_data < Z.to_nat i + n)%nat ->
  move_loop old n i new_data = Fault.
Proof.
  revert i new_data. induction n as [|n IH]; intros i d Hi Ho Hn; [lia|]. cbn [move_loop].
  destruct (lookup_lt_is_Some_2 old (Z.to_nat i)) as [x Hx]; [lia|]. rewrite Hx. cbn [deref]. rewrite ret_bind.
  destruct (decide (i = Z.of_nat (length d))) as [->|Hne].
  - by rewrite slot_store_fault by done.
  - rewrite slot_store_spec, ret_bind by lia. apply IH; rewrite ?length_insert; lia.
Qed.

Lemma vec_Resize_shrink v l c : vec_is v l -> 0 <= c < Z.of_nat (length l) -> vec_Resize c v = Fault.
Proof.
  intros [Hs Hc Hd] Hlt. unfold vec_Resize. destruct (vdata_ v) as [d|]; [|lia]. destruct Hd as [Hl _].
  rewrite move_loop_fault; [done|lia|lia|]. unfold new_array. rewrite length_replicate. lia.
Qed.

(** An array that holds [l] in full. *)
Definition array_is (a : Array T) l : Prop :=
  arr_size a = Z.of_nat (length l) /\
  match arr_data a with Some d => d = Some <$> l | None => l = [] end.

Lemma array_copy_loop_spec l (d : slots T) i n :
  (i + length l <= length d)%nat ->
  copy_loop l (Z.of_nat i) (mkArray (Some d) n) =
    Ret (mkArray (Some (take i d ++ (Some <$> l) ++ drop (i + length l) d)) n).
Proof.
  revert d i. induction l as [|x l IH]; intros d i Hd; cbn [copy_loop].
  { cbn. by rewrite Nat.add_0_r, take_drop. }
  cbn [length] in Hd. unfold Array_set. cbn [arr_data arr_size]. rewrite slot_store_spec, !ret_bind by lia.
  replace (Z.of_nat i + 1) with (Z.of_nat (S i)) by lia. rewrite IH by (rewrite length_insert; lia).
  rewrite Nat2Z.id, take_insert_app, drop_insert_lt by lia. cbn [fmap list_fmap length].
  rewrite <- (assoc_L (++)). cbn. by replace (i + S (length l))%nat with (S (i + length l)) by lia.
Qed.

Lemma Array_of_view_spec l size :
  0 <= size <= Z.of_nat (length l) ->
  exists a, Array_of_view l size = Ret a /\ array_is a (take (Z.to_nat size) l).
Proof.
  intros Hs. unfold Array_of_view. rewrite (proj2 (Z.ltb_ge _ _)) by lia. unfold Array_sized.
  change 0 with (Z.of_nat 0). unfold new_array.
  rewrite array_copy_loop_spec by (rewrite length_replicate, length_take; lia).
  eexists. split; [done|]. split; cbn; [rewrite length_take; lia|].
  rewrite drop_ge, app_nil_r; [done|]. rewrite length_replicate, length_take. lia.
Qed.

Lemma Array_get_spec (a : Array T) l i x : array_is a l -> l !! i = Some x -> Array_get a (Z.of_nat i) = Ret x.
Proof.
  intros [Hs Hd] Hi. unfold Array_get, slot_load. destruct (arr_data a) as [d|]; [|by subst].
  cbn. rewrite (proj2 (Z.leb_le _ _)), Nat2Z.id by lia. by rewrite Hd, list_lookup_fmap, Hi.
Qed.
End spec.

(** Operations on a vector, and what they do to the sequence it stands for. *)
Inductive vec_op (T : Type) : Type := VPush (x : T) | VEmplace (Args : Type) (ctor : Args -> T) (args : Args) | VPop | VResize (capacity : Z).
Arguments VPush {T} x.
Arguments VEmplace {T} Args ctor args.
Arguments VPop {T}.
Arguments VResize {T} capacity.

Definition run_vec {T} (op : vec_op T) (v : Vector T) : res (Vector T) :=
  match op with
  | VPush x => vec_PushBack x v
  | VEmplace _ ctor args => vec_EmplaceBack ctor args v
  | VPop => '(_, v') ← vec_PopBack v; Ret v'
  | VResize c => vec_Resize c v
  end.

Definition spec_vec {T} (op : vec_op T) (l : list T) : list T :=
  match op with
  | VPush x => l ++ [x]
  | VEmplace _ ctor args => l ++ [ctor args]
  | VPop => take (pred (length l)) l
  | VResize _ => l
  end.

(** What callers must respect: no pop of an empty vector, no shrinking below the size. *)
Definition vec_pre {T} (op : vec_op T) (l : list T) : Prop :=
  match op with
  | VPush _ | VEmplace _ _ _ => Z.of_nat (length l) < 2 ^ 62
  | VPop => l <> [] /\ Z.of_nat (length l) < 2 ^ 62
  | VResize c => Z.of_nat (length l) <= c < 2 ^ 63
  end.

(** A vector is a sequence: pushes (and [EmplaceBack]) append (growing the allocation by
    doubling as often as needed), pops take the last element, [Resize] changes
    nothing but the capacity, iteration and indexing yield the sequence; but
    iteration over an empty vector that has an allocation visits one slot,
    [Resize] below the size writes past the new allocation, and so does
    popping an empty vector. *)
Theorem Vector_refines_list {T} (v : Vector T) l op :
  vec_is v l ->
  ((Z.of_nat (length l) < 2 ^ 63 -> vdata_ v = None \/ l <> [] -> vec_elements v = Ret l) /\
   (forall r, l = [] -> is_Some (vdata_ v) -> vec_elements v = Ret r -> length r = 1%nat)) /\ (forall i x, l !! i = Some x -> vec_at v (Z.of_nat i) = Ret x) /\
  (vec_pre op l -> exists v', run_vec op v = Ret v' /\ vec_is v' (spec_vec op l)) /\
  (l = [] -> vec_PopBack v = Fault) /\
  (forall c, 0 <= c < Z.of_nat (length l) -> vec_Resize c v = Fault).
Proof.
  intros Hv. split_and!.
  - by apply vec_elements_spec.
  - intros r ->. by apply empty_vector_iterates.
  - intros i x Hi. by eapply slot_load_spec.
  - intros Hpre. destruct op as [x|Args ctor args| |c]; cbn [vec_pre run_vec spec_vec] in *.
    + destruct (vec_PushBack_spec v l x Hv Hpre) as (v' & ? & ? & _). eauto.
    + destruct (vec_PushBack_spec v l (ctor args) Hv Hpre) as (v' & ? & ? & _). exists v'. done.
    + destruct Hpre as [Hne Hlen]. destruct l as [|x l _] using rev_ind; [done|]. rewrite length_app in *. cbn [length] in *.
      destruct (vec_PopBack_spec v l x Hv) as (_ & v' & -> & Hv'); [lia|]. rewrite ret_bind. exists v'. split; [done|].
      rewrite Nat.add_1_r. cbn [pred]. by rewrite take_app_length.
    + destruct (vec_Resize_spec v l c Hv) as (v' & ? & ? & _); [rewrite (vi_size _ _ Hv); lia|]. eauto.
  - intros ->. by apply vec_PopBack_empty.
  - intros c Hc. by eapply vec_Resize_shrink.
Qed.

(** A vector whose only element was taken still yields one element. *)
Example popped_vector_iterates : ('(_, v) ← vec_PopBack (mkVec (Some [Some 7; Some 8]) 1 2); vec_elements v) <> Ret [].
Proof. vm_compute. discriminate. Qed.

(** A view does skip: over any memory, an empty view has no elements; [empty] denies it. *)
Lemma empty_view {T} (d : option (slots T)) : ArrayView_elements d 0 = Ret [] /\ ArrayView_empty 0 = false.
Proof. done. Qed.

(** *** Witnesses *)
Lemma Vector_refines_list_witness :
  exists v, run_vec (VPush 8) (mkVec (Some [Some 7]) 1 1) = Ret v /\ vec_is v [7; 8] /\ vec_Resize 1 v = Fault.
Proof.
  assert (vec_is (mkVec (Some [Some 7]) 1 1) [7]) as H1 by (split; [reflexivity|cbn; lia|split; reflexivity]).
  destruct (Vector_refines_list (mkVec (Some [Some 7]) 1 1) [7] (VPush 8) H1) as (_ & _ & H & _).
  destruct H as (v & Hr & Hv); [cbn; lia|]. exists v. split; [exact Hr|]. split; [exact Hv|].
  refine (proj2 (proj2 (proj2 (proj2 (Vector_refines_list v [7; 8] VPop Hv)))) 1 _). cbn. lia.
Defined.
