(* ===== verification/Owner.v ===== *)
(** * Owners of allocations (lib/glacier: Array, Vector, String and their moves)

    Arrays, vectors and strings own the allocation their pointer names.  Here is
    what construction, moves, growth and destruction do with the allocations, for
    any number of such objects: deleting something that is not allocated faults. *)

From Stdlib Require Import ZArith Lia.
From stdpp Require Import base tactics numbers list gmap fin_sets.
From S2P Require Import Prelude.

(** An object: its pointer, and its sizes ([size_]; [size_] and [capacity_]; [length_]). *)
Record owner : Type := mkOwner { o_data : option positive; o_sizes : list Z }.

(** The objects, by address, and the allocations. *)
Record world : Type := mkWorld { objs : gmap positive owner; live : gset positive }.

Implicit Types (w : world) (x y p : positive).

Definition with_obj x (o : owner) w : world := mkWorld (<[x := o]> (objs w)) (live w).
Definition get_obj x w : res owner := deref (objs w !! x).

(** [new T[n]] and [delete[] data_] *)
Definition new_block w : positive * world := let p := fresh (live w) in (p, mkWorld (objs w) ({[p]} ∪ live w)).
Definition delete_block p w : res world := if decide (p ∈ live w) then Ret (mkWorld (objs w) (live w ∖ {[p]})) else Fault.

(** [if (data_) delete[] data_;] *)
Definition drop_data (o : owner) w : res world := match o_data o with Some p => delete_block p w | None => Ret w end.

(** ** The operations *)

(** Default construction, and construction with an allocation. *)
Definition construct x (n : nat) w : world := with_obj x (mkOwner None (replicate n 0)) w.
Definition construct_with x (sizes : list Z) w : world := let '(p, w) := new_block w in with_obj x (mkOwner (Some p) sizes) w.

(** What is left of an object that was moved from. *)
Definition moved (o : owner) : owner := mkOwner None (replicate (length (o_sizes o)) 0).

(** [Array(Array&& other)] and its kin: [x] is new. *)
Definition move_construct x y w : res world :=
  o ← get_obj y w; Ret (with_obj y (moved o) (with_obj x o w)).

(** [operator=(T&& other)]; [x] and [y] can be the same object, whose pointer is then read after the deletion. *)
Definition move_assign x y w : res world :=
  o ← get_obj x w;
  w ← drop_data o w;
  other ← get_obj y w;
  let w := with_obj x other w in
  Ret (with_obj y (moved other) w).

(** [String& String::operator=(const String& other)]: the old allocation is deleted, the length is read from [other], and a
    new one is made; the characters are not kept here. *)
Definition copy_assign x y w : res world :=
  o ← get_obj x w;
  w ← drop_data o w;
  other ← get_obj y w;
  let '(p, w) := new_block w in
  Ret (with_obj x (mkOwner (Some p) (o_sizes other)) w).

(** [Vector::Resize]: a new allocation, then the old one is deleted; [size_] stays. *)
Definition regrow x (capacity : Z) w : res world :=
  o ← get_obj x w;
  let '(p, w) := new_block w in
  w ← drop_data o w;
  Ret (with_obj x (mkOwner (Some p) (take 1 (o_sizes o) ++ [capacity])) w).

Definition destroy x w : res world :=
  o ← get_obj x w;
  w ← drop_data o w;
  Ret (mkWorld (delete x (objs w)) (live w)).

Inductive own_op : Type :=
| OConstruct x (n : nat) | OConstructWith x (sizes : list Z) | OMoveConstruct x y | OMoveAssign x y
| OCopyAssign x y | ORegrow x (capacity : Z) | ODestroy x.

Definition run_op (op : own_op) w : res world :=
  match op with
  | OConstruct x n => Ret (construct x n w)
  | OConstructWith x sizes => Ret (construct_with x sizes w)
  | OMoveConstruct x y => move_construct x y w
  | OMoveAssign x y => move_assign x y w
  | OCopyAssign x y => copy_assign x y w
  | ORegrow x capacity => regrow x capacity w
  | ODestroy x => destroy x w
  end.

(** ** The invariant: every allocation has one owner *)
Definition owns w x p : Prop := exists o, objs w !! x = Some o /\ o_data o = Some p.

Record owned w : Prop := {
  ow_one x y p : owns w x p -> owns w y p -> x = y;
  ow_live x p : owns w x p -> p ∈ live w;
  ow_owner p : p ∈ live w -> exists x, owns w x p;
}.

(** Inside an operation some allocations, [L], are held by no object: they are in local variables, or about to be deleted. *)
Record holds w (L : gset positive) : Prop := {
  ho_one x y p : owns w x p -> owns w y p -> x = y;
  ho_live x p : owns w x p -> p ∈ live w /\ p ∉ L;
  ho_owner p : p ∈ live w -> p ∉ L -> exists x, owns w x p;
  ho_loose : L ⊆ live w;
}.

Lemma owned_holds w : owned w <-> holds w ∅.
Proof. split; intros []; split; naive_solver set_solver. Qed.

Definition block (o : owner) : gset positive := match o_data o with Some p => {[p]} | None => ∅ end.

Lemma elem_of_block o p : p ∈ block o <-> o_data o = Some p.
Proof. unfold block. destruct (o_data o); set_solver. Qed.

Lemma owns_with_obj w z x o p : owns (with_obj x o w) z p <-> (z = x /\ p ∈ block o) \/ (z <> x /\ owns w z p).
Proof.
  rewrite elem_of_block. unfold owns, with_obj; cbn [objs]. destruct (decide (z = x)) as [->|Hn].
  - rewrite lookup_insert_eq. naive_solver.
  - rewrite lookup_insert_ne by done. naive_solver.
Qed.

Lemma owns_block w x o p : objs w !! x = Some o -> owns w x p <-> p ∈ block o.
Proof. intros E. rewrite elem_of_block. unfold owns. naive_solver. Qed.

(** ** What the parts of an operation do to it *)
Section parts.
Context {w : world} {L : gset positive} (Hw : holds w L).

(** An object gives its allocation up. *)
Lemma holds_release x o s : objs w !! x = Some o -> holds (with_obj x (mkOwner None s) w) (L ∪ block o).
Proof using Hw.
  intros E. pose proof (fun p => owns_block w x o p E) as Hb. destruct Hw as [H1 H2 H3 H4].
  split.
  - intros y z p. rewrite !owns_with_obj. set_solver.
  - intros y p. rewrite owns_with_obj. intros [[_ Hp]|[Hn Hy]]; [set_solver|]. destruct (H2 _ _ Hy).
    split; [done|]. rewrite elem_of_union, <- Hb. intros [?|Hx]; [done|]. naive_solver.
  - intros p Hp Hn. destruct (H3 p Hp) as [y Hy]; [set_solver|]. exists y. rewrite owns_with_obj. right. split; [|done].
    intros ->. rewrite Hb in Hy. set_solver.
  - intros p. cbn [with_obj live]. rewrite elem_of_union, <- Hb. naive_solver.
Qed.

(** An object that has none takes an allocation. *)
Lemma holds_acquire x o : (forall p, ~ owns w x p) -> block o ⊆ L -> holds (with_obj x o w) (L ∖ block o).
Proof using Hw.
  intros Hx Hb. destruct Hw as [H1 H2 H3 H4]. split.
  - intros y z p. rewrite !owns_with_obj. intros [[-> ?]|[? Hy]] [[-> ?]|[? Hz]]; try done.
    + destruct (H2 _ _ Hz); set_solver.
    + destruct (H2 _ _ Hy); set_solver.
    + eauto.
  - intros y p. rewrite owns_with_obj. cbn [with_obj live]. intros [[-> ?]|[? Hy]]; [set_solver|].
    destruct (H2 _ _ Hy). set_solver.
  - intros p Hp Hn. destruct (decide (p ∈ block o)); [exists x; rewrite owns_with_obj; tauto|].
    destruct (H3 p Hp) as [y Hy]; [set_solver|]. exists y. rewrite owns_with_obj. naive_solver.
  - cbn [with_obj live]. set_solver.
Qed.

Lemma holds_new_block p w' : new_block w = (p, w') -> holds w' (L ∪ {[p]}) /\ objs w' = objs w.
Proof using Hw.
  unfold new_block. intros [= <- <-]. pose proof (is_fresh (live w)) as Hf. destruct Hw as [H1 H2 H3 H4].
  split; [|done]. split.
  - intros x y q. apply H1.
  - intros x q Hx. destruct (H2 x q Hx). cbn [live]. set_solver.
  - intros q Hq Hn. cbn [live] in Hq. apply H3; set_solver.
  - cbn [live]. set_solver.
Qed.

(** Deleting a held allocation succeeds. *)
Lemma held_drop o : block o ⊆ L -> exists w', drop_data o w = Ret w' /\ objs w' = objs w /\ holds w' (L ∖ block o).
Proof using Hw.
  unfold drop_data, block, delete_block. destruct Hw as [H1 H2 H3 H4].
  destruct (o_data o) as [p|]; intros Hb.
  - rewrite decide_True by set_solver. eexists; split; [done|]. split; [done|]. split; cbn [live].
    + intros x y q. apply H1.
    + intros x q Hx. destruct (H2 x q Hx). set_solver.
    + intros q Hq Hn. apply H3; set_solver.
    + set_solver.
  - eexists; split; [done|]. split; [done|]. split; naive_solver set_solver.
Qed.

Lemma holds_no_owner x : objs w !! x = None -> forall p, ~ owns w x p.
Proof. unfold owns. naive_solver. Qed.
End parts.

Lemma with_obj_twice x o o' w : with_obj x o (with_obj x o' w) = with_obj x o w.
Proof. unfold with_obj; cbn [objs live]. by rewrite insert_insert_eq. Qed.

Lemma with_obj_comm x y o o' w : x <> y -> with_obj x o (with_obj y o' w) = with_obj y o' (with_obj x o w).
Proof. intros. unfold with_obj; cbn [objs live]. by rewrite insert_insert_ne. Qed.

Lemma drop_with_obj x o o' w : drop_data o (with_obj x o' w) = (w' ← drop_data o w; Ret (with_obj x o' w')).
Proof. unfold drop_data, delete_block. destruct (o_data o); [|done]. cbn [with_obj live]. by case_decide. Qed.

Lemma drop_objs o w w' : drop_data o w = Ret w' -> objs w' = objs w.
Proof. unfold drop_data, delete_block. repeat case_match; by intros [= <-]. Qed.

(** Deleting an object's own allocation, while it still names it. *)
Lemma held_drop_own w L x o :
  holds w L -> objs w !! x = Some o ->
  exists w', drop_data o w = Ret w' /\ objs w' = objs w /\ forall s, holds (with_obj x (mkOwner None s) w') L.
Proof.
  intros Hw E. assert (Hd : block o ## L).
  { intros p. rewrite <- (owns_block w x o p E). intros Hx. by destruct (ho_live _ _ Hw _ _ Hx). }
  destruct (held_drop (holds_release Hw x o [] E) o) as (w1 & D & _); [set_solver|].
  rewrite drop_with_obj in D. destruct (drop_data o w) as [w'| | |] eqn:D'; try done.
  exists w'. split; [done|]. split; [by eapply drop_objs|]. intros s.
  destruct (held_drop (holds_release Hw x o s E) o) as (w2 & D2 & _ & H2); [set_solver|].
  rewrite drop_with_obj, D' in D2. injection D2 as <-.
  by replace ((L ∪ block o) ∖ block o) with L in H2 by set_solver.
Qed.

Lemma holds_ext w w' L : live w' = live w -> (forall x p, owns w' x p <-> owns w x p) -> holds w L -> holds w' L.
Proof.
  intros E Ho [H1 H2 H3 H4]. split; rewrite ?E; try done.
  - intros x y p. rewrite !Ho. apply H1.
  - intros x p. rewrite Ho. apply H2.
  - intros p Hp Hn. destruct (H3 _ Hp Hn) as [x Hx]. exists x. by rewrite Ho.
Qed.

Lemma holds_delete w L x s : holds (with_obj x (mkOwner None s) w) L -> holds (mkWorld (delete x (objs w)) (live w)) L.
Proof.
  apply holds_ext; [done|]. intros y p. rewrite owns_with_obj. unfold owns; cbn [objs]. rewrite elem_of_block; cbn [o_data].
  destruct (decide (y = x)) as [->|]; [rewrite lookup_delete_eq|rewrite lookup_delete_ne by done]; naive_solver.
Qed.

(** An object takes the place of one that owns nothing. *)
Lemma holds_replace w L x s o : holds (with_obj x (mkOwner None s) w) L -> block o ⊆ L -> holds (with_obj x o w) (L ∖ block o).
Proof.
  intros Hw Hb. rewrite <- (with_obj_twice x o (mkOwner None s) w). apply holds_acquire; [done| |done].
  intros p. rewrite owns_with_obj, elem_of_block. naive_solver.
Qed.

(** ** The operations keep it *)
Section ops_keep.
Context {w : world} (Hw : holds w ∅).
Implicit Types o : owner.

Lemma construct_holds x n : objs w !! x = None -> holds (construct x n w) ∅.
Proof using Hw. intros E. eapply (holds_acquire Hw x (mkOwner None _)); [by apply holds_no_owner|]. set_solver. Qed.

Lemma construct_with_holds x sizes : objs w !! x = None -> holds (construct_with x sizes w) ∅.
Proof using Hw.
  intros E. unfold construct_with. destruct (new_block w) as [p w'] eqn:N. destruct (holds_new_block Hw _ _ N) as [Hw' Eo].
  replace (∅ : gset positive) with ((∅ ∪ {[p]}) ∖ block (mkOwner (Some p) sizes)) by (cbn; set_solver).
  apply holds_acquire; [done| |cbn; set_solver]. apply holds_no_owner. by rewrite Eo.
Qed.

Lemma move_construct_holds x y : objs w !! x = None -> is_Some (objs w !! y) -> exists w', move_construct x y w = Ret w' /\ holds w' ∅.
Proof using Hw.
  intros E [o Ey]. unfold move_construct, get_obj. rewrite Ey. eexists. split; [done|].
  assert (x <> y) by congruence. rewrite with_obj_comm by done.
  replace (∅ : gset positive) with ((∅ ∪ block o) ∖ block o) by set_solver.
  apply holds_acquire; [by apply holds_release| |set_solver]. apply holds_no_owner. cbn [with_obj objs].
  by rewrite lookup_insert_ne.
Qed.

Lemma move_assign_holds x y :
  is_Some (objs w !! x) -> is_Some (objs w !! y) -> exists w', move_assign x y w = Ret w' /\ holds w' ∅.
Proof using Hw.
  intros [o Ex] [other Ey]. unfold move_assign, get_obj. rewrite Ex. cbn [deref].
  destruct (held_drop_own _ _ _ _ Hw Ex) as (w1 & D & Eo & H1). rewrite ret_bind, D, ret_bind, Eo, Ey. cbn [deref].
  rewrite ret_bind. eexists. split; [done|]. destruct (decide (x = y)) as [<-|Hn].
  - rewrite with_obj_twice. apply H1.
  - rewrite with_obj_comm by done. replace (∅ : gset positive) with ((∅ ∪ block other) ∖ block other) by set_solver.
    eapply (holds_replace _ _ _ []); [|set_solver]. rewrite with_obj_comm by done. apply holds_release; [apply H1|].
    cbn [with_obj objs]. rewrite lookup_insert_ne by done. by rewrite Eo.
Qed.

Lemma copy_assign_holds x y :
  is_Some (objs w !! x) -> is_Some (objs w !! y) -> exists w', copy_assign x y w = Ret w' /\ holds w' ∅.
Proof using Hw.
  intros [o Ex] [other Ey]. unfold copy_assign, get_obj. rewrite Ex. cbn [deref].
  destruct (held_drop_own _ _ _ _ Hw Ex) as (w1 & D & Eo & H1). rewrite ret_bind, D, ret_bind, Eo, Ey. cbn [deref].
  rewrite ret_bind. destruct (new_block w1) as [p w2] eqn:N. eexists. split; [done|].
  assert (N' : new_block (with_obj x (mkOwner None []) w1) = (p, with_obj x (mkOwner None []) w2)).
  { unfold new_block in *. by injection N as <- <-. }
  destruct (holds_new_block (H1 []) _ _ N') as [H2 _].
  replace (∅ : gset positive) with ((∅ ∪ {[p]}) ∖ block (mkOwner (Some p) (o_sizes other))) by (cbn; set_solver).
  eapply (holds_replace _ _ _ []); [done|cbn; set_solver].
Qed.

Lemma regrow_holds x capacity : is_Some (objs w !! x) -> exists w', regrow x capacity w = Ret w' /\ holds w' ∅.
Proof using Hw.
  intros [o Ex]. unfold regrow, get_obj. rewrite Ex. cbn [deref]. rewrite ret_bind.
  destruct (new_block w) as [p w1] eqn:N. destruct (holds_new_block Hw _ _ N) as [H1 Eo]. rewrite <- Eo in Ex.
  destruct (held_drop_own _ _ _ _ H1 Ex) as (w2 & D & _ & H2). rewrite D, ret_bind. eexists. split; [done|].
  replace (∅ : gset positive) with ((∅ ∪ {[p]}) ∖ block (mkOwner (Some p) (take 1 (o_sizes o) ++ [capacity])))
    by (cbn; set_solver).
  eapply (holds_replace _ _ _ []); [done|cbn; set_solver].
Qed.

Lemma destroy_holds x : is_Some (objs w !! x) -> exists w', destroy x w = Ret w' /\ holds w' ∅.
Proof using Hw.
  intros [o Ex]. unfold destroy, get_obj. rewrite Ex. cbn [deref]. rewrite ret_bind.
  destruct (held_drop_own _ _ _ _ Hw Ex) as (w1 & D & _ & H1). rewrite D, ret_bind. eexists. split; [done|].
  by eapply (holds_delete _ _ _ []).
Qed.
End ops_keep.

(** ** Programs *)
Fixpoint run_ops (ops : list own_op) w : res world :=
  match ops with [] => Ret w | op :: ops => w ← run_op op w; run_ops ops w end.

(** The objects an operation leaves. *)
Definition op_objs (op : own_op) (X : gset positive) : gset positive :=
  match op with
  | OConstruct x _ | OConstructWith x _ | OMoveConstruct x _ => {[x]} ∪ X
  | ODestroy x => X ∖ {[x]}
  | _ => X
  end.

(** Objects are constructed where there is none and used while they exist: the discipline of scopes. *)
Definition op_scoped (op : own_op) (X : gset positive) : bool :=
  match op with
  | OConstruct x _ | OConstructWith x _ => bool_decide (x ∉ X)
  | OMoveConstruct x y => bool_decide (x ∉ X) && bool_decide (y ∈ X)
  | OMoveAssign x y | OCopyAssign x y => bool_decide (x ∈ X) && bool_decide (y ∈ X)
  | ORegrow x _ | ODestroy x => bool_decide (x ∈ X)
  end.

Fixpoint scoped (ops : list own_op) (X : gset positive) : bool :=
  match ops with [] => true | op :: ops => op_scoped op X && scoped ops (op_objs op X) end.

Definition final_objs (ops : list own_op) (X : gset positive) : gset positive := foldl (fun X op => op_objs op X) X ops.

Lemma run_op_holds op w : op_scoped op (dom (objs w)) = true -> holds w ∅ -> exists w', run_op op w = Ret w' /\ holds w' ∅.
Proof.
  intros Hs Hw. destruct op; cbn [op_scoped run_op] in *; rewrite ?andb_true_iff, ?bool_decide_eq_true, ?not_elem_of_dom, ?elem_of_dom in Hs;
    destruct_and?; eauto using construct_holds, construct_with_holds, move_construct_holds, move_assign_holds,
      copy_assign_holds, regrow_holds, destroy_holds.
Qed.

Lemma run_op_objs op w w' : op_scoped op (dom (objs w)) = true -> run_op op w = Ret w' -> dom (objs w') = op_objs op (dom (objs w)).
Proof.
  destruct op; cbn [op_scoped run_op op_objs]; intros Hs E; rewrite ?andb_true_iff, ?bool_decide_eq_true in Hs.
  - injection E as <-. cbn. by rewrite dom_insert_L.
  - injection E as <-. cbn. by rewrite dom_insert_L.
  - unfold move_construct in E. apply bind_Ret in E as (o & Eo & [= <-]). cbn. rewrite !dom_insert_L. set_solver.
  - unfold move_assign in E. apply bind_Ret in E as (o & Eo & E). apply bind_Ret in E as (w1 & D & E).
    apply bind_Ret in E as (o' & Eo' & [= <-]). cbn. rewrite !dom_insert_L, (drop_objs _ _ _ D). set_solver.
  - unfold copy_assign in E. apply bind_Ret in E as (o & Eo & E). apply bind_Ret in E as (w1 & D & E).
    apply bind_Ret in E as (o' & Eo' & [= <-]). cbn. rewrite !dom_insert_L, (drop_objs _ _ _ D). set_solver.
  - unfold regrow in E. apply bind_Ret in E as (o & Eo & E). cbn [new_block] in E. apply bind_Ret in E as (w1 & D & [= <-]).
    cbn. rewrite !dom_insert_L, (drop_objs _ _ _ D). cbn. set_solver.
  - unfold destroy in E. apply bind_Ret in E as (o & Eo & E). apply bind_Ret in E as (w1 & D & [= <-]).
    cbn. by rewrite dom_delete_L, (drop_objs _ _ _ D).
Qed.

(** Any program of such operations that keeps to the scopes of its objects runs without deleting anything twice, leaves every
    allocation with exactly one owner, and has freed everything when no object is left. *)
Theorem owners_never_leak ops w :
  owned w -> scoped ops (dom (objs w)) = true ->
  exists w', run_ops ops w = Ret w' /\ owned w' /\ dom (objs w') = final_objs ops (dom (objs w)) /\
    (final_objs ops (dom (objs w)) = ∅ -> live w' = ∅).
Proof.
  rewrite owned_holds. revert w. induction ops as [|op ops IH]; intros w Hw Hs.
  - exists w. rewrite owned_holds. cbn. split; [done|]. split; [done|]. split; [done|]. intros Hd. apply set_eq. intros p.
    split; [|set_solver]. intros Hp. destruct (ho_owner _ _ Hw p Hp) as (x & o & Ex & _); [set_solver|].
    apply elem_of_dom_2 in Ex. set_solver.
  - cbn [scoped] in Hs. apply andb_true_iff in Hs as [Ho Hs]. destruct (run_op_holds op w Ho Hw) as (w1 & E & H1).
    cbn [run_ops final_objs foldl]. rewrite E, ret_bind. rewrite <- (run_op_objs op w w1 Ho E) in *. apply IH; done.
Qed.

(** Assigning an object to itself frees what it owned and leaves it empty. *)
Lemma self_move_empties w x o :
  owned w -> objs w !! x = Some o -> exists w', move_assign x x w = Ret w' /\ objs w' !! x = Some (moved o) /\ live w' = live w ∖ block o.
Proof.
  intros Hw Ex. pose proof (ow_live _ Hw x) as Hl. unfold move_assign, get_obj. rewrite Ex. cbn [deref]. rewrite ret_bind.
  unfold drop_data, block, delete_block. destruct (o_data o) as [p|] eqn:E.
  - rewrite decide_True by (apply Hl; exists o; done). rewrite ret_bind. cbn [objs]. rewrite Ex. cbn [deref]. rewrite ret_bind.
    eexists. split; [done|]. cbn. by rewrite lookup_insert_eq.
  - rewrite ret_bind, Ex. cbn [deref]. rewrite ret_bind. eexists. split; [done|]. cbn. rewrite lookup_insert_eq. set_solver.
Qed.

(** A vector that grows, is moved into a new one and then back, and a string that is copied. *)
Example owners_run :
  let ops := [OConstruct 1 2; ORegrow 1 1%Z; ORegrow 1 2%Z; OMoveConstruct 2 1; OMoveAssign 1 2; OConstructWith 3 [5%Z]; OConstruct 4 1;
              OCopyAssign 4 3; OMoveAssign 3 3; ODestroy 4; ODestroy 3; ODestroy 2; ODestroy 1]%positive in
  scoped ops ∅ = true /\ (w ← run_ops ops (mkWorld ∅ ∅); Ret (bool_decide (live w = ∅))) = Ret true.
Proof. split; vm_compute; reflexivity. Qed.
