(* ===== verification/IntrusiveList.v ===== *)
(** * IntrusiveList (lib/glacier/container/intrusive_list.h)

    The doubly linked list of threads and slabs, whose links live in the
    objects themselves.  Objects are locations of a store of links; a list
    is its two end pointers and its counter.  An object has one pair of
    links, so it can be in one list at a time: the specification makes that
    discipline explicit. *)

From Stdlib Require Import ZArith Lia.
From stdpp Require Import base tactics numbers list gmap.
From S2P Require Import Prelude.

Record IntrusiveListNode : Type := mkLink { next_ : option positive; prev_ : option positive }.
Record IntrusiveList : Type := mkIL { il_front : option positive; il_back : option positive; il_size : Z }.

Notation links := (gmap positive IntrusiveListNode).

Definition il_new : IntrusiveList := mkIL None None 0.

Definition set_next (x : positive) (o : option positive) (h : links) : res links :=
  n ← deref (h !! x); Ret (<[x := mkLink o (prev_ n)]> h).
Definition set_prev (x : positive) (o : option positive) (h : links) : res links :=
  n ← deref (h !! x); Ret (<[x := mkLink (next_ n) o]> h).

Definition il_PushFront (obj : positive) (h : links) (l : IntrusiveList) : res (links * IntrusiveList) :=
  let sz := il_size l [+] 1 in
  h ← set_next obj (il_front l) h;
  h ← set_prev obj None h;
  match il_front l with
  | None => Ret (h, mkIL (Some obj) (Some obj) sz)
  | Some f => h ← set_prev f (Some obj) h; Ret (h, mkIL (Some obj) (il_back l) sz)
  end.

Definition il_PushBack (obj : positive) (h : links) (l : IntrusiveList) : res (links * IntrusiveList) :=
  match il_front l with
  | None => il_PushFront obj h l
  | Some _ =>
      b ← deref (il_back l);
      h ← set_next b (Some obj) h;
      h ← set_prev obj (Some b) h;
      h ← set_next obj None h;
      Ret (h, mkIL (il_front l) (Some obj) (il_size l [+] 1))
  end.

Definition il_Remove (obj : option positive) (h : links) (l : IntrusiveList) : res (links * IntrusiveList) :=
  match obj with
  | None => Ret (h, l)
  | Some x =>
      n ← deref (h !! x);
      let front := if decide (il_front l = Some x) then next_ n else il_front l in
      let back := if decide (il_back l = Some x) then prev_ n else il_back l in
      h ← match prev_ n with Some p => set_next p (next_ n) h | None => Ret h end;
      n ← deref (h !! x);
      h ← match next_ n with Some q => set_prev q (prev_ n) h | None => Ret h end;
      h ← set_prev x None h;
      h ← set_next x None h;
      Ret (h, mkIL front back (il_size l [-] 1))
  end.

Definition il_PopFront (h : links) (l : IntrusiveList) : res (option positive * links * IntrusiveList) :=
  match il_front l with
  | None => Ret (None, h, l)
  | Some f =>
      let sz := il_size l [-] 1 in
      if decide (il_front l = il_back l) then Ret (Some f, h, mkIL None None sz) else
      n ← deref (h !! f);
      f' ← deref (next_ n);
      h ← set_prev f' None h;
      h ← set_next f None h;
      Ret (Some f, h, mkIL (Some f') (il_back l) sz)
  end.

Definition il_PopBack (h : links) (l : IntrusiveList) : res (option positive * links * IntrusiveList) :=
  match il_back l with
  | None => Ret (None, h, l)
  | Some b =>
      if decide (il_front l = il_back l) then il_PopFront h l else
      n ← deref (h !! b);
      b' ← deref (prev_ n);
      h ← set_next b' None h;
      h ← set_prev b None h;
      Ret (Some b, h, mkIL (il_front l) (Some b') (il_size l [-] 1))
  end.

(** ** Segments of a list *)

(** [dseg h p xs n]: the objects [xs] are linked in order, between [p] and [n]. *)
Fixpoint dseg (h : links) (p : option positive) (xs : list positive) (n : option positive) : Prop :=
  match xs with
  | [] => True
  | x :: xs' =>
      h !! x = Some (mkLink (match xs' with [] => n | y :: _ => Some y end) p) /\ dseg h (Some x) xs' n
  end.

Record dll (h : links) (l : IntrusiveList) (xs : list positive) : Prop := {
  dll_front : il_front l = head xs;
  dll_back : il_back l = last xs;
  dll_size : il_size l = Z.of_nat (length xs);
  dll_seg : dseg h None xs None;
  dll_nodup : NoDup xs;
  dll_bound : Z.of_nat (length xs) < 2 ^ 64 - 1;
}.

Section lists.
Implicit Types (h : links) (l : IntrusiveList) (xs ys : list positive).

Lemma dseg_app h p xs ys n :
  dseg h p (xs ++ ys) n <->
  dseg h p xs (match ys with [] => n | y :: _ => Some y end) /\
  dseg h (match last xs with None => p | Some x => Some x end) ys n.
Proof.
  revert p. induction xs as [|x xs IH]; intros p; [cbn; tauto|]. cbn [app dseg]. rewrite IH, last_cons.
  destruct xs as [|x' xs]; [destruct ys; cbn; tauto|]. cbn [app]. destruct (last (x' :: xs)) eqn:E; [tauto|].
  by apply last_None in E.
Qed.

Lemma dseg_insert h x v p xs n : x ∉ xs -> dseg (<[x := v]> h) p xs n <-> dseg h p xs n.
Proof.
  revert p. induction xs as [|y xs IH]; intros p; [done|]. intros Hn%not_elem_of_cons. cbn.
  rewrite lookup_insert_ne by naive_solver. rewrite IH by naive_solver. done.
Qed.

(** Changing the link that leaves a segment, and the one that enters it. *)
Lemma dseg_set_last h p xs x n n' :
  dseg h p (xs ++ [x]) n -> NoDup (xs ++ [x]) ->
  exists h', set_next x n' h = Ret h' /\ dseg h' p (xs ++ [x]) n' /\
    (forall y, y <> x -> h' !! y = h !! y).
Proof.
  intros [H1 H2]%dseg_app Hnd. cbn in H2. destruct H2 as [Hx _]. unfold set_next. rewrite Hx. cbn [deref mbind res_bind prev_].
  eexists. split; [done|]. split.
  - apply NoDup_app in Hnd as (_ & Hd & _). apply dseg_app. rewrite dseg_insert by set_solver. split; [done|].
    cbn. by rewrite lookup_insert_eq.
  - intros y Hy. by rewrite lookup_insert_ne.
Qed.

Lemma dseg_set_first h p p' x xs n :
  dseg h p (x :: xs) n -> x ∉ xs ->
  exists h', set_prev x p' h = Ret h' /\ dseg h' p' (x :: xs) n /\ (forall y, y <> x -> h' !! y = h !! y).
Proof.
  intros [Hx Hxs] Hn. unfold set_prev. rewrite Hx. cbn [deref mbind res_bind next_]. eexists. split; [done|]. split.
  - split; [by rewrite lookup_insert_eq|]. by rewrite dseg_insert.
  - intros y Hy. by rewrite lookup_insert_ne.
Qed.

Lemma dseg_ext h h' p xs n : (forall y, y ∈ xs -> h' !! y = h !! y) -> dseg h p xs n -> dseg h' p xs n.
Proof.
  revert p. induction xs as [|x xs IH]; intros p Hy; [done|]. cbn. intros [Hx Hxs].
  rewrite Hy by (by left). split; [done|]. apply IH; [|done]. intros y Hin. apply Hy. by right.
Qed.

Lemma link_new h x o1 o2 :
  is_Some (h !! x) -> exists n, h !! x = Some n /\
    set_next x o1 h ≫= set_prev x o2 = Ret (<[x := mkLink o1 o2]> h).
Proof.
  intros [n Hn]. exists n. split; [done|]. unfold set_next, set_prev. rewrite Hn. cbn.
  rewrite lookup_insert_eq. cbn. by rewrite insert_insert_eq.
Qed.

(** Objects outside the list keep their links. *)
Definition frame h h' xs : Prop := forall y, y ∉ xs -> h' !! y = h !! y.

Lemma PushFront_spec h l xs x :
  dll h l xs -> is_Some (h !! x) -> x ∉ xs -> Z.of_nat (length xs) < 2 ^ 64 - 2 ->
  exists h' l', il_PushFront x h l = Ret (h', l') /\ dll h' l' (x :: xs) /\ frame h h' (x :: xs).
Proof.
  intros [Hf Hb Hs Hseg Hnd _] Hx Hn Hlen. unfold il_PushFront.
  destruct (link_new h x (il_front l) None Hx) as (n & Hhx & Hlink). rewrite <- bind_assoc, Hlink. cbn [mbind res_bind].
  assert (il_size l [+] 1 = Z.of_nat (length (x :: xs))) as -> by (rewrite Hs; cbn [length]; rewrite u64_small; lia).
  rewrite Hf. destruct xs as [|f xs]; cbn [head].
  - eexists _, _. split; [done|]. split.
    + split; cbn; try done; [by rewrite lookup_insert_eq|by apply NoDup_singleton].
    + intros y Hy. rewrite lookup_insert_ne; [done|]. set_solver.
  - apply not_elem_of_cons in Hn as [Hxf Hn]. pose proof Hnd as Hnd'. apply NoDup_cons in Hnd' as [Hfn _].
    assert (dseg (<[x := mkLink (Some f) None]> h) None (f :: xs) None) as Hseg1
      by (apply dseg_insert; [set_solver|done]).
    destruct (dseg_set_first _ None (Some x) f xs None Hseg1 Hfn) as (h' & -> & Hseg2 & Hout).
    cbn [mbind res_bind]. eexists _, _. split; [done|]. split.
    + split; cbn [il_front il_back il_size head]; try done.
      * split; [|done]. rewrite Hout by done. by rewrite lookup_insert_eq.
      * apply NoDup_cons. split; [set_solver|done].
      * cbn [length] in *. lia.
    + intros y Hy. rewrite Hout by set_solver. rewrite lookup_insert_ne by set_solver. done.
Qed.

Lemma PushBack_spec h l xs x :
  dll h l xs -> is_Some (h !! x) -> x ∉ xs -> Z.of_nat (length xs) < 2 ^ 64 - 2 ->
  exists h' l', il_PushBack x h l = Ret (h', l') /\ dll h' l' (xs ++ [x]) /\ frame h h' (xs ++ [x]).
Proof.
  intros Hd Hx Hn Hlen. unfold il_PushBack. pose proof Hd as [Hf Hb Hs Hseg Hnd _]. rewrite Hf.
  destruct xs as [|f xs'] eqn:Exs; cbn [head]; [by apply PushFront_spec|].
  rewrite <- Exs in *. assert (xs <> []) as Hne by (by subst).
  destruct (exists_last Hne) as (ys & b & Hys). rewrite Hys in *. rewrite Hb, last_snoc. cbn [deref mbind res_bind].
  destruct (dseg_set_last h None ys b None (Some x) Hseg Hnd) as (h1 & -> & Hseg1 & Hout). cbn [mbind res_bind].
  assert (is_Some (h1 !! x)) as Hx1 by (rewrite Hout; [done|set_solver]).
  assert (set_prev x (Some b) h1 ≫= set_next x None = Ret (<[x := mkLink None (Some b)]> h1)) as Hlink.
  { destruct Hx1 as [n Hn1]. unfold set_prev, set_next. rewrite Hn1. cbn. rewrite lookup_insert_eq. cbn.
    by rewrite insert_insert_eq. }
  rewrite <- bind_assoc, Hlink. cbn [mbind res_bind]. eexists _, _. split; [done|]. split.
  - split; cbn [il_front il_back il_size].
    + rewrite Exs. done.
    + by rewrite last_snoc.
    + rewrite Hs. rewrite !length_Z_app in *. cbn [length] in *. rewrite u64_small; lia.
    + apply dseg_app. rewrite dseg_insert by done. split; [done|]. rewrite last_snoc. split; [|done].
      by rewrite lookup_insert_eq.
    + apply NoDup_app. split_and!; [done|set_solver|by apply NoDup_singleton].
    + rewrite length_app. cbn [length]. lia.
  - intros y Hy. rewrite lookup_insert_ne by set_solver. apply Hout. set_solver.
Qed.

Lemma PopFront_spec h l x xs :
  dll h l (x :: xs) ->
  exists h' l', il_PopFront h l = Ret (Some x, h', l') /\ dll h' l' xs /\
    h' !! x = Some (mkLink None None) /\ frame h h' (x :: xs).
Proof.
  intros [Hf Hb Hs Hseg Hnd Hlen]. unfold il_PopFront. rewrite Hf. cbn [head]. rewrite Hb.
  assert (il_size l [-] 1 = Z.of_nat (length xs)) as -> by (rewrite Hs; cbn [length] in *; rewrite u64_small; lia).
  apply NoDup_cons in Hnd as [Hxn Hnd]. destruct xs as [|y xs].
  - cbn [last]. rewrite decide_True by done. eexists _, _. split; [done|]. split_and!.
    + split; cbn; done.
    + by destruct Hseg as [-> _].
    + done.
  - rewrite last_cons. destruct (last (y :: xs)) as [z|] eqn:El; [|by apply last_None in El].
    rewrite decide_False by (intros [= ->]; apply Hxn; by apply last_Some_elem_of).
    destruct Hseg as [Hx Hseg]. rewrite Hx. cbn [deref mbind res_bind next_].
    pose proof Hnd as Hnd'. apply NoDup_cons in Hnd' as [Hyn _].
    destruct (dseg_set_first h (Some x) None y xs None Hseg Hyn) as (h1 & -> & Hseg1 & Hout). cbn [mbind res_bind].
    assert (x <> y) as Hxy by set_solver. unfold set_next. rewrite Hout, Hx by done. cbn [deref mbind res_bind prev_].
    eexists _, _. split; [done|]. split_and!.
    + split; cbn [il_front il_back il_size head]; try done; [by apply dseg_insert|cbn [length] in *; lia].
    + by rewrite lookup_insert_eq.
    + intros w Hw. rewrite lookup_insert_ne by set_solver. apply Hout. set_solver.
Qed.

Lemma Remove_spec h l xs x ys :
  dll h l (xs ++ x :: ys) ->
  exists h' l', il_Remove (Some x) h l = Ret (h', l') /\ dll h' l' (xs ++ ys) /\
    h' !! x = Some (mkLink None None) /\ frame h h' (xs ++ x :: ys).
Proof.
  intros [Hf Hb Hs Hseg Hnd Hlen]. unfold il_Remove.
  pose proof Hnd as Hnd1. apply NoDup_app in Hnd1 as (Hndx & Hdis & Hndy). apply NoDup_cons in Hndy as [Hxy Hndy].
  assert (x ∉ xs) as Hxx by (intros Hin; apply (Hdis x Hin); by left).
  apply dseg_app in Hseg as [Hsx [Hx Hsy]]. rewrite Hx. cbn [deref mbind res_bind next_ prev_].
  set (p := match last xs with None => None | Some x => Some x end) in *.
  assert (p = last xs) as Hp by (unfold p; by destruct (last xs)).
  set (q := match ys with [] => None | y :: _ => Some y end) in *.
  assert (q = head ys) as Hq by (unfold q; by destruct ys).
  assert (exists h1, match p with Some p0 => set_next p0 q h | None => Ret h end = Ret h1 /\
    dseg h1 None xs q /\ (forall y, y ∉ xs -> h1 !! y = h !! y)) as (h1 & -> & Hsx1 & Hout1).
  { rewrite Hp. destruct (last xs) as [p0|] eqn:El; [|apply last_None in El as ->; by exists h].
    apply last_Some in El as [xs' ->]. destruct (dseg_set_last h None xs' p0 (Some x) q Hsx Hndx) as (h1 & -> & H1 & H2).
    exists h1. split_and!; [done|done|]. intros y Hy. apply H2. set_solver. }
  cbn [mbind res_bind]. rewrite Hout1, Hx by done. cbn [deref mbind res_bind next_ prev_].
  assert (dseg h1 (Some x) ys None) as Hsy1 by (eapply dseg_ext; [|exact Hsy]; intros y Hy; apply Hout1; set_solver).
  assert (exists h2, match q with Some q0 => set_prev q0 p h1 | None => Ret h1 end = Ret h2 /\
    dseg h2 p ys None /\ (forall y, y ∉ ys -> h2 !! y = h1 !! y)) as (h2 & -> & Hsy2 & Hout2).
  { rewrite Hq. destruct ys as [|y ys]; [by exists h1|]. cbn [head]. apply NoDup_cons in Hndy as [Hyn _].
    destruct (dseg_set_first h1 (Some x) p y ys None Hsy1 Hyn) as (h2 & -> & H1 & H2).
    exists h2. split_and!; [done|done|]. intros w Hw. apply H2. set_solver. }
  cbn [mbind res_bind]. unfold set_prev, set_next. rewrite Hout2, Hout1, Hx by done. cbn [deref mbind res_bind next_ prev_].
  rewrite lookup_insert_eq. cbn [deref mbind res_bind next_ prev_]. rewrite insert_insert_eq.
  assert (dseg h2 None xs q) as Hsx2 by (eapply dseg_ext; [|exact Hsx1]; intros y Hy; apply Hout2; set_solver).
  eexists _, _. split; [done|]. split_and!.
  - split; cbn [il_front il_back il_size].
    + rewrite Hf. destruct xs as [|x0 xs]; cbn [head app]; [by rewrite decide_True|].
      rewrite decide_False; [done|]. set_solver.
    + rewrite Hb, last_app_cons. rewrite last_cons. destruct ys as [|y ys].
      * cbn [last]. rewrite decide_True by done. by rewrite app_nil_r.
      * rewrite last_app. destruct (last (y :: ys)) as [z|] eqn:El; [|by apply last_None in El].
        rewrite decide_False; [done|]. intros [= ->]. apply Hxy. by apply last_Some_elem_of.
    + rewrite Hs. rewrite !length_Z_app in *. cbn [length] in *. rewrite u64_small; lia.
    + apply dseg_app. rewrite !dseg_insert by done. fold q. split; [done|].
      replace (match last xs with Some x1 => Some x1 | None => None end) with p by (rewrite Hp; by destruct (last xs)).
      done.
    + apply NoDup_app. split_and!; [done|set_solver|done].
    + rewrite !length_app in *. cbn [length] in *. lia.
  - by rewrite lookup_insert_eq.
  - intros y Hy. rewrite lookup_insert_ne by set_solver. rewrite Hout2, Hout1 by set_solver. done.
Qed.
End lists.

Lemma PopBack_spec h l xs x :
  dll h l (xs ++ [x]) ->
  exists h' l', il_PopBack h l = Ret (Some x, h', l') /\ dll h' l' xs /\
    h' !! x = Some (mkLink None None) /\ frame h h' (xs ++ [x]).
Proof.
  intros Hd. pose proof Hd as [Hf Hb Hs Hseg Hnd Hlen]. unfold il_PopBack. rewrite Hb, last_snoc, Hf.
  destruct xs as [|f xs].
  { cbn [app head]. rewrite decide_True by done. by apply PopFront_spec. }
  cbn [app head]. pose proof Hnd as Hnd'. apply NoDup_app in Hnd' as (Hndx & Hdis & _).
  rewrite decide_False by (intros [= ->]; apply (Hdis x); [by left|by left]).
  apply dseg_app in Hseg as [Hsx [Hx _]]. rewrite last_cons in Hx.
  destruct (exists_last (l := f :: xs)) as (ys & b & Hys); [done|].
  rewrite <- last_cons, Hys, last_snoc in Hx. rewrite Hx. cbn [deref mbind res_bind prev_].
  rewrite Hys in *. destruct (dseg_set_last h None ys b (Some x) None Hsx Hndx) as (h1 & -> & Hs1 & Hout).
  cbn [mbind res_bind]. assert (x <> b) as Hxb by (intros ->; apply (Hdis b); set_solver).
  unfold set_prev. rewrite Hout, Hx by done. cbn [deref mbind res_bind next_].
  eexists _, _. split; [done|]. split_and!.
  - split; cbn [il_front il_back il_size].
    + by rewrite <- Hys.
    + by rewrite last_snoc.
    + rewrite Hs. rewrite !length_Z_app in *. cbn [length] in *. rewrite u64_small; lia.
    + apply dseg_insert; [set_solver|done].
    + done.
    + rewrite !length_app in *. cbn [length] in *. lia.
  - by rewrite lookup_insert_eq.
  - intros y Hy. change (f :: xs ++ [x]) with ((f :: xs) ++ [x]) in Hy. rewrite Hys in Hy.
    apply not_elem_of_app in Hy as [Hy1 Hy2]. rewrite lookup_insert_ne by (intros ->; apply Hy2; by left).
    apply Hout. intros ->. apply Hy1, elem_of_app. right. by left.
Qed.

(** ** Properties *)

(** The linked structure behaves as a sequence: pushing at either end,
    popping from either end and removing an object from the middle act on the
    sequence of objects, an object that leaves the list has null links again,
    and the links of objects outside the list are untouched. *)
Theorem IntrusiveList_refines_list h l xs x :
  dll h l xs -> is_Some (h !! x) -> Z.of_nat (length xs) < 2 ^ 64 - 2 ->
  (x ∉ xs ->
     (exists h' l', il_PushFront x h l = Ret (h', l') /\ dll h' l' (x :: xs) /\ frame h h' (x :: xs)) /\
     (exists h' l', il_PushBack x h l = Ret (h', l') /\ dll h' l' (xs ++ [x]) /\ frame h h' (xs ++ [x]))) /\
  (forall y ys, xs = y :: ys -> exists h' l', il_PopFront h l = Ret (Some y, h', l') /\ dll h' l' ys /\
     h' !! y = Some (mkLink None None) /\ frame h h' xs) /\
  (forall y ys, xs = ys ++ [y] -> exists h' l', il_PopBack h l = Ret (Some y, h', l') /\ dll h' l' ys /\
     h' !! y = Some (mkLink None None) /\ frame h h' xs) /\
  (forall ys zs, xs = ys ++ x :: zs -> exists h' l', il_Remove (Some x) h l = Ret (h', l') /\
     dll h' l' (ys ++ zs) /\ h' !! x = Some (mkLink None None) /\ frame h h' xs) /\
  (xs = [] -> il_PopFront h l = Ret (None, h, l) /\ il_PopBack h l = Ret (None, h, l)).
Proof.
  intros Hd Hx Hlen. split_and!.
  - intros Hn. split; [by apply PushFront_spec|by apply PushBack_spec].
  - intros y ys ->. by apply PopFront_spec.
  - intros y ys ->. by apply PopBack_spec.
  - intros ys zs ->. by apply Remove_spec.
  - intros ->. unfold il_PopFront, il_PopBack. by rewrite (dll_front _ _ _ Hd), (dll_back _ _ _ Hd).
Qed.

(** Pushing an object that is still in a list breaks that list: here
    the first of three threads is appended to a second list, as happens when
    a thread is preempted between queueing itself as blocked and yielding;
    the first list then has lost all but that thread. *)
Theorem push_of_queued_object_truncates h l xs x y ys l2 :
  dll h l (x :: y :: xs) -> il_front l2 = Some ys -> il_back l2 = Some ys -> ys ∉ x :: y :: xs ->
  is_Some (h !! ys) ->
  exists h' l', il_PushBack x h l2 = Ret (h', l') /\
    h' !! x = Some (mkLink None (Some ys)) /\ il_PopFront h' l = Fault.
Proof.
  intros [Hf Hb Hs Hseg Hnd Hlen] Hf2 Hb2 Hn [ny Hny]. unfold il_PushBack. rewrite Hf2, Hb2. cbn [deref mbind res_bind].
  assert (ys <> x) as Hyx by set_solver. destruct Hseg as [Hx _].
  unfold set_next, set_prev. rewrite Hny. cbn [deref mbind res_bind next_ prev_].
  rewrite lookup_insert_ne, Hx by done. cbn [deref mbind res_bind next_ prev_].
  rewrite lookup_insert_eq. cbn [deref mbind res_bind next_ prev_].
  eexists _, _. split; [done|]. rewrite insert_insert_eq. split; [by rewrite lookup_insert_eq|].
  unfold il_PopFront. rewrite Hf, Hb. cbn [head]. rewrite last_cons.
  destruct (last (y :: xs)) as [z|] eqn:El; [|by apply last_None in El].
  apply NoDup_cons in Hnd as [Hxn _].
  rewrite decide_False by (intros [= ->]; apply Hxn; by apply last_Some_elem_of).
  by rewrite lookup_insert_eq.
Qed.

(** *** Witnesses *)
Definition three_links : links :=
  {[ 1%positive := mkLink (Some 2%positive) None; 2%positive := mkLink (Some 3%positive) (Some 1%positive);
     3%positive := mkLink None (Some 2%positive); 4%positive := mkLink None None ]}.
Definition three_list : IntrusiveList := mkIL (Some 1%positive) (Some 3%positive) 3.

Lemma three_dll : dll three_links three_list [1; 2; 3]%positive.
Proof. split; try done. apply (bool_decide_unpack _). vm_compute. exact I. Qed.

Lemma IntrusiveList_refines_list_witness :
  exists h' l', il_Remove (Some 2%positive) three_links three_list = Ret (h', l') /\ dll h' l' [1; 3]%positive.
Proof.
  destruct (IntrusiveList_refines_list three_links three_list [1; 2; 3]%positive 2 three_dll)
    as (_ & _ & _ & H & _).
  - eexists. reflexivity.
  - reflexivity.
  - destruct (H [1%positive] [3%positive] eq_refl) as (h' & l' & H1 & H2 & _).
    exists h', l'. split; [exact H1|exact H2].
Defined.

Lemma push_of_queued_object_truncates_witness :
  exists h' l', il_PushBack 1 three_links (mkIL (Some 4%positive) (Some 4%positive) 1) = Ret (h', l') /\
    il_PopFront h' three_list = Fault.
Proof.
  destruct (push_of_queued_object_truncates three_links three_list [3%positive] 1 2 4
    (mkIL (Some 4%positive) (Some 4%positive) 1) three_dll) as (h' & l' & H1 & _ & H2).
  - reflexivity.
  - reflexivity.
  - apply (bool_decide_unpack _). vm_compute. exact I.
  - eexists. reflexivity.
  - exists h', l'. split; [exact H1|exact H2].
Defined.
