(* ===== verification/BinaryTree.v ===== *)
(** * BinaryTree (lib/glacier/container/binary_tree.h)

    The unbalanced search tree behind the kernel's memory mappings.  Nodes
    live in a store and are linked by [left], [right] and [parent] pointers
    as in the code; the loops of the code are loops over that store with the
    number of nodes as fuel.  The inductive [tree] below is only the
    specification: [repr] says which tree a store holds. *)

From Stdlib Require Import ZArith Lia Sorted.
From stdpp Require Import base tactics numbers list gmap fin_maps sorting.
From S2P Require Import Prelude.

(** ** The data structure *)

(** [struct BinaryNode], with pointers as optional locations. *)
Record BinaryNode (V : Type) : Type := mkNode {
  bn_key : Z;
  bn_value : V;
  bn_left : option positive;
  bn_right : option positive;
  bn_parent : option positive;
}.
Arguments mkNode {V} bn_key bn_value bn_left bn_right bn_parent.
Arguments bn_key {V} b.
Arguments bn_value {V} b.
Arguments bn_left {V} b.
Arguments bn_right {V} b.
Arguments bn_parent {V} b.

Record BinaryTree (V : Type) : Type := mkBT {
  bt_nodes : gmap positive (BinaryNode V);
  bt_root : option positive;
}.
Arguments mkBT {V} bt_nodes bt_root.
Arguments bt_nodes {V} b.
Arguments bt_root {V} b.

Section ops.
Context {V : Type}.
Implicit Types (h : gmap positive (BinaryNode V)) (t : BinaryTree V).

Definition bt_new : BinaryTree V := mkBT ∅ None.

Definition with_left (o : option positive) (n : BinaryNode V) : BinaryNode V :=
  mkNode (bn_key n) (bn_value n) o (bn_right n) (bn_parent n).
Definition with_right (o : option positive) (n : BinaryNode V) : BinaryNode V :=
  mkNode (bn_key n) (bn_value n) (bn_left n) o (bn_parent n).
Definition with_parent (o : option positive) (n : BinaryNode V) : BinaryNode V :=
  mkNode (bn_key n) (bn_value n) (bn_left n) (bn_right n) o.
Definition with_value (v : V) (n : BinaryNode V) : BinaryNode V :=
  mkNode (bn_key n) v (bn_left n) (bn_right n) (bn_parent n).

(** An assignment through a pointer, [p->field = ...]. *)
Definition upd h (p : positive) (f : BinaryNode V -> BinaryNode V) :
    res (gmap positive (BinaryNode V)) :=
  n ← deref (h !! p); Ret (<[p := f n]> h).

Definition fuel_of h : nat := S (size h).

(** [FindOrInsertionParent]: the [while (true)] descent. *)
Fixpoint find_loop (fuel : nat) h (key : Z) (current : positive) : res positive :=
  match fuel with
  | O => NoFuel
  | S fuel =>
      n ← deref (h !! current);
      if key =? bn_key n then Ret current
      else if key <? bn_key n then
        match bn_left n with
        | None => Ret current
        | Some l => find_loop fuel h key l
        end
      else
        match bn_right n with
        | None => Ret current
        | Some r => find_loop fuel h key r
        end
  end.

Definition FindOrInsertionParent (key : Z) t : res (option positive) :=
  match bt_root t with
  | None => Ret None
  | Some r => p ← find_loop (fuel_of (bt_nodes t)) (bt_nodes t) key r; Ret (Some p)
  end.

(** [while (current->right) current = current->right] and its mirror. *)
Fixpoint rightmost_loop (fuel : nat) h (current : positive) : res positive :=
  match fuel with
  | O => NoFuel
  | S fuel =>
      n ← deref (h !! current);
      match bn_right n with
      | None => Ret current
      | Some r => rightmost_loop fuel h r
      end
  end.
Fixpoint leftmost_loop (fuel : nat) h (current : positive) : res positive :=
  match fuel with
  | O => NoFuel
  | S fuel =>
      n ← deref (h !! current);
      match bn_left n with
      | None => Ret current
      | Some l => leftmost_loop fuel h l
      end
  end.

(** [while (parent && parent->left == current)] climbing, and its mirror. *)
Fixpoint climb_from_left (fuel : nat) h (current : positive) (parent : option positive) :
    res (option positive) :=
  match parent with
  | None => Ret None
  | Some q =>
      match fuel with
      | O => NoFuel
      | S fuel =>
          n ← deref (h !! q);
          if decide (bn_left n = Some current) then climb_from_left fuel h q (bn_parent n)
          else Ret (Some q)
      end
  end.
Fixpoint climb_from_right (fuel : nat) h (current : positive) (parent : option positive) :
    res (option positive) :=
  match parent with
  | None => Ret None
  | Some q =>
      match fuel with
      | O => NoFuel
      | S fuel =>
          n ← deref (h !! q);
          if decide (bn_right n = Some current) then climb_from_right fuel h q (bn_parent n)
          else Ret (Some q)
      end
  end.

Definition Find (key : Z) t : res (option V) :=
  cur ← FindOrInsertionParent key t;
  match cur with
  | None => Ret None
  | Some c =>
      n ← deref (bt_nodes t !! c);
      if bn_key n =? key then Ret (Some (bn_value n)) else Ret None
  end.

Definition value_of h (o : option positive) : res (option V) :=
  match o with
  | None => Ret None
  | Some q => n ← deref (h !! q); Ret (Some (bn_value n))
  end.

Definition Predecessor (key : Z) t : res (option V) :=
  let h := bt_nodes t in
  cur ← FindOrInsertionParent key t;
  match cur with
  | None => Ret None
  | Some c =>
      n ← deref (h !! c);
      if bn_key n <? key then Ret (Some (bn_value n)) else
      match bn_left n with
      | Some l => m ← rightmost_loop (fuel_of h) h l; value_of h (Some m)
      | None => p ← climb_from_left (fuel_of h) h c (bn_parent n); value_of h p
      end
  end.

Definition Successor (key : Z) t : res (option V) :=
  let h := bt_nodes t in
  cur ← FindOrInsertionParent key t;
  match cur with
  | None => Ret None
  | Some c =>
      n ← deref (h !! c);
      if key <? bn_key n then Ret (Some (bn_value n)) else
      match bn_right n with
      | Some r => m ← leftmost_loop (fuel_of h) h r; value_of h (Some m)
      | None => p ← climb_from_right (fuel_of h) h c (bn_parent n); value_of h p
      end
  end.

Definition Insert (key : Z) (value : V) t : res (BinaryTree V) :=
  let h := bt_nodes t in
  parent ← FindOrInsertionParent key t;
  let q := fresh (dom h) in
  let h1 := <[q := mkNode key value None None None]> h in
  match parent with
  | None => Ret (mkBT h1 (Some q))
  | Some p =>
      n ← deref (h !! p);
      if key <? bn_key n then
        h2 ← upd h1 p (with_left (Some q));
        h3 ← upd h2 q (with_parent (Some p));
        Ret (mkBT h3 (bt_root t))
      else if bn_key n <? key then
        h2 ← upd h1 p (with_right (Some q));
        h3 ← upd h2 q (with_parent (Some p));
        Ret (mkBT h3 (bt_root t))
      else
        h2 ← upd h p (with_value value);
        Ret (mkBT h2 (bt_root t))
  end.

(** The selection of [new_child] in [Delete], with the relinking of the
    successor's old parent. *)
Definition delete_new_child h (node : BinaryNode V) :
    res (option positive * gmap positive (BinaryNode V)) :=
  match bn_left node, bn_right node with
  | None, r => Ret (r, h)
  | Some l, None => Ret (Some l, h)
  | Some _, Some r =>
      s ← leftmost_loop (fuel_of h) h r;
      if decide (s = r) then Ret (Some s, h) else
      sn ← deref (h !! s);
      sp ← deref (bn_parent sn);
      h' ← upd h sp (with_left (bn_right sn));
      Ret (Some s, h')
  end.

Definition Delete (key : Z) t : res (BinaryTree V) :=
  cur ← FindOrInsertionParent key t;
  match cur with
  | None => Ret t
  | Some p =>
      node ← deref (bt_nodes t !! p);
      if negb (bn_key node =? key) then Ret t else
      '(new_child, h) ← delete_new_child (bt_nodes t) node;
      '(h, root) ←
        (if decide (bt_root t = Some p) then Ret (h, new_child) else
         q ← deref (bn_parent node);
         qn ← deref (h !! q);
         h' ← (if decide (bn_right qn = Some p) then upd h q (with_right new_child)
               else upd h q (with_left new_child));
         Ret (h', bt_root t));
      match new_child with
      | None => Ret (mkBT h root)
      | Some c => h' ← upd h c (with_parent (bn_parent node)); Ret (mkBT h' root)
      end
  end.
End ops.

(** ** The tree a store holds *)

Inductive tree (V : Type) : Type :=
| Leaf
| Node (p : positive) (l : tree V) (k : Z) (v : V) (r : tree V).
Arguments Leaf {V}.
Arguments Node {V} p l k v r.

Section shape.
Context {V : Type}.
Implicit Types (h : gmap positive (BinaryNode V)) (s l r : tree V).

Definition root_loc s : option positive :=
  match s with Leaf => None | Node p _ _ _ _ => Some p end.

Fixpoint locs s : list positive :=
  match s with Leaf => [] | Node p l _ _ r => locs l ++ p :: locs r end.

Fixpoint inorder s : list (Z * V) :=
  match s with Leaf => [] | Node _ l k v r => inorder l ++ (k, v) :: inorder r end.

Fixpoint repr h (par : option positive) s : Prop :=
  match s with
  | Leaf => True
  | Node p l k v r =>
      h !! p = Some (mkNode k v (root_loc l) (root_loc r) par) /\
      repr h (Some p) l /\ repr h (Some p) r
  end.

(** A tree with a hole: the path from the hole to the root. *)
Inductive ctx : Type :=
| Top
| LeftOf (p : positive) (k : Z) (v : V) (r : tree V) (c : ctx)
| RightOf (p : positive) (l : tree V) (k : Z) (v : V) (c : ctx).

Fixpoint plug (c : ctx) s : tree V :=
  match c with
  | Top => s
  | LeftOf p k v r c => plug c (Node p s k v r)
  | RightOf p l k v c => plug c (Node p l k v s)
  end.

Definition ctx_par (c : ctx) : option positive :=
  match c with Top => None | LeftOf p _ _ _ _ => Some p | RightOf p _ _ _ _ => Some p end.

Fixpoint ctx_repr h (c : ctx) (child : option positive) : Prop :=
  match c with
  | Top => True
  | LeftOf p k v r c =>
      h !! p = Some (mkNode k v child (root_loc r) (ctx_par c)) /\
      repr h (Some p) r /\ ctx_repr h c (Some p)
  | RightOf p l k v c =>
      h !! p = Some (mkNode k v (root_loc l) child (ctx_par c)) /\
      repr h (Some p) l /\ ctx_repr h c (Some p)
  end.

Fixpoint ctx_locs (c : ctx) : list positive :=
  match c with
  | Top => []
  | LeftOf p _ _ r c => p :: locs r ++ ctx_locs c
  | RightOf p l _ _ c => p :: locs l ++ ctx_locs c
  end.

(** The entries to the left and to the right of the hole. *)
Fixpoint before (c : ctx) : list (Z * V) :=
  match c with
  | Top => []
  | LeftOf _ _ _ _ c => before c
  | RightOf _ l k v c => before c ++ inorder l ++ [(k, v)]
  end.
Fixpoint after (c : ctx) : list (Z * V) :=
  match c with
  | Top => []
  | LeftOf _ k v r c => (k, v) :: inorder r ++ after c
  | RightOf _ _ _ _ c => after c
  end.

Lemma inorder_plug c s : inorder (plug c s) = before c ++ inorder s ++ after c.
Proof.
  revert s. induction c as [|p k v r c IH|p l k v c IH]; intros s; cbn.
  - by rewrite app_nil_r.
  - rewrite IH. cbn. by rewrite <- !app_assoc.
  - rewrite IH. cbn. by rewrite <- !app_assoc.
Qed.

Lemma locs_plug c s : locs (plug c s) ≡ₚ locs s ++ ctx_locs c.
Proof.
  revert s. induction c as [|p k v r c IH|p l k v c IH]; intros s; cbn.
  - by rewrite app_nil_r.
  - rewrite IH. cbn. solve_Permutation.
  - rewrite IH. cbn. solve_Permutation.
Qed.

Lemma root_plug_eq c s s' :
  root_loc s = root_loc s' -> root_loc (plug c s) = root_loc (plug c s').
Proof.
  revert s s'. induction c as [|p k v r c IH|p l k v c IH]; intros s s' Hs; cbn; [done|apply IH; done..].
Qed.

Lemma root_plug_ctx c s s' : c <> Top -> root_loc (plug c s) = root_loc (plug c s').
Proof. destruct c; [done|..]; intros _; cbn; by apply root_plug_eq. Qed.

Lemma repr_plug h c s :
  repr h None (plug c s) <-> ctx_repr h c (root_loc s) /\ repr h (ctx_par c) s.
Proof.
  revert s. induction c as [|p k v r c IH|p l k v c IH]; intros s; cbn; [tauto|..];
    rewrite IH; cbn; tauto.
Qed.

(** Assignments outside a tree or a context leave it alone. *)
Lemma repr_insert_ne h p n par s :
  p ∉ locs s -> repr (<[p := n]> h) par s <-> repr h par s.
Proof.
  revert par. induction s as [|q l IHl k v r IHr]; intros par Hp; cbn in *; [done|].
  rewrite not_elem_of_app, not_elem_of_cons in Hp. destruct Hp as (? & ? & ?).
  rewrite lookup_insert_ne by done. by rewrite IHl, IHr.
Qed.

Lemma ctx_repr_insert_ne h p n c o :
  p ∉ ctx_locs c -> ctx_repr (<[p := n]> h) c o <-> ctx_repr h c o.
Proof.
  revert o. induction c as [|q k v r c IH|q l k v c IH]; intros o Hp; cbn in *; [done|..];
    rewrite not_elem_of_cons, not_elem_of_app in Hp; destruct Hp as (? & ? & ?);
    rewrite lookup_insert_ne by done; by rewrite IH, repr_insert_ne.
Qed.

Lemma repr_dom h par s p : repr h par s -> p ∈ locs s -> p ∈ dom h.
Proof.
  revert par. induction s as [|q l IHl k v r IHr]; intros par; cbn.
  - by intros _ ?%elem_of_nil.
  - intros (Hq & Hl & Hr) [?|[->|?]%elem_of_cons]%elem_of_app; [eauto| |eauto].
    apply elem_of_dom. eauto.
Qed.

Lemma repr_fuel h par s : repr h par s -> NoDup (locs s) -> (length (locs s) < fuel_of h)%nat.
Proof.
  intros Hr Hnd. unfold fuel_of. rewrite <- size_dom.
  rewrite <- (size_list_to_set (C := gset positive)) by done. apply Nat.lt_succ_r.
  apply subseteq_size. intros p. rewrite elem_of_list_to_set. by eapply repr_dom.
Qed.

Definition key_lt (a b : Z * V) : Prop := a.1 < b.1.
Definition sorted (l : list (Z * V)) : Prop := StronglySorted key_lt l.

Lemma sorted_node l k v r :
  sorted (inorder l ++ (k, v) :: inorder r) <->
  sorted (inorder l) /\ sorted (inorder r) /\
  Forall (fun e => e.1 < k) (inorder l) /\ Forall (fun e => k < e.1) (inorder r).
Proof.
  unfold sorted. rewrite StronglySorted_app. split.
  - intros (Hlr & Hl & Hr). apply StronglySorted_inv in Hr as [Hr Hk].
    split_and!; [done|done| |].
    + apply Forall_forall. intros e He. apply (Hlr e (k, v)); [done|by left].
    + done.
  - intros (Hl & Hr & Hlk & Hkr). rewrite Forall_forall in Hlk.
    split_and!; [|done|by constructor]. rewrite Forall_forall in Hkr.
    intros e1 e2 H1 [->|H2]%elem_of_cons; unfold key_lt; cbn.
    + by apply Hlk.
    + specialize (Hlk _ H1). specialize (Hkr _ H2). lia.
Qed.
End shape.
Arguments ctx : clear implicits.

(** ** Searching *)
Section search.
Context {V : Type}.
Implicit Types (h : gmap positive (BinaryNode V)) (s l r : tree V) (c : ctx V).

(** Where the descent for [key] stops: a node with the key, or the node the
    key would be attached to. *)
Record found (key : Z) (whole : tree V) (p : positive) (l : tree V) (k : Z) (v : V) (r : tree V)
    (c : ctx V) : Prop := {
  found_plug : plug c (Node p l k v r) = whole;
  found_before : Forall (fun e => e.1 < key) (before c);
  found_after : Forall (fun e => key < e.1) (after c);
  found_stop : key = k \/ key < k /\ l = Leaf \/ k < key /\ r = Leaf;
}.

Lemma find_loop_spec h key s c p fuel :
  repr h None (plug c s) -> root_loc s = Some p -> sorted (inorder s) ->
  Forall (fun e => e.1 < key) (before c) -> Forall (fun e => key < e.1) (after c) ->
  (length (locs s) < fuel)%nat ->
  exists p' l k v r c', find_loop fuel h key p = Ret p' /\ found key (plug c s) p' l k v r c'.
Proof.
  revert c p fuel. induction s as [|q l IHl k v r IHr]; intros c p fuel Hr Hp Hs Hb Ha Hf; [done|].
  injection Hp as <-. cbn in Hs, Hf. apply sorted_node in Hs as (Hsl & Hsr & Hlk & Hkr).
  rewrite length_app in Hf. cbn in Hf. destruct fuel as [|fuel]; [lia|].
  pose proof Hr as Hr'. apply repr_plug in Hr' as (_ & Hq & _ & _). cbn [find_loop].
  rewrite Hq. cbn [deref mbind res_bind bn_key bn_left bn_right].
  destruct (Z.eqb_spec key k) as [->|Hne].
  { exists q, l, k, v, r, c. split; [done|]. split; auto. }
  destruct (Z.ltb_spec key k) as [Hlt|Hge].
  - destruct (root_loc l) as [pl|] eqn:El.
    + apply (IHl (LeftOf q k v r c) pl fuel); try done; [|lia].
      cbn. constructor; [done|]. apply Forall_app. split; [|done].
      eapply Forall_impl; [exact Hkr|]. cbn. lia.
    + assert (l = Leaf) as -> by (by destruct l).
      exists q, Leaf, k, v, r, c. split; [done|]. split; auto.
  - destruct (root_loc r) as [pr|] eqn:Er.
    + apply (IHr (RightOf q l k v c) pr fuel); try done; [|lia].
      cbn. rewrite !Forall_app. split_and!; [done| |by repeat constructor; cbn; lia].
      eapply Forall_impl; [exact Hlk|]. cbn. lia.
    + assert (r = Leaf) as -> by (by destruct r).
      exists q, l, k, v, Leaf, c. split; [done|]. split; auto. right. right. split; [lia|done].
Qed.

Lemma rightmost_loop_spec h par s p fuel :
  repr h par s -> root_loc s = Some p -> (length (locs s) < fuel)%nat ->
  exists q n, rightmost_loop fuel h p = Ret q /\ h !! q = Some n /\
    last (inorder s) = Some (bn_key n, bn_value n).
Proof.
  revert par p fuel. induction s as [|q l IHl k v r IHr]; intros par p fuel Hr Hp Hf; [done|].
  injection Hp as <-. destruct Hr as (Hq & Hl & Hr). cbn in Hf. rewrite length_app in Hf. cbn in Hf.
  destruct fuel as [|fuel]; [lia|]. cbn [rightmost_loop]. rewrite Hq.
  cbn [deref mbind res_bind bn_right]. destruct (root_loc r) as [pr|] eqn:Er.
  - destruct (IHr (Some q) pr fuel Hr eq_refl) as (q' & n & -> & Hn & Hlast); [lia|].
    exists q', n. split_and!; [done..|]. cbn. rewrite last_app_cons.
    by rewrite last_cons, Hlast.
  - assert (r = Leaf) as -> by (by destruct r).
    exists q. eexists. split_and!; [done..|]. cbn. by rewrite last_snoc.
Qed.

(** The leftmost node of a tree is the root of the subtree [leftmost]. *)
Fixpoint leftmost s : tree V :=
  match s with
  | Leaf => Leaf
  | Node p Leaf k v r => Node p Leaf k v r
  | Node p l k v r => leftmost l
  end.

Lemma leftmost_head s : head (inorder (leftmost s)) = head (inorder s).
Proof.
  induction s as [|q l IHl k v r IHr]; [done|].
  destruct l as [|pl ll kl vl rl]; [done|].
  change (leftmost (Node q (Node pl ll kl vl rl) k v r)) with (leftmost (Node pl ll kl vl rl)).
  rewrite IHl.
  cbn [inorder]. rewrite (head_app _ ((k, v) :: inorder r)).
  rewrite head_app. by destruct (head (inorder ll)).
Qed.

Lemma leftmost_loop_spec h par s p fuel :
  repr h par s -> root_loc s = Some p -> (length (locs s) < fuel)%nat ->
  exists q k v r, leftmost_loop fuel h p = Ret q /\ leftmost s = Node q Leaf k v r.
Proof.
  revert par p fuel. induction s as [|q l IHl k v r IHr]; intros par p fuel Hr Hp Hf; [done|].
  injection Hp as <-. destruct Hr as (Hq & Hl & Hr). cbn in Hf. rewrite length_app in Hf. cbn in Hf.
  destruct fuel as [|fuel]; [lia|]. cbn [leftmost_loop]. rewrite Hq.
  cbn [deref mbind res_bind bn_left].
  destruct l as [|pl ll kl vl rl].
  - cbn. eauto 10.
  - change (root_loc (Node pl ll kl vl rl)) with (Some pl). cbn iota.
    destruct (IHl (Some q) pl fuel Hl eq_refl) as (q' & k' & v' & r' & -> & Hlm); [lia|].
    exists q', k', v', r'. split; [done|exact Hlm].
Qed.

Lemma climb_from_left_spec h c p fuel :
  ctx_repr h c (Some p) -> NoDup (p :: ctx_locs c) -> (length (ctx_locs c) < fuel)%nat ->
  exists o, climb_from_left fuel h p (ctx_par c) = Ret o /\
    value_of h o = Ret (snd <$> last (before c)).
Proof.
  revert p fuel. induction c as [|q k v r c IH|q l k v c IH]; intros p fuel Hr Hnd Hf.
  - exists None. by destruct fuel.
  - destruct Hr as (Hq & Hrr & Hc). cbn in Hf, Hnd. destruct fuel as [|fuel]; [lia|].
    cbn [climb_from_left ctx_par]. rewrite Hq. cbn [deref mbind res_bind bn_left bn_parent].
    rewrite decide_True by done. cbn [before]. apply IH; [done| |rewrite length_app in Hf; lia].
    apply NoDup_cons in Hnd as [_ Hnd]. apply NoDup_cons in Hnd as [Hq' Hnd].
    apply NoDup_cons. split; [set_solver|]. by apply NoDup_app in Hnd as (_ & _ & ?).
  - destruct Hr as (Hq & Hll & Hc). cbn in Hf, Hnd. destruct fuel as [|fuel]; [lia|].
    cbn [climb_from_left ctx_par]. rewrite Hq. cbn [deref mbind res_bind bn_left bn_parent].
    rewrite decide_False.
    + eexists. split; [done|]. cbn. rewrite Hq. cbn. rewrite app_assoc, last_snoc. done.
    + intros El. apply NoDup_cons in Hnd as [Hp _]. apply Hp.
      destruct l; [done|]. injection El as <-. set_solver.
Qed.

Lemma climb_from_right_spec h c p fuel :
  ctx_repr h c (Some p) -> NoDup (p :: ctx_locs c) -> (length (ctx_locs c) < fuel)%nat ->
  exists o, climb_from_right fuel h p (ctx_par c) = Ret o /\
    value_of h o = Ret (snd <$> head (after c)).
Proof.
  revert p fuel. induction c as [|q k v r c IH|q l k v c IH]; intros p fuel Hr Hnd Hf.
  - exists None. by destruct fuel.
  - destruct Hr as (Hq & Hrr & Hc). cbn in Hf, Hnd. destruct fuel as [|fuel]; [lia|].
    cbn [climb_from_right ctx_par]. rewrite Hq. cbn [deref mbind res_bind bn_right bn_parent].
    rewrite decide_False.
    + eexists. split; [done|]. cbn. rewrite Hq. done.
    + intros El. apply NoDup_cons in Hnd as [Hp _]. apply Hp.
      destruct r; [done|]. injection El as <-. set_solver.
  - destruct Hr as (Hq & Hll & Hc). cbn in Hf, Hnd. destruct fuel as [|fuel]; [lia|].
    cbn [climb_from_right ctx_par]. rewrite Hq. cbn [deref mbind res_bind bn_right bn_parent].
    rewrite decide_True by done. cbn [after]. apply IH; [done| |rewrite length_app in Hf; lia].
    apply NoDup_cons in Hnd as [_ Hnd]. apply NoDup_cons in Hnd as [Hq' Hnd].
    apply NoDup_cons. split; [set_solver|]. by apply NoDup_app in Hnd as (_ & _ & ?).
Qed.
End search.

(** ** The contract of the tree *)
Section contract.
Context {V : Type}.
Implicit Types (h : gmap positive (BinaryNode V)) (s l r : tree V) (c : ctx V) (t : BinaryTree V).

(** The store of [t] holds the search tree [s]. *)
Record holds t s : Prop := {
  holds_root : bt_root t = root_loc s;
  holds_repr : repr (bt_nodes t) None s;
  holds_nodup : NoDup (locs s);
  holds_sorted : sorted (inorder s);
}.

(** What clients see: the entries of the tree in key order. *)
Definition entries t (l : list (Z * V)) : Prop := exists s, holds t s /\ inorder s = l.

Lemma find_setup t s key :
  holds t s ->
  (s = Leaf /\ FindOrInsertionParent key t = Ret None) \/
  (exists p l k v r c, FindOrInsertionParent key t = Ret (Some p) /\ found key s p l k v r c /\
     bt_nodes t !! p = Some (mkNode k v (root_loc l) (root_loc r) (ctx_par c)) /\
     ctx_repr (bt_nodes t) c (Some p) /\ repr (bt_nodes t) (Some p) l /\ repr (bt_nodes t) (Some p) r /\
     sorted (inorder l) /\ sorted (inorder r) /\
     Forall (fun e => e.1 < k) (inorder l) /\ Forall (fun e => k < e.1) (inorder r) /\
     NoDup ((locs l ++ p :: locs r) ++ ctx_locs c) /\
     (length (locs l ++ p :: locs r) + length (ctx_locs c) < fuel_of (bt_nodes t))%nat).
Proof.
  intros [Hroot Hr Hnd Hs]. unfold FindOrInsertionParent. rewrite Hroot.
  destruct (root_loc s) as [p|] eqn:Ep; [right|left; by destruct s].
  destruct (find_loop_spec (bt_nodes t) key s Top p (fuel_of (bt_nodes t)))
    as (p' & l & k & v & r & c & -> & Hf); try done.
  { by eapply repr_fuel. }
  cbn in Hf. exists p', l, k, v, r, c. split; [done|]. split; [done|].
  pose proof (repr_fuel _ _ _ Hr Hnd) as Hfuel.
  pose proof (found_plug _ _ _ _ _ _ _ _ Hf) as Hp. rewrite <- Hp in Hr, Hnd, Hs, Hfuel.
  apply repr_plug in Hr as (Hc & Hq & Hl & Hrr). rewrite locs_plug in Hnd, Hfuel.
  rewrite inorder_plug in Hs. apply StronglySorted_app_1_r in Hs.
  apply StronglySorted_app_1_l in Hs. apply sorted_node in Hs as (? & ? & ? & ?).
  rewrite length_app in Hfuel. by split_and!.
Qed.

Lemma sorted_nodup (l : list (Z * V)) : sorted l -> NoDup l.*1.
Proof.
  induction 1 as [|[k v] l Hs IH Hk]; cbn; [constructor|]. constructor; [|done].
  intros ([k' v'] & -> & Hin)%list_elem_of_fmap. rewrite Forall_forall in Hk.
  specialize (Hk _ Hin). unfold key_lt in Hk. cbn in Hk. lia.
Qed.

Lemma filter_lt_mid key (l1 l2 l3 : list (Z * V)) :
  Forall (fun e => e.1 < key) l1 -> Forall (fun e => key < e.1) l3 ->
  filter (fun e => e.1 < key) (l1 ++ l2 ++ l3) = l1 ++ filter (fun e => e.1 < key) l2.
Proof.
  intros H1 H3. rewrite !filter_app, (filter_Forall_id _ l1 H1).
  rewrite (filter_Forall_nil _ l3), app_nil_r; [done|].
  eapply Forall_impl; [exact H3|]. cbn. lia.
Qed.

Lemma filter_gt_mid key (l1 l2 l3 : list (Z * V)) :
  Forall (fun e => e.1 < key) l1 -> Forall (fun e => key < e.1) l3 ->
  filter (fun e => key < e.1) (l1 ++ l2 ++ l3) = filter (fun e => key < e.1) l2 ++ l3.
Proof.
  intros H1 H3. rewrite !filter_app, (filter_Forall_id _ l3 H3).
  rewrite (filter_Forall_nil _ l1); [done|].
  eapply Forall_impl; [exact H1|]. cbn. lia.
Qed.

Lemma Predecessor_holds t s key :
  holds t s ->
  Predecessor key t = Ret (snd <$> last (filter (fun e => e.1 < key) (inorder s))).
Proof.
  intros Ht. unfold Predecessor.
  destruct (find_setup t s key Ht) as [[-> ->]|(p & l & k & v & r & c & -> & Hf & Hp & Hc & Hl & Hr
    & Hsl & Hsr & Hlk & Hkr & Hnd & Hfuel)]; [done|].
  cbn [mbind res_bind]. rewrite Hp. cbn [deref mbind res_bind bn_key bn_value bn_left bn_parent].
  destruct Hf as [Hplug Hb Ha Hstop]. rewrite <- Hplug, inorder_plug, filter_lt_mid by done.
  cbn [inorder]. rewrite filter_app. destruct (Z.ltb_spec k key) as [Hlt|Hge].
  - assert (r = Leaf) as -> by (destruct Hstop as [?|[[? _]|[_ ?]]]; [lia|lia|done]).
    cbn [inorder]. rewrite filter_cons_True by done. cbn. by rewrite app_assoc, last_snoc.
  - rewrite (filter_Forall_nil _ ((k, v) :: inorder r)), app_nil_r.
    2:{ constructor; cbn; [lia|]. eapply Forall_impl; [exact Hkr|]. cbn. lia. }
    destruct (root_loc l) as [pl|] eqn:El.
    + assert (key = k) as ->.
      { destruct Hstop as [?|[[_ ->]|[? _]]]; [done|done|lia]. }
      rewrite (filter_Forall_id _ (inorder l)) by done.
      destruct (rightmost_loop_spec (bt_nodes t) (Some p) l pl (fuel_of (bt_nodes t)))
        as (q & n & -> & Hn & Hlast); [done|done|rewrite length_app in Hfuel; lia|].
      cbn. rewrite Hn. cbn. by rewrite last_app, Hlast.
    + assert (l = Leaf) as -> by (by destruct l). cbn [inorder locs app] in *.
      rewrite filter_nil, app_nil_r.
      destruct (climb_from_left_spec (bt_nodes t) c p (fuel_of (bt_nodes t))) as (o & -> & Ho).
      * done.
      * apply NoDup_cons in Hnd as [Hp' Hnd]. apply NoDup_cons. apply NoDup_app in Hnd as (_ & _ & ?).
        split; [set_solver|done].
      * lia.
      * done.
Qed.

Lemma Successor_holds t s key :
  holds t s ->
  Successor key t = Ret (snd <$> head (filter (fun e => key < e.1) (inorder s))).
Proof.
  intros Ht. unfold Successor.
  destruct (find_setup t s key Ht) as [[-> ->]|(p & l & k & v & r & c & -> & Hf & Hp & Hc & Hl & Hr
    & Hsl & Hsr & Hlk & Hkr & Hnd & Hfuel)]; [done|].
  cbn [mbind res_bind]. rewrite Hp. cbn [deref mbind res_bind bn_key bn_value bn_right bn_parent].
  destruct Hf as [Hplug Hb Ha Hstop]. rewrite <- Hplug, inorder_plug, filter_gt_mid by done.
  cbn [inorder]. rewrite filter_app. destruct (Z.ltb_spec key k) as [Hlt|Hge].
  - assert (l = Leaf) as -> by (destruct Hstop as [?|[[_ ?]|[? _]]]; [lia|done|lia]).
    cbn [inorder]. rewrite filter_nil, filter_cons_True by done. done.
  - rewrite (filter_Forall_nil _ (inorder l)), filter_cons_False; [|cbn; lia|].
    2:{ eapply Forall_impl; [exact Hlk|]. cbn. lia. }
    rewrite app_nil_l.
    destruct (root_loc r) as [pr|] eqn:Er.
    + assert (key = k) as ->.
      { destruct Hstop as [?|[[? _]|[_ ->]]]; [done|lia|done]. }
      rewrite (filter_Forall_id _ (inorder r)) by done.
      destruct (leftmost_loop_spec (bt_nodes t) (Some p) r pr (fuel_of (bt_nodes t)))
        as (q & k' & v' & r' & Hlm & Hlr); [done|done|rewrite length_app in Hfuel; cbn in Hfuel; lia|].
      rewrite Hlm. cbn [mbind res_bind]. 
      pose proof (leftmost_head r) as Hh. rewrite Hlr in Hh. cbn in Hh.
      rewrite head_app, <- Hh. cbn.
      assert (exists lo ro po, bt_nodes t !! q = Some (mkNode k' v' lo ro po)) as (lo & ro & po & ->).
      { clear -Hr Hlr. generalize (Some p) as par, Hr. clear Hr. revert Hlr.
        induction r as [|pr l IHl kr vr rr _]; [done|]. intros Hlr par (Hq & Hl & _).
        destruct l as [|]; [injection Hlr as -> -> -> ->; eauto|]. eauto. }
      done.
    + assert (r = Leaf) as -> by (by destruct r). cbn [inorder locs app] in *.
      rewrite filter_nil, app_nil_l.
      destruct (climb_from_right_spec (bt_nodes t) c p (fuel_of (bt_nodes t))) as (o & -> & Ho).
      * done.
      * rewrite NoDup_app in Hnd. destruct Hnd as (Hnd1 & Hnd2 & Hnd3).
        apply NoDup_cons. split; [|done]. apply Hnd2. set_solver.
      * lia.
      * done.
Qed.
End contract.

(** ** Lookup, insertion and deletion *)
Section update.
Context {V : Type}.
Implicit Types (h : gmap positive (BinaryNode V)) (s l r : tree V) (c : ctx V) (t : BinaryTree V).

Definition to_map (es : list (Z * V)) : gmap Z V := list_to_map es.

Lemma to_map_mid k (v : V) es1 es2 :
  NoDup (es1 ++ (k, v) :: es2).*1 ->
  to_map (es1 ++ (k, v) :: es2) = <[k := v]> (to_map (es1 ++ es2)).
Proof.
  intros Hnd. unfold to_map.
  rewrite (list_to_map_proper _ ((k, v) :: es1 ++ es2) Hnd); [done|]. solve_Permutation.
Qed.

Lemma to_map_notin k (es : list (Z * V)) : k ∉ es.*1 -> to_map es !! k = None.
Proof. apply not_elem_of_list_to_map_1. Qed.

Lemma keys_lt_notin key (es : list (Z * V)) : Forall (fun e => e.1 < key) es -> key ∉ es.*1.
Proof.
  intros H ([k v] & -> & Hin)%list_elem_of_fmap. rewrite Forall_forall in H.
  specialize (H _ Hin). cbn in H. lia.
Qed.

Lemma keys_gt_notin key (es : list (Z * V)) : Forall (fun e => key < e.1) es -> key ∉ es.*1.
Proof.
  intros H ([k v] & -> & Hin)%list_elem_of_fmap. rewrite Forall_forall in H.
  specialize (H _ Hin). cbn in H. lia.
Qed.

(** A key strictly between two runs of a sorted list. *)
Lemma sorted_mid key (v : V) es1 es2 :
  sorted es1 -> sorted es2 ->
  Forall (fun e => e.1 < key) es1 -> Forall (fun e => key < e.1) es2 ->
  sorted (es1 ++ (key, v) :: es2).
Proof.
  intros Hs1 Hs2 H1 H2. apply StronglySorted_app. rewrite Forall_forall in H1. split_and!.
  - rewrite Forall_forall in H2. intros e1 e2 He1 [->|He2]%elem_of_cons; unfold key_lt; cbn.
    + by apply H1.
    + specialize (H1 _ He1). specialize (H2 _ He2). lia.
  - done.
  - constructor; [done|]. eapply Forall_impl; [exact H2|]. done.
Qed.

Lemma sorted_app_inv (es1 es2 : list (Z * V)) : sorted (es1 ++ es2) -> sorted es1 /\ sorted es2.
Proof. intros (_ & ? & ?)%StronglySorted_app. done. Qed.

Lemma found_absent key s p l k v r c :
  found key s p l k v r c -> key <> k ->
  Forall (fun e => e.1 < k) (inorder l) -> Forall (fun e => k < e.1) (inorder r) ->
  key ∉ (inorder s).*1.
Proof.
  intros [<- Hb Ha Hstop] Hne Hlk Hkr. rewrite inorder_plug. cbn [inorder].
  rewrite !fmap_app, fmap_cons, !not_elem_of_app, not_elem_of_cons. cbn.
  apply keys_lt_notin in Hb. apply keys_gt_notin in Ha.
  destruct Hstop as [?|[[? ->]|[? ->]]]; [done| |]; cbn; split_and!; try done;
    try apply not_elem_of_nil.
  - apply keys_gt_notin. eapply Forall_impl; [exact Hkr|]. cbn. lia.
  - apply keys_lt_notin. eapply Forall_impl; [exact Hlk|]. cbn. lia.
Qed.

Lemma Find_holds t s key : holds t s -> Find key t = Ret (to_map (inorder s) !! key).
Proof.
  intros Ht. unfold Find.
  destruct (find_setup t s key Ht) as [[-> ->]|(p & l & k & v & r & c & -> & Hf & Hp & Hc & Hl & Hr
    & Hsl & Hsr & Hlk & Hkr & Hnd & Hfuel)]; [done|].
  cbn [mbind res_bind]. rewrite Hp. cbn [deref mbind res_bind bn_key bn_value].
  destruct (Z.eqb_spec k key) as [->|Hne].
  - pose proof (sorted_nodup _ (holds_sorted t s Ht)) as Hkeys.
    destruct Hf as [<- _ _ _]. rewrite inorder_plug in *. cbn [inorder] in *.
    rewrite <- (app_assoc (inorder l)), (app_assoc (before c)) in *. cbn [app] in *.
    rewrite to_map_mid by done. by rewrite lookup_insert_eq.
  - rewrite to_map_notin; [done|]. by eapply found_absent.
Qed.

Lemma fresh_notin h s par : repr h par s -> fresh (dom h) ∉ locs s.
Proof. intros Hr Hin. by apply (is_fresh (dom h)), (repr_dom h par s). Qed.

Lemma ctx_fresh_notin h c o : ctx_repr h c o -> fresh (dom h) ∉ ctx_locs c.
Proof.
  revert o. induction c as [|p k v r c IH|p l k v c IH]; intros o; cbn;
    [intros _; apply not_elem_of_nil|..]; intros (Hp & Hr & Hc);
    rewrite not_elem_of_cons, not_elem_of_app; (split; [|split; [by eapply fresh_notin|by eapply IH]]);
    intros <-; apply (is_fresh (dom h)), elem_of_dom; eauto.
Qed.

(** Writing a node and giving the hole a new subtree. *)
Lemma holds_plug h root c s :
  root = root_loc (plug c s) -> ctx_repr h c (root_loc s) -> repr h (ctx_par c) s ->
  NoDup (locs s ++ ctx_locs c) -> sorted (before c ++ inorder s ++ after c) ->
  holds (mkBT h root) (plug c s).
Proof.
  intros -> Hc Hs Hnd Hso. split; cbn; [done|by apply repr_plug|by rewrite locs_plug|by rewrite inorder_plug].
Qed.

(** What inserting [key] does to the entries. *)
Definition inserted key (value : V) (es es' : list (Z * V)) : Prop :=
  sorted es' /\ to_map es' = <[key := value]> (to_map es) /\
  es'.*1 ≡ₚ if decide (key ∈ es.*1) then es.*1 else key :: es.*1.

Lemma inserted_between key (value : V) es1 es2 :
  sorted (es1 ++ es2) -> Forall (fun e => e.1 < key) es1 -> Forall (fun e => key < e.1) es2 ->
  inserted key value (es1 ++ es2) (es1 ++ (key, value) :: es2).
Proof.
  intros [Hs1 Hs2]%sorted_app_inv H1 H2.
  assert (sorted (es1 ++ (key, value) :: es2)) as Hs by (by apply sorted_mid).
  split_and!; [done|by apply to_map_mid, sorted_nodup|].
  rewrite decide_False; [rewrite !fmap_app; cbn; solve_Permutation|].
  rewrite fmap_app, not_elem_of_app. split; [by apply keys_lt_notin|by apply keys_gt_notin].
Qed.

Lemma inserted_same k (v value : V) es1 es2 :
  sorted (es1 ++ (k, v) :: es2) ->
  inserted k value (es1 ++ (k, v) :: es2) (es1 ++ (k, value) :: es2).
Proof.
  intros Hs. assert (sorted (es1 ++ (k, value) :: es2)) as Hs'.
  { revert Hs. unfold sorted. rewrite !StronglySorted_app. intros (H1 & H2 & H3).
    apply StronglySorted_inv in H3 as [H3 H4]. split_and!; [|done|by constructor].
    intros e1 e2 He1 [->|He2]%elem_of_cons; [apply (H1 e1 (k, v)); [done|by left]|].
    apply H1; [done|by right]. }
  split_and!; [done| |].
  - rewrite !to_map_mid by (by apply sorted_nodup). by rewrite insert_insert_eq.
  - rewrite decide_True; rewrite !fmap_app; cbn; [done|set_solver].
Qed.

(** The stores the three assignments of [Insert] build. *)
Lemma attach_left h root p q k v r c key value :
  h !! p = Some (mkNode k v None (root_loc r) (ctx_par c)) ->
  ctx_repr h c (Some p) -> repr h (Some p) r -> root = root_loc (plug c (Node p Leaf k v r)) ->
  NoDup (q :: p :: locs r ++ ctx_locs c) ->
  sorted (before c ++ (key, value) :: (k, v) :: inorder r ++ after c) ->
  exists h', (h2 ← upd (<[q := mkNode key value None None None]> h) p (with_left (Some q));
              upd h2 q (with_parent (Some p))) = Ret h' /\
    holds (mkBT h' root) (plug c (Node p (Node q Leaf key value Leaf) k v r)).
Proof.
  intros Hp Hc Hr -> [Hq Hnd]%NoDup_cons Hs. pose proof Hnd as [Hpn _]%NoDup_cons.
  assert (q <> p) by set_solver. unfold upd.
  rewrite lookup_insert_ne, Hp by done. cbn [deref mbind res_bind].
  rewrite lookup_insert_ne, lookup_insert_eq by done. cbn [deref mbind res_bind].
  eexists. split; [done|]. apply holds_plug; cbn.
  - by apply root_plug_eq.
  - rewrite !ctx_repr_insert_ne by set_solver. done.
  - rewrite lookup_insert_eq, !(repr_insert_ne _ _ _ _ r) by set_solver.
    rewrite lookup_insert_ne, lookup_insert_eq by done. done.
  - by apply NoDup_cons.
  - done.
Qed.

Lemma attach_right h root p q l k v c key value :
  h !! p = Some (mkNode k v (root_loc l) None (ctx_par c)) ->
  ctx_repr h c (Some p) -> repr h (Some p) l -> root = root_loc (plug c (Node p l k v Leaf)) ->
  NoDup (q :: p :: locs l ++ ctx_locs c) ->
  sorted (before c ++ (inorder l ++ [(k, v); (key, value)]) ++ after c) ->
  exists h', (h2 ← upd (<[q := mkNode key value None None None]> h) p (with_right (Some q));
              upd h2 q (with_parent (Some p))) = Ret h' /\
    holds (mkBT h' root) (plug c (Node p l k v (Node q Leaf key value Leaf))).
Proof.
  intros Hp Hc Hl -> [Hq Hnd]%NoDup_cons Hs. pose proof Hnd as [Hpn _]%NoDup_cons.
  assert (q <> p) by set_solver. unfold upd.
  rewrite lookup_insert_ne, Hp by done. cbn [deref mbind res_bind].
  rewrite lookup_insert_ne, lookup_insert_eq by done. cbn [deref mbind res_bind].
  eexists. split; [done|]. apply holds_plug; cbn.
  - by apply root_plug_eq.
  - rewrite !ctx_repr_insert_ne by set_solver. done.
  - rewrite lookup_insert_eq, !(repr_insert_ne _ _ _ _ l) by set_solver.
    rewrite lookup_insert_ne, lookup_insert_eq by done. done.
  - rewrite <- app_assoc. cbn. rewrite <- !Permutation_middle.
    rewrite Permutation_swap. by apply NoDup_cons.
  - done.
Qed.

Lemma Insert_holds t s key value :
  holds t s -> exists t' s', Insert key value t = Ret t' /\ holds t' s' /\
    inserted key value (inorder s) (inorder s').
Proof.
  intros Ht. unfold Insert. set (q := fresh (dom (bt_nodes t))).
  destruct (find_setup t s key Ht) as [[-> ->]|(p & l & k & v & r & c & -> & Hf & Hp & Hc & Hl & Hr
    & Hsl & Hsr & Hlk & Hkr & Hnd & Hfuel)].
  { eexists _, (Node q Leaf key value Leaf). split; [done|]. split.
    - split; cbn; [done|by rewrite lookup_insert_eq|by apply NoDup_singleton|repeat constructor].
    - apply (inserted_between key value [] []); constructor. }
  assert (q ∉ (locs l ++ p :: locs r) ++ ctx_locs c) as Hq.
  { rewrite !not_elem_of_app, not_elem_of_cons. split_and!;
      [by eapply fresh_notin| |by eapply fresh_notin|by eapply ctx_fresh_notin].
    intros <-. apply (is_fresh (dom (bt_nodes t))), elem_of_dom. eauto. }
  cbn [mbind res_bind]. rewrite Hp. cbn [deref mbind res_bind bn_key].
  pose proof (holds_sorted t s Ht) as Hso. pose proof (holds_root t s Ht) as Hroot.
  destruct Hf as [Hplug Hb Ha Hstop]. rewrite <- Hplug in *. rewrite inorder_plug in *. cbn [inorder] in *.
  destruct (Z.ltb_spec key k) as [Hlt|Hge]; [|destruct (Z.ltb_spec k key) as [Hgt|Heq]].
  - assert (l = Leaf) as -> by (destruct Hstop as [?|[[_ ?]|[? _]]]; [lia|done|lia]). cbn in *.
    destruct (inserted_between key value (before c) ((k, v) :: inorder r ++ after c)) as (H1 & H2 & H3);
      [done|done| |].
    { constructor; [done|]. apply Forall_app. split; [|done].
      eapply Forall_impl; [exact Hkr|]. cbn. lia. }
    destruct (attach_left (bt_nodes t) (bt_root t) p q k v r c key value) as (h' & Hh & Hh'); try done.
    { by apply NoDup_cons. }
    rewrite <- bind_assoc, Hh. cbn. eexists _, _. split; [done|]. split; [done|].
    rewrite inorder_plug. done.
  - assert (r = Leaf) as -> by (destruct Hstop as [?|[[? _]|[_ ?]]]; [lia|lia|done]). cbn in *.
    replace (before c ++ (inorder l ++ [(k, v)]) ++ after c)
      with ((before c ++ inorder l ++ [(k, v)]) ++ after c) in * by (by rewrite <- !app_assoc).
    destruct (inserted_between key value (before c ++ inorder l ++ [(k, v)]) (after c)) as (H1 & H2 & H3);
      [done| |done|].
    { rewrite !Forall_app. split_and!; [done| |by repeat constructor].
      eapply Forall_impl; [exact Hlk|]. cbn. lia. }
    assert (before c ++ (inorder l ++ [(k, v); (key, value)]) ++ after c =
            (before c ++ inorder l ++ [(k, v)]) ++ (key, value) :: after c) as Heq
      by (by rewrite <- !app_assoc).
    destruct (attach_right (bt_nodes t) (bt_root t) p q l k v c key value) as (h' & Hh & Hh'); try done.
    { apply NoDup_cons. rewrite <- app_assoc in *. cbn [app] in *.
      rewrite <- Permutation_middle in Hnd. split; [set_solver|done]. }
    { by rewrite Heq. }
    rewrite <- bind_assoc, Hh. cbn. eexists _, _. split; [done|]. split; [done|].
    rewrite inorder_plug. cbn. by rewrite Heq.
  - assert (key = k) as -> by lia. unfold upd. rewrite Hp. cbn [deref mbind res_bind].
    assert (forall w, before c ++ (inorder l ++ (k, w) :: inorder r) ++ after c =
              (before c ++ inorder l) ++ (k, w) :: inorder r ++ after c) as Hin
      by (intros; by rewrite <- !app_assoc).
    rewrite Hin in *. pose proof (inserted_same k v value _ _ Hso) as Hins.
    eexists _, (plug c (Node p l k value r)). split; [done|]. rewrite inorder_plug. cbn [inorder].
    rewrite Hin. split; [|done].
    assert (p ∉ locs l ++ locs r ++ ctx_locs c).
    { rewrite <- app_assoc in Hnd. cbn in Hnd. rewrite <- Permutation_middle in Hnd.
      by apply NoDup_cons in Hnd as [? _]. }
    apply holds_plug; cbn.
    + rewrite Hroot. by apply root_plug_eq.
    + rewrite ctx_repr_insert_ne by set_solver. done.
    + rewrite lookup_insert_eq, !repr_insert_ne by set_solver. done.
    + done.
    + rewrite Hin. apply Hins.
Qed.
End update.

(** ** Deletion *)
Section deletion.
Context {V : Type}.
Implicit Types (h : gmap positive (BinaryNode V)) (s l r : tree V) (c : ctx V) (t : BinaryTree V).

(** The subtree the code puts in the place of a deleted node: its only child,
    or the node's successor with what hangs to the right of it. *)
Definition delete_sub l r : tree V :=
  match l, r with
  | Leaf, _ => r
  | _, Leaf => l
  | _, _ => leftmost r
  end.

Lemma leftmost_sublist s : locs (leftmost s) `sublist_of` locs s /\ inorder (leftmost s) `sublist_of` inorder s.
Proof.
  induction s as [|p l IHl k v r IHr]; [done|]. destruct l as [|pl ll kl vl rl]; [done|].
  change (leftmost (Node p (Node pl ll kl vl rl) k v r)) with (leftmost (Node pl ll kl vl rl)).
  destruct IHl as [H1 H2]. split.
  - cbn [locs]. rewrite H1. by apply sublist_inserts_r.
  - cbn [inorder]. rewrite H2. by apply sublist_inserts_r.
Qed.

Lemma delete_sub_sublist l r p k v :
  locs (delete_sub l r) `sublist_of` locs (Node p l k v r) /\
  inorder (delete_sub l r) `sublist_of` inorder l ++ inorder r.
Proof.
  destruct (leftmost_sublist r) as [H1 H2]. unfold delete_sub. cbn [locs].
  destruct l as [|pl ll kl vl rl]; [|destruct r as [|pr lr kr vr rr]].
  - cbn. split; [by apply sublist_cons|done].
  - split; [by apply sublist_inserts_r|by rewrite app_nil_r].
  - split; [etrans; [exact H1|by apply sublist_inserts_l, sublist_cons]|].
    etrans; [exact H2|by apply sublist_inserts_l].
Qed.

Lemma sublist_sorted (es es' : list (Z * V)) : es `sublist_of` es' -> sorted es' -> sorted es.
Proof.
  induction 1 as [|e es es' Hsub IH|e es es' Hsub IH]; intros Hs; [constructor|..];
    apply StronglySorted_inv in Hs as [Hs Hall]; [|by apply IH].
  constructor; [by apply IH|]. rewrite Forall_forall in *. intros x Hx. apply Hall. by eapply elem_of_sublist.
Qed.

(** Where the leftmost node hangs: at the top, or below a node of the tree
    that is not part of its subtree. *)
Lemma leftmost_repr h par s :
  repr h par s -> NoDup (locs s) ->
  leftmost s = s /\ repr h par (leftmost s) \/
  exists q sp, repr h (Some sp) (leftmost s) /\ root_loc (leftmost s) = Some q /\
    sp ∈ locs s /\ sp ∉ locs (leftmost s) /\ root_loc s <> Some q.
Proof.
  revert par. induction s as [|p l IHl k v r IHr]; intros par Hr Hnd; [by left|].
  destruct l as [|pl ll kl vl rl]; [by left|]. right.
  change (leftmost (Node p (Node pl ll kl vl rl) k v r)) with (leftmost (Node pl ll kl vl rl)).
  destruct Hr as (Hp & Hl & _). cbn [locs] in Hnd. apply NoDup_app in Hnd as (Hnl & Hd & Hnr).
  destruct (leftmost_sublist (Node pl ll kl vl rl)) as [Hsub _].
  assert (p ∉ locs (Node pl ll kl vl rl)) as Hpn.
  { intros Hin. apply (Hd p Hin). by left. }
  destruct (IHl (Some p) Hl Hnl) as [[Heq H1]|(q & sp & H1 & H2 & H3 & H4 & H5)].
  - rewrite Heq in *. exists pl, p. split_and!; [done|done| |done|].
    + cbn [locs]. set_solver.
    + intros [= ->]. apply Hpn. cbn. set_solver.
  - exists q, sp. split_and!; [done|done| |done|].
    + cbn [locs] in *. set_solver.
    + intros [= ->]. apply Hpn. eapply sublist_subseteq; [exact Hsub|].
      destruct (leftmost (Node pl ll kl vl rl)); [done|]. injection H2 as ->. cbn. set_solver.
Qed.

Lemma repr_ext h h' par s :
  (forall q, q ∈ locs s -> h' !! q = h !! q) -> repr h par s -> repr h' par s.
Proof.
  revert par. induction s as [|p l IHl k v r IHr]; intros par Hq; [done|].
  cbn in *. intros (? & ? & ?). rewrite Hq by set_solver. split_and!; [done| |].
  - apply IHl; [|done]. intros. apply Hq. set_solver.
  - apply IHr; [|done]. intros. apply Hq. set_solver.
Qed.

Lemma ctx_repr_ext h h' c o :
  (forall q, q ∈ ctx_locs c -> h' !! q = h !! q) -> ctx_repr h c o -> ctx_repr h' c o.
Proof.
  assert (Hx := repr_ext h h').
  revert o. induction c as [|p k v r c IH|p l k v c IH]; intros o Hq; [done|..]; cbn in *;
    intros (? & ? & ?); rewrite Hq by set_solver; (split_and!; [done| |]).
  - apply Hx; [|done]. intros. apply Hq. set_solver.
  - apply IH; [|done]. intros. apply Hq. set_solver.
  - apply Hx; [|done]. intros. apply Hq. set_solver.
  - apply IH; [|done]. intros. apply Hq. set_solver.
Qed.

Lemma new_child_spec h p l k v r pp :
  repr h (Some p) l -> repr h (Some p) r -> NoDup (locs l ++ p :: locs r) ->
  (length (locs r) < fuel_of h)%nat ->
  exists h' par, delete_new_child h (mkNode k v (root_loc l) (root_loc r) pp)
      = Ret (root_loc (delete_sub l r), h') /\
    repr h' par (delete_sub l r) /\ (forall q, q ∉ locs r -> h' !! q = h !! q).
Proof.
  intros Hl Hr Hnd Hf. unfold delete_new_child, delete_sub. cbn [bn_left bn_right].
  destruct l as [|pl ll kl vl rl]; [by exists h, (Some p)|].
  destruct r as [|pr lr kr vr rr]; [by exists h, (Some p)|].
  cbn [root_loc]. set (r := Node pr lr kr vr rr) in *.
  assert (NoDup (locs r)) as Hndr.
  { apply NoDup_app in Hnd as (_ & _ & Hnd). by apply NoDup_cons in Hnd as [_ ?]. }
  destruct (leftmost_loop_spec h (Some p) r pr (fuel_of h) Hr eq_refl Hf) as (q & k' & v' & r' & -> & Hlm).
  cbn [mbind res_bind].
  destruct (leftmost_repr h (Some p) r Hr Hndr) as [[Heq H1]|(q' & sp & H1 & H2 & H3 & H4 & H5)].
  - assert (q = pr) as -> by (rewrite Heq in Hlm; by injection Hlm).
    rewrite decide_True by done. exists h, (Some p). rewrite Heq. done.
  - rewrite Hlm in H2. injection H2 as ->. rewrite decide_False by (intros ->; done).
    rewrite Hlm in *. destruct H1 as (Hq & _ & Hr'). rewrite Hq. cbn [deref mbind res_bind bn_parent bn_right].
    assert (exists n, h !! sp = Some n) as [n Hn] by (apply elem_of_dom; by apply (repr_dom h (Some p) r)).
    unfold upd. rewrite Hn. cbn [deref mbind res_bind]. eexists _, (Some sp).
    split; [done|]. split.
    + rewrite repr_insert_ne by done. done.
    + intros x Hx. rewrite lookup_insert_ne; [done|]. by intros ->.
Qed.

(** The parent's link to a replaced child. *)
Lemma relink_spec h c p nc root :
  ctx_repr h c (Some p) -> NoDup (p :: ctx_locs c) -> root = root_loc (plug c (Node p Leaf 0 nc Leaf)) ->
  forall new_child, exists h' root',
    (if decide (root = Some p) then Ret (h, new_child) else
     q ← deref (ctx_par c);
     qn ← deref (h !! q);
     h' ← (if decide (bn_right qn = Some p) then upd h q (with_right new_child)
           else upd h q (with_left new_child));
     Ret (h', root)) = Ret (h', root') /\
    ctx_repr h' c new_child /\ (forall q, q ∉ ctx_locs c -> h' !! q = h !! q) /\
    (forall s, root_loc s = new_child -> root' = root_loc (plug c s)).
Proof.
  intros Hc Hnd -> new_child.
  assert (forall c0 s0, p ∉ ctx_locs c0 -> root_loc s0 <> Some p -> root_loc (plug c0 s0) <> Some p) as Hroot.
  { clear. induction c0 as [|q k v r c IH|q l k v c IH]; intros s0 Hp Hs; [done|..]; cbn in *;
      (apply IH; [set_solver|]); cbn; set_solver. }
  destruct c as [|q k v r c|q l k v c].
  - cbn [plug]. rewrite decide_True by done. exists h, new_child. split_and!; [done|done|done|].
    intros s <-. done.
  - rewrite decide_False.
    2:{ cbn. apply NoDup_cons in Hnd as [Hp _]. cbn in Hp. apply Hroot; cbn; set_solver. }
    cbn in Hc. destruct Hc as (Hq & Hr & Hc). cbn [ctx_par deref mbind res_bind]. rewrite Hq.
    cbn [deref mbind res_bind bn_right]. cbn in Hnd. apply NoDup_cons in Hnd as [Hp Hnd].
    apply NoDup_cons in Hnd as [Hqn Hnd].
    rewrite decide_False.
    2:{ destruct r; [done|]. cbn in *. intros [= ->]. set_solver. }
    unfold upd. rewrite Hq. cbn [deref mbind res_bind]. eexists _, _. split; [done|]. cbn.
    rewrite lookup_insert_eq, repr_insert_ne, ctx_repr_insert_ne by set_solver. split_and!; try done.
    + intros x Hx. rewrite lookup_insert_ne; [done|]. set_solver.
    + intros s Hs. by apply root_plug_eq.
  - rewrite decide_False.
    2:{ cbn. apply NoDup_cons in Hnd as [Hp _]. cbn in Hp. apply Hroot; cbn; set_solver. }
    cbn in Hc. destruct Hc as (Hq & Hl & Hc). cbn [ctx_par deref mbind res_bind]. rewrite Hq.
    cbn [deref mbind res_bind bn_right]. cbn in Hnd. apply NoDup_cons in Hnd as [Hp Hnd].
    apply NoDup_cons in Hnd as [Hqn Hnd]. rewrite decide_True by done.
    unfold upd. rewrite Hq. cbn [deref mbind res_bind]. eexists _, _. split; [done|]. cbn.
    rewrite lookup_insert_eq, repr_insert_ne, ctx_repr_insert_ne by set_solver. split_and!; try done.
    + intros x Hx. rewrite lookup_insert_ne; [done|]. set_solver.
    + intros s Hs. by apply root_plug_eq.
Qed.

Lemma repr_reparent h par par' p l k v r :
  repr h par (Node p l k v r) -> NoDup (locs l ++ p :: locs r) ->
  exists n, h !! p = Some n /\ repr (<[p := with_parent par' n]> h) par' (Node p l k v r).
Proof.
  intros (Hp & Hl & Hr) Hnd. eexists. split; [exact Hp|]. cbn.
  rewrite <- Permutation_middle in Hnd. apply NoDup_cons in Hnd as [Hp' _].
  rewrite lookup_insert_eq, !repr_insert_ne by set_solver. done.
Qed.

(** Deletion of [key] hits a node with two children. *)
Definition two_children (key : Z) t : Prop :=
  match FindOrInsertionParent key t with
  | Ret (Some p) =>
      match bt_nodes t !! p with
      | Some n => bn_key n = key /\ bn_left n <> None /\ bn_right n <> None
      | None => False
      end
  | _ => False
  end.

Lemma Delete_holds t s key :
  holds t s ->
  (key ∉ (inorder s).*1 /\ Delete key t = Ret t) \/
  (exists p l v r c t', s = plug c (Node p l key v r) /\ Delete key t = Ret t' /\
     holds t' (plug c (delete_sub l r)) /\ (two_children key t <-> l <> Leaf /\ r <> Leaf)).
Proof.
  intros Ht. unfold Delete, two_children.
  destruct (find_setup t s key Ht) as [[-> ->]|(p & l & k & v & r & c & -> & Hf & Hp & Hc & Hl & Hr
    & Hsl & Hsr & Hlk & Hkr & Hnd & Hfuel)]; [left; split; [apply not_elem_of_nil|done]|].
  cbn [mbind res_bind]. rewrite Hp. cbn [deref mbind res_bind bn_key bn_parent bn_left bn_right].
  destruct (Z.eqb_spec k key) as [->|Hne]; cbn [negb].
  2:{ left. split; [by eapply found_absent|done]. }
  right. exists p, l, v, r, c. pose proof (found_plug _ _ _ _ _ _ _ _ Hf) as <-.
  pose proof (holds_root _ _ Ht) as Hroot. pose proof (holds_sorted _ _ Ht) as Hso.
  pose proof Hnd as Hnd'. apply NoDup_app in Hnd' as (Hnd1 & Hdisj & Hndc).
  rewrite length_app in Hfuel. cbn in Hfuel.
  destruct (new_child_spec (bt_nodes t) p l key v r (ctx_par c) Hl Hr Hnd1) as (h1 & par & -> & Hs1 & Hout);
    [lia|].
  cbn [mbind res_bind].
  destruct (delete_sub_sublist l r p key v) as [Hsub1 Hsub2].
  destruct (relink_spec h1 c p v (bt_root t)) with (new_child := root_loc (delete_sub l r))
    as (h2 & root' & Hrel & Hc2 & Hout2 & Hroot').
  { eapply ctx_repr_ext; [|exact Hc]. intros q Hq. apply Hout. intros Hqr. apply (Hdisj q); set_solver. }
  { apply NoDup_cons. split; [apply Hdisj; set_solver|done]. }
  { rewrite Hroot. apply root_plug_eq. done. }
  rewrite Hrel. cbn [mbind res_bind].
  assert (NoDup (locs (delete_sub l r) ++ ctx_locs c)) as Hndn.
  { eapply sublist_NoDup; [exact Hnd|]. by apply sublist_app. }
  assert (sorted (before c ++ inorder (delete_sub l r) ++ after c)) as Hson.
  { eapply sublist_sorted; [|exact Hso]. rewrite inorder_plug. cbn [inorder].
    apply sublist_app; [done|]. apply sublist_app; [|done].
    etrans; [exact Hsub2|]. apply sublist_app; [done|]. by apply sublist_cons. }
  assert (repr h2 par (delete_sub l r)) as Hs2.
  { eapply repr_ext; [|exact Hs1]. intros q Hq. apply Hout2, Hdisj.
    eapply elem_of_sublist; [exact Hq|done]. }
  assert (key = key /\ root_loc l <> None /\ root_loc r <> None <-> l <> Leaf /\ r <> Leaf) as Htwo
    by (destruct l, r; cbn; naive_solver).
  destruct (delete_sub l r) as [|q l' k' v' r'] eqn:Eds; cbn [root_loc].
  - eexists. split_and!; [done|done| |done]. by apply holds_plug; [apply Hroot'|..].
  - destruct (repr_reparent h2 par (ctx_par c) q l' k' v' r' Hs2) as (n & Hn & Hr3).
    { by apply NoDup_app in Hndn as (? & _). }
    unfold upd. rewrite Hn. cbn [deref mbind res_bind]. eexists. split_and!; [done|done| |done].
    apply holds_plug; [by apply Hroot'| |done|done|done].
    rewrite ctx_repr_insert_ne; [done|]. apply NoDup_app in Hndn as (_ & Hd & _). apply Hd. cbn. set_solver.
Qed.
End deletion.

(** ** What the tree promises *)
Section promises.
Context {V : Type}.
Implicit Types (es : list (Z * V)) (t : BinaryTree V).

Lemma bt_new_entries : entries (V:=V) bt_new [].
Proof. exists Leaf. split; [|done]. split; cbn; [done|done|constructor|constructor]. Qed.

Lemma entries_sorted t es : entries t es -> sorted es.
Proof. intros (s & Hs & <-). apply Hs. Qed.

Lemma Find_entries t es key : entries t es -> Find key t = Ret (to_map es !! key).
Proof. intros (s & Hs & <-). by apply Find_holds. Qed.

Lemma Predecessor_entries t es key :
  entries t es -> Predecessor key t = Ret (snd <$> last (filter (fun e => e.1 < key) es)).
Proof. intros (s & Hs & <-). by apply Predecessor_holds. Qed.

Lemma Successor_entries t es key :
  entries t es -> Successor key t = Ret (snd <$> head (filter (fun e => key < e.1) es)).
Proof. intros (s & Hs & <-). by apply Successor_holds. Qed.

Lemma Insert_entries t es key value :
  entries t es -> exists t' es', Insert key value t = Ret t' /\ entries t' es' /\ inserted key value es es'.
Proof.
  intros (s & Hs & <-). destruct (Insert_holds t s key value Hs) as (t' & s' & H1 & H2 & H3).
  exists t', (inorder s'). split_and!; [done|by exists s'|done].
Qed.

Lemma filter_ne_mid key (v : V) (es1 es2 : list (Z * V)) :
  sorted (es1 ++ (key, v) :: es2) -> filter (fun e => e.1 <> key) (es1 ++ (key, v) :: es2) = es1 ++ es2.
Proof.
  intros Hs%sorted_nodup. rewrite fmap_app, fmap_cons in Hs. apply NoDup_app in Hs as (_ & H1 & H2).
  apply NoDup_cons in H2 as [H2 _]. rewrite filter_app, filter_cons_False by (cbn; lia).
  rewrite !filter_Forall_id; [done|..]; apply Forall_forall; intros e He Hk; subst.
  - apply H2. cbn. by apply list_elem_of_fmap_2.
  - apply (H1 e.1); [by apply list_elem_of_fmap_2|by left].
Qed.

Lemma to_map_filter_ne key es :
  sorted es -> to_map (filter (fun e => e.1 <> key) es) = delete key (to_map es).
Proof.
  intros Hs. destruct (decide (key ∈ es.*1)) as [Hin|Hout].
  - apply list_elem_of_fmap in Hin as ([k v] & Hk & (es1 & es2 & ->)%list_elem_of_split).
    cbn in Hk. subst k.
    rewrite filter_ne_mid, to_map_mid by (try apply sorted_nodup; done).
    pose proof (sorted_nodup _ Hs) as Hnd. rewrite delete_insert_id; [done|].
    apply to_map_notin. rewrite fmap_app, fmap_cons, <- Permutation_middle in Hnd.
    apply NoDup_cons in Hnd as [Hnd _]. by rewrite fmap_app.
  - rewrite filter_Forall_id, delete_id; [done|by apply to_map_notin|].
    apply Forall_forall. intros e He <-. apply Hout. by apply list_elem_of_fmap_2.
Qed.

(** A run of entries left out of a sorted list loses its keys. *)
Lemma lost_left key (v : V) es1 es2 es3 es4 es5 :
  sorted ((es1 ++ es2) ++ (key, v) :: es3 ++ es4) -> es2 <> [] -> es5 `sublist_of` es3 ->
  exists k, k < key /\ k ∈ ((es1 ++ es2) ++ (key, v) :: es3 ++ es4).*1 /\ k ∉ (es1 ++ es5 ++ es4).*1.
Proof.
  intros Hso Hne Hsub. destruct es2 as [|[k w] es2]; [done|]. exists k.
  pose proof (sorted_nodup _ Hso) as Hnd. apply StronglySorted_app in Hso as (Hlt & _ & _).
  split; [apply (Hlt (k, w) (key, v)); set_solver|].
  rewrite !fmap_app in *. cbn in *. split; [set_solver|].
  apply NoDup_app in Hnd as (Hnd1 & Hdis & _). apply NoDup_app in Hnd1 as (_ & Hdis1 & _).
  rewrite !not_elem_of_app. rewrite fmap_app in Hdis.
  specialize (Hdis k). rewrite elem_of_app, elem_of_cons, not_elem_of_cons, not_elem_of_app in Hdis.
  destruct Hdis as (_ & H3 & H4); [right; by left|]. split_and!; [|contradict H3|done].
  - intros Hk. apply (Hdis1 k Hk). by left.
  - eapply elem_of_sublist; [exact H3|]. by apply fmap_sublist.
Qed.

(** Deletion never keeps the key and never invents or reorders entries; with
    at most one child it removes exactly the key, and with two it drops
    entries of smaller keys. *)
Lemma Delete_entries t es key :
  entries t es -> exists t' es', Delete key t = Ret t' /\ entries t' es' /\
    es' `sublist_of` filter (fun e => e.1 <> key) es /\
    (~ two_children key t -> es' = filter (fun e => e.1 <> key) es) /\
    (two_children key t -> exists k, k < key /\ k ∈ es.*1 /\ k ∉ es'.*1).
Proof.
  intros (s & Hs & <-).
  destruct (Delete_holds t s key Hs) as [[Hn Hd]|(p & l & v & r & c & t' & -> & Hd & Ht' & Htwo)].
  - exists t, (inorder s). rewrite filter_Forall_id.
    2:{ apply Forall_forall. intros e He <-. apply Hn. by apply list_elem_of_fmap_2. }
    split_and!; [done|by exists s|done|done|].
    intros Htwo. exfalso. unfold two_children in Htwo.
    destruct (find_setup t s key Hs) as [[_ E]|(p & l & k & v & r & c & E & Hf & Hp & _)];
      rewrite E in Htwo; [done|]. rewrite Hp in Htwo. cbn in Htwo. destruct Htwo as [-> _].
    apply Hn. destruct Hf as [<- _ _ _]. rewrite inorder_plug, !fmap_app. cbn [inorder].
    rewrite fmap_app, fmap_cons. set_solver.
  - exists t', (inorder (plug c (delete_sub l r))).
    pose proof (holds_sorted _ _ Hs) as Hso. pose proof (holds_sorted _ _ Ht') as Hso'.
    rewrite !inorder_plug in *. cbn [inorder] in *.
    assert (before c ++ (inorder l ++ (key, v) :: inorder r) ++ after c =
            (before c ++ inorder l) ++ (key, v) :: inorder r ++ after c) as Heq by (by rewrite <- !app_assoc).
    rewrite Heq in *. rewrite filter_ne_mid by done.
    rewrite <- (app_assoc (before c)), (app_assoc (inorder l)).
    destruct (delete_sub_sublist l r p key v) as [_ Hsub]. split_and!.
    + done.
    + exists (plug c (delete_sub l r)). split; [done|]. by rewrite inorder_plug.
    + apply sublist_app; [done|]. by apply sublist_app.
    + intros Hnt. f_equal. f_equal. destruct l, r; try done; [cbn; by rewrite app_nil_r|].
      exfalso. apply Hnt, Htwo. done.
    + intros (Hl & Hr)%Htwo. destruct l as [|pl ll kl vl rl]; [done|]. destruct r as [|pr lr kr vr rr]; [done|].
      cbn [delete_sub] in *. eapply lost_left; [exact Hso| |apply leftmost_sublist].
      cbn. by destruct (inorder ll).
Qed.
End promises.

(** ** Properties *)
Section properties.
Context {V : Type}.
Implicit Types (es : list (Z * V)) (t : BinaryTree V).

(** C35.  The pointer tree implements a sorted map: every search terminates
    within the number of nodes, [Find] is the map's lookup, [Predecessor] and
    [Successor] return the entries next to a key, whether or not the key is
    present, and [Insert] binds the key and keeps the parent links and the
    order. *)
Theorem BinaryTree_refines_sorted_map t es key (value : V) :
  entries t es ->
  Find key t = Ret (to_map es !! key) /\
  Predecessor key t = Ret (snd <$> last (filter (fun e => e.1 < key) es)) /\
  Successor key t = Ret (snd <$> head (filter (fun e => key < e.1) es)) /\
  exists t' es', Insert key value t = Ret t' /\ entries t' es' /\ sorted es' /\
    to_map es' = <[key := value]> (to_map es).
Proof.
  intros Ht. split_and!.
  - by apply Find_entries.
  - by apply Predecessor_entries.
  - by apply Successor_entries.
  - destruct (Insert_entries t es key value Ht) as (t' & es' & H1 & H2 & H3 & H4 & _). eauto 6.
Qed.

(** [Delete] terminates, leaves a well-linked search tree, never keeps
    the key and never invents an entry; when the node has at most one child
    exactly the key's binding is removed. *)
Theorem BinaryTree_Delete_removes t es key :
  entries t es ->
  exists t' es', Delete key t = Ret t' /\ entries t' es' /\ key ∉ es'.*1 /\ es' `sublist_of` es /\
    (~ two_children key t -> to_map es' = delete key (to_map es)).
Proof.
  intros Ht. destruct (Delete_entries t es key Ht) as (t' & es' & H1 & H2 & H3 & H4 & _).
  exists t', es'. split_and!; [done|done| | |].
  - intros ([k v] & -> & Hin)%list_elem_of_fmap.
    apply (elem_of_sublist _ _ _ Hin) in H3. by apply list_elem_of_filter in H3 as [? _].
  - etrans; [exact H3|]. apply sublist_filter.
  - intros Hn. rewrite (H4 Hn). apply to_map_filter_ne. by eapply entries_sorted.
Qed.

(** When the deleted node has two children, [Delete] puts the successor
    in its place without the node's left subtree (nor the rest of the right
    one): bindings of smaller keys are lost. *)
Theorem BinaryTree_Delete_loses_entries t es key :
  entries t es -> two_children key t ->
  exists t' k, Delete key t = Ret t' /\ k <> key /\ to_map es !! k <> None /\ Find k t' = Ret None.
Proof.
  intros Ht Htwo. destruct (Delete_entries t es key Ht) as (t' & es' & H1 & H2 & _ & _ & H3).
  destruct (H3 Htwo) as (k & Hlt & Hin & Hout). exists t', k. split_and!; [done|lia| |].
  - intros Hn. by apply not_elem_of_list_to_map_2 in Hn.
  - rewrite (Find_entries t' es' k H2). by rewrite to_map_notin.
Qed.
End properties.

(** *** Witnesses *)
Definition insert_all (kvs : list (Z * Z)) : res (BinaryTree Z) :=
  foldl (fun m e => t ← m; Insert e.1 e.2 t) (Ret bt_new) kvs.

Definition three_nodes : BinaryTree Z :=
  Eval vm_compute in match insert_all [(5, 50); (3, 30); (8, 80)] with Ret t => t | _ => bt_new end.

Lemma three_nodes_entries : entries three_nodes [(3, 30); (5, 50); (8, 80)].
Proof.
  exists (Node 1 (Node 2 Leaf 3 30 Leaf) 5 50 (Node 3 Leaf 8 80 Leaf)). split; [|done].
  split; [done|by vm_compute; split_and!|by apply (bool_decide_unpack _)|].
  repeat constructor.
Qed.

Lemma BinaryTree_refines_sorted_map_witness :
  Predecessor 5 three_nodes = Ret (Some 30) /\ Successor 6 three_nodes = Ret (Some 80) /\
  exists t', Insert 4 40 three_nodes = Ret t' /\ exists es', entries t' es' /\ to_map es' !! 4 = Some 40.
Proof.
  destruct (BinaryTree_refines_sorted_map three_nodes _ 4 40 three_nodes_entries)
    as (_ & _ & _ & t' & es' & H1 & H2 & _ & H3).
  split; [reflexivity|]. split; [reflexivity|]. exists t'. split; [exact H1|]. exists es'.
  split; [exact H2|]. rewrite H3. reflexivity.
Defined.

Lemma BinaryTree_Delete_removes_witness :
  exists t' es', Delete 3 three_nodes = Ret t' /\ entries t' es' /\ 3 ∉ es'.*1.
Proof.
  destruct (BinaryTree_Delete_removes three_nodes _ 3 three_nodes_entries) as (t' & es' & H1 & H2 & H3 & _).
  exists t', es'. split; [exact H1|]. split; [exact H2|exact H3].
Defined.

Lemma BinaryTree_Delete_loses_entries_witness :
  exists t' k, Delete 5 three_nodes = Ret t' /\ k <> 5 /\ Find k t' = Ret None.
Proof.
  destruct (BinaryTree_Delete_loses_entries three_nodes _ 5 three_nodes_entries) as (t' & k & H1 & H2 & _ & H3).
  - vm_compute. split; [reflexivity|split; discriminate].
  - exists t', k. split; [exact H1|]. split; [exact H2|exact H3].
Defined.
