(* ===== verification/OrderedMap.v ===== *)
(** * The interface between BinaryTree and its clients

    What the kernel's memory mappings need of a tree: the operations of
    glacier/container/binary_tree.h and the laws a client may rely on.  The
    clients' theorems are proved from the laws alone; [BinaryTree] meets
    them. *)

From Stdlib Require Import ZArith Lia Sorted.
From stdpp Require Import base tactics numbers list gmap fin_maps sorting.
From S2P Require Import Prelude BinaryTree.

(** [is_pred m key o]: [o] is the binding of [m] with the largest key below
    [key]; [is_succ] is the mirror image. *)
Definition is_pred {V} (m : gmap Z V) (key : Z) (o : option V) : Prop :=
  match o with
  | Some v => exists k, m !! k = Some v /\ k < key /\ forall k', is_Some (m !! k') -> k' < key -> k' <= k
  | None => forall k', is_Some (m !! k') -> key <= k'
  end.
Definition is_succ {V} (m : gmap Z V) (key : Z) (o : option V) : Prop :=
  match o with
  | Some v => exists k, m !! k = Some v /\ key < k /\ forall k', is_Some (m !! k') -> key < k' -> k <= k'
  | None => forall k', is_Some (m !! k') -> k' <= key
  end.

Class OrderedMap (M : Type -> Type) : Type := {
  om_new : forall {V}, M V;
  om_Find : forall {V}, Z -> M V -> res (option V);
  om_Predecessor : forall {V}, Z -> M V -> res (option V);
  om_Successor : forall {V}, Z -> M V -> res (option V);
  om_Insert : forall {V}, Z -> V -> M V -> res (M V);
  om_Delete : forall {V}, Z -> M V -> res (M V);
  (** An upper bound on the number of bindings, for loops over the map. *)
  om_bound : forall {V}, M V -> nat;
}.

(** [om_Delete] only has to remove the key: [BinaryTree] may drop more. *)
Class OrderedMapLaws (M : Type -> Type) `{OrderedMap M} : Type := {
  om_model : forall {V}, M V -> gmap Z V -> Prop;
  om_new_ok : forall V, om_model (V:=V) om_new ∅;
  om_Find_ok : forall V (t : M V) m key, om_model t m -> om_Find key t = Ret (m !! key);
  om_Predecessor_ok : forall V (t : M V) m key,
    om_model t m -> exists o, om_Predecessor key t = Ret o /\ is_pred m key o;
  om_Successor_ok : forall V (t : M V) m key,
    om_model t m -> exists o, om_Successor key t = Ret o /\ is_succ m key o;
  om_Insert_ok : forall V (t : M V) m key v,
    om_model t m -> exists t', om_Insert key v t = Ret t' /\ om_model t' (<[key := v]> m);
  om_Delete_ok : forall V (t : M V) m key,
    om_model t m -> exists t' m', om_Delete key t = Ret t' /\ om_model t' m' /\ m' ⊆ delete key m;
  om_bound_ok : forall V (t : M V) m, om_model t m -> (size m <= om_bound t)%nat;
}.

#[export] Instance BinaryTree_OrderedMap : OrderedMap BinaryTree := {
  om_new V := bt_new;
  om_Find V := Find;
  om_Predecessor V := Predecessor;
  om_Successor V := Successor;
  om_Insert V := Insert;
  om_Delete V := Delete;
  om_bound V t := size (bt_nodes t);
}.

Section laws.
Context {V : Type}.
Implicit Types (t : BinaryTree V) (es : list (Z * V)) (m : gmap Z V).

Definition bt_model t m : Prop := exists es, entries t es /\ to_map es = m.

Lemma to_map_elem es k v : sorted es -> to_map es !! k = Some v <-> (k, v) ∈ es.
Proof. intros Hs. symmetry. apply elem_of_list_to_map. by apply sorted_nodup. Qed.

Lemma to_map_key es k : is_Some (to_map es !! k) -> exists v, (k, v) ∈ es.
Proof. intros [v Hv]. exists v. by apply elem_of_list_to_map_2. Qed.

(** The last entry of a sorted list has the largest key. *)
Lemma sorted_last es k v : sorted es -> last es = Some (k, v) -> forall e, e ∈ es -> e.1 <= k.
Proof.
  intros Hs Hl e He. apply last_Some in Hl as [es' ->]. apply elem_of_app in He as [He|He].
  - apply StronglySorted_app in Hs as (Hlt & _ & _).
    specialize (Hlt e (k, v) He). unfold key_lt in Hlt. cbn in Hlt.
    assert (e.1 < k) by (apply Hlt; by left). lia.
  - apply list_elem_of_singleton in He as ->. cbn. lia.
Qed.

Lemma sorted_head es k v : sorted es -> head es = Some (k, v) -> forall e, e ∈ es -> k <= e.1.
Proof.
  intros Hs Hh e He. destruct es as [|e0 es]; [done|]. injection Hh as ->.
  apply elem_of_cons in He as [->|He]; [cbn; lia|].
  apply StronglySorted_inv in Hs as [_ Hs]. rewrite Forall_forall in Hs.
  specialize (Hs e He). unfold key_lt in Hs. cbn in Hs. lia.
Qed.

Lemma sorted_filter (P : Z * V -> Prop) `{forall e, Decision (P e)} es : sorted es -> sorted (filter P es).
Proof. intros. eapply sublist_sorted; [apply sublist_filter|done]. Qed.

Lemma last_is_pred es key :
  sorted es -> is_pred (to_map es) key (snd <$> last (filter (fun e => e.1 < key) es)).
Proof.
  intros Hs. destruct (last _) as [[k v]|] eqn:El; cbn.
  - pose proof (sorted_last _ k v (sorted_filter _ es Hs) El) as Hmax.
    pose proof (last_Some_elem_of _ _ El) as Hin. apply list_elem_of_filter in Hin as [Hlt Hin].
    exists k. split_and!; [by apply to_map_elem|done|]. intros k' [v' Hv']%to_map_key Hk'.
    apply (Hmax (k', v')). apply list_elem_of_filter. done.
  - apply last_None in El. intros k' [v' Hv']%to_map_key. apply Z.nlt_ge. intros Hlt.
    apply (not_elem_of_nil (k', v')). rewrite <- El. by apply list_elem_of_filter.
Qed.

Lemma head_is_succ es key :
  sorted es -> is_succ (to_map es) key (snd <$> head (filter (fun e => key < e.1) es)).
Proof.
  intros Hs. destruct (head _) as [[k v]|] eqn:El; cbn.
  - pose proof (sorted_head _ k v (sorted_filter _ es Hs) El) as Hmin.
    assert ((k, v) ∈ filter (fun e => key < e.1) es) as Hin.
    { destruct (filter _ es); [done|]. injection El as ->. by left. }
    apply list_elem_of_filter in Hin as [Hlt Hin].
    exists k. split_and!; [by apply to_map_elem|done|]. intros k' [v' Hv']%to_map_key Hk'.
    apply (Hmin (k', v')). apply list_elem_of_filter. done.
  - apply head_None in El. intros k' [v' Hv']%to_map_key. apply Z.nlt_ge. intros Hlt.
    apply (not_elem_of_nil (k', v')). rewrite <- El. by apply list_elem_of_filter.
Qed.

Lemma bt_Delete_ok t m key :
  bt_model t m -> exists t' m', Delete key t = Ret t' /\ bt_model t' m' /\ m' ⊆ delete key m.
Proof.
  intros (es & Ht & <-). destruct (Delete_entries t es key Ht) as (t' & es' & H1 & H2 & H3 & _).
  exists t', (to_map es'). split_and!; [done|by exists es'|].
  rewrite <- to_map_filter_ne by (by eapply entries_sorted).
  apply map_subseteq_spec. intros k v. rewrite !to_map_elem.
  - intros Hin. by eapply elem_of_sublist.
  - by eapply sorted_filter, entries_sorted.
  - by eapply entries_sorted.
Qed.

Lemma bt_bound_ok t m : bt_model t m -> (size m <= size (bt_nodes t))%nat.
Proof.
  intros (es & (s & Hs & <-) & <-).
  pose proof (repr_fuel _ _ _ (holds_repr _ _ Hs) (holds_nodup _ _ Hs)) as Hf. unfold fuel_of in Hf.
  assert (length (inorder s) = length (locs s)) as Hlen.
  { clear. induction s as [|p l IHl k v r IHr]; [done|]. cbn. rewrite !length_app. cbn. lia. }
  unfold to_map. rewrite <- (size_dom (D:=gset Z)), dom_list_to_map_L, size_list_to_set, length_fmap; [lia|].
  apply sorted_nodup, Hs.
Qed.
End laws.

#[export] Program Instance BinaryTree_OrderedMapLaws : OrderedMapLaws BinaryTree := {
  om_model V := bt_model;
}.
Next Obligation. intros V. exists []. split; [apply bt_new_entries|done]. Qed.
Next Obligation. intros V t m key (es & Ht & <-). by apply Find_entries. Qed.
Next Obligation.
  intros V t m key (es & Ht & <-). eexists. split; [by apply Predecessor_entries|].
  by eapply last_is_pred, entries_sorted.
Qed.
Next Obligation.
  intros V t m key (es & Ht & <-). eexists. split; [by apply Successor_entries|].
  by eapply head_is_succ, entries_sorted.
Qed.
Next Obligation.
  intros V t m key v (es & Ht & <-). destruct (Insert_entries t es key v Ht) as (t' & es' & H1 & H2 & _ & H3 & _).
  exists t'. split; [done|]. by exists es'.
Qed.
Next Obligation. intros V t m key Ht. by apply bt_Delete_ok. Qed.
Next Obligation. intros V t m Ht. by apply bt_bound_ok. Qed.
