(* ===== verification/PhysMem.v ===== *)
(** * Physical memory (zion/memory/physical_memory.cpp)

    The bootstrap allocator used while the kernel heap comes up, and the
    [PhysicalMemoryManager] that takes the memory map over from it.  Blocks
    and single pages are kept in [LinkedList]s as in the code.  Physical
    memory itself is a store of 64-bit words by physical address; the code
    reaches the word at [x] through the direct map, at [hhdm + x]. *)

From Stdlib Require Import ZArith Lia.
From stdpp Require Import base tactics numbers list gmap relations.
From S2P Require Import Prelude LinkedList.

Definition kPageSize : Z := 0x1000.

(** ** State *)
Record MemBlock : Type := mkBlock { base : Z; num_pages : Z }.

Record PhysicalMemoryManager : Type := mkPmm {
  memory_blocks_ : LinkedList MemBlock;
  single_memory_pages_ : LinkedList Z;
  allocated_pages_ : Z;
}.

Record BootstrapMemory : Type := mkBoot { init_page : Z; next_page : Z; max_page : Z }.

(** The file's globals, with the words of physical memory. *)
Record phys : Type := mkPhys {
  gPmm : option PhysicalMemoryManager;
  gBootstrap : BootstrapMemory;
  gBootstrapEnabled : bool;
  words : gmap Z Z;
}.

(** An entry of the boot loader's memory map; type 0 is usable memory. *)
Record memmap_entry : Type := mkEntry { e_base : Z; e_length : Z; e_type : Z }.

(** ** PhysicalMemoryManager *)

Definition AddMemoryRegion (b n : Z) (m : PhysicalMemoryManager) : PhysicalMemoryManager :=
  mkPmm (ll_PushFront (mkBlock b n) (memory_blocks_ m)) (single_memory_pages_ m) (allocated_pages_ m).

(** One iteration of the constructor's loop over the memory map. *)
Definition take_over (boot : BootstrapMemory) (m : PhysicalMemoryManager) (e : memmap_entry) :
    PhysicalMemoryManager :=
  if e_type e =? 0 then
    if e_base e =? init_page boot then
      let bootstrap_used := next_page boot [-] init_page boot in
      AddMemoryRegion (next_page boot) ((e_length e [-] bootstrap_used) / kPageSize) m
    else AddMemoryRegion (e_base e) (e_length e / kPageSize) m
  else m.

(** The constructor reads [gBootstrap] once per entry.  Its list nodes come from the first kernel heap: up to about 124 usable
    entries they fit into pages that are there already, and the bootstrap allocator does not move meanwhile, as here. *)
Definition PhysicalMemoryManager_new (boot : BootstrapMemory) (memmap : list memmap_entry) :
    PhysicalMemoryManager :=
  foldl (take_over boot) (mkPmm ll_new ll_new 0) memmap.

(** [while (memory_blocks_.PeekFront().num_pages == 0) memory_blocks_.PopFront();] *)
Fixpoint drop_empty_blocks (fuel : nat) (l : LinkedList MemBlock) : res (LinkedList MemBlock) :=
  match fuel with
  | O => NoFuel
  | S fuel =>
      b ← ll_PeekFront l;
      if num_pages b =? 0 then '(_, l') ← ll_PopFront l; drop_empty_blocks fuel l'
      else Ret l
  end.

Definition drop_empty (l : LinkedList MemBlock) : res (LinkedList MemBlock) :=
  drop_empty_blocks (S (length (front_ l))) l.

Definition Pmm_AllocatePage (m : PhysicalMemoryManager) : res (Z * PhysicalMemoryManager) :=
  if 0 <? size_ (single_memory_pages_ m) then
    '(page, singles) ← ll_PopFront (single_memory_pages_ m);
    Ret (page, mkPmm (memory_blocks_ m) singles (allocated_pages_ m))
  else if size_ (memory_blocks_ m) =? 0 then Panic
  else
    blocks ← drop_empty (memory_blocks_ m);
    match front_ blocks with
    | [] => Fault
    | block :: next =>
        let page := base block in
        let block' := mkBlock (base block [+] kPageSize) (num_pages block [-] 1) in
        let blocks' := mkLL (block' :: next) (size_ blocks) in
        blocks'' ← (if num_pages block' =? 0 then '(_, l) ← ll_PopFront blocks'; Ret l else Ret blocks');
        Ret (page, mkPmm blocks'' (single_memory_pages_ m) (allocated_pages_ m [+] 1))
    end.

(** The [for (MemBlock& block : memory_blocks_)] search: the first block that
    is large enough is cut in place. *)
Fixpoint cut_first (n : Z) (blocks : list MemBlock) : option (Z * list MemBlock) :=
  match blocks with
  | [] => None
  | b :: rest =>
      if num_pages b <? n then
        match cut_first n rest with
        | Some (page, rest') => Some (page, b :: rest')
        | None => None
        end
      else Some (base b, mkBlock (base b [+] (n [*] kPageSize)) (num_pages b [-] n) :: rest)
  end.

Definition Pmm_AllocateContinuous (n : Z) (m : PhysicalMemoryManager) :
    res (Z * PhysicalMemoryManager) :=
  if size_ (memory_blocks_ m) =? 0 then Panic
  else
    blocks ← drop_empty (memory_blocks_ m);
    match cut_first n (front_ blocks) with
    | Some (page, l) =>
        Ret (page, mkPmm (mkLL l (size_ blocks)) (single_memory_pages_ m) (allocated_pages_ m [+] n))
    | None => Panic
    end.

Definition Pmm_FreePage (page : Z) (m : PhysicalMemoryManager) : PhysicalMemoryManager :=
  mkPmm (memory_blocks_ m) (ll_PushFront page (single_memory_pages_ m)) (allocated_pages_ m [-] 1).

Definition Pmm_FreePages (page n : Z) (m : PhysicalMemoryManager) : PhysicalMemoryManager :=
  let m' := AddMemoryRegion page n m in
  mkPmm (memory_blocks_ m') (single_memory_pages_ m') (allocated_pages_ m' [-] n).

Definition AvailablePages (m : PhysicalMemoryManager) : Z :=
  foldl (fun available b => available [+] num_pages b) 0 (front_ (memory_blocks_ m)).

(** ** The module's functions *)

Fixpoint InitBootstrapPageAllocation (memmap : list memmap_entry) (s : phys) : phys :=
  match memmap with
  | [] => s
  | e :: rest =>
      if (e_type e =? 0) && (0x9000 <=? e_length e) then
        mkPhys (gPmm s) (mkBoot (e_base e) (e_base e) (e_base e [+] 0x9000)) true (words s)
      else InitBootstrapPageAllocation rest s
  end.

Definition InitPhysicalMemoryManager (memmap : list memmap_entry) (s : phys) : phys :=
  mkPhys (Some (PhysicalMemoryManager_new (gBootstrap s) memmap)) (gBootstrap s)
    (gBootstrapEnabled s) (words s).

Definition with_pmm (s : phys) (m : PhysicalMemoryManager) : phys :=
  mkPhys (Some m) (gBootstrap s) (gBootstrapEnabled s) (words s).

Definition AllocatePage (s : phys) : res (Z * phys) :=
  match gPmm s with
  | Some m => '(page, m') ← Pmm_AllocatePage m; Ret (page, with_pmm s m')
  | None =>
      if negb (gBootstrapEnabled s) then Panic else
      let page := next_page (gBootstrap s) in
      if page =? max_page (gBootstrap s) then Panic else
      Ret (page, mkPhys None
        (mkBoot (init_page (gBootstrap s)) (page [+] 0x1000) (max_page (gBootstrap s)))
        (gBootstrapEnabled s) (words s))
  end.

Definition PageAlign (addr : Z) : Z := Z.land addr (not64 0xFFF).

(** The 512 stores of [ZeroOutPage], [ptr[i] = 0]. *)
Definition ZeroOutPage (ptr : Z) (w : gmap Z Z) : gmap Z Z :=
  foldl (fun w i => <[PageAlign ptr [+] 8 * i := 0]> w) w (seqZ 0 512).

Definition AllocateAndZeroPage (s : phys) : res (Z * phys) :=
  '(paddr, s') ← AllocatePage s;
  Ret (paddr, mkPhys (gPmm s') (gBootstrap s') (gBootstrapEnabled s') (ZeroOutPage paddr (words s'))).

Definition AllocateContinuous (n : Z) (s : phys) : res (Z * phys) :=
  match gPmm s with
  | None => Panic
  | Some m => '(page, m') ← Pmm_AllocateContinuous n m; Ret (page, with_pmm s m')
  end.

Definition FreePage (page : Z) (s : phys) : res phys :=
  match gPmm s with
  | None => Panic
  | Some m => Ret (with_pmm s (Pmm_FreePage page m))
  end.

Definition FreePages (page n : Z) (s : phys) : res phys :=
  match gPmm s with
  | None => Panic
  | Some m => Ret (with_pmm s (Pmm_FreePages page n m))
  end.

(** ** The free pages of a manager *)

(** The [n] pages from [b] on, as addresses. *)
Definition pages (b n : Z) : list Z := (fun i => u64 (b + kPageSize * i)) <$> seqZ 0 n.

Definition block_pages (b : MemBlock) : list Z := pages (base b) (num_pages b).

Definition free_pages (m : PhysicalMemoryManager) : list Z :=
  front_ (single_memory_pages_ m) ++ (front_ (memory_blocks_ m) ≫= block_pages).

Definition block_ok (b : MemBlock) : Prop := is_u64 (base b) /\ is_u64 (num_pages b).

(** List counters in step with the lists, at most [n] entries in each. *)
Record pmm_wf (n : nat) (m : PhysicalMemoryManager) : Prop := {
  wf_blocks : ll_wf (memory_blocks_ m);
  wf_singles : ll_wf (single_memory_pages_ m);
  wf_block_ok : Forall block_ok (front_ (memory_blocks_ m));
  wf_nblocks : (length (front_ (memory_blocks_ m)) <= n)%nat;
  wf_nsingles : (length (front_ (single_memory_pages_ m)) <= n)%nat;
}.

Section pages.
Implicit Types b n m : Z.

Lemma pages_nil b : pages b 0 = [].
Proof. done. Qed.

Lemma pages_mod b b' n : u64 b = u64 b' -> pages b n = pages b' n.
Proof.
  intros H. apply list_fmap_ext. intros i x _.
  rewrite <- (u64_add_l b), <- (u64_add_l b'). by rewrite H.
Qed.

Lemma pages_split b n m :
  0 <= m <= n -> pages b n = pages b m ++ pages (b [+] (m [*] kPageSize)) (n - m).
Proof.
  intros H. unfold pages. replace n with (m + (n - m)) at 1 by lia.
  rewrite seqZ_app, fmap_app by lia. f_equal. rewrite Z.add_comm, <- fmap_add_seqZ, <- list_fmap_compose.
  apply list_fmap_ext. intros i x _. unfold compose.
  rewrite u64_add_r, u64_add_l. f_equal. unfold kPageSize. lia.
Qed.

Lemma pages_cons b n : is_u64 b -> 0 < n -> pages b n = b :: pages (b [+] kPageSize) (n - 1).
Proof.
  intros Hb Hn. rewrite (pages_split b n 1) by lia. change (1 [*] kPageSize) with kPageSize.
  unfold pages at 1. change (seqZ 0 1) with [0]. cbn [fmap list_fmap app].
  by rewrite Z.mul_0_r, Z.add_0_r, u64_small.
Qed.
End pages.

(** ** What the manager promises *)
Section pmm.
Implicit Types (m : PhysicalMemoryManager) (l : LinkedList MemBlock).

Lemma block_pages_empty b : num_pages b = 0 -> block_pages b = [].
Proof. unfold block_pages. by intros ->. Qed.

Lemma drop_empty_cons b bs sz :
  drop_empty (mkLL (b :: bs) sz) =
    if num_pages b =? 0 then drop_empty (mkLL bs (sz [-] 1)) else Ret (mkLL (b :: bs) sz).
Proof. done. Qed.

(** The empty blocks at the front go, nothing else changes. *)
Lemma drop_empty_spec l :
  ll_wf l -> Forall block_ok (front_ l) ->
  (drop_empty l = Fault /\ front_ l ≫= block_pages = []) \/
  exists l' b next, drop_empty l = Ret l' /\ ll_wf l' /\ front_ l' = b :: next /\ num_pages b <> 0 /\
    Forall block_ok (b :: next) /\ (length (front_ l') <= length (front_ l))%nat /\
    front_ l' ≫= block_pages = front_ l ≫= block_pages /\
    (forall b, b ∈ front_ l -> b ∈ front_ l' \/ num_pages b = 0).
Proof.
  destruct l as [bs sz]. cbn [front_]. revert sz.
  induction bs as [|b bs IH]; intros sz Hwf Hok; [by left|]. rewrite drop_empty_cons.
  apply Forall_cons in Hok as [Hb Hok]. destruct (Z.eqb_spec (num_pages b) 0) as [Hz|Hnz].
  - destruct (ll_PopFront_spec (mkLL (b :: bs) sz) b (mkLL bs (sz [-] 1)) Hwf eq_refl) as [_ Hwf'].
    destruct (IH _ Hwf' Hok) as [[-> Hnil]|(l' & b' & next & -> & H1 & H2 & H3 & H4 & H5 & H6 & H7)].
    + left. rewrite bind_cons, block_pages_empty, Hnil by done. done.
    + right. exists l', b', next. split_and!; try done; [cbn; lia| |].
      * rewrite bind_cons, block_pages_empty by done. done.
      * intros b0 [->|Hin]%elem_of_cons; [by right|by apply H7].
  - right. eexists _, b, bs. split_and!; try done; [by constructor|by left].
Qed.

(** A page comes from the free pages; [None] of the outcomes loses one. *)
Lemma Pmm_AllocatePage_spec n m :
  pmm_wf n m ->
  match Pmm_AllocatePage m with
  | Ret (page, m') => pmm_wf n m' /\ free_pages m ≡ₚ page :: free_pages m'
  | Panic => free_pages m = []
  | Fault => free_pages m = []
  | NoFuel => False
  end.
Proof.
  intros [Hb Hs Hok Hnb Hns]. unfold Pmm_AllocatePage, free_pages.
  destruct (Z.ltb_spec 0 (size_ (single_memory_pages_ m))) as [Hpos|Hnone].
  - destruct (ll_PopFront (single_memory_pages_ m)) as [[page singles]| | |] eqn:Ep;
      unfold ll_PopFront in Ep; destruct Hs as [Hs Hs'];
      destruct (front_ (single_memory_pages_ m)) as [|p ps] eqn:Ef; try done; cbn in *; try lia.
    destruct (ll_PopFront_spec (single_memory_pages_ m) page singles) as [Hf Hwf];
      [by split; rewrite ?Ef|unfold ll_PopFront; by rewrite Ef|].
    rewrite Ef in Hf. injection Hf as -> ->. split; [|done].
    split; cbn; [done|done|done|done|lia].
  - assert (front_ (single_memory_pages_ m) = []) as Hsing.
    { destruct Hs as [Hs _]. destruct (front_ (single_memory_pages_ m)); [done|]. cbn in Hs. lia. }
    destruct (Z.eqb_spec (size_ (memory_blocks_ m)) 0) as [Hz|Hnz].
    + rewrite Hsing. destruct Hb as [Hb _]. destruct (front_ (memory_blocks_ m)); [done|]. cbn in Hb. lia.
    + destruct (drop_empty_spec _ Hb Hok) as [[-> ->]|(l' & b & next & -> & Hwf & Hf & Hn & Hok' & Hlen & Hbp & Hdrop)];
        [by rewrite Hsing|]. rewrite ret_bind, Hf. cbn [num_pages].
      apply Forall_cons in Hok' as [[Hb1 Hb2] Hok'].
      assert (num_pages b [-] 1 = num_pages b - 1) as Hdec by (apply u64_small; unfold is_u64 in *; lia).
      rewrite Hdec. rewrite <- Hbp, Hf, bind_cons. unfold block_pages at 1.
      rewrite pages_cons by (unfold is_u64 in *; lia).
      destruct Hwf as [Hsz Hsz']. rewrite Hf in *. cbn [length] in *.
      destruct (Z.eqb_spec (num_pages b - 1) 0) as [Hz|Hnz1].
      * cbn [ll_PopFront front_ size_]. rewrite !ret_bind, Hz, pages_nil.
        split; [|cbn [single_memory_pages_ memory_blocks_ front_]; by rewrite Hsing].
        split; cbn; try done; [|lia]. split; cbn; [|lia]. rewrite u64_small; lia.
      * rewrite ret_bind. split; [|cbn [single_memory_pages_ memory_blocks_ front_]; by rewrite Hsing, bind_cons].
        split; cbn; try done; [|lia]. constructor; [|done]. split; cbn; [apply u64_range|].
        unfold is_u64 in *; lia.
Qed.
Lemma cut_first_spec n bs :
  is_u64 n -> Forall block_ok bs ->
  match cut_first n bs with
  | Some (page, bs') => Forall block_ok bs' /\ length bs' = length bs /\
      bs ≫= block_pages ≡ₚ pages page n ++ bs' ≫= block_pages
  | None => Forall (fun b => num_pages b < n) bs
  end.
Proof.
  intros Hn. induction 1 as [|b bs [Hb1 Hb2] Hok IH]; [constructor|]. cbn [cut_first].
  destruct (Z.ltb_spec (num_pages b) n) as [Hlt|Hge].
  - destruct (cut_first n bs) as [[page bs']|]; [|by constructor].
    destruct IH as (H1 & H2 & H3). split_and!; [by constructor|cbn; lia|].
    rewrite !bind_cons, H3. solve_Permutation.
  - split_and!; [|done|].
    + constructor; [|done]. split; cbn; apply u64_range.
    + rewrite !bind_cons. unfold block_pages at 1 3. cbn [base num_pages].
      rewrite (pages_split (base b) (num_pages b) n) by (unfold is_u64 in *; lia).
      rewrite (u64_small (num_pages b - n)) by (unfold is_u64 in *; lia). by rewrite app_assoc.
Qed.

Lemma Pmm_AllocateContinuous_spec k n m :
  pmm_wf k m -> is_u64 n ->
  match Pmm_AllocateContinuous n m with
  | Ret (page, m') => pmm_wf k m' /\ free_pages m ≡ₚ pages page n ++ free_pages m'
  | Panic => Forall (fun b => num_pages b < n \/ num_pages b = 0) (front_ (memory_blocks_ m))
  | Fault => front_ (memory_blocks_ m) ≫= block_pages = []
  | NoFuel => False
  end.
Proof.
  intros [Hb Hs Hok Hnb Hns] Hn. unfold Pmm_AllocateContinuous, free_pages.
  destruct (Z.eqb_spec (size_ (memory_blocks_ m)) 0) as [Hz|Hnz].
  { destruct Hb as [Hb _]. destruct (front_ (memory_blocks_ m)); [done|]. cbn in Hb. lia. }
  destruct (drop_empty_spec _ Hb Hok) as [[-> ->]|(l' & b & next & -> & Hwf & Hf & Hnz' & Hok' & Hlen & Hbp & Hdrop)];
    [done|]. rewrite ret_bind. rewrite <- Hf in Hok'. pose proof (cut_first_spec n _ Hn Hok') as Hcut.
  destruct (cut_first n (front_ l')) as [[page bs']|].
  - destruct Hcut as (H1 & H2 & H3). split.
    + destruct Hwf as [Hsz Hsz']. split; cbn; try done; [|lia]. split; cbn; lia.
    + cbn [single_memory_pages_ memory_blocks_ front_]. rewrite <- Hbp, H3. solve_Permutation.
  - rewrite Forall_forall in *. intros b' Hb'. destruct (Hdrop b' Hb') as [?|?]; [left; by apply Hcut|by right].
Qed.
Lemma Pmm_FreePage_spec k page m :
  pmm_wf k m -> Z.of_nat k < 2 ^ 64 - 2 ->
  pmm_wf (S k) (Pmm_FreePage page m) /\ free_pages (Pmm_FreePage page m) = page :: free_pages m.
Proof.
  intros [Hb Hs Hok Hnb Hns] Hk. split; [|done]. split; cbn; try done; try lia.
  apply ll_PushFront_wf; [done|]. destruct Hs as [-> _]. lia.
Qed.

Lemma AddMemoryRegion_spec k b n m :
  pmm_wf k m -> Z.of_nat k < 2 ^ 64 - 2 -> is_u64 b -> is_u64 n ->
  pmm_wf (S k) (AddMemoryRegion b n m) /\ free_pages (AddMemoryRegion b n m) ≡ₚ pages b n ++ free_pages m.
Proof.
  intros [Hb Hs Hok Hnb Hns] Hk Hbase Hn. split.
  - split; cbn; try done; try lia; [|by constructor].
    apply ll_PushFront_wf; [done|]. destruct Hb as [-> _]. lia.
  - unfold free_pages, AddMemoryRegion. cbn [single_memory_pages_ memory_blocks_ ll_PushFront front_].
    rewrite bind_cons. unfold block_pages at 1. cbn [base num_pages]. solve_Permutation.
Qed.

Lemma Pmm_FreePages_spec k page n m :
  pmm_wf k m -> Z.of_nat k < 2 ^ 64 - 2 -> is_u64 page -> is_u64 n ->
  pmm_wf (S k) (Pmm_FreePages page n m) /\ free_pages (Pmm_FreePages page n m) ≡ₚ pages page n ++ free_pages m.
Proof. intros Hm Hk Hp Hn. by destruct (AddMemoryRegion_spec k page n m Hm Hk Hp Hn) as [[? ? ? ? ?] ?]. Qed.

Lemma pmm_wf_S k m : pmm_wf k m -> pmm_wf (S k) m.
Proof. intros []. split; try done; lia. Qed.
End pmm.

(** ** Clients of the manager

    A client holds the pages it was given and frees only pages it holds. *)
Inductive pmm_step : PhysicalMemoryManager * list Z -> PhysicalMemoryManager * list Z -> Prop :=
| step_AllocatePage m m' page owned :
    Pmm_AllocatePage m = Ret (page, m') -> pmm_step (m, owned) (m', page :: owned)
| step_AllocateContinuous m m' n page owned :
    is_u64 n -> Pmm_AllocateContinuous n m = Ret (page, m') ->
    pmm_step (m, owned) (m', pages page n ++ owned)
| step_FreePage m page owned owned' :
    owned ≡ₚ page :: owned' -> pmm_step (m, owned) (Pmm_FreePage page m, owned')
| step_FreePages m page n owned owned' :
    is_u64 page -> is_u64 n -> owned ≡ₚ pages page n ++ owned' ->
    pmm_step (m, owned) (Pmm_FreePages page n m, owned').

Lemma pmm_step_conserves k s s' :
  pmm_step s s' -> pmm_wf k s.1 -> Z.of_nat k < 2 ^ 64 - 2 ->
  pmm_wf (S k) s'.1 /\ s'.2 ++ free_pages s'.1 ≡ₚ s.2 ++ free_pages s.1.
Proof.
  intros Hstep Hwf Hk. destruct Hstep as [m m' page owned Ha|m m' n page owned Hn Ha|m page owned owned' Ho|
    m page n owned owned' Hp Hn Ho]; cbn [fst snd] in *.
  - pose proof (Pmm_AllocatePage_spec k m Hwf) as H. rewrite Ha in H. destruct H as [H ->].
    split; [by apply pmm_wf_S|solve_Permutation].
  - pose proof (Pmm_AllocateContinuous_spec k n m Hwf Hn) as H. rewrite Ha in H. destruct H as [H ->].
    split; [by apply pmm_wf_S|solve_Permutation].
  - destruct (Pmm_FreePage_spec k page m Hwf Hk) as [H ->]. split; [done|]. rewrite Ho. solve_Permutation.
  - destruct (Pmm_FreePages_spec k page n m Hwf Hk Hp Hn) as [H1 H2]. split; [done|].
    rewrite H2, Ho. solve_Permutation.
Qed.

Lemma pmm_steps_conserve n k s s' :
  nsteps pmm_step n s s' -> pmm_wf k s.1 -> Z.of_nat (k + n) < 2 ^ 64 - 2 ->
  pmm_wf (k + n) s'.1 /\ s'.2 ++ free_pages s'.1 ≡ₚ s.2 ++ free_pages s.1.
Proof.
  intros Hsteps. revert k. induction Hsteps as [s|n s1 s2 s3 Hstep Hsteps IH]; intros k Hwf Hk.
  - by rewrite Nat.add_0_r.
  - destruct (pmm_step_conserves k s1 s2 Hstep Hwf) as [Hwf2 Hp]; [lia|].
    destruct (IH (S k) Hwf2) as [Hwf3 Hp3]; [lia|]. rewrite Nat.add_succ_r. split; [done|by rewrite Hp3].
Qed.

(** ** From the boot loader's map to the manager *)
Definition usable_pages (memmap : list memmap_entry) : list Z :=
  memmap ≫= fun e => if e_type e =? 0 then pages (e_base e) (e_length e / kPageSize) else [].

(** What the memory map guarantees: 64-bit fields and usable regions that
    start at different addresses. *)
Definition memmap_ok (memmap : list memmap_entry) : Prop :=
  Forall (fun e => is_u64 (e_base e) /\ is_u64 (e_length e)) memmap /\
  NoDup (e_base <$> filter (fun e => e_type e = 0) memmap).

Definition phys_init : phys := mkPhys None (mkBoot 0 0 0) false ∅.

(** The kernel's page allocations before the manager exists. *)
Fixpoint bootstrap_allocs (j : nat) (s : phys) : res (list Z * phys) :=
  match j with
  | O => Ret ([], s)
  | S j =>
      '(ps, s) ← bootstrap_allocs j s;
      '(page, s) ← AllocatePage s;
      Ret (ps ++ [page], s)
  end.

Section takeover.
Implicit Types (memmap : list memmap_entry) (e : memmap_entry) (m : PhysicalMemoryManager).

Definition entry_pages (boot : BootstrapMemory) e : list Z :=
  if e_type e =? 0 then
    if e_base e =? init_page boot then
      pages (next_page boot) ((e_length e [-] (next_page boot [-] init_page boot)) / kPageSize)
    else pages (e_base e) (e_length e / kPageSize)
  else [].

Lemma div_page_u64 n : is_u64 n -> is_u64 (n / kPageSize).
Proof.
  unfold is_u64, kPageSize. intros. split; [apply Z.div_pos; lia|].
  apply Z.le_lt_trans with n; [|lia]. apply Z.div_le_upper_bound; lia.
Qed.

Lemma take_over_all boot memmap k m :
  Forall (fun e => is_u64 (e_base e) /\ is_u64 (e_length e)) memmap -> is_u64 (next_page boot) ->
  pmm_wf k m -> Z.of_nat (k + length memmap) < 2 ^ 64 - 2 ->
  pmm_wf (k + length memmap) (foldl (take_over boot) m memmap) /\
  free_pages (foldl (take_over boot) m memmap) ≡ₚ (memmap ≫= entry_pages boot) ++ free_pages m.
Proof.
  intros Hmm Hnext. revert k m. induction Hmm as [|e memmap [Hb Hl] Hmm IH]; intros k m Hm Hk.
  { by rewrite Nat.add_0_r. }
  cbn [foldl length] in *. rewrite bind_cons.
  assert (pmm_wf (S k) (take_over boot m e) /\ free_pages (take_over boot m e) ≡ₚ entry_pages boot e ++ free_pages m)
    as [H1 H2].
  { unfold take_over, entry_pages. destruct (e_type e =? 0); [|by split; [apply pmm_wf_S|]].
    destruct (e_base e =? init_page boot); apply AddMemoryRegion_spec; try done; try lia;
      apply div_page_u64; [apply u64_is_u64|done]. }
  destruct (IH (S k) _ H1) as [H3 H4]; [lia|]. rewrite Nat.add_succ_r. split; [done|].
  rewrite H4, H2. solve_Permutation.
Qed.

(** The state of the bootstrap allocator after [j] pages. *)
Record boot_state (b : Z) (enabled : bool) (j : nat) (s : phys) : Prop := {
  bs_pmm : gPmm s = None;
  bs_init : init_page (gBootstrap s) = b;
  bs_next : next_page (gBootstrap s) = b [+] (kPageSize * Z.of_nat j);
  bs_max : enabled = true -> max_page (gBootstrap s) = b [+] 0x9000;
  bs_enabled : gBootstrapEnabled s = enabled;
  bs_count : (j <= (if enabled then 9 else 0))%nat;
}.

Lemma bootstrap_allocs_state b en j s ps s' :
  is_u64 b -> boot_state b en 0 s -> bootstrap_allocs j s = Ret (ps, s') ->
  ps = pages b (Z.of_nat j) /\ boot_state b en j s'.
Proof.
  intros Hb Hs. revert ps s'. induction j as [|j IH]; intros ps s' Hal; cbn [bootstrap_allocs] in Hal.
  { injection Hal as <- <-. done. }
  apply bind_Ret in Hal as ([ps1 s1] & H1 & Hal). apply bind_Ret in Hal as ([page s2] & H2 & Hal).
  injection Hal as <- <-. destruct (IH ps1 s1 H1) as [-> [Hp Hi Hn Hm He Hc]].
  unfold AllocatePage in H2. rewrite Hp in H2.
  destruct (gBootstrapEnabled s1) eqn:Een; cbn [negb] in H2; [|done]. subst en.
  case_if_hyp H2; [done|]. injection H2 as <- <-. zb. rewrite Hn, (Hm eq_refl) in E.
  assert (j <> 9%nat) by (intros ->; by apply E).
  split; [|split; cbn; try done; try lia].
  - unfold pages. rewrite Nat2Z.inj_succ, <- Nat2Z.inj_succ, seqZ_S, fmap_app. cbn. by rewrite Hn.
  - rewrite Hn. rewrite u64_add_l. f_equal. unfold kPageSize. lia.
Qed.

Lemma InitBootstrap_state memmap :
  memmap_ok memmap ->
  exists b en, is_u64 b /\ boot_state b en 0 (InitBootstrapPageAllocation memmap phys_init) /\
    (en = true -> exists e, e ∈ memmap /\ e_type e = 0 /\ e_base e = b /\ 0x9000 <= e_length e).
Proof.
  intros [Hok _]. induction Hok as [|e memmap [Hb Hl] Hok IH]; cbn [InitBootstrapPageAllocation].
  { exists 0, false. split; [done|]. split; [|done]. split; try done. }
  case_if_goal.
  - zb. exists (e_base e), true. split; [done|]. split; [split; cbn; try done; try lia|].
    + rewrite Z.add_0_r. symmetry. by apply u64_small.
    + intros _. exists e. split_and!; try done. by left.
  - destruct IH as (b & en & H1 & H2 & H3). exists b, en. split_and!; try done.
    intros Hen. destruct (H3 Hen) as (e' & ? & ?). exists e'. split; [by right|done].
Qed.

Lemma entry_pages_other boot memmap :
  Forall (fun e => e_type e = 0 -> e_base e <> init_page boot) memmap ->
  memmap ≫= entry_pages boot = usable_pages memmap.
Proof.
  unfold usable_pages. induction 1 as [|e memmap He _ IH]; [done|]. rewrite !bind_cons, IH. f_equal.
  unfold entry_pages. destruct (Z.eqb_spec (e_type e) 0); [|done].
  destruct (Z.eqb_spec (e_base e) (init_page boot)); [by destruct He|done].
Qed.

Lemma entry_pages_boot b en j s e :
  boot_state b en j s -> e_type e = 0 -> e_base e = b -> is_u64 (e_length e) ->
  kPageSize * Z.of_nat j <= e_length e ->
  pages b (Z.of_nat j) ++ entry_pages (gBootstrap s) e = pages b (e_length e / kPageSize).
Proof.
  intros [_ Hi Hn _ _ Hc] Ht Hb Hl Hj. unfold entry_pages. rewrite Ht, Hi, Hb, !Z.eqb_refl.
  assert (next_page (gBootstrap s) [-] b = kPageSize * Z.of_nat j) as ->.
  { rewrite Hn. unfold u64. rewrite Zminus_mod_idemp_l. unfold kPageSize.
    replace (b + _ - b) with (0x1000 * Z.of_nat j) by lia. apply Z.mod_small. destruct en; lia. }
  rewrite (u64_small (e_length e - _)) by (unfold is_u64, kPageSize in *; lia).
  rewrite (pages_split b (e_length e / kPageSize) (Z.of_nat j)).
  2:{ split; [lia|]. apply Z.div_le_lower_bound; unfold kPageSize in *; lia. }
  f_equal. rewrite Hn, u64_add_r, (Z.mul_comm kPageSize). f_equal.
  unfold kPageSize. replace (e_length e - Z.of_nat j * 0x1000)
    with (e_length e + (- Z.of_nat j) * 0x1000) by lia. rewrite Z.div_add by lia. lia.
Qed.

(** What the bootstrap allocator handed out and what the manager takes over
    are together the usable pages. *)
Lemma takeover_split memmap b en j s :
  memmap_ok memmap -> boot_state b en j s ->
  (en = true -> exists e, e ∈ memmap /\ e_type e = 0 /\ e_base e = b /\ 0x9000 <= e_length e) ->
  pages b (Z.of_nat j) ++ memmap ≫= entry_pages (gBootstrap s) ≡ₚ usable_pages memmap.
Proof.
  intros [Hok Hnd] Hs He. pose proof (bs_init _ _ _ _ Hs) as Hi. pose proof (bs_count _ _ _ _ Hs) as Hc.
  destruct en.
  - destruct He as (e & (l1 & l2 & ->)%list_elem_of_split & Ht & Hbe & Hlen); [done|].
    rewrite filter_app, filter_cons_True, fmap_app, fmap_cons, <- Permutation_middle in Hnd by done.
    apply NoDup_cons in Hnd as [Hnd _]. rewrite <- fmap_app, <- filter_app in Hnd.
    assert (Forall (fun e => e_type e = 0 -> e_base e <> init_page (gBootstrap s)) (l1 ++ l2)) as Hoth.
    { apply Forall_forall. intros e' Hin Ht' Heq. apply Hnd. rewrite Hbe, <- Hi, <- Heq.
      apply list_elem_of_fmap_2, list_elem_of_filter. done. }
    apply Forall_app in Hoth as [H1 H2]. apply Forall_app in Hok as [_ [[_ Hl] _]%Forall_cons].
    unfold usable_pages. rewrite !bind_app, !bind_cons, !entry_pages_other by done.
    fold (usable_pages l1) (usable_pages l2). rewrite Ht, Hbe. cbn [Z.eqb].
    rewrite <- (entry_pages_boot b true j s e) by (try done; unfold kPageSize; lia). solve_Permutation.
  - assert (j = 0%nat) as -> by lia. cbn [Z.of_nat]. rewrite pages_nil, app_nil_l.
    clear Hnd He. unfold usable_pages. induction Hok as [|e l [_ Hl] Hok IH]; [done|].
    rewrite !bind_cons, IH. apply Permutation_app; [|done].
    destruct (Z.eqb_spec (e_type e) 0) as [Ht|Hn]; [destruct (decide (e_base e = b)) as [Hb|Hb]|].
    + rewrite Hb, <- (entry_pages_boot b false 0 s e); try done. unfold is_u64 in Hl. lia.
    + unfold entry_pages. rewrite Ht, Hi. cbn [Z.eqb]. by apply Z.eqb_neq in Hb as ->.
    + unfold entry_pages. by apply Z.eqb_neq in Hn as ->.
Qed.

(** Together: from the boot loader's map to any later state. *)
Lemma pages_accounted memmap j boot_pages s k m owned :
  memmap_ok memmap ->
  bootstrap_allocs j (InitBootstrapPageAllocation memmap phys_init) = Ret (boot_pages, s) ->
  nsteps pmm_step k (PhysicalMemoryManager_new (gBootstrap s) memmap, []) (m, owned) ->
  Z.of_nat (length memmap + k) < 2 ^ 64 - 2 ->
  pmm_wf (length memmap + k) m /\ boot_pages ++ owned ++ free_pages m ≡ₚ usable_pages memmap.
Proof.
  intros Hok Hal Hsteps Hk. destruct (InitBootstrap_state memmap Hok) as (b & en & Hb & Hs & Hen).
  destruct (bootstrap_allocs_state b en j _ _ _ Hb Hs Hal) as [-> Hs'].
  destruct (take_over_all (gBootstrap s) memmap 0 (mkPmm ll_new ll_new 0)) as [Hwf Hfree].
  { apply Hok. } { rewrite (bs_next _ _ _ _ Hs'). apply u64_is_u64. }
  { split; cbn; try done; lia. } { lia. }
  destruct (pmm_steps_conserve k (length memmap) _ _ Hsteps Hwf Hk) as [Hwf' Hcons].
  cbn [fst snd] in *. split; [done|]. rewrite Hcons. etrans; [apply Permutation_app_head, Hfree|].
  unfold free_pages at 1. cbn [single_memory_pages_ memory_blocks_ ll_new front_ app]. rewrite app_nil_r.
  by apply (takeover_split memmap b en j s).
Qed.
End takeover.

(** ** Zeroed pages *)
Lemma PageAlign_spec addr : is_u64 addr -> PageAlign addr = addr - addr mod kPageSize.
Proof. intros H. apply (land_not64_low addr 12); [lia|exact H]. Qed.

Lemma ZeroOutPage_lookup ptr w a :
  ZeroOutPage ptr w !! a =
    if decide (a ∈ (fun i => PageAlign ptr [+] 8 * i) <$> seqZ 0 512) then Some 0 else w !! a.
Proof.
  unfold ZeroOutPage. generalize (seqZ 0 512). intros l. revert w.
  induction l as [|i l IH] using rev_ind; intros w.
  - rewrite decide_False; [done|]. apply not_elem_of_nil.
  - rewrite foldl_app, fmap_app. cbn [foldl fmap list_fmap].
    destruct (decide (a = PageAlign ptr [+] 8 * i)) as [->|Hne].
    + rewrite lookup_insert_eq, decide_True by set_solver. done.
    + rewrite lookup_insert_ne, IH by done. repeat case_decide; set_solver.
Qed.

(** ** Properties *)

(** C4.  From the boot loader's memory map on, every usable physical page is
    at all times in exactly one place: handed out by the bootstrap allocator,
    held by a client of the manager, or free.  So no page is given out twice
    and none is lost, over any sequence of single and contiguous allocations
    and frees of held pages. *)
Theorem phys_pages_conserved memmap j boot_pages s k m owned :
  memmap_ok memmap -> NoDup (usable_pages memmap) ->
  bootstrap_allocs j (InitBootstrapPageAllocation memmap phys_init) = Ret (boot_pages, s) ->
  nsteps pmm_step k (PhysicalMemoryManager_new (gBootstrap s) memmap, []) (m, owned) ->
  Z.of_nat (length memmap + k) < 2 ^ 64 - 2 ->
  NoDup (boot_pages ++ owned ++ free_pages m) /\
  (forall page, page ∈ usable_pages memmap <-> page ∈ boot_pages \/ page ∈ owned \/ page ∈ free_pages m) /\
  (forall page m', Pmm_AllocatePage m = Ret (page, m') -> page ∉ boot_pages /\ page ∉ owned).
Proof.
  intros Hok Hnd Hal Hsteps Hk.
  destruct (pages_accounted memmap j boot_pages s k m owned Hok Hal Hsteps Hk) as [Hwf Hacc].
  assert (NoDup (boot_pages ++ owned ++ free_pages m)) as Hnd' by (by rewrite Hacc).
  split_and!; [done| |].
  - intros page. rewrite <- Hacc, !elem_of_app. done.
  - intros page m' Ha. pose proof (Pmm_AllocatePage_spec _ m Hwf) as H. rewrite Ha in H.
    destruct H as [_ Hf]. rewrite Hf in Hnd'. apply NoDup_app in Hnd' as (_ & Hd1 & Hnd').
    apply NoDup_app in Hnd' as (_ & Hd2 & _). split; intros Hin; [apply (Hd1 page Hin)|apply (Hd2 page Hin)];
      set_solver.
Qed.

(** [AllocatePage] succeeds exactly while some page is free.  When none
    is, it stops the kernel if there is no block at all, and reads through
    the null front of the block list if only empty blocks are left. *)
Theorem AllocatePage_outcomes n m :
  pmm_wf n m ->
  match Pmm_AllocatePage m with
  | Ret (page, m') => page ∈ free_pages m /\ free_pages m ≡ₚ page :: free_pages m'
  | Panic => front_ (single_memory_pages_ m) = [] /\ front_ (memory_blocks_ m) = []
  | Fault => free_pages m = [] /\ front_ (memory_blocks_ m) <> []
  | NoFuel => False
  end.
Proof.
  intros Hwf. pose proof (Pmm_AllocatePage_spec n m Hwf) as H.
  destruct (Pmm_AllocatePage m) as [[page m']| | |] eqn:E; [..|done].
  - destruct H as [_ H]. split; [|done]. rewrite H. by left.
  - unfold Pmm_AllocatePage in E. case_if_hyp E; [by unfold ll_PopFront in E; destruct (front_ _)|].
    case_if_hyp E.
    + destruct Hwf as [[Hb _] [Hs _] _ _ _]. zb. rewrite E1 in Hb.
      destruct (front_ (single_memory_pages_ m)); [|cbn in Hs; lia].
      destruct (front_ (memory_blocks_ m)); [done|cbn in Hb; lia].
    + destruct (drop_empty_spec _ (wf_blocks _ _ Hwf) (wf_block_ok _ _ Hwf))
        as [[Hd _]|(l' & b & next & Hd & _ & Hf & _)]; rewrite Hd in E; [done|].
      rewrite ret_bind, Hf in E. cbn [ll_PopFront front_] in E. by case_if_hyp E.
  - split; [done|]. unfold Pmm_AllocatePage in E. case_if_hyp E.
    + destruct Hwf as [_ [Hs _] _ _ _]. unfold ll_PopFront in E. zb.
      destruct (front_ (single_memory_pages_ m)) eqn:Ef; [cbn in Hs; lia|done].
    + case_if_hyp E; [done|]. destruct Hwf as [[Hb _] _ _ _ _]. zb. intros Hnil. rewrite Hnil in Hb. cbn in Hb. lia.
Qed.

(** The page counter drifts: [FreePage] decrements it, but the page
    [AllocatePage] then takes back from the single-page list is not counted,
    so each such round loses one and the counter wraps below zero. *)
Theorem allocated_pages_undercounts k m page :
  pmm_wf k m -> Z.of_nat k < 2 ^ 64 - 2 ->
  exists m', Pmm_AllocatePage (Pmm_FreePage page m) = Ret (page, m') /\
    free_pages m' = free_pages m /\ allocated_pages_ m' = allocated_pages_ m [-] 1.
Proof.
  intros Hwf Hk. destruct (Pmm_FreePage_spec k page m Hwf Hk) as [[_ [Hs _] _ _ _] _]. cbn in Hs.
  unfold Pmm_AllocatePage. cbn [single_memory_pages_ Pmm_FreePage ll_PushFront size_]. rewrite Hs.
  rewrite (proj2 (Z.ltb_lt _ _)) by lia. cbn [ll_PopFront front_ size_].
  eexists. split; [reflexivity|]. split; reflexivity.
Qed.

(** *** Witnesses *)
Definition sample_memmap : list memmap_entry :=
  [mkEntry 0 0x1000 1; mkEntry 0x100000 0xA000 0; mkEntry 0x200000 0x3000 0].

Definition sample_boot : list Z * phys :=
  Eval vm_compute in
    match bootstrap_allocs 2 (InitBootstrapPageAllocation sample_memmap phys_init) with
    | Ret r => r
    | _ => ([], phys_init)
    end.

Definition sample_pmm : PhysicalMemoryManager :=
  Eval vm_compute in PhysicalMemoryManager_new (gBootstrap sample_boot.2) sample_memmap.

Lemma sample_memmap_ok : memmap_ok sample_memmap /\ NoDup (usable_pages sample_memmap).
Proof.
  split; [|apply (bool_decide_unpack _); vm_compute; exact I].
  split; [repeat constructor; cbn; lia|apply (bool_decide_unpack _); vm_compute; exact I].
Qed.

Lemma sample_pmm_wf : pmm_wf 2 sample_pmm.
Proof.
  split; [split; [reflexivity|cbn; lia]..| |cbn; lia|cbn; lia].
  repeat constructor; cbn; lia.
Qed.

Lemma phys_pages_conserved_witness :
  exists page m, Pmm_AllocatePage sample_pmm = Ret (page, m) /\
    NoDup (sample_boot.1 ++ [page] ++ free_pages m).
Proof.
  eexists _, _. split; [vm_compute; reflexivity|].
  refine (proj1 (phys_pages_conserved sample_memmap 2 sample_boot.1 sample_boot.2 1 _ [_]
    (proj1 sample_memmap_ok) (proj2 sample_memmap_ok) eq_refl _ _)).
  - econstructor; [|constructor]. apply (step_AllocatePage sample_pmm). reflexivity.
  - vm_compute. reflexivity.
Defined.

Lemma AllocatePage_outcomes_witness : 0x200000 ∈ free_pages sample_pmm.
Proof. exact (proj1 (AllocatePage_outcomes 2 sample_pmm sample_pmm_wf)). Defined.

Lemma allocated_pages_undercounts_witness :
  exists m, Pmm_AllocatePage (Pmm_FreePage 0x300000 sample_pmm) = Ret (0x300000, m) /\
    allocated_pages_ m = 2 ^ 64 - 1.
Proof.
  destruct (allocated_pages_undercounts 2 sample_pmm 0x300000 sample_pmm_wf) as (m & H1 & _ & H2).
  - lia.
  - exists m. split; [exact H1|]. rewrite H2. reflexivity.
Defined.
