(* ===== verification/MemObject.v ===== *)
(** * Memory objects (zion/object/memory_object.h, memory_object.cpp)

    The three kinds of [MemoryObject] as one type, with the virtual methods
    as functions by cases.  A variable object takes its pages from the
    physical allocator on first use; a fixed object gives a contiguous range
    back when it is destroyed; a view owns nothing. *)

From Stdlib Require Import ZArith Lia.
From stdpp Require Import base tactics numbers list gmap.
From S2P Require Import Prelude Status LinkedList PhysMem.

Inductive MemoryObject : Type :=
| VariableMemoryObject (mo_size : Z) (phys_page_list_ : list Z)
| FixedMemoryObject (mo_size : Z) (physical_addr_ : Z)
| ViewMemoryObject (mo_size : Z) (physical_addr_ : Z).

Definition MemoryObject_size (o : MemoryObject) : Z :=
  match o with
  | VariableMemoryObject sz _ | FixedMemoryObject sz _ | ViewMemoryObject sz _ => sz
  end.

Definition mo_num_pages (o : MemoryObject) : Z := ((MemoryObject_size o [-] 1) / kPageSize) [+] 1.

(** The constructor of VariableMemoryObject: the size is rounded up to pages
    and no page is taken yet. *)
Definition VariableMemoryObject_new (sz : Z) : MemoryObject :=
  let size_ := if negb (Z.land sz 0xFFF =? 0) then Z.land sz (not64 0xFFF) [+] 0x1000 else sz in
  VariableMemoryObject size_ (replicate (Z.to_nat (size_ / 0x1000)) 0).

(** [PageNumberToPhysAddr], with the object and the allocator it updates. *)
Definition PageNumberToPhysAddr (page_num : Z) (o : MemoryObject) (s : phys) :
    res (Z * MemoryObject * phys) :=
  match o with
  | VariableMemoryObject sz l =>
      p ← deref (l !! Z.to_nat page_num);
      if p =? 0 then
        '(page, s') ← AllocatePage s;
        Ret (page, VariableMemoryObject sz (<[Z.to_nat page_num := page]> l), s')
      else Ret (p, o, s)
  | FixedMemoryObject _ addr | ViewMemoryObject _ addr =>
      Ret (addr [+] (kPageSize [*] page_num), o, s)
  end.

Definition PhysicalPageAtOffset (offset : Z) (o : MemoryObject) (s : phys) :
    res (Z * MemoryObject * phys) :=
  if MemoryObject_size o <? offset then Panic else PageNumberToPhysAddr (offset / 0x1000) o s.

(** One copy of [CopyBytesToObject]: [copy_bytes] bytes from virtual address
    [copy_from] to physical address [copy_to]. *)
Record copy : Type := mkCopy { copy_to : Z; copy_from : Z; copy_bytes : Z }.

(** The [while (length > 0)] loop. *)
Fixpoint copy_loop (fuel : nat) (source length page_number : Z) (o : MemoryObject) (s : phys) :
    res (list copy * MemoryObject * phys) :=
  match fuel with
  | O => NoFuel
  | S fuel =>
      if 0 <? length then
        '(physical, o, s) ← PageNumberToPhysAddr page_number o s;
        let bytes_to_copy := if 0x1000 <=? length then 0x1000 else length in
        '(cs, o, s) ← copy_loop fuel (source [+] 0x1000) (length [-] bytes_to_copy)
                        (page_number [+] 1) o s;
        Ret (mkCopy physical source bytes_to_copy :: cs, o, s)
      else Ret ([], o, s)
  end.

Definition CopyBytesToObject (source length : Z) (o : MemoryObject) (s : phys) :
    res (list copy * MemoryObject * phys) :=
  if MemoryObject_size o <? length then Panic
  else copy_loop (S (Z.to_nat (length / 0x1000) + 1)) source length 0 o s.

Definition Duplicate (offset length : Z) (o : MemoryObject) : ErrorOr MemoryObject :=
  match o with
  | ViewMemoryObject sz addr =>
      if sz <? offset [+] length then EErr INVALID_ARGUMENT
      else EOk (ViewMemoryObject length (addr [+] offset))
  | _ => EErr UNIMPLEMENTED
  end.

(** The destructors. *)
Definition free_all (l : list Z) (s : phys) : res phys :=
  foldl (fun m page => s ← m; if page =? 0 then Ret s else FreePage page s) (Ret s) l.

Definition MemoryObject_delete (o : MemoryObject) (s : phys) : res phys :=
  match o with
  | VariableMemoryObject _ l => free_all l s
  | FixedMemoryObject _ addr => FreePages addr (mo_num_pages o) s
  | ViewMemoryObject _ _ => Ret s
  end.

(** ** Variable objects *)

(** The pages an object holds. *)
Definition obj_pages (o : MemoryObject) : list Z :=
  match o with
  | VariableMemoryObject _ l => filter (fun p => p <> 0) l
  | FixedMemoryObject _ addr => pages addr (mo_num_pages o)
  | ViewMemoryObject _ _ => []
  end.

Definition pmm_of (s : phys) : PhysicalMemoryManager :=
  match gPmm s with Some m => m | None => mkPmm ll_new ll_new 0 end.

(** The allocator is up and has [k] as a bound on its lists. *)
Definition phys_wf (k : nat) (s : phys) : Prop := is_Some (gPmm s) /\ pmm_wf k (pmm_of s).

Definition phys_free (s : phys) : list Z := free_pages (pmm_of s).

(** Physical page 0 is never usable memory; the objects use 0 for a page not
    yet allocated. *)
Definition no_page_0 (s : phys) : Prop := 0 ∉ phys_free s.

Section variable.
Implicit Types (s : phys) (l : list Z).

Lemma AllocatePage_spec k s page s' :
  phys_wf k s -> AllocatePage s = Ret (page, s') ->
  phys_wf k s' /\ phys_free s ≡ₚ page :: phys_free s' /\ words s' = words s.
Proof.
  intros [[m Hm] Hwf]. unfold AllocatePage, phys_free, phys_wf, pmm_of in *. rewrite Hm in *.
  intros ([page' m'] & Ha & Hr)%bind_Ret. injection Hr as -> <-. cbn [gPmm with_pmm words].
  pose proof (Pmm_AllocatePage_spec k m Hwf) as H. rewrite Ha in H. destruct H as [H1 H2].
  split_and!; [by eexists|done|done|done].
Qed.

Lemma FreePage_spec k page s :
  phys_wf k s -> Z.of_nat k < 2 ^ 64 - 2 ->
  exists s', FreePage page s = Ret s' /\ phys_wf (S k) s' /\ phys_free s' = page :: phys_free s.
Proof.
  intros [[m Hm] Hwf] Hk. unfold FreePage, phys_free, phys_wf, pmm_of in *. rewrite Hm in *.
  destruct (Pmm_FreePage_spec k page m Hwf Hk) as [H1 H2]. eexists. split; [done|].
  cbn [gPmm with_pmm]. split; [split; [by eexists|done]|done].
Qed.

(** One access to a page of a variable object: a present page is returned
    as it is; an absent one comes from the free pages and is remembered. *)
Lemma access_spec k sz l i s p o' s' :
  phys_wf k s -> no_page_0 s ->
  PageNumberToPhysAddr i (VariableMemoryObject sz l) s = Ret (p, o', s') ->
  exists l', o' = VariableMemoryObject sz l' /\ l' !! Z.to_nat i = Some p /\ p <> 0 /\
    length l' = length l /\ phys_wf k s' /\ no_page_0 s' /\
    (forall j q, l !! j = Some q -> q <> 0 -> l' !! j = Some q) /\
    obj_pages o' ++ phys_free s' ≡ₚ obj_pages (VariableMemoryObject sz l) ++ phys_free s.
Proof.
  intros Hwf H0. cbn [PageNumberToPhysAddr].
  intros (q & Hq%deref_Ret & Hr)%bind_Ret. destruct (Z.eqb_spec q 0) as [->|Hne].
  - apply bind_Ret in Hr as ([page s1] & Ha & Hr). injection Hr as <- <- <-.
    destruct (AllocatePage_spec k s page s1 Hwf Ha) as (H1 & H2 & _).
    pose proof (lookup_lt_Some _ _ _ Hq) as Hlt. unfold no_page_0 in *. rewrite H2 in H0.
    apply not_elem_of_cons in H0 as [Hp H0].
    exists (<[Z.to_nat i := page]> l). split_and!; try done.
    + by apply list_lookup_insert_eq.
    + apply length_insert.
    + intros j q Hj Hnz. rewrite list_lookup_insert_ne; [done|]. intros <-. congruence.
    + cbn [obj_pages]. rewrite insert_take_drop by done. rewrite <- (take_drop_middle l _ _ Hq) at 3.
      rewrite !filter_app, filter_cons_True, filter_cons_False by (try done; lia).
      rewrite H2. solve_Permutation.
  - injection Hr as <- <- <-. exists l. split_and!; done.
Qed.

(** A sequence of accesses, as page faults on the object's mappings make them. *)
Fixpoint access_all (offs : list Z) (o : MemoryObject) s : res (list Z * MemoryObject * phys) :=
  match offs with
  | [] => Ret ([], o, s)
  | off :: offs =>
      '(p, o, s) ← PhysicalPageAtOffset off o s;
      '(ps, o, s) ← access_all offs o s;
      Ret (p :: ps, o, s)
  end.

Lemma access_all_spec k sz l offs s ps o' s' :
  phys_wf k s -> no_page_0 s ->
  access_all offs (VariableMemoryObject sz l) s = Ret (ps, o', s') ->
  exists l', o' = VariableMemoryObject sz l' /\ length l' = length l /\ phys_wf k s' /\
    (forall j q, l !! j = Some q -> q <> 0 -> l' !! j = Some q) /\
    Forall2 (fun off p => l' !! Z.to_nat (off / 0x1000) = Some p /\ p <> 0) offs ps /\
    obj_pages o' ++ phys_free s' ≡ₚ obj_pages (VariableMemoryObject sz l) ++ phys_free s.
Proof.
  revert l s ps. induction offs as [|off offs IH]; intros l s ps Hwf H0 Hacc; cbn [access_all] in Hacc.
  { injection Hacc as <- <- <-. exists l. split_and!; done. }
  apply bind_Ret in Hacc as ([[p o1] s1] & H1 & Hacc). apply bind_Ret in Hacc as ([[ps1 o2] s2] & H2 & Hacc).
  injection Hacc as <- <- <-. unfold PhysicalPageAtOffset in H1. case_if_hyp H1; [done|].
  destruct (access_spec k sz l _ s p o1 s1 Hwf H0 H1) as (l1 & -> & Hp & Hnz & Hlen & Hwf1 & H01 & Hkeep & Hperm).
  destruct (IH l1 s1 ps1 Hwf1 H01 H2) as (l2 & -> & Hlen2 & Hwf2 & Hkeep2 & Hall & Hperm2).
  exists l2. split_and!; [done|lia|done| |constructor; [split; [by apply Hkeep2|done]|done]|by rewrite Hperm2].
  intros j q Hj Hq. by apply Hkeep2; [apply Hkeep|].
Qed.

Lemma free_all_spec k l s :
  phys_wf k s -> Z.of_nat (k + length l) < 2 ^ 64 - 2 ->
  exists s', free_all l s = Ret s' /\ phys_wf (k + length l) s' /\
    phys_free s' ≡ₚ filter (fun p => p <> 0) l ++ phys_free s.
Proof.
  unfold free_all. revert k s. induction l as [|p l IH]; intros k s Hwf Hk.
  { exists s. by rewrite Nat.add_0_r. }
  cbn [foldl length] in *. rewrite ret_bind, Nat.add_succ_r. destruct (Z.eqb_spec p 0) as [->|Hne].
  - destruct Hwf as [Hs Hm]. destruct (IH (S k) s) as (s' & H1 & H2 & H3); [split; [done|by apply pmm_wf_S]|lia|].
    exists s'. rewrite filter_cons_False by lia. done.
  - destruct (FreePage_spec k p s Hwf) as (s1 & -> & Hwf1 & Hf); [lia|].
    destruct (IH (S k) s1 Hwf1) as (s' & H1 & H2 & H3); [lia|]. exists s'. split_and!; [done|done|].
    rewrite H3, Hf, filter_cons_True by done. solve_Permutation.
Qed.

Lemma filter_NoDup_lookup (P : Z -> Prop) `{forall x, Decision (P x)} l i j p :
  NoDup (filter P l) -> l !! i = Some p -> l !! j = Some p -> P p -> i = j.
Proof.
  revert i j. induction l as [|x l IH]; intros i j Hnd Hi Hj Hp; [done|].
  rewrite filter_cons in Hnd. destruct i as [|i], j as [|j]; cbn in *; try done.
  - injection Hi as ->. rewrite decide_True in Hnd by done. apply NoDup_cons in Hnd as [Hn _].
    destruct Hn. apply list_elem_of_filter. split; [done|]. by eapply list_elem_of_lookup_2.
  - injection Hj as ->. rewrite decide_True in Hnd by done. apply NoDup_cons in Hnd as [Hn _].
    destruct Hn. apply list_elem_of_filter. split; [done|]. by eapply list_elem_of_lookup_2.
  - f_equal. apply IH; try done. case_decide; [by apply NoDup_cons in Hnd as [_ ?]|done].
Qed.

Lemma obj_pages_new sz : obj_pages (VariableMemoryObject_new sz) = [].
Proof.
  unfold obj_pages, VariableMemoryObject_new. apply filter_Forall_nil, Forall_replicate. lia.
Qed.

Lemma size_new sz :
  is_u64 sz -> sz <= 2 ^ 64 - 0x1000 ->
  let n := MemoryObject_size (VariableMemoryObject_new sz) in
  n mod 0x1000 = 0 /\ sz <= n < sz + 0x1000.
Proof.
  intros Hu Hsz. unfold is_u64 in Hu. cbv zeta. cbn [VariableMemoryObject_new MemoryObject_size].
  change (Z.land sz 0xFFF) with (Z.land sz (2 ^ 12 - 1)). rewrite land_low by lia.
  change (Z.land sz (not64 0xFFF)) with (Z.land sz (not64 (2 ^ 12 - 1))).
  rewrite (land_not64_low sz 12) by lia. change (2 ^ 12) with 0x1000. pose proof (Z.mod_pos_bound sz 0x1000).
  pose proof (Z.div_mod sz 0x1000).
  destruct (Z.eqb_spec (sz mod 0x1000) 0); cbn [negb]; [lia|].
  assert (sz - sz mod 0x1000 = 0x1000 * (sz / 0x1000)) as Hr by lia.
  destruct (decide (sz - sz mod 0x1000 + 0x1000 < 2 ^ 64)).
  - rewrite u64_small by lia. split; [|lia]. rewrite Hr.
    replace (0x1000 * (sz / 0x1000) + 0x1000) with ((sz / 0x1000 + 1) * 0x1000) by lia.
    apply Z.mod_mul. lia.
  - exfalso. assert (sz = 2 ^ 64 - 0x1000) by lia. subst sz. vm_compute in n. done.
Qed.

Lemma size_new_nonneg sz : is_u64 sz -> 0 <= MemoryObject_size (VariableMemoryObject_new sz) / 0x1000.
Proof.
  intros Hu. apply Z.div_pos; [|lia]. cbn [VariableMemoryObject_new MemoryObject_size].
  case_if_goal; [apply u64_range|apply Hu].
Qed.
End variable.

(** ** Copying into an object *)

(** The sizes of the copies of [length] bytes: whole pages, then the rest. *)
Definition chunk_sizes (length : Z) : list Z :=
  replicate (Z.to_nat (length / 0x1000)) 0x1000 ++
  (if length mod 0x1000 =? 0 then [] else [length mod 0x1000]).

Lemma chunk_sizes_step len :
  0x1000 <= len -> chunk_sizes len = 0x1000 :: chunk_sizes (len - 0x1000).
Proof.
  intros H. unfold chunk_sizes. remember (len - 0x1000) as r eqn:Hr.
  replace len with (r + 1 * 0x1000) by lia. rewrite Z.div_add, Z.mod_add by lia.
  rewrite Z2Nat.inj_add by (try apply Z.div_pos; lia). change (Z.to_nat 1) with 1%nat. by rewrite Nat.add_1_r.
Qed.

Lemma chunk_sizes_rest len : 0 < len < 0x1000 -> chunk_sizes len = [len].
Proof.
  intros H. unfold chunk_sizes. rewrite Z.div_small, Z.mod_small by lia. cbn.
  by destruct (Z.eqb_spec len 0); [lia|].
Qed.

Lemma PageNumberToPhysAddr_wf k pn o s :
  phys_wf k s ->
  match PageNumberToPhysAddr pn o s with
  | Ret (_, _, s') => phys_wf k s'
  | NoFuel => False
  | _ => True
  end.
Proof.
  intros Hwf. destruct o as [sz l|sz addr|sz addr]; [|done..]. cbn [PageNumberToPhysAddr].
  destruct (l !! Z.to_nat pn) as [p|]; [|done]. cbn [deref]. rewrite ret_bind. case_if_goal; [|done].
  destruct (AllocatePage s) as [[page s']| | |] eqn:Ea; try done.
  - by destruct (AllocatePage_spec k s page s' Hwf Ea).
  - destruct Hwf as [[m Hm] Hwf]. unfold AllocatePage, pmm_of in *. rewrite Hm in *.
    pose proof (Pmm_AllocatePage_spec k m Hwf) as H. by destruct (Pmm_AllocatePage m) as [[? ?]| | |].
Qed.

Lemma copy_loop_spec k fuel source len pn o s :
  phys_wf k s -> 0 <= len < 2 ^ 64 -> is_u64 source -> (Z.to_nat ((len + 0xFFF) / 0x1000) < fuel)%nat ->
  match copy_loop fuel source len pn o s with
  | Ret (cs, _, _) =>
      copy_bytes <$> cs = chunk_sizes len /\
      copy_from <$> cs = (fun i => source [+] 0x1000 * i) <$> seqZ 0 (Z.of_nat (length cs))
  | NoFuel => False
  | _ => True
  end.
Proof.
  revert source len pn o s. induction fuel as [|fuel IH]; intros source len pn o s Hwf Hl Hs Hf; [lia|].
  cbn [copy_loop]. destruct (Z.ltb_spec 0 len) as [Hpos|Hz].
  2:{ assert (len = 0) as -> by lia. done. }
  pose proof (PageNumberToPhysAddr_wf k pn o s Hwf) as Hwf1.
  destruct (PageNumberToPhysAddr pn o s) as [[[phys o1] s1]| | |]; [|done..]. rewrite ret_bind.
  set (b := if 0x1000 <=? len then 0x1000 else len). specialize (IH (source [+] 0x1000) (len [-] b) (pn [+] 1) o1 s1 Hwf1).
  assert (len [-] b = len - b /\ chunk_sizes len = b :: chunk_sizes (len - b) /\
    (Z.to_nat ((len - b + 0xFFF) / 0x1000) < fuel)%nat /\ 0 <= len - b < 2 ^ 64) as (Hb & Hc & Hf' & [Hb' Hb'']).
  { unfold b. destruct (Z.leb_spec 0x1000 len).
    - split_and!; [apply u64_small; lia|by apply chunk_sizes_step| |lia|lia].
      replace (len + 0xFFF) with (len - 0x1000 + 0xFFF + 1 * 0x1000) in Hf by lia. rewrite Z.div_add in Hf by lia.
      rewrite Z2Nat.inj_add in Hf by (try apply Z.div_pos; lia). lia.
    - rewrite Z.sub_diag. split_and!; [done|by apply chunk_sizes_rest| |lia|lia].
      assert (0 < Z.to_nat ((len + 0xFFF) / 0x1000))%nat; [|change ((0 + 0xFFF) / 0x1000) with 0; lia].
      assert (1 <= (len + 0xFFF) / 0x1000) by (apply Z.div_le_lower_bound; lia). lia. }
  rewrite Hb in *. specialize (IH (conj Hb' Hb'') (u64_range _) Hf').
  destruct (copy_loop fuel _ _ _ _ _) as [[[cs o2] s2]| | |]; [|done..]. rewrite ret_bind. destruct IH as [IH1 IH2].
  split; [cbn; by rewrite IH1, Hc|]. cbn [fmap list_fmap length copy_from]. rewrite Nat2Z.inj_succ.
  rewrite seqZ_cons by lia. rewrite Z.pred_succ. cbn [fmap list_fmap]. rewrite Z.add_0_r, u64_small by done. f_equal.
  rewrite IH2. change (Z.succ 0) with (1 + 0). rewrite <- fmap_add_seqZ, <- list_fmap_compose.
  apply list_fmap_ext. intros j x _. unfold compose. rewrite u64_add_l. f_equal. lia.
Qed.

(** ** Properties *)

(** A variable memory object gives every page number its own physical
    page, the same at every access, never a page that anything else holds,
    and its destructor gives back exactly the pages it took. *)
Theorem VariableMemoryObject_lifecycle k sz offs ps o s s' :
  phys_wf k s -> no_page_0 s -> NoDup (phys_free s) ->
  is_u64 sz -> Z.of_nat k + MemoryObject_size (VariableMemoryObject_new sz) / 0x1000 < 2 ^ 64 - 2 ->
  Forall (fun off => 0 <= off) offs ->
  access_all offs (VariableMemoryObject_new sz) s = Ret (ps, o, s') ->
  Forall2 (fun off p => p ∈ phys_free s /\ p ∉ phys_free s') offs ps /\
  (forall i j off1 off2 p1 p2, offs !! i = Some off1 -> offs !! j = Some off2 ->
     ps !! i = Some p1 -> ps !! j = Some p2 -> p1 = p2 <-> off1 / 0x1000 = off2 / 0x1000) /\
  exists s'', MemoryObject_delete o s' = Ret s'' /\ phys_free s'' ≡ₚ phys_free s.
Proof.
  intros Hwf H0 Hnd Hsz Hk Hoffs Hacc.
  destruct (access_all_spec k _ _ offs s ps o s' Hwf H0 Hacc) as (l & -> & Hlen & Hwf' & _ & Hall & Hperm).
  fold (VariableMemoryObject_new sz) in Hperm. rewrite obj_pages_new, app_nil_l in Hperm.
  assert (NoDup (obj_pages (VariableMemoryObject (MemoryObject_size (VariableMemoryObject_new sz)) l) ++ phys_free s'))
    as Hnd' by (by rewrite Hperm). cbn [obj_pages] in Hperm, Hnd'. apply NoDup_app in Hnd' as (Hndl & Hdis & _).
  split_and!.
  - eapply Forall2_impl; [exact Hall|]. cbn. intros off p [Hp Hnz].
    assert (p ∈ filter (fun p => p <> 0) l) as Hin.
    { apply list_elem_of_filter. split; [done|]. by eapply list_elem_of_lookup_2. }
    split; [rewrite <- Hperm; set_solver|by apply Hdis].
  - intros i j off1 off2 p1 p2 H1 H2 H3 H4.
    destruct (Forall2_lookup_lr _ _ _ _ _ _ Hall H1 H3) as [Hp1 Hnz1].
    destruct (Forall2_lookup_lr _ _ _ _ _ _ Hall H2 H4) as [Hp2 Hnz2].
    rewrite Forall_lookup in Hoffs. specialize (Hoffs _ _ H1) as Ho1. specialize (Hoffs _ _ H2) as Ho2.
    split; [|intros Heq; rewrite Heq in Hp1; congruence]. intros ->.
    pose proof (filter_NoDup_lookup _ l _ _ p2 Hndl Hp1 Hp2 Hnz2) as Hij.
    apply Z2Nat.inj in Hij; [done|apply Z.div_pos; lia..].
  - rewrite length_replicate in Hlen. pose proof (size_new_nonneg sz Hsz). cbn [VariableMemoryObject_new MemoryObject_size] in *.
    destruct (free_all_spec k l s' Hwf') as (s'' & H1 & _ & H2); [rewrite Hlen; lia|].
    exists s''. split; [done|]. by rewrite H2.
Qed.

(** [CopyBytesToObject] copies exactly the [length] bytes of the source,
    page by page and in order, each to the physical page of its page number;
    it stops the kernel when the bytes do not fit. *)
Theorem CopyBytesToObject_chunks k source len o s :
  phys_wf k s -> is_u64 len -> is_u64 source ->
  match CopyBytesToObject source len o s with
  | Ret (cs, _, _) =>
      len <= MemoryObject_size o /\ copy_bytes <$> cs = chunk_sizes len /\
      copy_from <$> cs = (fun i => source [+] 0x1000 * i) <$> seqZ 0 (Z.of_nat (length cs))
  | NoFuel => False
  | _ => True
  end.
Proof.
  intros Hwf Hl Hs. unfold CopyBytesToObject. destruct (Z.ltb_spec (MemoryObject_size o) len); [done|].
  pose proof (copy_loop_spec k (S (Z.to_nat (len / 0x1000) + 1)) source len 0 o s Hwf Hl Hs) as H1.
  assert ((len + 0xFFF) / 0x1000 <= len / 0x1000 + 1) as Hc.
  { unfold is_u64 in Hl. replace (len / 0x1000 + 1) with ((len + 1 * 0x1000) / 0x1000) by (rewrite Z.div_add; lia).
    apply Z.div_le_mono; lia. }
  specialize (H1 ltac:(unfold is_u64 in Hl; pose proof (Z.div_pos len 0x1000); lia)).
  by destruct (copy_loop _ _ _ _ _ _) as [[[cs o'] s']| | |].
Qed.

(** A duplicate of a view lies inside the view, as long as offset and
    length do not overflow together; anything else is refused. *)
Theorem Duplicate_view_contained sz addr offset len :
  is_u64 sz -> is_u64 addr -> 0 <= offset -> 0 <= len -> addr + sz <= 2 ^ 64 -> offset + len < 2 ^ 64 ->
  Duplicate offset len (ViewMemoryObject sz addr) =
    if decide (offset + len <= sz) then EOk (ViewMemoryObject len (u64 (addr + offset))) else EErr INVALID_ARGUMENT.
Proof.
  intros Hsz Ha Ho Hl Has Hol. unfold is_u64 in *. cbn [Duplicate]. rewrite (u64_small (offset + len)) by lia.
  destruct (Z.ltb_spec sz (offset + len)); case_decide; try lia; done.
Qed.

(** The sum [offset + length] is computed in 64 bits: for any view and
    any physical address there is a request that passes the check and yields
    a view that starts at that address. *)
Theorem Duplicate_overflow_escapes sz addr target :
  is_u64 sz -> is_u64 addr -> is_u64 target ->
  Duplicate (target [-] addr) (addr [-] target) (ViewMemoryObject sz addr)
    = EOk (ViewMemoryObject (addr [-] target) target).
Proof.
  intros Hsz Ha Ht. cbn [Duplicate]. rewrite u64_add_l, u64_add_r.
  replace (target - addr + (addr - target)) with 0 by lia.
  change (u64 0) with 0. destruct (Z.ltb_spec sz 0); [unfold is_u64 in Hsz; lia|].
  rewrite u64_add_r. replace (addr + (target - addr)) with target by lia. by rewrite (u64_small target).
Qed.

(** *** Witnesses *)
Definition sample_phys : phys := mkPhys (Some sample_pmm) (mkBoot 0 0 0) true ∅.

Lemma sample_phys_wf : phys_wf 2 sample_phys.
Proof. split; [by eexists|exact sample_pmm_wf]. Qed.

Lemma sample_phys_free : no_page_0 sample_phys /\ NoDup (phys_free sample_phys).
Proof. split; apply (bool_decide_unpack _); vm_compute; exact I. Qed.

Lemma VariableMemoryObject_lifecycle_witness :
  exists ps o s' s'', access_all [0x1008; 0; 0x1FFF] (VariableMemoryObject_new 0x1234) sample_phys = Ret (ps, o, s') /\
    ps = [0x200000; 0x201000; 0x200000] /\
    MemoryObject_delete o s' = Ret s'' /\ phys_free s'' ≡ₚ phys_free sample_phys.
Proof.
  eexists _, _, _.
  destruct (VariableMemoryObject_lifecycle 2 0x1234 [0x1008; 0; 0x1FFF] [0x200000; 0x201000; 0x200000]
    (VariableMemoryObject 0x2000 [0x201000; 0x200000]) sample_phys
    (mkPhys (Some (mkPmm (mkLL [mkBlock 0x202000 1; mkBlock 0x102000 8] 2) ll_new 2)) (mkBoot 0 0 0) true ∅)
    sample_phys_wf (proj1 sample_phys_free) (proj2 sample_phys_free)) as (_ & _ & s'' & H1 & H2).
  - vm_compute. split; [discriminate|reflexivity].
  - vm_compute. reflexivity.
  - repeat constructor; lia.
  - vm_compute. reflexivity.
  - exists s''. split; [vm_compute; reflexivity|]. split; [reflexivity|]. split; [exact H1|exact H2].
Defined.

Lemma CopyBytesToObject_chunks_witness :
  match CopyBytesToObject 0x400000 0x1234 (VariableMemoryObject_new 0x2000) sample_phys with
  | Ret (cs, _, _) => copy_bytes <$> cs = [0x1000; 0x234]
  | _ => False
  end.
Proof.
  pose proof (CopyBytesToObject_chunks 2 0x400000 0x1234 (VariableMemoryObject_new 0x2000) sample_phys
    sample_phys_wf) as H.
  vm_compute in H. vm_compute. apply H; split; discriminate || reflexivity.
Defined.

Lemma Duplicate_view_contained_witness :
  Duplicate 0x1000 0x1000 (ViewMemoryObject 0x3000 0x8000) = EOk (ViewMemoryObject 0x1000 0x9000).
Proof.
  rewrite (Duplicate_view_contained 0x3000 0x8000 0x1000 0x1000) by (unfold is_u64; lia). reflexivity.
Defined.

Lemma Duplicate_overflow_escapes_witness :
  Duplicate (0x1000 [-] 0x8000) (0x8000 [-] 0x1000) (ViewMemoryObject 0x1000 0x8000)
    = EOk (ViewMemoryObject 0x7000 0x1000).
Proof. apply (Duplicate_overflow_escapes 0x1000 0x8000 0x1000); unfold is_u64; lia. Defined.
