(* ===== verification/MappingTree.v ===== *)
(** * Memory mappings (zion/lib/memory_mapping_tree.h, memory_mapping_tree.cpp)

    The ranges of virtual addresses of an address space and the memory
    objects behind them.  [RefPtr<MemoryObject>] is a location in a shared
    store of objects, since an object can be mapped in several address spaces
    and is updated through any of them.  Everything here is proved from the
    laws of [OrderedMap]. *)

From Stdlib Require Import ZArith Lia.
From stdpp Require Import base tactics numbers list gmap fin_maps.
From S2P Require Import Prelude Status PhysMem MemObject BinaryTree OrderedMap.

Notation objects := (gmap positive MemoryObject).

Record MemoryMapping : Type := mkMapping {
  vaddr_base : Z;
  vaddr_limit : Z;
  mem_object : positive;
}.

Section ops.
Context {M : Type -> Type} `{OrderedMap M}.
Notation tree := (M MemoryMapping).
Implicit Types (t : tree) (objs : objects).

Definition object_size objs (r : positive) : res Z := o ← deref (objs !! r); Ret (MemoryObject_size o).

Definition AddInMemoryObject (vaddr : Z) (object : positive) objs t : res (ErrorCode * tree) :=
  predecessor_or ← om_Predecessor vaddr t;
  if match predecessor_or with Some p => vaddr <? vaddr_limit p | None => false end
  then Ret (ALREADY_EXISTS, t) else
  find_or ← om_Find vaddr t;
  if match find_or with Some _ => true | None => false end then Ret (ALREADY_EXISTS, t) else
  successor_or ← om_Successor vaddr t;
  sz ← object_size objs object;
  if match successor_or with Some s => vaddr_base s <? vaddr [+] sz | None => false end
  then Ret (ALREADY_EXISTS, t) else
  t' ← om_Insert vaddr (mkMapping vaddr (vaddr [+] sz) object) t;
  Ret (OK, t').

(** The [while (true)] loop that deletes the successors of [base] below [limit]. *)
Fixpoint free_loop (fuel : nat) (base limit : Z) t : res (ErrorCode * tree) :=
  match fuel with
  | O => NoFuel
  | S fuel =>
      successor_or ← om_Successor base t;
      match successor_or with
      | None => Ret (OK, t)
      | Some s =>
          if limit <=? vaddr_base s then Ret (OK, t)
          else t' ← om_Delete (vaddr_base s) t; free_loop fuel base limit t'
      end
  end.

Definition FreeMemoryRange (base limit : Z) t : res (ErrorCode * tree) :=
  if limit <=? base then Ret (INVALID_ARGUMENT, t) else
  predecessor_or ← om_Predecessor base t;
  if match predecessor_or with Some p => base <? vaddr_limit p | None => false end
  then Ret (FAILED_PRECONDITION, t) else
  last_predecessor_or ← om_Predecessor limit t;
  if match last_predecessor_or with Some p => limit <? vaddr_limit p | None => false end
  then Ret (FAILED_PRECONDITION, t) else
  find_or ← om_Find base t;
  t' ← (if match find_or with Some _ => true | None => false end then om_Delete base t else Ret t);
  free_loop (S (om_bound t)) base limit t'.

Definition GetMemoryMappingForAddr (vaddr : Z) objs t : res (option MemoryMapping) :=
  mapping_or ← om_Predecessor (vaddr [+] 1) t;
  match mapping_or with
  | None => Ret None
  | Some mapping =>
      sz ← object_size objs (mem_object mapping);
      if vaddr_base mapping [+] sz <=? vaddr then Ret None else Ret (Some mapping)
  end.

Definition GetPhysicalPageAtVaddr (vaddr : Z) objs (s : phys) t : res (ErrorOr Z * objects * phys) :=
  mapping_or ← GetMemoryMappingForAddr vaddr objs t;
  match mapping_or with
  | None => Ret (EErr NOT_FOUND, objs, s)
  | Some mapping =>
      o ← deref (objs !! mem_object mapping);
      '(page, o', s') ← PhysicalPageAtOffset (vaddr [-] vaddr_base mapping) o s;
      Ret (EOk page, <[mem_object mapping := o']> objs, s')
  end.
End ops.

(** ** The mappings of an address space *)

(** [range objs vaddr m]: the mapping [m] at [vaddr] covers [[vaddr, vaddr + size)]
    of its object, without wrapping around. *)
Definition mapping_ok (objs : objects) (vaddr : Z) (m : MemoryMapping) : Prop :=
  0 <= vaddr /\ vaddr_base m = vaddr /\
  exists o, objs !! mem_object m = Some o /\ 0 <= MemoryObject_size o /\
    vaddr_limit m = vaddr + MemoryObject_size o /\ vaddr_limit m < 2 ^ 64.

(** No two mappings overlap. *)
Definition disjoint_mappings (m : gmap Z MemoryMapping) : Prop :=
  forall a b x y, m !! a = Some x -> m !! b = Some y -> a < b -> vaddr_limit x <= b.

Record mappings_wf (objs : objects) (m : gmap Z MemoryMapping) : Prop := {
  mw_ok : map_Forall (mapping_ok objs) m;
  mw_disjoint : disjoint_mappings m;
}.

(** The range [[lo, hi)] conflicts with the mapping [x] at [a]: they overlap
    or start at the same address. *)
Definition conflicts (lo hi : Z) (a : Z) (x : MemoryMapping) : Prop :=
  a < lo < vaddr_limit x \/ a = lo \/ lo < a < hi.

Section mappings.
Context {M : Type -> Type} `{OrderedMapLaws M}.
Notation tree := (M MemoryMapping).
Implicit Types (t : tree) (m : gmap Z MemoryMapping) (objs : objects).

Definition tree_wf objs t m : Prop := om_model t m /\ mappings_wf objs m.

Lemma mappings_wf_subseteq objs m m' : m' ⊆ m -> mappings_wf objs m -> mappings_wf objs m'.
Proof.
  intros Hsub [Hok Hd]. split.
  - intros a x Hx. apply Hok. by eapply lookup_weaken.
  - intros a b x y Hx Hy Hab. eapply (Hd a b x y); [by eapply lookup_weaken..|done].
Qed.

Lemma mapping_base objs m a x : mappings_wf objs m -> m !! a = Some x -> vaddr_base x = a /\ a <= vaddr_limit x.
Proof.
  intros [Hok _] Hx. destruct (Hok _ _ Hx) as (? & ? & o & ? & ? & ? & ?). lia.
Qed.

(** The check on the predecessor alone covers every earlier mapping. *)
Lemma pred_limit objs m key o :
  mappings_wf objs m -> is_pred m key o ->
  match o with Some p => key <? vaddr_limit p | None => false end = true <->
  exists a x, m !! a = Some x /\ a < key < vaddr_limit x.
Proof.
  intros Hwf Hp. destruct o as [p|]; cbn in Hp.
  - destruct Hp as (k & Hk & Hlt & Hmax). rewrite Z.ltb_lt. split.
    + intros Hl. exists k, p. done.
    + intros (a & x & Ha & Hax & Hxl). assert (a <= k) by (apply Hmax; [by eexists|done]).
      destruct (decide (a = k)) as [->|Hne]; [congruence|].
      pose proof (mw_disjoint _ _ Hwf a k x p Ha Hk). lia.
  - split; [done|]. intros (a & x & Ha & Hax & _). assert (key <= a) by (apply Hp; by eexists). lia.
Qed.

Lemma succ_base objs m key hi o :
  mappings_wf objs m -> is_succ m key o ->
  match o with Some s => vaddr_base s <? hi | None => false end = true <->
  exists a x, m !! a = Some x /\ key < a < hi.
Proof.
  intros Hwf Hs. destruct o as [p|]; cbn in Hs.
  - destruct Hs as (k & Hk & Hlt & Hmin). destruct (mapping_base _ _ _ _ Hwf Hk) as [-> _].
    rewrite Z.ltb_lt. split.
    + intros. exists k, p. done.
    + intros (a & x & Ha & Hka & Hah). assert (k <= a) by (apply Hmin; [by eexists|done]). lia.
  - split; [done|]. intros (a & x & Ha & Hka & _). assert (a <= key) by (apply Hs; by eexists). lia.
Qed.

Lemma mappings_wf_insert objs m vaddr object o :
  mappings_wf objs m -> objs !! object = Some o -> 0 <= vaddr -> 0 <= MemoryObject_size o ->
  vaddr + MemoryObject_size o < 2 ^ 64 ->
  ~ (exists a x, m !! a = Some x /\ conflicts vaddr (vaddr + MemoryObject_size o) a x) ->
  mappings_wf objs (<[vaddr := mkMapping vaddr (vaddr + MemoryObject_size o) object]> m).
Proof.
  intros Hwf Ho Hv Hsz Hlim Hno. split.
  - apply map_Forall_insert_2; [|apply Hwf]. split; [done|]. split; [done|]. exists o. done.
  - intros a b x y Hx Hy Hab. apply lookup_insert_Some in Hx as [[<- <-]|[Hna Hx]];
      apply lookup_insert_Some in Hy as [[<- <-]|[Hnb Hy]]; cbn.
    + lia.
    + apply Z.nlt_ge. intros Hlt. apply Hno. exists b, y. split; [done|]. right. right. lia.
    + apply Z.nlt_ge. intros Hlt. apply Hno. exists a, x. split; [done|]. left. lia.
    + by apply (mw_disjoint _ _ Hwf a b x y).
Qed.

Lemma AddInMemoryObject_spec objs t m vaddr object o :
  tree_wf objs t m -> objs !! object = Some o -> 0 <= vaddr -> 0 <= MemoryObject_size o ->
  vaddr + MemoryObject_size o < 2 ^ 64 ->
  (exists t', AddInMemoryObject vaddr object objs t = Ret (OK, t') /\
     ~ (exists a x, m !! a = Some x /\ conflicts vaddr (vaddr + MemoryObject_size o) a x) /\
     tree_wf objs t' (<[vaddr := mkMapping vaddr (vaddr + MemoryObject_size o) object]> m)) \/
  (AddInMemoryObject vaddr object objs t = Ret (ALREADY_EXISTS, t) /\
     exists a x, m !! a = Some x /\ conflicts vaddr (vaddr + MemoryObject_size o) a x).
Proof.
  intros [Ht Hwf] Ho Hv Hsz Hlim. unfold AddInMemoryObject, object_size.
  destruct (om_Predecessor_ok _ t m vaddr Ht) as (p & -> & Hp). rewrite ret_bind.
  pose proof (pred_limit objs m vaddr p Hwf Hp) as Hpl. case_if_goal.
  { right. split; [done|]. destruct Hpl as [Hpl _]. destruct (Hpl eq_refl) as (a & x & ? & ?).
    exists a, x. split; [done|by left]. }
  rewrite (om_Find_ok _ t m vaddr Ht), ret_bind. case_if_goal.
  { right. split; [done|]. destruct (m !! vaddr) as [x|] eqn:Ex; [|done].
    exists vaddr, x. split; [done|]. right. by left. }
  destruct (om_Successor_ok _ t m vaddr Ht) as (s & -> & Hs). rewrite ret_bind, Ho. cbn [deref].
  rewrite !ret_bind, u64_small by lia.
  pose proof (succ_base objs m vaddr (vaddr + MemoryObject_size o) s Hwf Hs) as Hsb. case_if_goal.
  { right. split; [done|]. destruct Hsb as [Hsb _]. destruct (Hsb eq_refl) as (a & x & ? & ?).
    exists a, x. split; [done|]. by right; right. }
  left. destruct (om_Insert_ok _ t m vaddr (mkMapping vaddr (vaddr + MemoryObject_size o) object) Ht)
    as (t' & -> & Ht'). rewrite ret_bind. exists t'. split; [done|].
  assert (~ (exists a x, m !! a = Some x /\ conflicts vaddr (vaddr + MemoryObject_size o) a x)) as Hno.
  { intros (a & x & Hx & [Hc|[->|Hc]]).
    - destruct Hpl as [_ Hpl]. discriminate Hpl; by exists a, x.
    - by rewrite Hx in E0.
    - destruct Hsb as [_ Hsb]. discriminate Hsb; by exists a, x. }
  split; [done|]. split; [done|]. by apply mappings_wf_insert.
Qed.

(** The loop removes every mapping that starts above [base] and below
    [limit], in at most as many rounds as there are mappings. *)
Lemma free_loop_spec objs fuel base limit t m :
  tree_wf objs t m -> (Datatypes.length (map_to_list m) < fuel)%nat ->
  exists t' m', free_loop fuel base limit t = Ret (OK, t') /\ tree_wf objs t' m' /\ m' ⊆ m /\
    (forall a, is_Some (m' !! a) -> base < a -> limit <= a).
Proof.
  revert t m. induction fuel as [|fuel IH]; intros t m [Ht Hwf] Hf; [lia|]. cbn [free_loop].
  destruct (om_Successor_ok _ t m base Ht) as (s & -> & Hs). rewrite ret_bind.
  destruct s as [s|]; cbn in Hs.
  2:{ exists t, m. split_and!; try done. intros a Ha Hlt. specialize (Hs a Ha). lia. }
  destruct Hs as (k & Hk & Hlt & Hmin). destruct (mapping_base _ _ _ _ Hwf Hk) as [-> _].
  destruct (Z.leb_spec limit k) as [Hge|Hbelow].
  { exists t, m. split_and!; try done. intros a Ha Hba. specialize (Hmin a Ha Hba). lia. }
  destruct (om_Delete_ok _ t m k Ht) as (t1 & m1 & -> & Ht1 & Hsub). rewrite ret_bind.
  assert (m1 ⊆ m) as Hsub' by (etrans; [exact Hsub|apply delete_subseteq]).
  destruct (IH t1 m1) as (t' & m' & H1 & H2 & H3 & H4).
  { split; [done|by eapply mappings_wf_subseteq]. }
  { rewrite length_map_to_list in *. apply map_subseteq_size in Hsub.
    rewrite map_size_delete, Hk in Hsub. assert (size m <> 0%nat); [|lia].
    intros Hz%map_size_empty_inv. by subst. }
  exists t', m'. split_and!; [done|done|by etrans|done].
Qed.

(** A mapping that sticks out of [[base, limit)] on one side. *)
Definition straddles (m : gmap Z MemoryMapping) (base limit : Z) : Prop :=
  exists a x, m !! a = Some x /\ (a < base < vaddr_limit x \/ a < limit < vaddr_limit x).

Lemma FreeMemoryRange_spec objs t m base limit :
  tree_wf objs t m ->
  (limit <= base /\ FreeMemoryRange base limit t = Ret (INVALID_ARGUMENT, t)) \/
  (base < limit /\ straddles m base limit /\ FreeMemoryRange base limit t = Ret (FAILED_PRECONDITION, t)) \/
  (base < limit /\ ~ straddles m base limit /\
   exists t' m', FreeMemoryRange base limit t = Ret (OK, t') /\ tree_wf objs t' m' /\ m' ⊆ m /\
     forall a x, m' !! a = Some x -> vaddr_limit x <= base /\ a < base \/ limit <= a).
Proof.
  intros [Ht Hwf]. unfold FreeMemoryRange. destruct (Z.leb_spec limit base) as [Hle|Hlt]; [by left|right].
  destruct (om_Predecessor_ok _ t m base Ht) as (p & -> & Hp). rewrite ret_bind.
  pose proof (pred_limit objs m base p Hwf Hp) as Hpl. case_if_goal.
  { left. split_and!; [done| |done]. destruct Hpl as [Hpl _]. destruct (Hpl eq_refl) as (a & x & ? & ?).
    exists a, x. split; [done|by left]. }
  destruct (om_Predecessor_ok _ t m limit Ht) as (q & -> & Hq). rewrite ret_bind.
  pose proof (pred_limit objs m limit q Hwf Hq) as Hql. case_if_goal.
  { left. split_and!; [done| |done]. destruct Hql as [Hql _]. destruct (Hql eq_refl) as (a & x & ? & ?).
    exists a, x. split; [done|by right]. }
  right. split; [done|].
  assert (~ straddles m base limit) as Hns.
  { intros (a & x & Hx & [Hc|Hc]); [destruct Hpl as [_ Hpl]; discriminate Hpl; by exists a, x|].
    destruct Hql as [_ Hql]. discriminate Hql; by exists a, x. }
  split; [done|]. rewrite (om_Find_ok _ t m base Ht), ret_bind.
  assert (exists t1 m1, (if match m !! base with Some _ => true | None => false end then om_Delete base t else Ret t)
      = Ret t1 /\ tree_wf objs t1 m1 /\ m1 ⊆ delete base m) as (t1 & m1 & -> & Hwf1 & Hsub1).
  { destruct (m !! base) eqn:Eb.
    - destruct (om_Delete_ok _ t m base Ht) as (t1 & m1 & ? & ? & ?). exists t1, m1. split_and!; [done| |done].
      split; [done|]. eapply mappings_wf_subseteq; [|exact Hwf]. etrans; [done|apply delete_subseteq].
    - exists t, m. rewrite delete_id by done. done. }
  rewrite ret_bind. destruct (free_loop_spec objs (S (om_bound t)) base limit t1 m1 Hwf1)
    as (t' & m' & H1 & H2 & H3 & H4).
  { rewrite length_map_to_list. pose proof (om_bound_ok _ t m Ht).
    apply map_subseteq_size in Hsub1. pose proof (map_subseteq_size _ _ (delete_subseteq m base)). lia. }
  assert (m' ⊆ delete base m) as Hsub by (by etrans).
  exists t', m'. split_and!; [done|done|etrans; [exact Hsub|apply delete_subseteq]|].
  intros a x Hx. pose proof (lookup_weaken _ _ _ _ Hx Hsub) as Hx'. apply lookup_delete_Some in Hx' as [Hne Hx'].
  destruct (decide (base < a)) as [Hgt|Hng]; [right; apply H4; [by eexists|done]|].
  left. split; [|lia]. apply Z.nlt_ge. intros Hc. apply Hns. exists a, x. split; [done|]. left. lia.
Qed.

(** Looking an address up finds the mapping that covers it. *)
Lemma GetMemoryMappingForAddr_spec objs t m vaddr :
  tree_wf objs t m -> 0 <= vaddr < 2 ^ 64 - 1 ->
  (exists a x, GetMemoryMappingForAddr vaddr objs t = Ret (Some x) /\ m !! a = Some x /\ a <= vaddr < vaddr_limit x) \/
  (GetMemoryMappingForAddr vaddr objs t = Ret None /\ forall a x, m !! a = Some x -> ~ (a <= vaddr < vaddr_limit x)).
Proof.
  intros [Ht Hwf] Hv. unfold GetMemoryMappingForAddr, object_size. rewrite u64_small by lia.
  destruct (om_Predecessor_ok _ t m (vaddr + 1) Ht) as (p & -> & Hp). rewrite ret_bind.
  destruct p as [x|]; cbn in Hp.
  2:{ right. split; [done|]. intros a x Hx Hc. specialize (Hp a ltac:(by eexists)). lia. }
  destruct Hp as (a & Ha & Hlt & Hmax). destruct (mw_ok _ _ Hwf a x Ha) as (Ha0 & Hb & o & Ho & Hsz & Hl & Hl').
  rewrite Ho. cbn [deref]. rewrite !ret_bind, Hb, u64_small by lia.
  destruct (Z.leb_spec (a + MemoryObject_size o) vaddr) as [Hout|Hin].
  - right. split; [done|]. intros b y Hy Hc. assert (b <= a) by (apply Hmax; [by eexists|lia]).
    destruct (decide (a = b)) as [->|Hne]; [assert (x = y) by congruence; subst; lia|].
    pose proof (mw_disjoint _ _ Hwf b a y x Hy Ha). lia.
  - left. exists a, x. split_and!; [done|done|lia|lia].
Qed.
End mappings.

(** ** Properties of the kernel's mapping tree *)
Notation MemoryMappingTree := (BinaryTree MemoryMapping).

(** C36.  [AddInMemoryObject] maps an object exactly when the new range
    neither overlaps an existing mapping nor starts where one starts, and the
    mappings stay disjoint; otherwise it reports ALREADY_EXISTS and changes
    nothing.  (The range must not wrap around the address space.) *)
Theorem AddInMemoryObject_keeps_disjoint objs (t : MemoryMappingTree) m vaddr object o :
  tree_wf objs t m -> objs !! object = Some o -> 0 <= vaddr -> 0 <= MemoryObject_size o ->
  vaddr + MemoryObject_size o < 2 ^ 64 ->
  (exists t', AddInMemoryObject vaddr object objs t = Ret (OK, t') /\
     ~ (exists a x, m !! a = Some x /\ conflicts vaddr (vaddr + MemoryObject_size o) a x) /\
     tree_wf objs t' (<[vaddr := mkMapping vaddr (vaddr + MemoryObject_size o) object]> m)) \/
  (AddInMemoryObject vaddr object objs t = Ret (ALREADY_EXISTS, t) /\
     exists a x, m !! a = Some x /\ conflicts vaddr (vaddr + MemoryObject_size o) a x).
Proof. apply AddInMemoryObject_spec. Qed.

(** [FreeMemoryRange] terminates; it refuses an empty range and a range
    that cuts a mapping in two, without changing anything, and otherwise no
    mapping that meets the range survives, no mapping appears, and the rest
    stays well formed. *)
Theorem FreeMemoryRange_clears objs (t : MemoryMappingTree) m base limit :
  tree_wf objs t m ->
  (limit <= base /\ FreeMemoryRange base limit t = Ret (INVALID_ARGUMENT, t)) \/
  (base < limit /\ straddles m base limit /\ FreeMemoryRange base limit t = Ret (FAILED_PRECONDITION, t)) \/
  (base < limit /\ ~ straddles m base limit /\
   exists t' m', FreeMemoryRange base limit t = Ret (OK, t') /\ tree_wf objs t' m' /\ m' ⊆ m /\
     forall a x, m' !! a = Some x -> vaddr_limit x <= base /\ a < base \/ limit <= a).
Proof. apply FreeMemoryRange_spec. Qed.

Lemma two_children_found {V} (t : BinaryTree V) m key :
  bt_model t m -> two_children key t -> is_Some (m !! key).
Proof.
  intros Ht. pose proof (om_Find_ok _ t m key Ht) as Hf. cbn in Hf. unfold Find in Hf. unfold two_children.
  destruct (FindOrInsertionParent key t) as [[p|]| | |]; try done. rewrite ret_bind in Hf.
  destruct (bt_nodes t !! p) as [n|]; [|done]. cbn [deref] in Hf. rewrite ret_bind in Hf.
  intros [Hk _]. rewrite Hk, Z.eqb_refl in Hf. injection Hf as Hf. by eexists.
Qed.

(** Freeing exactly the range of one mapping drops mappings of lower,
    unrelated addresses as well whenever the mapping's node has two children,
    through [BinaryTree::Delete]. *)
Theorem FreeMemoryRange_drops_neighbours objs (t : MemoryMappingTree) m base limit :
  tree_wf objs t m -> base < limit -> ~ straddles m base limit -> two_children base t ->
  exists t' m' k, FreeMemoryRange base limit t = Ret (OK, t') /\ tree_wf objs t' m' /\
    k < base /\ is_Some (m !! k) /\ m' !! k = None.
Proof.
  intros [Ht Hwf] Hlt Hns Htwo. pose proof (two_children_found t m base Ht Htwo) as [x Hx].
  unfold FreeMemoryRange. destruct (Z.leb_spec limit base) as [|_]; [lia|].
  destruct (om_Predecessor_ok _ t m base Ht) as (p & -> & Hp). rewrite ret_bind.
  pose proof (pred_limit objs m base p Hwf Hp) as Hpl. case_if_goal.
  { destruct Hns. destruct Hpl as [Hpl _]. destruct (Hpl eq_refl) as (a & y & ? & ?). exists a, y. eauto. }
  destruct (om_Predecessor_ok _ t m limit Ht) as (q & -> & Hq). rewrite ret_bind.
  pose proof (pred_limit objs m limit q Hwf Hq) as Hql. case_if_goal.
  { destruct Hns. destruct Hql as [Hql _]. destruct (Hql eq_refl) as (a & y & ? & ?). exists a, y. eauto. }
  rewrite (om_Find_ok _ t m base Ht), ret_bind, Hx. destruct Ht as (es & He & <-).
  destruct (Delete_entries t es base He) as (t1 & es1 & Hd & He1 & Hsub & _ & Hlost).
  destruct (Hlost Htwo) as (k & Hk & Hin & Hout). cbn [om_Delete BinaryTree_OrderedMap]. rewrite Hd, ret_bind.
  assert (to_map es1 ⊆ to_map es) as Hsub1.
  { destruct (bt_Delete_ok t (to_map es) base) as (t2 & m2 & Hd2 & (es2 & He2 & <-) & Hs2); [by exists es|].
    rewrite Hd in Hd2. injection Hd2 as <-. apply map_subseteq_spec. intros a y Ha.
    apply to_map_elem in Ha; [|by eapply entries_sorted]. apply to_map_elem; [by eapply entries_sorted|].
    eapply elem_of_sublist; [exact Ha|]. etrans; [exact Hsub|apply sublist_filter]. }
  destruct (free_loop_spec objs (S (om_bound t)) base limit t1 (to_map es1)) as (t' & m' & H1 & H2 & H3 & _).
  { split; [by exists es1|]. by eapply mappings_wf_subseteq. }
  { assert (bt_model t (to_map es)) as Hm by (by exists es). rewrite length_map_to_list.
    pose proof (om_bound_ok _ t (to_map es) Hm). apply map_subseteq_size in Hsub1. lia. }
  exists t', m', k. split_and!; [done|done|done| |].
  - apply not_eq_None_Some. intros Hn. by apply not_elem_of_list_to_map_2 in Hn.
  - apply lookup_weaken_None with (to_map es1); [|done]. by apply to_map_notin.
Qed.

(** An address is resolved through the mapping that covers it: the
    lookup never fails the object's bounds check, returns the object's page
    at the offset into the mapping, and reports NOT_FOUND exactly when no
    mapping covers the address. *)
Theorem GetPhysicalPageAtVaddr_resolves objs s (t : MemoryMappingTree) m vaddr :
  tree_wf objs t m -> 0 <= vaddr < 2 ^ 64 - 1 ->
  (exists a x o, m !! a = Some x /\ a <= vaddr < vaddr_limit x /\ objs !! mem_object x = Some o /\
     vaddr - a < MemoryObject_size o /\
     GetPhysicalPageAtVaddr vaddr objs s t =
       '(page, o', s') ← PageNumberToPhysAddr ((vaddr - a) / 0x1000) o s;
       Ret (EOk page, <[mem_object x := o']> objs, s')) \/
  ((forall a x, m !! a = Some x -> ~ (a <= vaddr < vaddr_limit x)) /\
   GetPhysicalPageAtVaddr vaddr objs s t = Ret (EErr NOT_FOUND, objs, s)).
Proof.
  intros Hwf Hv. unfold GetPhysicalPageAtVaddr.
  destruct (GetMemoryMappingForAddr_spec objs t m vaddr Hwf Hv) as [(a & x & -> & Hx & Hax)|[-> Hno]].
  - left. destruct Hwf as [_ Hwf]. destruct (mw_ok _ _ Hwf a x Hx) as (Ha0 & Hb & o & Ho & Hsz & Hl & Hl').
    exists a, x, o. split_and!; try done; [lia..|]. rewrite ret_bind, Ho. cbn [deref]. rewrite ret_bind, Hb.
    rewrite u64_small by lia. unfold PhysicalPageAtOffset.
    destruct (Z.ltb_spec (MemoryObject_size o) (vaddr - a)); [lia|done].
  - right. done.
Qed.

(** *** Witnesses *)
Definition sample_objs : objects := {[ 1%positive := VariableMemoryObject_new 0x2000 ]}.

Definition map_all (vs : list Z) (t : MemoryMappingTree) : res MemoryMappingTree :=
  foldl (fun (r : res MemoryMappingTree) v =>
    t ← r; '(_, t') ← AddInMemoryObject (M:=BinaryTree) v 1 sample_objs t; Ret t') (Ret t) vs.

Definition sample_tree : MemoryMappingTree :=
  Eval vm_compute in match map_all [0x5000; 0x1000; 0x8000] bt_new with Ret t => t | _ => bt_new end.

Definition sample_map : gmap Z MemoryMapping :=
  list_to_map [(0x1000, mkMapping 0x1000 0x3000 1); (0x5000, mkMapping 0x5000 0x7000 1);
               (0x8000, mkMapping 0x8000 0xA000 1)].

Lemma sample_map_cases a x :
  sample_map !! a = Some x ->
  a = 0x1000 /\ x = mkMapping 0x1000 0x3000 1 \/ a = 0x5000 /\ x = mkMapping 0x5000 0x7000 1 \/
  a = 0x8000 /\ x = mkMapping 0x8000 0xA000 1.
Proof. intros Hx%elem_of_list_to_map_2. rewrite !elem_of_cons, elem_of_nil in Hx. naive_solver. Qed.

Lemma sample_tree_wf : tree_wf sample_objs sample_tree sample_map.
Proof.
  split.
  - exists [(0x1000, mkMapping 0x1000 0x3000 1); (0x5000, mkMapping 0x5000 0x7000 1);
            (0x8000, mkMapping 0x8000 0xA000 1)]. split; [|done].
    exists (Node 1 (Node 2 Leaf 0x1000 (mkMapping 0x1000 0x3000 1) Leaf) 0x5000 (mkMapping 0x5000 0x7000 1)
      (Node 3 Leaf 0x8000 (mkMapping 0x8000 0xA000 1) Leaf)). split; [|done].
    split; [done|by vm_compute; split_and!|by apply (bool_decide_unpack _)|]. repeat constructor.
  - split.
    + intros a x Hx. apply sample_map_cases in Hx as [[-> ->]|[[-> ->]|[-> ->]]];
        (split; [lia|]; split; [done|]; exists (VariableMemoryObject_new 0x2000); by vm_compute).
    + intros a b x y Hx Hy. apply sample_map_cases in Hx as [[-> ->]|[[-> ->]|[-> ->]]];
        apply sample_map_cases in Hy as [[-> ->]|[[-> ->]|[-> ->]]]; cbn; lia.
Qed.

Lemma AddInMemoryObject_keeps_disjoint_witness :
  exists t', AddInMemoryObject 0x3000 1 sample_objs sample_tree = Ret (OK, t') /\
    tree_wf sample_objs t' (<[0x3000 := mkMapping 0x3000 0x5000 1]> sample_map).
Proof.
  destruct (AddInMemoryObject_keeps_disjoint sample_objs sample_tree sample_map 0x3000 1
    (VariableMemoryObject_new 0x2000) sample_tree_wf) as [(t' & H1 & _ & H2)|[H1 _]].
  - reflexivity.
  - lia.
  - vm_compute. discriminate.
  - vm_compute. reflexivity.
  - exists t'. split; [exact H1|exact H2].
  - vm_compute in H1. discriminate H1.
Defined.

Lemma FreeMemoryRange_clears_witness :
  exists t', FreeMemoryRange 0x8000 0xA000 sample_tree = Ret (OK, t') /\
    exists m', tree_wf sample_objs t' m' /\ m' ⊆ sample_map /\ m' !! 0x8000 = None.
Proof.
  destruct (FreeMemoryRange_clears sample_objs sample_tree sample_map 0x8000 0xA000 sample_tree_wf)
    as [[H _]|[(_ & _ & H)|(_ & _ & t' & m' & H1 & H2 & H3 & H4)]].
  - lia.
  - vm_compute in H. discriminate H.
  - exists t'. split; [exact H1|]. exists m'. split; [exact H2|]. split; [exact H3|].
    destruct (m' !! 0x8000) as [x|] eqn:Ex; [|reflexivity]. destruct (H4 _ _ Ex); lia.
Defined.

Lemma FreeMemoryRange_drops_neighbours_witness :
  exists t' m' k, FreeMemoryRange 0x5000 0x7000 sample_tree = Ret (OK, t') /\
    tree_wf sample_objs t' m' /\ k < 0x5000 /\ is_Some (sample_map !! k) /\ m' !! k = None.
Proof.
  apply (FreeMemoryRange_drops_neighbours sample_objs sample_tree sample_map 0x5000 0x7000 sample_tree_wf).
  - lia.
  - intros (a & x & Hx & Hc). apply sample_map_cases in Hx as [[-> ->]|[[-> ->]|[-> ->]]]; cbn in Hc; lia.
  - vm_compute. split; [reflexivity|split; discriminate].
Defined.

Lemma GetPhysicalPageAtVaddr_resolves_witness :
  exists objs' s', GetPhysicalPageAtVaddr 0x6123 sample_objs sample_phys sample_tree = Ret (EOk 0x200000, objs', s').
Proof.
  destruct (GetPhysicalPageAtVaddr_resolves sample_objs sample_phys sample_tree sample_map 0x6123 sample_tree_wf)
    as [(a & x & o & Hx & Ha & Ho & _ & ->)|[H _]].
  - lia.
  - apply sample_map_cases in Hx as [[-> ->]|[[-> ->]|[-> ->]]]; cbn in Ha; try lia.
    vm_compute in Ho. injection Ho as <-. eexists _, _. vm_compute. reflexivity.
  - destruct (H 0x5000 (mkMapping 0x5000 0x7000 1)); [reflexivity|cbn; lia].
Defined.
