(* ===== verification/Paging.v ===== *)
(** * Page tables (zion/memory/paging_util.cpp)

    The four-level walk, mapping and unmapping of pages over the words of
    physical memory.  The code reaches the word at physical address [x]
    through the direct map at [hhdm + x], with [hhdm] page aligned, so entry
    addresses below are physical. *)

From Stdlib Require Import ZArith Lia.
From stdpp Require Import base tactics numbers list gmap.
From S2P Require Import Prelude Status LinkedList PhysMem MemObject.

Definition PRESENT_BIT : Z := 0x1.
Definition READ_WRITE_BIT : Z := 0x2.
Definition USER_MODE_BIT : Z := 0x4.
Definition PML_OFFSET : Z := 39.
Definition PDP_OFFSET : Z := 30.
Definition PD_OFFSET : Z := 21.
Definition PT_OFFSET : Z := 12.

(** A word read or written through a [uint64_t*]. *)
Definition rd (w : gmap Z Z) (a : Z) : Z := default 0 (w !! a).
Definition wr (a v : Z) (s : phys) : phys :=
  mkPhys (gPmm s) (gBootstrap s) (gBootstrapEnabled s) (<[a := v]> (words s)).

Definition present (e : Z) : bool := negb (Z.land e PRESENT_BIT =? 0).

Definition ShiftForEntryIndexing (addr offset : Z) : Z :=
  let addr := Z.land addr (not64 0xFFFF000000000000) in
  let addr := Z.shiftr addr offset in
  let addr := u64 (Z.shiftl addr 3) in
  Z.land addr 0xFF8.

Definition Pml4Entry (cr3 addr : Z) : Z := Z.lor cr3 (ShiftForEntryIndexing addr PML_OFFSET).
Definition PageDirectoryPointerEntry (pdp_phys addr : Z) : Z :=
  Z.lor (Z.land pdp_phys (not64 0xFFF)) (ShiftForEntryIndexing addr PDP_OFFSET).
Definition PageDirectoryEntry (pd_phys addr : Z) : Z :=
  Z.lor (Z.land pd_phys (not64 0xFFF)) (ShiftForEntryIndexing addr PD_OFFSET).
Definition PageTableEntry (pt_phys addr : Z) : Z :=
  Z.lor (Z.land pt_phys (not64 0xFFF)) (ShiftForEntryIndexing addr PT_OFFSET).

Definition PagePhysIfResident (cr3 virt : Z) (w : gmap Z Z) : Z :=
  let pml4_entry := Pml4Entry cr3 virt in
  if negb (present (rd w pml4_entry)) then 0 else
  let pdp_entry := PageDirectoryPointerEntry (rd w pml4_entry) virt in
  if negb (present (rd w pdp_entry)) then 0 else
  let pd_entry := PageDirectoryEntry (rd w pdp_entry) virt in
  if negb (present (rd w pd_entry)) then 0 else
  let pt_entry := PageTableEntry (rd w pd_entry) virt in
  if negb (present (rd w pt_entry)) then 0 else
  Z.land (rd w pt_entry) (not64 0xFFF).

(** One [if (!( *entry & PRESENT_BIT)) { ... }] step of [MapPage]. *)
Definition ensure_table (entry access_bits : Z) (s : phys) : res phys :=
  if negb (present (rd (words s) entry)) then
    '(page, s) ← AllocateAndZeroPage s;
    Ret (wr entry (Z.lor page access_bits) s)
  else Ret s.

Definition access_bits_for (vaddr : Z) : Z :=
  let higher_half := 0xffff800000000000 in
  if negb (Z.land vaddr higher_half =? higher_half)
  then Z.lor (Z.lor PRESENT_BIT READ_WRITE_BIT) USER_MODE_BIT
  else Z.lor PRESENT_BIT READ_WRITE_BIT.

Definition MapPage (cr3 vaddr paddr : Z) (s : phys) : res phys :=
  let vaddr := PageAlign vaddr in
  let paddr := PageAlign paddr in
  let access_bits := access_bits_for vaddr in
  let pml4_entry := Pml4Entry cr3 vaddr in
  s ← ensure_table pml4_entry access_bits s;
  let pdp_entry := PageDirectoryPointerEntry (rd (words s) pml4_entry) vaddr in
  s ← ensure_table pdp_entry access_bits s;
  let pd_entry := PageDirectoryEntry (rd (words s) pdp_entry) vaddr in
  s ← ensure_table pd_entry access_bits s;
  let pt_entry := PageTableEntry (rd (words s) pd_entry) vaddr in
  if negb (present (rd (words s) pt_entry)) then Ret (wr pt_entry (Z.lor paddr access_bits) s)
  else Panic.

(** [UnmapPage]; the [invlpg] for the current address space has no effect on
    the tables. *)
Definition UnmapPage (cr3 vaddr : Z) (s : phys) : phys :=
  let w := words s in
  let pml4_entry := Pml4Entry cr3 vaddr in
  if negb (present (rd w pml4_entry)) then s else
  let pdp_entry := PageDirectoryPointerEntry (rd w pml4_entry) vaddr in
  if negb (present (rd w pdp_entry)) then s else
  let pd_entry := PageDirectoryEntry (rd w pdp_entry) vaddr in
  if negb (present (rd w pd_entry)) then s else
  let pt_entry := PageTableEntry (rd w pd_entry) vaddr in
  if negb (present (rd w pt_entry)) then s else
  wr pt_entry (Z.land (rd w pt_entry) (not64 PRESENT_BIT)) s.

Definition AllocatePageIfNecessary (cr3 addr : Z) (s : phys) : res (Z * phys) :=
  let p := PagePhysIfResident cr3 addr (words s) in
  if negb (p =? 0) then Ret (p, s) else
  '(p, s) ← AllocatePage s;
  s ← MapPage cr3 addr p s;
  Ret (p, s).

(** The [while (addr < max)] loop of [EnsureResident]. *)
Fixpoint ensure_loop (fuel : nat) (cr3 addr max : Z) (s : phys) : res phys :=
  match fuel with
  | O => NoFuel
  | S fuel =>
      if addr <? max then
        '(_, s) ← AllocatePageIfNecessary cr3 addr s;
        ensure_loop fuel cr3 (addr [+] 0x1000) max s
      else Ret s
  end.

Definition EnsureResident (cr3 addr size : Z) (s : phys) : res phys :=
  let max := addr [+] size in
  let addr := PageAlign addr in
  ensure_loop (S (Z.to_nat ((max - addr) / 0x1000 + 1))) cr3 addr max s.

Definition Pml4Index (addr : Z) : Z := Z.land (Z.shiftr addr PML_OFFSET) 0x1FF.

(** [CleanupPageStructure]: the recursion follows [level]; the loop reads the
    entries of the table as it goes. *)
Fixpoint CleanupPageStructure (level : nat) (struct_phys : Z) (s : phys) : res phys :=
  s ← match level with
      | O => Ret s
      | S level =>
          foldl (fun r i =>
            s ← r;
            let e := rd (words s) (struct_phys [+] 8 * i) in
            if present e then CleanupPageStructure level (Z.land e (not64 0xFFF)) s else Ret s)
            (Ret s) (seqZ 0 256)
      end;
  FreePage struct_phys s.

Definition CleanupPml4 (pml4 : Z) (s : phys) : res phys :=
  s ← foldl (fun r i =>
        s ← r;
        let e := rd (words s) (pml4 [+] 8 * i) in
        if present e then CleanupPageStructure 2 (Z.land e (not64 0xFFF)) s else Ret s)
        (Ret s) (seqZ 0 128);
  FreePage pml4 s.

(** The kernel's own entries are shared with every address space. *)
Definition InitializePml4 (curr_cr3 hhdm pml4 : Z) (s : phys) : phys :=
  let kernel_addr := 0xFFFFFFFF80000000 in
  let s := wr (pml4 [+] 8 * Pml4Index kernel_addr) (rd (words s) (Pml4Entry curr_cr3 kernel_addr)) s in
  wr (pml4 [+] 8 * Pml4Index hhdm) (rd (words s) (Pml4Entry curr_cr3 hhdm)) s.

(** ** The tree of tables *)

(** The index of [addr] in the table selected by bit offset [off]. *)
Definition idx (off addr : Z) : Z := (addr mod 2 ^ 48 / 2 ^ off) mod 512.

Definition vpath (v : Z) : list Z := [idx 39 v; idx 30 v; idx 21 v; idx 12 v].

Definition entry_page (e : Z) : Z := Z.land e (not64 0xFFF).

(** The table reached from table [p] along the indices [path]. *)
Fixpoint resolve (w : gmap Z Z) (p : Z) (path : list Z) : option Z :=
  match path with
  | [] => Some p
  | i :: path =>
      let e := rd w (p + 8 * i) in
      if present e then resolve w (entry_page e) path else None
  end.

Definition is_idx (i : Z) : Prop := 0 <= i < 512.
Definition page_aligned (p : Z) : Prop := is_u64 p /\ p mod 0x1000 = 0.

Lemma shift_idx addr off :
  is_u64 addr -> 12 <= off -> ShiftForEntryIndexing addr off = 8 * idx off addr.
Proof.
  intros Ha Ho.
  unfold ShiftForEntryIndexing, idx. change (not64 0xFFFF000000000000) with (2 ^ 48 - 1).
  rewrite land_low by lia. rewrite Z.shiftr_div_pow2 by lia.
  set (y := addr mod 2 ^ 48 / 2 ^ off).
  assert (0 <= y < 2 ^ 36) as Hy.
  { pose proof (Z.mod_pos_bound addr (2 ^ 48)). assert (2 ^ 12 <= 2 ^ off) by (apply Z.pow_le_mono_r; lia).
    split; [apply Z.div_pos; lia|]. apply Z.div_lt_upper_bound; [lia|].
    apply Z.lt_le_trans with (2 ^ 12 * 2 ^ 36); [lia|]. nia. }
  rewrite u64_small by (rewrite Z.shiftl_mul_pow2; lia).
  change 0xFF8 with (Z.shiftl (2 ^ 9 - 1) 3). rewrite <- Z.shiftl_land, land_low by lia.
  rewrite Z.shiftl_mul_pow2 by lia. change (2 ^ 9) with 512. lia.
Qed.

Lemma idx_range off addr : is_idx (idx off addr).
Proof. apply Z.mod_pos_bound. lia. Qed.

Lemma lor_aligned p x : p mod 0x1000 = 0 -> 0 <= x < 0x1000 -> Z.lor p x = p + x.
Proof.
  intros Hp Hx. pose proof (Z.add_lor_land p x) as H.
  replace (Z.land p x) with 0 in H; [lia|].
  rewrite <- (Z.mod_small x (2 ^ 12)) by lia. rewrite <- land_low by lia.
  rewrite (Z.land_comm x), Z.land_assoc, land_low by lia. change (2 ^ 12) with 0x1000. by rewrite Hp, Z.land_0_l.
Qed.

Lemma entry_page_spec e : is_u64 e -> entry_page e = e - e mod 0x1000.
Proof. intros H. apply (land_not64_low e 12); [lia|exact H]. Qed.

Lemma entry_page_aligned e : is_u64 e -> page_aligned (entry_page e).
Proof.
  intros He. rewrite entry_page_spec by done. pose proof (Z.mod_pos_bound e 0x1000).
  pose proof (Z.div_mod e 0x1000). unfold page_aligned, is_u64 in *.
  split; [pose proof (Z.mod_le e 0x1000); lia|].
  replace (e - e mod 0x1000) with (e / 0x1000 * 0x1000) by lia. apply Z.mod_mul. lia.
Qed.

Lemma access_bits_range v : 0 <= access_bits_for v < 0x1000 /\ access_bits_for v mod 2 = 1.
Proof. unfold access_bits_for. case_if_goal; vm_compute; split_and!; congruence. Qed.

Lemma new_entry page v :
  page_aligned page ->
  let e := Z.lor page (access_bits_for v) in
  is_u64 e /\ present e = true /\ entry_page e = page.
Proof.
  intros [Hu Hp]. cbv zeta. destruct (access_bits_range v) as [Hb Hodd].
  rewrite lor_aligned by done. pose proof (Z.div_mod page 0x1000).
  assert (is_u64 (page + access_bits_for v)) as He.
  { unfold is_u64 in *. split; [lia|]. assert (page / 0x1000 < 2 ^ 52); [|lia].
    apply Z.div_lt_upper_bound; lia. }
  split_and!; [done| |].
  - unfold present, PRESENT_BIT. change 1 with (2 ^ 1 - 1). rewrite land_low by lia. change (2 ^ 1) with 2.
    replace (page + access_bits_for v) with (access_bits_for v + (page / 0x1000 * 0x800) * 2) by lia.
    rewrite Z.mod_add by lia. by rewrite Hodd.
  - rewrite entry_page_spec by done. rewrite Z.add_mod, Hp, Z.add_0_l, Z.mod_mod by lia.
    rewrite (Z.mod_small (access_bits_for v)) by lia. lia.
Qed.

Lemma aligned_add_inj p q x y :
  p mod 0x1000 = 0 -> q mod 0x1000 = 0 -> 0 <= x < 0x1000 -> 0 <= y < 0x1000 ->
  p + x = q + y -> p = q /\ x = y.
Proof. intros Hp Hq Hx Hy H. pose proof (Z.div_mod p 0x1000). pose proof (Z.div_mod q 0x1000). lia. Qed.

(** The four entry addresses of a walk. *)
Lemma entry_addr p v off :
  is_u64 v -> p mod 0x1000 = 0 -> 12 <= off -> Z.lor p (ShiftForEntryIndexing v off) = p + 8 * idx off v.
Proof.
  intros Hv Hp Ho. rewrite shift_idx by done. pose proof (idx_range off v) as [? ?]. apply lor_aligned; [done|lia].
Qed.

(** ** Address spaces that are trees *)
Record tables_wf (k : nat) (cr3 : Z) (s : phys) : Prop := {
  tw_phys : phys_wf k s;
  tw_words : map_Forall (fun _ v => is_u64 v) (words s);
  tw_cr3 : page_aligned cr3;
  tw_free : NoDup (phys_free s) /\ Forall page_aligned (phys_free s);
  tw_tables_used : forall path p, (length path <= 3)%nat -> Forall is_idx path ->
    resolve (words s) cr3 path = Some p -> p ∉ phys_free s;
  tw_tree : forall path path' p, (length path <= 3)%nat -> (length path' <= 3)%nat ->
    Forall is_idx path -> Forall is_idx path' ->
    resolve (words s) cr3 path = Some p -> resolve (words s) cr3 path' = Some p -> path = path';
}.

Section walk.
Implicit Types (w : gmap Z Z) (s : phys) (path : list Z).

Lemma rd_u64 w a : map_Forall (fun _ v => is_u64 v) w -> is_u64 (rd w a).
Proof. intros H. unfold rd. destruct (w !! a) eqn:E; [by apply (H a)|done]. Qed.

Lemma resolve_app w p path path' :
  resolve w p (path ++ path') = q ← resolve w p path; resolve w q path'.
Proof.
  revert p. induction path as [|i path IH]; intros p; cbn [resolve app]; [done|].
  destruct (present _); [apply IH|done].
Qed.

Lemma resolve_snoc w p path i :
  resolve w p (path ++ [i]) =
    q ← resolve w p path; if present (rd w (q + 8 * i)) then Some (entry_page (rd w (q + 8 * i))) else None.
Proof. by rewrite resolve_app. Qed.

Lemma resolve_aligned w p path q :
  map_Forall (fun _ v => is_u64 v) w -> page_aligned p -> resolve w p path = Some q -> page_aligned q.
Proof.
  intros Hw Hp. revert q. induction path as [|i path IH] using rev_ind; intros q.
  - cbn. by intros [= <-].
  - rewrite resolve_snoc. destruct (resolve w p path) as [r|]; [|done]. cbn.
    case_if_goal; [|done]. intros [= <-]. by apply entry_page_aligned, rd_u64.
Qed.

(** The translation of a page: the entry at the end of its path. *)
Definition leaf w (cr3 : Z) path : option Z :=
  match path with
  | [i1; i2; i3; i4] =>
      q ← resolve w cr3 [i1; i2; i3];
      if present (rd w (q + 8 * i4)) then Some (entry_page (rd w (q + 8 * i4))) else None
  | _ => None
  end.

Lemma PagePhys_leaf w cr3 v :
  map_Forall (fun _ v => is_u64 v) w -> page_aligned cr3 -> is_u64 v ->
  PagePhysIfResident cr3 v w = default 0 (leaf w cr3 (vpath v)).
Proof.
  intros Hw [_ Hc] Hv. unfold PagePhysIfResident, leaf, vpath. cbn [resolve].
  unfold Pml4Entry, PageDirectoryPointerEntry, PageDirectoryEntry, PageTableEntry.
  fold (entry_page). rewrite entry_addr by (done || unfold PML_OFFSET; lia).
  change PML_OFFSET with 39. destruct (present (rd w (cr3 + 8 * idx 39 v))); [cbn [negb]|done].
  set (e1 := rd w (cr3 + 8 * idx 39 v)). fold (entry_page e1).
  destruct (entry_page_aligned e1 (rd_u64 w _ Hw)) as [_ H1].
  rewrite entry_addr by (done || unfold PDP_OFFSET; lia). change PDP_OFFSET with 30.
  destruct (present (rd w (entry_page e1 + 8 * idx 30 v))); [cbn [negb]|done].
  set (e2 := rd w (entry_page e1 + 8 * idx 30 v)). fold (entry_page e2).
  destruct (entry_page_aligned e2 (rd_u64 w _ Hw)) as [_ H2].
  rewrite entry_addr by (done || unfold PD_OFFSET; lia). change PD_OFFSET with 21.
  destruct (present (rd w (entry_page e2 + 8 * idx 21 v))); [cbn [negb]|done].
  set (e3 := rd w (entry_page e2 + 8 * idx 21 v)). fold (entry_page e3).
  destruct (entry_page_aligned e3 (rd_u64 w _ Hw)) as [_ H3].
  rewrite entry_addr by (done || unfold PT_OFFSET; lia). change PT_OFFSET with 12. cbn [mbind option_bind].
  by destruct (present (rd w (entry_page e3 + 8 * idx 12 v))).
Qed.

(** Memory after a new table [q] was zeroed and entry [i] of table [p] was
    set to [e]. *)
Record installed w w' (p i q e : Z) : Prop := {
  in_entry : rd w' (p + 8 * i) = e;
  in_zero : forall j, is_idx j -> rd w' (q + 8 * j) = 0;
  in_other : forall p' j, page_aligned p' -> is_idx j -> p' <> q -> ~ (p' = p /\ j = i) ->
    rd w' (p' + 8 * j) = rd w (p' + 8 * j);
}.

Lemma resolve_installed k cr3 s w' path p i q e :
  tables_wf k cr3 s -> installed (words s) w' p i q e ->
  (length path < 3)%nat -> Forall is_idx path -> is_idx i ->
  resolve (words s) cr3 path = Some p -> present (rd (words s) (p + 8 * i)) = false ->
  q ∈ phys_free s -> present e = true -> entry_page e = q ->
  forall path', (length path' <= 3)%nat -> Forall is_idx path' ->
    resolve w' cr3 path' = if decide (path' = path ++ [i]) then Some q else resolve (words s) cr3 path'.
Proof.
  intros Hwf [Hie Hiz Hio] Hlen Hpath Hi Hp Hnp Hq Hpe Hee.
  induction path' as [|j path' IH] using rev_ind; intros Hlen' Hidx.
  { rewrite decide_False; [done|]. by destruct path. }
  rewrite length_app in Hlen'. cbn in Hlen'. apply Forall_app in Hidx as [Hidx [Hj _]%Forall_cons].
  specialize (IH ltac:(lia) Hidx). rewrite !resolve_snoc, IH.
  destruct (decide (path' = path ++ [i])) as [->|Hne].
  - cbn [mbind option_bind]. rewrite Hiz by done. cbn [present Z.land negb Z.eqb]. rewrite decide_False.
    2:{ intros Heq%(f_equal length). rewrite !length_app in Heq. cbn in Heq. lia. }
    rewrite resolve_snoc, Hp. cbn [mbind option_bind]. by rewrite Hnp.
  - destruct (resolve (words s) cr3 path') as [p'|] eqn:Ep'; cbn [mbind option_bind].
    2:{ rewrite decide_False; [done|]. intros [-> _]%app_inj_2; [|done]. congruence. }
    assert (p' <> q) as Hpq.
    { intros ->. eapply (tw_tables_used _ _ _ Hwf path'); [lia|done|done|done]. }
    destruct (decide (p' = p /\ j = i)) as [[-> ->]|Hdiff].
    + assert (path' = path) as -> by (eapply (tw_tree _ _ _ Hwf); [..|exact Ep'|exact Hp]; try done; lia).
      rewrite decide_True by done. by rewrite Hie, Hpe, Hee.
    + rewrite Hio; try done.
      2:{ eapply resolve_aligned; [apply Hwf|apply Hwf|exact Ep']. }
      rewrite decide_False; [done|]. intros [-> [= ->]]%app_inj_2; [|done]. apply Hdiff. split; [congruence|done].
Qed.

Lemma leaf_installed k cr3 s w' path p i q e path4 :
  tables_wf k cr3 s -> installed (words s) w' p i q e ->
  (length path < 3)%nat -> Forall is_idx path -> is_idx i ->
  resolve (words s) cr3 path = Some p -> present (rd (words s) (p + 8 * i)) = false ->
  q ∈ phys_free s -> present e = true -> entry_page e = q -> Forall is_idx path4 ->
  leaf w' cr3 path4 = leaf (words s) cr3 path4.
Proof.
  intros Hwf Hin Hlen Hpath Hi Hp Hnp Hq Hpe Hee H4. unfold leaf.
  destruct path4 as [|i1 [|i2 [|i3 [|i4 [|? ?]]]]]; try done.
  assert (Forall is_idx [i1; i2; i3] /\ is_idx i4) as [H3 Hi4].
  { rewrite !Forall_cons in H4. destruct H4 as (? & ? & ? & ? & _). by rewrite !Forall_cons. }
  rewrite (resolve_installed k cr3 s w' path p i q e) by (try done; cbn; lia).
  destruct Hin as [Hie Hiz Hio]. case_decide as Hd.
  - rewrite Hd, resolve_snoc, Hp. cbn [mbind option_bind]. rewrite Hiz by done. by rewrite Hnp.
  - destruct (resolve (words s) cr3 [i1; i2; i3]) as [p3|] eqn:E3; [|done]. cbn [mbind option_bind].
    rewrite Hio; [done|..]; try done.
    + eapply resolve_aligned; [apply Hwf|apply Hwf|exact E3].
    + intros ->. eapply (tw_tables_used _ _ _ Hwf [i1; i2; i3]); [cbn; lia|done|done|done].
    + intros [-> ->]. assert ([i1; i2; i3] = path) as <-; [|cbn in Hlen; lia].
      eapply (tw_tree _ _ _ Hwf); [..|exact E3|exact Hp]; try done; cbn; lia.
Qed.

Lemma zeroed_rd q w a p j :
  page_aligned q -> page_aligned p -> is_idx j -> a = p + 8 * j ->
  rd (ZeroOutPage q w) a = if decide (p = q) then 0 else rd w a.
Proof.
  intros [Hqu Hq] [Hpu Hp] [Hj1 Hj2] ->. unfold rd. rewrite ZeroOutPage_lookup.
  assert (PageAlign q = q) as Hpa by (rewrite PageAlign_spec by done; unfold kPageSize; lia). rewrite Hpa.
  assert (forall r l, page_aligned r -> is_idx l -> r [+] 8 * l = r + 8 * l) as Hsmall.
  { intros r l [[? Hr] Hr'] [? ?]. pose proof (Z.div_mod r 0x1000). apply u64_small.
    assert (r / 0x1000 < 2 ^ 52) by (apply Z.div_lt_upper_bound; lia). lia. }
  destruct (decide (p = q)) as [->|Hne].
  - rewrite decide_True; [done|]. apply list_elem_of_fmap. exists j. rewrite elem_of_seqZ.
    split; [by rewrite Hsmall|lia].
  - rewrite decide_False; [done|]. intros (l & Hl & Hin)%list_elem_of_fmap. apply elem_of_seqZ in Hin.
    rewrite Hsmall in Hl by (done || split; lia). apply aligned_add_inj in Hl as [? _]; [done..|lia|lia].
Qed.

Lemma install_step k cr3 s p i v q s1 :
  tables_wf k cr3 s -> page_aligned p -> is_idx i -> p ∉ phys_free s ->
  AllocateAndZeroPage s = Ret (q, s1) ->
  let e := Z.lor q (access_bits_for v) in
  let s' := wr (p + 8 * i) e s1 in
  installed (words s) (words s') p i q e /\ q ∈ phys_free s /\ page_aligned q /\ phys_wf k s' /\
  phys_free s ≡ₚ q :: phys_free s' /\ map_Forall (fun _ v => is_u64 v) (words s').
Proof.
  intros Hwf Hp Hi Hpf Ha. cbv zeta. unfold AllocateAndZeroPage in Ha.
  apply bind_Ret in Ha as ([q' s0] & Ha & Hr). injection Hr as -> <-.
  destruct (AllocatePage_spec k s q s0 (tw_phys _ _ _ Hwf) Ha) as (Hwf0 & Hfree & Hw).
  assert (q ∈ phys_free s) as Hq by (rewrite Hfree; by left).
  assert (page_aligned q) as Hqa.
  { destruct (tw_free _ _ _ Hwf) as [_ Hal]. rewrite Forall_forall in Hal. by apply Hal. }
  destruct (new_entry q v Hqa) as (Heu & Hep & Hee). cbn [words wr].
  assert (forall p' j, page_aligned p' -> is_idx j -> rd (<[p + 8 * i := Z.lor q (access_bits_for v)]> (ZeroOutPage q (words s0)))
    (p' + 8 * j) = if decide (p' = p /\ j = i) then Z.lor q (access_bits_for v)
      else if decide (p' = q) then 0 else rd (words s) (p' + 8 * j)) as Hrd.
  { intros p' j Hp' Hj. unfold rd at 1. case_decide as Hd.
    - destruct Hd as [-> ->]. by rewrite lookup_insert_eq.
    - rewrite lookup_insert_ne.
      2:{ intros [-> ?]%aligned_add_inj; [|by apply Hp|by apply Hp'|unfold is_idx in *; lia..].
          apply Hd. split; [done|lia]. }
      fold (rd (ZeroOutPage q (words s0)) (p' + 8 * j)). by rewrite (zeroed_rd q _ _ p' j), Hw. }
  split_and!; try done.
  - split.
    + rewrite Hrd by done. by rewrite decide_True.
    + intros j Hj. rewrite Hrd by done. rewrite decide_False by (intros [-> _]; done). by rewrite decide_True.
    + intros p' j Hp' Hj Hpq Hnd. rewrite Hrd by done. by rewrite !decide_False.
  - apply map_Forall_insert_2; [done|]. intros a x. rewrite ZeroOutPage_lookup, Hw.
    case_decide; [by intros [= <-]|apply (tw_words _ _ _ Hwf)].
Qed.

Lemma ensure_table_spec k cr3 s path p i v s' :
  tables_wf k cr3 s -> (length path < 3)%nat -> Forall is_idx path -> is_idx i ->
  resolve (words s) cr3 path = Some p ->
  ensure_table (p + 8 * i) (access_bits_for v) s = Ret s' ->
  tables_wf k cr3 s' /\ resolve (words s') cr3 (path ++ [i]) = Some (entry_page (rd (words s') (p + 8 * i))) /\
  (forall path4, Forall is_idx path4 -> leaf (words s') cr3 path4 = leaf (words s) cr3 path4) /\
  (forall x, x ∈ phys_free s' -> x ∈ phys_free s).
Proof.
  intros Hwf Hlen Hpath Hi Hp. unfold ensure_table. case_if_goal; cycle 1.
  { intros [= <-]. apply negb_false_iff in E. split_and!; try done.
    rewrite resolve_snoc, Hp. cbn [mbind option_bind]. by rewrite E. }
  apply negb_true_iff in E. intros ([q s1] & Ha & Hr)%bind_Ret. injection Hr as <-.
  assert (page_aligned p) as Hpa by (eapply resolve_aligned; [apply Hwf|apply Hwf|exact Hp]).
  assert (p ∉ phys_free s) as Hpf by (eapply (tw_tables_used _ _ _ Hwf path); [lia|done..]).
  destruct (install_step k cr3 s p i v q s1 Hwf Hpa Hi Hpf Ha) as (Hin & Hq & Hqa & Hwf1 & Hfree & Hw).
  destruct (new_entry q v Hqa) as (Heu & Hep & Hee).
  pose proof (resolve_installed k cr3 s _ path p i q _ Hwf Hin Hlen Hpath Hi Hp E Hq Hep Hee) as Hres.
  pose proof (tw_free _ _ _ Hwf) as [Hnd Hal]. rewrite Hfree in Hnd, Hal.
  apply NoDup_cons in Hnd as [Hqn Hnd]. apply Forall_cons in Hal as [_ Hal].
  assert (forall path0 x, resolve (words s) cr3 path0 = Some x -> (length path0 <= 3)%nat -> Forall is_idx path0 -> x <> q)
    as Hnq by (intros path0 x Hx Hl Hf ->; by apply (tw_tables_used _ _ _ Hwf path0 q)).
  split_and!.
  - split; [done|done|apply Hwf|done| |].
    + intros path0 x Hl Hf. rewrite Hres by done. case_decide; [by intros [= <-]|]. intros Hx Hxf.
      apply (tw_tables_used _ _ _ Hwf path0 x Hl Hf Hx). rewrite Hfree. by right.
    + intros path1 path2 x Hl1 Hl2 Hf1 Hf2. rewrite !Hres by done.
      case_decide; case_decide; intros Hx1 Hx2; subst.
      * done.
      * injection Hx1 as <-. by destruct (Hnq path2 q).
      * injection Hx2 as <-. by destruct (Hnq path1 q).
      * by apply (tw_tree _ _ _ Hwf path1 path2 x).
  - rewrite Hres.
    + rewrite decide_True by done. rewrite (in_entry _ _ _ _ _ _ Hin). by rewrite Hee.
    + rewrite length_app. cbn. lia.
    + apply Forall_app. split; [done|]. by constructor.
  - intros path4 H4. by eapply (leaf_installed k cr3 s _ path p i q).
  - intros x Hx. rewrite Hfree. by right.
Qed.
End walk.

(** ** Mapping and unmapping a page *)
Lemma PageAlign_aligned v : is_u64 v -> page_aligned (PageAlign v).
Proof. apply entry_page_aligned. Qed.

Lemma idx_PageAlign off v : is_u64 v -> 12 <= off <= 48 -> idx off (PageAlign v) = idx off v.
Proof.
  intros Hv Ho. unfold idx. f_equal. rewrite PageAlign_spec by done. unfold kPageSize.
  replace (2 ^ off) with (0x1000 * 2 ^ (off - 12)) by (rewrite <- (Z.pow_add_r 2 12) by lia; f_equal; lia).
  rewrite <- !Z.div_div by lia. f_equal.
  pose proof (Z.div_mod v (2 ^ 48)). pose proof (Z.div_mod v 0x1000).
  pose proof (Z.mod_pos_bound v (2 ^ 48)). pose proof (Z.mod_pos_bound v 0x1000).
  assert ((v - v mod 0x1000) mod 2 ^ 48 = v mod 2 ^ 48 - v mod 0x1000) as ->.
  { symmetry. apply Z.mod_unique_pos with (v / 2 ^ 48); [|lia].
    assert (v mod 0x1000 <= v mod 2 ^ 48); [|lia].
    assert (v mod 0x1000 = (v mod 2 ^ 48) mod 0x1000) as ->.
    { change (2 ^ 48) with (0x1000 * 2 ^ 36). rewrite Z.rem_mul_r, Z.add_mod, Z.mul_comm, Z.mod_mul by lia.
      rewrite Z.add_0_r, !Z.mod_mod by lia. done. }
    apply Z.mod_le; lia. }
  assert (exists x, v mod 2 ^ 48 = x * 0x1000 + v mod 0x1000) as [x Hx].
  { exists (v / 0x1000 - v / 2 ^ 48 * 2 ^ 36). lia. }
  rewrite Hx. replace (x * 0x1000 + v mod 0x1000 - v mod 0x1000) with (x * 0x1000) by lia.
  rewrite Z.div_mul by lia. rewrite Z.add_comm, Z.div_add, Z.div_small by lia. lia.
Qed.

Lemma vpath_PageAlign v : is_u64 v -> vpath (PageAlign v) = vpath v.
Proof. intros Hv. unfold vpath. by rewrite !idx_PageAlign by (done || lia). Qed.

Lemma vpath_idx v : Forall is_idx (vpath v).
Proof. repeat constructor; apply idx_range. Qed.

(** Writing an entry of a last-level table changes one translation and no table. *)
Lemma leaf_write k cr3 s i1 i2 i3 i4 p3 e :
  tables_wf k cr3 s -> Forall is_idx [i1; i2; i3; i4] -> is_u64 e ->
  resolve (words s) cr3 [i1; i2; i3] = Some p3 ->
  tables_wf k cr3 (wr (p3 + 8 * i4) e s) /\
  forall path4, Forall is_idx path4 ->
    leaf (<[p3 + 8 * i4 := e]> (words s)) cr3 path4 =
      if decide (path4 = [i1; i2; i3; i4]) then (if present e then Some (entry_page e) else None)
      else leaf (words s) cr3 path4.
Proof.
  intros Hwf Hidx He Hp3. rewrite !Forall_cons in Hidx. destruct Hidx as (H1 & H2 & H3 & H4 & _).
  assert (Forall is_idx [i1; i2; i3]) as H123 by (by rewrite !Forall_cons).
  assert (page_aligned p3) as Hpa by (eapply resolve_aligned; [apply Hwf|apply Hwf|exact Hp3]).
  assert (forall p j, page_aligned p -> is_idx j -> rd (<[p3 + 8 * i4 := e]> (words s)) (p + 8 * j) =
    if decide (p = p3 /\ j = i4) then e else rd (words s) (p + 8 * j)) as Hrd.
  { intros p j Hp Hj. unfold rd. case_decide as Hd.
    - destruct Hd as [-> ->]. by rewrite lookup_insert_eq.
    - rewrite lookup_insert_ne; [done|].
      intros [-> ?]%aligned_add_inj; [|by apply Hpa|by apply Hp|unfold is_idx in *; lia..].
      apply Hd. split; [done|lia]. }
  assert (forall path, (length path <= 3)%nat -> Forall is_idx path ->
    resolve (<[p3 + 8 * i4 := e]> (words s)) cr3 path = resolve (words s) cr3 path) as Hres.
  { intros path. induction path as [|j path IH] using rev_ind; intros Hl Hf; [done|].
    rewrite length_app in Hl. cbn in Hl. apply Forall_app in Hf as [Hf [Hj _]%Forall_cons].
    rewrite !resolve_snoc, IH by (done || lia).
    destruct (resolve (words s) cr3 path) as [p|] eqn:Ep; [|done]. cbn [mbind option_bind].
    rewrite Hrd; [|by eapply resolve_aligned; [apply Hwf|apply Hwf|exact Ep]|done].
    rewrite decide_False; [done|]. intros [-> _].
    assert (path = [i1; i2; i3]) as ->; [|cbn in Hl; lia].
    eapply (tw_tree _ _ _ Hwf); [..|exact Ep|exact Hp3]; try done; cbn; lia. }
  split.
  - destruct Hwf as [Hph Hw Hc Hfr Htu Htr]. split; try done; cbn [words wr].
    + by apply map_Forall_insert_2.
    + intros path p Hl Hf. rewrite Hres by done. by apply Htu.
    + intros path path' p Hl Hl' Hf Hf'. rewrite !Hres by done. by apply Htr.
  - intros path4 Hf4. unfold leaf.
    destruct path4 as [|j1 [|j2 [|j3 [|j4 [|? ?]]]]]; try (by rewrite decide_False by done).
    rewrite !Forall_cons in Hf4. destruct Hf4 as (? & ? & ? & ? & _).
    rewrite Hres by first [by rewrite !Forall_cons | cbn; lia].
    destruct (resolve (words s) cr3 [j1; j2; j3]) as [p|] eqn:Ep; cbn [mbind option_bind].
    + rewrite Hrd; [|by eapply resolve_aligned; [apply Hwf|apply Hwf|exact Ep]|done].
      destruct (decide (p = p3 /\ j4 = i4)) as [[-> ->]|Hd].
      * assert ([j1; j2; j3] = [i1; i2; i3]) as [= -> -> ->].
        { eapply (tw_tree _ _ _ Hwf); [..|exact Ep|exact Hp3]; try done; cbn; try lia. by rewrite !Forall_cons. }
        by rewrite decide_True.
      * rewrite decide_False; [done|]. intros [= -> -> -> ->]. apply Hd. split; [congruence|done].
    + rewrite decide_False; [done|]. intros [= -> -> -> ->]. congruence.
Qed.

(** [MapPage] as a walk along the indices of the address. *)
Lemma MapPage_walk k cr3 vaddr paddr s s' :
  tables_wf k cr3 s -> is_u64 vaddr -> is_u64 paddr -> MapPage cr3 vaddr paddr s = Ret s' ->
  leaf (words s) cr3 (vpath vaddr) = None /\ tables_wf k cr3 s' /\
  (forall path4, Forall is_idx path4 -> leaf (words s') cr3 path4 =
     if decide (path4 = vpath vaddr) then Some (PageAlign paddr) else leaf (words s) cr3 path4) /\
  (forall x, x ∈ phys_free s' -> x ∈ phys_free s).
Proof.
  intros Hwf Hv Hp. unfold MapPage. rewrite <- (vpath_PageAlign vaddr) by done.
  destruct (PageAlign_aligned vaddr Hv) as [Hvu _]. pose proof (PageAlign_aligned paddr Hp) as Hpa.
  generalize dependent (PageAlign vaddr). clear Hv. intros v Hv. generalize dependent (PageAlign paddr).
  clear Hp. intros q Hq. unfold Pml4Entry, PageDirectoryPointerEntry, PageDirectoryEntry, PageTableEntry.
  rewrite (entry_addr cr3) by (apply Hwf || done || unfold PML_OFFSET; lia). change PML_OFFSET with 39.
  intros (s1 & E1 & Hm)%bind_Ret. cbv zeta in Hm.
  destruct (ensure_table_spec k cr3 s [] cr3 (idx 39 v) v s1 Hwf) as (Hwf1 & Hr1 & Hl1 & Hf1);
    [cbn; lia|done|apply idx_range|done|done|]. cbn [app] in Hr1.
  set (e1 := rd (words s1) (cr3 + 8 * idx 39 v)) in *. fold (entry_page e1) in Hm.
  assert (page_aligned (entry_page e1)) as [_ Ha1] by (apply entry_page_aligned, rd_u64, Hwf1).
  rewrite (entry_addr (entry_page e1)) in Hm by (done || unfold PDP_OFFSET; lia). change PDP_OFFSET with 30 in Hm.
  apply bind_Ret in Hm as (s2 & E2 & Hm).
  destruct (ensure_table_spec k cr3 s1 [idx 39 v] (entry_page e1) (idx 30 v) v s2 Hwf1) as (Hwf2 & Hr2 & Hl2 & Hf2);
    [cbn; lia|by repeat constructor; apply idx_range|apply idx_range|done|done|]. cbn [app] in Hr2.
  set (e2 := rd (words s2) (entry_page e1 + 8 * idx 30 v)) in *. fold (entry_page e2) in Hm.
  assert (page_aligned (entry_page e2)) as [_ Ha2] by (apply entry_page_aligned, rd_u64, Hwf2).
  rewrite (entry_addr (entry_page e2)) in Hm by (done || unfold PD_OFFSET; lia). change PD_OFFSET with 21 in Hm.
  apply bind_Ret in Hm as (s3 & E3 & Hm).
  destruct (ensure_table_spec k cr3 s2 [idx 39 v; idx 30 v] (entry_page e2) (idx 21 v) v s3 Hwf2) as (Hwf3 & Hr3 & Hl3 & Hf3);
    [cbn; lia|by repeat constructor; apply idx_range|apply idx_range|done|done|]. cbn [app] in Hr3.
  set (e3 := rd (words s3) (entry_page e2 + 8 * idx 21 v)) in *. fold (entry_page e3) in Hm.
  assert (page_aligned (entry_page e3)) as [_ Ha3] by (apply entry_page_aligned, rd_u64, Hwf3).
  rewrite (entry_addr (entry_page e3)) in Hm by (done || unfold PT_OFFSET; lia). change PT_OFFSET with 12 in Hm.
  destruct (present (rd (words s3) (entry_page e3 + 8 * idx 12 v))) eqn:E4; cbn [negb] in Hm; [done|].
  injection Hm as <-. destruct (new_entry q v Hq) as (Heu & Hep & Hee).
  destruct (leaf_write k cr3 s3 (idx 39 v) (idx 30 v) (idx 21 v) (idx 12 v) (entry_page e3) _ Hwf3
    (vpath_idx v) Heu Hr3) as [Hwf4 Hl4]. fold (vpath v) in *.
  split_and!; [|done| |auto].
  - rewrite <- Hl1, <- Hl2, <- Hl3 by apply vpath_idx. unfold leaf, vpath. rewrite Hr3. cbn [mbind option_bind].
    by rewrite E4.
  - intros path4 H4. cbn [words wr]. rewrite Hl4 by done. case_decide; [by rewrite Hep, Hee|].
    by rewrite Hl3, Hl2, Hl1.
Qed.

Lemma UnmapPage_walk k cr3 vaddr s :
  tables_wf k cr3 s -> is_u64 vaddr ->
  tables_wf k cr3 (UnmapPage cr3 vaddr s) /\ phys_free (UnmapPage cr3 vaddr s) = phys_free s /\
  forall path4, Forall is_idx path4 -> leaf (words (UnmapPage cr3 vaddr s)) cr3 path4 =
    if decide (path4 = vpath vaddr) then None else leaf (words s) cr3 path4.
Proof.
  intros Hwf Hv.
  assert (leaf (words s) cr3 (vpath vaddr) = None -> tables_wf k cr3 s /\ phys_free s = phys_free s /\
    forall path4, Forall is_idx path4 -> leaf (words s) cr3 path4 =
      if decide (path4 = vpath vaddr) then None else leaf (words s) cr3 path4) as Hnone.
  { intros Hn. split_and!; try done. intros path4 _. by case_decide; subst. }
  unfold UnmapPage, Pml4Entry, PageDirectoryPointerEntry, PageDirectoryEntry, PageTableEntry.
  rewrite (entry_addr cr3) by (apply Hwf || done || unfold PML_OFFSET; lia). change PML_OFFSET with 39.
  set (e1 := rd (words s) (cr3 + 8 * idx 39 vaddr)) in *. fold (entry_page e1).
  assert (page_aligned (entry_page e1)) as [_ Ha1] by (apply entry_page_aligned, rd_u64, Hwf).
  destruct (present e1) eqn:P1; cbn [negb].
  2:{ apply Hnone. cbn. fold e1. by rewrite P1. }
  rewrite (entry_addr (entry_page e1)) by (done || unfold PDP_OFFSET; lia). change PDP_OFFSET with 30.
  set (e2 := rd (words s) (entry_page e1 + 8 * idx 30 vaddr)) in *. fold (entry_page e2).
  assert (page_aligned (entry_page e2)) as [_ Ha2] by (apply entry_page_aligned, rd_u64, Hwf).
  destruct (present e2) eqn:P2; cbn [negb].
  2:{ apply Hnone. cbn. fold e1. rewrite P1. fold e2. by rewrite P2. }
  rewrite (entry_addr (entry_page e2)) by (done || unfold PD_OFFSET; lia). change PD_OFFSET with 21.
  set (e3 := rd (words s) (entry_page e2 + 8 * idx 21 vaddr)) in *. fold (entry_page e3).
  assert (page_aligned (entry_page e3)) as [_ Ha3] by (apply entry_page_aligned, rd_u64, Hwf).
  destruct (present e3) eqn:P3; cbn [negb].
  2:{ apply Hnone. cbn. fold e1. rewrite P1. fold e2. rewrite P2. fold e3. by rewrite P3. }
  rewrite (entry_addr (entry_page e3)) by (done || unfold PT_OFFSET; lia). change PT_OFFSET with 12.
  assert (resolve (words s) cr3 [idx 39 vaddr; idx 30 vaddr; idx 21 vaddr] = Some (entry_page e3)) as Hr3.
  { cbn. fold e1. rewrite P1. fold e2. rewrite P2. fold e3. by rewrite P3. }
  set (e4 := rd (words s) (entry_page e3 + 8 * idx 12 vaddr)) in *.
  destruct (present e4) eqn:P4; cbn [negb].
  2:{ apply Hnone. unfold leaf, vpath. rewrite Hr3. cbn [mbind option_bind]. fold e4. by rewrite P4. }
  assert (is_u64 e4) as He4 by (apply rd_u64, Hwf).
  change (Z.land e4 (not64 PRESENT_BIT)) with (Z.land e4 (not64 (2 ^ 1 - 1))).
  rewrite land_not64_low by (unfold is_u64 in He4; lia). change (2 ^ 1) with 2.
  pose proof (Z.mod_pos_bound e4 2). pose proof (Z.div_mod e4 2).
  assert (is_u64 (e4 - e4 mod 2)) as He by (unfold is_u64 in *; lia).
  destruct (leaf_write k cr3 s (idx 39 vaddr) (idx 30 vaddr) (idx 21 vaddr) (idx 12 vaddr) (entry_page e3) _ Hwf
    (vpath_idx vaddr) He Hr3) as [Hwf4 Hl4]. fold (vpath vaddr) in *.
  split_and!; [done|done|]. intros path4 H4. cbn [words wr]. rewrite Hl4 by done. case_decide; [|done].
  assert (present (e4 - e4 mod 2) = false) as ->; [|done].
  unfold present, PRESENT_BIT. change 1 with (2 ^ 1 - 1). rewrite land_low by lia. change (2 ^ 1) with 2.
  replace (e4 - e4 mod 2) with (0 + e4 / 2 * 2) by lia. by rewrite Z.mod_add by lia.
Qed.

(** The page of a virtual address in the 48-bit address space. *)
Definition vpage (v : Z) : Z := v mod 2 ^ 48 / 0x1000.

Lemma vpath_vpage v v' : vpath v = vpath v' -> vpage v = vpage v'.
Proof.
  unfold vpath, vpage, idx. intros [= H1 H2 H3 H4].
  pose proof (Z.mod_pos_bound v (2 ^ 48)). pose proof (Z.mod_pos_bound v' (2 ^ 48)).
  set (x := v mod 2 ^ 48) in *. set (x' := v' mod 2 ^ 48) in *.
  assert (forall y, y / 2 ^ 39 = y / 0x1000 / 512 / 512 / 512 /\ y / 2 ^ 30 = y / 0x1000 / 512 / 512 /\
    y / 2 ^ 21 = y / 0x1000 / 512) as Hd by (intros; by rewrite !Z.div_div by lia).
  destruct (Hd x) as (D1 & D2 & D3), (Hd x') as (D1' & D2' & D3').
  rewrite D1, D1' in H1. rewrite D2, D2' in H2. rewrite D3, D3' in H3. clear D1 D2 D3 D1' D2' D3'. change (2 ^ 12) with 0x1000 in H4. clear Hd.
  assert (0 <= x / 0x1000 < 2 ^ 36) by (split; [apply Z.div_pos|apply Z.div_lt_upper_bound]; lia).
  assert (0 <= x' / 0x1000 < 2 ^ 36) by (split; [apply Z.div_pos|apply Z.div_lt_upper_bound]; lia).
  generalize dependent (x / 0x1000). generalize dependent (x' / 0x1000).
  clear. intros. Z.to_euclidean_division_equations. lia.
Qed.

(** ** Properties *)

(** C31.  [MapPage] installs exactly one translation: the page was not
    resident before, resolves to the given physical page afterwards, every
    other page of the address space resolves as before, and the tables are
    still a tree of pages that are not free. *)
Theorem MapPage_translates k cr3 vaddr paddr s s' v :
  tables_wf k cr3 s -> is_u64 vaddr -> is_u64 paddr -> is_u64 v ->
  MapPage cr3 vaddr paddr s = Ret s' ->
  tables_wf k cr3 s' /\ PagePhysIfResident cr3 vaddr (words s) = 0 /\
  PagePhysIfResident cr3 vaddr (words s') = PageAlign paddr /\
  (vpage v <> vpage vaddr -> PagePhysIfResident cr3 v (words s') = PagePhysIfResident cr3 v (words s)).
Proof.
  intros Hwf Hv Hp Hv' Hm. destruct (MapPage_walk k cr3 vaddr paddr s s' Hwf Hv Hp Hm) as (Hn & Hwf' & Hl & _).
  rewrite !PagePhys_leaf by (done || apply Hwf || apply Hwf'). rewrite !Hl by apply vpath_idx. split_and!.
  - done.
  - by rewrite Hn.
  - by rewrite decide_True.
  - intros Hne. rewrite decide_False; [done|]. intros Heq. by apply Hne, vpath_vpage.
Qed.

(** [UnmapPage] removes exactly one translation, whether or not the
    page was resident, and touches neither tables nor free pages. *)
Theorem UnmapPage_clears k cr3 vaddr s v :
  tables_wf k cr3 s -> is_u64 vaddr -> is_u64 v ->
  let s' := UnmapPage cr3 vaddr s in
  tables_wf k cr3 s' /\ phys_free s' = phys_free s /\ PagePhysIfResident cr3 vaddr (words s') = 0 /\
  (vpage v <> vpage vaddr -> PagePhysIfResident cr3 v (words s') = PagePhysIfResident cr3 v (words s)).
Proof.
  intros Hwf Hv Hv'. cbv zeta. destruct (UnmapPage_walk k cr3 vaddr s Hwf Hv) as (Hwf' & Hf & Hl).
  rewrite !PagePhys_leaf by (done || apply Hwf || apply Hwf'). rewrite !Hl by apply vpath_idx. split_and!.
  - done.
  - done.
  - by rewrite decide_True.
  - intros Hne. rewrite decide_False; [done|]. intros Heq. by apply Hne, vpath_vpage.
Qed.

Lemma cleanup_loop_skip (f : Z -> phys -> res phys) pml4 s (l : list Z) :
  (forall i, i ∈ l -> present (rd (words s) (pml4 [+] 8 * i)) = false) ->
  foldl (fun r i => s ← r; let e := rd (words s) (pml4 [+] 8 * i) in if present e then f e s else Ret s) (Ret s) l
    = Ret s.
Proof.
  induction l as [|i l IH]; intros Hl; [done|]. cbn [foldl]. rewrite ret_bind.
  rewrite (Hl i) by (by left). apply IH. intros j Hj. apply Hl. by right.
Qed.

(** [CleanupPml4] looks at 128 of the 256 user entries: the tables
    under the others, where every user stack lives, are never freed. *)
Theorem CleanupPml4_leaks_upper_half pml4 s :
  (forall i, 0 <= i < 128 -> present (rd (words s) (pml4 [+] 8 * i)) = false) ->
  CleanupPml4 pml4 s = FreePage pml4 s /\
  (forall v, 0x00007FF000000000 <= v < 0x0000800000000000 -> 128 <= Pml4Index v < 256).
Proof.
  intros Hno. split.
  - unfold CleanupPml4. rewrite (cleanup_loop_skip (fun e s => CleanupPageStructure 2 (Z.land e (not64 0xFFF)) s)).
    + done.
    + intros i Hi. apply elem_of_seqZ in Hi. apply Hno. lia.
  - intros v Hv. unfold Pml4Index, PML_OFFSET. rewrite Z.shiftr_div_pow2 by lia. change 0x1FF with (2 ^ 9 - 1).
    rewrite land_low by lia. assert (v / 2 ^ 39 = 255) as ->; [|vm_compute; split; congruence].
    symmetry. apply Z.div_unique with (v - 255 * 2 ^ 39); lia.
Qed.

(** *** Witnesses *)
Lemma sample_tables_wf : tables_wf 2 0x400000 sample_phys.
Proof.
  split.
  - exact sample_phys_wf.
  - apply map_Forall_empty.
  - done.
  - split; [exact (proj2 sample_phys_free)|]. apply (bool_decide_unpack _). vm_compute. exact I.
  - intros [|i path] p _ _; cbn; [|done]. intros [= <-]. apply (bool_decide_unpack _). vm_compute. exact I.
  - intros [|i path] [|j path'] p _ _ _ _; cbn; done.
Qed.

Lemma MapPage_translates_witness :
  exists s', MapPage 0x400000 0x20000456 0x101234 sample_phys = Ret s' /\
    PagePhysIfResident 0x400000 0x20000456 (words s') = 0x101000.
Proof.
  assert (is_ret (MapPage 0x400000 0x20000456 0x101234 sample_phys) = true) as Hr by (vm_compute; reflexivity).
  apply is_ret_Ret in Hr as [s' Hs']. exists s'. split; [exact Hs'|].
  refine (proj1 (proj2 (proj2 (MapPage_translates 2 0x400000 0x20000456 0x101234 sample_phys s' 0
    sample_tables_wf _ _ _ Hs')))); split; done.
Defined.

Lemma UnmapPage_clears_witness :
  PagePhysIfResident 0x400000 0x20000456 (words (UnmapPage 0x400000 0x20000456 sample_phys)) = 0.
Proof.
  refine (proj1 (proj2 (proj2 (UnmapPage_clears 2 0x400000 0x20000456 sample_phys 0 sample_tables_wf _ _))));
    split; done.
Defined.

(** One present entry, the one of the user stacks. *)
Definition stack_phys : phys :=
  mkPhys (Some sample_pmm) (mkBoot 0 0 0) true {[ 0x400000 + 8 * 255 := 0x500003 ]}.

Lemma CleanupPml4_leaks_upper_half_witness :
  present (rd (words stack_phys) (0x400000 + 8 * 255)) = true /\
  CleanupPml4 0x400000 stack_phys = FreePage 0x400000 stack_phys.
Proof.
  split; [reflexivity|]. apply (CleanupPml4_leaks_upper_half 0x400000 stack_phys). intros i Hi.
  unfold rd. cbn [words stack_phys]. rewrite lookup_singleton_ne; [reflexivity|]. rewrite u64_small by lia. lia.
Defined.
