(* ===== verification/AddressSpace.v ===== *)
(** * Address spaces (zion/object/address_space.h, address_space.cpp,
    zion/memory/user_stack_manager.cpp, kernel_stack_manager.cpp)

    An address space ties the mapping tree, the page tables and the
    allocators of virtual ranges together.  The kernel state its operations
    share with the rest of the kernel is the store of memory objects and the
    physical allocator. *)

From Stdlib Require Import ZArith Lia.
From stdpp Require Import base tactics numbers list gmap fin_maps relations.
From S2P Require Import Prelude Status LinkedList PhysMem MemObject BinaryTree OrderedMap MappingTree Paging.

Definition kUserStackMin : Z := 0x00007FF000000000.
Definition kUserStackMax : Z := 0x0000800000000000.
Definition kUserStackSize : Z := 0x100000.

(** ** UserStackManager *)
Record UserStackManager : Type := mkUsm { next_stack_ : Z; freed_stacks_ : LinkedList Z }.

Definition Usm_new : UserStackManager := mkUsm kUserStackMax ll_new.

Definition NewUserStack (m : UserStackManager) : res (Z * UserStackManager) :=
  if negb (ll_empty (freed_stacks_ m)) then
    '(stack, l) ← ll_PopFront (freed_stacks_ m); Ret (stack, mkUsm (next_stack_ m) l)
  else
    let stack := next_stack_ m [-] kUserStackSize in
    if stack <=? kUserStackMin then Panic else Ret (stack, mkUsm stack (freed_stacks_ m)).

(** [FreeUserStack]; an unaligned base only draws a warning. *)
Definition Usm_FreeUserStack (stack_base : Z) (m : UserStackManager) : UserStackManager :=
  mkUsm (next_stack_ m) (ll_PushBack stack_base (freed_stacks_ m)).

(** ** KernelStackManager *)
Definition kKernelStackStart : Z := 0xFFFFFFFF90000000.
Definition kKernelStackEnd : Z := 0xFFFFFFFFA0000000.
Definition kKernelStackSize : Z := 3 * kPageSize.
Definition kKernelStackOffset : Z := 4 * kPageSize.

Record KernelStackManager : Type := mkKsm { next_stack_addr_ : Z; free_stacks_ : LinkedList Z }.

Definition Ksm_new : KernelStackManager := mkKsm kKernelStackStart ll_new.

Definition AllocateKernelStack (cr3 : Z) (m : KernelStackManager) (s : phys) :
    res (Z * KernelStackManager * phys) :=
  if negb (ll_empty (free_stacks_ m)) then
    '(stack, l) ← ll_PopFront (free_stacks_ m); Ret (stack, mkKsm (next_stack_addr_ m) l, s)
  else
    let next := next_stack_addr_ m [+] kKernelStackOffset in
    if kKernelStackEnd <=? next then Panic else
    s ← EnsureResident cr3 (next [-] kKernelStackSize) kKernelStackSize s;
    Ret (next [-] 8, mkKsm next (free_stacks_ m), s).

Definition FreeKernelStack (stack_base : Z) (m : KernelStackManager) : KernelStackManager :=
  mkKsm (next_stack_addr_ m) (ll_PushFront stack_base (free_stacks_ m)).

(** ** AddressSpace *)
Record AddressSpace : Type := mkAs {
  cr3_ : Z;
  user_stacks_ : UserStackManager;
  next_memmap_addr_ : Z;
  mapping_tree_ : MemoryMappingTree;
}.

(** [AddressSpace::AddressSpace()], run while the tables at [curr_cr3] are
    active. *)
Definition AddressSpace_new (curr_cr3 hhdm : Z) (s : phys) : res (AddressSpace * phys) :=
  '(cr3, s) ← AllocateAndZeroPage s;
  Ret (mkAs cr3 Usm_new 0x2000000000 bt_new, InitializePml4 curr_cr3 hhdm cr3 s).

Definition AddressSpace_ForRoot (curr_cr3 : Z) : AddressSpace := mkAs curr_cr3 Usm_new 0x2000000000 bt_new.

Definition AddressSpace_delete (a : AddressSpace) (s : phys) : res phys := CleanupPml4 (cr3_ a) s.

Definition with_tree (a : AddressSpace) (t : MemoryMappingTree) : AddressSpace :=
  mkAs (cr3_ a) (user_stacks_ a) (next_memmap_addr_ a) t.
Definition with_stacks (a : AddressSpace) (m : UserStackManager) : AddressSpace :=
  mkAs (cr3_ a) m (next_memmap_addr_ a) (mapping_tree_ a).
Definition with_memmap (a : AddressSpace) (n : Z) : AddressSpace :=
  mkAs (cr3_ a) (user_stacks_ a) n (mapping_tree_ a).

(** [MapInMemoryObject(vaddr, mem_obj)] *)
Definition MapInMemoryObjectAt (vaddr : Z) (mem_obj : positive) (objs : objects) (a : AddressSpace) :
    res (ErrorCode * AddressSpace) :=
  '(err, t) ← AddInMemoryObject vaddr mem_obj objs (mapping_tree_ a);
  Ret (err, with_tree a t).

(** The [while ((next_memmap_addr_ & (align - 1)) != 0)] loop. *)
Fixpoint align_loop (fuel : nat) (next align : Z) : res Z :=
  match fuel with
  | O => NoFuel
  | S fuel =>
      if negb (Z.land next (align [-] 1) =? 0) then align_loop fuel (next [+] kPageSize) align
      else Ret next
  end.

Definition GetNextMemMapAddr (size align : Z) (a : AddressSpace) : res (Z * AddressSpace) :=
  if size =? 0 then Panic else
  let size := Z.land (size [-] 1) (not64 0xFFF) [+] 0x1000 in
  next ← (if 0 <? align then align_loop (S (Z.to_nat (align / kPageSize))) (next_memmap_addr_ a) align
          else Ret (next_memmap_addr_ a));
  let addr := next in
  let next := next [+] size in
  if 0x3000000000 <=? next then Panic else Ret (addr, with_memmap a next).

(** [MapInMemoryObject(mem_obj, align)] *)
Definition MapInMemoryObject (mem_obj : positive) (align : Z) (objs : objects) (a : AddressSpace) :
    res (ErrorOr Z * AddressSpace) :=
  size ← object_size objs mem_obj;
  '(vaddr, a) ← GetNextMemMapAddr size align a;
  '(err, t) ← AddInMemoryObject vaddr mem_obj objs (mapping_tree_ a);
  if decide (err = OK) then Ret (EOk vaddr, with_tree a t) else Ret (EErr err, with_tree a t).

Definition AllocateUserStack (objs : objects) (a : AddressSpace) :
    res (ErrorOr Z * objects * AddressSpace) :=
  '(base, m) ← NewUserStack (user_stacks_ a);
  let a := with_stacks a m in
  let mem_object := fresh (dom objs) in
  let objs := <[mem_object := VariableMemoryObject_new kUserStackSize]> objs in
  '(err, a) ← MapInMemoryObjectAt base mem_object objs a;
  if decide (err = OK) then Ret (EOk base, objs, a) else Ret (EErr err, objs, a).

(** [for (addr = vaddr_base; addr < vaddr_limit; addr += kPageSize) UnmapPage(cr3_, addr);] *)
Fixpoint unmap_loop (fuel : nat) (cr3 addr limit : Z) (s : phys) : res phys :=
  match fuel with
  | O => NoFuel
  | S fuel =>
      if addr <? limit then unmap_loop fuel cr3 (addr [+] kPageSize) limit (UnmapPage cr3 addr s)
      else Ret s
  end.

Definition FreeAddressRange (vaddr_base vaddr_limit : Z) (is_dying_proc : bool) (a : AddressSpace) (s : phys) :
    res (ErrorCode * AddressSpace * phys) :=
  '(err, t) ← FreeMemoryRange vaddr_base vaddr_limit (mapping_tree_ a);
  let a := with_tree a t in
  if negb (bool_decide (err = OK)) then Ret (err, a, s) else
  if is_dying_proc then Ret (OK, a, s) else
  s ← unmap_loop (S (Z.to_nat ((vaddr_limit - vaddr_base) / kPageSize + 1))) (cr3_ a) vaddr_base vaddr_limit s;
  Ret (OK, a, UnmapPage (cr3_ a) vaddr_limit s).

Definition FreeUserStack (base : Z) (a : AddressSpace) (s : phys) : res (ErrorCode * AddressSpace * phys) :=
  '(err, a, s) ← FreeAddressRange base (base [+] kUserStackSize) false a s;
  if negb (bool_decide (err = OK)) then Ret (err, a, s) else
  Ret (OK, with_stacks a (Usm_FreeUserStack base (user_stacks_ a)), s).

Definition HandlePageFault (vaddr : Z) (objs : objects) (a : AddressSpace) (s : phys) :
    res (bool * objects * phys) :=
  if vaddr <? kPageSize then Ret (false, objs, s) else
  '(offset_or, objs, s) ← GetPhysicalPageAtVaddr vaddr objs s (mapping_tree_ a);
  match offset_or with
  | EErr _ => Ret (false, objs, s)
  | EOk page => s ← MapPage (cr3_ a) vaddr page s; Ret (true, objs, s)
  end.

(** ** User stacks *)

(** The first [n] stacks below the top of the region. *)
Definition stacks (n : Z) : list Z := (fun i => kUserStackMax - kUserStackSize * (i + 1)) <$> seqZ 0 n.

Record usm_inv (m : UserStackManager) (owned : list Z) (n : Z) : Prop := {
  ui_n : 0 <= n < 65536;
  ui_next : next_stack_ m = kUserStackMax - kUserStackSize * n;
  ui_all : owned ++ front_ (freed_stacks_ m) ≡ₚ stacks n;
  ui_size : size_ (freed_stacks_ m) = Z.of_nat (length (front_ (freed_stacks_ m)));
}.

(** Threads take stacks and give back stacks they hold. *)
Inductive usm_step : UserStackManager * list Z -> UserStackManager * list Z -> Prop :=
| step_NewUserStack m m' stack owned :
    NewUserStack m = Ret (stack, m') -> usm_step (m, owned) (m', stack :: owned)
| step_FreeUserStack m stack owned owned' :
    owned ≡ₚ stack :: owned' -> usm_step (m, owned) (Usm_FreeUserStack stack m, owned').

Section stacks.
Implicit Types (m : UserStackManager) (owned : list Z).

Lemma usm_inv_wf m owned n : usm_inv m owned n -> ll_wf (freed_stacks_ m) /\ size_ (freed_stacks_ m) < 65536.
Proof.
  intros [Hn _ Hall Hsz]. apply Permutation_length in Hall. unfold stacks in Hall.
  rewrite length_app, length_fmap, length_seqZ in Hall. unfold ll_wf. lia.
Qed.

Lemma stacks_snoc n : 0 <= n -> stacks (n + 1) = stacks n ++ [kUserStackMax - kUserStackSize * (n + 1)].
Proof.
  intros Hn. unfold stacks. replace (n + 1) with (Z.of_nat (S (Z.to_nat n))) at 1 by lia.
  rewrite seqZ_S, fmap_app. rewrite Z2Nat.id by lia. done.
Qed.

Lemma usm_step_inv m owned m' owned' n :
  usm_inv m owned n -> usm_step (m, owned) (m', owned') -> exists n', usm_inv m' owned' n'.
Proof.
  intros Hinv Hstep. pose proof (usm_inv_wf _ _ _ Hinv) as [Hwf Hlt]. destruct Hinv as [Hn Hnext Hall Hsz].
  inversion Hstep as [? ? stack ? Hnew|? stack ? ? Hown]; subst.
  - unfold NewUserStack in Hnew. case_if_hyp Hnew.
    + apply bind_Ret in Hnew as ([st l] & Hpop & Hr). injection Hr as -> <-.
      destruct (ll_PopFront_spec _ _ _ Hwf Hpop) as [Hf [Hs _]]. exists n. split; cbn; try done.
      rewrite <- Hall, Hf. solve_Permutation.
    + apply negb_false_iff, ll_empty_spec in E; [|done]. rewrite E, app_nil_r in Hall.
      unfold kUserStackMax, kUserStackSize, kUserStackMin in *. rewrite Hnext in Hnew.
      rewrite u64_small in Hnew by lia. case_if_hyp Hnew; [done|]. injection Hnew as <- <-. zb.
      exists (n + 1). split; cbn [next_stack_ freed_stacks_]; try done; [lia| |].
      * unfold kUserStackMax, kUserStackSize. lia.
      * rewrite E, app_nil_r, stacks_snoc, Hall by lia. unfold kUserStackMax, kUserStackSize.
        rewrite (Permutation_app_comm (stacks n)). cbn [app]. f_equiv. lia.
  - exists n. split; cbn [next_stack_ freed_stacks_ Usm_FreeUserStack]; try done.
    + rewrite front_PushBack, <- Hall, Hown. solve_Permutation.
    + rewrite size_PushBack, front_PushBack, length_Z_app. cbn [length]. rewrite u64_small by lia. lia.
Qed.

Lemma stacks_spec n x : x ∈ stacks n -> exists i, 0 <= i < n /\ x = kUserStackMax - kUserStackSize * (i + 1).
Proof. intros (i & -> & Hi)%list_elem_of_fmap. apply elem_of_seqZ in Hi. exists i. split; [lia|done]. Qed.

Lemma stacks_NoDup n : NoDup (stacks n).
Proof.
  apply NoDup_fmap_2_strong; [|apply NoDup_seqZ]. intros i j _ _. unfold kUserStackSize. lia.
Qed.
End stacks.

(** The stacks that threads hold at any time are distinct, 1 MiB
    aligned, inside the user stack region and so do not overlap, over any
    sequence of allocations and releases. *)
Theorem user_stacks_disjoint m owned :
  rtc usm_step (Usm_new, []) (m, owned) ->
  NoDup owned /\
  Forall (fun b => b mod kUserStackSize = 0 /\ kUserStackMin < b /\ b + kUserStackSize <= kUserStackMax) owned /\
  (forall a b, a ∈ owned -> b ∈ owned -> a < b -> a + kUserStackSize <= b).
Proof.
  intros Hsteps. assert (exists n, usm_inv m owned n) as (n & Hinv).
  { change m with (m, owned).1. change owned with (m, owned).2 at 2.
    revert Hsteps. apply (rtc_ind_r (fun x => exists n, usm_inv x.1 x.2 n)).
    - exists 0. split; cbn; done.
    - intros [m1 o1] [m2 o2] _ Hstep [n Hn]. by eapply usm_step_inv. }
  destruct Hinv as [Hn _ Hall _].
  assert (forall x, x ∈ owned -> x ∈ stacks n) as Hin by (intros x Hx; rewrite <- Hall; set_solver).
  split_and!.
  - pose proof (stacks_NoDup n) as Hnd. rewrite <- Hall in Hnd. by apply NoDup_app in Hnd as [? _].
  - apply Forall_forall. intros x (i & Hi & ->)%Hin%stacks_spec.
    unfold kUserStackMax, kUserStackMin, kUserStackSize. split_and!; [|lia|lia].
    replace (0x800000000000 - 0x100000 * (i + 1)) with ((0x8000000 - (i + 1)) * 0x100000) by lia.
    apply Z.mod_mul. lia.
  - intros a b (i & Hi & ->)%Hin%stacks_spec (j & Hj & ->)%Hin%stacks_spec. unfold kUserStackSize. nia.
Qed.

(** ** Choosing an address for a mapping *)

(** Rounding [n] up to a multiple of [a]. *)
Definition align_up (n a : Z) : Z := (n + a - 1) / a * a.

Lemma align_loop_spec fuel next k :
  0 <= next -> align_up next (2 ^ k) < 2 ^ 62 -> 12 <= k <= 40 -> next mod kPageSize = 0 ->
  (Z.to_nat ((align_up next (2 ^ k) - next) / kPageSize) < fuel)%nat ->
  align_loop fuel next (2 ^ k) = Ret (align_up next (2 ^ k)).
Proof.
  intros Hn Hb Hk. revert next Hn Hb. induction fuel as [|fuel IH]; intros next Hn Hb Hmod Hf; [lia|].
  assert (2 ^ 12 <= 2 ^ k <= 2 ^ 40) as Hp by (split; apply Z.pow_le_mono_r; lia).
  cbn [align_loop]. rewrite (u64_small (2 ^ k - 1)) by lia. rewrite land_low by lia.
  pose proof (Z.div_mod next (2 ^ k)) as Hdm. pose proof (Z.mod_pos_bound next (2 ^ k)) as Hr.
  destruct (Z.eqb_spec (next mod 2 ^ k) 0) as [Hz|Hnz]; cbn [negb].
  - f_equal. unfold align_up. replace (next + 2 ^ k - 1) with (2 ^ k - 1 + next / 2 ^ k * 2 ^ k) by lia.
    rewrite Z.div_add, Z.div_small by lia. lia.
  - assert (align_up next (2 ^ k) = (next / 2 ^ k + 1) * 2 ^ k) as Hup.
    { unfold align_up. f_equal.
      replace (next + 2 ^ k - 1) with (next mod 2 ^ k - 1 + (next / 2 ^ k + 1) * 2 ^ k) by lia.
      rewrite Z.div_add, Z.div_small by lia. lia. }
    assert (exists x, next mod 2 ^ k = kPageSize * x) as [x Hx].
    { exists (next / kPageSize - next / 2 ^ k * 2 ^ (k - 12)). pose proof (Z.div_mod next kPageSize) as Hd.
      rewrite Hmod in Hd. unfold kPageSize in *. replace (2 ^ k) with (0x1000 * 2 ^ (k - 12)) in *
        by (rewrite <- (Z.pow_add_r 2 12) by lia; f_equal; lia). lia. }
    assert (exists y, 2 ^ k = kPageSize * y) as [y Hy].
    { exists (2 ^ (k - 12)). unfold kPageSize. rewrite <- (Z.pow_add_r 2 12) by lia. f_equal. lia. }
    unfold kPageSize in *. assert (next + 0x1000 <= align_up next (2 ^ k)) as Hle by (rewrite Hup; lia).
    rewrite u64_small by lia.
    assert (align_up (next + 0x1000) (2 ^ k) = align_up next (2 ^ k)) as Heq.
    { rewrite Hup. unfold align_up. f_equal.
      replace (next + 0x1000 + 2 ^ k - 1) with (next mod 2 ^ k + 0x1000 - 1 + (next / 2 ^ k + 1) * 2 ^ k) by lia.
      rewrite Z.div_add, Z.div_small by lia. lia. }
    rewrite IH, Heq; [done|lia|by rewrite Heq| |].
    + rewrite <- Z.add_mod_idemp_l, Hmod by lia. done.
    + rewrite Heq. assert ((align_up next (2 ^ k) - next) / 0x1000 =
        (align_up next (2 ^ k) - (next + 0x1000)) / 0x1000 + 1) as Hd.
      { rewrite <- Z.div_add by lia. f_equal. lia. }
      rewrite Hd in Hf. assert (0 <= (align_up next (2 ^ k) - (next + 0x1000)) / 0x1000); [|lia].
      apply Z.div_pos; lia.
Qed.

Lemma align_up_bounds n a : 0 < a -> n <= align_up n a < n + a /\ align_up n a mod a = 0.
Proof.
  intros Ha. unfold align_up. pose proof (Z.div_mod (n + a - 1) a). pose proof (Z.mod_pos_bound (n + a - 1) a).
  split; [nia|]. apply Z.mod_mul. lia.
Qed.

Lemma align_up_page_mod n k : 12 <= k -> align_up n (2 ^ k) mod kPageSize = 0.
Proof.
  intros Hk. unfold align_up, kPageSize. replace (2 ^ k) with (2 ^ (k - 12) * 0x1000) at 3
    by (change 0x1000 with (2 ^ 12); rewrite <- Z.pow_add_r by lia; f_equal; lia).
  rewrite Z.mul_assoc. apply Z.mod_mul. lia.
Qed.

Lemma round_up_size size :
  0 < size < 2 ^ 63 -> Z.land (size [-] 1) (not64 0xFFF) [+] 0x1000 = align_up size kPageSize.
Proof.
  intros Hs. rewrite (u64_small (size - 1)) by lia.
  change (Z.land (size - 1) (not64 0xFFF)) with (Z.land (size - 1) (not64 (2 ^ 12 - 1))).
  rewrite land_not64_low by lia. change (2 ^ 12) with 0x1000. unfold align_up, kPageSize.
  replace (size + 0x1000 - 1) with (size - 1 + 1 * 0x1000) by lia. rewrite Z.div_add by lia.
  pose proof (Z.div_mod (size - 1) 0x1000). pose proof (Z.mod_pos_bound (size - 1) 0x1000).
  pose proof (Z.mod_le (size - 1) 0x1000). rewrite u64_small by lia. lia.
Qed.

(** The part of the address space handed out for mappings so far ends at a
    page boundary. *)
Definition memmap_wf (a : AddressSpace) : Prop :=
  0x2000000000 <= next_memmap_addr_ a < 0x3000000000 /\ next_memmap_addr_ a mod kPageSize = 0.

(** For a power-of-two alignment of at least a page (or none),
    [GetNextMemMapAddr] terminates and returns the first aligned address of
    the unused part of the MEM_MAP region, moves past the whole pages of the
    mapping, and stops the kernel exactly when the region is exhausted: so
    the ranges it returns never overlap. *)
Theorem GetNextMemMapAddr_fresh size align k a :
  memmap_wf a -> 0 < size < 2 ^ 62 -> align = 0 /\ k = 12 \/ align = 2 ^ k /\ 12 <= k <= 40 ->
  let addr := align_up (next_memmap_addr_ a) (2 ^ k) in
  let next := addr + align_up size kPageSize in
  next_memmap_addr_ a <= addr /\ addr mod 2 ^ k = 0 /\ addr + size <= next /\
  (GetNextMemMapAddr size align a = Ret (addr, with_memmap a next) /\ memmap_wf (with_memmap a next) \/
   GetNextMemMapAddr size align a = Panic /\ 0x3000000000 <= next).
Proof.
  intros [Hb Hm] Hsize Hal. cbv zeta.
  assert (12 <= k <= 40) as Hk by (destruct Hal as [[_ ->]|[_ ?]]; lia).
  assert (2 ^ 12 <= 2 ^ k <= 2 ^ 40) as Hp by (split; apply Z.pow_le_mono_r; lia).
  destruct (align_up_bounds (next_memmap_addr_ a) (2 ^ k)) as [H1 H2]; [lia|].
  destruct (align_up_bounds size kPageSize) as [H3 H4]; [done|].
  split_and!; [lia|done|lia|]. unfold GetNextMemMapAddr. destruct (Z.eqb_spec size 0); [lia|].
  rewrite round_up_size by lia.
  assert ((if 0 <? align then align_loop (S (Z.to_nat (align / kPageSize))) (next_memmap_addr_ a) align
           else Ret (next_memmap_addr_ a)) = Ret (align_up (next_memmap_addr_ a) (2 ^ k))) as ->.
  { destruct Hal as [[-> ->]|[-> _]].
    - cbn [Z.ltb Z.compare]. f_equal. change (2 ^ 12) with kPageSize in *.
      pose proof (Z.div_mod (next_memmap_addr_ a) kPageSize).
      pose proof (Z.div_mod (align_up (next_memmap_addr_ a) kPageSize) kPageSize). unfold kPageSize in *. lia.
    - destruct (Z.ltb_spec 0 (2 ^ k)); [|lia]. apply align_loop_spec; [lia|lia|lia|done|].
      assert ((align_up (next_memmap_addr_ a) (2 ^ k) - next_memmap_addr_ a) / kPageSize <= 2 ^ k / kPageSize); [|lia].
      apply Z.div_le_mono; [done|lia]. }
  rewrite ret_bind. unfold kPageSize in *. rewrite u64_small by lia.
  destruct (Z.leb_spec 0x3000000000 (align_up (next_memmap_addr_ a) (2 ^ k) + align_up size 0x1000)); [by right|left].
  split; [done|]. unfold memmap_wf, kPageSize. cbn [next_memmap_addr_ with_memmap]. split; [lia|].
  rewrite Z.add_mod by lia.
  pose proof (align_up_page_mod (next_memmap_addr_ a) k) as H5. unfold kPageSize in H5. rewrite H5, H4 by lia. done.
Qed.

(** ** Releasing a range *)
Section release.
Implicit Types (s : phys) (a : AddressSpace).

Lemma vpage_small v : 0 <= v < 2 ^ 48 -> vpage v = v / kPageSize.
Proof. intros Hv. unfold vpage. by rewrite Z.mod_small. Qed.

Lemma div_page_le x y : x mod kPageSize = 0 -> x <= y <-> x / kPageSize <= y / kPageSize.
Proof.
  intros Hx. pose proof (Z.div_mod x kPageSize). pose proof (Z.div_mod y kPageSize).
  pose proof (Z.mod_pos_bound y kPageSize). unfold kPageSize in *. lia.
Qed.

(** One unmapping, in terms of page numbers of the lower half. *)
Lemma UnmapPage_lower k cr3 vaddr s v :
  tables_wf k cr3 s -> 0 <= vaddr < 2 ^ 48 -> 0 <= v < 2 ^ 48 ->
  tables_wf k cr3 (UnmapPage cr3 vaddr s) /\
  PagePhysIfResident cr3 v (words (UnmapPage cr3 vaddr s)) =
    if decide (v / kPageSize = vaddr / kPageSize) then 0 else PagePhysIfResident cr3 v (words s).
Proof.
  intros Hwf Hva Hv. assert (is_u64 vaddr /\ is_u64 v) as [Hu1 Hu2] by (unfold is_u64; lia).
  destruct (UnmapPage_walk k cr3 vaddr s Hwf Hu1) as (Hwf' & _ & Hl). split; [done|].
  rewrite !PagePhys_leaf by (done || apply Hwf || apply Hwf'). rewrite Hl by apply vpath_idx.
  case_decide as Hp; case_decide as Hd; try done.
  - exfalso. apply Hd. apply vpath_vpage in Hp. by rewrite !vpage_small in Hp.
  - exfalso. apply Hp. unfold vpath, idx. rewrite !(Z.mod_small _ (2 ^ 48)) by lia.
    assert (forall off, 12 <= off -> v / 2 ^ off = vaddr / 2 ^ off) as Heq.
    { intros off Hoff. replace (2 ^ off) with (kPageSize * 2 ^ (off - 12)).
      - rewrite <- !Z.div_div by (unfold kPageSize; lia). by rewrite Hd.
      - unfold kPageSize. rewrite <- (Z.pow_add_r 2 12) by lia. f_equal. lia. }
    by rewrite !Heq by lia.
Qed.

Lemma unmap_loop_spec fuel k cr3 addr limit s :
  tables_wf k cr3 s -> 0 <= addr -> addr mod kPageSize = 0 -> addr < 2 ^ 48 -> limit <= 2 ^ 48 - kPageSize ->
  (Z.to_nat ((limit - addr + 0xFFF) / kPageSize) < fuel)%nat ->
  exists s', unmap_loop fuel cr3 addr limit s = Ret s' /\ tables_wf k cr3 s' /\
    forall v, 0 <= v < 2 ^ 48 -> PagePhysIfResident cr3 v (words s') =
      if decide (addr <= v /\ v / kPageSize * kPageSize < limit) then 0 else PagePhysIfResident cr3 v (words s).
Proof.
  revert addr s. induction fuel as [|fuel IH]; intros addr s Hwf Ha Hm Hb Hl Hf; [lia|].
  cbn [unmap_loop]. destruct (Z.ltb_spec addr limit) as [Hlt|Hge].
  - assert (addr mod kPageSize = 0) as Hm' by done. unfold kPageSize in *. rewrite u64_small by lia.
    destruct (UnmapPage_lower k cr3 addr s addr Hwf) as [Hwf1 _]; [lia|lia|].
    destruct (IH (addr + 0x1000) (UnmapPage cr3 addr s) Hwf1) as (s' & -> & Hwf' & Hv); [lia| |lia|lia| |].
    { rewrite <- Z.add_mod_idemp_l, Hm by lia. done. }
    { assert ((limit - addr + 0xFFF) / 0x1000 = (limit - (addr + 0x1000) + 0xFFF) / 0x1000 + 1) as Hd.
      { rewrite <- Z.div_add by lia. f_equal. lia. }
      assert (0 <= (limit - (addr + 0x1000) + 0xFFF) / 0x1000) by (apply Z.div_pos; lia). lia. }
    exists s'. split_and!; [done|done|]. intros v Hvr. rewrite Hv by done.
    destruct (UnmapPage_lower k cr3 addr s v Hwf) as [_ ->]; [lia|done|].
    pose proof (Z.div_mod v 0x1000). pose proof (Z.mod_pos_bound v 0x1000).
    pose proof (Z.div_mod addr 0x1000). unfold kPageSize.
    repeat case_decide; try done; exfalso; lia.
  - exists s. split_and!; [done|done|]. intros v Hv. rewrite decide_False; [done|]. intros [H1 H2].
    pose proof (div_page_le addr v Hm). pose proof (Z.div_mod addr kPageSize). unfold kPageSize in *. lia.
Qed.
End release.

(** Releasing a range for a living process removes the mappings and
    every translation from the range's first page to the page of its limit,
    and no other; for a dying process (and in AddressSpaceUnmap, which passes
    the same flag) the page tables are left as they are, so the pages of the
    removed mappings stay reachable. *)
Theorem FreeAddressRange_translations k a s m objs base limit t' :
  tables_wf k (cr3_ a) s -> tree_wf objs (mapping_tree_ a) m ->
  0 <= base -> base mod kPageSize = 0 -> base < limit -> limit <= 2 ^ 48 - kPageSize ->
  FreeMemoryRange base limit (mapping_tree_ a) = Ret (OK, t') ->
  FreeAddressRange base limit true a s = Ret (OK, with_tree a t', s) /\
  exists s', FreeAddressRange base limit false a s = Ret (OK, with_tree a t', s') /\ tables_wf k (cr3_ a) s' /\
    forall v, 0 <= v < 2 ^ 48 -> PagePhysIfResident (cr3_ a) v (words s') =
      if decide (base <= v /\ v / kPageSize <= limit / kPageSize) then 0
      else PagePhysIfResident (cr3_ a) v (words s).
Proof.
  intros Hwf Ht Hb Hm Hlt Hl Hfree. unfold FreeAddressRange. rewrite Hfree, !ret_bind.
  rewrite bool_decide_true by done. cbn [negb]. split; [done|]. cbn [cr3_ with_tree].
  destruct (unmap_loop_spec (S (Z.to_nat ((limit - base) / kPageSize + 1))) k (cr3_ a) base limit s Hwf)
    as (s1 & -> & Hwf1 & Hv1); [lia|done|unfold kPageSize in *; lia|done| |].
  { assert ((limit - base + 0xFFF) / kPageSize <= (limit - base) / kPageSize + 1); [|lia].
    unfold kPageSize. rewrite <- Z.div_add by lia. apply Z.div_le_mono; lia. }
  rewrite ret_bind. unfold kPageSize in *.
  eexists. split; [done|]. split; [apply (UnmapPage_lower k (cr3_ a) limit s1 limit Hwf1); lia|].
  intros v Hv. destruct (UnmapPage_lower k (cr3_ a) limit s1 v Hwf1) as [_ ->]; [lia|done|]. rewrite Hv1 by done.
  pose proof (Z.div_mod v 0x1000). pose proof (Z.mod_pos_bound v 0x1000). pose proof (Z.div_mod limit 0x1000).
  pose proof (Z.mod_pos_bound limit 0x1000). pose proof (Z.div_mod base 0x1000). unfold kPageSize.
  repeat case_decide; try done; exfalso; lia.
Qed.

(** ** Page faults *)
Definition obj_ok (o : MemoryObject) : Prop :=
  match o with VariableMemoryObject _ l => Forall is_u64 l | _ => True end.

Section fault.
Implicit Types (s : phys) (o : MemoryObject).

Lemma tables_wf_alloc k cr3 s page s' :
  tables_wf k cr3 s -> AllocatePage s = Ret (page, s') -> tables_wf k cr3 s' /\ is_u64 page /\ words s' = words s.
Proof.
  intros Hwf Ha. destruct (AllocatePage_spec k s page s' (tw_phys _ _ _ Hwf) Ha) as (H1 & H2 & H3).
  destruct Hwf as [Hph Hw Hc [Hnd Hal] Htu Htr]. rewrite H2 in Hnd, Hal. rewrite <- H3 in *.
  apply NoDup_cons in Hnd as [_ Hnd]. apply Forall_cons in Hal as [[Hu _] Hal]. split_and!; [|done|done].
  split; try done. intros path p Hl Hf Hr Hin. apply (Htu path p Hl Hf Hr). rewrite H2. by right.
Qed.

Lemma page_of_object k cr3 pn o s page o' s' :
  tables_wf k cr3 s -> obj_ok o -> PageNumberToPhysAddr pn o s = Ret (page, o', s') ->
  tables_wf k cr3 s' /\ is_u64 page /\ words s' = words s.
Proof.
  intros Hwf Hok. destruct o as [sz l|sz addr|sz addr]; cbn [PageNumberToPhysAddr].
  - intros (p & Hp%deref_Ret & Hr)%bind_Ret. case_if_hyp Hr.
    + apply bind_Ret in Hr as ([page' s1] & Ha & Hr). injection Hr as -> <- <-. by apply tables_wf_alloc.
    + injection Hr as -> <- <-. split_and!; try done. cbn in Hok. rewrite Forall_lookup in Hok. by eapply Hok.
  - intros [= <- <- <-]. split_and!; [done|apply u64_range|done].
  - intros [= <- <- <-]. split_and!; [done|apply u64_range|done].
Qed.
End fault.

(** C30.  A resolved page fault makes the faulting address translate to the
    page of the memory object that its mapping names, at the offset of the
    address in the mapping, and no other page changes; a fault is refused,
    with nothing changed, exactly on the first page of the address space and
    where no mapping covers the address. *)
Theorem HandlePageFault_resolves k objs s a m vaddr r objs' s' :
  tables_wf k (cr3_ a) s -> tree_wf objs (mapping_tree_ a) m -> map_Forall (fun _ o => obj_ok o) objs ->
  0 <= vaddr < 2 ^ 64 - 1 -> HandlePageFault vaddr objs a s = Ret (r, objs', s') ->
  (r = true /\ kPageSize <= vaddr /\ exists b x o page o' s1,
     m !! b = Some x /\ b <= vaddr < vaddr_limit x /\ objs !! mem_object x = Some o /\
     PageNumberToPhysAddr ((vaddr - b) / 0x1000) o s = Ret (page, o', s1) /\
     objs' = <[mem_object x := o']> objs /\ tables_wf k (cr3_ a) s' /\
     PagePhysIfResident (cr3_ a) vaddr (words s') = PageAlign page /\
     forall v, is_u64 v -> vpage v <> vpage vaddr ->
       PagePhysIfResident (cr3_ a) v (words s') = PagePhysIfResident (cr3_ a) v (words s)) \/
  (r = false /\ objs' = objs /\ s' = s /\
   (vaddr < kPageSize \/ forall b x, m !! b = Some x -> ~ (b <= vaddr < vaddr_limit x))).
Proof.
  intros Hwf Ht Hok Hv. unfold HandlePageFault. destruct (Z.ltb_spec vaddr kPageSize) as [Hlow|Hhigh].
  { intros [= <- <- <-]. right. auto. }
  unfold GetPhysicalPageAtVaddr.
  destruct (GetMemoryMappingForAddr_spec objs (mapping_tree_ a) m vaddr Ht Hv) as [(b & x & -> & Hx & Hbx)|[-> Hno]].
  2:{ rewrite !ret_bind. intros [= <- <- <-]. right. auto. }
  rewrite ret_bind. destruct (mw_ok _ _ (proj2 Ht) b x Hx) as (Hb0 & Hb & o & Ho & Hsz & Hl & Hl').
  rewrite Ho. cbn [deref]. rewrite ret_bind, Hb, u64_small by lia. unfold PhysicalPageAtOffset.
  destruct (Z.ltb_spec (MemoryObject_size o) (vaddr - b)); [lia|].
  intros ([[err objs1] s2] & Hp & Hr)%bind_Ret. apply bind_Ret in Hp as ([[page o'] s1] & Hp & Hq).
  injection Hq as <- <- <-. apply bind_Ret in Hr as (s3 & Hm & Hr). injection Hr as <- <- <-.
  destruct (page_of_object k (cr3_ a) _ o s page o' s1 Hwf (Hok _ _ Ho) Hp) as (Hwf1 & Hpu & Hw).
  assert (is_u64 vaddr) as Hvu by (unfold is_u64; lia).
  destruct (MapPage_walk k (cr3_ a) vaddr page s1 s3 Hwf1 Hvu Hpu Hm) as (_ & Hwf3 & Hleaf & _).
  left. split; [done|]. split; [done|]. exists b, x, o, page, o', s1. split_and!; try done; try lia.
  - rewrite PagePhys_leaf by (done || apply Hwf3). rewrite Hleaf by apply vpath_idx. by rewrite decide_True.
  - intros v Hvv Hne. rewrite !PagePhys_leaf by (done || apply Hwf3 || apply Hwf). rewrite Hleaf by apply vpath_idx.
    rewrite decide_False; [by rewrite Hw|]. intros Heq. by apply Hne, vpath_vpage.
Qed.

(** *** Witnesses *)
Definition sample_as : AddressSpace := mkAs 0x400000 Usm_new 0x2000001000 sample_tree.

Lemma user_stacks_disjoint_witness :
  NoDup [0x7fffffe00000; 0x7ffffff00000].
Proof.
  refine (proj1 (user_stacks_disjoint (mkUsm 0x7fffffe00000 ll_new) [0x7fffffe00000; 0x7ffffff00000] _)).
  eapply rtc_l; [apply (step_NewUserStack Usm_new (mkUsm 0x7ffffff00000 ll_new) 0x7ffffff00000); reflexivity|].
  eapply rtc_l; [apply (step_NewUserStack _ (mkUsm 0x7fffffe00000 ll_new) 0x7fffffe00000); reflexivity|]. apply rtc_refl.
Defined.

Lemma GetNextMemMapAddr_fresh_witness :
  GetNextMemMapAddr 0x1234 0x200000 sample_as = Ret (0x2000200000, with_memmap sample_as 0x2000202000).
Proof.
  destruct (GetNextMemMapAddr_fresh 0x1234 0x200000 21 sample_as) as (_ & _ & _ & [[H _]|[_ H]]).
  - split; [cbn; lia|reflexivity].
  - lia.
  - right. split; [reflexivity|lia].
  - exact H.
  - vm_compute in H. destruct (H eq_refl).
Defined.

Lemma FreeAddressRange_translations_witness :
  exists t', FreeAddressRange 0x8000 0xA000 true sample_as sample_phys = Ret (OK, with_tree sample_as t', sample_phys).
Proof.
  eexists. refine (proj1 (FreeAddressRange_translations 2 sample_as sample_phys sample_map sample_objs 0x8000 0xA000 _
    sample_tables_wf sample_tree_wf _ _ _ _ _)).
  - lia.
  - reflexivity.
  - lia.
  - unfold kPageSize. lia.
  - vm_compute. reflexivity.
Defined.

Lemma sample_objs_ok : map_Forall (fun _ o => obj_ok o) sample_objs.
Proof. apply map_Forall_singleton. unfold obj_ok, VariableMemoryObject_new. by apply Forall_replicate. Qed.

Lemma HandlePageFault_resolves_witness :
  exists objs' s', HandlePageFault 0x6123 sample_objs sample_as sample_phys = Ret (true, objs', s') /\
    PagePhysIfResident 0x400000 0x6123 (words s') = 0x200000.
Proof.
  assert (is_ret (HandlePageFault 0x6123 sample_objs sample_as sample_phys) = true) as Hr by (vm_compute; reflexivity).
  apply is_ret_Ret in Hr as [[[r objs'] s'] Hs'].
  destruct (HandlePageFault_resolves 2 sample_objs sample_phys sample_as sample_map 0x6123 r objs' s'
    sample_tables_wf sample_tree_wf sample_objs_ok) as [(-> & _ & b & x & o & page & o' & s1 & Hx & Hb & Ho & Hp & _ & _ & Ht & _)|(_ & _ & _ & [H|H])].
  - lia.
  - exact Hs'.
  - exists objs', s'. split; [exact Hs'|]. cbn [cr3_ sample_as] in Ht. rewrite Ht.
    apply sample_map_cases in Hx as [[-> ->]|[[-> ->]|[-> ->]]]; cbn in Hb; try lia.
    vm_compute in Ho. injection Ho as <-. vm_compute in Hp. injection Hp as <- _ _. reflexivity.
  - unfold kPageSize in H. lia.
  - destruct (H 0x5000 (mkMapping 0x5000 0x7000 1)); [reflexivity|cbn; lia].
Defined.
