(* ===== verification/Capability.v ===== *)
(** * Capabilities (zion/capability/capability.h, capability_table.h,
    capability_table.cpp, zion/object/kernel_object.h, zion/syscall/capability.cpp)

    A capability is a reference to a kernel object with a permission mask;
    both are fixed when it is made, so capabilities are values.  A process
    holds them in a [HashMap] under ids that are never reused. *)

From Stdlib Require Import ZArith Lia.
From stdpp Require Import base tactics numbers list gmap fin_maps relations.
From S2P Require Import Prelude Status LinkedList Hash HashMap.

(** ** Kernel objects *)
Inductive ObjectType : Type :=
| INVALID_OBJECT | PROCESS | THREAD | ADDRESS_SPACE | MEMORY_OBJECT | CHANNEL | PORT | ENDPOINT
| REPLY_PORT | MUTEX | SEMAPHORE.

#[export] Instance ObjectType_eq_dec : EqDecision ObjectType.
Proof. solve_decision. Defined.

Definition ObjectType_val (t : ObjectType) : Z :=
  match t with
  | INVALID_OBJECT => 0x0 | PROCESS => 0x1 | THREAD => 0x2 | ADDRESS_SPACE => 0x3 | MEMORY_OBJECT => 0x4
  | CHANNEL => 0x5 | PORT => 0x6 | ENDPOINT => 0x7 | REPLY_PORT => 0x8 | MUTEX => 0x9 | SEMAPHORE => 0x10
  end.

(** A [RefPtr<KernelObject>]: the object's type tag and where it lives. *)
Record KernelObject : Type := mkObj { TypeTag : ObjectType; obj_ref : positive }.

#[export] Instance KernelObject_eq_dec : EqDecision KernelObject.
Proof. solve_decision. Defined.

(** ** Permissions (zion/include/ztypes.h) *)
Definition kZionPerm_Write : Z := 0x1.
Definition kZionPerm_Read : Z := 0x2.
Definition kZionPerm_Transmit : Z := 0x10.
Definition kZionPerm_Duplicate : Z := 0x20.
Definition kZionPerm_SpawnProcess : Z := 0x100.
Definition kZionPerm_SpawnThread : Z := 0x200.
Definition kZionPerm_Lock : Z := 0x100.
Definition kZionPerm_Release : Z := 0x200.
Definition kZionPerm_Wait : Z := 0x100.
Definition kZionPerm_Signal : Z := 0x200.

Record Capability : Type := mkCap { obj_ : KernelObject; permissions_ : Z }.

#[export] Instance Capability_eq_dec : EqDecision Capability.
Proof. solve_decision. Defined.

Definition HasPermissions (c : Capability) (requested : Z) : bool :=
  Z.land (permissions_ c) requested =? requested.

(** [Capability::obj<T>()]: a type mismatch stops the kernel. *)
Definition Capability_obj (t : ObjectType) (c : Capability) : res positive :=
  if negb (bool_decide (TypeTag (obj_ c) = t)) then Panic else Ret (obj_ref (obj_ c)).

Definition ValidateCapability (t : ObjectType) (cap : option Capability) (permissions : Z) : ErrorCode :=
  match cap with
  | None => CAP_NOT_FOUND
  | Some c =>
      if negb (bool_decide (TypeTag (obj_ c) = t)) then CAP_WRONG_TYPE
      else if negb (HasPermissions c permissions) then CAP_PERMISSION_DENIED
      else OK
  end.

(** ** CapabilityTable *)
Record CapabilityTable : Type := mkTable {
  next_cap_id_ : Z;
  capabilities_ : HashMap Z (option Capability);
}.

Definition CapabilityTable_new : CapabilityTable := mkTable 0x100 hm_new.

Definition AddExistingCapability (cap : option Capability) (t : CapabilityTable) : res (Z * CapabilityTable) :=
  let id := next_cap_id_ t in
  '(err, m) ← Insert id cap (capabilities_ t);
  if decide (err = OK) then Ret (id, mkTable (id [+] 1) m) else Panic.

Definition AddNewCapability (object : KernelObject) (permissions : Z) (t : CapabilityTable) :
    res (Z * CapabilityTable) :=
  let id := next_cap_id_ t in
  '(err, m) ← Insert id (Some (mkCap object permissions)) (capabilities_ t);
  if decide (err = OK) then Ret (id, mkTable (id [+] 1) m) else Panic.

Definition GetCapability (id : Z) (t : CapabilityTable) : res (option Capability * CapabilityTable) :=
  found ← Contains id (capabilities_ t);
  if negb found then Ret (None, t) else
  '(cap, m) ← at_ None id (capabilities_ t);
  Ret (cap, mkTable (next_cap_id_ t) m).

Definition ReleaseCapability (id : Z) (t : CapabilityTable) : res (option Capability * CapabilityTable) :=
  found ← Contains id (capabilities_ t);
  if negb found then Ret (None, t) else
  '(cap, m) ← at_ None id (capabilities_ t);
  '(_, m) ← Delete id m;
  Ret (cap, mkTable (next_cap_id_ t) m).

(** [for (uint64_t i = 0; i < next_cap_id_; i++) (void)capabilities_.Delete(i);] *)
Definition ReleaseAll (t : CapabilityTable) : res CapabilityTable :=
  m ← foldl (fun r i => m ← r; '(_, m') ← Delete i m; Ret m') (Ret (capabilities_ t)) (seqZ 0 (next_cap_id_ t));
  Ret (mkTable (next_cap_id_ t) m).

(** ** The capability system calls, on the calling process's table *)
Definition CapDuplicate (cap_in perm_mask : Z) (t : CapabilityTable) :
    res (ErrorCode * option Z * CapabilityTable) :=
  '(cap, t) ← GetCapability cap_in t;
  match cap with
  | None => Ret (CAP_NOT_FOUND, None, t)
  | Some c =>
      if Z.land (permissions_ c) kZionPerm_Duplicate =? 0 then Ret (CAP_PERMISSION_DENIED, None, t) else
      '(id, t) ← AddNewCapability (obj_ c) (Z.land (permissions_ c) perm_mask) t;
      Ret (OK, Some id, t)
  end.

Definition CapRelease (cap : Z) (t : CapabilityTable) : res (ErrorCode * CapabilityTable) :=
  '(c, t) ← ReleaseCapability cap t;
  match c with
  | None => Ret (CAP_NOT_FOUND, t)
  | Some _ => Ret (OK, t)
  end.

(** ** What the table holds *)

Definition caps (t : CapabilityTable) : gmap Z (option Capability) := hm_model (capabilities_ t).

Record table_wf (t : CapabilityTable) : Prop := {
  tbl_map : hm_wf (capabilities_ t);
  tbl_next : 0x100 <= next_cap_id_ t < 2 ^ 55;
  tbl_ids : forall id c, caps t !! id = Some c -> 0x100 <= id < next_cap_id_ t /\ is_Some c;
}.

Section table.
Implicit Types t : CapabilityTable.

Lemma CapabilityTable_new_wf : table_wf CapabilityTable_new.
Proof. split; [apply hm_new_wf|done|]. intros id c. unfold caps. cbn [capabilities_ CapabilityTable_new]. by rewrite hm_new_model. Qed.

(** Ids are dense enough for the table never to reach the map's limit. *)
Lemma table_size t : table_wf t -> hm_size (capabilities_ t) <= next_cap_id_ t.
Proof.
  intros [Hm Hn Hids]. rewrite (wf_size _ Hm).
  set (l := hm_pairs (hm_data (capabilities_ t))) in *.
  assert (l.*1 ⊆+ seqZ 0 (next_cap_id_ t)) as Hsub.
  { apply NoDup_submseteq; [apply Hm|]. intros id (p & -> & Hp)%list_elem_of_fmap. destruct p as [id c].
    apply elem_of_seqZ. destruct (Hids id c); [|cbn; lia].
    apply elem_of_list_to_map_1; [apply Hm|done]. }
  apply submseteq_length in Hsub. rewrite length_fmap, length_seqZ in Hsub. lia.
Qed.

Lemma add_spec t v :
  table_wf t -> next_cap_id_ t < 2 ^ 55 - 1 -> is_Some v ->
  exists m, Insert (next_cap_id_ t) v (capabilities_ t) = Ret (OK, m) /\
    caps t !! next_cap_id_ t = None /\ hm_data m <> [] /\
    caps (mkTable (next_cap_id_ t [+] 1) m) = <[next_cap_id_ t := v]> (caps t) /\
    table_wf (mkTable (next_cap_id_ t [+] 1) m).
Proof.
  intros Ht Hn Hv. pose proof (table_size t Ht) as Hs. destruct Ht as [Hm Hnext Hids].
  assert (caps t !! next_cap_id_ t = None) as Hnone.
  { destruct (caps t !! next_cap_id_ t) eqn:E; [|done]. destruct (Hids _ _ E). lia. }
  destruct (Insert_spec (capabilities_ t) (next_cap_id_ t) v Hm) as (m & Hwf & Hcase & Hne); [lia|].
  unfold caps in *. rewrite Hnone in Hcase. destruct Hcase as [Hins Hmod]. exists m.
  split_and!; try done. split; cbn [capabilities_ next_cap_id_]; [done|rewrite u64_small by lia; lia|].
  unfold caps. cbn [capabilities_]. rewrite Hmod, u64_small by lia.
  intros id c [[<- <-]|[Hne' Hc]]%lookup_insert_Some; [split; [lia|done]|].
  destruct (Hids _ _ Hc). split; [lia|done].
Qed.

Lemma GetCapability_spec t id :
  table_wf t -> GetCapability id t = Ret (default None (caps t !! id), t).
Proof.
  intros Ht. unfold GetCapability, caps. rewrite Contains_spec by apply Ht. rewrite ret_bind.
  destruct (hm_model (capabilities_ t) !! id) as [c|] eqn:E.
  - rewrite bool_decide_true by (by eexists). cbn [negb]. rewrite (at_spec _ None id c) by (done || apply Ht).
    rewrite ret_bind. by destruct t.
  - rewrite bool_decide_false; [done|]. by intros [? ?].
Qed.

Lemma ReleaseCapability_spec t id :
  table_wf t -> exists t', ReleaseCapability id t = Ret (default None (caps t !! id), t') /\
    table_wf t' /\ caps t' = delete id (caps t) /\ next_cap_id_ t' = next_cap_id_ t.
Proof.
  intros Ht. unfold ReleaseCapability, caps. rewrite Contains_spec by apply Ht. rewrite ret_bind.
  destruct (hm_model (capabilities_ t) !! id) as [c|] eqn:E.
  - rewrite bool_decide_true by (by eexists). cbn [negb]. rewrite (at_spec _ None id c) by (done || apply Ht).
    rewrite ret_bind.
    assert (hm_data (capabilities_ t) <> []) as Hne.
    { intros Hd. unfold hm_model in E. rewrite Hd in E. done. }
    destruct (Delete_spec (capabilities_ t) id) as (m & Hwf & Hmod & _ & ->); [apply Ht|done|].
    rewrite ret_bind. eexists. split; [done|]. cbn [capabilities_ next_cap_id_]. split_and!; [|done|done].
    split; [done|apply Ht|]. unfold caps. cbn [capabilities_]. rewrite Hmod.
    intros id' c' [_ Hc]%lookup_delete_Some. by apply (tbl_ids _ Ht).
  - rewrite bool_decide_false by (by intros [? ?]). cbn [negb]. exists t. split_and!; [done|done| |done].
    by rewrite delete_id.
Qed.

Lemma delete_each (l : list Z) (m : HashMap Z (option Capability)) :
  hm_wf m -> hm_data m <> [] ->
  exists m', foldl (fun r i => m ← r; '(_, m') ← Delete i m; Ret m') (Ret m) l = Ret m' /\
    hm_wf m' /\ hm_data m' <> [] /\
    forall id, hm_model m' !! id = if decide (id ∈ l) then None else hm_model m !! id.
Proof.
  revert m. induction l as [|i l IH]; intros m Hm Hd.
  { by exists m. }
  cbn [foldl]. rewrite ret_bind. destruct (Delete_spec m i Hm Hd) as (m1 & Hm1 & Hmod & Hd1 & ->). rewrite ret_bind.
  destruct (IH m1 Hm1 Hd1) as (m' & -> & Hm' & Hd' & Hl). exists m'. split_and!; try done.
  intros id. rewrite Hl, Hmod. destruct (decide (id = i)) as [->|Hne].
  - rewrite (decide_True (P := i ∈ i :: l)) by (by left). case_decide; [done|by rewrite lookup_delete_eq].
  - rewrite lookup_delete_ne by done. apply decide_ext. set_solver.
Qed.

Lemma Delete_no_buckets (m : HashMap Z (option Capability)) i : hm_data m = [] -> Delete i m = Fault.
Proof. intros Hd. unfold Delete, data_size, bucket_index. by rewrite Hd. Qed.

Lemma delete_each_fault (l : list Z) :
  foldl (fun r i => m ← r; '(_, m') ← Delete i m; Ret m') (Fault : res (HashMap Z (option Capability))) l = Fault.
Proof. induction l as [|i l IH]; [done|exact IH]. Qed.

(** The permissions of a masked copy. *)
Lemma masked_permissions (c : Capability) mask p :
  HasPermissions (mkCap (obj_ c) (Z.land (permissions_ c) mask)) p = true -> HasPermissions c p = true.
Proof.
  unfold HasPermissions. cbn [permissions_]. rewrite !Z.eqb_eq. intros H. rewrite <- H at 1.
  rewrite !Z.land_assoc, Z.land_diag. done.
Qed.

Lemma CapDuplicate_spec t cap_in perm_mask :
  table_wf t -> next_cap_id_ t < 2 ^ 55 - 1 ->
  match default None (caps t !! cap_in) with
  | None => CapDuplicate cap_in perm_mask t = Ret (CAP_NOT_FOUND, None, t)
  | Some c =>
      if Z.land (permissions_ c) kZionPerm_Duplicate =? 0
      then CapDuplicate cap_in perm_mask t = Ret (CAP_PERMISSION_DENIED, None, t)
      else exists t', CapDuplicate cap_in perm_mask t = Ret (OK, Some (next_cap_id_ t), t') /\ table_wf t' /\
        next_cap_id_ t' = next_cap_id_ t + 1 /\ caps t !! next_cap_id_ t = None /\
        caps t' = <[next_cap_id_ t := Some (mkCap (obj_ c) (Z.land (permissions_ c) perm_mask))]> (caps t)
  end.
Proof.
  intros Ht Hn. unfold CapDuplicate. rewrite (GetCapability_spec t cap_in Ht), ret_bind.
  destruct (default None (caps t !! cap_in)) as [c|]; [|done]. case_if_goal; [done|].
  destruct (add_spec t (Some (mkCap (obj_ c) (Z.land (permissions_ c) perm_mask))) Ht Hn)
    as (m & Hi & Hnone & _ & Hc & Hwf); [by eexists|].
  unfold AddNewCapability. rewrite Hi, ret_bind, decide_True by done. rewrite ret_bind.
  pose proof (tbl_next _ Ht). eexists. split_and!; [done|done| |done|done]. cbn. apply u64_small. lia.
Qed.
End table.

(** ** Properties *)

(** The table is a finite map from ids to capabilities: adding uses an
    id that no capability has or had and binds exactly it, lookup and release
    answer with what is bound and release unbinds it, and the invariant is
    kept. *)
Theorem CapabilityTable_refines_map t id obj perms :
  table_wf t -> next_cap_id_ t < 2 ^ 55 - 1 ->
  (exists t', AddNewCapability obj perms t = Ret (next_cap_id_ t, t') /\ table_wf t' /\
     next_cap_id_ t' = next_cap_id_ t + 1 /\ caps t !! next_cap_id_ t = None /\
     caps t' = <[next_cap_id_ t := Some (mkCap obj perms)]> (caps t)) /\
  GetCapability id t = Ret (default None (caps t !! id), t) /\
  (exists t', ReleaseCapability id t = Ret (default None (caps t !! id), t') /\ table_wf t' /\
     next_cap_id_ t' = next_cap_id_ t /\ caps t' = delete id (caps t)).
Proof.
  intros Ht Hn. split_and!.
  - destruct (add_spec t (Some (mkCap obj perms)) Ht Hn) as (m & Hi & Hnone & _ & Hc & Hwf); [by eexists|].
    unfold AddNewCapability. rewrite Hi, ret_bind, decide_True by done. pose proof (tbl_next _ Ht).
    eexists. split_and!; [done|done| |done|done]. cbn. apply u64_small. lia.
  - by apply GetCapability_spec.
  - destruct (ReleaseCapability_spec t id Ht) as (t' & ? & ? & ? & ?). exists t'. done.
Qed.

(** Releasing everything empties a table that ever held a capability,
    but divides by the bucket count zero on one that never did. *)
Theorem ReleaseAll_empties_or_faults t :
  table_wf t ->
  (hm_data (capabilities_ t) <> [] -> exists t', ReleaseAll t = Ret t' /\ caps t' = ∅) /\
  (hm_data (capabilities_ t) = [] -> ReleaseAll t = Fault).
Proof.
  intros Ht. unfold ReleaseAll. split; intros Hd.
  - destruct (delete_each (seqZ 0 (next_cap_id_ t)) (capabilities_ t)) as (m & -> & Hm & _ & Hl);
      [apply Ht|done|]. rewrite ret_bind. eexists. split; [done|]. apply map_empty. intros id.
    unfold caps. cbn [capabilities_]. rewrite Hl. case_decide as Hin; [done|].
    destruct (hm_model (capabilities_ t) !! id) as [c|] eqn:E; [|done]. destruct Hin.
    apply elem_of_seqZ. destruct (tbl_ids _ Ht _ _ E). lia.
  - pose proof (tbl_next _ Ht). rewrite seqZ_cons by lia. cbn [foldl]. rewrite ret_bind.
    rewrite Delete_no_buckets by done. by rewrite delete_each_fault.
Qed.

(** Sequences of the two capability system calls. *)
Inductive cap_step : CapabilityTable -> CapabilityTable -> Prop :=
| step_CapDuplicate t t' cap_in perm_mask err out :
    next_cap_id_ t < 2 ^ 55 - 1 -> CapDuplicate cap_in perm_mask t = Ret (err, out, t') -> cap_step t t'
| step_CapRelease t t' cap err : CapRelease cap t = Ret (err, t') -> cap_step t t'.

(** Every capability of [t'] grants no more than one of [t] on the same object. *)
Definition derived (t t' : CapabilityTable) : Prop :=
  forall id c, caps t' !! id = Some (Some c) -> exists id0 c0, caps t !! id0 = Some (Some c0) /\
    obj_ c = obj_ c0 /\ forall p, HasPermissions c p = true -> HasPermissions c0 p = true.

Lemma cap_step_derived t t' : table_wf t -> cap_step t t' -> table_wf t' /\ derived t t'.
Proof.
  intros Ht Hs. revert Ht. destruct Hs as [t1 t2 cap_in mask err out Hn Hd|t1 t2 cap err Hr]; intros Ht.
  - pose proof (CapDuplicate_spec t1 cap_in mask Ht Hn) as H.
    assert (derived t1 t1) as Hrefl by (intros id c Hc; eauto).
    destruct (default None (caps t1 !! cap_in)) as [c|] eqn:Ec; [case_if_hyp H|];
      try (rewrite Hd in H; injection H as -> -> ->; done).
    destruct H as (t' & Hd' & Hwf & _ & _ & Hcaps). rewrite Hd in Hd'. injection Hd' as -> -> ->.
    split; [done|]. intros id c' Hc. rewrite Hcaps in Hc. apply lookup_insert_Some in Hc as [[<- [= <-]]|[_ Hc]].
    + destruct (caps t1 !! cap_in) as [[c0|]|] eqn:E0; try done. injection Ec as ->.
      exists cap_in, c. split_and!; [done|done|]. intros p. apply masked_permissions.
    + eauto.
  - unfold CapRelease in Hr. destruct (ReleaseCapability_spec t1 cap Ht) as (t' & Hrel & Hwf & Hcaps & _).
    rewrite Hrel, ret_bind in Hr.
    assert (t2 = t') as -> by (by destruct (default None (caps t1 !! cap)); injection Hr).
    split; [done|]. intros id c Hc. rewrite Hcaps in Hc. apply lookup_delete_Some in Hc as [_ Hc]. eauto.
Qed.

(** C8.  System calls on capabilities never amplify authority: after any
    sequence of duplications (with any masks) and releases, each capability
    refers to an object the process already held and grants at most the
    permissions it already had on it. *)
Theorem capabilities_not_amplified t t' :
  table_wf t -> rtc cap_step t t' -> table_wf t' /\ derived t t'.
Proof.
  intros Ht Hsteps. induction Hsteps as [t|t1 t2 t3 Hstep _ IH]; [split; [done|]; intros id c Hc; eauto|].
  destruct (cap_step_derived t1 t2 Ht Hstep) as [Ht2 H12]. destruct (IH Ht2) as [Ht3 H23]. split; [done|].
  intros id c Hc. destruct (H23 id c Hc) as (id2 & c2 & Hc2 & Ho2 & Hp2).
  destruct (H12 id2 c2 Hc2) as (id1 & c1 & Hc1 & Ho1 & Hp1). exists id1, c1. split_and!; [done|congruence|auto].
Qed.

(** *** Witnesses *)
Definition sample_object : KernelObject := mkObj MEMORY_OBJECT 7.

Definition sample_table : CapabilityTable :=
  Eval vm_compute in match AddNewCapability sample_object 0x33 CapabilityTable_new with
                     | Ret (_, t) => t | _ => CapabilityTable_new end.

Lemma sample_table_wf : table_wf sample_table.
Proof.
  destruct (add_spec CapabilityTable_new (Some (mkCap sample_object 0x33)) CapabilityTable_new_wf)
    as (m & Hi & _ & _ & _ & Hwf); [done|by eexists|].
  vm_compute in Hi. injection Hi as <-. exact Hwf.
Qed.

Lemma CapabilityTable_refines_map_witness :
  GetCapability 0x100 sample_table = Ret (Some (mkCap sample_object 0x33), sample_table) /\
  exists t', AddNewCapability sample_object 1 sample_table = Ret (0x101, t') /\ table_wf t'.
Proof.
  destruct (CapabilityTable_refines_map sample_table 0x100 sample_object 1 sample_table_wf)
    as ((t' & H1 & H2 & _) & H3 & _).
  - vm_compute. reflexivity.
  - split; [rewrite H3; vm_compute; reflexivity|]. exists t'. split; [exact H1|exact H2].
Defined.

Lemma ReleaseAll_empties_or_faults_witness :
  ReleaseAll CapabilityTable_new = Fault /\ exists t', ReleaseAll sample_table = Ret t' /\ caps t' = ∅.
Proof.
  split.
  - apply (proj2 (ReleaseAll_empties_or_faults CapabilityTable_new CapabilityTable_new_wf)). reflexivity.
  - apply (proj1 (ReleaseAll_empties_or_faults sample_table sample_table_wf)). discriminate.
Defined.

Lemma capabilities_not_amplified_witness :
  exists t', CapDuplicate 0x100 0x2 sample_table = Ret (OK, Some 0x101, t') /\ derived sample_table t'.
Proof.
  assert (is_ret (CapDuplicate 0x100 0x2 sample_table) = true) as Hr by (vm_compute; reflexivity).
  apply is_ret_Ret in Hr as [[[err out] t'] Ht']. exists t'. split.
  - pose proof Ht' as H. vm_compute in H. injection H as <- <- _. exact Ht'.
  - refine (proj2 (capabilities_not_amplified sample_table t' sample_table_wf _)).
    eapply rtc_l; [|apply rtc_refl]. eapply step_CapDuplicate; [|exact Ht']. vm_compute. reflexivity.
Defined.
