(* ===== verification/Sched.v ===== *)
(** * Threads and the scheduler (zion/object/thread.h, thread.cpp,
    zion/scheduler/scheduler.h, scheduler.cpp, zion/object/mutex.cpp, semaphore.cpp)

    The scheduler of the single processor: the running thread, the queue of
    runnable threads, the sleeping threads, and the mutexes and semaphores
    threads block on.  Queues are the sequences that [IntrusiveList] stands
    for.  Each kernel entry (a system call, or the timer interrupt while user
    code runs) is one step; [context_switch] is the change of
    [current_thread_]. *)

From Stdlib Require Import ZArith Lia.
From stdpp Require Import base tactics numbers list gmap relations.
From S2P Require Import Prelude.

Inductive State : Type :=
| UNSPECIFIED | CREATED | RUNNING | RUNNABLE | BLOCKED | SLEEPING | CLEANUP | FINISHED.

#[export] Instance State_eq_dec : EqDecision State.
Proof. solve_decision. Defined.

(** What the scheduler sees of a [Thread]. *)
Record Thread : Type := mkThread { state_ : State; sleep_ticks_ : Z }.

(** A [Mutex] or a [Semaphore]: a lock word and the threads waiting for it. *)
Record Lockable : Type := mkLock { lock_ : Z; blocked_threads_ : list positive }.

Record sched : Type := mkSched {
  threads : gmap positive Thread;
  current_thread_ : positive;
  sleep_thread_ : positive;
  runnable_threads_ : list positive;
  sleeping_threads_ : list positive;
  enabled_ : bool;
  locks : gmap positive Lockable;
}.

Definition IsDying (t : Thread) : bool :=
  bool_decide (state_ t = CLEANUP) || bool_decide (state_ t = FINISHED).

Definition get (t : positive) (s : sched) : res Thread := deref (threads s !! t).

Definition with_thread (t : positive) (x : Thread) (s : sched) : sched :=
  mkSched (<[t := x]> (threads s)) (current_thread_ s) (sleep_thread_ s) (runnable_threads_ s)
    (sleeping_threads_ s) (enabled_ s) (locks s).
Definition with_current (t : positive) (s : sched) : sched :=
  mkSched (threads s) t (sleep_thread_ s) (runnable_threads_ s) (sleeping_threads_ s) (enabled_ s) (locks s).
Definition with_runnable (l : list positive) (s : sched) : sched :=
  mkSched (threads s) (current_thread_ s) (sleep_thread_ s) l (sleeping_threads_ s) (enabled_ s) (locks s).
Definition with_sleeping (l : list positive) (s : sched) : sched :=
  mkSched (threads s) (current_thread_ s) (sleep_thread_ s) (runnable_threads_ s) l (enabled_ s) (locks s).
Definition with_lock (o : positive) (m : Lockable) (s : sched) : sched :=
  mkSched (threads s) (current_thread_ s) (sleep_thread_ s) (runnable_threads_ s) (sleeping_threads_ s)
    (enabled_ s) (<[o := m]> (locks s)).

(** [Thread::SetState] *)
Definition SetState (t : positive) (st : State) (s : sched) : res sched :=
  x ← get t s;
  if IsDying x then Panic else Ret (with_thread t (mkThread st (sleep_ticks_ x)) s).

(** [Scheduler::SwapToCurrent]: the context switch itself resumes the thread. *)
Definition SwapToCurrent (s : sched) : res sched :=
  x ← get (current_thread_ s) s;
  if negb (bool_decide (state_ x = RUNNABLE)) then Panic
  else SetState (current_thread_ s) RUNNING s.

(** [ClearDeadThreadsFromFront] *)
Fixpoint clear_dead (th : gmap positive Thread) (l : list positive) : res (list positive) :=
  match l with
  | [] => Ret []
  | t :: l' => x ← deref (th !! t); if IsDying x then clear_dead th l' else Ret l
  end.

Definition Yield (s : sched) : res sched :=
  if negb (enabled_ s) then Ret s else
  run ← clear_dead (threads s) (runnable_threads_ s);
  let prev := current_thread_ s in
  if decide (prev = sleep_thread_ s) then
    match run with
    | [] => Panic
    | t :: rest =>
        let s := with_current t (with_runnable rest s) in
        p ← get prev s;
        s ← (if negb (IsDying p) then SetState prev RUNNABLE s else Ret s);
        SwapToCurrent s
    end
  else
    match run with
    | [] => SwapToCurrent (with_current (sleep_thread_ s) (with_runnable [] s))
    | t :: rest => SwapToCurrent (with_current t (with_runnable rest s))
    end.

Definition Enqueue (t : positive) (s : sched) : res sched :=
  let s := with_runnable (runnable_threads_ s ++ [t]) s in
  if decide (current_thread_ s = sleep_thread_ s) then Yield s else Ret s.

(** [DecrementSleepingThreads]: the threads whose ticks run out move to the
    end of the runnable queue, in order. *)
Fixpoint wake_sleepers (l : list positive) (s : sched) : res (list positive * sched) :=
  match l with
  | [] => Ret ([], s)
  | t :: l' =>
      x ← get t s;
      let s := with_thread t (mkThread (state_ x) (sleep_ticks_ x [-] 1)) s in
      if sleep_ticks_ x [-] 1 =? 0 then
        s ← SetState t RUNNABLE s;
        wake_sleepers l' (with_runnable (runnable_threads_ s ++ [t]) s)
      else
        '(kept, s) ← wake_sleepers l' s;
        Ret (t :: kept, s)
  end.

Definition DecrementSleepingThreads (s : sched) : res sched :=
  '(kept, s) ← wake_sleepers (sleeping_threads_ s) s;
  Ret (with_sleeping kept s).

Definition Preempt (s : sched) : res sched :=
  if negb (enabled_ s) then Ret s else
  s ← DecrementSleepingThreads s;
  run ← clear_dead (threads s) (runnable_threads_ s);
  let s := with_runnable run s in
  match run with
  | [] => Ret s
  | _ =>
      let prev := current_thread_ s in
      s ← SetState prev RUNNABLE s;
      match run ++ [prev] with
      | [] => Fault
      | t :: rest => SwapToCurrent (with_current t (with_runnable rest s))
      end
  end.

Definition Sleep (millis : Z) (s : sched) : res sched :=
  let ticks := millis / 50 [+] 1 in
  let t := current_thread_ s in
  x ← get t s;
  let s := with_thread t (mkThread (state_ x) ticks) s in
  s ← SetState t SLEEPING s;
  Yield (with_sleeping (sleeping_threads_ s ++ [t]) s).

(** [Thread::Start]: from the process that creates the thread. *)
Definition Start (t : positive) (s : sched) : res sched :=
  x ← get t s;
  Enqueue t (with_thread t (mkThread RUNNABLE (sleep_ticks_ x)) s).

(** The end of [Thread::Exit], after the thread was handed to the cleanup thread. *)
Definition Exit (s : sched) : res sched :=
  let t := current_thread_ s in
  x ← get t s;
  Yield (with_thread t (mkThread CLEANUP (sleep_ticks_ x)) s).

(** What a thread does when it blocks on a lock: [SetState(BLOCKED)] and
    [blocked_threads_.PushBack(thread)], and then [Yield()].  In a system call
    interrupts are enabled, so that a timer tick can come between the two. *)
Definition block_begin (o : positive) (s : sched) : res sched :=
  let t := current_thread_ s in
  s ← SetState t BLOCKED s;
  m ← deref (locks s !! o);
  Ret (with_lock o (mkLock (lock_ m) (blocked_threads_ m ++ [t])) s).

Definition block_on (o : positive) (s : sched) : res sched :=
  s ← block_begin o s;
  Yield s.

(** The first waiter becomes runnable. *)
Definition wake_first (o : positive) (s : sched) : res sched :=
  m ← deref (locks s !! o);
  match blocked_threads_ m with
  | [] => Ret s
  | t :: rest =>
      let s := with_lock o (mkLock (lock_ m) rest) s in
      s ← SetState t RUNNABLE s;
      Enqueue t s
  end.

(** One turn of the loop of [Mutex::Lock]: [true] when the lock was taken. *)
Definition Mutex_Lock (o : positive) (s : sched) : res (bool * sched) :=
  m ← deref (locks s !! o);
  let s' := with_lock o (mkLock (Z.lor (lock_ m) 1) (blocked_threads_ m)) s in
  if lock_ m =? 1 then s'' ← block_on o s'; Ret (false, s'')
  else Ret (true, s').

Definition Mutex_Release (o : positive) (s : sched) : res sched :=
  m ← deref (locks s !! o);
  wake_first o (with_lock o (mkLock 0 (blocked_threads_ m)) s).

(** One turn of the loop of [Semaphore::Wait]. *)
Definition Semaphore_Wait (o : positive) (s : sched) : res (bool * sched) :=
  m ← deref (locks s !! o);
  if lock_ m =? 0 then s' ← block_on o s; Ret (false, s')
  else Ret (true, with_lock o (mkLock (u8 (lock_ m - 1)) (blocked_threads_ m)) s).

Definition Semaphore_Signal (o : positive) (s : sched) : res sched :=
  m ← deref (locks s !! o);
  wake_first o (with_lock o (mkLock (u8 (lock_ m + 1)) (blocked_threads_ m)) s).

(** ** The scheduler's invariant *)
Definition st (s : sched) (t : positive) : option State := state_ <$> threads s !! t.

(** Every queue holds distinct threads in the state the queue is for, each
    thread waits in one queue only, and only the current thread can be
    running. *)
Record queues_ok (s : sched) : Prop := {
  qo_running : forall t, st s t = Some RUNNING -> t = current_thread_ s;
  qo_run : NoDup (runnable_threads_ s) /\ forall t, t ∈ runnable_threads_ s -> st s t = Some RUNNABLE;
  qo_slp : NoDup (sleeping_threads_ s) /\ forall t, t ∈ sleeping_threads_ s -> st s t = Some SLEEPING;
  qo_blk : forall o m, locks s !! o = Some m ->
    NoDup (blocked_threads_ m) /\ forall t, t ∈ blocked_threads_ m -> st s t = Some BLOCKED;
  qo_one : forall o1 o2 m1 m2 t, locks s !! o1 = Some m1 -> locks s !! o2 = Some m2 ->
    t ∈ blocked_threads_ m1 -> t ∈ blocked_threads_ m2 -> o1 = o2;
  qo_sleep : sleep_thread_ s <> current_thread_ s -> st s (sleep_thread_ s) = Some RUNNABLE;
  qo_enabled : enabled_ s = true;
}.

Definition live (x : option State) : Prop := x = Some RUNNING \/ x = Some CREATED.

Record sched_inv (s : sched) : Prop := {
  si_queues : queues_ok s;
  si_current : live (st s (current_thread_ s));
}.

Section inv.
Implicit Types (s : sched) (t : positive).

Lemma st_with_thread t x s t' :
  st (with_thread t x s) t' = if decide (t' = t) then Some (state_ x) else st s t'.
Proof.
  unfold st, with_thread. cbn. case_decide as H; [subst; by rewrite lookup_insert_eq|by rewrite lookup_insert_ne].
Qed.

Lemma st_get s t x : st s t = Some x -> exists y, get t s = Ret y /\ state_ y = x /\ threads s !! t = Some y.
Proof. unfold st, get. destruct (threads s !! t) as [y|]; [|done]. cbn. intros [= <-]. eauto. Qed.

Definition dying (x : State) : bool := bool_decide (x = CLEANUP) || bool_decide (x = FINISHED).

Lemma SetState_spec t new s x :
  st s t = Some x -> dying x = false ->
  exists tk, SetState t new s = Ret (with_thread t (mkThread new tk) s).
Proof.
  intros (y & Hg & Hs & _)%st_get Hd. unfold SetState. rewrite Hg. cbn [mbind res_bind].
  unfold IsDying. rewrite Hs. fold (dying x). rewrite Hd. eauto.
Qed.

Lemma clear_dead_alive s (l : list positive) :
  (forall t, t ∈ l -> st s t = Some RUNNABLE) -> clear_dead (threads s) l = Ret l.
Proof.
  destruct l as [|t l]; intros H; [done|]. cbn [clear_dead].
  destruct (st_get s t RUNNABLE) as (y & _ & Hs & Hy); [apply H; by left|]. rewrite Hy. cbn [deref mbind res_bind].
  unfold IsDying. by rewrite Hs.
Qed.

(** Handing the processor to a runnable thread that left the queues. *)
Lemma swap_spec s t rest :
  queues_ok s -> st s t = Some RUNNABLE -> (forall t', st s t' <> Some RUNNING) ->
  NoDup rest -> (forall t', t' ∈ rest -> st s t' = Some RUNNABLE) -> t ∉ rest ->
  (sleep_thread_ s <> t -> st s (sleep_thread_ s) = Some RUNNABLE) ->
  exists s', SwapToCurrent (with_current t (with_runnable rest s)) = Ret s' /\ sched_inv s' /\
    current_thread_ s' = t /\ runnable_threads_ s' = rest.
Proof.
  intros Hq Ht Hnr Hnd Hrest Htn Hsl. unfold SwapToCurrent. cbn [current_thread_ with_current].
  set (s1 := with_current t (with_runnable rest s)).
  assert (st s1 t = Some RUNNABLE) as Ht1 by exact Ht.
  destruct (st_get s1 t _ Ht1) as (y & Hg & Hy & _). rewrite Hg. cbn [mbind res_bind]. rewrite Hy.
  rewrite bool_decide_true by done. cbn [negb].
  destruct (SetState_spec t RUNNING s1 RUNNABLE Ht1 eq_refl) as (tk & ->).
  assert (forall t', t' <> t -> st (with_thread t (mkThread RUNNING tk) s1) t' = st s t') as Hne.
  { intros t' Hn. rewrite st_with_thread. by rewrite decide_False. }
  destruct Hq as [Hr [Hrn Hrs] [Hsn Hss] Hb Ho Hs He].
  eexists. split; [done|]. split; [|done]. split; [split|].
  - intros t' Ht'. cbn. destruct (decide (t' = t)) as [|Hn]; [done|]. rewrite Hne in Ht' by done. by apply Hnr in Ht'.
  - split; [done|]. cbn. intros t' Hin. rewrite Hne; [by apply Hrest|]. by intros ->.
  - split; [done|]. cbn. intros t' Hin. rewrite Hne; [by apply Hss|]. intros ->. specialize (Hss t Hin). congruence.
  - cbn. intros o m Hm. destruct (Hb o m Hm) as [H1 H2]. split; [done|]. intros t' Hin. rewrite Hne; [by apply H2|].
    intros ->. specialize (H2 t Hin). congruence.
  - exact Ho.
  - cbn. intros Hn. rewrite Hne by done. by apply Hsl.
  - exact He.
  - left. cbn. rewrite st_with_thread. by rewrite decide_True.
Qed.

(** [Yield] by a thread that has put itself aside, or by the idle thread
    when there is something to run. *)
Lemma Yield_spec s :
  queues_ok s ->
  (current_thread_ s = sleep_thread_ s -> runnable_threads_ s <> [] /\ live (st s (current_thread_ s))) ->
  (current_thread_ s <> sleep_thread_ s -> st s (current_thread_ s) <> Some RUNNING) ->
  exists s', Yield s = Ret s' /\ sched_inv s' /\
    current_thread_ s' = default (sleep_thread_ s) (head (runnable_threads_ s)) /\
    runnable_threads_ s' = tail (runnable_threads_ s).
Proof.
  intros Hq Hsleep Hother. pose proof Hq as [Hr [Hrn Hrs] _ _ _ Hsl He]. unfold Yield. rewrite He. cbn [negb].
  rewrite clear_dead_alive by done. cbn [mbind res_bind]. case_decide as Hc.
  - destruct (Hsleep Hc) as [Hne Hlive]. destruct (runnable_threads_ s) as [|t rest] eqn:Er; [done|].
    apply NoDup_cons in Hrn as [Htn Hrn].
    assert (st s t = Some RUNNABLE) as Ht by (apply Hrs; by left).
    assert (current_thread_ s <> t) as Hct by (intros <-; destruct Hlive; congruence).
    set (s1 := with_current t (with_runnable rest s)).
    destruct (threads s !! current_thread_ s) as [x|] eqn:Ex; [|by destruct Hlive as [H|H]; unfold st in H; rewrite Ex in H].
    assert (st s (current_thread_ s) = Some (state_ x)) as Hst by (unfold st; by rewrite Ex).
    assert (get (current_thread_ s) s1 = Ret x) as -> by (unfold get; cbn; by rewrite Ex). cbn [mbind res_bind].
    assert (dying (state_ x) = false) as Hdy by (destruct Hlive as [H|H]; rewrite Hst in H; by injection H as ->).
    unfold IsDying. fold (dying (state_ x)). rewrite Hdy. cbn [negb].
    destruct (SetState_spec (current_thread_ s) RUNNABLE s1 (state_ x)) as (tk & ->); [done|done|]. cbn [mbind res_bind].
    set (s0 := with_thread (current_thread_ s) (mkThread RUNNABLE tk) s).
    assert (forall t', t' <> current_thread_ s -> st s0 t' = st s t') as Hst0.
    { intros t' Hn. unfold s0. rewrite st_with_thread. by rewrite decide_False. }
    assert (st s0 (current_thread_ s) = Some RUNNABLE) as Hcur0 by (unfold s0; rewrite st_with_thread; by rewrite decide_True).
    assert (forall y, st s (current_thread_ s) = Some y -> y = RUNNING \/ y = CREATED) as Hy.
    { intros y Hy. destruct Hlive as [H|H]; rewrite H in Hy; injection Hy as <-; auto. }
    assert (queues_ok s0) as Hq0.
    { destruct Hq as [_ _ [Hsn Hss] Hb Ho _ _]. split; try done.
      - intros t' Ht'. cbn. destruct (decide (t' = current_thread_ s)) as [|Hn]; [done|]. rewrite Hst0 in Ht' by done. by apply Hr.
      - change (runnable_threads_ s0) with (runnable_threads_ s). rewrite Er. split; [by apply NoDup_cons|]. intros t' Hin. rewrite Hst0; [by apply Hrs|].
        intros ->. specialize (Hrs _ Hin). destruct Hlive; congruence.
      - split; [done|]. intros t' Hin. rewrite Hst0; [by apply Hss|]. intros ->. specialize (Hss _ Hin). destruct Hlive; congruence.
      - intros o m Hm. destruct (Hb o m Hm) as [H1 H2]. split; [done|]. intros t' Hin. rewrite Hst0; [by apply H2|].
        intros ->. specialize (H2 _ Hin). destruct Hlive; congruence. }
    destruct (swap_spec s0 t rest Hq0) as (s' & Hsw & Hinv & Hcur' & Hrun'); try done.
    + by rewrite Hst0.
    + intros t' Ht'. destruct (decide (t' = current_thread_ s)) as [->|Hn]; [congruence|].
      rewrite Hst0 in Ht' by done. by apply Hn, Hr.
    + intros t' Hin. rewrite Hst0; [apply Hrs; by right|]. intros ->.
      assert (st s (current_thread_ s) = Some RUNNABLE) by (apply Hrs; by right). destruct Hlive; congruence.
    + intros _. cbn. by rewrite <- Hc.
    + exists s'. split_and!; try done.
  - assert (forall t', st s t' <> Some RUNNING) as Hnr.
    { intros t' Ht'. pose proof (Hr t' Ht') as ->. by apply Hother. }
    destruct (runnable_threads_ s) as [|t rest] eqn:Er.
    + destruct (swap_spec s (sleep_thread_ s) [] Hq) as (s' & ? & ? & ? & ?);
        [apply Hsl; congruence|done|constructor|by intros ? ?%elem_of_nil|apply not_elem_of_nil|done|].
      exists s'. done.
    + apply NoDup_cons in Hrn as [Htn Hrn].
      destruct (swap_spec s t rest Hq) as (s' & ? & ? & ? & ?); try done.
      * apply Hrs. by left.
      * intros t' Hin. apply Hrs. by right.
      * intros _. apply Hsl. congruence.
      * exists s'. done.
Qed.

(** *** Moving threads between queues *)
Definition unqueued s t : Prop :=
  t ∉ runnable_threads_ s /\ t ∉ sleeping_threads_ s /\
  forall o m, locks s !! o = Some m -> t ∉ blocked_threads_ m.

Lemma unqueued_by_state s t x :
  queues_ok s -> st s t = Some x -> x <> RUNNABLE -> x <> SLEEPING -> x <> BLOCKED -> unqueued s t.
Proof.
  intros [_ [_ Hr] [_ Hs] Hb _ _ _] Ht H1 H2 H3. split_and!.
  - intros Hin. specialize (Hr t Hin). congruence.
  - intros Hin. specialize (Hs t Hin). congruence.
  - intros o m Hm Hin. destruct (Hb o m Hm) as [_ Hb']. specialize (Hb' t Hin). congruence.
Qed.

Lemma q_state s t y tk :
  queues_ok s -> unqueued s t -> y <> RUNNING -> (t = sleep_thread_ s -> t = current_thread_ s \/ y = RUNNABLE) ->
  queues_ok (with_thread t (mkThread y tk) s).
Proof.
  intros [Hr [Hrn Hrs] [Hsn Hss] Hb Ho Hsl He] (H1 & H2 & H3) Hy Hts.
  assert (forall t', t' <> t -> st (with_thread t (mkThread y tk) s) t' = st s t') as Hne.
  { intros t' Hn. rewrite st_with_thread. by rewrite decide_False. }
  split; cbn; try done.
  - intros t'. rewrite st_with_thread. case_decide; [intros [= ->]; done|]. apply Hr.
  - split; [done|]. intros t' Hin. rewrite Hne; [by apply Hrs|]. by intros ->.
  - split; [done|]. intros t' Hin. rewrite Hne; [by apply Hss|]. by intros ->.
  - intros o m Hm. destruct (Hb o m Hm) as [? H]. split; [done|]. intros t' Hin. rewrite Hne; [by apply H|].
    intros ->. by apply (H3 o m).
  - intros Hn. rewrite st_with_thread. case_decide as Heq; [|by apply Hsl]. destruct Hts as [?| ->]; [done|congruence|done].
Qed.

Lemma q_runnable s t :
  queues_ok s -> st s t = Some RUNNABLE -> t ∉ runnable_threads_ s ->
  queues_ok (with_runnable (runnable_threads_ s ++ [t]) s).
Proof.
  intros [Hr [Hrn Hrs] Hs Hb Ho Hsl He] Ht Hn. split; cbn; try done. split.
  - apply NoDup_app. split_and!; [done|set_solver|by apply NoDup_singleton].
  - intros t' [Hin| ->%list_elem_of_singleton]%elem_of_app; [by apply Hrs|done].
Qed.

Lemma q_sleeping s t :
  queues_ok s -> st s t = Some SLEEPING -> t ∉ sleeping_threads_ s ->
  queues_ok (with_sleeping (sleeping_threads_ s ++ [t]) s).
Proof.
  intros [Hr Hrun [Hsn Hss] Hb Ho Hsl He] Ht Hn. split; cbn; try done. split.
  - apply NoDup_app. split_and!; [done|set_solver|by apply NoDup_singleton].
  - intros t' [Hin| ->%list_elem_of_singleton]%elem_of_app; [by apply Hss|done].
Qed.

(** Replacing the waiters of one lock. *)
Lemma q_lock s o m w l :
  queues_ok s -> locks s !! o = Some m -> NoDup l -> (forall t, t ∈ l -> st s t = Some BLOCKED) ->
  (forall t, t ∈ l -> t ∈ blocked_threads_ m \/ forall o' m', locks s !! o' = Some m' -> t ∉ blocked_threads_ m') ->
  queues_ok (with_lock o (mkLock w l) s).
Proof.
  intros [Hr Hrun Hs Hb Ho Hsl He] Hm Hnd Hst Hl. split; cbn; try done.
  - intros o' m' [[<- <-]|[Hne Hm']]%lookup_insert_Some; [done|by apply (Hb o')].
  - intros o1 o2 m1 m2 t H1 H2 Ht1 Ht2.
    apply lookup_insert_Some in H1 as [[<- <-]|[Hn1 H1]]; apply lookup_insert_Some in H2 as [[<- <-]|[Hn2 H2]]; cbn in *.
    + done.
    + destruct (Hl t Ht1) as [Hin|Hno]; [by apply (Ho o o2 m m2 t)|]. by destruct (Hno o2 m2 H2).
    + destruct (Hl t Ht2) as [Hin|Hno]; [by apply (Ho o1 o m1 m t)|]. by destruct (Hno o1 m1 H1).
    + by apply (Ho o1 o2 m1 m2 t).
Qed.

Lemma inv_unqueued s : sched_inv s -> unqueued s (current_thread_ s).
Proof. intros [Hq [H|H]]; by eapply unqueued_by_state. Qed.

Lemma live_dying s x : live (st s x) -> exists y, st s x = Some y /\ dying y = false /\ y <> RUNNABLE.
Proof. intros [H|H]; eauto. Qed.

(** Putting a thread that is in no queue on the runnable queue. *)
Lemma Enqueue_spec s t :
  queues_ok s -> live (st s (current_thread_ s)) -> st s t = Some RUNNABLE -> t ∉ runnable_threads_ s ->
  exists s', Enqueue t s = Ret s' /\ sched_inv s'.
Proof.
  intros Hq Hl Ht Hn. unfold Enqueue. cbn [current_thread_ sleep_thread_ with_runnable].
  pose proof (q_runnable s t Hq Ht Hn) as Hq'. case_decide as Hc.
  - destruct (Yield_spec _ Hq') as (s' & H1 & H2 & _).
    + intros _. split; [cbn; by destruct (runnable_threads_ s)|done].
    + done.
    + exists s'. done.
  - eexists. split; [done|]. by split.
Qed.

Lemma Start_spec s t :
  sched_inv s -> st s t = Some CREATED -> t <> current_thread_ s -> exists s', Start t s = Ret s' /\ sched_inv s'.
Proof.
  intros [Hq Hl] Ht Hne. destruct (st_get s t CREATED Ht) as (x & Hg & _). unfold Start. rewrite Hg. cbn [mbind res_bind].
  assert (unqueued s t) as Hu by (by eapply unqueued_by_state).
  apply Enqueue_spec.
  - apply q_state; auto.
  - cbn. rewrite st_with_thread. by rewrite decide_False.
  - rewrite st_with_thread. by rewrite decide_True.
  - apply Hu.
Qed.

Lemma Sleep_spec s millis :
  sched_inv s -> current_thread_ s <> sleep_thread_ s -> exists s', Sleep millis s = Ret s' /\ sched_inv s'.
Proof.
  intros Hinv Hne. pose proof (inv_unqueued s Hinv) as Hu. destruct Hinv as [Hq Hl].
  destruct (live_dying s _ Hl) as (y & Hy & Hd & _). destruct (st_get s _ _ Hy) as (x & Hg & Hs & Hx).
  unfold Sleep. rewrite Hg. cbn [mbind res_bind]. set (t := current_thread_ s) in *.
  set (s1 := with_thread t (mkThread (state_ x) (millis / 50 [+] 1)) s).
  assert (st s1 t = Some y) as Hy1 by (unfold s1; rewrite st_with_thread, decide_True by done; cbn; by rewrite Hs).
  destruct (SetState_spec t SLEEPING s1 y Hy1 Hd) as (tk & ->). cbn [mbind res_bind].
  assert (with_thread t (mkThread SLEEPING tk) s1 = with_thread t (mkThread SLEEPING tk) s) as ->.
  { unfold s1, with_thread. cbn. by rewrite insert_insert_eq. }
  set (s2 := with_thread t (mkThread SLEEPING tk) s).
  assert (queues_ok s2) as Hq2 by (apply q_state; [done|done|done|by left]).
  assert (st s2 t = Some SLEEPING) as Ht2 by (unfold s2; rewrite st_with_thread; by rewrite decide_True).
  destruct (Yield_spec (with_sleeping (sleeping_threads_ s2 ++ [t]) s2)) as (s' & H1 & H2 & _).
  - apply q_sleeping; [done|done|apply Hu].
  - done.
  - intros _. cbn. fold t. change (st s2 t <> Some RUNNING). congruence.
  - exists s'. done.
Qed.

Lemma Exit_spec s :
  sched_inv s -> current_thread_ s <> sleep_thread_ s -> exists s', Exit s = Ret s' /\ sched_inv s'.
Proof.
  intros Hinv Hne. pose proof (inv_unqueued s Hinv) as Hu. destruct Hinv as [Hq Hl].
  destruct (live_dying s _ Hl) as (y & Hy & _). destruct (st_get s _ _ Hy) as (x & Hg & _).
  unfold Exit. rewrite Hg. cbn [mbind res_bind].
  destruct (Yield_spec (with_thread (current_thread_ s) (mkThread CLEANUP (sleep_ticks_ x)) s)) as (s' & H1 & H2 & _).
  - apply q_state; [done|done|done|by left].
  - done.
  - intros _. cbn. rewrite st_with_thread. by rewrite decide_True.
  - exists s'. done.
Qed.

(** A thread that has queued itself on a lock and still has the processor. *)
Lemma block_begin_spec s o m :
  sched_inv s -> current_thread_ s <> sleep_thread_ s -> locks s !! o = Some m ->
  exists s', block_begin o s = Ret s' /\ queues_ok s' /\ current_thread_ s' = current_thread_ s /\ sleep_thread_ s' = sleep_thread_ s /\
    runnable_threads_ s' = runnable_threads_ s /\ sleeping_threads_ s' = sleeping_threads_ s /\
    (forall t, st s' t = if decide (t = current_thread_ s) then Some BLOCKED else st s t) /\
    locks s' = <[o := mkLock (lock_ m) (blocked_threads_ m ++ [current_thread_ s])]> (locks s).
Proof.
  intros Hinv Hne Hm. pose proof (inv_unqueued s Hinv) as Hu. destruct Hinv as [Hq Hl].
  destruct (live_dying s _ Hl) as (y & Hy & Hd & _). unfold block_begin. set (t := current_thread_ s) in *.
  destruct (SetState_spec t BLOCKED s y Hy Hd) as (tk & ->). cbn [mbind res_bind].
  set (s1 := with_thread t (mkThread BLOCKED tk) s). change (locks s1) with (locks s). rewrite Hm. cbn [deref mbind res_bind].
  assert (queues_ok s1) as Hq1 by (apply q_state; [done|done|done|by left]).
  assert (st s1 t = Some BLOCKED) as Ht1 by (unfold s1; rewrite st_with_thread; by rewrite decide_True).
  destruct (qo_blk _ Hq1 o m Hm) as [Hnd Hbl]. destruct Hu as (_ & _ & Hu).
  eexists. split; [done|]. split_and!; try done; [|intros t'; change (st s1 t' = if decide (t' = t) then Some BLOCKED else st s t'); unfold s1; by rewrite st_with_thread].
  apply (q_lock s1 o m); [done|done| | |].
  - apply NoDup_app. split_and!; [done| |by apply NoDup_singleton].
    intros x Hx ->%list_elem_of_singleton. by apply (Hu o m).
  - intros x [Hx| ->%list_elem_of_singleton]%elem_of_app; [by apply Hbl|done].
  - intros x [Hx| ->%list_elem_of_singleton]%elem_of_app; [by left|by right].
Qed.

Lemma block_on_spec s o m :
  sched_inv s -> current_thread_ s <> sleep_thread_ s -> locks s !! o = Some m ->
  exists s', block_on o s = Ret s' /\ sched_inv s'.
Proof.
  intros Hinv Hne Hm. destruct (block_begin_spec s o m Hinv Hne Hm) as (s1 & H1 & Hq & Hc & Hs & _ & _ & Hst & _).
  unfold block_on. rewrite H1. cbn [mbind res_bind]. destruct (Yield_spec s1 Hq) as (s' & HY & Hinv' & _).
  - congruence.
  - intros _. by rewrite Hc, Hst, decide_True.
  - by exists s'.
Qed.

Lemma lockword_inv s o m w :
  sched_inv s -> locks s !! o = Some m -> sched_inv (with_lock o (mkLock w (blocked_threads_ m)) s).
Proof.
  intros [Hq Hl] Hm. split; [|done]. destruct (qo_blk _ Hq o m Hm) as [Hnd Hb]. apply (q_lock s o m); auto.
Qed.

Lemma wake_first_spec s o m :
  sched_inv s -> locks s !! o = Some m -> exists s', wake_first o s = Ret s' /\ sched_inv s'.
Proof.
  intros [Hq Hl] Hm. unfold wake_first. rewrite Hm. cbn [deref mbind res_bind].
  destruct (qo_blk _ Hq o m Hm) as [Hnd Hb]. destruct (blocked_threads_ m) as [|t rest] eqn:Eb.
  { exists s. split; [done|]. by split. }
  apply NoDup_cons in Hnd as [Htn Hnd]. set (s1 := with_lock o (mkLock (lock_ m) rest) s).
  assert (queues_ok s1) as Hq1.
  { apply (q_lock s o m); [done|done|done| |].
    - intros x Hx. apply Hb. by right.
    - intros x Hx. left. rewrite Eb. by right. }
  assert (st s t = Some BLOCKED) as Ht by (apply Hb; by left).
  destruct (SetState_spec t RUNNABLE s1 BLOCKED Ht eq_refl) as (tk & ->). cbn [mbind res_bind].
  assert (unqueued s1 t) as Hu.
  { split_and!.
    - intros Hin. apply (qo_run _ Hq) in Hin. congruence.
    - intros Hin. apply (qo_slp _ Hq) in Hin. congruence.
    - intros o' m' Ho'. unfold s1 in Ho'. cbn in Ho'.
      apply lookup_insert_Some in Ho' as [[<- <-]|[Hne Hm']]; [done|]. intros Hin. apply Hne.
      eapply (qo_one _ Hq); [exact Hm|exact Hm'| |exact Hin]. rewrite Eb. by left. }
  apply Enqueue_spec.
  - apply q_state; auto.
  - cbn. rewrite st_with_thread, decide_False; [done|]. intros Heq. destruct Hl as [H|H]; cbn in *; congruence.
  - rewrite st_with_thread. by rewrite decide_True.
  - apply Hu.
Qed.

(** Waking sleepers: those that stay keep their order, the others join the
    runnable queue. *)
Lemma wake_sleepers_spec l s :
  queues_ok (with_sleeping [] s) -> NoDup l -> (forall t, t ∈ l -> st s t = Some SLEEPING) ->
  exists kept s', wake_sleepers l s = Ret (kept, s') /\ queues_ok (with_sleeping [] s') /\
    NoDup kept /\ kept ⊆ l /\ (forall t, t ∈ kept -> st s' t = Some SLEEPING) /\
    (forall t, t ∉ l -> st s' t = st s t) /\ current_thread_ s' = current_thread_ s.
Proof.
  revert s. induction l as [|t l IH]; intros s Hq Hnd Hst.
  { exists [], s. split_and!; try done. }
  apply NoDup_cons in Hnd as [Htn Hnd]. cbn [wake_sleepers].
  assert (st s t = Some SLEEPING) as Ht by (apply Hst; by left).
  destruct (st_get s t _ Ht) as (x & -> & Hx & _). cbn [mbind res_bind]. rewrite Hx.
  set (tk := sleep_ticks_ x [-] 1). set (s1 := with_thread t (mkThread SLEEPING tk) s).
  assert (unqueued (with_sleeping [] s) t) as Hu.
  { split_and!; cbn.
    - intros Hin. apply (qo_run _ Hq) in Hin. change (st s t = Some RUNNABLE) in Hin. congruence.
    - apply not_elem_of_nil.
    - intros o m Hm Hin. destruct (qo_blk _ Hq o m Hm) as [_ H]. specialize (H t Hin).
      change (st s t = Some BLOCKED) in H. congruence. }
  assert (t = sleep_thread_ s -> t = current_thread_ s) as Hsl.
  { intros ->. destruct (decide (sleep_thread_ s = current_thread_ s)) as [|Hn]; [done|].
    pose proof (qo_sleep _ Hq Hn) as H. change (st s (sleep_thread_ s) = Some RUNNABLE) in H. congruence. }
  destruct (tk =? 0).
  - assert (st s1 t = Some SLEEPING) as Ht1 by (unfold s1; rewrite st_with_thread; by rewrite decide_True).
    destruct (SetState_spec t RUNNABLE s1 SLEEPING Ht1 eq_refl) as (tk' & ->). cbn [mbind res_bind].
    set (s2 := with_thread t (mkThread RUNNABLE tk') s1).
    assert (forall t', t' <> t -> st s2 t' = st s t') as Hne.
    { intros t' Hn. unfold s2, s1. rewrite !st_with_thread. by rewrite !decide_False. }
    destruct (IH (with_runnable (runnable_threads_ s2 ++ [t]) s2)) as (kept & s' & -> & H1 & H2 & H3 & H4 & H5 & H6).
    + apply (q_runnable (with_sleeping [] s2) t).
      * assert (with_sleeping [] s2 = with_thread t (mkThread RUNNABLE tk') (with_sleeping [] s)) as ->.
        { unfold s2, s1, with_sleeping, with_thread. cbn. by rewrite insert_insert_eq. }
        apply q_state; auto.
      * change (st s2 t = Some RUNNABLE). unfold s2. rewrite st_with_thread. by rewrite decide_True.
      * apply Hu.
    + done.
    + intros t' Hin. change (st s2 t' = Some SLEEPING). rewrite Hne; [apply Hst; by right|]. by intros ->.
    + exists kept, s'. split_and!; try done; [set_solver|].
      intros t' Hn. apply not_elem_of_cons in Hn as [Hn1 Hn2]. rewrite H5 by done. by apply Hne.
  - destruct (IH s1) as (kept & s' & -> & H1 & H2 & H3 & H4 & H5 & H6).
    + assert (with_sleeping [] s1 = with_thread t (mkThread SLEEPING tk) (with_sleeping [] s)) as -> by done.
      apply q_state; auto.
    + done.
    + intros t' Hin. unfold s1. rewrite st_with_thread, decide_False; [apply Hst; by right|]. by intros ->.
    + cbn [mbind res_bind]. exists (t :: kept), s'. split_and!; try done.
      * apply NoDup_cons. split; [set_solver|done].
      * set_solver.
      * intros t' [->|Hin]%elem_of_cons; [|by apply H4]. rewrite H5 by done. unfold s1.
        rewrite st_with_thread. by rewrite decide_True.
      * intros t' Hn. apply not_elem_of_cons in Hn as [Hn1 Hn2]. rewrite H5 by done. unfold s1.
        rewrite st_with_thread. by rewrite decide_False.
Qed.

(** Waking only adds to the runnable queue. *)
Lemma wake_sleepers_runnable l s kept s' : wake_sleepers l s = Ret (kept, s') -> exists woken, runnable_threads_ s' = runnable_threads_ s ++ woken.
Proof.
  revert s kept. induction l as [|t l IH]; intros s kept; cbn [wake_sleepers]; [intros [= _ <-]; exists []; by rewrite app_nil_r|].
  intros (x & _ & H)%bind_Ret. case_if_hyp H.
  - apply bind_Ret in H as (s1 & H1 & H2). destruct (IH _ _ H2) as [w Hw]. exists (t :: w). rewrite Hw. cbn. rewrite <- app_assoc.
    unfold SetState in H1. apply bind_Ret in H1 as (y & _ & H1). case_if_hyp H1; [done|]. by injection H1 as <-.
  - apply bind_Ret in H as ([kept' s1] & H1 & [= _ <-]). by destruct (IH _ _ H1) as [w Hw]; exists w.
Qed.

(** A tick while the current thread, in no queue but possibly one of waiters, is not dying: with a thread to run, the
    current one is queued as runnable behind the others, whatever its state was. *)
Lemma Preempt_requeues s :
  queues_ok s -> (exists y, st s (current_thread_ s) = Some y /\ dying y = false /\ y <> RUNNABLE /\ y <> SLEEPING) -> runnable_threads_ s <> [] ->
  exists s', Preempt s = Ret s' /\ current_thread_ s ∈ runnable_threads_ s' /\ current_thread_ s' <> current_thread_ s.
Proof.
  intros Hq (y & Hy & Hd & Hyr & Hys) Hrun. unfold Preempt. rewrite (qo_enabled _ Hq). cbn [negb]. unfold DecrementSleepingThreads.
  destruct (wake_sleepers_spec (sleeping_threads_ s) s) as (kept & s1 & HW & H1 & H2 & H3 & H4 & H5 & H6).
  { destruct Hq as [? ? ? ? ? ? ?]. split; try done. split; [constructor|]. by intros t ?%elem_of_nil. }
  { apply Hq. } { apply Hq. }
  pose proof (wake_sleepers_runnable _ _ _ _ HW) as [woken Hwk]. rewrite HW. cbn [mbind res_bind]. set (s2 := with_sleeping kept s1).
  assert (queues_ok s2) as Hq2 by (destruct H1 as [? ? ? ? ? ? ?]; split; done).
  assert (st s2 (current_thread_ s2) = Some y) as Hy2.
  { change (st s1 (current_thread_ s1) = Some y). rewrite H6, H5; [done|]. intros Hin. apply (qo_slp _ Hq) in Hin. congruence. }
  assert (current_thread_ s2 = current_thread_ s) as Hc2 by exact H6.
  rewrite clear_dead_alive by apply Hq2. cbn [mbind res_bind].
  assert (runnable_threads_ s2 <> []) as Hr2 by (change (runnable_threads_ s1 <> []); rewrite Hwk; by destruct (runnable_threads_ s)).
  destruct (runnable_threads_ s2) as [|t rest] eqn:Er; [done|]. clear Hr2. cbn [app]. rewrite <- Hc2. cbn [current_thread_ with_runnable].
  assert (st s2 t = Some RUNNABLE) as Ht by (apply (qo_run _ Hq2); rewrite Er; by left).
  assert (t <> current_thread_ s2) as Htc by congruence.
  set (s3 := with_runnable (t :: rest) s2). destruct (SetState_spec (current_thread_ s2) RUNNABLE s3 y Hy2 Hd) as (tk & ->). cbn [mbind res_bind].
  set (s4 := with_thread (current_thread_ s2) (mkThread RUNNABLE tk) s3). unfold SwapToCurrent. cbn [current_thread_ with_current].
  assert (st (with_current t (with_runnable (rest ++ [current_thread_ s2]) s4)) t = Some RUNNABLE) as Ht4.
  { change (st s4 t = Some RUNNABLE). unfold s4. rewrite st_with_thread, decide_False by done. exact Ht. }
  destruct (st_get _ t _ Ht4) as (x & -> & Hx & _). cbn [mbind res_bind]. rewrite Hx, bool_decide_true by done. cbn [negb].
  destruct (SetState_spec t RUNNING _ RUNNABLE Ht4 eq_refl) as (tk' & ->). eexists. split; [done|]. cbn. split; [set_solver|done].
Qed.

Lemma Preempt_spec s : sched_inv s -> exists s', Preempt s = Ret s' /\ sched_inv s'.
Proof.
  intros Hinv. pose proof (inv_unqueued s Hinv) as (Hu1 & Hu2 & Hu3). destruct Hinv as [Hq Hl].
  unfold Preempt. rewrite (qo_enabled _ Hq). cbn [negb]. unfold DecrementSleepingThreads.
  destruct (wake_sleepers_spec (sleeping_threads_ s) s) as (kept & s1 & -> & H1 & H2 & H3 & H4 & H5 & H6).
  { destruct Hq as [? ? ? ? ? ? ?]. split; try done. split; [constructor|]. by intros t ?%elem_of_nil. }
  { apply Hq. } { apply Hq. }
  cbn [mbind res_bind]. set (s2 := with_sleeping kept s1).
  assert (queues_ok s2) as Hq2.
  { destruct H1 as [? ? ? ? ? ? ?]. split; try done. }
  assert (live (st s2 (current_thread_ s2))) as Hl2.
  { change (live (st s1 (current_thread_ s1))). rewrite H6, H5 by done. done. }
  rewrite clear_dead_alive by apply Hq2. cbn [mbind res_bind].
  destruct (runnable_threads_ s2) as [|t rest] eqn:Er.
  { eexists. split; [done|]. split; [|done]. destruct Hq2 as [? ? ? ? ? ? ?]. split; try done.
    cbn. split; [constructor|]. by intros t ?%elem_of_nil. }
  set (s3 := with_runnable (t :: rest) s2).
  assert (s3 = s2) as -> by (unfold s3; rewrite <- Er; by destruct s2).
  assert (sched_inv s2) as Hinv2 by (by split). pose proof (inv_unqueued s2 Hinv2) as Hu.
  destruct (live_dying s2 _ Hl2) as (y & Hy & Hd & Hyr). set (c := current_thread_ s2) in *.
  destruct (SetState_spec c RUNNABLE s2 y Hy Hd) as (tk & ->). cbn [mbind res_bind app].
  set (s4 := with_thread c (mkThread RUNNABLE tk) s2).
  assert (queues_ok s4) as Hq4 by (apply q_state; [done|done|done|by right]).
  assert (forall t', t' <> c -> st s4 t' = st s2 t') as Hne.
  { intros t' Hn. unfold s4. rewrite st_with_thread. by rewrite decide_False. }
  assert (st s4 c = Some RUNNABLE) as Hc4 by (unfold s4; rewrite st_with_thread; by rewrite decide_True).
  destruct (qo_run _ Hq4) as [Hnd4 Hst4]. change (runnable_threads_ s4) with (runnable_threads_ s2) in *. rewrite Er in *.
  apply NoDup_cons in Hnd4 as [Htn Hnd]. destruct Hu as [Hu _]. rewrite Er in Hu. apply not_elem_of_cons in Hu as [Hct Hcr].
  destruct (swap_spec s4 t (rest ++ [c]) Hq4) as (s' & Hs' & Hinv' & _).
  - apply Hst4. by left.
  - intros t' Ht'. destruct (decide (t' = c)) as [->|Hn]; [congruence|]. rewrite Hne in Ht' by done.
    by apply Hn, (qo_running _ Hq2).
  - apply NoDup_app. split_and!; [done|set_solver|by apply NoDup_singleton].
  - intros t' [Hin| ->%list_elem_of_singleton]%elem_of_app; [apply Hst4; by right|done].
  - set_solver.
  - intros _. destruct (decide (sleep_thread_ s4 = c)) as [->|Hn]; [done|]. rewrite Hne by done. by apply (qo_sleep _ Hq2).
  - exists s'. done.
Qed.
End inv.

(** ** No operation creates or destroys a lock *)
Definition same_locks (s s' : sched) : Prop := forall o, is_Some (locks s' !! o) <-> is_Some (locks s !! o).

Section locks.
Implicit Types (s : sched) (t : positive).

Lemma same_locks_eq s s' : locks s' = locks s -> same_locks s s'.
Proof. intros H o. by rewrite H. Qed.

Lemma same_locks_trans s1 s2 s3 : same_locks s1 s2 -> same_locks s2 s3 -> same_locks s1 s3.
Proof. intros H1 H2 o. by rewrite (H2 o). Qed.

Lemma same_locks_insert s o m m' : locks s !! o = Some m -> same_locks s (with_lock o m' s).
Proof.
  intros Hm o'. cbn [locks with_lock]. destruct (decide (o = o')) as [<-|Hne].
  - rewrite lookup_insert_eq, Hm. split; eauto.
  - by rewrite lookup_insert_ne.
Qed.

Lemma SetState_locks t x s s' : SetState t x s = Ret s' -> locks s' = locks s.
Proof. unfold SetState. intros (y & _ & H)%bind_Ret. case_if_hyp H; [done|]. by injection H as <-. Qed.

Lemma SwapToCurrent_locks s s' : SwapToCurrent s = Ret s' -> locks s' = locks s.
Proof. unfold SwapToCurrent. intros (y & _ & H)%bind_Ret. case_if_hyp H; [done|]. by eapply SetState_locks. Qed.

Lemma Yield_locks s s' : Yield s = Ret s' -> locks s' = locks s.
Proof.
  unfold Yield. case_if_goal; [by intros [= <-]|]. intros (run & _ & H)%bind_Ret. destruct (decide _) in H.
  - destruct run as [|t rest]; [done|]. apply bind_Ret in H as (p & _ & (s1 & H1 & H2)%bind_Ret).
    rewrite (SwapToCurrent_locks _ _ H2). case_if_hyp H1; [by rewrite (SetState_locks _ _ _ _ H1)|by injection H1 as <-].
  - destruct run; by rewrite (SwapToCurrent_locks _ _ H).
Qed.

Lemma Enqueue_locks t s s' : Enqueue t s = Ret s' -> locks s' = locks s.
Proof. unfold Enqueue. destruct (decide _); [intros H; by rewrite (Yield_locks _ _ H)|by intros [= <-]]. Qed.

Lemma block_on_locks o s s' : block_on o s = Ret s' -> same_locks s s'.
Proof.
  unfold block_on, block_begin. intros (s2 & (s1 & H1 & (m & Hm%deref_Ret & [= <-])%bind_Ret)%bind_Ret & H2)%bind_Ret.
  eapply same_locks_trans; [apply same_locks_eq; by eapply SetState_locks|].
  eapply same_locks_trans; [by eapply same_locks_insert|]. apply same_locks_eq. by eapply Yield_locks.
Qed.

Lemma wake_first_locks o s s' : wake_first o s = Ret s' -> same_locks s s'.
Proof.
  unfold wake_first. intros (m & Hm%deref_Ret & H)%bind_Ret. destruct (blocked_threads_ m) as [|t rest].
  - by injection H as <-.
  - apply bind_Ret in H as (s1 & H1 & H2). eapply same_locks_trans; [by eapply same_locks_insert|].
    apply same_locks_eq. by rewrite (Enqueue_locks _ _ _ H2), (SetState_locks _ _ _ _ H1).
Qed.

Lemma wake_sleepers_locks l s kept s' : wake_sleepers l s = Ret (kept, s') -> locks s' = locks s.
Proof.
  revert s kept. induction l as [|t l IH]; intros s kept; cbn [wake_sleepers]; [by intros [= _ <-]|].
  intros (x & _ & H)%bind_Ret. case_if_hyp H.
  - apply bind_Ret in H as (s1 & H1 & H2). by rewrite (IH _ _ H2); cbn; rewrite (SetState_locks _ _ _ _ H1).
  - apply bind_Ret in H as ([kept' s1] & H1 & H2). injection H2 as _ <-. by rewrite (IH _ _ H1).
Qed.

Lemma Preempt_locks s s' : Preempt s = Ret s' -> locks s' = locks s.
Proof.
  unfold Preempt. case_if_goal; [by intros [= <-]|]. intros (s1 & H1 & (run & _ & H2)%bind_Ret)%bind_Ret.
  unfold DecrementSleepingThreads in H1. apply bind_Ret in H1 as ([kept s2] & H1%wake_sleepers_locks & [= <-]).
  destruct run as [|t rest]; [by injection H2 as <-|]. apply bind_Ret in H2 as (s3 & H2 & H3). cbn [app] in H3.
  rewrite (SwapToCurrent_locks _ _ H3). cbn. by rewrite (SetState_locks _ _ _ _ H2).
Qed.

Lemma Sleep_locks ms s s' : Sleep ms s = Ret s' -> locks s' = locks s.
Proof.
  unfold Sleep. intros (x & _ & (s1 & H1 & H2)%bind_Ret)%bind_Ret.
  rewrite (Yield_locks _ _ H2). cbn. by rewrite (SetState_locks _ _ _ _ H1).
Qed.

Lemma turn_locks o s b s' :
  Mutex_Lock o s = Ret (b, s') \/ Semaphore_Wait o s = Ret (b, s') -> same_locks s s'.
Proof.
  intros [H|H]; apply bind_Ret in H as (m & Hm%deref_Ret & H); case_if_hyp H;
    try (injection H as _ <-; by eapply same_locks_insert);
    apply bind_Ret in H as (s1 & H1%block_on_locks & [= _ <-]); [|done].
  eapply same_locks_trans; [by eapply same_locks_insert|done].
Qed.

Lemma signal_locks o s s' : Mutex_Release o s = Ret s' \/ Semaphore_Signal o s = Ret s' -> same_locks s s'.
Proof.
  intros [H|H]; apply bind_Ret in H as (m & Hm%deref_Ret & H%wake_first_locks);
    (eapply same_locks_trans; [by eapply same_locks_insert|done]).
Qed.

(** A new lock nobody waits for. *)
Lemma new_lock_inv s o w : sched_inv s -> locks s !! o = None -> sched_inv (with_lock o (mkLock w []) s).
Proof.
  intros [[H1 H2 H3 H4 H5 H6 H7] Hl] Ho. split; [split; try done|done]; cbn [locks with_lock].
  - intros o' m [[<- <-]|[_ Hm]]%lookup_insert_Some; [|by apply H4 with o'].
    split; [constructor|]. by intros t ?%elem_of_nil.
  - intros o1 o2 m1 m2 t [[<- <-]|[_ Hm1]]%lookup_insert_Some [[<- <-]|[_ Hm2]]%lookup_insert_Some Ht1 Ht2;
      try by apply elem_of_nil in Ht1. { by apply elem_of_nil in Ht2. }
    by eapply H5.
Qed.
End locks.

(** The part of [Process::Exit] that flags the threads of the process. *)
Definition flag_for_cleanup (ts : list positive) (s : sched) : res sched :=
  foldl (fun r t => s ← r; x ← get t s; if negb (IsDying x) then SetState t CLEANUP s else Ret s) (Ret s) ts.

(** ** Kernel entries *)
Inductive kernel_op : Type :=
| KPreempt | KSleep (millis : Z) | KExit | KStart (t : positive)
| KLock (o : positive) | KRelease (o : positive) | KWait (o : positive) | KSignal (o : positive).

Definition do_op (op : kernel_op) (s : sched) : res sched :=
  match op with
  | KPreempt => Preempt s
  | KSleep millis => Sleep millis s
  | KExit => Exit s
  | KStart t => Start t s
  | KLock o => '(_, s') ← Mutex_Lock o s; Ret s'
  | KRelease o => Mutex_Release o s
  | KWait o => '(_, s') ← Semaphore_Wait o s; Ret s'
  | KSignal o => Semaphore_Signal o s
  end.

(** The idle thread never blocks, a thread is started once, and locks exist. *)
Definition op_ok (op : kernel_op) (s : sched) : Prop :=
  match op with
  | KPreempt => True
  | KSleep _ | KExit => current_thread_ s <> sleep_thread_ s
  | KStart t => st s t = Some CREATED /\ t <> current_thread_ s
  | KLock o | KWait o => current_thread_ s <> sleep_thread_ s /\ is_Some (locks s !! o)
  | KRelease o | KSignal o => is_Some (locks s !! o)
  end.

Definition sched_step (s s' : sched) : Prop := exists op, op_ok op s /\ do_op op s = Ret s'.

Lemma do_op_spec op s : sched_inv s -> op_ok op s -> exists s', do_op op s = Ret s' /\ sched_inv s'.
Proof.
  intros Hinv. destruct op as [|ms| |t|o|o|o|o]; cbn [op_ok do_op].
  - intros _. by apply Preempt_spec.
  - intros Hne. by apply Sleep_spec.
  - intros Hne. by apply Exit_spec.
  - intros [Ht Hne]. by apply Start_spec.
  - intros [Hne [m Hm]]. unfold Mutex_Lock. rewrite Hm. cbn [deref mbind res_bind].
    pose proof (lockword_inv s o m (Z.lor (lock_ m) 1) Hinv Hm) as Hinv'. case_if_goal.
    + destruct (block_on_spec _ o (mkLock (Z.lor (lock_ m) 1) (blocked_threads_ m)) Hinv') as (s' & -> & H);
        [done|cbn; by rewrite lookup_insert_eq|]. exists s'. done.
    + eexists. split; [done|done].
  - intros [m Hm]. unfold Mutex_Release. rewrite Hm. cbn [deref mbind res_bind].
    apply wake_first_spec with (mkLock 0 (blocked_threads_ m)); [by apply lockword_inv|cbn; by rewrite lookup_insert_eq].
  - intros [Hne [m Hm]]. unfold Semaphore_Wait. rewrite Hm. cbn [deref mbind res_bind]. case_if_goal.
    + destruct (block_on_spec s o m Hinv Hne Hm) as (s' & -> & H). exists s'. done.
    + eexists. split; [done|]. by apply lockword_inv.
  - intros [m Hm]. unfold Semaphore_Signal. rewrite Hm. cbn [deref mbind res_bind].
    apply wake_first_spec with (mkLock (u8 (lock_ m + 1)) (blocked_threads_ m));
      [by apply lockword_inv|cbn; by rewrite lookup_insert_eq].
Qed.

(** ** Properties *)

(** A thread blocks on a mutex and a tick comes before it yields, the holder releases the mutex, and the next tick gives the
    processor back to the thread, which goes on with its [Yield()]. *)
Definition interrupted_lock (o : positive) (s : sched) : res sched :=
  s ← block_begin o s;
  s ← Preempt s;
  s ← Mutex_Release o s;
  s ← Preempt s;
  Yield s.

(** A tick, computed: nobody sleeps, [a] is next. *)
Lemma Preempt_next th c sl a l lk xa xc :
  th !! a = Some xa -> state_ xa = RUNNABLE -> th !! c = Some xc -> IsDying xc = false -> a <> c ->
  Preempt (mkSched th c sl (a :: l) [] true lk) =
    Ret (mkSched (<[a := mkThread RUNNING (sleep_ticks_ xa)]> (<[c := mkThread RUNNABLE (sleep_ticks_ xc)]> th)) a sl (l ++ [c]) [] true lk).
Proof.
  intros Ha Hsa Hc Hd Hne. unfold Preempt, DecrementSleepingThreads. cbn [negb enabled_ sleeping_threads_ wake_sleepers mbind res_bind runnable_threads_ with_sleeping threads clear_dead].
  rewrite Ha. cbn [deref mbind res_bind]. assert (IsDying xa = false) as Hda by (unfold IsDying; by rewrite Hsa). rewrite Hda. cbn [mbind res_bind].
  unfold SetState, get. cbn [threads with_runnable with_sleeping current_thread_]. rewrite Hc. cbn [deref mbind res_bind]. rewrite Hd. cbn [mbind res_bind app].
  unfold SwapToCurrent, SetState, get. cbn [current_thread_ threads with_current with_runnable with_thread with_sleeping].
  rewrite lookup_insert_ne by done. rewrite Ha. cbn [deref mbind res_bind]. rewrite Hsa, bool_decide_true by done. cbn [negb]. by rewrite Hda.
Qed.

Lemma interrupted_lock_panics s o m t2 :
  sched_inv s -> current_thread_ s <> sleep_thread_ s -> locks s !! o = Some m -> blocked_threads_ m = [] ->
  runnable_threads_ s = [t2] -> t2 <> sleep_thread_ s -> sleeping_threads_ s = [] -> interrupted_lock o s = Panic.
Proof.
  intros [Hq Hl] Hne Hm Hb Hr Ht2 Hs. pose proof (qo_enabled _ Hq) as He.
  destruct (live_dying s _ Hl) as (y & Hy & Hd & _). destruct (st_get s _ _ Hy) as (x & _ & Hx & Hth).
  assert (st s t2 = Some RUNNABLE) as Hrt by (apply (qo_run _ Hq); rewrite Hr; by left). destruct (st_get s _ _ Hrt) as (x2 & _ & Hx2 & Hth2).
  assert (t2 <> current_thread_ s) as Hn by (intros ->; destruct Hl; congruence). destruct s as [th t sl run slp en lk], m as [w l]. cbn in *. subst run slp en l. clear Hq Hl Hy Hrt.
  set (lk1 := <[o := mkLock w [t]]> lk). unfold interrupted_lock.
  assert (block_begin o (mkSched th t sl [t2] [] true lk) = Ret (mkSched (<[t := mkThread BLOCKED (sleep_ticks_ x)]> th) t sl [t2] [] true lk1)) as ->.
  { unfold block_begin, SetState, get. cbn [threads current_thread_]. rewrite Hth. cbn [deref mbind res_bind].
    replace (IsDying x) with (dying y) by (unfold IsDying, dying; by rewrite Hx). rewrite Hd. cbn [mbind res_bind locks with_thread]. by rewrite Hm. }
  cbn [mbind res_bind]. rewrite (Preempt_next _ t sl t2 [] lk1 x2 (mkThread BLOCKED (sleep_ticks_ x))) by (done || by rewrite ?lookup_insert_eq, ?lookup_insert_ne).
  cbn [mbind res_bind app]. set (th2 := <[t2 := _]> _).
  assert (th2 !! t = Some (mkThread RUNNABLE (sleep_ticks_ x))) as Hth2t by (unfold th2; by rewrite lookup_insert_ne, lookup_insert_eq by done).
  assert (exists lk3, Mutex_Release o (mkSched th2 t2 sl [t] [] true lk1) = Ret (mkSched (<[t := mkThread RUNNABLE (sleep_ticks_ x)]> th2) t2 sl [t; t] [] true lk3)) as [lk3 ->].
  { unfold Mutex_Release, wake_first, lk1. cbn [locks with_lock]. rewrite lookup_insert_eq. cbn [deref mbind res_bind]. rewrite lookup_insert_eq. cbn [deref mbind res_bind blocked_threads_ lock_].
    unfold SetState, get. cbn [threads with_lock]. rewrite Hth2t. cbn [deref mbind res_bind].
    change (IsDying (mkThread RUNNABLE (sleep_ticks_ x))) with false. cbn [mbind res_bind]. unfold Enqueue. cbn. rewrite decide_False by done. by eexists. }
  cbn [mbind res_bind]. rewrite (Preempt_next _ t2 sl t [t] lk3 (mkThread RUNNABLE (sleep_ticks_ x)) (mkThread RUNNING (sleep_ticks_ x2)));
    [|by rewrite lookup_insert_eq|done|rewrite lookup_insert_ne by done; unfold th2; by rewrite lookup_insert_eq|done|done].
  cbn [mbind res_bind app]. unfold Yield. cbn [negb enabled_ runnable_threads_ threads clear_dead]. rewrite lookup_insert_eq. cbn [deref mbind res_bind].
  change (IsDying (mkThread RUNNING (sleep_ticks_ (mkThread RUNNABLE (sleep_ticks_ x))))) with false. cbn. rewrite decide_False by done. unfold SwapToCurrent, get. cbn. by rewrite lookup_insert_eq.
Qed.


(** Threads that another thread flags for cleanup stay in their queues:
    a timer tick while the current thread is flagged, with another thread
    runnable, panics, and so does releasing a mutex whose first waiter was
    flagged. *)
Theorem flagged_threads_panic s o m t rest :
  queues_ok s ->
  (st s (current_thread_ s) = Some CLEANUP -> sleeping_threads_ s = [] -> runnable_threads_ s <> [] ->
     Preempt s = Panic) /\
  (locks s !! o = Some m -> blocked_threads_ m = t :: rest ->
     exists s', flag_for_cleanup [t] s = Ret s' /\ Mutex_Release o s' = Panic).
Proof.
  intros Hq. split.
  - intros Hc Hs Hr. unfold Preempt, DecrementSleepingThreads. rewrite (qo_enabled _ Hq), Hs. cbn [negb wake_sleepers mbind res_bind].
    rewrite clear_dead_alive by apply Hq. cbn [mbind res_bind].
    destruct (runnable_threads_ (with_sleeping [] s)) as [|t0 l] eqn:Er; [done|].
    unfold SetState. destruct (st_get s _ _ Hc) as (x & _ & Hx & Hth). unfold get. cbn [threads with_runnable with_sleeping current_thread_].
    rewrite Hth. cbn [deref mbind res_bind]. unfold IsDying. by rewrite Hx.
  - intros Hm Hb. assert (st s t = Some BLOCKED) as Ht by (eapply (qo_blk _ Hq); [exact Hm|]; rewrite Hb; by left).
    destruct (st_get s t _ Ht) as (x & Hg & Hx & _). unfold flag_for_cleanup. cbn [foldl mbind res_bind]. rewrite Hg.
    cbn [mbind res_bind]. unfold IsDying at 1. rewrite Hx. cbn [bool_decide decide_rel negb orb].
    destruct (SetState_spec t CLEANUP s BLOCKED Ht eq_refl) as (tk & ->). eexists. split; [done|].
    unfold Mutex_Release. change (locks (with_thread t (mkThread CLEANUP tk) s)) with (locks s). rewrite Hm. cbn [deref mbind res_bind].
    unfold wake_first. cbn [locks with_lock]. rewrite lookup_insert_eq. cbn [deref mbind res_bind blocked_threads_]. rewrite Hb.
    unfold SetState, get. cbn [threads with_lock with_thread]. rewrite lookup_insert_eq. done.
Qed.

(** A semaphore counts in eight bits: the signal that would make 256
    outstanding signals makes none, and the next waiter blocks. *)
Theorem Semaphore_wraps_at_256 s o m :
  locks s !! o = Some m -> lock_ m = 255 -> blocked_threads_ m = [] ->
  exists s', Semaphore_Signal o s = Ret s' /\ locks s' !! o = Some (mkLock 0 []) /\
    Semaphore_Wait o s' = s'' ← block_on o s'; Ret (false, s'').
Proof.
  intros Hm Hl Hb. unfold Semaphore_Signal, wake_first. rewrite Hm. cbn [deref mbind res_bind locks with_lock].
  rewrite lookup_insert_eq. cbn [deref mbind res_bind blocked_threads_]. rewrite Hb, Hl. eexists. split; [done|].
  assert (locks (with_lock o (mkLock (u8 (255 + 1)) []) s) !! o = Some (mkLock 0 [])) as Hlk
    by (cbn [locks with_lock]; by rewrite lookup_insert_eq).
  split; [done|]. unfold Semaphore_Wait. by rewrite Hlk.
Qed.

(** *** Witnesses *)
Definition sample_sched : sched :=
  mkSched {[ 1%positive := mkThread RUNNABLE 0; 2%positive := mkThread RUNNING 0; 3%positive := mkThread RUNNABLE 0;
             4%positive := mkThread BLOCKED 0 ]}
    2 1 [3%positive] [] true {[ 1%positive := mkLock 1 [4%positive]; 2%positive := mkLock 255 [] ]}.

Lemma sample_sched_cases t x :
  st sample_sched t = Some x ->
  t = 1%positive /\ x = RUNNABLE \/ t = 2%positive /\ x = RUNNING \/ t = 3%positive /\ x = RUNNABLE \/
  t = 4%positive /\ x = BLOCKED.
Proof.
  unfold st, sample_sched. cbn [threads]. destruct (_ !! t) as [y|] eqn:E; [|done]. intros [= <-].
  repeat (apply lookup_insert_Some in E as [[<- <-]|[_ E]]; [naive_solver|]).
  apply lookup_singleton_Some in E as [<- <-]. naive_solver.
Qed.

Lemma sample_sched_inv : sched_inv sample_sched.
Proof.
  split; [split|by left].
  - intros t Ht. apply sample_sched_cases in Ht. naive_solver.
  - split; [by apply NoDup_singleton|]. intros t ->%list_elem_of_singleton. done.
  - split; [constructor|]. by intros t ?%elem_of_nil.
  - intros o m Hm. cbn [locks sample_sched] in Hm. apply lookup_insert_Some in Hm as [[<- <-]|[_ Hm]].
    + split; [by apply NoDup_singleton|]. intros t ->%list_elem_of_singleton. done.
    + apply lookup_singleton_Some in Hm as [<- <-]. split; [constructor|]. by intros t ?%elem_of_nil.
  - intros o1 o2 m1 m2 t H1 H2 Ht1 Ht2. cbn [locks sample_sched] in *.
    apply lookup_insert_Some in H1 as [[<- <-]|[_ H1]]; [|apply lookup_singleton_Some in H1 as [<- <-]; by apply elem_of_nil in Ht1].
    apply lookup_insert_Some in H2 as [[<- <-]|[_ H2]]; [done|]. apply lookup_singleton_Some in H2 as [<- <-]. by apply elem_of_nil in Ht2.
  - done.
  - done.
Qed.


Lemma flagged_threads_panic_witness :
  exists s', flag_for_cleanup [4%positive] sample_sched = Ret s' /\ Mutex_Release 1 s' = Panic.
Proof.
  refine (proj2 (flagged_threads_panic sample_sched 1 (mkLock 1 [4%positive]) 4 [] (si_queues _ sample_sched_inv)) _ _);
    reflexivity.
Defined.

Lemma Semaphore_wraps_at_256_witness :
  exists s', Semaphore_Signal 2 sample_sched = Ret s' /\ locks s' !! 2%positive = Some (mkLock 0 []).
Proof.
  destruct (Semaphore_wraps_at_256 sample_sched 2 (mkLock 255 [])) as (s' & H1 & H2 & _); [reflexivity..|].
  exists s'. split; [exact H1|exact H2].
Defined.
