(* ===== verification/Ipc.v ===== *)
(** * Inter-process communication (zion/lib/message_queue.h, message_queue.cpp,
    zion/object/ipc_object, channel, port, endpoint, reply_port,
    zion/interrupt/driver_manager.cpp, zion/syscall/ipc.cpp, synchronization.cpp)

    The system calls that move messages and capabilities between processes.
    The kernel state of this file is what they act on: the scheduler, the
    capability table of each process, the IPC objects with their queues and
    the interrupt listeners.

    A system call may fail with an error code or block; both leave the kernel
    in a state that other threads continue from, so the monad [K] returns an
    [outcome] with the state.  A call that blocks in a queue continues, once
    its thread runs again, at the loop it blocked in ([ZResumeRecv]).
    An entry runs to its end, or to the point where it blocks, without a
    timer tick inside: ticks are entries of their own.  The code enables
    interrupts in system calls (syscall_enter.s), so this is a restriction; what
    a tick inside a lock operation does is in Sched.v.  Under it the [mutex_]
    of a queue is free whenever an entry begins, and is not represented; the
    wait queue of an object is its [Lockable] in the scheduler.  Byte arrays and vectors are the sequences they stand for. *)

From Stdlib Require Import ZArith Lia.
From stdpp Require Import base tactics numbers list gmap fin_maps relations.
From S2P Require Import Prelude Status LinkedList Hash HashMap Capability Sched.

Record IpcMessage : Type := mkMsg {
  msg_data : list Z;
  msg_caps : list (option Capability);
  reply_cap : option Capability;
}.

(** A default-constructed, or moved-from, message. *)
Definition empty_msg : IpcMessage := mkMsg [] [] None.

Inductive MessageQueue : Type :=
| UnboundedMessageQueue (pending_messages_ : list IpcMessage)
| SingleMessageQueue (has_written_ has_read_ : bool) (message_ : IpcMessage).

(** [Channel], [Port], [Endpoint] and [ReplyPort]. *)
Record IpcObject : Type := mkIpc {
  ipc_type : ObjectType;
  peer_ : option positive;
  message_queue_ : MessageQueue;
}.

Record kernel : Type := mkKernel {
  sch : sched;
  process_ : positive -> positive;          (* the process of a thread *)
  tables : gmap positive CapabilityTable;   (* by process *)
  ipc_objects : gmap positive IpcObject;
  driver_map_ : HashMap Z (option positive);
  next_ref : positive;                      (* where the next object is allocated *)
}.

Definition with_sch (s : sched) (k : kernel) : kernel :=
  mkKernel s (process_ k) (tables k) (ipc_objects k) (driver_map_ k) (next_ref k).
Definition with_tables (t : gmap positive CapabilityTable) (k : kernel) : kernel :=
  mkKernel (sch k) (process_ k) t (ipc_objects k) (driver_map_ k) (next_ref k).
Definition with_objects (o : gmap positive IpcObject) (k : kernel) : kernel :=
  mkKernel (sch k) (process_ k) (tables k) o (driver_map_ k) (next_ref k).
Definition with_drivers (d : HashMap Z (option positive)) (k : kernel) : kernel :=
  mkKernel (sch k) (process_ k) (tables k) (ipc_objects k) d (next_ref k).

(** ** The system-call monad *)
Inductive outcome (A : Type) : Type :=
| Val (a : A)
| Err (e : ErrorCode)
| Blocked.
Arguments Val {A} a.
Arguments Err {A} e.
Arguments Blocked {A}.

Definition K (A : Type) : Type := kernel -> res (outcome A * kernel).

#[export] Instance K_ret : MRet K := fun A a k => Ret (Val a, k).
#[export] Instance K_bind : MBind K := fun A B f m k =>
  '(o, k) ← m k;
  match o with
  | Val a => f a k
  | Err e => Ret (Err e, k)
  | Blocked => Ret (Blocked, k)
  end.

Definition fail {A} (e : ErrorCode) : K A := fun k => Ret (Err e, k).
Definition blocked {A} : K A := fun k => Ret (Blocked, k).
Definition lift {A} (m : res A) : K A := fun k => a ← m; Ret (Val a, k).

(** [RET_ERR(expr)] *)
Definition RET_ERR (e : ErrorCode) : K unit := if decide (e = OK) then mret tt else fail e.

Definition on_sched (f : sched -> res sched) : K unit := fun k =>
  s ← f (sch k); Ret (Val tt, with_sch s k).

(** An operation on [gScheduler->CurrentProcess()]'s capability table. *)
Definition on_table {A} (f : CapabilityTable -> res (A * CapabilityTable)) : K A := fun k =>
  let p := process_ k (current_thread_ (sch k)) in
  t ← deref (tables k !! p);
  '(a, t) ← f t;
  Ret (Val a, with_tables (<[p := t]> (tables k)) k).

Definition get_object (o : positive) : K IpcObject := fun k =>
  x ← deref (ipc_objects k !! o); Ret (Val x, k).

Definition set_queue (o : positive) (q : MessageQueue) : K unit := fun k =>
  x ← deref (ipc_objects k !! o);
  Ret (Val tt, with_objects (<[o := mkIpc (ipc_type x) (peer_ x) q]> (ipc_objects k)) k).

(** [new]: an object with an empty wait queue. *)
Definition new_lock : K positive := fun k =>
  let r := next_ref k in
  Ret (Val r, mkKernel (with_lock r (mkLock 0 []) (sch k)) (process_ k) (tables k) (ipc_objects k)
                (driver_map_ k) (Pos.succ r)).

Definition put_object (r : positive) (x : IpcObject) : K unit := fun k =>
  Ret (Val tt, with_objects (<[r := x]> (ipc_objects k)) k).

Definition new_object (t : ObjectType) (q : MessageQueue) : K positive :=
  r ← new_lock;
  put_object r (mkIpc t None q);;
  mret r.

Definition set_peer (o p : positive) : K unit := fun k =>
  x ← deref (ipc_objects k !! o);
  Ret (Val tt, with_objects (<[o := mkIpc (ipc_type x) (Some p) (message_queue_ x)]> (ipc_objects k)) k).

(** ** Message queues *)

Definition UnboundedMessageQueue_PushBack (o : positive) (pending : list IpcMessage) (message : IpcMessage) : K unit :=
  set_queue o (UnboundedMessageQueue (pending ++ [message]));;
  on_sched (wake_first o).

Definition SingleMessageQueue_PushBack (o : positive) (has_written has_read : bool) (message : IpcMessage) : K unit :=
  if bool_decide (is_Some (reply_cap message)) then fail INTERNAL
  else if has_written then fail FAILED_PRECONDITION
  else
    set_queue o (SingleMessageQueue true has_read message);;
    on_sched (wake_first o).

(** [MessageQueue::PushBack], a virtual method. *)
Definition PushBack (o : positive) (message : IpcMessage) : K unit :=
  x ← get_object o;
  match message_queue_ x with
  | UnboundedMessageQueue pending => UnboundedMessageQueue_PushBack o pending message
  | SingleMessageQueue has_written has_read _ => SingleMessageQueue_PushBack o has_written has_read message
  end.

(** One turn of the loop of [PopFront]: it blocks, or takes the message. *)
Definition UnboundedMessageQueue_PopFront (o : positive) (pending : list IpcMessage) (data_buf_size cap_buf_size : Z) :
    K IpcMessage :=
  match pending with
  | [] => on_sched (block_on o);; blocked
  | next_msg :: rest =>
      if Z.of_nat (length (msg_data next_msg)) >? data_buf_size then fail BUFFER_SIZE
      else if Z.of_nat (length (msg_caps next_msg)) >? cap_buf_size then fail BUFFER_SIZE
      else set_queue o (UnboundedMessageQueue rest);; mret next_msg
  end.

Definition SingleMessageQueue_PopFront (o : positive) (has_written has_read : bool) (message : IpcMessage)
    (data_buf_size cap_buf_size : Z) : K IpcMessage :=
  if negb has_written then on_sched (block_on o);; blocked
  else if has_read then fail FAILED_PRECONDITION
  else if Z.of_nat (length (msg_data message)) >? data_buf_size then fail BUFFER_SIZE
  else if Z.of_nat (length (msg_caps message)) >? cap_buf_size then fail BUFFER_SIZE
  else set_queue o (SingleMessageQueue true true empty_msg);; mret message.

Definition PopFront (o : positive) (data_buf_size cap_buf_size : Z) : K IpcMessage :=
  x ← get_object o;
  match message_queue_ x with
  | UnboundedMessageQueue pending => UnboundedMessageQueue_PopFront o pending data_buf_size cap_buf_size
  | SingleMessageQueue has_written has_read message =>
      SingleMessageQueue_PopFront o has_written has_read message data_buf_size cap_buf_size
  end.

Definition queue_empty (q : MessageQueue) : bool :=
  match q with
  | UnboundedMessageQueue pending => bool_decide (length pending = 0%nat)
  | SingleMessageQueue has_written _ _ => negb has_written
  end.

(** [UnboundedMessageQueue::WriteKernel]: the eight bytes of [init], little endian. *)
Definition init_bytes (init : Z) : list Z :=
  (fun i => Z.land (Z.shiftr init (8 * Z.of_nat i)) 0xff) <$> seq 0 8.

Definition WriteKernel (o : positive) (init : Z) (cap : option Capability) : K unit :=
  x ← get_object o;
  match message_queue_ x with
  | UnboundedMessageQueue pending =>
      set_queue o (UnboundedMessageQueue (pending ++ [mkMsg (init_bytes init) [cap] None]))
  | SingleMessageQueue _ _ _ => lift Fault
  end.

(** ** IPC objects *)
Definition GetSendMessageQueue (o : positive) : K positive :=
  x ← get_object o;
  if decide (ipc_type x = CHANNEL) then lift (deref (peer_ x)) else mret o.

(** [IpcObject::Send], [IpcObject::Recv], [IpcObject::HasMessages] *)
Definition Send (o : positive) (message : IpcMessage) : K unit :=
  q ← GetSendMessageQueue o; PushBack q message.

Definition Recv (o : positive) (data_buf_size cap_buf_size : Z) : K IpcMessage :=
  PopFront o data_buf_size cap_buf_size.

Definition HasMessages (o : positive) : K bool :=
  x ← get_object o; mret (negb (queue_empty (message_queue_ x))).

(** [DefaultPermissions] of channels, ports and endpoints, of mutexes and of semaphores. *)
Definition ipc_permissions : Z :=
  Z.lor (Z.lor (Z.lor kZionPerm_Read kZionPerm_Write) kZionPerm_Duplicate) kZionPerm_Transmit.
Definition mutex_permissions : Z := Z.lor kZionPerm_Lock kZionPerm_Release.
Definition semaphore_permissions : Z := Z.lor kZionPerm_Wait kZionPerm_Signal.

Definition CreateChannelPair : K (positive * positive) :=
  c1 ← new_object CHANNEL (UnboundedMessageQueue []);
  c2 ← new_object CHANNEL (UnboundedMessageQueue []);
  set_peer c1 c2;;
  set_peer c2 c1;;
  mret (c1, c2).

Definition Port_new : K positive := new_object PORT (UnboundedMessageQueue []).
Definition Endpoint_Create : K positive := new_object ENDPOINT (UnboundedMessageQueue []).
Definition ReplyPort_Create : K positive := new_object REPLY_PORT (SingleMessageQueue false false empty_msg).

(** ** Interrupt listeners *)
Definition WriteMessage (irq_num : Z) (message : IpcMessage) : K unit := fun k =>
  found ← Contains irq_num (driver_map_ k);
  if negb found then Ret (Val tt, k) else
  '(port, m) ← at_ None irq_num (driver_map_ k);
  r ← deref port;
  Send r message (with_drivers m k).

Definition RegisterListener (irq_num : Z) (port : positive) : K unit := fun k =>
  found ← Contains irq_num (driver_map_ k);
  if (found : bool) then Ret (Err ALREADY_EXISTS, k) else
  '(e, m) ← Insert irq_num (Some port) (driver_map_ k);
  RET_ERR e (with_drivers m k).

(** ** Requests and responses

    A request's user buffers are given as the bytes and capability ids that
    are readable there; reading past them faults. *)
Record SendReq : Type := mkSend {
  num_bytes : Z; req_data : list Z; num_caps : Z; req_caps : list Z;
}.
Record RecvReq : Type := mkRecv { max_bytes : Z; max_caps : Z }.
Record RecvResp : Type := mkResp { resp_data : list Z; resp_caps : list Z; reply_port_cap : option Z }.

(** [ArrayView(ptr, n)] read in full *)
Definition read_user (l : list Z) (n : Z) : K (list Z) :=
  if Z.of_nat (length l) <? n then lift Fault else mret (take (Z.to_nat n) l).

(** The loop over the capability ids of a request. *)
Fixpoint transmit_caps (ids : list Z) : K (list (option Capability)) :=
  match ids with
  | [] => mret []
  | capid :: ids' =>
      cap ← on_table (GetCapability capid);
      match cap with
      | None => fail CAP_NOT_FOUND
      | Some c =>
          if negb (HasPermissions c kZionPerm_Transmit) then fail CAP_PERMISSION_DENIED else
          released ← on_table (ReleaseCapability capid);
          rest ← transmit_caps ids';
          mret (released :: rest)
      end
  end.

Definition TranslateRequestToIpcMessage (req : SendReq) : K IpcMessage :=
  if num_bytes req >? 0x1000 then fail UNIMPLEMENTED else
  data ← read_user (req_data req) (num_bytes req);
  ids ← read_user (req_caps req) (num_caps req);
  caps ← transmit_caps ids;
  mret (mkMsg data caps None).

Fixpoint receive_caps (cs : list (option Capability)) : K (list Z) :=
  match cs with
  | [] => mret []
  | c :: cs' =>
      id ← on_table (AddExistingCapability c);
      ids ← receive_caps cs';
      mret (id :: ids)
  end.

Definition TranslateIpcMessageToResponse (message : IpcMessage) (req : RecvReq) : K RecvResp :=
  if Z.of_nat (length (msg_data message)) >? max_bytes req then fail BUFFER_SIZE
  else if Z.of_nat (length (msg_caps message)) >? max_caps req then fail BUFFER_SIZE
  else
    ids ← receive_caps (msg_caps message);
    mret (mkResp (msg_data message) ids None).

(** The error code of the first translation is dropped: [None] is a response
    that was not filled in. *)
Definition TranslateIpcMessageToResponseWithReplyPort (message : IpcMessage) (req : RecvReq) :
    K (option RecvResp * Z) := fun k =>
  '(o, k) ← TranslateIpcMessageToResponse message req k;
  let resp := match o with Val r => Some r | _ => None end in
  match reply_cap message with
  | None => Ret (Err INTERNAL, k)
  | Some c => (id ← on_table (AddExistingCapability (Some c)); mret (resp, id)) k
  end.

(** ** The system calls of zion/syscall/ipc.cpp *)
Definition AddNew (t : ObjectType) (perms : Z) (r : positive) : K Z :=
  on_table (AddNewCapability (mkObj t r) perms).

(** [GetCapability], [ValidateCapability<T>] and [cap->obj<T>()]. *)
Definition validated (t : ObjectType) (cap_id : Z) (perms : Z) : K positive :=
  cap ← on_table (GetCapability cap_id);
  RET_ERR (ValidateCapability t cap perms);;
  c ← lift (deref cap);
  lift (Capability_obj t c).

Definition ChannelCreate : K (Z * Z) :=
  '(c1, c2) ← CreateChannelPair;
  id1 ← AddNew CHANNEL ipc_permissions c1;
  id2 ← AddNew CHANNEL ipc_permissions c2;
  mret (id1, id2).

Definition ChannelSend (chan_cap : Z) (req : SendReq) : K unit :=
  chan ← validated CHANNEL chan_cap kZionPerm_Write;
  message ← TranslateRequestToIpcMessage req;
  Send chan message.

(** From [chan->Recv] on. *)
Definition recv_and_translate (o : positive) (req : RecvReq) : K RecvResp :=
  msg ← Recv o (max_bytes req) (max_caps req);
  TranslateIpcMessageToResponse msg req.

Definition ChannelRecv (chan_cap : Z) (req : RecvReq) : K RecvResp :=
  chan ← validated CHANNEL chan_cap kZionPerm_Read;
  recv_and_translate chan req.

Definition PortCreate : K Z :=
  port ← Port_new;
  AddNew PORT ipc_permissions port.

Definition PortSend (port_cap : Z) (req : SendReq) : K unit :=
  port ← validated PORT port_cap kZionPerm_Write;
  message ← TranslateRequestToIpcMessage req;
  Send port message.

Definition PortRecv (port_cap : Z) (req : RecvReq) : K RecvResp :=
  port ← validated PORT port_cap kZionPerm_Read;
  recv_and_translate port req.

Definition PortPoll (port_cap : Z) (req : RecvReq) : K RecvResp :=
  port ← validated PORT port_cap kZionPerm_Read;
  pending ← HasMessages port;
  if negb pending then fail EMPTY else recv_and_translate port req.

(** The capability id is written even when the registration fails. *)
Definition IrqRegister (irq_num : Z) : K Z :=
  port ← Port_new;
  id ← AddNew PORT ipc_permissions port;
  RegisterListener irq_num port;;
  mret id.

Definition EndpointCreate : K Z :=
  e ← Endpoint_Create;
  AddNew ENDPOINT ipc_permissions e.

Definition EndpointSend (endpoint_cap : Z) (req : SendReq) : K Z :=
  endpoint ← validated ENDPOINT endpoint_cap kZionPerm_Write;
  reply_port ← ReplyPort_Create;
  id ← AddNew REPLY_PORT kZionPerm_Read reply_port;
  message ← TranslateRequestToIpcMessage req;
  Send endpoint (mkMsg (msg_data message) (msg_caps message)
    (Some (mkCap (mkObj REPLY_PORT reply_port) (Z.lor kZionPerm_Write kZionPerm_Transmit))));;
  mret id.

(** From [endpoint->Recv] on. *)
Definition recv_with_reply (o : positive) (req : RecvReq) : K (option RecvResp * Z) :=
  msg ← Recv o (max_bytes req) (max_caps req);
  TranslateIpcMessageToResponseWithReplyPort msg req.

Definition EndpointRecv (endpoint_cap : Z) (req : RecvReq) : K (option RecvResp * Z) :=
  endpoint ← validated ENDPOINT endpoint_cap kZionPerm_Read;
  recv_with_reply endpoint req.

Definition ReplyPortSend (reply_port_cap : Z) (req : SendReq) : K unit :=
  reply_port ← validated REPLY_PORT reply_port_cap kZionPerm_Write;
  message ← TranslateRequestToIpcMessage req;
  Send reply_port message.

Definition ReplyPortRecv (reply_port_cap : Z) (req : RecvReq) : K RecvResp :=
  reply_port ← validated REPLY_PORT reply_port_cap kZionPerm_Read;
  recv_and_translate reply_port req.

(** ** The system calls of zion/syscall/synchronization.cpp *)
Definition MutexCreate : K Z :=
  mutex ← new_lock;
  AddNew MUTEX mutex_permissions mutex.

(** One turn of the loop of a lock operation on object [o]. *)
Definition lock_turn (f : sched -> res (bool * sched)) : K unit := fun k =>
  '(taken, s) ← f (sch k);
  Ret (if taken : bool then Val tt else Blocked, with_sch s k).

Definition MutexLock (mutex_cap : Z) : K unit :=
  mutex ← validated MUTEX mutex_cap kZionPerm_Lock;
  lock_turn (Mutex_Lock mutex).

Definition MutexRelease (mutex_cap : Z) : K unit :=
  mutex ← validated MUTEX mutex_cap kZionPerm_Release;
  on_sched (Mutex_Release mutex).

Definition SemaphoreCreate : K Z :=
  semaphore ← new_lock;
  AddNew SEMAPHORE semaphore_permissions semaphore.

Definition SemaphoreWait (semaphore_cap : Z) : K unit :=
  semaphore ← validated SEMAPHORE semaphore_cap kZionPerm_Wait;
  lock_turn (Semaphore_Wait semaphore).

Definition SemaphoreSignal (semaphore_cap : Z) : K unit :=
  semaphore ← validated SEMAPHORE semaphore_cap kZionPerm_Signal;
  on_sched (Semaphore_Signal semaphore).

(** ** The kernel's invariant *)
Definition queue_msgs (q : MessageQueue) : list IpcMessage :=
  match q with
  | UnboundedMessageQueue pending => pending
  | SingleMessageQueue _ _ message => [message]
  end.

Definition msg_holds (m : IpcMessage) (c : Capability) : Prop := Some c ∈ msg_caps m \/ reply_cap m = Some c.

(** The capabilities of the system: those in tables and those in messages. *)
Definition cap_in (k : kernel) (c : Capability) : Prop :=
  (exists p t id, tables k !! p = Some t /\ caps t !! id = Some (Some c)) \/
  (exists r x m, ipc_objects k !! r = Some x /\ m ∈ queue_msgs (message_queue_ x) /\ msg_holds m c).

Definition obj_type (k : kernel) (r : positive) : option ObjectType := ipc_type <$> ipc_objects k !! r.

Definition is_ipc (t : ObjectType) : bool :=
  match t with CHANNEL | PORT | ENDPOINT | REPLY_PORT => true | _ => false end.
Definition is_lock (t : ObjectType) : bool :=
  match t with MUTEX | SEMAPHORE => true | _ => false end.

(** The object of a capability exists and has the type of its tag. *)
Definition cap_ok (k : kernel) (c : Capability) : Prop :=
  let t := TypeTag (obj_ c) in
  let r := obj_ref (obj_ c) in
  (is_ipc t = true -> obj_type k r = Some t) /\ (is_lock t = true -> is_Some (locks (sch k) !! r)).

Definition kind_ok (x : IpcObject) : Prop :=
  match message_queue_ x with
  | UnboundedMessageQueue _ => is_ipc (ipc_type x) = true /\ ipc_type x <> REPLY_PORT
  | SingleMessageQueue _ _ _ => ipc_type x = REPLY_PORT
  end.

Definition obj_wf (k : kernel) (r : positive) (x : IpcObject) : Prop :=
  is_Some (locks (sch k) !! r) /\ kind_ok x /\
  (ipc_type x = CHANNEL -> exists p, peer_ x = Some p /\ obj_type k p = Some CHANNEL).

Record kinv (k : kernel) : Prop := {
  ki_sched : sched_inv (sch k);
  ki_tables : forall p t, tables k !! p = Some t -> table_wf t;
  ki_procs : forall t, is_Some (tables k !! process_ k t);
  ki_objs : forall r x, ipc_objects k !! r = Some x -> obj_wf k r x;
  ki_caps : forall c, cap_in k c -> cap_ok k c;
  ki_msgs : forall r x m, ipc_objects k !! r = Some x -> m ∈ queue_msgs (message_queue_ x) -> Forall is_Some (msg_caps m);
  ki_fresh : forall r, is_Some (locks (sch k) !! r) -> (r < next_ref k)%positive;
  ki_map : hm_wf (driver_map_ k);
  ki_drivers : forall irq v, hm_model (driver_map_ k) !! irq = Some v ->
    exists r, v = Some r /\ obj_type k r = Some PORT;
}.

(** Objects are never destroyed or retyped. *)
Record ext (k k' : kernel) : Prop := {
  ext_types : forall r t, obj_type k r = Some t -> obj_type k' r = Some t;
  ext_locks : forall r, is_Some (locks (sch k) !! r) -> is_Some (locks (sch k') !! r);
  ext_next : (next_ref k <= next_ref k')%positive;
}.

(** [c] refers to the object of [c0] and grants no more. *)
Definition at_most (c c0 : Capability) : Prop :=
  obj_ c = obj_ c0 /\ forall p, HasPermissions c p = true -> HasPermissions c0 p = true.

(** A capability that grants no more than one that existed in [k0], or one to
    an object made since. *)
Definition from (k0 : kernel) (c : Capability) : Prop :=
  (exists c0, cap_in k0 c0 /\ at_most c c0) \/
  (is_ipc (TypeTag (obj_ c)) || is_lock (TypeTag (obj_ c)) = true /\ (next_ref k0 <= obj_ref (obj_ c))%positive).

(** What every kernel entry that began in [k0] maintains. *)
Record good (k0 k : kernel) : Prop := {
  gd_inv : kinv k;
  gd_held : forall c, cap_in k c -> from k0 c;
  gd_ext : ext k0 k;
}.

(** [m] returns from [k], maintains [good k0], and a value satisfies [Q]. *)
Definition runs {A} (k0 : kernel) (m : K A) (k : kernel) (Q : A -> kernel -> Prop) : Prop :=
  exists o k', m k = Ret (o, k') /\ good k0 k' /\ ext k k' /\ forall a, o = Val a -> Q a k'.

(** Every table can take [n] more capabilities. *)
Definition room (n : Z) (k : kernel) : Prop :=
  forall p t, tables k !! p = Some t -> next_cap_id_ t + n < 2 ^ 55.

Lemma ext_refl k : ext k k.
Proof. by split. Qed.

Lemma ext_trans k1 k2 k3 : ext k1 k2 -> ext k2 k3 -> ext k1 k3.
Proof. intros [] []. split; [auto|auto|by etrans]. Qed.

#[export] Instance ext_preorder : PreOrder ext.
Proof. split; [exact ext_refl|exact ext_trans]. Qed.

Lemma cap_ok_ext k k' c : ext k k' -> cap_ok k c -> cap_ok k' c.
Proof. intros [H1 H2 _] [H3 H4]. split; auto. Qed.

Lemma good_refl k : kinv k -> good k k.
Proof. intros Hk. split; [done| |done]. intros c Hc. left. exists c. done. Qed.

Section rules.
Context (k0 : kernel).

Lemma runs_bind {A B} (m : K A) (f : A -> K B) k Q R :
  runs k0 m k Q ->
  (forall a k', good k0 k' -> ext k k' -> Q a k' -> runs k0 (f a) k' R) ->
  runs k0 (m ≫= f) k R.
Proof.
  intros (o & k1 & Hm & Hg & He & HQ) Hf. unfold runs, mbind, K_bind. rewrite Hm, ret_bind.
  destruct o as [a|e|].
  - destruct (Hf a k1 Hg He (HQ a eq_refl)) as (o & k2 & Hfa & Hg2 & He2 & HR).
    exists o, k2. split_and!; [done|done|by etrans|done].
  - exists (Err e), k1. by split_and!.
  - exists Blocked, k1. by split_and!.
Qed.

Lemma runs_mono {A} (m : K A) k (Q R : A -> kernel -> Prop) :
  runs k0 m k Q -> (forall a k', Q a k' -> R a k') -> runs k0 m k R.
Proof. intros (o & k' & ? & ? & ? & H) HR. exists o, k'. split_and!; auto. Qed.

Lemma runs_ret {A} (a : A) k (Q : A -> kernel -> Prop) : good k0 k -> Q a k -> runs k0 (mret a) k Q.
Proof. intros Hg HQ. exists (Val a), k. split_and!; [done|done|done|]. by intros a' [= <-]. Qed.

Lemma runs_fail {A} e k (Q : A -> kernel -> Prop) : good k0 k -> runs k0 (fail e) k Q.
Proof. intros Hg. exists (Err e), k. by split_and!. Qed.

Lemma runs_blocked {A} k (Q : A -> kernel -> Prop) : good k0 k -> runs k0 blocked k Q.
Proof. intros Hg. exists Blocked, k. by split_and!. Qed.

Lemma runs_RET_ERR e k (Q : unit -> kernel -> Prop) : good k0 k -> (e = OK -> Q tt k) -> runs k0 (RET_ERR e) k Q.
Proof. intros Hg HQ. unfold RET_ERR. case_decide; [apply runs_ret; auto|by apply runs_fail]. Qed.

Lemma runs_lift {A} (a : A) m k (Q : A -> kernel -> Prop) :
  good k0 k -> m = Ret a -> Q a k -> runs k0 (lift m) k Q.
Proof. intros Hg -> HQ. by apply runs_ret. Qed.

Lemma get_object_runs r t k :
  good k0 k -> obj_type k r = Some t ->
  runs k0 (get_object r) k (fun x k' => k' = k /\ ipc_objects k !! r = Some x /\ ipc_type x = t).
Proof.
  intros Hg Ht. unfold obj_type in Ht. destruct (ipc_objects k !! r) as [x|] eqn:Ex; [|done]. injection Ht as Ht.
  exists (Val x), k. unfold get_object. rewrite Ex. split_and!; [done|done|done|]. by intros a [= <-].
Qed.

(** *** The scheduler *)
Lemma with_sch_good k s :
  good k0 k -> sched_inv s -> (forall r, is_Some (locks s !! r) <-> is_Some (locks (sch k) !! r)) ->
  good k0 (with_sch s k) /\ ext k (with_sch s k).
Proof.
  intros [Hk Hh [He1 He2 He3]] Hs Hl.
  assert (ext k (with_sch s k)) as Hext by (split; [done|intros r; apply Hl|done]).
  split; [|done]. split; [|exact Hh|]; [destruct Hk; split; cbn; try done|].
  - intros r x Hx. destruct (ki_objs0 r x Hx) as (H1 & H2 & H3). split_and!; [by apply Hl|done|done].
  - intros c Hc. by apply (cap_ok_ext k), ki_caps0.
  - intros r Hr. by apply ki_fresh0, Hl.
  - etrans; [|exact Hext]. by split.
Qed.

Lemma on_sched_runs f k (Q : unit -> kernel -> Prop) :
  good k0 k ->
  (exists s, f (sch k) = Ret s /\ sched_inv s /\ forall r, is_Some (locks s !! r) <-> is_Some (locks (sch k) !! r)) ->
  (forall s, f (sch k) = Ret s -> Q tt (with_sch s k)) ->
  runs k0 (on_sched f) k Q.
Proof.
  intros Hg (s & Hf & Hs & Hl) HQ. destruct (with_sch_good k s Hg Hs Hl) as [H1 H2].
  exists (Val tt), (with_sch s k). unfold on_sched. rewrite Hf, ret_bind. split_and!; [done|done|done|].
  intros [] _. by apply HQ.
Qed.
End rules.

(** *** The calling process's table *)
Definition cur (k : kernel) : positive := process_ k (current_thread_ (sch k)).

Lemma on_table_Ret {A} (f : CapabilityTable -> res (A * CapabilityTable)) k t a t' :
  tables k !! cur k = Some t -> f t = Ret (a, t') ->
  on_table f k = Ret (Val a, with_tables (<[cur k := t']> (tables k)) k).
Proof. intros Ht Hf. unfold on_table. fold (cur k). rewrite Ht. cbn [deref]. by rewrite ret_bind, Hf, ret_bind. Qed.

Lemma on_table_Get k t id :
  tables k !! cur k = Some t -> table_wf t ->
  on_table (GetCapability id) k = Ret (Val (default None (caps t !! id)), k).
Proof.
  intros Ht Hw. erewrite on_table_Ret; [|done|by apply GetCapability_spec]. rewrite insert_id by done. by destruct k.
Qed.

Lemma AddExisting_spec t c :
  table_wf t -> next_cap_id_ t < 2 ^ 55 - 1 ->
  exists t', AddExistingCapability (Some c) t = Ret (next_cap_id_ t, t') /\ table_wf t' /\
    next_cap_id_ t' = next_cap_id_ t + 1 /\ caps t' = <[next_cap_id_ t := Some c]> (caps t).
Proof.
  intros Ht Hn. destruct (add_spec t (Some c) Ht Hn) as (m & Hi & _ & _ & Hc & Hwf); [by eexists|].
  unfold AddExistingCapability. rewrite Hi, ret_bind, decide_True by done. pose proof (tbl_next _ Ht).
  eexists. split_and!; [done|done| |done]. cbn. apply u64_small. lia.
Qed.

Lemma AddNew_is_AddExisting obj perms t :
  AddNewCapability obj perms t = AddExistingCapability (Some (mkCap obj perms)) t.
Proof. done. Qed.

Lemma cur_table k : kinv k -> exists t, tables k !! cur k = Some t /\ table_wf t.
Proof. intros Hk. destruct (ki_procs _ Hk (current_thread_ (sch k))) as [t Ht]. exists t. split; [done|by eapply ki_tables]. Qed.

(** The capability the calling process knows as [id]. *)
Definition cap_at (k : kernel) (id : Z) : option Capability :=
  t ← tables k !! cur k; default None (caps t !! id).

Lemma cap_at_in k id c : cap_at k id = Some c -> cap_in k c.
Proof.
  unfold cap_at. destruct (tables k !! cur k) as [t|] eqn:Ht; [|done]. cbn. intros Hc. left. exists (cur k), t, id.
  split; [done|]. destruct (caps t !! id); cbn in Hc; by subst.
Qed.

Section table_rules.
Context (k0 : kernel).

Lemma with_tables_good k p t' :
  good k0 k -> table_wf t' ->
  (forall id c, caps t' !! id = Some (Some c) -> from k0 c /\ cap_ok k c) ->
  good k0 (with_tables (<[p := t']> (tables k)) k) /\ ext k (with_tables (<[p := t']> (tables k)) k).
Proof.
  intros [Hk Hh He] Hw Hc. set (k' := with_tables _ k).
  assert (ext k k') as Hext by by split.
  assert (forall c, cap_in k' c -> cap_in k c \/ from k0 c /\ cap_ok k c) as Hin.
  { intros c [(p' & t & id & Ht & Hid)|Hm]; [|by left; right]. cbn in Ht.
    apply lookup_insert_Some in Ht as [[<- <-]|[_ Ht]]; [right; by eapply Hc|left; left; eauto]. }
  split; [|done]. split.
  - destruct Hk. split; try done; cbn [tables with_tables k'].
    + intros p' t [[<- <-]|[_ Ht]]%lookup_insert_Some; eauto.
    + intros t. cbn. destruct (decide (p = process_ k t)) as [->|]; [rewrite lookup_insert_eq; eauto|by rewrite lookup_insert_ne].
    + intros c [H|[_ H]]%Hin; [by apply ki_caps0|done].
  - intros c [H|[H _]]%Hin; [by apply Hh|done].
  - by etrans.
Qed.

Lemma Get_runs id k (Q : option Capability -> kernel -> Prop) :
  good k0 k -> Q (cap_at k id) k -> runs k0 (on_table (GetCapability id)) k Q.
Proof.
  intros Hg HQ. destruct (cur_table k (gd_inv _ _ Hg)) as (t & Ht & Hw).
  exists (Val (default None (caps t !! id))), k. rewrite (on_table_Get k t) by done.
  split_and!; [done|done|done|]. intros c [= <-]. unfold cap_at in HQ. by rewrite Ht in HQ.
Qed.

Lemma Release_runs id k (Q : option Capability -> kernel -> Prop) :
  good k0 k ->
  (forall k', ext k k' -> Q (cap_at k id) k') ->
  runs k0 (on_table (ReleaseCapability id)) k Q.
Proof.
  intros Hg HQ. destruct (cur_table k (gd_inv _ _ Hg)) as (t & Ht & Hw).
  destruct (ReleaseCapability_spec t id Hw) as (t' & Hr & Hw' & Hc & Hn).
  destruct (with_tables_good k (cur k) t' Hg Hw') as [Hg' He'].
  { rewrite Hc. intros id' c [_ Hid]%lookup_delete_Some.
    assert (cap_in k c) by (left; eauto). split; [by apply Hg|by apply Hg]. }
  exists (Val (default None (caps t !! id))). eexists. split_and!; [by apply (on_table_Ret _ k t)|done|done|].
  intros c [= <-]. specialize (HQ _ He'). unfold cap_at in HQ. by rewrite Ht in HQ.
Qed.

Lemma Add_runs c k n (Q : Z -> kernel -> Prop) :
  good k0 k -> from k0 c -> cap_ok k c -> room (n + 1) k -> 0 <= n ->
  (forall id k', room n k' -> sch k' = sch k -> ipc_objects k' = ipc_objects k -> driver_map_ k' = driver_map_ k -> Q id k') ->
  runs k0 (on_table (AddExistingCapability (Some c))) k Q.
Proof.
  intros Hg Hf Hok Hroom Hn HQ. destruct (cur_table k (gd_inv _ _ Hg)) as (t & Ht & Hw).
  pose proof (Hroom _ _ Ht). destruct (AddExisting_spec t c Hw) as (t' & Ha & Hw' & Hn' & Hc); [lia|].
  destruct (with_tables_good k (cur k) t' Hg Hw') as [Hg' He'].
  { rewrite Hc. intros id' c' [[<- [= <-]]|[_ Hid]]%lookup_insert_Some; [done|].
    assert (cap_in k c') by (left; eauto). split; [by apply Hg|by apply Hg]. }
  exists (Val (next_cap_id_ t)). eexists. split_and!; [by apply (on_table_Ret _ k t)|done|done|].
  intros id [= <-]. apply HQ; try done. intros p t1. cbn. intros [[<- <-]|[_ Ht1]]%lookup_insert_Some; [lia|].
  specialize (Hroom _ _ Ht1). lia.
Qed.
End table_rules.

(** *** Objects and their queues *)
Section object_rules.
Context (k0 : kernel).

(** Replacing an object by one of the same type. *)
Lemma put_good k r x x' :
  good k0 k -> ipc_objects k !! r = Some x -> ipc_type x' = ipc_type x -> kind_ok x' ->
  (ipc_type x' = CHANNEL -> exists p, peer_ x' = Some p /\ obj_type k p = Some CHANNEL) ->
  (forall m c, m ∈ queue_msgs (message_queue_ x') -> msg_holds m c -> from k0 c /\ cap_ok k c) ->
  (forall m, m ∈ queue_msgs (message_queue_ x') -> Forall is_Some (msg_caps m)) ->
  good k0 (with_objects (<[r := x']> (ipc_objects k)) k) /\ ext k (with_objects (<[r := x']> (ipc_objects k)) k).
Proof.
  intros [Hk Hh He] Hx Ht Hkind Hpeer Hm Hsome. set (k' := with_objects _ k).
  assert (forall r', obj_type k' r' = obj_type k r') as Hty.
  { intros r'. unfold obj_type. cbn. destruct (decide (r = r')) as [<-|].
    - rewrite lookup_insert_eq, Hx. cbn. by rewrite Ht.
    - by rewrite lookup_insert_ne. }
  assert (ext k k') as Hext by (split; [intros r' t; by rewrite Hty|done|done]).
  assert (forall c, cap_in k' c -> from k0 c /\ cap_ok k c) as Hin.
  { intros c [Htb|(r' & y & m & Hy & Hmy & Hc)].
    { assert (cap_in k c) by (by left). split; [by apply Hh|by apply Hk]. }
    cbn in Hy. apply lookup_insert_Some in Hy as [[<- <-]|[_ Hy]]; [by eapply Hm|].
    assert (cap_in k c) by (right; eauto 6). split; [by apply Hh|by apply Hk]. }
  split; [|done]. split.
  - destruct Hk. split; try done.
    + intros r' y Hy. unfold obj_wf. setoid_rewrite Hty. cbn in Hy |- *.
      apply lookup_insert_Some in Hy as [[<- <-]|[_ Hy]]; [|by apply ki_objs0].
      split_and!; [by apply (ki_objs0 _ _ Hx)|done|done].
    + intros c [_ [H1 H2]]%Hin. split; [by rewrite Hty|done].
    + intros r' y m Hy. cbn in Hy. apply lookup_insert_Some in Hy as [[<- <-]|[_ Hy]]; eauto.
    + intros irq v Hv. setoid_rewrite Hty. by eapply ki_drivers0.
  - intros c Hc. by apply Hin.
  - by etrans.
Qed.

Definition same_kind (q q' : MessageQueue) : Prop :=
  match q, q' with
  | UnboundedMessageQueue _, UnboundedMessageQueue _ | SingleMessageQueue _ _ _, SingleMessageQueue _ _ _ => True
  | _, _ => False
  end.

Lemma set_queue_runs r x q k (Q : unit -> kernel -> Prop) :
  good k0 k -> ipc_objects k !! r = Some x -> same_kind (message_queue_ x) q ->
  (forall m c, m ∈ queue_msgs q -> msg_holds m c -> from k0 c /\ cap_ok k c) ->
  (forall m, m ∈ queue_msgs q -> Forall is_Some (msg_caps m)) ->
  Q tt (with_objects (<[r := mkIpc (ipc_type x) (peer_ x) q]> (ipc_objects k)) k) ->
  runs k0 (set_queue r q) k Q.
Proof.
  intros Hg Hx Hsk Hm Hsome HQ. destruct (ki_objs _ (gd_inv _ _ Hg) r x Hx) as (_ & Hkind & Hpeer).
  destruct (put_good k r x (mkIpc (ipc_type x) (peer_ x) q)) as [H1 H2]; try done.
  { unfold kind_ok in *. cbn. by destruct q, (message_queue_ x). }
  exists (Val tt). eexists. unfold set_queue. rewrite Hx. cbn [deref]. rewrite ret_bind.
  split_and!; [done|done|done|]. by intros [] _.
Qed.

(** The messages already queued are accounted for. *)
Lemma queued_from k r x m c :
  good k0 k -> ipc_objects k !! r = Some x -> m ∈ queue_msgs (message_queue_ x) -> msg_holds m c ->
  from k0 c /\ cap_ok k c.
Proof.
  intros Hg Hx Hm Hc. assert (cap_in k c) by (right; exists r, x, m; done). split; by apply Hg.
Qed.

Lemma wake_runs r k (Q : unit -> kernel -> Prop) :
  good k0 k -> is_Some (locks (sch k) !! r) -> (forall s, Q tt (with_sch s k)) -> runs k0 (on_sched (wake_first r)) k Q.
Proof.
  intros Hg [m Hm] HQ. apply on_sched_runs; [done| |auto].
  destruct (wake_first_spec (sch k) r m) as (s & Hw & Hs); [apply Hg|done|]. exists s. split_and!; [done|done|].
  by eapply wake_first_locks.
Qed.

Lemma block_runs {A} r k (Q : A -> kernel -> Prop) :
  good k0 k -> is_Some (locks (sch k) !! r) -> current_thread_ (sch k) <> sleep_thread_ (sch k) ->
  runs k0 (on_sched (block_on r);; blocked) k Q.
Proof.
  intros Hg [m Hm] Hne. eapply runs_bind.
  - apply on_sched_runs with (Q := fun _ _ => True); [done| |auto].
    destruct (block_on_spec (sch k) r m) as (s & Hw & Hs); [apply Hg|done|done|]. exists s. split_and!; [done|done|].
    by eapply block_on_locks.
  - intros [] k' Hg' _ _. by apply runs_blocked.
Qed.

(** A message all of whose capabilities are accounted for. *)
Definition msg_ok (k : kernel) (m : IpcMessage) : Prop :=
  Forall is_Some (msg_caps m) /\ forall c, msg_holds m c -> from k0 c /\ cap_ok k c.

Lemma msg_ok_ext k k' m : ext k k' -> msg_ok k m -> msg_ok k' m.
Proof. intros He [Hs Hm]. split; [done|]. intros c Hc. destruct (Hm c Hc). split; [done|by eapply cap_ok_ext]. Qed.

Lemma PushBack_runs r t m k :
  good k0 k -> obj_type k r = Some t -> msg_ok k m -> runs k0 (PushBack r m) k (fun _ _ => True).
Proof.
  intros Hg Ht Hm. eapply runs_bind; [by apply get_object_runs|]. intros x k1 Hg1 _ (-> & Hx & _).
  assert (is_Some (locks (sch k) !! r)) as Hl by (by apply (ki_objs _ (gd_inv _ _ Hg) r x)).
  destruct (message_queue_ x) as [pending|w rd m0] eqn:Eq;
    unfold UnboundedMessageQueue_PushBack, SingleMessageQueue_PushBack.
  - eapply runs_bind with (Q := fun _ k' => is_Some (locks (sch k') !! r)).
    + eapply set_queue_runs; [done|done|by rewrite Eq| | |done].
      * intros m' c [Hin| ->%list_elem_of_singleton]%elem_of_app Hc; [|by apply Hm].
        eapply queued_from; [done|done| |done]. by rewrite Eq.
      * intros m' [Hin| ->%list_elem_of_singleton]%elem_of_app; [|by apply Hm].
        eapply (ki_msgs _ (gd_inv _ _ Hg)); [done|by rewrite Eq].
    + intros [] k' Hg' _ Hl'. by apply wake_runs.
  - case_if_goal; [by apply runs_fail|]. destruct w; [by apply runs_fail|].
    eapply runs_bind with (Q := fun _ k' => is_Some (locks (sch k') !! r)).
    + eapply set_queue_runs; [done|done|by rewrite Eq| | |done].
      * intros m' c ->%list_elem_of_singleton Hc. by apply Hm.
      * intros m' ->%list_elem_of_singleton. by apply Hm.
    + intros [] k' Hg' _ Hl'. by apply wake_runs.
Qed.

Lemma take_runs r x q m k n :
  good k0 k -> ipc_objects k !! r = Some x -> same_kind (message_queue_ x) q -> m ∈ queue_msgs (message_queue_ x) ->
  (forall m', m' ∈ queue_msgs q -> m' = empty_msg \/ m' ∈ queue_msgs (message_queue_ x)) -> room n k ->
  runs k0 (set_queue r q;; mret m) k (fun m' k' => m' = m /\ msg_ok k' m /\ room n k').
Proof.
  intros Hg Hx Hq Hm Hsub Hroom. eapply runs_bind with (Q := fun _ k' => msg_ok k m /\ room n k').
  - pose proof (ki_msgs _ (gd_inv _ _ Hg) r x) as Hms. eapply set_queue_runs; [done|done|done| | |].
    + intros m' c [-> |Hin]%Hsub Hc; [|by apply (queued_from k r x m')]. destruct Hc as [?%elem_of_nil|?]; done.
    + intros m' [-> |Hin]%Hsub; [constructor|by apply Hms].
    + split; [|done]. split; [by apply Hms|]. intros c Hc. by eapply queued_from.
  - intros [] k' Hg' He' [Hok Hr]. apply runs_ret; [done|]. split_and!; [done|by eapply msg_ok_ext|done].
Qed.

Lemma PopFront_runs r t db cb k n :
  good k0 k -> obj_type k r = Some t -> current_thread_ (sch k) <> sleep_thread_ (sch k) -> room n k ->
  runs k0 (PopFront r db cb) k (fun m k' =>
    msg_ok k' m /\ room n k' /\ Z.of_nat (length (msg_caps m)) <= cb).
Proof.
  intros Hg Ht Hne Hroom. eapply runs_bind; [by apply get_object_runs|]. intros x k1 Hg1 _ (-> & Hx & _).
  assert (is_Some (locks (sch k) !! r)) as Hl by (by apply (ki_objs _ (gd_inv _ _ Hg) r x)).
  destruct (message_queue_ x) as [[|m rest]|[] rd m] eqn:Eq;
    unfold UnboundedMessageQueue_PopFront, SingleMessageQueue_PopFront; cbn [negb]; try by apply block_runs.
  - case_if_goal; [by apply runs_fail|]. case_if_goal; [by apply runs_fail|].
    eapply runs_mono; [eapply take_runs|]; [done|done|by rewrite Eq|rewrite Eq; by left| |done|].
    + intros m' Hin. rewrite Eq. right. by right.
    + intros m' k' (-> & H1 & H2). split_and!; [done|done|]. lia.
  - destruct rd; [by apply runs_fail|]. case_if_goal; [by apply runs_fail|]. case_if_goal; [by apply runs_fail|].
    eapply runs_mono; [eapply take_runs|]; [done|done|by rewrite Eq|rewrite Eq; by left| |done|].
    + intros m' ->%list_elem_of_singleton. by left.
    + intros m' k' (-> & H1 & H2). split_and!; [done|done|]. lia.
Qed.

Lemma Send_runs r t m k :
  good k0 k -> obj_type k r = Some t -> msg_ok k m -> runs k0 (Send r m) k (fun _ _ => True).
Proof.
  intros Hg Ht Hm. unfold Send, GetSendMessageQueue.
  eapply runs_bind with (Q := fun q k' => k' = k /\ is_Some (obj_type k q)).
  - eapply runs_bind; [by apply get_object_runs|]. intros x k1 Hg1 _ (-> & Hx & Htx). case_decide as Hc.
    + destruct (ki_objs _ (gd_inv _ _ Hg) r x Hx) as (_ & _ & Hp). destruct (Hp Hc) as (p & Hpp & Hpt).
      apply runs_lift with p; [done|by rewrite Hpp|eauto].
    + apply runs_ret; eauto.
  - intros q k' Hg' _ [-> [t' Ht']]. by eapply PushBack_runs.
Qed.

(** A new object, with its wait queue. *)
Lemma new_lock_runs k n (Q : positive -> kernel -> Prop) :
  good k0 k -> room n k ->
  (forall k', room n k' -> ipc_objects k' = ipc_objects k -> is_Some (locks (sch k') !! next_ref k) ->
     ipc_objects k !! next_ref k = None -> (next_ref k0 <= next_ref k)%positive ->
     current_thread_ (sch k') = current_thread_ (sch k) -> driver_map_ k' = driver_map_ k -> Q (next_ref k) k') ->
  runs k0 new_lock k Q.
Proof.
  intros [Hk Hh He] Hroom HQ.
  assert (locks (sch k) !! next_ref k = None) as Hnone.
  { apply eq_None_not_Some. intros H%(ki_fresh _ Hk). lia. }
  assert (ipc_objects k !! next_ref k = None) as Hobj.
  { destruct (ipc_objects k !! next_ref k) as [x|] eqn:E; [|done]. destruct (ki_objs _ Hk _ _ E) as ([? H] & _). congruence. }
  set (k' := mkKernel (with_lock (next_ref k) (mkLock 0 []) (sch k)) (process_ k) (tables k) (ipc_objects k)
               (driver_map_ k) (Pos.succ (next_ref k))).
  assert (ext k k') as Hext.
  { split; [done| |cbn; lia]. intros r Hr. cbn. destruct (decide (next_ref k = r)) as [<-|];
      [rewrite lookup_insert_eq; eauto|by rewrite lookup_insert_ne]. }
  exists (Val (next_ref k)), k'. split_and!; [done| |done|].
  - split; [|exact Hh|by etrans]. destruct Hk. split; try done.
    + by apply new_lock_inv.
    + intros r x Hx. destruct (ki_objs0 r x Hx) as (H1 & H2 & H3). split_and!; [by apply Hext|done|done].
    + intros c Hc. by apply (cap_ok_ext k), ki_caps0.
    + cbn. intros r Hr. destruct (decide (next_ref k = r)) as [<-|Hne]; [lia|]. rewrite lookup_insert_ne in Hr by done.
      apply ki_fresh0 in Hr. lia.
  - intros r [= <-]. apply HQ; try done; [|apply He]. cbn. rewrite lookup_insert_eq. eauto.
Qed.

(** New objects are not reachable yet, so nothing refers to them. *)
Lemma put_news_good k (news : gmap positive IpcObject) :
  good k0 k -> news ##ₘ ipc_objects k ->
  (forall r x, news !! r = Some x -> is_Some (locks (sch k) !! r) /\ kind_ok x /\
     (forall m, m ∈ queue_msgs (message_queue_ x) -> m = empty_msg) /\
     (ipc_type x = CHANNEL -> exists p y, peer_ x = Some p /\ news !! p = Some y /\ ipc_type y = CHANNEL)) ->
  good k0 (with_objects (news ∪ ipc_objects k) k) /\ ext k (with_objects (news ∪ ipc_objects k) k).
Proof.
  intros [Hk Hh He] Hdisj Hnews. set (k' := with_objects _ k) in *.
  assert (ext k k') as Hext.
  { split; [|done|done]. intros r t. unfold obj_type. cbn. destruct (ipc_objects k !! r) as [x|] eqn:E; [|done].
    by rewrite (lookup_union_Some_r _ _ _ _ Hdisj E). }
  assert (forall r x, ipc_objects k' !! r = Some x -> news !! r = Some x \/ ipc_objects k !! r = Some x) as Hcase.
  { intros r x Hx. cbn in Hx. by apply lookup_union_Some in Hx. }
  assert (forall c, cap_in k' c -> cap_in k c) as Hin.
  { intros c [Htb|(r' & y & m & [Hy|Hy]%Hcase & Hmy & Hc)]; [by left| |right; eauto 6].
    destruct (Hnews _ _ Hy) as (_ & _ & Hm & _). apply Hm in Hmy as ->. destruct Hc as [?%elem_of_nil|?]; done. }
  split; [|done]. split; [|intros c Hc; by apply Hh, Hin|by etrans]. destruct Hk. split; try done.
  - intros r x [Hx|Hx]%Hcase.
    + destruct (Hnews _ _ Hx) as (H1 & H2 & _ & H3). split_and!; [done|done|]. intros Hc.
      destruct (H3 Hc) as (p & y & ? & Hy & Ht). exists p. split; [done|]. unfold obj_type. cbn.
      rewrite (lookup_union_Some_l _ _ _ _ Hy). cbn. by rewrite Ht.
    + destruct (ki_objs0 r x Hx) as (H1 & H2 & H3). split_and!; [done|done|].
      intros H. destruct (H3 H) as (p & ? & ?). exists p. split; [done|by apply Hext].
  - intros c Hc. by apply (cap_ok_ext k), ki_caps0, Hin.
  - intros r x m [Hx|Hx]%Hcase; [|by eapply ki_msgs0]. destruct (Hnews _ _ Hx) as (_ & _ & Hm & _).
    intros ->%Hm. constructor.
  - intros irq v Hv. destruct (ki_drivers0 irq v Hv) as (r' & ? & ?). exists r'. split; [done|by apply Hext].
Qed.

Lemma new_object_runs t q k n :
  good k0 k -> room n k -> kind_ok (mkIpc t None q) -> t <> CHANNEL ->
  (forall m, m ∈ queue_msgs q -> m = empty_msg) ->
  runs k0 (new_object t q) k (fun r k' => obj_type k' r = Some t /\ (next_ref k0 <= r)%positive /\ room n k' /\
    driver_map_ k' = driver_map_ k).
Proof.
  intros Hg Hroom Hkind Ht Hm. unfold new_object. eapply runs_bind with (Q := fun r k' =>
    room n k' /\ ipc_objects k' !! r = None /\ is_Some (locks (sch k') !! r) /\ (next_ref k0 <= r)%positive /\
    driver_map_ k' = driver_map_ k).
  { apply new_lock_runs with n; [done|done|]. intros k' ? Ho ? ? ? _ ?. rewrite Ho. done. }
  intros r k1 Hg1 _ (Hr & Ho & Hl & Hn & Hd). eapply runs_bind with (Q := fun _ k' => obj_type k' r = Some t /\ room n k' /\ driver_map_ k' = driver_map_ k).
  - destruct (put_news_good k1 {[r := mkIpc t None q]}) as [H1 H2]; [done|by apply map_disjoint_singleton_l| |].
    { intros r' x [<- <-]%lookup_singleton_Some. by split_and!. }
    exists (Val tt). eexists. unfold put_object. rewrite insert_union_singleton_l. split_and!; [done|done|done|].
    intros [] _. split; [|done]. unfold obj_type. cbn. by rewrite (lookup_union_Some_l _ _ _ (mkIpc t None q)) by apply lookup_singleton_eq.
  - intros [] k2 Hg2 _ (H1 & H2 & H3). by apply runs_ret.
Qed.
End object_rules.

(** ** Kernel entries *)
Inductive entry : Type :=
| ZChannelCreate | ZChannelSend (chan_cap : Z) (req : SendReq) | ZChannelRecv (chan_cap : Z) (req : RecvReq)
| ZPortCreate | ZPortSend (port_cap : Z) (req : SendReq) | ZPortRecv (port_cap : Z) (req : RecvReq)
| ZPortPoll (port_cap : Z) (req : RecvReq) | ZIrqRegister (irq_num : Z)
| ZEndpointCreate | ZEndpointSend (endpoint_cap : Z) (req : SendReq) | ZEndpointRecv (endpoint_cap : Z) (req : RecvReq)
| ZReplyPortSend (reply_port_cap : Z) (req : SendReq) | ZReplyPortRecv (reply_port_cap : Z) (req : RecvReq)
| ZCapDuplicate (cap_in perm_mask : Z) | ZCapRelease (cap : Z)
| ZMutexCreate | ZMutexLock (mutex_cap : Z) | ZMutexRelease (mutex_cap : Z)
| ZSemaphoreCreate | ZSemaphoreWait (semaphore_cap : Z) | ZSemaphoreSignal (semaphore_cap : Z)
| ZThreadSleep (millis : Z)
(* a blocked receive or lock whose thread runs again *)
| ZResumeRecv (o : positive) (req : RecvReq) | ZResumeRecvReply (o : positive) (req : RecvReq)
| ZResumeLock (o : positive) | ZResumeWait (o : positive)
(* interrupts *)
| Timer | Irq (irq_num : Z) (data : list Z).

Definition discard {A} (m : K A) : K unit := m;; mret tt.

(** The cases of [SyscallHandler] for these calls, and the interrupt handlers. *)
Definition SyscallHandler (e : entry) : K unit :=
  match e with
  | ZChannelCreate => discard ChannelCreate
  | ZChannelSend c req => ChannelSend c req
  | ZChannelRecv c req => discard (ChannelRecv c req)
  | ZPortCreate => discard PortCreate
  | ZPortSend c req => PortSend c req
  | ZPortRecv c req => discard (PortRecv c req)
  | ZPortPoll c req => discard (PortPoll c req)
  | ZIrqRegister irq => discard (IrqRegister irq)
  | ZEndpointCreate => discard EndpointCreate
  | ZEndpointSend c req => discard (EndpointSend c req)
  | ZEndpointRecv c req => discard (EndpointRecv c req)
  | ZReplyPortSend c req => ReplyPortSend c req
  | ZReplyPortRecv c req => discard (ReplyPortRecv c req)
  | ZCapDuplicate c mask => discard (on_table (CapDuplicate c mask))
  | ZCapRelease c => discard (on_table (CapRelease c))
  | ZMutexCreate => discard MutexCreate
  | ZMutexLock c => MutexLock c
  | ZMutexRelease c => MutexRelease c
  | ZSemaphoreCreate => discard SemaphoreCreate
  | ZSemaphoreWait c => SemaphoreWait c
  | ZSemaphoreSignal c => SemaphoreSignal c
  | ZThreadSleep ms => on_sched (Sleep ms)
  | ZResumeRecv o req => discard (recv_and_translate o req)
  | ZResumeRecvReply o req => discard (recv_with_reply o req)
  | ZResumeLock o => lock_turn (Mutex_Lock o)
  | ZResumeWait o => lock_turn (Semaphore_Wait o)
  | Timer => on_sched Preempt
  | Irq irq data => WriteMessage irq (mkMsg data [] None)
  end.

(** The user's buffers are readable, and the idle thread makes no calls. *)
Definition send_ok (req : SendReq) : Prop :=
  num_bytes req <= Z.of_nat (length (req_data req)) /\ num_caps req <= Z.of_nat (length (req_caps req)).
Definition recv_ok (req : RecvReq) (k : kernel) : Prop := 0 <= max_caps req /\ room (max_caps req + 2) k.

Definition entry_ok (e : entry) (k : kernel) : Prop :=
  match e with
  | Timer | Irq _ _ => True
  | _ => current_thread_ (sch k) <> sleep_thread_ (sch k)
  end /\
  match e with
  | ZChannelSend _ req | ZPortSend _ req | ZReplyPortSend _ req => send_ok req
  | ZEndpointSend _ req => send_ok req /\ room 1 k
  | ZChannelRecv _ req | ZPortRecv _ req | ZPortPoll _ req | ZEndpointRecv _ req | ZReplyPortRecv _ req => recv_ok req k
  | ZResumeRecv o req | ZResumeRecvReply o req => recv_ok req k /\ is_Some (obj_type k o)
  | ZResumeLock o | ZResumeWait o => is_Some (locks (sch k) !! o)
  | ZIrqRegister _ => room 1 k /\ hm_size (driver_map_ k) < 2 ^ 56 - 1
  | ZChannelCreate => room 2 k
  | ZPortCreate | ZEndpointCreate | ZMutexCreate | ZSemaphoreCreate | ZCapDuplicate _ _ => room 1 k
  | _ => True
  end.

Section calls.
Context (k0 : kernel).

Lemma read_user_runs l n k (Q : list Z -> kernel -> Prop) :
  good k0 k -> n <= Z.of_nat (length l) -> (forall l', Q l' k) -> runs k0 (read_user l n) k Q.
Proof. intros Hg Hn HQ. unfold read_user. rewrite (proj2 (Z.ltb_ge _ _)) by done. apply runs_ret; auto. Qed.

Lemma transmit_caps_runs ids k :
  good k0 k -> runs k0 (transmit_caps ids) k (fun cs k' =>
    Forall is_Some cs /\ forall c, Some c ∈ cs -> from k0 c /\ cap_ok k' c).
Proof.
  revert k. induction ids as [|id ids IH]; intros k Hg; cbn [transmit_caps].
  { apply runs_ret; [done|]. split; [constructor|]. by intros c ?%elem_of_nil. }
  eapply runs_bind with (Q := fun c k' => k' = k /\ c = cap_at k id); [by apply Get_runs|].
  intros o k1 _ _ [-> Ho]. destruct o as [c|]; [|by apply runs_fail]. case_if_goal; [by apply runs_fail|].
  assert (cap_in k c) as Hin by (by eapply cap_at_in).
  eapply runs_bind with (Q := fun c' k' => c' = Some c /\ cap_ok k' c).
  { apply Release_runs; [done|]. intros k' He. split; [done|]. apply (cap_ok_ext k); [done|by apply Hg]. }
  intros rel k2 Hg2 _ [-> Hok]. eapply runs_bind; [by apply IH|]. intros rest k3 Hg3 He3 [Hs Hrest]. apply runs_ret; [done|].
  split; [by constructor|]. intros c' [[= ->]|Hin']%elem_of_cons; [|by apply Hrest].
  split; [by apply Hg|by eapply cap_ok_ext].
Qed.

Lemma Translate_runs req k :
  good k0 k -> send_ok req ->
  runs k0 (TranslateRequestToIpcMessage req) k (fun m k' => msg_ok k0 k' m).
Proof.
  intros Hg [Hb Hc]. unfold TranslateRequestToIpcMessage. case_if_goal; [by apply runs_fail|].
  eapply runs_bind with (Q := fun _ k' => k' = k); [by apply read_user_runs|]. intros d k1 _ _ ->.
  eapply runs_bind with (Q := fun _ k' => k' = k); [by apply read_user_runs|]. intros ids k1 _ _ ->.
  eapply runs_bind; [by apply transmit_caps_runs|]. intros cs k1 Hg1 _ [Hs Hcs]. apply runs_ret; [done|].
  split; [done|]. intros c [Hin|Hr]; [by apply Hcs|done].
Qed.

Lemma receive_caps_runs cs k n :
  good k0 k -> (forall c, c ∈ cs -> exists c', c = Some c' /\ from k0 c' /\ cap_ok k c') ->
  room (Z.of_nat (length cs) + n) k -> 0 <= n ->
  runs k0 (receive_caps cs) k (fun _ k' => room n k').
Proof.
  revert k. induction cs as [|c cs IH]; intros k Hg Hcs Hroom Hn; cbn [receive_caps length] in *.
  { apply runs_ret; [done|]. exact Hroom. }
  destruct (Hcs c) as (c' & -> & Hf & Hok); [by left|].
  eapply runs_bind with (Q := fun _ k' => room (Z.of_nat (length cs) + n) k').
  { eapply Add_runs with (n := Z.of_nat (length cs) + n); try done; [|lia].
    by replace (Z.of_nat (length cs) + n + 1) with (Z.of_nat (S (length cs)) + n) by lia. }
  intros id k1 Hg1 He1 Hroom1. eapply runs_bind; [apply IH; try done|].
  - intros c Hc. destruct (Hcs c) as (c'' & -> & H1 & H2); [by right|]. exists c''. split_and!; [done|done|by eapply cap_ok_ext].
  - intros ids k2 Hg2 _ H2. by apply runs_ret.
Qed.

(** Received capabilities get consecutive fresh ids. *)
Lemma receive_caps_eq cs k t :
  tables k !! cur k = Some t -> table_wf t -> Forall is_Some cs -> next_cap_id_ t + Z.of_nat (length cs) < 2 ^ 55 ->
  exists t', receive_caps cs k = Ret (Val (seqZ (next_cap_id_ t) (Z.of_nat (length cs))), with_tables (<[cur k := t']> (tables k)) k) /\
    table_wf t' /\ next_cap_id_ t' = next_cap_id_ t + Z.of_nat (length cs) /\
    (forall id, id < next_cap_id_ t -> caps t' !! id = caps t !! id) /\
    (forall i c, cs !! i = Some c -> caps t' !! (next_cap_id_ t + Z.of_nat i) = Some c).
Proof.
  revert k t. induction cs as [|c cs IH]; intros k t Ht Hw Hs Hn; cbn [receive_caps length] in *.
  { exists t. split; [rewrite insert_id by done; by destruct k|]. split_and!; [done|lia|done|done]. }
  apply Forall_cons in Hs as [[c' ->] Hs].
  destruct (AddExisting_spec t c' Hw) as (t1 & Ha & Hw1 & Hn1 & Hc1); [lia|].
  unfold mbind at 1, K_bind at 1. rewrite (on_table_Ret _ k t (next_cap_id_ t) t1) by done. rewrite ret_bind.
  set (k1 := with_tables _ k). assert (cur k1 = cur k) as Hcur by done.
  destruct (IH k1 t1) as (t2 & Hr & Hw2 & Hn2 & Hold & Hnew); [rewrite Hcur; cbn; by rewrite lookup_insert_eq|done|done|lia|].
  unfold mbind at 1, K_bind at 1. rewrite Hr, ret_bind. exists t2. split_and!.
  - unfold mret, K_ret. rewrite Hcur. subst k1. cbn [tables with_tables]. rewrite insert_insert_eq.
    rewrite (seqZ_cons (next_cap_id_ t)) by lia. rewrite Hn1.
    replace (Z.pred (Z.of_nat (S (length cs)))) with (Z.of_nat (length cs)) by lia.
    by replace (Z.succ (next_cap_id_ t)) with (next_cap_id_ t + 1) by lia.
  - done.
  - lia.
  - intros id Hid. rewrite Hold by lia. rewrite Hc1, lookup_insert_ne by lia. done.
  - intros [|i] c Hi; cbn in Hi.
    + injection Hi as <-. rewrite Hold by lia. by rewrite Z.add_0_r, Hc1, lookup_insert_eq.
    + specialize (Hnew i c Hi). rewrite <- Hnew. f_equal. lia.
Qed.

Lemma TranslateResp_runs m req k n :
  good k0 k -> msg_ok k0 k m -> room (max_caps req + n) k -> 0 <= n ->
  exists o k', TranslateIpcMessageToResponse m req k = Ret (o, k') /\ good k0 k' /\ ext k k' /\ (0 <= max_caps req -> room n k').
Proof.
  intros Hg [Hs Hm] Hroom Hn. unfold TranslateIpcMessageToResponse.
  assert (0 <= max_caps req -> room n k) as Hr by (intros ? p t Ht; specialize (Hroom p t Ht); lia).
  case_if_goal; [exists (Err BUFFER_SIZE), k; by split_and!|].
  case_if_goal; [exists (Err BUFFER_SIZE), k; by split_and!|].
  assert (room (Z.of_nat (length (msg_caps m)) + n) k) as Hroom'.
  { intros p t Ht. specialize (Hroom p t Ht). lia. }
  destruct (receive_caps_runs (msg_caps m) k n Hg) as (o & k' & Heq & Hg' & He' & Hq); [|done|done|].
  { intros c Hc. destruct (proj1 (Forall_forall _ _) Hs c Hc) as [c' ->]. exists c'. split; [done|]. apply Hm. by left. }
  destruct (cur_table k (gd_inv _ _ Hg)) as (t & Ht & Hw). pose proof (Hroom' _ _ Ht).
  destruct (receive_caps_eq (msg_caps m) k t) as (t' & Heq' & _); [done|done|done|lia|].
  rewrite Heq in Heq'. injection Heq' as -> ->. unfold mbind, K_bind. rewrite Heq, ret_bind.
  eexists _, _. split_and!; [done|done|done|]. intros _. by eapply Hq.
Qed.

Lemma validated_runs t id perms k :
  good k0 k ->
  runs k0 (validated t id perms) k (fun r k' => k' = k /\
    (is_ipc t = true -> obj_type k r = Some t) /\ (is_lock t = true -> is_Some (locks (sch k) !! r))).
Proof.
  intros Hg. unfold validated. eapply runs_bind with (Q := fun c k' => k' = k /\ c = cap_at k id); [by apply Get_runs|].
  intros o k1 _ _ [-> Ho].
  eapply runs_bind with (Q := fun _ k' => k' = k /\ ValidateCapability t o perms = OK); [by apply runs_RET_ERR|].
  intros [] k1 _ _ [-> Hv]. destruct o as [c|]; [|done].
  eapply runs_bind with (Q := fun c' k' => k' = k /\ c' = c); [by apply runs_lift with c|]. intros c' k1 _ _ [-> ->].
  cbn [ValidateCapability] in Hv. case_if_hyp Hv; [done|]. apply negb_false_iff, bool_decide_eq_true in E.
  apply runs_lift with (obj_ref (obj_ c)); [done| |].
  - unfold Capability_obj. by rewrite bool_decide_eq_true_2.
  - split; [done|]. rewrite <- E. apply Hg. by eapply cap_at_in.
Qed.

(** A call that sends to a validated object. *)
Lemma send_call_runs t id perms req k :
  good k0 k -> is_ipc t = true -> send_ok req ->
  runs k0 (o ← validated t id perms; message ← TranslateRequestToIpcMessage req; Send o message) k (fun _ _ => True).
Proof.
  intros Hg Ht Hs. eapply runs_bind; [by apply validated_runs|]. intros r k1 _ _ (-> & Hr & _). specialize (Hr Ht).
  eapply runs_bind; [by apply Translate_runs|]. intros m k1 Hg1 He1 Hm. eapply Send_runs; [done| |done]. by apply He1.
Qed.

Lemma recv_runs r t req k :
  good k0 k -> obj_type k r = Some t -> recv_ok req k -> current_thread_ (sch k) <> sleep_thread_ (sch k) ->
  runs k0 (recv_and_translate r req) k (fun _ _ => True).
Proof.
  intros Hg Hr [Hc Hroom] Hne. eapply runs_bind; [by eapply PopFront_runs|]. intros m k1 Hg1 _ (Hm & Hr1 & _).
  destruct (TranslateResp_runs m req k1 2 Hg1 Hm Hr1) as (o & k' & H1 & H2 & H3 & _); [lia|]. exists o, k'. by split_and!.
Qed.

Lemma recv_with_reply_runs r t req k :
  good k0 k -> obj_type k r = Some t -> recv_ok req k -> current_thread_ (sch k) <> sleep_thread_ (sch k) ->
  runs k0 (recv_with_reply r req) k (fun _ _ => True).
Proof.
  intros Hg Hr [Hc Hroom] Hne. eapply runs_bind; [by eapply PopFront_runs|]. intros m k1 Hg1 _ (Hm & Hr1 & _).
  destruct (TranslateResp_runs m req k1 2 Hg1 Hm Hr1) as (o & k2 & H1 & H2 & H3 & H4); [lia|].
  specialize (H4 Hc). unfold runs, TranslateIpcMessageToResponseWithReplyPort. rewrite H1, ret_bind.
  destruct (reply_cap m) as [c|] eqn:Ec; [|exists (Err INTERNAL), k2; by split_and!].
  destruct (proj2 Hm c) as [Hf Hok]; [by right|].
  destruct (Add_runs k0 c k2 1 (fun _ _ => True) H2 Hf) as (o' & k3 & Ha & Hg3 & He3 & _); [by eapply cap_ok_ext|done|lia|done|].
  unfold mbind, K_bind. rewrite Ha, ret_bind. destruct o'; (eexists _, k3; split_and!; [done|done|by etrans|done]).
Qed.

Lemma recv_call_runs t id perms req k :
  good k0 k -> is_ipc t = true -> recv_ok req k -> current_thread_ (sch k) <> sleep_thread_ (sch k) ->
  runs k0 (o ← validated t id perms; recv_and_translate o req) k (fun _ _ => True).
Proof.
  intros Hg Ht Hr Hne. eapply runs_bind; [by apply validated_runs|]. intros r k1 _ _ (-> & Hty & _).
  eapply recv_runs; [done|by apply Hty|done|done].
Qed.

Lemma AddNew_runs t perms r k n (Q : Z -> kernel -> Prop) :
  good k0 k -> room (n + 1) k -> 0 <= n -> (next_ref k0 <= r)%positive -> is_ipc t || is_lock t = true ->
  (is_ipc t = true -> obj_type k r = Some t) -> (is_lock t = true -> is_Some (locks (sch k) !! r)) ->
  (forall id k', room n k' -> sch k' = sch k -> ipc_objects k' = ipc_objects k -> driver_map_ k' = driver_map_ k -> Q id k') ->
  runs k0 (AddNew t perms r) k Q.
Proof. intros Hg Hroom Hn Hr Hk H1 H2 HQ. apply Add_runs with n; try done. by right. Qed.

Lemma discard_runs {A} (m : K A) k (Q : A -> kernel -> Prop) : runs k0 m k Q -> runs k0 (discard m) k (fun _ _ => True).
Proof. intros Hm. eapply runs_bind; [exact Hm|]. intros a k' Hg _ _. by apply runs_ret. Qed.

(** A call that makes an object and hands out a capability to it. *)
Lemma create_runs t q perms k :
  good k0 k -> room 1 k -> kind_ok (mkIpc t None q) -> is_ipc t = true -> t <> CHANNEL ->
  (forall m, m ∈ queue_msgs q -> m = empty_msg) ->
  runs k0 (r ← new_object t q; AddNew t perms r) k (fun _ _ => True).
Proof.
  intros Hg Hroom Hk Ht Hne Hq. eapply runs_bind; [by apply new_object_runs with (n := 1)|].
  intros r k1 Hg1 _ (Hty & Hr & Hroom1 & _). apply AddNew_runs with 0; try done; [by rewrite Ht|]. by destruct t.
Qed.

Lemma create_lock_runs t perms k :
  good k0 k -> room 1 k -> is_lock t = true -> runs k0 (r ← new_lock; AddNew t perms r) k (fun _ _ => True).
Proof.
  intros Hg Hroom Ht. eapply runs_bind with (Q := fun r k' => room 1 k' /\ is_Some (locks (sch k') !! r) /\ (next_ref k0 <= r)%positive).
  { by apply new_lock_runs with (n := 1). }
  intros r k1 Hg1 _ (Hroom1 & Hl & Hr). apply AddNew_runs with 0; try done; [|by destruct t]. by destruct t.
Qed.

Lemma CreateChannelPair_eq k :
  ipc_objects k !! next_ref k = None ->
  let c1 := next_ref k in
  let c2 := Pos.succ (next_ref k) in
  CreateChannelPair k =
    Ret (Val (c1, c2),
      mkKernel (with_lock c2 (mkLock 0 []) (with_lock c1 (mkLock 0 []) (sch k))) (process_ k) (tables k)
        (<[c2 := mkIpc CHANNEL (Some c1) (UnboundedMessageQueue [])]>
           (<[c1 := mkIpc CHANNEL (Some c2) (UnboundedMessageQueue [])]> (ipc_objects k)))
        (driver_map_ k) (Pos.succ c2)).
Proof.
  intros Hnone c1 c2. assert (c1 <> c2) as Hne by (subst c1 c2; lia).
  unfold CreateChannelPair, new_object, new_lock, put_object, set_peer, mbind, K_bind, mret, K_ret, mbind, res_bind.
  cbn. fold c1 c2. rewrite (lookup_insert_ne _ c2 c1), lookup_insert_eq by done. cbn.
  rewrite (lookup_insert_ne _ c1 c2), lookup_insert_eq by done. cbn.
  unfold with_objects. cbn.
  match goal with |- Ret (_, mkKernel _ _ _ ?a _ _) = Ret (_, mkKernel _ _ _ ?b _ _) => assert (a = b) as ->; [|done] end.
  apply map_eq. intros r. destruct (decide (r = c2)) as [->|H2]; [by rewrite !lookup_insert_eq|].
  rewrite !(lookup_insert_ne _ c2) by done. destruct (decide (r = c1)) as [->|H1]; [by rewrite !lookup_insert_eq|].
  by rewrite !(lookup_insert_ne _ c1), !(lookup_insert_ne _ c2), !(lookup_insert_ne _ c1) by done.
Qed.

Lemma CreateChannelPair_runs k n :
  good k0 k -> room n k ->
  runs k0 CreateChannelPair k (fun '(c1, c2) k' => obj_type k' c1 = Some CHANNEL /\ obj_type k' c2 = Some CHANNEL /\
    (next_ref k0 <= c1)%positive /\ (next_ref k0 <= c2)%positive /\ room n k').
Proof.
  intros Hg Hroom.
  destruct (new_lock_runs k0 k n (fun r k' => r = next_ref k /\ ipc_objects k' = ipc_objects k /\ room n k' /\
    ipc_objects k !! r = None /\ is_Some (locks (sch k') !! r) /\ (next_ref k0 <= r)%positive) Hg Hroom)
    as (o1 & k1 & Hn1 & Hg1 & He1 & HQ1); [done|].
  injection Hn1 as <- Hk1. destruct (HQ1 _ eq_refl) as (_ & Hob1 & Hr1 & Hf1 & Hl1 & Hc1).
  destruct (new_lock_runs k0 k1 n (fun r k' => r = next_ref k1 /\ ipc_objects k' = ipc_objects k1 /\ room n k' /\
    ipc_objects k1 !! r = None /\ is_Some (locks (sch k') !! r)) Hg1 Hr1) as (o2 & k2 & Hn2 & Hg2 & He2 & HQ2); [done|].
  injection Hn2 as <- Hk2. destruct (HQ2 _ eq_refl) as (_ & Hob2 & Hr2 & Hf2 & Hl2). rewrite Hob1 in Hf2.
  assert (next_ref k1 = Pos.succ (next_ref k)) as Hc2 by (by rewrite <- Hk1). rewrite Hc2 in *.
  set (c1 := next_ref k) in *. set (c2 := Pos.succ c1) in *. assert (c1 <> c2) as Hne by lia.
  set (news := <[c2 := mkIpc CHANNEL (Some c1) (UnboundedMessageQueue [])]>
                 {[c1 := mkIpc CHANNEL (Some c2) (UnboundedMessageQueue [])]} : gmap positive IpcObject).
  assert (news !! c1 = Some (mkIpc CHANNEL (Some c2) (UnboundedMessageQueue []))) as H1
    by (subst news; by rewrite lookup_insert_ne, lookup_singleton_eq).
  assert (news !! c2 = Some (mkIpc CHANNEL (Some c1) (UnboundedMessageQueue []))) as H2
    by (subst news; by rewrite lookup_insert_eq).
  destruct (put_news_good k0 k2 news Hg2) as [Hgood Hext].
  { rewrite Hob2, Hob1. apply map_disjoint_insert_l_2; [done|]. by apply map_disjoint_singleton_l. }
  { assert (forall m, m ∈ @nil IpcMessage -> m = empty_msg) as Hnil by (by intros m ?%elem_of_nil).
    intros r x [[<- <-]|[_ [<- <-]%lookup_singleton_Some]]%lookup_insert_Some; (split_and!; [|done|exact Hnil|eauto]); [done|].
    by apply He2. }
  assert (news ∪ ipc_objects k2 = <[c2 := mkIpc CHANNEL (Some c1) (UnboundedMessageQueue [])]>
           (<[c1 := mkIpc CHANNEL (Some c2) (UnboundedMessageQueue [])]> (ipc_objects k))) as Hun.
  { subst news. by rewrite <- insert_union_l, <- insert_union_singleton_l, Hob2, Hob1. }
  eexists (Val (c1, c2)), (with_objects (news ∪ ipc_objects k2) k2). rewrite (CreateChannelPair_eq k Hf1). fold c1 c2. split_and!.
  - rewrite Hun, <- Hk2. unfold with_objects. cbn. by rewrite <- Hk1.
  - done.
  - by etrans; [exact He1|etrans].
  - intros a [= <-]. unfold obj_type. cbn [ipc_objects with_objects].
    rewrite (lookup_union_Some_l _ _ _ _ H1), (lookup_union_Some_l _ _ _ _ H2). split_and!; [done|done|done|lia|done].
Qed.

Lemma ChannelCreate_runs k : good k0 k -> room 2 k -> runs k0 ChannelCreate k (fun _ _ => True).
Proof.
  intros Hg Hroom. eapply runs_bind; [by apply CreateChannelPair_runs|]. intros [c1 c2] k1 Hg1 _ (H1 & H2 & Hn1 & Hn2 & Hr).
  eapply runs_bind with (Q := fun _ k' => room 1 k' /\ obj_type k' c2 = Some CHANNEL).
  { apply AddNew_runs with 1; try done. intros id k' Hr' _ Ho _. split; [done|]. unfold obj_type. by rewrite Ho. }
  intros id1 k2 Hg2 _ (Hr2 & H2'). eapply runs_bind with (Q := fun _ _ => True); [by apply AddNew_runs with 0|].
  intros id2 k3 Hg3 _ _. by apply runs_ret.
Qed.

Lemma EndpointSend_runs id req k :
  good k0 k -> send_ok req -> room 1 k -> runs k0 (EndpointSend id req) k (fun _ _ => True).
Proof.
  intros Hg Hs Hroom. eapply runs_bind; [by apply validated_runs|]. intros e k1 _ _ (-> & Hty & _). specialize (Hty eq_refl).
  eapply runs_bind; [apply new_object_runs with (n := 1); try done; by intros m ->%list_elem_of_singleton|].
  intros rp k1 Hg1 He1 (Hrp & Hn & Hroom1 & _).
  eapply runs_bind with (Q := fun _ _ => True); [by apply AddNew_runs with 0|].
  intros i k2 Hg2 He2 _. eapply runs_bind; [by apply Translate_runs|]. intros m k3 Hg3 He3 [Hs3 Hm3].
  assert (ext k1 k3) as He13 by (by etrans).
  eapply runs_bind with (Q := fun _ _ => True).
  - apply Send_runs with ENDPOINT; [done|by apply He13, He1|]. split; [done|]. intros c [Hc|[= <-]]; [apply Hm3; by left|].
    split; [by right|]. split; [|done]. intros _. by apply He13.
  - intros [] k4 Hg4 _ _. by apply runs_ret.
Qed.

Lemma with_drivers_good k m :
  good k0 k -> hm_wf m -> (forall irq v, hm_model m !! irq = Some v -> exists r, v = Some r /\ obj_type k r = Some PORT) ->
  good k0 (with_drivers m k) /\ ext k (with_drivers m k).
Proof.
  intros [Hk Hh He] Hw Hm. assert (ext k (with_drivers m k)) as Hext by by split.
  split; [|done]. split; [|exact Hh|by etrans]. destruct Hk. by split.
Qed.

Lemma IrqRegister_runs irq k :
  good k0 k -> room 1 k -> hm_size (driver_map_ k) < 2 ^ 56 - 1 -> runs k0 (IrqRegister irq) k (fun _ _ => True).
Proof.
  intros Hg Hroom Hsz.
  eapply runs_bind; [apply new_object_runs with (n := 1); try done; by intros m ?%elem_of_nil|].
  intros r k1 Hg1 _ (Hty & Hn & Hr1 & Hd1).
  eapply runs_bind with (Q := fun _ k' => driver_map_ k' = driver_map_ k /\ obj_type k' r = Some PORT).
  { apply AddNew_runs with 0; try done. intros id k' _ _ Ho Hd. unfold obj_type. rewrite Ho, Hd. done. }
  intros id k2 Hg2 _ [Hd2 Hty2]. eapply runs_bind with (Q := fun _ _ => True).
  - unfold runs, RegisterListener. rewrite Hd2, Contains_spec, ret_bind by (rewrite <- Hd2; apply Hg2).
    destruct (bool_decide _) eqn:Eb; [eexists _, k2; by split_and!|]. apply bool_decide_eq_false in Eb.
    destruct (Insert_spec (driver_map_ k) irq (Some r)) as (m & Hw & Hcase & _); [rewrite <- Hd2; apply Hg2|done|].
    destruct (hm_model (driver_map_ k) !! irq) eqn:E0; [destruct Eb; eauto|]. destruct Hcase as [-> Hmod]. rewrite ret_bind.
    destruct (with_drivers_good k2 m Hg2 Hw) as [Hg3 He3].
    + rewrite Hmod. intros irq' v [[<- <-]|[_ Hv]]%lookup_insert_Some; [by eexists|].
      apply (ki_drivers _ (gd_inv _ _ Hg2) irq'). by rewrite Hd2.
    + eexists (Val tt), (with_drivers m k2). by split_and!.
  - intros [] k3 Hg3 _ _. by apply runs_ret.
Qed.

Lemma WriteMessage_runs irq data k :
  good k0 k -> runs k0 (WriteMessage irq (mkMsg data [] None)) k (fun _ _ => True).
Proof.
  intros Hg. unfold runs, WriteMessage. rewrite Contains_spec, ret_bind by apply Hg.
  destruct (bool_decide _) eqn:Eb; cbn [negb]; [|exists (Val tt), k; by split_and!].
  apply bool_decide_eq_true in Eb as [v Hv]. rewrite (at_spec _ None irq v) by (done || apply Hg). rewrite ret_bind.
  destruct (ki_drivers _ (gd_inv _ _ Hg) irq v Hv) as (r & -> & Hty). cbn [deref]. rewrite ret_bind.
  replace (with_drivers (driver_map_ k) k) with k by (by destruct k).
  apply (Send_runs k0 r PORT); [done|done|]. split; [constructor|]. by intros c [?%elem_of_nil|?].
Qed.

Lemma turn_runs f k :
  good k0 k ->
  (exists b s, f (sch k) = Ret (b, s) /\ sched_inv s /\ same_locks (sch k) s) -> runs k0 (lock_turn f) k (fun _ _ => True).
Proof.
  intros Hg (b & s & Hf & Hs & Hl). destruct (with_sch_good k0 k s Hg Hs Hl) as [H1 H2].
  eexists _, (with_sch s k). unfold lock_turn. rewrite Hf, ret_bind. by split_and!.
Qed.

Lemma lock_turn_runs o k :
  good k0 k -> is_Some (locks (sch k) !! o) -> current_thread_ (sch k) <> sleep_thread_ (sch k) ->
  runs k0 (lock_turn (Mutex_Lock o)) k (fun _ _ => True) /\ runs k0 (lock_turn (Semaphore_Wait o)) k (fun _ _ => True).
Proof.
  intros Hg Hl Hne. pose proof (ki_sched _ (gd_inv _ _ Hg)) as Hs. split; (apply turn_runs; [done|]).
  - destruct (do_op_spec (KLock o) (sch k) Hs) as (s & Hd & Hs'); [done|]. cbn [do_op] in Hd.
    apply bind_Ret in Hd as ([b s1] & Hd & [= ->]). exists b, s. split_and!; [done|done|]. eapply turn_locks. by left.
  - destruct (do_op_spec (KWait o) (sch k) Hs) as (s & Hd & Hs'); [done|]. cbn [do_op] in Hd.
    apply bind_Ret in Hd as ([b s1] & Hd & [= ->]). exists b, s. split_and!; [done|done|]. eapply turn_locks. by right.
Qed.

Lemma release_runs o k :
  good k0 k -> is_Some (locks (sch k) !! o) ->
  runs k0 (on_sched (Mutex_Release o)) k (fun _ _ => True) /\ runs k0 (on_sched (Semaphore_Signal o)) k (fun _ _ => True).
Proof.
  intros Hg Hl. pose proof (ki_sched _ (gd_inv _ _ Hg)) as Hs. split; (apply on_sched_runs; [done| |done]).
  - destruct (do_op_spec (KRelease o) (sch k) Hs Hl) as (s & Hd & Hs'). exists s. split_and!; [done|done|].
    eapply signal_locks. by left.
  - destruct (do_op_spec (KSignal o) (sch k) Hs Hl) as (s & Hd & Hs'). exists s. split_and!; [done|done|].
    eapply signal_locks. by right.
Qed.

Lemma CapDuplicate_runs id mask k :
  good k0 k -> room 1 k -> runs k0 (on_table (CapDuplicate id mask)) k (fun _ _ => True).
Proof.
  intros Hg Hroom. destruct (cur_table k (gd_inv _ _ Hg)) as (t & Ht & Hw). pose proof (Hroom _ _ Ht).
  pose proof (CapDuplicate_spec t id mask Hw ltac:(lia)) as Hspec.
  assert (forall r, CapDuplicate id mask t = Ret (r, t) -> runs k0 (on_table (CapDuplicate id mask)) k (fun _ _ => True)) as Hsame.
  { intros r Hr. exists (Val r), k. rewrite (on_table_Ret _ k t r t) by done. rewrite insert_id by done. split_and!; by destruct k. }
  destruct (default None (caps t !! id)) as [c|] eqn:Ec; [|by eapply Hsame]. case_if_hyp Hspec; [by eapply Hsame|].
  destruct Hspec as (t' & Hd & Hw' & _ & _ & Hc).
  assert (cap_in k c) as Hin by (apply (cap_at_in k id); unfold cap_at; by rewrite Ht).
  destruct (gd_held _ _ Hg c Hin) as [(c0 & Hc0 & Ho & Hp)|Hnew].
  all: destruct (with_tables_good k0 k (cur k) t' Hg Hw') as [Hg' He'];
    [rewrite Hc; intros id' c' [[<- [= <-]]|[_ Hid]]%lookup_insert_Some;
       [|assert (cap_in k c') by (left; eauto); split; by apply Hg]
    |eexists _, _; split_and!; [by apply (on_table_Ret _ k t)|done|done|done]].
  - split; [|by apply (ki_caps _ (gd_inv _ _ Hg) c)]. left. exists c0. split; [done|]. split; [done|].
    intros p Hp'. apply Hp. by eapply masked_permissions.
  - split; [by right|]. by apply (ki_caps _ (gd_inv _ _ Hg) c).
Qed.

Lemma CapRelease_runs id k : good k0 k -> runs k0 (on_table (CapRelease id)) k (fun _ _ => True).
Proof.
  intros Hg. destruct (Release_runs k0 id k (fun _ _ => True) Hg) as (o & k' & Hr & Hg' & He & _); [done|].
  unfold on_table in Hr. destruct (tables k !! process_ k (current_thread_ (sch k))) as [t|] eqn:Ht; [|done].
  cbn [deref] in Hr. rewrite ret_bind in Hr. apply bind_Ret in Hr as ([c t'] & Hrel & [= <- <-]).
  unfold runs, on_table, CapRelease. rewrite Ht. cbn [deref]. rewrite ret_bind, Hrel, ret_bind.
  by destruct c; rewrite ret_bind; eexists _, _; split_and!.
Qed.

Lemma locked_call_runs t id perms (f : positive -> K unit) k :
  good k0 k -> is_lock t = true ->
  (forall o, is_Some (locks (sch k) !! o) -> runs k0 (f o) k (fun _ _ => True)) ->
  runs k0 (o ← validated t id perms; f o) k (fun _ _ => True).
Proof.
  intros Hg Ht Hf. eapply runs_bind; [by apply validated_runs|]. intros o k1 _ _ (-> & _ & Hl). by apply Hf, Hl.
Qed.

Lemma SyscallHandler_runs e k : good k0 k -> entry_ok e k -> runs k0 (SyscallHandler e) k (fun _ _ => True).
Proof.
  intros Hg [Hne Hok]. pose proof (ki_sched _ (gd_inv _ _ Hg)) as Hs.
  destruct e; cbn [SyscallHandler] in *;
    try (eapply discard_runs; by apply recv_call_runs); try (by apply send_call_runs).
  - eapply discard_runs. by apply ChannelCreate_runs.
  - eapply discard_runs. apply create_runs; try done. by intros m ?%elem_of_nil.
  - eapply discard_runs. eapply runs_bind; [by apply validated_runs|]. intros r k1 _ _ (-> & Hty & _). specialize (Hty eq_refl).
    eapply runs_bind with (Q := fun _ k' => k' = k).
    { eapply runs_bind; [by apply get_object_runs|]. intros x k1 Hg1 _ (-> & _). by apply runs_ret. }
    intros b k1 _ _ ->. case_if_goal; [by apply runs_fail|]. by eapply recv_runs.
  - eapply discard_runs. apply IrqRegister_runs; [done|apply Hok..].
  - eapply discard_runs. apply create_runs; try done. by intros m ?%elem_of_nil.
  - eapply discard_runs. apply EndpointSend_runs; [done|apply Hok..].
  - eapply discard_runs. eapply runs_bind; [by apply validated_runs|]. intros r k1 _ _ (-> & Hty & _).
    eapply recv_with_reply_runs; [done|by apply Hty|done|done].
  - eapply discard_runs. by apply CapDuplicate_runs.
  - eapply discard_runs. by apply CapRelease_runs.
  - eapply discard_runs. by apply create_lock_runs.
  - apply locked_call_runs; [done|done|]. intros o Ho. by apply lock_turn_runs.
  - apply locked_call_runs; [done|done|]. intros o Ho. by apply release_runs.
  - eapply discard_runs. by apply create_lock_runs.
  - apply locked_call_runs; [done|done|]. intros o Ho. by apply lock_turn_runs.
  - apply locked_call_runs; [done|done|]. intros o Ho. by apply release_runs.
  - apply on_sched_runs; [done| |done]. destruct (Sleep_spec (sch k) millis Hs Hne) as (s & Hsl & Hs').
    exists s. split_and!; [done|done|]. apply same_locks_eq. by eapply Sleep_locks.
  - destruct Hok as [Hok [t Ht]]. eapply discard_runs. by eapply recv_runs.
  - destruct Hok as [Hok [t Ht]]. eapply discard_runs. by eapply recv_with_reply_runs.
  - by apply lock_turn_runs.
  - by apply lock_turn_runs.
  - apply on_sched_runs; [done| |done]. destruct (Preempt_spec (sch k) Hs) as (s & Hsl & Hs').
    exists s. split_and!; [done|done|]. apply same_locks_eq. by eapply Preempt_locks.
  - by apply WriteMessage_runs.
Qed.
End calls.

(** One kernel entry, uninterrupted, with the conditions of [entry_ok]: buffers that can be read, room in the tables, and
    not from the idle thread. *)
Definition kernel_step (k k' : kernel) : Prop :=
  exists e o, entry_ok e k /\ SyscallHandler e k = Ret (o, k').

Lemma from_trans k0 k c :
  (forall c, cap_in k c -> from k0 c) -> ext k0 k -> from k c -> from k0 c.
Proof.
  intros Hh [_ _ Hn] [(c1 & Hc1 & Ho1 & Hp1)|[Ht Hr]].
  - destruct (Hh c1 Hc1) as [(c0 & Hc0 & Ho0 & Hp0)|[Ht Hr]].
    + left. exists c0. split; [done|]. split; [congruence|auto].
    + right. by rewrite Ho1.
  - right. split; [done|]. lia.
Qed.

Lemma kernel_steps_good k0 k : kinv k0 -> rtc kernel_step k0 k -> good k0 k.
Proof.
  intros Hk Hsteps. induction Hsteps as [k|k k1 k2 (e & o & Hok & Hrun) _ IH]; [by apply good_refl|].
  destruct (SyscallHandler_runs k e k (good_refl k Hk) Hok) as (o' & k' & Hrun' & Hg & _).
  rewrite Hrun in Hrun'. injection Hrun' as <- <-. destruct (IH (gd_inv _ _ Hg)) as [H1 H2 H3].
  split; [done| |by etrans; [apply Hg|]]. intros c Hc. eapply from_trans; [apply Hg|apply Hg|by apply H2].
Qed.

(** ** What the calls compute *)

(** The calling process knows, as [id], a capability to object [o] of type [t]
    with [perms]. *)
Definition holds_cap (k : kernel) (id : Z) (t : ObjectType) (o : positive) (perms : Z) : Prop :=
  exists c, cap_at k id = Some c /\ obj_ c = mkObj t o /\ HasPermissions c perms = true.

Lemma K_bind_Ret {A B} (m : K A) (f : A -> K B) k a k' :
  m k = Ret (Val a, k') -> (m ≫= f) k = f a k'.
Proof. intros Hm. unfold mbind, K_bind. by rewrite Hm, ret_bind. Qed.

Lemma K_bind_Err {A B} (m : K A) (f : A -> K B) k e k' :
  m k = Ret (Err e, k') -> (m ≫= f) k = Ret (Err e, k').
Proof. intros Hm. unfold mbind, K_bind. by rewrite Hm, ret_bind. Qed.

Lemma validated_table k tb id t o perms :
  tables k !! cur k = Some tb -> table_wf tb -> holds_cap k id t o perms -> validated t id perms k = Ret (Val o, k).
Proof.
  intros Ht Hw (c & Hc & Ho & Hp). unfold validated. unfold cap_at in Hc. rewrite Ht in Hc. cbn in Hc.
  rewrite (K_bind_Ret _ _ k (Some c) k) by (rewrite (on_table_Get k tb) by done; by rewrite Hc).
  assert (ValidateCapability t (Some c) perms = OK) as Hv
    by (unfold ValidateCapability; rewrite Ho, bool_decide_eq_true_2, Hp by done; done).
  rewrite (K_bind_Ret _ _ k tt k) by (unfold RET_ERR; by rewrite Hv).
  rewrite (K_bind_Ret _ _ k c k) by done. unfold lift, Capability_obj. rewrite Ho. cbn [TypeTag obj_ref].
  by rewrite bool_decide_eq_true_2.
Qed.

Lemma validated_refused k tb id t perms e :
  tables k !! cur k = Some tb -> table_wf tb -> ValidateCapability t (cap_at k id) perms = e -> e <> OK -> validated t id perms k = Ret (Err e, k).
Proof.
  intros Ht Hw He Hne. unfold validated. unfold cap_at in He. rewrite Ht in He. cbn in He.
  rewrite (K_bind_Ret _ _ k (default None (caps tb !! id)) k) by (by apply on_table_Get). apply K_bind_Err. unfold RET_ERR. rewrite He. by rewrite decide_False.
Qed.

Lemma validated_eq k id t o perms :
  kinv k -> holds_cap k id t o perms -> validated t id perms k = Ret (Val o, k).
Proof. intros Hk. destruct (cur_table k Hk) as (tb & Ht & Hw). by apply validated_table with tb. Qed.

(** The ids of a request that can be sent from table [t]. *)
Definition sendable (t : CapabilityTable) (id : Z) : Prop :=
  exists c, caps t !! id = Some (Some c) /\ HasPermissions c kZionPerm_Transmit = true.

Definition refused (t : CapabilityTable) (id : Z) (e : ErrorCode) : Prop :=
  (default None (caps t !! id) = None /\ e = CAP_NOT_FOUND) \/
  (exists c, caps t !! id = Some (Some c) /\ HasPermissions c kZionPerm_Transmit = false /\ e = CAP_PERMISSION_DENIED).

(** The capabilities leave the table one by one; at the first id that is
    refused the call fails and those already taken are gone. *)
Lemma transmit_caps_eq ids rest k t :
  tables k !! cur k = Some t -> table_wf t -> NoDup ids -> Forall (sendable t) ids ->
  exists t', table_wf t' /\ next_cap_id_ t' = next_cap_id_ t /\
    (forall id, caps t' !! id = if decide (id ∈ ids) then None else caps t !! id) /\
    let k' := with_tables (<[cur k := t']> (tables k)) k in
    transmit_caps (ids ++ rest) k =
      (cs ← transmit_caps rest; mret (((fun id => default None (caps t !! id)) <$> ids) ++ cs)) k'.
Proof.
  revert k t. induction ids as [|id ids IH]; intros k t Ht Hw Hnd Hs.
  { exists t. split_and!; try done. cbn [fmap list_fmap app]. rewrite insert_id by done.
    replace (with_tables (tables k) k) with k by (by destruct k).
    unfold mbind, K_bind, mret, K_ret. cbn zeta. destruct (transmit_caps rest k) as [[[cs|e|] k']| | |]; done. }
  apply NoDup_cons in Hnd as [Hnin Hnd]. apply Forall_cons in Hs as [(c & Hc & Hp) Hs].
  destruct (ReleaseCapability_spec t id Hw) as (t1 & Hr1 & Hw1 & Hc1 & Hn1). rewrite Hc in Hr1. cbn in Hr1.
  set (k1 := with_tables (<[cur k := t1]> (tables k)) k).
  destruct (IH k1 t1) as (t' & Hw' & Hn' & Hl' & Heq).
  - change (cur k1) with (cur k). cbn. by rewrite lookup_insert_eq.
  - done.
  - done.
  - apply Forall_forall. intros id' Hin. unfold sendable. rewrite Hc1. destruct (proj1 (Forall_forall _ _) Hs id' Hin) as (c' & ? & ?).
    exists c'. rewrite lookup_delete_ne by (intros ->; done). done.
  - exists t'. split_and!; [done|congruence| |].
    + intros id'. rewrite Hl', Hc1. destruct (decide (id' = id)) as [->|Hne].
      * rewrite (decide_True (P := id ∈ id :: ids)) by (by left). case_decide; [done|by rewrite lookup_delete_eq].
      * rewrite lookup_delete_ne by done. apply decide_ext. set_solver.
    + cbn zeta in Heq |- *. cbn [app transmit_caps].
      rewrite (K_bind_Ret _ _ k (Some c) k) by (rewrite (on_table_Get k t) by done; by rewrite Hc). rewrite Hp. cbn [negb].
      rewrite (K_bind_Ret _ _ k (Some c) k1) by (by apply (on_table_Ret _ k t)).
      unfold mbind at 1, K_bind at 1. rewrite Heq. change (cur k1) with (cur k). cbn [tables with_tables k1].
      rewrite insert_insert_eq. cbn [fmap list_fmap app]. rewrite Hc. cbn [default].
      assert ((fun id => default None (caps t1 !! id)) <$> ids = (fun id => default None (caps t !! id)) <$> ids) as ->.
      { apply list_fmap_ext. intros i id' Hi. rewrite Hc1, lookup_delete_ne; [done|].
        intros <-. by apply list_elem_of_lookup_2 in Hi. }
      unfold with_tables. cbn [sch process_ tables ipc_objects driver_map_ next_ref].
      unfold mbind, K_bind, mret, K_ret.
      by destruct (transmit_caps rest _) as [[[cs|e|] k'']| | |].
Qed.

(** A request whose buffers are readable, with the bytes and ids in it. *)
Definition request (req : SendReq) (bytes ids : list Z) : Prop :=
  0 <= num_bytes req <= 0x1000 /\ send_ok req /\
  bytes = take (Z.to_nat (num_bytes req)) (req_data req) /\ ids = take (Z.to_nat (num_caps req)) (req_caps req).

Lemma Translate_eq req bytes ids k :
  request req bytes ids ->
  TranslateRequestToIpcMessage req k = (caps ← transmit_caps ids; mret (mkMsg bytes caps None)) k.
Proof.
  intros (Hb & [H1 H2] & -> & ->). unfold TranslateRequestToIpcMessage, read_user.
  destruct (num_bytes req >? 4096) eqn:E; [lia|].
  rewrite (proj2 (Z.ltb_ge _ _) H1), (proj2 (Z.ltb_ge _ _) H2). done.
Qed.

(** All the capabilities go out. *)
Lemma Translate_sendable req bytes ids k t :
  request req bytes ids -> tables k !! cur k = Some t -> table_wf t -> NoDup ids -> Forall (sendable t) ids ->
  exists t', table_wf t' /\ next_cap_id_ t' = next_cap_id_ t /\
    (forall id, caps t' !! id = if decide (id ∈ ids) then None else caps t !! id) /\
    TranslateRequestToIpcMessage req k =
      Ret (Val (mkMsg bytes ((fun id => default None (caps t !! id)) <$> ids) None), with_tables (<[cur k := t']> (tables k)) k).
Proof.
  intros Hreq Ht Hw Hnd Hs. rewrite (Translate_eq req bytes ids k Hreq).
  destruct (transmit_caps_eq ids [] k t Ht Hw Hnd Hs) as (t' & ? & ? & ? & Heq). exists t'. split_and!; try done.
  rewrite app_nil_r in Heq. cbn zeta in Heq. erewrite K_bind_Ret; [|rewrite Heq; reflexivity].
  by rewrite app_nil_r.
Qed.

(** The first refused id ends the call. *)
Lemma Translate_refused req bytes ids bad rest e k t :
  request req bytes (ids ++ bad :: rest) -> tables k !! cur k = Some t -> table_wf t -> NoDup (ids ++ [bad]) ->
  Forall (sendable t) ids -> refused t bad e ->
  exists t', (forall id, caps t' !! id = if decide (id ∈ ids) then None else caps t !! id) /\
    TranslateRequestToIpcMessage req k = Ret (Err e, with_tables (<[cur k := t']> (tables k)) k).
Proof.
  intros Hreq Ht Hw (Hnd & Hdis & _)%NoDup_app Hs Hbad. rewrite (Translate_eq _ _ _ k Hreq).
  destruct (transmit_caps_eq ids (bad :: rest) k t Ht Hw Hnd Hs) as (t' & Hw' & _ & Hc & Heq). exists t'. split; [done|].
  cbn zeta in Heq. apply K_bind_Err. rewrite Heq. set (k' := with_tables _ k). apply K_bind_Err. cbn [transmit_caps].
  assert (caps t' !! bad = caps t !! bad) as Hb by (rewrite Hc, decide_False; [done|]; intros H; by apply (Hdis bad H), list_elem_of_singleton).
  assert (on_table (GetCapability bad) k' = Ret (Val (default None (caps t !! bad)), k')) as Hget.
  { rewrite <- Hb. apply on_table_Get; [|done]. change (cur k') with (cur k). cbn. by rewrite lookup_insert_eq. }
  rewrite (K_bind_Ret _ _ _ _ _ Hget). destruct Hbad as [[Hn ->]|(c & Hcb & Hp & ->)].
  - by rewrite Hn.
  - rewrite Hcb. cbn [from_option id]. unfold id. by rewrite Hp.
Qed.

(** A message is appended and the scheduler wakes the first receiver. *)
Lemma Send_eq k r x pending m :
  sched_inv (sch k) -> is_Some (locks (sch k) !! r) ->
  ipc_objects k !! r = Some x -> ipc_type x <> CHANNEL -> message_queue_ x = UnboundedMessageQueue pending ->
  exists s, wake_first r (sch k) = Ret s /\ Send r m k = Ret (Val tt, with_sch s (with_objects
    (<[r := mkIpc (ipc_type x) (peer_ x) (UnboundedMessageQueue (pending ++ [m]))]> (ipc_objects k)) k)).
Proof.
  intros Hs [l Hl] Hx Ht Hq. destruct (wake_first_spec (sch k) r l Hs Hl) as (s & Hw & _). exists s. split; [done|].
  unfold Send, GetSendMessageQueue.
  assert (get_object r k = Ret (Val x, k)) as Hget by (unfold get_object; by rewrite Hx).
  rewrite (K_bind_Ret _ _ k r k) by (rewrite (K_bind_Ret _ _ k x k Hget); by rewrite decide_False).
  unfold PushBack. rewrite (K_bind_Ret _ _ k x k Hget), Hq. unfold UnboundedMessageQueue_PushBack.
  erewrite (K_bind_Ret _ _ k tt); [|unfold set_queue; rewrite Hx; reflexivity].
  unfold on_sched. cbn [sch with_objects]. by rewrite Hw, ret_bind.
Qed.

(** A reply port takes one message. *)
Lemma Send_reply_eq k r rd m0 w m :
  sched_inv (sch k) -> is_Some (locks (sch k) !! r) ->
  ipc_objects k !! r = Some (mkIpc REPLY_PORT None (SingleMessageQueue w rd m0)) -> reply_cap m = None ->
  if w then Send r m k = Ret (Err FAILED_PRECONDITION, k) else
  exists s, wake_first r (sch k) = Ret s /\ Send r m k = Ret (Val tt, with_sch s (with_objects
    (<[r := mkIpc REPLY_PORT None (SingleMessageQueue true rd m)]> (ipc_objects k)) k)).
Proof.
  intros Hs [l Hl] Hx Hm. unfold Send, GetSendMessageQueue. set (x := mkIpc _ _ _) in Hx.
  assert (get_object r k = Ret (Val x, k)) as Hget by (unfold get_object; by rewrite Hx).
  rewrite (K_bind_Ret _ _ k r k) by (by rewrite (K_bind_Ret _ _ k x k Hget)).
  unfold PushBack. rewrite (K_bind_Ret _ _ k x k Hget). cbn [message_queue_ x]. unfold SingleMessageQueue_PushBack. rewrite Hm, bool_decide_eq_false_2 by (by intros [? ?]).
  destruct w; [done|]. destruct (wake_first_spec (sch k) r l Hs Hl) as (s & Hw & _). exists s. split; [done|].
  erewrite (K_bind_Ret _ _ k tt); [|unfold set_queue; rewrite Hx; reflexivity].
  unfold on_sched. cbn [sch with_objects]. by rewrite Hw, ret_bind.
Qed.

(** The message fits the receiver's buffers. *)
Definition fits (m : IpcMessage) (req : RecvReq) : Prop :=
  Z.of_nat (length (msg_data m)) <= max_bytes req /\ Z.of_nat (length (msg_caps m)) <= max_caps req.

Lemma fits_tests m req :
  fits m req -> (Z.of_nat (length (msg_data m)) >? max_bytes req) = false /\
    (Z.of_nat (length (msg_caps m)) >? max_caps req) = false.
Proof. intros [H1 H2]. rewrite !Z.gtb_ltb, !Z.ltb_ge. done. Qed.

Lemma PopFront_eq k r x m rest req :
  ipc_objects k !! r = Some x -> message_queue_ x = UnboundedMessageQueue (m :: rest) -> fits m req ->
  Recv r (max_bytes req) (max_caps req) k = Ret (Val m, with_objects
    (<[r := mkIpc (ipc_type x) (peer_ x) (UnboundedMessageQueue rest)]> (ipc_objects k)) k).
Proof.
  intros Hx Hq [H1 H2]%fits_tests. unfold Recv, PopFront.
  rewrite (K_bind_Ret _ _ k x k) by (unfold get_object; by rewrite Hx).
  rewrite Hq. unfold UnboundedMessageQueue_PopFront. rewrite H1, H2.
  erewrite (K_bind_Ret _ _ k tt); [|unfold set_queue; rewrite Hx; reflexivity]. done.
Qed.

Lemma PopFront_reply_eq k r rd m req :
  ipc_objects k !! r = Some (mkIpc REPLY_PORT None (SingleMessageQueue true rd m)) -> fits m req ->
  Recv r (max_bytes req) (max_caps req) k =
    if rd then Ret (Err FAILED_PRECONDITION, k)
    else Ret (Val m, with_objects (<[r := mkIpc REPLY_PORT None (SingleMessageQueue true true empty_msg)]> (ipc_objects k)) k).
Proof.
  intros Hx [H1 H2]%fits_tests. unfold Recv, PopFront. set (x := mkIpc _ _ _) in Hx.
  rewrite (K_bind_Ret _ _ k x k) by (unfold get_object; by rewrite Hx). cbn [message_queue_ x].
  unfold SingleMessageQueue_PopFront. cbn [negb]. destruct rd; [done|]. rewrite H1, H2.
  erewrite (K_bind_Ret _ _ k tt); [|unfold set_queue; rewrite Hx; reflexivity]. done.
Qed.

Lemma ReplyPort_Create_eq k :
  ReplyPort_Create k = Ret (Val (next_ref k),
    mkKernel (with_lock (next_ref k) (mkLock 0 []) (sch k)) (process_ k) (tables k)
      (<[next_ref k := mkIpc REPLY_PORT None (SingleMessageQueue false false empty_msg)]> (ipc_objects k))
      (driver_map_ k) (Pos.succ (next_ref k))).
Proof. done. Qed.

Lemma fresh_ref k : kinv k -> ipc_objects k !! next_ref k = None /\ locks (sch k) !! next_ref k = None.
Proof.
  intros Hk. assert (locks (sch k) !! next_ref k = None) as Hn.
  { apply eq_None_not_Some. intros H%(ki_fresh _ Hk). lia. }
  split; [|done]. destruct (ipc_objects k !! next_ref k) as [x|] eqn:E; [|done].
  destruct (ki_objs _ Hk _ _ E) as ([? H] & _). congruence.
Qed.

Lemma EndpointSend_eq k ecap e x pending req bytes ids t :
  kinv k -> room 1 k -> holds_cap k ecap ENDPOINT e kZionPerm_Write ->
  ipc_objects k !! e = Some x -> ipc_type x = ENDPOINT -> message_queue_ x = UnboundedMessageQueue pending ->
  request req bytes ids -> tables k !! cur k = Some t -> NoDup ids -> Forall (sendable t) ids ->
  exists rid rp k2 t2, EndpointSend ecap req k = Ret (Val rid, k2) /\ e <> rp /\
    ipc_objects k2 = <[e := mkIpc ENDPOINT (peer_ x) (UnboundedMessageQueue (pending ++
        [mkMsg bytes (cap_at k <$> ids) (Some (mkCap (mkObj REPLY_PORT rp) (Z.lor kZionPerm_Write kZionPerm_Transmit)))]))]>
      (<[rp := mkIpc REPLY_PORT None (SingleMessageQueue false false empty_msg)]> (ipc_objects k)) /\
    tables k2 = <[cur k := t2]> (tables k) /\ process_ k2 = process_ k /\
    caps t2 !! rid = Some (Some (mkCap (mkObj REPLY_PORT rp) kZionPerm_Read)) /\
    next_cap_id_ t2 = next_cap_id_ t + 1 /\ wake_first e (with_lock rp (mkLock 0 []) (sch k)) = Ret (sch k2).
Proof.
  intros Hk Hroom Hcap Hx Htx Hq Hreq Ht Hnd Hs. destruct (fresh_ref k Hk) as [Hfo Hfl]. pose proof (Hroom _ _ Ht).
  assert (table_wf t) as Hw by (by eapply ki_tables). set (rp := next_ref k) in *.
  assert (e <> rp) as Hne by (intros ->; congruence).
  unfold EndpointSend. rewrite (K_bind_Ret _ _ _ _ _ (validated_eq k ecap _ _ _ Hk Hcap)).
  rewrite (K_bind_Ret _ _ _ _ _ (ReplyPort_Create_eq k)). fold rp. set (k1 := mkKernel _ _ _ _ _ _).
  destruct (AddExisting_spec t (mkCap (mkObj REPLY_PORT rp) kZionPerm_Read) Hw) as (t1 & Ha & Hw1 & Hn1 & Hc1); [lia|].
  rewrite (K_bind_Ret _ _ k1 _ _ (on_table_Ret _ k1 t _ t1 Ht Ha)). set (k1' := with_tables _ k1).
  change (cur k1) with (cur k) in *.
  assert (forall id, id ∈ ids -> caps t1 !! id = caps t !! id) as Hsame.
  { intros id Hin. rewrite Hc1, lookup_insert_ne; [done|]. intros <-.
    destruct (proj1 (Forall_forall _ _) Hs _ Hin) as (c & Hc & _). destruct (tbl_ids _ Hw _ _ Hc). lia. }
  destruct (Translate_sendable req bytes ids k1' t1) as (t2 & Hw2 & Hn2 & Hc2 & Heq); try done.
  { change (cur k1') with (cur k). cbn. by rewrite lookup_insert_eq. }
  { apply Forall_forall. intros id Hin. unfold sendable. rewrite (Hsame id Hin). by apply (proj1 (Forall_forall _ _) Hs). }
  rewrite (K_bind_Ret _ _ k1' _ _ Heq). change (cur k1') with (cur k). cbn [msg_data msg_caps].
  set (k2 := with_tables _ k1').
  destruct (Send_eq k2 e x pending (mkMsg bytes ((fun id => default None (caps t1 !! id)) <$> ids)
    (Some (mkCap (mkObj REPLY_PORT rp) (Z.lor kZionPerm_Write kZionPerm_Transmit))))) as (s & Hwake & Hsend).
  { apply new_lock_inv; [apply Hk|done]. }
  { destruct (ki_objs _ Hk e x Hx) as (Hl & _). cbn. by rewrite lookup_insert_ne. }
  { cbn. by rewrite lookup_insert_ne. } { by rewrite Htx. } { done. }
  rewrite (K_bind_Ret _ _ k2 _ _ Hsend).
  exists (next_cap_id_ t), rp. eexists _, t2. split_and!; [done|done| | |done| |lia|exact Hwake].
  - cbn. rewrite Htx. do 6 f_equal. apply list_fmap_ext. intros i id Hi%list_elem_of_lookup_2. rewrite (Hsame id Hi).
    unfold cap_at. by rewrite Ht.
  - cbn. by rewrite insert_insert_eq.
  - rewrite Hc2, decide_False, Hc1, lookup_insert_eq; [done|]. intros Hin.
    destruct (proj1 (Forall_forall _ _) Hs _ Hin) as (c & Hc & _). destruct (tbl_ids _ Hw _ _ Hc). lia.
Qed.

Lemma TranslateResp_eq k m req t :
  tables k !! cur k = Some t -> table_wf t -> Forall is_Some (msg_caps m) -> fits m req ->
  next_cap_id_ t + Z.of_nat (length (msg_caps m)) < 2 ^ 55 ->
  exists t', TranslateIpcMessageToResponse m req k =
      Ret (Val (mkResp (msg_data m) (seqZ (next_cap_id_ t) (Z.of_nat (length (msg_caps m)))) None),
           with_tables (<[cur k := t']> (tables k)) k) /\
    table_wf t' /\ next_cap_id_ t' = next_cap_id_ t + Z.of_nat (length (msg_caps m)) /\
    (forall id, id < next_cap_id_ t -> caps t' !! id = caps t !! id) /\
    (forall i c, msg_caps m !! i = Some c -> caps t' !! (next_cap_id_ t + Z.of_nat i) = Some c).
Proof.
  intros Ht Hw Hs [H1 H2]%fits_tests Hn. unfold TranslateIpcMessageToResponse. rewrite H1, H2.
  destruct (receive_caps_eq (msg_caps m) k t Ht Hw Hs Hn) as (t' & Heq & Hrest). exists t'.
  by rewrite (K_bind_Ret _ _ k _ _ Heq).
Qed.

Lemma EndpointRecv_eq k scap e x m rest c req :
  kinv k -> recv_ok req k -> holds_cap k scap ENDPOINT e kZionPerm_Read ->
  ipc_objects k !! e = Some x -> message_queue_ x = UnboundedMessageQueue (m :: rest) ->
  fits m req -> reply_cap m = Some c ->
  exists ids rid k3 t3, EndpointRecv scap req k = Ret (Val (Some (mkResp (msg_data m) ids None), rid), k3) /\
    ipc_objects k3 = <[e := mkIpc (ipc_type x) (peer_ x) (UnboundedMessageQueue rest)]> (ipc_objects k) /\
    tables k3 = <[cur k := t3]> (tables k) /\ process_ k3 = process_ k /\ cur k3 = cur k /\
    caps t3 !! rid = Some (Some c) /\
    (forall i c', msg_caps m !! i = Some c' -> exists id, ids !! i = Some id /\ caps t3 !! id = Some c') /\
    sch k3 = sch k /\ Forall is_u64 ids /\ length ids = length (msg_caps m) /\
    forall t, tables k !! cur k = Some t -> next_cap_id_ t3 = next_cap_id_ t + Z.of_nat (length ids) + 1.
Proof.
  intros Hk [Hmax Hroom] Hcap Hx Hq Hfits Hc. destruct (cur_table k Hk) as (t & Ht & Hw). pose proof (Hroom _ _ Ht).
  unfold EndpointRecv. rewrite (K_bind_Ret _ _ _ _ _ (validated_eq k scap _ _ _ Hk Hcap)).
  unfold recv_with_reply. rewrite (K_bind_Ret _ _ _ _ _ (PopFront_eq k e x m rest req Hx Hq Hfits)).
  set (k1 := with_objects _ k). destruct Hfits as [Hf1 Hf2].
  destruct (TranslateResp_eq k1 m req t) as (t1 & Heq & Hw1 & Hn1 & Hold & Hnew); [done|done| |done|lia|].
  { eapply (ki_msgs _ Hk); [done|rewrite Hq; by left]. }
  unfold TranslateIpcMessageToResponseWithReplyPort. rewrite Heq, ret_bind, Hc. change (cur k1) with (cur k).
  set (k2 := with_tables _ k1). destruct (AddExisting_spec t1 c Hw1) as (t2 & Ha & Hw2 & Hn2 & Hc2); [lia|].
  assert (tables k2 !! cur k2 = Some t1) as Ht2 by (change (cur k2) with (cur k); cbn; by rewrite lookup_insert_eq).
  rewrite (K_bind_Ret _ _ k2 _ _ (on_table_Ret _ k2 t1 _ t2 Ht2 Ha)).
  eexists _, _, _, t2. split_and!; [done|done| |done|done| | |done| | |].
  - change (cur k2) with (cur k). cbn. by rewrite insert_insert_eq.
  - by rewrite Hc2, lookup_insert_eq.
  - intros i c' Hi. exists (next_cap_id_ t + Z.of_nat i). pose proof (lookup_lt_Some _ _ _ Hi). split.
    + apply lookup_seqZ. lia.
    + rewrite Hc2, lookup_insert_ne by lia. by apply Hnew.
  - apply Forall_lookup. intros i id [-> Hi]%lookup_seqZ. pose proof (tbl_next _ Hw). unfold is_u64. lia.
  - rewrite length_seqZ. lia.
  - intros t' Ht'. rewrite Ht in Ht'. injection Ht' as <-. rewrite length_seqZ. lia.
Qed.

Lemma ReplyPortSend_eq k rid rp w rd m0 req bytes :
  kinv k -> holds_cap k rid REPLY_PORT rp kZionPerm_Write -> request req bytes [] ->
  ipc_objects k !! rp = Some (mkIpc REPLY_PORT None (SingleMessageQueue w rd m0)) ->
  if w then ReplyPortSend rid req k = Ret (Err FAILED_PRECONDITION, k) else
  exists k4, ReplyPortSend rid req k = Ret (Val tt, k4) /\
    ipc_objects k4 = <[rp := mkIpc REPLY_PORT None (SingleMessageQueue true rd (mkMsg bytes [] None))]> (ipc_objects k) /\
    tables k4 = tables k /\ process_ k4 = process_ k.
Proof.
  intros Hk Hcap Hreq Hx. unfold ReplyPortSend. rewrite (K_bind_Ret _ _ _ _ _ (validated_eq k rid _ _ _ Hk Hcap)).
  rewrite (K_bind_Ret _ _ k (mkMsg bytes [] None) k) by (by rewrite (Translate_eq req bytes [] k Hreq)).
  pose proof (Send_reply_eq k rp rd m0 w (mkMsg bytes [] None) (ki_sched _ Hk) (proj1 (ki_objs _ Hk rp _ Hx)) Hx eq_refl) as Hsend.
  destruct w; [done|]. destruct Hsend as (s & _ & Hsend). eexists. by split_and!.
Qed.

Lemma ReplyPortRecv_eq k rid rp rd bytes req :
  kinv k -> holds_cap k rid REPLY_PORT rp kZionPerm_Read -> fits (mkMsg bytes [] None) req ->
  ipc_objects k !! rp = Some (mkIpc REPLY_PORT None (SingleMessageQueue true rd (mkMsg bytes [] None))) ->
  ReplyPortRecv rid req k =
    if rd then Ret (Err FAILED_PRECONDITION, k)
    else Ret (Val (mkResp bytes [] None), with_objects
           (<[rp := mkIpc REPLY_PORT None (SingleMessageQueue true true empty_msg)]> (ipc_objects k)) k).
Proof.
  intros Hk Hcap Hf Hx. unfold ReplyPortRecv. rewrite (K_bind_Ret _ _ _ _ _ (validated_eq k rid _ _ _ Hk Hcap)).
  pose proof (PopFront_reply_eq k rp rd _ req Hx Hf) as Hpop. unfold recv_and_translate.
  destruct rd; [by apply K_bind_Err|]. rewrite (K_bind_Ret _ _ k _ _ Hpop).
  unfold TranslateIpcMessageToResponse. destruct (fits_tests _ _ Hf) as [-> ->]. done.
Qed.

(** The same with capabilities in the answer. *)
Lemma ReplyPortSend_caps k rid rp rd m0 req bytes ids t :
  kinv k -> holds_cap k rid REPLY_PORT rp kZionPerm_Write -> request req bytes ids ->
  ipc_objects k !! rp = Some (mkIpc REPLY_PORT None (SingleMessageQueue false rd m0)) ->
  tables k !! cur k = Some t -> NoDup ids -> Forall (sendable t) ids ->
  exists k4 t4, ReplyPortSend rid req k = Ret (Val tt, k4) /\
    ipc_objects k4 = <[rp := mkIpc REPLY_PORT None (SingleMessageQueue true rd (mkMsg bytes (cap_at k <$> ids) None))]> (ipc_objects k) /\
    tables k4 = <[cur k := t4]> (tables k) /\ process_ k4 = process_ k /\ next_cap_id_ t4 = next_cap_id_ t /\ wake_first rp (sch k) = Ret (sch k4).
Proof.
  intros Hk Hcap Hreq Hx Ht Hnd Hs. unfold ReplyPortSend. rewrite (K_bind_Ret _ _ _ _ _ (validated_eq k rid _ _ _ Hk Hcap)).
  destruct (Translate_sendable req bytes ids k t Hreq Ht (ki_tables _ Hk _ _ Ht) Hnd Hs) as (t4 & _ & Hn & _ & Heq). rewrite (K_bind_Ret _ _ _ _ _ Heq).
  set (k1 := with_tables _ k). set (m := mkMsg bytes _ None).
  destruct (Send_reply_eq k1 rp rd m0 false m (ki_sched _ Hk) (proj1 (ki_objs _ Hk rp _ Hx)) Hx eq_refl) as (s & Hw & Hsend). eexists _, t4. split; [exact Hsend|].
  assert (cap_at k <$> ids = (fun id => default None (caps t !! id)) <$> ids) as -> by (apply list_fmap_ext; intros i id _; unfold cap_at; by rewrite Ht). by split_and!.
Qed.

Lemma ReplyPortRecv_caps k rid rp m req t :
  kinv k -> holds_cap k rid REPLY_PORT rp kZionPerm_Read -> fits m req ->
  ipc_objects k !! rp = Some (mkIpc REPLY_PORT None (SingleMessageQueue true false m)) ->
  tables k !! cur k = Some t -> next_cap_id_ t + Z.of_nat (length (msg_caps m)) < 2 ^ 55 ->
  exists ids k5 t5, ReplyPortRecv rid req k = Ret (Val (mkResp (msg_data m) ids None), k5) /\ tables k5 = <[cur k := t5]> (tables k) /\ process_ k5 = process_ k /\
    Forall is_u64 ids /\ length ids = length (msg_caps m) /\ forall i c', msg_caps m !! i = Some c' -> exists id, ids !! i = Some id /\ caps t5 !! id = Some c'.
Proof.
  intros Hk Hcap Hf Hx Ht Hroom. unfold ReplyPortRecv. rewrite (K_bind_Ret _ _ _ _ _ (validated_eq k rid _ _ _ Hk Hcap)).
  unfold recv_and_translate. rewrite (K_bind_Ret _ _ k _ _ (PopFront_reply_eq k rp false m req Hx Hf)). set (k1 := with_objects _ k).
  assert (Forall is_Some (msg_caps m)) as Hs by (eapply (ki_msgs _ Hk); [exact Hx|by left]).
  destruct (TranslateResp_eq k1 m req t Ht (ki_tables _ Hk _ _ Ht) Hs Hf Hroom) as (t5 & Heq & _ & _ & _ & Hnew). rewrite Heq.
  eexists _, _, t5. split; [done|]. split; [done|]. split; [done|]. rewrite length_seqZ. split_and!; [|lia|].
  - apply Forall_lookup. intros i id [-> Hi]%lookup_seqZ. pose proof (tbl_next _ (ki_tables _ Hk _ _ Ht)). unfold is_u64. lia.
  - intros i c' Hi. exists (next_cap_id_ t + Z.of_nat i). pose proof (lookup_lt_Some _ _ _ Hi). split; [apply lookup_seqZ; lia|by apply Hnew].
Qed.

(** Whatever other threads do in between that leaves the tables and the
    objects concerned alone. *)
Record meanwhile (k k' : kernel) : Prop := {
  mw_tables : tables k' = tables k;
  mw_objects : ipc_objects k' = ipc_objects k;
  mw_process : process_ k' = process_ k;
  mw_inv : kinv k';
}.

Lemma holds_cap_at k p id t o perms perms' tb :
  tables k !! p = Some tb -> cur k = p -> caps tb !! id = Some (Some (mkCap (mkObj t o) perms)) ->
  HasPermissions (mkCap (mkObj t o) perms) perms' = true -> holds_cap k id t o perms'.
Proof.
  intros Ht <- Hc Hp. exists (mkCap (mkObj t o) perms). split_and!; [|done|done]. unfold cap_at. rewrite Ht. cbn. by rewrite Hc.
Qed.

(** ** Properties *)

(** C1.  The kernel's IPC, capability, mutex, semaphore and interrupt entries
    are safe together, as long as each runs to its end or to its blocking point
    without a timer tick inside it, the buffers of the requests are readable and
    the capability tables have room ([entry_ok]): from a well-formed state no
    sequence of such entries makes the kernel panic or fault, every capability
    keeps referring to an object of its type, and authority is never amplified:
    each capability held by a process or travelling in a message refers to an
    object made meanwhile or grants at most what one that existed at the start
    granted on the same object.  A request with an unreadable buffer faults in
    the kernel. *)
Theorem kernel_entries_safe k k' e :
  kinv k -> rtc kernel_step k k' ->
  (entry_ok e k' -> exists o k'', SyscallHandler e k' = Ret (o, k'') /\ kinv k'') /\
  (forall c, cap_in k' c -> cap_ok k' c /\ from k c) /\
  (forall id o req, holds_cap k' id PORT o kZionPerm_Write -> num_bytes req <= 0x1000 -> Z.of_nat (length (req_data req)) < num_bytes req ->
     SyscallHandler (ZPortSend id req) k' = Fault).
Proof.
  intros Hk Hsteps. destruct (kernel_steps_good k k' Hk Hsteps) as [Hk' Hh He]. split; [|split].
  - intros Hok. destruct (SyscallHandler_runs k' e k' (good_refl k' Hk') Hok) as (o & k'' & Hr & Hg & _).
    exists o, k''. split; [done|apply Hg].
  - intros c Hc. split; [by apply Hk'|by apply Hh].
  - intros id o req Hcap Hb Hshort. cbn [SyscallHandler]. unfold PortSend. rewrite (K_bind_Ret _ _ _ _ _ (validated_eq k' id _ _ _ Hk' Hcap)).
    unfold TranslateRequestToIpcMessage, read_user. assert ((num_bytes req >? 0x1000) = false) as -> by (rewrite Z.gtb_ltb; by apply Z.ltb_ge). by rewrite (proj2 (Z.ltb_lt _ _) Hshort).
Qed.

(** C9.  A call through an endpoint is a remote procedure call: the server
    receives exactly the bytes the client sent, the client's capabilities in
    order under ids of its own, and the right to answer; its answer reaches the
    client as sent; and the reply port serves once: a second answer and a second
    read are refused. *)
Theorem endpoint_request_reply k1 ecap e x req bytes ids t :
  kinv k1 -> room 1 k1 -> holds_cap k1 ecap ENDPOINT e kZionPerm_Write ->
  ipc_objects k1 !! e = Some x -> ipc_type x = ENDPOINT -> message_queue_ x = UnboundedMessageQueue [] ->
  request req bytes ids -> tables k1 !! cur k1 = Some t -> NoDup ids -> Forall (sendable t) ids ->
  exists rid k2, EndpointSend ecap req k1 = Ret (Val rid, k2) /\
  forall k2' scap rreq, meanwhile k2 k2' -> cur k2' <> cur k1 -> holds_cap k2' scap ENDPOINT e kZionPerm_Read ->
    recv_ok rreq k2' -> Z.of_nat (length bytes) <= max_bytes rreq -> Z.of_nat (length ids) <= max_caps rreq ->
  exists rids rpid k3, EndpointRecv scap rreq k2' = Ret (Val (Some (mkResp bytes rids None), rpid), k3) /\
    (forall i id, ids !! i = Some id -> exists id', rids !! i = Some id' /\ cap_at k3 id' = cap_at k1 id) /\
  forall k3' areq answer, meanwhile k3 k3' -> cur k3' = cur k2' -> request areq answer [] ->
  exists k4, ReplyPortSend rpid areq k3' = Ret (Val tt, k4) /\
    (forall k4', meanwhile k4 k4' -> cur k4' = cur k2' -> ReplyPortSend rpid areq k4' = Ret (Err FAILED_PRECONDITION, k4')) /\
  forall k4' creq, meanwhile k4 k4' -> cur k4' = cur k1 -> fits (mkMsg answer [] None) creq ->
  exists k5, ReplyPortRecv rid creq k4' = Ret (Val (mkResp answer [] None), k5) /\
    forall k5', meanwhile k5 k5' -> cur k5' = cur k1 -> 0 <= max_bytes creq -> 0 <= max_caps creq ->
      ReplyPortRecv rid creq k5' = Ret (Err FAILED_PRECONDITION, k5').
Proof.
  intros Hk1 Hroom Hcap Hx Htx Hq Hreq Ht Hnd Hs.
  destruct (EndpointSend_eq k1 ecap e x [] req bytes ids t) as (rid & rp & k2 & t2 & Hsend & Hne & Ho2 & Htb2 & Hp2 & Hrid & _); try done.
  exists rid, k2. split; [done|]. intros k2' scap rreq [Mt2 Mo2 Mp2 Hk2'] Hdiff Hscap Hrok Hfb Hfc. cbn [app] in Ho2.
  set (m := mkMsg bytes (cap_at k1 <$> ids) _) in Ho2. set (x2 := mkIpc ENDPOINT _ _) in Ho2.
  destruct (EndpointRecv_eq k2' scap e x2 m [] (mkCap (mkObj REPLY_PORT rp) (Z.lor kZionPerm_Write kZionPerm_Transmit)) rreq)
    as (rids & rpid & k3 & t3 & Hrecv & Ho3 & Htb3 & Hp3 & Hcur3 & Hrp & Hids & _); try done.
  { rewrite Mo2, Ho2. by rewrite lookup_insert_eq. } { split; cbn; [done|by rewrite length_fmap]. }
  exists rids, rpid, k3. split; [done|]. split.
  { intros i id Hi. destruct (Hids i (cap_at k1 id)) as (id' & Hi' & Hc').
    { cbn [msg_caps m]. by rewrite list_lookup_fmap, Hi. }
    exists id'. split; [done|]. unfold cap_at at 1. rewrite Hcur3, Htb3, lookup_insert_eq. cbn. by rewrite Hc'. }
  intros k3' areq answer [Mt3 Mo3 Mp3 Hk3'] Hcur3' Hareq.
  assert (ipc_objects k3' !! rp = Some (mkIpc REPLY_PORT None (SingleMessageQueue false false empty_msg))) as Hrp3.
  { rewrite Mo3, Ho3, lookup_insert_ne, Mo2, Ho2, lookup_insert_ne, lookup_insert_eq by done. done. }
  assert (forall k, tables k = tables k3' -> cur k = cur k2' -> holds_cap k rpid REPLY_PORT rp kZionPerm_Write) as Hw.
  { intros k Htk Hck. eapply holds_cap_at with (tb := t3); [|exact Hck|exact Hrp|done]. by rewrite Htk, Mt3, Htb3, lookup_insert_eq. }
  destruct (ReplyPortSend_eq k3' rpid rp false false empty_msg areq answer Hk3') as (k4 & Hsend4 & Ho4 & Ht4 & Hp4); [by apply Hw|done|done|].
  exists k4. split; [done|]. split.
  { intros k4' [Mt4 Mo4 Mp4 Hk4'] Hcur4.
    apply (ReplyPortSend_eq k4' rpid rp true false (mkMsg answer [] None) areq answer Hk4'); [apply Hw; congruence|done|].
    by rewrite Mo4, Ho4, lookup_insert_eq. }
  intros k4' creq [Mt4 Mo4 Mp4 Hk4'] Hcur4 Hfits.
  assert (forall k, tables k = tables k4' -> cur k = cur k1 -> holds_cap k rid REPLY_PORT rp kZionPerm_Read) as Hr.
  { intros k Htk Hck. eapply holds_cap_at with (tb := t2); [|exact Hck|exact Hrid|done].
    by rewrite Htk, Mt4, Ht4, Mt3, Htb3, lookup_insert_ne, Mt2, Htb2, lookup_insert_eq by done. }
  eexists. split.
  { rewrite (ReplyPortRecv_eq k4' rid rp false answer creq Hk4'); [done|by apply Hr|done|]. by rewrite Mo4, Ho4, lookup_insert_eq. }
  intros k5' [Mt5 Mo5 Mp5 Hk5'] Hcur5 Hb5 Hc5.
  apply (ReplyPortRecv_eq k5' rid rp true [] creq Hk5'); [by apply Hr|done|]. rewrite Mo5. cbn. by rewrite lookup_insert_eq.
Qed.

(** A send that names a capability the process does not have, or may not
    transmit, fails, but the capabilities named before it are lost: they leave
    the sender's table and reach no message. *)
Theorem failed_send_loses_capabilities k pcap o req bytes ids bad rest e t :
  kinv k -> holds_cap k pcap PORT o kZionPerm_Write -> request req bytes (ids ++ bad :: rest) ->
  tables k !! cur k = Some t -> NoDup (ids ++ [bad]) -> Forall (sendable t) ids -> refused t bad e ->
  exists k', PortSend pcap req k = Ret (Err e, k') /\ ipc_objects k' = ipc_objects k /\
    (forall id, cap_at k' id = if decide (id ∈ ids) then None else cap_at k id) /\
    forall p, p <> cur k -> tables k' !! p = tables k !! p.
Proof.
  intros Hk Hcap Hreq Ht Hnd Hs Hbad.
  destruct (Translate_refused req bytes ids bad rest e k t) as (t' & Hc & Heq); try done; [by eapply ki_tables|].
  eexists. split_and!.
  - unfold PortSend. rewrite (K_bind_Ret _ _ _ _ _ (validated_eq k pcap _ _ _ Hk Hcap)). by apply K_bind_Err.
  - done.
  - intros id. unfold cap_at. set (k' := with_tables _ k). change (cur k') with (cur k). cbn [tables with_tables k'].
    rewrite lookup_insert_eq, Ht. cbn. rewrite Hc. by case_decide.
  - intros p Hp. cbn. by rewrite lookup_insert_ne.
Qed.

(** *** Witnesses *)

(** An endpoint that a client process (thread 2) and a server process (thread 3) share. *)
Definition endpoint_cap : Capability := mkCap (mkObj ENDPOINT 10) ipc_permissions.
Definition memory_cap : Capability := mkCap (mkObj MEMORY_OBJECT 5) 0x33.
Definition port_cap : Capability := mkCap (mkObj PORT 11) ipc_permissions.

Definition table_of (cs : list Capability) : CapabilityTable :=
  foldl (fun t c => match AddExistingCapability (Some c) t with Ret (_, t') => t' | _ => t end) CapabilityTable_new cs.

Definition client_table : CapabilityTable := Eval vm_compute in table_of [endpoint_cap; memory_cap; port_cap].
Definition server_table : CapabilityTable := Eval vm_compute in table_of [endpoint_cap].

Definition sample_kernel : kernel :=
  mkKernel (with_lock 11 (mkLock 0 []) (with_lock 10 (mkLock 0 []) sample_sched))
    (fun t => if decide (t = 3%positive) then 2%positive else 1%positive)
    {[ 1%positive := client_table; 2%positive := server_table ]}
    {[ 10%positive := mkIpc ENDPOINT None (UnboundedMessageQueue []); 11%positive := mkIpc PORT None (UnboundedMessageQueue []) ]}
    hm_new 12.

Lemma table_of_wf cs :
  Z.of_nat (length cs) < 1000 -> table_wf (table_of cs) /\ next_cap_id_ (table_of cs) = 0x100 + Z.of_nat (length cs) /\
  forall id c, caps (table_of cs) !! id = Some (Some c) -> c ∈ cs.
Proof.
  induction cs as [|c cs IH] using rev_ind; intros Hl.
  { split; [apply CapabilityTable_new_wf|]. split; [done|]. done. }
  rewrite length_app in *. cbn [length] in *. destruct IH as (Hw & Hn & Hc); [lia|]. unfold table_of in *.
  rewrite foldl_app. cbn [foldl]. destruct (AddExisting_spec _ c Hw) as (t' & -> & Hw' & Hn' & Hc'); [lia|].
  split; [done|]. split; [lia|]. rewrite Hc'. intros id c' [[_ [= <-]]|[_ H]]%lookup_insert_Some; [set_solver|].
  apply Hc in H. set_solver.
Qed.

Lemma sample_kernel_inv : kinv sample_kernel.
Proof.
  assert (forall t, t = client_table \/ t = server_table -> table_wf t /\
    forall id c, caps t !! id = Some (Some c) -> c ∈ [endpoint_cap; memory_cap; port_cap]) as Htab.
  { intros t [-> | ->].
    - replace client_table with (table_of [endpoint_cap; memory_cap; port_cap]) by (vm_compute; reflexivity).
      destruct (table_of_wf [endpoint_cap; memory_cap; port_cap]) as (H1 & _ & H2); [done|]. split; [exact H1|exact H2].
    - replace server_table with (table_of [endpoint_cap]) by (vm_compute; reflexivity).
      destruct (table_of_wf [endpoint_cap]) as (H1 & _ & H2); [done|]. split; [exact H1|]. intros id c ->%H2%list_elem_of_singleton. by left. }
  assert (forall p t, tables sample_kernel !! p = Some t -> t = client_table \/ t = server_table) as Hts.
  { intros p t. cbn. intros [[_ <-]|[_ [_ <-]%lookup_singleton_Some]]%lookup_insert_Some; auto. }
  assert (forall r x, ipc_objects sample_kernel !! r = Some x ->
    (r = 10%positive /\ ipc_type x = ENDPOINT \/ r = 11%positive /\ ipc_type x = PORT) /\ message_queue_ x = UnboundedMessageQueue []) as Hobs.
  { intros r x. cbn. intros [[<- <-]|[_ [<- <-]%lookup_singleton_Some]]%lookup_insert_Some; auto. }
  split.
  - apply new_lock_inv; [apply new_lock_inv; [apply sample_sched_inv|done]|done].
  - intros p t Hp. by apply Htab, (Hts p).
  - intros t. cbn. case_decide; eauto.
  - intros r x Hx. destruct (Hobs r x Hx) as [[[-> Ht]|[-> Ht]] Hq]; (split_and!;
      [by eexists|unfold kind_ok; rewrite Hq, Ht; done|rewrite Ht; done]).
  - intros c [(p & t & id & Hp & Hid)|(r & x & m & Hx & Hm & _)].
    + apply (Hts p), Htab in Hp as [_ Hp]. apply Hp in Hid.
      rewrite !elem_of_cons, elem_of_nil in Hid. destruct Hid as [-> |[-> |[-> |[]]]]; split; done.
    + destruct (Hobs r x Hx) as [_ Hq]. rewrite Hq in Hm. by apply elem_of_nil in Hm.
  - intros r x m Hx Hm. destruct (Hobs r x Hx) as [_ Hq]. rewrite Hq in Hm. by apply elem_of_nil in Hm.
  - intros r [l Hl]. cbn in Hl |- *.
    repeat (apply lookup_insert_Some in Hl as [[<- _]|[_ Hl]]; [lia|]). apply lookup_singleton_Some in Hl as [<- _]. lia.
  - apply hm_new_wf.
  - done.
Qed.

Lemma sample_room n : n < 2 ^ 50 -> room n sample_kernel.
Proof.
  intros Hn p t. cbn. intros [[_ <-]|[_ [_ <-]%lookup_singleton_Some]]%lookup_insert_Some; cbn; lia.
Qed.

Definition sample_send : SendReq := mkSend 3 [1; 2; 3] 1 [0x101].

Lemma kernel_entries_safe_witness :
  exists o k', SyscallHandler (ZEndpointSend 0x100 sample_send) sample_kernel = Ret (o, k') /\ kinv k'.
Proof.
  refine (proj1 (kernel_entries_safe sample_kernel sample_kernel (ZEndpointSend 0x100 sample_send) sample_kernel_inv
    (rtc_refl _ _)) _).
  split; [discriminate|]. split; [split; cbn; lia|]. apply sample_room. lia.
Defined.

(** The state after the client's send and a timer tick. *)
Definition after_send : kernel :=
  match EndpointSend 0x100 sample_send sample_kernel with Ret (_, k) => k | _ => sample_kernel end.
Definition server_runs : kernel :=
  match on_sched Preempt after_send with Ret (_, k) => k | _ => sample_kernel end.

Lemma server_runs_meanwhile :
  meanwhile after_send server_runs /\ cur server_runs = 2%positive /\ room 100 server_runs.
Proof.
  destruct (EndpointSend_runs sample_kernel 0x100 sample_send sample_kernel) as (o & k & Hr & Hg & _);
    [apply good_refl, sample_kernel_inv|split; cbn; lia|apply sample_room; lia|].
  assert (after_send = k) as Ha by (unfold after_send; rewrite Hr; reflexivity).
  destruct (SyscallHandler_runs k Timer k (good_refl k (gd_inv _ _ Hg)) (conj I I)) as (o' & k' & Hr' & Hg' & _).
  cbn [SyscallHandler] in Hr'.
  assert (server_runs = k') as Hb by (unfold server_runs; rewrite Ha, Hr'; reflexivity).
  split; [|split; [vm_compute; reflexivity|]].
  - rewrite Ha, Hb. unfold on_sched in Hr'. apply bind_Ret in Hr' as (s & _ & [= _ <-]). by split; try apply Hg'.
  - assert (map_Forall (fun _ t => next_cap_id_ t < 0x1000) (tables server_runs)) as Hall
      by (apply (bool_decide_unpack _); vm_compute; exact I).
    intros p t Ht. apply Hall in Ht. lia.
Qed.

Lemma endpoint_request_reply_witness :
  exists rid k2 rids rpid k3, EndpointSend 0x100 sample_send sample_kernel = Ret (Val rid, k2) /\
    EndpointRecv 0x100 (mkRecv 16 4) server_runs = Ret (Val (Some (mkResp [1; 2; 3] rids None), rpid), k3).
Proof.
  destruct (endpoint_request_reply sample_kernel 0x100 10 (mkIpc ENDPOINT None (UnboundedMessageQueue [])) sample_send
    [1; 2; 3] [0x101] client_table sample_kernel_inv) as (rid & k2 & Hsend & Hnext); try reflexivity.
  - apply sample_room. lia.
  - exists endpoint_cap. split_and!; vm_compute; reflexivity.
  - split_and!; [cbn; lia|cbn; lia|split; cbn; lia|reflexivity|reflexivity].
  - apply NoDup_singleton.
  - constructor; [|constructor]. exists memory_cap. split; vm_compute; reflexivity.
  - exists rid, k2. assert (after_send = k2) as Ha by (unfold after_send; by rewrite Hsend).
    destruct server_runs_meanwhile as (Hm & Hc & Hroom). rewrite Ha in Hm.
    destruct (Hnext server_runs 0x100 (mkRecv 16 4) Hm) as (rids & rpid & k3 & Hr & _).
    + rewrite Hc. vm_compute. discriminate.
    + exists endpoint_cap. split_and!; vm_compute; reflexivity.
    + split; [cbn; lia|]. intros p t Ht. cbn. apply Hroom in Ht. lia.
    + cbn. lia.
    + cbn. lia.
    + exists rids, rpid, k3. split; [exact Hsend|exact Hr].
Defined.

Lemma failed_send_loses_capabilities_witness :
  exists k', PortSend 0x102 (mkSend 0 [] 2 [0x101; 0x999]) sample_kernel = Ret (Err CAP_NOT_FOUND, k') /\
    cap_at sample_kernel 0x101 = Some memory_cap /\ cap_at k' 0x101 = None.
Proof.
  destruct (failed_send_loses_capabilities sample_kernel 0x102 11 (mkSend 0 [] 2 [0x101; 0x999]) [] [0x101] 0x999 []
    CAP_NOT_FOUND client_table sample_kernel_inv) as (k' & Hs & _ & Hc & _).
  - exists port_cap. split_and!; vm_compute; reflexivity.
  - split_and!; [cbn; lia|cbn; lia|split; cbn; lia|reflexivity|reflexivity].
  - reflexivity.
  - apply (bool_decide_unpack _). vm_compute. exact I.
  - constructor; [|constructor]. exists memory_cap. split; vm_compute; reflexivity.
  - left. split; vm_compute; reflexivity.
  - exists k'. split; [exact Hs|]. split; [vm_compute; reflexivity|]. rewrite Hc. reflexivity.
Defined.
