(* ===== verification/Process.v ===== *)
(** * Processes and threads (zion/object/process.h, process.cpp, thread.cpp,
    zion/scheduler/process_manager.cpp, cleanup.cpp, zion/syscall/process.cpp,
    thread.cpp, memory_object.cpp, address_space.cpp, syscall.cpp)

    The state of the whole kernel: the state of Ipc.v (scheduler, capability
    tables, IPC objects), the processes with their threads and address spaces,
    the memory objects, physical memory and kernel stacks, and the work of the
    cleanup thread.  The wait queue of a thread ([Thread::blocked_threads_])
    and the mutex of a process are their [Lockable] in the scheduler.

    Objects stay in their stores when the last reference goes; what the
    destructors do is modelled with the objects (AddressSpace.v, MemObject.v).
    A member that its constructor does not set is an [option], and reading it
    before it is set faults. *)

From Stdlib Require Import ZArith Lia.
From stdpp Require Import base tactics numbers list gmap fin_maps relations.
From S2P Require Import Prelude Status LinkedList Hash HashMap PhysMem MemObject BinaryTree OrderedMap MappingTree Paging AddressSpace Capability Sched Ipc.

(** [Process::State] *)
Inductive ProcState : Type := PROC_UNSPECIFIED | PROC_SETUP | PROC_RUNNING | PROC_CLEANUP | PROC_FINISHED.

#[export] Instance ProcState_eq_dec : EqDecision ProcState.
Proof. solve_decision. Defined.

Record Process : Type := mkProcess {
  id_ : Z;
  vmas_ : option positive;
  pstate_ : option ProcState;
  exit_code_ : Z;
  next_thread_id_ : Z;
  threads_ : list positive;
}.

(** What Sched.v leaves out of a [Thread]; [start_] is [rip_], [arg1_] and [arg2_]. *)
Record ThreadInfo : Type := mkInfo {
  t_process : positive;
  tid : Z;
  is_kernel_ : bool;
  user_stack_base_ : option Z;
  start_ : option (Z * Z * Z);
  rsp0_start_ : option Z;
}.

(** [ProcessCleanup] *)
Record ProcessCleanup : Type := mkCleanup {
  semaphore_ : positive;
  thread_list_ : LinkedList positive;
  process_list_ : LinkedList positive;
}.

Record system : Type := mkSystem {
  ker : kernel;
  procs : gmap positive Process;
  infos : gmap positive ThreadInfo;
  spaces : gmap positive AddressSpace;
  mem_objects : objects;
  pmem : phys;
  kernel_stacks : KernelStackManager;
  proc_map_ : HashMap Z (option positive);
  cleanup : ProcessCleanup;
  gNextId : Z;
}.

Definition with_ker (k : kernel) (y : system) : system :=
  mkSystem k (procs y) (infos y) (spaces y) (mem_objects y) (pmem y) (kernel_stacks y) (proc_map_ y) (cleanup y) (gNextId y).
Definition with_proc (p : positive) (x : Process) (y : system) : system :=
  mkSystem (ker y) (<[p := x]> (procs y)) (infos y) (spaces y) (mem_objects y) (pmem y) (kernel_stacks y) (proc_map_ y) (cleanup y) (gNextId y).
Definition with_info (t : positive) (x : ThreadInfo) (y : system) : system :=
  mkSystem (ker y) (procs y) (<[t := x]> (infos y)) (spaces y) (mem_objects y) (pmem y) (kernel_stacks y) (proc_map_ y) (cleanup y) (gNextId y).
Definition with_space (a : positive) (x : AddressSpace) (y : system) : system :=
  mkSystem (ker y) (procs y) (infos y) (<[a := x]> (spaces y)) (mem_objects y) (pmem y) (kernel_stacks y) (proc_map_ y) (cleanup y) (gNextId y).
Definition with_mem_objects (o : objects) (y : system) : system :=
  mkSystem (ker y) (procs y) (infos y) (spaces y) o (pmem y) (kernel_stacks y) (proc_map_ y) (cleanup y) (gNextId y).
Definition with_pmem (m : phys) (y : system) : system :=
  mkSystem (ker y) (procs y) (infos y) (spaces y) (mem_objects y) m (kernel_stacks y) (proc_map_ y) (cleanup y) (gNextId y).
Definition with_kstacks (m : KernelStackManager) (y : system) : system :=
  mkSystem (ker y) (procs y) (infos y) (spaces y) (mem_objects y) (pmem y) m (proc_map_ y) (cleanup y) (gNextId y).
Definition with_proc_map (m : HashMap Z (option positive)) (y : system) : system :=
  mkSystem (ker y) (procs y) (infos y) (spaces y) (mem_objects y) (pmem y) (kernel_stacks y) m (cleanup y) (gNextId y).
Definition with_cleanup (c : ProcessCleanup) (y : system) : system :=
  mkSystem (ker y) (procs y) (infos y) (spaces y) (mem_objects y) (pmem y) (kernel_stacks y) (proc_map_ y) c (gNextId y).
Definition with_next_id (n : Z) (y : system) : system :=
  mkSystem (ker y) (procs y) (infos y) (spaces y) (mem_objects y) (pmem y) (kernel_stacks y) (proc_map_ y) (cleanup y) n.

(** ** The monad: outcomes of Ipc.v over the whole state *)
Definition Sys (A : Type) : Type := system -> res (outcome A * system).

#[export] Instance Sys_ret : MRet Sys := fun A a y => Ret (Val a, y).
#[export] Instance Sys_bind : MBind Sys := fun A B f m y =>
  '(o, y) ← m y;
  match o with
  | Val a => f a y
  | Err e => Ret (Err e, y)
  | Blocked => Ret (Blocked, y)
  end.

Definition on_kernel {A} (m : K A) : Sys A := fun y => '(o, k) ← m (ker y); Ret (o, with_ker k y).
Definition sys_lift {A} (m : res A) : Sys A := fun y => a ← m; Ret (Val a, y).
Definition sys_fail {A} (e : ErrorCode) : Sys A := fun y => Ret (Err e, y).
Definition sys_blocked {A} : Sys A := fun y => Ret (Blocked, y).
Definition reads {A} (f : system -> res A) : Sys A := fun y => a ← f y; Ret (Val a, y).
Definition updates {A} (f : system -> res (A * system)) : Sys A := fun y => '(a, y) ← f y; Ret (Val a, y).
Definition panic {A} : Sys A := fun _ => Panic.
Definition asks {A} (f : system -> A) : Sys A := fun y => Ret (Val (f y), y).
Definition modify (f : system -> system) : Sys unit := fun y => Ret (Val tt, f y).
Definition PANIC_ON_ERR (e : ErrorCode) : Sys unit := if decide (e = OK) then mret tt else panic.

Definition get_proc (p : positive) : Sys Process := reads (fun y => deref (procs y !! p)).
Definition get_info (t : positive) : Sys ThreadInfo := reads (fun y => deref (infos y !! t)).
Definition get_state (t : positive) : Sys State := reads (fun y => x ← get t (sch (ker y)); Ret (state_ x)).

(** [state_ = ...] inside of [Thread], without the check of [SetState]. *)
Definition put_state (t : positive) (st : State) : Sys unit :=
  on_kernel (on_sched (fun s => x ← get t s; Ret (with_thread t (mkThread st (sleep_ticks_ x)) s))).

Definition CurrentThread : Sys positive := asks (fun y => current_thread_ (sch (ker y))).
Definition CurrentProcess : Sys positive := asks (fun y => process_ (ker y) (current_thread_ (sch (ker y)))).

(** An operation on the address space [vmas] and physical memory. *)
Definition on_space {A} (vmas : option positive) (f : AddressSpace -> phys -> res (A * AddressSpace * phys)) : Sys A := updates (fun y =>
  a ← deref vmas;
  x ← deref (spaces y !! a);
  '(r, x, m) ← f x (pmem y);
  Ret (r, with_pmem m (with_space a x y))).

(** The physical address of the active page tables. *)
Definition current_cr3 : Sys Z :=
  p ← CurrentProcess;
  x ← get_proc p;
  reads (fun y => a ← deref (vmas_ x); sp ← deref (spaces y !! a); Ret (cr3_ sp)).

Section sys.
(** The offset of the direct map, a kernel constant of the boot loader. *)
Variable hhdm : Z.

(** ** Creating processes and threads *)

(** The constructor [Process::Process()] with [AddressSpace::AddressSpace()]. *)
Definition Process_Create : Sys positive :=
  r ← on_kernel new_lock;
  curr ← current_cr3;
  updates (fun y =>
    '(sp, m) ← AddressSpace_new curr hhdm (pmem y);
    let a := fresh (dom (spaces y)) in
    let proc := mkProcess (gNextId y) (Some a) (Some PROC_RUNNING) (2 ^ 64 - 1) 0 [] in
    let k := with_tables (<[r := CapabilityTable_new]> (tables (ker y))) (ker y) in
    Ret (r, with_next_id (gNextId y [+] 1) (with_proc r proc (with_space a sp (with_pmem m (with_ker k y)))))).

Definition InsertProcess (p : positive) : Sys unit :=
  proc ← get_proc p;
  err ← updates (fun y => '(err, m) ← HashMap.Insert (id_ proc) (Some p) (proc_map_ y); Ret (err, with_proc_map m y));
  PANIC_ON_ERR err.

Definition proc_of_id (pid : Z) : Sys positive := updates (fun y =>
  present ← Contains pid (proc_map_ y);
  if negb present then Panic else
  '(p, m) ← at_ None pid (proc_map_ y);
  p ← deref p;
  Ret (p, with_proc_map m y)).

(** The constructor [Thread::Thread(Process&, uint64_t)]; the frame it writes on the new stack is left out. *)
Definition Thread_new (p : positive) (id : Z) : Sys positive :=
  t ← on_kernel new_lock;
  curr ← current_cr3;
  proc ← get_proc p;
  updates (fun y =>
    '(stack, m, mem) ← AllocateKernelStack curr (kernel_stacks y) (pmem y);
    a ← deref (vmas_ proc);
    _ ← deref (spaces y !! a);
    let k := ker y in
    let k := mkKernel (with_thread t (mkThread CREATED 0) (sch k)) (fun x => if decide (x = t) then p else process_ k x)
               (tables k) (ipc_objects k) (driver_map_ k) (next_ref k) in
    Ret (t, with_info t (mkInfo p id false None None (Some stack)) (with_kstacks m (with_pmem mem (with_ker k y))))).

Definition CreateThread (p : positive) : Sys positive :=
  x ← get_proc p;
  modify (with_proc p (mkProcess (id_ x) (vmas_ x) (pstate_ x) (exit_code_ x) (next_thread_id_ x [+] 1) (threads_ x)));;
  thread ← Thread_new p (next_thread_id_ x);
  x ← get_proc p;
  modify (with_proc p (mkProcess (id_ x) (vmas_ x) (pstate_ x) (exit_code_ x) (next_thread_id_ x) (threads_ x ++ [thread])));;
  mret thread.

Definition GetThread (p : positive) (tid : Z) : Sys positive :=
  x ← get_proc p;
  if Z.of_nat (length (threads_ x)) <=? tid then panic else sys_lift (deref (threads_ x !! Z.to_nat tid)).

(** ** Booting: the root process and the cleanup thread *)

(** The root process uses the tables that are active; [state_] is never set, and the root thread has no stacks of its own. *)
Definition RootProcess (cr3 : Z) : Sys positive :=
  r ← on_kernel new_lock;
  t ← on_kernel new_lock;
  updates (fun y =>
    let a := fresh (dom (spaces y)) in
    let proc := mkProcess 0 (Some a) None (2 ^ 64 - 1) 1 [t] in
    let k := ker y in
    let k := mkKernel (with_thread t (mkThread CREATED 0) (sch k)) (fun x => if decide (x = t) then r else process_ k x)
               (<[r := CapabilityTable_new]> (tables k)) (ipc_objects k) (driver_map_ k) (next_ref k) in
    Ret (r, with_info t (mkInfo r 0 false None None None) (with_proc r proc (with_space a (AddressSpace_ForRoot cr3) (with_ker k y))))).

Definition ProcessManager_Init (cr3 : Z) : Sys unit := p ← RootProcess cr3; InsertProcess p.

(** ** Threads *)
Definition Thread_Start (t : positive) (entry arg1 arg2 : Z) : Sys unit :=
  x ← get_info t;
  modify (with_info t (mkInfo (t_process x) (tid x) (is_kernel_ x) (user_stack_base_ x) (Some (entry, arg1, arg2)) (rsp0_start_ x)));;
  put_state t RUNNABLE;;
  self ← GetThread (t_process x) (tid x);
  on_kernel (on_sched (Enqueue self)).

(** [ProcessManager::InitCleanup]; [entry] and [arg] are the addresses of [CleanupThreadEntry] and of the cleanup object. *)
Definition InitCleanup (entry arg : Z) : Sys unit :=
  p ← proc_of_id 0;
  t ← CreateThread p;
  x ← get_info t;
  modify (with_info t (mkInfo (t_process x) (tid x) true (user_stack_base_ x) (start_ x) (rsp0_start_ x)));;
  Thread_Start t entry arg 0.

(** [Thread::Init] up to the jump to user code: the instruction pointer, the stack pointer and the arguments it jumps with.
    A kernel thread calls its entry point. *)
Definition Thread_Init : Sys (Z * Z * Z * Z) :=
  t ← CurrentThread;
  x ← get_info t;
  '(rip, arg1, arg2) ← sys_lift (deref (start_ x));
  if is_kernel_ x then mret (rip, 0, arg1, 0) else
  proc ← get_proc (t_process x);
  stack_or ← updates (fun y =>
    a ← deref (vmas_ proc);
    sp ← deref (spaces y !! a);
    '(r, objs, sp) ← AllocateUserStack (mem_objects y) sp;
    Ret (r, with_mem_objects objs (with_space a sp y)));
  match stack_or with
  | EErr _ => panic
  | EOk base =>
      modify (with_info t (mkInfo (t_process x) (tid x) (is_kernel_ x) (Some base) (start_ x) (rsp0_start_ x)));;
      mret (rip, base [+] kUserStackSize [-] 8, arg1, arg2)
  end.

(** ** The work of the cleanup thread *)
Definition queue_process (p : positive) : Sys unit :=
  c ← asks cleanup;
  modify (with_cleanup (mkCleanup (semaphore_ c) (thread_list_ c) (ll_PushBack p (process_list_ c))));;
  on_kernel (on_sched (Semaphore_Signal (semaphore_ c))).

Definition queue_thread (t : positive) : Sys unit :=
  c ← asks cleanup;
  modify (with_cleanup (mkCleanup (semaphore_ c) (ll_PushBack t (thread_list_ c)) (process_list_ c)));;
  on_kernel (on_sched (Semaphore_Signal (semaphore_ c))).

(** [ProcessManager::CleanupProcess] and [CleanupThread] *)
Definition CleanupProcess (pid : Z) : Sys unit := p ← proc_of_id pid; queue_process p.
Definition CleanupThread (t : positive) : Sys unit := queue_thread t.

(** [Thread::Exit] by the current thread; it never returns. *)
Definition Thread_Exit : Sys unit :=
  t ← CurrentThread;
  CleanupThread t;;
  put_state t CLEANUP;;
  on_kernel (on_sched Yield);;
  sys_blocked.

(** [while (blocked_threads_.size() != 0)]: each turn wakes one thread. *)
Fixpoint wake_all (n : nat) (t : positive) : Sys unit :=
  match n with
  | O => mret tt
  | S n' => on_kernel (on_sched (wake_first t));; wake_all n' t
  end.

Definition waiters (t : positive) (y : system) : res nat :=
  m ← deref (locks (sch (ker y)) !! t); Ret (length (blocked_threads_ m)).

Definition Thread_Cleanup (t : positive) : Sys unit :=
  curr ← CurrentThread;
  if decide (curr = t) then panic else
  put_state t CLEANUP;;
  x ← get_info t;
  proc ← get_proc (t_process x);
  base ← sys_lift (deref (user_stack_base_ x));
  err ← on_space (vmas_ proc) (FreeUserStack base);
  PANIC_ON_ERR err;;
  n ← reads (waiters t);
  wake_all n t;;
  stack ← sys_lift (deref (rsp0_start_ x));
  modify (fun y => with_kstacks (FreeKernelStack stack (kernel_stacks y)) y);;
  put_state t FINISHED.

(** [Thread::Wait]; what the caller does next runs when the thread is woken. *)
Definition Thread_Wait (t : positive) : Sys unit :=
  st ← get_state t;
  if dying st then mret tt else
  on_kernel (on_sched (block_on t));;
  sys_blocked.

(** ** The end of a process *)
Definition set_pstate (p : positive) (st : ProcState) : Sys unit :=
  x ← get_proc p;
  modify (with_proc p (mkProcess (id_ x) (vmas_ x) (Some st) (exit_code_ x) (next_thread_id_ x) (threads_ x))).

Definition Process_Exit (p : positive) (exit_code : Z) : Sys unit :=
  x ← get_proc p;
  modify (with_proc p (mkProcess (id_ x) (vmas_ x) (Some PROC_CLEANUP) exit_code (next_thread_id_ x) (threads_ x)));;
  on_kernel (on_sched (flag_for_cleanup (threads_ x)));;
  CleanupProcess (id_ x);;
  curr ← CurrentProcess;
  c ← get_proc curr;
  if id_ c =? id_ x then on_kernel (on_sched Yield);; sys_blocked else mret tt.

(** The loop over the threads in [Process::Cleanup]. *)
Fixpoint cleanup_threads (ts : list positive) : Sys unit :=
  match ts with
  | [] => mret tt
  | t :: ts' =>
      st ← get_state t;
      (if bool_decide (st = CLEANUP) then Thread_Cleanup t else mret tt);;
      cleanup_threads ts'
  end.

Definition kUserSpaceMax : Z := 0x0000800000000000.

Definition Process_Cleanup (p : positive) : Sys unit :=
  curr ← CurrentProcess;
  c ← get_proc curr;
  x ← get_proc p;
  if id_ c =? id_ x then panic else
  set_pstate p PROC_CLEANUP;;
  cleanup_threads (threads_ x);;
  updates (fun y =>
    t ← deref (tables (ker y) !! p);
    t ← ReleaseAll t;
    Ret (tt, with_ker (with_tables (<[p := t]> (tables (ker y))) (ker y)) y));;
  err ← on_space (vmas_ x) (FreeAddressRange 0 kUserSpaceMax true);
  PANIC_ON_ERR err;;
  x ← get_proc p;
  modify (with_proc p (mkProcess (id_ x) None (Some PROC_FINISHED) (exit_code_ x) (next_thread_id_ x) (threads_ x))).

(** A turn of the outer loop of [ProcessCleanup::CleanupLoop]: it waits, or it empties both lists, processes first. *)
Fixpoint drain_processes (n : nat) : Sys unit :=
  match n with
  | O => mret tt
  | S n' =>
      c ← asks cleanup;
      '(p, l) ← sys_lift (ll_PopFront (process_list_ c));
      modify (with_cleanup (mkCleanup (semaphore_ c) (thread_list_ c) l));;
      Process_Cleanup p;;
      drain_processes n'
  end.

Fixpoint drain_threads (n : nat) : Sys unit :=
  match n with
  | O => mret tt
  | S n' =>
      c ← asks cleanup;
      '(t, l) ← sys_lift (ll_PopFront (thread_list_ c));
      modify (with_cleanup (mkCleanup (semaphore_ c) l (process_list_ c)));;
      Thread_Cleanup t;;
      drain_threads n'
  end.

Definition CleanupTurn : Sys unit :=
  c ← asks cleanup;
  if ll_empty (process_list_ c) && ll_empty (thread_list_ c) then on_kernel (lock_turn (Semaphore_Wait (semaphore_ c))) else
  drain_processes (length (front_ (process_list_ c)));;
  drain_threads (length (front_ (thread_list_ c))).

(** ** The system calls of zion/syscall/process.cpp *)
Definition process_permissions : Z :=
  Z.lor (Z.lor (Z.lor (Z.lor (Z.lor kZionPerm_Write kZionPerm_Read) kZionPerm_SpawnThread) kZionPerm_SpawnProcess) kZionPerm_Duplicate) kZionPerm_Transmit.
Definition thread_permissions : Z := Z.lor kZionPerm_Read kZionPerm_Write.
Definition space_permissions : Z := Z.lor kZionPerm_Write kZionPerm_Transmit.
Definition memory_permissions : Z := Z.lor (Z.lor (Z.lor kZionPerm_Write kZionPerm_Read) kZionPerm_Duplicate) kZionPerm_Transmit.

(** [curr_proc.AddNewCapability(object)] *)
Definition add_new (t : ObjectType) (perms : Z) (r : positive) : Sys Z := on_kernel (AddNew t perms r).

Definition ProcessExit (code : Z) : Sys unit := p ← CurrentProcess; Process_Exit p code;; panic.

(** [proc->AddExistingCapability(cap)] on another process's table. *)
Definition give (p : positive) (cap : option Capability) : Sys Z := updates (fun y =>
  t ← deref (tables (ker y) !! p);
  '(id, t) ← AddExistingCapability cap t;
  Ret (id, with_ker (with_tables (<[p := t]> (tables (ker y))) (ker y)) y)).

(** The new process, its address space and the bootstrap capability in the new process, when there is one. *)
Definition ProcessSpawn (proc_cap bootstrap_cap : Z) : Sys (Z * Z * option Z) :=
  _ ← on_kernel (validated PROCESS proc_cap kZionPerm_SpawnProcess);
  proc ← Process_Create;
  InsertProcess proc;;
  new_proc_cap ← add_new PROCESS process_permissions proc;
  x ← get_proc proc;
  vmas ← sys_lift (deref (vmas_ x));
  new_vmas_cap ← add_new ADDRESS_SPACE space_permissions vmas;
  if bootstrap_cap =? 0 then mret (new_proc_cap, new_vmas_cap, None) else
  cap ← on_kernel (on_table (GetCapability bootstrap_cap));
  match cap with
  | None => sys_fail CAP_NOT_FOUND
  | Some c =>
      if negb (HasPermissions c kZionPerm_Transmit) then sys_fail CAP_PERMISSION_DENIED else
      released ← on_kernel (on_table (ReleaseCapability bootstrap_cap));
      id ← give proc released;
      mret (new_proc_cap, new_vmas_cap, Some id)
  end.

(** What [ProcessWait] does once the wait is over. *)
Definition ProcessWait_end (proc : positive) : Sys Z := x ← get_proc proc; mret (exit_code_ x).

Definition ProcessWait (proc_cap : Z) : Sys Z :=
  proc ← on_kernel (validated PROCESS proc_cap kZionPerm_Read);
  curr ← CurrentProcess;
  c ← get_proc curr;
  x ← get_proc proc;
  if id_ x =? id_ c then sys_fail INVALID_ARGUMENT else
  t ← GetThread proc 0;
  Thread_Wait t;;
  ProcessWait_end proc.

(** ** The system calls of zion/syscall/thread.cpp *)
Definition IsKernel (addr : Z) : bool := negb (Z.land addr 0xFFFF800000000000 =? 0).

Definition ThreadCreate (proc_cap : Z) : Sys Z :=
  parent_proc ← on_kernel (validated PROCESS proc_cap kZionPerm_SpawnThread);
  thread ← CreateThread parent_proc;
  add_new THREAD thread_permissions thread.

Definition ThreadStart (thread_cap entry arg1 arg2 : Z) : Sys unit :=
  thread ← on_kernel (validated THREAD thread_cap kZionPerm_Write);
  if IsKernel entry || IsKernel arg1 || IsKernel arg2 then sys_fail INVALID_ARGUMENT else
  Thread_Start thread entry arg1 arg2.

Definition ThreadExit : Sys unit := Thread_Exit;; panic.

Definition ThreadWait (thread_cap : Z) : Sys unit :=
  thread ← on_kernel (validated THREAD thread_cap kZionPerm_Read);
  Thread_Wait thread.

Definition ThreadSleep (millis : Z) : Sys unit := on_kernel (on_sched (Sleep millis)).

(** ** The system calls of zion/syscall/memory_object.cpp *)
Definition new_memory_object (o : MemoryObject) : Sys positive := updates (fun y =>
  let r := fresh (dom (mem_objects y)) in
  Ret (r, with_mem_objects (<[r := o]> (mem_objects y)) y)).

Definition MemoryObjectCreate (size : Z) : Sys Z :=
  r ← new_memory_object (VariableMemoryObject_new size);
  add_new MEMORY_OBJECT memory_permissions r.

Definition MemoryObjectCreatePhysical (paddr size : Z) : Sys Z :=
  r ← new_memory_object (ViewMemoryObject size paddr);
  add_new MEMORY_OBJECT memory_permissions r.

Definition MemoryObjectCreateContiguous (size : Z) : Sys (Z * Z) :=
  let num_pages := (size [-] 1) / 0x1000 [+] 1 in
  paddr ← updates (fun y => '(paddr, m) ← AllocateContinuous num_pages (pmem y); Ret (paddr, with_pmem m y));
  r ← new_memory_object (FixedMemoryObject size paddr);
  id ← add_new MEMORY_OBJECT memory_permissions r;
  mret (id, paddr).

Definition MemoryObjectDuplicate (vmmo_cap base_offset length : Z) : Sys Z :=
  cap ← on_kernel (on_table (GetCapability vmmo_cap));
  on_kernel (RET_ERR (ValidateCapability MEMORY_OBJECT cap kZionPerm_Duplicate));;
  c ← sys_lift (deref cap);
  r ← sys_lift (Capability_obj MEMORY_OBJECT c);
  o ← reads (fun y => deref (mem_objects y !! r));
  match Duplicate base_offset length o with
  | EErr e => sys_fail e
  | EOk o' => r' ← new_memory_object o'; add_new MEMORY_OBJECT (permissions_ c) r'
  end.

Definition MemoryObjectInspect (vmmo_cap : Z) : Sys Z :=
  r ← on_kernel (validated MEMORY_OBJECT vmmo_cap kZionPerm_Read);
  reads (fun y => object_size (mem_objects y) r).

(** ** The system calls of zion/syscall/address_space.cpp *)
Definition AddressSpaceMap (vmas_cap vmas_offset vmmo_cap align : Z) : Sys Z :=
  vcap ← on_kernel (on_table (GetCapability vmas_cap));
  mcap ← on_kernel (on_table (GetCapability vmmo_cap));
  on_kernel (RET_ERR (ValidateCapability ADDRESS_SPACE vcap kZionPerm_Write));;
  on_kernel (RET_ERR (ValidateCapability MEMORY_OBJECT mcap kZionPerm_Write));;
  vc ← sys_lift (deref vcap);
  vmas ← sys_lift (Capability_obj ADDRESS_SPACE vc);
  mc ← sys_lift (deref mcap);
  vmmo ← sys_lift (Capability_obj MEMORY_OBJECT mc);
  objs ← asks mem_objects;
  if negb (vmas_offset =? 0) then
    err ← on_space (Some vmas) (fun a m => '(err, a) ← MapInMemoryObjectAt vmas_offset vmmo objs a; Ret (err, a, m));
    on_kernel (RET_ERR err);;
    mret vmas_offset
  else
    r ← on_space (Some vmas) (fun a m => '(r, a) ← MapInMemoryObject vmmo align objs a; Ret (r, a, m));
    match r with EErr e => sys_fail e | EOk vaddr => mret vaddr end.

Definition AddressSpaceUnmap (vmas_cap lower_addr upper_addr : Z) : Sys unit :=
  vmas ← on_kernel (validated ADDRESS_SPACE vmas_cap kZionPerm_Write);
  err ← on_space (Some vmas) (FreeAddressRange lower_addr upper_addr true);
  on_kernel (RET_ERR err).

(** ** The dispatch: the calls of Ipc.v and those of this file *)
Inductive call : Type :=
| ZIpc (e : entry)
| ZProcessExit (code : Z) | ZProcessSpawn (proc_cap bootstrap_cap : Z) | ZProcessWait (proc_cap : Z)
| ZThreadCreate (proc_cap : Z) | ZThreadStart (thread_cap entry arg1 arg2 : Z) | ZThreadExit | ZThreadWait (thread_cap : Z)
| ZAddressSpaceMap (vmas_cap vmas_offset vmmo_cap align : Z) | ZAddressSpaceUnmap (vmas_cap lower_addr upper_addr : Z)
| ZMemoryObjectCreate (size : Z) | ZMemoryObjectCreatePhysical (paddr size : Z) | ZMemoryObjectCreateContiguous (size : Z)
| ZMemoryObjectDuplicate (vmmo_cap base_offset length : Z) | ZMemoryObjectInspect (vmmo_cap : Z)
| ZDebug
| ZUnknown
(* the first run of a thread, the end of a wait, and the cleanup thread *)
| RunInit | ResumeProcessWait (proc : positive) | RunCleanup.

Definition sys_discard {A} (m : Sys A) : Sys unit := m;; mret tt.

Definition handle (c : call) : Sys unit :=
  match c with
  | ZIpc e => on_kernel (SyscallHandler e)
  | ZProcessExit code => ProcessExit code
  | ZProcessSpawn p b => sys_discard (ProcessSpawn p b)
  | ZProcessWait p => sys_discard (ProcessWait p)
  | ZThreadCreate p => sys_discard (ThreadCreate p)
  | ZThreadStart t e a1 a2 => ThreadStart t e a1 a2
  | ZThreadExit => ThreadExit
  | ZThreadWait t => ThreadWait t
  | ZAddressSpaceMap v o m al => sys_discard (AddressSpaceMap v o m al)
  | ZAddressSpaceUnmap v lo hi => AddressSpaceUnmap v lo hi
  | ZMemoryObjectCreate size => sys_discard (MemoryObjectCreate size)
  | ZMemoryObjectCreatePhysical paddr size => sys_discard (MemoryObjectCreatePhysical paddr size)
  | ZMemoryObjectCreateContiguous size => sys_discard (MemoryObjectCreateContiguous size)
  | ZMemoryObjectDuplicate v off len => sys_discard (MemoryObjectDuplicate v off len)
  | ZMemoryObjectInspect v => sys_discard (MemoryObjectInspect v)
  | ZDebug => mret tt
  | ZUnknown => sys_fail UNIMPLEMENTED
  | RunInit => sys_discard Thread_Init
  | ResumeProcessWait p => sys_discard (ProcessWait_end p)
  | RunCleanup => CleanupTurn
  end.
End sys.

(** ** Steps of the monad *)
Section steps.
Context {A B : Type}.

Lemma sys_val (m : Sys A) (f : A -> Sys B) y a y' : m y = Ret (Val a, y') -> (m ≫= f) y = f a y'.
Proof. intros Hm. unfold mbind, Sys_bind. by rewrite Hm. Qed.

Lemma sys_reads (g : system -> res A) (f : A -> Sys B) y a : g y = Ret a -> (reads g ≫= f) y = f a y.
Proof. intros Hg. apply sys_val. unfold reads. by rewrite Hg. Qed.

Lemma sys_updates (g : system -> res (A * system)) (f : A -> Sys B) y a y' : g y = Ret (a, y') -> (updates g ≫= f) y = f a y'.
Proof. intros Hg. apply sys_val. unfold updates. by rewrite Hg. Qed.

Lemma sys_lifted (m : res A) (f : A -> Sys B) y a : m = Ret a -> (sys_lift m ≫= f) y = f a y.
Proof. intros ->. done. Qed.

Lemma sys_kernel (m : K A) (f : A -> Sys B) y a k : m (ker y) = Ret (Val a, k) -> (on_kernel m ≫= f) y = f a (with_ker k y).
Proof. intros Hm. apply sys_val. unfold on_kernel. by rewrite Hm. Qed.
End steps.

Lemma sys_stop {A B} (m : Sys A) (f : A -> Sys B) y y' : m y = Ret (Blocked, y') -> (m ≫= f) y = Ret (Blocked, y').
Proof. intros Hm. unfold mbind, Sys_bind. by rewrite Hm. Qed.

Lemma sys_sched {B} g (f : unit -> Sys B) y s : g (sch (ker y)) = Ret s -> (on_kernel (on_sched g) ≫= f) y = f tt (with_ker (with_sch s (ker y)) y).
Proof. intros Hg. apply sys_kernel. unfold on_sched. by rewrite Hg. Qed.

Lemma put_state_eq t x y z : threads (sch (ker y)) !! t = Some z ->
  put_state t x y = Ret (Val tt, with_ker (with_sch (with_thread t (mkThread x (sleep_ticks_ z)) (sch (ker y))) (ker y)) y).
Proof. intros Hz. unfold put_state, on_kernel, on_sched, get. by rewrite Hz. Qed.

Lemma sys_proc {B} p x (f : Process -> Sys B) y : procs y !! p = Some x -> (get_proc p ≫= f) y = f x y.
Proof. intros Hx. apply sys_reads. by rewrite Hx. Qed.

Lemma sys_info {B} t x (f : ThreadInfo -> Sys B) y : infos y !! t = Some x -> (get_info t ≫= f) y = f x y.
Proof. intros Hx. apply sys_reads. by rewrite Hx. Qed.

Lemma sys_space {A B} a g (f : A -> Sys B) y sp r sp' m' :
  spaces y !! a = Some sp -> g sp (pmem y) = Ret (r, sp', m') -> (on_space (Some a) g ≫= f) y = f r (with_pmem m' (with_space a sp' y)).
Proof. intros Hsp Hg. apply sys_updates. cbn [deref mbind res_bind]. rewrite Hsp. cbn [deref mbind res_bind]. by rewrite Hg. Qed.

Lemma sys_state {B} t x (f : State -> Sys B) y : st (sch (ker y)) t = Some x -> (get_state t ≫= f) y = f x y.
Proof. intros (z & Hg & <- & _)%st_get. apply sys_reads. by rewrite Hg. Qed.

Lemma sys_modify {B} g (f : unit -> Sys B) y : (modify g ≫= f) y = f tt (g y).
Proof. done. Qed.

(** ** The scheduler with threads flagged for cleanup in its queues *)

(** Everything but the states of threads. *)
Definition same_queues (s s' : sched) : Prop :=
  current_thread_ s' = current_thread_ s /\ sleep_thread_ s' = sleep_thread_ s /\ runnable_threads_ s' = runnable_threads_ s /\
  sleeping_threads_ s' = sleeping_threads_ s /\ enabled_ s' = enabled_ s /\ locks s' = locks s.

Definition dead (x : option State) : Prop := x = Some CLEANUP \/ x = Some FINISHED.

#[export] Instance dead_dec x : Decision (dead x).
Proof. apply or_dec; apply _. Defined.

Lemma dying_dead s t x : st s t = Some x -> dying x = bool_decide (dead (st s t)).
Proof. intros ->. by destruct x. Qed.

(** The flags [Process::Exit] leaves. *)
Lemma flag_spec ts : forall s, (forall t, t ∈ ts -> is_Some (threads s !! t)) ->
  exists s', flag_for_cleanup ts s = Ret s' /\ same_queues s s' /\
    forall t, st s' t = if decide (t ∈ ts /\ ~ dead (st s t)) then Some CLEANUP else st s t.
Proof.
  induction ts as [|t ts IH]; intros s Hts.
  { exists s. split; [done|]. split; [done|]. intros t. by rewrite decide_False by set_solver. }
  destruct (Hts t) as [x Hx]; [by left|]. assert (st s t = Some (state_ x)) as Hst by (unfold st; by rewrite Hx).
  assert (exists s1, (x ← get t s; if negb (IsDying x) then SetState t CLEANUP s else Ret s) = Ret s1 /\ same_queues s s1 /\
    (forall t', is_Some (threads s !! t') -> is_Some (threads s1 !! t')) /\
    forall t', st s1 t' = if decide (t' = t /\ ~ dead (st s t)) then Some CLEANUP else st s t') as (s1 & H1 & Hq & Hd & Hs1).
  { unfold get at 1. rewrite Hx. cbn [deref mbind res_bind]. unfold IsDying. fold (dying (state_ x)).
    destruct (dying (state_ x)) eqn:Ed.
    - exists s. split_and!; try done. intros t'. rewrite decide_False; [done|]. intros [_ Hn]. apply Hn.
      rewrite (dying_dead s t _ Hst) in Ed. by apply bool_decide_eq_true in Ed.
    - destruct (SetState_spec t CLEANUP s (state_ x) Hst Ed) as (tk & HS). cbn [negb]. rewrite HS. eexists. split; [done|].
      split; [done|]. split; [intros t' Ht'; cbn; destruct (decide (t = t')) as [->|]; [rewrite lookup_insert_eq; eauto|by rewrite lookup_insert_ne]|].
      intros t'. rewrite st_with_thread. cbn. rewrite (dying_dead s t _ Hst), bool_decide_eq_false in Ed.
      destruct (decide (t' = t)); [rewrite decide_True by done; done|rewrite decide_False by tauto; done]. }
  destruct (IH s1) as (s' & HF & Hq' & Hs'); [intros t' Ht'; apply Hd, Hts; by right|].
  exists s'. split; [|split].
  - unfold flag_for_cleanup in *. cbn [foldl]. rewrite ret_bind, H1. exact HF.
  - unfold same_queues in *. destruct_and!. split_and!; congruence.
  - intros t'. rewrite Hs', Hs1. destruct (decide (t' = t)) as [->|Hne].
    + destruct (decide (dead (st s t))) as [Hdd|Hnd].
      * rewrite (decide_False (P := t = t /\ _)) by tauto. rewrite !decide_False by tauto. done.
      * rewrite (decide_True (P := t = t /\ _)) by done. rewrite decide_False by (intros [_ Hn]; apply Hn; by left).
        rewrite decide_True; [done|]. split; [by left|done].
    + rewrite (decide_False (P := t' = t /\ _)) by tauto. apply decide_ext. set_solver.
Qed.

(** Runnable threads may be flagged while they wait in the queue. *)
Record loose (s : sched) : Prop := {
  lo_enabled : enabled_ s = true;
  lo_run t : t ∈ runnable_threads_ s -> st s t = Some RUNNABLE \/ dead (st s t);
  lo_sleep : st s (sleep_thread_ s) = Some RUNNABLE;
  lo_current : current_thread_ s <> sleep_thread_ s;
}.

Lemma clear_dead_spec s l : (forall t, t ∈ l -> st s t = Some RUNNABLE \/ dead (st s t)) ->
  exists l', clear_dead (threads s) l = Ret l' /\ l' `suffix_of` l /\ forall t, head l' = Some t -> st s t = Some RUNNABLE.
Proof.
  induction l as [|t l IH]; intros Hl; cbn [clear_dead]; [by exists []|].
  assert (exists x, threads s !! t = Some x /\ st s t = Some (state_ x)) as (x & Hx & Hst).
  { destruct (Hl t) as [H|[H|H]]; [by left|..]; unfold st in *; destruct (threads s !! t) as [x|]; try done; by exists x. }
  rewrite Hx. cbn [deref mbind res_bind]. unfold IsDying. fold (dying (state_ x)). rewrite (dying_dead s t _ Hst). case_bool_decide as Hd.
  - destruct IH as (l' & -> & Hsuf & Hh); [intros t' Ht'; apply Hl; by right|]. exists l'. split_and!; [done|by apply suffix_cons_r|done].
  - exists (t :: l). split_and!; [done|done|]. intros t' [= <-]. destruct (Hl t) as [H|H]; [by left|done|done].
Qed.

(** The processor goes to the first runnable thread that is not flagged, or to the idle thread. *)
Lemma Yield_loose s : loose s ->
  exists s', Yield s = Ret s' /\ st s (current_thread_ s') = Some RUNNABLE /\ st s' (current_thread_ s') = Some RUNNING /\
    (forall t, t <> current_thread_ s' -> st s' t = st s t) /\ locks s' = locks s.
Proof.
  intros [He Hr Hsl Hc]. unfold Yield. rewrite He. cbn [negb].
  destruct (clear_dead_spec s _ Hr) as (run & -> & _ & Hh). cbn [mbind res_bind]. rewrite decide_False by done.
  assert (forall t rest, st s t = Some RUNNABLE -> exists s', SwapToCurrent (with_current t (with_runnable rest s)) = Ret s' /\
    st s (current_thread_ s') = Some RUNNABLE /\ st s' (current_thread_ s') = Some RUNNING /\
    (forall t', t' <> current_thread_ s' -> st s' t' = st s t') /\ locks s' = locks s) as Hswap.
  { intros t rest Ht. unfold SwapToCurrent. cbn [current_thread_ with_current]. set (s1 := with_current t _).
    assert (st s1 t = Some RUNNABLE) as Ht1 by exact Ht. destruct (st_get s1 t _ Ht1) as (z & -> & Hz & _). cbn [mbind res_bind]. rewrite Hz.
    rewrite bool_decide_true by done. cbn [negb]. destruct (SetState_spec t RUNNING s1 RUNNABLE Ht1 eq_refl) as (tk & ->).
    eexists. split; [done|]. cbn [current_thread_ with_thread s1 with_current with_runnable locks]. split_and!; [done| | |done].
    - rewrite st_with_thread. by rewrite decide_True.
    - intros t' Hne. rewrite st_with_thread. by rewrite decide_False. }
  destruct run as [|t rest]; apply Hswap; [done|]. by apply Hh.
Qed.

Lemma wake_first_one s o m t rest :
  locks s !! o = Some m -> blocked_threads_ m = t :: rest -> st s t = Some BLOCKED -> current_thread_ s <> sleep_thread_ s ->
  exists tk, wake_first o s = Ret (with_runnable (runnable_threads_ s ++ [t]) (with_thread t (mkThread RUNNABLE tk) (with_lock o (mkLock (lock_ m) rest) s))).
Proof.
  intros Hm Hb Ht Hc. unfold wake_first. rewrite Hm. cbn [deref mbind res_bind]. rewrite Hb.
  destruct (SetState_spec t RUNNABLE (with_lock o (mkLock (lock_ m) rest) s) BLOCKED Ht eq_refl) as (tk & ->). cbn [mbind res_bind].
  exists tk. unfold Enqueue. by rewrite decide_False.
Qed.

(** Signalling the semaphore of the cleanup thread wakes it when it waits. *)
Lemma signal_loose s o m :
  loose s -> locks s !! o = Some m -> (forall t, t ∈ blocked_threads_ m -> st s t = Some BLOCKED) ->
  exists s', Semaphore_Signal o s = Ret s' /\ loose s' /\ current_thread_ s' = current_thread_ s /\
    forall t, st s' t = if decide (head (blocked_threads_ m) = Some t) then Some RUNNABLE else st s t.
Proof.
  intros [He Hr Hsl Hc] Hm Hb. unfold Semaphore_Signal. rewrite Hm. cbn [deref mbind res_bind].
  set (s1 := with_lock o (mkLock (u8 (lock_ m + 1)) (blocked_threads_ m)) s).
  assert (locks s1 !! o = Some (mkLock (u8 (lock_ m + 1)) (blocked_threads_ m))) as Hm1 by (cbn; by rewrite lookup_insert_eq).
  destruct (blocked_threads_ m) as [|t rest] eqn:Eb.
  - unfold wake_first. rewrite Hm1. cbn [deref mbind res_bind blocked_threads_]. exists s1. split; [done|]. split; [by split|]. split; [done|].
    intros t. by rewrite decide_False by done.
  - assert (st s t = Some BLOCKED) as Ht by (apply Hb; by left).
    destruct (wake_first_one s1 o _ t rest Hm1 eq_refl Ht Hc) as (tk & ->). eexists. split; [done|].
    assert (forall t', st (with_runnable (runnable_threads_ s1 ++ [t]) (with_thread t (mkThread RUNNABLE tk)
      (with_lock o (mkLock (lock_ (mkLock (u8 (lock_ m + 1)) (t :: rest))) rest) s1))) t' = if decide (t' = t) then Some RUNNABLE else st s t') as Hst.
    { intros t'. change (st (with_thread t (mkThread RUNNABLE tk) s) t' = if decide (t' = t) then Some RUNNABLE else st s t'). by rewrite st_with_thread. }
    split; [split|split]; [done| | |done|done|].
    + intros t' Ht'. rewrite Hst. case_decide; [by left|]. cbn in Ht'. apply elem_of_app in Ht' as [Ht'| ->%list_elem_of_singleton]; [by apply Hr|done].
    + rewrite Hst. cbn. by case_decide.
    + intros t'. rewrite Hst. cbn. apply decide_ext. naive_solver.
Qed.

(** ** The end of a process *)

(** A process that is entered in the manager's map, with threads that exist. *)
Record proc_known (y : system) (p : positive) (x : Process) : Prop := {
  pk_proc : procs y !! p = Some x;
  pk_map : hm_wf (proc_map_ y);
  pk_id : hm_model (proc_map_ y) !! id_ x = Some (Some p);
  pk_threads t : t ∈ threads_ x -> is_Some (threads (sch (ker y)) !! t);
}.

Lemma proc_of_id_spec {B} y p x (f : positive -> Sys B) : proc_known y p x -> (proc_of_id (id_ x) ≫= f) y = f p y.
Proof.
  intros [_ Hw Hid _]. apply sys_updates. rewrite Contains_spec, Hid by done. cbn [mbind res_bind].
  rewrite bool_decide_true by (by eexists). cbn [negb]. rewrite (at_spec _ None _ (Some p)) by done. cbn. by destruct y.
Qed.

(** Handing a process to the cleanup thread. *)
Lemma CleanupProcess_spec y p x s :
  proc_known y p x -> Semaphore_Signal (semaphore_ (cleanup y)) (sch (ker y)) = Ret s ->
  CleanupProcess (id_ x) y = Ret (Val tt, with_ker (with_sch s (ker y))
    (with_cleanup (mkCleanup (semaphore_ (cleanup y)) (thread_list_ (cleanup y)) (ll_PushBack p (process_list_ (cleanup y)))) y)).
Proof.
  intros Hk HS. unfold CleanupProcess. rewrite (proc_of_id_spec y p x _ Hk). unfold queue_process.
  rewrite (sys_val (asks cleanup) _ y (cleanup y) y) by done. rewrite sys_modify. unfold on_kernel, on_sched. cbn [ker with_cleanup]. by rewrite HS.
Qed.

(** Flagging the threads of a process that the idle thread does not belong to. *)
Lemma flagged_loose s s' (ts : list positive) :
  sched_inv s -> current_thread_ s <> sleep_thread_ s -> sleep_thread_ s ∉ ts -> same_queues s s' ->
  (forall t, st s' t = if decide (t ∈ ts /\ ~ dead (st s t)) then Some CLEANUP else st s t) -> loose s'.
Proof.
  intros [Hq _] Hc Hsl (H1 & H2 & H3 & _ & H5 & _) Hst. split.
  - rewrite H5. apply Hq.
  - intros t. rewrite H3. intros Ht. rewrite Hst. case_decide; [right; by left|left]. by apply (qo_run _ Hq).
  - rewrite H2, Hst, decide_False by tauto. apply (qo_sleep _ Hq). congruence.
  - congruence.
Qed.

(** What [ProcessExit(code)] by a thread of [p] leaves. *)
Record exited (y y' : system) (p : positive) (x : Process) (code : Z) : Prop := {
  ex_proc : procs y' = <[p := mkProcess (id_ x) (vmas_ x) (Some PROC_CLEANUP) code (next_thread_id_ x) (threads_ x)]> (procs y);
  ex_queued : cleanup y' = mkCleanup (semaphore_ (cleanup y)) (thread_list_ (cleanup y)) (ll_PushBack p (process_list_ (cleanup y)));
  ex_threads t : t ∈ threads_ x -> dead (st (sch (ker y')) t);
  ex_others t : t ∉ threads_ x -> dead (st (sch (ker y')) t) <-> dead (st (sch (ker y)) t);
  ex_current : current_thread_ (sch (ker y')) ∉ threads_ x /\ st (sch (ker y')) (current_thread_ (sch (ker y'))) = Some RUNNING;
  ex_caps : tables (ker y') = tables (ker y) /\ ipc_objects (ker y') = ipc_objects (ker y);
}.

Lemma ProcessExit_spec y p x code m :
  process_ (ker y) (current_thread_ (sch (ker y))) = p -> proc_known y p x -> sched_inv (sch (ker y)) ->
  current_thread_ (sch (ker y)) <> sleep_thread_ (sch (ker y)) -> sleep_thread_ (sch (ker y)) ∉ threads_ x ->
  locks (sch (ker y)) !! semaphore_ (cleanup y) = Some m -> (forall t, t ∈ blocked_threads_ m -> t ∉ threads_ x) ->
  exists y', ProcessExit code y = Ret (Blocked, y') /\ exited y y' p x code.
Proof.
  intros Hp Hk Hinv Hc Hsl Hm Hblk. unfold ProcessExit. rewrite (sys_val CurrentProcess _ y p y) by (unfold CurrentProcess, asks; by rewrite Hp).
  unfold Process_Exit. set (s := sch (ker y)) in *.
  destruct (flag_spec (threads_ x) s (pk_threads _ _ _ Hk)) as (s1 & HF & Hq & Hs1).
  pose proof (flagged_loose s s1 _ Hinv Hc Hsl Hq Hs1) as Hloose.
  destruct (qo_blk _ (si_queues _ Hinv) _ _ Hm) as [_ Hbl].
  destruct (signal_loose s1 (semaphore_ (cleanup y)) m Hloose) as (s2 & HS & Hloose2 & Hc2 & Hs2).
  { by destruct Hq as (_ & _ & _ & _ & _ & ->). }
  { intros t Ht. rewrite Hs1, decide_False; [by apply Hbl|]. intros [Hin _]. by eapply Hblk. }
  destruct (Yield_loose s2 Hloose2) as (s3 & HY & Hrun & Hcur & Hs3 & _).
  set (x' := mkProcess (id_ x) (vmas_ x) (Some PROC_CLEANUP) code (next_thread_id_ x) (threads_ x)).
  set (y1 := with_ker (with_sch s1 (ker y)) (with_proc p x' y)). assert (proc_known y1 p x') as Hk1.
  { destruct Hk as [_ Hw Hid Hth]. split; [cbn; by rewrite lookup_insert_eq|done|done|]. intros t Ht. destruct (Hth t Ht) as [z Hz].
    specialize (Hs1 t). unfold st in Hs1. cbn. destruct (threads s1 !! t); [by eexists|]. unfold s in Hs1. rewrite Hz in Hs1. cbn in Hs1. by case_decide. }
  set (c := mkCleanup (semaphore_ (cleanup y)) (thread_list_ (cleanup y)) (ll_PushBack p (process_list_ (cleanup y)))).
  set (y3 := with_ker (with_sch s3 (ker y)) (with_cleanup c (with_proc p x' y))).
  exists y3. split.
  - apply sys_stop. rewrite (sys_proc p x) by apply Hk. rewrite sys_modify. rewrite (sys_sched _ _ (with_proc p x' y) s1) by exact HF. fold y1.
    change (id_ x) with (id_ x'). rewrite (sys_val _ _ y1 _ _ (CleanupProcess_spec y1 p x' s2 Hk1 HS)). set (y2 := with_ker _ _).
    rewrite (sys_val CurrentProcess _ y2 p y2). 2: { unfold CurrentProcess, asks. cbn. do 3 f_equal. rewrite Hc2. destruct Hq as [-> _]. exact Hp. }
    rewrite (sys_proc p x') by (cbn; by rewrite lookup_insert_eq). rewrite Z.eqb_refl. by rewrite (sys_sched _ _ y2 s3) by exact HY.
  - assert (forall t, t ∈ threads_ x -> dead (st s2 t)) as Hdead.
    { intros t Ht. rewrite Hs2, decide_False by (intros Hh; apply (Hblk t); [by apply head_Some_elem_of|done]). rewrite Hs1. case_decide as Hd; [by left|].
      destruct (decide (dead (st s t))); [done|tauto]. }
    assert (forall t, st s2 t = Some RUNNABLE -> t ∉ threads_ x) as Hnot by (intros t Ht Hin; destruct (Hdead t Hin); congruence).
    split; [done|done| | |by split; [apply Hnot|]|done]; cbn [sch ker with_ker with_sch y3]; fold s.
    + intros t Ht. rewrite Hs3; [by apply Hdead|]. intros ->. by apply (Hnot _ Hrun).
    + intros t Ht. destruct (decide (t = current_thread_ s3)) as [->|Hne].
      * rewrite Hcur. split; [by intros [|]|]. intros Hd. rewrite Hs2 in Hrun. case_decide as Hh.
        -- destruct Hd as [Hd|Hd]; rewrite (Hbl _ (head_Some_elem_of _ _ Hh)) in Hd; done.
        -- rewrite Hs1, decide_False in Hrun by tauto. destruct Hd; congruence.
      * rewrite Hs3, Hs2 by done. case_decide as Hh.
        -- rewrite (Hbl _ (head_Some_elem_of _ _ Hh)). split; by intros [|].
        -- by rewrite Hs1, decide_False by tauto.
Qed.

(** A thread that is to be cleaned up: its stacks and the threads that wait for it. *)
Record victim : Type := mkVictim { v_thread : positive; v_base : Z; v_stack : Z; v_waiters : list positive }.

Record ready (y : system) (p : positive) (v : victim) : Prop := {
  rd_state : st (sch (ker y)) (v_thread v) = Some CLEANUP;
  rd_info : exists x, infos y !! v_thread v = Some x /\ t_process x = p /\ user_stack_base_ x = Some (v_base v) /\ rsp0_start_ x = Some (v_stack v);
  rd_wait : exists w, locks (sch (ker y)) !! v_thread v = Some (mkLock w (v_waiters v));
  rd_blocked u : u ∈ v_waiters v -> st (sch (ker y)) u = Some BLOCKED;
}.

(** The scheduler after the threads [ts] were cleaned up and [ws] woken. *)
Record released (s s' : sched) (ts ws : list positive) : Prop := {
  re_current : current_thread_ s' = current_thread_ s;
  re_sleep : sleep_thread_ s' = sleep_thread_ s;
  re_run : runnable_threads_ s' = runnable_threads_ s ++ ws;
  re_state u : st s' u = if decide (u ∈ ts) then Some FINISHED else if decide (u ∈ ws) then Some RUNNABLE else st s u;
  re_locks o : o ∉ ts -> locks s' !! o = locks s !! o;
}.

Lemma wake_all_spec t ws : forall y w,
  locks (sch (ker y)) !! t = Some (mkLock w ws) -> NoDup ws -> (forall u, u ∈ ws -> st (sch (ker y)) u = Some BLOCKED) ->
  current_thread_ (sch (ker y)) <> sleep_thread_ (sch (ker y)) ->
  exists s', wake_all (length ws) t y = Ret (Val tt, with_ker (with_sch s' (ker y)) y) /\
    current_thread_ s' = current_thread_ (sch (ker y)) /\ sleep_thread_ s' = sleep_thread_ (sch (ker y)) /\
    runnable_threads_ s' = runnable_threads_ (sch (ker y)) ++ ws /\
    (forall u, st s' u = if decide (u ∈ ws) then Some RUNNABLE else st (sch (ker y)) u) /\
    (forall o, o <> t -> locks s' !! o = locks (sch (ker y)) !! o).
Proof.
  induction ws as [|u ws IH]; intros y w Hl Hnd Hb Hc; cbn [length wake_all].
  { exists (sch (ker y)). rewrite app_nil_r. split_and!; try done. destruct y as [k]. by destruct k. }
  apply NoDup_cons in Hnd as [Hu Hnd].
  destruct (wake_first_one (sch (ker y)) t _ u ws Hl eq_refl) as (tk & HW); [apply Hb; by left|done|].
  rewrite (sys_sched _ _ y _ HW). set (s1 := with_runnable _ _). set (y1 := with_ker (with_sch s1 (ker y)) y).
  assert (forall z, st s1 z = if decide (z = u) then Some RUNNABLE else st (sch (ker y)) z) as Hs1.
  { intros z. change (st (with_thread u (mkThread RUNNABLE tk) (sch (ker y))) z = if decide (z = u) then Some RUNNABLE else st (sch (ker y)) z). by rewrite st_with_thread. }
  destruct (IH y1 w) as (s' & HR & H1 & H2 & H3 & H4 & H5); [cbn; by rewrite lookup_insert_eq|done| |done|].
  { intros z Hz. change (st s1 z = Some BLOCKED). rewrite Hs1, decide_False by (by intros ->). apply Hb. by right. }
  exists s'. split; [exact HR|]. split; [done|]. split; [done|]. split; [|split].
  - rewrite H3. cbn. by rewrite <- app_assoc.
  - intros z. rewrite H4. change (st (sch (ker y1)) z) with (st s1 z). rewrite Hs1. destruct (decide (z ∈ ws)) as [Hz|Hz].
    + rewrite decide_True; [done|by right].
    + apply decide_ext. set_solver.
  - intros o Ho. rewrite H5 by done. cbn. by rewrite lookup_insert_ne.
Qed.

(** One thread: its stacks go back, its waiters run, it is finished. *)
Lemma Thread_Cleanup_spec y p x a sp sp' m' v :
  ready y p v -> procs y !! p = Some x -> vmas_ x = Some a -> spaces y !! a = Some sp -> NoDup (v_waiters v) ->
  current_thread_ (sch (ker y)) <> v_thread v -> current_thread_ (sch (ker y)) <> sleep_thread_ (sch (ker y)) ->
  FreeUserStack (v_base v) sp (pmem y) = Ret (OK, sp', m') ->
  exists s', Thread_Cleanup (v_thread v) y =
      Ret (Val tt, with_kstacks (FreeKernelStack (v_stack v) (kernel_stacks y)) (with_ker (with_sch s' (ker y)) (with_pmem m' (with_space a sp' y)))) /\
    released (sch (ker y)) s' [v_thread v] (v_waiters v).
Proof.
  intros [Hst (i & Hi & Hip & Hib & Hik) (w & Hw) Hb] Hx Ha Hsp Hnd Hct Hcs HF. set (t := v_thread v) in *. set (s := sch (ker y)) in *.
  unfold Thread_Cleanup. rewrite (sys_val CurrentThread _ y (current_thread_ s) y) by done. rewrite decide_False by done.
  destruct (st_get s t _ Hst) as (z & Hz & Hzs & Hzt). rewrite (sys_val _ _ y _ _ (put_state_eq t CLEANUP y z Hzt)). fold s.
  set (s1 := with_thread t _ s). set (y1 := with_ker _ y). assert (forall u, st s1 u = st s u) as Hs1.
  { intros u. unfold s1. rewrite st_with_thread. case_decide; [by subst|done]. }
  rewrite (sys_info t i) by done. rewrite Hip, (sys_proc p x) by done. rewrite (sys_lifted _ _ y1 (v_base v)) by (by rewrite Hib).
  rewrite Ha, (sys_space a _ _ y1 sp OK sp' m') by done.
  set (y2 := with_pmem _ _). unfold PANIC_ON_ERR at 1. rewrite decide_True by done. rewrite (sys_val (mret tt) _ y2 tt y2) by done.
  rewrite (sys_reads _ _ y2 (length (v_waiters v))) by (unfold waiters; cbn; by rewrite Hw).
  destruct (wake_all_spec t (v_waiters v) y2 w Hw Hnd) as (s2 & HW & H1 & H2 & H3 & H4 & H5); [intros u Hu; change (st s1 u = Some BLOCKED); rewrite Hs1; by apply Hb|done|].
  rewrite (sys_val _ _ y2 _ _ HW). rewrite (sys_lifted _ _ _ (v_stack v)) by (by rewrite Hik). rewrite sys_modify.
  assert (st s2 t = Some CLEANUP) as Hs2.
  { rewrite H4, decide_False; [change (st s1 t = Some CLEANUP); by rewrite Hs1|]. intros Hin. specialize (Hb t Hin). congruence. }
  destruct (st_get s2 t _ Hs2) as (z2 & _ & _ & Hz2). erewrite put_state_eq by exact Hz2.
  exists (with_thread t (mkThread FINISHED (sleep_ticks_ z2)) s2). split; [done|]. split; try done.
  - intros u. rewrite st_with_thread. rewrite (decide_ext (u ∈ [t]) (u = t)) by apply list_elem_of_singleton. case_decide; [done|].
    rewrite H4. change (st (sch (ker y2)) u) with (st s1 u). by rewrite Hs1.
  - intros o Ho. cbn. apply H5. intros ->. apply Ho. by left.
Qed.

(** The stacks of the threads go back to the address space one after the other. *)
Fixpoint free_stacks (bases : list Z) (sp : AddressSpace) (m : phys) : res (AddressSpace * phys) :=
  match bases with
  | [] => Ret (sp, m)
  | b :: bases' => '(err, sp, m) ← FreeUserStack b sp m; if decide (err = OK) then free_stacks bases' sp m else Panic
  end.

Lemma released_refl s : released s s [] [].
Proof. split; try done. by rewrite app_nil_r. Qed.

Lemma released_trans s1 s2 s3 t ts ws1 ws2 :
  released s1 s2 [t] ws1 -> released s2 s3 ts ws2 -> t ∉ ts -> t ∉ ws2 -> released s1 s3 (t :: ts) (ws1 ++ ws2).
Proof.
  intros [H1 H2 H3 H4 H5] [G1 G2 G3 G4 G5] Ht Hw. split; try congruence.
  - by rewrite G3, H3, <- app_assoc.
  - intros u. rewrite G4, H4. repeat case_decide; set_solver.
  - intros o Ho. apply not_elem_of_cons in Ho as [Hn Ho]. rewrite G5 by done. apply H5. set_solver.
Qed.

Lemma filter_ext_in (P Q : positive -> Prop) `{!forall x, Decision (P x)} `{!forall x, Decision (Q x)} (l : list positive) :
  (forall u, u ∈ l -> P u <-> Q u) -> filter P l = filter Q l.
Proof.
  induction l as [|u l IH]; intros Hl; [done|]. assert (P u <-> Q u) as Hu by (apply Hl; by left).
  assert (filter P l = filter Q l) as Hr by (apply IH; intros; apply Hl; by right).
  destruct (decide (P u)); [rewrite !filter_cons_True by tauto|rewrite !filter_cons_False by tauto]; by rewrite Hr.
Qed.

Lemma elem_of_waiters u vs : u ∈ concat (v_waiters <$> vs) <-> exists v, v ∈ vs /\ u ∈ v_waiters v.
Proof. induction vs as [|v vs IH]; cbn; [set_solver|]. rewrite elem_of_app, IH. set_solver. Qed.

Lemma cleanup_threads_spec ts p x a : forall vs y sp sp' m',
  procs y !! p = Some x -> vmas_ x = Some a -> spaces y !! a = Some sp ->
  NoDup ts -> (forall t, t ∈ ts -> dead (st (sch (ker y)) t)) -> v_thread <$> vs = filter (fun t => st (sch (ker y)) t = Some CLEANUP) ts ->
  Forall (ready y p) vs -> NoDup (concat (v_waiters <$> vs)) ->
  current_thread_ (sch (ker y)) ∉ ts -> current_thread_ (sch (ker y)) <> sleep_thread_ (sch (ker y)) ->
  free_stacks (v_base <$> vs) sp (pmem y) = Ret (sp', m') ->
  exists s', cleanup_threads ts y =
      Ret (Val tt, with_kstacks (foldl (fun k v => FreeKernelStack (v_stack v) k) (kernel_stacks y) vs)
                     (with_ker (with_sch s' (ker y)) (with_pmem m' (with_space a sp' y)))) /\
    released (sch (ker y)) s' (v_thread <$> vs) (concat (v_waiters <$> vs)).
Proof.
  induction ts as [|t ts IH]; intros vs y sp sp' m' Hx Ha Hsp Hnd Hdead Hvs Hrd Hws Hct Hcs HF; cbn [cleanup_threads].
  { cbn in Hvs. apply fmap_nil_inv in Hvs as ->. cbn in HF |- *. injection HF as <- <-. exists (sch (ker y)). split; [|apply released_refl].
    destruct y as [k]. cbn in *. unfold with_kstacks, with_ker, with_sch, with_pmem, with_space. cbn. rewrite insert_id by done. by destruct k. }
  apply NoDup_cons in Hnd as [Htn Hnd]. apply not_elem_of_cons in Hct as [Hct1 Hct2].
  destruct (Hdead t) as [Hst|Hst]; [by left|..].
  - rewrite filter_cons_True in Hvs by done. destruct vs as [|v vs]; [done|]. injection Hvs as Hv Hvs. subst t. change (v_thread <$> vs = filter (fun t => st (sch (ker y)) t = Some CLEANUP) ts) in Hvs.
    apply Forall_cons in Hrd as [Hrv Hrd]. cbn [fmap list_fmap concat] in Hws. apply NoDup_app in Hws as (Hws1 & Hdis & Hws2).
    cbn [fmap list_fmap free_stacks] in HF. apply bind_Ret in HF as ([[err sp1] m1] & HF1 & HF). case_decide as Hok; [|done]. subst err.
    destruct (Thread_Cleanup_spec y p x a sp sp1 m1 v) as (s1 & HC & HR); [done..|].
    rewrite (sys_state _ _ _ _ Hst). rewrite bool_decide_true by done. rewrite (sys_val _ _ y _ _ HC). set (y1 := with_kstacks _ _).
    assert (forall u, st s1 u = if decide (u = v_thread v) then Some FINISHED else if decide (u ∈ v_waiters v) then Some RUNNABLE else st (sch (ker y)) u) as Hs1.
    { intros u. rewrite (re_state _ _ _ _ HR). rewrite (decide_ext (u ∈ [v_thread v]) (u = v_thread v)) by apply list_elem_of_singleton. done. }
    assert (forall u, u ∈ ts -> st s1 u = st (sch (ker y)) u) as Hts.
    { intros u Hu. rewrite Hs1, !decide_False; [done| |by intros ->]. intros Hin. pose proof (rd_blocked _ _ _ Hrv u Hin) as Hbl.
      destruct (Hdead u) as [E|E]; [by right| |]; rewrite E in Hbl; done. }
    destruct (IH vs y1 sp1 sp' m') as (s' & HC2 & HR2); try done.
    + cbn. by rewrite lookup_insert_eq.
    + intros u Hu. change (dead (st s1 u)). rewrite Hts by done. apply Hdead. by right.
    + rewrite Hvs. apply filter_ext_in. intros u Hu. change (st (sch (ker y1)) u) with (st s1 u). by rewrite Hts.
    + apply Forall_forall. intros v' Hv'. assert (v_thread v' ∈ ts) as Hin.
      { assert (v_thread v' ∈ v_thread <$> vs) as Hm by (by apply list_elem_of_fmap_2). rewrite Hvs in Hm. by apply list_elem_of_filter in Hm as [_ ?]. }
      rewrite Forall_forall in Hrd. destruct (Hrd v' Hv') as [R1 R2 (w & R3) R4]. split; [change (st s1 (v_thread v') = Some CLEANUP); by rewrite Hts|done| |].
      * exists w. change (locks s1 !! v_thread v' = Some (mkLock w (v_waiters v'))). rewrite (re_locks _ _ _ _ HR); [done|].
        intros E%list_elem_of_singleton. congruence.
      * intros u Hu. change (st s1 u = Some BLOCKED). rewrite Hs1, !decide_False; [by apply R4| |].
        -- intros Hu'. apply (Hdis u Hu'). apply elem_of_waiters. by exists v'.
        -- intros ->. specialize (R4 _ Hu). congruence.
    + change (current_thread_ s1 ∉ ts). by rewrite (re_current _ _ _ _ HR).
    + change (current_thread_ s1 <> sleep_thread_ s1). by rewrite (re_current _ _ _ _ HR), (re_sleep _ _ _ _ HR).
    + exists s'. split.
      * rewrite HC2. cbn. unfold with_kstacks, with_ker, with_sch, with_pmem, with_space. cbn. by rewrite insert_insert_eq.
      * cbn [fmap list_fmap concat]. apply (released_trans _ s1); [done|done| |].
        -- rewrite Hvs. intros [_ Hin]%list_elem_of_filter. done.
        -- intros Hin. apply elem_of_waiters in Hin as (v' & Hv' & Hl).
           rewrite Forall_forall in Hrd. pose proof (rd_blocked _ _ _ (Hrd v' Hv') _ Hl). congruence.
  - rewrite filter_cons_False in Hvs by congruence. rewrite (sys_state _ _ _ _ Hst).
    rewrite bool_decide_false by done. rewrite (sys_val (mret tt) _ y tt y) by done. apply (IH vs y sp); try done. intros u Hu. apply Hdead. by right.
Qed.

(** *** Freeing the memory of the process *)

(** Pages unmapped with a stack: those of its range and the one its end is in. *)
Definition in_stack (v b : Z) : Prop := b <= v /\ v / kPageSize <= (b + kUserStackSize) / kPageSize.

#[export] Instance in_stack_dec v b : Decision (in_stack v b).
Proof. apply and_dec; apply _. Defined.

Definition stack_ok (m : gmap Z MemoryMapping) (b : Z) : Prop :=
  0 <= b /\ b mod kPageSize = 0 /\ b + kUserStackSize <= 2 ^ 48 - kPageSize /\ ~ straddles m b (b + kUserStackSize).

Lemma straddles_subseteq m m' lo hi : m' ⊆ m -> straddles m' lo hi -> straddles m lo hi.
Proof. intros Hs (a & x & Hx & H). exists a, x. split; [by eapply lookup_weaken|done]. Qed.

Lemma free_stacks_spec k objs bases : forall sp s m,
  tables_wf k (cr3_ sp) s -> tree_wf objs (mapping_tree_ sp) m -> Forall (stack_ok m) bases ->
  exists sp' s' m', free_stacks bases sp s = Ret (sp', s') /\ cr3_ sp' = cr3_ sp /\ tables_wf k (cr3_ sp) s' /\ tree_wf objs (mapping_tree_ sp') m' /\ m' ⊆ m /\
    user_stacks_ sp' = foldl (fun u b => Usm_FreeUserStack b u) (user_stacks_ sp) bases /\
    forall v, 0 <= v < 2 ^ 48 -> PagePhysIfResident (cr3_ sp) v (words s') = if decide (Exists (in_stack v) bases) then 0 else PagePhysIfResident (cr3_ sp) v (words s).
Proof.
  induction bases as [|b bases IH]; intros sp s m Hwf Ht Hok; cbn [free_stacks].
  { exists sp, s, m. by split_and!. }
  apply Forall_cons in Hok as [(Hb & Hal & Hlim & Hns) Hok]. assert (b [+] kUserStackSize = b + kUserStackSize) as Hadd by (apply u64_small; unfold kUserStackSize, kPageSize in *; lia).
  destruct (FreeMemoryRange_spec objs (mapping_tree_ sp) m b (b + kUserStackSize) Ht) as [[H _]|[(_ & H & _)|(_ & _ & t1 & m1 & HF & Ht1 & Hs1 & _)]]; [unfold kUserStackSize in H; lia|done|].
  destruct (FreeAddressRange_translations k sp s m objs b (b + kUserStackSize) t1 Hwf Ht Hb Hal ltac:(unfold kUserStackSize; lia) Hlim HF) as [_ (s1 & HA & Hwf1 & Hv1)].
  unfold FreeUserStack. rewrite Hadd, HA, ret_bind, bool_decide_true by done. cbn [negb]. rewrite ret_bind, decide_True by done.
  set (sp1 := with_stacks (with_tree sp t1) (Usm_FreeUserStack b (user_stacks_ (with_tree sp t1)))).
  destruct (IH sp1 s1 m1 Hwf1 Ht1) as (sp' & s' & m' & HFS & Hcr & Hwf' & Ht' & Hs' & Hus & Hv').
  { eapply Forall_impl; [exact Hok|]. intros b' (H1 & H2 & H3 & H4). split_and!; try done. intros Hst. apply H4. by eapply straddles_subseteq. }
  exists sp', s', m'. split_and!; try done; [by etrans|]. intros v Hv. change (cr3_ sp1) with (cr3_ sp) in Hv'. rewrite (Hv' v Hv), (Hv1 v Hv).
  rewrite (decide_ext (Exists (in_stack v) (b :: bases)) (in_stack v b \/ Exists (in_stack v) bases)) by apply Exists_cons. change (b <= v /\ v / kPageSize <= (b + kUserStackSize) / kPageSize) with (in_stack v b). repeat case_decide; naive_solver.
Qed.

(** What is left of an address space [sp], with the mappings [m], when the process is cleaned up. *)
Record memory_freed (objs : objects) (k : nat) (sp sp' : AddressSpace) (m : gmap Z MemoryMapping) (s s' : phys) (bases : list Z) : Prop := {
  mf_mappings : exists m', tree_wf objs (mapping_tree_ sp') m' /\ m' ⊆ m /\ forall v x, m' !! v = Some x -> kUserSpaceMax <= v;
  mf_stacks : user_stacks_ sp' = foldl (fun u b => Usm_FreeUserStack b u) (user_stacks_ sp) bases;
  mf_tables : cr3_ sp' = cr3_ sp /\ tables_wf k (cr3_ sp) s';
  mf_pages v : 0 <= v < 2 ^ 48 -> PagePhysIfResident (cr3_ sp) v (words s') = if decide (Exists (in_stack v) bases) then 0 else PagePhysIfResident (cr3_ sp) v (words s);
}.

Lemma free_memory_spec k objs bases sp s m :
  tables_wf k (cr3_ sp) s -> tree_wf objs (mapping_tree_ sp) m -> Forall (stack_ok m) bases -> ~ straddles m 0 kUserSpaceMax ->
  exists sp1 s' sp', free_stacks bases sp s = Ret (sp1, s') /\ FreeAddressRange 0 kUserSpaceMax true sp1 s' = Ret (OK, sp', s') /\ memory_freed objs k sp sp' m s s' bases.
Proof.
  intros Hwf Ht Hok Hns. destruct (free_stacks_spec k objs bases sp s m Hwf Ht Hok) as (sp1 & s1 & m1 & HF & Hcr & Hwf1 & Ht1 & Hs1 & Hus & Hv1).
  destruct (FreeMemoryRange_spec objs (mapping_tree_ sp1) m1 0 kUserSpaceMax Ht1) as [[H _]|[(_ & H & _)|(_ & _ & t2 & m2 & HF2 & Ht2 & Hs2 & Hm2)]];
    [unfold kUserSpaceMax in H; lia|by destruct Hns; eapply straddles_subseteq|].
  exists sp1, s1, (with_tree sp1 t2). split; [done|]. split; [unfold FreeAddressRange; rewrite HF2, ret_bind; by rewrite bool_decide_true|]. split; try done.
  exists m2. split; [done|]. split; [by etrans|]. intros v x Hx. destruct (Hm2 v x Hx) as [[_ Hv]|]; [|done].
  destruct (mw_ok _ _ (proj2 Ht2) v x Hx) as [H0 _]. lia.
Qed.

Lemma ready_same y y' p v : ker y' = ker y -> infos y' = infos y -> ready y p v -> ready y' p v.
Proof. intros Hk Hi [H1 H2 H3 H4]. split; by rewrite ?Hk, ?Hi. Qed.

(** What [Process::Cleanup] of [p] leaves: nothing of the process but its entry and its exit code. *)
Record cleaned (y y' : system) (p : positive) (x : Process) (a : positive) (vs : list victim) (k : nat) (sp : AddressSpace) (m : gmap Z MemoryMapping) : Prop := {
  cl_proc : procs y' = <[p := mkProcess (id_ x) None (Some PROC_FINISHED) (exit_code_ x) (next_thread_id_ x) (threads_ x)]> (procs y);
  cl_threads t : t ∈ threads_ x -> st (sch (ker y')) t = Some FINISHED;
  cl_waiters u : u ∈ concat (v_waiters <$> vs) -> st (sch (ker y')) u = Some RUNNABLE /\ u ∈ runnable_threads_ (sch (ker y'));
  cl_others u : u ∉ threads_ x -> u ∉ concat (v_waiters <$> vs) -> st (sch (ker y')) u = st (sch (ker y)) u;
  cl_current : current_thread_ (sch (ker y')) = current_thread_ (sch (ker y));
  cl_caps : exists t', tables (ker y') = <[p := t']> (tables (ker y)) /\ caps t' = ∅;
  cl_stacks : kernel_stacks y' = foldl (fun k v => FreeKernelStack (v_stack v) k) (kernel_stacks y) vs;
  cl_memory : exists sp', spaces y' = <[a := sp']> (spaces y) /\ memory_freed (mem_objects y) k sp sp' m (pmem y) (pmem y') (v_base <$> vs);
  cl_infos : infos y' = infos y /\ cleanup y' = cleanup y /\ proc_map_ y' = proc_map_ y;
}.

(** A process whose threads are all flagged, ready to be cleaned up by the current thread. *)
Record cleanable (y : system) (p : positive) (x : Process) (a : positive) (vs : list victim) (k : nat) (sp : AddressSpace) (m : gmap Z MemoryMapping) : Prop := {
  ca_proc : procs y !! p = Some x /\ vmas_ x = Some a;
  ca_current : exists c, procs y !! process_ (ker y) (current_thread_ (sch (ker y))) = Some c /\ id_ c <> id_ x;
  ca_idle : current_thread_ (sch (ker y)) ∉ threads_ x /\ current_thread_ (sch (ker y)) <> sleep_thread_ (sch (ker y));
  ca_threads : NoDup (threads_ x) /\ forall t, t ∈ threads_ x -> dead (st (sch (ker y)) t);
  ca_victims : v_thread <$> vs = filter (fun t => st (sch (ker y)) t = Some CLEANUP) (threads_ x) /\ Forall (ready y p) vs;
  ca_waiters : NoDup (concat (v_waiters <$> vs));
  ca_table : exists t, tables (ker y) !! p = Some t /\ table_wf t /\ hm_data (capabilities_ t) <> [];
  ca_space : spaces y !! a = Some sp /\ tables_wf k (cr3_ sp) (pmem y) /\ tree_wf (mem_objects y) (mapping_tree_ sp) m;
  ca_ranges : Forall (stack_ok m) (v_base <$> vs) /\ ~ straddles m 0 kUserSpaceMax;
}.

Lemma Process_Cleanup_spec y p x a vs k sp m : cleanable y p x a vs k sp m -> exists y', Process_Cleanup p y = Ret (Val tt, y') /\ cleaned y y' p x a vs k sp m.
Proof.
  intros [[Hx Ha] (c & Hc & Hid) [Hct Hcs] [Hnd Hdead] [Hvs Hrd] Hws (t & Ht & Htw & Htd) (Hsp & Hpt & Htree) [Hst Hns]].
  destruct (free_memory_spec k (mem_objects y) (v_base <$> vs) sp (pmem y) m Hpt Htree Hst Hns) as (sp1 & m1 & sp2 & HF & HFA & Hfree). set (m2 := m1) in HFA.
  unfold Process_Cleanup. rewrite (sys_val CurrentProcess _ y (process_ (ker y) (current_thread_ (sch (ker y)))) y) by done.
  rewrite (sys_proc _ c) by done. rewrite (sys_proc p x) by done. rewrite (proj2 (Z.eqb_neq _ _) Hid).
  set (x1 := mkProcess (id_ x) (vmas_ x) (Some PROC_CLEANUP) (exit_code_ x) (next_thread_id_ x) (threads_ x)). set (y1 := with_proc p x1 y).
  rewrite (sys_val (set_pstate p PROC_CLEANUP) _ y tt y1) by (unfold set_pstate; by rewrite (sys_proc p x)).
  destruct (cleanup_threads_spec (threads_ x) p x1 a vs y1 sp sp1 m1) as (s' & HC & HR); try done.
  { cbn. by rewrite lookup_insert_eq. }
  { eapply Forall_impl; [exact Hrd|]. intros v. by apply ready_same. }
  rewrite (sys_val _ _ y1 _ _ HC). set (y2 := with_kstacks _ _). destruct (proj1 (ReleaseAll_empties_or_faults t Htw) Htd) as (t' & HRA & Hempty).
  set (y3 := with_ker (with_tables (<[p := t']> (tables (ker y2))) (ker y2)) y2).
  rewrite (sys_updates _ _ y2 tt y3) by (cbn [ker tables with_sch with_ker with_kstacks y2 y1 with_proc with_pmem with_space]; rewrite Ht; cbn [deref mbind res_bind]; by rewrite HRA).
  rewrite Ha, (sys_space a _ _ y3 sp1 OK sp2 m2) by (first [exact HFA|cbn; by rewrite lookup_insert_eq]).
  unfold PANIC_ON_ERR. rewrite decide_True by done. match goal with |- context [(mret tt ≫= _) ?z] => set (y4 := z); rewrite (sys_val (mret tt) _ z tt z) by done end.
  rewrite (sys_proc p x1) by (cbn; by rewrite lookup_insert_eq). eexists. split; [done|]. destruct HR as [R1 R2 R3 R4 R5].
  change (sch (ker y1)) with (sch (ker y)) in *. split; cbn [procs with_proc y4 y3 y2 y1 with_pmem with_space with_ker with_kstacks ker sch with_tables with_sch].
  - by rewrite insert_insert_eq.
  - intros u Hu. rewrite R4. case_decide as Hin; [done|]. destruct (Hdead u Hu) as [E|E].
    + destruct Hin. rewrite Hvs. by apply list_elem_of_filter.
    + rewrite decide_False; [done|]. intros (v & Hv & Hw)%elem_of_waiters. rewrite Forall_forall in Hrd. pose proof (rd_blocked _ _ _ (Hrd v Hv) u Hw). congruence.
  - intros u Hu. rewrite R4, R3. rewrite decide_False, decide_True by (first [done|rewrite Hvs; intros [E _]%list_elem_of_filter;
      apply elem_of_waiters in Hu as (v & Hv & Hw); rewrite Forall_forall in Hrd; pose proof (rd_blocked _ _ _ (Hrd v Hv) u Hw); congruence]).
    split; [done|]. set_solver.
  - intros u Hu Hw. rewrite R4, !decide_False; [done|done|]. rewrite Hvs. by intros [_ ?]%list_elem_of_filter.
  - done.
  - by exists t'.
  - done.
  - exists sp2. split; [|exact Hfree]. change (<[a := sp2]> (<[a := sp1]> (spaces y)) = <[a := sp2]> (spaces y)). by rewrite insert_insert_eq.
  - done.
Qed.

(** ** Spawning a process *)
Lemma add_new_spec ty perms r y t :
  tables (ker y) !! cur (ker y) = Some t -> table_wf t -> next_cap_id_ t < 2 ^ 55 - 1 ->
  exists t', add_new ty perms r y = Ret (Val (next_cap_id_ t), with_ker (with_tables (<[cur (ker y) := t']> (tables (ker y))) (ker y)) y) /\
    table_wf t' /\ next_cap_id_ t' = next_cap_id_ t + 1 /\ caps t' = <[next_cap_id_ t := Some (mkCap (mkObj ty r) perms)]> (caps t).
Proof.
  intros Ht Hw Hn. destruct (AddExisting_spec t (mkCap (mkObj ty r) perms) Hw Hn) as (t' & HA & Hw' & Hn' & Hc). exists t'. split; [|done].
  unfold add_new, on_kernel, AddNew. by rewrite (on_table_Ret (AddNewCapability (mkObj ty r) perms) (ker y) t _ t' Ht HA).
Qed.

(** The caller's table with the capabilities to the new process and its address space. *)
Definition with_new_caps (t : CapabilityTable) (r a : positive) : gmap Z (option Capability) :=
  <[next_cap_id_ t + 1 := Some (mkCap (mkObj ADDRESS_SPACE a) space_permissions)]> (<[next_cap_id_ t := Some (mkCap (mkObj PROCESS r) process_permissions)]> (caps t)).

(** The result of the call, the caller's capabilities and the new process's. *)
Definition spawn_result (n b : Z) (cs : gmap Z (option Capability)) : outcome (Z * Z * option Z) * gmap Z (option Capability) * gmap Z (option Capability) :=
  if b =? 0 then (Val (n, n + 1, None), cs, ∅) else
  match default None (cs !! b) with
  | None => (Err CAP_NOT_FOUND, cs, ∅)
  | Some c => if HasPermissions c kZionPerm_Transmit then (Val (n, n + 1, Some 0x100), delete b cs, {[0x100 := Some c]})
              else (Err CAP_PERMISSION_DENIED, cs, ∅)
  end.

Lemma CapabilityTable_new_caps : caps CapabilityTable_new = ∅.
Proof. unfold caps. cbn. apply hm_new_model. Qed.

(** The end of [ProcessSpawn]: handing over the bootstrap capability. *)
Lemma bootstrap_spec y p t r b n :
  cur (ker y) = p -> tables (ker y) !! p = Some t -> table_wf t -> p <> r -> tables (ker y) !! r = Some CapabilityTable_new ->
  exists o y' t1 tn,
    (if b =? 0 then mret (n, n + 1, None) else
     cap ← on_kernel (on_table (GetCapability b));
     match cap with
     | None => sys_fail CAP_NOT_FOUND
     | Some c =>
         if negb (HasPermissions c kZionPerm_Transmit) then sys_fail CAP_PERMISSION_DENIED else
         released ← on_kernel (on_table (ReleaseCapability b));
         id ← give r released;
         mret (n, n + 1, Some id)
     end) y = Ret (o, y') /\
    y' = with_ker (with_tables (<[r := tn]> (<[p := t1]> (tables (ker y)))) (ker y)) y /\ (o, caps t1, caps tn) = spawn_result n b (caps t).
Proof.
  intros Hp Ht Hw Hne Hr. unfold spawn_result.
  assert (with_ker (with_tables (<[r := CapabilityTable_new]> (<[p := t]> (tables (ker y)))) (ker y)) y = y) as Hid.
  { rewrite !insert_id by (rewrite ?lookup_insert_ne; done). destruct y as [k]. by destruct k. }
  assert (forall o, Ret (o, y) = Ret (o, y) /\ y = with_ker (with_tables (<[r := CapabilityTable_new]> (<[p := t]> (tables (ker y)))) (ker y)) y) as Hno
    by (intros; by rewrite Hid).
  destruct (Z.eqb_spec b 0).
  { exists (Val (n, n + 1, None)), y, t, CapabilityTable_new. rewrite CapabilityTable_new_caps. by split_and!. }
  rewrite (sys_kernel _ _ y (default None (caps t !! b)) (ker y)) by (apply on_table_Get; [by rewrite Hp|done]).
  assert (with_ker (ker y) y = y) as -> by (by destruct y). destruct (default None (caps t !! b)) as [c|] eqn:Ec.
  2: { exists (Err CAP_NOT_FOUND), y, t, CapabilityTable_new. rewrite CapabilityTable_new_caps. by split_and!. }
  destruct (HasPermissions c kZionPerm_Transmit) eqn:Eh; cbn [negb].
  2: { exists (Err CAP_PERMISSION_DENIED), y, t, CapabilityTable_new. rewrite CapabilityTable_new_caps. by split_and!. }
  destruct (ReleaseCapability_spec t b Hw) as (t1 & HR & Hw1 & Hc1 & _). rewrite Ec in HR.
  rewrite (sys_kernel _ _ y (Some c) _ (on_table_Ret _ (ker y) t (Some c) t1 ltac:(by rewrite Hp) HR)). rewrite Hp. set (y1 := with_ker _ y).
  destruct (AddExisting_spec CapabilityTable_new c CapabilityTable_new_wf ltac:(done)) as (tn & HA & _ & _ & Hcn).
  unfold give. rewrite (sys_updates _ _ y1 0x100 (with_ker (with_tables (<[r := tn]> (tables (ker y1))) (ker y1)) y1)).
  2: { cbn [tables ker y1 with_ker with_tables]. rewrite lookup_insert_ne, Hr by done. cbn [deref mbind res_bind]. by rewrite HA. }
  exists (Val (n, n + 1, Some 0x100)). do 3 eexists. split; [done|]. split; [reflexivity|]. by rewrite Hc1, Hcn, CapabilityTable_new_caps.
Qed.

Record spawned (y y' : system) (sp : AddressSpace) (t t1 tn : CapabilityTable) : Prop := {
  sw_tables : tables (ker y') = <[next_ref (ker y) := tn]> (<[cur (ker y) := t1]> (tables (ker y)));
  sw_procs : procs y' = <[next_ref (ker y) := mkProcess (gNextId y) (Some (fresh (dom (spaces y)))) (Some PROC_RUNNING) (2 ^ 64 - 1) 0 []]> (procs y);
  sw_spaces : spaces y' = <[fresh (dom (spaces y)) := sp]> (spaces y);
  sw_map : hm_wf (proc_map_ y') /\ hm_model (proc_map_ y') = <[gNextId y := Some (next_ref (ker y))]> (hm_model (proc_map_ y));
  sw_threads : threads (sch (ker y')) = threads (sch (ker y)) /\ same_queues (with_lock (next_ref (ker y)) (mkLock 0 []) (sch (ker y))) (sch (ker y'));
  sw_rest : infos y' = infos y /\ mem_objects y' = mem_objects y /\ ipc_objects (ker y') = ipc_objects (ker y) /\ cleanup y' = cleanup y;
}.

(** A permission of one bit is held or not. *)
Lemma one_permission c : HasPermissions c kZionPerm_SpawnProcess = negb (Z.land (permissions_ c) kZionPerm_SpawnProcess =? 0).
Proof.
  unfold HasPermissions, kZionPerm_SpawnProcess. change 0x100 with (2 ^ 8). replace (Z.land (permissions_ c) (2 ^ 8)) with (if Z.testbit (permissions_ c) 8 then 2 ^ 8 else 0).
  - destruct (Z.testbit (permissions_ c) 8); by vm_compute.
  - apply Z.bits_inj'. intros n Hn. rewrite Z.land_spec, Z.pow2_bits_eqb by lia. destruct (Z.eqb_spec 8 n) as [<-|Hne]; [rewrite andb_true_r|rewrite andb_false_r].
    + destruct (Z.testbit (permissions_ c) 8); by vm_compute.
    + destruct (Z.testbit (permissions_ c) 8); [|apply Z.bits_0]. rewrite Z.pow2_bits_eqb by lia. by apply Z.eqb_neq.
Qed.

Lemma ProcessSpawn_spec hhdm y proc_cap b o t c0 a0 sp0 sp m :
  holds_cap (ker y) proc_cap PROCESS o kZionPerm_SpawnProcess ->
  tables (ker y) !! cur (ker y) = Some t -> table_wf t -> next_cap_id_ t + 2 < 2 ^ 55 -> tables (ker y) !! next_ref (ker y) = None ->
  procs y !! cur (ker y) = Some c0 -> vmas_ c0 = Some a0 -> spaces y !! a0 = Some sp0 ->
  AddressSpace_new (cr3_ sp0) hhdm (pmem y) = Ret (sp, m) ->
  hm_wf (proc_map_ y) -> hm_size (proc_map_ y) < 2 ^ 56 - 1 -> hm_model (proc_map_ y) !! gNextId y = None ->
  exists o y' t1 tn, ProcessSpawn hhdm proc_cap b y = Ret (o, y') /\ spawned y y' sp t t1 tn /\
    (o, caps t1, caps tn) = spawn_result (next_cap_id_ t) b (with_new_caps t (next_ref (ker y)) (fresh (dom (spaces y)))).
Proof.
  intros Hcap Ht Hw Hn Hfr Hc0 Ha0 Hsp0 Hnew Hpm Hps Hpi. set (r := next_ref (ker y)) in *. set (a := fresh (dom (spaces y))).
  assert (cur (ker y) <> r) as Hpr by congruence.
  unfold ProcessSpawn. rewrite (sys_kernel _ _ y o (ker y)) by (by apply validated_table with t). assert (with_ker (ker y) y = y) as -> by (by destruct y).
  set (proc := mkProcess (gNextId y) (Some a) (Some PROC_RUNNING) (2 ^ 64 - 1) 0 []).
  set (k1 := mkKernel (with_lock r (mkLock 0 []) (sch (ker y))) (process_ (ker y)) (<[r := CapabilityTable_new]> (tables (ker y))) (ipc_objects (ker y)) (driver_map_ (ker y)) (Pos.succ r)).
  set (y1 := with_next_id (gNextId y [+] 1) (with_proc r proc (with_space a sp (with_pmem m (with_ker k1 y))))).
  rewrite (sys_val (Process_Create hhdm) _ y r y1).
  2: { unfold Process_Create. rewrite (sys_kernel new_lock _ y r (mkKernel (with_lock r (mkLock 0 []) (sch (ker y))) (process_ (ker y)) (tables (ker y))
         (ipc_objects (ker y)) (driver_map_ (ker y)) (Pos.succ r))) by done.
       set (y0 := with_ker _ y). rewrite (sys_val current_cr3 _ y0 (cr3_ sp0) y0).
       2: { unfold current_cr3. rewrite (sys_val CurrentProcess _ y0 (cur (ker y)) y0) by done. rewrite (sys_proc _ c0) by done. unfold reads. rewrite Ha0. cbn. by rewrite Hsp0. }
       unfold updates. cbn [pmem y0 with_ker]. by rewrite Hnew. }
  destruct (Insert_spec (proc_map_ y) (gNextId y) (Some r) Hpm Hps) as (pm & Hpmw & HI & _). rewrite Hpi in HI. destruct HI as [HI Hmod].
  set (y2 := with_proc_map pm y1). rewrite (sys_val (InsertProcess r) _ y1 tt y2).
  2: { unfold InsertProcess. rewrite (sys_proc r proc) by (cbn; by rewrite lookup_insert_eq). by rewrite (sys_updates _ _ y1 OK y2) by (cbn; by rewrite HI). }
  assert (tables (ker y2) !! cur (ker y2) = Some t) as Ht2 by (change (cur (ker y2)) with (cur (ker y)); cbn; by rewrite lookup_insert_ne).
  destruct (add_new_spec PROCESS process_permissions r y2 t Ht2 Hw ltac:(lia)) as (t2 & HA2 & Hw2 & Hn2 & Hc2). rewrite (sys_val _ _ y2 _ _ HA2).
  set (y3 := with_ker _ y2). rewrite (sys_proc r proc) by (cbn; by rewrite lookup_insert_eq). rewrite (sys_lifted _ _ y3 a) by done.
  assert (tables (ker y3) !! cur (ker y3) = Some t2) as Ht3 by (change (cur (ker y3)) with (cur (ker y)); cbn; by rewrite lookup_insert_eq).
  destruct (add_new_spec ADDRESS_SPACE space_permissions a y3 t2 Ht3 Hw2 ltac:(lia)) as (t3 & HA3 & Hw3 & Hn3 & Hc3). rewrite (sys_val _ _ y3 _ _ HA3).
  set (y4 := with_ker _ y3). rewrite Hn2. rewrite Hn2, Hc2 in Hc3.
  destruct (bootstrap_spec y4 (cur (ker y)) t3 r b (next_cap_id_ t)) as (res & y' & t1 & tn & HB & -> & Hres); try done.
  { cbn. by rewrite lookup_insert_eq. }
  { change (cur (ker y3)) with (cur (ker y)). cbn. change (cur (ker y2)) with (cur (ker y)). rewrite !lookup_insert_ne, lookup_insert_eq by done. done. }
  exists res. do 3 eexists. split; [exact HB|]. split; [|rewrite Hres; unfold with_new_caps; by rewrite Hc3].
  split; try done. change (<[r := tn]> (<[cur (ker y) := t1]> (<[cur (ker y) := t3]> (<[cur (ker y) := t2]> (<[r := CapabilityTable_new]> (tables (ker y)))))) =
    <[r := tn]> (<[cur (ker y) := t1]> (tables (ker y)))).
  rewrite !insert_insert_eq, (insert_insert_ne _ (cur (ker y)) r), insert_insert_eq by done. done.
Qed.

(** Waiting for a process that has no thread yet stops the kernel. *)
Lemma ProcessWait_threadless y proc_cap p x c t :
  tables (ker y) !! cur (ker y) = Some t -> table_wf t -> holds_cap (ker y) proc_cap PROCESS p kZionPerm_Read ->
  procs y !! cur (ker y) = Some c -> procs y !! p = Some x -> id_ x <> id_ c -> threads_ x = [] ->
  ProcessWait proc_cap y = Panic.
Proof.
  intros Ht Hw Hcap Hc Hx Hid Hts. unfold ProcessWait. rewrite (sys_kernel _ _ y p (ker y)) by (by apply validated_table with t).
  assert (with_ker (ker y) y = y) as -> by (by destruct y). rewrite (sys_val CurrentProcess _ y (cur (ker y)) y) by done.
  rewrite (sys_proc _ c) by done. rewrite (sys_proc p x) by done. rewrite (proj2 (Z.eqb_neq _ _) Hid).
  unfold GetThread, mbind at 1, Sys_bind at 1. rewrite (sys_proc p x) by done. by rewrite Hts.
Qed.

(** A thread that exited and is cleaned up after its process was: the address space is gone. *)
Lemma Thread_Cleanup_after_process y t x proc b z :
  infos y !! t = Some x -> procs y !! t_process x = Some proc -> vmas_ proc = None -> user_stack_base_ x = Some b ->
  threads (sch (ker y)) !! t = Some z -> current_thread_ (sch (ker y)) <> t -> Thread_Cleanup t y = Fault.
Proof.
  intros Hx Hp Hv Hb Hz Hc. unfold Thread_Cleanup. rewrite (sys_val CurrentThread _ y (current_thread_ (sch (ker y))) y) by done.
  rewrite decide_False by done. rewrite (sys_val _ _ y _ _ (put_state_eq t CLEANUP y z Hz)). set (y1 := with_ker _ y).
  rewrite (sys_info t x) by done. rewrite (sys_proc _ proc) by done. rewrite (sys_lifted _ _ y1 b) by (by rewrite Hb). by rewrite Hv.
Qed.

(** ** Properties *)

(** C12.  Spawning a process, on every branch.  Without a capability under the id the caller gives, with one of another type, or
    with one that lacks the permission to spawn, the call fails with the error for it and nothing changes.  Otherwise the
    caller gets a capability to the new process and one to its address space under fresh ids; the new process runs, has an
    id of its own, no threads and a fresh address space; its capability table holds the bootstrap capability and nothing
    else, and the caller no longer holds it; a bootstrap id that is not held or not transmittable is reported, with the
    process created all the same and its table empty.  No other table, process or thread changes.  The second part needs
    room: in the caller's table, in the map of processes, and in physical memory for the new page table. *)
Theorem ProcessSpawn_transfers hhdm y proc_cap b t :
  tables (ker y) !! cur (ker y) = Some t -> table_wf t ->
  (cap_at (ker y) proc_cap = None -> ProcessSpawn hhdm proc_cap b y = Ret (Err CAP_NOT_FOUND, y)) /\
  (forall c, cap_at (ker y) proc_cap = Some c ->
    (TypeTag (obj_ c) <> PROCESS -> ProcessSpawn hhdm proc_cap b y = Ret (Err CAP_WRONG_TYPE, y)) /\
    (TypeTag (obj_ c) = PROCESS -> Z.land (permissions_ c) kZionPerm_SpawnProcess = 0 -> ProcessSpawn hhdm proc_cap b y = Ret (Err CAP_PERMISSION_DENIED, y)) /\
    (TypeTag (obj_ c) = PROCESS -> Z.land (permissions_ c) kZionPerm_SpawnProcess <> 0 ->
     forall c0 a0 sp0 sp m, next_cap_id_ t + 2 < 2 ^ 55 -> tables (ker y) !! next_ref (ker y) = None ->
     procs y !! cur (ker y) = Some c0 -> vmas_ c0 = Some a0 -> spaces y !! a0 = Some sp0 ->
     AddressSpace_new (cr3_ sp0) hhdm (pmem y) = Ret (sp, m) ->
     hm_wf (proc_map_ y) -> hm_size (proc_map_ y) < 2 ^ 56 - 1 -> hm_model (proc_map_ y) !! gNextId y = None ->
     exists o y' t1 tn, ProcessSpawn hhdm proc_cap b y = Ret (o, y') /\ spawned y y' sp t t1 tn /\
       (o, caps t1, caps tn) = spawn_result (next_cap_id_ t) b (with_new_caps t (next_ref (ker y)) (fresh (dom (spaces y)))))).
Proof.
  intros Ht Hw. assert (forall e, ValidateCapability PROCESS (cap_at (ker y) proc_cap) kZionPerm_SpawnProcess = e -> e <> OK -> ProcessSpawn hhdm proc_cap b y = Ret (Err e, y)) as Hrefuse.
  { intros e He Hne. unfold ProcessSpawn, mbind, Sys_bind, on_kernel. erewrite validated_refused by done. cbn. by destruct y. }
  split; [intros Hn; apply Hrefuse; [by rewrite Hn|done]|]. intros c Hc. unfold ValidateCapability in Hrefuse. rewrite Hc in Hrefuse.
  assert (HasPermissions c kZionPerm_SpawnProcess = negb (Z.land (permissions_ c) kZionPerm_SpawnProcess =? 0)) as Hper by apply one_permission.
  rewrite Hper in Hrefuse. split_and!.
  - intros Hty. apply Hrefuse; [|done]. by rewrite bool_decide_eq_false_2.
  - intros Hty H0. apply Hrefuse; [|done]. by rewrite bool_decide_eq_true_2, H0 by done.
  - intros Hty H0 c0 a0 sp0 sp m. intros. eapply (ProcessSpawn_spec hhdm y proc_cap b (obj_ref (obj_ c))); try done.
    exists c. split_and!; [done|destruct (obj_ c); cbn in *; by subst|]. rewrite Hper. by rewrite (proj2 (Z.eqb_neq _ _) H0).
Qed.


(** *** Witnesses

    Thread 2 of process 20 runs, thread 3 of the same process is runnable, the idle thread 1 and the cleanup thread 4, which
    waits for its semaphore (lock 1), belong to the root process 21. *)
Definition demo_cap : Capability := mkCap (mkObj PROCESS 20) process_permissions.
Definition demo_table : CapabilityTable := Eval vm_compute in table_of [demo_cap; endpoint_cap].
Definition demo_proc : Process := mkProcess 1 (Some 30%positive) (Some PROC_RUNNING) (2 ^ 64 - 1) 2 [2%positive; 3%positive].
Definition demo_root : Process := mkProcess 0 (Some 31%positive) None (2 ^ 64 - 1) 2 [1%positive; 4%positive].
Definition demo_map : HashMap Z (option positive) :=
  Eval vm_compute in match HashMap.Insert 1 (Some 20%positive) hm_new with Ret (_, m) => m | _ => hm_new end.
Definition demo_space : AddressSpace := mkAs 0x400000 Usm_new 0x2000000000 bt_new.

Definition demo_system (s : sched) (c : ProcessCleanup) : system :=
  mkSystem (mkKernel s (fun t => if decide (t = 2%positive \/ t = 3%positive) then 20%positive else 21%positive)
              {[ 20%positive := demo_table; 21%positive := CapabilityTable_new ]} ∅ hm_new 40)
    {[ 20%positive := demo_proc; 21%positive := demo_root ]}
    {[ 2%positive := mkInfo 20 0 false (Some 0x7FFFFFF00000) None (Some 0xFFFFFFFF90003FF8);
       3%positive := mkInfo 20 1 false (Some 0x7FFFFFE00000) None (Some 0xFFFFFFFF90007FF8) ]}
    {[ 30%positive := demo_space ]} ∅ sample_phys Ksm_new demo_map c 2.

Definition demo_running : system := demo_system sample_sched (mkCleanup 1 ll_new ll_new).

Lemma demo_table_wf : table_wf demo_table.
Proof.
  replace demo_table with (table_of [demo_cap; endpoint_cap]) by (vm_compute; reflexivity).
  by destruct (table_of_wf [demo_cap; endpoint_cap]) as (H1 & _); [|exact H1].
Qed.

Lemma demo_map_spec : hm_wf demo_map /\ hm_model demo_map = {[ 1 := Some 20%positive ]}.
Proof.
  destruct (Insert_spec (@hm_new Z (option positive)) 1 (Some 20%positive) hm_new_wf ltac:(done)) as (m & Hw & HI & _).
  rewrite hm_new_model in HI. cbn in HI. destruct HI as [HI Hm]. change (HashMap.Insert 1 (Some 20%positive) (@hm_new Z (option positive))) with
    (Ret (OK, demo_map)) in HI. by injection HI as <-.
Qed.

Lemma ProcessSpawn_transfers_witness :
  exists y' t1 tn, ProcessSpawn 0xFFFF800000000000 0x100 0x101 demo_running = Ret (Val (0x102, 0x103, Some 0x100), y') /\
    tables (ker y') = <[40%positive := tn]> (<[20%positive := t1]> (tables (ker demo_running))) /\ caps tn = {[ 0x100 := Some endpoint_cap ]}.
Proof.
  destruct (is_ret_Ret (AddressSpace_new 0x400000 0xFFFF800000000000 sample_phys) eq_refl) as [[sp m] E].
  destruct (ProcessSpawn_transfers 0xFFFF800000000000 demo_running 0x100 0x101 demo_table) as [_ HT]; [by vm_compute|exact demo_table_wf|].
  destruct (HT demo_cap) as (_ & _ & HS'); [by vm_compute|].
  destruct (HS' eq_refl ltac:(by vm_compute) demo_proc 30%positive demo_space sp m) as (o & y' & t1 & tn & HS & Hsp & Hres).
  - by vm_compute.
  - by vm_compute.
  - by vm_compute.
  - done.
  - by vm_compute.
  - exact E.
  - apply demo_map_spec.
  - by vm_compute.
  - cbn [proc_map_ demo_running demo_system gNextId]. rewrite (proj2 demo_map_spec). by rewrite lookup_singleton_ne.
  - assert (spawn_result (next_cap_id_ demo_table) 0x101 (with_new_caps demo_table (next_ref (ker demo_running)) (fresh (dom (spaces demo_running))))
      = (Val (0x102, 0x103, Some 0x100), delete 0x101 (with_new_caps demo_table (next_ref (ker demo_running)) (fresh (dom (spaces demo_running)))),
         {[ 0x100 := Some endpoint_cap ]})) as Hr by (vm_compute; reflexivity).
    rewrite Hr in Hres. injection Hres as -> _ Htn. exists y', t1, tn. split; [exact HS|]. split; [exact (sw_tables _ _ _ _ _ _ Hsp)|exact Htn].
Defined.


(** Thread 2 exited on its own and was cleaned up, thread 3 is flagged and thread 5 waits for it; thread 4 runs. *)
Definition cleanup_sched : sched :=
  mkSched {[ 1%positive := mkThread RUNNABLE 0; 2%positive := mkThread FINISHED 0; 3%positive := mkThread CLEANUP 0;
             4%positive := mkThread RUNNING 0; 5%positive := mkThread BLOCKED 0 ]}
    4 1 [] [] true {[ 1%positive := mkLock 1 []; 2%positive := mkLock 0 []; 3%positive := mkLock 0 [5%positive] ]}.

Definition demo_cleanup : system := demo_system cleanup_sched (mkCleanup 1 ll_new (mkLL [20%positive] 1)).
Definition demo_victim : victim := mkVictim 3 0x7FFFFFE00000 0xFFFFFFFF90007FF8 [5%positive].

Lemma demo_cleanable : cleanable (with_cleanup (mkCleanup 1 ll_new ll_new) demo_cleanup) 20 demo_proc 30 [demo_victim] 2 demo_space ∅.
Proof.
  split.
  - by vm_compute.
  - exists demo_root. by vm_compute.
  - split; [cbn; set_solver|done].
  - split; [by apply (bool_decide_unpack _)|]. intros t Ht. cbn in Ht.
    repeat (apply elem_of_cons in Ht as [->|Ht]; [vm_compute; tauto|]). by apply not_elem_of_nil in Ht.
  - split; [by vm_compute|]. apply Forall_singleton. split.
    + by vm_compute.
    + eexists. split; [by vm_compute|]. done.
    + eexists. by vm_compute.
    + intros u ->%list_elem_of_singleton. by vm_compute.
  - by apply NoDup_singleton.
  - exists demo_table. split; [by vm_compute|]. split; [exact demo_table_wf|done].
  - split; [by vm_compute|]. split; [exact sample_tables_wf|]. split; [exact (om_new_ok (M:=BinaryTree) MemoryMapping)|]. split; [apply map_Forall_empty|].
    intros b z ? ? Hb. by rewrite lookup_empty in Hb.
  - split; [apply Forall_singleton; split_and!; [by vm_compute..|]|]; intros (b & z & Hb & _); by rewrite lookup_empty in Hb.
Qed.

