(* ===== verification/Teardown.v ===== *)
(** * What happens after a process exited

    The statements by which the kernel changes the scheduler's state, one by
    one, so that a timer tick may come between any two of them ([statement]);
    that every system call, the first run of a thread and the cleanup thread
    are made of such statements; and that a thread flagged for cleanup never
    gets the processor again in any sequence of them, however they are
    interleaved.  The one call that is left out is [ThreadStart] on a thread
    that is dying already: [Thread::Start] does not check the state. *)

From Stdlib Require Import ZArith Lia.
From stdpp Require Import base tactics numbers list gmap fin_maps relations.
From S2P Require Import Prelude Status LinkedList Hash HashMap PhysMem MemObject BinaryTree OrderedMap MappingTree Paging AddressSpace Capability Sched Ipc Process.

(** ** Statements *)
Definition with_queues (run slp : list positive) (lk : gmap positive Lockable) (s : sched) : sched :=
  mkSched (threads s) (current_thread_ s) (sleep_thread_ s) run slp (enabled_ s) lk.

Inductive statement : sched -> sched -> Prop :=
| st_SetState t x s s' : SetState t x s = Ret s' -> statement s s'
| st_Yield s s' : Yield s = Ret s' -> statement s s'
| st_tick s s' : Preempt s = Ret s' -> statement s s'
(* a queue or a lock changes *)
| st_queues run slp lk s : statement s (with_queues run slp lk s)
| st_sleep_ticks t x n s : threads s !! t = Some x -> statement s (with_thread t (mkThread (state_ x) n) s)
(* [state_ = CLEANUP] and [state_ = FINISHED] *)
| st_dies t x new s : threads s !! t = Some x -> dying new = true -> statement s (with_thread t (mkThread new (sleep_ticks_ x)) s)
(* [state_ = RUNNABLE] in [Thread::Start] *)
| st_starts t x s : threads s !! t = Some x -> IsDying x = false -> statement s (with_thread t (mkThread RUNNABLE (sleep_ticks_ x)) s)
| st_creates t s : threads s !! t = None -> statement s (with_thread t (mkThread CREATED 0) s).

(** The threads [ts] are dying or finished, and none of them has the processor. *)
Definition gone (ts : list positive) (s : sched) : Prop := current_thread_ s ∉ ts /\ forall t, t ∈ ts -> dead (st s t).

Section gone.
Implicit Types (s : sched) (t : positive) (ts : list positive).

Lemma dead_dying s t x : threads s !! t = Some x -> dead (st s t) <-> IsDying x = true.
Proof.
  intros Hx. unfold dead, st, IsDying. rewrite Hx. cbn. destruct (state_ x); cbn; naive_solver.
Qed.

(** Changing a thread that is not among [ts], or making it die, keeps [ts] gone. *)
Lemma gone_with_thread ts t x s : (t ∉ ts \/ IsDying x = true) -> gone ts s -> gone ts (with_thread t x s).
Proof.
  intros Hor [Hc Hd]. split; [done|]. intros t' Ht'. rewrite st_with_thread. case_decide as E; [subst t'|by apply Hd].
  destruct Hor as [Hn|Hx]; [done|]. unfold IsDying in Hx. unfold dead. destruct (state_ x); cbn in *; try done; naive_solver.
Qed.

Lemma SetState_gone ts t x s s' : SetState t x s = Ret s' -> gone ts s -> gone ts s' /\ current_thread_ s' = current_thread_ s.
Proof.
  unfold SetState, get. intros (y & Hy%deref_Ret & H)%bind_Ret Hg. destruct (IsDying y) eqn:E; [done|]. injection H as <-.
  split; [|done]. apply gone_with_thread; [|done]. left. intros Hin. apply Hg in Hin. apply (dead_dying s t y Hy) in Hin. congruence.
Qed.

Lemma SwapToCurrent_gone ts s s' : (forall t, t ∈ ts -> dead (st s t)) -> SwapToCurrent s = Ret s' -> gone ts s'.
Proof.
  intros Hd. unfold SwapToCurrent. intros (x & Hx & H)%bind_Ret. destruct (bool_decide _) eqn:E; [|done]. apply bool_decide_eq_true in E. cbn [negb] in H.
  unfold get in Hx. apply deref_Ret in Hx. assert (current_thread_ s ∉ ts) as Hn.
  { intros Hin%Hd. apply (dead_dying s _ x Hx) in Hin. unfold IsDying in Hin. by rewrite E in Hin. }
  by destruct (SetState_gone ts _ _ _ _ H) as [? _].
Qed.

Lemma Yield_gone ts s s' : gone ts s -> Yield s = Ret s' -> gone ts s'.
Proof.
  intros Hg. unfold Yield. case_if_goal; [by intros [= <-]|]. intros (run & _ & H)%bind_Ret. destruct (decide _) in H.
  - destruct run as [|t rest]; [done|]. apply bind_Ret in H as (p & _ & (s1 & H1 & H2)%bind_Ret). eapply SwapToCurrent_gone; [|exact H2].
    case_if_hyp H1; [|injection H1 as <-; apply Hg].
    unfold SetState, get in H1. apply bind_Ret in H1 as (y & Hy%deref_Ret & H1). destruct (IsDying y) eqn:Ey; [done|]. injection H1 as <-.
    intros t' Ht'. rewrite st_with_thread. case_decide as E'; [|by apply Hg]. subst t'. apply Hg in Ht'. apply (dead_dying s _ y Hy) in Ht'. congruence.
  - destruct run; (eapply SwapToCurrent_gone; [|exact H]; apply Hg).
Qed.

Lemma wake_sleepers_gone ts l : forall s kept s', gone ts s -> wake_sleepers l s = Ret (kept, s') -> gone ts s'.
Proof.
  induction l as [|t l IH]; intros s kept s' Hg; cbn [wake_sleepers]; [by intros [= _ <-]|]. intros (x & Hx & H)%bind_Ret. unfold get in Hx. apply deref_Ret in Hx.
  assert (gone ts (with_thread t (mkThread (state_ x) (sleep_ticks_ x [-] 1)) s)) as Hg1.
  { destruct Hg as [Hc Hd]. split; [done|]. intros t' Ht'. rewrite st_with_thread. case_decide as E; [|by apply Hd]. subst t'. specialize (Hd t Ht'). unfold st in Hd. by rewrite Hx in Hd. }
  case_if_hyp H.
  - apply bind_Ret in H as (s1 & H1 & H2). destruct (SetState_gone ts _ _ _ _ H1 Hg1) as [Hg2 _]. by apply IH in H2.
  - apply bind_Ret in H as ([kept' s1] & H1 & [= _ <-]). by apply IH in H1.
Qed.

Lemma Preempt_gone ts s s' : gone ts s -> Preempt s = Ret s' -> gone ts s'.
Proof.
  intros Hg. unfold Preempt. case_if_goal; [by intros [= <-]|]. intros (s1 & H1 & (run & _ & H2)%bind_Ret)%bind_Ret.
  unfold DecrementSleepingThreads in H1. apply bind_Ret in H1 as ([kept s2] & H1 & [= <-]). apply (wake_sleepers_gone ts) in H1; [|done].
  destruct run as [|t rest]; [by injection H2 as <-|]. apply bind_Ret in H2 as (s3 & H2 & H3). cbn [app] in H3.
  destruct (SetState_gone ts _ _ _ _ H2) as [Hg3 _]; [done|]. eapply SwapToCurrent_gone; [|exact H3]. apply Hg3.
Qed.

Lemma statement_gone ts s s' : gone ts s -> statement s s' -> gone ts s'.
Proof.
  intros Hg Hst. revert Hg. destruct Hst as [t x s s' H|s s' H|s s' H|run slp lk s|t x n s H|t x new s H Hn|t x s H Hn|t s H]; intros Hg; try done.
  - by destruct (SetState_gone ts _ _ _ _ H Hg).
  - by eapply Yield_gone.
  - by eapply Preempt_gone.
  - destruct Hg as [Hc Hd]. split; [done|]. intros t' Ht'. rewrite st_with_thread. case_decide as E; [|by apply Hd]. subst t'. specialize (Hd t Ht'). unfold st in Hd. by rewrite H in Hd.
  - apply gone_with_thread; [by right|done].
  - apply gone_with_thread; [|done]. left. intros Hin%Hg. apply (dead_dying s t x H) in Hin. congruence.
  - apply gone_with_thread; [|done]. left. intros Hin%Hg. unfold dead, st in Hin. rewrite H in Hin. by destruct Hin.
Qed.

Lemma statements_gone ts s s' : gone ts s -> rtc statement s s' -> gone ts s'.
Proof. intros Hg H. induction H as [s|s1 s2 s3 H1 _ IH]; [done|]. by apply IH; eapply statement_gone. Qed.
End gone.

(** ** The operations of the scheduler are made of statements *)

(** A statement that creates no thread. *)
Definition plain (s s' : sched) : Prop := statement s s' /\ forall t, threads s !! t = None -> threads s' !! t = None.

Section plain.
Implicit Types (s : sched) (t : positive).

Lemma with_thread_none t x y s t' : threads s !! t = Some y -> threads s !! t' = None -> threads (with_thread t x s) !! t' = None.
Proof. intros Hy Hn. cbn. rewrite lookup_insert_ne; [done|]. intros ->. congruence. Qed.

Lemma SetState_none t x s s' t' : SetState t x s = Ret s' -> threads s !! t' = None -> threads s' !! t' = None.
Proof. unfold SetState, get. intros (y & Hy%deref_Ret & H)%bind_Ret. case_if_hyp H; [done|]. injection H as <-. by apply with_thread_none with y. Qed.

Lemma SwapToCurrent_none s s' t' : SwapToCurrent s = Ret s' -> threads s !! t' = None -> threads s' !! t' = None.
Proof. unfold SwapToCurrent. intros (x & _ & H)%bind_Ret. case_if_hyp H; [done|]. by eapply SetState_none. Qed.

Lemma Yield_none s s' t' : Yield s = Ret s' -> threads s !! t' = None -> threads s' !! t' = None.
Proof.
  unfold Yield. case_if_goal; [by intros [= <-]|]. intros (run & _ & H)%bind_Ret Hn. destruct (decide _) in H.
  - destruct run as [|t rest]; [done|]. apply bind_Ret in H as (p & _ & (s1 & H1 & H2)%bind_Ret). eapply SwapToCurrent_none; [exact H2|].
    case_if_hyp H1; [by eapply SetState_none|by injection H1 as <-].
  - destruct run; by eapply SwapToCurrent_none.
Qed.

Lemma wake_sleepers_none l t' : forall s kept s', wake_sleepers l s = Ret (kept, s') -> threads s !! t' = None -> threads s' !! t' = None.
Proof.
  induction l as [|t l IH]; intros s kept s'; cbn [wake_sleepers]; [by intros [= _ <-]|]. intros (x & Hx & H)%bind_Ret Hn. unfold get in Hx. apply deref_Ret in Hx. case_if_hyp H.
  - apply bind_Ret in H as (s1 & H1 & H2). eapply IH; [exact H2|]. eapply SetState_none in H1; [exact H1|]. by eapply with_thread_none.
  - apply bind_Ret in H as ([kept' s1] & H1 & [= _ <-]). eapply IH; [exact H1|]. by eapply with_thread_none.
Qed.

Lemma Preempt_none s s' t' : Preempt s = Ret s' -> threads s !! t' = None -> threads s' !! t' = None.
Proof.
  unfold Preempt. case_if_goal; [by intros [= <-]|]. intros (s1 & H1 & (run & _ & H2)%bind_Ret)%bind_Ret Hn.
  unfold DecrementSleepingThreads in H1. apply bind_Ret in H1 as ([kept s2] & H1 & [= <-]). eapply wake_sleepers_none in H1; [|done].
  destruct run as [|t rest]; [by injection H2 as <-|]. apply bind_Ret in H2 as (s3 & H2 & H3). cbn [app] in H3. eapply SwapToCurrent_none; [exact H3|]. by eapply SetState_none in H2.
Qed.

Lemma plain_SetState t x s s' : SetState t x s = Ret s' -> rtc plain s s'.
Proof. intros H. apply rtc_once. split; [by eapply st_SetState|intros t'; by eapply SetState_none]. Qed.

Lemma plain_Yield s s' : Yield s = Ret s' -> rtc plain s s'.
Proof. intros H. apply rtc_once. split; [by apply st_Yield|intros t'; by apply Yield_none]. Qed.

Lemma plain_Preempt s s' : Preempt s = Ret s' -> rtc plain s s'.
Proof. intros H. apply rtc_once. split; [by apply st_tick|intros t'; by apply Preempt_none]. Qed.

Lemma plain_queues run slp lk s : rtc plain s (with_queues run slp lk s).
Proof. apply rtc_once. split; [apply st_queues|done]. Qed.

Lemma plain_lock o m s : rtc plain s (with_lock o m s).
Proof. exact (plain_queues (runnable_threads_ s) (sleeping_threads_ s) (<[o := m]> (locks s)) s). Qed.

Lemma plain_dies t x new s : threads s !! t = Some x -> dying new = true -> rtc plain s (with_thread t (mkThread new (sleep_ticks_ x)) s).
Proof. intros Hx Hn. apply rtc_once. split; [by apply st_dies|intros t'; by apply with_thread_none with x]. Qed.

Lemma plain_Enqueue t s s' : Enqueue t s = Ret s' -> rtc plain s s'.
Proof.
  unfold Enqueue. pose proof (plain_queues (runnable_threads_ s ++ [t]) (sleeping_threads_ s) (locks s) s) as HQ.
  destruct (decide _); [intros H%plain_Yield; by etrans|by intros [= <-]].
Qed.

Lemma plain_block_on o s s' : block_on o s = Ret s' -> rtc plain s s'.
Proof.
  unfold block_on, block_begin. intros (s2 & (s1 & H1%plain_SetState & (m & _ & [= <-])%bind_Ret)%bind_Ret & H2%plain_Yield)%bind_Ret.
  etrans; [exact H1|]. etrans; [apply plain_lock|exact H2].
Qed.

Lemma plain_wake_first o s s' : wake_first o s = Ret s' -> rtc plain s s'.
Proof.
  unfold wake_first. intros (m & _ & H)%bind_Ret. destruct (blocked_threads_ m) as [|t rest]; [by injection H as <-|].
  apply bind_Ret in H as (s1 & H1%plain_SetState & H2%plain_Enqueue). etrans; [apply plain_lock|]. by etrans.
Qed.

Lemma plain_signal o s s' : Mutex_Release o s = Ret s' \/ Semaphore_Signal o s = Ret s' -> rtc plain s s'.
Proof. intros [H|H]; apply bind_Ret in H as (m & _ & H%plain_wake_first); (etrans; [apply plain_lock|exact H]). Qed.

Lemma plain_turn o s b s' : Mutex_Lock o s = Ret (b, s') \/ Semaphore_Wait o s = Ret (b, s') -> rtc plain s s'.
Proof.
  intros [H|H]; apply bind_Ret in H as (m & _ & H); case_if_hyp H; try (injection H as _ <-; apply plain_lock);
    apply bind_Ret in H as (s1 & H1%plain_block_on & [= _ <-]); [|done]. etrans; [apply plain_lock|exact H1].
Qed.

Lemma plain_Sleep ms s s' : Sleep ms s = Ret s' -> rtc plain s s'.
Proof.
  unfold Sleep, get. intros (x & Hx%deref_Ret & (s1 & H1%plain_SetState & H2%plain_Yield)%bind_Ret)%bind_Ret.
  etrans; [apply rtc_once; split; [apply (st_sleep_ticks (current_thread_ s) x (ms / 50 [+] 1)); exact Hx|intros t'; by apply with_thread_none with x]|].
  etrans; [exact H1|]. etrans; [|exact H2]. exact (plain_queues (runnable_threads_ s1) _ (locks s1) s1).
Qed.

Lemma plain_flag ts : forall s s', flag_for_cleanup ts s = Ret s' -> rtc plain s s'.
Proof.
  induction ts as [|t ts IH] using rev_ind; intros s s'; unfold flag_for_cleanup; [by intros [= <-]|]. rewrite foldl_app. cbn [foldl].
  intros (s1 & H1%IH & (x & _ & H2)%bind_Ret)%bind_Ret. etrans; [exact H1|]. case_if_hyp H2; [by eapply plain_SetState|by injection H2 as <-].
Qed.

(** The operations of Sched.v, but for starting a thread that is dying. *)
Lemma do_op_statements op s s' : (forall t x, op = KStart t -> threads s !! t = Some x -> IsDying x = false) -> do_op op s = Ret s' -> rtc plain s s'.
Proof.
  intros Hst. destruct op as [|ms| |t|o|o|o|o]; cbn [do_op].
  - apply plain_Preempt.
  - apply plain_Sleep.
  - unfold Exit, get. intros (x & Hx%deref_Ret & H%plain_Yield)%bind_Ret. etrans; [|exact H]. by apply plain_dies.
  - unfold Start, get. intros (x & Hx%deref_Ret & H%plain_Enqueue)%bind_Ret. etrans; [|exact H]. apply rtc_once.
    split; [apply st_starts; [done|by apply (Hst t)]|intros t'; by apply with_thread_none with x].
  - intros ([b s1] & H & [= <-])%bind_Ret. eapply plain_turn. by left.
  - intros H. eapply plain_signal. by left.
  - intros ([b s1] & H & [= <-])%bind_Ret. eapply plain_turn. by right.
  - intros H. eapply plain_signal. by right.
Qed.

Lemma plain_statements s s' : rtc plain s s' -> rtc statement s s' /\ forall t, threads s !! t = None -> threads s' !! t = None.
Proof. induction 1 as [s|s1 s2 s3 [H1 H1'] _ [IH1 IH2]]; [done|]. split; [by eapply rtc_l|]. intros t Ht. by apply IH2, H1'. Qed.
End plain.

(** ** So is every kernel entry *)

(** No thread exists yet where the next object is allocated. *)
Definition fresh_threads (k : kernel) : Prop := forall t, (next_ref k <= t)%positive -> threads (sch k) !! t = None.

(** From [k] to [k'] the scheduler's state changed by statements only. *)
Definition kruns (k k' : kernel) : Prop := fresh_threads k -> rtc statement (sch k) (sch k') /\ fresh_threads k'.

Lemma kruns_refl k : kruns k k.
Proof. done. Qed.

Lemma kruns_trans k1 k2 k3 : kruns k1 k2 -> kruns k2 k3 -> kruns k1 k3.
Proof. intros H1 H2 Hf. destruct (H1 Hf) as [H3 Hf2]. destruct (H2 Hf2) as [H4 Hf3]. split; [by etrans|done]. Qed.

Lemma kruns_plain k k' : rtc plain (sch k) (sch k') -> (next_ref k <= next_ref k')%positive -> kruns k k'.
Proof. intros [H1 H2]%plain_statements Hn Hf. split; [done|]. intros t Ht. apply H2, Hf. lia. Qed.

(** Same scheduler, same place for new objects. *)
Lemma kruns_same k k' : sch k' = sch k -> next_ref k' = next_ref k -> kruns k k'.
Proof. intros Hs Hn. apply kruns_plain; [by rewrite Hs|by rewrite Hn]. Qed.

Definition kstmts {A} (m : K A) : Prop := forall k o k', m k = Ret (o, k') -> kruns k k'.

Section kstmts.
Lemma kstmts_bind {A B} (m : K A) (f : A -> K B) : kstmts m -> (forall a, kstmts (f a)) -> kstmts (m ≫= f).
Proof.
  intros Hm Hf k o k' ([o1 k1] & H1 & H2)%bind_Ret. apply Hm in H1. destruct o1 as [a|e|]; [|by injection H2 as <- <-..]. apply Hf in H2. by eapply kruns_trans.
Qed.

Lemma kstmts_ret {A} (a : A) : kstmts (mret a).
Proof. intros k o k' [= _ <-]. apply kruns_refl. Qed.

Lemma kstmts_fail {A} e : kstmts (@fail A e).
Proof. intros k o k' [= _ <-]. apply kruns_refl. Qed.

Lemma kstmts_blocked {A} : kstmts (@blocked A).
Proof. intros k o k' [= _ <-]. apply kruns_refl. Qed.

Lemma kstmts_lift {A} (m : res A) : kstmts (lift m).
Proof. intros k o k' (a & _ & [= _ <-])%bind_Ret. apply kruns_refl. Qed.

Lemma kstmts_RET_ERR e : kstmts (RET_ERR e).
Proof. unfold RET_ERR. case_decide; [apply kstmts_ret|apply kstmts_fail]. Qed.

Lemma kstmts_on_table {A} (f : CapabilityTable -> res (A * CapabilityTable)) : kstmts (on_table f).
Proof. intros k o k' (t & _ & ([a t'] & _ & [= _ <-])%bind_Ret)%bind_Ret. by apply kruns_same. Qed.

Lemma kstmts_get_object o : kstmts (get_object o).
Proof. intros k r k' (x & _ & [= _ <-])%bind_Ret. apply kruns_refl. Qed.

Lemma kstmts_set_queue o q : kstmts (set_queue o q).
Proof. intros k r k' (x & _ & [= _ <-])%bind_Ret. by apply kruns_same. Qed.

Lemma kstmts_put_object o x : kstmts (put_object o x).
Proof. intros k r k' [= _ <-]. by apply kruns_same. Qed.

Lemma kstmts_set_peer o p : kstmts (set_peer o p).
Proof. intros k r k' (x & _ & [= _ <-])%bind_Ret. by apply kruns_same. Qed.

Lemma kstmts_new_lock : kstmts new_lock.
Proof. intros k r k' [= _ <-]. apply kruns_plain; [apply plain_lock|cbn; lia]. Qed.

Lemma kstmts_on_sched f : (forall s s', f s = Ret s' -> rtc plain s s') -> kstmts (on_sched f).
Proof. intros Hf k r k' (s & H%Hf & [= _ <-])%bind_Ret. by apply kruns_plain. Qed.

Lemma kstmts_lock_turn f : (forall s b s', f s = Ret (b, s') -> rtc plain s s') -> kstmts (lock_turn f).
Proof. intros Hf k r k' ([b s] & H%Hf & [= _ <-])%bind_Ret. by apply kruns_plain. Qed.
End kstmts.

Create HintDb stmts.
#[export] Hint Resolve kstmts_ret kstmts_fail kstmts_blocked kstmts_lift kstmts_RET_ERR kstmts_on_table kstmts_get_object kstmts_set_queue kstmts_put_object
  kstmts_set_peer kstmts_new_lock kstmts_on_sched kstmts_lock_turn plain_Preempt plain_Sleep plain_Yield plain_block_on plain_wake_first plain_Enqueue plain_flag : stmts.
#[export] Hint Extern 1 (rtc plain _ _) => eapply plain_signal; solve [left; eassumption | right; eassumption] : stmts.
#[export] Hint Extern 1 (rtc plain _ _) => eapply plain_turn; solve [left; eassumption | right; eassumption] : stmts.

(** Follows the structure of a call; the leaves are in the hint database. *)
Ltac kstmts_step :=
  match goal with
  | |- kstmts (_ ≫= _) => apply kstmts_bind; [|intros ?]
  | |- kstmts (if ?b then _ else _) => destruct b
  | |- kstmts (match ?x with _ => _ end) => destruct x
  | |- kstmts _ => solve [eauto 4 with stmts]
  end.
Ltac kstmts := intros; repeat kstmts_step.

Lemma kstmts_PushBack o m : kstmts (PushBack o m).
Proof. unfold PushBack, UnboundedMessageQueue_PushBack, SingleMessageQueue_PushBack. kstmts. Qed.

Lemma kstmts_PopFront o d c : kstmts (PopFront o d c).
Proof. unfold PopFront, UnboundedMessageQueue_PopFront, SingleMessageQueue_PopFront. kstmts. Qed.

Lemma kstmts_transmit ids : kstmts (transmit_caps ids).
Proof. induction ids as [|i ids IH]; cbn [transmit_caps]; kstmts. Qed.

Lemma kstmts_receive cs : kstmts (receive_caps cs).
Proof. induction cs as [|c cs IH]; cbn [receive_caps]; kstmts. Qed.

Lemma kstmts_request req : kstmts (TranslateRequestToIpcMessage req).
Proof. pose proof kstmts_transmit. unfold TranslateRequestToIpcMessage, read_user. kstmts. Qed.

Lemma kstmts_response m req : kstmts (TranslateIpcMessageToResponse m req).
Proof. pose proof kstmts_receive. unfold TranslateIpcMessageToResponse. kstmts. Qed.

Lemma kstmts_response_reply m req : kstmts (TranslateIpcMessageToResponseWithReplyPort m req).
Proof.
  intros k o k'. unfold TranslateIpcMessageToResponseWithReplyPort. intros ([o1 k1] & H1%kstmts_response & H2)%bind_Ret. eapply kruns_trans; [exact H1|].
  destruct (reply_cap m) as [c|]; [|injection H2 as _ <-; apply kruns_refl]. revert H2. apply kstmts_bind; kstmts.
Qed.

#[export] Hint Resolve kstmts_PushBack kstmts_PopFront kstmts_request kstmts_response kstmts_response_reply : stmts.

Lemma kstmts_Send o m : kstmts (Send o m).
Proof. unfold Send, GetSendMessageQueue. kstmts. Qed.

Lemma kstmts_WriteMessage irq m : kstmts (WriteMessage irq m).
Proof.
  intros k o k'. unfold WriteMessage. intros (found & _ & H)%bind_Ret. case_if_hyp H; [injection H as _ <-; apply kruns_refl|].
  apply bind_Ret in H as ([port d] & _ & (r & _ & H)%bind_Ret). apply kstmts_Send in H. eapply kruns_trans; [|exact H]. by apply kruns_same.
Qed.

Lemma kstmts_RegisterListener irq port : kstmts (RegisterListener irq port).
Proof.
  intros k o k'. unfold RegisterListener. intros (found & _ & H)%bind_Ret. case_if_hyp H; [injection H as _ <-; apply kruns_refl|].
  apply bind_Ret in H as ([e d] & _ & H). apply kstmts_RET_ERR in H. eapply kruns_trans; [|exact H]. by apply kruns_same.
Qed.

#[export] Hint Resolve kstmts_Send kstmts_WriteMessage kstmts_RegisterListener : stmts.

Lemma kstmts_validated t id perms : kstmts (validated t id perms).
Proof. unfold validated. kstmts. Qed.

#[export] Hint Resolve kstmts_validated : stmts.

(** Every system call of the interprocess communication, every tick and every interrupt. *)
Lemma kstmts_SyscallHandler e : kstmts (SyscallHandler e).
Proof.
  destruct e; cbn [SyscallHandler]; unfold discard, ChannelCreate, CreateChannelPair, PortCreate, IrqRegister, EndpointCreate,
    ChannelSend, PortSend, ReplyPortSend, EndpointSend, ChannelRecv, PortRecv, PortPoll, HasMessages, EndpointRecv, ReplyPortRecv, recv_with_reply, recv_and_translate, Recv, AddNew,
    MutexCreate, SemaphoreCreate, MutexLock, MutexRelease, SemaphoreWait, SemaphoreSignal,
    Port_new, Endpoint_Create, ReplyPort_Create, new_object; kstmts.
Qed.

(** ** And every system call *)
Definition stmts_of {A} (m : Sys A) : Prop := forall y o y', m y = Ret (o, y') -> kruns (ker y) (ker y').

Section stmts_of.
Lemma stmts_bind {A B} (m : Sys A) (f : A -> Sys B) : stmts_of m -> (forall a, stmts_of (f a)) -> stmts_of (m ≫= f).
Proof.
  intros Hm Hf y o y' ([o1 y1] & H1 & H2)%bind_Ret. apply Hm in H1. destruct o1 as [a|e|]; [|by injection H2 as <- <-..]. apply Hf in H2. by eapply kruns_trans.
Qed.

Lemma stmts_ret {A} (a : A) : stmts_of (mret a).
Proof. intros y o y' [= _ <-]. apply kruns_refl. Qed.

Lemma stmts_on_kernel {A} (m : K A) : kstmts m -> stmts_of (on_kernel m).
Proof. intros Hm y o y' ([o1 k] & H%Hm & [= _ <-])%bind_Ret. exact H. Qed.

Lemma stmts_lift {A} (m : res A) : stmts_of (sys_lift m).
Proof. intros y o y' (a & _ & [= _ <-])%bind_Ret. apply kruns_refl. Qed.

Lemma stmts_fail {A} e : stmts_of (@sys_fail A e).
Proof. intros y o y' [= _ <-]. apply kruns_refl. Qed.

Lemma stmts_blocked {A} : stmts_of (@sys_blocked A).
Proof. intros y o y' [= _ <-]. apply kruns_refl. Qed.

Lemma stmts_reads {A} (f : system -> res A) : stmts_of (reads f).
Proof. intros y o y' (a & _ & [= _ <-])%bind_Ret. apply kruns_refl. Qed.

Lemma stmts_asks {A} (f : system -> A) : stmts_of (asks f).
Proof. intros y o y' [= _ <-]. apply kruns_refl. Qed.

Lemma stmts_panic {A} : stmts_of (@panic A).
Proof. by intros y o y' H. Qed.

Lemma stmts_PANIC_ON_ERR e : stmts_of (PANIC_ON_ERR e).
Proof. unfold PANIC_ON_ERR. case_decide; [apply stmts_ret|apply stmts_panic]. Qed.

Lemma stmts_modify f : (forall y, ker (f y) = ker y) -> stmts_of (modify f).
Proof. intros Hf y o y' [= _ <-]. rewrite Hf. apply kruns_refl. Qed.

Lemma stmts_updates {A} (f : system -> res (A * system)) : (forall y a y', f y = Ret (a, y') -> kruns (ker y) (ker y')) -> stmts_of (updates f).
Proof. intros Hf y o y' ([a y1] & H%Hf & [= _ <-])%bind_Ret. exact H. Qed.

(** [state_ = ...] to a dying state *)
Lemma stmts_put_state t new : dying new = true -> stmts_of (put_state t new).
Proof.
  intros Hn. apply stmts_on_kernel, kstmts_on_sched. unfold get. intros s s' (x & Hx%deref_Ret & [= <-])%bind_Ret. by apply plain_dies.
Qed.
End stmts_of.

(** An update that leaves the scheduler alone. *)
Ltac same_ker :=
  repeat match goal with
  | H : _ ≫= _ = Ret _ |- _ => apply bind_Ret in H as (? & ? & H)
  | x : (_ * _)%type |- _ => destruct x
  | H : (if ?b then _ else _) = Ret _ |- _ => destruct b
  end; simplify_eq; by apply kruns_same.

#[export] Hint Resolve stmts_ret stmts_lift stmts_fail stmts_blocked stmts_reads stmts_asks stmts_panic stmts_PANIC_ON_ERR stmts_put_state : stmts.
#[export] Hint Extern 1 (stmts_of (modify _)) => apply stmts_modify; reflexivity : stmts.
#[export] Hint Extern 1 (stmts_of (updates _)) => apply stmts_updates; intros; same_ker : stmts.

Ltac stmts_step :=
  match goal with
  | |- stmts_of (_ ≫= _) => apply stmts_bind; [|intros ?]
  | |- stmts_of (if ?b then _ else _) => destruct b
  | |- stmts_of (match ?x with _ => _ end) => destruct x
  | |- stmts_of (on_kernel _) => apply stmts_on_kernel
  | |- stmts_of _ => solve [eauto 4 with stmts]
  | |- kstmts _ => kstmts_step
  end.
Ltac stmts := intros; repeat stmts_step.

Section calls.
Variable hhdm : Z.

Lemma stmts_on_space {A} vmas (f : AddressSpace -> phys -> res (A * AddressSpace * phys)) : stmts_of (on_space vmas f).
Proof. unfold on_space. stmts. Qed.
Hint Resolve stmts_on_space : stmts.

Lemma stmts_proc_of_id pid : stmts_of (proc_of_id pid).
Proof. unfold proc_of_id. stmts. Qed.
Hint Resolve stmts_proc_of_id : stmts.

Lemma current_cr3_state y o y' : current_cr3 y = Ret (o, y') -> y' = y.
Proof.
  unfold current_cr3, CurrentProcess, get_proc. intros ([o1 y1] & [= <- <-] & H)%bind_Ret. apply bind_Ret in H as ([o2 y2] & (x & _ & [= <- <-])%bind_Ret & H).
  by apply bind_Ret in H as (c & _ & [= _ <-]).
Qed.

Lemma current_cr3_stmts : stmts_of current_cr3.
Proof. intros y o y' H. rewrite (current_cr3_state _ _ _ H). apply kruns_refl. Qed.

(** A new thread: where the new object is there was no thread. *)
Lemma stmts_Thread_new p id : stmts_of (Thread_new p id).
Proof.
  intros y o y'. unfold Thread_new. intros ([o1 y1] & H1 & H2)%bind_Ret. apply bind_Ret in H1 as ([o0 k1] & H0 & [= <- <-]). injection H0 as <- <-. set (y1 := with_ker _ y) in H2.
  apply bind_Ret in H2 as ([o2 y2] & Hcr & H2). assert (ker y2 = ker y1) as Hk2 by (by rewrite (current_cr3_state _ _ _ Hcr)).
  destruct o2 as [cr|e|]; [|injection H2 as _ <-; rewrite Hk2; apply kruns_plain; [apply plain_lock|cbn; lia]..].
  apply bind_Ret in H2 as ([o3 y3] & (proc & _ & [= <- <-])%bind_Ret & H2). apply bind_Ret in H2 as ([t y4] & H2 & [= _ <-]).
  apply bind_Ret in H2 as ([[stack m] mem] & _ & (a & _ & (sp & _ & [= _ <-])%bind_Ret)%bind_Ret). cbn [ker with_info with_kstacks with_pmem with_ker]. rewrite Hk2. cbn [ker y1 with_ker sch].
  intros Hf. split.
  - etrans; [|apply rtc_once, st_creates; cbn; apply Hf; lia]. apply (plain_statements _ _ (plain_lock (next_ref (ker y)) (mkLock 0 []) (sch (ker y)))).
  - intros t' Ht'. cbn in Ht' |- *. rewrite lookup_insert_ne by lia. apply Hf. lia.
Qed.
Hint Resolve stmts_Thread_new : stmts.

Lemma stmts_CreateThread p : stmts_of (CreateThread p).
Proof. unfold CreateThread, get_proc. stmts. Qed.

Lemma stmts_wake_all n t : stmts_of (wake_all n t).
Proof. induction n as [|n IH]; cbn [wake_all]; stmts. Qed.
Hint Resolve stmts_CreateThread stmts_wake_all : stmts.

Lemma stmts_Thread_Cleanup t : stmts_of (Thread_Cleanup t).
Proof. unfold Thread_Cleanup, CurrentThread, get_info, get_proc. stmts. Qed.
Hint Resolve stmts_Thread_Cleanup : stmts.

Lemma stmts_cleanup_threads ts : stmts_of (cleanup_threads ts).
Proof. induction ts as [|t ts IH]; cbn [cleanup_threads]; unfold get_state; stmts. Qed.
Hint Resolve stmts_cleanup_threads : stmts.

Lemma stmts_Process_Cleanup p : stmts_of (Process_Cleanup p).
Proof. unfold Process_Cleanup, CurrentProcess, get_proc, set_pstate, get_proc. stmts. Qed.
Hint Resolve stmts_Process_Cleanup : stmts.

Lemma stmts_CleanupTurn : stmts_of CleanupTurn.
Proof.
  assert (forall n, stmts_of (drain_processes n)) by (induction n as [|n IH]; cbn [drain_processes]; stmts).
  assert (forall n, stmts_of (drain_threads n)) by (induction n as [|n IH]; cbn [drain_threads]; stmts). unfold CleanupTurn. stmts.
Qed.

Lemma stmts_Thread_Wait t : stmts_of (Thread_Wait t).
Proof. unfold Thread_Wait, get_state. stmts. Qed.
Hint Resolve stmts_CleanupTurn stmts_Thread_Wait : stmts.

Lemma stmts_CleanupProcess pid : stmts_of (CleanupProcess pid).
Proof. unfold CleanupProcess, queue_process. stmts. Qed.
Hint Resolve stmts_CleanupProcess : stmts.

Lemma stmts_ProcessExit code : stmts_of (ProcessExit code).
Proof. unfold ProcessExit, Process_Exit, CurrentProcess, get_proc. stmts. Qed.

Lemma stmts_Process_Create : stmts_of (Process_Create hhdm).
Proof. pose proof current_cr3_stmts. unfold Process_Create. stmts. Qed.

Lemma stmts_InsertProcess p : stmts_of (InsertProcess p).
Proof. unfold InsertProcess, get_proc. stmts. Qed.
Hint Resolve stmts_Process_Create stmts_InsertProcess : stmts.

Lemma stmts_ProcessSpawn p b : stmts_of (ProcessSpawn hhdm p b).
Proof. unfold ProcessSpawn, give, add_new, AddNew, get_proc. stmts. Qed.

(** Starting a thread that is not dying. *)
Lemma stmts_Thread_Start t e a1 a2 y o y' :
  (forall x, threads (sch (ker y)) !! t = Some x -> IsDying x = false) -> Thread_Start t e a1 a2 y = Ret (o, y') -> kruns (ker y) (ker y').
Proof.
  intros Hd. unfold Thread_Start. intros ([o1 y1] & (x & _ & [= <- <-])%bind_Ret & H)%bind_Ret. rewrite (sys_val (modify _) _ y tt (with_info t _ y)) in H by done. set (y2 := with_info t _ y) in H.
  apply bind_Ret in H as ([o3 y3] & H3 & H). assert (kruns (ker y) (ker y3) /\ o3 = Val tt) as [Hr ->].
  { apply bind_Ret in H3 as ([o4 k4] & H4 & [= <- <-]). apply bind_Ret in H4 as (s & (z & Hz%deref_Ret & [= <-])%bind_Ret & [= <- <-]). split; [|done].
    apply kruns_plain; [|done]. apply rtc_once. split; [apply st_starts; [exact Hz|by apply Hd]|intros t'; by apply with_thread_none with z]. }
  eapply kruns_trans; [exact Hr|]. revert H. apply stmts_bind; [unfold GetThread, get_proc; stmts|stmts].
Qed.

(** A call that does not start a thread that is dying. *)
Definition starts_no_dying (c : call) (y : system) : Prop :=
  match c with
  | ZThreadStart cap _ _ _ => forall t k x, validated THREAD cap kZionPerm_Write (ker y) = Ret (Val t, k) -> threads (sch k) !! t = Some x -> IsDying x = false
  | _ => True
  end.

Lemma stmts_handle c y o y' : starts_no_dying c y -> handle hhdm c y = Ret (o, y') -> kruns (ker y) (ker y').
Proof.
  intros Hs. pose proof stmts_ProcessExit as P1. pose proof stmts_ProcessSpawn as P2. pose proof kstmts_SyscallHandler as P3.
  assert (forall c, (forall cap e a1 a2, c <> ZThreadStart cap e a1 a2) -> stmts_of (handle hhdm c)) as Hother.
  { clear c y o y' Hs. intros c Hn. destruct c; cbn [handle];
      unfold sys_discard, ProcessWait, ProcessWait_end, GetThread, ThreadCreate, ThreadExit, Thread_Exit, CleanupThread, queue_thread, ThreadWait, AddressSpaceMap, AddressSpaceUnmap, MemoryObjectCreate,
        MemoryObjectCreatePhysical, MemoryObjectCreateContiguous, MemoryObjectDuplicate, MemoryObjectInspect, new_memory_object, add_new, AddNew, Thread_Init, CurrentThread, CurrentProcess,
        get_info, get_proc; try (by stmts). by destruct (Hn thread_cap entry arg1 arg2). }
  destruct c as [| | | | |cap e a1 a2| | | | | | | | | | | | | |]; try (by apply Hother). cbn [handle starts_no_dying] in *. unfold ThreadStart.
  intros ([o1 y1] & ([o2 k2] & H2 & [= <- <-])%bind_Ret & H1)%bind_Ret. destruct o2 as [t| |]; [|injection H1 as _ <-; by eapply kstmts_validated..].
  eapply kruns_trans; [by eapply kstmts_validated|]. change k2 with (ker (with_ker k2 y)). case_if_hyp H1; [injection H1 as _ <-; apply kruns_refl|].
  eapply stmts_Thread_Start; [|exact H1]. intros x. by apply (Hs t k2 x).
Qed.

(** Any sequence of calls, ticks, interrupts, first runs and turns of the cleanup thread. *)
Definition later (y y' : system) : Prop := exists c o, starts_no_dying c y /\ handle hhdm c y = Ret (o, y').

Lemma later_statements y y' : rtc later y y' -> fresh_threads (ker y) -> rtc statement (sch (ker y)) (sch (ker y')).
Proof.
  induction 1 as [y|y1 y2 y3 (c & o & Hs & Hc) _ IH]; [done|]. intros Hf. destruct (stmts_handle c y1 o y2 Hs Hc Hf) as [H1 Hf2]. etrans; [exact H1|by apply IH].
Qed.
End calls.

(** ** Properties *)


(** [Thread::Start] on a thread that was flagged makes it runnable and queues it: the process runs again. *)
Lemma Thread_Start_revives y t x proc z e a1 a2 :
  infos y !! t = Some x -> procs y !! t_process x = Some proc -> threads_ proc !! Z.to_nat (tid x) = Some t -> 0 <= tid x ->
  threads (sch (ker y)) !! t = Some z -> IsDying z = true -> current_thread_ (sch (ker y)) <> sleep_thread_ (sch (ker y)) ->
  exists y', Thread_Start t e a1 a2 y = Ret (Val tt, y') /\ st (sch (ker y')) t = Some RUNNABLE /\ t ∈ runnable_threads_ (sch (ker y')).
Proof.
  intros Hx Hp Ht Htid Hz Hd Hc. unfold Thread_Start. rewrite (sys_info t x) by done. rewrite (sys_val (modify _) _ y tt (with_info t _ y)) by done.
  rewrite (sys_val _ _ _ _ _ (put_state_eq t RUNNABLE (with_info t _ y) z Hz)). set (y1 := with_ker _ _).
  pose proof (lookup_lt_Some _ _ _ Ht). rewrite (sys_val (GetThread (t_process x) (tid x)) _ y1 t y1).
  2: { unfold GetThread. rewrite (sys_proc _ proc) by done. rewrite (proj2 (Z.leb_gt _ _)) by lia. by rewrite Ht. }
  unfold on_kernel, on_sched, Enqueue. cbn. rewrite decide_False by done. eexists. split; [done|]. cbn. split; [|set_solver].
  change (st (with_thread t (mkThread RUNNABLE (sleep_ticks_ z)) (sch (ker y))) t = Some RUNNABLE). by rewrite st_with_thread, decide_True.
Qed.

