(* ===== verification/KernelHeap.v ===== *)
(** * The kernel heap (zion/memory/kernel_heap.h, kernel_heap.cpp,
    slab_allocator.h, slab_allocator.cpp, kernel_vmm.cpp)

    [operator new] and [operator delete] of the kernel.  Small objects come
    from 4 KiB slabs of equal elements, chained through the free elements
    themselves; the rest is handed out by a pointer that only grows.  The
    state has the memory words of the free chains, the slab headers, the slabs
    of each of the five allocators, and the two bounds.  [EnsureResident]
    (see [Paging]) backs the addresses with pages and leaves this state as it is. *)

From Stdlib Require Import ZArith Lia.
From stdpp Require Import base tactics numbers list gmap fin_maps relations.
From S2P Require Import Prelude.

Definition kKernelSlabHeapStart : Z := 0xFFFFFFFF40000000.
Definition kKernelSlabHeapEnd : Z := 0xFFFFFFFF60000000.
Definition kKernelBuddyHeapStart : Z := 0xFFFFFFFF60000000.
Definition kKernelBuddyHeapEnd : Z := 0xFFFFFFFF80000000.
Definition kSlabSize : Z := 0x1000.
Definition kSlabMask : Z := not64 (kSlabSize - 1).

(** [sizeof(Slab)]: the vtable, the reference count, the two list pointers
    (one word each) and the three fields below. *)
Definition sizeof_Slab : Z := 56.

Record Slab : Type := mkSlab { elem_size_ : Z; num_allocated_ : Z; first_free_ : Z }.

Record KernelHeap : Type := mkHeap {
  entries : gmap Z Z;               (* [FreeListEntry::next] at an address *)
  slab_headers : gmap Z Slab;       (* by slab address *)
  slabs_ : gmap Z (list Z);         (* the list of the allocator of each element size *)
  next_slab_heap_page_ : Z;
  next_addr_ : Z;
  alloc_count_ : Z;
}.

Definition heap_new : KernelHeap :=
  mkHeap ∅ ∅ {[8 := []; 16 := []; 32 := []; 64 := []; 128 := []]} kKernelSlabHeapStart kKernelBuddyHeapStart 0.

Section ops.
Implicit Types h : KernelHeap.

Definition with_entries (e : gmap Z Z) h : KernelHeap :=
  mkHeap e (slab_headers h) (slabs_ h) (next_slab_heap_page_ h) (next_addr_ h) (alloc_count_ h).
Definition put_header (a : Z) (sl : Slab) h : KernelHeap :=
  mkHeap (entries h) (<[a := sl]> (slab_headers h)) (slabs_ h) (next_slab_heap_page_ h) (next_addr_ h) (alloc_count_ h).

(** ** Slabs *)

(** The loop of the constructor that chains the elements. *)
Fixpoint chain_loop (fuel : nat) (entry entry_addr max_entry elem_size : Z) (e : gmap Z Z) : res (gmap Z Z) :=
  if entry_addr <? max_entry then
    match fuel with
    | O => NoFuel
    | S fuel' =>
        let e := <[entry_addr := 0]> e in
        let e := <[entry := entry_addr]> e in
        chain_loop fuel' entry_addr (entry_addr [+] elem_size) max_entry elem_size e
    end
  else Ret e.

(** [new (next_slab) Slab(elem_size)] *)
Definition Slab_new (this elem_size : Z) h : res KernelHeap :=
  if elem_size =? 0 then Fault else
  let first_elem_offset := (sizeof_Slab - 1) / elem_size [+] 1 in
  let entry_addr := this [+] first_elem_offset [*] elem_size in
  e ← chain_loop 512 entry_addr (entry_addr [+] elem_size) (this [+] kSlabSize) elem_size (entries h);
  Ret (put_header this (mkSlab elem_size 0 entry_addr) (with_entries e h)).

Definition IsFull (sl : Slab) : bool := first_free_ sl =? 0.

Definition Slab_Allocate (this : Z) h : res (Z * KernelHeap) :=
  sl ← deref (slab_headers h !! this);
  if IsFull sl then Panic else
  let to_return := first_free_ sl in
  next ← deref (entries h !! to_return);
  Ret (to_return, put_header this (mkSlab (elem_size_ sl) (num_allocated_ sl [+] 1) next) h).

(** [sizeof(this)] is the size of a pointer. *)
Definition IsContained (this addr : Z) : bool :=
  (addr >? this [+] 8) && (addr <? this [+] kSlabSize).

Definition Slab_Free (this address : Z) h : res KernelHeap :=
  sl ← deref (slab_headers h !! this);
  if negb (IsContained this address) then Panic else
  if negb (Z.land address (not64 (elem_size_ sl - 1)) =? address) then Panic else
  let h := with_entries (<[address := first_free_ sl]> (entries h)) h in
  Ret (put_header this (mkSlab (elem_size_ sl) (num_allocated_ sl [-] 1) address) h).

(** [KernelVmm::AcquireSlabHeapRegion] *)
Definition AcquireSlabHeapRegion (slab_size_bytes : Z) h : res (Z * KernelHeap) :=
  let next_slab := next_slab_heap_page_ h in
  if next_slab >=? kKernelBuddyHeapEnd then Panic else
  Ret (next_slab, mkHeap (entries h) (slab_headers h) (slabs_ h) (next_slab [+] slab_size_bytes)
                    (next_addr_ h) (alloc_count_ h)).

(** [while (slab && slab->IsFull()) slab = slab->next_;] *)
Fixpoint find_slab (l : list Z) h : res (option Z) :=
  match l with
  | [] => Ret None
  | a :: l' => sl ← deref (slab_headers h !! a); if IsFull sl then find_slab l' h else Ret (Some a)
  end.

Definition SlabAllocator_Allocate (elem_size : Z) h : res (Z * KernelHeap) :=
  l ← deref (slabs_ h !! elem_size);
  slab ← find_slab l h;
  match slab with
  | Some a => Slab_Allocate a h
  | None =>
      '(next_slab, h) ← AcquireSlabHeapRegion kSlabSize h;
      h ← Slab_new next_slab elem_size h;
      let h := mkHeap (entries h) (slab_headers h) (<[elem_size := next_slab :: l]> (slabs_ h))
                 (next_slab_heap_page_ h) (next_addr_ h) (alloc_count_ h) in
      Slab_Allocate next_slab h
  end.

Definition SlabFree (addr : Z) h : res KernelHeap := Slab_Free (Z.land addr kSlabMask) addr h.

(** ** The heap.  A slab allocator never answers with an error. *)
Definition Heap_Allocate (size : Z) h : res (Z * KernelHeap) :=
  if size <=? 8 then SlabAllocator_Allocate 8 h
  else if size <=? 16 then SlabAllocator_Allocate 16 h
  else if size <=? 32 then SlabAllocator_Allocate 32 h
  else if size <=? 64 then SlabAllocator_Allocate 64 h
  else if size <=? 128 then SlabAllocator_Allocate 128 h
  else
    if next_addr_ h [+] size >=? kKernelBuddyHeapEnd then Panic else
    let address := next_addr_ h in
    let next := next_addr_ h [+] size in
    let next := if negb (Z.land next 0x7 =? 0) then Z.land next (not64 0x7) [+] 0x8 else next in
    Ret (address, mkHeap (entries h) (slab_headers h) (slabs_ h) (next_slab_heap_page_ h) next (alloc_count_ h [+] 1)).

Definition IsSlab (addr : Z) : bool := (addr >=? kKernelSlabHeapStart) && (addr <? kKernelSlabHeapEnd).

Definition operator_delete (addr : Z) h : res KernelHeap :=
  if IsSlab addr then SlabFree addr h else Ret h.
End ops.

(** ** Free chains *)
Fixpoint chain (e : gmap Z Z) (a : Z) (l : list Z) : Prop :=
  match l with
  | [] => a = 0
  | b :: l' => a = b /\ b <> 0 /\ exists n, e !! b = Some n /\ chain e n l'
  end.

(** The element sizes, and the elements of a slab at [base]. *)
Definition elem_class (c : Z) : Prop := exists k, 3 <= k <= 7 /\ c = 2 ^ k.

Definition is_elem (base c a : Z) : Prop := a mod c = 0 /\ base + sizeof_Slab <= a /\ a + c <= base + kSlabSize.

Section chains.
Lemma chain_fun e a l1 l2 : chain e a l1 -> chain e a l2 -> l1 = l2.
Proof.
  revert a l2. induction l1 as [|b l1 IH]; intros a [|c l2]; cbn; [done| | |].
  - intros -> (-> & ? & _). done.
  - intros (-> & ? & _) ->. done.
  - intros (-> & _ & n & Hn & Hl1) (-> & _ & n' & Hn' & Hl2). assert (n' = n) as -> by congruence. f_equal. by eapply IH.
Qed.

Lemma chain_frame e a l b x : b ∉ l -> chain e a l -> chain (<[b := x]> e) a l.
Proof.
  revert a. induction l as [|c l IH]; intros a Hb; [done|]. cbn. intros (-> & ? & n & Hn & Hl).
  split_and!; [done|done|]. exists n. rewrite lookup_insert_ne by set_solver. split; [done|]. apply IH; set_solver.
Qed.

Lemma chain_ext e e' a l : (forall b, b ∈ l -> e' !! b = e !! b) -> chain e a l -> chain e' a l.
Proof.
  revert a. induction l as [|c l IH]; intros a Hb; [done|]. cbn. intros (-> & ? & n & Hn & Hl).
  split_and!; [done|done|]. exists n. rewrite Hb by (by left). split; [done|]. apply IH; [|done]. intros b Hin. apply Hb. by right.
Qed.

(** Addresses [entry], [entry + c], ..., [m] of them after the first. *)
Definition steps (entry c : Z) (m : nat) : list Z := (fun i => entry + c * Z.of_nat i) <$> seq 0 (S m).

Lemma steps_S entry c m : steps entry c (S m) = entry :: steps (entry + c) c m.
Proof.
  unfold steps. change (seq 0 (S (S m))) with (0%nat :: seq 1 (S m)). rewrite fmap_cons, <- (fmap_S_seq 0 (S m)), <- list_fmap_compose.
  f_equal; [lia|]. apply list_fmap_ext. intros i x _. cbn. lia.
Qed.

Lemma elem_of_steps entry c m a :
  a ∈ steps entry c m <-> exists i, (i <= m)%nat /\ a = entry + c * Z.of_nat i.
Proof.
  unfold steps. rewrite list_elem_of_fmap. split.
  - intros (i & -> & Hi%elem_of_seq). exists i. split; [lia|done].
  - intros (i & Hi & ->). exists i. split; [done|]. apply elem_of_seq. lia.
Qed.

Lemma steps_NoDup entry c m : 0 < c -> NoDup (steps entry c m).
Proof. intros Hc. apply NoDup_fmap_2; [|apply NoDup_seq]. intros i j Hij. nia. Qed.

Lemma chain_loop_spec m fuel entry c e :
  0 < c -> 0 < entry -> entry + c * Z.of_nat (S m) < 2 ^ 64 -> (m < fuel)%nat ->
  (m = 0%nat -> e !! entry = Some 0) ->
  exists e', chain_loop fuel entry (entry + c) (entry + c * Z.of_nat (S m)) c e = Ret e' /\
    chain e' entry (steps entry c m) /\ (forall b, b < entry \/ entry + c * Z.of_nat (S m) <= b -> e' !! b = e !! b).
Proof.
  intros Hc. revert fuel entry e. induction m as [|m IH]; intros fuel entry e He Hmax Hf H0.
  { exists e. split; [|split; [|done]].
    - destruct fuel; cbn [chain_loop]; rewrite (proj2 (Z.ltb_ge _ _)) by lia; done.
    - cbn. split_and!; [lia|lia|]. exists 0. split; [|done]. replace (entry + c * Z.of_nat 0) with entry by lia. by apply H0. }
  destruct fuel as [|fuel]; [lia|]. cbn [chain_loop]. rewrite (proj2 (Z.ltb_lt _ _)) by lia. rewrite u64_small by lia.
  replace (entry + c * Z.of_nat (S (S m))) with (entry + c + c * Z.of_nat (S m)) by lia.
  destruct (IH fuel (entry + c) (<[entry := entry + c]> (<[entry + c := 0]> e))) as (e' & -> & Hch & Hfr); [lia|lia|lia| |].
  { intros ->. rewrite lookup_insert_ne by lia. apply lookup_insert_eq. }
  exists e'. split; [done|]. split.
  - rewrite steps_S. cbn [chain]. split_and!; [done|lia|]. exists (entry + c). split; [|done].
    rewrite Hfr by lia. apply lookup_insert_eq.
  - intros b Hb. rewrite Hfr by lia. rewrite !lookup_insert_ne by lia. done.
Qed.
End chains.

(** The facts about the five sizes. *)
Lemma elem_class_facts c :
  elem_class c ->
  exists m, let entry := ((sizeof_Slab - 1) / c + 1) * c in
    8 <= c <= 128 /\ (m < 512)%nat /\ sizeof_Slab <= entry /\ entry mod c = 0 /\ entry + c * Z.of_nat (S m) = kSlabSize /\
    kSlabSize mod c = 0.
Proof.
  intros (k & Hk & ->). assert (k = 3 \/ k = 4 \/ k = 5 \/ k = 6 \/ k = 7) as [-> |[-> |[-> |[-> | ->]]]] by lia.
  - exists 504%nat. vm_compute. split_and!; done || lia.
  - exists 251%nat. vm_compute. split_and!; done || lia.
  - exists 125%nat. vm_compute. split_and!; done || lia.
  - exists 62%nat. vm_compute. split_and!; done || lia.
  - exists 30%nat. vm_compute. split_and!; done || lia.
Qed.

(** A new slab has all its elements free. *)
Lemma Slab_new_spec h this c :
  elem_class c -> this mod kSlabSize = 0 -> 0 < this -> this + kSlabSize < 2 ^ 64 ->
  exists h' entry l, Slab_new this c h = Ret h' /\
    h' = mkHeap (entries h') (<[this := mkSlab c 0 entry]> (slab_headers h)) (slabs_ h) (next_slab_heap_page_ h) (next_addr_ h) (alloc_count_ h) /\
    chain (entries h') entry l /\ l <> [] /\ NoDup l /\ (forall a, a ∈ l -> is_elem this c a) /\
    (forall b, b < this \/ this + kSlabSize <= b -> entries h' !! b = entries h !! b).
Proof.
  intros Hc Ha Hp Hb. destruct (elem_class_facts c Hc) as (m & H1 & H2 & H3 & H4 & H5 & H6).
  set (off := ((sizeof_Slab - 1) / c + 1) * c) in *. unfold Slab_new. rewrite (proj2 (Z.eqb_neq c 0)) by lia.
  assert (0 <= (sizeof_Slab - 1) / c <= 55) as Hq.
  { split; [apply Z.div_pos; unfold sizeof_Slab; lia|]. apply Z.div_le_upper_bound; unfold sizeof_Slab; lia. }
  rewrite (u64_small ((sizeof_Slab - 1) / c + 1)) by lia. fold off. unfold kSlabSize, sizeof_Slab in *.
  rewrite (u64_small off) by lia. rewrite (u64_small (this + off)) by lia. rewrite (u64_small (this + off + c)) by lia.
  rewrite (u64_small (this + 4096)) by lia. replace (this + 4096) with (this + off + c * Z.of_nat (S m)) by lia.
  destruct (chain_loop_spec m 512 (this + off) c
    (entries h)) as (e' & -> & Hch & Hfr); [lia|lia|lia|lia| |].
  { intros ->. exfalso. destruct Hc as (k & Hk & ->). assert (k = 3 \/ k = 4 \/ k = 5 \/ k = 6 \/ k = 7) as [-> |[-> |[-> |[-> | ->]]]] by lia;
      vm_compute in H5; done. }
  rewrite ret_bind. eexists _, _, _. split; [reflexivity|]. split; [reflexivity|]. cbn [entries put_header with_entries].
  split_and!; [exact Hch|by destruct m|by apply steps_NoDup; lia| |].
  - intros a (i & Hi & ->)%elem_of_steps. unfold is_elem, sizeof_Slab, kSlabSize. split_and!; [|nia|nia].
    rewrite Z.add_mod by lia. rewrite (Z.mul_comm c), Z_mod_mult, Z.add_0_r, Z.mod_mod, Z.add_mod, H4 by lia.
    assert (this mod c = 0) as ->; [|done]. apply Z.mod_divide; [lia|]. apply Z.mod_divide in Ha; [|lia]. apply Z.mod_divide in H6; [|lia].
    by etrans.
  - intros b Hb'. apply Hfr. lia.
Qed.

(** ** The heap's invariant *)
Definition slab_ok (h : KernelHeap) (base : Z) (sl : Slab) : Prop :=
  elem_class (elem_size_ sl) /\ base mod kSlabSize = 0 /\ kKernelSlabHeapStart <= base /\
  base + kSlabSize <= next_slab_heap_page_ h /\
  exists l, chain (entries h) (first_free_ sl) l /\ NoDup l /\ forall a, a ∈ l -> is_elem base (elem_size_ sl) a.

Record kh_inv (h : KernelHeap) : Prop := {
  kh_slab : forall base sl, slab_headers h !! base = Some sl -> slab_ok h base sl;
  kh_lists : forall c, elem_class c -> exists l, slabs_ h !! c = Some l /\
    forall a, a ∈ l -> exists sl, slab_headers h !! a = Some sl /\ elem_size_ sl = c;
  kh_page : next_slab_heap_page_ h mod kSlabSize = 0 /\ kKernelSlabHeapStart <= next_slab_heap_page_ h <= kKernelSlabHeapEnd;
  kh_addr : next_addr_ h mod 8 = 0 /\ kKernelBuddyHeapStart <= next_addr_ h <= kKernelBuddyHeapEnd;
}.

(** [n] bytes in use at [p]. *)
Definition slab_live (h : KernelHeap) (p n : Z) : Prop :=
  exists base sl, slab_headers h !! base = Some sl /\ is_elem base (elem_size_ sl) p /\ 0 <= n <= elem_size_ sl /\
    forall l, chain (entries h) (first_free_ sl) l -> p ∉ l.
Definition bump_live (h : KernelHeap) (p n : Z) : Prop :=
  kKernelBuddyHeapStart <= p /\ 0 < n /\ p + n <= next_addr_ h /\ p mod 8 = 0.

Section heap.
Implicit Types h : KernelHeap.

Lemma elem_class_bound c : elem_class c -> 8 <= c <= 128.
Proof. intros Hc. destruct (elem_class_facts c Hc) as (m & H1 & _). exact H1. Qed.

(** Elements of different slabs are different. *)
Lemma same_slab h b1 s1 b2 s2 a :
  kh_inv h -> slab_headers h !! b1 = Some s1 -> slab_headers h !! b2 = Some s2 ->
  is_elem b1 (elem_size_ s1) a -> is_elem b2 (elem_size_ s2) a -> b1 = b2 /\ s1 = s2.
Proof.
  intros Hi H1 H2 (_ & Ha1 & Hb1) (_ & Ha2 & Hb2).
  destruct (kh_slab _ Hi _ _ H1) as (C1 & M1 & _). destruct (kh_slab _ Hi _ _ H2) as (C2 & M2 & _).
  apply elem_class_bound in C1, C2. unfold sizeof_Slab, kSlabSize in *.
  assert (b1 = b2) as ->; [|split; congruence]. pose proof (Z.div_mod b1 4096). pose proof (Z.div_mod b2 4096). lia.
Qed.

Lemma elem_pos h base sl a : kh_inv h -> slab_headers h !! base = Some sl -> is_elem base (elem_size_ sl) a -> 0 < a < 2 ^ 64.
Proof.
  intros Hi Hs (_ & H1 & H2). destruct (kh_slab _ Hi _ _ Hs) as (C & _ & H3 & H4 & _). apply elem_class_bound in C.
  destruct (kh_page _ Hi) as (_ & H5 & H6). unfold kKernelSlabHeapStart, kKernelSlabHeapEnd, sizeof_Slab, kSlabSize in *. lia.
Qed.

(** Taking the first free element of a slab. *)
Lemma Slab_Allocate_inv h base sl :
  kh_inv h -> slab_headers h !! base = Some sl -> IsFull sl = false ->
  exists p h', Slab_Allocate base h = Ret (p, h') /\ kh_inv h' /\ next_addr_ h' = next_addr_ h /\
    next_slab_heap_page_ h' = next_slab_heap_page_ h /\
    (forall n, 0 <= n <= elem_size_ sl -> slab_live h' p n) /\
    (forall q n, slab_live h q n -> slab_live h' q n /\ q <> p).
Proof.
  intros Hi Hs Hfull. destruct (kh_slab _ Hi _ _ Hs) as (C & Hm & Hlo & Hhi & l & Hch & Hnd & Hel).
  unfold IsFull in Hfull. zb. destruct l as [|p l]; [done|]. cbn [chain] in Hch. destruct Hch as (Hp & _ & nx & Hnx & Hch).
  apply NoDup_cons in Hnd as [Hpl Hnd]. unfold Slab_Allocate. rewrite Hs. cbn [deref]. rewrite ret_bind. unfold IsFull.
  rewrite (proj2 (Z.eqb_neq _ _)) by done. rewrite Hp, Hnx. cbn [deref]. rewrite ret_bind.
  exists p. eexists. split; [reflexivity|]. set (sl' := mkSlab _ _ _). split_and!; [|done|done| |].
  - split; cbn [entries slab_headers slabs_ next_slab_heap_page_ next_addr_ alloc_count_ put_header with_entries elem_size_ num_allocated_ first_free_].
    + intros b s. destruct (decide (base = b)) as [<-|Hne].
      * rewrite lookup_insert_eq. intros [= <-]. split_and!; [done|done|done|done|]. exists l. split_and!; [done|done|].
        intros a Ha. apply Hel. by right.
      * rewrite lookup_insert_ne by done. intros Hb. exact (kh_slab _ Hi _ _ Hb).
    + intros c Hc. destruct (kh_lists _ Hi c Hc) as (l0 & Hl0 & Hall). exists l0. split; [done|]. intros a Ha.
      destruct (Hall a Ha) as (s & Hsa & Hsc). destruct (decide (base = a)) as [<-|Hne].
      * rewrite lookup_insert_eq. eexists. split; [done|]. assert (s = sl) as -> by congruence. exact Hsc.
      * rewrite lookup_insert_ne by done. eauto.
    + exact (kh_page _ Hi).
    + exact (kh_addr _ Hi).
  - intros n Hn. exists base, sl'. cbn [entries slab_headers slabs_ next_slab_heap_page_ next_addr_ alloc_count_ put_header with_entries elem_size_ num_allocated_ first_free_]. rewrite lookup_insert_eq. split_and!; [done|apply Hel; by left|apply Hn|apply Hn|].
    intros l' Hl'. by rewrite (chain_fun _ _ _ _ Hl' Hch).
  - intros q n (b & s & Hb & Hq & Hn & Hfree). destruct (decide (base = b)) as [<-|Hne].
    + assert (s = sl) as -> by congruence.
      assert (chain (entries h) (first_free_ sl) (p :: l)) as Hfull' by (cbn [chain]; split_and!; [done|congruence|eauto]).
      specialize (Hfree _ Hfull'). split; [|set_solver]. exists base, sl'. cbn [entries slab_headers slabs_ next_slab_heap_page_ next_addr_ alloc_count_ put_header with_entries elem_size_ num_allocated_ first_free_]. rewrite lookup_insert_eq.
      split_and!; [done|done|apply Hn|apply Hn|]. intros l' Hl'. rewrite (chain_fun _ _ _ _ Hl' Hch). set_solver.
    + split.
      * exists b, s. cbn [entries slab_headers slabs_ next_slab_heap_page_ next_addr_ alloc_count_ put_header with_entries elem_size_ num_allocated_ first_free_]. by rewrite lookup_insert_ne.
      * intros ->. destruct (same_slab h base sl b s p Hi Hs Hb) as [? _]; [apply Hel; by left|done|done].
Qed.

Lemma find_slab_spec h c l :
  (forall a, a ∈ l -> exists sl, slab_headers h !! a = Some sl /\ elem_size_ sl = c) ->
  exists o, find_slab l h = Ret o /\
    match o with
    | Some a => exists sl, slab_headers h !! a = Some sl /\ elem_size_ sl = c /\ IsFull sl = false
    | None => True
    end.
Proof.
  induction l as [|a l IH]; intros Hl; cbn [find_slab]; [by exists None|].
  destruct (Hl a) as (sl & Ha & Hc); [by left|]. rewrite Ha. cbn [deref]. rewrite ret_bind.
  destruct (IsFull sl) eqn:Ef; [apply IH; intros b Hb; apply Hl; by right|]. exists (Some a). split; [done|]. by exists sl.
Qed.

(** A fresh slab joins its allocator. *)
Lemma new_slab_inv h c l :
  kh_inv h -> elem_class c -> slabs_ h !! c = Some l -> next_slab_heap_page_ h < kKernelSlabHeapEnd ->
  exists h' sl, ('(next_slab, h) ← AcquireSlabHeapRegion kSlabSize h;
     h ← Slab_new next_slab c h;
     Ret (mkHeap (entries h) (slab_headers h) (<[c := next_slab :: l]> (slabs_ h))
                 (next_slab_heap_page_ h) (next_addr_ h) (alloc_count_ h))) = Ret h' /\
    kh_inv h' /\ slab_headers h' !! next_slab_heap_page_ h = Some sl /\ elem_size_ sl = c /\ IsFull sl = false /\
    next_addr_ h' = next_addr_ h /\ next_slab_heap_page_ h' = next_slab_heap_page_ h + kSlabSize /\
    (forall q n, slab_live h q n -> slab_live h' q n).
Proof.
  intros Hi Hc Hl Hroom. destruct (kh_page _ Hi) as (Hpm & Hp1 & Hp2). destruct (kh_addr _ Hi) as (Ham & Ha1 & Ha2).
  set (ns := next_slab_heap_page_ h) in *. unfold AcquireSlabHeapRegion. fold ns. rewrite Z.geb_leb, (proj2 (Z.leb_gt _ _)).
  2: { unfold kKernelSlabHeapEnd, kKernelBuddyHeapEnd in *. lia. }
  rewrite ret_bind. assert (0 < ns /\ ns + kSlabSize <= kKernelSlabHeapEnd) as [Hns0 Hns1].
  { unfold kKernelSlabHeapStart, kKernelSlabHeapEnd, kSlabSize in *. pose proof (Z.div_mod ns 4096). lia. }
  rewrite u64_small by (unfold kKernelSlabHeapEnd, kSlabSize in *; lia). set (h1 := mkHeap _ _ _ _ _ _).
  destruct (Slab_new_spec h1 ns c Hc Hpm Hns0) as (h2 & entry & fl & -> & Hh2 & Hch & Hfl & Hnd & Hel & Hfr);
    [unfold kKernelSlabHeapEnd in *; lia|]. rewrite ret_bind. rewrite Hh2. cbn [entries slab_headers slabs_ next_slab_heap_page_ next_addr_ alloc_count_ h1].
  assert (slab_headers h !! ns = None) as Hnone.
  { destruct (slab_headers h !! ns) as [s|] eqn:E; [|done]. destruct (kh_slab _ Hi _ _ E) as (_ & _ & _ & H & _).
    fold ns in H. unfold kSlabSize in H. lia. }
  assert (forall b s a, slab_headers h !! b = Some s -> is_elem b (elem_size_ s) a -> a < ns) as Hbelow.
  { intros b s a Hb (_ & _ & Ha). destruct (kh_slab _ Hi _ _ Hb) as (C & _ & _ & H & _). apply elem_class_bound in C. fold ns in H. lia. }
  assert (forall b s l0, slab_headers h !! b = Some s -> chain (entries h) (first_free_ s) l0 -> chain (entries h2) (first_free_ s) l0) as Hchain.
  { intros b s l0 Hb Hl0. destruct (kh_slab _ Hi _ _ Hb) as (_ & _ & _ & _ & l1 & Hl1 & _ & Hel1).
    rewrite (chain_fun _ _ _ _ Hl0 Hl1) in *. eapply chain_ext; [|exact Hl1]. intros a Ha. apply Hfr. left. by apply (Hbelow b s), Hel1. }
  eexists _, _. split; [reflexivity|]. split_and!; [|cbn [entries slab_headers slabs_ next_slab_heap_page_ next_addr_ alloc_count_ put_header with_entries elem_size_ num_allocated_ first_free_]; by rewrite lookup_insert_eq|done| |done|done|].
  - split; cbn [slab_headers slabs_ next_slab_heap_page_ next_addr_ entries].
    + intros b s [[<- <-]|[Hne Hb]]%lookup_insert_Some.
      * unfold slab_ok. cbn [entries slab_headers slabs_ next_slab_heap_page_ next_addr_ alloc_count_ put_header with_entries elem_size_ num_allocated_ first_free_]. split_and!; [done|done|done|lia|]. eauto.
      * destruct (kh_slab _ Hi _ _ Hb) as (C & ? & ? & H & l0 & Hl0 & ? & ?). fold ns in H. unfold slab_ok.
        cbn [entries next_slab_heap_page_]. split_and!; [done|done|done|unfold kSlabSize in *; lia|]. exists l0. split_and!; [by eapply Hchain|done|done].
    + intros c' Hc'. destruct (decide (c = c')) as [<-|Hne].
      * rewrite lookup_insert_eq. eexists. split; [done|]. intros a [-> |Ha]%elem_of_cons; [rewrite lookup_insert_eq; by eexists|].
        destruct (kh_lists _ Hi c Hc) as (l0 & Hl0 & Hall). assert (l0 = l) as -> by congruence.
        destruct (Hall a Ha) as (s & Hs & Hsc). rewrite lookup_insert_ne by (intros <-; congruence). eauto.
      * rewrite lookup_insert_ne by done. destruct (kh_lists _ Hi c' Hc') as (l0 & Hl0 & Hall). exists l0. split; [done|].
        intros a Ha. destruct (Hall a Ha) as (s & Hs & Hsc). rewrite lookup_insert_ne by (intros <-; congruence). eauto.
    + split; [|unfold kSlabSize in *; lia]. rewrite <- (Z.mul_1_l kSlabSize) at 1. by rewrite Z.mod_add by (unfold kSlabSize; lia).
    + done.
  - unfold IsFull. cbn [first_free_]. apply Z.eqb_neq. destruct fl as [|a fl]; [done|]. cbn [chain] in Hch. destruct Hch as (-> & ? & _). done.
  - intros q n (b & s & Hb & Hq & Hn & Hfree). exists b, s. cbn [entries slab_headers slabs_ next_slab_heap_page_ next_addr_ alloc_count_ put_header with_entries elem_size_ num_allocated_ first_free_]. rewrite lookup_insert_ne by (intros <-; congruence).
    split_and!; [done|done|apply Hn|apply Hn|]. intros l0 Hl0. apply Hfree.
    destruct (kh_slab _ Hi _ _ Hb) as (_ & _ & _ & _ & l1 & Hl1 & _). pose proof (Hchain b s l1 Hb Hl1) as Hl1'.
    by rewrite (chain_fun _ _ _ _ Hl0 Hl1').
Qed.

Lemma SlabAllocator_inv h c :
  kh_inv h -> elem_class c -> next_slab_heap_page_ h < kKernelSlabHeapEnd ->
  exists p h', SlabAllocator_Allocate c h = Ret (p, h') /\ kh_inv h' /\ next_addr_ h' = next_addr_ h /\
    (forall n, 0 <= n <= c -> slab_live h' p n) /\ (forall q n, slab_live h q n -> slab_live h' q n /\ q <> p).
Proof.
  intros Hi Hc Hroom. destruct (kh_lists _ Hi c Hc) as (l & Hl & Hall). unfold SlabAllocator_Allocate. rewrite Hl. cbn [deref].
  rewrite ret_bind. destruct (find_slab_spec h c l Hall) as (o & -> & Ho). rewrite ret_bind. destruct o as [a|].
  - destruct Ho as (sl & Ha & Hsc & Hf). destruct (Slab_Allocate_inv h a sl Hi Ha Hf) as (p & h' & H1 & H2 & H3 & _ & H4 & H5).
    exists p, h'. rewrite <- Hsc. done.
  - destruct (new_slab_inv h c l Hi Hc Hl Hroom) as (h1 & sl & Hr & Hi1 & Hsl & Hsc & Hf & Hn1 & _ & Hlive).
    apply bind_Ret in Hr as ([ns h0] & Hacq & Hr). rewrite Hacq, ret_bind. apply bind_Ret in Hr as (h0' & Hnew & [= Hh1]).
    rewrite Hnew, ret_bind. cbn zeta. rewrite Hh1.
    assert (ns = next_slab_heap_page_ h) as -> by (unfold AcquireSlabHeapRegion in Hacq; case_if_hyp Hacq; [done|by injection Hacq]).
    destruct (Slab_Allocate_inv h1 _ sl Hi1 Hsl Hf) as (p & h' & H1 & H2 & H3 & _ & H4 & H5).
    exists p, h'. rewrite <- Hsc. split_and!; [done|done|congruence|done|]. intros q n Hq. by apply H5, Hlive.
Qed.

(** Eight-byte rounding of the growing pointer. *)
Lemma round_up_8 x :
  0 <= x < kKernelBuddyHeapEnd ->
  let y := if negb (Z.land x 0x7 =? 0) then Z.land x (not64 0x7) [+] 0x8 else x in
  y mod 8 = 0 /\ x <= y <= kKernelBuddyHeapEnd.
Proof.
  intros Hx. change 7 with (2 ^ 3 - 1). rewrite land_low, land_not64_low by (unfold kKernelBuddyHeapEnd in *; lia).
  change (2 ^ 3) with 8. pose proof (Z.mod_pos_bound x 8). pose proof (Z.div_mod x 8). unfold kKernelBuddyHeapEnd in *.
  destruct (x mod 8 =? 0) eqn:E; cbn [negb]; zb; cbn zeta; [lia|].
  assert (x <= x - x mod 8 + 8 <= 0xFFFFFFFF80000000) as Hy by lia.
  rewrite u64_small by lia. split; [|exact Hy]. apply Z.mod_divide; [lia|]. exists (x / 8 + 1). lia.
Qed.

(** The growing pointer: the new block starts where the old ones end. *)
Lemma bump_inv h size :
  kh_inv h -> 128 < size < 2 ^ 31 -> next_addr_ h + size < kKernelBuddyHeapEnd ->
  exists h', Heap_Allocate size h = Ret (next_addr_ h, h') /\ kh_inv h' /\ next_addr_ h + size <= next_addr_ h' /\
    next_slab_heap_page_ h' = next_slab_heap_page_ h /\ (forall q n, slab_live h q n -> slab_live h' q n).
Proof.
  intros Hi Hs Hroom. destruct (kh_addr _ Hi) as (Ha & Ha1 & Ha2). unfold Heap_Allocate.
  do 5 (rewrite (proj2 (Z.leb_gt size _)) by lia). rewrite (u64_small (next_addr_ h + size)) by (unfold kKernelBuddyHeapStart, kKernelBuddyHeapEnd in *; lia).
  rewrite Z.geb_leb, (proj2 (Z.leb_gt _ _)) by done. eexists. split; [reflexivity|].
  destruct (round_up_8 (next_addr_ h + size)) as (Hy & Hy1 & Hy2); [unfold kKernelBuddyHeapStart in *; lia|].
  set (y := if negb _ then _ else _) in *.
  split; [|split; [exact Hy1|split; [done|intros q n Hq; exact Hq]]].
  split; [exact (kh_slab _ Hi)|exact (kh_lists _ Hi)|exact (kh_page _ Hi)|]. cbn [next_addr_]. split; [done|]. lia.
Qed.

(** The size class of a small request. *)
Lemma small_class h size :
  0 <= size <= 128 -> exists c, elem_class c /\ size <= c /\ Heap_Allocate size h = SlabAllocator_Allocate c h.
Proof.
  intros Hs. unfold Heap_Allocate.
  destruct (Z.leb_spec size 8); [exists 8; split_and!; [by exists 3|lia|done]|].
  destruct (Z.leb_spec size 16); [exists 16; split_and!; [by exists 4|lia|done]|].
  destruct (Z.leb_spec size 32); [exists 32; split_and!; [by exists 5|lia|done]|].
  destruct (Z.leb_spec size 64); [exists 64; split_and!; [by exists 6|lia|done]|].
  destruct (Z.leb_spec size 128); [|lia]. exists 128; split_and!; [by exists 7|lia|done].
Qed.

(** The slab of an element, from its address. *)
Lemma elem_slab h base sl p :
  kh_inv h -> slab_headers h !! base = Some sl -> is_elem base (elem_size_ sl) p ->
  IsSlab p = true /\ Z.land p kSlabMask = base /\ IsContained base p = true /\
  Z.land p (not64 (elem_size_ sl - 1)) = p.
Proof.
  intros Hi Hs Hel. pose proof (elem_pos _ _ _ _ Hi Hs Hel) as Hpos. destruct Hel as (Hm & H1 & H2).
  destruct (kh_slab _ Hi _ _ Hs) as (C & Hbm & Hlo & Hhi & _). destruct (kh_page _ Hi) as (_ & _ & Hpg).
  pose proof (elem_class_bound _ C) as Hc. unfold sizeof_Slab in *. split_and!.
  - unfold IsSlab. unfold kSlabSize in *. rewrite Z.geb_leb. apply andb_true_iff. split; [apply Z.leb_le|apply Z.ltb_lt]; lia.
  - unfold kSlabMask, kSlabSize in *. change (4096 - 1) with (2 ^ 12 - 1). rewrite land_not64_low by lia. change (2 ^ 12) with 4096.
    pose proof (Z.div_mod p 4096). pose proof (Z.div_mod base 4096). pose proof (Z.mod_pos_bound p 4096). lia.
  - unfold IsContained, kSlabSize in *. unfold kKernelSlabHeapStart, kKernelSlabHeapEnd in *.
    rewrite !u64_small by lia. rewrite Z.gtb_ltb. apply andb_true_iff. split; apply Z.ltb_lt; lia.
  - destruct C as (k & Hk & E). rewrite E in *. rewrite land_not64_low by lia. lia.
Qed.

(** Giving an element back. *)
Lemma Slab_Free_inv h base sl p :
  kh_inv h -> slab_headers h !! base = Some sl -> is_elem base (elem_size_ sl) p ->
  (forall l, chain (entries h) (first_free_ sl) l -> p ∉ l) ->
  exists h', operator_delete p h = Ret h' /\ kh_inv h' /\ next_addr_ h' = next_addr_ h /\
    next_slab_heap_page_ h' = next_slab_heap_page_ h /\ (forall q n, q <> p -> slab_live h q n -> slab_live h' q n).
Proof.
  intros Hi Hs Hel Hfree. destruct (elem_slab _ _ _ _ Hi Hs Hel) as (E1 & E2 & E3 & E4).
  pose proof (elem_pos _ _ _ _ Hi Hs Hel) as Hpos. destruct (kh_slab _ Hi _ _ Hs) as (C & Hm & Hlo & Hhi & l & Hch & Hnd & Hall).
  unfold operator_delete, SlabFree, Slab_Free. rewrite E1, E2, Hs. cbn [deref]. rewrite ret_bind, E3. cbn [negb].
  rewrite E4, Z.eqb_refl. cbn [negb]. eexists. split; [reflexivity|]. set (sl' := mkSlab _ _ _). specialize (Hfree _ Hch) as Hpl.
  assert (forall b s l0, b <> base -> slab_headers h !! b = Some s -> chain (entries h) (first_free_ s) l0 ->
    chain (<[p := first_free_ sl]> (entries h)) (first_free_ s) l0) as Hother.
  { intros b s l0 Hne Hb Hl0. apply chain_frame; [|done]. intros Hin. destruct (kh_slab _ Hi _ _ Hb) as (_ & _ & _ & _ & l1 & Hl1 & _ & Hel1).
    rewrite (chain_fun _ _ _ _ Hl0 Hl1) in *. by destruct (same_slab h b s base sl p Hi Hb Hs (Hel1 _ Hin) Hel). }
  assert (chain (<[p := first_free_ sl]> (entries h)) p (p :: l)) as Hch'.
  { cbn [chain]. split_and!; [done|lia|]. exists (first_free_ sl). rewrite lookup_insert_eq. split; [done|]. by apply chain_frame. }
  split_and!; [|done|done|].
  - split; cbn [entries slab_headers slabs_ next_slab_heap_page_ next_addr_ put_header with_entries]; [| |exact (kh_page _ Hi)|exact (kh_addr _ Hi)].
    + intros b s [[<- <-]|[Hne Hb]]%lookup_insert_Some.
      * split_and!; [done|done|done|done|]. exists (p :: l). split_and!; [exact Hch'|by apply NoDup_cons|].
        intros a [-> |Ha]%elem_of_cons; [exact Hel|by apply Hall].
      * destruct (kh_slab _ Hi _ _ Hb) as (? & ? & ? & ? & l0 & Hl0 & ? & ?). split_and!; [done|done|done|done|]. exists l0.
        split_and!; [|done|done]. exact (Hother b s l0 (not_eq_sym Hne) Hb Hl0).
    + intros c Hc. destruct (kh_lists _ Hi c Hc) as (l0 & Hl0 & Hall0). exists l0. split; [done|]. intros a Ha.
      destruct (Hall0 a Ha) as (s & Hsa & Hsc). destruct (decide (base = a)) as [<-|Hne].
      * rewrite lookup_insert_eq. eexists. split; [done|]. assert (s = sl) as -> by congruence. exact Hsc.
      * rewrite lookup_insert_ne by done. eauto.
  - intros q n Hqp (b & s & Hb & Hq & Hn & Hqf). destruct (decide (base = b)) as [<-|Hne].
    + assert (s = sl) as -> by congruence. exists base, sl'. cbn [entries slab_headers put_header with_entries]. rewrite lookup_insert_eq.
      split_and!; [done|done|apply Hn|apply Hn|]. intros l' Hl'. rewrite (chain_fun _ _ _ _ Hl' Hch').
      apply not_elem_of_cons. split; [done|]. by apply Hqf.
    + exists b, s. cbn [entries slab_headers put_header with_entries]. rewrite lookup_insert_ne by done.
      split_and!; [done|done|apply Hn|apply Hn|]. intros l' Hl'.
      destruct (kh_slab _ Hi _ _ Hb) as (_ & _ & _ & _ & l1 & Hl1 & _).
      rewrite (chain_fun _ _ _ _ Hl' (Hother b s l1 (not_eq_sym Hne) Hb Hl1)). by apply Hqf.
Qed.
End heap.

(** ** Runs of [new] and [delete]

    The second component has the size of every block handed out and not yet
    deleted.  The requests are below 2 GiB (the span of the region), and the
    slab region has a page left when a request arrives. *)
Inductive heap_step : KernelHeap * gmap Z Z -> KernelHeap * gmap Z Z -> Prop :=
  | step_new h L size p h' :
      0 <= size < 2 ^ 31 -> next_slab_heap_page_ h < kKernelSlabHeapEnd ->
      Heap_Allocate size h = Ret (p, h') -> heap_step (h, L) (h', <[p := size]> L)
  | step_delete h L p n h' :
      L !! p = Some n -> operator_delete p h = Ret h' -> heap_step (h, L) (h', delete p L).

Definition blocks_disjoint (L : gmap Z Z) : Prop :=
  forall p n q m, L !! p = Some n -> L !! q = Some m -> p <> q -> p + n <= q \/ q + m <= p.

(** The [size] bytes at [p] are apart from every block in use. *)
Definition fresh_block (L : gmap Z Z) (p size : Z) : Prop :=
  forall q n, L !! q = Some n -> q <> p /\ (p + size <= q \/ q + n <= p).

Record live_inv (h : KernelHeap) (L : gmap Z Z) : Prop := {
  li_inv : kh_inv h;
  li_live : forall p n, L !! p = Some n -> slab_live h p n \/ bump_live h p n;
  li_disjoint : blocks_disjoint L;
}.

Section runs.
Implicit Types (h : KernelHeap) (L : gmap Z Z).

Lemma slab_live_range h p n : kh_inv h -> slab_live h p n ->
  0 <= n /\ kKernelSlabHeapStart <= p /\ p + n <= kKernelSlabHeapEnd /\ p < kKernelSlabHeapEnd /\ p mod 8 = 0.
Proof.
  intros Hi (base & sl & Hs & (Hm & H1 & H2) & Hn & _). destruct (kh_slab _ Hi _ _ Hs) as (C & _ & Hlo & Hhi & _).
  destruct (kh_page _ Hi) as (_ & _ & Hpg). pose proof (elem_class_bound _ C). unfold sizeof_Slab, kSlabSize in *.
  split_and!; [lia|lia|lia|lia|]. destruct C as (k & Hk & E). rewrite E in Hm. apply Z.mod_divide in Hm; [|lia].
  apply Z.mod_divide; [lia|]. etrans; [|exact Hm]. change 8 with (2 ^ 3). exists (2 ^ (k - 3)). rewrite <- Z.pow_add_r by lia. f_equal. lia.
Qed.

(** Two elements in use do not overlap. *)
Lemma slab_live_disjoint h p n q m :
  kh_inv h -> slab_live h p n -> slab_live h q m -> p <> q -> p + n <= q \/ q + m <= p.
Proof.
  intros Hi (b1 & s1 & Hs1 & (Hm1 & H1 & H1') & Hn1 & _) (b2 & s2 & Hs2 & (Hm2 & H2 & H2') & Hn2 & _) Hne.
  destruct (kh_slab _ Hi _ _ Hs1) as (C1 & M1 & _). destruct (kh_slab _ Hi _ _ Hs2) as (C2 & M2 & _).
  pose proof (elem_class_bound _ C1) as B1. pose proof (elem_class_bound _ C2) as B2. unfold sizeof_Slab, kSlabSize in *.
  destruct (decide (b1 = b2)) as [<-|Hb].
  - assert (s2 = s1) as -> by congruence. set (c := elem_size_ s1) in *.
    pose proof (Z.div_mod p c). pose proof (Z.div_mod q c). assert (p / c <> q / c) by (intros E; rewrite E in *; lia). nia.
  - pose proof (Z.div_mod b1 4096). pose proof (Z.div_mod b2 4096). lia.
Qed.

Lemma slab_bump_disjoint h p n q m :
  kh_inv h -> slab_live h p n -> bump_live h q m -> p + n <= q /\ p <> q.
Proof.
  intros Hi Hp (Hq & _). destruct (slab_live_range _ _ _ Hi Hp) as (_ & _ & H1 & H2 & _).
  unfold kKernelSlabHeapEnd, kKernelBuddyHeapStart in *. lia.
Qed.

(** A block that overlaps no other joins the blocks in use. *)
Lemma live_inv_add h h' L p size :
  live_inv h L -> kh_inv h' -> fresh_block L p size ->
  (forall q n, L !! q = Some n -> slab_live h' q n \/ bump_live h' q n) ->
  (slab_live h' p size \/ bump_live h' p size) -> live_inv h' (<[p := size]> L).
Proof.
  intros HI Hi' Hfresh Hold Hnew. split; [done| |].
  - intros q n [[<- <-]|[Hne Hq]]%lookup_insert_Some; [done|]. by apply Hold.
  - intros q n r m [[<- <-]|[Hne Hq]]%lookup_insert_Some [[<- <-]|[Hne' Hr]]%lookup_insert_Some Hqr; [done| | |].
    + by destruct (Hfresh _ _ Hr) as [_ ?].
    + destruct (Hfresh _ _ Hq) as [_ ?]. lia.
    + by apply (li_disjoint _ _ HI).
Qed.

Lemma bump_live_mono h h' q n : next_addr_ h <= next_addr_ h' -> bump_live h q n -> bump_live h' q n.
Proof. intros Hle (? & ? & ? & ?). unfold bump_live. split_and!; [done|done|lia|done]. Qed.

(** The whole of [Allocate], with room left in both regions. *)
Lemma Heap_Allocate_live h L size :
  live_inv h L -> 0 <= size < 2 ^ 31 -> next_slab_heap_page_ h < kKernelSlabHeapEnd ->
  (128 < size -> next_addr_ h + size < kKernelBuddyHeapEnd) ->
  exists p h', Heap_Allocate size h = Ret (p, h') /\ fresh_block L p size /\ live_inv h' (<[p := size]> L).
Proof.
  intros HI Hs Hslab Hroom. pose proof (li_inv _ _ HI) as Hi. destruct (decide (size <= 128)) as [Hle|Hgt].
  - destruct (small_class h size) as (c & Hc & Hsc & ->); [lia|].
    destruct (SlabAllocator_inv h c Hi Hc Hslab) as (p & h' & Hr & Hi' & Hn & Hnew & Hold). exists p, h'. split; [done|].
    assert (slab_live h' p size) as Hp by (apply Hnew; lia).
    assert (fresh_block L p size) as Hfresh.
    { intros q n Hq. destruct (li_live _ _ HI q n Hq) as [Hl|Hl].
      - destruct (Hold _ _ Hl) as [Hl' Hqp]. split; [done|]. exact (slab_live_disjoint h' p size q n Hi' Hp Hl' (not_eq_sym Hqp)).
      - apply (bump_live_mono _ h') in Hl; [|lia]. destruct (slab_bump_disjoint h' _ _ _ _ Hi' Hp Hl). split; [congruence|by left]. }
    split; [done|]. eapply live_inv_add; [done|done|done| |by left]. intros q n Hq.
    destruct (li_live _ _ HI q n Hq) as [Hl|Hl]; [left; by apply Hold|right]. eapply bump_live_mono; [|exact Hl]. lia.
  - destruct (bump_inv h size Hi) as (h' & Hr & Hi' & Hn & _ & Hold); [lia|apply Hroom; lia|]. eexists _, h'. split; [exact Hr|].
    destruct (kh_addr _ Hi) as (Ha & Ha1 & Ha2).
    assert (bump_live h' (next_addr_ h) size) as Hp by (unfold bump_live; split_and!; [done|lia|done|done]).
    assert (fresh_block L (next_addr_ h) size) as Hfresh.
    { intros q n Hq. destruct (li_live _ _ HI q n Hq) as [Hl|(_ & Hn0 & He & _)]; [|lia].
      apply Hold in Hl. destruct (slab_bump_disjoint h' _ _ _ _ Hi' Hl Hp). split; [done|by right]. }
    split; [done|]. eapply live_inv_add; [done|done|done| |by right]. intros q n Hq.
    destruct (li_live _ _ HI q n Hq) as [Hl|Hl]; [left; by apply Hold|right]. eapply bump_live_mono; [|exact Hl]. lia.
Qed.

Lemma operator_delete_live h L p n :
  live_inv h L -> L !! p = Some n -> exists h', operator_delete p h = Ret h' /\ live_inv h' (delete p L).
Proof.
  intros HI Hp. pose proof (li_inv _ _ HI) as Hi.
  assert (forall h', kh_inv h' -> next_addr_ h' = next_addr_ h -> (forall q m, q <> p -> slab_live h q m -> slab_live h' q m) ->
    live_inv h' (delete p L)) as Hdone.
  { intros h' Hi' Hn Hold. split; [done| |].
    - intros q m [Hne Hq]%lookup_delete_Some. destruct (li_live _ _ HI q m Hq) as [Hl|Hl]; [left; by apply Hold|right].
      eapply bump_live_mono; [|exact Hl]. lia.
    - intros q m r k [_ Hq]%lookup_delete_Some [_ Hr]%lookup_delete_Some. by apply (li_disjoint _ _ HI). }
  destruct (li_live _ _ HI p n Hp) as [(base & sl & Hs & Hel & _ & Hfree)|(Hlo & _)].
  - destruct (Slab_Free_inv h base sl p Hi Hs Hel Hfree) as (h' & Hr & Hi' & Hn & _ & Hold). exists h'. split; [done|]. by apply Hdone.
  - exists h. split; [|by apply Hdone]. unfold operator_delete, IsSlab. rewrite (proj2 (Z.ltb_ge p _)); [by rewrite andb_false_r|].
    unfold kKernelBuddyHeapStart, kKernelSlabHeapEnd in *. lia.
Qed.

Lemma heap_new_inv : live_inv heap_new ∅.
Proof.
  split; [|by intros p n ?%lookup_empty_Some|by intros p n q m ?%lookup_empty_Some].
  split.
  - intros base sl H. change (slab_headers heap_new) with (∅ : gmap Z Slab) in H. by apply lookup_empty_Some in H.
  - intros c (k & Hk & ->). exists []. split; [|by intros a ?%elem_of_nil].
    assert (k = 3 \/ k = 4 \/ k = 5 \/ k = 6 \/ k = 7) as [-> |[-> |[-> |[-> | ->]]]] by lia; vm_compute; reflexivity.
  - vm_compute. split_and!; congruence.
  - vm_compute. split_and!; congruence.
Qed.

Lemma heap_step_live h L h' L' : live_inv h L -> heap_step (h, L) (h', L') -> live_inv h' L'.
Proof.
  intros HI Hst. inversion Hst as [? ? size p ? Hs Hslab Hr|? ? p n ? Hp Hr]; subst.
  - destruct (Heap_Allocate_live h L size HI Hs Hslab) as (p' & h1 & Hr1 & _ & HI1);
      [|rewrite Hr in Hr1; injection Hr1 as -> ->; exact HI1].
    intros Hgt. unfold Heap_Allocate in Hr. do 5 (rewrite (proj2 (Z.leb_gt size _)) in Hr by lia).
    destruct (kh_addr _ (li_inv _ _ HI)) as (_ & Ha1 & Ha2).
    rewrite (u64_small (next_addr_ h + size)) in Hr by (unfold kKernelBuddyHeapStart, kKernelBuddyHeapEnd in *; lia).
    case_if_hyp Hr; [done|]. rewrite Z.geb_leb in E. by apply Z.leb_gt in E.
  - destruct (operator_delete_live h L p n HI Hp) as (h1 & Hr1 & HI1). rewrite Hr in Hr1. injection Hr1 as ->. exact HI1.
Qed.

Lemma heap_reachable s : rtc heap_step (heap_new, ∅) s -> live_inv s.1 s.2.
Proof.
  intros Hr. assert (forall t, live_inv t.1 t.2 -> forall s, rtc heap_step t s -> live_inv s.1 s.2) as Hgen.
  { intros t Ht s' Hs'. revert Ht. induction Hs' as [|[h1 L1] [h2 L2] s3 Hst _ IH]; [done|]. intros Ht. apply IH. by eapply heap_step_live. }
  exact (Hgen (heap_new, ∅) heap_new_inv _ Hr).
Qed.

(** C6.  After any sequence of [new] and [delete] that leaves the slab region a page: no two
    blocks in use overlap, every block is 8-byte aligned and inside the heap regions, [new] with
    room left returns a block that is apart from all the blocks in use, and [delete] of any
    block in use returns. *)
Theorem kernel_allocations_disjoint (h : KernelHeap) (L : gmap Z Z) :
  rtc heap_step (heap_new, ∅) (h, L) ->
  blocks_disjoint L /\
  (forall p n, L !! p = Some n -> p mod 8 = 0 /\ kKernelSlabHeapStart <= p /\ p + n <= kKernelBuddyHeapEnd) /\
  (forall size, 0 <= size < 2 ^ 31 -> next_slab_heap_page_ h < kKernelSlabHeapEnd ->
     (128 < size -> next_addr_ h + size < kKernelBuddyHeapEnd) ->
     exists p h', Heap_Allocate size h = Ret (p, h') /\ fresh_block L p size) /\
  (forall p n, L !! p = Some n -> exists h', operator_delete p h = Ret h').
Proof.
  intros HI%heap_reachable. cbn [fst snd] in HI. split_and!.
  - exact (li_disjoint _ _ HI).
  - intros p n Hp. destruct (li_live _ _ HI p n Hp) as [Hl|(H1 & H2 & H3 & H4)].
    + destruct (slab_live_range _ _ _ (li_inv _ _ HI) Hl) as (_ & ? & ? & _ & ?). unfold kKernelSlabHeapEnd, kKernelBuddyHeapEnd in *.
      split_and!; [done|done|lia].
    + destruct (kh_addr _ (li_inv _ _ HI)) as (_ & _ & ?). unfold kKernelSlabHeapStart, kKernelBuddyHeapStart in *. split_and!; [done|lia|lia].
  - intros size Hs Hslab Hroom. destruct (Heap_Allocate_live h L size HI Hs Hslab Hroom) as (p & h' & Hr & Hf & _). eauto.
  - intros p n Hp. destruct (operator_delete_live h L p n HI Hp) as (h' & Hr & _). eauto.
Qed.

(** Two blocks of 24 bytes, one of 200, and the first given back. *)
Definition new_at (size : Z) h : Z * KernelHeap :=
  match Heap_Allocate size h with Ret r => r | _ => (0, h) end.
Definition demo1 : Z * KernelHeap := new_at 24 heap_new.
Definition demo2 : Z * KernelHeap := new_at 24 demo1.2.
Definition demo3 : Z * KernelHeap := new_at 200 demo2.2.
Definition demo4 : KernelHeap := match operator_delete demo1.1 demo3.2 with Ret h => h | _ => heap_new end.
Definition demo_live : gmap Z Z := delete demo1.1 (<[demo3.1 := 200]> (<[demo2.1 := 24]> (<[demo1.1 := 24]> ∅))).

(** The next 17 bytes come from the block given back. *)
Lemma kernel_allocations_disjoint_witness :
  rtc heap_step (heap_new, ∅) (demo4, demo_live) /\ blocks_disjoint demo_live /\ size demo_live = 2%nat /\
  (new_at 17 demo4).1 = demo1.1 /\ demo1.1 = kKernelSlabHeapStart + 64.
Proof.
  assert (rtc heap_step (heap_new, ∅) (demo4, demo_live)) as Hrun.
  { eapply rtc_l; [apply (step_new _ _ 24 demo1.1 demo1.2); [lia|vm_compute; reflexivity|vm_compute; reflexivity]|].
    eapply rtc_l; [apply (step_new _ _ 24 demo2.1 demo2.2); [lia|vm_compute; reflexivity|vm_compute; reflexivity]|].
    eapply rtc_l; [apply (step_new _ _ 200 demo3.1 demo3.2); [lia|vm_compute; reflexivity|vm_compute; reflexivity]|].
    eapply rtc_l; [apply (step_delete _ _ demo1.1 24 demo4); [vm_compute; reflexivity|vm_compute; reflexivity]|]. apply rtc_refl. }
  split; [exact Hrun|]. split; [exact (proj1 (kernel_allocations_disjoint _ _ Hrun))|].
  split_and!; vm_compute; reflexivity.
Defined.

(** The limit that [AcquireSlabHeapRegion] tests is the end of the other region: once the slab
    region is used up, the next slab has the address of the first large block, and [delete]
    on its elements does nothing. *)
Lemma slab_region_overruns h :
  next_slab_heap_page_ h = kKernelSlabHeapEnd ->
  (exists h', AcquireSlabHeapRegion kSlabSize h = Ret (kKernelBuddyHeapStart, h')) /\
  (forall a, kKernelBuddyHeapStart <= a -> operator_delete a h = Ret h).
Proof.
  intros Hn. split.
  - unfold AcquireSlabHeapRegion. rewrite Hn. by eexists.
  - intros a Ha. unfold operator_delete, IsSlab. rewrite (proj2 (Z.ltb_ge a kKernelSlabHeapEnd)); [by rewrite andb_false_r|].
    unfold kKernelBuddyHeapStart, kKernelSlabHeapEnd in *. lia.
Qed.

(** The sum in the bound test wraps: a request that is too large succeeds and resets the
    growing pointer to address 0. *)
Lemma heap_bound_wraps h :
  kh_inv h -> exists h', Heap_Allocate (2 ^ 64 - next_addr_ h) h = Ret (next_addr_ h, h') /\ next_addr_ h' = 0.
Proof.
  intros Hi. destruct (kh_addr _ Hi) as (_ & H1 & H2). unfold kKernelBuddyHeapStart, kKernelBuddyHeapEnd in *. unfold Heap_Allocate.
  do 5 (rewrite (proj2 (Z.leb_gt (2 ^ 64 - next_addr_ h) _)) by lia).
  replace (next_addr_ h + (2 ^ 64 - next_addr_ h)) with (2 ^ 64) by lia. eexists. split; reflexivity.
Qed.
End runs.
