(* ===== verification/Buddy.v ===== *)
(** * The user-space heap (lib/mammoth/util/new.cpp)

    [operator new] and [operator delete] of every user process: a buddy
    allocator over page groups obtained from the kernel.  The headers
    ([BuddySlot]) live in the memory that is handed out, so the state is the
    memory at header addresses, the head of the free list and the addresses
    the kernel will return for the next page groups.  The calls that lock the
    heap's mutex are left out: every operation runs under it. *)

From Stdlib Require Import ZArith Lia.
From stdpp Require Import base tactics numbers list gmap fin_maps relations.
From S2P Require Import Prelude.

Record BuddySlot : Type := mkSlot { next : Z; prev : Z; size : Z }.

Record BuddyAllocator : Type := mkBuddy {
  mem : gmap Z BuddySlot;
  free_front_ : Z;         (* [nullptr] is 0 *)
  page_groups : list Z;    (* what [ZAddressSpaceMap] will answer *)
}.

Definition sizeof_BuddySlot : Z := 24.

Section ops.
Implicit Types s : BuddyAllocator.

Definition slot_at (a : Z) s : res BuddySlot := deref (mem s !! a).
Definition put_slot (a : Z) (x : BuddySlot) s : BuddyAllocator :=
  mkBuddy (<[a := x]> (mem s)) (free_front_ s) (page_groups s).
Definition with_front (a : Z) s : BuddyAllocator := mkBuddy (mem s) a (page_groups s).

(** Assignments to one field of a header. *)
Definition set_next (a v : Z) s : res BuddyAllocator :=
  x ← slot_at a s; Ret (put_slot a (mkSlot v (prev x) (size x)) s).
Definition set_prev (a v : Z) s : res BuddyAllocator :=
  x ← slot_at a s; Ret (put_slot a (mkSlot (next x) v (size x)) s).
Definition set_size (a v : Z) s : res BuddyAllocator :=
  x ← slot_at a s; Ret (put_slot a (mkSlot (next x) (prev x) v) s).

Definition GetBuddy (slot : Z) s : res Z := x ← slot_at slot s; Ret (Z.lxor slot (size x)).

(** [while (pow2 < needed) pow2 <<= 1;] *)
Fixpoint pow2_loop (fuel : nat) (pow2 needed : Z) : res Z :=
  if pow2 <? needed then
    match fuel with
    | O => NoFuel
    | S fuel' => pow2_loop fuel' (u64 (Z.shiftl pow2 1)) needed
    end
  else Ret pow2.

Definition NeededSize (sz : Z) : res Z := pow2_loop 64 32 (sz [+] sizeof_BuddySlot).

(** The kernel calls of [AllocatePagePair]: a failing one crashes the process. *)
Definition AllocatePagePair s : res (Z * BuddyAllocator) :=
  match page_groups s with
  | [] => Panic
  | vaddr :: rest => Ret (vaddr, mkBuddy (mem s) (free_front_ s) rest)
  end.

Definition AddPage s : res BuddyAllocator :=
  '(slot, s) ← AllocatePagePair s;
  let s := put_slot slot (mkSlot (free_front_ s) 0 0x2000) s in
  s ← (if negb (free_front_ s =? 0) then set_prev (free_front_ s) slot s else Ret s);
  Ret (with_front slot s).

Definition Split (slot : Z) s : res (Z * BuddyAllocator) :=
  x ← slot_at slot s;
  if size x <=? 32 then Panic else
  s ← set_size slot (size x / 2) s;
  new_slot ← GetBuddy slot s;
  x ← slot_at slot s;
  let s := put_slot new_slot (mkSlot (next x) slot (size x)) s in
  s ← (if negb (next x =? 0) then set_prev (next x) new_slot s else Ret s);
  s ← set_next slot new_slot s;
  Ret (slot, s).

Definition Remove (slot : Z) s : res BuddyAllocator :=
  x ← slot_at slot s;
  s ← (if negb (prev x =? 0) then set_next (prev x) (next x) s else Ret s);
  x ← slot_at slot s;
  s ← (if negb (next x =? 0) then set_prev (next x) (prev x) s else Ret s);
  x ← slot_at slot s;
  let s := if free_front_ s =? slot then with_front (next x) s else s in
  s ← set_next slot 0 s;
  set_prev slot 0 s.

(** [while (slot != nullptr)] of [Allocate]: the smallest block that fits. *)
Fixpoint best_fit_loop (fuel : nat) (slot needed best_fit : Z) s : res Z :=
  if slot =? 0 then Ret best_fit else
  match fuel with
  | O => NoFuel
  | S fuel' =>
      x ← slot_at slot s;
      better ← (if best_fit =? 0 then Ret true else b ← slot_at best_fit s; Ret (size x <? size b));
      best_fit_loop fuel' (next x) needed (if (size x >=? needed) && (better : bool) then slot else best_fit) s
  end.

(** [while (best_fit->size > needed) best_fit = Split(best_fit);] *)
Fixpoint split_loop (fuel : nat) (best_fit needed : Z) s : res (Z * BuddyAllocator) :=
  x ← slot_at best_fit s;
  if size x >? needed then
    match fuel with
    | O => NoFuel
    | S fuel' => '(best_fit, s) ← Split best_fit s; split_loop fuel' best_fit needed s
    end
  else Ret (best_fit, s).

Definition Allocate (sz : Z) s : res (Z * BuddyAllocator) :=
  if sz >? 0x4000 - sizeof_BuddySlot then Panic else
  s ← (if free_front_ s =? 0 then AddPage s else Ret s);
  needed ← NeededSize sz;
  best_fit ← best_fit_loop (S (base.size (mem s))) (free_front_ s) needed 0 s;
  '(best_fit, s) ← (if best_fit =? 0 then s ← AddPage s; Ret (free_front_ s, s) else Ret (best_fit, s));
  '(best_fit, s) ← split_loop 64 best_fit needed s;
  s ← Remove best_fit s;
  Ret (best_fit + sizeof_BuddySlot, s).

(** The merging loop of [Free]. *)
Fixpoint merge_loop (fuel : nat) (slot buddy : Z) s : res (Z * BuddyAllocator) :=
  x ← slot_at slot s;
  if negb (size x <? 0x2000) then Ret (slot, s) else
  b ← slot_at buddy s;
  if (negb (next b =? 0) || negb (prev b =? 0)) && (size b =? size x) then
    match fuel with
    | O => NoFuel
    | S fuel' =>
        s ← Remove buddy s;
        let slot := if buddy <? slot then buddy else slot in
        x ← slot_at slot s;
        s ← set_size slot (size x [*] 2) s;
        buddy ← GetBuddy slot s;
        merge_loop fuel' slot buddy s
    end
  else Ret (slot, s).

Definition Free (ptr : Z) s : res BuddyAllocator :=
  let slot := ptr - sizeof_BuddySlot in
  x ← slot_at slot s;
  if negb (next x =? 0) || negb (prev x =? 0) then Panic else
  buddy ← GetBuddy slot s;
  '(slot, s) ← merge_loop 64 slot buddy s;
  s ← (if negb (free_front_ s =? 0) then set_prev (free_front_ s) slot s else Ret s);
  s ← set_next slot (free_front_ s) s;
  Ret (with_front slot s).

(** [BuddyAllocator::Init], from a fresh process. *)
Definition Init s : res BuddyAllocator := AddPage (with_front 0 s).
End ops.

(** ** The free list *)

(** [l] is linked in both directions, between [p] and [n]. *)
Fixpoint seg (h : gmap Z BuddySlot) (p : Z) (l : list Z) (n : Z) : Prop :=
  match l with
  | [] => True
  | a :: l' => (exists sz, h !! a = Some (mkSlot (default n (head l')) p sz)) /\ seg h a l' n
  end.

Definition szof (h : gmap Z BuddySlot) (a : Z) : option Z := size <$> h !! a.

Section links.
Implicit Types (h : gmap Z BuddySlot) (l : list Z).

Lemma seg_cons h p a l n :
  seg h p (a :: l) n <-> (exists sz, h !! a = Some (mkSlot (default n (head l)) p sz)) /\ seg h a l n.
Proof. done. Qed.

Lemma seg_app h p l1 l2 n :
  seg h p (l1 ++ l2) n <-> seg h p l1 (default n (head l2)) /\ seg h (default p (last l1)) l2 n.
Proof.
  revert p. induction l1 as [|a l1 IH]; intros p; cbn [app seg]; [naive_solver|].
  rewrite IH. replace (default p (last (a :: l1))) with (default a (last l1)) by (by destruct l1 using rev_ind; [|rewrite app_comm_cons, !last_snoc]).
  replace (default n (head (l1 ++ l2))) with (default (default n (head l2)) (head l1)) by (by destruct l1). naive_solver.
Qed.

Lemma seg_frame h p l n b x : b ∉ l -> seg h p l n -> seg (<[b := x]> h) p l n.
Proof.
  revert p. induction l as [|a l IH]; intros p Hb; [done|]. cbn [seg]. intros [[sz Ha] Hl].
  split; [|apply IH; set_solver]. exists sz. rewrite lookup_insert_ne; [done|set_solver].
Qed.

Lemma seg_last h p l a n n' :
  NoDup (l ++ [a]) -> seg h p (l ++ [a]) n ->
  exists sz, h !! a = Some (mkSlot n (default p (last l)) sz) /\
    seg (<[a := mkSlot n' (default p (last l)) sz]> h) p (l ++ [a]) n'.
Proof.
  intros Hnd [Hl [[sz Ha] _]]%seg_app. exists sz. split; [done|]. apply seg_app. split.
  - apply seg_frame; [|done]. apply NoDup_app in Hnd as (_ & Hd & _). intros Hin. by apply (Hd a Hin), list_elem_of_singleton.
  - split; [|done]. exists sz. by rewrite lookup_insert_eq.
Qed.

Lemma seg_head h p p' a l n :
  NoDup (a :: l) -> seg h p (a :: l) n ->
  exists sz, h !! a = Some (mkSlot (default n (head l)) p sz) /\
    seg (<[a := mkSlot (default n (head l)) p' sz]> h) p' (a :: l) n.
Proof.
  intros [Hn _]%NoDup_cons [[sz Ha] Hl]. exists sz. split; [done|]. split; [exists sz; by rewrite lookup_insert_eq|].
  by apply seg_frame.
Qed.

Lemma seg_lookup h p l n a : seg h p l n -> a ∈ l -> is_Some (h !! a).
Proof.
  revert p. induction l as [|b l IH]; intros p; [by intros _ ?%elem_of_nil|]. intros [[sz Hb] Hl] [-> |Hin]%elem_of_cons; eauto.
Qed.

Lemma szof_insert h a x b : h !! a = Some x -> forall y, size y = size x -> szof (<[a := y]> h) b = szof h b.
Proof.
  intros Ha y Hy. unfold szof. destruct (decide (a = b)) as [<-|]; [by rewrite lookup_insert_eq, Ha; cbn; rewrite Hy|by rewrite lookup_insert_ne].
Qed.
End links.

(** Pushing a header that is not in the list to its front. *)
Lemma push_front_seg h a l sz :
  seg h 0 l 0 -> NoDup l -> a ∉ l -> h !! a = Some (mkSlot (default 0 (head l)) 0 sz) ->
  exists h', match l with [] => h' = h | b :: _ => exists x, h !! b = Some x /\ h' = <[b := mkSlot (next x) a (size x)]> h end /\
    seg h' 0 (a :: l) 0.
Proof.
  intros Hl Hnd Hn Ha. destruct l as [|b l].
  - exists h. split; [done|]. cbn. eauto.
  - destruct (seg_head h 0 a b l 0 Hnd Hl) as (szb & Hb & Hseg). eexists. split; [eexists; split; [exact Hb|reflexivity]|].
    cbn [next size]. cbn [seg]. split; [|exact Hseg]. exists sz. cbn in Ha |- *. rewrite lookup_insert_ne; [done|set_solver].
Qed.

(** The list the free pointer starts. *)
Record free_list (s : BuddyAllocator) (l : list Z) : Prop := {
  fl_seg : seg (mem s) 0 l 0;
  fl_front : free_front_ s = default 0 (head l);
  fl_nodup : NoDup l;
  fl_null : 0 ∉ l;
}.

(** What changes between two states outside the free list [l]. *)
Record touches (l : list Z) (s s' : BuddyAllocator) : Prop := {
  to_size : forall b, szof (mem s') b = szof (mem s) b;
  to_other : forall b, b ∉ l -> mem s' !! b = mem s !! b;
  to_pages : page_groups s' = page_groups s;
}.

Section list_ops.
Implicit Types s : BuddyAllocator.

Lemma head_default_ne l : 0 ∉ l -> l <> [] -> default 0 (head l) <> 0.
Proof. destruct l as [|b l]; [done|]. cbn. set_solver. Qed.

Lemma last_default_ne l : 0 ∉ l -> l <> [] -> default 0 (last l) <> 0.
Proof. destruct l as [|b l _] using rev_ind; [done|]. rewrite last_snoc. cbn. set_solver. Qed.

Lemma last_lookup_seg h p l n : seg h p l n -> l <> [] -> exists l' a sz,
  l = l' ++ [a] /\ last l = Some a /\ h !! a = Some (mkSlot n (default p (last l')) sz).
Proof.
  destruct l as [|a l _] using rev_ind; [done|]. intros [_ [[sz Ha] _]]%seg_app _. exists l, a, sz. by rewrite last_snoc.
Qed.

Lemma free_list_Remove_spec s l1 a l2 :
  free_list s (l1 ++ a :: l2) ->
  exists s' sz, Remove a s = Ret s' /\ free_list s' (l1 ++ l2) /\ touches (l1 ++ a :: l2) s s' /\
    mem s' !! a = Some (mkSlot 0 0 sz).
Proof.
  intros [Hseg Hfront Hnd Hnull]. pose proof Hseg as (Hs1 & [sz Ha] & Hs2)%seg_app. cbn [head default] in Hs1.
  assert (a ∉ l1 /\ a ∉ l2 /\ NoDup l1 /\ NoDup l2 /\ (forall x, x ∈ l1 -> x ∉ l2) /\ 0 ∉ l1 /\ 0 ∉ l2 /\ a <> 0) as
    (Ha1 & Ha2 & Hnd1 & Hnd2 & Hd & Hz1 & Hz2 & Haz).
  { apply NoDup_app in Hnd as (H1 & H2 & [H3 H4]%NoDup_cons). split_and!; set_solver. }
  set (P := default 0 (last l1)) in *. set (N := default 0 (head l2)) in *.
  (* the successor of the predecessor *)
  assert (exists h1, (s ← (if negb (P =? 0) then set_next P N s else Ret s); Ret s) = Ret (mkBuddy h1 (free_front_ s) (page_groups s)) /\
    seg h1 0 l1 N /\ seg h1 a l2 0 /\ h1 !! a = Some (mkSlot N P sz) /\ (forall b, szof h1 b = szof (mem s) b) /\
    (forall b, b ∉ l1 -> h1 !! b = mem s !! b)) as (h1 & Hr1 & Hs1' & Hs2' & Ha' & Hsz1 & Ho1).
  { destruct l1 as [|b l1 _] using rev_ind.
    - exists (mem s). cbn. split_and!; try done. by destruct s.
    - destruct (seg_last (mem s) 0 l1 b a N Hnd1 Hs1) as (szb & Hb & Hsb). subst P. rewrite last_snoc. cbn [from_option id] in *.
      assert (b <> 0) by set_solver. rewrite (proj2 (Z.eqb_neq b 0)) by done. cbn [negb]. unfold set_next, slot_at. rewrite Hb.
      eexists. split; [reflexivity|]. cbn [prev size]. split_and!; [done|apply seg_frame; [set_solver|done]|
        rewrite lookup_insert_ne by set_solver; by rewrite Ha, last_snoc|intros c; by eapply szof_insert|].
      intros c Hc. rewrite lookup_insert_ne; [done|set_solver]. }
  (* the predecessor of the successor *)
  assert (exists h2, (s ← (if negb (N =? 0) then set_prev N P (mkBuddy h1 (free_front_ s) (page_groups s))
                            else Ret (mkBuddy h1 (free_front_ s) (page_groups s))); Ret s) = Ret (mkBuddy h2 (free_front_ s) (page_groups s)) /\
    seg h2 0 l1 N /\ seg h2 P l2 0 /\ h2 !! a = Some (mkSlot N P sz) /\ (forall b, szof h2 b = szof (mem s) b) /\
    (forall b, b ∉ l1 -> b ∉ l2 -> h2 !! b = mem s !! b)) as (h2 & Hr2 & Hs1'' & Hs2'' & Ha'' & Hsz2 & Ho2).
  { destruct l2 as [|b l2].
    - exists h1. cbn. split_and!; try done. intros b H1 _. by apply Ho1.
    - destruct (seg_head h1 a P b l2 0 Hnd2 Hs2') as (szb & Hb & Hsb). subst N. cbn [head from_option id] in *.
      assert (b <> 0) by set_solver. rewrite (proj2 (Z.eqb_neq b 0)) by done. cbn [negb]. unfold set_prev, slot_at. cbn [mem]. rewrite Hb.
      eexists. split; [reflexivity|]. cbn [next size]. split_and!; [apply seg_frame; [set_solver|done]|done|
        by rewrite lookup_insert_ne by set_solver|intros c; rewrite <- Hsz1; by eapply szof_insert|].
      intros c Hc1 Hc2. rewrite lookup_insert_ne by set_solver. by apply Ho1. }
  unfold Remove, slot_at. rewrite Ha. cbn [deref]. rewrite ret_bind. cbn [prev next].
  apply bind_Ret in Hr1 as (s1 & -> & [= ->]). rewrite ret_bind. cbn [mem]. rewrite Ha'. cbn [deref]. rewrite ret_bind. cbn [prev next].
  apply bind_Ret in Hr2 as (s2 & -> & [= ->]). rewrite ret_bind. cbn [mem]. rewrite Ha''. cbn [deref]. rewrite ret_bind. cbn [next free_front_].
  set (s3 := if free_front_ s =? a then _ else _).
  assert (mem s3 = h2 /\ free_front_ s3 = default 0 (head (l1 ++ l2)) /\ page_groups s3 = page_groups s) as (Hm3 & Hf3 & Hp3).
  { subst s3. rewrite Hfront. destruct l1 as [|b l1]; cbn [app head default from_option id].
    - by rewrite Z.eqb_refl.
    - rewrite (proj2 (Z.eqb_neq b a)) by set_solver. done. }
  unfold set_next at 1, slot_at. rewrite Hm3, Ha''. cbn [deref]. rewrite !ret_bind. cbn [prev size].
  unfold set_prev, slot_at. cbn [mem put_slot]. rewrite lookup_insert_eq. cbn [deref]. rewrite ret_bind. cbn [next size].
  eexists _, sz. split; [reflexivity|]. split_and!; [split|split|].
  - cbn. rewrite Hm3. apply seg_frame, seg_frame; [set_solver..|]. apply seg_app. done.
  - exact Hf3.
  - apply NoDup_app. by split_and!.
  - set_solver.
  - intros b. cbn. rewrite Hm3, insert_insert_eq, <- Hsz2. by eapply szof_insert.
  - intros b Hb. cbn. rewrite Hm3, insert_insert_eq, lookup_insert_ne by set_solver. apply Ho2; set_solver.
  - exact Hp3.
  - cbn. by rewrite lookup_insert_eq.
Qed.

(** The end of [Free]. *)
Lemma push_spec s l a sz :
  free_list s l -> a ∉ l -> a <> 0 -> mem s !! a = Some (mkSlot 0 0 sz) ->
  exists s', (s1 ← (if negb (free_front_ s =? 0) then set_prev (free_front_ s) a s else Ret s);
              s2 ← set_next a (free_front_ s1) s1; Ret (with_front a s2)) = Ret s' /\
    free_list s' (a :: l) /\ touches (a :: l) s s'.
Proof.
  intros [Hseg Hfront Hnd Hnull] Hn Hz Ha. destruct l as [|b l]; cbn [head from_option id] in Hfront; rewrite Hfront.
  - cbn [negb Z.eqb]. rewrite ret_bind, Hfront. unfold set_next, slot_at. rewrite Ha. cbn [deref]. rewrite !ret_bind. cbn [prev size].
    eexists. split; [reflexivity|]. split; [split|split]; cbn.
    + split; [|done]. exists sz. by rewrite lookup_insert_eq.
    + done.
    + by apply NoDup_singleton.
    + set_solver.
    + intros b. by eapply szof_insert.
    + intros b Hb. rewrite lookup_insert_ne; [done|set_solver].
    + done.
  - assert (b <> 0) by set_solver. rewrite (proj2 (Z.eqb_neq b 0)) by done. cbn [negb].
    destruct (seg_head (mem s) 0 a b l 0 Hnd Hseg) as (szb & Hb & Hsb).
    unfold set_prev, slot_at. rewrite Hb. cbn [deref]. rewrite !ret_bind. cbn [next size]. unfold set_next, slot_at.
    cbn [mem put_slot free_front_]. rewrite lookup_insert_ne, Ha by set_solver. cbn [deref]. rewrite !ret_bind. cbn [prev size].
    eexists. split; [reflexivity|]. split; [split|split]; cbn -[seg].
    + apply seg_cons. split; [exists sz; rewrite lookup_insert_eq; cbn; by rewrite Hfront|]. apply seg_frame; [set_solver|done].
    + done.
    + by apply NoDup_cons.
    + set_solver.
    + intros c. etrans; [eapply szof_insert; [by rewrite lookup_insert_ne by set_solver|done]|]. by eapply szof_insert.
    + intros c Hc. rewrite !lookup_insert_ne by set_solver. done.
    + done.
Qed.

Lemma AddPage_spec s l v rest :
  free_list s l -> page_groups s = v :: rest -> v ∉ l -> v <> 0 ->
  exists s', AddPage s = Ret s' /\ free_list s' (v :: l) /\ page_groups s' = rest /\
    szof (mem s') v = Some 0x2000 /\ (forall b, b <> v -> szof (mem s') b = szof (mem s) b) /\
    (forall b, b ∉ v :: l -> mem s' !! b = mem s !! b).
Proof.
  intros [Hseg Hfront Hnd Hnull] Hpg Hn Hz. unfold AddPage, AllocatePagePair. rewrite Hpg, ret_bind.
  cbn [free_front_ put_slot]. destruct l as [|b l]; cbn [head from_option id] in Hfront; rewrite Hfront.
  - cbn [negb Z.eqb]. rewrite ret_bind. eexists. split; [reflexivity|]. unfold szof. cbn. split_and!; [split|..]; cbn.
    + split; [|done]. exists 0x2000. by rewrite lookup_insert_eq.
    + done.
    + by apply NoDup_singleton.
    + set_solver.
    + done.
    + by rewrite lookup_insert_eq.
    + intros b Hb. by rewrite lookup_insert_ne.
    + intros b Hb. rewrite lookup_insert_ne; [done|set_solver].
  - assert (b <> 0) by set_solver. rewrite (proj2 (Z.eqb_neq b 0)) by done. cbn [negb].
    destruct (seg_head (mem s) 0 v b l 0 Hnd Hseg) as (szb & Hb & Hsb).
    unfold set_prev, slot_at. cbn [mem put_slot]. rewrite lookup_insert_ne, Hb by set_solver. cbn [deref]. rewrite !ret_bind. cbn [next size].
    eexists. split; [reflexivity|]. split_and!; [split|..]; cbn -[seg szof].
    + apply seg_cons. split.
      * exists 0x2000. rewrite lookup_insert_ne, lookup_insert_eq by set_solver. cbn. done.
      * rewrite insert_insert_ne by set_solver. apply seg_frame; [set_solver|done].
    + done.
    + by apply NoDup_cons.
    + set_solver.
    + done.
    + unfold szof. cbn. rewrite lookup_insert_ne, lookup_insert_eq by set_solver. done.
    + intros c Hc. rewrite insert_insert_ne by set_solver. trans (szof (<[b := mkSlot (default 0 (head l)) v szb]> (mem s)) c); [|by eapply szof_insert].
      unfold szof. by rewrite lookup_insert_ne by done.
    + intros c Hc. rewrite !lookup_insert_ne by set_solver. done.
Qed.

Lemma Split_spec s l1 a l2 h :
  free_list s (l1 ++ a :: l2) -> szof (mem s) a = Some (2 * h) -> 32 <= h ->
  let b := Z.lxor a h in b ∉ l1 ++ a :: l2 -> b <> 0 ->
  exists s', Split a s = Ret (a, s') /\ free_list s' (l1 ++ a :: b :: l2) /\ page_groups s' = page_groups s /\
    szof (mem s') a = Some h /\ szof (mem s') b = Some h /\
    (forall c, c <> a -> c <> b -> szof (mem s') c = szof (mem s) c) /\
    (forall c, c ∉ l1 ++ a :: b :: l2 -> mem s' !! c = mem s !! c).
Proof.
  intros [Hseg Hfront Hnd Hnull] Hsz Hh b Hb Hbz. pose proof Hseg as (Hs1 & [sz Ha] & Hs2)%seg_app. cbn [head from_option id] in Hs1.
  unfold szof in Hsz. rewrite Ha in Hsz. injection Hsz as Hsz. cbn in Hsz. subst sz.
  assert (a ∉ l1 /\ a ∉ l2 /\ NoDup l2 /\ (forall x, x ∈ l1 -> x ∉ l2) /\ 0 ∉ l2) as (Ha1 & Ha2 & Hnd2 & Hd & Hz2).
  { apply NoDup_app in Hnd as (H1 & H2 & [H3 H4]%NoDup_cons). split_and!; set_solver. }
  set (P := default 0 (last l1)) in *. set (N := default 0 (head l2)) in *.
  unfold Split, slot_at. rewrite Ha. cbn [deref]. rewrite ret_bind. cbn [size]. rewrite (proj2 (Z.leb_gt _ _)) by lia.
  unfold set_size, slot_at. rewrite Ha. cbn [deref]. rewrite !ret_bind. cbn [next prev].
  replace (2 * h / 2) with h by (rewrite Z.mul_comm, Z.div_mul; lia).
  unfold GetBuddy, slot_at. cbn [mem put_slot]. rewrite lookup_insert_eq. cbn [deref]. rewrite !ret_bind. cbn [size next]. fold b. clearbody b.
  set (s1 := put_slot b _ _). assert (a <> b) as Hab by set_solver.
  assert (exists h2, (s ← (if negb (N =? 0) then set_prev N b s1 else Ret s1); Ret s) = Ret (mkBuddy h2 (free_front_ s) (page_groups s)) /\
    seg h2 b l2 0 /\ h2 !! a = Some (mkSlot N P h) /\ h2 !! b = Some (mkSlot N a h) /\
    (forall c, c <> a -> c <> b -> szof h2 c = szof (mem s) c) /\
    (forall c, c <> a -> c <> b -> c ∉ l2 -> h2 !! c = mem s !! c)) as (h2 & Hr2 & Hsg2 & Ha' & Hb' & Hsz2 & Ho2).
  { destruct l2 as [|n l2].
    - exists (mem s1). cbn [negb Z.eqb N head from_option]. split; [by destruct s|]. split; [done|]. cbn. split_and!.
      + by rewrite lookup_insert_ne, lookup_insert_eq by done.
      + by rewrite lookup_insert_eq.
      + intros c Hca Hcb. unfold szof. by rewrite !lookup_insert_ne by done.
      + intros c Hca Hcb _. by rewrite !lookup_insert_ne by done.
    - destruct (seg_head (mem s) a b n l2 0 Hnd2 Hs2) as (szb & Hbn & Hsb). subst N. cbn [head from_option id] in *.
      assert (n <> 0 /\ n <> a /\ n <> b /\ a ∉ n :: l2 /\ b ∉ n :: l2) as (Hn0 & Hna & Hnb & Ha3 & Hb3)
        by (clear -Hz2 Ha2 Hb; set_solver).
      rewrite (proj2 (Z.eqb_neq n 0)) by done. cbn [negb]. unfold set_prev, slot_at.
      assert (mem s1 !! n = Some (mkSlot (default 0 (head l2)) a szb)) as Hn1
        by (cbn; rewrite !lookup_insert_ne by done; done). rewrite Hn1.
      eexists. split; [reflexivity|]. cbn [next size mem put_slot s1]. split_and!.
      + rewrite (insert_insert_ne _ n b), (insert_insert_ne _ n a) by done. apply seg_frame; [done|].
        apply seg_frame; [done|done].
      + by rewrite !lookup_insert_ne, lookup_insert_eq by done.
      + by rewrite lookup_insert_ne, lookup_insert_eq by done.
      + intros c Hca Hcb. rewrite (insert_insert_ne _ n b), (insert_insert_ne _ n a) by done.
        trans (szof (<[n := mkSlot (default 0 (head l2)) b szb]> (mem s)) c); [|by eapply szof_insert].
        unfold szof. by rewrite 2!lookup_insert_ne by done.
      + intros c Hca Hcb Hcl. rewrite !lookup_insert_ne; [done|done|done|]. clear -Hcl. set_solver. }
  apply bind_Ret in Hr2 as (s2 & -> & [= ->]). rewrite ret_bind. unfold set_next, slot_at. cbn [mem]. rewrite Ha'. cbn [deref].
  rewrite !ret_bind. cbn [prev size]. eexists. split; [reflexivity|]. cbn [mem put_slot page_groups]. split_and!; [split|..]; cbn [mem put_slot free_front_].
  - apply seg_app. cbn [head from_option id]. rewrite !seg_cons. split_and!.
    + apply seg_frame; [done|]. clear -Hs1 Ho2 Ha1 Hb Hd. revert Hs1. generalize 0 as p0.
      assert (forall c, c ∈ l1 -> h2 !! c = mem s !! c) as Hc by (intros c Hc; apply Ho2; set_solver). clear -Hc.
      induction l1 as [|x l1 IH]; intros p0; [done|]. intros [[sx Hx] Hl]. split; [exists sx; rewrite Hc; [done|set_solver]|].
      apply IH; [|done]. intros c Hin. apply Hc. set_solver.
    + exists h. by rewrite lookup_insert_eq.
    + exists h. by rewrite lookup_insert_ne.
    + apply seg_frame; [set_solver|done].
  - rewrite Hfront. by destruct l1.
  - apply NoDup_app in Hnd as (H1 & H2 & H3). apply NoDup_app. split_and!; [done|set_solver|]. apply NoDup_cons. split; [set_solver|].
    apply NoDup_cons. split; [set_solver|done].
  - set_solver.
  - done.
  - unfold szof. by rewrite lookup_insert_eq.
  - unfold szof. by rewrite lookup_insert_ne, Hb'.
  - intros c Hca Hcb. unfold szof. rewrite lookup_insert_ne by done. by apply Hsz2.
  - intros c Hc. rewrite lookup_insert_ne by set_solver. apply Ho2; set_solver.
Qed.
End list_ops.

(** ** Blocks

    The blocks of the heap, free or not, tile the managed 8 KiB of every
    page group; a block's size is a power of two and its address is a
    multiple of it. *)
Section arith.
Lemma pow_mod_le x k n : 0 <= k <= n -> x mod 2 ^ n = 0 -> x mod 2 ^ k = 0.
Proof.
  intros Hk Hx. apply Z.mod_divide; [lia|]. apply Z.mod_divide in Hx; [|lia].
  etrans; [|exact Hx]. exists (2 ^ (n - k)). rewrite <- Z.pow_add_r by lia. f_equal. lia.
Qed.

Lemma aligned_le m x a : 0 < m -> x mod m = 0 -> x <= a -> x <= a - a mod m.
Proof.
  intros Hm Hx Hle. pose proof (Z.div_mod x m). pose proof (Z.div_mod a m).
  assert (x / m <= a / m) by (apply Z.div_le_mono; lia). nia.
Qed.

Lemma aligned_lt m x a : 0 < m -> x mod m = 0 -> a < x -> a - a mod m + m <= x.
Proof.
  intros Hm Hx Hlt. pose proof (Z.div_mod x m). pose proof (Z.div_mod a m). pose proof (Z.mod_pos_bound a m).
  assert (a / m < x / m) by (apply Z.div_lt_upper_bound; nia). nia.
Qed.

(** Aligned blocks are nested or apart. *)
Lemma aligned_nested a j c t :
  0 <= j <= t -> a mod 2 ^ j = 0 -> c mod 2 ^ t = 0 ->
  a + 2 ^ j <= c \/ c <= a /\ a + 2 ^ j <= c + 2 ^ t \/ c + 2 ^ t <= a.
Proof.
  intros Hj Ha Hc. assert (c mod 2 ^ j = 0) as Hcj by (apply pow_mod_le with t; [lia|done]).
  assert ((c + 2 ^ t) mod 2 ^ j = 0) as Hce.
  { apply pow_mod_le with t; [lia|]. rewrite <- (Z.mul_1_l (2 ^ t)) at 1. by rewrite Z.mod_add by lia. }
  pose proof (aligned_lt (2 ^ j) c a). pose proof (aligned_lt (2 ^ j) (c + 2 ^ t) a). rewrite Ha in *. lia.
Qed.

Lemma xor_cases a k :
  0 <= k -> 0 <= a -> a mod 2 ^ k = 0 ->
  a mod 2 ^ (k + 1) = 0 /\ Z.lxor a (2 ^ k) = a + 2 ^ k \/
  a mod 2 ^ (k + 1) = 2 ^ k /\ Z.lxor a (2 ^ k) = a - 2 ^ k.
Proof.
  intros Hk Ha Hm. assert (exists q, a = q * 2 ^ k /\ 0 <= q) as (q & -> & Hq).
  { exists (a / 2 ^ k). split; [pose proof (Z.div_mod a (2 ^ k)); lia|]. apply Z.div_pos; lia. }
  assert (Z.lxor (q * 2 ^ k) (2 ^ k) = Z.lxor q 1 * 2 ^ k) as ->.
  { rewrite <- (Z.mul_1_l (2 ^ k)) at 2. rewrite <- !Z.shiftl_mul_pow2 by lia. by rewrite Z.shiftl_lxor. }
  replace (2 ^ (k + 1)) with (2 * 2 ^ k) by (rewrite Z.pow_add_r by lia; lia).
  rewrite Z.mul_mod_distr_r by lia.
  assert (Z.land (2 * (q / 2)) 1 = 0) as Hl by (change 1 with (2 ^ 1 - 1); rewrite land_low, Z.mul_comm, Z_mod_mult; lia).
  pose proof (Z.add_nocarry_lxor _ _ Hl) as Hx. pose proof (Z.div_mod q 2). pose proof (Z.mod_pos_bound q 2).
  destruct (decide (q mod 2 = 0)) as [E|E].
  - left. split; [lia|]. replace (Z.lxor q 1) with (q + 1); [lia|]. replace q with (2 * (q / 2)) at 2 by lia. lia.
  - right. assert (q mod 2 = 1) as E1 by lia. split; [lia|]. replace (Z.lxor q 1) with (q - 1); [lia|].
    replace q with (2 * (q / 2) + 1) at 2 by lia. rewrite Hx, Z.lxor_assoc, Z.lxor_nilpotent, Z.lxor_0_r. lia.
Qed.
End arith.

(** [B] gives the exponent of each block's size. *)
Record tiled (B : gmap Z Z) (P : list Z) : Prop := {
  ti_block : forall a k, B !! a = Some k -> exists p, 5 <= k <= 13 /\ a mod 2 ^ k = 0 /\
    p ∈ P /\ p <= a /\ a + 2 ^ k <= p + 0x2000;
  ti_disj : forall a1 k1 a2 k2, B !! a1 = Some k1 -> B !! a2 = Some k2 -> a1 <> a2 ->
    a1 + 2 ^ k1 <= a2 \/ a2 + 2 ^ k2 <= a1;
  ti_cover : forall p x, p ∈ P -> p <= x < p + 0x2000 -> exists a k, B !! a = Some k /\ a <= x < a + 2 ^ k;
  ti_page : forall p, p ∈ P -> p mod 2 ^ 13 = 0 /\ 0 < p;
}.

Section blocks.
Implicit Types B : gmap Z Z.

Lemma pow_succ k : 0 <= k -> 2 ^ (k + 1) = 2 * 2 ^ k /\ 0 < 2 ^ k.
Proof. intros Hk. rewrite Z.pow_add_r by lia. lia. Qed.

(** The chunk a block and its buddy make up stays in the block's page. *)
Lemma chunk_in_page B P a k :
  tiled B P -> B !! a = Some k -> k < 13 ->
  exists p, p ∈ P /\ p <= a - a mod 2 ^ (k + 1) /\ a - a mod 2 ^ (k + 1) + 2 ^ (k + 1) <= p + 0x2000.
Proof.
  intros Ht Ha Hk. destruct (ti_block _ _ Ht a k Ha) as (p & Hr & Hm & Hin & H1 & H2). exists p. split; [done|].
  destruct (ti_page _ _ Ht p Hin) as [Hp _]. assert (p mod 2 ^ (k + 1) = 0) as Hp' by (apply pow_mod_le with 13; lia).
  assert ((p + 0x2000) mod 2 ^ (k + 1) = 0) as Hq.
  { apply pow_mod_le with 13; [lia|]. change 0x2000 with (1 * 2 ^ 13). by rewrite Z.mod_add by lia. }
  split; [apply aligned_le; lia|apply aligned_lt; lia].
Qed.

Lemma buddy_facts B P a k :
  tiled B P -> B !! a = Some k -> k < 13 ->
  let b := Z.lxor a (2 ^ k) in
  b mod 2 ^ k = 0 /\ 0 < b /\ Z.min a b mod 2 ^ (k + 1) = 0 /\
  (b = a + 2 ^ k \/ b = a - 2 ^ k) /\ a - a mod 2 ^ (k + 1) = Z.min a b.
Proof.
  intros Ht Ha Hk b. destruct (ti_block _ _ Ht a k Ha) as (p & Hr & Hm & Hin & H1 & H2).
  destruct (ti_page _ _ Ht p Hin) as [_ Hp]. destruct (chunk_in_page B P a k Ht Ha Hk) as (p' & Hin' & H3 & H4).
  destruct (ti_page _ _ Ht p' Hin') as [_ Hp']. destruct (pow_succ k) as [Hpw Hpos]; [lia|].
  destruct (xor_cases a k) as [[Hz Hb]|[Hz Hb]]; [lia..|done| |]; subst b; rewrite Hb.
  - rewrite Z.min_l by lia. split_and!; [|lia|done|lia|lia]. rewrite <- (Z.mul_1_l (2 ^ k)) at 1. by rewrite Z.mod_add by lia.
  - rewrite Z.min_r by lia. split_and!; [|lia| |lia|lia].
    + replace (a - 2 ^ k) with (a + (-1) * 2 ^ k) by lia. by rewrite Z.mod_add by lia.
    + rewrite <- Hz. pose proof (Z.div_mod a (2 ^ (k + 1))). replace (a - a mod 2 ^ (k + 1)) with (a / 2 ^ (k + 1) * 2 ^ (k + 1)) by lia.
      apply Z_mod_mult.
Qed.

(** The buddy of a block is the start of a block that is no larger. *)
Lemma buddy_block B P a k :
  tiled B P -> B !! a = Some k -> k < 13 -> exists t, B !! Z.lxor a (2 ^ k) = Some t /\ t <= k.
Proof.
  intros Ht Ha Hk. set (b := Z.lxor a (2 ^ k)).
  destruct (buddy_facts B P a k Ht Ha Hk) as (Hbm & Hb0 & Hmin & Hab & Hc). fold b in Hbm, Hb0, Hmin, Hab, Hc.
  destruct (ti_block _ _ Ht a k Ha) as (_ & Hr & Ham & _). destruct (pow_succ k) as [Hpw Hpos]; [lia|].
  destruct (chunk_in_page B P a k Ht Ha Hk) as (p & Hin & H1 & H2). rewrite Hc in H1, H2.
  destruct (ti_cover _ _ Ht p b Hin) as (c & t & Hct & Hx); [lia|].
  destruct (ti_block _ _ Ht c t Hct) as (_ & Hrt & Hcm & _).
  destruct (decide (t <= k)) as [Hle|Hgt].
  - exists t. split; [|done]. destruct (aligned_nested c t b k) as [?|[?|?]]; [lia|done|done|lia| |lia].
    by replace b with c by lia.
  - exfalso. destruct (aligned_nested (Z.min a b) (k + 1) c t) as [?|[?|?]]; [lia|done|done|lia| |lia].
    assert (c <> a) by (intros ->; rewrite Ha in Hct; injection Hct as <-; lia).
    destruct (ti_disj _ _ Ht a k c t Ha Hct); lia.
Qed.

(** What the heap does to its blocks keeps them tiled. *)
Lemma tiled_add B P p :
  tiled B P -> p mod 2 ^ 13 = 0 -> 0 < p -> (forall q, q ∈ P -> q + 0x4000 <= p \/ p + 0x4000 <= q) ->
  B !! p = None /\ tiled (<[p := 13]> B) (p :: P).
Proof.
  intros Ht Hp Hpos Hfar.
  assert (forall a k, B !! a = Some k -> p + 0x2000 <= a \/ a + 2 ^ k <= p) as Haway.
  { intros a k Ha. destruct (ti_block _ _ Ht a k Ha) as (q & _ & _ & Hq & ? & ?). destruct (Hfar q Hq); lia. }
  split.
  { destruct (B !! p) as [k|] eqn:E; [|done]. destruct (Haway p k E); [lia|]. pose proof (Z.pow_pos_nonneg 2 k).
    destruct (ti_block _ _ Ht p k E). lia. }
  split.
  - intros a k [[<- <-]|[Hne Ha]]%lookup_insert_Some.
    + exists p. split_and!; [lia|lia|done|by left|lia|change (2 ^ 13) with 0x2000; lia].
    + destruct (ti_block _ _ Ht a k Ha) as (q & ? & ? & ? & ? & ?). exists q. split_and!; try done; [lia|lia|by right].
  - intros a1 k1 a2 k2 [[<- <-]|[_ H1]]%lookup_insert_Some [[<- <-]|[_ H2]]%lookup_insert_Some Hne; try done.
    + apply Haway in H2. change (2 ^ 13) with 0x2000. lia.
    + apply Haway in H1. change (2 ^ 13) with 0x2000. lia.
    + by eapply (ti_disj _ _ Ht).
  - intros q x [-> |Hq]%elem_of_cons Hx.
    + exists p, 13. rewrite lookup_insert_eq. split; [done|exact Hx].
    + destruct (ti_cover _ _ Ht q x Hq Hx) as (a & k & Ha & ?). exists a, k. split; [|done].
      rewrite lookup_insert_ne; [done|]. intros <-. destruct (Haway p k Ha); destruct (Hfar q Hq); lia.
  - intros q [-> |Hq]%elem_of_cons; [done|by apply (ti_page _ _ Ht)].
Qed.

Lemma tiled_split B P a k :
  tiled B P -> B !! a = Some (k + 1) -> 5 <= k ->
  Z.lxor a (2 ^ k) = a + 2 ^ k /\ B !! (a + 2 ^ k) = None /\ tiled (<[a + 2 ^ k := k]> (<[a := k]> B)) P.
Proof.
  intros Ht Ha Hk. destruct (ti_block _ _ Ht a (k + 1) Ha) as (p & Hr & Hm & Hin & H1 & H2).
  destruct (ti_page _ _ Ht p Hin) as [_ Hp]. destruct (pow_succ k) as [Hpw Hpos]; [lia|].
  assert (a mod 2 ^ k = 0) as Hmk by (apply pow_mod_le with (k + 1); [lia|done]).
  assert ((a + 2 ^ k) mod 2 ^ k = 0) as Hmk2 by (rewrite <- (Z.mul_1_l (2 ^ k)) at 1; by rewrite Z.mod_add by lia).
  assert (Z.lxor a (2 ^ k) = a + 2 ^ k) as Hx by (destruct (xor_cases a k) as [[??]|[??]]; [lia|lia|done|done|lia]).
  assert (forall c t, B !! c = Some t -> c <> a -> a + 2 * 2 ^ k <= c \/ c + 2 ^ t <= a) as Haway.
  { intros c t Hc Hne. pose proof (ti_disj _ _ Ht a (k + 1) c t Ha Hc). lia. }
  assert (forall c t, B !! c = Some t -> 0 < 2 ^ t) as Hpt.
  { intros c t Hc. destruct (ti_block _ _ Ht c t Hc) as (? & ? & _). lia. }
  assert (B !! (a + 2 ^ k) = None) as Hnone.
  { destruct (B !! (a + 2 ^ k)) as [t|] eqn:E; [|done]. pose proof (Hpt _ _ E). destruct (Haway _ t E); lia. }
  split_and!; [done|done|]. split.
  - intros c t [[<- <-]|[_ [[<- <-]|[_ Hc]]%lookup_insert_Some]]%lookup_insert_Some; [exists p; split_and!; try done; lia..|].
    by apply (ti_block _ _ Ht).
  - intros c1 t1 c2 t2 [[<- <-]|[_ [[<- <-]|[Hn1 Hc1]]%lookup_insert_Some]]%lookup_insert_Some
      [[<- <-]|[_ [[<- <-]|[Hn2 Hc2]]%lookup_insert_Some]]%lookup_insert_Some Hne; try done; try lia.
    + destruct (Haway _ _ Hc2); [done|lia|lia].
    + destruct (Haway _ _ Hc2); [done|lia|lia].
    + destruct (Haway _ _ Hc1); [done|lia|lia].
    + destruct (Haway _ _ Hc1); [done|lia|lia].
    + by eapply (ti_disj _ _ Ht).
  - intros q x Hq Hx'. destruct (ti_cover _ _ Ht q x Hq Hx') as (c & t & Hc & Hxc). destruct (decide (c = a)) as [->|Hne].
    + replace t with (k + 1) in * by congruence. destruct (decide (x < a + 2 ^ k)).
      * exists a, k. rewrite lookup_insert_ne, lookup_insert_eq by lia. split; [done|lia].
      * exists (a + 2 ^ k), k. rewrite lookup_insert_eq. split; [done|lia].
    + exists c, t. rewrite !lookup_insert_ne; [done|done|]. intros <-. congruence.
  - apply Ht.
Qed.

Lemma tiled_merge B P a k :
  tiled B P -> B !! a = Some k -> k < 13 -> B !! Z.lxor a (2 ^ k) = Some k ->
  let b := Z.lxor a (2 ^ k) in
  a <> b /\ tiled (<[Z.min a b := k + 1]> (delete a (delete b B))) P.
Proof.
  intros Ht Ha Hk Hb b. fold b in Hb. destruct (buddy_facts B P a k Ht Ha Hk) as (Hbm & Hb0 & Hmin & Hab & Hc).
  fold b in Hbm, Hb0, Hmin, Hab, Hc. destruct (ti_block _ _ Ht a k Ha) as (p0 & Hr & Ham & _).
  destruct (pow_succ k) as [Hpw Hpos]; [lia|]. destruct (chunk_in_page B P a k Ht Ha Hk) as (p & Hin & H1 & H2). rewrite Hc in H1, H2.
  assert (a <> b) as Hne by lia. split; [done|]. clearbody b.
  assert (forall c t, delete a (delete b B) !! c = Some t -> B !! c = Some t /\ c <> a /\ c <> b) as Hdel.
  { intros c t [? [? ?]%lookup_delete_Some]%lookup_delete_Some. split_and!; congruence. }
  assert (forall c t, B !! c = Some t -> c <> a -> c <> b -> Z.min a b + 2 * 2 ^ k <= c \/ c + 2 ^ t <= Z.min a b) as Haway.
  { intros c t Hct Hca Hcb. destruct (ti_block _ _ Ht c t Hct) as (_ & Hrt & _).
    pose proof (ti_disj _ _ Ht a k c t Ha Hct). pose proof (ti_disj _ _ Ht b k c t Hb Hct).
    destruct (ti_block _ _ Ht c t Hct) as (_ & _ & Hcm & _).
    assert (0 < 2 ^ t) by lia. destruct (decide (t <= k)) as [Hle|Hgt]; [|lia].
    pose proof (Z.pow_le_mono_r 2 t k). lia. }
  split.
  - intros c t [[<- <-]|[_ (Hct & _)%Hdel]]%lookup_insert_Some; [|by apply (ti_block _ _ Ht)].
    exists p. split_and!; try done; lia.
  - intros c1 t1 c2 t2 [[<- <-]|[_ (Hc1 & ? & ?)%Hdel]]%lookup_insert_Some
      [[<- <-]|[_ (Hc2 & ? & ?)%Hdel]]%lookup_insert_Some Hn; try done.
    + destruct (Haway c2 t2); try done; lia.
    + destruct (Haway c1 t1); try done; lia.
    + by eapply (ti_disj _ _ Ht).
  - intros q x Hq Hx. destruct (ti_cover _ _ Ht q x Hq Hx) as (c & t & Hct & Hxc).
    destruct (decide (c = a \/ c = b)) as [Hcab|Hcab].
    + exists (Z.min a b), (k + 1). rewrite lookup_insert_eq. split; [done|].
      assert (t = k) as -> by (destruct Hcab as [-> | ->]; congruence). lia.
    + exists c, t. split; [|done]. rewrite lookup_insert_ne by lia. rewrite !lookup_delete_ne by (intros ->; naive_solver). done.
  - apply Ht.
Qed.
End blocks.

(** ** The heap's invariant *)
Definition pages_ok (Q : list Z) : Prop :=
  NoDup Q /\ (forall p, p ∈ Q -> p mod 2 ^ 13 = 0 /\ 0 < p) /\
  (forall p q, p ∈ Q -> q ∈ Q -> p <> q -> p + 0x4000 <= q \/ q + 0x4000 <= p).

Lemma pages_ok_perm Q Q' : Q ≡ₚ Q' -> pages_ok Q' -> pages_ok Q.
Proof.
  intros HQ (H1 & H2 & H3). unfold pages_ok. split_and!; [by rewrite HQ|intros p; rewrite HQ; apply H2|].
  intros p q. rewrite HQ. apply H3.
Qed.

Section heap.
Context (Q : list Z).   (* every page group the kernel hands out *)
Implicit Types (s : BuddyAllocator) (B : gmap Z Z) (L P : list Z).

(** [B]: the blocks; [L]: the free ones, in list order; [P]: the page groups. *)
Record heap_inv (B : gmap Z Z) (L P : list Z) (s : BuddyAllocator) : Prop := {
  hi_list : free_list s L;
  hi_tiled : tiled B P;
  hi_sub : forall a, a ∈ L -> is_Some (B !! a);
  hi_size : forall a k, B !! a = Some k -> szof (mem s) a = Some (2 ^ k);
  hi_alloc : forall a k, B !! a = Some k -> a ∉ L -> mem s !! a = Some (mkSlot 0 0 (2 ^ k));
  hi_pages : P ++ page_groups s ≡ₚ Q /\ pages_ok Q;
}.

(** Blocks in use stay as they are. *)
Definition keeps (B B' : gmap Z Z) (L L' : list Z) (x : Z) : Prop :=
  forall c t, B !! c = Some t -> c ∉ L -> c <> x -> B' !! c = Some t /\ c ∉ L' /\ c <> x.

Lemma block_pos B P a k : tiled B P -> B !! a = Some k -> 5 <= k <= 13 /\ 0 < a.
Proof.
  intros Ht Ha. destruct (ti_block _ _ Ht a k Ha) as (p & ? & _ & Hp & ? & _). destruct (ti_page _ _ Ht p Hp). lia.
Qed.

Lemma AddPage_inv B L P s v rest :
  heap_inv B L P s -> page_groups s = v :: rest ->
  exists s', AddPage s = Ret s' /\ heap_inv (<[v := 13]> B) (v :: L) (v :: P) s' /\ page_groups s' = rest /\
    free_front_ s' = v /\ B !! v = None.
Proof.
  intros [Hl Ht Hsub Hsz Hal [Hperm HQ]] Hv. rewrite Hv in Hperm.
  destruct (pages_ok_perm _ _ Hperm HQ) as (Hnd & Hp & Hfar).
  destruct (Hp v) as [Hvm Hvp]; [set_solver|].
  destruct (tiled_add B P v Ht Hvm Hvp) as [Hnone Ht'].
  { intros q Hq. apply Hfar; [set_solver|set_solver|]. intros ->. apply NoDup_app in Hnd as (_ & Hd & _). apply (Hd v Hq). by left. }
  assert (v ∉ L) as HvL by (intros H%Hsub; rewrite Hnone in H; by destruct H).
  destruct (AddPage_spec s L v rest Hl Hv HvL) as (s' & Hadd & Hl' & Hpg' & Hszv & Hszo & Ho); [lia|].
  exists s'. split_and!; [done| |done|by rewrite (fl_front _ _ Hl')|done]. split.
  - done.
  - done.
  - intros a [-> |Ha]%elem_of_cons; [rewrite lookup_insert_eq; eauto|].
    destruct (decide (v = a)) as [<-|]; [done|]. rewrite lookup_insert_ne by done. by apply Hsub.
  - intros a k [[<- <-]|[Hne Ha]]%lookup_insert_Some; [done|]. rewrite Hszo by done. by apply Hsz.
  - intros a k [[<- <-]|[Hne Ha]]%lookup_insert_Some HaL; [set_solver|]. rewrite Ho by done. apply Hal; set_solver.
  - rewrite Hpg'. split; [|done]. rewrite <- Hperm. by rewrite <- app_comm_cons, Permutation_middle.
Qed.

Lemma Remove_inv B L P s a :
  heap_inv B L P s -> a ∈ L ->
  exists s' L', Remove a s = Ret s' /\ heap_inv B L' P s' /\ page_groups s' = page_groups s /\ (forall c, c ∈ L' <-> c ∈ L /\ c <> a).
Proof.
  intros [Hl Ht Hsub Hsz Hal Hpg] Ha. destruct (Hsub a Ha) as [k Hk].
  apply list_elem_of_split in Ha as (l1 & l2 & ->).
  destruct (free_list_Remove_spec s l1 a l2 Hl) as (s' & sz & Hr & Hl' & [Hts Hto Htp] & Ha').
  pose proof (fl_nodup _ _ Hl) as (Hn1 & Hn2 & [Hn3 Hn4]%NoDup_cons)%NoDup_app.
  assert (forall c, c ∈ l1 ++ l2 <-> c ∈ l1 ++ a :: l2 /\ c <> a) as Hc by set_solver.
  exists s', (l1 ++ l2). split_and!; [done| |done|done]. split; [done|done| | | |by rewrite Htp].
  - intros c Hin. apply Hsub. by apply Hc.
  - intros c t Hct. rewrite Hts. by apply Hsz.
  - intros c t Hct Hcl. destruct (decide (c = a)) as [->|Hne].
    + specialize (Hsz a t Hct). rewrite <- Hts in Hsz. unfold szof in Hsz. rewrite Ha' in Hsz |- *. cbn in Hsz. congruence.
    + assert (c ∉ l1 ++ a :: l2) as Hn by (intros H; by apply Hcl, Hc). rewrite Hto by done. by apply Hal.
Qed.

Lemma Split_inv B L P s a k :
  heap_inv B L P s -> a ∈ L -> B !! a = Some (k + 1) -> 5 <= k ->
  exists s' B' L', Split a s = Ret (a, s') /\ heap_inv B' L' P s' /\ page_groups s' = page_groups s /\ a ∈ L' /\
    B' !! a = Some k /\ keeps B B' L L' a.
Proof.
  intros [Hl Ht Hsub Hsz Hal Hpg] Ha Hk H5. destruct (tiled_split B P a k Ht Hk H5) as (Hx & Hnone & Ht').
  destruct (pow_succ k) as [Hpw Hpos]; [lia|]. destruct (block_pos B P a _ Ht Hk) as [_ Ha0].
  apply list_elem_of_split in Ha as (l1 & l2 & ->). set (b := a + 2 ^ k) in *.
  assert (b ∉ l1 ++ a :: l2) as HbL by (intros H%Hsub; rewrite Hnone in H; by destruct H).
  destruct (Split_spec s l1 a l2 (2 ^ k) Hl) as (s' & Hsp & Hl' & Hpg' & Hsza & Hszb & Hszo & Ho).
  { rewrite (Hsz a _ Hk). f_equal. lia. } { change 32 with (2 ^ 5). apply Z.pow_le_mono_r; lia. }
  { by rewrite Hx. } { rewrite Hx. subst b. lia. }
  rewrite Hx in *. fold b in Hl', Hszb, Hszo, Ho. assert (a <> b) as Hab by (subst b; lia). clearbody b.
  exists s', (<[b := k]> (<[a := k]> B)), (l1 ++ a :: b :: l2). split_and!; [done| |done|set_solver|by rewrite lookup_insert_ne, lookup_insert_eq|].
  - split; [done|done| | | |by rewrite Hpg'].
    + intros c Hc. destruct (decide (c = b)) as [->|Hcb]; [rewrite lookup_insert_eq; eauto|].
      destruct (decide (c = a)) as [->|Hca]; [rewrite lookup_insert_ne, lookup_insert_eq by done; eauto|].
      rewrite !lookup_insert_ne by done. apply Hsub. clear -Hc Hcb. set_solver.
    + intros c t [[<- <-]|[Hcb [[<- <-]|[Hca Hc]]%lookup_insert_Some]]%lookup_insert_Some; [done|done|].
      rewrite Hszo by done. by apply Hsz.
    + intros c t [[<- <-]|[Hcb [[<- <-]|[Hca Hc]]%lookup_insert_Some]]%lookup_insert_Some Hcl;
        [clear -Hcl; set_solver|clear -Hcl; set_solver|].
      rewrite Ho by done. apply Hal; [done|]. clear -Hcl. set_solver.
  - intros c t Hc Hcl Hca. assert (c <> b) by (intros ->; congruence). rewrite !lookup_insert_ne by done.
    split_and!; [done| |done]. clear -Hcl H. set_solver.
Qed.

Lemma keeps_trans B1 B2 B3 L1 L2 L3 x : keeps B1 B2 L1 L2 x -> keeps B2 B3 L2 L3 x -> keeps B1 B3 L1 L3 x.
Proof. intros H1 H2 c t Hc Hl Hx. destruct (H1 c t Hc Hl Hx) as (? & ? & ?). by apply H2. Qed.

Lemma slot_at_size s B L P a k : heap_inv B L P s -> B !! a = Some k -> exists x, slot_at a s = Ret x /\ size x = 2 ^ k.
Proof.
  intros Hi Ha. pose proof (hi_size _ _ _ _ Hi a k Ha) as Hs. unfold szof in Hs. unfold slot_at.
  destruct (mem s !! a) as [x|]; [|done]. injection Hs as Hs. eauto.
Qed.

Lemma split_loop_inv fuel B L P s a k n :
  heap_inv B L P s -> a ∈ L -> B !! a = Some k -> 5 <= n -> k - n <= Z.of_nat fuel ->
  exists s' B' L', split_loop fuel a (2 ^ n) s = Ret (a, s') /\ heap_inv B' L' P s' /\ page_groups s' = page_groups s /\ a ∈ L' /\
    B' !! a = Some (Z.min k n) /\ keeps B B' L L' a.
Proof.
  revert B L s k. induction fuel as [|fuel IH]; intros B L s k Hi Ha Hk Hn Hf;
    destruct (slot_at_size s B L P a k Hi Hk) as (x & Hx & Hsz); cbn [split_loop]; rewrite Hx, ret_bind, Hsz, Z.gtb_ltb;
    destruct (block_pos B P a k (hi_tiled _ _ _ _ Hi) Hk) as [Hk5 _].
  - rewrite (proj2 (Z.ltb_ge _ _)) by (apply Z.pow_le_mono_r; lia). rewrite Z.min_l by lia.
    exists s, B, L. by split_and!.
  - destruct (decide (k <= n)) as [Hle|Hgt].
    + rewrite (proj2 (Z.ltb_ge _ _)) by (apply Z.pow_le_mono_r; lia). rewrite Z.min_l by lia.
      exists s, B, L. by split_and!.
    + rewrite (proj2 (Z.ltb_lt _ _)) by (apply Z.pow_lt_mono_r; lia).
      destruct (Split_inv B L P s a (k - 1) Hi Ha) as (s1 & B1 & L1 & -> & Hi1 & Hp1 & Ha1 & Hk1 & Hke1);
        [by replace (k - 1 + 1) with k by lia|lia|]. rewrite ret_bind.
      destruct (IH B1 L1 s1 (k - 1) Hi1 Ha1 Hk1) as (s2 & B2 & L2 & -> & Hi2 & Hp2 & Ha2 & Hk2 & Hke2); [lia|lia|].
      exists s2, B2, L2. split_and!; [done|done|congruence|done|rewrite Hk2; f_equal; lia|by eapply keeps_trans].
Qed.

Lemma best_fit_inv fuel B L P s l p best needed :
  heap_inv B L P s -> seg (mem s) p l 0 -> l ⊆ L -> (length l < fuel)%nat ->
  (best = 0 \/ best ∈ L /\ exists k, B !! best = Some k /\ needed <= 2 ^ k) ->
  exists r, best_fit_loop fuel (default 0 (head l)) needed best s = Ret r /\
    (r = 0 \/ r ∈ L /\ exists k, B !! r = Some k /\ needed <= 2 ^ k).
Proof.
  intros Hi. revert l p best. induction fuel as [|fuel IH]; intros l p best Hseg Hsub Hf Hbest; [lia|].
  pose proof (fl_null _ _ (hi_list _ _ _ _ Hi)) as Hnull. destruct l as [|a l]; cbn [head from_option id best_fit_loop].
  { exists best. done. }
  destruct Hseg as [[sz Ha] Hl]. assert (a ∈ L) as HaL by (apply Hsub; by left). assert (a <> 0) by (intros ->; done).
  assert (slot_at a s = Ret (mkSlot (default 0 (head l)) p sz)) as Hsa by (unfold slot_at; by rewrite Ha).
  rewrite (proj2 (Z.eqb_neq a 0)) by done. rewrite Hsa, ret_bind. cbn [size next].
  destruct (hi_sub _ _ _ _ Hi a HaL) as [k Hk]. pose proof (hi_size _ _ _ _ Hi a k Hk) as Hs. unfold szof in Hs.
  rewrite Ha in Hs. injection Hs as Hs. cbn in Hs. subst sz.
  assert (exists bt : bool, (if best =? 0 then Ret true else b ← slot_at best s; Ret (2 ^ k <? size b)) = Ret bt) as (bt & Hbt).
  { destruct (best =? 0) eqn:E; [by eexists|]. zb. destruct Hbest as [?|[_ (kb & Hkb & _)]]; [done|].
    destruct (slot_at_size s B L P best kb Hi Hkb) as (x & -> & _). rewrite ret_bind. by eexists. }
  setoid_rewrite Hbt. rewrite ret_bind. apply (IH l a); [done|set_solver|cbn in Hf; lia|].
  destruct (2 ^ k >=? needed) eqn:E; [|done]. destruct bt; [|done]. cbn [andb]. right. split; [done|].
  exists k. split; [done|]. rewrite Z.geb_leb in E. by apply Z.leb_le.
Qed.

Lemma free_list_length s L : free_list s L -> (length L <= base.size (mem s))%nat.
Proof.
  intros [Hseg _ Hnd _]. rewrite <- (size_list_to_set (C := gset Z)) by done. rewrite <- size_dom.
  apply subseteq_size. intros a Ha. apply elem_of_list_to_set in Ha. apply elem_of_dom. by eapply seg_lookup.
Qed.

Lemma pow2_loop_spec fuel j needed :
  0 <= j <= 14 -> needed <= 2 ^ 14 -> 14 - j <= Z.of_nat fuel ->
  exists n, pow2_loop fuel (2 ^ j) needed = Ret (2 ^ n) /\ j <= n <= 14 /\ needed <= 2 ^ n.
Proof.
  revert j. induction fuel as [|fuel IH]; intros j Hj Hn Hf; cbn [pow2_loop].
  - replace j with 14 in * by lia. rewrite (proj2 (Z.ltb_ge _ _)) by done. exists 14. split_and!; [done|lia|lia|done].
  - destruct (2 ^ j <? needed) eqn:E; zb; [|exists j; split_and!; [done|lia|lia|done]].
    assert (j < 14) by (destruct (decide (j = 14)) as [->|]; lia).
    assert (u64 (Z.shiftl (2 ^ j) 1) = 2 ^ (j + 1)) as ->.
    { rewrite Z.shiftl_mul_pow2 by lia. destruct (pow_succ j) as [Hpw Hpos]; [lia|]. rewrite Hpw.
      pose proof (Z.pow_le_mono_r 2 j 14). rewrite u64_small; lia. }
    destruct (IH (j + 1)) as (n & -> & ? & ?); [lia|lia|lia|]. exists n. split_and!; [done|lia|lia|done].
Qed.

Lemma NeededSize_spec sz :
  0 <= sz <= 0x4000 - 24 -> exists n, NeededSize sz = Ret (2 ^ n) /\ 5 <= n <= 14 /\ sz + 24 <= 2 ^ n.
Proof.
  intros Hsz. unfold NeededSize, sizeof_BuddySlot. rewrite u64_small by lia. change 32 with (2 ^ 5).
  destruct (pow2_loop_spec 64 5 (sz + 24)) as (n & -> & ? & ?); [lia|lia|lia|]. exists n. split_and!; [done|lia|lia|done].
Qed.

(** A request of [sz] bytes fits the block at [a], or has a page group to itself. *)
Definition block_serves (B : gmap Z Z) (P : list Z) (a sz : Z) : Prop :=
  exists k, B !! a = Some k /\ (sz + 24 <= 2 ^ k \/ k = 13 /\ a ∈ P /\ sz + 24 <= 0x4000).

Lemma Allocate_inv B L P s sz :
  heap_inv B L P s -> 0 <= sz <= 0x4000 - 24 -> (2 <= length (page_groups s))%nat ->
  exists a s' B' L' P', Allocate sz s = Ret (a + 24, s') /\ heap_inv B' L' P' s' /\ a ∉ L' /\ block_serves B' P' a sz /\
    P ⊆ P' /\ (forall t, B !! a = Some t -> a ∈ L) /\ keeps B B' L L' a /\
    (length (page_groups s) <= length (page_groups s') + 2)%nat.
Proof.
  intros Hi Hsz Hpg. unfold Allocate, sizeof_BuddySlot. rewrite Z.gtb_ltb, (proj2 (Z.ltb_ge _ _)) by lia.
  assert (exists s1 B1 L1 P1, (if free_front_ s =? 0 then AddPage s else Ret s) = Ret s1 /\ heap_inv B1 L1 P1 s1 /\ P ⊆ P1 /\
    (forall c t, B !! c = Some t -> B1 !! c = Some t /\ (c ∉ L -> c ∉ L1)) /\ (1 <= length (page_groups s1))%nat /\
    (length (page_groups s) <= length (page_groups s1) + 1)%nat)
    as (s1 & B1 & L1 & P1 & -> & Hi1 & HP1 & Hk1 & Hpg1 & Hlen1).
  { destruct (free_front_ s =? 0); [|exists s, B, L, P; split_and!; [done|done|done|done|lia|lia]].
    destruct (page_groups s) as [|v rest] eqn:Epg; [cbn in Hpg; lia|].
    destruct (AddPage_inv B L P s v rest Hi Epg) as (s1 & -> & Hi1 & Hr & _ & Hv).
    exists s1, (<[v := 13]> B), (v :: L), (v :: P). split_and!; [done|done|set_solver| |rewrite Hr; cbn in Hpg; lia|rewrite Hr; cbn; lia].
    intros c t Hc. assert (v <> c) by (intros ->; congruence). rewrite lookup_insert_ne by done. split; [done|set_solver]. }
  rewrite ret_bind. destruct (NeededSize_spec sz) as (n & -> & Hn & Hle); [lia|]. rewrite ret_bind.
  pose proof (hi_list _ _ _ _ Hi1) as Hl1. rewrite (fl_front _ _ Hl1).
  destruct (best_fit_inv (S (base.size (mem s1))) B1 L1 P1 s1 L1 0 0 (2 ^ n) Hi1) as (r & -> & Hr);
    [apply Hl1|done|pose proof (free_list_length _ _ Hl1); lia|by left|]. rewrite ret_bind.
  assert (exists a s2 B2 L2 P2 k, (if r =? 0 then s ← AddPage s1; Ret (free_front_ s, s) else Ret (r, s1)) = Ret (a, s2) /\
    heap_inv B2 L2 P2 s2 /\ P ⊆ P2 /\ a ∈ L2 /\ B2 !! a = Some k /\ (2 ^ n <= 2 ^ k \/ k = 13 /\ a ∈ P2) /\
    (forall c t, B !! c = Some t -> B2 !! c = Some t /\ (c ∉ L -> c ∉ L2)) /\
    (length (page_groups s) <= length (page_groups s2) + 2)%nat)
    as (a & s2 & B2 & L2 & P2 & k & -> & Hi2 & HP2 & Ha2 & Hka & Hfit & Hk2 & Hlen2).
  { destruct (r =? 0) eqn:Er; zb.
    - destruct (page_groups s1) as [|v rest] eqn:Epg; [cbn in Hpg1; lia|].
      destruct (AddPage_inv B1 L1 P1 s1 v rest Hi1 Epg) as (s2 & -> & Hi2 & Hr2 & Hf2 & Hv). rewrite ret_bind, Hf2.
      exists v, s2, (<[v := 13]> B1), (v :: L1), (v :: P1), 13. rewrite lookup_insert_eq.
      split_and!; [done|done|set_solver|by left|done|right; split; [done|by left]| |rewrite Hr2; cbn in *; lia].
      intros c t Hc. destruct (Hk1 c t Hc) as [Hc1 Hc2]. assert (v <> c) by (intros ->; congruence).
      rewrite lookup_insert_ne by done. split; [done|]. intros HcL. specialize (Hc2 HcL). set_solver.
    - destruct Hr as [?|[HrL (k & Hk & Hkn)]]; [done|]. exists r, s1, B1, L1, P1, k. split_and!; try done; [by left|lia]. }
  rewrite ret_bind. destruct (block_pos B2 P2 a k (hi_tiled _ _ _ _ Hi2) Hka) as [Hk13 _].
  destruct (split_loop_inv 64 B2 L2 P2 s2 a k n Hi2 Ha2 Hka) as (s3 & B3 & L3 & -> & Hi3 & Hp3 & Ha3 & Hk3 & Hke3); [lia|lia|].
  rewrite ret_bind. destruct (Remove_inv B3 L3 P2 s3 a Hi3 Ha3) as (s4 & L4 & -> & Hi4 & Hp4 & HL4). rewrite ret_bind.
  exists a, s4, B3, L4, P2. split_and!.
  - done.
  - done.
  - rewrite HL4. naive_solver.
  - exists (Z.min k n). split; [done|]. destruct (decide (n <= k)) as [Hnk|Hnk].
    + left. by rewrite Z.min_r.
    + destruct Hfit as [Hfit|[-> HaP]]; [apply Z.pow_le_mono_r_iff in Hfit; lia|]. rewrite Z.min_l by lia. right. split_and!; [done|done|lia].
  - done.
  - intros t Ht. destruct (Hk2 a t Ht) as [_ H]. destruct (decide (a ∈ L)) as [|Hn']; [done|]. by destruct (H Hn').
  - intros c t Hc HcL Hca. destruct (Hk2 c t Hc) as [Hc2 HcL2]. destruct (Hke3 c t Hc2 (HcL2 HcL) Hca) as (? & ? & ?).
    split_and!; [done| |done]. rewrite HL4. naive_solver.
  - by rewrite Hp4, Hp3.
Qed.

Lemma merge_loop_inv fuel B L P s slot k :
  heap_inv B L P s -> slot ∉ L -> B !! slot = Some k -> 13 - k <= Z.of_nat fuel ->
  exists r s' B' L' kr, merge_loop fuel slot (Z.lxor slot (2 ^ k)) s = Ret (r, s') /\ heap_inv B' L' P s' /\
    r ∉ L' /\ B' !! r = Some kr /\ page_groups s' = page_groups s /\
    (forall c t, B !! c = Some t -> c ∉ L -> c <> slot -> B' !! c = Some t /\ c ∉ L' /\ c <> r).
Proof.
  revert B L s slot k. induction fuel as [|fuel IH]; intros B L s slot k Hi Hs Hk Hf;
    destruct (slot_at_size s B L P slot k Hi Hk) as (x & Hx & Hsz); cbn [merge_loop]; rewrite Hx, ret_bind, Hsz;
    pose proof (hi_tiled _ _ _ _ Hi) as Ht; destruct (block_pos B P slot k Ht Hk) as [Hk5 Hs0].
  { replace k with 13 in * by lia. exists slot, s, B, L, 13. by split_and!. }
  destruct (decide (k = 13)) as [->|Hne]; [exists slot, s, B, L, 13; by split_and!|].
  rewrite (proj2 (Z.ltb_lt _ _)) by (change 0x2000 with (2 ^ 13); apply Z.pow_lt_mono_r; lia). cbn [negb].
  destruct (buddy_block B P slot k Ht Hk) as (t & Hbt & Htk); [lia|]. set (b := Z.lxor slot (2 ^ k)) in *.
  destruct (slot_at_size s B L P b t Hi Hbt) as (xb & Hxb & Hszb). rewrite Hxb, ret_bind, Hszb.
  destruct (_ && _) eqn:Econd; [|exists slot, s, B, L, k; by split_and!]. apply andb_true_iff in Econd as [Elink Esz].
  destruct (block_pos B P b t Ht Hbt) as [Ht5 Hb0].
  apply Z.eqb_eq in Esz. assert (t = k) as -> by (apply (Z.pow_inj_r 2); lia).
  assert (b ∈ L) as HbL.
  { destruct (decide (b ∈ L)) as [|Hn]; [done|]. pose proof (hi_alloc _ _ _ _ Hi b k Hbt Hn) as Hm. unfold slot_at in Hxb.
    rewrite Hm in Hxb. injection Hxb as <-. done. }
  destruct (tiled_merge B P slot k Ht Hk) as [Hsb Ht']; [lia|done|]. fold b in Hsb, Ht'.
  destruct (Remove_inv B L P s b Hi HbL) as (s1 & L1 & -> & Hi1 & Hp1 & HL1). rewrite ret_bind.
  assert ((if b <? slot then b else slot) = Z.min slot b) as ->.
  { destruct (b <? slot) eqn:E; zb; lia. } set (m := Z.min slot b) in *.
  assert (B !! m = Some k /\ m ∉ L1) as [Hmk HmL].
  { subst m. destruct (Z.min_spec slot b) as [[_ ->]|[_ ->]]; (split; [done|rewrite HL1; naive_solver]). }
  pose proof (hi_alloc _ _ _ _ Hi1 m k Hmk HmL) as Hm1. unfold slot_at at 1. rewrite Hm1. cbn [deref]. rewrite ret_bind. cbn [size].
  destruct (pow_succ k) as [Hpw Hpos]; [lia|]. pose proof (Z.pow_le_mono_r 2 k 13).
  unfold set_size, slot_at. rewrite Hm1. cbn [deref]. rewrite !ret_bind. cbn [next prev].
  rewrite u64_small by lia. replace (2 ^ k * 2) with (2 ^ (k + 1)) by lia. set (s2 := put_slot m _ s1).
  unfold GetBuddy, slot_at. cbn [mem put_slot s2]. rewrite lookup_insert_eq. cbn [deref]. rewrite !ret_bind. cbn [size]. fold s2.
  set (B2 := <[m := k + 1]> (delete slot (delete b B))) in *.
  assert (heap_inv B2 L1 P s2) as Hi2.
  { destruct Hi1 as [[Hl1 Hl2 Hl3 Hl4] _ Hsub1 Hsz1 Hal1 Hpg1].
    assert (forall c u, B2 !! c = Some u -> c = m /\ u = k + 1 \/ c <> m /\ B !! c = Some u) as Hcase.
    { intros c u [[<- <-]|[Hcm [_ [_ Hc]%lookup_delete_Some]%lookup_delete_Some]]%lookup_insert_Some; auto. }
    split; [split; [by apply seg_frame|done|done|done]|done| | | |done].
    - intros c Hc. subst B2. destruct (decide (m = c)) as [<-|Hcm]; [done|]. rewrite lookup_insert_ne by done.
      apply HL1 in Hc as [Hc Hcb]. rewrite !lookup_delete_ne by (intros ->; done). apply (hi_sub _ _ _ _ Hi c Hc).
    - intros c u [[-> ->]|[Hcm Hc]]%Hcase; [unfold szof; cbn; by rewrite lookup_insert_eq|].
      unfold szof. cbn. rewrite lookup_insert_ne by done. by apply Hsz1.
    - intros c u [[-> ->]|[Hcm Hc]]%Hcase HcL; cbn; [by rewrite lookup_insert_eq|]. rewrite lookup_insert_ne by done. by apply Hal1. }
  destruct (IH B2 L1 s2 m (k + 1)) as (r & s3 & B3 & L3 & kr & -> & Hi3 & HrL & Hkr & Hp3 & Hke); [done|done|by apply lookup_insert_eq|lia|].
  exists r, s3, B3, L3, kr. split_and!; [done|done|done|done|by rewrite Hp3|].
  intros c u Hc HcL Hcs. assert (c <> b) as Hcb by (intros ->; done).
  assert (c <> m) as Hcm by (subst m; lia). apply Hke; [|rewrite HL1; naive_solver|done].
  subst B2. rewrite lookup_insert_ne by done. by rewrite !lookup_delete_ne by done.
Qed.

Lemma Free_inv B L P s a k :
  heap_inv B L P s -> a ∉ L -> B !! a = Some k ->
  exists s' B' L', Free (a + 24) s = Ret s' /\ heap_inv B' L' P s' /\ page_groups s' = page_groups s /\ keeps B B' L L' a.
Proof.
  intros Hi HaL Hk. pose proof (hi_alloc _ _ _ _ Hi a k Hk HaL) as Hm. unfold Free, sizeof_BuddySlot.
  replace (a + 24 - 24) with a by lia. unfold slot_at at 1. rewrite Hm. cbn [deref]. rewrite ret_bind. cbn [next prev Z.eqb negb orb].
  unfold GetBuddy, slot_at. rewrite Hm. cbn [deref]. rewrite !ret_bind. cbn [size].
  destruct (block_pos B P a k (hi_tiled _ _ _ _ Hi) Hk) as [Hk5 _].
  destruct (merge_loop_inv 64 B L P s a k Hi HaL Hk) as (r & s1 & B1 & L1 & kr & -> & Hi1 & HrL & Hkr & Hp1 & Hke); [lia|].
  rewrite ret_bind. destruct (block_pos B1 P r kr (hi_tiled _ _ _ _ Hi1) Hkr) as [_ Hr0].
  destruct (push_spec s1 L1 r (2 ^ kr)) as (s2 & Hpush & Hl2 & [Hts Hto Htp]); [apply Hi1|done|lia|by apply (hi_alloc _ _ _ _ Hi1)|].
  exists s2, B1, (r :: L1). split_and!; [exact Hpush| |congruence|].
  - destruct Hi1 as [_ Ht1 Hsub1 Hsz1 Hal1 Hpg1]. split; [done|done| | | |by rewrite Htp].
    + intros c [-> |Hc]%elem_of_cons; eauto.
    + intros c u Hc. rewrite Hts. by apply Hsz1.
    + intros c u Hc HcL. rewrite Hto by done. apply Hal1; set_solver.
  - intros c u Hc HcL Hca. destruct (Hke c u Hc HcL Hca) as (? & ? & ?). split_and!; [done|set_solver|done].
Qed.

(** Pointers in use, with the sizes that were asked for. *)
Definition live_inv (live : gmap Z Z) s : Prop :=
  exists B L P, heap_inv B L P s /\
    forall ptr n, live !! ptr = Some n -> 0 <= n /\ ptr - 24 ∉ L /\ block_serves B P (ptr - 24) n.

(** The bytes of a block in use, header included, lie in one page group. *)
Lemma region_in_page B L P s a n :
  heap_inv B L P s -> block_serves B P a n ->
  exists k p, B !! a = Some k /\ p ∈ P /\ p <= a /\ a + 2 ^ k <= p + 0x2000 /\ a + 24 + n <= p + 0x4000 /\
    (a + 24 + n <= a + 2 ^ k \/ a = p /\ k = 13).
Proof.
  intros Hi (k & Hk & Hfit). destruct (ti_block _ _ (hi_tiled _ _ _ _ Hi) a k Hk) as (p & Hr & Hm & Hp & H1 & H2).
  exists k, p. destruct Hfit as [Hfit|(-> & HaP & Hfit)]; [split_and!; try done; [lia|left; lia]|].
  change (2 ^ 13) with 0x2000 in *. assert (a = p) as -> by lia. split_and!; try done; [lia|by right].
Qed.

Lemma live_disjoint live s p1 n1 p2 n2 :
  live_inv live s -> live !! p1 = Some n1 -> live !! p2 = Some n2 -> p1 <> p2 -> p1 + n1 <= p2 - 24 \/ p2 + n2 <= p1 - 24.
Proof.
  intros (B & L & P & Hi & Hlive) H1 H2 Hne. destruct (Hlive p1 n1 H1) as (Hn1 & _ & Hs1). destruct (Hlive p2 n2 H2) as (Hn2 & _ & Hs2).
  destruct (region_in_page B L P s _ _ Hi Hs1) as (k1 & g1 & Hk1 & Hg1 & Ha1 & Hb1 & Hc1 & Hd1).
  destruct (region_in_page B L P s _ _ Hi Hs2) as (k2 & g2 & Hk2 & Hg2 & Ha2 & Hb2 & Hc2 & Hd2).
  pose proof (ti_disj _ _ (hi_tiled _ _ _ _ Hi) _ _ _ _ Hk1 Hk2 ltac:(lia)) as Hdis.
  destruct (hi_pages _ _ _ _ Hi) as [Hperm HQ]. destruct (pages_ok_perm _ _ Hperm HQ) as (_ & _ & Hfar).
  destruct (decide (g1 = g2)) as [->|Hg].
  - destruct Hd1 as [Hd1|[Hd1 ->]]; destruct Hd2 as [Hd2|[Hd2 ->]]; change (2 ^ 13) with 0x2000 in *;
      try (pose proof (Z.pow_pos_nonneg 2 k1)); try (pose proof (Z.pow_pos_nonneg 2 k2));
      destruct (block_pos B P _ _ (hi_tiled _ _ _ _ Hi) Hk1) as [? _]; destruct (block_pos B P _ _ (hi_tiled _ _ _ _ Hi) Hk2) as [? _]; lia.
  - destruct (Hfar g1 g2); [set_solver|set_solver|done|lia|lia].
Qed.

Lemma new_live live s n :
  live_inv live s -> 0 <= n <= 0x4000 - 24 -> (2 <= length (page_groups s))%nat ->
  exists ptr s', Allocate n s = Ret (ptr, s') /\ live !! ptr = None /\ live_inv (<[ptr := n]> live) s'.
Proof.
  intros (B & L & P & Hi & Hlive) Hn Hpg.
  destruct (Allocate_inv B L P s n Hi Hn Hpg) as (a & s' & B' & L' & P' & Ha & Hi' & HaL & Hser & HP & Hold & Hke & _).
  assert (live !! (a + 24) = None) as Hnone.
  { destruct (live !! (a + 24)) as [m|] eqn:E; [|done]. destruct (Hlive _ _ E) as (_ & HnL & (k & Hk & _)).
    replace (a + 24 - 24) with a in * by lia. destruct (HnL (Hold k Hk)). }
  exists (a + 24), s'. split_and!; [done|done|]. exists B', L', P'. split; [done|].
  intros ptr m [[<- <-]|[Hne Hm]]%lookup_insert_Some; [replace (a + 24 - 24) with a by lia; split_and!; [lia|done|done]|].
  destruct (Hlive ptr m Hm) as (Hm0 & HmL & (k & Hk & Hfit)). destruct (Hke _ k Hk HmL) as (Hk' & HL' & _); [lia|].
  split_and!; [done|done|]. exists k. split; [done|]. destruct Hfit as [?|(? & ? & ?)]; [by left|right]. split_and!; [done|by apply HP|done].
Qed.

Lemma free_live live s ptr n :
  live_inv live s -> live !! ptr = Some n ->
  exists s', Free ptr s = Ret s' /\ live_inv (delete ptr live) s' /\ page_groups s' = page_groups s.
Proof.
  intros (B & L & P & Hi & Hlive) Hp. destruct (Hlive ptr n Hp) as (_ & HpL & (k & Hk & _)).
  destruct (Free_inv B L P s (ptr - 24) k Hi HpL Hk) as (s' & B' & L' & Hf & Hi' & Hpg & Hke).
  replace (ptr - 24 + 24) with ptr in Hf by lia. exists s'. split_and!; [done| |done]. exists B', L', P. split; [done|].
  intros q m [Hne Hm]%lookup_delete_Some. destruct (Hlive q m Hm) as (Hm0 & HmL & (kq & Hkq & Hfit)).
  destruct (Hke _ kq Hkq HmL) as (Hk' & HL' & _); [lia|]. split_and!; [done|done|]. by exists kq.
Qed.

Lemma Init_live s0 :
  pages_ok Q -> Init (mkBuddy ∅ 0 Q) = Ret s0 -> live_inv ∅ s0.
Proof.
  intros HQ Hinit. destruct Q as [|v rest] eqn:EQ; [done|].
  assert (heap_inv ∅ [] [] (mkBuddy ∅ 0 Q)) as Hi.
  { split; try done.
    - split; [done|done|constructor|]. set_solver.
    - split; try done; try (by intros p x ?%elem_of_nil); by intros p ?%elem_of_nil.
    - by intros a ?%elem_of_nil.
    - by rewrite EQ. }
  rewrite EQ in Hi. destruct (AddPage_inv ∅ [] [] _ v rest Hi eq_refl) as (s' & Ha & Hi' & _).
  unfold Init, with_front in Hinit. cbn [mem page_groups] in Hinit. rewrite Hinit in Ha. injection Ha as <-.
  rewrite <- EQ in *. exists (<[v := 13]> ∅), [v], [v]. by split.
Qed.
End heap.

(** Runs of a program that deletes only what it got from [new], once. *)
Inductive heap_step : BuddyAllocator * gmap Z Z -> BuddyAllocator * gmap Z Z -> Prop :=
| step_new s live n ptr s' :
    0 <= n -> (2 <= length (page_groups s))%nat -> Allocate n s = Ret (ptr, s') ->
    heap_step (s, live) (s', <[ptr := n]> live)
| step_delete s live n ptr s' :
    live !! ptr = Some n -> Free ptr s = Ret s' -> heap_step (s, live) (s', delete ptr live).

Lemma heap_steps_live Q x y :
  rtc heap_step x y -> live_inv Q x.2 x.1 -> live_inv Q y.2 y.1.
Proof.
  induction 1 as [x|x y z Hstep _ IH]; [done|]. intros Hx. apply IH. revert Hx.
  destruct Hstep as [s live n ptr s' Hn Hpg Ha|s live n ptr s' Hp Hf]; cbn [fst snd]; intros Hx.
  - assert (n <= 0x4000 - 24) as Hle.
    { destruct (decide (n <= 0x4000 - 24)); [done|]. unfold Allocate, sizeof_BuddySlot in Ha.
      rewrite Z.gtb_ltb, (proj2 (Z.ltb_lt _ _)) in Ha by lia. done. }
    destruct (new_live Q live s n Hx) as (ptr' & s1 & Ha' & _ & Hl); [lia|done|]. rewrite Ha in Ha'. by injection Ha' as <- <-.
  - destruct (free_live Q live s ptr n Hx Hp) as (s1 & Hf' & Hl & _). rewrite Hf in Hf'. by injection Hf' as <-.
Qed.

(** ** Properties *)

(** C7.  Memory safety of [new] and [delete]: whatever a program allocates
    and deletes (each pointer once), the memory of live pointers, headers
    included, is pairwise disjoint and inside the page groups mapped from the
    kernel; [new] of any size up to four pages less a header returns, never a
    live pointer; and deleting a live pointer returns. *)
Theorem buddy_allocations_disjoint Q s0 s live :
  pages_ok Q -> Init (mkBuddy ∅ 0 Q) = Ret s0 -> rtc heap_step (s0, ∅) (s, live) ->
  (forall p1 n1 p2 n2, live !! p1 = Some n1 -> live !! p2 = Some n2 -> p1 <> p2 -> p1 + n1 <= p2 - 24 \/ p2 + n2 <= p1 - 24) /\
  (forall p n, live !! p = Some n -> exists g, g ∈ Q /\ g + 24 <= p /\ p + n <= g + 0x4000) /\
  (forall n, 0 <= n <= 0x4000 - 24 -> (2 <= length (page_groups s))%nat ->
     exists p s', Allocate n s = Ret (p, s') /\ live !! p = None) /\
  (forall p n, live !! p = Some n -> exists s', Free p s = Ret s').
Proof.
  intros HQ Hinit Hsteps. pose proof (Init_live Q s0 HQ Hinit) as H0.
  pose proof (heap_steps_live Q _ _ Hsteps H0) as Hl. cbn [fst snd] in Hl. split_and!.
  - intros p1 n1 p2 n2 H1 H2 Hne. by eapply live_disjoint.
  - intros p n Hp. destruct Hl as (B & L & P & Hi & Hlive). destruct (Hlive p n Hp) as (_ & _ & Hs).
    destruct (region_in_page Q B L P s _ _ Hi Hs) as (k & g & _ & Hg & ? & _ & ? & _). exists g. split_and!; [|lia|lia].
    destruct (hi_pages _ _ _ _ _ Hi) as [Hperm _]. rewrite <- Hperm. set_solver.
  - intros n Hn Hpg. destruct (new_live Q live s n Hl Hn Hpg) as (p & s' & ? & ? & _). eauto.
  - intros p n Hp. destruct (free_live Q live s p n Hl Hp) as (s' & ? & _). eauto.
Qed.

(** *** Witnesses *)
Definition sample_pages : list Z := [0x10000; 0x14000; 0x18000; 0x1c000].

Definition sample_heap : BuddyAllocator :=
  match Init (mkBuddy ∅ 0 sample_pages) with Ret s => s | _ => mkBuddy ∅ 0 [] end.

Lemma buddy_allocations_disjoint_witness :
  exists p1 s1 p2 s2, Allocate 100 sample_heap = Ret (p1, s1) /\ Allocate 5000 s1 = Ret (p2, s2) /\
    (p1 + 100 <= p2 - 24 \/ p2 + 5000 <= p1 - 24).
Proof.
  assert (pages_ok sample_pages) as HQ.
  { split; [apply (bool_decide_unpack _); vm_compute; exact I|]. unfold sample_pages. split.
    - intros p Hp. rewrite !elem_of_cons, elem_of_nil in Hp. destruct Hp as [-> |[-> |[-> |[-> |[]]]]]; split; reflexivity || lia.
    - intros p q Hp Hq. rewrite !elem_of_cons, elem_of_nil in Hp, Hq. lia. }
  assert (is_ret (Allocate 100 sample_heap) = true) as H1 by (vm_compute; reflexivity).
  apply is_ret_Ret in H1 as [[p1 s1] H1].
  assert (is_ret ('(_, s) ← Allocate 100 sample_heap; Allocate 5000 s) = true) as H2 by (vm_compute; reflexivity).
  rewrite H1, ret_bind in H2. apply is_ret_Ret in H2 as [[p2 s2] H2]. exists p1, s1, p2, s2. split; [exact H1|]. split; [exact H2|].
  assert (bool_decide (2 <= length (page_groups s1))%nat = true /\ p1 <> p2) as [Hpg Hne].
  { pose proof H1 as E1. vm_compute in E1. injection E1 as <- <-. vm_compute in H2. injection H2 as <- _. split; [reflexivity|discriminate]. }
  apply bool_decide_eq_true in Hpg.
  refine (proj1 (buddy_allocations_disjoint sample_pages sample_heap s2 (<[p2 := 5000]> (<[p1 := 100]> ∅)) HQ _ _) p1 100 p2 5000 _ _ Hne).
  - vm_compute. reflexivity.
  - eapply rtc_l; [|eapply rtc_l; [|apply rtc_refl]].
    + apply (step_new sample_heap ∅ 100 p1 s1); [lia|vm_compute; lia|exact H1].
    + apply (step_new s1 _ 5000 p2 s2); [lia|exact Hpg|exact H2].
  - rewrite lookup_insert_ne by congruence. apply lookup_insert_eq.
  - apply lookup_insert_eq.
Defined.

(** A block that is the only free one has no links, so deleting it again is
    not noticed: the list then contains it twice, in a cycle that the next
    [new] walks for ever. *)
Lemma double_free_unnoticed :
  ('(p, s1) ← Allocate 0x1f00 sample_heap;
   s2 ← Free p s1;
   s3 ← Free p s2;
   x ← slot_at (free_front_ s3) s3;
   Ret (next x =? free_front_ s3, match Allocate 0 s3 with NoFuel => true | _ => false end)) = Ret (true, true).
Proof. vm_compute. reflexivity. Qed.
