(* ===== verification/Buffer.v ===== *)
(** * Byte and capability buffers (lib/glacier/buffer/byte_buffer.h, cap_buffer.h)

    A [ByteBuffer] is the bytes of its allocation.  [WriteAt<T>] and [At<T>]
    reinterpret addresses inside it, so a value of type [T] is its
    little-endian bytes; the code has no bounds check, an access outside the
    allocation faults here. *)

From Stdlib Require Import ZArith Lia.
From stdpp Require Import base tactics numbers list.
From S2P Require Import Prelude.

Notation ByteBuffer := (list Z).

(** ** Integers in memory *)
Fixpoint le_bytes (n : nat) (z : Z) : list Z :=
  match n with
  | O => []
  | S n' => z mod 256 :: le_bytes n' (z / 256)
  end.

Fixpoint le_val (l : list Z) : Z :=
  match l with
  | [] => 0
  | b :: l' => b + 256 * le_val l'
  end.

Definition s64 (z : Z) : Z := if z <? 2 ^ 63 then z else z - 2 ^ 64.

(** ** Raw accesses *)
Definition in_bounds (off : Z) (n : nat) (b : ByteBuffer) : bool :=
  (0 <=? off) && (off + Z.of_nat n <=? Z.of_nat (length b)).

Definition store_bytes (off : Z) (l : list Z) (b : ByteBuffer) : res ByteBuffer :=
  if in_bounds off (length l) b then Ret (list_inserts (Z.to_nat off) l b) else Fault.

Definition load_bytes (off : Z) (n : nat) (b : ByteBuffer) : res (list Z) :=
  if in_bounds off n b then Ret (take n (drop (Z.to_nat off) b)) else Fault.

Record ExtensionPointer : Type := mkExt { ext_offset : Z; ext_length : Z }.

(** ** ByteBuffer *)
Definition ByteBuffer_new (size : Z) : ByteBuffer := replicate (Z.to_nat size) 0.

(** [WriteAt<T>] at the types the code uses. *)
Definition WriteAt_u32 (offset object : Z) (b : ByteBuffer) : res ByteBuffer := store_bytes offset (le_bytes 4 object) b.
Definition WriteAt_u64 (offset object : Z) (b : ByteBuffer) : res ByteBuffer := store_bytes offset (le_bytes 8 object) b.
Definition WriteAt_ext (offset : Z) (object : ExtensionPointer) (b : ByteBuffer) : res ByteBuffer :=
  store_bytes offset (le_bytes 4 (ext_offset object) ++ le_bytes 4 (ext_length object)) b.

Definition At_u32 (offset : Z) (b : ByteBuffer) : res Z := l ← load_bytes offset 4 b; Ret (le_val l).
Definition At_u64 (offset : Z) (b : ByteBuffer) : res Z := l ← load_bytes offset 8 b; Ret (le_val l).
Definition At_i64 (offset : Z) (b : ByteBuffer) : res Z := z ← At_u64 offset b; Ret (s64 z).
Definition At_ext (offset : Z) (b : ByteBuffer) : res ExtensionPointer :=
  l ← load_bytes offset 8 b; Ret (mkExt (le_val (take 4 l)) (le_val (drop 4 l))).

(** The loop of [WriteStringAt], [buffer_[offset + i] = string[i]]. *)
Fixpoint WriteStringAt (offset : Z) (string : list Z) (b : ByteBuffer) : res ByteBuffer :=
  match string with
  | [] => Ret b
  | c :: string' => b ← store_bytes offset [c] b; WriteStringAt (offset [+] 1) string' b
  end.

Definition StringAt (offset length : Z) (b : ByteBuffer) : res (list Z) := load_bytes offset (Z.to_nat length) b.

(** ** CapBuffer *)
Record CapBuffer : Type := mkCaps { cap_buffer_ : list Z; used_slots_ : Z }.

Definition CapBuffer_new (size : Z) : CapBuffer := mkCaps (replicate (Z.to_nat size) 0) 0.

Definition CapBuffer_Reset (c : CapBuffer) : CapBuffer := mkCaps (cap_buffer_ c) 0.

Definition CapBuffer_At (offset : Z) (c : CapBuffer) : res Z :=
  if 0 <=? offset then deref (cap_buffer_ c !! Z.to_nat offset) else Fault.

Definition CapBuffer_WriteAt (offset cap : Z) (c : CapBuffer) : res CapBuffer :=
  if (0 <=? offset) && (offset <? Z.of_nat (length (cap_buffer_ c))) then
    let buffer := <[Z.to_nat offset := cap]> (cap_buffer_ c) in
    Ret (mkCaps buffer (if used_slots_ c <? offset [+] 1 then offset [+] 1 else used_slots_ c))
  else Fault.

(** ** Little-endian round trips *)
Section bytes.
Lemma length_le_bytes n z : length (le_bytes n z) = n.
Proof. revert z. induction n as [|n IH]; intros z; cbn; [done|]. by rewrite IH. Qed.

Lemma le_val_bytes n z : le_val (le_bytes n z) = z mod 2 ^ (8 * Z.of_nat n).
Proof.
  revert z. induction n as [|n IH]; intros z; [by rewrite Z.mod_1_r|]. cbn [le_bytes le_val]. rewrite IH.
  replace (8 * Z.of_nat (S n)) with (8 + 8 * Z.of_nat n) by lia. rewrite Z.pow_add_r by lia. change (2 ^ 8) with 256.
  rewrite Z.rem_mul_r by lia. done.
Qed.

Lemma le_val_bytes8 z : is_u64 z -> le_val (le_bytes 8 z) = z.
Proof. intros Hz. rewrite le_val_bytes. by apply Z.mod_small. Qed.

Lemma le_val_bytes4 z : 0 <= z < 2 ^ 32 -> le_val (le_bytes 4 z) = z.
Proof. intros Hz. rewrite le_val_bytes. by apply Z.mod_small. Qed.

Lemma s64_bytes z : - 2 ^ 63 <= z < 2 ^ 63 -> s64 (le_val (le_bytes 8 z)) = z.
Proof.
  intros Hz. rewrite le_val_bytes. change (2 ^ (8 * Z.of_nat 8)) with (2 ^ 64). unfold s64.
  destruct (decide (0 <= z)) as [Hp|Hn].
  - rewrite Z.mod_small by lia. destruct (Z.ltb_spec z (2 ^ 63)); lia.
  - replace (z mod 2 ^ 64) with (z + 2 ^ 64).
    + destruct (Z.ltb_spec (z + 2 ^ 64) (2 ^ 63)); lia.
    + rewrite <- (Z.mod_add z 1) by lia. rewrite Z.mod_small by lia. lia.
Qed.
End bytes.

(** ** Regions

    [agree F b b']: the buffers have the same size and the same bytes at the
    indices of [F]. *)
Definition agree (F : Z -> Prop) (b b' : ByteBuffer) : Prop :=
  length b = length b' /\ forall i : nat, F (Z.of_nat i) -> b !! i = b' !! i.

Definition rng (lo hi i : Z) : Prop := lo <= i < hi.

Section regions.
Implicit Types (b : ByteBuffer) (F G : Z -> Prop).

Lemma agree_refl F b : agree F b b.
Proof. done. Qed.

Lemma agree_sym F b b' : agree F b b' -> agree F b' b.
Proof. intros [Hl H]. split; [done|]. intros i Hi. symmetry. by apply H. Qed.

Lemma agree_mono F G b b' : (forall i, 0 <= i -> F i -> G i) -> agree G b b' -> agree F b b'.
Proof. intros HFG [Hl H]. split; [done|]. intros i Hi. apply H, HFG; [lia|done]. Qed.

Lemma agree_trans F b1 b2 b3 : agree F b1 b2 -> agree F b2 b3 -> agree F b1 b3.
Proof. intros [Hl H] [Hl' H']. split; [congruence|]. intros i Hi. rewrite H by done. by apply H'. Qed.

Lemma agree_step F G1 G2 b1 b2 b3 :
  agree G1 b1 b2 -> agree G2 b2 b3 -> (forall i, 0 <= i -> F i -> G1 i /\ G2 i) -> agree F b1 b3.
Proof.
  intros H1 H2 HF. eapply agree_trans; (eapply agree_mono; [|eassumption]); intros i Hi HFi; by apply HF.
Qed.

Lemma agree_length F b b' : agree F b b' -> length b = length b'.
Proof. by intros [? _]. Qed.

Lemma in_bounds_spec off n b : in_bounds off n b = true <-> 0 <= off /\ off + Z.of_nat n <= Z.of_nat (length b).
Proof. unfold in_bounds. rewrite andb_true_iff, !Z.leb_le. done. Qed.

Lemma load_agree off n b b' : agree (rng off (off + Z.of_nat n)) b b' -> load_bytes off n b = load_bytes off n b'.
Proof.
  intros [Hl H]. unfold load_bytes, in_bounds. rewrite <- Hl. destruct (Z.leb_spec 0 off); [|done]. cbn [andb].
  case_if_goal; [|done]. f_equal. apply list_eq. intros i. destruct (decide (i < n)%nat) as [Hi|Hi].
  - rewrite !lookup_take_lt, !lookup_drop by done. apply H. unfold rng. lia.
  - by rewrite !lookup_take_ge by lia.
Qed.

Lemma store_spec off l b :
  0 <= off -> off + Z.of_nat (length l) <= Z.of_nat (length b) ->
  exists b', store_bytes off l b = Ret b' /\ agree (fun i => ~ rng off (off + Z.of_nat (length l)) i) b b' /\
    load_bytes off (length l) b' = Ret l.
Proof.
  intros H0 Hb. unfold store_bytes. rewrite (proj2 (in_bounds_spec _ _ _)) by lia. eexists. split; [done|]. split.
  - split; [by rewrite length_inserts|]. intros i Hi. unfold rng in Hi. destruct (decide (Z.of_nat i < off)).
    + rewrite list_lookup_inserts_lt by lia. done.
    + rewrite list_lookup_inserts_ge by lia. done.
  - unfold load_bytes. rewrite (proj2 (in_bounds_spec _ _ _)) by (rewrite length_inserts; lia). f_equal. apply list_eq. intros i.
    destruct (decide (i < length l)%nat) as [Hi|Hi].
    + rewrite lookup_take_lt, lookup_drop, list_lookup_inserts by lia. f_equal. lia.
    + rewrite lookup_take_ge by lia. symmetry. apply lookup_ge_None. lia.
Qed.

(** A typed store followed by the typed load, in any buffer that has the same bytes there. *)
Lemma WriteAt_u64_spec off v b :
  0 <= off -> off + 8 <= Z.of_nat (length b) ->
  exists b', WriteAt_u64 off v b = Ret b' /\ agree (fun i => ~ rng off (off + 8) i) b b' /\
    forall b'', agree (rng off (off + 8)) b' b'' ->
      (is_u64 v -> At_u64 off b'' = Ret v) /\ (- 2 ^ 63 <= v < 2 ^ 63 -> At_i64 off b'' = Ret v).
Proof.
  intros H0 Hb. destruct (store_spec off (le_bytes 8 v) b) as (b' & Hs & Ha & Hl); [done|by rewrite length_le_bytes|].
  rewrite length_le_bytes in *. exists b'. split; [done|]. split; [done|]. intros b'' Hag. rewrite (load_agree off 8 b' b'') in Hl by done.
  unfold At_i64, At_u64. rewrite Hl. cbn [mbind res_bind]. split; intros Hv.
  - by rewrite le_val_bytes8.
  - by rewrite s64_bytes.
Qed.

Lemma WriteAt_u32_spec off v b :
  0 <= off -> off + 4 <= Z.of_nat (length b) ->
  exists b', WriteAt_u32 off v b = Ret b' /\ agree (fun i => ~ rng off (off + 4) i) b b' /\
    forall b'', agree (rng off (off + 4)) b' b'' -> 0 <= v < 2 ^ 32 -> At_u32 off b'' = Ret v.
Proof.
  intros H0 Hb. destruct (store_spec off (le_bytes 4 v) b) as (b' & Hs & Ha & Hl); [done|by rewrite length_le_bytes|].
  rewrite length_le_bytes in *. exists b'. split; [done|]. split; [done|]. intros b'' Hag Hv. rewrite (load_agree off 4 b' b'') in Hl by done.
  unfold At_u32. rewrite Hl. cbn [mbind res_bind]. by rewrite le_val_bytes4.
Qed.

Lemma WriteAt_ext_spec off p b :
  0 <= off -> off + 8 <= Z.of_nat (length b) ->
  0 <= ext_offset p < 2 ^ 32 -> 0 <= ext_length p < 2 ^ 32 ->
  exists b', WriteAt_ext off p b = Ret b' /\ agree (fun i => ~ rng off (off + 8) i) b b' /\
    forall b'', agree (rng off (off + 8)) b' b'' -> At_ext off b'' = Ret p.
Proof.
  intros H0 Hb Ho Hn. set (l := le_bytes 4 (ext_offset p) ++ le_bytes 4 (ext_length p)).
  assert (length l = 8%nat) as Hlen by (unfold l; by rewrite length_app, !length_le_bytes).
  destruct (store_spec off l b) as (b' & Hs & Ha & Hl); [done|rewrite Hlen; lia|]. rewrite Hlen in *.
  exists b'. split; [done|]. split; [done|]. intros b'' Hag. rewrite (load_agree off 8 b' b'') in Hl by done.
  unfold At_ext. rewrite Hl. cbn [mbind res_bind]. unfold l. rewrite take_app_length', drop_app_length' by (by rewrite length_le_bytes).
  rewrite !le_val_bytes4 by done. by destruct p.
Qed.

Lemma agree_app off n m b b' :
  agree (rng off (off + n)) b b' -> agree (rng (off + n) (off + n + m)) b b' -> 0 <= n -> agree (rng off (off + n + m)) b b'.
Proof.
  intros [Hl H] [_ H'] Hn. split; [done|]. intros i Hi. unfold rng in *. destruct (decide (Z.of_nat i < off + n)); [apply H|apply H']; lia.
Qed.

Lemma load_app off l1 l2 b :
  0 <= off -> load_bytes off (length l1) b = Ret l1 -> load_bytes (off + Z.of_nat (length l1)) (length l2) b = Ret l2 ->
  load_bytes off (length (l1 ++ l2)) b = Ret (l1 ++ l2).
Proof.
  intros H0. unfold load_bytes. intros H1 H2. case_if_hyp H1; [|done]. case_if_hyp H2; [|done].
  apply in_bounds_spec in E, E0. injection H1 as H1. injection H2 as H2. rewrite length_app.
  rewrite (proj2 (in_bounds_spec _ _ _)) by lia. f_equal. rewrite <- H2 at 2. rewrite <- H1 at 2.
  rewrite Z2Nat.inj_add, Nat2Z.id, <- drop_drop by lia. set (d := drop (Z.to_nat off) b).
  rewrite <- (take_drop (length l1) (take (length l1 + length l2) d)). f_equal.
  - by rewrite take_take, Nat.min_l by lia.
  - rewrite skipn_firstn_comm. f_equal. lia.
Qed.

Lemma WriteStringAt_spec str : forall off b,
  0 <= off -> off + Z.of_nat (length str) <= Z.of_nat (length b) -> Z.of_nat (length b) < 2 ^ 64 - 1 ->
  exists b', WriteStringAt off str b = Ret b' /\ agree (fun i => ~ rng off (off + Z.of_nat (length str)) i) b b' /\
    forall b'', agree (rng off (off + Z.of_nat (length str))) b' b'' -> StringAt off (Z.of_nat (length str)) b'' = Ret str.
Proof.
  induction str as [|c str IH]; intros off b H0 Hb Hlen; cbn [WriteStringAt length].
  - exists b. split; [done|]. split; [done|]. intros b'' Hag. unfold StringAt, load_bytes. cbn [length] in Hb.
    rewrite (proj2 (in_bounds_spec _ _ _)) by (rewrite <- (agree_length _ _ _ Hag); cbn; lia). done.
  - cbn [length] in Hb. destruct (store_spec off [c] b) as (b1 & Hs & Ha & Hl); [done|cbn; lia|]. rewrite Hs. cbn [mbind res_bind].
    rewrite u64_small by lia. pose proof (agree_length _ _ _ Ha) as Hlen1.
    destruct (IH (off + 1) b1) as (b' & Hw & Ha' & Hr); [lia|lia|lia|]. exists b'. split; [done|]. split.
    + eapply agree_step; [exact Ha|exact Ha'|]. unfold rng. cbn [length]. lia.
    + intros b'' Hag. unfold StringAt. rewrite Nat2Z.id.
      change (load_bytes off (length ([c] ++ str)) b'' = Ret ([c] ++ str)). apply load_app; [done| |].
      * rewrite <- (load_agree off (length [c]) b1 b''); [done|]. eapply agree_step; [exact Ha'|exact Hag|]. unfold rng. cbn [length]. lia.
      * assert (StringAt (off + 1) (Z.of_nat (length str)) b'' = Ret str) as Hs'.
        { apply Hr. eapply agree_mono; [|exact Hag]. unfold rng. cbn [length]. lia. }
        unfold StringAt in Hs'. rewrite Nat2Z.id in Hs'. exact Hs'.
Qed.

Lemma CapBuffer_WriteAt_spec i cap c :
  0 <= i < Z.of_nat (length (cap_buffer_ c)) -> i < 2 ^ 63 ->
  exists c', CapBuffer_WriteAt i cap c = Ret c' /\ used_slots_ c' = Z.max (used_slots_ c) (i + 1) /\
    length (cap_buffer_ c') = length (cap_buffer_ c) /\ cap_buffer_ c' !! Z.to_nat i = Some cap /\
    forall j : nat, Z.of_nat j <> i -> cap_buffer_ c' !! j = cap_buffer_ c !! j.
Proof.
  intros Hi Hs. unfold CapBuffer_WriteAt. rewrite (proj2 (Z.leb_le 0 i)), (proj2 (Z.ltb_lt i _)) by lia. cbn [andb].
  rewrite u64_small by lia. eexists. split; [done|]. cbn [cap_buffer_ used_slots_]. split_and!.
  - destruct (Z.ltb_spec (used_slots_ c) (i + 1)); lia.
  - by rewrite length_insert.
  - apply list_lookup_insert_eq. lia.
  - intros j Hj. apply list_lookup_insert_ne. lia.
Qed.

(** What is read from proper bytes is in the range of its type. *)
Definition bytes_ok (b : ByteBuffer) : Prop := Forall (fun x => 0 <= x < 256) b.

Lemma le_val_range l : bytes_ok l -> 0 <= le_val l < 2 ^ (8 * Z.of_nat (length l)).
Proof.
  induction 1 as [|x l Hx Hl IH]; [cbn; lia|]. cbn [le_val length].
  replace (8 * Z.of_nat (S (length l))) with (8 + 8 * Z.of_nat (length l)) by lia. rewrite Z.pow_add_r by lia. change (2 ^ 8) with 256. lia.
Qed.

Lemma load_bytes_ok off n b l : bytes_ok b -> load_bytes off n b = Ret l -> bytes_ok l /\ length l = n.
Proof.
  intros Hb. unfold load_bytes. destruct (in_bounds off n b) eqn:E; [|done]. intros [= <-]. apply in_bounds_spec in E. split.
  - by apply Forall_take, Forall_drop.
  - rewrite length_take, length_drop. lia.
Qed.

Lemma At_u32_range off b v : bytes_ok b -> At_u32 off b = Ret v -> 0 <= v < 2 ^ 32.
Proof.
  intros Hb (l & Hl & [= <-])%bind_Ret. destruct (load_bytes_ok _ _ _ _ Hb Hl) as [Hok Hlen].
  pose proof (le_val_range l Hok) as H. by rewrite Hlen in H.
Qed.

Lemma At_ext_range off b p : bytes_ok b -> At_ext off b = Ret p -> 0 <= ext_offset p < 2 ^ 32 /\ 0 <= ext_length p < 2 ^ 32.
Proof.
  intros Hb (l & Hl & [= <-])%bind_Ret. destruct (load_bytes_ok _ _ _ _ Hb Hl) as [Hok Hlen]. cbn [ext_offset ext_length].
  pose proof (le_val_range (take 4 l) ltac:(by apply Forall_take)) as H1. pose proof (le_val_range (drop 4 l) ltac:(by apply Forall_drop)) as H2.
  rewrite length_take, length_drop, Hlen in *. done.
Qed.
End regions.

(** ** Ranges of a memory, a function from addresses to bytes *)
(** The bytes of [n] addresses. *)
Definition mem_range (mem : Z -> Z) (a : Z) (n : nat) : list Z := (fun i : nat => mem (a + Z.of_nat i)) <$> seq 0 n.

Lemma mem_range_ext mem mem' a a' n : (forall i, 0 <= i < Z.of_nat n -> mem (a + i) = mem' (a' + i)) -> mem_range mem a n = mem_range mem' a' n.
Proof.
  intros H. unfold mem_range. apply list_eq. intros i. rewrite !list_lookup_fmap. destruct (seq 0 n !! i) as [j|] eqn:E; [|done].
  apply lookup_seq in E as [-> Hi]. cbn. f_equal. apply H. lia.
Qed.

Lemma mem_range_app mem a n m : mem_range mem a (n + m) = mem_range mem a n ++ mem_range mem (a + Z.of_nat n) m.
Proof.
  unfold mem_range. rewrite seq_app, fmap_app. f_equal. rewrite Nat.add_0_l. rewrite <- (Nat.add_0_r n) at 1. rewrite <- fmap_add_seq, <- list_fmap_compose.
  apply list_fmap_ext. intros i x _. cbn. f_equal. lia.
Qed.

Lemma length_mem_range mem a n : length (mem_range mem a n) = n.
Proof. unfold mem_range. by rewrite length_fmap, length_seq. Qed.
