(* ===== verification/Yunq.v ===== *)
(** * Yunq serialisation (lib/yunq/yunq.h, serialize.h, serialize.cpp,
    message_view.h, message_view.cpp)

    The wire format of the system's messages: a header, one 8-byte slot per
    field, and extensions that slots point to.  [Serializer] writes a message
    into a byte buffer (and its capabilities into a capability buffer, when
    there is one); [MessageView] reads it back.  The template parameter [T] of
    [WriteMessage] and [ReadMessage] is a type with [SerializeToBytes] and
    [ParseFromBytes]: the class [YunqMessage], with the law [YunqMessageLaws]
    that the client proofs use. *)

From Stdlib Require Import ZArith Lia.
From stdpp Require Import base tactics numbers list strings.
From S2P Require Import Prelude Status Buffer.

Definition kHeaderSize : Z := 24.
Definition kIdentByte : Z := 0x33441122.

(** ** Messages as a template parameter *)
Class YunqMessage (T : Type) : Type := {
  msg_default : T;
  SerializeToBytes : T -> ByteBuffer -> Z -> option CapBuffer -> res (Z * (ByteBuffer * option CapBuffer));
  ParseFromBytes : ByteBuffer -> Z -> T -> res (Status * T);
  ParseFromBytes_caps : ByteBuffer -> Z -> CapBuffer -> T -> res (Status * T);
}.

(** ** Serializer *)
Record Serializer : Type := mkSer {
  buffer_ : ByteBuffer;
  offset_ : Z;
  next_extension_ : Z;
  core_size_ : Z;
  next_cap_ : Z;
  caps_ : option CapBuffer;
}.

Definition Serializer_new (bytes : ByteBuffer) (offset num_fields : Z) (caps : option CapBuffer) : Serializer :=
  let next_extension := kHeaderSize [+] 8 [*] num_fields in
  mkSer bytes offset next_extension next_extension 0 caps.

Definition field_offset (offset field_index : Z) : Z := offset [+] kHeaderSize [+] 8 [*] field_index.

Section serializer.
Implicit Types s : Serializer.

Definition with_bytes (b : ByteBuffer) s : Serializer :=
  mkSer b (offset_ s) (next_extension_ s) (core_size_ s) (next_cap_ s) (caps_ s).
Definition with_extension (n : Z) s : Serializer :=
  mkSer (buffer_ s) (offset_ s) n (core_size_ s) (next_cap_ s) (caps_ s).

Definition WriteHeader s : res Serializer :=
  b ← WriteAt_u32 (offset_ s [+] 0) kIdentByte (buffer_ s);
  b ← WriteAt_u32 (offset_ s [+] 4) (u32 (core_size_ s)) b;
  b ← WriteAt_u32 (offset_ s [+] 8) (u32 (next_extension_ s)) b;
  b ← WriteAt_u32 (offset_ s [+] 12) 0 b;
  Ret (with_bytes b s).

Definition WriteField_u64 (field_index value : Z) s : res Serializer :=
  b ← WriteAt_u64 (field_offset (offset_ s) field_index) value (buffer_ s);
  Ret (with_bytes b s).

Definition WriteField_i64 (field_index value : Z) s : res Serializer :=
  b ← WriteAt_u64 (field_offset (offset_ s) field_index) value (buffer_ s);
  Ret (with_bytes b s).

Definition WriteField_String (field_index : Z) (value : list Z) s : res Serializer :=
  let ptr := mkExt (u32 (next_extension_ s)) (u32 (Z.of_nat (length value))) in
  b ← WriteStringAt (offset_ s [+] next_extension_ s) value (buffer_ s);
  let s := with_extension (next_extension_ s [+] ext_length ptr) s in
  b ← WriteAt_ext (field_offset (offset_ s) field_index) ptr b;
  Ret (with_bytes b s).

(** The loop of [WriteRepeated<uint64_t>]; [ext_offset] is a uint32_t. *)
Fixpoint write_u64s (offset ptr_offset i : Z) (value : list Z) (b : ByteBuffer) : res ByteBuffer :=
  match value with
  | [] => Ret b
  | v :: value' =>
      b ← WriteAt_u64 (u32 (offset + ptr_offset + i * 8)) v b;
      write_u64s offset ptr_offset (i + 1) value' b
  end.

Definition WriteRepeated_u64 (field_index : Z) (value : list Z) s : res Serializer :=
  let ptr := mkExt (u32 (next_extension_ s)) (u32 (Z.of_nat (length value) [*] 8)) in
  let s := with_extension (next_extension_ s [+] ext_length ptr) s in
  b ← WriteAt_ext (field_offset (offset_ s) field_index) ptr (buffer_ s);
  b ← write_u64s (offset_ s) (ext_offset ptr) 0 value b;
  Ret (with_bytes b s).

Definition WriteCapability (field_index value : Z) s : res Serializer :=
  match caps_ s with
  | Some c =>
      b ← WriteAt_u64 (field_offset (offset_ s) field_index) (next_cap_ s) (buffer_ s);
      c ← CapBuffer_WriteAt (next_cap_ s) value c;
      Ret (mkSer b (offset_ s) (next_extension_ s) (core_size_ s) (next_cap_ s [+] 1) (Some c))
  | None => WriteField_u64 field_index value s
  end.

(** The body is empty in the code. *)
Definition WriteRepeatedCapability (field_index : Z) (value : list Z) s : res Serializer := Ret s.

Definition WriteMessage {T} `{YunqMessage T} (field_index : Z) (value : T) s : res Serializer :=
  '(length, (b, c)) ← SerializeToBytes value (buffer_ s) (offset_ s [+] next_extension_ s) (caps_ s);
  let ptr := mkExt (u32 (next_extension_ s)) (u32 length) in
  b ← WriteAt_ext (field_offset (offset_ s) field_index) ptr b;
  Ret (mkSer b (offset_ s) (next_extension_ s [+] length) (core_size_ s) (next_cap_ s) c).

(** The loop of [WriteRepeatedMessage]. *)
Fixpoint write_messages {T} `{YunqMessage T} (value : list T) (offset next_offset length : Z)
    (b : ByteBuffer) (c : option CapBuffer) : res (Z * (ByteBuffer * option CapBuffer)) :=
  match value with
  | [] => Ret (length, (b, c))
  | message :: value' =>
      '(msg_length, (b, c)) ← SerializeToBytes message b (offset [+] next_offset) c;
      write_messages value' offset (next_offset [+] msg_length) (length [+] msg_length) b c
  end.

Definition WriteRepeatedMessage {T} `{YunqMessage T} (field_index : Z) (value : list T) s : res Serializer :=
  '(length, (b, c)) ← write_messages value (offset_ s) (next_extension_ s) 0 (buffer_ s) (caps_ s);
  let ptr := mkExt (u32 (next_extension_ s)) (u32 length) in
  b ← WriteAt_ext (field_offset (offset_ s) field_index) ptr b;
  Ret (mkSer b (offset_ s) (next_extension_ s [+] length) (core_size_ s) (next_cap_ s) c).
End serializer.

(** ** MessageView: a buffer and an offset *)
Section view.
Implicit Types (buffer : ByteBuffer) (offset : Z).

Definition CheckHeader buffer offset : res Status :=
  ident ← At_u32 (offset [+] 0) buffer;
  if negb (ident =? kIdentByte) then Ret (InvalidArgument "Trying to parse an invalid yunq message.")
  else Ret Status_Ok.

Definition MessageLength buffer offset : res Z := At_u32 (offset [+] 8) buffer.

Definition ReadField_u64 buffer offset (field_index : Z) : res (ErrorOr Z) :=
  v ← At_u64 (field_offset offset field_index) buffer; Ret (EOk v).

Definition ReadField_i64 buffer offset (field_index : Z) : res (ErrorOr Z) :=
  v ← At_i64 (field_offset offset field_index) buffer; Ret (EOk v).

Definition ReadField_String buffer offset (field_index : Z) : res (ErrorOr (list Z)) :=
  ptr ← At_ext (field_offset offset field_index) buffer;
  v ← StringAt (offset [+] ext_offset ptr) (ext_length ptr) buffer;
  Ret (EOk v).

(** The loop of [ReadRepeated<uint64_t>], from address [i] to [last]. *)
Fixpoint read_u64s (fuel : nat) (i last : Z) buffer (v : list Z) : res (list Z) :=
  if i <? last then
    match fuel with
    | O => NoFuel
    | S fuel' => x ← At_u64 i buffer; read_u64s fuel' (i [+] 8) last buffer (v ++ [x])
    end
  else Ret v.

Definition ReadRepeated_u64 buffer offset (field_index : Z) : res (ErrorOr (list Z)) :=
  pointer ← At_ext (field_offset offset field_index) buffer;
  v ← read_u64s (S (Z.to_nat (ext_length pointer))) (offset [+] ext_offset pointer)
        (offset [+] ext_offset pointer [+] ext_length pointer) buffer [];
  Ret (EOk v).

Definition ReadCapability buffer offset (field_index : Z) : res (ErrorOr Z) :=
  v ← At_u64 (field_offset offset field_index) buffer; Ret (EOk v).

Definition ReadCapability_caps buffer offset (field_index : Z) (caps : CapBuffer) : res (ErrorOr Z) :=
  i ← At_u64 (field_offset offset field_index) buffer;
  v ← CapBuffer_At i caps;
  Ret (EOk v).

Definition ReadMessage {T} `{YunqMessage T} buffer offset (field_index : Z) (message : T) : res (Status * T) :=
  ptr ← At_ext (field_offset offset field_index) buffer;
  ParseFromBytes buffer (offset [+] ext_offset ptr) message.

(** The loop of [ReadRepeatedMessage]; its bound is a sum of uint32_t. *)
Fixpoint read_messages {T} `{YunqMessage T} (fuel : nat) (ext_offset last offset : Z) buffer (messages : list T) :
    res (Status * list T) :=
  if ext_offset <? last then
    match fuel with
    | O => NoFuel
    | S fuel' =>
        '(st, message) ← ParseFromBytes buffer (offset [+] ext_offset) msg_default;
        if negb (Status_ok st) then Ret (st, messages ++ [message]) else
        len ← MessageLength buffer (offset [+] ext_offset);
        read_messages fuel' (ext_offset [+] len) last offset buffer (messages ++ [message])
    end
  else Ret (Status_Ok, messages).

Definition ReadRepeatedMessage {T} `{YunqMessage T} buffer offset (field_index : Z) (messages : list T) :
    res (Status * list T) :=
  ptr ← At_ext (field_offset offset field_index) buffer;
  read_messages (S (Z.to_nat (ext_length ptr))) (Buffer.ext_offset ptr) (u32 (Buffer.ext_offset ptr + ext_length ptr))
    offset buffer messages.
End view.

(** ** Macros of generated code: the members of [this] are assigned one by one. *)
Definition ASSIGN_OR_RETURN {A T} (r : res (ErrorOr A)) (this : T) (k : A -> res (Status * T)) : res (Status * T) :=
  e ← r;
  match e with
  | EErr code => Ret (mkStatus code "", this)
  | EOk v => k v
  end.

Definition RETURN_ERROR {T} (r : res (Status * T)) (k : T -> res (Status * T)) : res (Status * T) :=
  '(st, this) ← r;
  if Status_ok st then k this else Ret (st, this).

(** ** The promise of a message type

    What [SerializeToBytes] writes, [ParseFromBytes] reads back from any
    buffer with the same bytes in the message's region, and nothing outside
    of the region is touched.  Messages that are nested in others carry no
    capabilities of their own, so the capability buffer is unchanged. *)
Class YunqMessageLaws (T : Type) `{YunqMessage T} : Type := {
  msg_wf : T -> Prop;
  msg_size : T -> Z;
  msg_size_min m : kHeaderSize <= msg_size m;
  serialize_law m b off c :
    msg_wf m -> 0 <= off -> off + msg_size m <= Z.of_nat (length b) -> Z.of_nat (length b) < 2 ^ 32 ->
    exists b', SerializeToBytes m b off c = Ret (msg_size m, (b', c)) /\
      agree (fun i => ~ rng off (off + msg_size m) i) b b' /\
      forall b'', agree (rng off (off + msg_size m)) b' b'' ->
        ParseFromBytes b'' off msg_default = Ret (Status_Ok, m) /\ MessageLength b'' off = Ret (msg_size m);
}.

(** The overload of [ParseFromBytes] that goes with the overload of
    [SerializeToBytes], applied to a fresh message. *)
Definition parse_with {T} `{YunqMessage T} (b : ByteBuffer) (off : Z) (c : option CapBuffer) : res (Status * T) :=
  match c with
  | None => ParseFromBytes b off msg_default
  | Some c => ParseFromBytes_caps b off c msg_default
  end.

(** ** Writers of one field

    [field_spec w idx sz nc R]: the writer [w] fills slot [idx], takes [sz]
    bytes of extension and [nc] capabilities, and afterwards [R] holds of
    every buffer (and capability buffer) that has the same contents there. *)
Definition cagree (lo hi : Z) (c c' : option CapBuffer) : Prop :=
  match c, c' with
  | None, None => True
  | Some x, Some y => length (cap_buffer_ x) = length (cap_buffer_ y) /\
      forall i : nat, lo <= Z.of_nat i < hi -> cap_buffer_ x !! i = cap_buffer_ y !! i
  | _, _ => False
  end.

(** [c'] is [c] after [nc] capabilities were written from slot [n] on. *)
Definition cwritten (n nc : Z) (c c' : option CapBuffer) : Prop :=
  match c, c' with
  | None, None => True
  | Some x, Some y => length (cap_buffer_ x) = length (cap_buffer_ y) /\
      (forall i : nat, ~ (n <= Z.of_nat i < n + nc) -> cap_buffer_ x !! i = cap_buffer_ y !! i) /\
      used_slots_ y = if nc =? 0 then used_slots_ x else Z.max (used_slots_ x) (n + nc)
  | _, _ => False
  end.

Definition cap_room (c : option CapBuffer) (n nc : Z) : Prop :=
  match c with
  | None => True
  | Some x => 0 <= n /\ 0 <= nc /\ n + nc <= Z.of_nat (length (cap_buffer_ x)) /\ n + nc < 2 ^ 32
  end.

Definition cap_count (c : option CapBuffer) (n nc : Z) : Z := match c with None => n | Some _ => n + nc end.

Record fits (s : Serializer) (idx sz nc : Z) : Prop := {
  fit_off : 0 <= offset_ s;
  fit_idx : 0 <= idx;
  fit_core : kHeaderSize + 8 * idx + 8 <= core_size_ s;
  fit_ext : core_size_ s <= next_extension_ s;
  fit_size : 0 <= sz;
  fit_end : offset_ s + next_extension_ s + sz <= Z.of_nat (length (buffer_ s));
  fit_len : Z.of_nat (length (buffer_ s)) < 2 ^ 32;
  fit_caps : cap_room (caps_ s) (next_cap_ s) nc;
}.

(** The slots from [idx] on, [n] of them, and the extensions from [ne] on, [sz] bytes. *)
Definition foot (off idx n ne sz i : Z) : Prop :=
  rng (off + kHeaderSize + 8 * idx) (off + kHeaderSize + 8 * (idx + n)) i \/ rng (off + ne) (off + ne + sz) i.

Definition reads : Type := ByteBuffer -> Z -> option CapBuffer -> Prop.

Definition field_spec (w : Serializer -> res Serializer) (idx sz nc : Z) (R : reads) : Prop :=
  forall s, fits s idx sz nc ->
  exists b' c', w s = Ret (mkSer b' (offset_ s) (next_extension_ s + sz) (core_size_ s) (cap_count (caps_ s) (next_cap_ s) nc) c') /\
    agree (fun i => ~ foot (offset_ s) idx 1 (next_extension_ s) sz i) (buffer_ s) b' /\
    cwritten (next_cap_ s) nc (caps_ s) c' /\
    forall b'' c'', agree (foot (offset_ s) idx 1 (next_extension_ s) sz) b' b'' ->
      cagree (next_cap_ s) (next_cap_ s + nc) c' c'' -> R b'' (offset_ s) c''.

Section fields.
Implicit Types s : Serializer.

Lemma cwritten_refl n c : cwritten n 0 c c.
Proof. by destruct c. Qed.

Lemma cwritten_cagree n nc lo hi c c' : cwritten n nc c c' -> hi <= n -> cagree lo hi c c'.
Proof. destruct c, c'; cbn; try done. intros (Hl & H & _) Hn. split; [done|]. intros i Hi. apply H. lia. Qed.

(** Writing no capability leaves the buffer as it is. *)
Lemma cwritten_0 n c c' : cwritten n 0 c c' -> c' = c.
Proof.
  destruct c as [[l u]|], c' as [[l' u']|]; cbn; try done. intros (_ & H & ->). do 2 f_equal. apply list_eq. intros i. symmetry. apply H. lia.
Qed.

Lemma cap_count_0 c n : cap_count c n 0 = n.
Proof. destruct c; cbn; lia. Qed.

Lemma slot_offset off idx :
  0 <= off -> 0 <= idx -> off + kHeaderSize + 8 * idx < 2 ^ 64 -> field_offset off idx = off + kHeaderSize + 8 * idx.
Proof. intros. unfold field_offset, kHeaderSize in *. rewrite (u64_small (off + 24)), (u64_small (8 * idx)), u64_small by lia. done. Qed.

Lemma fits_slot s idx sz nc :
  fits s idx sz nc ->
  field_offset (offset_ s) idx = offset_ s + kHeaderSize + 8 * idx /\ 0 <= offset_ s + kHeaderSize + 8 * idx /\
  offset_ s + kHeaderSize + 8 * idx + 8 <= offset_ s + next_extension_ s /\
  offset_ s + next_extension_ s + sz <= Z.of_nat (length (buffer_ s)) < 2 ^ 32 /\ 0 <= next_extension_ s.
Proof.
  intros [H1 H2 H3 H4 H5 H6 H7 _]. unfold kHeaderSize in *. split; [|lia]. apply slot_offset; unfold kHeaderSize; lia.
Qed.

(** Fields that live in their slot. *)
Lemma slot_field_spec w idx v R :
  (forall s, w s = (b ← WriteAt_u64 (field_offset (offset_ s) idx) v (buffer_ s); Ret (with_bytes b s))) ->
  (forall b off c, 0 <= off -> field_offset off idx = off + kHeaderSize + 8 * idx ->
     ((is_u64 v -> At_u64 (field_offset off idx) b = Ret v) /\ (- 2 ^ 63 <= v < 2 ^ 63 -> At_i64 (field_offset off idx) b = Ret v)) -> R b off c) ->
  field_spec w idx 0 0 R.
Proof.
  intros Hw HR s Hf. destruct (fits_slot _ _ _ _ Hf) as (Hs & H0 & H1 & H2 & H3). rewrite Hw, Hs.
  destruct (WriteAt_u64_spec (offset_ s + kHeaderSize + 8 * idx) v (buffer_ s)) as (b' & -> & Ha & Hr); [done|lia|].
  rewrite ret_bind. unfold with_bytes. exists b', (caps_ s). rewrite Z.add_0_r, cap_count_0. split; [done|]. split; [|split].
  - eapply agree_mono; [|exact Ha]. unfold foot, rng. lia.
  - apply cwritten_refl.
  - intros b'' c'' Hag _. apply HR; [exact (fit_off _ _ _ _ Hf)|done|]. rewrite Hs. apply Hr. eapply agree_mono; [|exact Hag]. unfold foot, rng. lia.
Qed.

Lemma u64_field_spec idx v :
  is_u64 v -> field_spec (WriteField_u64 idx v) idx 0 0 (fun b off _ => ReadField_u64 b off idx = Ret (EOk v)).
Proof.
  intros Hv. eapply slot_field_spec; [done|]. intros b off c _ _ [H _]. unfold ReadField_u64. by rewrite H.
Qed.

Lemma i64_field_spec idx v :
  - 2 ^ 63 <= v < 2 ^ 63 -> field_spec (WriteField_i64 idx v) idx 0 0 (fun b off _ => ReadField_i64 b off idx = Ret (EOk v)).
Proof.
  intros Hv. eapply slot_field_spec; [done|]. intros b off c _ _ [_ H]. unfold ReadField_i64. by rewrite H.
Qed.

(** A capability goes to the next slot of the capability buffer, or inline when there is none. *)
Definition reads_cap (idx v : Z) : reads := fun b off c =>
  match c with
  | None => ReadCapability b off idx = Ret (EOk v)
  | Some c => ReadCapability_caps b off idx c = Ret (EOk v)
  end.

Lemma cap_field_spec idx v : is_u64 v -> field_spec (WriteCapability idx v) idx 0 1 (reads_cap idx v).
Proof.
  intros Hv s Hf. destruct (fits_slot _ _ _ _ Hf) as (Hs & H0 & H1 & H2 & H3). unfold WriteCapability.
  pose proof (fit_caps _ _ _ _ Hf) as Hc. destruct (caps_ s) as [c|] eqn:Ec; cbn [cap_room cap_count] in *.
  - destruct Hc as (Hn & _ & Hr & Hl). rewrite Hs.
    destruct (WriteAt_u64_spec (offset_ s + kHeaderSize + 8 * idx) (next_cap_ s) (buffer_ s)) as (b' & -> & Ha & Hrd); [done|lia|].
    rewrite ret_bind. destruct (CapBuffer_WriteAt_spec (next_cap_ s) v c) as (c' & -> & Hu & Hlc & Hg & Ho); [lia|lia|].
    rewrite ret_bind, u64_small by lia. exists b', (Some c'). rewrite Z.add_0_r. split; [done|]. split; [|split].
    + eapply agree_mono; [|exact Ha]. unfold foot, rng. lia.
    + cbn. split_and!; [done| |done]. intros i Hi. symmetry. apply Ho. lia.
    + intros b'' [c''|] Hag Hcag; [|done]. destruct Hcag as [Hlc' Hcag]. cbn [reads_cap]. unfold ReadCapability_caps. rewrite Hs.
      destruct (Hrd b'') as [Hrn _]; [eapply agree_mono; [|exact Hag]; unfold foot, rng; lia|]. rewrite Hrn by (unfold is_u64; lia).
      rewrite ret_bind. unfold CapBuffer_At. rewrite (proj2 (Z.leb_le _ _)) by lia. rewrite <- Hcag by lia. by rewrite Hg.
  - destruct (u64_field_spec idx v Hv s) as (b' & c' & Hw & Ha & Hcw & Hr).
    { destruct Hf. split; try done. by rewrite Ec. }
    rewrite Ec in *. cbn [cap_count] in *. exists b', c'. split; [done|]. split; [done|].
    destruct c' as [c'|]; [done|]. split; [done|]. intros b'' [c''|] Hag Hcag; [done|]. exact (Hr b'' None Hag I).
Qed.

(** Fields that point to an extension: the body writes [sz] bytes at the end of the message, the slot
    receives the pointer. *)
Lemma ext_field_spec idx sz s (b1 : ByteBuffer) R :
  fits s idx sz 0 -> sz < 2 ^ 32 ->
  agree (fun i => ~ rng (offset_ s + next_extension_ s) (offset_ s + next_extension_ s + sz) i) (buffer_ s) b1 ->
  (forall b'', agree (rng (offset_ s + next_extension_ s) (offset_ s + next_extension_ s + sz)) b1 b'' ->
     At_ext (field_offset (offset_ s) idx) b'' = Ret (mkExt (next_extension_ s) sz) -> R b'') ->
  exists b', WriteAt_ext (field_offset (offset_ s) idx) (mkExt (next_extension_ s) sz) b1 = Ret b' /\
    agree (fun i => ~ foot (offset_ s) idx 1 (next_extension_ s) sz i) (buffer_ s) b' /\
    forall b'', agree (foot (offset_ s) idx 1 (next_extension_ s) sz) b' b'' -> R b''.
Proof.
  intros Hf Hsz Ha HR. destruct (fits_slot _ _ _ _ Hf) as (Hs & H0 & H1 & H2 & H3). pose proof (fit_size _ _ _ _ Hf) as H4.
  pose proof (fit_off _ _ _ _ Hf) as H5. pose proof (agree_length _ _ _ Ha) as Hl. rewrite Hs in *.
  destruct (WriteAt_ext_spec (offset_ s + kHeaderSize + 8 * idx) (mkExt (next_extension_ s) sz) b1) as (b' & -> & Ha' & Hr);
    [done|lia|cbn; lia|cbn; lia|]. exists b'. split; [done|]. split.
  - eapply agree_step; [exact Ha|exact Ha'|]. unfold foot, rng. lia.
  - intros b'' Hag. apply HR.
    + eapply agree_step; [exact Ha'|exact Hag|]. unfold foot, rng. lia.
    + apply Hr. eapply agree_mono; [|exact Hag]. unfold foot, rng. lia.
Qed.

Lemma string_field_spec idx v :
  field_spec (WriteField_String idx v) idx (Z.of_nat (length v)) 0 (fun b off _ => ReadField_String b off idx = Ret (EOk v)).
Proof.
  intros s Hf. destruct (fits_slot _ _ _ _ Hf) as (Hs & H0 & H1 & H2 & H3). pose proof (fit_off _ _ _ _ Hf) as H4. unfold WriteField_String.
  rewrite (u64_small (offset_ s + next_extension_ s)), (u32_small (next_extension_ s)), (u32_small (Z.of_nat (length v))) by lia.
  destruct (WriteStringAt_spec v (offset_ s + next_extension_ s) (buffer_ s)) as (b1 & -> & Ha & Hr); [lia|lia|lia|].
  rewrite ret_bind. cbn [ext_length with_extension offset_]. rewrite u64_small by lia.
  destruct (ext_field_spec idx (Z.of_nat (length v)) s b1 (fun b => ReadField_String b (offset_ s) idx = Ret (EOk v)) Hf)
    as (b' & Hw & Ha' & Hr'); [lia|done| |].
  { intros b'' Hag Hp. unfold ReadField_String. rewrite Hp, ret_bind. cbn [ext_offset ext_length]. rewrite u64_small by lia. by rewrite Hr. }
  rewrite Hw, ret_bind. exists b', (caps_ s). rewrite cap_count_0. split; [done|]. split; [done|]. split; [apply cwritten_refl|].
  intros b'' c'' Hag _. by apply Hr'.
Qed.

(** The two loops over repeated integers. *)
Lemma write_u64s_spec vs : forall off po i b,
  0 <= off -> 0 <= po -> 0 <= i -> off + po + 8 * i + 8 * Z.of_nat (length vs) <= Z.of_nat (length b) ->
  Z.of_nat (length b) < 2 ^ 32 -> Forall is_u64 vs ->
  let base := off + po + 8 * i in
  exists b', write_u64s off po i vs b = Ret b' /\ agree (fun j => ~ rng base (base + 8 * Z.of_nat (length vs)) j) b b' /\
    forall b'', agree (rng base (base + 8 * Z.of_nat (length vs))) b' b'' ->
    forall fuel acc, (length vs <= fuel)%nat -> read_u64s fuel base (base + 8 * Z.of_nat (length vs)) b'' acc = Ret (acc ++ vs).
Proof.
  induction vs as [|v vs IH]; intros off po i b H0 H1 H2 Hb Hlen Hvs base; cbn [write_u64s length] in *.
  - exists b. split; [done|]. split; [done|]. intros b'' _ fuel acc _. rewrite app_nil_r.
    destruct fuel; cbn [read_u64s]; rewrite (proj2 (Z.ltb_ge _ _)) by lia; done.
  - apply Forall_cons in Hvs as [Hv Hvs]. rewrite u32_small by lia. replace (off + po + i * 8) with base by lia.
    destruct (WriteAt_u64_spec base v b) as (b1 & -> & Ha1 & Hr1); [lia|lia|]. rewrite ret_bind.
    pose proof (agree_length _ _ _ Ha1) as Hl1.
    destruct (IH off po (i + 1) b1) as (b' & Hw & Ha & Hr); [lia|lia|lia|lia|lia|done|].
    replace (off + po + 8 * (i + 1)) with (base + 8) in * by lia.
    exists b'. split; [done|]. split; [eapply agree_step; [exact Ha1|exact Ha|]; unfold rng; lia|].
    intros b'' Hag fuel acc Hf. destruct fuel as [|fuel]; [lia|]. cbn [read_u64s]. rewrite (proj2 (Z.ltb_lt _ _)) by lia.
    destruct (Hr1 b'') as [Hx _].
    { eapply agree_step; [exact Ha|exact Hag|]. unfold rng. lia. }
    rewrite Hx, ret_bind, u64_small by (done || lia). replace (base + 8 * Z.of_nat (S (length vs))) with (base + 8 + 8 * Z.of_nat (length vs)) by lia.
    rewrite Hr; [by rewrite <- app_assoc| |lia]. eapply agree_mono; [|exact Hag]. unfold rng. lia.
Qed.

Lemma repeated_field_spec idx vs :
  Forall is_u64 vs ->
  field_spec (WriteRepeated_u64 idx vs) idx (8 * Z.of_nat (length vs)) 0 (fun b off _ => ReadRepeated_u64 b off idx = Ret (EOk vs)).
Proof.
  intros Hvs s Hf. destruct (fits_slot _ _ _ _ Hf) as (Hs & H0 & H1 & H2 & H3). pose proof (fit_off _ _ _ _ Hf) as H4. unfold WriteRepeated_u64.
  rewrite (u32_small (next_extension_ s)), (u64_small (Z.of_nat (length vs) * 8)), (u32_small (Z.of_nat (length vs) * 8)) by lia.
  cbn [ext_length ext_offset with_extension offset_ buffer_]. rewrite (u64_small (next_extension_ s + _)) by lia.
  rewrite (Z.mul_comm (Z.of_nat (length vs)) 8). set (sz := 8 * Z.of_nat (length vs)) in *. rewrite Hs.
  destruct (WriteAt_ext_spec (offset_ s + kHeaderSize + 8 * idx) (mkExt (next_extension_ s) sz) (buffer_ s)) as (b1 & -> & Ha1 & Hr1);
    [done|lia|cbn; lia|cbn; lia|]. rewrite ret_bind. pose proof (agree_length _ _ _ Ha1) as Hl1.
  destruct (write_u64s_spec vs (offset_ s) (next_extension_ s) 0 b1) as (b' & -> & Ha & Hr); [lia|lia|lia|lia|lia|done|].
  rewrite Z.mul_0_r, Z.add_0_r in *. fold sz in Ha, Hr. rewrite ret_bind.
  exists b', (caps_ s). rewrite cap_count_0. split; [done|]. split; [eapply agree_step; [exact Ha1|exact Ha|]; unfold foot, rng; lia|].
  split; [apply cwritten_refl|]. intros b'' c'' Hag _. unfold ReadRepeated_u64. rewrite Hs, Hr1.
  2: { eapply agree_step; [exact Ha|exact Hag|]. unfold foot, rng. lia. }
  rewrite ret_bind. cbn [ext_offset ext_length]. rewrite (u64_small (offset_ s + next_extension_ s)), u64_small by lia.
  rewrite Hr; [done| |unfold sz; lia]. eapply agree_mono; [|exact Hag]. unfold foot, rng. lia.
Qed.

(** Nested messages, from the law of their type. *)
Lemma message_field_spec {T} `{YunqMessageLaws T} idx (m : T) :
  msg_wf m ->
  field_spec (WriteMessage idx m) idx (msg_size m) 0 (fun b off _ => ReadMessage b off idx msg_default = Ret (Status_Ok, m)).
Proof.
  intros Hm s Hf. destruct (fits_slot _ _ _ _ Hf) as (Hs & H0' & H1 & H2 & H3). pose proof (fit_off _ _ _ _ Hf) as H4.
  pose proof (msg_size_min m) as Hmin. unfold kHeaderSize in Hmin. unfold WriteMessage. rewrite (u64_small (offset_ s + _)) by lia.
  destruct (serialize_law m (buffer_ s) (offset_ s + next_extension_ s) (caps_ s)) as (b1 & -> & Ha & Hr); [done|lia|lia|lia|].
  rewrite ret_bind, (u32_small (next_extension_ s)), (u32_small (msg_size m)), u64_small by lia.
  destruct (ext_field_spec idx (msg_size m) s b1 (fun b => ReadMessage b (offset_ s) idx msg_default = Ret (Status_Ok, m)) Hf)
    as (b' & Hw & Ha' & Hr'); [lia|done| |].
  { intros b'' Hag Hp. unfold ReadMessage. rewrite Hp, ret_bind. cbn [ext_offset]. rewrite u64_small by lia. by apply Hr. }
  rewrite Hw, ret_bind. exists b', (caps_ s). rewrite cap_count_0. split; [done|]. split; [done|]. split; [apply cwritten_refl|].
  intros b'' c'' Hag _. by apply Hr'.
Qed.

Definition sizes {T} `{YunqMessageLaws T} (ms : list T) : Z := foldr (fun m n => msg_size m + n) 0 ms.

Lemma sizes_min {T} `{YunqMessageLaws T} (ms : list T) : 24 * Z.of_nat (length ms) <= sizes ms.
Proof. induction ms as [|m ms IH]; cbn; [lia|]. pose proof (msg_size_min m). unfold kHeaderSize in *. unfold sizes in IH. lia. Qed.

Lemma write_messages_spec {T} `{YunqMessageLaws T} (ms : list T) : forall off no len b c,
  Forall msg_wf ms -> 0 <= off -> 0 <= no -> 0 <= len <= no -> off + no + sizes ms <= Z.of_nat (length b) -> Z.of_nat (length b) < 2 ^ 32 ->
  exists b', write_messages ms off no len b c = Ret (len + sizes ms, (b', c)) /\
    agree (fun i => ~ rng (off + no) (off + no + sizes ms) i) b b' /\
    forall b'', agree (rng (off + no) (off + no + sizes ms)) b' b'' ->
    forall fuel acc, (length ms <= fuel)%nat -> read_messages fuel no (no + sizes ms) off b'' acc = Ret (Status_Ok, acc ++ ms).
Proof.
  induction ms as [|m ms IH]; intros off no len b c Hwf H1 H2 H3 Hb Hlen; cbn [write_messages sizes foldr] in *.
  - exists b. rewrite Z.add_0_r. split; [done|]. split; [done|]. intros b'' _ fuel acc _. rewrite app_nil_r.
    destruct fuel; cbn [read_messages]; rewrite (proj2 (Z.ltb_ge _ _)) by lia; done.
  - fold (sizes ms) in *. apply Forall_cons in Hwf as [Hm Hwf]. pose proof (msg_size_min m) as Hmin. pose proof (sizes_min ms).
    unfold kHeaderSize in Hmin. rewrite (u64_small (off + no)) by lia.
    destruct (serialize_law m b (off + no) c) as (b1 & -> & Ha1 & Hr1); [done|lia|lia|lia|]. rewrite ret_bind.
    pose proof (agree_length _ _ _ Ha1) as Hl1. rewrite (u64_small (no + _)), (u64_small (len + _)) by lia.
    destruct (IH off (no + msg_size m) (len + msg_size m) b1 c) as (b' & -> & Ha & Hr); [done|lia|lia|lia|lia|lia|].
    replace (off + (no + msg_size m)) with (off + no + msg_size m) in * by lia.
    exists b'. split; [do 2 f_equal; lia|]. split; [eapply agree_step; [exact Ha1|exact Ha|]; unfold rng; lia|].
    intros b'' Hag fuel acc Hf. cbn [length] in Hf. destruct fuel as [|fuel]; [lia|]. cbn [read_messages]. rewrite (proj2 (Z.ltb_lt _ _)) by lia.
    rewrite (u64_small (off + no)) by lia. destruct (Hr1 b'') as [-> ->].
    { eapply agree_step; [exact Ha|exact Hag|]. unfold rng. lia. }
    rewrite !ret_bind. change (Status_ok Status_Ok) with true. cbn [negb]. rewrite u64_small by lia.
    replace (no + (msg_size m + sizes ms)) with (no + msg_size m + sizes ms) by lia.
    rewrite Hr; [by rewrite <- app_assoc| |lia]. eapply agree_mono; [|exact Hag]. unfold rng. lia.
Qed.

Lemma repeated_message_field_spec {T} `{YunqMessageLaws T} idx (ms : list T) :
  Forall msg_wf ms ->
  field_spec (WriteRepeatedMessage idx ms) idx (sizes ms) 0 (fun b off _ => ReadRepeatedMessage b off idx [] = Ret (Status_Ok, ms)).
Proof.
  intros Hms s Hf. destruct (fits_slot _ _ _ _ Hf) as (Hs & H0' & H1 & H2 & H3). pose proof (fit_off _ _ _ _ Hf) as H4.
  pose proof (sizes_min ms) as Hmin. unfold WriteRepeatedMessage.
  destruct (write_messages_spec ms (offset_ s) (next_extension_ s) 0 (buffer_ s) (caps_ s)) as (b1 & -> & Ha & Hr); [done|lia|lia|lia|lia|lia|].
  rewrite ret_bind, Z.add_0_l, (u32_small (next_extension_ s)), (u32_small (sizes ms)), u64_small by lia.
  destruct (ext_field_spec idx (sizes ms) s b1 (fun b => ReadRepeatedMessage b (offset_ s) idx [] = Ret (Status_Ok, ms)) Hf)
    as (b' & Hw & Ha' & Hr'); [lia|done| |].
  { intros b'' Hag Hp. unfold ReadRepeatedMessage. rewrite Hp, ret_bind. cbn [Buffer.ext_offset ext_length]. rewrite u32_small by lia.
    rewrite Hr; [done|done|lia]. }
  rewrite Hw, ret_bind. exists b', (caps_ s). rewrite cap_count_0. split; [done|]. split; [done|]. split; [apply cwritten_refl|].
  intros b'' c'' Hag _. by apply Hr'.
Qed.
End fields.

(** ** Writers of a whole message

    The body of a generated [SerializeInternal]: the fields in order, then [k]. *)
Fixpoint write_fields {A} (ws : list (Serializer -> res Serializer)) (k : Serializer -> res A) (s : Serializer) : res A :=
  match ws with
  | [] => k s
  | w :: ws' => s ← w s; write_fields ws' k s
  end.

Inductive fields_spec : Z -> list (Serializer -> res Serializer) -> Z -> Z -> reads -> Prop :=
  | fields_nil idx : fields_spec idx [] 0 0 (fun _ _ _ => True)
  | fields_cons idx w ws sz nc R sz' nc' R' :
      0 <= sz -> 0 <= nc -> field_spec w idx sz nc R -> fields_spec (idx + 1) ws sz' nc' R' ->
      fields_spec idx (w :: ws) (sz + sz') (nc + nc') (fun b off c => R b off c /\ R' b off c).

(** What the generated functions do around the fields. *)
Definition finish (s : Serializer) : res (Z * (ByteBuffer * option CapBuffer)) :=
  s ← WriteHeader s;
  Ret (next_extension_ s, (buffer_ s, caps_ s)).

Definition message_size (ws : list (Serializer -> res Serializer)) (sz : Z) : Z := kHeaderSize + 8 * Z.of_nat (length ws) + sz.

Section messages.
Lemma fields_nonneg idx ws sz nc R : fields_spec idx ws sz nc R -> 0 <= sz /\ 0 <= nc.
Proof. induction 1; lia. Qed.

Lemma cagree_trans lo hi c1 c2 c3 : cagree lo hi c1 c2 -> cagree lo hi c2 c3 -> cagree lo hi c1 c3.
Proof.
  destruct c1 as [c1|], c2 as [c2|], c3 as [c3|]; cbn; try done. intros [L1 H1] [L2 H2]. split; [congruence|].
  intros i Hi. rewrite H1 by done. by apply H2.
Qed.

Lemma cagree_mono lo hi lo' hi' c c' : lo' <= lo -> hi <= hi' -> cagree lo' hi' c c' -> cagree lo hi c c'.
Proof. intros Hlo Hhi. destruct c, c'; cbn; try done. intros [L H]. split; [done|]. intros i Hi. apply H. lia. Qed.

Lemma cagree_length lo hi lo' hi' c c' : cagree lo hi c c' -> hi' <= lo' -> cagree lo' hi' c c'.
Proof. destruct c, c'; cbn; try done. intros [L _] Hlt. split; [done|]. intros i Hi. lia. Qed.

Lemma cwritten_step n a b c1 c2 c3 :
  0 <= n -> 0 <= a -> 0 <= b -> cwritten n a c1 c2 -> cwritten (cap_count c1 n a) b c2 c3 -> cwritten n (a + b) c1 c3.
Proof.
  intros Hn Ha Hb. destruct c1 as [x|], c2 as [y|], c3 as [z|]; cbn [cap_count]; try done.
  intros (L1 & H1 & U1) (L2 & H2 & U2). split_and!; [congruence| |].
  - intros i Hi. rewrite H1 by lia. apply H2. lia.
  - destruct (Z.eqb_spec a 0), (Z.eqb_spec b 0), (Z.eqb_spec (a + b) 0); lia.
Qed.

Lemma cap_room_sub c n a b : 0 <= a -> 0 <= b -> cap_room c n (a + b) -> cap_room c n a.
Proof. destruct c; cbn; [|done]. lia. Qed.

Lemma cap_room_next n a b c c' : 0 <= a -> 0 <= b -> cap_room c n (a + b) -> cwritten n a c c' -> cap_room c' (cap_count c n a) b.
Proof.
  intros Ha Hb. destruct c as [x|], c' as [y|]; cbn; try done; intros Hr (L & _). rewrite <- L. lia.
Qed.

(** Running the writers of a message one after the other. *)
Lemma fields_run {A} (k : Serializer -> res A) idx ws sz nc R :
  fields_spec idx ws sz nc R -> forall s, 0 <= next_cap_ s ->
  fits s idx sz nc \/ ws = [] ->
  0 <= offset_ s -> 0 <= idx -> kHeaderSize + 8 * (idx + Z.of_nat (length ws)) <= core_size_ s ->
  exists b' c', write_fields ws k s = k (mkSer b' (offset_ s) (next_extension_ s + sz) (core_size_ s) (cap_count (caps_ s) (next_cap_ s) nc) c') /\
    agree (fun i => ~ foot (offset_ s) idx (Z.of_nat (length ws)) (next_extension_ s) sz i) (buffer_ s) b' /\
    cwritten (next_cap_ s) nc (caps_ s) c' /\
    forall b'' c'', agree (foot (offset_ s) idx (Z.of_nat (length ws)) (next_extension_ s) sz) b' b'' ->
      cagree (next_cap_ s) (next_cap_ s + nc) c' c'' -> R b'' (offset_ s) c''.
Proof.
  induction 1 as [idx|idx w ws sz nc R sz' nc' R' Hsz Hnc Hw Hws IH]; intros s Hn Hf H0 Hi Hcore.
  { exists (buffer_ s), (caps_ s). cbn [write_fields]. rewrite Z.add_0_r, cap_count_0. split; [by destruct s|].
    split; [done|]. split; [apply cwritten_refl|done]. }
  destruct Hf as [Hf|]; [|done]. destruct Hf as [F1 F2 F3 F4 F5 F6 F7 F8].
  destruct (fields_nonneg _ _ _ _ _ Hws) as [Hsz' Hnc']. cbn [length] in Hcore.
  destruct (Hw s) as (b1 & c1 & Hw1 & Ha1 & Hc1 & Hr1); [split; try done; [lia|by eapply cap_room_sub]|].
  cbn [write_fields]. rewrite Hw1, ret_bind. set (s1 := mkSer _ _ _ _ _ _). pose proof (agree_length _ _ _ Ha1) as Hl1.
  destruct (IH s1) as (b' & c' & -> & Ha & Hc & Hr); cbn [s1 next_cap_ offset_ core_size_ next_extension_ caps_ buffer_] in *.
  - destruct (caps_ s); cbn [cap_count]; lia.
  - destruct ws as [|w' ws']; [by right|left]. cbn [length] in Hcore. split;
      cbn [offset_ next_extension_ core_size_ buffer_ caps_ next_cap_ s1]; try lia. by eapply cap_room_next.
  - done.
  - lia.
  - lia.
  - exists b', c'. split.
    { do 2 f_equal; [lia|]. destruct (caps_ s) as [x|], c1 as [y|]; cbn in Hc1 |- *; lia || done. }
    split; [|split].
    + eapply agree_step; [exact Ha1|exact Ha|]. cbn [length]. unfold foot, rng. lia.
    + by eapply cwritten_step.
    + intros b'' c'' Hag Hcag. cbn [length] in Hag. split.
      * apply Hr1.
        -- eapply agree_step; [exact Ha|exact Hag|]. unfold foot, rng, kHeaderSize in *. lia.
        -- destruct (caps_ s) as [x|], c1 as [y|]; try done; cbn [cap_count] in Hc.
           ++ eapply cagree_trans; [eapply cwritten_cagree; [exact Hc|]; lia|]. eapply cagree_mono; [| |exact Hcag]; lia.
           ++ by destruct c', c''.
      * apply Hr.
        -- eapply agree_mono; [|exact Hag]. unfold foot, rng. lia.
        -- destruct (caps_ s) as [x|] eqn:Ex; cbn [cap_count].
           ++ eapply cagree_mono; [| |exact Hcag]; lia.
           ++ destruct c1, c', c''; done.
Qed.

Lemma WriteHeader_spec s :
  0 <= offset_ s -> kHeaderSize <= core_size_ s <= next_extension_ s ->
  offset_ s + next_extension_ s <= Z.of_nat (length (buffer_ s)) -> Z.of_nat (length (buffer_ s)) < 2 ^ 32 ->
  exists b', WriteHeader s = Ret (with_bytes b' s) /\ agree (fun i => ~ rng (offset_ s) (offset_ s + 16) i) (buffer_ s) b' /\
    forall b'', agree (rng (offset_ s) (offset_ s + 16)) b' b'' ->
      CheckHeader b'' (offset_ s) = Ret Status_Ok /\ MessageLength b'' (offset_ s) = Ret (next_extension_ s).
Proof.
  intros H0 H1 H2 H3. unfold kHeaderSize in *. unfold WriteHeader. rewrite !u64_small, !u32_small by lia. rewrite Z.add_0_r.
  destruct (WriteAt_u32_spec (offset_ s) kIdentByte (buffer_ s)) as (b1 & -> & A1 & R1); [lia|lia|]. rewrite ret_bind.
  pose proof (agree_length _ _ _ A1). destruct (WriteAt_u32_spec (offset_ s + 4) (core_size_ s) b1) as (b2 & -> & A2 & R2); [lia|lia|].
  rewrite ret_bind. pose proof (agree_length _ _ _ A2).
  destruct (WriteAt_u32_spec (offset_ s + 8) (next_extension_ s) b2) as (b3 & -> & A3 & R3); [lia|lia|].
  rewrite ret_bind. pose proof (agree_length _ _ _ A3). destruct (WriteAt_u32_spec (offset_ s + 12) 0 b3) as (b4 & -> & A4 & _); [lia|lia|].
  rewrite ret_bind. exists b4. split; [done|].
  assert (forall F, (forall i, 0 <= i -> F i -> ~ rng (offset_ s + 4) (offset_ s + 16) i) -> agree F b1 b4) as Hfr.
  { intros F HF. eapply (agree_step _ (fun i => ~ rng (offset_ s + 4) (offset_ s + 12) i) _ _ b3);
      [eapply agree_step; [exact A2|exact A3|]; unfold rng; lia|exact A4|]. intros i Hi HFi. specialize (HF i Hi HFi). unfold rng in *. lia. }
  split.
  - eapply (agree_step _ _ (fun i => ~ rng (offset_ s + 4) (offset_ s + 16) i)); [exact A1|apply Hfr; done|]. unfold rng. lia.
  - intros b'' Hag. unfold CheckHeader, MessageLength. rewrite !u64_small, Z.add_0_r by lia. split.
    + rewrite R1, ret_bind; [by rewrite Z.eqb_refl| |unfold kIdentByte; lia].
      eapply (agree_step _ (rng (offset_ s) (offset_ s + 4))); [apply Hfr; unfold rng; lia|exact Hag|]. unfold rng. lia.
    + apply R3; [|lia]. eapply agree_step; [exact A4|exact Hag|]. unfold rng. lia.
Qed.

(** Everything a generated serializer writes can be read back. *)
Lemma serialize_message_spec ws sz nc R b off c :
  fields_spec 0 ws sz nc R -> 0 <= off -> off + message_size ws sz <= Z.of_nat (length b) -> Z.of_nat (length b) < 2 ^ 32 ->
  cap_room c 0 nc ->
  exists b' c', write_fields ws finish (Serializer_new b off (Z.of_nat (length ws)) c) = Ret (message_size ws sz, (b', c')) /\
    agree (fun i => ~ rng off (off + message_size ws sz) i) b b' /\ cwritten 0 nc c c' /\
    forall b'' c'', agree (rng off (off + message_size ws sz)) b' b'' -> cagree 0 nc c' c'' ->
      CheckHeader b'' off = Ret Status_Ok /\ MessageLength b'' off = Ret (message_size ws sz) /\ R b'' off c''.
Proof.
  intros Hf H0 Hb Hlen Hcap. destruct (fields_nonneg _ _ _ _ _ Hf) as [Hsz Hnc]. unfold message_size, kHeaderSize in *.
  unfold Serializer_new, kHeaderSize. rewrite (u64_small (8 * _)), u64_small by lia. set (n := Z.of_nat (length ws)) in *.
  set (s := mkSer b off (24 + 8 * n) (24 + 8 * n) 0 c).
  destruct (fields_run finish 0 ws sz nc R Hf s) as (b1 & c1 & -> & A1 & C1 & R1);
    cbn [s offset_ next_extension_ core_size_ buffer_ caps_ next_cap_] in *; unfold kHeaderSize; [lia| |lia|lia|lia|].
  { destruct ws as [|w ws]; [by right|left]. assert (1 <= n) by (unfold n; cbn [length]; lia). split; cbn [s offset_ next_extension_ core_size_ buffer_ caps_ next_cap_];
      unfold kHeaderSize; [lia|lia|lia|lia|lia|lia|lia|done]. }
  fold n in A1, R1. pose proof (agree_length _ _ _ A1) as Hl1. unfold finish. set (s1 := mkSer _ _ _ _ _ _).
  destruct (WriteHeader_spec s1) as (b' & -> & A2 & R2); cbn [s1 offset_ next_extension_ core_size_ buffer_ caps_ next_cap_] in *;
    unfold kHeaderSize in *; [lia|lia|lia|lia|]. rewrite ret_bind. cbn [with_bytes next_extension_ buffer_ caps_ s1].
  exists b', c1. split; [done|]. split; [eapply agree_step; [exact A1|exact A2|]; unfold foot, rng, kHeaderSize; lia|]. split; [done|].
  intros b'' c'' Hag Hc. destruct (R2 b'') as [-> ->]; [eapply agree_mono; [|exact Hag]; unfold rng; lia|].
  split_and!; [done|f_equal; lia|]. apply R1; [|done]. eapply agree_step; [exact A2|exact Hag|]. unfold foot, rng, kHeaderSize. lia.
Qed.

(** [m] takes [size] bytes and [nc] capabilities, and survives the trip through any buffer with
    room for it at any offset: every buffer with the same contents in the region of the message (and
    the same capabilities) parses to [m]; nothing outside the region changes. *)
Definition round_trips {T} `{YunqMessage T} (m : T) (size nc : Z) : Prop :=
  forall b off c, 0 <= off -> off + size <= Z.of_nat (length b) -> Z.of_nat (length b) < 2 ^ 32 -> cap_room c 0 nc ->
  exists b' c', SerializeToBytes m b off c = Ret (size, (b', c')) /\
    agree (fun i => ~ rng off (off + size) i) b b' /\ cwritten 0 nc c c' /\
    forall b'' c'', agree (rng off (off + size)) b' b'' -> cagree 0 nc c' c'' ->
      parse_with b'' off c'' = Ret (Status_Ok, m) /\ MessageLength b'' off = Ret size.

(** A message type round trips when its serializer writes the fields in order and its parser
    returns the message from the fields. *)
Lemma message_round_trips {T} `{YunqMessage T} (m : T) ws sz nc R :
  fields_spec 0 ws sz nc R ->
  (forall b off c, SerializeToBytes m b off c = write_fields ws finish (Serializer_new b off (Z.of_nat (length ws)) c)) ->
  (forall b off c, CheckHeader b off = Ret Status_Ok -> R b off c -> parse_with b off c = Ret (Status_Ok, m)) ->
  round_trips m (message_size ws sz) nc.
Proof.
  intros Hf Hs Hp b off c H0 Hb Hlen Hc. rewrite Hs.
  destruct (serialize_message_spec ws sz nc R b off c Hf H0 Hb Hlen Hc) as (b' & c' & -> & Ha & Hcw & Hr).
  exists b', c'. split_and!; [done|done|done|]. intros b'' c'' Hag Hcag. destruct (Hr b'' c'' Hag Hcag) as (Hh & Hl & HR).
  split; [by apply Hp|done].
Qed.

(** A message without capabilities satisfies the law of nested messages. *)
Lemma message_law {T} `{YunqMessage T} (m : T) ws sz R (b : ByteBuffer) (off : Z) (c : option CapBuffer) :
  fields_spec 0 ws sz 0 R ->
  (forall b off c, SerializeToBytes m b off c = write_fields ws finish (Serializer_new b off (Z.of_nat (length ws)) c)) ->
  (forall b off c, CheckHeader b off = Ret Status_Ok -> R b off c -> ParseFromBytes b off msg_default = Ret (Status_Ok, m)) ->
  0 <= off -> off + message_size ws sz <= Z.of_nat (length b) -> Z.of_nat (length b) < 2 ^ 32 ->
  exists b', SerializeToBytes m b off c = Ret (message_size ws sz, (b', c)) /\
    agree (fun i => ~ rng off (off + message_size ws sz) i) b b' /\
    forall b'', agree (rng off (off + message_size ws sz)) b' b'' ->
      ParseFromBytes b'' off msg_default = Ret (Status_Ok, m) /\ MessageLength b'' off = Ret (message_size ws sz).
Proof.
  intros Hf Hs Hp H0 Hb Hlen. rewrite Hs. destruct (serialize_message_spec ws sz 0 R b off c Hf H0 Hb Hlen) as (b' & c' & -> & Ha & Hcw & Hr).
  { destruct c; cbn; [lia|done]. }
  apply cwritten_0 in Hcw as ->. exists b'. split_and!; [done|done|]. intros b'' Hag.
  destruct (Hr b'' c Hag) as (Hh & Hl & HR); [by destruct c|]. split; [by eapply Hp|done].
Qed.

(** The same, with the size and the number of capabilities written in the message's own terms. *)
Lemma message_round_trips_eq {T} `{YunqMessage T} (m : T) ws sz nc R size nc' :
  fields_spec 0 ws sz nc R ->
  (forall b off c, SerializeToBytes m b off c = write_fields ws finish (Serializer_new b off (Z.of_nat (length ws)) c)) ->
  (forall b off c, CheckHeader b off = Ret Status_Ok -> R b off c -> parse_with b off c = Ret (Status_Ok, m)) ->
  size = message_size ws sz -> nc' = nc -> round_trips m size nc'.
Proof. intros Hf Hs Hp -> ->. by eapply message_round_trips. Qed.

Lemma message_law_eq {T} `{YunqMessage T} (m : T) ws sz nc R size (b : ByteBuffer) (off : Z) (c : option CapBuffer) :
  fields_spec 0 ws sz nc R ->
  (forall b off c, SerializeToBytes m b off c = write_fields ws finish (Serializer_new b off (Z.of_nat (length ws)) c)) ->
  (forall b off c, CheckHeader b off = Ret Status_Ok -> R b off c -> ParseFromBytes b off msg_default = Ret (Status_Ok, m)) ->
  size = message_size ws sz -> nc = 0 -> 0 <= off -> off + size <= Z.of_nat (length b) -> Z.of_nat (length b) < 2 ^ 32 ->
  exists b', SerializeToBytes m b off c = Ret (size, (b', c)) /\
    agree (fun i => ~ rng off (off + size) i) b b' /\
    forall b'', agree (rng off (off + size)) b' b'' ->
      ParseFromBytes b'' off msg_default = Ret (Status_Ok, m) /\ MessageLength b'' off = Ret size.
Proof. intros Hf Hs Hp -> ->. by eapply message_law. Qed.
End messages.

(** ** Termination of the parser on foreign bytes *)
Section termination.
Context {T : Type} `{YunqMessage T}.

Lemma At_not_NoFuel off b : At_u32 off b <> NoFuel /\ At_ext off b <> NoFuel.
Proof. unfold At_u32, At_ext, load_bytes. split; by destruct (in_bounds _ _ _). Qed.

Lemma read_messages_ends b off last fuel : forall ext acc,
  bytes_ok b -> (forall o, ParseFromBytes b o msg_default <> NoFuel) ->
  (forall o m, ParseFromBytes b o msg_default = Ret (Status_Ok, m) -> MessageLength b o <> Ret 0) ->
  (forall o st m, ParseFromBytes b o msg_default = Ret (st, m) -> Status_ok st = true -> st = Status_Ok) ->
  0 <= ext < 2 ^ 32 -> last < 2 ^ 32 -> last - ext < Z.of_nat fuel -> read_messages fuel ext last off b acc <> NoFuel.
Proof.
  intros ext acc Hb Hp Hz Hst. revert ext acc.
  induction fuel as [|fuel IH]; intros ext acc He Hl Hf; cbn [read_messages]; destruct (Z.ltb_spec ext last); try done; [lia|].
  destruct (ParseFromBytes b (off [+] ext) msg_default) as [[st m]| | |] eqn:Ep; [|done..|by destruct (Hp (off [+] ext))].
  rewrite ret_bind. destruct (Status_ok st) eqn:Es; cbn [negb]; [|done]. rewrite (Hst _ _ _ Ep Es) in Ep.
  destruct (MessageLength b (off [+] ext)) as [len| | |] eqn:El; [|done..|by destruct (proj1 (At_not_NoFuel (off [+] ext [+] 8) b))].
  rewrite ret_bind. pose proof (At_u32_range _ _ _ Hb El). assert (len <> 0) by (intros ->; by apply (Hz _ _ Ep)).
  rewrite u64_small by lia. destruct (decide (ext + len < 2 ^ 32)); [apply IH; lia|].
  destruct fuel; cbn [read_messages]; rewrite (proj2 (Z.ltb_ge _ _)) by lia; done.
Qed.

Lemma read_messages_loops b off ext last m fuel : forall acc,
  0 <= ext < 2 ^ 32 -> ext < last -> ParseFromBytes b (off [+] ext) msg_default = Ret (Status_Ok, m) ->
  MessageLength b (off [+] ext) = Ret 0 -> read_messages fuel ext last off b acc = NoFuel.
Proof.
  induction fuel as [|fuel IH]; intros acc He Hl Hp Hz; cbn [read_messages]; rewrite (proj2 (Z.ltb_lt _ _)) by lia; [done|].
  rewrite Hp, ret_bind. change (Status_ok Status_Ok) with true. cbn [negb]. rewrite Hz, ret_bind, Z.add_0_r, u64_small by lia. by apply IH.
Qed.

(** C38.  Reading a repeated message field ends on every buffer in which no element claims to be
    zero bytes long; one element that does makes it run forever (appending a message each time),
    whatever the number of turns allowed. *)
Theorem ReadRepeatedMessage_termination b off field_index ms :
  bytes_ok b -> (forall o, ParseFromBytes b o msg_default <> NoFuel) ->
  (forall o st m, ParseFromBytes b o msg_default = Ret (st, m) -> Status_ok st = true -> st = Status_Ok) ->
  ((forall o m, ParseFromBytes b o msg_default = Ret (Status_Ok, m) -> MessageLength b o <> Ret 0) ->
     ReadRepeatedMessage b off field_index ms <> NoFuel) /\
  (forall ptr m, At_ext (field_offset off field_index) b = Ret ptr ->
     0 < ext_length ptr -> Buffer.ext_offset ptr + ext_length ptr < 2 ^ 32 ->
     ParseFromBytes b (off [+] Buffer.ext_offset ptr) msg_default = Ret (Status_Ok, m) ->
     MessageLength b (off [+] Buffer.ext_offset ptr) = Ret 0 ->
     forall fuel, read_messages fuel (Buffer.ext_offset ptr) (Buffer.ext_offset ptr + ext_length ptr) off b ms = NoFuel).
Proof.
  intros Hb Hp Hst. split.
  - intros Hz. unfold ReadRepeatedMessage. destruct (At_ext _ b) as [ptr| | |] eqn:Ep; [|done..|by destruct (At_not_NoFuel (field_offset off field_index) b)].
    rewrite ret_bind. destruct (At_ext_range _ _ _ Hb Ep). pose proof (u32_range (Buffer.ext_offset ptr + ext_length ptr)).
    apply read_messages_ends; try done; [lia|]. unfold u32 in *.
    destruct (decide (Buffer.ext_offset ptr + ext_length ptr < 2 ^ 32)); [rewrite Z.mod_small by lia; lia|lia].
  - intros ptr m Ha Hl Hs Hm Hz fuel. destruct (At_ext_range _ _ _ Hb Ha). eapply read_messages_loops; [lia|lia|done|done].
Qed.
End termination.
