(* ===== verification/YunqMessages.v ===== *)
(** * Generated messages (lib/yunq/test/example/example.yunq, sys/*/lib/*/*.yunq)

    The classes the yunq compiler generates for the services: their members,
    serializers and parsers, as instances of [YunqMessage].  A member of an
    integer type is uninitialised in a fresh message; it is 0 here, and every
    parser overwrites it.  [DiskBlock] is nested in other messages, so it
    also discharges [YunqMessageLaws]. *)

From Stdlib Require Import ZArith Lia.
From stdpp Require Import base tactics numbers list strings.
From S2P Require Import Prelude Status Buffer Yunq.

#[local] Arguments ReadField_u64 : simpl never.
#[local] Arguments ReadField_i64 : simpl never.
#[local] Arguments ReadField_String : simpl never.
#[local] Arguments ReadRepeated_u64 : simpl never.
#[local] Arguments ReadCapability : simpl never.
#[local] Arguments ReadCapability_caps : simpl never.
#[local] Arguments ReadMessage : simpl never.
#[local] Arguments ReadRepeatedMessage : simpl never.
#[local] Arguments CheckHeader : simpl never.

(** The fields of a message, one specification each. *)
Ltac yunq_field :=
  first [ apply u64_field_spec; done | apply i64_field_spec; done | apply string_field_spec | apply repeated_field_spec; done
        | apply cap_field_spec; done | apply message_field_spec; done | apply repeated_message_field_spec; done ].
Ltac yunq_nonneg :=
  first [ lia
        | match goal with |- 0 <= sizes ?l => pose proof (sizes_min l); lia end
        | match goal with |- 0 <= msg_size ?m => pose proof (msg_size_min m); unfold kHeaderSize in *; lia end ].
Ltac yunq_fields :=
  destruct_and?;
  repeat (eapply fields_cons; [| |yunq_field|]; [yunq_nonneg|yunq_nonneg|];
          match goal with |- fields_spec ?i _ _ _ _ => let j := eval compute in i in change i with j end);
  apply fields_nil.
Ltac yunq_size := unfold message_size, kHeaderSize; cbn [length]; lia.

(** The parser, with the value of every read. *)
Ltac yunq_parse HR c := cbn beta in HR; repeat match goal with H : _ /\ _ |- _ => destruct H end; destruct c; cbn [reads_cap] in *; unfold parse_with.
Ltac yunq_steps :=
  unfold RETURN_ERROR, ASSIGN_OR_RETURN;
  repeat match goal with H : context [@msg_default ?T ?I] |- _ => let d := eval cbv in (@msg_default T I) in change (@msg_default T I) with d in H end;
  repeat (match goal with H : ?r = Ret _ |- context [?r] => rewrite H end; cbn; try change (Status_ok Status_Ok) with true; cbn).

(** ** lib/yunq/test/example/example.yunq.h, example.yunq.cpp *)
Record Basic : Type := mkBasic { Basic_field : Z }.

Definition Basic_set_field (value : Z) (this : Basic) : Basic :=
  match this with mkBasic _ => mkBasic value end.

Definition Basic_ParseFromBytesInternal (b : ByteBuffer) (off : Z) (this : Basic) : res (Status * Basic) :=
  RETURN_ERROR (st ← CheckHeader b off; Ret (st, this)) (fun this =>
  ASSIGN_OR_RETURN (ReadField_u64 b off 0) this (fun v => let this := Basic_set_field v this in
  Ret (Status_Ok, this))).

Definition Basic_ParseFromBytes (b : ByteBuffer) (off : Z) (this : Basic) : res (Status * Basic) :=
  RETURN_ERROR (Basic_ParseFromBytesInternal b off this) (fun this =>
  Ret (Status_Ok, this)).

Definition Basic_ParseFromBytes_caps (b : ByteBuffer) (off : Z) (caps : CapBuffer) (this : Basic) : res (Status * Basic) :=
  RETURN_ERROR (Basic_ParseFromBytesInternal b off this) (fun this =>
  Ret (Status_Ok, this)).

Definition Basic_SerializeInternal (this : Basic) (s : Serializer) : res (Z * (ByteBuffer * option CapBuffer)) :=
  s ← WriteField_u64 0 (Basic_field this) s;
  s ← WriteHeader s;
  Ret (next_extension_ s, (buffer_ s, caps_ s)).

Definition Basic_SerializeToBytes (this : Basic) (bytes : ByteBuffer) (offset : Z) (caps : option CapBuffer) :
    res (Z * (ByteBuffer * option CapBuffer)) :=
  Basic_SerializeInternal this (Serializer_new bytes offset 1 caps).

#[export] Instance Basic_message : YunqMessage Basic := {
  msg_default := mkBasic 0;
  SerializeToBytes := Basic_SerializeToBytes;
  ParseFromBytes := Basic_ParseFromBytes;
  ParseFromBytes_caps := Basic_ParseFromBytes_caps;
}.

Definition Basic_wf (m : Basic) : Prop := is_u64 (Basic_field m).
Definition Basic_bytes (m : Basic) : Z := 32.
Definition Basic_writers (m : Basic) : list (Serializer -> res Serializer) :=
  [WriteField_u64 0 (Basic_field m)].

Lemma Basic_round_trips m : Basic_wf m -> round_trips m (Basic_bytes m) 0.
Proof.
  intros Hm. unfold Basic_wf in Hm. eapply (message_round_trips_eq m (Basic_writers m)); [yunq_fields|reflexivity| |unfold Basic_bytes, Basic_writers; yunq_size|done].
  intros b off c Hh HR. yunq_parse HR c; unfold ParseFromBytes, ParseFromBytes_caps, Basic_message, Basic_ParseFromBytes, Basic_ParseFromBytes_caps, Basic_ParseFromBytesInternal; destruct m; yunq_steps; done.
Qed.

Record Types : Type := mkTypes { Types_unsigned_int : Z; Types_signed_int : Z; Types_str : list Z }.

Definition Types_set_unsigned_int (value : Z) (this : Types) : Types :=
  match this with mkTypes _ x1 x2 => mkTypes value x1 x2 end.
Definition Types_set_signed_int (value : Z) (this : Types) : Types :=
  match this with mkTypes x0 _ x2 => mkTypes x0 value x2 end.
Definition Types_set_str (value : list Z) (this : Types) : Types :=
  match this with mkTypes x0 x1 _ => mkTypes x0 x1 value end.

Definition Types_ParseFromBytesInternal (b : ByteBuffer) (off : Z) (this : Types) : res (Status * Types) :=
  RETURN_ERROR (st ← CheckHeader b off; Ret (st, this)) (fun this =>
  ASSIGN_OR_RETURN (ReadField_u64 b off 0) this (fun v => let this := Types_set_unsigned_int v this in
  ASSIGN_OR_RETURN (ReadField_i64 b off 1) this (fun v => let this := Types_set_signed_int v this in
  ASSIGN_OR_RETURN (ReadField_String b off 2) this (fun v => let this := Types_set_str v this in
  Ret (Status_Ok, this))))).

Definition Types_ParseFromBytes (b : ByteBuffer) (off : Z) (this : Types) : res (Status * Types) :=
  RETURN_ERROR (Types_ParseFromBytesInternal b off this) (fun this =>
  Ret (Status_Ok, this)).

Definition Types_ParseFromBytes_caps (b : ByteBuffer) (off : Z) (caps : CapBuffer) (this : Types) : res (Status * Types) :=
  RETURN_ERROR (Types_ParseFromBytesInternal b off this) (fun this =>
  Ret (Status_Ok, this)).

Definition Types_SerializeInternal (this : Types) (s : Serializer) : res (Z * (ByteBuffer * option CapBuffer)) :=
  s ← WriteField_u64 0 (Types_unsigned_int this) s;
  s ← WriteField_i64 1 (Types_signed_int this) s;
  s ← WriteField_String 2 (Types_str this) s;
  s ← WriteHeader s;
  Ret (next_extension_ s, (buffer_ s, caps_ s)).

Definition Types_SerializeToBytes (this : Types) (bytes : ByteBuffer) (offset : Z) (caps : option CapBuffer) :
    res (Z * (ByteBuffer * option CapBuffer)) :=
  Types_SerializeInternal this (Serializer_new bytes offset 3 caps).

#[export] Instance Types_message : YunqMessage Types := {
  msg_default := mkTypes 0 0 [];
  SerializeToBytes := Types_SerializeToBytes;
  ParseFromBytes := Types_ParseFromBytes;
  ParseFromBytes_caps := Types_ParseFromBytes_caps;
}.

Definition Types_wf (m : Types) : Prop := is_u64 (Types_unsigned_int m) /\ - 2 ^ 63 <= Types_signed_int m < 2 ^ 63.
Definition Types_bytes (m : Types) : Z := 48 + Z.of_nat (length (Types_str m)).
Definition Types_writers (m : Types) : list (Serializer -> res Serializer) :=
  [WriteField_u64 0 (Types_unsigned_int m); WriteField_i64 1 (Types_signed_int m); WriteField_String 2 (Types_str m)].

Lemma Types_round_trips m : Types_wf m -> round_trips m (Types_bytes m) 0.
Proof.
  intros Hm. unfold Types_wf in Hm. eapply (message_round_trips_eq m (Types_writers m)); [yunq_fields|reflexivity| |unfold Types_bytes, Types_writers; yunq_size|done].
  intros b off c Hh HR. yunq_parse HR c; unfold ParseFromBytes, ParseFromBytes_caps, Types_message, Types_ParseFromBytes, Types_ParseFromBytes_caps, Types_ParseFromBytesInternal; destruct m; yunq_steps; done.
Qed.

Record Cap : Type := mkCap { Cap_cap : Z }.

Definition Cap_set_cap (value : Z) (this : Cap) : Cap :=
  match this with mkCap _ => mkCap value end.

Definition Cap_ParseFromBytesInternal (b : ByteBuffer) (off : Z) (this : Cap) : res (Status * Cap) :=
  RETURN_ERROR (st ← CheckHeader b off; Ret (st, this)) (fun this =>
  Ret (Status_Ok, this)).

Definition Cap_ParseFromBytes (b : ByteBuffer) (off : Z) (this : Cap) : res (Status * Cap) :=
  RETURN_ERROR (Cap_ParseFromBytesInternal b off this) (fun this =>
  ASSIGN_OR_RETURN (ReadCapability b off 0) this (fun v => let this := Cap_set_cap v this in
  Ret (Status_Ok, this))).

Definition Cap_ParseFromBytes_caps (b : ByteBuffer) (off : Z) (caps : CapBuffer) (this : Cap) : res (Status * Cap) :=
  RETURN_ERROR (Cap_ParseFromBytesInternal b off this) (fun this =>
  ASSIGN_OR_RETURN (ReadCapability_caps b off 0 caps) this (fun v => let this := Cap_set_cap v this in
  Ret (Status_Ok, this))).

Definition Cap_SerializeInternal (this : Cap) (s : Serializer) : res (Z * (ByteBuffer * option CapBuffer)) :=
  s ← WriteCapability 0 (Cap_cap this) s;
  s ← WriteHeader s;
  Ret (next_extension_ s, (buffer_ s, caps_ s)).

Definition Cap_SerializeToBytes (this : Cap) (bytes : ByteBuffer) (offset : Z) (caps : option CapBuffer) :
    res (Z * (ByteBuffer * option CapBuffer)) :=
  Cap_SerializeInternal this (Serializer_new bytes offset 1 caps).

#[export] Instance Cap_message : YunqMessage Cap := {
  msg_default := mkCap 0;
  SerializeToBytes := Cap_SerializeToBytes;
  ParseFromBytes := Cap_ParseFromBytes;
  ParseFromBytes_caps := Cap_ParseFromBytes_caps;
}.

Definition Cap_wf (m : Cap) : Prop := is_u64 (Cap_cap m).
Definition Cap_bytes (m : Cap) : Z := 32.
Definition Cap_writers (m : Cap) : list (Serializer -> res Serializer) :=
  [WriteCapability 0 (Cap_cap m)].

Lemma Cap_round_trips m : Cap_wf m -> round_trips m (Cap_bytes m) 1.
Proof.
  intros Hm. unfold Cap_wf in Hm. eapply (message_round_trips_eq m (Cap_writers m)); [yunq_fields|reflexivity| |unfold Cap_bytes, Cap_writers; yunq_size|done].
  intros b off c Hh HR. yunq_parse HR c; unfold ParseFromBytes, ParseFromBytes_caps, Cap_message, Cap_ParseFromBytes, Cap_ParseFromBytes_caps, Cap_ParseFromBytesInternal; destruct m; yunq_steps; done.
Qed.

Record Repeated : Type := mkRepeated { Repeated_unsigned_ints : list Z }.

Definition Repeated_set_unsigned_ints (value : list Z) (this : Repeated) : Repeated :=
  match this with mkRepeated _ => mkRepeated value end.

Definition Repeated_ParseFromBytesInternal (b : ByteBuffer) (off : Z) (this : Repeated) : res (Status * Repeated) :=
  RETURN_ERROR (st ← CheckHeader b off; Ret (st, this)) (fun this =>
  ASSIGN_OR_RETURN (ReadRepeated_u64 b off 0) this (fun v => let this := Repeated_set_unsigned_ints v this in
  Ret (Status_Ok, this))).

Definition Repeated_ParseFromBytes (b : ByteBuffer) (off : Z) (this : Repeated) : res (Status * Repeated) :=
  RETURN_ERROR (Repeated_ParseFromBytesInternal b off this) (fun this =>
  Ret (Status_Ok, this)).

Definition Repeated_ParseFromBytes_caps (b : ByteBuffer) (off : Z) (caps : CapBuffer) (this : Repeated) : res (Status * Repeated) :=
  RETURN_ERROR (Repeated_ParseFromBytesInternal b off this) (fun this =>
  Ret (Status_Ok, this)).

Definition Repeated_SerializeInternal (this : Repeated) (s : Serializer) : res (Z * (ByteBuffer * option CapBuffer)) :=
  s ← WriteRepeated_u64 0 (Repeated_unsigned_ints this) s;
  s ← WriteHeader s;
  Ret (next_extension_ s, (buffer_ s, caps_ s)).

Definition Repeated_SerializeToBytes (this : Repeated) (bytes : ByteBuffer) (offset : Z) (caps : option CapBuffer) :
    res (Z * (ByteBuffer * option CapBuffer)) :=
  Repeated_SerializeInternal this (Serializer_new bytes offset 1 caps).

#[export] Instance Repeated_message : YunqMessage Repeated := {
  msg_default := mkRepeated [];
  SerializeToBytes := Repeated_SerializeToBytes;
  ParseFromBytes := Repeated_ParseFromBytes;
  ParseFromBytes_caps := Repeated_ParseFromBytes_caps;
}.

Definition Repeated_wf (m : Repeated) : Prop := Forall is_u64 (Repeated_unsigned_ints m).
Definition Repeated_bytes (m : Repeated) : Z := 32 + 8 * Z.of_nat (length (Repeated_unsigned_ints m)).
Definition Repeated_writers (m : Repeated) : list (Serializer -> res Serializer) :=
  [WriteRepeated_u64 0 (Repeated_unsigned_ints m)].

Lemma Repeated_round_trips m : Repeated_wf m -> round_trips m (Repeated_bytes m) 0.
Proof.
  intros Hm. unfold Repeated_wf in Hm. eapply (message_round_trips_eq m (Repeated_writers m)); [yunq_fields|reflexivity| |unfold Repeated_bytes, Repeated_writers; yunq_size|done].
  intros b off c Hh HR. yunq_parse HR c; unfold ParseFromBytes, ParseFromBytes_caps, Repeated_message, Repeated_ParseFromBytes, Repeated_ParseFromBytes_caps, Repeated_ParseFromBytesInternal; destruct m; yunq_steps; done.
Qed.

(** ** sys/denali/lib/denali/denali.yunq.h, denali.yunq.cpp *)
Record DiskBlock : Type := mkDiskBlock { DiskBlock_lba : Z; DiskBlock_size : Z }.

Definition DiskBlock_set_lba (value : Z) (this : DiskBlock) : DiskBlock :=
  match this with mkDiskBlock _ x1 => mkDiskBlock value x1 end.
Definition DiskBlock_set_size (value : Z) (this : DiskBlock) : DiskBlock :=
  match this with mkDiskBlock x0 _ => mkDiskBlock x0 value end.

Definition DiskBlock_ParseFromBytesInternal (b : ByteBuffer) (off : Z) (this : DiskBlock) : res (Status * DiskBlock) :=
  RETURN_ERROR (st ← CheckHeader b off; Ret (st, this)) (fun this =>
  ASSIGN_OR_RETURN (ReadField_u64 b off 0) this (fun v => let this := DiskBlock_set_lba v this in
  ASSIGN_OR_RETURN (ReadField_u64 b off 1) this (fun v => let this := DiskBlock_set_size v this in
  Ret (Status_Ok, this)))).

Definition DiskBlock_ParseFromBytes (b : ByteBuffer) (off : Z) (this : DiskBlock) : res (Status * DiskBlock) :=
  RETURN_ERROR (DiskBlock_ParseFromBytesInternal b off this) (fun this =>
  Ret (Status_Ok, this)).

Definition DiskBlock_ParseFromBytes_caps (b : ByteBuffer) (off : Z) (caps : CapBuffer) (this : DiskBlock) : res (Status * DiskBlock) :=
  RETURN_ERROR (DiskBlock_ParseFromBytesInternal b off this) (fun this =>
  Ret (Status_Ok, this)).

Definition DiskBlock_SerializeInternal (this : DiskBlock) (s : Serializer) : res (Z * (ByteBuffer * option CapBuffer)) :=
  s ← WriteField_u64 0 (DiskBlock_lba this) s;
  s ← WriteField_u64 1 (DiskBlock_size this) s;
  s ← WriteHeader s;
  Ret (next_extension_ s, (buffer_ s, caps_ s)).

Definition DiskBlock_SerializeToBytes (this : DiskBlock) (bytes : ByteBuffer) (offset : Z) (caps : option CapBuffer) :
    res (Z * (ByteBuffer * option CapBuffer)) :=
  DiskBlock_SerializeInternal this (Serializer_new bytes offset 2 caps).

#[export] Instance DiskBlock_message : YunqMessage DiskBlock := {
  msg_default := mkDiskBlock 0 0;
  SerializeToBytes := DiskBlock_SerializeToBytes;
  ParseFromBytes := DiskBlock_ParseFromBytes;
  ParseFromBytes_caps := DiskBlock_ParseFromBytes_caps;
}.

Definition DiskBlock_wf (m : DiskBlock) : Prop := is_u64 (DiskBlock_lba m) /\ is_u64 (DiskBlock_size m).
Definition DiskBlock_bytes (m : DiskBlock) : Z := 40.
Definition DiskBlock_writers (m : DiskBlock) : list (Serializer -> res Serializer) :=
  [WriteField_u64 0 (DiskBlock_lba m); WriteField_u64 1 (DiskBlock_size m)].

Lemma DiskBlock_round_trips m : DiskBlock_wf m -> round_trips m (DiskBlock_bytes m) 0.
Proof.
  intros Hm. unfold DiskBlock_wf in Hm. eapply (message_round_trips_eq m (DiskBlock_writers m)); [yunq_fields|reflexivity| |unfold DiskBlock_bytes, DiskBlock_writers; yunq_size|done].
  intros b off c Hh HR. yunq_parse HR c; unfold ParseFromBytes, ParseFromBytes_caps, DiskBlock_message, DiskBlock_ParseFromBytes, DiskBlock_ParseFromBytes_caps, DiskBlock_ParseFromBytesInternal; destruct m; yunq_steps; done.
Qed.

#[export] Instance DiskBlock_laws : YunqMessageLaws DiskBlock.
Proof.
  refine {| msg_wf := DiskBlock_wf; msg_size := DiskBlock_bytes |}.
  - intros m. unfold DiskBlock_bytes, kHeaderSize. lia.
  - intros m b off c Hm H0 Hb Hlen. unfold DiskBlock_wf in Hm. eapply (message_law_eq m (DiskBlock_writers m)); [yunq_fields|reflexivity| |unfold DiskBlock_bytes, DiskBlock_writers; yunq_size|done..].
    clear. intros b off c Hh HR. yunq_parse HR c; unfold ParseFromBytes, DiskBlock_message, DiskBlock_ParseFromBytes, DiskBlock_ParseFromBytesInternal; destruct m; yunq_steps; done.
Defined.

Record ReadRequest : Type := mkReadRequest { ReadRequest_device_id : Z; ReadRequest_block : DiskBlock }.

Definition ReadRequest_set_device_id (value : Z) (this : ReadRequest) : ReadRequest :=
  match this with mkReadRequest _ x1 => mkReadRequest value x1 end.
Definition ReadRequest_set_block (value : DiskBlock) (this : ReadRequest) : ReadRequest :=
  match this with mkReadRequest x0 _ => mkReadRequest x0 value end.

Definition ReadRequest_ParseFromBytesInternal (b : ByteBuffer) (off : Z) (this : ReadRequest) : res (Status * ReadRequest) :=
  RETURN_ERROR (st ← CheckHeader b off; Ret (st, this)) (fun this =>
  ASSIGN_OR_RETURN (ReadField_u64 b off 0) this (fun v => let this := ReadRequest_set_device_id v this in
  '(_, v) ← ReadMessage b off 1 (ReadRequest_block this); let this := ReadRequest_set_block v this in
  Ret (Status_Ok, this))).

Definition ReadRequest_ParseFromBytes (b : ByteBuffer) (off : Z) (this : ReadRequest) : res (Status * ReadRequest) :=
  RETURN_ERROR (ReadRequest_ParseFromBytesInternal b off this) (fun this =>
  Ret (Status_Ok, this)).

Definition ReadRequest_ParseFromBytes_caps (b : ByteBuffer) (off : Z) (caps : CapBuffer) (this : ReadRequest) : res (Status * ReadRequest) :=
  RETURN_ERROR (ReadRequest_ParseFromBytesInternal b off this) (fun this =>
  Ret (Status_Ok, this)).

Definition ReadRequest_SerializeInternal (this : ReadRequest) (s : Serializer) : res (Z * (ByteBuffer * option CapBuffer)) :=
  s ← WriteField_u64 0 (ReadRequest_device_id this) s;
  s ← WriteMessage 1 (ReadRequest_block this) s;
  s ← WriteHeader s;
  Ret (next_extension_ s, (buffer_ s, caps_ s)).

Definition ReadRequest_SerializeToBytes (this : ReadRequest) (bytes : ByteBuffer) (offset : Z) (caps : option CapBuffer) :
    res (Z * (ByteBuffer * option CapBuffer)) :=
  ReadRequest_SerializeInternal this (Serializer_new bytes offset 2 caps).

#[export] Instance ReadRequest_message : YunqMessage ReadRequest := {
  msg_default := mkReadRequest 0 msg_default;
  SerializeToBytes := ReadRequest_SerializeToBytes;
  ParseFromBytes := ReadRequest_ParseFromBytes;
  ParseFromBytes_caps := ReadRequest_ParseFromBytes_caps;
}.

Definition ReadRequest_wf (m : ReadRequest) : Prop := is_u64 (ReadRequest_device_id m) /\ msg_wf (ReadRequest_block m).
Definition ReadRequest_bytes (m : ReadRequest) : Z := 40 + msg_size (ReadRequest_block m).
Definition ReadRequest_writers (m : ReadRequest) : list (Serializer -> res Serializer) :=
  [WriteField_u64 0 (ReadRequest_device_id m); WriteMessage 1 (ReadRequest_block m)].

Lemma ReadRequest_round_trips m : ReadRequest_wf m -> round_trips m (ReadRequest_bytes m) 0.
Proof.
  intros Hm. unfold ReadRequest_wf in Hm. eapply (message_round_trips_eq m (ReadRequest_writers m)); [yunq_fields|reflexivity| |unfold ReadRequest_bytes, ReadRequest_writers; yunq_size|done].
  intros b off c Hh HR. yunq_parse HR c; unfold ParseFromBytes, ParseFromBytes_caps, ReadRequest_message, ReadRequest_ParseFromBytes, ReadRequest_ParseFromBytes_caps, ReadRequest_ParseFromBytesInternal; destruct m; yunq_steps; done.
Qed.

Record ReadManyRequest : Type := mkReadManyRequest { ReadManyRequest_device_id : Z; ReadManyRequest_blocks : list DiskBlock }.

Definition ReadManyRequest_set_device_id (value : Z) (this : ReadManyRequest) : ReadManyRequest :=
  match this with mkReadManyRequest _ x1 => mkReadManyRequest value x1 end.
Definition ReadManyRequest_set_blocks (value : list DiskBlock) (this : ReadManyRequest) : ReadManyRequest :=
  match this with mkReadManyRequest x0 _ => mkReadManyRequest x0 value end.

Definition ReadManyRequest_ParseFromBytesInternal (b : ByteBuffer) (off : Z) (this : ReadManyRequest) : res (Status * ReadManyRequest) :=
  RETURN_ERROR (st ← CheckHeader b off; Ret (st, this)) (fun this =>
  ASSIGN_OR_RETURN (ReadField_u64 b off 0) this (fun v => let this := ReadManyRequest_set_device_id v this in
  '(_, v) ← ReadRepeatedMessage b off 1 (ReadManyRequest_blocks this); let this := ReadManyRequest_set_blocks v this in
  Ret (Status_Ok, this))).

Definition ReadManyRequest_ParseFromBytes (b : ByteBuffer) (off : Z) (this : ReadManyRequest) : res (Status * ReadManyRequest) :=
  RETURN_ERROR (ReadManyRequest_ParseFromBytesInternal b off this) (fun this =>
  Ret (Status_Ok, this)).

Definition ReadManyRequest_ParseFromBytes_caps (b : ByteBuffer) (off : Z) (caps : CapBuffer) (this : ReadManyRequest) : res (Status * ReadManyRequest) :=
  RETURN_ERROR (ReadManyRequest_ParseFromBytesInternal b off this) (fun this =>
  Ret (Status_Ok, this)).

Definition ReadManyRequest_SerializeInternal (this : ReadManyRequest) (s : Serializer) : res (Z * (ByteBuffer * option CapBuffer)) :=
  s ← WriteField_u64 0 (ReadManyRequest_device_id this) s;
  s ← WriteRepeatedMessage 1 (ReadManyRequest_blocks this) s;
  s ← WriteHeader s;
  Ret (next_extension_ s, (buffer_ s, caps_ s)).

Definition ReadManyRequest_SerializeToBytes (this : ReadManyRequest) (bytes : ByteBuffer) (offset : Z) (caps : option CapBuffer) :
    res (Z * (ByteBuffer * option CapBuffer)) :=
  ReadManyRequest_SerializeInternal this (Serializer_new bytes offset 2 caps).

#[export] Instance ReadManyRequest_message : YunqMessage ReadManyRequest := {
  msg_default := mkReadManyRequest 0 [];
  SerializeToBytes := ReadManyRequest_SerializeToBytes;
  ParseFromBytes := ReadManyRequest_ParseFromBytes;
  ParseFromBytes_caps := ReadManyRequest_ParseFromBytes_caps;
}.

Definition ReadManyRequest_wf (m : ReadManyRequest) : Prop := is_u64 (ReadManyRequest_device_id m) /\ Forall msg_wf (ReadManyRequest_blocks m).
Definition ReadManyRequest_bytes (m : ReadManyRequest) : Z := 40 + sizes (ReadManyRequest_blocks m).
Definition ReadManyRequest_writers (m : ReadManyRequest) : list (Serializer -> res Serializer) :=
  [WriteField_u64 0 (ReadManyRequest_device_id m); WriteRepeatedMessage 1 (ReadManyRequest_blocks m)].

Lemma ReadManyRequest_round_trips m : ReadManyRequest_wf m -> round_trips m (ReadManyRequest_bytes m) 0.
Proof.
  intros Hm. unfold ReadManyRequest_wf in Hm. eapply (message_round_trips_eq m (ReadManyRequest_writers m)); [yunq_fields|reflexivity| |unfold ReadManyRequest_bytes, ReadManyRequest_writers; yunq_size|done].
  intros b off c Hh HR. yunq_parse HR c; unfold ParseFromBytes, ParseFromBytes_caps, ReadManyRequest_message, ReadManyRequest_ParseFromBytes, ReadManyRequest_ParseFromBytes_caps, ReadManyRequest_ParseFromBytesInternal; destruct m; yunq_steps; done.
Qed.

Record ReadResponse : Type := mkReadResponse { ReadResponse_device_id : Z; ReadResponse_size : Z; ReadResponse_memory : Z }.

Definition ReadResponse_set_device_id (value : Z) (this : ReadResponse) : ReadResponse :=
  match this with mkReadResponse _ x1 x2 => mkReadResponse value x1 x2 end.
Definition ReadResponse_set_size (value : Z) (this : ReadResponse) : ReadResponse :=
  match this with mkReadResponse x0 _ x2 => mkReadResponse x0 value x2 end.
Definition ReadResponse_set_memory (value : Z) (this : ReadResponse) : ReadResponse :=
  match this with mkReadResponse x0 x1 _ => mkReadResponse x0 x1 value end.

Definition ReadResponse_ParseFromBytesInternal (b : ByteBuffer) (off : Z) (this : ReadResponse) : res (Status * ReadResponse) :=
  RETURN_ERROR (st ← CheckHeader b off; Ret (st, this)) (fun this =>
  ASSIGN_OR_RETURN (ReadField_u64 b off 0) this (fun v => let this := ReadResponse_set_device_id v this in
  ASSIGN_OR_RETURN (ReadField_u64 b off 1) this (fun v => let this := ReadResponse_set_size v this in
  Ret (Status_Ok, this)))).

Definition ReadResponse_ParseFromBytes (b : ByteBuffer) (off : Z) (this : ReadResponse) : res (Status * ReadResponse) :=
  RETURN_ERROR (ReadResponse_ParseFromBytesInternal b off this) (fun this =>
  ASSIGN_OR_RETURN (ReadCapability b off 2) this (fun v => let this := ReadResponse_set_memory v this in
  Ret (Status_Ok, this))).

Definition ReadResponse_ParseFromBytes_caps (b : ByteBuffer) (off : Z) (caps : CapBuffer) (this : ReadResponse) : res (Status * ReadResponse) :=
  RETURN_ERROR (ReadResponse_ParseFromBytesInternal b off this) (fun this =>
  ASSIGN_OR_RETURN (ReadCapability_caps b off 2 caps) this (fun v => let this := ReadResponse_set_memory v this in
  Ret (Status_Ok, this))).

Definition ReadResponse_SerializeInternal (this : ReadResponse) (s : Serializer) : res (Z * (ByteBuffer * option CapBuffer)) :=
  s ← WriteField_u64 0 (ReadResponse_device_id this) s;
  s ← WriteField_u64 1 (ReadResponse_size this) s;
  s ← WriteCapability 2 (ReadResponse_memory this) s;
  s ← WriteHeader s;
  Ret (next_extension_ s, (buffer_ s, caps_ s)).

Definition ReadResponse_SerializeToBytes (this : ReadResponse) (bytes : ByteBuffer) (offset : Z) (caps : option CapBuffer) :
    res (Z * (ByteBuffer * option CapBuffer)) :=
  ReadResponse_SerializeInternal this (Serializer_new bytes offset 3 caps).

#[export] Instance ReadResponse_message : YunqMessage ReadResponse := {
  msg_default := mkReadResponse 0 0 0;
  SerializeToBytes := ReadResponse_SerializeToBytes;
  ParseFromBytes := ReadResponse_ParseFromBytes;
  ParseFromBytes_caps := ReadResponse_ParseFromBytes_caps;
}.

Definition ReadResponse_wf (m : ReadResponse) : Prop := is_u64 (ReadResponse_device_id m) /\ is_u64 (ReadResponse_size m) /\ is_u64 (ReadResponse_memory m).
Definition ReadResponse_bytes (m : ReadResponse) : Z := 48.
Definition ReadResponse_writers (m : ReadResponse) : list (Serializer -> res Serializer) :=
  [WriteField_u64 0 (ReadResponse_device_id m); WriteField_u64 1 (ReadResponse_size m); WriteCapability 2 (ReadResponse_memory m)].

Lemma ReadResponse_round_trips m : ReadResponse_wf m -> round_trips m (ReadResponse_bytes m) 1.
Proof.
  intros Hm. unfold ReadResponse_wf in Hm. eapply (message_round_trips_eq m (ReadResponse_writers m)); [yunq_fields|reflexivity| |unfold ReadResponse_bytes, ReadResponse_writers; yunq_size|done].
  intros b off c Hh HR. yunq_parse HR c; unfold ParseFromBytes, ParseFromBytes_caps, ReadResponse_message, ReadResponse_ParseFromBytes, ReadResponse_ParseFromBytes_caps, ReadResponse_ParseFromBytesInternal; destruct m; yunq_steps; done.
Qed.

(** ** sys/victoriafalls/lib/victoriafalls/victoriafalls.yunq.h, victoriafalls.yunq.cpp *)
Record OpenFileRequest : Type := mkOpenFileRequest { OpenFileRequest_path : list Z }.

Definition OpenFileRequest_set_path (value : list Z) (this : OpenFileRequest) : OpenFileRequest :=
  match this with mkOpenFileRequest _ => mkOpenFileRequest value end.

Definition OpenFileRequest_ParseFromBytesInternal (b : ByteBuffer) (off : Z) (this : OpenFileRequest) : res (Status * OpenFileRequest) :=
  RETURN_ERROR (st ← CheckHeader b off; Ret (st, this)) (fun this =>
  ASSIGN_OR_RETURN (ReadField_String b off 0) this (fun v => let this := OpenFileRequest_set_path v this in
  Ret (Status_Ok, this))).

Definition OpenFileRequest_ParseFromBytes (b : ByteBuffer) (off : Z) (this : OpenFileRequest) : res (Status * OpenFileRequest) :=
  RETURN_ERROR (OpenFileRequest_ParseFromBytesInternal b off this) (fun this =>
  Ret (Status_Ok, this)).

Definition OpenFileRequest_ParseFromBytes_caps (b : ByteBuffer) (off : Z) (caps : CapBuffer) (this : OpenFileRequest) : res (Status * OpenFileRequest) :=
  RETURN_ERROR (OpenFileRequest_ParseFromBytesInternal b off this) (fun this =>
  Ret (Status_Ok, this)).

Definition OpenFileRequest_SerializeInternal (this : OpenFileRequest) (s : Serializer) : res (Z * (ByteBuffer * option CapBuffer)) :=
  s ← WriteField_String 0 (OpenFileRequest_path this) s;
  s ← WriteHeader s;
  Ret (next_extension_ s, (buffer_ s, caps_ s)).

Definition OpenFileRequest_SerializeToBytes (this : OpenFileRequest) (bytes : ByteBuffer) (offset : Z) (caps : option CapBuffer) :
    res (Z * (ByteBuffer * option CapBuffer)) :=
  OpenFileRequest_SerializeInternal this (Serializer_new bytes offset 1 caps).

#[export] Instance OpenFileRequest_message : YunqMessage OpenFileRequest := {
  msg_default := mkOpenFileRequest [];
  SerializeToBytes := OpenFileRequest_SerializeToBytes;
  ParseFromBytes := OpenFileRequest_ParseFromBytes;
  ParseFromBytes_caps := OpenFileRequest_ParseFromBytes_caps;
}.

Definition OpenFileRequest_wf (m : OpenFileRequest) : Prop := True.
Definition OpenFileRequest_bytes (m : OpenFileRequest) : Z := 32 + Z.of_nat (length (OpenFileRequest_path m)).
Definition OpenFileRequest_writers (m : OpenFileRequest) : list (Serializer -> res Serializer) :=
  [WriteField_String 0 (OpenFileRequest_path m)].

Lemma OpenFileRequest_round_trips m : OpenFileRequest_wf m -> round_trips m (OpenFileRequest_bytes m) 0.
Proof.
  intros Hm. unfold OpenFileRequest_wf in Hm. eapply (message_round_trips_eq m (OpenFileRequest_writers m)); [yunq_fields|reflexivity| |unfold OpenFileRequest_bytes, OpenFileRequest_writers; yunq_size|done].
  intros b off c Hh HR. yunq_parse HR c; unfold ParseFromBytes, ParseFromBytes_caps, OpenFileRequest_message, OpenFileRequest_ParseFromBytes, OpenFileRequest_ParseFromBytes_caps, OpenFileRequest_ParseFromBytesInternal; destruct m; yunq_steps; done.
Qed.

Record OpenFileResponse : Type := mkOpenFileResponse { OpenFileResponse_path : list Z; OpenFileResponse_size : Z; OpenFileResponse_memory : Z }.

Definition OpenFileResponse_set_path (value : list Z) (this : OpenFileResponse) : OpenFileResponse :=
  match this with mkOpenFileResponse _ x1 x2 => mkOpenFileResponse value x1 x2 end.
Definition OpenFileResponse_set_size (value : Z) (this : OpenFileResponse) : OpenFileResponse :=
  match this with mkOpenFileResponse x0 _ x2 => mkOpenFileResponse x0 value x2 end.
Definition OpenFileResponse_set_memory (value : Z) (this : OpenFileResponse) : OpenFileResponse :=
  match this with mkOpenFileResponse x0 x1 _ => mkOpenFileResponse x0 x1 value end.

Definition OpenFileResponse_ParseFromBytesInternal (b : ByteBuffer) (off : Z) (this : OpenFileResponse) : res (Status * OpenFileResponse) :=
  RETURN_ERROR (st ← CheckHeader b off; Ret (st, this)) (fun this =>
  ASSIGN_OR_RETURN (ReadField_String b off 0) this (fun v => let this := OpenFileResponse_set_path v this in
  ASSIGN_OR_RETURN (ReadField_u64 b off 1) this (fun v => let this := OpenFileResponse_set_size v this in
  Ret (Status_Ok, this)))).

Definition OpenFileResponse_ParseFromBytes (b : ByteBuffer) (off : Z) (this : OpenFileResponse) : res (Status * OpenFileResponse) :=
  RETURN_ERROR (OpenFileResponse_ParseFromBytesInternal b off this) (fun this =>
  ASSIGN_OR_RETURN (ReadCapability b off 2) this (fun v => let this := OpenFileResponse_set_memory v this in
  Ret (Status_Ok, this))).

Definition OpenFileResponse_ParseFromBytes_caps (b : ByteBuffer) (off : Z) (caps : CapBuffer) (this : OpenFileResponse) : res (Status * OpenFileResponse) :=
  RETURN_ERROR (OpenFileResponse_ParseFromBytesInternal b off this) (fun this =>
  ASSIGN_OR_RETURN (ReadCapability_caps b off 2 caps) this (fun v => let this := OpenFileResponse_set_memory v this in
  Ret (Status_Ok, this))).

Definition OpenFileResponse_SerializeInternal (this : OpenFileResponse) (s : Serializer) : res (Z * (ByteBuffer * option CapBuffer)) :=
  s ← WriteField_String 0 (OpenFileResponse_path this) s;
  s ← WriteField_u64 1 (OpenFileResponse_size this) s;
  s ← WriteCapability 2 (OpenFileResponse_memory this) s;
  s ← WriteHeader s;
  Ret (next_extension_ s, (buffer_ s, caps_ s)).

Definition OpenFileResponse_SerializeToBytes (this : OpenFileResponse) (bytes : ByteBuffer) (offset : Z) (caps : option CapBuffer) :
    res (Z * (ByteBuffer * option CapBuffer)) :=
  OpenFileResponse_SerializeInternal this (Serializer_new bytes offset 3 caps).

#[export] Instance OpenFileResponse_message : YunqMessage OpenFileResponse := {
  msg_default := mkOpenFileResponse [] 0 0;
  SerializeToBytes := OpenFileResponse_SerializeToBytes;
  ParseFromBytes := OpenFileResponse_ParseFromBytes;
  ParseFromBytes_caps := OpenFileResponse_ParseFromBytes_caps;
}.

Definition OpenFileResponse_wf (m : OpenFileResponse) : Prop := is_u64 (OpenFileResponse_size m) /\ is_u64 (OpenFileResponse_memory m).
Definition OpenFileResponse_bytes (m : OpenFileResponse) : Z := 48 + Z.of_nat (length (OpenFileResponse_path m)).
Definition OpenFileResponse_writers (m : OpenFileResponse) : list (Serializer -> res Serializer) :=
  [WriteField_String 0 (OpenFileResponse_path m); WriteField_u64 1 (OpenFileResponse_size m); WriteCapability 2 (OpenFileResponse_memory m)].

Lemma OpenFileResponse_round_trips m : OpenFileResponse_wf m -> round_trips m (OpenFileResponse_bytes m) 1.
Proof.
  intros Hm. unfold OpenFileResponse_wf in Hm. eapply (message_round_trips_eq m (OpenFileResponse_writers m)); [yunq_fields|reflexivity| |unfold OpenFileResponse_bytes, OpenFileResponse_writers; yunq_size|done].
  intros b off c Hh HR. yunq_parse HR c; unfold ParseFromBytes, ParseFromBytes_caps, OpenFileResponse_message, OpenFileResponse_ParseFromBytes, OpenFileResponse_ParseFromBytes_caps, OpenFileResponse_ParseFromBytesInternal; destruct m; yunq_steps; done.
Qed.

Record GetDirectoryRequest : Type := mkGetDirectoryRequest { GetDirectoryRequest_path : list Z }.

Definition GetDirectoryRequest_set_path (value : list Z) (this : GetDirectoryRequest) : GetDirectoryRequest :=
  match this with mkGetDirectoryRequest _ => mkGetDirectoryRequest value end.

Definition GetDirectoryRequest_ParseFromBytesInternal (b : ByteBuffer) (off : Z) (this : GetDirectoryRequest) : res (Status * GetDirectoryRequest) :=
  RETURN_ERROR (st ← CheckHeader b off; Ret (st, this)) (fun this =>
  ASSIGN_OR_RETURN (ReadField_String b off 0) this (fun v => let this := GetDirectoryRequest_set_path v this in
  Ret (Status_Ok, this))).

Definition GetDirectoryRequest_ParseFromBytes (b : ByteBuffer) (off : Z) (this : GetDirectoryRequest) : res (Status * GetDirectoryRequest) :=
  RETURN_ERROR (GetDirectoryRequest_ParseFromBytesInternal b off this) (fun this =>
  Ret (Status_Ok, this)).

Definition GetDirectoryRequest_ParseFromBytes_caps (b : ByteBuffer) (off : Z) (caps : CapBuffer) (this : GetDirectoryRequest) : res (Status * GetDirectoryRequest) :=
  RETURN_ERROR (GetDirectoryRequest_ParseFromBytesInternal b off this) (fun this =>
  Ret (Status_Ok, this)).

Definition GetDirectoryRequest_SerializeInternal (this : GetDirectoryRequest) (s : Serializer) : res (Z * (ByteBuffer * option CapBuffer)) :=
  s ← WriteField_String 0 (GetDirectoryRequest_path this) s;
  s ← WriteHeader s;
  Ret (next_extension_ s, (buffer_ s, caps_ s)).

Definition GetDirectoryRequest_SerializeToBytes (this : GetDirectoryRequest) (bytes : ByteBuffer) (offset : Z) (caps : option CapBuffer) :
    res (Z * (ByteBuffer * option CapBuffer)) :=
  GetDirectoryRequest_SerializeInternal this (Serializer_new bytes offset 1 caps).

#[export] Instance GetDirectoryRequest_message : YunqMessage GetDirectoryRequest := {
  msg_default := mkGetDirectoryRequest [];
  SerializeToBytes := GetDirectoryRequest_SerializeToBytes;
  ParseFromBytes := GetDirectoryRequest_ParseFromBytes;
  ParseFromBytes_caps := GetDirectoryRequest_ParseFromBytes_caps;
}.

Definition GetDirectoryRequest_wf (m : GetDirectoryRequest) : Prop := True.
Definition GetDirectoryRequest_bytes (m : GetDirectoryRequest) : Z := 32 + Z.of_nat (length (GetDirectoryRequest_path m)).
Definition GetDirectoryRequest_writers (m : GetDirectoryRequest) : list (Serializer -> res Serializer) :=
  [WriteField_String 0 (GetDirectoryRequest_path m)].

Lemma GetDirectoryRequest_round_trips m : GetDirectoryRequest_wf m -> round_trips m (GetDirectoryRequest_bytes m) 0.
Proof.
  intros Hm. unfold GetDirectoryRequest_wf in Hm. eapply (message_round_trips_eq m (GetDirectoryRequest_writers m)); [yunq_fields|reflexivity| |unfold GetDirectoryRequest_bytes, GetDirectoryRequest_writers; yunq_size|done].
  intros b off c Hh HR. yunq_parse HR c; unfold ParseFromBytes, ParseFromBytes_caps, GetDirectoryRequest_message, GetDirectoryRequest_ParseFromBytes, GetDirectoryRequest_ParseFromBytes_caps, GetDirectoryRequest_ParseFromBytesInternal; destruct m; yunq_steps; done.
Qed.

Record Directory : Type := mkDirectory { Directory_filenames : list Z }.

Definition Directory_set_filenames (value : list Z) (this : Directory) : Directory :=
  match this with mkDirectory _ => mkDirectory value end.

Definition Directory_ParseFromBytesInternal (b : ByteBuffer) (off : Z) (this : Directory) : res (Status * Directory) :=
  RETURN_ERROR (st ← CheckHeader b off; Ret (st, this)) (fun this =>
  ASSIGN_OR_RETURN (ReadField_String b off 0) this (fun v => let this := Directory_set_filenames v this in
  Ret (Status_Ok, this))).

Definition Directory_ParseFromBytes (b : ByteBuffer) (off : Z) (this : Directory) : res (Status * Directory) :=
  RETURN_ERROR (Directory_ParseFromBytesInternal b off this) (fun this =>
  Ret (Status_Ok, this)).

Definition Directory_ParseFromBytes_caps (b : ByteBuffer) (off : Z) (caps : CapBuffer) (this : Directory) : res (Status * Directory) :=
  RETURN_ERROR (Directory_ParseFromBytesInternal b off this) (fun this =>
  Ret (Status_Ok, this)).

Definition Directory_SerializeInternal (this : Directory) (s : Serializer) : res (Z * (ByteBuffer * option CapBuffer)) :=
  s ← WriteField_String 0 (Directory_filenames this) s;
  s ← WriteHeader s;
  Ret (next_extension_ s, (buffer_ s, caps_ s)).

Definition Directory_SerializeToBytes (this : Directory) (bytes : ByteBuffer) (offset : Z) (caps : option CapBuffer) :
    res (Z * (ByteBuffer * option CapBuffer)) :=
  Directory_SerializeInternal this (Serializer_new bytes offset 1 caps).

#[export] Instance Directory_message : YunqMessage Directory := {
  msg_default := mkDirectory [];
  SerializeToBytes := Directory_SerializeToBytes;
  ParseFromBytes := Directory_ParseFromBytes;
  ParseFromBytes_caps := Directory_ParseFromBytes_caps;
}.

Definition Directory_wf (m : Directory) : Prop := True.
Definition Directory_bytes (m : Directory) : Z := 32 + Z.of_nat (length (Directory_filenames m)).
Definition Directory_writers (m : Directory) : list (Serializer -> res Serializer) :=
  [WriteField_String 0 (Directory_filenames m)].

Lemma Directory_round_trips m : Directory_wf m -> round_trips m (Directory_bytes m) 0.
Proof.
  intros Hm. unfold Directory_wf in Hm. eapply (message_round_trips_eq m (Directory_writers m)); [yunq_fields|reflexivity| |unfold Directory_bytes, Directory_writers; yunq_size|done].
  intros b off c Hh HR. yunq_parse HR c; unfold ParseFromBytes, ParseFromBytes_caps, Directory_message, Directory_ParseFromBytes, Directory_ParseFromBytes_caps, Directory_ParseFromBytesInternal; destruct m; yunq_steps; done.
Qed.

(** ** sys/voyageurs/lib/voyageurs/voyageurs.yunq.h, voyageurs.yunq.cpp *)
Record KeyboardListener : Type := mkKeyboardListener { KeyboardListener_port_capability : Z }.

Definition KeyboardListener_set_port_capability (value : Z) (this : KeyboardListener) : KeyboardListener :=
  match this with mkKeyboardListener _ => mkKeyboardListener value end.

Definition KeyboardListener_ParseFromBytesInternal (b : ByteBuffer) (off : Z) (this : KeyboardListener) : res (Status * KeyboardListener) :=
  RETURN_ERROR (st ← CheckHeader b off; Ret (st, this)) (fun this =>
  Ret (Status_Ok, this)).

Definition KeyboardListener_ParseFromBytes (b : ByteBuffer) (off : Z) (this : KeyboardListener) : res (Status * KeyboardListener) :=
  RETURN_ERROR (KeyboardListener_ParseFromBytesInternal b off this) (fun this =>
  ASSIGN_OR_RETURN (ReadCapability b off 0) this (fun v => let this := KeyboardListener_set_port_capability v this in
  Ret (Status_Ok, this))).

Definition KeyboardListener_ParseFromBytes_caps (b : ByteBuffer) (off : Z) (caps : CapBuffer) (this : KeyboardListener) : res (Status * KeyboardListener) :=
  RETURN_ERROR (KeyboardListener_ParseFromBytesInternal b off this) (fun this =>
  ASSIGN_OR_RETURN (ReadCapability_caps b off 0 caps) this (fun v => let this := KeyboardListener_set_port_capability v this in
  Ret (Status_Ok, this))).

Definition KeyboardListener_SerializeInternal (this : KeyboardListener) (s : Serializer) : res (Z * (ByteBuffer * option CapBuffer)) :=
  s ← WriteCapability 0 (KeyboardListener_port_capability this) s;
  s ← WriteHeader s;
  Ret (next_extension_ s, (buffer_ s, caps_ s)).

Definition KeyboardListener_SerializeToBytes (this : KeyboardListener) (bytes : ByteBuffer) (offset : Z) (caps : option CapBuffer) :
    res (Z * (ByteBuffer * option CapBuffer)) :=
  KeyboardListener_SerializeInternal this (Serializer_new bytes offset 1 caps).

#[export] Instance KeyboardListener_message : YunqMessage KeyboardListener := {
  msg_default := mkKeyboardListener 0;
  SerializeToBytes := KeyboardListener_SerializeToBytes;
  ParseFromBytes := KeyboardListener_ParseFromBytes;
  ParseFromBytes_caps := KeyboardListener_ParseFromBytes_caps;
}.

Definition KeyboardListener_wf (m : KeyboardListener) : Prop := is_u64 (KeyboardListener_port_capability m).
Definition KeyboardListener_bytes (m : KeyboardListener) : Z := 32.
Definition KeyboardListener_writers (m : KeyboardListener) : list (Serializer -> res Serializer) :=
  [WriteCapability 0 (KeyboardListener_port_capability m)].

Lemma KeyboardListener_round_trips m : KeyboardListener_wf m -> round_trips m (KeyboardListener_bytes m) 1.
Proof.
  intros Hm. unfold KeyboardListener_wf in Hm. eapply (message_round_trips_eq m (KeyboardListener_writers m)); [yunq_fields|reflexivity| |unfold KeyboardListener_bytes, KeyboardListener_writers; yunq_size|done].
  intros b off c Hh HR. yunq_parse HR c; unfold ParseFromBytes, ParseFromBytes_caps, KeyboardListener_message, KeyboardListener_ParseFromBytes, KeyboardListener_ParseFromBytes_caps, KeyboardListener_ParseFromBytesInternal; destruct m; yunq_steps; done.
Qed.

(** ** sys/yellowstone/lib/yellowstone/yellowstone.yunq.h, yellowstone.yunq.cpp *)
Record RegisterEndpointRequest : Type := mkRegisterEndpointRequest { RegisterEndpointRequest_endpoint_name : list Z; RegisterEndpointRequest_endpoint_capability : Z }.

Definition RegisterEndpointRequest_set_endpoint_name (value : list Z) (this : RegisterEndpointRequest) : RegisterEndpointRequest :=
  match this with mkRegisterEndpointRequest _ x1 => mkRegisterEndpointRequest value x1 end.
Definition RegisterEndpointRequest_set_endpoint_capability (value : Z) (this : RegisterEndpointRequest) : RegisterEndpointRequest :=
  match this with mkRegisterEndpointRequest x0 _ => mkRegisterEndpointRequest x0 value end.

Definition RegisterEndpointRequest_ParseFromBytesInternal (b : ByteBuffer) (off : Z) (this : RegisterEndpointRequest) : res (Status * RegisterEndpointRequest) :=
  RETURN_ERROR (st ← CheckHeader b off; Ret (st, this)) (fun this =>
  ASSIGN_OR_RETURN (ReadField_String b off 0) this (fun v => let this := RegisterEndpointRequest_set_endpoint_name v this in
  Ret (Status_Ok, this))).

Definition RegisterEndpointRequest_ParseFromBytes (b : ByteBuffer) (off : Z) (this : RegisterEndpointRequest) : res (Status * RegisterEndpointRequest) :=
  RETURN_ERROR (RegisterEndpointRequest_ParseFromBytesInternal b off this) (fun this =>
  ASSIGN_OR_RETURN (ReadCapability b off 1) this (fun v => let this := RegisterEndpointRequest_set_endpoint_capability v this in
  Ret (Status_Ok, this))).

Definition RegisterEndpointRequest_ParseFromBytes_caps (b : ByteBuffer) (off : Z) (caps : CapBuffer) (this : RegisterEndpointRequest) : res (Status * RegisterEndpointRequest) :=
  RETURN_ERROR (RegisterEndpointRequest_ParseFromBytesInternal b off this) (fun this =>
  ASSIGN_OR_RETURN (ReadCapability_caps b off 1 caps) this (fun v => let this := RegisterEndpointRequest_set_endpoint_capability v this in
  Ret (Status_Ok, this))).

Definition RegisterEndpointRequest_SerializeInternal (this : RegisterEndpointRequest) (s : Serializer) : res (Z * (ByteBuffer * option CapBuffer)) :=
  s ← WriteField_String 0 (RegisterEndpointRequest_endpoint_name this) s;
  s ← WriteCapability 1 (RegisterEndpointRequest_endpoint_capability this) s;
  s ← WriteHeader s;
  Ret (next_extension_ s, (buffer_ s, caps_ s)).

Definition RegisterEndpointRequest_SerializeToBytes (this : RegisterEndpointRequest) (bytes : ByteBuffer) (offset : Z) (caps : option CapBuffer) :
    res (Z * (ByteBuffer * option CapBuffer)) :=
  RegisterEndpointRequest_SerializeInternal this (Serializer_new bytes offset 2 caps).

#[export] Instance RegisterEndpointRequest_message : YunqMessage RegisterEndpointRequest := {
  msg_default := mkRegisterEndpointRequest [] 0;
  SerializeToBytes := RegisterEndpointRequest_SerializeToBytes;
  ParseFromBytes := RegisterEndpointRequest_ParseFromBytes;
  ParseFromBytes_caps := RegisterEndpointRequest_ParseFromBytes_caps;
}.

Definition RegisterEndpointRequest_wf (m : RegisterEndpointRequest) : Prop := is_u64 (RegisterEndpointRequest_endpoint_capability m).
Definition RegisterEndpointRequest_bytes (m : RegisterEndpointRequest) : Z := 40 + Z.of_nat (length (RegisterEndpointRequest_endpoint_name m)).
Definition RegisterEndpointRequest_writers (m : RegisterEndpointRequest) : list (Serializer -> res Serializer) :=
  [WriteField_String 0 (RegisterEndpointRequest_endpoint_name m); WriteCapability 1 (RegisterEndpointRequest_endpoint_capability m)].

Lemma RegisterEndpointRequest_round_trips m : RegisterEndpointRequest_wf m -> round_trips m (RegisterEndpointRequest_bytes m) 1.
Proof.
  intros Hm. unfold RegisterEndpointRequest_wf in Hm. eapply (message_round_trips_eq m (RegisterEndpointRequest_writers m)); [yunq_fields|reflexivity| |unfold RegisterEndpointRequest_bytes, RegisterEndpointRequest_writers; yunq_size|done].
  intros b off c Hh HR. yunq_parse HR c; unfold ParseFromBytes, ParseFromBytes_caps, RegisterEndpointRequest_message, RegisterEndpointRequest_ParseFromBytes, RegisterEndpointRequest_ParseFromBytes_caps, RegisterEndpointRequest_ParseFromBytesInternal; destruct m; yunq_steps; done.
Qed.

Record GetEndpointRequest : Type := mkGetEndpointRequest { GetEndpointRequest_endpoint_name : list Z }.

Definition GetEndpointRequest_set_endpoint_name (value : list Z) (this : GetEndpointRequest) : GetEndpointRequest :=
  match this with mkGetEndpointRequest _ => mkGetEndpointRequest value end.

Definition GetEndpointRequest_ParseFromBytesInternal (b : ByteBuffer) (off : Z) (this : GetEndpointRequest) : res (Status * GetEndpointRequest) :=
  RETURN_ERROR (st ← CheckHeader b off; Ret (st, this)) (fun this =>
  ASSIGN_OR_RETURN (ReadField_String b off 0) this (fun v => let this := GetEndpointRequest_set_endpoint_name v this in
  Ret (Status_Ok, this))).

Definition GetEndpointRequest_ParseFromBytes (b : ByteBuffer) (off : Z) (this : GetEndpointRequest) : res (Status * GetEndpointRequest) :=
  RETURN_ERROR (GetEndpointRequest_ParseFromBytesInternal b off this) (fun this =>
  Ret (Status_Ok, this)).

Definition GetEndpointRequest_ParseFromBytes_caps (b : ByteBuffer) (off : Z) (caps : CapBuffer) (this : GetEndpointRequest) : res (Status * GetEndpointRequest) :=
  RETURN_ERROR (GetEndpointRequest_ParseFromBytesInternal b off this) (fun this =>
  Ret (Status_Ok, this)).

Definition GetEndpointRequest_SerializeInternal (this : GetEndpointRequest) (s : Serializer) : res (Z * (ByteBuffer * option CapBuffer)) :=
  s ← WriteField_String 0 (GetEndpointRequest_endpoint_name this) s;
  s ← WriteHeader s;
  Ret (next_extension_ s, (buffer_ s, caps_ s)).

Definition GetEndpointRequest_SerializeToBytes (this : GetEndpointRequest) (bytes : ByteBuffer) (offset : Z) (caps : option CapBuffer) :
    res (Z * (ByteBuffer * option CapBuffer)) :=
  GetEndpointRequest_SerializeInternal this (Serializer_new bytes offset 1 caps).

#[export] Instance GetEndpointRequest_message : YunqMessage GetEndpointRequest := {
  msg_default := mkGetEndpointRequest [];
  SerializeToBytes := GetEndpointRequest_SerializeToBytes;
  ParseFromBytes := GetEndpointRequest_ParseFromBytes;
  ParseFromBytes_caps := GetEndpointRequest_ParseFromBytes_caps;
}.

Definition GetEndpointRequest_wf (m : GetEndpointRequest) : Prop := True.
Definition GetEndpointRequest_bytes (m : GetEndpointRequest) : Z := 32 + Z.of_nat (length (GetEndpointRequest_endpoint_name m)).
Definition GetEndpointRequest_writers (m : GetEndpointRequest) : list (Serializer -> res Serializer) :=
  [WriteField_String 0 (GetEndpointRequest_endpoint_name m)].

Lemma GetEndpointRequest_round_trips m : GetEndpointRequest_wf m -> round_trips m (GetEndpointRequest_bytes m) 0.
Proof.
  intros Hm. unfold GetEndpointRequest_wf in Hm. eapply (message_round_trips_eq m (GetEndpointRequest_writers m)); [yunq_fields|reflexivity| |unfold GetEndpointRequest_bytes, GetEndpointRequest_writers; yunq_size|done].
  intros b off c Hh HR. yunq_parse HR c; unfold ParseFromBytes, ParseFromBytes_caps, GetEndpointRequest_message, GetEndpointRequest_ParseFromBytes, GetEndpointRequest_ParseFromBytes_caps, GetEndpointRequest_ParseFromBytesInternal; destruct m; yunq_steps; done.
Qed.

Record Endpoint : Type := mkEndpoint { Endpoint_endpoint : Z }.

Definition Endpoint_set_endpoint (value : Z) (this : Endpoint) : Endpoint :=
  match this with mkEndpoint _ => mkEndpoint value end.

Definition Endpoint_ParseFromBytesInternal (b : ByteBuffer) (off : Z) (this : Endpoint) : res (Status * Endpoint) :=
  RETURN_ERROR (st ← CheckHeader b off; Ret (st, this)) (fun this =>
  Ret (Status_Ok, this)).

Definition Endpoint_ParseFromBytes (b : ByteBuffer) (off : Z) (this : Endpoint) : res (Status * Endpoint) :=
  RETURN_ERROR (Endpoint_ParseFromBytesInternal b off this) (fun this =>
  ASSIGN_OR_RETURN (ReadCapability b off 0) this (fun v => let this := Endpoint_set_endpoint v this in
  Ret (Status_Ok, this))).

Definition Endpoint_ParseFromBytes_caps (b : ByteBuffer) (off : Z) (caps : CapBuffer) (this : Endpoint) : res (Status * Endpoint) :=
  RETURN_ERROR (Endpoint_ParseFromBytesInternal b off this) (fun this =>
  ASSIGN_OR_RETURN (ReadCapability_caps b off 0 caps) this (fun v => let this := Endpoint_set_endpoint v this in
  Ret (Status_Ok, this))).

Definition Endpoint_SerializeInternal (this : Endpoint) (s : Serializer) : res (Z * (ByteBuffer * option CapBuffer)) :=
  s ← WriteCapability 0 (Endpoint_endpoint this) s;
  s ← WriteHeader s;
  Ret (next_extension_ s, (buffer_ s, caps_ s)).

Definition Endpoint_SerializeToBytes (this : Endpoint) (bytes : ByteBuffer) (offset : Z) (caps : option CapBuffer) :
    res (Z * (ByteBuffer * option CapBuffer)) :=
  Endpoint_SerializeInternal this (Serializer_new bytes offset 1 caps).

#[export] Instance Endpoint_message : YunqMessage Endpoint := {
  msg_default := mkEndpoint 0;
  SerializeToBytes := Endpoint_SerializeToBytes;
  ParseFromBytes := Endpoint_ParseFromBytes;
  ParseFromBytes_caps := Endpoint_ParseFromBytes_caps;
}.

Definition Endpoint_wf (m : Endpoint) : Prop := is_u64 (Endpoint_endpoint m).
Definition Endpoint_bytes (m : Endpoint) : Z := 32.
Definition Endpoint_writers (m : Endpoint) : list (Serializer -> res Serializer) :=
  [WriteCapability 0 (Endpoint_endpoint m)].

Lemma Endpoint_round_trips m : Endpoint_wf m -> round_trips m (Endpoint_bytes m) 1.
Proof.
  intros Hm. unfold Endpoint_wf in Hm. eapply (message_round_trips_eq m (Endpoint_writers m)); [yunq_fields|reflexivity| |unfold Endpoint_bytes, Endpoint_writers; yunq_size|done].
  intros b off c Hh HR. yunq_parse HR c; unfold ParseFromBytes, ParseFromBytes_caps, Endpoint_message, Endpoint_ParseFromBytes, Endpoint_ParseFromBytes_caps, Endpoint_ParseFromBytesInternal; destruct m; yunq_steps; done.
Qed.

Record AhciInfo : Type := mkAhciInfo { AhciInfo_ahci_region : Z; AhciInfo_region_length : Z }.

Definition AhciInfo_set_ahci_region (value : Z) (this : AhciInfo) : AhciInfo :=
  match this with mkAhciInfo _ x1 => mkAhciInfo value x1 end.
Definition AhciInfo_set_region_length (value : Z) (this : AhciInfo) : AhciInfo :=
  match this with mkAhciInfo x0 _ => mkAhciInfo x0 value end.

Definition AhciInfo_ParseFromBytesInternal (b : ByteBuffer) (off : Z) (this : AhciInfo) : res (Status * AhciInfo) :=
  RETURN_ERROR (st ← CheckHeader b off; Ret (st, this)) (fun this =>
  ASSIGN_OR_RETURN (ReadField_u64 b off 1) this (fun v => let this := AhciInfo_set_region_length v this in
  Ret (Status_Ok, this))).

Definition AhciInfo_ParseFromBytes (b : ByteBuffer) (off : Z) (this : AhciInfo) : res (Status * AhciInfo) :=
  RETURN_ERROR (AhciInfo_ParseFromBytesInternal b off this) (fun this =>
  ASSIGN_OR_RETURN (ReadCapability b off 0) this (fun v => let this := AhciInfo_set_ahci_region v this in
  Ret (Status_Ok, this))).

Definition AhciInfo_ParseFromBytes_caps (b : ByteBuffer) (off : Z) (caps : CapBuffer) (this : AhciInfo) : res (Status * AhciInfo) :=
  RETURN_ERROR (AhciInfo_ParseFromBytesInternal b off this) (fun this =>
  ASSIGN_OR_RETURN (ReadCapability_caps b off 0 caps) this (fun v => let this := AhciInfo_set_ahci_region v this in
  Ret (Status_Ok, this))).

Definition AhciInfo_SerializeInternal (this : AhciInfo) (s : Serializer) : res (Z * (ByteBuffer * option CapBuffer)) :=
  s ← WriteCapability 0 (AhciInfo_ahci_region this) s;
  s ← WriteField_u64 1 (AhciInfo_region_length this) s;
  s ← WriteHeader s;
  Ret (next_extension_ s, (buffer_ s, caps_ s)).

Definition AhciInfo_SerializeToBytes (this : AhciInfo) (bytes : ByteBuffer) (offset : Z) (caps : option CapBuffer) :
    res (Z * (ByteBuffer * option CapBuffer)) :=
  AhciInfo_SerializeInternal this (Serializer_new bytes offset 2 caps).

#[export] Instance AhciInfo_message : YunqMessage AhciInfo := {
  msg_default := mkAhciInfo 0 0;
  SerializeToBytes := AhciInfo_SerializeToBytes;
  ParseFromBytes := AhciInfo_ParseFromBytes;
  ParseFromBytes_caps := AhciInfo_ParseFromBytes_caps;
}.

Definition AhciInfo_wf (m : AhciInfo) : Prop := is_u64 (AhciInfo_ahci_region m) /\ is_u64 (AhciInfo_region_length m).
Definition AhciInfo_bytes (m : AhciInfo) : Z := 40.
Definition AhciInfo_writers (m : AhciInfo) : list (Serializer -> res Serializer) :=
  [WriteCapability 0 (AhciInfo_ahci_region m); WriteField_u64 1 (AhciInfo_region_length m)].

Lemma AhciInfo_round_trips m : AhciInfo_wf m -> round_trips m (AhciInfo_bytes m) 1.
Proof.
  intros Hm. unfold AhciInfo_wf in Hm. eapply (message_round_trips_eq m (AhciInfo_writers m)); [yunq_fields|reflexivity| |unfold AhciInfo_bytes, AhciInfo_writers; yunq_size|done].
  intros b off c Hh HR. yunq_parse HR c; unfold ParseFromBytes, ParseFromBytes_caps, AhciInfo_message, AhciInfo_ParseFromBytes, AhciInfo_ParseFromBytes_caps, AhciInfo_ParseFromBytesInternal; destruct m; yunq_steps; done.
Qed.

Record XhciInfo : Type := mkXhciInfo { XhciInfo_xhci_region : Z; XhciInfo_region_length : Z }.

Definition XhciInfo_set_xhci_region (value : Z) (this : XhciInfo) : XhciInfo :=
  match this with mkXhciInfo _ x1 => mkXhciInfo value x1 end.
Definition XhciInfo_set_region_length (value : Z) (this : XhciInfo) : XhciInfo :=
  match this with mkXhciInfo x0 _ => mkXhciInfo x0 value end.

Definition XhciInfo_ParseFromBytesInternal (b : ByteBuffer) (off : Z) (this : XhciInfo) : res (Status * XhciInfo) :=
  RETURN_ERROR (st ← CheckHeader b off; Ret (st, this)) (fun this =>
  ASSIGN_OR_RETURN (ReadField_u64 b off 1) this (fun v => let this := XhciInfo_set_region_length v this in
  Ret (Status_Ok, this))).

Definition XhciInfo_ParseFromBytes (b : ByteBuffer) (off : Z) (this : XhciInfo) : res (Status * XhciInfo) :=
  RETURN_ERROR (XhciInfo_ParseFromBytesInternal b off this) (fun this =>
  ASSIGN_OR_RETURN (ReadCapability b off 0) this (fun v => let this := XhciInfo_set_xhci_region v this in
  Ret (Status_Ok, this))).

Definition XhciInfo_ParseFromBytes_caps (b : ByteBuffer) (off : Z) (caps : CapBuffer) (this : XhciInfo) : res (Status * XhciInfo) :=
  RETURN_ERROR (XhciInfo_ParseFromBytesInternal b off this) (fun this =>
  ASSIGN_OR_RETURN (ReadCapability_caps b off 0 caps) this (fun v => let this := XhciInfo_set_xhci_region v this in
  Ret (Status_Ok, this))).

Definition XhciInfo_SerializeInternal (this : XhciInfo) (s : Serializer) : res (Z * (ByteBuffer * option CapBuffer)) :=
  s ← WriteCapability 0 (XhciInfo_xhci_region this) s;
  s ← WriteField_u64 1 (XhciInfo_region_length this) s;
  s ← WriteHeader s;
  Ret (next_extension_ s, (buffer_ s, caps_ s)).

Definition XhciInfo_SerializeToBytes (this : XhciInfo) (bytes : ByteBuffer) (offset : Z) (caps : option CapBuffer) :
    res (Z * (ByteBuffer * option CapBuffer)) :=
  XhciInfo_SerializeInternal this (Serializer_new bytes offset 2 caps).

#[export] Instance XhciInfo_message : YunqMessage XhciInfo := {
  msg_default := mkXhciInfo 0 0;
  SerializeToBytes := XhciInfo_SerializeToBytes;
  ParseFromBytes := XhciInfo_ParseFromBytes;
  ParseFromBytes_caps := XhciInfo_ParseFromBytes_caps;
}.

Definition XhciInfo_wf (m : XhciInfo) : Prop := is_u64 (XhciInfo_xhci_region m) /\ is_u64 (XhciInfo_region_length m).
Definition XhciInfo_bytes (m : XhciInfo) : Z := 40.
Definition XhciInfo_writers (m : XhciInfo) : list (Serializer -> res Serializer) :=
  [WriteCapability 0 (XhciInfo_xhci_region m); WriteField_u64 1 (XhciInfo_region_length m)].

Lemma XhciInfo_round_trips m : XhciInfo_wf m -> round_trips m (XhciInfo_bytes m) 1.
Proof.
  intros Hm. unfold XhciInfo_wf in Hm. eapply (message_round_trips_eq m (XhciInfo_writers m)); [yunq_fields|reflexivity| |unfold XhciInfo_bytes, XhciInfo_writers; yunq_size|done].
  intros b off c Hh HR. yunq_parse HR c; unfold ParseFromBytes, ParseFromBytes_caps, XhciInfo_message, XhciInfo_ParseFromBytes, XhciInfo_ParseFromBytes_caps, XhciInfo_ParseFromBytesInternal; destruct m; yunq_steps; done.
Qed.

Record FramebufferInfo : Type := mkFramebufferInfo { FramebufferInfo_address_phys : Z; FramebufferInfo_width : Z; FramebufferInfo_height : Z; FramebufferInfo_pitch : Z; FramebufferInfo_bpp : Z; FramebufferInfo_memory_model : Z; FramebufferInfo_red_mask_size : Z; FramebufferInfo_red_mask_shift : Z; FramebufferInfo_green_mask_size : Z; FramebufferInfo_green_mask_shift : Z; FramebufferInfo_blue_mask_size : Z; FramebufferInfo_blue_mask_shift : Z }.

Definition FramebufferInfo_set_address_phys (value : Z) (this : FramebufferInfo) : FramebufferInfo :=
  match this with mkFramebufferInfo _ x1 x2 x3 x4 x5 x6 x7 x8 x9 x10 x11 => mkFramebufferInfo value x1 x2 x3 x4 x5 x6 x7 x8 x9 x10 x11 end.
Definition FramebufferInfo_set_width (value : Z) (this : FramebufferInfo) : FramebufferInfo :=
  match this with mkFramebufferInfo x0 _ x2 x3 x4 x5 x6 x7 x8 x9 x10 x11 => mkFramebufferInfo x0 value x2 x3 x4 x5 x6 x7 x8 x9 x10 x11 end.
Definition FramebufferInfo_set_height (value : Z) (this : FramebufferInfo) : FramebufferInfo :=
  match this with mkFramebufferInfo x0 x1 _ x3 x4 x5 x6 x7 x8 x9 x10 x11 => mkFramebufferInfo x0 x1 value x3 x4 x5 x6 x7 x8 x9 x10 x11 end.
Definition FramebufferInfo_set_pitch (value : Z) (this : FramebufferInfo) : FramebufferInfo :=
  match this with mkFramebufferInfo x0 x1 x2 _ x4 x5 x6 x7 x8 x9 x10 x11 => mkFramebufferInfo x0 x1 x2 value x4 x5 x6 x7 x8 x9 x10 x11 end.
Definition FramebufferInfo_set_bpp (value : Z) (this : FramebufferInfo) : FramebufferInfo :=
  match this with mkFramebufferInfo x0 x1 x2 x3 _ x5 x6 x7 x8 x9 x10 x11 => mkFramebufferInfo x0 x1 x2 x3 value x5 x6 x7 x8 x9 x10 x11 end.
Definition FramebufferInfo_set_memory_model (value : Z) (this : FramebufferInfo) : FramebufferInfo :=
  match this with mkFramebufferInfo x0 x1 x2 x3 x4 _ x6 x7 x8 x9 x10 x11 => mkFramebufferInfo x0 x1 x2 x3 x4 value x6 x7 x8 x9 x10 x11 end.
Definition FramebufferInfo_set_red_mask_size (value : Z) (this : FramebufferInfo) : FramebufferInfo :=
  match this with mkFramebufferInfo x0 x1 x2 x3 x4 x5 _ x7 x8 x9 x10 x11 => mkFramebufferInfo x0 x1 x2 x3 x4 x5 value x7 x8 x9 x10 x11 end.
Definition FramebufferInfo_set_red_mask_shift (value : Z) (this : FramebufferInfo) : FramebufferInfo :=
  match this with mkFramebufferInfo x0 x1 x2 x3 x4 x5 x6 _ x8 x9 x10 x11 => mkFramebufferInfo x0 x1 x2 x3 x4 x5 x6 value x8 x9 x10 x11 end.
Definition FramebufferInfo_set_green_mask_size (value : Z) (this : FramebufferInfo) : FramebufferInfo :=
  match this with mkFramebufferInfo x0 x1 x2 x3 x4 x5 x6 x7 _ x9 x10 x11 => mkFramebufferInfo x0 x1 x2 x3 x4 x5 x6 x7 value x9 x10 x11 end.
Definition FramebufferInfo_set_green_mask_shift (value : Z) (this : FramebufferInfo) : FramebufferInfo :=
  match this with mkFramebufferInfo x0 x1 x2 x3 x4 x5 x6 x7 x8 _ x10 x11 => mkFramebufferInfo x0 x1 x2 x3 x4 x5 x6 x7 x8 value x10 x11 end.
Definition FramebufferInfo_set_blue_mask_size (value : Z) (this : FramebufferInfo) : FramebufferInfo :=
  match this with mkFramebufferInfo x0 x1 x2 x3 x4 x5 x6 x7 x8 x9 _ x11 => mkFramebufferInfo x0 x1 x2 x3 x4 x5 x6 x7 x8 x9 value x11 end.
Definition FramebufferInfo_set_blue_mask_shift (value : Z) (this : FramebufferInfo) : FramebufferInfo :=
  match this with mkFramebufferInfo x0 x1 x2 x3 x4 x5 x6 x7 x8 x9 x10 _ => mkFramebufferInfo x0 x1 x2 x3 x4 x5 x6 x7 x8 x9 x10 value end.

Definition FramebufferInfo_ParseFromBytesInternal (b : ByteBuffer) (off : Z) (this : FramebufferInfo) : res (Status * FramebufferInfo) :=
  RETURN_ERROR (st ← CheckHeader b off; Ret (st, this)) (fun this =>
  ASSIGN_OR_RETURN (ReadField_u64 b off 0) this (fun v => let this := FramebufferInfo_set_address_phys v this in
  ASSIGN_OR_RETURN (ReadField_u64 b off 1) this (fun v => let this := FramebufferInfo_set_width v this in
  ASSIGN_OR_RETURN (ReadField_u64 b off 2) this (fun v => let this := FramebufferInfo_set_height v this in
  ASSIGN_OR_RETURN (ReadField_u64 b off 3) this (fun v => let this := FramebufferInfo_set_pitch v this in
  ASSIGN_OR_RETURN (ReadField_u64 b off 4) this (fun v => let this := FramebufferInfo_set_bpp v this in
  ASSIGN_OR_RETURN (ReadField_u64 b off 5) this (fun v => let this := FramebufferInfo_set_memory_model v this in
  ASSIGN_OR_RETURN (ReadField_u64 b off 6) this (fun v => let this := FramebufferInfo_set_red_mask_size v this in
  ASSIGN_OR_RETURN (ReadField_u64 b off 7) this (fun v => let this := FramebufferInfo_set_red_mask_shift v this in
  ASSIGN_OR_RETURN (ReadField_u64 b off 8) this (fun v => let this := FramebufferInfo_set_green_mask_size v this in
  ASSIGN_OR_RETURN (ReadField_u64 b off 9) this (fun v => let this := FramebufferInfo_set_green_mask_shift v this in
  ASSIGN_OR_RETURN (ReadField_u64 b off 10) this (fun v => let this := FramebufferInfo_set_blue_mask_size v this in
  ASSIGN_OR_RETURN (ReadField_u64 b off 11) this (fun v => let this := FramebufferInfo_set_blue_mask_shift v this in
  Ret (Status_Ok, this)))))))))))))).

Definition FramebufferInfo_ParseFromBytes (b : ByteBuffer) (off : Z) (this : FramebufferInfo) : res (Status * FramebufferInfo) :=
  RETURN_ERROR (FramebufferInfo_ParseFromBytesInternal b off this) (fun this =>
  Ret (Status_Ok, this)).

Definition FramebufferInfo_ParseFromBytes_caps (b : ByteBuffer) (off : Z) (caps : CapBuffer) (this : FramebufferInfo) : res (Status * FramebufferInfo) :=
  RETURN_ERROR (FramebufferInfo_ParseFromBytesInternal b off this) (fun this =>
  Ret (Status_Ok, this)).

Definition FramebufferInfo_SerializeInternal (this : FramebufferInfo) (s : Serializer) : res (Z * (ByteBuffer * option CapBuffer)) :=
  s ← WriteField_u64 0 (FramebufferInfo_address_phys this) s;
  s ← WriteField_u64 1 (FramebufferInfo_width this) s;
  s ← WriteField_u64 2 (FramebufferInfo_height this) s;
  s ← WriteField_u64 3 (FramebufferInfo_pitch this) s;
  s ← WriteField_u64 4 (FramebufferInfo_bpp this) s;
  s ← WriteField_u64 5 (FramebufferInfo_memory_model this) s;
  s ← WriteField_u64 6 (FramebufferInfo_red_mask_size this) s;
  s ← WriteField_u64 7 (FramebufferInfo_red_mask_shift this) s;
  s ← WriteField_u64 8 (FramebufferInfo_green_mask_size this) s;
  s ← WriteField_u64 9 (FramebufferInfo_green_mask_shift this) s;
  s ← WriteField_u64 10 (FramebufferInfo_blue_mask_size this) s;
  s ← WriteField_u64 11 (FramebufferInfo_blue_mask_shift this) s;
  s ← WriteHeader s;
  Ret (next_extension_ s, (buffer_ s, caps_ s)).

Definition FramebufferInfo_SerializeToBytes (this : FramebufferInfo) (bytes : ByteBuffer) (offset : Z) (caps : option CapBuffer) :
    res (Z * (ByteBuffer * option CapBuffer)) :=
  FramebufferInfo_SerializeInternal this (Serializer_new bytes offset 12 caps).

#[export] Instance FramebufferInfo_message : YunqMessage FramebufferInfo := {
  msg_default := mkFramebufferInfo 0 0 0 0 0 0 0 0 0 0 0 0;
  SerializeToBytes := FramebufferInfo_SerializeToBytes;
  ParseFromBytes := FramebufferInfo_ParseFromBytes;
  ParseFromBytes_caps := FramebufferInfo_ParseFromBytes_caps;
}.

Definition FramebufferInfo_wf (m : FramebufferInfo) : Prop := is_u64 (FramebufferInfo_address_phys m) /\ is_u64 (FramebufferInfo_width m) /\ is_u64 (FramebufferInfo_height m) /\ is_u64 (FramebufferInfo_pitch m) /\ is_u64 (FramebufferInfo_bpp m) /\ is_u64 (FramebufferInfo_memory_model m) /\ is_u64 (FramebufferInfo_red_mask_size m) /\ is_u64 (FramebufferInfo_red_mask_shift m) /\ is_u64 (FramebufferInfo_green_mask_size m) /\ is_u64 (FramebufferInfo_green_mask_shift m) /\ is_u64 (FramebufferInfo_blue_mask_size m) /\ is_u64 (FramebufferInfo_blue_mask_shift m).
Definition FramebufferInfo_bytes (m : FramebufferInfo) : Z := 120.
Definition FramebufferInfo_writers (m : FramebufferInfo) : list (Serializer -> res Serializer) :=
  [WriteField_u64 0 (FramebufferInfo_address_phys m); WriteField_u64 1 (FramebufferInfo_width m); WriteField_u64 2 (FramebufferInfo_height m); WriteField_u64 3 (FramebufferInfo_pitch m); WriteField_u64 4 (FramebufferInfo_bpp m); WriteField_u64 5 (FramebufferInfo_memory_model m); WriteField_u64 6 (FramebufferInfo_red_mask_size m); WriteField_u64 7 (FramebufferInfo_red_mask_shift m); WriteField_u64 8 (FramebufferInfo_green_mask_size m); WriteField_u64 9 (FramebufferInfo_green_mask_shift m); WriteField_u64 10 (FramebufferInfo_blue_mask_size m); WriteField_u64 11 (FramebufferInfo_blue_mask_shift m)].

Lemma FramebufferInfo_round_trips m : FramebufferInfo_wf m -> round_trips m (FramebufferInfo_bytes m) 0.
Proof.
  intros Hm. unfold FramebufferInfo_wf in Hm. eapply (message_round_trips_eq m (FramebufferInfo_writers m)); [yunq_fields|reflexivity| |unfold FramebufferInfo_bytes, FramebufferInfo_writers; yunq_size|done].
  intros b off c Hh HR. yunq_parse HR c; unfold ParseFromBytes, ParseFromBytes_caps, FramebufferInfo_message, FramebufferInfo_ParseFromBytes, FramebufferInfo_ParseFromBytes_caps, FramebufferInfo_ParseFromBytesInternal; destruct m; yunq_steps; done.
Qed.

Record DenaliInfo : Type := mkDenaliInfo { DenaliInfo_denali_endpoint : Z; DenaliInfo_device_id : Z; DenaliInfo_lba_offset : Z }.

Definition DenaliInfo_set_denali_endpoint (value : Z) (this : DenaliInfo) : DenaliInfo :=
  match this with mkDenaliInfo _ x1 x2 => mkDenaliInfo value x1 x2 end.
Definition DenaliInfo_set_device_id (value : Z) (this : DenaliInfo) : DenaliInfo :=
  match this with mkDenaliInfo x0 _ x2 => mkDenaliInfo x0 value x2 end.
Definition DenaliInfo_set_lba_offset (value : Z) (this : DenaliInfo) : DenaliInfo :=
  match this with mkDenaliInfo x0 x1 _ => mkDenaliInfo x0 x1 value end.

Definition DenaliInfo_ParseFromBytesInternal (b : ByteBuffer) (off : Z) (this : DenaliInfo) : res (Status * DenaliInfo) :=
  RETURN_ERROR (st ← CheckHeader b off; Ret (st, this)) (fun this =>
  ASSIGN_OR_RETURN (ReadField_u64 b off 1) this (fun v => let this := DenaliInfo_set_device_id v this in
  ASSIGN_OR_RETURN (ReadField_u64 b off 2) this (fun v => let this := DenaliInfo_set_lba_offset v this in
  Ret (Status_Ok, this)))).

Definition DenaliInfo_ParseFromBytes (b : ByteBuffer) (off : Z) (this : DenaliInfo) : res (Status * DenaliInfo) :=
  RETURN_ERROR (DenaliInfo_ParseFromBytesInternal b off this) (fun this =>
  ASSIGN_OR_RETURN (ReadCapability b off 0) this (fun v => let this := DenaliInfo_set_denali_endpoint v this in
  Ret (Status_Ok, this))).

Definition DenaliInfo_ParseFromBytes_caps (b : ByteBuffer) (off : Z) (caps : CapBuffer) (this : DenaliInfo) : res (Status * DenaliInfo) :=
  RETURN_ERROR (DenaliInfo_ParseFromBytesInternal b off this) (fun this =>
  ASSIGN_OR_RETURN (ReadCapability_caps b off 0 caps) this (fun v => let this := DenaliInfo_set_denali_endpoint v this in
  Ret (Status_Ok, this))).

Definition DenaliInfo_SerializeInternal (this : DenaliInfo) (s : Serializer) : res (Z * (ByteBuffer * option CapBuffer)) :=
  s ← WriteCapability 0 (DenaliInfo_denali_endpoint this) s;
  s ← WriteField_u64 1 (DenaliInfo_device_id this) s;
  s ← WriteField_u64 2 (DenaliInfo_lba_offset this) s;
  s ← WriteHeader s;
  Ret (next_extension_ s, (buffer_ s, caps_ s)).

Definition DenaliInfo_SerializeToBytes (this : DenaliInfo) (bytes : ByteBuffer) (offset : Z) (caps : option CapBuffer) :
    res (Z * (ByteBuffer * option CapBuffer)) :=
  DenaliInfo_SerializeInternal this (Serializer_new bytes offset 3 caps).

#[export] Instance DenaliInfo_message : YunqMessage DenaliInfo := {
  msg_default := mkDenaliInfo 0 0 0;
  SerializeToBytes := DenaliInfo_SerializeToBytes;
  ParseFromBytes := DenaliInfo_ParseFromBytes;
  ParseFromBytes_caps := DenaliInfo_ParseFromBytes_caps;
}.

Definition DenaliInfo_wf (m : DenaliInfo) : Prop := is_u64 (DenaliInfo_denali_endpoint m) /\ is_u64 (DenaliInfo_device_id m) /\ is_u64 (DenaliInfo_lba_offset m).
Definition DenaliInfo_bytes (m : DenaliInfo) : Z := 48.
Definition DenaliInfo_writers (m : DenaliInfo) : list (Serializer -> res Serializer) :=
  [WriteCapability 0 (DenaliInfo_denali_endpoint m); WriteField_u64 1 (DenaliInfo_device_id m); WriteField_u64 2 (DenaliInfo_lba_offset m)].

Lemma DenaliInfo_round_trips m : DenaliInfo_wf m -> round_trips m (DenaliInfo_bytes m) 1.
Proof.
  intros Hm. unfold DenaliInfo_wf in Hm. eapply (message_round_trips_eq m (DenaliInfo_writers m)); [yunq_fields|reflexivity| |unfold DenaliInfo_bytes, DenaliInfo_writers; yunq_size|done].
  intros b off c Hh HR. yunq_parse HR c; unfold ParseFromBytes, ParseFromBytes_caps, DenaliInfo_message, DenaliInfo_ParseFromBytes, DenaliInfo_ParseFromBytes_caps, DenaliInfo_ParseFromBytesInternal; destruct m; yunq_steps; done.
Qed.

(** ** Properties *)

(** C20.  Every message of the services survives the wire: serialising it at any offset of a buffer
    with room for it returns its length and changes nothing else in the buffer, and parsing from any
    buffer that has the same bytes (and, with a capability buffer, the same capabilities) gives the
    message back with an Ok status, whatever the field values, strings, nested and repeated parts. *)
Theorem yunq_messages_round_trip :
  (forall m : Basic, Basic_wf m -> round_trips m (Basic_bytes m) 0) /\
  (forall m : Types, Types_wf m -> round_trips m (Types_bytes m) 0) /\
  (forall m : Cap, Cap_wf m -> round_trips m (Cap_bytes m) 1) /\
  (forall m : Repeated, Repeated_wf m -> round_trips m (Repeated_bytes m) 0) /\
  (forall m : DiskBlock, DiskBlock_wf m -> round_trips m (DiskBlock_bytes m) 0) /\
  (forall m : ReadRequest, ReadRequest_wf m -> round_trips m (ReadRequest_bytes m) 0) /\
  (forall m : ReadManyRequest, ReadManyRequest_wf m -> round_trips m (ReadManyRequest_bytes m) 0) /\
  (forall m : ReadResponse, ReadResponse_wf m -> round_trips m (ReadResponse_bytes m) 1) /\
  (forall m : OpenFileRequest, OpenFileRequest_wf m -> round_trips m (OpenFileRequest_bytes m) 0) /\
  (forall m : OpenFileResponse, OpenFileResponse_wf m -> round_trips m (OpenFileResponse_bytes m) 1) /\
  (forall m : GetDirectoryRequest, GetDirectoryRequest_wf m -> round_trips m (GetDirectoryRequest_bytes m) 0) /\
  (forall m : Directory, Directory_wf m -> round_trips m (Directory_bytes m) 0) /\
  (forall m : KeyboardListener, KeyboardListener_wf m -> round_trips m (KeyboardListener_bytes m) 1) /\
  (forall m : RegisterEndpointRequest, RegisterEndpointRequest_wf m -> round_trips m (RegisterEndpointRequest_bytes m) 1) /\
  (forall m : GetEndpointRequest, GetEndpointRequest_wf m -> round_trips m (GetEndpointRequest_bytes m) 0) /\
  (forall m : Endpoint, Endpoint_wf m -> round_trips m (Endpoint_bytes m) 1) /\
  (forall m : AhciInfo, AhciInfo_wf m -> round_trips m (AhciInfo_bytes m) 1) /\
  (forall m : XhciInfo, XhciInfo_wf m -> round_trips m (XhciInfo_bytes m) 1) /\
  (forall m : FramebufferInfo, FramebufferInfo_wf m -> round_trips m (FramebufferInfo_bytes m) 0) /\
  (forall m : DenaliInfo, DenaliInfo_wf m -> round_trips m (DenaliInfo_bytes m) 1).
Proof.
  split_and!;
    [exact Basic_round_trips|exact Types_round_trips|exact Cap_round_trips|exact Repeated_round_trips|exact DiskBlock_round_trips|exact ReadRequest_round_trips|exact ReadManyRequest_round_trips|exact ReadResponse_round_trips|exact OpenFileRequest_round_trips|exact OpenFileResponse_round_trips|exact GetDirectoryRequest_round_trips|exact Directory_round_trips|exact KeyboardListener_round_trips|exact RegisterEndpointRequest_round_trips|exact GetEndpointRequest_round_trips|exact Endpoint_round_trips|exact AhciInfo_round_trips|exact XhciInfo_round_trips|exact FramebufferInfo_round_trips|exact DenaliInfo_round_trips].
Qed.

(** The parser of a disk block answers Ok or the header's error, on any bytes. *)
Lemma DiskBlock_parse_total b off m :
  DiskBlock_ParseFromBytes b off m <> NoFuel /\
  (forall st m', DiskBlock_ParseFromBytes b off m = Ret (st, m') -> Status_ok st = true -> st = Status_Ok).
Proof.
  unfold DiskBlock_ParseFromBytes, DiskBlock_ParseFromBytesInternal, RETURN_ERROR, ASSIGN_OR_RETURN, CheckHeader, ReadField_u64, At_u32, At_u64, load_bytes.
  split.
  - repeat (case_if_goal; cbn; try done).
  - intros st m'. repeat (case_if_goal; cbn; try done); intros [= <- <-]; cbn; done.
Qed.

(** A request for many blocks whose only block claims length 0. *)
Definition zero_length_request : ByteBuffer :=
  replicate 32 0 ++ le_bytes 4 40 ++ le_bytes 4 40 ++ le_bytes 4 kIdentByte ++ replicate 36 0.

Lemma ReadRepeatedMessage_termination_witness :
  bytes_ok zero_length_request /\ forall fuel, read_messages (T := DiskBlock) fuel 40 80 0 zero_length_request [] = NoFuel.
Proof.
  assert (bytes_ok zero_length_request) as Hok by (unfold bytes_ok; vm_compute; repeat constructor; discriminate).
  split; [exact Hok|]. intros fuel.
  refine (proj2 (ReadRepeatedMessage_termination zero_length_request 0 1 ([] : list DiskBlock) _ _ _) (mkExt 40 40) (mkDiskBlock 0 0) _ _ _ _ _ fuel).
  - exact Hok.
  - intros o. exact (proj1 (DiskBlock_parse_total zero_length_request o _)).
  - intros o st m. exact (proj2 (DiskBlock_parse_total zero_length_request o _) st m).
  - vm_compute. reflexivity.
  - cbn. lia.
  - cbn. lia.
  - vm_compute. reflexivity.
  - vm_compute. reflexivity.
Defined.
