(* ===== verification/Rpc.v ===== *)
(** * Remote calls (the generated *.yunq.client.cpp and *.yunq.server.cpp)

    The code the yunq compiler emits for a service: a client method writes a
    16-byte header and the serialised request into its buffer, sends it to the
    endpoint and parses the reply; the server thread receives, dispatches on
    the method number, runs the handler and replies.  The text is the same for
    every method up to names, so the shared part is defined once, with the
    request and the response as parameters, and instantiated per method in
    Services.v.  The system calls are the class [Zcalls]; what the kernel
    promises about them is the class [RpcKernel], which ZionRpc.v discharges
    for the kernel of this repository. *)

From Stdlib Require Import ZArith Lia.
From stdpp Require Import base tactics numbers list strings.
From S2P Require Import Prelude Status Buffer Yunq.

Definition kSentinel : Z := 0xBEEFDEAD.
Definition kRpcHeaderSize : Z := 0x10.
Definition kBufferSize : Z := 0x1000.
Definition kCapBufferSize : Z := 0x10.

(** A [glcr::Status] whose code came over the wire: any uint64_t. *)
Record RpcStatus : Type := mkRpc { rpc_code : Z; rpc_message : string }.
Definition rpc_of (s : Status) : RpcStatus := mkRpc (ErrorCode_val (code_ s)) (message_ s).
Definition Rpc_Ok : RpcStatus := mkRpc (ErrorCode_val OK) "".
Definition Unimplemented (m : string) : Status := mkStatus UNIMPLEMENTED m.
Definition InvalidResponse (m : string) : RpcStatus := mkRpc (ErrorCode_val INVALID_RESPONSE) m.

(** ** System calls, over a state [K] of the kernel and of everything behind it *)
Class Zcalls (K : Type) : Type := {
  (* endpoint, bytes, capabilities: the error and the reply port *)
  ZEndpointSend : Z -> list Z -> list Z -> K -> res (Z * Z * K);
  (* endpoint, room for bytes, room for capabilities: the error, the message and the reply port *)
  ZEndpointRecv : Z -> Z -> Z -> K -> res (Z * (list Z * list Z * Z) * K);
  ZReplyPortSend : Z -> list Z -> list Z -> K -> res (Z * K);
  ZReplyPortRecv : Z -> Z -> Z -> K -> res (Z * (list Z * list Z) * K);
  ZCapDuplicate : Z -> Z -> K -> res (Z * Z * K);
  ZCapRelease : Z -> K -> res (Z * K);
}.

(** What the kernel writes through [RawPtr()] lands at the front of the allocation. *)
Definition store_caps (l : list Z) (c : CapBuffer) : res CapBuffer :=
  b ← store_bytes 0 l (cap_buffer_ c); Ret (mkCaps b (used_slots_ c)).

(** [SerializeToBytes] with a capability buffer. *)
Definition serialize_caps {T} `{YunqMessage T} (m : T) (b : ByteBuffer) (off : Z) (c : CapBuffer) :
    res (Z * (ByteBuffer * CapBuffer)) :=
  '(len, (b, oc)) ← SerializeToBytes m b off (Some c);
  c ← deref oc;
  Ret (len, (b, c)).

(** ** Client *)
Record Client : Type := mkClient { endpoint_ : Z; cl_buffer_ : ByteBuffer; cl_cap_buffer_ : CapBuffer }.

Definition Client_new (cap : Z) : Client := mkClient cap (ByteBuffer_new kBufferSize) (CapBuffer_new kCapBufferSize).

(** The move constructor: the endpoint is taken from [other], the buffers are fresh. *)
Definition Client_move (other : Client) : Client * Client :=
  (Client_new (endpoint_ other), mkClient 0 (cl_buffer_ other) (cl_cap_buffer_ other)).

Section stubs.
Context {K : Type} `{Zcalls K}.
Implicit Types (k : K) (b : ByteBuffer) (c : CapBuffer).

(** The destructor; [check] stops the process on an error. *)
Definition Client_destroy (cl : Client) (k : K) : res K :=
  if negb (endpoint_ cl =? 0) then
    '(err, k) ← ZCapRelease (endpoint_ cl) k;
    if err =? ErrorCode_val OK then Ret k else Panic
  else Ret k.

(** The request side of a method; [serialize] is [None] for a method without a request. *)
Definition client_send (method_select : Z) (serialize : option (ByteBuffer -> Z -> CapBuffer -> res (Z * (ByteBuffer * CapBuffer))))
    (cl : Client) (k : K) : res (Z * Z * Client * K) :=
  b ← WriteAt_u32 0 kSentinel (cl_buffer_ cl);
  b ← WriteAt_u64 8 method_select b;
  let c := CapBuffer_Reset (cl_cap_buffer_ cl) in
  '(length, (b, c)) ← match serialize with Some f => f b 16 c | None => Ret (0, (b, c)) end;
  b ← WriteAt_u32 4 (u32 (16 [+] length)) b;
  bytes ← load_bytes 0 (Z.to_nat (16 [+] length)) b;
  caps ← load_bytes 0 (Z.to_nat (used_slots_ c)) (cap_buffer_ c);
  '(err, reply_port_cap, k) ← ZEndpointSend (endpoint_ cl) bytes caps k;
  Ret (err, reply_port_cap, mkClient (endpoint_ cl) b c, k).

(** The response side; [parse] is [None] for a method without a response. *)
Definition client_recv {Rsp} (reply_port_cap : Z) (parse : option (ByteBuffer -> Z -> CapBuffer -> Rsp -> res (Status * Rsp)))
    (cl : Client) (response : Rsp) (k : K) : res (RpcStatus * Rsp * Client * K) :=
  '(err, (bytes, caps), k) ← ZReplyPortRecv reply_port_cap kBufferSize kCapBufferSize k;
  if negb (err =? ErrorCode_val OK) then Ret (mkRpc err "", response, cl, k) else
  b ← store_bytes 0 bytes (cl_buffer_ cl);
  c ← store_caps caps (cl_cap_buffer_ cl);
  let cl := mkClient (endpoint_ cl) b c in
  sentinel ← At_u32 0 b;
  if negb (sentinel =? kSentinel) then Ret (InvalidResponse "Got an invalid response from server.", response, cl, k) else
  code ← At_u64 8 b;
  if negb (code =? ErrorCode_val OK) then Ret (mkRpc code "", response, cl, k) else
  match parse with
  | None => Ret (Rpc_Ok, response, cl, k)
  | Some f =>
      '(st, response) ← f b 16 c response;
      if negb (Status_ok st) then Ret (rpc_of st, response, cl, k) else Ret (Rpc_Ok, response, cl, k)
  end.

(** A whole client method. *)
Definition client_call {Rsp} (method_select : Z) (serialize : option (ByteBuffer -> Z -> CapBuffer -> res (Z * (ByteBuffer * CapBuffer))))
    (parse : option (ByteBuffer -> Z -> CapBuffer -> Rsp -> res (Status * Rsp)))
    (cl : Client) (response : Rsp) (k : K) : res (RpcStatus * Rsp * Client * K) :=
  '(err, reply_port_cap, cl, k) ← client_send method_select serialize cl k;
  if negb (err =? ErrorCode_val OK) then Ret (mkRpc err "", response, cl, k) else
  client_recv reply_port_cap parse cl response k.

(** ** Server *)
Record ServerBuffers : Type := mkBufs {
  recv_buffer : ByteBuffer; recv_cap : CapBuffer; resp_buffer : ByteBuffer; resp_cap : CapBuffer }.

Definition ServerBuffers_new : ServerBuffers :=
  mkBufs (ByteBuffer_new 0x1000) (CapBuffer_new 0x10) (ByteBuffer_new 0x1000) (CapBuffer_new 0x10).

Definition WriteError (buffer : ByteBuffer) (err : ErrorCode) : res ByteBuffer :=
  b ← WriteAt_u32 0 kSentinel buffer;
  b ← WriteAt_u32 4 kRpcHeaderSize b;
  WriteAt_u64 8 (ErrorCode_val err) b.

Definition WriteReplyHeader (buffer : ByteBuffer) (message_length : Z) : res ByteBuffer :=
  b ← WriteAt_u32 0 kSentinel buffer;
  b ← WriteAt_u32 4 (u32 (kRpcHeaderSize + message_length)) b;
  WriteAt_u64 8 (ErrorCode_val OK) b.

(** [kZionPerm_Read] is 0x2 (ztypes.h); the mask of [CreateClientCap] and [CreateClient] is its complement. *)
Definition CreateClientCap (endpoint : Z) (k : K) : res (Z * Z * K) := ZCapDuplicate endpoint (not64 0x2) k.

Definition CreateClient (endpoint : Z) (k : K) : res (Z * option Client * K) :=
  '(err, client_cap, k) ← ZCapDuplicate endpoint (not64 0x2) k;
  if negb (err =? ErrorCode_val OK) then Ret (err, None, k) else Ret (err, Some (Client_new client_cap), k).

(** One [case] of [HandleRequest]: the status, [resp_length], the response
    buffers and the state.  A handler may fill the response before it fails. *)
Definition method_case : Type :=
  ByteBuffer -> CapBuffer -> ByteBuffer -> CapBuffer -> K -> res (Status * Z * ByteBuffer * CapBuffer * K).

Definition case_request_response {Req Rsp} `{YunqMessage Req} `{YunqMessage Rsp}
    (handle : Req -> Rsp -> K -> res (Status * Rsp * K)) : method_case := fun request req_caps response resp_caps k =>
  '(st, yunq_request) ← ParseFromBytes_caps request kRpcHeaderSize req_caps msg_default;
  if negb (Status_ok st) then Ret (st, 0, response, resp_caps, k) else
  '(st, yunq_response, k) ← handle yunq_request msg_default k;
  if negb (Status_ok st) then Ret (st, 0, response, resp_caps, k) else
  '(resp_length, (response, resp_caps)) ← serialize_caps yunq_response response kRpcHeaderSize resp_caps;
  Ret (Status_Ok, resp_length, response, resp_caps, k).

Definition case_request {Req} `{YunqMessage Req} (handle : Req -> K -> res (Status * K)) : method_case :=
  fun request req_caps response resp_caps k =>
  '(st, yunq_request) ← ParseFromBytes_caps request kRpcHeaderSize req_caps msg_default;
  if negb (Status_ok st) then Ret (st, 0, response, resp_caps, k) else
  '(st, k) ← handle yunq_request k;
  if negb (Status_ok st) then Ret (st, 0, response, resp_caps, k) else
  Ret (Status_Ok, 0, response, resp_caps, k).

Definition case_response {Rsp} `{YunqMessage Rsp} (handle : Rsp -> K -> res (Status * Rsp * K)) : method_case :=
  fun request req_caps response resp_caps k =>
  '(st, yunq_response, k) ← handle msg_default k;
  if negb (Status_ok st) then Ret (st, 0, response, resp_caps, k) else
  '(resp_length, (response, resp_caps)) ← serialize_caps yunq_response response kRpcHeaderSize resp_caps;
  Ret (Status_Ok, resp_length, response, resp_caps, k).

(** [HandleRequest]; [select] is the [switch] on the method number, [None] its default. *)
Definition HandleRequest (select : Z -> option method_case) : method_case := fun request req_caps response resp_caps k =>
  sentinel ← At_u32 0 request;
  if negb (sentinel =? kSentinel) then Ret (InvalidArgument "Request Not Valid", 0, response, resp_caps, k) else
  method_select ← At_u64 8 request;
  match select method_select with
  | None => Ret (Unimplemented "Method unimplemented by server.", 0, response, resp_caps, k)
  | Some run => run request req_caps response resp_caps k
  end.

(** One turn of the loop of [ServerThread]. *)
Definition ServerTurn (endpoint : Z) (handle_request : method_case) (s : ServerBuffers) (k : K) : res (ServerBuffers * K) :=
  let recv_cap := CapBuffer_Reset (recv_cap s) in
  '(recv_err, (bytes, caps, reply_port_cap), k) ← ZEndpointRecv endpoint 0x1000 0x10 k;
  if negb (recv_err =? ErrorCode_val OK) then Ret (mkBufs (recv_buffer s) recv_cap (resp_buffer s) (resp_cap s), k) else
  recv_buffer ← store_bytes 0 bytes (recv_buffer s);
  recv_cap ← store_caps caps recv_cap;
  let resp_cap := CapBuffer_Reset (resp_cap s) in
  '(err, resp_length, resp_buffer, resp_cap, k) ← handle_request recv_buffer recv_cap (resp_buffer s) resp_cap k;
  if negb (Status_ok err) then
    resp_buffer ← WriteError resp_buffer (code_ err);
    bytes ← load_bytes 0 (Z.to_nat kRpcHeaderSize) resp_buffer;
    '(reply_err, k) ← ZReplyPortSend reply_port_cap bytes [] k;
    Ret (mkBufs recv_buffer recv_cap resp_buffer resp_cap, k)
  else
    resp_buffer ← WriteReplyHeader resp_buffer resp_length;
    bytes ← load_bytes 0 (Z.to_nat (kRpcHeaderSize [+] resp_length)) resp_buffer;
    caps ← load_bytes 0 (Z.to_nat (used_slots_ resp_cap)) (cap_buffer_ resp_cap);
    '(reply_err, k) ← ZReplyPortSend reply_port_cap bytes caps k;
    Ret (mkBufs recv_buffer recv_cap resp_buffer resp_cap, k).

(** [ServerThread] never returns; its first [n] turns. *)
Fixpoint ServerThread (n : nat) (endpoint : Z) (handle_request : method_case) (s : ServerBuffers) (k : K) : res (ServerBuffers * K) :=
  match n with
  | O => Ret (s, k)
  | S n' => '(s, k) ← ServerTurn endpoint handle_request s k; ServerThread n' endpoint handle_request s k
  end.
End stubs.

(** ** What the kernel promises

    A message in flight holds the bytes of the sender and the kernel objects
    of its capabilities; the receiver gets the bytes and fresh names for the
    same objects.  [idle ec es]: the server waits on [es], the receiving end of
    the client's [ec].  A message is at most 0x1000 bytes and 16 capabilities
    long, its capabilities are distinct and may be transmitted ([client_cap]
    and [server_cap] are the capabilities of the two processes that may be). *)
Class RpcKernel (K : Type) `{Zcalls K} : Type := {
  Obj : Type;
  client_cap : K -> Z -> option Obj;
  server_cap : K -> Z -> option Obj;
  idle : Z -> Z -> K -> Prop;
  pending : Z -> Z -> list Z -> list Obj -> K -> Prop;
  awaiting : Z -> Z -> K -> Prop;
  answered : Z -> list Z -> list Obj -> K -> Prop;
  send_law ec es bytes caps os k :
    idle ec es k -> Z.of_nat (length bytes) <= 0x1000 -> (length caps <= 16)%nat -> NoDup caps -> client_cap k <$> caps = Some <$> os ->
    exists rp k', ZEndpointSend ec bytes caps k = Ret (ErrorCode_val OK, rp, k') /\ pending es rp bytes os k';
  recv_law es rp bytes os k nb nc :
    pending es rp bytes os k -> Z.of_nat (length bytes) <= nb -> Z.of_nat (length os) <= nc <= 16 ->
    exists caps srp k', ZEndpointRecv es nb nc k = Ret (ErrorCode_val OK, (bytes, caps, srp), k') /\
      server_cap k' <$> caps = Some <$> os /\ Forall is_u64 caps /\ awaiting rp srp k';
  reply_send_law rp srp bytes caps os k :
    awaiting rp srp k -> Z.of_nat (length bytes) <= 0x1000 -> (length caps <= 16)%nat -> NoDup caps -> server_cap k <$> caps = Some <$> os ->
    exists k', ZReplyPortSend srp bytes caps k = Ret (ErrorCode_val OK, k') /\ answered rp bytes os k';
  reply_recv_law rp bytes os k nb nc :
    answered rp bytes os k -> Z.of_nat (length bytes) <= nb -> Z.of_nat (length os) <= nc <= 16 ->
    exists caps k', ZReplyPortRecv rp nb nc k = Ret (ErrorCode_val OK, (bytes, caps), k') /\
      client_cap k' <$> caps = Some <$> os /\ Forall is_u64 caps;
}.

(** ** Messages whose capabilities are renamed on the way *)
Class CapMessage (T : Type) : Type := {
  msg_caps : T -> list Z;
  with_caps : list Z -> T -> T;
}.

(** [m] takes [size] bytes; a receiver with the same bytes and other names
    [l] for its capabilities parses [m] with those names. *)
Definition transfers {T} `{YunqMessage T} `{CapMessage T} (m : T) (size : Z) : Prop :=
  kHeaderSize <= size /\ forall b off c,
  0 <= off -> off + size <= Z.of_nat (length b) -> Z.of_nat (length b) < 2 ^ 32 ->
  (length (msg_caps m) < length (cap_buffer_ c))%nat -> used_slots_ c = 0 ->
  exists b' c', serialize_caps m b off c = Ret (size, (b', c')) /\
    agree (fun i => ~ rng off (off + size) i) b b' /\ length (cap_buffer_ c') = length (cap_buffer_ c) /\
    load_bytes 0 (Z.to_nat (used_slots_ c')) (cap_buffer_ c') = Ret (msg_caps m) /\
    forall b'' c'' l, agree (rng off (off + size)) b' b'' -> length l = length (msg_caps m) -> Forall is_u64 l ->
      length (cap_buffer_ c'') = length (cap_buffer_ c) -> l `prefix_of` cap_buffer_ c'' ->
      ParseFromBytes_caps b'' off c'' msg_default = Ret (Status_Ok, with_caps l m).

Lemma load_prefix (l b : list Z) : (length l <= length b)%nat -> load_bytes 0 (length l) (list_inserts 0 l b) = Ret l.
Proof.
  intros Hl. destruct (store_spec 0 l b) as (b' & Hs & _ & Hr); [lia|lia|]. unfold store_bytes in Hs.
  rewrite (proj2 (in_bounds_spec _ _ _)) in Hs by lia. injection Hs as <-. exact Hr.
Qed.

Section transfer.
Context {T : Type} `{YunqMessage T} `{CapMessage T}.
Implicit Types m : T.

(** A message without capabilities. *)
Lemma plain_transfers m size :
  kHeaderSize <= size -> msg_caps m = [] -> with_caps [] m = m -> round_trips m size 0 -> transfers m size.
Proof.
  intros Hs Hc Hw Hr. split; [done|]. intros b off c Hoff Hb Hl Hroom Hu. rewrite Hc in Hroom |- *. cbn [length] in *.
  destruct (Hr b off (Some c) Hoff Hb Hl) as (b' & c' & HS & Ha & Hcw & HP); [cbn; lia|].
  apply cwritten_0 in Hcw as ->. exists b', c. unfold serialize_caps. rewrite HS. split; [done|]. split; [done|].
  split; [done|]. rewrite Hu. split; [by unfold load_bytes; rewrite (proj2 (in_bounds_spec _ _ _)) by (cbn; lia)|].
  intros b'' c'' l Hag Hl0 _ Hlen _. apply nil_length_inv in Hl0 as ->. rewrite Hw.
  destruct (HP b'' (Some c'') Hag) as [HP1 _]; [split; [done|lia]|]. exact HP1.
Qed.

(** A message with one capability: with a capability buffer, its bytes are
    those it has without one when the field holds the slot number 0. *)
Definition one_cap_serializer m (v : Z) : Prop := forall b off c,
  (0 < length (cap_buffer_ c))%nat -> SerializeToBytes m b off (Some c) =
    ('(len, (b', _)) ← SerializeToBytes (with_caps [0] m) b off None; c' ← CapBuffer_WriteAt 0 v c; Ret (len, (b', Some c'))).

Lemma one_cap_transfers m v size :
  kHeaderSize <= size -> msg_caps m = [v] ->
  (forall l, with_caps [0] (with_caps l m) = with_caps [0] m) ->
  (forall w, is_u64 w -> round_trips (with_caps [w] m) size 1) ->
  one_cap_serializer m v -> (forall w, one_cap_serializer (with_caps [w] m) w) -> transfers m size.
Proof.
  intros Hs Hc Hw Hr Hm Hmw. split; [done|]. intros b off c Hoff Hb Hl Hroom Hu. rewrite Hc in Hroom |- *. cbn [length] in *.
  destruct (Hr 0 ltac:(done) b off None Hoff Hb Hl) as (b' & c0 & HS & Ha & _ & _); [done|].
  destruct (CapBuffer_WriteAt_spec 0 v c) as (c' & HW & Hused & Hlen & Hv & Hother); [lia|lia|].
  exists b', c'. unfold serialize_caps. rewrite Hm, HS, ret_bind, HW by lia. cbn [mbind res_bind deref].
  split; [done|]. split; [done|]. split; [done|]. split.
  { rewrite Hused, Hu. change (Z.to_nat (0 `max` (0 + 1))) with 1%nat. destruct (cap_buffer_ c') as [|x t] eqn:Ec; [by cbn in Hv|].
    cbn in Hv. injection Hv as ->. unfold load_bytes. rewrite (proj2 (in_bounds_spec _ _ _)) by (cbn; lia). done. }
  intros b'' c'' l Hag Hl1 Hu64 Hlc [t Ht]. destruct l as [|w [|]]; try done. apply Forall_inv in Hu64.
  destruct (Hr w Hu64 b off (Some c) Hoff Hb Hl) as (b2 & c2 & HS2 & _ & _ & HP); [cbn; lia|].
  rewrite Hmw, Hw, HS, ret_bind in HS2 by lia. destruct (CapBuffer_WriteAt_spec 0 w c) as (c3 & HW3 & _ & Hlen3 & Hw3 & _); [lia|lia|].
  rewrite HW3 in HS2. cbn [mbind res_bind] in HS2. injection HS2 as <- <-.
  destruct (HP b'' (Some c'') Hag) as [HP1 _]; [|exact HP1]. split; [lia|]. intros i Hi. assert (i = 0%nat) as -> by lia.
  rewrite Ht. exact Hw3.
Qed.
End transfer.

(** Writers that neither look at the capabilities nor count them commute with
    a change of the capability buffer. *)
Definition set_caps (n : Z) (c : option CapBuffer) (s : Serializer) : Serializer :=
  mkSer (buffer_ s) (offset_ s) (next_extension_ s) (core_size_ s) n c.

Definition cap_free (w : Serializer -> res Serializer) : Prop :=
  forall s n c, w (set_caps n c s) = (s1 ← w s; Ret (set_caps n c s1)).

Lemma cap_free_u64 i v : cap_free (WriteField_u64 i v).
Proof. intros s n c. unfold WriteField_u64. cbn. by destruct (WriteAt_u64 _ _ _). Qed.

Lemma cap_free_string i v : cap_free (WriteField_String i v).
Proof.
  intros s n c. unfold WriteField_String. cbn. destruct (WriteStringAt _ _ _); [|done..]. cbn. by destruct (WriteAt_ext _ _ _).
Qed.

Lemma cap_free_fields ws s n c {A} (k : Serializer -> res A) :
  Forall cap_free ws -> write_fields ws k (set_caps n c s) = (s1 ← write_fields ws Ret s; k (set_caps n c s1)).
Proof.
  intros Hf. revert s. induction Hf as [|w ws Hw Hf IH]; intros s; [done|]. cbn [write_fields]. rewrite Hw.
  destruct (w s); [|done..]. cbn [mbind res_bind]. apply IH.
Qed.

Lemma finish_caps s n c : finish (set_caps n c s) = ('(len, (b, _)) ← finish s; Ret (len, (b, c))).
Proof.
  unfold finish, WriteHeader. cbn. repeat (match goal with |- context [WriteAt_u32 ?a ?b ?c] => destruct (WriteAt_u32 a b c); [|done..] end; cbn). done.
Qed.

Lemma write_fields_app {A} (k : Serializer -> res A) ws1 ws2 s : write_fields (ws1 ++ ws2) k s = write_fields ws1 (write_fields ws2 k) s.
Proof. revert s. induction ws1 as [|w ws1 IH]; intros s; [done|]. cbn. destruct (w s); [|done..]. apply IH. Qed.

(** The shape of the generated serializers with one capability field. *)
Lemma one_cap_write pre i v post b off n c :
  Forall cap_free pre -> Forall cap_free post -> (0 < length (cap_buffer_ c))%nat ->
  write_fields (pre ++ WriteCapability i v :: post) finish (Serializer_new b off n (Some c)) =
    ('(len, (b', _)) ← write_fields (pre ++ WriteCapability i 0 :: post) finish (Serializer_new b off n None);
     c' ← CapBuffer_WriteAt 0 v c; Ret (len, (b', Some c'))).
Proof.
  intros Hpre Hpost Hroom. rewrite !write_fields_app.
  change (Serializer_new b off n (Some c)) with (set_caps 0 (Some c) (Serializer_new b off n None)).
  change (Serializer_new b off n None) with (set_caps 0 None (Serializer_new b off n None)) at 2.
  rewrite !(cap_free_fields pre) by done. destruct (write_fields pre Ret _) as [s1| | |]; [|done..]. rewrite !ret_bind.
  cbn [write_fields]. unfold WriteCapability at 1 2. cbn [caps_ set_caps next_cap_]. unfold WriteField_u64. cbn [offset_ set_caps buffer_].
  destruct (WriteAt_u64 _ 0 _) as [b1| | |]; [|done..]. rewrite !ret_bind.
  destruct (CapBuffer_WriteAt_spec 0 v c) as (c' & -> & _); [lia|lia|]. rewrite ret_bind.
  set (s2 := with_bytes b1 (set_caps 0 None s1)).
  change (mkSer b1 _ _ _ _ (Some c')) with (set_caps (0 [+] 1) (Some c') s2).
  rewrite ret_bind, (cap_free_fields post) by done.
  change s2 with (set_caps 0 None s2) at 2. rewrite (cap_free_fields post) by done.
  destruct (write_fields post Ret s2) as [s3| | |]; [|done..]. rewrite !ret_bind, !finish_caps.
  destruct (finish s3) as [[len [b3 o3]]| | |]; done.
Qed.

(** ** Headers *)

(** [b] starts with the sentinel and has [code] at offset 8. *)
Definition has_header (b : ByteBuffer) (code : Z) : Prop := At_u32 0 b = Ret kSentinel /\ At_u64 8 b = Ret code.

Lemma write_header_spec b (len code : Z) :
  16 <= Z.of_nat (length b) -> is_u64 code ->
  exists b', (b ← WriteAt_u32 0 kSentinel b; b ← WriteAt_u32 4 len b; WriteAt_u64 8 code b) = Ret b' /\
    agree (fun i => ~ rng 0 16 i) b b' /\ forall b'', agree (rng 0 16) b' b'' -> has_header b'' code.
Proof.
  intros Hl Hc. destruct (WriteAt_u32_spec 0 kSentinel b) as (b1 & -> & A1 & R1); [lia|lia|]. rewrite ret_bind.
  pose proof (agree_length _ _ _ A1). destruct (WriteAt_u32_spec 4 len b1) as (b2 & -> & A2 & R2); [lia|lia|]. rewrite ret_bind.
  pose proof (agree_length _ _ _ A2). destruct (WriteAt_u64_spec 8 code b2) as (b3 & -> & A3 & R3); [lia|lia|].
  exists b3. split; [done|]. split.
  - eapply agree_step; [eapply (agree_step (fun i => ~ rng 0 8 i)); [exact A1|exact A2|]; unfold rng; lia|exact A3|]. unfold rng. lia.
  - intros b'' Hag. split.
    + apply R1; [|unfold kSentinel; lia]. eapply agree_step; [eapply (agree_step (rng 0 4)); [exact A2|exact A3|]; unfold rng; lia|exact Hag|]. unfold rng. lia.
    + apply R3; [|done]. eapply agree_mono; [|exact Hag]. unfold rng. lia.
Qed.

Lemma ErrorCode_val_u64 c : is_u64 (ErrorCode_val c).
Proof. by destruct c. Qed.

(** Sending the first [n] bytes of [B] makes the receiver agree with [B] on them. *)
Lemma copy_front B (n : Z) bytes b :
  0 <= n -> load_bytes 0 (Z.to_nat n) B = Ret bytes -> length b = length B ->
  Z.of_nat (length bytes) = n /\ exists b', store_bytes 0 bytes b = Ret b' /\ length b' = length b /\ agree (rng 0 n) B b'.
Proof.
  intros Hn HL Hb. unfold load_bytes in HL. case_if_hyp HL; [|done]. injection HL as <-. apply in_bounds_spec in E as [_ E].
  change (Z.to_nat 0) with 0%nat. rewrite drop_0, length_take. rewrite Nat.min_l by lia. split; [lia|].
  destruct (store_spec 0 (take (Z.to_nat n) B) b) as (b' & Hs & Ha & Hr); [lia|rewrite length_take; lia|]. exists b'.
  pose proof (agree_length _ _ _ Ha) as Hl. split_and!; [done|done|]. split; [lia|]. intros i Hi. unfold rng in Hi.
  unfold load_bytes in Hr. case_if_hyp Hr; [|done]. injection Hr as Hr. rewrite length_take, Nat.min_l, drop_0 in Hr by lia.
  apply (f_equal (fun l => l !! i)) in Hr. rewrite !lookup_take_lt in Hr by lia. done.
Qed.

Lemma store_caps_spec l c :
  (length l <= length (cap_buffer_ c))%nat ->
  exists c', store_caps l c = Ret c' /\ length (cap_buffer_ c') = length (cap_buffer_ c) /\ l `prefix_of` cap_buffer_ c'.
Proof.
  intros Hl. unfold store_caps. destruct (store_spec 0 l (cap_buffer_ c)) as (b' & -> & Ha & Hr); [lia|lia|].
  rewrite ret_bind. eexists. split; [done|]. cbn [cap_buffer_]. split; [by rewrite (agree_length _ _ _ Ha)|].
  unfold load_bytes in Hr. case_if_hyp Hr; [|done]. injection Hr as Hr. change (Z.to_nat 0) with 0%nat in Hr. rewrite drop_0 in Hr.
  exists (drop (length l) b'). rewrite <- (take_drop (length l) b') at 1. by rewrite Hr.
Qed.

(** ** One exchange *)

(** A payload of [size] bytes with capabilities [caps]: who receives the bytes
    and has the names [l] for the capabilities knows [G]. *)
Definition payload_at (b : ByteBuffer) (size : Z) (ncaps : nat) (G : ByteBuffer -> CapBuffer -> list Z -> Prop) : Prop :=
  forall b' c' l, agree (rng 16 (16 + size)) b b' -> length l = ncaps -> Forall is_u64 l ->
    length (cap_buffer_ c') = 16%nat -> l `prefix_of` cap_buffer_ c' -> G b' c' l.

Definition buffers_ok (b : ByteBuffer) (c : CapBuffer) : Prop := length b = 0x1000%nat /\ length (cap_buffer_ c) = 0x10%nat.

Definition payload_spec (serialize : option (ByteBuffer -> Z -> CapBuffer -> res (Z * (ByteBuffer * CapBuffer))))
    (size : Z) (caps : list Z) (G : ByteBuffer -> CapBuffer -> list Z -> Prop) : Prop :=
  0 <= size /\ 16 + size <= 0x1000 /\
  match serialize with
  | None => size = 0 /\ caps = [] /\ forall b c, G b c []
  | Some f => forall b c, buffers_ok b c -> used_slots_ c = 0 ->
      exists b' c', f b 16 c = Ret (size, (b', c')) /\ buffers_ok b' c' /\ agree (fun i => ~ rng 16 (16 + size) i) b b' /\
        load_bytes 0 (Z.to_nat (used_slots_ c')) (cap_buffer_ c') = Ret caps /\ payload_at b' size (length caps) G
  end.

Lemma transfers_payload {T} `{YunqMessage T} `{CapMessage T} (m : T) size :
  transfers m size -> 16 + size <= 0x1000 -> (length (msg_caps m) < 16)%nat ->
  payload_spec (Some (serialize_caps m)) size (msg_caps m)
    (fun b c l => ParseFromBytes_caps b 16 c msg_default = Ret (Status_Ok, with_caps l m)).
Proof.
  intros [Hs HT] Hfit Hn. unfold kHeaderSize in Hs. split; [lia|]. split; [lia|]. intros b c [Hb Hc] Hu.
  destruct (HT b 16 c) as (b' & c' & HS & Ha & Hlc & HL & HP); [lia|lia|lia|lia|done|].
  exists b', c'. split; [done|]. pose proof (agree_length _ _ _ Ha). split; [split; lia|]. split_and!; [done|done|].
  intros b2 c2 l Hag Hl Hu64 Hc2 Hpre. apply HP; [done|done|done|lia|done].
Qed.

Section exchange.
Context {K : Type} `{RpcKernel K}.
Implicit Types (k : K) (cl : Client).

Definition client_ok cl : Prop := buffers_ok (cl_buffer_ cl) (cl_cap_buffer_ cl).
Definition server_ok (s : ServerBuffers) : Prop := buffers_ok (recv_buffer s) (recv_cap s) /\ buffers_ok (resp_buffer s) (resp_cap s).

Lemma client_send_spec mth serialize size caps os G cl es k :
  payload_spec serialize size caps G -> is_u64 mth -> (length caps < 16)%nat -> NoDup caps -> client_ok cl ->
  idle (endpoint_ cl) es k -> client_cap k <$> caps = Some <$> os ->
  exists rp cl' k' bytes B, client_send mth serialize cl k = Ret (ErrorCode_val OK, rp, cl', k') /\
    client_ok cl' /\ pending es rp bytes os k' /\
    load_bytes 0 (Z.to_nat (16 + size)) B = Ret bytes /\ length B = 0x1000%nat /\
    (forall b'', agree (rng 0 16) B b'' -> has_header b'' mth) /\ payload_at B size (length caps) G.
Proof.
  intros (Hs0 & Hs1 & HP) Hm Hn Hdup [Hcb Hcc] Hidle Hcaps. unfold client_send.
  destruct (WriteAt_u32_spec 0 kSentinel (cl_buffer_ cl)) as (b1 & -> & A1 & R1); [lia|lia|]. rewrite ret_bind.
  pose proof (agree_length _ _ _ A1). destruct (WriteAt_u64_spec 8 mth b1) as (b2 & -> & A2 & R2); [lia|lia|]. rewrite ret_bind.
  pose proof (agree_length _ _ _ A2).
  assert (exists b3 c3, match serialize with Some f => f b2 16 (CapBuffer_Reset (cl_cap_buffer_ cl)) | None => Ret (0, (b2, CapBuffer_Reset (cl_cap_buffer_ cl))) end
      = Ret (size, (b3, c3)) /\ buffers_ok b3 c3 /\ agree (fun i => ~ rng 16 (16 + size) i) b2 b3 /\
        load_bytes 0 (Z.to_nat (used_slots_ c3)) (cap_buffer_ c3) = Ret caps /\ payload_at b3 size (length caps) G) as (b3 & c3 & -> & [Hb3 Hc3] & A3 & HL & HG).
  { destruct serialize as [f|]; [apply HP; [split; cbn; lia|done]|]. destruct HP as (-> & -> & HG). do 2 eexists. split; [done|].
    split; [split; cbn; lia|]. split; [done|]. split; [by unfold load_bytes; rewrite (proj2 (in_bounds_spec _ _ _)) by (cbn; lia)|].
    intros b' c' l _ Hl _ _ _. apply nil_length_inv in Hl as ->. apply HG. }
  rewrite ret_bind, !(u64_small (16 + size)) by lia.
  destruct (WriteAt_u32_spec 4 (u32 (16 + size)) b3) as (B & -> & A4 & _); [lia|lia|]. rewrite ret_bind.
  pose proof (agree_length _ _ _ A4).
  destruct (load_bytes 0 (Z.to_nat (16 + size)) B) as [bytes| | |] eqn:EB.
  2-4: unfold load_bytes in EB; rewrite (proj2 (in_bounds_spec _ _ _)) in EB by lia; done.
  destruct (copy_front B (16 + size) bytes B ltac:(lia) EB eq_refl) as [Hlb _].
  rewrite ret_bind, HL, ret_bind. destruct (send_law _ _ bytes caps os k Hidle ltac:(lia) ltac:(lia) Hdup Hcaps) as (rp & k' & -> & Hpend). rewrite ret_bind.
  eexists rp, _, k', bytes, B. split; [done|]. split; [split; cbn; lia|]. split_and!; [done|done|lia| |].
  - intros b'' Hag. split.
    + apply R1; [|unfold kSentinel; lia]. eapply agree_step; [eapply (agree_step (rng 0 4)); [exact A2|exact A3|]; unfold rng; lia| |].
      * eapply (agree_step (rng 0 4)); [exact A4|exact Hag|]. unfold rng. lia.
      * unfold rng. lia.
    + apply R2; [|done]. eapply agree_step; [exact A3| |]; [eapply (agree_step (rng 8 16)); [exact A4|exact Hag|]; unfold rng; lia|]. unfold rng. lia.
  - intros b' c' l Hag. apply HG. eapply agree_step; [exact A4|exact Hag|]. unfold rng. lia.
Qed.

(** A method of the server: on a request it can parse it answers, keeps the reply port, and on success leaves a payload. *)
Definition case_spec (run : method_case) (os : list Obj) (G : ByteBuffer -> CapBuffer -> list Z -> Prop)
    (GR : Status -> list Obj -> ByteBuffer -> CapBuffer -> list Z -> Prop) : Prop :=
  forall rb rc pb pc l rp srp k, G rb rc l -> server_cap k <$> l = Some <$> os -> awaiting rp srp k -> buffers_ok pb pc -> used_slots_ pc = 0 ->
  exists st len pb' pc' k', run rb rc pb pc k = Ret (st, len, pb', pc', k') /\ awaiting rp srp k' /\ buffers_ok pb' pc' /\
    if Status_ok st then exists caps ros, 0 <= len /\ 16 + len <= 0x1000 /\ (length caps < 16)%nat /\
        load_bytes 0 (Z.to_nat (used_slots_ pc')) (cap_buffer_ pc') = Ret caps /\ NoDup caps /\ server_cap k' <$> caps = Some <$> ros /\
        payload_at pb' len (length caps) (GR st ros)
    else GR st [] [] (CapBuffer_new 0) [].

Lemma ServerTurn_spec mth es select run size os G GR s k rp bytes B n :
  select mth = Some run -> case_spec run os G GR ->
  0 <= size -> 16 + size <= 0x1000 -> (n < 16)%nat -> length os = n -> server_ok s ->
  pending es rp bytes os k -> load_bytes 0 (Z.to_nat (16 + size)) B = Ret bytes -> length B = 0x1000%nat ->
  (forall b'', agree (rng 0 16) B b'' -> has_header b'' mth) -> payload_at B size n G ->
  exists st s' k' rbytes RB rcaps ros len, ServerTurn es (HandleRequest select) s k = Ret (s', k') /\ server_ok s' /\
    answered rp rbytes ros k' /\ 0 <= len /\ 16 + len <= 0x1000 /\ (rcaps < 16)%nat /\ length ros = rcaps /\
    load_bytes 0 (Z.to_nat (16 + len)) RB = Ret rbytes /\ length RB = 0x1000%nat /\
    (forall b'', agree (rng 0 16) RB b'' -> has_header b'' (ErrorCode_val (code_ st))) /\
    if Status_ok st then payload_at RB len rcaps (GR st ros) else GR st [] [] (CapBuffer_new 0) [].
Proof.
  intros Hsel Hcase Hs0 Hs1 Hn Hos [[Hrb Hrc] [Hpb Hpc]] Hpend HB HlB Hhdr HG. unfold ServerTurn.
  destruct (copy_front B (16 + size) bytes (recv_buffer s)) as (Hbl & rb & Hst & Hlrb & Hag); [lia|done|lia|].
  destruct (recv_law es rp bytes os k 0x1000 0x10 Hpend) as (caps & srp & k1 & -> & Hcaps & Hu64 & Haw); [lia|lia|].
  rewrite ret_bind. cbn [negb Z.eqb ErrorCode_val]. rewrite Hst, ret_bind.
  assert (length caps = n) as Hlcaps by (apply (f_equal length) in Hcaps; rewrite !length_fmap in Hcaps; lia).
  destruct (store_caps_spec caps (CapBuffer_Reset (recv_cap s))) as (rc & -> & Hlrc & Hpre); [cbn; lia|]. rewrite ret_bind.
  cbn [CapBuffer_Reset cap_buffer_] in Hlrc.
  assert (has_header rb mth) as [Hh1 Hh2] by (apply Hhdr; eapply agree_mono; [|exact Hag]; unfold rng; lia).
  unfold HandleRequest. rewrite Hh1, ret_bind, Z.eqb_refl. cbn [negb]. rewrite Hh2, ret_bind, Hsel.
  destruct (Hcase rb rc (resp_buffer s) (CapBuffer_Reset (resp_cap s)) caps rp srp k1) as (st & len & pb & pc & k2 & -> & Haw2 & [Hpb2 Hpc2] & Hres);
    [|done|done|split; cbn; lia|done|].
  { apply HG; [eapply agree_mono; [|exact Hag]; unfold rng; lia|done|done|lia|done]. }
  rewrite ret_bind. destruct (Status_ok st) eqn:Est; cbn [negb].
  - destruct Hres as (rcaps & ros & Hl0 & Hl1 & Hrn & HL & Hdup & Hrcaps & HPay). unfold WriteReplyHeader.
    destruct (write_header_spec pb (u32 (kRpcHeaderSize + len)) (ErrorCode_val OK)) as (RB & -> & AR & HR); [lia|apply ErrorCode_val_u64|].
    rewrite ret_bind. pose proof (agree_length _ _ _ AR). unfold kRpcHeaderSize. rewrite (u64_small (16 + len)) by lia.
    destruct (load_bytes 0 (Z.to_nat (16 + len)) RB) as [rbytes| | |] eqn:ERB.
    2-4: unfold load_bytes in ERB; rewrite (proj2 (in_bounds_spec _ _ _)) in ERB by lia; done.
    destruct (copy_front RB (16 + len) rbytes RB ltac:(lia) ERB eq_refl) as [Hlrb' _].
    rewrite ret_bind, HL, ret_bind. destruct (reply_send_law rp srp rbytes rcaps ros k2 Haw2 ltac:(lia) ltac:(lia) Hdup Hrcaps) as (k3 & -> & Hans). rewrite ret_bind.
    assert (code_ st = OK) as Hcode by (unfold Status_ok in Est; by apply bool_decide_eq_true in Est).
    eexists st, _, k3, rbytes, RB, (length rcaps), ros, len. rewrite Est, Hcode. split; [done|].
    split; [split; split; cbn; lia|]. split_and!; [done|done|done|done| |done|lia|done|].
    + apply (f_equal length) in Hrcaps. rewrite !length_fmap in Hrcaps. done.
    + intros b' c' l' Hag'. apply HPay. eapply agree_step; [exact AR|exact Hag'|]. unfold rng. lia.
  - unfold WriteError. destruct (write_header_spec pb kRpcHeaderSize (ErrorCode_val (code_ st))) as (RB & -> & AR & HR); [lia|apply ErrorCode_val_u64|].
    rewrite ret_bind. pose proof (agree_length _ _ _ AR).
    destruct (load_bytes 0 (Z.to_nat kRpcHeaderSize) RB) as [rbytes| | |] eqn:ERB.
    2-4: unfold load_bytes, kRpcHeaderSize in ERB; rewrite (proj2 (in_bounds_spec _ _ _)) in ERB by lia; done.
    destruct (copy_front RB kRpcHeaderSize rbytes RB ltac:(done) ERB eq_refl) as [Hlrb' _]. unfold kRpcHeaderSize in Hlrb'.
    rewrite ret_bind. destruct (reply_send_law rp srp rbytes [] [] k2 Haw2 ltac:(lia) ltac:(cbn; lia) NoDup_nil_2 eq_refl) as (k3 & -> & Hans). rewrite ret_bind.
    eexists st, _, k3, rbytes, RB, 0%nat, [], 0. rewrite Est. split; [done|].
    split; [split; split; cbn; lia|]. split_and!; try done; lia.
Qed.

Lemma client_recv_spec {Rsp} parse cl (rsp : Rsp) k rp rbytes ros RB len rcaps code :
  answered rp rbytes ros k -> client_ok cl -> 0 <= len -> 16 + len <= 0x1000 -> (rcaps < 16)%nat -> length ros = rcaps ->
  load_bytes 0 (Z.to_nat (16 + len)) RB = Ret rbytes -> length RB = 0x1000%nat ->
  (forall b'', agree (rng 0 16) RB b'' -> has_header b'' code) ->
  exists b c l k', client_cap k' <$> l = Some <$> ros /\ length l = rcaps /\ Forall is_u64 l /\ agree (rng 16 (16 + len)) RB b /\
    length (cap_buffer_ c) = 16%nat /\ l `prefix_of` cap_buffer_ c /\ buffers_ok b c /\
    client_recv rp parse cl rsp k =
      if negb (code =? ErrorCode_val OK) then Ret (mkRpc code "", rsp, mkClient (endpoint_ cl) b c, k') else
      match parse with
      | None => Ret (Rpc_Ok, rsp, mkClient (endpoint_ cl) b c, k')
      | Some f => '(st, rsp) ← f b 16 c rsp;
          if negb (Status_ok st) then Ret (rpc_of st, rsp, mkClient (endpoint_ cl) b c, k') else Ret (Rpc_Ok, rsp, mkClient (endpoint_ cl) b c, k')
      end.
Proof.
  intros Hans [Hcb Hcc] Hl0 Hl1 Hrn Hros HRB HlRB Hhdr. unfold client_recv.
  destruct (copy_front RB (16 + len) rbytes (cl_buffer_ cl)) as (Hbl & b & Hst & Hlb & Hag); [lia|done|lia|].
  destruct (reply_recv_law rp rbytes ros k kBufferSize kCapBufferSize Hans) as (l & k' & -> & Hcaps & Hu64); [unfold kBufferSize; lia|unfold kCapBufferSize; lia|].
  rewrite ret_bind. cbn [negb Z.eqb ErrorCode_val]. rewrite Hst, ret_bind.
  assert (length l = rcaps) as Hll by (apply (f_equal length) in Hcaps; rewrite !length_fmap in Hcaps; lia).
  destruct (store_caps_spec l (cl_cap_buffer_ cl)) as (c & -> & Hlc & Hpre); [lia|]. rewrite ret_bind.
  assert (has_header b code) as [Hh1 Hh2] by (apply Hhdr; eapply agree_mono; [|exact Hag]; unfold rng; lia).
  rewrite Hh1, ret_bind, Z.eqb_refl. cbn [negb]. rewrite Hh2, ret_bind. exists b, c, l, k'.
  split_and!; [done|done|done| |lia|done|split; lia|done]. eapply agree_mono; [|exact Hag]. unfold rng. lia.
Qed.

(** A client call during which the server takes its turn: the client blocks in [ZReplyPortRecv]. *)
Definition rpc_exchange {Rsp} (mth : Z) (serialize : option (ByteBuffer -> Z -> CapBuffer -> res (Z * (ByteBuffer * CapBuffer))))
    (parse : option (ByteBuffer -> Z -> CapBuffer -> Rsp -> res (Status * Rsp))) (es : Z) (handle_request : method_case)
    cl (s : ServerBuffers) (response : Rsp) k : res (RpcStatus * Rsp * Client * ServerBuffers * K) :=
  '(err, rp, cl, k) ← client_send mth serialize cl k;
  if negb (err =? ErrorCode_val OK) then Ret (mkRpc err "", response, cl, s, k) else
  '(s, k) ← ServerTurn es handle_request s k;
  '(st, response, cl, k) ← client_recv rp parse cl response k;
  Ret (st, response, cl, s, k).

Lemma exchange_spec {Rsp} mth serialize parse es select run size caps os G GR cl s (rsp : Rsp) k :
  payload_spec serialize size caps G -> is_u64 mth -> (length caps < 16)%nat -> NoDup caps -> client_ok cl -> server_ok s ->
  idle (endpoint_ cl) es k -> client_cap k <$> caps = Some <$> os ->
  select mth = Some run -> case_spec run os G GR ->
  exists st s' k' b c b' c' l ros, GR st ros b' c' l /\ (Status_ok st = true -> b' = b /\ c' = c /\ client_cap k' <$> l = Some <$> ros) /\
    server_ok s' /\ buffers_ok b c /\
    rpc_exchange mth serialize parse es (HandleRequest select) cl s rsp k =
      let cl' := mkClient (endpoint_ cl) b c in
      if negb (Status_ok st) then Ret (mkRpc (ErrorCode_val (code_ st)) "", rsp, cl', s', k') else
      match parse with
      | None => Ret (Rpc_Ok, rsp, cl', s', k')
      | Some f => '(st, rsp) ← f b 16 c rsp;
          if negb (Status_ok st) then Ret (rpc_of st, rsp, cl', s', k') else Ret (Rpc_Ok, rsp, cl', s', k')
      end.
Proof.
  intros HP Hm Hn Hdup Hcl Hs Hidle Hcaps Hsel Hcase. unfold rpc_exchange.
  destruct (client_send_spec _ _ _ _ _ _ _ _ _ HP Hm Hn Hdup Hcl Hidle Hcaps) as (rp & cl1 & k1 & bytes & B & Hsend & Hcl1 & Hpend & HB & HlB & Hhdr & HG).
  assert (endpoint_ cl1 = endpoint_ cl) as Hep.
  { unfold client_send in Hsend. res_inv. done. }
  rewrite Hsend, ret_bind. cbn [negb Z.eqb ErrorCode_val]. destruct HP as (Hs0 & Hs1 & _).
  destruct (ServerTurn_spec mth es select run size os G GR s k1 rp bytes B (length caps)) as
    (st & s' & k2 & rbytes & RB & rcaps & ros & len & -> & Hs' & Hans & Hl0 & Hl1 & Hrn & Hros & HRB & HlRB & Hrh & Hres); try done.
  { apply (f_equal length) in Hcaps. rewrite !length_fmap in Hcaps. done. }
  rewrite ret_bind. destruct (client_recv_spec parse cl1 rsp k2 rp rbytes ros RB len rcaps (ErrorCode_val (code_ st)))
    as (b & c & l & k' & Hl & Hll & Hu & Hag & Hlc & Hpre & Hbc & ->); try done.
  exists st, s', k', b, c, (if Status_ok st then b else []), (if Status_ok st then c else CapBuffer_new 0),
    (if Status_ok st then l else []), (if Status_ok st then ros else []). rewrite Hep. assert (Status_ok st = (ErrorCode_val (code_ st) =? ErrorCode_val OK)) as Hok.
  { unfold Status_ok. destruct (code_ st); done. }
  split; [|split; [|split; [done|split; [done|]]]].
  - destruct (Status_ok st); [|done]. by apply Hres.
  - by destruct (Status_ok st).
  - cbn zeta. rewrite <- Hok. destruct (Status_ok st); cbn [negb]; [|done]. destruct parse as [f|]; [|done].
    destruct (f b 16 c rsp) as [[st2 rsp2]| | |]; [|done..]. rewrite !ret_bind. by destruct (negb (Status_ok st2)).
Qed.
End exchange.

(** ** Transparency

    What a client sees of a call is what the handler did: it ran once, on the
    request with names for the same kernel objects, and its status code and
    (on success) its response come back, again with names for the same
    objects.  Stated for the three shapes of method. *)
Section transparency.
Context {K : Type} `{RpcKernel K}.

Definition sendable {T} `{YunqMessage T} `{CapMessage T} (m : T) (cap_of : Z -> option Obj) : Prop :=
  (exists size, transfers m size /\ 16 + size <= 0x1000) /\ ((length (msg_caps m) < 16)%nat /\ NoDup (msg_caps m)) /\
  exists os, cap_of <$> msg_caps m = Some <$> os.

Definition exchange_ready (cl : Client) (s : ServerBuffers) (es : Z) (k : K) : Prop :=
  client_ok cl /\ server_ok s /\ idle (endpoint_ cl) es k.

(** A method with a request and a response. *)
Definition transparent {Req Rsp} `{YunqMessage Req} `{CapMessage Req} `{YunqMessage Rsp} `{CapMessage Rsp}
    (mth : Z) (select : Z -> option (@method_case K)) (handle : Req -> Rsp -> K -> res (Status * Rsp * K)) : Prop :=
  (forall req k rp srp, awaiting rp srp k -> exists st rsp k', handle req msg_default k = Ret (st, rsp, k') /\
     awaiting rp srp k' /\ (Status_ok st = true -> sendable rsp (server_cap k'))) ->
  forall cl s es k req, exchange_ready cl s es k -> sendable req (client_cap k) ->
  exists code msg rsp cl' s' k' l k1 hst hrsp k2,
    rpc_exchange mth (Some (serialize_caps req)) (Some ParseFromBytes_caps) es (HandleRequest select) cl s msg_default k = Ret (mkRpc code msg, rsp, cl', s', k') /\
    client_ok cl' /\ server_ok s' /\
    handle (with_caps l req) msg_default k1 = Ret (hst, hrsp, k2) /\ server_cap k1 <$> l = client_cap k <$> msg_caps req /\
    code = ErrorCode_val (code_ hst) /\
    if Status_ok hst then exists l', rsp = with_caps l' hrsp /\ client_cap k' <$> l' = server_cap k2 <$> msg_caps hrsp
    else rsp = msg_default.

(** A method without a response. *)
Definition transparent_request {Req} `{YunqMessage Req} `{CapMessage Req}
    (mth : Z) (select : Z -> option (@method_case K)) (handle : Req -> K -> res (Status * K)) : Prop :=
  (forall req k rp srp, awaiting rp srp k -> exists st k', handle req k = Ret (st, k') /\ awaiting rp srp k') ->
  forall cl s es k req, exchange_ready cl s es k -> sendable req (client_cap k) ->
  exists code msg cl' s' k' l k1 hst k2,
    rpc_exchange mth (Some (serialize_caps req)) None es (HandleRequest select) cl s tt k = Ret (mkRpc code msg, tt, cl', s', k') /\
    client_ok cl' /\ server_ok s' /\
    handle (with_caps l req) k1 = Ret (hst, k2) /\ server_cap k1 <$> l = client_cap k <$> msg_caps req /\
    code = ErrorCode_val (code_ hst).

(** A method without a request. *)
Definition transparent_response {Rsp} `{YunqMessage Rsp} `{CapMessage Rsp}
    (mth : Z) (select : Z -> option (@method_case K)) (handle : Rsp -> K -> res (Status * Rsp * K)) : Prop :=
  (forall k rp srp, awaiting rp srp k -> exists st rsp k', handle msg_default k = Ret (st, rsp, k') /\
     awaiting rp srp k' /\ (Status_ok st = true -> sendable rsp (server_cap k'))) ->
  forall cl s es k, exchange_ready cl s es k ->
  exists code msg rsp cl' s' k' k1 hst hrsp k2,
    rpc_exchange mth None (Some ParseFromBytes_caps) es (HandleRequest select) cl s msg_default k = Ret (mkRpc code msg, rsp, cl', s', k') /\
    client_ok cl' /\ server_ok s' /\
    handle msg_default k1 = Ret (hst, hrsp, k2) /\ code = ErrorCode_val (code_ hst) /\
    if Status_ok hst then exists l', rsp = with_caps l' hrsp /\ client_cap k' <$> l' = server_cap k2 <$> msg_caps hrsp
    else rsp = msg_default.

(** The response part of a method: serialising what the handler left. *)
Lemma response_payload {Rsp} `{YunqMessage Rsp} `{CapMessage Rsp} (rsp : Rsp) (k : K) pb pc :
  sendable rsp (server_cap k) -> buffers_ok pb pc -> used_slots_ pc = 0 ->
  exists len pb' pc' caps ros, serialize_caps rsp pb 16 pc = Ret (len, (pb', pc')) /\ buffers_ok pb' pc' /\
    0 <= len /\ 16 + len <= 0x1000 /\ (length caps < 16)%nat /\
    load_bytes 0 (Z.to_nat (used_slots_ pc')) (cap_buffer_ pc') = Ret caps /\ NoDup caps /\ server_cap k <$> caps = Some <$> ros /\
    payload_at pb' len (length caps) (fun b c l =>
      server_cap k <$> msg_caps rsp = Some <$> ros /\ ParseFromBytes_caps b 16 c msg_default = Ret (Status_Ok, with_caps l rsp)).
Proof.
  intros ((size & Ht & Hfit) & (Hn & Hdup) & ros & Hros) Hb Hu.
  destruct (transfers_payload _ _ Ht Hfit Hn) as (Hz & _ & HP). destruct (HP pb pc Hb Hu) as (pb' & pc' & HS & Hb' & _ & HL & Hpay).
  exists size, pb', pc', (msg_caps rsp), ros. split_and!; try done. intros b c l Hag Hl Hu64 Hc Hpre. split; [done|]. by apply Hpay.
Qed.

Lemma Status_ok_code st st' : code_ st = code_ st' -> Status_ok st = Status_ok st'.
Proof. unfold Status_ok. by intros ->. Qed.

(** The last part of a client call: the parser reads the response back. *)
Lemma exchange_result {Rsp} `{YunqMessage Rsp} `{CapMessage Rsp} (hst st : Status) (hrsp : Rsp) (b : ByteBuffer) (c : CapBuffer) l' :
  code_ hst = code_ st -> (Status_ok st = true -> ParseFromBytes_caps b 16 c msg_default = Ret (Status_Ok, with_caps l' hrsp)) ->
  forall (cl : Client) (s : ServerBuffers) (k : K),
  (if negb (Status_ok st) then Ret (mkRpc (ErrorCode_val (code_ st)) "", msg_default, cl, s, k) else
   '(st', rsp) ← ParseFromBytes_caps b 16 c msg_default;
   if negb (Status_ok st') then Ret (rpc_of st', rsp, cl, s, k) else Ret (Rpc_Ok, rsp, cl, s, k)) =
  Ret (mkRpc (ErrorCode_val (code_ hst)) "", if Status_ok hst then with_caps l' hrsp else msg_default, cl, s, k).
Proof.
  intros Hc Hp cl s k. rewrite (Status_ok_code hst st Hc), Hc. destruct (Status_ok st) eqn:Est; cbn [negb]; [|done].
  rewrite (Hp eq_refl), ret_bind. assert (code_ st = OK) as -> by (by apply bool_decide_eq_true in Est). done.
Qed.

Lemma case_request_response_transparent {Req Rsp} `{YunqMessage Req} `{CapMessage Req} `{YunqMessage Rsp} `{CapMessage Rsp}
    mth select (handle : Req -> Rsp -> K -> res (Status * Rsp * K)) :
  is_u64 mth -> select mth = Some (case_request_response handle) -> transparent mth select handle.
Proof.
  intros Hm Hsel Hh cl s es k req (Hcl & Hs & Hidle) ((size & Ht & Hfit) & (Hn & Hdup) & os & Hos).
  set (GR := fun st ros b c l' => exists l k1 k2 hst (hrsp : Rsp), handle (with_caps l req) msg_default k1 = Ret (hst, hrsp, k2) /\
    server_cap k1 <$> l = Some <$> os /\ code_ hst = code_ st /\ (Status_ok st = true -> server_cap k2 <$> msg_caps hrsp = Some <$> ros /\
      ParseFromBytes_caps b 16 c msg_default = Ret (Status_Ok, with_caps l' hrsp))).
  destruct (exchange_spec mth (Some (serialize_caps req)) (Some ParseFromBytes_caps) es select (case_request_response handle) size (msg_caps req) os _ GR
    cl s msg_default k (transfers_payload _ _ Ht Hfit Hn) Hm Hn Hdup Hcl Hs Hidle Hos Hsel) as
    (st & s' & k' & b & c & b' & c' & l' & ros & HG & Heq & Hs' & Hbc & Hex).
  { intros rb rc pb pc l rp srp k0 HP Hl Haw Hb Hu. unfold case_request_response. change kRpcHeaderSize with 16. rewrite HP, ret_bind.
    change (Status_ok Status_Ok) with true. cbn [negb]. destruct (Hh (with_caps l req) k0 rp srp Haw) as (st & rsp & k1 & Hr & Haw1 & Hsend).
    rewrite Hr, ret_bind. destruct (Status_ok st) eqn:Est; cbn [negb].
    - destruct (response_payload rsp k1 pb pc (Hsend eq_refl) Hb Hu) as (len & pb' & pc' & caps & ros & -> & Hb' & Hl0 & Hl1 & Hcn & HL & Hdc & Hros & HPay).
      rewrite ret_bind. do 5 eexists. split; [done|]. split; [done|]. split; [done|]. change (Status_ok Status_Ok) with true. cbn match.
      exists caps, ros. split_and!; try done. intros b2 c2 l2 Hag2 Hl2 Hu2 Hc2 Hp2.
      exists l, k0, k1, st, rsp. split_and!; [done|done|by apply bool_decide_eq_true in Est|]. intros _. by apply HPay.
    - do 5 eexists. split; [done|]. split; [done|]. split; [done|]. rewrite Est. exists l, k0, k1, st, rsp. by rewrite Est. }
  destruct HG as (l & k1 & k2 & hst & hrsp & Hr & Hl & Hcode & Hok).
  rewrite Hex. cbn zeta. rewrite (exchange_result hst st hrsp b c l' Hcode).
  2: { intros Est. destruct (Heq Est) as (<- & <- & _). by apply Hok. }
  do 6 eexists. exists l, k1, hst, hrsp, k2. rewrite (Status_ok_code hst st Hcode).
  split; [reflexivity|]. split_and!; [exact Hbc|exact Hs'|exact Hr|by rewrite Hl, Hos|done|].
  destruct (Status_ok st) eqn:Est; [|done]. destruct (Heq eq_refl) as (_ & _ & Hcl'). exists l'. split; [done|].
  rewrite Hcl'. symmetry. by apply Hok.
Qed.

Lemma case_request_transparent {Req} `{YunqMessage Req} `{CapMessage Req} mth select (handle : Req -> K -> res (Status * K)) :
  is_u64 mth -> select mth = Some (case_request handle) -> transparent_request mth select handle.
Proof.
  intros Hm Hsel Hh cl s es k req (Hcl & Hs & Hidle) ((size & Ht & Hfit) & (Hn & Hdup) & os & Hos).
  set (GR := fun st (ros : list Obj) (b : ByteBuffer) (c : CapBuffer) (l' : list Z) => exists l k1 k2 hst, handle (with_caps l req) k1 = Ret (hst, k2) /\
    server_cap k1 <$> l = Some <$> os /\ code_ hst = code_ st).
  destruct (exchange_spec mth (Some (serialize_caps req)) None es select (case_request handle) size (msg_caps req) os _ GR
    cl s tt k (transfers_payload _ _ Ht Hfit Hn) Hm Hn Hdup Hcl Hs Hidle Hos Hsel) as
    (st & s' & k' & b & c & b' & c' & l' & ros & (l & k1 & k2 & hst & Hr & Hl & Hcode) & Heq & Hs' & Hbc & Hex).
  { intros rb rc pb pc l rp srp k0 HP Hl Haw Hb Hu. unfold case_request. change kRpcHeaderSize with 16. rewrite HP, ret_bind.
    change (Status_ok Status_Ok) with true. cbn [negb]. destruct (Hh (with_caps l req) k0 rp srp Haw) as (st & k1 & Hr & Haw1).
    rewrite Hr, ret_bind. destruct (Status_ok st) eqn:Est; cbn [negb].
    - do 5 eexists. split; [done|]. split; [done|]. split; [done|]. change (Status_ok Status_Ok) with true. cbn match. exists [], [].
      split_and!; [done|done|cbn; lia|rewrite Hu; unfold load_bytes; by rewrite (proj2 (in_bounds_spec _ _ _)) by (cbn; lia)|constructor|done|].
      intros b2 c2 l2 _ _ _ _ _. exists l, k0, k1, st. split_and!; [done|done|by apply bool_decide_eq_true in Est].
    - do 5 eexists. split; [done|]. split; [done|]. split; [done|]. rewrite Est. by exists l, k0, k1, st. }
  assert (rpc_exchange mth (Some (serialize_caps req)) None es (HandleRequest select) cl s tt k =
    Ret (mkRpc (ErrorCode_val (code_ hst)) "", tt, mkClient (endpoint_ cl) b c, s', k')) as ->.
  { rewrite Hex, Hcode. cbn zeta. destruct (Status_ok st) eqn:Est; cbn [negb]; [|done].
    assert (code_ st = OK) as -> by (by apply bool_decide_eq_true in Est). done. }
  do 5 eexists. exists l, k1, hst, k2. split; [reflexivity|]. split_and!; [exact Hbc|exact Hs'|exact Hr|by rewrite Hl, Hos|done].
Qed.

Lemma case_response_transparent {Rsp} `{YunqMessage Rsp} `{CapMessage Rsp} mth select (handle : Rsp -> K -> res (Status * Rsp * K)) :
  is_u64 mth -> select mth = Some (case_response handle) -> transparent_response mth select handle.
Proof.
  intros Hm Hsel Hh cl s es k (Hcl & Hs & Hidle).
  set (GR := fun st ros b c l' => exists k1 k2 hst (hrsp : Rsp), handle msg_default k1 = Ret (hst, hrsp, k2) /\ code_ hst = code_ st /\
    (Status_ok st = true -> server_cap k2 <$> msg_caps hrsp = Some <$> ros /\ ParseFromBytes_caps b 16 c msg_default = Ret (Status_Ok, with_caps l' hrsp))).
  destruct (exchange_spec mth None (Some ParseFromBytes_caps) es select (case_response handle) 0 [] [] (fun _ _ _ => True) GR
    cl s msg_default k) as (st & s' & k' & b & c & b' & c' & l' & ros & (k1 & k2 & hst & hrsp & Hr & Hcode & Hok) & Heq & Hs' & Hbc & Hex);
    [by split_and!|done|cbn; lia|constructor|done|done|done|done|done| |].
  { intros rb rc pb pc l rp srp k0 _ _ Haw Hb Hu. unfold case_response. change kRpcHeaderSize with 16.
    destruct (Hh k0 rp srp Haw) as (st & rsp & k1 & Hr & Haw1 & Hsend). rewrite Hr, ret_bind. destruct (Status_ok st) eqn:Est; cbn [negb].
    - destruct (response_payload rsp k1 pb pc (Hsend eq_refl) Hb Hu) as (len & pb' & pc' & caps & ros & -> & Hb' & Hl0 & Hl1 & Hcn & HL & Hdc & Hros & HPay).
      rewrite ret_bind. do 5 eexists. split; [done|]. split; [done|]. split; [done|]. change (Status_ok Status_Ok) with true. cbn match.
      exists caps, ros. split_and!; try done. intros b2 c2 l2 Hag2 Hl2 Hu2 Hc2 Hp2.
      exists k0, k1, st, rsp. split_and!; [done|by apply bool_decide_eq_true in Est|]. intros _. by apply HPay.
    - do 5 eexists. split; [done|]. split; [done|]. split; [done|]. rewrite Est. exists k0, k1, st, rsp. by rewrite Est. }
  rewrite Hex. cbn zeta. rewrite (exchange_result hst st hrsp b c l' Hcode).
  2: { intros Est. destruct (Heq Est) as (<- & <- & _). by apply Hok. }
  do 6 eexists. exists k1, hst, hrsp, k2. rewrite (Status_ok_code hst st Hcode).
  split; [reflexivity|]. split_and!; [exact Hbc|exact Hs'|exact Hr|done|].
  destruct (Status_ok st) eqn:Est; [|done]. destruct (Heq eq_refl) as (_ & _ & Hcl'). exists l'. split; [done|].
  rewrite Hcl'. symmetry. by apply Hok.
Qed.
End transparency.
