(* ===== verification/ZionRpc.v ===== *)
(** * The kernel under the generated stubs (zion/syscall/ipc.cpp, zion/scheduler/scheduler.cpp)

    The class [RpcKernel] of Rpc.v, discharged for the kernel of Ipc.v: the
    system calls of a client thread and of a server thread of two processes
    that share an endpoint.  Before a call, timer ticks come until the thread
    that makes it has the processor ([tick_until]); the calls are those of
    Ipc.v, each run to its end. *)

From Stdlib Require Import ZArith Lia.
From stdpp Require Import base tactics numbers list strings gmap.
From S2P Require Import Prelude Status Buffer Yunq Rpc Capability Sched Ipc.

(** ** Getting the processor *)

(** A thread, not the idle one, that runs or waits to run. *)
Definition ready (s : sched) (t : positive) : Prop := t <> sleep_thread_ s /\ (t = current_thread_ s \/ t ∈ runnable_threads_ s).

(** Timer ticks until thread [t] runs, at most [n]. *)
Fixpoint tick_until (t : positive) (n : nat) (s : sched) : res sched :=
  if decide (current_thread_ s = t) then Ret s else
  match n with
  | O => NoFuel
  | S n' => s ← Preempt s; tick_until t n' s
  end.

Lemma SetState_keeps t x s s' :
  SetState t x s = Ret s' -> current_thread_ s' = current_thread_ s /\ runnable_threads_ s' = runnable_threads_ s /\ sleep_thread_ s' = sleep_thread_ s.
Proof. unfold SetState. intros (y & _ & H)%bind_Ret. case_if_hyp H; [done|]. by injection H as <-. Qed.

Lemma wake_sleepers_keeps l : forall s kept s', wake_sleepers l s = Ret (kept, s') -> current_thread_ s' = current_thread_ s /\ sleep_thread_ s' = sleep_thread_ s.
Proof.
  induction l as [|t l IH]; intros s kept s'; cbn [wake_sleepers]; [by intros [= _ <-]|]. intros (x & _ & H)%bind_Ret. case_if_hyp H.
  - apply bind_Ret in H as (s1 & H1 & H2). destruct (SetState_keeps _ _ _ _ H1) as (E1 & _ & E3). destruct (IH _ _ _ H2) as [E4 E5]. cbn in *. split; congruence.
  - apply bind_Ret in H as ([kept' s1] & H1 & [= _ <-]). by destruct (IH _ _ _ H1) as [-> ->].
Qed.

(** A tick: the first thread that waits to run runs, the others move up, and the one that ran is queued. *)
Lemma Preempt_moves s a l :
  sched_inv s -> runnable_threads_ s = a :: l ->
  exists s', Preempt s = Ret s' /\ sched_inv s' /\ current_thread_ s' = a /\ sleep_thread_ s' = sleep_thread_ s /\
    exists woken, runnable_threads_ s' = l ++ woken ++ [current_thread_ s].
Proof.
  intros Hinv Hrun. destruct (Preempt_spec s Hinv) as (s' & HP & Hinv'). exists s'. split; [done|]. split; [done|].
  destruct Hinv as [Hq _]. unfold Preempt in HP. rewrite (qo_enabled _ Hq) in HP. cbn [negb] in HP. unfold DecrementSleepingThreads in HP.
  destruct (wake_sleepers_spec (sleeping_threads_ s) s) as (kept & s1 & HW & H1 & _ & _ & _ & _ & H6).
  { destruct Hq as [? ? ? ? ? ? ?]. split; try done. split; [constructor|]. by intros t ?%elem_of_nil. }
  { apply Hq. } { apply Hq. }
  destruct (wake_sleepers_runnable _ _ _ _ HW) as [woken Hwk]. destruct (wake_sleepers_keeps _ _ _ _ HW) as [Hc Hsl]. rewrite HW, !ret_bind in HP.
  rewrite Hrun in Hwk. set (s2 := with_sleeping kept s1) in HP.
  assert (forall t, t ∈ runnable_threads_ s1 -> st s1 t = Some RUNNABLE) as Halive by (apply (qo_run _ H1)).
  change (runnable_threads_ s2) with (runnable_threads_ s1) in HP. change (threads s2) with (threads s1) in HP. rewrite (clear_dead_alive s1) in HP by done. rewrite Hwk in HP. cbn [app] in HP.
  rewrite ret_bind in HP. change (current_thread_ (with_runnable _ s2)) with (current_thread_ s1) in HP. rewrite Hc in HP.
  apply bind_Ret in HP as (s3 & H3 & HP). destruct (SetState_keeps _ _ _ _ H3) as (_ & _ & E3). unfold SwapToCurrent in HP. apply bind_Ret in HP as (x & _ & HP). case_if_hyp HP; [done|].
  apply SetState_keeps in HP as (E4 & E5 & E6). rewrite E4, E5, E6. cbn. rewrite E3. split; [done|]. split; [exact Hsl|]. exists woken.
  exact (eq_sym (app_assoc l woken [current_thread_ s])).
Qed.

Lemma tick_until_spec t n : forall s,
  sched_inv s -> t <> sleep_thread_ s -> t = current_thread_ s \/ (exists i, (i < n)%nat /\ runnable_threads_ s !! i = Some t) ->
  exists s', tick_until t n s = Ret s' /\ sched_inv s' /\ current_thread_ s' = t /\ sleep_thread_ s' = sleep_thread_ s /\ locks s' = locks s /\ forall t', ready s t' -> ready s' t'.
Proof.
  induction n as [|n IH]; intros s Hs Hsl Hin; cbn [tick_until]; (destruct (decide (current_thread_ s = t)) as [Hc|Hc]; [exists s; by split_and!|]);
    (destruct Hin as [->|(i & Hi & Hl)]; [done|]); [lia|].
  destruct (runnable_threads_ s) as [|a l] eqn:Er; [done|]. destruct (Preempt_moves s a l Hs Er) as (s1 & HP & Hs1 & Hc1 & Hsl1 & woken & Hr1). rewrite HP, ret_bind.
  destruct (IH s1 Hs1) as (s' & HT & H1 & H2 & H3 & H4 & H5).
  - by rewrite Hsl1.
  - destruct i as [|i]; [left; cbn in Hl; congruence|]. right. exists i. split; [lia|]. rewrite Hr1. cbn in Hl. by apply lookup_app_l_Some.
  - exists s'. split; [done|]. split; [done|]. split; [done|]. split; [congruence|]. split; [by rewrite H4; apply Preempt_locks|].
    intros t' [Hsl' Hor]. apply H5. split; [by rewrite Hsl1|]. rewrite Hc1, Hr1. rewrite Er in Hor. destruct Hor as [->|Hin]; [right; set_solver|]. apply elem_of_cons in Hin as [->|Hin]; [by left|right; set_solver].
Qed.

(** Waking somebody leaves the running thread where it is, and those that are ready. *)
Lemma wake_first_ready o s s' : current_thread_ s <> sleep_thread_ s -> wake_first o s = Ret s' -> current_thread_ s' = current_thread_ s /\ forall t, ready s t -> ready s' t.
Proof.
  intros Hne. unfold wake_first. intros (m & _ & H)%bind_Ret. destruct (blocked_threads_ m) as [|t rest]; [by injection H as <-|].
  apply bind_Ret in H as (s1 & H1 & H2). apply SetState_keeps in H1 as (E1 & E2 & E3). unfold Enqueue in H2. rewrite decide_False in H2 by (cbn in *; congruence). injection H2 as <-.
  split; [exact E1|]. intros t' [Hsl Hor]. split; cbn in *; rewrite ?E1, ?E2, ?E3; [done|]. cbn. destruct Hor; [by left|right; set_solver].
Qed.

(** ** The system calls of two threads *)
Section zion.
Context (client server : positive).
Implicit Types (k : kernel) (t : positive).

(** Ticks come until the thread runs, then it makes the call. *)
Definition as_thread {A} t (call : Ipc.K A) : Ipc.K A := fun k =>
  s ← tick_until t (length (runnable_threads_ (sch k))) (sch k);
  call (with_sch s k).

Definition send_req (bytes caps : list Z) : SendReq := mkSend (Z.of_nat (length bytes)) bytes (Z.of_nat (length caps)) caps.

(** What a stub gets back: the error code and the result; a call that blocks has no result yet. *)
Definition returned {A B} (f : A -> B) (none : B) (r : res (outcome A * kernel)) : res (Z * B * kernel) :=
  '(o, k) ← r;
  match o with
  | Val a => Ret (ErrorCode_val OK, f a, k)
  | Err e => Ret (ErrorCode_val e, none, k)
  | Blocked => NoFuel
  end.

Definition received (r : option RecvResp * Z) : list Z * list Z * Z :=
  match r.1 with Some m => (resp_data m, resp_caps m, r.2) | None => ([], [], r.2) end.

#[local] Instance zion_calls : Zcalls kernel := {
  Rpc.ZEndpointSend e bytes caps k := returned id 0 (as_thread client (EndpointSend e (send_req bytes caps)) k);
  Rpc.ZEndpointRecv e nb nc k := returned received ([], [], 0) (as_thread server (EndpointRecv e (mkRecv nb nc)) k);
  Rpc.ZReplyPortSend rp bytes caps k := '(err, _, k) ← returned id tt (as_thread server (ReplyPortSend rp (send_req bytes caps)) k); Ret (err, k);
  Rpc.ZReplyPortRecv rp nb nc k := returned (fun m => (resp_data m, resp_caps m)) ([], []) (as_thread client (ReplyPortRecv rp (mkRecv nb nc)) k);
  Rpc.ZCapDuplicate cap mask k :=
    '(_, (err, new), k) ← returned id (INTERNAL, None) (as_thread server (on_table (CapDuplicate cap mask)) k);
    Ret (ErrorCode_val err, default 0 new, k);
  Rpc.ZCapRelease cap k := '(_, err, k) ← returned id INTERNAL (as_thread client (on_table (CapRelease cap)) k); Ret (ErrorCode_val err, k) }.

(** The process of thread [t] holds, as [id], a capability to object [o] with [perms]; what it may transmit. *)
Definition has_cap k t (id : Z) (ty : ObjectType) (o : positive) (perms : Z) : Prop :=
  exists tb c, tables k !! process_ k t = Some tb /\ caps tb !! id = Some (Some c) /\ obj_ c = mkObj ty o /\ HasPermissions c perms = true.

Definition transmittable (c : Capability) : bool := HasPermissions c kZionPerm_Transmit.

Definition cap_of t k (id : Z) : option Capability :=
  tb ← tables k !! process_ k t;
  c ← mjoin (caps tb !! id);
  if transmittable c then Some c else None.

(** Both threads can run, in processes of their own, and the tables have room. *)
Record two_threads (n : Z) k : Prop := {
  tt_inv : kinv k;
  tt_room : room n k;
  tt_client : ready (sch k) client;
  tt_server : ready (sch k) server;
  tt_apart : process_ k client <> process_ k server;
}.

Lemma has_cap_same k k' t id ty o perms :
  tables k' !! process_ k' t = tables k !! process_ k t -> has_cap k t id ty o perms -> has_cap k' t id ty o perms.
Proof. intros He (tb & c & H1 & H2). exists tb, c. by rewrite He. Qed.

Lemma has_cap_holds k t id ty o perms : cur k = process_ k t -> has_cap k t id ty o perms -> holds_cap k id ty o perms.
Proof. intros Hc (tb & c & H1 & H2 & H3 & H4). exists c. split_and!; [|done|done]. unfold cap_at. rewrite Hc, H1. cbn. by rewrite H2. Qed.

Lemma room_insert n d k k' p tb tb' :
  room n k -> 0 <= d -> tables k !! p = Some tb -> tables k' = <[p := tb']> (tables k) -> next_cap_id_ tb' <= next_cap_id_ tb + d -> room (n - d) k'.
Proof.
  intros Hr Hd Ht Hk' Hn q x. rewrite Hk'. intros [[<- <-]|[_ Hx]]%lookup_insert_Some; [pose proof (Hr _ _ Ht); lia|]. pose proof (Hr _ _ Hx). lia.
Qed.

Lemma room_mono n n' k : n' <= n -> room n k -> room n' k.
Proof. intros Hn Hr p x Hx. pose proof (Hr _ _ Hx). lia. Qed.

(** A thread gets the processor: nothing but the scheduler changed. *)
Lemma as_thread_runs n k t :
  two_threads n k -> t = client \/ t = server ->
  exists s, two_threads n (with_sch s k) /\ current_thread_ s = t /\ t <> sleep_thread_ s /\ cur (with_sch s k) = process_ k t /\
    forall A (call : Ipc.K A), as_thread t call k = call (with_sch s k).
Proof.
  intros [Hk Hr Hc Hs Ha] Ht. assert (ready (sch k) t) as [Hsl Hrt] by (by destruct Ht as [->| ->]).
  destruct (tick_until_spec t (length (runnable_threads_ (sch k))) (sch k) (ki_sched _ Hk) Hsl) as (s & HT & H1 & H2 & H3 & H4 & H5).
  { destruct Hrt as [Hrt|Hrt]; [by left|]. right. apply list_elem_of_lookup in Hrt as [i Hi]. exists i. split; [by eapply lookup_lt_Some|done]. }
  exists s. split; [|split; [done|split; [congruence|split; [unfold cur; cbn; by rewrite H2|intros A call; unfold as_thread; by rewrite HT]]]].
  split; [|exact Hr|by apply H5|by apply H5|exact Ha]. apply (with_sch_good k k s (good_refl k Hk) H1). intros r. by rewrite H4.
Qed.

(** After a call: the scheduler woke at most somebody, one table changed. *)
Lemma two_threads_after n d k k' s o tb tb' :
  two_threads n k -> kinv k' -> process_ k' = process_ k -> 0 <= d -> tables k !! cur k = Some tb -> tables k' = <[cur k := tb']> (tables k) -> next_cap_id_ tb' <= next_cap_id_ tb + d ->
  current_thread_ s <> sleep_thread_ s -> (forall t, ready (sch k) t -> ready s t) -> wake_first o s = Ret (sch k') \/ sch k' = s -> two_threads (n - d) k'.
Proof.
  intros [Hk Hr Hc Hs Ha] Hk' Hp Hd Ht Hts Hn Hne Hrdy Hw.
  assert (forall t, ready (sch k) t -> ready (sch k') t) as Hall by (intros t Hrt; apply Hrdy in Hrt; destruct Hw as [Hw| ->]; [by apply (wake_first_ready _ _ _ Hne Hw)|done]).
  split; [done|by eapply room_insert|by apply Hall|by apply Hall|by rewrite Hp].
Qed.

(** Capabilities that may be transmitted, by their ids. *)
Lemma cap_of_lookup t k tb ids os :
  tables k !! process_ k t = Some tb -> cap_of t k <$> ids = Some <$> os ->
  Forall (Ipc.sendable tb) ids /\ Forall (fun c => transmittable c = true) os /\ (fun id => default None (caps tb !! id)) <$> ids = Some <$> os.
Proof.
  intros Ht. revert os. induction ids as [|id ids IH]; intros [|c os]; try done. cbn [fmap list_fmap]. intros [= Hc Hos].
  unfold cap_of in Hc. rewrite Ht in Hc. cbn in Hc. destruct (caps tb !! id) as [[c'|]|] eqn:E; try done. cbn in Hc. destruct (transmittable c') eqn:Et; [|done]. injection Hc as <-.
  destruct (IH os Hos) as (H1 & H2 & H3). split_and!; [constructor; [by exists c'|done]|by constructor|by rewrite H3].
Qed.

Lemma cap_of_received t k tb ids (os : list Capability) :
  tables k !! process_ k t = Some tb -> Forall (fun c => transmittable c = true) os -> length ids = length os ->
  (forall i c, (Some <$> os) !! i = Some c -> exists id, ids !! i = Some id /\ caps tb !! id = Some c) -> cap_of t k <$> ids = Some <$> os.
Proof.
  intros Ht HF Hl Hi. apply list_eq_same_length with (n := length os); [by rewrite length_fmap|by rewrite length_fmap|]. intros i x y Hlt Hx Hy.
  destruct (Hi i y Hy) as (id & Hid & Hc). rewrite list_lookup_fmap, Hid in Hx. injection Hx as <-. rewrite list_lookup_fmap in Hy. destruct (os !! i) as [c|] eqn:Ec; [|done]. injection Hy as <-.
  unfold cap_of. rewrite Ht. cbn. rewrite Hc. cbn. by rewrite (proj1 (Forall_lookup _ _) HF i c Ec).
Qed.

(** ** The promise *)
Definition zion_idle (ec es : Z) k : Prop :=
  two_threads 64 k /\ exists e, has_cap k client ec ENDPOINT e kZionPerm_Write /\ has_cap k server es ENDPOINT e kZionPerm_Read /\
    exists peer, ipc_objects k !! e = Some (mkIpc ENDPOINT peer (UnboundedMessageQueue [])).

Definition fresh_reply : IpcObject := mkIpc REPLY_PORT None (SingleMessageQueue false false empty_msg).

Definition zion_pending (es rp : Z) (bytes : list Z) (os : list Capability) k : Prop :=
  two_threads 63 k /\ Forall (fun c => transmittable c = true) os /\
  exists e rport peer, has_cap k server es ENDPOINT e kZionPerm_Read /\ has_cap k client rp REPLY_PORT rport kZionPerm_Read /\ e <> rport /\
    ipc_objects k !! e = Some (mkIpc ENDPOINT peer (UnboundedMessageQueue
      [mkMsg bytes (Some <$> os) (Some (mkCap (mkObj REPLY_PORT rport) (Z.lor kZionPerm_Write kZionPerm_Transmit)))])) /\
    ipc_objects k !! rport = Some fresh_reply.

Definition zion_awaiting (rp srp : Z) k : Prop :=
  two_threads 40 k /\ exists rport, has_cap k client rp REPLY_PORT rport kZionPerm_Read /\ has_cap k server srp REPLY_PORT rport kZionPerm_Write /\
    ipc_objects k !! rport = Some fresh_reply.

Definition zion_answered (rp : Z) (bytes : list Z) (os : list Capability) k : Prop :=
  two_threads 40 k /\ Forall (fun c => transmittable c = true) os /\
  exists rport, has_cap k client rp REPLY_PORT rport kZionPerm_Read /\ ipc_objects k !! rport = Some (mkIpc REPLY_PORT None (SingleMessageQueue true false (mkMsg bytes (Some <$> os) None))).

Lemma send_req_ok (bytes caps : list Z) : Z.of_nat (length bytes) <= 0x1000 -> request (send_req bytes caps) bytes caps.
Proof. intros Hb. unfold request, send_req, send_ok. cbn. split_and!; try lia; by rewrite Nat2Z.id, firstn_all. Qed.

Lemma cap_at_of t k tb ids (os : list Capability) :
  cur k = process_ k t -> tables k !! process_ k t = Some tb -> (fun id => default None (caps tb !! id)) <$> ids = Some <$> os -> cap_at k <$> ids = Some <$> os.
Proof. intros Hc Ht <-. apply list_fmap_ext. intros i id _. unfold cap_at. by rewrite Hc, Ht. Qed.

(** A call that has a result leaves the kernel well formed. *)
Lemma call_inv e {A} (m : Ipc.K A) k a k' : SyscallHandler e = discard m -> kinv k -> entry_ok e k -> m k = Ret (Val a, k') -> kinv k'.
Proof.
  intros He Hk Hok Hm. destruct (SyscallHandler_runs k e k (good_refl k Hk) Hok) as (o & k2 & Hr & Hg & _). rewrite He in Hr. unfold discard in Hr.
  rewrite (K_bind_Ret _ _ _ _ _ Hm) in Hr. injection Hr as _ <-. apply Hg.
Qed.

Lemma zion_send ec es bytes ids (os : list Capability) k :
  zion_idle ec es k -> Z.of_nat (length bytes) <= 0x1000 -> NoDup ids -> cap_of client k <$> ids = Some <$> os ->
  exists rp k', Rpc.ZEndpointSend ec bytes ids k = Ret (ErrorCode_val OK, rp, k') /\ zion_pending es rp bytes os k'.
Proof.
  intros (HT & e & Hec & Hes & peer & He) Hb Hnd Hcaps. destruct (as_thread_runs 64 k client HT (or_introl eq_refl)) as (s & HT1 & Hcs & Hsl & Hcur & Hrun).
  set (k1 := with_sch s k) in *. cbn [Rpc.ZEndpointSend zion_calls]. rewrite Hrun. destruct Hec as (tb & c & Htb & Hc). destruct (cap_of_lookup client k tb ids os Htb Hcaps) as (Hsend & Hos & Hids).
  assert (holds_cap k1 ec ENDPOINT e kZionPerm_Write) as Hh by (apply (has_cap_holds k1 client); [done|by exists tb, c]).
  destruct (EndpointSend_eq k1 ec e _ [] (send_req bytes ids) bytes ids tb (tt_inv _ _ HT1) (room_mono 64 1 k1 ltac:(lia) (tt_room _ _ HT1)) Hh He eq_refl eq_refl (send_req_ok bytes ids Hb))
    as (rid & rp & k2 & t2 & HS & Hne & Ho & Ht & Hp & Hrid & Hn & Hw); [by rewrite Hcur|done|done|].
  rewrite HS. unfold returned. rewrite ret_bind. exists rid, k2. split; [done|]. rewrite Hcur in Ht.
  assert (kinv k2) as Hk2.
  { eapply (call_inv (ZEndpointSend ec (send_req bytes ids))); [done|apply HT1| |exact HS]. split; [by cbn; rewrite Hcs|]. split; [apply (send_req_ok bytes ids Hb)|]. by eapply (room_mono 64 1), HT1. }
  assert (two_threads (64 - 1) k2) as HT2.
  { eapply (two_threads_after 64 1 k1 k2 (with_lock rp (mkLock 0 []) s) e tb t2 HT1 Hk2 Hp ltac:(lia)); [by rewrite Hcur|by rewrite Hcur|lia|by cbn; rewrite Hcs|done|by left]. }
  split; [exact HT2|]. split; [done|]. exists e, rp, peer. split_and!.
  - eapply has_cap_same; [|exact Hes]. rewrite Hp, Ht. apply lookup_insert_ne. apply (tt_apart _ _ HT1).
  - exists t2, (mkCap (mkObj REPLY_PORT rp) kZionPerm_Read). rewrite Hp, Ht. split_and!; [apply lookup_insert_eq|done|done|done].
  - done.
  - rewrite Ho, lookup_insert_eq. cbn [app ipc_type peer_]. by rewrite (cap_at_of client k1 tb ids os Hcur Htb Hids).
  - by rewrite Ho, lookup_insert_ne, lookup_insert_eq.
Qed.

Lemma zion_recv es rp bytes (os : list Capability) k nb nc :
  zion_pending es rp bytes os k -> Z.of_nat (length bytes) <= nb -> Z.of_nat (length os) <= nc <= 16 ->
  exists ids srp k', Rpc.ZEndpointRecv es nb nc k = Ret (ErrorCode_val OK, (bytes, ids, srp), k') /\
    cap_of server k' <$> ids = Some <$> os /\ Forall is_u64 ids /\ zion_awaiting rp srp k'.
Proof.
  intros (HT & Hos & e & rport & peer & Hes & Hrp & Hne & He & Hr) Hb Hc. destruct (as_thread_runs 63 k server HT (or_intror eq_refl)) as (s & HT1 & Hcs & Hsl & Hcur & Hrun).
  set (k1 := with_sch s k) in *. cbn [Rpc.ZEndpointRecv zion_calls]. rewrite Hrun. set (m := mkMsg bytes _ _) in He.
  assert (recv_ok (mkRecv nb nc) k1) as Hok by (split; [cbn; lia|eapply (room_mono 63); [cbn; lia|apply HT1]]).
  destruct (EndpointRecv_eq k1 es e (mkIpc ENDPOINT peer (UnboundedMessageQueue [m])) m [] (mkCap (mkObj REPLY_PORT rport) (Z.lor kZionPerm_Write kZionPerm_Transmit)) (mkRecv nb nc) (tt_inv _ _ HT1) Hok) as (ids & rid & k2 & t2 & HS & Ho & Ht & Hp & Hcur2 & Hrid & Hids & Hsch & Hu & Hl & Hn);
    [by apply (has_cap_holds k1 server)|exact He|done|split; cbn; rewrite ?length_fmap; lia|done|].
  rewrite HS. unfold returned. rewrite ret_bind. exists ids, rid, k2. split; [done|]. rewrite Hcur in Ht. cbn [msg_caps m] in Hl, Hids. rewrite length_fmap in Hl.
  destruct Hes as (tb & c & Htb & _). assert (tables k1 !! cur k1 = Some tb) as Htb1 by (by rewrite Hcur). specialize (Hn tb Htb1).
  assert (tables k2 !! process_ k2 server = Some t2) as Ht2 by (rewrite Hp, Ht; apply lookup_insert_eq).
  split; [by apply (cap_of_received server k2 t2)|]. split; [done|].
  assert (kinv k2) as Hk2 by (eapply (call_inv (ZEndpointRecv es (mkRecv nb nc))); [done|apply HT1| |exact HS]; split; [by cbn; rewrite Hcs|done]).
  assert (two_threads (63 - 17) k2) as HT2.
  { eapply (two_threads_after 63 17 k1 k2 s e tb t2 HT1 Hk2 Hp ltac:(lia) Htb1); [by rewrite Hcur|lia|by cbn; rewrite Hcs|done|by right]. }
  split; [destruct HT2; split; try done; by eapply (room_mono 46)|]. exists rport. split_and!.
  - eapply has_cap_same; [|exact Hrp]. rewrite Hp, Ht. apply lookup_insert_ne. apply not_eq_sym, (tt_apart _ _ HT1).
  - by exists t2, (mkCap (mkObj REPLY_PORT rport) (Z.lor kZionPerm_Write kZionPerm_Transmit)).
  - by rewrite Ho, lookup_insert_ne.
Qed.

Lemma zion_reply_send rp srp bytes ids (os : list Capability) k :
  zion_awaiting rp srp k -> Z.of_nat (length bytes) <= 0x1000 -> NoDup ids -> cap_of server k <$> ids = Some <$> os ->
  exists k', Rpc.ZReplyPortSend srp bytes ids k = Ret (ErrorCode_val OK, k') /\ zion_answered rp bytes os k'.
Proof.
  intros (HT & rport & Hrp & Hsrp & Hr) Hb Hnd Hcaps. destruct (as_thread_runs 40 k server HT (or_intror eq_refl)) as (s & HT1 & Hcs & Hsl & Hcur & Hrun).
  set (k1 := with_sch s k) in *. cbn [Rpc.ZReplyPortSend zion_calls]. rewrite Hrun. pose proof Hsrp as (tb & c & Htb & _). destruct (cap_of_lookup server k tb ids os Htb Hcaps) as (Hsend & Hos & Hids).
  assert (tables k1 !! cur k1 = Some tb) as Htb1 by (by rewrite Hcur).
  destruct (ReplyPortSend_caps k1 srp rport false empty_msg (send_req bytes ids) bytes ids tb (tt_inv _ _ HT1)) as (k2 & t2 & HS & Ho & Ht & Hp & Hn & Hw);
    [by apply (has_cap_holds k1 server)|by apply send_req_ok|exact Hr|done|done|done|].
  rewrite HS. unfold returned. rewrite !ret_bind. exists k2. split; [done|].
  assert (kinv k2) as Hk2.
  { destruct (SyscallHandler_runs k1 (ZReplyPortSend srp (send_req bytes ids)) k1 (good_refl k1 (tt_inv _ _ HT1))) as (o & k3 & Hr3 & Hg & _); [split; [by cbn; rewrite Hcs|apply (send_req_ok bytes ids Hb)]|].
    cbn [SyscallHandler] in Hr3. rewrite HS in Hr3. injection Hr3 as _ <-. apply Hg. }
  split; [|split; [done|]].
  - replace 40 with (40 - 0) by lia. eapply (two_threads_after 40 0 k1 k2 s rport tb t2 HT1 Hk2 Hp ltac:(lia) Htb1 Ht); [lia|by cbn; rewrite Hcs|done|by left].
  - exists rport. split.
    + eapply has_cap_same; [|exact Hrp]. rewrite Hp, Ht, Hcur. apply lookup_insert_ne. apply not_eq_sym, (tt_apart _ _ HT1).
    + rewrite Ho, lookup_insert_eq. by rewrite (cap_at_of server k1 tb ids os Hcur Htb Hids).
Qed.

Lemma zion_reply_recv rp bytes (os : list Capability) k nb nc :
  zion_answered rp bytes os k -> Z.of_nat (length bytes) <= nb -> Z.of_nat (length os) <= nc <= 16 ->
  exists ids k', Rpc.ZReplyPortRecv rp nb nc k = Ret (ErrorCode_val OK, (bytes, ids), k') /\ cap_of client k' <$> ids = Some <$> os /\ Forall is_u64 ids.
Proof.
  intros (HT & Hos & rport & Hrp & Hr) Hb Hc. destruct (as_thread_runs 40 k client HT (or_introl eq_refl)) as (s & HT1 & Hcs & Hsl & Hcur & Hrun).
  set (k1 := with_sch s k) in *. cbn [Rpc.ZReplyPortRecv zion_calls]. rewrite Hrun. pose proof Hrp as (tb & c & Htb & _). set (m := mkMsg bytes _ _) in Hr.
  assert (tables k1 !! cur k1 = Some tb) as Htb1 by (by rewrite Hcur). pose proof (tt_room _ _ HT1 _ _ Htb1).
  destruct (ReplyPortRecv_caps k1 rp rport m (mkRecv nb nc) tb (tt_inv _ _ HT1)) as (ids & k2 & t2 & HS & Ht & Hp & Hu & Hl & Hids);
    [by apply (has_cap_holds k1 client)|split; cbn; rewrite ?length_fmap; lia|exact Hr|done|cbn; rewrite length_fmap; lia|].
  rewrite HS. unfold returned. rewrite ret_bind. exists ids, k2. split; [done|]. split; [|done]. cbn [msg_caps m] in Hl, Hids. rewrite length_fmap in Hl.
  apply (cap_of_received client k2 t2); [rewrite Hp, Ht, Hcur; apply lookup_insert_eq|done|done|done].
Qed.

(** The kernel of this repository keeps the promise. *)
#[local] Instance zion_kernel : RpcKernel kernel.
Proof.
  refine {| Obj := Capability; client_cap := cap_of client; server_cap := cap_of server;
    idle := zion_idle; pending := zion_pending; awaiting := zion_awaiting; answered := zion_answered |}.
  - intros ec es bytes caps os k Hi Hb _ Hnd Hc. by eapply zion_send.
  - intros es rp bytes os k nb nc Hp Hb Hc. by eapply zion_recv.
  - intros rp srp bytes caps os k Ha Hb _ Hnd Hc. by eapply zion_reply_send.
  - intros rp bytes os k nb nc Ha Hb Hc. by eapply zion_reply_recv.
Defined.
End zion.
