(* ===== verification/Services.v ===== *)
(** * The services (the .yunq.client and .yunq.server files under sys)

    The generated clients and server bases of denali (disks), victoriafalls
    (the file system), voyageurs (the keyboard) and yellowstone (the name
    server).  A server base is the record of its virtual handlers and the
    [switch] of its [HandleRequest].  The last part gives the messages that
    travel their capabilities and proves that a call to any of the eleven
    methods is its handler. *)

From Stdlib Require Import ZArith Lia.
From stdpp Require Import base tactics numbers list strings gmap.
From S2P Require Import Prelude Status Capability Sched Ipc ZionRpc Buffer Yunq YunqMessages Rpc.

Section services.
Context {K : Type} `{Zcalls K}.

(** ** Denali *)
Record DenaliServerBase : Type := mkDenali {
  HandleRead : ReadRequest -> ReadResponse -> K -> res (Status * ReadResponse * K);
  HandleReadMany : ReadManyRequest -> ReadResponse -> K -> res (Status * ReadResponse * K);
}.

Definition DenaliClient_Read (request : ReadRequest) (response : ReadResponse) (this : Client) (k : K) :
    res (RpcStatus * ReadResponse * Client * K) :=
  client_call 0 (Some (serialize_caps request)) (Some ParseFromBytes_caps) this response k.

Definition DenaliClient_ReadMany (request : ReadManyRequest) (response : ReadResponse) (this : Client) (k : K) :
    res (RpcStatus * ReadResponse * Client * K) :=
  client_call 1 (Some (serialize_caps request)) (Some ParseFromBytes_caps) this response k.

Definition Denali_select (server : DenaliServerBase) (method_select : Z) : option (@method_case K) :=
  if method_select =? 0 then Some (case_request_response (HandleRead server))
  else if method_select =? 1 then Some (case_request_response (HandleReadMany server))
  else None.

Definition DenaliServerBase_HandleRequest (server : DenaliServerBase) : method_case := HandleRequest (Denali_select server).

Definition DenaliServerBase_ServerThread (n : nat) (endpoint : Z) (server : DenaliServerBase) (k : K) : res (ServerBuffers * K) :=
  ServerThread n endpoint (DenaliServerBase_HandleRequest server) ServerBuffers_new k.

(** ** Victoria Falls *)
Record VFSServerBase : Type := mkVFSServer {
  HandleOpenFile : OpenFileRequest -> OpenFileResponse -> K -> res (Status * OpenFileResponse * K);
  HandleGetDirectory : GetDirectoryRequest -> Directory -> K -> res (Status * Directory * K);
}.

Definition VFSClient_OpenFile (request : OpenFileRequest) (response : OpenFileResponse) (this : Client) (k : K) :
    res (RpcStatus * OpenFileResponse * Client * K) :=
  client_call 0 (Some (serialize_caps request)) (Some ParseFromBytes_caps) this response k.

Definition VFSClient_GetDirectory (request : GetDirectoryRequest) (response : Directory) (this : Client) (k : K) :
    res (RpcStatus * Directory * Client * K) :=
  client_call 1 (Some (serialize_caps request)) (Some ParseFromBytes_caps) this response k.

Definition VFS_select (server : VFSServerBase) (method_select : Z) : option (@method_case K) :=
  if method_select =? 0 then Some (case_request_response (HandleOpenFile server))
  else if method_select =? 1 then Some (case_request_response (HandleGetDirectory server))
  else None.

Definition VFSServerBase_HandleRequest (server : VFSServerBase) : method_case := HandleRequest (VFS_select server).

Definition VFSServerBase_ServerThread (n : nat) (endpoint : Z) (server : VFSServerBase) (k : K) : res (ServerBuffers * K) :=
  ServerThread n endpoint (VFSServerBase_HandleRequest server) ServerBuffers_new k.

(** ** Voyageurs *)
Record VoyageursServerBase : Type := mkVoyageurs {
  HandleRegisterKeyboardListener : KeyboardListener -> K -> res (Status * K);
}.

Definition VoyageursClient_RegisterKeyboardListener (request : KeyboardListener) (this : Client) (k : K) :
    res (RpcStatus * unit * Client * K) :=
  client_call 0 (Some (serialize_caps request)) None this tt k.

Definition Voyageurs_select (server : VoyageursServerBase) (method_select : Z) : option (@method_case K) :=
  if method_select =? 0 then Some (case_request (HandleRegisterKeyboardListener server)) else None.

Definition VoyageursServerBase_HandleRequest (server : VoyageursServerBase) : method_case := HandleRequest (Voyageurs_select server).

Definition VoyageursServerBase_ServerThread (n : nat) (endpoint : Z) (server : VoyageursServerBase) (k : K) : res (ServerBuffers * K) :=
  ServerThread n endpoint (VoyageursServerBase_HandleRequest server) ServerBuffers_new k.

(** ** Yellowstone *)
Record YellowstoneServerBase : Type := mkYellowstone {
  HandleRegisterEndpoint : RegisterEndpointRequest -> K -> res (Status * K);
  HandleGetEndpoint : GetEndpointRequest -> Endpoint -> K -> res (Status * Endpoint * K);
  HandleGetAhciInfo : AhciInfo -> K -> res (Status * AhciInfo * K);
  HandleGetXhciInfo : XhciInfo -> K -> res (Status * XhciInfo * K);
  HandleGetFramebufferInfo : FramebufferInfo -> K -> res (Status * FramebufferInfo * K);
  HandleGetDenali : DenaliInfo -> K -> res (Status * DenaliInfo * K);
}.

Definition YellowstoneClient_RegisterEndpoint (request : RegisterEndpointRequest) (this : Client) (k : K) :
    res (RpcStatus * unit * Client * K) :=
  client_call 0 (Some (serialize_caps request)) None this tt k.

Definition YellowstoneClient_GetEndpoint (request : GetEndpointRequest) (response : Endpoint) (this : Client) (k : K) :
    res (RpcStatus * Endpoint * Client * K) :=
  client_call 1 (Some (serialize_caps request)) (Some ParseFromBytes_caps) this response k.

Definition YellowstoneClient_GetAhciInfo (response : AhciInfo) (this : Client) (k : K) : res (RpcStatus * AhciInfo * Client * K) :=
  client_call 2 None (Some ParseFromBytes_caps) this response k.

Definition YellowstoneClient_GetXhciInfo (response : XhciInfo) (this : Client) (k : K) : res (RpcStatus * XhciInfo * Client * K) :=
  client_call 3 None (Some ParseFromBytes_caps) this response k.

Definition YellowstoneClient_GetFramebufferInfo (response : FramebufferInfo) (this : Client) (k : K) :
    res (RpcStatus * FramebufferInfo * Client * K) :=
  client_call 4 None (Some ParseFromBytes_caps) this response k.

Definition YellowstoneClient_GetDenali (response : DenaliInfo) (this : Client) (k : K) : res (RpcStatus * DenaliInfo * Client * K) :=
  client_call 5 None (Some ParseFromBytes_caps) this response k.

Definition Yellowstone_select (server : YellowstoneServerBase) (method_select : Z) : option (@method_case K) :=
  if method_select =? 0 then Some (case_request (HandleRegisterEndpoint server))
  else if method_select =? 1 then Some (case_request_response (HandleGetEndpoint server))
  else if method_select =? 2 then Some (case_response (HandleGetAhciInfo server))
  else if method_select =? 3 then Some (case_response (HandleGetXhciInfo server))
  else if method_select =? 4 then Some (case_response (HandleGetFramebufferInfo server))
  else if method_select =? 5 then Some (case_response (HandleGetDenali server))
  else None.

Definition YellowstoneServerBase_HandleRequest (server : YellowstoneServerBase) : method_case := HandleRequest (Yellowstone_select server).

Definition YellowstoneServerBase_ServerThread (n : nat) (endpoint : Z) (server : YellowstoneServerBase) (k : K) : res (ServerBuffers * K) :=
  ServerThread n endpoint (YellowstoneServerBase_HandleRequest server) ServerBuffers_new k.
End services.
Arguments DenaliServerBase K : clear implicits.
Arguments VFSServerBase K : clear implicits.
Arguments VoyageursServerBase K : clear implicits.
Arguments YellowstoneServerBase K : clear implicits.

(** ** The messages and their capabilities *)
Ltac cap_free_list := cbn [take drop]; repeat first [apply Forall_nil_2 | apply Forall_cons_2]; first [apply cap_free_u64 | apply cap_free_string].
Ltac bytes_min :=
  match goal with
  | |- kHeaderSize <= ?f ?m => unfold kHeaderSize; cbv delta [f]; cbn beta
  end;
  first [ lia
        | match goal with |- context [sizes ?l] => pose proof (sizes_min l); lia end
        | match goal with |- context [msg_size ?x] => pose proof (msg_size_min x); unfold kHeaderSize in *; lia end ].

#[export] Instance ReadRequest_caps : CapMessage ReadRequest := { msg_caps m := []; with_caps l m := m }.

#[export] Instance ReadManyRequest_caps : CapMessage ReadManyRequest := { msg_caps m := []; with_caps l m := m }.

#[export] Instance ReadResponse_caps : CapMessage ReadResponse := {
  msg_caps m := [ReadResponse_memory m];
  with_caps l m := match l with [v] => ReadResponse_set_memory v m | _ => m end }.

#[export] Instance OpenFileRequest_caps : CapMessage OpenFileRequest := { msg_caps m := []; with_caps l m := m }.

#[export] Instance OpenFileResponse_caps : CapMessage OpenFileResponse := {
  msg_caps m := [OpenFileResponse_memory m];
  with_caps l m := match l with [v] => OpenFileResponse_set_memory v m | _ => m end }.

#[export] Instance GetDirectoryRequest_caps : CapMessage GetDirectoryRequest := { msg_caps m := []; with_caps l m := m }.

#[export] Instance Directory_caps : CapMessage Directory := { msg_caps m := []; with_caps l m := m }.

#[export] Instance KeyboardListener_caps : CapMessage KeyboardListener := {
  msg_caps m := [KeyboardListener_port_capability m];
  with_caps l m := match l with [v] => KeyboardListener_set_port_capability v m | _ => m end }.

#[export] Instance RegisterEndpointRequest_caps : CapMessage RegisterEndpointRequest := {
  msg_caps m := [RegisterEndpointRequest_endpoint_capability m];
  with_caps l m := match l with [v] => RegisterEndpointRequest_set_endpoint_capability v m | _ => m end }.

#[export] Instance GetEndpointRequest_caps : CapMessage GetEndpointRequest := { msg_caps m := []; with_caps l m := m }.

#[export] Instance Endpoint_caps : CapMessage Endpoint := {
  msg_caps m := [Endpoint_endpoint m];
  with_caps l m := match l with [v] => Endpoint_set_endpoint v m | _ => m end }.

#[export] Instance AhciInfo_caps : CapMessage AhciInfo := {
  msg_caps m := [AhciInfo_ahci_region m];
  with_caps l m := match l with [v] => AhciInfo_set_ahci_region v m | _ => m end }.

#[export] Instance XhciInfo_caps : CapMessage XhciInfo := {
  msg_caps m := [XhciInfo_xhci_region m];
  with_caps l m := match l with [v] => XhciInfo_set_xhci_region v m | _ => m end }.

#[export] Instance FramebufferInfo_caps : CapMessage FramebufferInfo := { msg_caps m := []; with_caps l m := m }.

#[export] Instance DenaliInfo_caps : CapMessage DenaliInfo := {
  msg_caps m := [DenaliInfo_denali_endpoint m];
  with_caps l m := match l with [v] => DenaliInfo_set_denali_endpoint v m | _ => m end }.

Lemma ReadRequest_transfers m : ReadRequest_wf m -> transfers m (ReadRequest_bytes m).
Proof. intros Hm. apply plain_transfers; [bytes_min|done|done|by apply ReadRequest_round_trips]. Qed.

Lemma ReadManyRequest_transfers m : ReadManyRequest_wf m -> transfers m (ReadManyRequest_bytes m).
Proof. intros Hm. apply plain_transfers; [bytes_min|done|done|by apply ReadManyRequest_round_trips]. Qed.

Lemma ReadResponse_one_cap m : one_cap_serializer m (ReadResponse_memory m).
Proof.
  intros b off c Hc. destruct m as [x0 x1 x2].
  refine (one_cap_write (take 2 (ReadResponse_writers (mkReadResponse x0 x1 x2))) 2 _ (drop 3 (ReadResponse_writers (mkReadResponse x0 x1 x2))) b off 3 c _ _ Hc); cap_free_list.
Qed.

Lemma ReadResponse_transfers m : ReadResponse_wf m -> transfers m (ReadResponse_bytes m).
Proof.
  intros Hm. apply (one_cap_transfers m (ReadResponse_memory m)); [bytes_min|done|by destruct m; intros [|? [|]]| |apply ReadResponse_one_cap|].
  - intros w Hw. replace (ReadResponse_bytes m) with (ReadResponse_bytes (ReadResponse_set_memory w m)) by (by destruct m).
    apply ReadResponse_round_trips. destruct m; unfold ReadResponse_wf in *; cbn in *; tauto.
  - intros w. destruct m as [x0 x1 x2]. exact (ReadResponse_one_cap (mkReadResponse x0 x1 w)).
Qed.

Lemma OpenFileRequest_transfers m : OpenFileRequest_wf m -> transfers m (OpenFileRequest_bytes m).
Proof. intros Hm. apply plain_transfers; [bytes_min|done|done|by apply OpenFileRequest_round_trips]. Qed.

Lemma OpenFileResponse_one_cap m : one_cap_serializer m (OpenFileResponse_memory m).
Proof.
  intros b off c Hc. destruct m as [x0 x1 x2].
  refine (one_cap_write (take 2 (OpenFileResponse_writers (mkOpenFileResponse x0 x1 x2))) 2 _ (drop 3 (OpenFileResponse_writers (mkOpenFileResponse x0 x1 x2))) b off 3 c _ _ Hc); cap_free_list.
Qed.

Lemma OpenFileResponse_transfers m : OpenFileResponse_wf m -> transfers m (OpenFileResponse_bytes m).
Proof.
  intros Hm. apply (one_cap_transfers m (OpenFileResponse_memory m)); [bytes_min|done|by destruct m; intros [|? [|]]| |apply OpenFileResponse_one_cap|].
  - intros w Hw. replace (OpenFileResponse_bytes m) with (OpenFileResponse_bytes (OpenFileResponse_set_memory w m)) by (by destruct m).
    apply OpenFileResponse_round_trips. destruct m; unfold OpenFileResponse_wf in *; cbn in *; tauto.
  - intros w. destruct m as [x0 x1 x2]. exact (OpenFileResponse_one_cap (mkOpenFileResponse x0 x1 w)).
Qed.

Lemma GetDirectoryRequest_transfers m : GetDirectoryRequest_wf m -> transfers m (GetDirectoryRequest_bytes m).
Proof. intros Hm. apply plain_transfers; [bytes_min|done|done|by apply GetDirectoryRequest_round_trips]. Qed.

Lemma Directory_transfers m : Directory_wf m -> transfers m (Directory_bytes m).
Proof. intros Hm. apply plain_transfers; [bytes_min|done|done|by apply Directory_round_trips]. Qed.

Lemma KeyboardListener_one_cap m : one_cap_serializer m (KeyboardListener_port_capability m).
Proof.
  intros b off c Hc. destruct m as [x0].
  refine (one_cap_write (take 0 (KeyboardListener_writers (mkKeyboardListener x0))) 0 _ (drop 1 (KeyboardListener_writers (mkKeyboardListener x0))) b off 1 c _ _ Hc); cap_free_list.
Qed.

Lemma KeyboardListener_transfers m : KeyboardListener_wf m -> transfers m (KeyboardListener_bytes m).
Proof.
  intros Hm. apply (one_cap_transfers m (KeyboardListener_port_capability m)); [bytes_min|done|by destruct m; intros [|? [|]]| |apply KeyboardListener_one_cap|].
  - intros w Hw. replace (KeyboardListener_bytes m) with (KeyboardListener_bytes (KeyboardListener_set_port_capability w m)) by (by destruct m).
    apply KeyboardListener_round_trips. destruct m; unfold KeyboardListener_wf in *; cbn in *; tauto.
  - intros w. destruct m as [x0]. exact (KeyboardListener_one_cap (mkKeyboardListener w)).
Qed.

Lemma RegisterEndpointRequest_one_cap m : one_cap_serializer m (RegisterEndpointRequest_endpoint_capability m).
Proof.
  intros b off c Hc. destruct m as [x0 x1].
  refine (one_cap_write (take 1 (RegisterEndpointRequest_writers (mkRegisterEndpointRequest x0 x1))) 1 _ (drop 2 (RegisterEndpointRequest_writers (mkRegisterEndpointRequest x0 x1))) b off 2 c _ _ Hc); cap_free_list.
Qed.

Lemma RegisterEndpointRequest_transfers m : RegisterEndpointRequest_wf m -> transfers m (RegisterEndpointRequest_bytes m).
Proof.
  intros Hm. apply (one_cap_transfers m (RegisterEndpointRequest_endpoint_capability m)); [bytes_min|done|by destruct m; intros [|? [|]]| |apply RegisterEndpointRequest_one_cap|].
  - intros w Hw. replace (RegisterEndpointRequest_bytes m) with (RegisterEndpointRequest_bytes (RegisterEndpointRequest_set_endpoint_capability w m)) by (by destruct m).
    apply RegisterEndpointRequest_round_trips. destruct m; unfold RegisterEndpointRequest_wf in *; cbn in *; tauto.
  - intros w. destruct m as [x0 x1]. exact (RegisterEndpointRequest_one_cap (mkRegisterEndpointRequest x0 w)).
Qed.

Lemma GetEndpointRequest_transfers m : GetEndpointRequest_wf m -> transfers m (GetEndpointRequest_bytes m).
Proof. intros Hm. apply plain_transfers; [bytes_min|done|done|by apply GetEndpointRequest_round_trips]. Qed.

Lemma Endpoint_one_cap m : one_cap_serializer m (Endpoint_endpoint m).
Proof.
  intros b off c Hc. destruct m as [x0].
  refine (one_cap_write (take 0 (Endpoint_writers (mkEndpoint x0))) 0 _ (drop 1 (Endpoint_writers (mkEndpoint x0))) b off 1 c _ _ Hc); cap_free_list.
Qed.

Lemma Endpoint_transfers m : Endpoint_wf m -> transfers m (Endpoint_bytes m).
Proof.
  intros Hm. apply (one_cap_transfers m (Endpoint_endpoint m)); [bytes_min|done|by destruct m; intros [|? [|]]| |apply Endpoint_one_cap|].
  - intros w Hw. replace (Endpoint_bytes m) with (Endpoint_bytes (Endpoint_set_endpoint w m)) by (by destruct m).
    apply Endpoint_round_trips. destruct m; unfold Endpoint_wf in *; cbn in *; tauto.
  - intros w. destruct m as [x0]. exact (Endpoint_one_cap (mkEndpoint w)).
Qed.

Lemma AhciInfo_one_cap m : one_cap_serializer m (AhciInfo_ahci_region m).
Proof.
  intros b off c Hc. destruct m as [x0 x1].
  refine (one_cap_write (take 0 (AhciInfo_writers (mkAhciInfo x0 x1))) 0 _ (drop 1 (AhciInfo_writers (mkAhciInfo x0 x1))) b off 2 c _ _ Hc); cap_free_list.
Qed.

Lemma AhciInfo_transfers m : AhciInfo_wf m -> transfers m (AhciInfo_bytes m).
Proof.
  intros Hm. apply (one_cap_transfers m (AhciInfo_ahci_region m)); [bytes_min|done|by destruct m; intros [|? [|]]| |apply AhciInfo_one_cap|].
  - intros w Hw. replace (AhciInfo_bytes m) with (AhciInfo_bytes (AhciInfo_set_ahci_region w m)) by (by destruct m).
    apply AhciInfo_round_trips. destruct m; unfold AhciInfo_wf in *; cbn in *; tauto.
  - intros w. destruct m as [x0 x1]. exact (AhciInfo_one_cap (mkAhciInfo w x1)).
Qed.

Lemma XhciInfo_one_cap m : one_cap_serializer m (XhciInfo_xhci_region m).
Proof.
  intros b off c Hc. destruct m as [x0 x1].
  refine (one_cap_write (take 0 (XhciInfo_writers (mkXhciInfo x0 x1))) 0 _ (drop 1 (XhciInfo_writers (mkXhciInfo x0 x1))) b off 2 c _ _ Hc); cap_free_list.
Qed.

Lemma XhciInfo_transfers m : XhciInfo_wf m -> transfers m (XhciInfo_bytes m).
Proof.
  intros Hm. apply (one_cap_transfers m (XhciInfo_xhci_region m)); [bytes_min|done|by destruct m; intros [|? [|]]| |apply XhciInfo_one_cap|].
  - intros w Hw. replace (XhciInfo_bytes m) with (XhciInfo_bytes (XhciInfo_set_xhci_region w m)) by (by destruct m).
    apply XhciInfo_round_trips. destruct m; unfold XhciInfo_wf in *; cbn in *; tauto.
  - intros w. destruct m as [x0 x1]. exact (XhciInfo_one_cap (mkXhciInfo w x1)).
Qed.

Lemma FramebufferInfo_transfers m : FramebufferInfo_wf m -> transfers m (FramebufferInfo_bytes m).
Proof. intros Hm. apply plain_transfers; [bytes_min|done|done|by apply FramebufferInfo_round_trips]. Qed.

Lemma DenaliInfo_one_cap m : one_cap_serializer m (DenaliInfo_denali_endpoint m).
Proof.
  intros b off c Hc. destruct m as [x0 x1 x2].
  refine (one_cap_write (take 0 (DenaliInfo_writers (mkDenaliInfo x0 x1 x2))) 0 _ (drop 1 (DenaliInfo_writers (mkDenaliInfo x0 x1 x2))) b off 3 c _ _ Hc); cap_free_list.
Qed.

Lemma DenaliInfo_transfers m : DenaliInfo_wf m -> transfers m (DenaliInfo_bytes m).
Proof.
  intros Hm. apply (one_cap_transfers m (DenaliInfo_denali_endpoint m)); [bytes_min|done|by destruct m; intros [|? [|]]| |apply DenaliInfo_one_cap|].
  - intros w Hw. replace (DenaliInfo_bytes m) with (DenaliInfo_bytes (DenaliInfo_set_denali_endpoint w m)) by (by destruct m).
    apply DenaliInfo_round_trips. destruct m; unfold DenaliInfo_wf in *; cbn in *; tauto.
  - intros w. destruct m as [x0 x1 x2]. exact (DenaliInfo_one_cap (mkDenaliInfo w x1 x2)).
Qed.

(** ** Dispatch of foreign requests *)

(** A request without the sentinel, or for a method the service does not have,
    is answered with an error and reaches no handler: the state is unchanged. *)
Lemma HandleRequest_rejects {K} (select : Z -> option (@method_case K)) request req_caps response resp_caps k sentinel mth :
  At_u32 0 request = Ret sentinel -> At_u64 8 request = Ret mth -> sentinel <> kSentinel \/ select mth = None ->
  exists st, HandleRequest select request req_caps response resp_caps k = Ret (st, 0, response, resp_caps, k) /\ Status_ok st = false.
Proof.
  intros H1 H2 Hor. unfold HandleRequest. rewrite H1, ret_bind. destruct (Z.eqb_spec sentinel kSentinel) as [->|]; cbn [negb].
  - rewrite H2, ret_bind. destruct Hor as [|Hs]; [done|]. rewrite Hs. by eexists.
  - by eexists.
Qed.

(** ** Properties *)

(** C19.  A call to any method of the four services is its handler, seen through the generated stubs, over a kernel that keeps the
    promise of [RpcKernel] (that the kernel of this repository does is [zion_kernel]).  When the client sends while the
    server waits, messages take at most 0x1000 bytes with their header and at most 15 capabilities, distinct and
    transmittable, and the handler returns and keeps the reply port: the server parses exactly the request that was sent
    (capabilities renamed to the same kernel objects), runs that method's handler once, and the client returns the handler's
    status code and, on success, the handler's response; the buffers of both sides are ready for the next call. *)
Theorem services_transparent {K} `{RpcKernel K} (denali : DenaliServerBase K) (vfs : VFSServerBase K)
    (voyageurs : VoyageursServerBase K) (yellowstone : YellowstoneServerBase K) :
  transparent 0 (Denali_select denali) (HandleRead denali) /\
  transparent 1 (Denali_select denali) (HandleReadMany denali) /\
  transparent 0 (VFS_select vfs) (HandleOpenFile vfs) /\
  transparent 1 (VFS_select vfs) (HandleGetDirectory vfs) /\
  transparent_request 0 (Voyageurs_select voyageurs) (HandleRegisterKeyboardListener voyageurs) /\
  transparent_request 0 (Yellowstone_select yellowstone) (HandleRegisterEndpoint yellowstone) /\
  transparent 1 (Yellowstone_select yellowstone) (HandleGetEndpoint yellowstone) /\
  transparent_response 2 (Yellowstone_select yellowstone) (HandleGetAhciInfo yellowstone) /\
  transparent_response 3 (Yellowstone_select yellowstone) (HandleGetXhciInfo yellowstone) /\
  transparent_response 4 (Yellowstone_select yellowstone) (HandleGetFramebufferInfo yellowstone) /\
  transparent_response 5 (Yellowstone_select yellowstone) (HandleGetDenali yellowstone).
Proof.
  split_and!; first [by apply case_request_response_transparent | by apply case_request_transparent | by apply case_response_transparent].
Qed.

(** ** On the kernel of this repository

    Thread 2 is the client and thread 3 the server, in processes that share an
    endpoint (capability 0x100 of each); the client also has a port, as 0x102.  The
    name server accepts every registration, the other handlers refuse. *)
#[local] Instance demo_calls : Zcalls kernel := zion_calls 2 3.
#[local] Instance demo_kernel : RpcKernel kernel := zion_kernel 2 3.

Definition demo_denali : DenaliServerBase kernel := {|
  HandleRead req rsp k := Ret (Unimplemented "no", rsp, k);
  HandleReadMany req rsp k := Ret (Unimplemented "no", rsp, k) |}.
Definition demo_vfs : VFSServerBase kernel := {|
  HandleOpenFile req rsp k := Ret (Unimplemented "no", rsp, k);
  HandleGetDirectory req rsp k := Ret (Unimplemented "no", rsp, k) |}.
Definition demo_voyageurs : VoyageursServerBase kernel := {| HandleRegisterKeyboardListener req k := Ret (Unimplemented "no", k) |}.
Definition demo_yellowstone : YellowstoneServerBase kernel := {|
  HandleRegisterEndpoint req k := Ret (Status_Ok, k);
  HandleGetEndpoint req rsp k := Ret (Unimplemented "no", rsp, k);
  HandleGetAhciInfo rsp k := Ret (Unimplemented "no", rsp, k);
  HandleGetXhciInfo rsp k := Ret (Unimplemented "no", rsp, k);
  HandleGetFramebufferInfo rsp k := Ret (Unimplemented "no", rsp, k);
  HandleGetDenali rsp k := Ret (Unimplemented "no", rsp, k) |}.
Definition demo_request : RegisterEndpointRequest := mkRegisterEndpointRequest [118; 102; 115] 0x102.

Lemma demo_request_sendable : sendable demo_request (client_cap sample_kernel).
Proof.
  split; [|split; [split; [cbn; lia|apply NoDup_singleton]|by exists [port_cap]]]. exists (RegisterEndpointRequest_bytes demo_request). split; [|done].
  apply RegisterEndpointRequest_transfers. repeat split; try done.
Qed.

Lemma demo_ready : exchange_ready (Client_new 0x100) ServerBuffers_new 0x100 sample_kernel.
Proof.
  split; [by split|]. split; [by split|]. split.
  - split; [apply sample_kernel_inv|by apply sample_room|split; [by vm_compute|by left]|split; [by vm_compute|right; by left]|by vm_compute].
  - exists 10%positive. split_and!; [exists client_table, endpoint_cap|exists server_table, endpoint_cap|by eexists]; by vm_compute.
Qed.

Lemma services_transparent_witness :
  exists code msg cl' s' k' l k1 hst k2,
    rpc_exchange 0 (Some (serialize_caps demo_request)) None 0x100 (HandleRequest (Yellowstone_select demo_yellowstone))
      (Client_new 0x100) ServerBuffers_new tt sample_kernel = Ret (mkRpc code msg, tt, cl', s', k') /\
    client_ok cl' /\ server_ok s' /\
    HandleRegisterEndpoint demo_yellowstone (with_caps l demo_request) k1 = Ret (hst, k2) /\ server_cap k1 <$> l = [Some port_cap] /\
    code = ErrorCode_val (code_ hst).
Proof.
  refine (proj1 (proj2 (proj2 (proj2 (proj2 (proj2 (services_transparent demo_denali demo_vfs demo_voyageurs demo_yellowstone))))))
    _ (Client_new 0x100) ServerBuffers_new 0x100 sample_kernel demo_request demo_ready demo_request_sendable).
  intros req k rp srp Haw. do 2 eexists. split; [reflexivity|exact Haw].
Defined.
