(* ===== verification/Strings.v ===== *)
(** * Strings (lib/glacier/string)

    [StringView], [String], [StrSplit], the string builders and [StrFormat].
    Characters are their codes.  A view is the memory from its pointer to the
    end of the allocation, and a size that can be at odds with it: reading a
    character outside the allocation faults.  The builders are instances of
    the interface [StringBuilder] that [StrFormat] is written against. *)

From Stdlib Require Import ZArith Lia.
From stdpp Require Import base tactics numbers list sets.
From S2P Require Import Prelude Vector.

(** ** StringView *)
Record StringView : Type := mkView { value_ : list Z; size_ : Z }.

Definition npos : Z := 2 ^ 64 - 1.

(** [cstrlen]: the memory must hold a terminator. *)
Fixpoint cstrlen (mem : list Z) : res Z :=
  match mem with
  | [] => Fault
  | c :: mem' => if c =? 0 then Ret 0 else n ← cstrlen mem'; Ret (n [+] 1)
  end.

Section view.
Implicit Types v : StringView.

Definition StringView_empty : StringView := mkView [] 0.
Definition StringView_of_cstr (str : list Z) : res StringView := n ← cstrlen str; Ret (mkView str n).

Definition view_empty v : bool := size_ v =? 0.

Definition view_at (pos : Z) v : res Z := if 0 <=? pos then deref (value_ v !! Z.to_nat pos) else Fault.

(** The loop of [find], [n] characters from [i] on. *)
Fixpoint find_loop (n : nat) (i c : Z) v : res Z :=
  match n with
  | O => Ret npos
  | S n' => x ← view_at i v; if x =? c then Ret i else find_loop n' (i + 1) c v
  end.

Definition find (c pos : Z) v : res Z :=
  if pos <? size_ v then find_loop (Z.to_nat (size_ v - pos)) pos c v else Ret npos.

Definition substr (start count : Z) v : StringView :=
  if start >=? size_ v then StringView_empty else
  let count := if start [+] count >? size_ v then size_ v [-] start else count in
  mkView (drop (Z.to_nat start) (value_ v)) count.

(** The comparison loop; equal pointers only make it shorter. *)
Fixpoint equal_loop (n : nat) (i : Z) v1 v2 : res bool :=
  match n with
  | O => Ret true
  | S n' =>
      a ← view_at i v1; b ← view_at i v2;
      if negb (a =? b) then Ret false else equal_loop n' (i + 1) v1 v2
  end.

Definition view_eq v1 v2 : res bool :=
  if view_empty v1 && view_empty v2 then Ret true
  else if negb (size_ v1 =? size_ v2) then Ret false
  else equal_loop (Z.to_nat (size_ v1)) 0 v1 v2.
End view.

(** ** String: an allocation of its own, with a terminator *)
Record String : Type := mkString { cstr_ : option (list Z); length_ : Z }.

Definition String_empty : String := mkString None 0.

(** The copying loop of the constructors, [n] characters from [i] on. *)
Fixpoint string_copy (n : nat) (i : Z) (src dst : list Z) : res (list Z) :=
  match n with
  | O => Ret dst
  | S n' => c ← deref (src !! Z.to_nat i); string_copy n' (i + 1) src (<[Z.to_nat i := c]> dst)
  end.

Definition String_new (cstr : list Z) (str_len : Z) : res String :=
  let cstr' := replicate (Z.to_nat (str_len + 1)) 0 in
  cstr' ← string_copy (Z.to_nat str_len) 0 cstr cstr';
  Ret (mkString (Some (<[Z.to_nat str_len := 0]> cstr')) str_len).

Definition String_of_view (v : StringView) : res String := String_new (value_ v) (size_ v).

(** [String(String&& other)]: the new string and what is left of [other]. *)
Definition String_move (s : String) : String * String := (s, String_empty).

Definition String_view (s : String) : StringView :=
  mkView (match cstr_ s with Some l => l | None => [] end) (length_ s).

Definition String_at (offset : Z) (s : String) : res Z := view_at offset (String_view s).

(** [operator=(const String& other)]: the old allocation is dropped, the characters are copied into
    a new one. *)
Definition String_assign (this other : String) : res String := String_new (value_ (String_view other)) (length_ other).

Definition String_eq (s other : String) : res bool :=
  if negb (length_ other =? length_ s) then Ret false
  else equal_loop (Z.to_nat (length_ s)) 0 (String_view s) (String_view other).

(** ** StrSplit *)

(** The loop: one turn per delimiter. *)
Fixpoint split_loop (fuel : nat) (str : StringView) (delimiter cur_pos : Z) (strings : Vector StringView) :
    res (Z * Vector StringView) :=
  next_pos ← find delimiter cur_pos str;
  if next_pos =? npos then Ret (cur_pos, strings) else
  match fuel with
  | O => NoFuel
  | S fuel' =>
      strings ← vec_PushBack (substr cur_pos (next_pos [-] cur_pos) str) strings;
      split_loop fuel' str delimiter (next_pos [+] 1) strings
  end.

Definition StrSplit (str : StringView) (delimiter : Z) : res (Vector StringView) :=
  '(cur_pos, strings) ← split_loop (S (Z.to_nat (size_ str))) str delimiter 0 vec_new;
  vec_PushBack (substr cur_pos (size_ str [-] cur_pos) str) strings.

(** ** StringBuilder *)
Class StringBuilder (B : Type) : Type := {
  sb_PushBack : StringView -> B -> res B;
  sb_PushChar : Z -> B -> res B;
}.

(** The loop [PushBack(str[i])] of both builders, [n] characters from [i] on. *)
Fixpoint push_chars {B} (push : Z -> B -> res B) (n : nat) (i : Z) (str : StringView) (b : B) : res B :=
  match n with
  | O => Ret b
  | S n' => c ← view_at i str; b ← push c b; push_chars push n' (i + 1) str b
  end.

(** [while (new_capacity < size() + str.size()) new_capacity *= 2] *)
Fixpoint grow_loop (fuel : nat) (new_capacity needed : Z) : res Z :=
  if new_capacity <? needed then
    match fuel with
    | O => NoFuel
    | S fuel' => grow_loop fuel' (new_capacity [*] 2) needed
    end
  else Ret new_capacity.

Definition VariableStringBuilder_PushBack (str : StringView) (data_ : Vector Z) : res (Vector Z) :=
  data_ ← (if capacity_ data_ <? vsize_ data_ [+] size_ str then
             let new_capacity := if capacity_ data_ =? 0 then 1 else capacity_ data_ [*] 2 in
             new_capacity ← grow_loop 64 new_capacity (vsize_ data_ [+] size_ str);
             vec_Resize new_capacity data_
           else Ret data_);
  push_chars vec_PushBack (Z.to_nat (size_ str)) 0 str data_.

Definition VariableStringBuilder_DeleteLast (data_ : Vector Z) : res (Vector Z) :=
  if vsize_ data_ >? 0 then '(_, v) ← vec_PopBack data_; Ret v else Ret data_.

(** [RawPtr()] and [size()] as a view. *)
Definition VariableStringBuilder_view (data_ : Vector Z) : StringView :=
  mkView (match vdata_ data_ with Some d => default 0 <$> d | None => [] end) (vsize_ data_).

Definition VariableStringBuilder_ToString (data_ : Vector Z) : res String :=
  let v := VariableStringBuilder_view data_ in String_new (value_ v) (size_ v).

Definition VariableStringBuilder_Reset (data_ : Vector Z) : Vector Z := vec_new.

#[export] Instance VariableStringBuilder : StringBuilder (Vector Z) := {
  sb_PushBack := VariableStringBuilder_PushBack;
  sb_PushChar := vec_PushBack;
}.

Record FixedStringBuilder : Type := mkFixed { fbuffer_ : list Z; fcapacity_ : Z; fsize_ : Z }.

Definition FixedStringBuilder_new (buffer : list Z) (size : Z) : FixedStringBuilder := mkFixed buffer size 0.

(** [buffer_[i] = c] *)
Definition fixed_store (i c : Z) (b : FixedStringBuilder) : res FixedStringBuilder :=
  if (0 <=? i) && (i <? Z.of_nat (length (fbuffer_ b)))
  then Ret (mkFixed (<[Z.to_nat i := c]> (fbuffer_ b)) (fcapacity_ b) (fsize_ b)) else Fault.

Definition FixedStringBuilder_PushChar (str : Z) (b : FixedStringBuilder) : res FixedStringBuilder :=
  if fsize_ b >=? fcapacity_ b then
    b ← fixed_store (fcapacity_ b [-] 1) 62 b;
    fixed_store (fcapacity_ b [-] 2) 33 b
  else
    b ← fixed_store (fsize_ b) str b;
    Ret (mkFixed (fbuffer_ b) (fcapacity_ b) (fsize_ b [+] 1)).

Definition FixedStringBuilder_PushBack (str : StringView) (b : FixedStringBuilder) : res FixedStringBuilder :=
  push_chars FixedStringBuilder_PushChar (Z.to_nat (size_ str)) 0 str b.

Definition FixedStringBuilder_DeleteLast (b : FixedStringBuilder) : FixedStringBuilder :=
  if fsize_ b >? 0 then mkFixed (fbuffer_ b) (fcapacity_ b) (fsize_ b [-] 1) else b.

Definition FixedStringBuilder_Reset (b : FixedStringBuilder) : FixedStringBuilder := mkFixed (fbuffer_ b) (fcapacity_ b) 0.

Definition FixedStringBuilder_view (b : FixedStringBuilder) : StringView := mkView (fbuffer_ b) (fsize_ b).

Definition FixedStringBuilder_ToString (b : FixedStringBuilder) : res String := String_new (fbuffer_ b) (fsize_ b).

#[export] Instance FixedStringBuilder_builder : StringBuilder FixedStringBuilder := {
  sb_PushBack := FixedStringBuilder_PushBack;
  sb_PushChar := FixedStringBuilder_PushChar;
}.

(** ** StrFormat *)
Definition kHexCharacters : list Z := [48; 49; 50; 51; 52; 53; 54; 55; 56; 57; 65; 66; 67; 68; 69; 70].

(** The arguments [StrFormatValue] is specialised for. *)
Inductive format_arg : Type :=
  | ArgUint (value : Z)        (* uint8_t, uint16_t, uint32_t, uint64_t *)
  | ArgInt32 (value : Z)
  | ArgChar (value : Z)
  | ArgCstr (value : list Z)   (* char const*; also an ErrorCode, through ErrorCodeToStr *)
  | ArgView (value : StringView)
  | ArgString (value : String).

Section format.
Context {B : Type} `{StringBuilder B}.

Fixpoint StrFormatNumber (fuel : nat) (value base : Z) (builder : B) : res B :=
  match fuel with
  | O => NoFuel
  | S fuel' =>
      if value <? base then c ← deref (kHexCharacters !! Z.to_nat value); sb_PushChar c builder
      else
        builder ← StrFormatNumber fuel' (value / base) base builder;
        c ← deref (kHexCharacters !! Z.to_nat (value mod base));
        sb_PushChar c builder
  end.

Definition StrFormatValue_uint64 (value : Z) (opts : StringView) (builder : B) : res B :=
  pos ← find 120 0 opts;
  if negb (pos =? npos) then
    prefix ← StringView_of_cstr [48; 120; 0];
    builder ← sb_PushBack prefix builder;
    StrFormatNumber 65 value 16 builder
  else StrFormatNumber 65 value 10 builder.

(** [StrFormatInternal] without values left. *)
Definition StrFormatInternal_none (format : StringView) (builder : B) : res B := sb_PushBack format builder.

Definition StrFormatValue (value : format_arg) (opts : StringView) (builder : B) : res B :=
  match value with
  | ArgUint v => StrFormatValue_uint64 v opts builder
  | ArgInt32 v => StrFormatValue_uint64 (u64 v) opts builder
  | ArgChar v => sb_PushChar v builder
  | ArgCstr v => str ← StringView_of_cstr v; StrFormatInternal_none str builder
  | ArgView v => StrFormatInternal_none v builder
  | ArgString v => StrFormatInternal_none (String_view v) builder
  end.

Fixpoint StrFormatInternal (format : StringView) (args : list format_arg) (builder : B) : res B :=
  match args with
  | [] => StrFormatInternal_none format builder
  | value :: args' =>
      posl ← find 123 0 format;
      posr ← find 125 posl format;
      if (posl =? npos) || (posr =? npos) then StrFormatInternal_none format builder else
      builder ← sb_PushBack (substr 0 posl format) builder;
      builder ← StrFormatValue value (substr (posl [+] 1) (posr [-] posl [-] 1) format) builder;
      StrFormatInternal (substr (posr [+] 1) (size_ format [-] posr [-] 1) format) args' builder
  end.
End format.

Definition StrFormat (format : StringView) (args : list format_arg) : res String :=
  builder ← StrFormatInternal format args vec_new;
  VariableStringBuilder_ToString builder.

(** ** What a view stands for *)
Definition view_chars (v : StringView) : list Z := take (Z.to_nat (size_ v)) (value_ v).

Definition view_ok (v : StringView) : Prop := 0 <= size_ v <= Z.of_nat (length (value_ v)) /\ size_ v < 2 ^ 61.

(** The first position of a character. *)
Fixpoint index_of (c : Z) (l : list Z) : option nat :=
  match l with
  | [] => None
  | x :: l' => if x =? c then Some O else S <$> index_of c l'
  end.

Section views.
Implicit Types v : StringView.

Lemma length_view_chars v : view_ok v -> Z.of_nat (length (view_chars v)) = size_ v.
Proof. intros [H1 H2]. unfold view_chars. rewrite length_take. lia. Qed.

Lemma view_at_spec v i c : view_ok v -> view_chars v !! i = Some c -> view_at (Z.of_nat i) v = Ret c.
Proof.
  intros Hv Hi. unfold view_at. rewrite (proj2 (Z.leb_le _ _)), Nat2Z.id by lia. unfold view_chars in Hi.
  apply lookup_take_Some in Hi as [-> _]. done.
Qed.

Lemma index_of_Some c l i : index_of c l = Some i -> l !! i = Some c /\ c ∉ take i l.
Proof.
  revert i. induction l as [|x l IH]; intros i; cbn [index_of]; [done|]. destruct (Z.eqb_spec x c) as [->|Hne].
  - intros [= <-]. split; [done|]. apply not_elem_of_nil.
  - destruct (index_of c l) as [j|]; cbn; [|done]. intros [= <-]. destruct (IH j eq_refl) as [H1 H2]. split; [done|].
    cbn. apply not_elem_of_cons. split; [congruence|done].
Qed.

Lemma index_of_None c l : index_of c l = None -> c ∉ l.
Proof.
  induction l as [|x l IH]; cbn [index_of]; [intros _; apply not_elem_of_nil|]. destruct (Z.eqb_spec x c); [done|].
  destruct (index_of c l); [done|]. intros _. apply not_elem_of_cons. split; [congruence|by apply IH].
Qed.

Lemma index_of_app_r c l1 l2 : c ∉ l1 -> index_of c (l1 ++ c :: l2) = Some (length l1).
Proof.
  induction l1 as [|x l1 IH]; cbn; [by rewrite Z.eqb_refl|]. intros [Hx Hl]%not_elem_of_cons.
  rewrite (proj2 (Z.eqb_neq _ _)) by congruence. by rewrite IH.
Qed.

Lemma index_of_not_in c l : c ∉ l -> index_of c l = None.
Proof.
  induction l as [|x l IH]; cbn; [done|]. intros [Hx Hl]%not_elem_of_cons. rewrite (proj2 (Z.eqb_neq _ _)) by congruence. by rewrite IH.
Qed.

Lemma char_find_loop_spec v c n : forall i,
  view_ok v -> (n + i)%nat = length (view_chars v) ->
  find_loop n (Z.of_nat i) c v = Ret (match index_of c (drop i (view_chars v)) with Some j => Z.of_nat (i + j) | None => npos end).
Proof.
  induction n as [|n IH]; intros i Hv Hn; cbn [find_loop].
  - by rewrite drop_ge by lia.
  - destruct (lookup_lt_is_Some_2 (view_chars v) i) as [x Hx]; [lia|]. rewrite (view_at_spec v i x) by done. rewrite ret_bind.
    rewrite (drop_S _ x) by done. cbn [index_of]. destruct (x =? c); [by rewrite Nat.add_0_r|].
    replace (Z.of_nat i + 1) with (Z.of_nat (S i)) by lia. rewrite IH by (done || lia). destruct (index_of c (drop (S i) (view_chars v))); cbn; [|done].
    do 2 f_equal. lia.
Qed.

Lemma find_spec v c pos :
  view_ok v -> 0 <= pos ->
  find c pos v = Ret (match index_of c (drop (Z.to_nat pos) (view_chars v)) with Some j => pos + Z.of_nat j | None => npos end).
Proof.
  intros Hv Hp. pose proof (length_view_chars v Hv) as Hl. unfold find. destruct (Z.ltb_spec pos (size_ v)).
  - pose proof (char_find_loop_spec v c (Z.to_nat (size_ v - pos)) (Z.to_nat pos) Hv ltac:(lia)) as H'. rewrite Z2Nat.id in H' by lia. rewrite H'.
    destruct (index_of _ _); [|done]. f_equal. lia.
  - by rewrite drop_ge by lia.
Qed.

(** In range, [substr] is the part of the string; it never leaves it unless the sum wraps. *)
Lemma substr_spec v start count :
  view_ok v -> 0 <= start -> 0 <= count -> start + count <= size_ v ->
  view_ok (substr start count v) /\ view_chars (substr start count v) = take (Z.to_nat count) (drop (Z.to_nat start) (view_chars v)).
Proof.
  intros Hv Hs Hc Hle. pose proof (length_view_chars v Hv) as Hl. destruct Hv as [Hv Hb]. unfold substr. rewrite Z.geb_leb.
  destruct (Z.leb_spec (size_ v) start).
  - assert (count = 0) as -> by lia. split; [unfold view_ok, StringView_empty; cbn; lia|]. by rewrite take_0.
  - rewrite u64_small, Z.gtb_ltb, (proj2 (Z.ltb_ge _ _)) by lia. split.
    + unfold view_ok. cbn [value_ size_]. rewrite length_drop. lia.
    + unfold view_chars. cbn [value_ size_]. rewrite skipn_firstn_comm, take_take. f_equal. lia.
Qed.

(** A count that wraps the sum yields a view that claims more than the memory holds. *)
Lemma substr_wraps v start : view_ok v -> 0 < start < size_ v -> size_ (substr start npos v) = npos /\ ~ view_ok (substr start npos v).
Proof.
  intros [Hv Hb] Hs. assert (size_ (substr start npos v) = npos) as He.
  { unfold substr. rewrite Z.geb_leb, (proj2 (Z.leb_gt _ _)) by lia. unfold npos.
    replace (u64 (start + (2 ^ 64 - 1))) with (start - 1); [rewrite Z.gtb_ltb, (proj2 (Z.ltb_ge _ _)) by lia; done|].
    unfold u64. replace (start + (2 ^ 64 - 1)) with (start - 1 + 1 * 2 ^ 64) by lia. rewrite Z.mod_add, Z.mod_small by lia. done. }
  split; [done|]. intros [_ H]. rewrite He in H. unfold npos in H. lia.
Qed.
End views.

(** ** Splitting *)
Fixpoint join (d : Z) (ps : list (list Z)) : list Z :=
  match ps with
  | [] => []
  | [p] => p
  | p :: ps' => p ++ d :: join d ps'
  end.

Lemma join_cons d p ps : ps <> [] -> join d (p :: ps) = p ++ d :: join d ps.
Proof. by destruct ps. Qed.

Lemma snoc_ne_nil {A} (l : list A) x : l ++ [x] <> [].
Proof. intros [_ H]%app_nil. done. Qed.

Section split.
Context (str : StringView) (d : Z) (Hstr : view_ok str).

Lemma split_loop_spec fuel : forall cur acc strings,
  0 <= cur <= size_ str -> size_ str - cur < Z.of_nat fuel -> vec_is strings acc -> Z.of_nat (length acc) <= cur ->
  exists cur' strings' ps, split_loop fuel str d cur strings = Ret (cur', strings') /\ cur <= cur' <= size_ str /\
    vec_is strings' (acc ++ ps) /\ Z.of_nat (length (acc ++ ps)) <= cur' /\ Forall view_ok ps /\
    join d ((view_chars <$> ps) ++ [drop (Z.to_nat cur') (view_chars str)]) = drop (Z.to_nat cur) (view_chars str) /\
    Forall (fun p => d ∉ p) ((view_chars <$> ps) ++ [drop (Z.to_nat cur') (view_chars str)]).
Proof.
  pose proof (length_view_chars str Hstr) as Hl. assert (size_ str < 2 ^ 61) as Hb by apply Hstr.
  induction fuel as [|fuel IH]; intros cur acc strings Hc Hf Hv Ha; [lia|]. cbn [split_loop]. rewrite find_spec by (done || lia). rewrite ret_bind.
  destruct (index_of d (drop (Z.to_nat cur) (view_chars str))) as [j|] eqn:Ej.
  - apply index_of_Some in Ej as [Hj Hnj]. rewrite lookup_drop in Hj. pose proof (lookup_lt_Some _ _ _ Hj) as Hlt.
    rewrite (proj2 (Z.eqb_neq _ _)) by (unfold npos; lia). rewrite (u64_small (cur + _ - cur)), (u64_small (cur + _ + 1)) by lia.
    replace (cur + Z.of_nat j - cur) with (Z.of_nat j) by lia.
    destruct (substr_spec str cur (Z.of_nat j) Hstr) as [Hok Hch]; [lia|lia|lia|]. rewrite Nat2Z.id in Hch.
    destruct (vec_PushBack_spec strings acc (substr cur (Z.of_nat j) str) Hv) as (s1 & -> & Hs1 & _); [lia|]. rewrite ret_bind.
    destruct (IH (cur + Z.of_nat j + 1) (acc ++ [substr cur (Z.of_nat j) str]) s1) as (cur' & s' & ps & -> & Hc' & Hs' & Hlen & Hps & Hj' & Hn');
      [lia|lia|done|rewrite length_app; cbn; lia|].
    exists cur', s', (substr cur (Z.of_nat j) str :: ps). rewrite <- app_assoc in *. cbn [app] in *.
    split_and!; [done|lia|lia|done|done|by constructor| |].
    + rewrite fmap_cons. cbn [app]. rewrite join_cons by apply snoc_ne_nil. rewrite Hj', Hch.
      rewrite <- (take_drop_middle (drop (Z.to_nat cur) (view_chars str)) j d) at 2 by (by rewrite lookup_drop).
      rewrite drop_drop. do 3 f_equal. lia.
    + rewrite fmap_cons. cbn [app]. constructor; [by rewrite Hch|done].
  - apply index_of_None in Ej. rewrite Z.eqb_refl. exists cur, strings, []. rewrite app_nil_r.
    split_and!; [done|lia|lia|done|lia|constructor|done|]. cbn. by repeat constructor.
Qed.
End split.

Lemma StrSplit_spec (str : StringView) (d : Z) :
  view_ok str ->
  exists v ps, StrSplit str d = Ret v /\ vec_is v ps /\ ps <> [] /\ Forall view_ok ps /\
    join d (view_chars <$> ps) = view_chars str /\ Forall (fun p => d ∉ view_chars p) ps.
Proof.
  intros Hs. pose proof (length_view_chars str Hs) as Hl. assert (0 <= size_ str < 2 ^ 61) as Hb by (destruct Hs; lia). unfold StrSplit.
  destruct (split_loop_spec str d Hs (S (Z.to_nat (size_ str))) 0 [] vec_new) as (cur & v & ps & -> & Hc & Hv & Hlen & Hps & Hj & Hn);
    [lia|lia|apply vec_new_is|cbn; lia|]. rewrite ret_bind, u64_small by lia.
  destruct (substr_spec str cur (size_ str - cur) Hs) as [Hok Hch]; [lia|lia|lia|]. rewrite take_ge in Hch by (rewrite length_drop; lia).
  destruct (vec_PushBack_spec v ps (substr cur (size_ str - cur) str) Hv) as (v' & -> & Hv' & _); [cbn in Hlen; lia|].
  exists v', (ps ++ [substr cur (size_ str - cur) str]). split_and!; [done|done|apply snoc_ne_nil|by apply Forall_app; split; [|constructor]| |].
  - by rewrite fmap_app, fmap_cons, Hch.
  - apply Forall_app in Hn as [Hn1 Hn2]. apply Forall_app. split; [exact (proj1 (Forall_fmap _ _ _) Hn1)|]. apply Forall_singleton. rewrite Hch.
    exact (proj1 (Forall_singleton _ _) Hn2).
Qed.

(** The reference splitting, and that pieces without the delimiter determine it. *)
Fixpoint split_on (d : Z) (l : list Z) : list (list Z) :=
  match l with
  | [] => [[]]
  | c :: l' =>
      if c =? d then [] :: split_on d l'
      else match split_on d l' with p :: ps => (c :: p) :: ps | [] => [[c]] end
  end.

Lemma split_on_piece d p l : d ∉ p -> split_on d (p ++ d :: l) = p :: split_on d l.
Proof.
  induction p as [|c p IH]; intros Hp; cbn [app split_on]; [by rewrite Z.eqb_refl|].
  apply not_elem_of_cons in Hp as [Hc Hp]. rewrite (proj2 (Z.eqb_neq c d)) by congruence. by rewrite IH.
Qed.

Lemma split_on_last d p : d ∉ p -> split_on d p = [p].
Proof.
  induction p as [|c p IH]; intros Hp; cbn [split_on]; [done|]. apply not_elem_of_cons in Hp as [Hc Hp].
  rewrite (proj2 (Z.eqb_neq c d)) by congruence. by rewrite IH.
Qed.

Lemma split_join d ps : ps <> [] -> Forall (fun p => d ∉ p) ps -> split_on d (join d ps) = ps.
Proof.
  induction ps as [|p ps IH]; intros Hne HF; [done|]. apply Forall_cons in HF as [Hp HF]. destruct ps as [|q ps].
  - cbn [join]. by apply split_on_last.
  - rewrite join_cons by done. by rewrite split_on_piece, IH.
Qed.

(** [operator==] on views compares their characters. *)
Lemma equal_loop_spec v1 v2 n : forall i,
  view_ok v1 -> view_ok v2 -> size_ v1 = size_ v2 -> Z.of_nat i + Z.of_nat n = size_ v1 ->
  equal_loop n (Z.of_nat i) v1 v2 = Ret (bool_decide (drop i (view_chars v1) = drop i (view_chars v2))).
Proof.
  induction n as [|n IH]; intros i H1 H2 Hs Hi; cbn [equal_loop];
    pose proof (length_view_chars v1 H1) as L1; pose proof (length_view_chars v2 H2) as L2.
  { rewrite !drop_ge by lia. done. }
  destruct (lookup_lt_is_Some_2 (view_chars v1) i) as [a Ha]; [lia|]. destruct (lookup_lt_is_Some_2 (view_chars v2) i) as [b Hb]; [lia|].
  rewrite (view_at_spec v1 i a H1 Ha), (view_at_spec v2 i b H2 Hb). cbn [mbind res_bind].
  rewrite (drop_S _ _ _ Ha), (drop_S _ _ _ Hb). destruct (Z.eqb_spec a b) as [->|Hne]; cbn [negb].
  - replace (Z.of_nat i + 1) with (Z.of_nat (S i)) by lia. rewrite IH by (done || lia). f_equal. apply bool_decide_ext. split; congruence.
  - by rewrite bool_decide_false by congruence.
Qed.

Lemma view_eq_spec v1 v2 : view_ok v1 -> view_ok v2 -> view_eq v1 v2 = Ret (bool_decide (view_chars v1 = view_chars v2)).
Proof.
  intros H1 H2. pose proof (length_view_chars v1 H1) as L1. pose proof (length_view_chars v2 H2) as L2. unfold view_eq, view_empty.
  destruct (Z.eqb_spec (size_ v1) (size_ v2)) as [Hs|Hs]; cbn [negb].
  - destruct (Z.eqb_spec (size_ v1) 0) as [E1|E1]; cbn [andb].
    + rewrite (proj2 (Z.eqb_eq (size_ v2) 0)) by lia. rewrite bool_decide_true; [done|].
      rewrite (nil_length_inv (view_chars v1)), (nil_length_inv (view_chars v2)) by lia. done.
    + change 0 with (Z.of_nat 0). rewrite equal_loop_spec by (done || lia). by rewrite !drop_0.
  - rewrite bool_decide_false by congruence. destruct (Z.eqb_spec (size_ v1) 0), (Z.eqb_spec (size_ v2) 0); cbn [andb]; try done. lia.
Qed.

(** Splitting: for every string and delimiter [StrSplit] returns views inside the string whose
    characters contain no delimiter and give the string back when they are joined with it. *)
Theorem StrSplit_splits (str : StringView) (d : Z) :
  view_ok str ->
  exists v ps, StrSplit str d = Ret v /\ vec_is v ps /\ ps <> [] /\ Forall view_ok ps /\
    join d (view_chars <$> ps) = view_chars str /\ Forall (fun p => d ∉ view_chars p) ps.
Proof. apply StrSplit_spec. Qed.

(** ** What a builder promises: pushes append, up to its capacity *)
Class StringBuilderLaws (B : Type) `{StringBuilder B} : Type := {
  sb_is : B -> list Z -> Prop;
  sb_cap : B -> Z;
  sb_PushChar_law b l c : sb_is b l -> Z.of_nat (length l) + 1 <= sb_cap b ->
    exists b', sb_PushChar c b = Ret b' /\ sb_is b' (l ++ [c]) /\ sb_cap b' = sb_cap b;
  sb_PushBack_law b l v : sb_is b l -> view_ok v -> Z.of_nat (length l) + size_ v <= sb_cap b ->
    exists b', sb_PushBack v b = Ret b' /\ sb_is b' (l ++ view_chars v) /\ sb_cap b' = sb_cap b;
}.

Section builders.
(** The loop over the characters, from a push of one character. *)
Lemma push_chars_spec {B} (push : Z -> B -> res B) (R : B -> list Z -> Prop) v n : forall i b l,
  view_ok v -> (n + i)%nat = length (view_chars v) -> R b l ->
  (forall b' l' c, R b' l' -> (length l <= length l' < length l + n)%nat -> exists b'', push c b' = Ret b'' /\ R b'' (l' ++ [c])) ->
  exists b', push_chars push n (Z.of_nat i) v b = Ret b' /\ R b' (l ++ drop i (view_chars v)).
Proof.
  induction n as [|n IH]; intros i b l Hv Hn Hb Hp; cbn [push_chars].
  - exists b. rewrite drop_ge, app_nil_r by lia. done.
  - destruct (lookup_lt_is_Some_2 (view_chars v) i) as [c Hc]; [lia|]. rewrite (view_at_spec v i c) by done. rewrite ret_bind.
    destruct (Hp b l c Hb) as (b1 & -> & Hb1); [lia|]. rewrite ret_bind. replace (Z.of_nat i + 1) with (Z.of_nat (S i)) by lia.
    destruct (IH (S i) b1 (l ++ [c])) as (b' & Hr & Hb'); [done|lia|done| |].
    + intros b2 l2 c2 H2 Hl2. apply Hp; [done|]. rewrite length_app in Hl2. cbn in Hl2. lia.
    + exists b'. split; [done|]. rewrite (drop_S _ c) by done. by rewrite <- app_assoc in Hb'.
Qed.

Lemma grow_loop_spec fuel : forall c needed,
  0 < c -> needed <= 2 ^ 61 -> c < 2 ^ 62 -> needed <= c * 2 ^ Z.of_nat fuel ->
  exists c', grow_loop fuel c needed = Ret c' /\ needed <= c' < 2 ^ 62 /\ c <= c'.
Proof.
  induction fuel as [|fuel IH]; intros c needed Hc Hn Hb Hf; cbn [grow_loop]; destruct (Z.ltb_spec c needed); try (exists c; split; [done|lia]).
  - rewrite Z.mul_1_r in Hf. lia.
  - rewrite u64_small by lia. destruct (IH (c * 2) needed) as (c' & -> & ? & ?); [lia|lia|lia| |exists c'; split; [done|lia]].
    rewrite Nat2Z.inj_succ, Z.pow_succ_r in Hf by lia. lia.
Qed.

Lemma Variable_PushBack_spec b l v :
  vec_is b l -> view_ok v -> Z.of_nat (length l) + size_ v <= 2 ^ 61 ->
  exists b', VariableStringBuilder_PushBack v b = Ret b' /\ vec_is b' (l ++ view_chars v).
Proof.
  intros Hb Hv Hlen. pose proof (length_view_chars v Hv) as Hl. unfold VariableStringBuilder_PushBack.
  pose proof (vi_size _ _ Hb) as Hsz. pose proof (vi_cap _ _ Hb) as Hcap. rewrite (u64_small (vsize_ b + size_ v)) by (destruct Hv; lia).
  assert (exists b1, (if capacity_ b <? vsize_ b + size_ v then
             new_capacity ← grow_loop 64 (if capacity_ b =? 0 then 1 else capacity_ b [*] 2) (vsize_ b + size_ v);
             vec_Resize new_capacity b
           else Ret b) = Ret b1 /\ vec_is b1 l) as (b1 & Hg & Hb1).
  { destruct (Z.ltb_spec (capacity_ b) (vsize_ b + size_ v)); [|by exists b].
    destruct (grow_loop_spec 64 (if capacity_ b =? 0 then 1 else capacity_ b [*] 2) (vsize_ b + size_ v)) as (c & -> & Hc & _).
    - destruct (Z.eqb_spec (capacity_ b) 0); [lia|]. rewrite u64_small by lia. lia.
    - lia.
    - destruct (Z.eqb_spec (capacity_ b) 0); [lia|]. rewrite u64_small by lia. lia.
    - assert (1 <= (if capacity_ b =? 0 then 1 else capacity_ b [*] 2)) by (destruct (Z.eqb_spec (capacity_ b) 0); [lia|rewrite u64_small by lia; lia]).
      change (2 ^ Z.of_nat 64) with (2 ^ 64). nia.
    - rewrite ret_bind. destruct (vec_Resize_spec b l c Hb) as (b1 & ? & ? & _); [destruct Hv; lia|]. eauto. }
  cbn zeta. rewrite Hg, ret_bind.
  destruct (push_chars_spec vec_PushBack vec_is v (Z.to_nat (size_ v)) 0 b1 l Hv) as (b' & Hr & Hb'); [lia|done| |by exists b'].
  intros b2 l2 c H2 Hl2. destruct (vec_PushBack_spec b2 l2 c H2) as (b3 & ? & ? & _); [lia|]. eauto.
Qed.

#[export] Instance VariableStringBuilder_laws : StringBuilderLaws (Vector Z).
Proof.
  refine {| sb_is := vec_is; sb_cap := fun _ => 2 ^ 61 |}.
  - intros b l c Hb Hl. destruct (vec_PushBack_spec b l c Hb) as (b' & ? & ? & _); [lia|]. eauto.
  - intros b l v Hb Hv Hl. destruct (Variable_PushBack_spec b l v Hb Hv Hl) as (b' & ? & ?). eauto.
Defined.

(** A fixed builder: what fits is kept. *)
Record fixed_is (b : FixedStringBuilder) (l : list Z) : Prop := {
  fi_size : fsize_ b = Z.of_nat (length l);
  fi_cap : fsize_ b <= fcapacity_ b <= Z.of_nat (length (fbuffer_ b));
  fi_max : fcapacity_ b < 2 ^ 61;
  fi_data : take (length l) (fbuffer_ b) = l;
}.

Lemma Fixed_PushChar_spec b l c :
  fixed_is b l -> Z.of_nat (length l) + 1 <= fcapacity_ b ->
  exists b', FixedStringBuilder_PushChar c b = Ret b' /\ fixed_is b' (l ++ [c]) /\ fcapacity_ b' = fcapacity_ b.
Proof.
  intros [Hs Hc Hm Hd] Hl. unfold FixedStringBuilder_PushChar. rewrite Z.geb_leb, (proj2 (Z.leb_gt _ _)) by lia. unfold fixed_store.
  rewrite (proj2 (Z.leb_le 0 (fsize_ b))), (proj2 (Z.ltb_lt (fsize_ b) _)) by lia. cbn [andb]. rewrite ret_bind. eexists. split; [done|].
  cbn [fbuffer_ fcapacity_ fsize_]. rewrite u64_small by lia. split; [|done]. split; cbn [fbuffer_ fcapacity_ fsize_].
  - rewrite length_app. cbn. lia.
  - rewrite length_insert. lia.
  - done.
  - rewrite length_app. cbn [length]. rewrite Nat.add_1_r, Hs, Nat2Z.id. rewrite take_insert_app by lia. by rewrite Hd.
Qed.

#[export] Instance FixedStringBuilder_laws : StringBuilderLaws FixedStringBuilder.
Proof.
  refine {| sb_is := fixed_is; sb_cap := fcapacity_ |}; [exact Fixed_PushChar_spec|].
  intros b l v Hb Hv Hl. pose proof (length_view_chars v Hv) as Hlv.
  destruct (push_chars_spec FixedStringBuilder_PushChar (fun b' l' => fixed_is b' l' /\ fcapacity_ b' = fcapacity_ b) v (Z.to_nat (size_ v)) 0 b l Hv)
    as (b' & Hr & Hb' & Hc); [lia|done| |by exists b'].
  intros b2 l2 c [H2 H2c] Hl2. destruct (Fixed_PushChar_spec b2 l2 c H2) as (b3 & ? & ? & ?); [lia|]. exists b3. split_and!; [done|done|congruence].
Defined.

(** When it overflows, the last two characters say so; a buffer of one character is written outside. *)
Lemma Fixed_overflow b l c :
  fixed_is b l -> fsize_ b = fcapacity_ b -> 2 <= fcapacity_ b ->
  exists b', FixedStringBuilder_PushChar c b = Ret b' /\ fixed_is b' (take (length l - 2) l ++ [33; 62]).
Proof.
  intros [Hs Hc Hm Hd] Hfull H2. unfold FixedStringBuilder_PushChar. rewrite Z.geb_leb, (proj2 (Z.leb_le _ _)) by lia. unfold fixed_store.
  rewrite !(u64_small) by lia. rewrite (proj2 (Z.leb_le 0 (fcapacity_ b - 1))), (proj2 (Z.ltb_lt (fcapacity_ b - 1) _)) by lia. cbn [andb].
  rewrite ret_bind. cbn [fbuffer_ fcapacity_]. rewrite length_insert, u64_small by lia.
  rewrite (proj2 (Z.leb_le 0 (fcapacity_ b - 2))), (proj2 (Z.ltb_lt (fcapacity_ b - 2) _)) by lia. cbn [andb]. eexists. split; [done|].
  assert (length (take (length l - 2) l ++ [33; 62]) = length l) as Hlen by (rewrite length_app, length_take; cbn; lia).
  split; cbn [fbuffer_ fcapacity_ fsize_]; [by rewrite Hlen|rewrite !length_insert; lia|done|].
  rewrite Hlen. apply list_eq. intros i. rewrite <- Hd at 3. destruct (decide (i < length l)%nat) as [Hi|Hi].
  2: { rewrite lookup_take_ge by lia. symmetry. apply lookup_ge_None. rewrite length_app, length_take. cbn. rewrite Hd. lia. }
  rewrite lookup_take_lt by done. destruct (decide (i < length l - 2)%nat).
  - rewrite !list_lookup_insert_ne by lia. rewrite lookup_app_l by (rewrite length_take, Hd; lia). by rewrite !lookup_take_lt by lia.
  - rewrite lookup_app_r by (rewrite length_take, Hd; lia). rewrite length_take, Hd. destruct (decide (i = (length l - 2)%nat)) as [->|].
    + replace (Z.to_nat (fcapacity_ b - 2)) with (length l - 2)%nat by lia. rewrite list_lookup_insert_eq by (rewrite length_insert; lia).
      by replace (length l - 2 - (length l - 2) `min` length l)%nat with 0%nat by lia.
    + rewrite list_lookup_insert_ne by lia. replace i with (Z.to_nat (fcapacity_ b - 1)) by lia. rewrite list_lookup_insert_eq by lia.
      by replace (Z.to_nat (fcapacity_ b - 1) - (length l - 2) `min` length l)%nat with 1%nat by lia.
Qed.

Lemma Fixed_overflow_one x c : FixedStringBuilder_PushChar c (mkFixed [x] 1 1) = Fault.
Proof. reflexivity. Qed.
End builders.

(** ** Formatting *)

(** The value of a numeral. *)
Definition digit_of (c : Z) : Z := if c <? 58 then c - 48 else c - 55.
Definition read_number (base : Z) (ds : list Z) : Z := foldl (fun n c => n * base + digit_of c) 0 ds.

(** [ds] is the numeral of [value]: it reads back, its digits are digits, and there is no leading zero. *)
Definition numeral (base value : Z) (ds : list Z) : Prop :=
  read_number base ds = value /\ Forall (fun c => 0 <= digit_of c < base /\ c ∈ kHexCharacters) ds /\
  (base <= value -> head ds <> Some 48) /\ (value < base -> length ds = 1%nat).

Section format_spec.
Context {B : Type} `{StringBuilderLaws B}.

Lemma digit_char v : 0 <= v < 16 -> exists c, kHexCharacters !! Z.to_nat v = Some c /\ digit_of c = v /\ c ∈ kHexCharacters /\ (v <> 0 -> c <> 48).
Proof.
  intros Hv. replace v with (Z.of_nat (Z.to_nat v)) by lia. assert (Z.to_nat v < 16)%nat as Hn by lia. rewrite Nat2Z.id.
  generalize dependent (Z.to_nat v). intros n Hn.
  do 16 (destruct n as [|n]; [eexists; split; [reflexivity|split; [reflexivity|split; [unfold kHexCharacters; set_solver|cbn; lia]]]|]). lia.
Qed.

Lemma read_number_snoc base ds c : read_number base (ds ++ [c]) = read_number base ds * base + digit_of c.
Proof. unfold read_number. by rewrite foldl_app. Qed.

(** Printing a number terminates within as many turns as it has bits, and prints its numeral. *)
Lemma StrFormatNumber_spec fuel : forall value base b l,
  2 <= base <= 16 -> 0 <= value < 2 ^ (Z.of_nat fuel - 1) -> sb_is b l -> Z.of_nat (length l) + Z.of_nat fuel <= sb_cap b ->
  exists b' ds, StrFormatNumber fuel value base b = Ret b' /\ sb_is b' (l ++ ds) /\ sb_cap b' = sb_cap b /\ numeral base value ds /\
    Z.of_nat (length ds) <= Z.of_nat fuel.
Proof.
  induction fuel as [|fuel IH]; intros value base b l Hb Hv Hl Hc; [cbn in Hv; lia|]. cbn [StrFormatNumber].
  destruct (Z.ltb_spec value base).
  - destruct (digit_char value) as (c & -> & Hd & Hin & Hnz); [lia|]. cbn [deref]. rewrite ret_bind.
    destruct (sb_PushChar_law b l c Hl) as (b' & -> & Hb' & Hcap); [lia|]. exists b', [c]. split_and!; [done|done|done| |cbn; lia].
    unfold numeral, read_number. cbn. split_and!; [lia| |lia|done]. constructor; [|done]. rewrite Hd. split; [lia|done].
  - assert (0 <= value / base < 2 ^ (Z.of_nat fuel - 1)) as Hq.
    { split; [apply Z.div_pos; lia|]. apply Z.div_lt_upper_bound; [lia|].
      assert (1 <= Z.of_nat fuel) by (destruct fuel; [cbn in Hv; lia|lia]).
      replace (Z.of_nat (S fuel) - 1) with (1 + (Z.of_nat fuel - 1)) in Hv by lia. rewrite Z.pow_add_r in Hv by lia. nia. }
    destruct (IH (value / base) base b l) as (b1 & ds & -> & Hb1 & Hc1 & (Hr & Hds & Hz & Ho) & Hn); [lia|done|done|lia|]. rewrite ret_bind.
    pose proof (Z.mod_pos_bound value base). destruct (digit_char (value mod base)) as (c & -> & Hd & Hin & _); [lia|]. cbn [deref]. rewrite ret_bind.
    destruct (sb_PushChar_law b1 (l ++ ds) c Hb1) as (b' & -> & Hb' & Hc'); [rewrite length_app; lia|].
    exists b', (ds ++ [c]). rewrite <- app_assoc in Hb'. split_and!; [done|done|congruence| |rewrite length_app; cbn; lia].
    unfold numeral. rewrite read_number_snoc, Hr, Hd. split_and!.
    + rewrite (Z.div_mod value base) at 3 by lia. lia.
    + apply Forall_app. split; [done|]. constructor; [|done]. rewrite Hd. split; [lia|done].
    + intros _. destruct (decide (base <= value / base)) as [Hge|Hlt].
      * specialize (Hz Hge). destruct ds as [|d ds]; [unfold read_number in Hr; cbn in Hr; lia|]. done.
      * specialize (Ho ltac:(lia)). destruct ds as [|d [|? ?]]; try done. cbn. intros [= ->].
        assert (value / base <> 0) by (intros E; apply Z.div_small_iff in E; lia). unfold read_number, digit_of in Hr. cbn in Hr. lia.
    + lia.
Qed.

(** What an argument prints as. *)
Definition prints_number (v : Z) (opts txt : list Z) : Prop :=
  if bool_decide (120 ∈ opts) then exists ds, txt = [48; 120] ++ ds /\ numeral 16 v ds else numeral 10 v txt.

Definition arg_prints (a : format_arg) (opts txt : list Z) : Prop :=
  match a with
  | ArgUint v => prints_number v opts txt
  | ArgInt32 v => prints_number (u64 v) opts txt
  | ArgChar c => txt = [c]
  | ArgCstr v => exists rest, v = txt ++ 0 :: rest /\ 0 ∉ txt
  | ArgView v => txt = view_chars v
  | ArgString s => txt = view_chars (String_view s)
  end.

Definition arg_ok (a : format_arg) : Prop :=
  match a with
  | ArgUint v => is_u64 v
  | ArgInt32 _ | ArgChar _ => True
  | ArgCstr v => 0 ∈ v /\ Z.of_nat (length v) < 2 ^ 61
  | ArgView v => view_ok v
  | ArgString s => view_ok (String_view s)
  end.

(** A bound on the length of what it prints. *)
Definition arg_room (a : format_arg) : Z :=
  match a with
  | ArgUint _ | ArgInt32 _ => 67
  | ArgChar _ => 1
  | ArgCstr v => Z.of_nat (length v)
  | ArgView v => size_ v
  | ArgString s => length_ s
  end.

Lemma cstrlen_spec txt rest : 0 ∉ txt -> Z.of_nat (length txt) < 2 ^ 61 -> cstrlen (txt ++ 0 :: rest) = Ret (Z.of_nat (length txt)).
Proof.
  induction txt as [|c txt IH]; cbn [app cstrlen length]; intros Hn Hl; [done|]. apply not_elem_of_cons in Hn as [Hc Hn].
  rewrite (proj2 (Z.eqb_neq _ _)) by congruence. rewrite IH by (done || lia). rewrite ret_bind, u64_small by lia. f_equal. lia.
Qed.

Lemma cstr_view txt rest :
  0 ∉ txt -> Z.of_nat (length txt) < 2 ^ 61 ->
  exists v, StringView_of_cstr (txt ++ 0 :: rest) = Ret v /\ view_ok v /\ view_chars v = txt /\ size_ v = Z.of_nat (length txt).
Proof.
  intros Hn Hl. unfold StringView_of_cstr. rewrite cstrlen_spec by done. rewrite ret_bind. eexists. split; [done|]. unfold view_ok, view_chars. cbn [value_ size_].
  rewrite length_app. cbn [length]. split_and!; [lia|lia|lia| |done]. rewrite Nat2Z.id. apply take_app_length.
Qed.

Lemma print_number_spec v opts b l :
  is_u64 v -> view_ok opts -> sb_is b l -> Z.of_nat (length l) + 67 <= sb_cap b ->
  exists b' txt, StrFormatValue_uint64 v opts b = Ret b' /\ sb_is b' (l ++ txt) /\ sb_cap b' = sb_cap b /\
    prints_number v (view_chars opts) txt /\ Z.of_nat (length txt) <= 67.
Proof.
  intros Hv Ho Hb Hl. unfold StrFormatValue_uint64. rewrite find_spec by (done || lia). rewrite ret_bind, drop_0. unfold prints_number.
  pose proof (length_view_chars _ Ho) as Hlo. destruct (index_of 120 (view_chars opts)) as [i|] eqn:Ei.
  - apply index_of_Some in Ei as [Hi _]. pose proof (lookup_lt_Some _ _ _ Hi). rewrite bool_decide_true by (by eapply list_elem_of_lookup_2).
    rewrite (proj2 (Z.eqb_neq _ _)) by (unfold npos; destruct Ho; lia). cbn [negb].
    destruct (cstr_view [48; 120] []) as (p & Hp & Hok & Hch & Hsz); [set_solver|cbn; lia|]. cbn [app length] in Hp, Hsz. rewrite Hp, ret_bind.
    destruct (sb_PushBack_law b l p Hb Hok) as (b1 & -> & Hb1 & Hc1); [lia|]. rewrite ret_bind.
    destruct (StrFormatNumber_spec 65 v 16 b1 (l ++ view_chars p)) as (b' & ds & -> & Hb' & Hc' & Hn & Hlen);
      [lia|unfold is_u64 in Hv; cbn; lia|done|rewrite length_app, Hch; cbn; lia|].
    exists b', ([48; 120] ++ ds). rewrite Hch in Hb'. rewrite app_assoc. split_and!; [done|done|congruence|eauto|cbn; lia].
  - apply index_of_None in Ei. rewrite bool_decide_false by done. rewrite Z.eqb_refl. cbn [negb].
    destruct (StrFormatNumber_spec 65 v 10 b l) as (b' & ds & -> & Hb' & Hc' & Hn & Hlen); [lia|unfold is_u64 in Hv; cbn; lia|done|lia|].
    exists b', ds. split_and!; [done|done|done|done|lia].
Qed.

Lemma StrFormatValue_spec a opts b l :
  arg_ok a -> view_ok opts -> sb_is b l -> Z.of_nat (length l) + arg_room a <= sb_cap b ->
  exists b' txt, StrFormatValue a opts b = Ret b' /\ sb_is b' (l ++ txt) /\ sb_cap b' = sb_cap b /\ arg_prints a (view_chars opts) txt /\
    Z.of_nat (length txt) <= arg_room a.
Proof.
  intros Ha Ho Hb Hl. destruct a as [v|v|c|v|v|v]; cbn [arg_ok arg_room StrFormatValue arg_prints] in *.
  - by apply print_number_spec.
  - apply print_number_spec; [apply u64_is_u64|done..].
  - destruct (sb_PushChar_law b l c Hb) as (b' & -> & Hb' & Hc); [lia|]. exists b', [c]. split_and!; [done|done|done|done|cbn; lia].
  - destruct Ha as [(txt & rest & Hsplit & Hn)%list_elem_of_split_l Hlen]. subst v. rewrite length_app in *. cbn [length] in *.
    destruct (cstr_view txt rest) as (v & -> & Hok & Hch & Hsz); [done|lia|]. rewrite ret_bind. unfold StrFormatInternal_none.
    destruct (sb_PushBack_law b l v Hb Hok) as (b' & -> & Hb' & Hc); [lia|]. exists b', txt. rewrite Hch in Hb'. split_and!; [done|done|done|eauto|lia].
  - unfold StrFormatInternal_none. pose proof (length_view_chars v Ha). destruct (sb_PushBack_law b l v Hb Ha) as (b' & -> & Hb' & Hc); [lia|].
    exists b', (view_chars v). split_and!; [done|done|done|done|lia].
  - unfold StrFormatInternal_none. pose proof (length_view_chars _ Ha). cbn [String_view size_] in *.
    destruct (sb_PushBack_law b l (String_view v) Hb Ha) as (b' & -> & Hb' & Hc); [cbn [String_view size_]; lia|].
    exists b', (view_chars (String_view v)). split_and!; [done|done|done|done|lia].
Qed.

(** A format string as literal text and placeholders, each with its argument. *)
Record segment : Type := mkSeg { seg_text : list Z; seg_opts : list Z; seg_arg : format_arg }.

Definition seg_format (g : segment) : list Z := seg_text g ++ 123 :: seg_opts g ++ [125].
Definition format_text (segs : list segment) (tail : list Z) : list Z := concat (seg_format <$> segs) ++ tail.
Definition seg_ok (g : segment) : Prop := 123 ∉ seg_text g /\ 125 ∉ seg_opts g /\ arg_ok (seg_arg g).
Definition assemble (segs : list segment) (txts : list (list Z)) : list Z := concat (zip_with (fun g t => seg_text g ++ t) segs txts).
Definition args_room (segs : list segment) : Z := foldr (fun g n => arg_room (seg_arg g) + n) 0 segs.

Lemma arg_room_nonneg a : arg_ok a -> 0 <= arg_room a.
Proof. destruct a as [| | | |v|v]; cbn; try lia; intros [? _]; cbn in *; lia. Qed.

Lemma args_room_nonneg segs : Forall seg_ok segs -> 0 <= args_room segs.
Proof. induction 1 as [|g segs (_ & _ & Hg) _ IH]; cbn; [lia|]. pose proof (arg_room_nonneg _ Hg). unfold args_room in IH. lia. Qed.

(** The pieces [StrFormatInternal] cuts a format with a placeholder into. *)
Lemma placeholder_spec fmt g rest :
  view_ok fmt -> view_chars fmt = seg_format g ++ rest -> seg_ok g ->
  let posl := Z.of_nat (length (seg_text g)) in
  let posr := posl + 1 + Z.of_nat (length (seg_opts g)) in
  find 123 0 fmt = Ret posl /\ find 125 posl fmt = Ret posr /\ posr < size_ fmt < 2 ^ 61 /\
  (view_ok (substr 0 posl fmt) /\ view_chars (substr 0 posl fmt) = seg_text g) /\
  (view_ok (substr (posl [+] 1) (posr [-] posl [-] 1) fmt) /\ view_chars (substr (posl [+] 1) (posr [-] posl [-] 1) fmt) = seg_opts g) /\
  (view_ok (substr (posr [+] 1) (size_ fmt [-] posr [-] 1) fmt) /\ view_chars (substr (posr [+] 1) (size_ fmt [-] posr [-] 1) fmt) = rest).
Proof.
  intros Hv Hch (Ht & Ho & _) posl posr. pose proof (length_view_chars fmt Hv) as Hl. assert (size_ fmt < 2 ^ 61) as Hb by apply Hv.
  assert (size_ fmt = posr + 1 + Z.of_nat (length rest)) as Hs.
  { rewrite <- Hl, Hch. unfold seg_format. rewrite !length_app. cbn [length]. rewrite length_app. cbn [length]. lia. }
  assert (seg_format g ++ rest = seg_text g ++ 123 :: seg_opts g ++ 125 :: rest) as Hshape.
  { unfold seg_format. rewrite <- app_assoc. cbn [app]. by rewrite <- app_assoc. }
  rewrite Hshape in Hch. assert (drop (length (seg_text g)) (view_chars fmt) = 123 :: seg_opts g ++ 125 :: rest) as Hd by (rewrite Hch; apply drop_app_length).
  rewrite !find_spec by (done || lia). rewrite (u64_small (posl + 1)), (u64_small (posr - posl)), (u64_small (posr - posl - 1)), (u64_small (posr + 1)),
    (u64_small (size_ fmt - posr)), (u64_small (size_ fmt - posr - 1)) by lia.
  split_and!; try lia.
  - rewrite drop_0, Hch, index_of_app_r by done. done.
  - unfold posl at 1. rewrite Nat2Z.id, Hd. change (123 :: seg_opts g ++ 125 :: rest) with ((123 :: seg_opts g) ++ 125 :: rest).
    rewrite index_of_app_r by (apply not_elem_of_cons; split; [done|done]). cbn [length]. f_equal. lia.
  - apply substr_spec; [done|lia|lia|lia].
  - destruct (substr_spec fmt 0 posl Hv) as [_ ->]; [lia|lia|lia|]. rewrite drop_0, Hch. unfold posl. rewrite Nat2Z.id. apply take_app_length.
  - apply substr_spec; [done|lia|lia|lia].
  - destruct (substr_spec fmt (posl + 1) (posr - posl - 1) Hv) as [_ ->]; [lia|lia|lia|].
    replace (Z.to_nat (posl + 1)) with (length (seg_text g) + 1)%nat by lia. rewrite <- drop_drop, Hd. cbn [drop].
    replace (Z.to_nat (posr - posl - 1)) with (length (seg_opts g)) by lia. apply take_app_length.
  - apply substr_spec; [done|lia|lia|lia].
  - destruct (substr_spec fmt (posr + 1) (size_ fmt - posr - 1) Hv) as [_ ->]; [lia|lia|lia|].
    replace (Z.to_nat (posr + 1)) with (length (seg_text g) + S (length (seg_opts g) + 1))%nat by lia. rewrite <- drop_drop, Hd. cbn [drop].
    rewrite <- drop_drop, drop_app_length. cbn [drop]. apply take_ge. lia.
Qed.

(** No brace is opened and closed again: nothing an argument could replace. *)
Definition no_placeholder (l : list Z) : Prop := forall i, index_of 123 l = Some i -> 125 ∉ drop i l.

Lemma no_placeholder_find fmt : view_ok fmt -> no_placeholder (view_chars fmt) ->
  exists posl posr, find 123 0 fmt = Ret posl /\ find 125 posl fmt = Ret posr /\ (posl =? npos) || (posr =? npos) = true.
Proof.
  intros Hv Hn. rewrite find_spec, drop_0 by (done || lia). destruct (index_of 123 (view_chars fmt)) as [i|] eqn:Ei.
  - exists (Z.of_nat i), npos. split; [done|]. rewrite find_spec, Nat2Z.id by (done || lia). rewrite index_of_not_in by (by apply Hn). by rewrite Z.eqb_refl, orb_true_r.
  - exists npos, npos. split; [done|]. split; [|done]. unfold find. destruct (Z.ltb_spec npos (size_ fmt)); [|done]. destruct Hv. unfold npos in *. lia.
Qed.

(** A format is cut at its placeholders, each taking the next argument; arguments that are left over ([extra]) are not
    printed when there is no further placeholder. *)
Lemma StrFormatInternal_spec segs tail extra : forall fmt b l,
  view_ok fmt -> view_chars fmt = format_text segs tail -> Forall seg_ok segs -> extra = [] \/ no_placeholder tail -> sb_is b l ->
  Z.of_nat (length l) + size_ fmt + args_room segs <= sb_cap b ->
  exists txts b', StrFormatInternal fmt ((seg_arg <$> segs) ++ extra) b = Ret b' /\
    Forall2 (fun g t => arg_prints (seg_arg g) (seg_opts g) t) segs txts /\ sb_is b' (l ++ assemble segs txts ++ tail) /\
    Z.of_nat (length (assemble segs txts ++ tail)) <= size_ fmt + args_room segs.
Proof.
  induction segs as [|g segs IH]; intros fmt b l Hv Hch Hok Hex Hb Hroom; pose proof (length_view_chars fmt Hv) as Hl.
  - unfold format_text in Hch. cbn in Hch. cbn [fmap list_fmap app].
    assert (StrFormatInternal fmt extra b = sb_PushBack fmt b) as ->.
    { destruct extra as [|e extra]; [done|]. destruct Hex as [|Hex]; [done|]. rewrite <- Hch in Hex. destruct (no_placeholder_find fmt Hv Hex) as (posl & posr & H1 & H2 & H3).
      cbn [StrFormatInternal]. by rewrite H1, ret_bind, H2, ret_bind, H3. }
    destruct (sb_PushBack_law b l fmt Hb Hv) as (b' & -> & Hb' & _); [cbn in Hroom; lia|]. exists [], b'. rewrite Hch in Hb', Hl.
    split_and!; [done|constructor|done|cbn; lia].
  - apply Forall_cons in Hok as [Hg Hok]. pose proof (args_room_nonneg segs Hok). pose proof Hg as (_ & _ & Ha). pose proof (arg_room_nonneg _ Ha).
    assert (view_chars fmt = seg_format g ++ format_text segs tail) as Hch' by (rewrite Hch; unfold format_text; cbn; by rewrite <- app_assoc).
    destruct (placeholder_spec fmt g _ Hv Hch' Hg) as (Hfl & Hfr & Hpos & [Hv1 Hc1] & [Hv2 Hc2] & [Hv3 Hc3]).
    set (posl := Z.of_nat (length (seg_text g))) in *. set (posr := posl + 1 + Z.of_nat (length (seg_opts g))) in *.
    rewrite fmap_cons. cbn [StrFormatInternal app]. rewrite Hfl, ret_bind, Hfr, ret_bind.
    rewrite (proj2 (Z.eqb_neq posl npos)), (proj2 (Z.eqb_neq posr npos)) by (unfold npos; lia). cbn [orb].
    change (args_room (g :: segs)) with (arg_room (seg_arg g) + args_room segs) in *.
    pose proof (length_view_chars _ Hv1) as Hl1. pose proof (length_view_chars _ Hv3) as Hl3. rewrite Hc1 in Hl1. rewrite Hc3 in Hl3.
    assert (size_ fmt = posr + 1 + Z.of_nat (length (format_text segs tail))) as Hsz.
    { rewrite <- Hl, Hch'. unfold seg_format. rewrite !length_app. cbn [length]. rewrite length_app. cbn [length]. lia. }
    destruct (sb_PushBack_law b l (substr 0 posl fmt) Hb Hv1) as (b1 & -> & Hb1 & Hcap1); [lia|]. rewrite ret_bind, Hc1 in *.
    destruct (StrFormatValue_spec (seg_arg g) (substr (posl [+] 1) (posr [-] posl [-] 1) fmt) b1 (l ++ seg_text g)) as (b2 & txt & -> & Hb2 & Hcap2 & Hp & Hlt);
      [done|done|done|rewrite length_app; lia|]. rewrite ret_bind, Hc2 in *.
    destruct (IH (substr (posr [+] 1) (size_ fmt [-] posr [-] 1) fmt) b2 ((l ++ seg_text g) ++ txt)) as (txts & b' & Hr & Hf & Hb' & Hlen);
      [done|done|done|done|done|rewrite !length_app; lia|].
    exists (txt :: txts), b'. split_and!; [done|by constructor| |].
    + unfold assemble. cbn [zip_with concat]. by rewrite <- !app_assoc in *.
    + unfold assemble in *. cbn [zip_with concat]. rewrite !length_app in *. lia.
Qed.

(** How a format [l] takes the arguments [args]: the pieces with their arguments, and the text after them. *)
Fixpoint split_format (args : list format_arg) (l : list Z) : list segment * list Z :=
  match args with
  | [] => ([], l)
  | a :: args' =>
      match index_of 123 l with
      | None => ([], l)
      | Some i =>
          match index_of 125 (drop (S i) l) with
          | None => ([], l)
          | Some j => let '(segs, tail) := split_format args' (drop (S j) (drop (S i) l)) in (mkSeg (take i l) (take j (drop (S i) l)) a :: segs, tail)
          end
      end
  end.

Lemma index_of_split c l i : index_of c l = Some i -> l = take i l ++ c :: drop (S i) l /\ c ∉ take i l.
Proof. intros [Hi Hn]%index_of_Some. split; [|done]. symmetry. by apply take_drop_middle. Qed.

Lemma split_format_spec args : forall l, Forall arg_ok args ->
  exists segs tail extra, split_format args l = (segs, tail) /\ l = format_text segs tail /\ args = (seg_arg <$> segs) ++ extra /\ Forall seg_ok segs /\ (extra = [] \/ no_placeholder tail).
Proof.
  induction args as [|a args IH]; intros l Hok; [by exists [], l, []; split_and!; auto|]. apply Forall_cons in Hok as [Ha Hok]. cbn [split_format].
  destruct (index_of 123 l) as [i|] eqn:Ei; [|exists [], l, (a :: args); split_and!; auto; right; intros i; congruence].
  destruct (index_of_split _ _ _ Ei) as [Hl Hni]. destruct (index_of 125 (drop (S i) l)) as [j|] eqn:Ej.
  - destruct (index_of_split _ _ _ Ej) as [Hl' Hnj]. destruct (IH (drop (S j) (drop (S i) l)) Hok) as (segs & tail & extra & -> & Ht & -> & Hs & Hx).
    exists (mkSeg (take i l) (take j (drop (S i) l)) a :: segs), tail, extra. split_and!; [done| |done|by apply Forall_cons; split|done].
    change (format_text (?g :: segs) tail) with ((seg_format g ++ concat (seg_format <$> segs)) ++ tail). rewrite <- app_assoc. fold (format_text segs tail). rewrite <- Ht.
    unfold seg_format. cbn [seg_text seg_opts]. rewrite <- !app_assoc. cbn [app]. rewrite <- app_assoc. cbn [app]. by rewrite <- Hl'.
  - exists [], l, (a :: args). split_and!; auto. right. intros i'. rewrite Ei. intros [= <-]. rewrite Hl, drop_app_length' by (apply index_of_Some in Ei as [Hlt%lookup_lt_Some _]; rewrite length_take; lia).
    apply not_elem_of_cons. split; [done|]. by apply index_of_None.
Qed.

Definition all_room (args : list format_arg) : Z := foldr (fun a n => arg_room a + n) 0 args.

Lemma split_room segs extra : Forall arg_ok ((seg_arg <$> segs) ++ extra) -> args_room segs <= all_room ((seg_arg <$> segs) ++ extra).
Proof.
  unfold args_room, all_room. induction segs as [|g segs IH].
  - intros Hf. change (Forall arg_ok extra) in Hf. change ((seg_arg <$> []) ++ extra) with extra. cbn [foldr]. induction Hf as [|a l Ha _ IH]; cbn [foldr]; [lia|]. pose proof (arg_room_nonneg a Ha). lia.
  - rewrite fmap_cons. cbn [app foldr]. intros [_ Hf]%Forall_cons. specialize (IH Hf). lia.
Qed.
End format_spec.

(** ** Strings own their characters *)
Section string_spec.
Lemma string_copy_spec src n : forall i dst,
  (n + i <= length src)%nat -> (n + i <= length dst)%nat -> take i dst = take i src ->
  exists dst', string_copy n (Z.of_nat i) src dst = Ret dst' /\ take (n + i) dst' = take (n + i) src /\ length dst' = length dst.
Proof.
  induction n as [|n IH]; intros i dst Hs Hd Ht; cbn [string_copy]; [by exists dst|].
  destruct (lookup_lt_is_Some_2 src i) as [c Hc]; [lia|]. rewrite Nat2Z.id, Hc. cbn [deref]. rewrite ret_bind.
  replace (Z.of_nat i + 1) with (Z.of_nat (S i)) by lia.
  destruct (IH (S i) (<[i := c]> dst)) as (dst' & Hr & Ht' & Hl'); [lia|rewrite length_insert; lia| |].
  - rewrite take_insert_app by lia. rewrite Ht. by rewrite (take_S_r _ _ c).
  - exists dst'. rewrite length_insert in Hl'. replace (S n + i)%nat with (n + S i)%nat by lia. done.
Qed.

Lemma String_new_spec src len :
  0 <= len <= Z.of_nat (length src) -> len < 2 ^ 61 ->
  exists s, String_new src len = Ret s /\ view_ok (String_view s) /\ view_chars (String_view s) = take (Z.to_nat len) src /\ length_ s = len.
Proof.
  intros Hl Hb. unfold String_new.
  destruct (string_copy_spec src (Z.to_nat len) 0 (replicate (Z.to_nat (len + 1)) 0)) as (dst & Hr & Ht & Hd); [lia|rewrite length_replicate; lia|done|].
  change (Z.of_nat 0) with 0 in Hr. rewrite Hr, ret_bind. eexists. split; [done|]. rewrite length_replicate, Nat.add_0_r in *. unfold view_ok, view_chars.
  cbn [String_view value_ size_ cstr_ length_]. rewrite length_insert, Hd. split_and!; [lia|lia|lia| |done]. by rewrite take_insert_ge by lia.
Qed.

(** A finished builder becomes a string. *)
Lemma ToString_spec b l :
  vec_is b l -> Z.of_nat (length l) < 2 ^ 61 ->
  exists s, VariableStringBuilder_ToString b = Ret s /\ view_ok (String_view s) /\ view_chars (String_view s) = l.
Proof.
  intros [Hs Hc Hd] Hl. unfold VariableStringBuilder_ToString, VariableStringBuilder_view. cbn [value_ size_]. rewrite Hs.
  set (d := match vdata_ b with Some d => default 0 <$> d | None => [] end).
  assert (take (length l) d = l /\ Z.of_nat (length l) <= Z.of_nat (length d)) as [Ht Hle].
  { unfold d. destruct (vdata_ b) as [a|].
    - destruct Hd as [Hla Hta]. rewrite length_fmap. split; [|lia]. rewrite <- fmap_take, Hta, <- list_fmap_compose. apply list_fmap_id.
    - assert (length l = 0%nat) as E by lia. rewrite E. split; [by destruct l|cbn; lia]. }
  destruct (String_new_spec d (Z.of_nat (length l))) as (s & -> & Hok & Hch & _); [lia|lia|]. exists s. rewrite Nat2Z.id, Ht in Hch. done.
Qed.
End string_spec.

(** Formatting: with literal text free of braces before each placeholder, [StrFormat] returns
    the text with every placeholder replaced by its argument: numbers print as the numeral (hexadecimal
    with the 0x prefix when the placeholder asks for it) that reads back as the number, has proper
    digits and no leading zero; characters and strings print as they are. *)
Lemma StrFormat_prints (segs : list segment) (tail : list Z) (extra : list format_arg) (fmt : StringView) :
  view_ok fmt -> view_chars fmt = format_text segs tail -> Forall seg_ok segs -> extra = [] \/ no_placeholder tail -> size_ fmt + args_room segs < 2 ^ 61 ->
  exists txts s, StrFormat fmt ((seg_arg <$> segs) ++ extra) = Ret s /\ view_ok (String_view s) /\
    Forall2 (fun g t => arg_prints (seg_arg g) (seg_opts g) t) segs txts /\
    view_chars (String_view s) = assemble segs txts ++ tail.
Proof.
  intros Hv Hch Hok Hex Hroom. unfold StrFormat.
  destruct (StrFormatInternal_spec (B := Vector Z) segs tail extra fmt vec_new [] Hv Hch Hok Hex) as (txts & b & -> & Hf & Hb & Hl);
    [exact vec_new_is|cbn; lia|].
  rewrite ret_bind. destruct (ToString_spec b (assemble segs txts ++ tail)) as (s & -> & Hs & Hc); [done|lia|]. eauto 8.
Qed.

(** *** Witnesses *)

(** "a,,b" split at the comma. *)
Lemma StrSplit_splits_witness :
  exists v ps, StrSplit (mkView [97; 44; 44; 98] 4) 44 = Ret v /\ vec_is v ps /\ join 44 (view_chars <$> ps) = [97; 44; 44; 98].
Proof.
  destruct (StrSplit_splits (mkView [97; 44; 44; 98] 4) 44) as (v & ps & Hr & Hv & _ & _ & Hj & _).
  - unfold view_ok. cbn. lia.
  - exists v, ps. split; [exact Hr|]. split; [exact Hv|exact Hj].
Defined.
