(* ===== verification/Debug.v ===== *)
(** * Debug output (zion/debug/debug.cpp, debug.h)

    A line of output is formatted into a buffer on the stack and sent to the
    serial port character by character.  Texts longer than the buffer are cut
    and marked; the builder never writes outside of its buffer. *)

From Stdlib Require Import ZArith Lia.
From stdpp Require Import base tactics numbers list sets.
From S2P Require Import Prelude Vector Strings.

(** ** The serial port *)

(** The values the status register has, one per poll, the polls so far, and what was sent. *)
Record serial : Type := mkSerial { line_status : nat -> Z; polls : nat; sent : list Z }.

Definition COM1 : Z := 0x3F8.

Definition is_transmit_empty (s : serial) : bool * serial :=
  (negb (Z.land (line_status s (polls s)) 0x20 =? 0), mkSerial (line_status s) (S (polls s)) (sent s)).

(** The loop that waits; [fuel] bounds its turns. *)
Fixpoint wait_transmit (fuel : nat) (s : serial) : res serial :=
  match fuel with
  | O => NoFuel
  | S fuel' => let '(empty, s) := is_transmit_empty s in if empty then Ret s else wait_transmit fuel' s
  end.

Definition dbgputchar (fuel : nat) (c : Z) (s : serial) : res serial :=
  s ← wait_transmit fuel s; Ret (mkSerial (line_status s) (polls s) (sent s ++ [c])).

Definition dbg (fuel : nat) (str : StringView) (s : serial) : res serial := push_chars (dbgputchar fuel) (Z.to_nat (size_ str)) 0 str s.

(** "[{}.{}] " and "\n" *)
Definition prefix_format : list Z := [91; 123; 125; 46; 123; 125; 93; 32; 0].
Definition newline : list Z := [10; 0].

(** The thread that runs, as [pid] and [tid], once there is a scheduler; [buffer] is what the stack holds. *)
Definition AddProcPrefix (fuel : nat) (buffer : list Z) (thread : option (Z * Z)) (s : serial) : res serial :=
  match thread with
  | None => Ret s
  | Some (pid, tid) =>
      fmt ← StringView_of_cstr prefix_format;
      builder ← StrFormatInternal fmt [ArgUint pid; ArgUint tid] (FixedStringBuilder_new buffer 16);
      dbg fuel (FixedStringBuilder_view builder) s
  end.

Definition dbgln_view (fuel : nat) (buffer : list Z) (thread : option (Z * Z)) (str : StringView) (s : serial) : res serial :=
  s ← AddProcPrefix fuel buffer thread s;
  s ← dbg fuel str s;
  nl ← StringView_of_cstr newline;
  dbg fuel nl s.

(** [dbgln(str, args...)]: formatted into 256 characters. *)
Definition dbgln (fuel : nat) (buffer prefix_buffer : list Z) (thread : option (Z * Z)) (str : list Z) (args : list format_arg) (s : serial) : res serial :=
  fmt ← StringView_of_cstr str;
  builder ← StrFormatInternal fmt args (FixedStringBuilder_new buffer 256);
  dbgln_view fuel prefix_buffer thread (FixedStringBuilder_view builder) s.

(** [dbgln_large]: formatted into a string of any length. *)
Definition dbgln_large (fuel : nat) (prefix_buffer : list Z) (thread : option (Z * Z)) (str : list Z) (args : list format_arg) (s : serial) : res serial :=
  fmt ← StringView_of_cstr str;
  text ← StrFormat fmt args;
  dbgln_view fuel prefix_buffer thread (String_view text) s.

(** "PANIC" *)
Definition panic_text : list Z := [80; 65; 78; 73; 67; 0].

(** [panic] up to the halt: what is printed. *)
Definition panic_prints (fuel : nat) (buffer prefix_buffer : list Z) (thread : option (Z * Z)) (str : list Z) (args : list format_arg) (s : serial) : res serial :=
  s ← dbgln fuel buffer prefix_buffer thread str args s;
  dbgln fuel buffer prefix_buffer thread panic_text [] s.

(** ** A builder that cuts *)

(** What is left of [l] in [n] characters. *)
Definition clip (n : Z) (l : list Z) : list Z := if Z.of_nat (length l) <=? n then l else take (Z.to_nat (n - 2)) l ++ [33; 62].

Definition clipped (b : FixedStringBuilder) (l : list Z) : Prop := 2 <= fcapacity_ b /\ fixed_is b (clip (fcapacity_ b) l).

Lemma length_clip n l : 2 <= n -> Z.of_nat (length (clip n l)) = Z.min n (Z.of_nat (length l)).
Proof. intros Hn. unfold clip. destruct (Z.leb_spec (Z.of_nat (length l)) n); [lia|]. rewrite length_app, length_take. cbn [length]. lia. Qed.

Lemma clip_snoc n l c : 2 <= n -> n <= Z.of_nat (length l) -> take (length (clip n l) - 2) (clip n l) ++ [33; 62] = clip n (l ++ [c]).
Proof.
  intros Hn Hl. pose proof (length_clip n l Hn) as Hc. replace (length (clip n l) - 2)%nat with (Z.to_nat (n - 2)) by lia.
  unfold clip at 2. rewrite length_app. cbn [length]. rewrite (proj2 (Z.leb_gt _ _)) by lia. f_equal. rewrite take_app_le by lia.
  unfold clip. destruct (Z.leb_spec (Z.of_nat (length l)) n); [done|]. rewrite take_app_le by (rewrite length_take; lia). rewrite take_take. f_equal. lia.
Qed.

Lemma fixed_store_capacity i c b b' : fixed_store i c b = Ret b' -> fcapacity_ b' = fcapacity_ b.
Proof. unfold fixed_store. destruct (_ && _); [by intros [= <-]|done]. Qed.

Lemma clipped_PushChar b l c : clipped b l -> exists b', FixedStringBuilder_PushChar c b = Ret b' /\ clipped b' (l ++ [c]) /\ fcapacity_ b' = fcapacity_ b.
Proof.
  intros [H2 Hb]. pose proof (length_clip _ l H2) as Hc. pose proof Hb as [Hs _ _ _].
  destruct (decide (Z.of_nat (length l) < fcapacity_ b)) as [Hlt|Hge].
  - destruct (Fixed_PushChar_spec b _ c Hb) as (b' & Hp & Hb' & Hcap); [lia|]. exists b'. split; [done|]. split; [|done]. split; [lia|]. rewrite Hcap.
    replace (clip (fcapacity_ b) (l ++ [c])) with (clip (fcapacity_ b) l ++ [c]); [done|]. unfold clip. rewrite length_app. cbn [length].
    rewrite !(proj2 (Z.leb_le _ _)) by lia. done.
  - destruct (Fixed_overflow b _ c Hb) as (b' & Hp & Hb'); [lia|lia|]. rewrite (clip_snoc _ _ c) in Hb' by lia.
    assert (fcapacity_ b' = fcapacity_ b) as Hcap.
    { unfold FixedStringBuilder_PushChar in Hp. rewrite Z.geb_leb, (proj2 (Z.leb_le _ _)) in Hp by lia.
      apply bind_Ret in Hp as (b1 & H1 & Hp). apply fixed_store_capacity in H1, Hp. congruence. }
    exists b'. split; [done|]. split; [|done]. split; [lia|]. by rewrite Hcap.
Qed.

(** The interface of formatting, for texts of any length, in a buffer of [n] characters. *)
Definition clipped_laws (n : Z) : StringBuilderLaws FixedStringBuilder.
Proof.
  refine {| sb_is := fun b l => clipped b l /\ fcapacity_ b = n; sb_cap := fun _ => 2 ^ 60 |}.
  - intros b l c [Hb Hn] _. destruct (clipped_PushChar b l c Hb) as (b' & H1 & H2 & H3). exists b'. split_and!; [done|done|congruence|done].
  - intros b l v Hb Hv _. pose proof (length_view_chars v Hv) as Hlv.
    destruct (push_chars_spec FixedStringBuilder_PushChar (fun b l => clipped b l /\ fcapacity_ b = n) v (Z.to_nat (size_ v)) 0 b l Hv) as (b' & Hr & Hb'); [lia|done| |by exists b'].
    intros b2 l2 c [H2 Hn] _. destruct (clipped_PushChar b2 l2 c H2) as (b3 & ? & ? & ?). exists b3. split_and!; [done|done|congruence].
Defined.

(** ** Sending *)

(** Of [d] polls in a row one finds the port empty. *)
Definition responsive (d : nat) (s : serial) : Prop := forall i, exists j, (i <= j < i + d)%nat /\ Z.land (line_status s j) 0x20 <> 0.

(** [s'] is [s] after the characters [l] were sent. *)
Definition sends (s s' : serial) (l : list Z) : Prop := line_status s' = line_status s /\ sent s' = sent s ++ l.

Lemma wait_transmit_spec fuel s : (exists j, (polls s <= j < polls s + fuel)%nat /\ Z.land (line_status s j) 0x20 <> 0) ->
  exists s', wait_transmit fuel s = Ret s' /\ sends s s' [].
Proof.
  unfold sends. rewrite app_nil_r. revert s. induction fuel as [|fuel IH]; intros s (j & Hj & Hs); [lia|]. cbn [wait_transmit is_transmit_empty].
  destruct (Z.eqb_spec (Z.land (line_status s (polls s)) 0x20) 0) as [H0|H0]; cbn [negb]; [|by eexists].
  assert (polls s <> j) by congruence. destruct (IH (mkSerial (line_status s) (S (polls s)) (sent s))) as (s' & Hw & Hl); [|by exists s'].
  exists j. cbn [polls line_status]. split; [lia|done].
Qed.

Lemma sends_trans s1 s2 s3 l1 l2 : sends s1 s2 l1 -> sends s2 s3 l2 -> sends s1 s3 (l1 ++ l2).
Proof. intros [H1 H2] [H3 H4]. split; [congruence|]. by rewrite H4, H2, app_assoc. Qed.

(** A builder on a buffer shows the text, cut to its capacity. *)
Lemma clipped_new buffer n : 2 <= n < 2 ^ 61 -> length buffer = Z.to_nat n -> clipped (FixedStringBuilder_new buffer n) [].
Proof. intros Hn Hl. split; [cbn; lia|]. cbn [fcapacity_ FixedStringBuilder_new]. unfold clip. cbn [length]. rewrite (proj2 (Z.leb_le _ _)) by lia. split; cbn; [done|lia|lia|done]. Qed.

Lemma clipped_view b l : clipped b l -> view_ok (FixedStringBuilder_view b) /\ view_chars (FixedStringBuilder_view b) = clip (fcapacity_ b) l.
Proof. intros [_ [Hs Hc Hm Hd]]. unfold view_ok, view_chars. cbn [value_ size_ FixedStringBuilder_view]. split; [split; lia|]. by rewrite Hs, Nat2Z.id. Qed.

Lemma format_into n buffer segs tail extra fmt :
  2 <= n < 2 ^ 61 -> length buffer = Z.to_nat n -> view_ok fmt -> view_chars fmt = format_text segs tail -> Forall seg_ok segs -> extra = [] \/ no_placeholder tail ->
  size_ fmt + args_room segs <= 2 ^ 60 ->
  exists txts b, StrFormatInternal fmt ((seg_arg <$> segs) ++ extra) (FixedStringBuilder_new buffer n) = Ret b /\
    Forall2 (fun g t => arg_prints (seg_arg g) (seg_opts g) t) segs txts /\ view_ok (FixedStringBuilder_view b) /\
    view_chars (FixedStringBuilder_view b) = clip n (assemble segs txts ++ tail).
Proof.
  intros Hn Hb Hv Hch Hok Hex Hroom.
  destruct (@StrFormatInternal_spec _ _ (clipped_laws n) segs tail extra fmt (FixedStringBuilder_new buffer n) [] Hv Hch Hok Hex) as (txts & b & HF & Hp & [Hc Hcap] & _);
    [split; [by apply clipped_new|done]|cbn; lia|].
  exists txts, b. destruct (clipped_view b _ Hc) as [H1 H2]. rewrite Hcap in H2. done.
Qed.

Section output.
Context (d fuel : nat) (Hfuel : (d <= fuel)%nat).

Lemma sends_responsive s s' l : responsive d s -> sends s s' l -> responsive d s'.
Proof. unfold responsive. by intros H [-> _]. Qed.

Lemma dbgputchar_spec s c : responsive d s -> exists s', dbgputchar fuel c s = Ret s' /\ sends s s' [c].
Proof.
  intros Hr. unfold dbgputchar. destruct (wait_transmit_spec fuel s) as (s1 & -> & H1 & H2); [destruct (Hr (polls s)) as (j & Hj & H); exists j; split; [lia|done]|].
  rewrite ret_bind. eexists. split; [done|]. split; cbn; [done|]. by rewrite H2, app_nil_r.
Qed.

Lemma dbg_spec s v : responsive d s -> view_ok v -> exists s', dbg fuel v s = Ret s' /\ sends s s' (view_chars v).
Proof.
  intros Hr Hv. pose proof (length_view_chars v Hv) as Hl. unfold dbg.
  destruct (push_chars_spec (dbgputchar fuel) (fun s' l => sends s s' l) v (Z.to_nat (size_ v)) 0 s [] Hv) as (s' & Hp & Hs); [lia|by split; [|rewrite app_nil_r]| |by exists s'].
  intros s1 l c H1 _. destruct (dbgputchar_spec s1 c) as (s2 & Hd & H2); [by eapply sends_responsive|]. exists s2. split; [done|by eapply sends_trans].
Qed.

(** The prefix of a line. *)
Definition prefix_is (thread : option (Z * Z)) (l : list Z) : Prop :=
  match thread with
  | None => l = []
  | Some (pid, tid) => exists ds ds', numeral 10 pid ds /\ numeral 10 tid ds' /\ l = clip 16 ([91] ++ ds ++ [46] ++ ds' ++ [93; 32])
  end.

Definition thread_ok (thread : option (Z * Z)) : Prop := match thread with Some (pid, tid) => is_u64 pid /\ is_u64 tid | None => True end.

Lemma AddProcPrefix_spec buffer thread s : responsive d s -> length buffer = 16%nat -> thread_ok thread ->
  exists s' l, AddProcPrefix fuel buffer thread s = Ret s' /\ sends s s' l /\ prefix_is thread l.
Proof.
  intros Hr Hb Ht. destruct thread as [[pid tid]|]; [|exists s, []; split; [done|]; split; [by split; [|rewrite app_nil_r]|done]]. destruct Ht as [Hp Ht].
  unfold AddProcPrefix. destruct (cstr_view [91; 123; 125; 46; 123; 125; 93; 32] []) as (fmt & Hf & Hok & Hch & Hsz); [set_solver|cbn; lia|]. cbn [app length] in Hf, Hsz.
  change prefix_format with [91; 123; 125; 46; 123; 125; 93; 32; 0]. rewrite Hf, ret_bind.
  destruct (format_into 16 buffer [mkSeg [91] [] (ArgUint pid); mkSeg [46] [] (ArgUint tid)] [93; 32] [] fmt) as (txts & b & HF & Htx & Hvo & Hvc); [lia|done|done|by rewrite Hch| |by left|cbn; lia|].
  { repeat (apply Forall_cons; split); [..|by apply Forall_nil]; (split; [set_solver|split; [set_solver|done]]). }
  cbn [fmap list_fmap seg_arg app] in HF. rewrite HF, ret_bind. destruct (dbg_spec s _ Hr Hvo) as (s' & Hd & Hs). rewrite Hvc in Hs.
  inversion Htx as [|? ds ? ? H1 Hx]; subst. inversion Hx as [|? ds' ? ? H2 Hy]; subst. inversion Hy; subst. cbn in H1, H2.
  exists s', (clip 16 ([91] ++ ds ++ [46] ++ ds' ++ [93; 32])). split; [exact Hd|]. split; [|by exists ds, ds'].
  replace ([91] ++ ds ++ [46] ++ ds' ++ [93; 32]) with (assemble [mkSeg [91] [] (ArgUint pid); mkSeg [46] [] (ArgUint tid)] [ds; ds'] ++ [93; 32]); [exact Hs|].
  unfold assemble. cbn [zip_with concat seg_text app]. by rewrite app_nil_r, <- app_assoc.
Qed.

Lemma dbgln_view_spec buffer thread v s : responsive d s -> length buffer = 16%nat -> thread_ok thread -> view_ok v ->
  exists s' l, dbgln_view fuel buffer thread v s = Ret s' /\ sends s s' (l ++ view_chars v ++ [10]) /\ prefix_is thread l.
Proof.
  intros Hr Hb Ht Hv. unfold dbgln_view. destruct (AddProcPrefix_spec buffer thread s Hr Hb Ht) as (s1 & l & -> & H1 & Hl). rewrite ret_bind.
  destruct (dbg_spec s1 v) as (s2 & -> & H2); [by eapply sends_responsive|done|]. rewrite ret_bind.
  destruct (cstr_view [10] []) as (nl & Hn & Hok & Hch & _); [set_solver|cbn; lia|]. cbn [app] in Hn. change newline with [10; 0]. rewrite Hn, ret_bind.
  destruct (dbg_spec s2 nl) as (s3 & -> & H3); [by eapply sends_responsive, H2; eapply sends_responsive|done|].
  exists s3, l. split; [done|]. split; [|done]. rewrite Hch in H3. rewrite app_assoc. eapply sends_trans; [by eapply sends_trans|done].
Qed.
End output.

Lemma prefix_length thread l : prefix_is thread l -> (length l <= 16)%nat.
Proof. destruct thread as [[pid tid]|]; [|by intros ->; cbn; lia]. intros (ds & ds' & _ & _ & ->). pose proof (length_clip 16 ([91] ++ ds ++ [46] ++ ds' ++ [93; 32])). lia. Qed.

(** C40.  Debug lines are complete and bounded, for any format and any arguments.  The format is cut at its placeholders, each
    replaced by the next argument; arguments without a placeholder are not printed, placeholders without an argument are
    printed as they stand.  When the serial port gets empty within [d] polls, [dbgln] prints the prefix that names the
    running thread, the text, cut to the 256 characters of its buffer and then ending in "!>", and a newline: no store goes
    outside of the two buffers and the line has at most 273 characters.  [dbgln_large] prints the whole text, of any length. *)
Theorem debug_lines_bounded d fuel buffer prefix_buffer thread str args rest s :
  (d <= fuel)%nat -> responsive d s -> length buffer = 256%nat -> length prefix_buffer = 16%nat -> thread_ok thread ->
  0 ∉ str -> Forall arg_ok args -> Z.of_nat (length str) + all_room args <= 2 ^ 60 ->
  let '(segs, tail) := split_format args str in
  (exists prefix txts s', prefix_is thread prefix /\ Forall2 (fun g t => arg_prints (seg_arg g) (seg_opts g) t) segs txts /\
     dbgln fuel buffer prefix_buffer thread (str ++ 0 :: rest) args s = Ret s' /\
     sent s' = sent s ++ prefix ++ clip 256 (assemble segs txts ++ tail) ++ [10] /\ (length (sent s') <= length (sent s) + 273)%nat) /\
  (exists prefix txts s', prefix_is thread prefix /\ Forall2 (fun g t => arg_prints (seg_arg g) (seg_opts g) t) segs txts /\
     dbgln_large fuel prefix_buffer thread (str ++ 0 :: rest) args s = Ret s' /\ sent s' = sent s ++ prefix ++ (assemble segs txts ++ tail) ++ [10]).
Proof.
  intros Hf Hr Hb Hpb Ht Hz Hargs Hroom. destruct (split_format_spec args str Hargs) as (segs & tail & extra & -> & Hstr & -> & Hok & Hex).
  pose proof (split_room segs extra Hargs) as Hsr. pose proof (args_room_nonneg segs Hok) as Hn. unfold dbgln, dbgln_large.
  destruct (cstr_view str rest) as (fmt & -> & Hv & Hch & Hsz); [done|lia|]. rewrite !ret_bind. rewrite Hstr in Hch.
  destruct (format_into 256 buffer segs tail extra fmt) as (txts & b & -> & Htx & Hvo & Hvc); [lia|done|done|done|done|done|lia|]. rewrite ret_bind.
  destruct (dbgln_view_spec d fuel Hf prefix_buffer thread _ s Hr Hpb Ht Hvo) as (s' & l & -> & [_ Hs] & Hl). rewrite Hvc in Hs.
  split.
  - exists l, txts, s'. split_and!; try done. pose proof (prefix_length _ _ Hl). pose proof (length_clip 256 (assemble segs txts ++ tail)). rewrite Hs, !length_app in *. cbn [length]. lia.
  - destruct (StrFormat_prints segs tail extra fmt Hv Hch Hok Hex) as (txts' & text & -> & Htv & Htx' & Htc); [lia|]. rewrite ret_bind.
    destruct (dbgln_view_spec d fuel Hf prefix_buffer thread _ s Hr Hpb Ht Htv) as (s2 & l2 & -> & [_ Hs2] & Hl2). rewrite Htc in Hs2. by exists l2, txts', s2.
Qed.

(** "v={x}" with 255 and an argument too many, while process 3 runs thread 1. *)
Lemma debug_lines_bounded_witness :
  exists s', dbgln 1 (replicate 256 0) (replicate 16 0) (Some (3, 1)) [118; 61; 123; 120; 125; 0] [ArgUint 255; ArgUint 7] (mkSerial (fun _ => 0x20) 0 []) = Ret s' /\
    (length (sent s') <= 273)%nat.
Proof.
  destruct (debug_lines_bounded 1 1 (replicate 256 0) (replicate 16 0) (Some (3, 1)) [118; 61; 123; 120; 125] [ArgUint 255; ArgUint 7] [] (mkSerial (fun _ => 0x20) 0 []))
    as [(prefix & txts & s' & _ & _ & HD & _ & Hl) _].
  - lia.
  - intros i. exists i. split; [lia|done].
  - reflexivity.
  - reflexivity.
  - unfold thread_ok, is_u64. lia.
  - set_solver by lia.
  - repeat constructor; unfold is_u64; lia.
  - cbn. lia.
  - exists s'. split; [exact HD|exact Hl].
Defined.

(** The line of that call. *)
Example debug_line : sent <$> match dbgln 1 (replicate 256 0) (replicate 16 0) (Some (3, 1)) [118; 61; 123; 120; 125; 0] [ArgUint 255] (mkSerial (fun _ => 0x20) 0 []) with Ret s => Some s | _ => None end
  = Some [91; 51; 46; 49; 93; 32; 118; 61; 48; 120; 70; 70; 10].
Proof. vm_compute. reflexivity. Qed.
