(* ===== verification/Ahci.v ===== *)
(** * The AHCI driver (sys/denali/ahci)

    [AhciPort] drives one disk: it has 32 command slots, a bit mask of the
    commands it issued, and a semaphore per slot that the interrupt handler
    signals when the device is done with the slot.  [AhciController] owns the
    ports.  Device registers are the fields of [AhciPortHba] and [AhciHba];
    stores to registers that clear or set the bits written as ones (also
    [sata_error]) are written out with that effect ([write_interrupt_status], [write_command_issue],
    [write_hba_interrupt_status]).  A semaphore is the number of its signals
    that nobody waited for yet. *)

From Stdlib Require Import ZArith Lia.
From stdpp Require Import base tactics numbers list strings.
From S2P Require Import Prelude Status Buffer.

(** Bit [i] of a register, [1 << i], and the complement of a uint32_t. *)
Definition bit (i : Z) : Z := Z.shiftl 1 i.
Definition not32 (z : Z) : Z := Z.lxor (2 ^ 32 - 1) z.

(** ** ahci.h and command.h: the structures the driver fills *)
Definition kCommand_FIS_Receive_Enable : Z := bit 4.
Definition kCommand_Start : Z := 1.
Definition kInterrupt_D2H_FIS : Z := 1.
Definition kInterrupt_PIO_FIS : Z := bit 1.
Definition kInterrupt_DMA_FIS : Z := bit 2.
Definition kInterrupt_DeviceBits_FIS : Z := bit 3.
Definition kInterrupt_Unknown_FIS : Z := bit 4.
Definition FIS_TYPE_REG_H2D : Z := 0x27.
Definition FIS_TYPE_REG_D2H : Z := 0x34.
Definition FIS_TYPE_DMA_SETUP : Z := 0x41.
Definition FIS_TYPE_PIO_SETUP : Z := 0x5F.
Definition FIS_TYPE_DEV_BITS : Z := 0xA1.
Definition kIdentifyDevice : Z := 0xEC.
Definition kDmaReadExt : Z := 0x25.

Record CommandInfo : Type := mkCommandInfo { ci_command : Z; ci_lba : Z; ci_sectors : Z; ci_paddr : Z }.

Record HostToDeviceRegisterFis : Type := mkH2D {
  fis_type : Z; pmp_and_c : Z; fis_command : Z; featurel : Z;
  lba0 : Z; lba1 : Z; lba2 : Z; device : Z;
  lba3 : Z; lba4 : Z; lba5 : Z; featureh : Z;
  count : Z; icc : Z; control : Z; reserved : Z }.

Record PhysicalRegionDescriptor : Type := mkPrd { region_address : Z; byte_count : Z }.

(** The parts of a command table the driver uses: the FIS and the first region. *)
Record CommandTable : Type := mkTable { command_fis : HostToDeviceRegisterFis; prdt0 : PhysicalRegionDescriptor }.

Record CommandHeader : Type := mkHeader { ch_command : Z; prd_table_length : Z; command_table_base_addr : Z }.

(** The registers of a port that the driver touches. *)
Record AhciPortHba : Type := mkPortHba {
  command_list_base : Z; fis_base : Z; interrupt_status : Z; interrupt_enable : Z; hba_command : Z;
  signature : Z; sata_status : Z; sata_error : Z; command_issue : Z }.

(** What the device last sent: the type of each FIS and, where the driver looks, its error. *)
Record ReceivedFis : Type := mkReceived {
  d2h_type : Z; d2h_error : Z; pio_type : Z; pio_error : Z; dma_type : Z; bits_type : Z; bits_error : Z }.

(** ** AhciPort *)
Record AhciPort : Type := mkPort {
  port_struct_ : AhciPortHba;
  command_list_ : list CommandHeader;
  received_fis_ : ReceivedFis;
  command_tables_ : list CommandTable;
  command_signals_ : list Z;
  commands_issued_ : Z;
  is_init_ : bool;
  lba_count_ : Z;
  sector_size_ : Z;
}.

Section port.
Implicit Types (p : AhciPort) (h : AhciPortHba).

(** Stores to the status register clear, stores to the issue register set the bits that are ones. *)
Definition write_interrupt_status (v : Z) h : AhciPortHba :=
  mkPortHba (command_list_base h) (fis_base h) (Z.land (interrupt_status h) (not32 v)) (interrupt_enable h) (hba_command h)
    (signature h) (sata_status h) (sata_error h) (command_issue h).
Definition write_command_issue (v : Z) h : AhciPortHba :=
  mkPortHba (command_list_base h) (fis_base h) (interrupt_status h) (interrupt_enable h) (hba_command h)
    (signature h) (sata_status h) (sata_error h) (Z.lor (command_issue h) v).

Definition with_hba (h : AhciPortHba) p : AhciPort :=
  mkPort h (command_list_ p) (received_fis_ p) (command_tables_ p) (command_signals_ p) (commands_issued_ p)
    (is_init_ p) (lba_count_ p) (sector_size_ p).
Definition with_slots (l : list CommandHeader) (t : list CommandTable) p : AhciPort :=
  mkPort (port_struct_ p) l (received_fis_ p) t (command_signals_ p) (commands_issued_ p) (is_init_ p) (lba_count_ p) (sector_size_ p).
Definition with_issued (s : list Z) (z : Z) p : AhciPort :=
  mkPort (port_struct_ p) (command_list_ p) (received_fis_ p) (command_tables_ p) s z (is_init_ p) (lba_count_ p) (sector_size_ p).
Definition with_identity (lbas sector : Z) p : AhciPort :=
  mkPort (port_struct_ p) (command_list_ p) (received_fis_ p) (command_tables_ p) (command_signals_ p) (commands_issued_ p) true lbas sector.

Definition zero_fis : HostToDeviceRegisterFis := mkH2D 0 0 0 0 0 0 0 0 0 0 0 0 0 0 0 0.
Definition zero_table : CommandTable := mkTable zero_fis (mkPrd 0 0).

(** The constructor; [paddr] is the physical address of the command structures,
    zeroed memory.  [crash] ends the process. *)
Definition AhciPort_new (port : AhciPortHba) (paddr : Z) : res AhciPort :=
  if negb (Z.land (sata_status port) 0x103 =? 0x103) then Panic else
  let h := mkPortHba paddr (paddr [+] 0x400) (interrupt_status port) 0xFFFFFFFF
             (Z.lor (Z.lor (hba_command port) kCommand_FIS_Receive_Enable) kCommand_Start)
             (signature port) (sata_status port) (Z.land (sata_error port) (not32 (2 ^ 32 - 1))) (command_issue port) in
  let headers := (fun i : nat => mkHeader 0 0 (paddr [+] 0x500 [+] 0x100 * Z.of_nat i)) <$> seq 0 32 in
  Ret (mkPort h headers (mkReceived 0 0 0 0 0 0 0) (replicate 32 zero_table) (replicate 32 0) 0 false 0 0).

Definition IsSata p : bool := signature (port_struct_ p) =? 0x101.

(** The search loop of [IssueCommand]: the first slot from [slot] on whose bit is clear, 32 when there is none. *)
Fixpoint find_slot (n : nat) (slot issued : Z) : Z :=
  match n with
  | O => slot
  | S n' => if Z.land issued (bit slot) =? 0 then slot else find_slot n' (slot + 1) issued
  end.

Definition command_fis_of (command : CommandInfo) : HostToDeviceRegisterFis :=
  let lba := ci_lba command in
  mkH2D FIS_TYPE_REG_H2D 0x80 (ci_command command) 0
    (u8 (Z.land lba 0xFF)) (u8 (Z.land (Z.shiftr lba 8) 0xFF)) (u8 (Z.land (Z.shiftr lba 16) 0xFF)) (bit 6)
    (u8 (Z.land (Z.shiftr lba 24) 0xFF)) (u8 (Z.land (Z.shiftr lba 32) 0xFF)) (u8 (Z.land (Z.shiftr lba 40) 0xFF)) 0
    (ci_sectors command) 0 0 0.

(** [IssueCommand] up to the store to [commands_issued_] and after it: between
    the two, the interrupt thread may run.  Clients of this file run the two
    halves as separate steps. *)
Definition issue_prepare (command : CommandInfo) p : res (ErrorOr (Z * AhciPort)) :=
  let slot := find_slot 32 0 (commands_issued_ p) in
  if slot =? 32 then Ret (EErr INTERNAL) else
  let i := Z.to_nat slot in
  hd ← deref (command_list_ p !! i);
  _ ← deref (command_tables_ p !! i);
  let table := mkTable (command_fis_of command) (mkPrd (ci_paddr command) (u32 (512 * ci_sectors command))) in
  let header := mkHeader (Z.lor (Z.land (20 / 4) 0x1F) (bit 7)) 1 (command_table_base_addr hd) in
  let p := with_slots (<[i := header]> (command_list_ p)) (<[i := table]> (command_tables_ p)) p in
  Ret (EOk (slot, with_issued (command_signals_ p) (Z.lor (commands_issued_ p) (bit slot)) p)).

Definition issue_commit (slot : Z) p : AhciPort :=
  with_hba (write_command_issue (Z.lor (command_issue (port_struct_ p)) (bit slot)) (port_struct_ p)) p.

Definition CheckFisType (expected actual : Z) : bool := expected =? actual.

(** The loop over the finished commands. *)
Fixpoint finish_loop (n : nat) (i finished : Z) (signals : list Z) (issued : Z) : res (list Z * Z) :=
  match n with
  | O => Ret (signals, issued)
  | S n' =>
      if negb (Z.land finished (bit i) =? 0) then
        s ← deref (signals !! Z.to_nat i);
        finish_loop n' (i + 1) finished (<[Z.to_nat i := s + 1]> signals) (Z.land issued (not32 (bit i)))
      else finish_loop n' (i + 1) finished signals issued
  end.

(** The checks of the received frames: false when a frame has the wrong type, then the handler returns. *)
Definition fis_ok (int_status : Z) (f : ReceivedFis) : bool :=
  let has b := negb (Z.land int_status b =? 0) in
  if has kInterrupt_D2H_FIS && negb (CheckFisType FIS_TYPE_REG_D2H (d2h_type f)) then false
  else if has kInterrupt_PIO_FIS && negb (CheckFisType FIS_TYPE_PIO_SETUP (pio_type f)) then false
  else if has kInterrupt_DMA_FIS && negb (CheckFisType FIS_TYPE_DMA_SETUP (dma_type f)) then false
  else negb (has kInterrupt_DeviceBits_FIS && negb (CheckFisType FIS_TYPE_DEV_BITS (bits_type f))).

Definition HandleIrq p : res AhciPort :=
  let int_status := interrupt_status (port_struct_ p) in
  let p := with_hba (write_interrupt_status int_status (port_struct_ p)) p in
  if negb (fis_ok int_status (received_fis_ p)) then Ret p else
  let commands_finished := Z.land (commands_issued_ p) (not32 (command_issue (port_struct_ p))) in
  '(signals, issued) ← finish_loop 32 0 commands_finished (command_signals_ p) (commands_issued_ p);
  Ret (with_issued signals issued p).

(** What [Identify] takes from the 512 bytes the device returned; the command
    itself is an [IssueCommand] followed by a wait. *)
Definition identify_command (paddr : Z) : CommandInfo := mkCommandInfo kIdentifyDevice 0 1 paddr.

Definition identify_parse (ident : ByteBuffer) p : res AhciPort :=
  w106 ← load_bytes (2 * 106) 2 ident;
  sector_size ← (if negb (Z.land (le_val w106) (bit 12) =? 0) then At_u32 (2 * 117) ident else Ret 512);
  w83 ← load_bytes (2 * 83) 2 ident;
  lba_count ← (if negb (Z.land (le_val w83) (bit 10) =? 0) then At_u64 (2 * 100) ident else At_u32 (2 * 60) ident);
  Ret (with_identity lba_count sector_size p).
End port.

(** ** Bits *)
Lemma land_bit x i : 0 <= i -> (Z.land x (bit i) =? 0) = negb (Z.testbit x i).
Proof.
  intros Hi. unfold bit. rewrite Z.shiftl_1_l. destruct (Z.testbit x i) eqn:E; cbn [negb].
  - apply Z.eqb_neq. intros Hz. apply (f_equal (fun z => Z.testbit z i)) in Hz.
    rewrite Z.land_spec, E, Z.pow2_bits_true, Z.bits_0 in Hz by done. done.
  - apply Z.eqb_eq. apply Z.bits_inj'. intros n Hn. rewrite Z.land_spec, Z.bits_0.
    destruct (decide (n = i)) as [->|Hne]; [by rewrite E|]. rewrite Z.pow2_bits_false by lia. apply andb_false_r.
Qed.

Lemma testbit_set x i j : 0 <= i -> Z.testbit (Z.lor x (bit i)) j = Z.testbit x j || (i =? j).
Proof. intros Hi. unfold bit. by rewrite Z.shiftl_1_l, Z.lor_spec, Z.pow2_bits_eqb. Qed.

Lemma testbit_not32 x j : 0 <= j < 32 -> Z.testbit (not32 x) j = negb (Z.testbit x j).
Proof.
  intros Hj. unfold not32. rewrite Z.lxor_spec. change (2 ^ 32 - 1) with (Z.ones 32). rewrite Z.ones_spec_low by lia. done.
Qed.

Lemma testbit_clear x i j : 0 <= i -> 0 <= j < 32 -> Z.testbit (Z.land x (not32 (bit i))) j = Z.testbit x j && negb (i =? j).
Proof.
  intros Hi Hj. rewrite Z.land_spec, testbit_not32 by done. unfold bit. by rewrite Z.shiftl_1_l, Z.pow2_bits_eqb.
Qed.

(** ** The slots as a client sees them *)

(** [Prepared]: described and marked as issued, and not yet handed to the device. *)
Inductive slot_state : Type := Free | Prepared (c : CommandInfo) | InFlight (c : CommandInfo) | Done (c : CommandInfo).

Definition is_free (x : slot_state) : bool := match x with Free => true | _ => false end.
Definition in_flight (x : slot_state) : bool := match x with InFlight _ => true | _ => false end.
Definition is_prepared (x : slot_state) : bool := match x with Prepared _ => true | _ => false end.
Definition slot_command (x : slot_state) : option CommandInfo := match x with Free => None | Prepared c | InFlight c | Done c => Some c end.

(** A slot and the signals of its semaphore. *)
Notation slots := (list (slot_state * Z)).

Definition table_of (c : CommandInfo) : CommandTable := mkTable (command_fis_of c) (mkPrd (ci_paddr c) (u32 (512 * ci_sectors c))).

Definition acknowledge (x : slot_state * Z) : slot_state * Z := match x with (Done _, n) => (Free, n + 1) | _ => x end.

(** What the handler does: it cannot tell a command the device has finished from one it never got. *)
Definition acknowledge_all (x : slot_state * Z) : slot_state * Z := match x with (Done _, n) | (Prepared _, n) => (Free, n + 1) | _ => x end.

Inductive port_label : Type :=
| LPrepare (c : CommandInfo) (slot : nat)
| LFull (c : CommandInfo)
| LCommit (slot : nat)
| LComplete (slot : nat)
| LIrq (frames_ok : bool).

(** What each event does to the slots: a command takes the first free slot and
    is then handed to the device, the device finishes a command it has, an
    interrupt frees the finished slots and signals each of them once. *)
Inductive slot_step : port_label -> slots -> slots -> Prop :=
| ss_prepare c i n (a : slots) : a !! i = Some (Free, n) -> (forall j x m, (j < i)%nat -> a !! j = Some (x, m) -> is_free x = false) ->
    slot_step (LPrepare c i) a (<[i := (Prepared c, n)]> a)
| ss_full c (a : slots) : Forall (fun x => is_free x.1 = false) a -> slot_step (LFull c) a a
| ss_commit i c n (a : slots) : a !! i = Some (Prepared c, n) -> slot_step (LCommit i) a (<[i := (InFlight c, n)]> a)
| ss_complete i c n (a : slots) : a !! i = Some (InFlight c, n) -> slot_step (LComplete i) a (<[i := (Done c, n)]> a)
| ss_irq (a : slots) : slot_step (LIrq true) a (acknowledge <$> a)
| ss_irq_bad (a : slots) : slot_step (LIrq false) a a.

(** The device finishes the command of [slot]: it clears the issue bit, leaves
    frames and raises interrupt bits. *)
Definition device_complete (slot : nat) (f : ReceivedFis) (irq : Z) (p : AhciPort) : AhciPort :=
  let h := port_struct_ p in
  mkPort (mkPortHba (command_list_base h) (fis_base h) (Z.lor (interrupt_status h) irq) (interrupt_enable h) (hba_command h)
            (signature h) (sata_status h) (sata_error h) (Z.land (command_issue h) (not32 (bit (Z.of_nat slot)))))
    (command_list_ p) f (command_tables_ p) (command_signals_ p) (commands_issued_ p) (is_init_ p) (lba_count_ p) (sector_size_ p).

(** One thread issues commands, the interrupt thread handles interrupts, and the device runs on its own: the steps of a port
    and of the slot, if any, that is prepared but not committed yet. *)
Inductive port_step : port_label -> AhciPort * option nat -> AhciPort * option nat -> Prop :=
| ps_prepare c slot p p' : issue_prepare c p = Ret (EOk (Z.of_nat slot, p')) -> port_step (LPrepare c slot) (p, None) (p', Some slot)
| ps_full c p : issue_prepare c p = Ret (EErr INTERNAL) -> port_step (LFull c) (p, None) (p, None)
| ps_commit slot p : port_step (LCommit slot) (p, Some slot) (issue_commit (Z.of_nat slot) p, None)
| ps_complete slot f irq p w : (slot < 32)%nat -> Z.testbit (command_issue (port_struct_ p)) (Z.of_nat slot) = true ->
    port_step (LComplete slot) (p, w) (device_complete slot f irq p, w)
| ps_irq p p' w : HandleIrq p = Ret p' -> port_step (LIrq (fis_ok (interrupt_status (port_struct_ p)) (received_fis_ p))) (p, w) (p', w).

(** The slots a port stands for. *)
Record port_slots (p : AhciPort) (a : slots) : Prop := {
  ps_length : length a = 32%nat;
  ps_headers : length (command_list_ p) = 32%nat;
  ps_tables : length (command_tables_ p) = 32%nat;
  ps_signals : length (command_signals_ p) = 32%nat;
  ps_slot i x n : a !! i = Some (x, n) ->
    Z.testbit (commands_issued_ p) (Z.of_nat i) = negb (is_free x) /\
    Z.testbit (command_issue (port_struct_ p)) (Z.of_nat i) = in_flight x /\
    command_signals_ p !! i = Some n /\
    (forall c, slot_command x = Some c -> command_tables_ p !! i = Some (table_of c));
}.

(** The slot that is prepared is the one of the thread that issues. *)
Definition window_ok (w : option nat) (a : slots) : Prop := forall i, (exists c n, a !! i = Some (Prepared c, n)) <-> w = Some i.

Lemma find_slot_spec n slot issued :
  0 <= slot ->
  let r := find_slot n slot issued in
  slot <= r <= slot + Z.of_nat n /\ (forall j, slot <= j < r -> Z.testbit issued j = true) /\
  (r < slot + Z.of_nat n -> Z.testbit issued r = false).
Proof.
  revert slot. induction n as [|n IH]; intros slot Hs; cbn [find_slot]; [split_and!; lia|].
  rewrite land_bit by done. destruct (Z.testbit issued slot) eqn:E; cbn [negb]; [|split; [lia|split; [lia|done]]].
  destruct (IH (slot + 1)) as (H1 & H2 & H3); [lia|]. cbn zeta. split; [lia|]. split; [|intros; apply H3; lia].
  intros j Hj. destruct (decide (j = slot)) as [->|]; [done|]. apply H2. lia.
Qed.

(** What the loop of the interrupt handler leaves: slots in [finished] are signalled once and no longer issued. *)
Lemma finish_loop_spec n i finished signals issued :
  (i + n = 32)%nat -> length signals = 32%nat ->
  exists signals' issued', finish_loop n (Z.of_nat i) finished signals issued = Ret (signals', issued') /\ length signals' = 32%nat /\
    forall j : nat, (j < 32)%nat ->
      Z.testbit issued' (Z.of_nat j) = Z.testbit issued (Z.of_nat j) && negb (Z.testbit finished (Z.of_nat j) && (i <=? j)%nat) /\
      signals' !! j = (fun s => if Z.testbit finished (Z.of_nat j) && (i <=? j)%nat then s + 1 else s) <$> signals !! j.
Proof.
  revert i signals issued. induction n as [|n IH]; intros i signals issued Hi Hl; cbn [finish_loop].
  { do 2 eexists. split; [done|]. split; [done|]. intros j Hj. rewrite (proj2 (Nat.leb_gt i j)) by lia.
    rewrite andb_false_r, andb_true_r. by destruct (signals !! j). }
  rewrite land_bit, negb_involutive by lia. replace (Z.of_nat i + 1) with (Z.of_nat (S i)) by lia.
  destruct (Z.testbit finished (Z.of_nat i)) eqn:E.
  - destruct (lookup_lt_is_Some_2 signals i) as [s Hs]; [lia|]. rewrite Nat2Z.id, Hs. cbn [deref mbind res_bind].
    destruct (IH (S i) (<[i := s + 1]> signals) (Z.land issued (not32 (bit (Z.of_nat i))))) as (s' & i' & -> & Hl' & HP);
      [lia|by rewrite length_insert|]. do 2 eexists. split; [done|]. split; [done|]. intros j Hj. destruct (HP j Hj) as [-> ->].
    rewrite testbit_clear by lia. destruct (decide (i = j)) as [<-|Hne].
    + rewrite Z.eqb_refl, list_lookup_insert_eq, Hs, E by lia. rewrite (proj2 (Nat.leb_gt (S i) i)), Nat.leb_refl by lia. split; [|done].
      cbn. by rewrite !andb_false_r.
    + rewrite (proj2 (Z.eqb_neq _ _)), list_lookup_insert_ne by lia. rewrite andb_true_r.
      replace (S i <=? j)%nat with (i <=? j)%nat; [done|]. destruct (Nat.leb_spec i j), (Nat.leb_spec (S i) j); lia || done.
  - destruct (IH (S i) signals issued) as (s' & i' & -> & Hl' & HP); [lia|done|]. do 2 eexists. split; [done|]. split; [done|].
    intros j Hj. destruct (HP j Hj) as [-> ->]. destruct (decide (i = j)) as [<-|Hne].
    + rewrite E. cbn. done.
    + replace (S i <=? j)%nat with (i <=? j)%nat; [done|]. destruct (Nat.leb_spec i j), (Nat.leb_spec (S i) j); lia || done.
Qed.

Lemma issue_prepare_spec c p a :
  port_slots p a ->
  (exists i n p', a !! i = Some (Free, n) /\ (forall j x m, (j < i)%nat -> a !! j = Some (x, m) -> is_free x = false) /\
     issue_prepare c p = Ret (EOk (Z.of_nat i, p')) /\ port_slots p' (<[i := (Prepared c, n)]> a) /\
     port_struct_ p' = port_struct_ p /\ received_fis_ p' = received_fis_ p) \/
  (Forall (fun x => is_free x.1 = false) a /\ issue_prepare c p = Ret (EErr INTERNAL)).
Proof.
  intros [Ha Hh Ht Hs Hsl]. unfold issue_prepare.
  destruct (find_slot_spec 32 0 (commands_issued_ p) ltac:(lia)) as (Hr & Hbusy & Hfree). cbn zeta in *.
  set (r := find_slot 32 0 (commands_issued_ p)) in *. assert (exists i : nat, r = Z.of_nat i) as [i Hi] by (exists (Z.to_nat r); lia).
  assert (forall j x m, (j < i)%nat -> a !! j = Some (x, m) -> is_free x = false) as Hbefore.
  { intros j x m Hj Hl. destruct (Hsl j x m Hl) as [Hb _]. rewrite Hbusy in Hb by lia. by destruct (is_free x). }
  rewrite Hi. destruct (Z.eqb_spec (Z.of_nat i) 32) as [He|He].
  { right. split; [|done]. apply Forall_lookup. intros j [x m] Hl. apply (Hbefore j x m); [|done]. apply lookup_lt_Some in Hl. lia. }
  left. destruct (lookup_lt_is_Some_2 a i) as [[x n] Hx]; [lia|]. destruct (Hsl i x n Hx) as (Hb & Hci & Hsig & _).
  rewrite <- Hi, Hfree in Hb by lia. destruct x; try done.
  destruct (lookup_lt_is_Some_2 (command_list_ p) i) as [hd Hhd]; [lia|]. destruct (lookup_lt_is_Some_2 (command_tables_ p) i) as [tb Htb]; [lia|].
  rewrite Nat2Z.id, Hhd, Htb. cbn [deref mbind res_bind]. exists i, n. eexists. split; [done|]. split; [done|]. split; [done|]. split; [|done].
  split; cbn; rewrite ?length_insert; try done. intros j x m Hj. destruct (decide (i = j)) as [<-|Hne].
  - rewrite list_lookup_insert_eq in Hj by lia. injection Hj as <- <-. rewrite testbit_set, Z.eqb_refl, orb_true_r by lia.
    split_and!; [done|done|done|]. intros c' [= <-]. by rewrite list_lookup_insert_eq by lia.
  - rewrite list_lookup_insert_ne in Hj by done. destruct (Hsl j x m Hj) as (H1 & H2 & H3 & H4).
    rewrite testbit_set, (proj2 (Z.eqb_neq (Z.of_nat i) _)), orb_false_r, H1, H2 by lia.
    split_and!; [done|done|done|]. intros c' Hc'. rewrite list_lookup_insert_ne by done. by apply H4.
Qed.

Lemma issue_commit_spec p a i c n :
  port_slots p a -> a !! i = Some (Prepared c, n) -> port_slots (issue_commit (Z.of_nat i) p) (<[i := (InFlight c, n)]> a).
Proof.
  intros [Ha Hh Ht Hs Hsl] Hi. assert (i < 32)%nat as Hlt by (apply lookup_lt_Some in Hi; lia).
  split; cbn; rewrite ?length_insert; try done. intros j x m Hj. destruct (decide (i = j)) as [<-|Hne].
  - rewrite list_lookup_insert_eq in Hj by lia. injection Hj as <- <-. destruct (Hsl i _ _ Hi) as (H1 & H2 & H3 & H4).
    rewrite (Z.lor_spec (command_issue _)), testbit_set, Z.eqb_refl, !orb_true_r by lia. split_and!; [done|done|done|exact H4].
  - rewrite list_lookup_insert_ne in Hj by done. destruct (Hsl j x m Hj) as (H1 & H2 & H3 & H4).
    rewrite (Z.lor_spec (command_issue _)), testbit_set, (proj2 (Z.eqb_neq (Z.of_nat i) _)), orb_false_r, orb_diag by lia. done.
Qed.

Lemma HandleIrq_spec p a :
  port_slots p a ->
  exists p', HandleIrq p = Ret p' /\ received_fis_ p' = received_fis_ p /\
    port_slots p' (if fis_ok (interrupt_status (port_struct_ p)) (received_fis_ p) then acknowledge_all <$> a else a).
Proof.
  intros [Ha Hh Ht Hs Hsl]. unfold HandleIrq. cbn [received_fis_ with_hba].
  destruct (fis_ok _ _); cbn [negb]; [|eexists; split; [done|]; split; [done|]; by split].
  cbn [commands_issued_ with_hba port_struct_ write_interrupt_status command_issue command_signals_].
  change 0 with (Z.of_nat 0) at 1. set (fin := Z.land _ _).
  destruct (finish_loop_spec 32 0 fin (command_signals_ p) (commands_issued_ p)) as (s' & i' & -> & Hl' & HP); [lia|done|]. rewrite ret_bind.
  eexists. split; [done|]. split; [done|]. split; cbn; rewrite ?length_fmap; try done. intros i x n Hi. rewrite list_lookup_fmap in Hi.
  destruct (a !! i) as [[y m]|] eqn:Ey; [|done]. cbn in Hi. destruct (Hsl i y m Ey) as (H1 & H2 & H3 & H4).
  assert (i < 32)%nat as Hlt by (apply lookup_lt_Some in Ey; lia). destruct (HP i Hlt) as [-> ->].
  assert (Z.testbit fin (Z.of_nat i) = negb (is_free y) && negb (in_flight y)) as ->.
  { unfold fin. rewrite Z.land_spec, testbit_not32, H1, H2 by lia. done. }
  rewrite H1, H2, H3. destruct y; cbn in *; injection Hi as <- <-; cbn; split_and!; done.
Qed.

Lemma device_complete_spec i f irq p a c n :
  port_slots p a -> a !! i = Some (InFlight c, n) -> port_slots (device_complete i f irq p) (<[i := (Done c, n)]> a).
Proof.
  intros [Ha Hh Ht Hs Hsl] Hi. assert (i < 32)%nat as Hlt by (apply lookup_lt_Some in Hi; lia).
  split; cbn; rewrite ?length_insert; try done. intros j x m Hj. rewrite testbit_clear by (destruct (decide (j < 32)%nat); [lia|];
    exfalso; apply lookup_lt_Some in Hj; rewrite length_insert in Hj; lia). destruct (decide (i = j)) as [<-|Hne].
  - rewrite list_lookup_insert_eq in Hj by lia. injection Hj as <- <-. destruct (Hsl i _ _ Hi) as (H1 & H2 & H3 & H4).
    rewrite Z.eqb_refl, andb_false_r. done.
  - rewrite list_lookup_insert_ne in Hj by done. destruct (Hsl j x m Hj) as (H1 & H2 & H3 & H4).
    rewrite (proj2 (Z.eqb_neq _ _)), andb_true_r by lia. done.
Qed.

Lemma acknowledge_unprepared (a : slots) : (forall i c n, a !! i <> Some (Prepared c, n)) -> acknowledge_all <$> a = acknowledge <$> a.
Proof. intros Hn. apply list_fmap_ext. intros i [[|c|c|c] n] Hi; try done. by destruct (Hn i c n). Qed.

Lemma window_insert (a : slots) i x n : (i < length a)%nat -> window_ok None a -> window_ok (if is_prepared x then Some i else None) (<[i := (x, n)]> a).
Proof.
  intros Hi Hw j. destruct (decide (i = j)) as [<-|Hne].
  - rewrite list_lookup_insert_eq by done. split; [intros (c & m & [= -> ->]); done|]. destruct x; try done. eauto.
  - rewrite list_lookup_insert_ne by done. specialize (Hw j). split; [intros H; by apply Hw in H|]. destruct (is_prepared x); [intros [= ->]; done|done].
Qed.

Lemma window_close (a : slots) i x n : (i < length a)%nat -> is_prepared x = false -> window_ok (Some i) a -> window_ok None (<[i := (x, n)]> a).
Proof.
  intros Hi Hx Hw j. split; [|done]. intros (c & m & Hj). destruct (decide (i = j)) as [<-|Hne].
  - rewrite list_lookup_insert_eq in Hj by done. by injection Hj as -> _.
  - rewrite list_lookup_insert_ne in Hj by done. assert (Some i = Some j) as [= ->] by (apply Hw; eauto). done.
Qed.

Lemma window_other (a : slots) i w x y n : a !! i = Some (x, n) -> is_prepared x = false -> is_prepared y = false -> window_ok w a -> window_ok w (<[i := (y, n)]> a).
Proof.
  intros Hi Hx Hy Hw j. destruct (decide (i = j)) as [<-|Hne]; [|by rewrite list_lookup_insert_ne].
  rewrite list_lookup_insert_eq by (by eapply lookup_lt_Some). specialize (Hw i). rewrite Hi in Hw. split; [intros (c & m & [= -> _]); done|]. intros Hs. apply Hw in Hs as (c & m & [= -> _]). done.
Qed.

(** ** Properties *)


(** A fresh port on a link with a device. *)
Definition demo_hba : AhciPortHba := mkPortHba 0 0 0 0 0 0x101 0x123 0 0.
Definition demo_port : AhciPort := match AhciPort_new demo_hba 0x10000 with Ret p => p | _ => mkPort demo_hba [] (mkReceived 0 0 0 0 0 0 0) [] [] 0 false 0 0 end.

Lemma fresh_port_slots h paddr p :
  command_issue h = 0 -> AhciPort_new h paddr = Ret p -> port_slots p (replicate 32 (Free, 0)).
Proof.
  intros Hci HN. unfold AhciPort_new in HN. case_if_hyp HN; [done|]. injection HN as <-. split; try done. intros i x n Hi.
  apply lookup_replicate in Hi as [[= -> ->] Hi]. cbn [commands_issued_ port_struct_ command_issue command_signals_ is_free in_flight slot_command].
  rewrite Hci, Z.bits_0. split_and!; [done|done|by apply (lookup_replicate_2 32 0 i)|done].
Qed.

