(* ===== verification/Denali.v ===== *)
(** * The disk service (sys/denali/ahci/ahci_controller.cpp, sys/denali/denali_server.cpp)

    The controller's ports and interrupt loop, and the handlers of the disk
    service.  The handlers block in [Semaphore::Wait]; what happens meanwhile is
    an explicit schedule of events: the device finishes a command, with its
    transfer into memory ([dma], the hardware) or with an error, or the interrupt
    thread takes a turn of its loop.  Events also happen between the two stores
    with which [AhciPort::IssueCommand] issues a command ([w_windows]).  The
    contiguous regions come from the kernel ([contiguous]). *)

From Stdlib Require Import ZArith Lia.
From stdpp Require Import base tactics numbers list strings.
From S2P Require Import Prelude Status Buffer Yunq YunqMessages Ahci.

(** ** AhciController *)
Record AhciHba : Type := mkHba { capabilities : Z; global_host_control : Z; hba_interrupt_status : Z; port_implemented : Z }.

Record AhciController : Type := mkController {
  ahci_hba_ : AhciHba;
  ports_ : list (option AhciPort);
  num_ports_ : Z;
  num_commands_ : Z;
}.

Section controller.
Implicit Types c : AhciController.

(** The status register of the controller clears the bits written as ones. *)
Definition write_hba_interrupt_status (v : Z) (h : AhciHba) : AhciHba :=
  mkHba (capabilities h) (global_host_control h) (Z.land (hba_interrupt_status h) (not32 v)) (port_implemented h).

Definition with_ports (l : list (option AhciPort)) c : AhciController := mkController (ahci_hba_ c) l (num_ports_ c) (num_commands_ c).
Definition with_ahci_hba (h : AhciHba) c : AhciController := mkController h (ports_ c) (num_ports_ c) (num_commands_ c).

Definition GetDevice (id : Z) c : res (ErrorOr nat) :=
  if num_ports_ c <=? id then Ret (EErr INVALID_ARGUMENT) else
  port ← deref (ports_ c !! Z.to_nat id);
  match port with
  | None => Ret (EErr NOT_FOUND)
  | Some _ => Ret (EOk (Z.to_nat id))
  end.

Definition LoadHbaRegisters (hba : AhciHba) c : AhciController :=
  mkController hba (ports_ c) (u8 (Z.land (capabilities hba) 0x1F + 1)) (u8 (Z.shiftr (Z.land (capabilities hba) 0x1F00) 8 + 1)).

(** One turn of [InterruptLoop], after the message from the kernel. *)
Fixpoint interrupt_turn (n : nat) (i : Z) c : res AhciController :=
  match n with
  | O => Ret c
  | S n' =>
      port ← deref (ports_ c !! Z.to_nat i);
      match port with
      | Some p =>
          if negb (Z.land (hba_interrupt_status (ahci_hba_ c)) (bit i) =? 0) then
            p ← HandleIrq p;
            let c := with_ports (<[Z.to_nat i := Some p]> (ports_ c)) c in
            let v := Z.land (hba_interrupt_status (ahci_hba_ c)) (not32 (bit i)) in
            interrupt_turn n' (i + 1) (with_ahci_hba (write_hba_interrupt_status v (ahci_hba_ c)) c)
          else interrupt_turn n' (i + 1) c
      | None => interrupt_turn n' (i + 1) c
      end
  end.
Definition InterruptTurn c : res AhciController := interrupt_turn (Z.to_nat (num_ports_ c)) 0 c.
End controller.

(** ** The machine around the handlers *)
Inductive event : Type :=
| EvComplete (port slot : nat) (f : ReceivedFis) (irq : Z)
| EvInterrupt.

(** The frames report an error. *)
Definition fis_error (f : ReceivedFis) : bool := negb (d2h_error f =? 0) || negb (pio_error f =? 0) || negb (bits_error f =? 0).

Record World : Type := mkWorld {
  w_driver : AhciController;
  w_mem : Z -> Z;
  w_regions : Z;  (* regions handed out so far *)
  w_windows : list (list event);  (* what happens inside the commands still to be issued, one list per command *)
}.

(** The logical block address in a frame. *)
Definition fis_lba (f : HostToDeviceRegisterFis) : Z :=
  lba0 f + 2 ^ 8 * lba1 f + 2 ^ 16 * lba2 f + 2 ^ 24 * lba3 f + 2 ^ 32 * lba4 f + 2 ^ 40 * lba5 f.

Section server.
Context (dma : HostToDeviceRegisterFis -> PhysicalRegionDescriptor -> (Z -> Z) -> (Z -> Z)).
Context (contiguous : Z -> Z -> Z * Z).
Implicit Types w : World.

Definition with_driver (c : AhciController) w : World := mkWorld c (w_mem w) (w_regions w) (w_windows w).
Definition set_port (i : nat) (p : AhciPort) w : World := with_driver (with_ports (<[i := Some p]> (ports_ (w_driver w))) (w_driver w)) w.

(** The device ends a command it has: it transfers the data, or fails and transfers nothing, and reports; an event for a
    command it does not have is nothing. *)
Definition complete (port slot : nat) (f : ReceivedFis) (irq : Z) w : World :=
  match ports_ (w_driver w) !! port with
  | Some (Some p) =>
      match command_tables_ p !! slot with
      | Some t =>
          if Z.testbit (command_issue (port_struct_ p)) (Z.of_nat slot) && (slot <? 32)%nat then
            let c := with_ports (<[port := Some (device_complete slot f irq p)]> (ports_ (w_driver w))) (w_driver w) in
            let h := ahci_hba_ c in
            let h := mkHba (capabilities h) (global_host_control h) (Z.lor (hba_interrupt_status h) (bit (Z.of_nat port))) (port_implemented h) in
            mkWorld (with_ahci_hba h c) (if fis_error f then w_mem w else dma (command_fis t) (prdt0 t) (w_mem w)) (w_regions w) (w_windows w)
          else w
      | None => w
      end
  | _ => w
  end.

Definition run_event (e : event) w : res World :=
  match e with
  | EvComplete port slot f irq => Ret (complete port slot f irq w)
  | EvInterrupt => c ← InterruptTurn (w_driver w); Ret (with_driver c w)
  end.

Fixpoint run_events (evs : list event) w : res World :=
  match evs with
  | [] => Ret w
  | e :: evs => w ← run_event e w; run_events evs w
  end.

(** [Semaphore::Wait] on the semaphore of a slot: events happen until there is a signal to take. *)
Fixpoint Wait (port slot : nat) (evs : list event) w : res (World * list event) :=
  match ports_ (w_driver w) !! port with
  | Some (Some p) =>
      n ← deref (command_signals_ p !! slot);
      if 0 <? n then Ret (set_port port (with_issued (<[slot := n - 1]> (command_signals_ p)) (commands_issued_ p) p) w, evs)
      else match evs with
           | [] => NoFuel
           | e :: evs => w ← run_event e w; Wait port slot evs w
           end
  | _ => Fault
  end.

(** [mmth::OwnedMemoryRegion::ContiguousPhysical]: the capability and the physical address. *)
Definition ContiguousPhysical (size : Z) w : Z * Z * World :=
  let '(cap, paddr) := contiguous (w_regions w) size in (cap, paddr, mkWorld (w_driver w) (w_mem w) (w_regions w + 1) (w_windows w)).

(** What happens between the two stores of the next command. *)
Definition run_window w : res World :=
  match w_windows w with
  | [] => Ret w
  | win :: rest => run_events win (mkWorld (w_driver w) (w_mem w) (w_regions w) rest)
  end.

(** [AhciPort::IssueCommand] on a port of the controller: the slot whose semaphore is returned. *)
Definition device_IssueCommand (port : nat) (command : CommandInfo) w : res (ErrorOr nat * World) :=
  match ports_ (w_driver w) !! port with
  | Some (Some p) =>
      r ← issue_prepare command p;
      match r with
      | EErr e => Ret (EErr e, w)
      | EOk (slot, p) =>
          w ← run_window (set_port port p w);
          p ← deref (ports_ (w_driver w) !! port);
          p ← deref p;
          Ret (EOk (Z.to_nat slot), set_port port (issue_commit slot p) w)
      end
  | _ => Fault
  end.

(** The parameter [sector_cnt] is a uint16_t. *)
Definition device_IssueRead (port : nat) (lba sector_cnt paddr : Z) w : res (ErrorOr nat * World) :=
  device_IssueCommand port (mkCommandInfo kDmaReadExt lba (u16 sector_cnt) paddr) w.

(** The capability sent is a duplicate of the region's; it names the same object. *)
Definition HandleRead (req : ReadRequest) (resp : ReadResponse) (evs : list event) w : res (Status * ReadResponse * World * list event) :=
  d ← GetDevice (ReadRequest_device_id req) (w_driver w);
  match d with
  | EErr e => Ret (mkStatus e "", resp, w, evs)
  | EOk device =>
      let size := DiskBlock_size (ReadRequest_block req) in
      let '(cap, paddr, w) := ContiguousPhysical (size [*] 512) w in
      '(r, w) ← device_IssueRead device (DiskBlock_lba (ReadRequest_block req)) size paddr w;
      match r with
      | EErr e => Ret (mkStatus e "", resp, w, evs)
      | EOk slot =>
          '(w, evs) ← Wait device slot evs w;
          let resp := ReadResponse_set_device_id (ReadRequest_device_id req) resp in
          let resp := ReadResponse_set_size size resp in
          let resp := ReadResponse_set_memory cap resp in
          Ret (Status_Ok, resp, w, evs)
      end
  end.

(** The loop of [HandleReadMany] over the blocks. *)
Fixpoint read_blocks (device : nat) (blocks : list DiskBlock) (region_paddr : Z) (evs : list event) w : res (ErrorOr unit * World * list event) :=
  match blocks with
  | [] => Ret (EOk tt, w, evs)
  | block :: blocks' =>
      '(r, w) ← device_IssueRead device (DiskBlock_lba block) (DiskBlock_size block) region_paddr w;
      match r with
      | EErr e => Ret (EErr e, w, evs)
      | EOk slot =>
          '(w, evs) ← Wait device slot evs w;
          read_blocks device blocks' (region_paddr [+] DiskBlock_size block [*] 512) evs w
      end
  end.

Definition HandleReadMany (req : ReadManyRequest) (resp : ReadResponse) (evs : list event) w : res (Status * ReadResponse * World * list event) :=
  d ← GetDevice (ReadManyRequest_device_id req) (w_driver w);
  match d with
  | EErr e => Ret (mkStatus e "", resp, w, evs)
  | EOk device =>
      let sector_cnt := foldl (fun n block => n [+] DiskBlock_size block) 0 (ReadManyRequest_blocks req) in
      let '(cap, region_paddr, w) := ContiguousPhysical (sector_cnt [*] 512) w in
      '(r, w, evs) ← read_blocks device (ReadManyRequest_blocks req) region_paddr evs w;
      match r with
      | EErr e => Ret (mkStatus e "", resp, w, evs)
      | EOk _ =>
          let resp := ReadResponse_set_device_id (ReadManyRequest_device_id req) resp in
          let resp := ReadResponse_set_size sector_cnt resp in
          let resp := ReadResponse_set_memory cap resp in
          Ret (Status_Ok, resp, w, evs)
      end
  end.
End server.

(** ** One disk *)
Definition free32 : slots := replicate 32 (Free, 0).

(** Port [d] is the only one with a disk, and the only one that interrupts. *)
Record one_disk (c : AhciController) (d : nat) (p : AhciPort) : Prop := {
  od_ports : length (ports_ c) = 32%nat;
  od_num : Z.of_nat d < num_ports_ c <= 32;
  od_port : ports_ c !! d = Some (Some p);
  od_others j q : ports_ c !! j = Some (Some q) -> j = d;
  od_status (j : nat) : (j < 32)%nat -> j <> d -> Z.testbit (hba_interrupt_status (ahci_hba_ c)) (Z.of_nat j) = false;
}.

Lemma one_disk_set c d p p' : one_disk c d p -> one_disk (with_ports (<[d := Some p']> (ports_ c)) c) d p'.
Proof.
  intros [H1 H2 H3 H4 H5]. split; cbn; [by rewrite length_insert|done|apply list_lookup_insert_eq; by apply lookup_lt_Some in H3| |done].
  intros j q Hj. destruct (decide (j = d)); [done|]. rewrite list_lookup_insert_ne in Hj by done. by eapply H4.
Qed.

(** Ports without a disk are passed over. *)
Lemma interrupt_turn_skip n i c d p :
  one_disk c d p -> Z.of_nat i + Z.of_nat n = num_ports_ c -> (d < i)%nat -> interrupt_turn n (Z.of_nat i) c = Ret c.
Proof.
  intros HO. revert i. induction n as [|n IH]; intros i Hn Hd; cbn [interrupt_turn]; [done|].
  destruct (lookup_lt_is_Some_2 (ports_ c) i) as [o Ho]; [destruct HO; lia|]. rewrite Nat2Z.id, Ho. cbn [deref mbind res_bind].
  destruct o as [q|]; [pose proof (od_others _ _ _ HO i q Ho); lia|]. replace (Z.of_nat i + 1) with (Z.of_nat (S i)) by lia. apply IH; lia.
Qed.

(** A turn of the interrupt loop handles the port when its bit is set; the store that should clear the bit does not. *)
Lemma interrupt_turn_one n i c d p p' :
  one_disk c d p -> Z.of_nat i + Z.of_nat n = num_ports_ c -> (i <= d)%nat -> HandleIrq p = Ret p' ->
  exists c', interrupt_turn n (Z.of_nat i) c = Ret c' /\
    one_disk c' d (if Z.testbit (hba_interrupt_status (ahci_hba_ c)) (Z.of_nat d) then p' else p) /\
    Z.testbit (hba_interrupt_status (ahci_hba_ c')) (Z.of_nat d) = Z.testbit (hba_interrupt_status (ahci_hba_ c)) (Z.of_nat d).
Proof.
  intros HO Hn Hi HI. revert i Hn Hi. induction n as [|n IH]; intros i Hn Hi; cbn [interrupt_turn]; [destruct HO; lia|].
  destruct (lookup_lt_is_Some_2 (ports_ c) i) as [o Ho]; [destruct HO; lia|]. rewrite Nat2Z.id, Ho. cbn [deref mbind res_bind].
  replace (Z.of_nat i + 1) with (Z.of_nat (S i)) by lia. destruct (decide (i = d)) as [->|Hne].
  2: { destruct o as [q|]; [pose proof (od_others _ _ _ HO i q Ho); lia|]. apply IH; lia. }
  pose proof (od_port _ _ _ HO) as Hp. rewrite Ho in Hp. injection Hp as ->. rewrite land_bit, negb_involutive by lia.
  destruct (Z.testbit (hba_interrupt_status (ahci_hba_ c)) (Z.of_nat d)) eqn:Eb; [|exists c; by rewrite (interrupt_turn_skip n (S d) c d p HO) by lia].
  rewrite HI. cbn [mbind res_bind]. set (c1 := with_ports (<[d := Some p']> (ports_ c)) c).
  assert (one_disk c1 d p') as HO1 by (by eapply one_disk_set). set (c2 := with_ahci_hba _ c1).
  assert (forall j : nat, (j < 32)%nat -> Z.testbit (hba_interrupt_status (ahci_hba_ c2)) (Z.of_nat j) = Z.testbit (hba_interrupt_status (ahci_hba_ c)) (Z.of_nat j)) as Hbits.
  { intros j Hj. cbn. rewrite Z.land_spec, testbit_not32, testbit_clear by lia. destruct (decide (j = d)) as [->|].
    - rewrite Z.eqb_refl. cbn. by rewrite !andb_false_r, andb_true_r.
    - by rewrite (od_status _ _ _ HO j). }
  assert (one_disk c2 d p') as HO2.
  { destruct HO1 as [Q1 Q2 Q3 Q4 Q5]. split; try done. intros j Hj Hjd. rewrite Hbits by done. by apply (od_status _ _ _ HO). }
  exists c2. rewrite (interrupt_turn_skip n (S d) c2 d p' HO2) by (cbn; lia). split; [done|]. split; [done|].
  rewrite Hbits by (destruct HO; lia). done.
Qed.

(** ** Reading *)
Section reading.
Context (dma : HostToDeviceRegisterFis -> PhysicalRegionDescriptor -> (Z -> Z) -> (Z -> Z)).
Context (contiguous : Z -> Z -> Z * Z).
(** The bytes of the disk, and what the ATA command READ DMA EXT does. *)
Context (disk : Z -> Z).
Hypothesis dma_reads : forall f prd mem a,
  fis_command f = kDmaReadExt -> 0 < count f < 2 ^ 16 ->
  dma f prd mem a = if (region_address prd <=? a) && (a <? region_address prd + 512 * count f)
                    then disk (512 * fis_lba f + (a - region_address prd)) else mem a.
Implicit Types w : World.

(** No interrupt is handled between the two stores of a command. *)
Definition calm w : Prop := Forall (fun win => EvInterrupt ∉ win) (w_windows w).

Definition idle_disk w (d : nat) : Prop := (exists p, one_disk (w_driver w) d p /\ port_slots p free32) /\ calm w.

(** The device ends its commands without errors ([ok]), or all of them with one. *)
Definition verdict (ok : bool) (evs : list event) : Prop := forall port slot f irq, EvComplete port slot f irq ∈ evs -> fis_error f = negb ok.

Section waits.
Variable ok : bool.

(** What happened so far to the command in slot 0: its slot, and the memory. *)
Record waiting w (d : nat) (c : CommandInfo) (mem0 : Z -> Z) (x : slot_state * Z) : Prop := {
  wt_port : exists p, one_disk (w_driver w) d p /\ port_slots p (<[0%nat := x]> free32) /\
    (x.1 = Done c -> Z.testbit (hba_interrupt_status (ahci_hba_ (w_driver w))) (Z.of_nat d) = true);
  wt_mem : w_mem w = if in_flight x.1 || negb ok then mem0 else dma (command_fis_of c) (prdt0 (table_of c)) mem0;
  wt_calm : calm w;
  wt_phase : x = (InFlight c, 0) \/ x = (Done c, 0) \/ x = (Free, 1);
}.

Lemma free32_lookup i x n y : <[0%nat := y]> free32 !! i = Some (x, n) -> i = 0%nat /\ (x, n) = y \/ i <> 0%nat /\ x = Free /\ n = 0.
Proof.
  intros H. destruct i; [left; by injection H as <-|]. right. rewrite list_lookup_insert_ne in H by done.
  unfold free32 in H. by apply lookup_replicate in H as [[= -> ->] _].
Qed.

(** A completion event: the device transfers and the command is done, or nothing happens. *)
Lemma complete_waiting w d c mem0 x port slot f irq :
  waiting w d c mem0 x -> fis_error f = negb ok ->
  exists x', waiting (complete dma port slot f irq w) d c mem0 x' /\
    (x' = x /\ complete dma port slot f irq w = w \/ x = (InFlight c, 0) /\ x' = (Done c, 0) /\ exists p, ports_ (w_driver (complete dma port slot f irq w)) !! d = Some (Some p) /\ received_fis_ p = f) /\
    (port = d -> slot = 0%nat -> x = (InFlight c, 0) -> x' = (Done c, 0)).
Proof.
  intros [(p & HO & HR & Hst) Hm Hcalm Hph] Herr. unfold complete.
  destruct (ports_ (w_driver w) !! port) as [[q|]|] eqn:Eq.
  2,3: exists x; split; [split; eauto|]; split; [by left|]; intros -> _ ->; rewrite (od_port _ _ _ HO) in Eq; done.
  pose proof (od_others _ _ _ HO _ _ Eq) as ->. rewrite (od_port _ _ _ HO) in Eq. injection Eq as <-.
  destruct (command_tables_ p !! slot) as [t|] eqn:Et.
  2: { exists x. split; [split; eauto|]. split; [by left|]. intros _ -> _. apply lookup_ge_None in Et. rewrite (ps_tables _ _ HR) in Et. lia. }
  destruct (slot <? 32)%nat eqn:E32; [|rewrite andb_false_r; exists x; split; [split; eauto|]; split; [by left|]; by intros _ -> _].
  apply Nat.ltb_lt in E32. rewrite andb_true_r.
  destruct (lookup_lt_is_Some_2 (<[0%nat := x]> free32) slot) as [[y n] Hy]; [by rewrite (ps_length _ _ HR)|].
  destruct (ps_slot _ _ HR slot y n Hy) as (_ & -> & _ & Htab).
  destruct (free32_lookup _ _ _ _ Hy) as [[-> <-]|(Hs & -> & ->)].
  2: { cbn [in_flight]. exists x. split; [split; eauto|]. split; [by left|]. by intros _ ->. }
  destruct y as [|c'|c'|c']; cbn [in_flight].
  1,2,4: eexists; split; [split; eauto|]; split; [by left|]; by intros _ _ [=].
  destruct Hph as [[= -> ->]|[[=]|[=]]]. rewrite (Htab c eq_refl) in Et. injection Et as <-.
  exists (Done c, 0). split; [|split; [|done]].
  - split; [|cbn in *; rewrite Hm, Herr; by destruct ok|done|by right; left]. exists (device_complete 0 f irq p). split; [|split].
    + destruct (one_disk_set _ _ _ (device_complete 0 f irq p) HO) as [Q1 Q2 Q3 Q4 Q5]. split; try done.
      intros j Hj Hjd. cbn. rewrite testbit_set, (proj2 (Z.eqb_neq _ _)), orb_false_r by lia. by apply Q5.
    + replace (<[0%nat := (Done c, 0)]> free32) with (<[0%nat := (Done c, 0)]> (<[0%nat := (InFlight c, 0)]> free32)) by (by rewrite list_insert_insert_eq).
      by apply device_complete_spec.
    + intros _. cbn. rewrite testbit_set, Z.eqb_refl, orb_true_r by lia. done.
  - right. split; [done|]. split; [done|]. eexists. cbn. split; [apply list_lookup_insert_eq; rewrite (od_ports _ _ _ HO); destruct HO; lia|done].
Qed.

(** The frames are of the types the handler expects and report no error. *)
Definition good_frames (f : ReceivedFis) : Prop :=
  (d2h_type f = FIS_TYPE_REG_D2H /\ pio_type f = FIS_TYPE_PIO_SETUP /\ dma_type f = FIS_TYPE_DMA_SETUP /\ bits_type f = FIS_TYPE_DEV_BITS) /\ fis_error f = false.

Lemma good_frames_ok s f : good_frames f -> fis_ok s f = true.
Proof. intros [(H1 & H2 & H3 & H4) _]. unfold fis_ok, CheckFisType. rewrite H1, H2, H3, H4, !Z.eqb_refl. cbn [negb]. by rewrite !andb_false_r. Qed.

Lemma interrupt_waiting w d c mem0 x :
  waiting w d c mem0 x ->
  exists w' x', run_event dma EvInterrupt w = Ret w' /\ waiting w' d c mem0 x' /\
    (x' = x /\ (forall p, ports_ (w_driver w') !! d = Some (Some p) -> exists q, ports_ (w_driver w) !! d = Some (Some q) /\ received_fis_ p = received_fis_ q) \/ x = (Done c, 0) /\ x' = (Free, 1)) /\
    (forall p, ports_ (w_driver w) !! d = Some (Some p) -> good_frames (received_fis_ p) -> x = (Done c, 0) -> x' = (Free, 1)).
Proof.
  intros [(p & HO & HR & Hst) Hm Hcalm Hph]. destruct (HandleIrq_spec p _ HR) as (p' & HI & Hfis & HR'). cbn [run_event]. unfold InterruptTurn.
  destruct (interrupt_turn_one (Z.to_nat (num_ports_ (w_driver w))) 0 (w_driver w) d p p' HO) as (c' & HT & HO' & Hb); [destruct HO; lia|lia|done|].
  change (Z.of_nat 0) with 0 in HT. rewrite HT. cbn [mbind res_bind]. exists (with_driver c' w).
  set (b := Z.testbit (hba_interrupt_status (ahci_hba_ (w_driver w))) (Z.of_nat d)) in *.
  set (fok := fis_ok (interrupt_status (port_struct_ p)) (received_fis_ p)) in *.
  assert (acknowledge_all <$> <[0%nat := x]> free32 = <[0%nat := acknowledge x]> free32) as Hack by (rewrite list_fmap_insert; by destruct Hph as [->|[->| ->]]).
  exists (if b && fok then acknowledge x else x). split; [done|]. split; [|split].
  - split.
    + exists (if b then p' else p). split; [done|]. destruct b; cbn [andb]; [|split; [done|]; cbn; by rewrite Hb]. destruct fok; [rewrite Hack in HR'|].
      * split; [done|]. cbn. rewrite Hb. by destruct x as [[| | |] ?].
      * split; [done|]. cbn. by rewrite Hb.
    + cbn. rewrite Hm. destruct (b && fok); [|done]. by destruct Hph as [->|[->| ->]].
    + exact Hcalm.
    + destruct (b && fok); [|done]. destruct Hph as [->|[->| ->]]; cbn; auto.
  - destruct (b && fok); [|left; split; [done|]].
    + destruct Hph as [->|[->| ->]]; cbn; [left|by right|left]; (split; [done|]);
        intros q Hq; cbn in Hq; rewrite (od_port _ _ _ HO') in Hq; injection Hq as <-; exists p; split; [apply (od_port _ _ _ HO)|by destruct b|apply (od_port _ _ _ HO)|by destruct b].
    + intros q Hq; cbn in Hq; rewrite (od_port _ _ _ HO') in Hq; injection Hq as <-; exists p; split; [apply (od_port _ _ _ HO)|by destruct b].
  - intros q Hq Hgood ->. rewrite (od_port _ _ _ HO) in Hq. injection Hq as <-. rewrite (Hst eq_refl). unfold fok. by rewrite good_frames_ok.
Qed.

(** Taking the signal leaves an idle port. *)
Lemma take_signal w d c mem0 p :
  waiting w d c mem0 (Free, 1) -> ports_ (w_driver w) !! d = Some (Some p) ->
  idle_disk (set_port d (with_issued (<[0%nat := 0]> (command_signals_ p)) (commands_issued_ p) p) w) d.
Proof.
  intros [(q & HO & HR & _) _ Hcalm _] Hp. rewrite (od_port _ _ _ HO) in Hp. injection Hp as <-. split; [|exact Hcalm].
  eexists. split; [by eapply one_disk_set|]. destruct HR as [R1 R2 R3 R4 R5]. split; cbn; rewrite ?length_insert in *; try done.
  intros i y n Hi. destruct i as [|i].
  - cbn in Hi. injection Hi as <- <-. destruct (R5 0%nat Free 1 eq_refl) as (Q1 & Q2 & _ & _). by rewrite list_lookup_insert_eq by lia.
  - destruct (R5 (S i) y n) as (Q1 & Q2 & Q3 & Q4); [by rewrite list_lookup_insert_ne by done|]. by rewrite list_lookup_insert_ne by done.
Qed.

(** Where a wait stands: it returns when the signal is there, otherwise the next event happens. *)
Lemma Wait_unfold w d c mem0 x evs :
  waiting w d c mem0 x ->
  (x = (Free, 1) /\ exists w', Wait dma d 0 evs w = Ret (w', evs) /\ idle_disk w' d /\ w_mem w' = w_mem w /\ w_regions w' = w_regions w) \/
  (x <> (Free, 1) /\ Wait dma d 0 evs w = match evs with [] => NoFuel | e :: evs => w ← run_event dma e w; Wait dma d 0 evs w end).
Proof.
  intros HW. pose proof HW as [(p & HO & HR & _) _ _ Hph]. destruct (ps_slot _ _ HR 0%nat x.1 x.2) as (_ & _ & Hsig & _); [by destruct x|].
  destruct evs; cbn [Wait]; rewrite (od_port _ _ _ HO), Hsig; cbn [deref mbind res_bind];
    (destruct Hph as [->|[->| ->]]; [by right|by right|left]); (split; [done|]); eexists; (split; [done|]);
    (split; [by eapply take_signal; [|apply (od_port _ _ _ HO)]|done]).
Qed.

(** When a wait returns, the device has transferred the data and the port is idle. *)
Lemma Wait_safe evs : forall w d c mem0 x w' evs',
  waiting w d c mem0 x -> verdict ok evs -> Wait dma d 0 evs w = Ret (w', evs') ->
  idle_disk w' d /\ w_mem w' = (if ok then dma (command_fis_of c) (prdt0 (table_of c)) mem0 else mem0) /\ w_regions w' = w_regions w.
Proof.
  induction evs as [|e evs IH]; intros w d c mem0 x w' evs' HW Hver HWait;
    (match type of HWait with Wait _ _ _ ?e _ = _ => destruct (Wait_unfold w d c mem0 x e HW) as [(-> & w1 & HW1 & H1 & H2 & H3)|[_ HW1]] end;
     rewrite HW1 in HWait; [injection HWait as <- <-; destruct HW as [_ Hm _ _]; cbn in Hm; rewrite H2, Hm; by destruct ok|]); [done|].
  assert (verdict ok evs) as Hver' by (intros port slot f irq Hin; apply (Hver port slot f irq); by right).
  destruct e as [port slot f irq|].
  - cbn [run_event mbind res_bind] in HWait. destruct (complete_waiting w d c mem0 x port slot f irq HW) as (x' & HW' & _); [apply (Hver port slot f irq); by left|].
    destruct (IH _ _ _ _ _ _ _ HW' Hver' HWait) as (H1 & H2 & H3). rewrite H3. split_and!; [done|done|].
    unfold complete. repeat (case_match; try done).
  - destruct (interrupt_waiting w d c mem0 x HW) as (w1 & x' & Hrun & HW' & _). rewrite Hrun in HWait. cbn [mbind res_bind] in HWait.
    destruct (IH _ _ _ _ _ _ _ HW' Hver' HWait) as (H1 & H2 & H3). rewrite H3. split_and!; [done|done|].
    cbn [run_event] in Hrun. apply bind_Ret in Hrun as (c' & _ & Hr). injection Hr as <-. done.
Qed.

Lemma good_verdict evs : (forall port slot f irq, EvComplete port slot f irq ∈ evs -> good_frames f) -> verdict true evs.
Proof. intros Hg port slot f irq Hin. apply (Hg port slot f irq Hin). Qed.

(** A schedule in which the device gets to the command and then the interrupt thread runs. *)
Definition serves (d : nat) (evs : list event) : Prop :=
  (exists pre f irq post, evs = pre ++ EvComplete d 0 f irq :: post /\ EvInterrupt ∈ post) /\
  (forall port slot f irq, EvComplete port slot f irq ∈ evs -> good_frames f).

(** Under such a schedule a wait returns. *)
Lemma Wait_live evs : forall w d c mem0 x,
  waiting w d c mem0 x -> verdict ok evs -> (forall port slot f irq, EvComplete port slot f irq ∈ evs -> good_frames f) ->
  match x.1 with
  | InFlight _ => exists pre f irq post, evs = pre ++ EvComplete d 0 f irq :: post /\ EvInterrupt ∈ post
  | Done _ => EvInterrupt ∈ evs /\ forall p, ports_ (w_driver w) !! d = Some (Some p) -> good_frames (received_fis_ p)
  | _ => True
  end -> exists r, Wait dma d 0 evs w = Ret r.
Proof.
  induction evs as [|e evs IH]; intros w d c mem0 x HW Hver Hgood Hx;
    (match goal with |- exists r, Wait _ _ _ ?e _ = _ => destruct (Wait_unfold w d c mem0 x e HW) as [(-> & w1 & HW1 & _)|[Hne HW1]] end;
     rewrite HW1; [by eauto|]);
    pose proof (wt_phase _ _ _ _ _ HW) as Hph.
  { exfalso. destruct Hph as [->|[->|]]; cbn in Hx; [|destruct Hx as [Hx _]; by apply not_elem_of_nil in Hx|done].
    destruct Hx as ([] & ? & ? & ? & ? & _); done. }
  assert (verdict ok evs) as Hver' by (intros port slot f irq Hin; apply (Hver port slot f irq); by right).
  assert (forall port slot f irq, EvComplete port slot f irq ∈ evs -> good_frames f) as Hgood' by (intros; eapply Hgood; by right).
  destruct e as [port slot f irq|].
  - cbn [run_event mbind res_bind]. destruct (complete_waiting w d c mem0 x port slot f irq HW) as (x' & HW' & Hor & Hdone); [apply (Hver port slot f irq); by left|].
    eapply IH; [exact HW'|done|done|]. destruct Hph as [->|[->|]]; [| |done]; cbn in Hx.
    + destruct Hor as [[-> _]|(_ & -> & q & Hq & Hf)]; cbn.
      * destruct Hx as (pre & f' & irq' & post & Heq & Hin). destruct pre as [|e pre].
        -- injection Heq as -> -> -> -> ->. by specialize (Hdone eq_refl eq_refl eq_refl).
        -- injection Heq as _ ->. by exists pre, f', irq', post.
      * split; [|intros q' Hq'; rewrite Hq in Hq'; injection Hq' as <-; rewrite Hf; eapply Hgood; by left].
        destruct Hx as (pre & f' & irq' & post & Heq & Hin). destruct pre as [|e pre]; injection Heq as; subst; [done|].
        apply elem_of_app. right. by right.
    + destruct Hor as [[-> Heq]|([=] & _)]; cbn. destruct Hx as [Hin Hfr]. split; [by apply elem_of_cons in Hin as [|]|]. by rewrite Heq.
  - destruct (interrupt_waiting w d c mem0 x HW) as (w1 & x' & Hrun & HW' & Hor & Hfree). rewrite Hrun. cbn [mbind res_bind].
    eapply IH; [exact HW'|done|done|]. destruct Hph as [->|[->|]]; [| |done]; cbn in Hx.
    + destruct Hor as [[-> _]|[[=] _]]; cbn. destruct Hx as (pre & f' & irq' & post & Heq & Hin). destruct pre as [|e pre]; [done|].
      injection Heq as _ ->. by exists pre, f', irq', post.
    + destruct Hx as [_ Hfr]. destruct (wt_port _ _ _ _ _ HW) as (p & HO & _). by rewrite (Hfree p (od_port _ _ _ HO) (Hfr p (od_port _ _ _ HO)) eq_refl).
Qed.

(** The frame of a command carries its 48-bit block address. *)
Lemma command_fis_lba c : 0 <= ci_lba c < 2 ^ 48 -> fis_lba (command_fis_of c) = ci_lba c.
Proof.
  intros Hl. unfold fis_lba, command_fis_of. cbn [lba0 lba1 lba2 lba3 lba4 lba5]. unfold u8.
  change 0xFF with (2 ^ 8 - 1). rewrite !land_low, !Z.mod_mod, !Z.shiftr_div_pow2 by lia.
  set (l := ci_lba c) in *. change (2 ^ 48) with (2 ^ 8 * 2 ^ 40) in Hl.
  assert (forall k, 0 <= k -> l / 2 ^ (k + 8) = l / 2 ^ k / 2 ^ 8) as Hdiv by (intros; rewrite Z.pow_add_r, Z.div_div by lia; done).
  change 16 with (8 + 8). change 24 with (16 + 8). change 32 with (24 + 8). change 40 with (32 + 8). rewrite !Hdiv by lia.
  change (16 + 8) with 24. change (24 + 8) with 32. change (32 + 8) with 40.
  Z.to_euclidean_division_equations. lia.
Qed.

Definition read_command (lba size paddr : Z) : CommandInfo := mkCommandInfo kDmaReadExt lba size paddr.

(** A completion when the device has no command is nothing; so a window without interrupts changes nothing. *)
Lemma complete_none w d p a port slot f irq :
  one_disk (w_driver w) d p -> port_slots p a -> (forall i c n, a !! i <> Some (InFlight c, n)) -> complete dma port slot f irq w = w.
Proof.
  intros HO HR Hn. unfold complete. destruct (ports_ (w_driver w) !! port) as [[q|]|] eqn:Eq; [|done..].
  pose proof (od_others _ _ _ HO _ _ Eq) as ->. rewrite (od_port _ _ _ HO) in Eq. injection Eq as <-.
  destruct (command_tables_ p !! slot) as [t|] eqn:Et; [|done]. apply lookup_lt_Some in Et. rewrite (ps_tables _ _ HR) in Et.
  destruct (lookup_lt_is_Some_2 a slot) as [[y n] Hy]; [by rewrite (ps_length _ _ HR)|]. destruct (ps_slot _ _ HR slot y n Hy) as (_ & -> & _).
  destruct y as [| |c|]; try done. by destruct (Hn slot c n).
Qed.

Lemma run_events_none win : forall w d p a,
  one_disk (w_driver w) d p -> port_slots p a -> (forall i c n, a !! i <> Some (InFlight c, n)) -> EvInterrupt ∉ win -> run_events dma win w = Ret w.
Proof.
  induction win as [|e win IH]; intros w d p a HO HR Hn Hin; [done|]. apply not_elem_of_cons in Hin as [He Hin]. destruct e as [port slot f irq|]; [|done].
  cbn [run_events run_event]. rewrite ret_bind, (complete_none w d p a) by done. by eapply IH.
Qed.

(** A command on an idle disk takes slot 0. *)
Lemma issue_idle_command w d c :
  idle_disk w d -> exists w', device_IssueCommand dma d c w = Ret (EOk 0%nat, w') /\ w_regions w' = w_regions w /\ waiting w' d c (w_mem w) (InFlight c, 0).
Proof.
  intros [(p & HO & HR) Hcalm]. unfold device_IssueCommand. rewrite (od_port _ _ _ HO).
  destruct (issue_prepare_spec c p free32 HR) as [(i & n & p' & Hi & Hbef & HI & HR' & _)|[HF _]].
  2: { rewrite Forall_lookup in HF. by specialize (HF 0%nat _ eq_refl). }
  destruct i as [|i]; [|by specialize (Hbef 0%nat _ _ ltac:(lia) eq_refl)]. cbn in Hi. injection Hi as <-. rewrite HI, ret_bind.
  assert (one_disk (w_driver (set_port d p' w)) d p') as HO' by (by eapply one_disk_set).
  assert (exists w1, run_window dma (set_port d p' w) = Ret w1 /\ w_driver w1 = w_driver (set_port d p' w) /\ w_mem w1 = w_mem w /\ w_regions w1 = w_regions w /\ calm w1) as (w1 & Hw1 & Hdr & Hm & Hreg & Hc1).
  { unfold run_window. cbn [set_port with_driver w_windows]. unfold calm in Hcalm. destruct (w_windows w) as [|win rest] eqn:Ew; [eexists; split; [done|]; split_and!; try done; unfold calm; cbn; by rewrite Ew|].
    apply Forall_cons in Hcalm as [Hwin Hrest]. eexists. split; [eapply run_events_none; [exact HO'|exact HR'| |done]|by split_and!].
    intros j c' m Hj. by apply free32_lookup in Hj as [[_ [=]]|(_ & [=] & _)]. }
  rewrite Hw1, ret_bind, Hdr, (od_port _ _ _ HO'). cbn [deref]. rewrite ret_bind. cbn [deref]. rewrite ret_bind. eexists. split; [done|]. split; [done|].
  split; [|done|done|by left]. eexists. split; [cbn; rewrite Hdr; by eapply one_disk_set|]. split; [|by intros [=]].
  replace (<[0%nat := (InFlight c, 0)]> free32) with (<[0%nat := (InFlight c, 0)]> (<[0%nat := (Prepared c, 0)]> free32)) by (by rewrite list_insert_insert_eq).
  by apply issue_commit_spec.
Qed.

Lemma issue_idle w d lba size paddr :
  idle_disk w d -> 0 <= size < 2 ^ 16 ->
  exists w', device_IssueRead dma d lba size paddr w = Ret (EOk 0%nat, w') /\ w_regions w' = w_regions w /\
    waiting w' d (read_command lba size paddr) (w_mem w) (InFlight (read_command lba size paddr), 0).
Proof. intros Hi Hs. unfold device_IssueRead, u16. rewrite Z.mod_small by lia. by apply issue_idle_command. Qed.

End waits.

(** The transfer of a read. *)
Lemma read_transfer lba size paddr mem :
  0 <= lba < 2 ^ 48 -> 0 < size < 2 ^ 16 -> let c := read_command lba size paddr in
  forall a, dma (command_fis_of c) (prdt0 (table_of c)) mem a =
    if (paddr <=? a) && (a <? paddr + 512 * size) then disk (512 * lba + (a - paddr)) else mem a.
Proof. intros Hl Hs c a. rewrite dma_reads by done. rewrite command_fis_lba by done. done. Qed.

(** The sectors a request names. *)
Definition sectors (lba size : Z) : list Z := mem_range disk (512 * lba) (Z.to_nat (512 * size)).

(** A whole read: what it leaves when it returns, and that it returns. *)
Lemma read_once w d lba size paddr :
  idle_disk w d -> 0 <= lba < 2 ^ 48 -> 0 < size < 2 ^ 16 ->
  exists w1, device_IssueRead dma d lba size paddr w = Ret (EOk 0%nat, w1) /\
    (forall ok evs w' evs', verdict ok evs -> Wait dma d 0 evs w1 = Ret (w', evs') -> idle_disk w' d /\ w_regions w' = w_regions w /\
       (if ok then mem_range (w_mem w') paddr (Z.to_nat (512 * size)) = sectors lba size /\
                   (forall a, a < paddr \/ paddr + 512 * size <= a -> w_mem w' a = w_mem w a)
        else w_mem w' = w_mem w)) /\
    (forall evs, serves d evs -> exists r, Wait dma d 0 evs w1 = Ret r).
Proof.
  intros Hi Hl Hs. destruct (issue_idle true w d lba size paddr Hi) as (w1 & HI & Hreg & HW); [lia|]. exists w1. split; [done|]. split.
  - intros ok evs w' evs' Hver Hwait. assert (waiting ok w1 d (read_command lba size paddr) (w_mem w) (InFlight (read_command lba size paddr), 0)) as HW'.
    { destruct (issue_idle ok w d lba size paddr Hi) as (w2 & HI2 & _ & HW2); [lia|]. rewrite HI in HI2. by injection HI2 as <-. }
    destruct (Wait_safe _ _ _ _ _ _ _ _ _ HW' Hver Hwait) as (H1 & H2 & H3). split; [done|]. split; [congruence|].
    rewrite H2. destruct ok; [|done]. pose proof (read_transfer lba size paddr (w_mem w) Hl Hs) as HT. cbn zeta in HT. split.
    + apply mem_range_ext. intros i Hi'. rewrite HT, (proj2 (Z.leb_le _ _)), (proj2 (Z.ltb_lt _ _)) by lia. cbn. f_equal. lia.
    + intros a Ha. rewrite HT. destruct (Z.leb_spec paddr a), (Z.ltb_spec a (paddr + 512 * size)); cbn; try done; lia.
  - intros evs [Hev Hgood]. eapply Wait_live; [exact HW|exact (good_verdict _ Hgood)|exact Hgood|exact Hev].
Qed.

Lemma GetDevice_idle w d : idle_disk w d -> GetDevice (Z.of_nat d) (w_driver w) = Ret (EOk d).
Proof.
  intros [(p & HO & _) _]. unfold GetDevice. rewrite (proj2 (Z.leb_gt _ _)) by (destruct HO; lia). rewrite Nat2Z.id, (od_port _ _ _ HO). done.
Qed.

(** Events left over by one wait are there for the next. *)
Lemma Wait_app e1 : forall e2 d slot w w' r, Wait dma d slot e1 w = Ret (w', r) -> Wait dma d slot (e1 ++ e2) w = Ret (w', r ++ e2).
Proof.
  induction e1 as [|e e1 IH]; intros e2 d slot w w' r HW.
  - cbn [Wait app] in *. destruct e2; cbn [Wait]; destruct (ports_ (w_driver w) !! d) as [[p|]|]; try done;
      (destruct (command_signals_ p !! slot); [|done]); cbn [deref mbind res_bind] in *; case_if_hyp HW; try done; by injection HW as <- <-.
  - cbn [Wait app] in *. destruct (ports_ (w_driver w) !! d) as [[p|]|]; try done. destruct (command_signals_ p !! slot); [|done].
    cbn [deref mbind res_bind] in *. case_if_hyp HW; [by injection HW as <- <-|]. destruct (run_event dma e w); try done. cbn [mbind res_bind] in *. by apply IH.
Qed.

Lemma verdict_suffix ok pre evs : verdict ok (pre ++ evs) -> verdict ok evs.
Proof. intros H port slot f irq Hin. apply (H port slot f irq). apply elem_of_app. by right. Qed.

(** Schedules that serve [n] commands one after the other. *)
Fixpoint serves_many (d n : nat) (evs : list event) : Prop :=
  match n with
  | O => True
  | S n' => exists e1 e2, evs = e1 ++ e2 /\ serves d e1 /\ serves_many d n' e2
  end.

Definition good_schedule (evs : list event) : Prop := forall port slot f irq, EvComplete port slot f irq ∈ evs -> good_frames f.

Lemma serves_many_prefix d n r evs : good_schedule r -> serves_many d n evs -> serves_many d n (r ++ evs).
Proof.
  intros Hr. destruct n as [|n]; [done|]. cbn. intros (e1 & e2 & -> & [(pre & f & irq & post & -> & Hin) Hg] & H2).
  exists (r ++ pre ++ EvComplete d 0 f irq :: post), e2. split; [by rewrite <- !app_assoc|]. split; [|done]. split.
  - exists (r ++ pre), f, irq, post. by rewrite <- app_assoc.
  - intros port slot f' irq' Hel. apply elem_of_app in Hel as [?|?]; [by eapply Hr|by eapply Hg].
Qed.

Lemma Wait_suffix e1 : forall d slot w w' r, Wait dma d slot e1 w = Ret (w', r) -> exists pre, e1 = pre ++ r.
Proof.
  induction e1 as [|e e1 IH]; intros d slot w w' r HW; cbn [Wait] in HW; destruct (ports_ (w_driver w) !! d) as [[p|]|]; try done;
    (destruct (command_signals_ p !! slot); [|done]); cbn [deref mbind res_bind] in HW; case_if_hyp HW; try done.
  1,2: injection HW as <- <-; by exists [].
  destruct (run_event dma e w); try done. cbn [mbind res_bind] in HW. destruct (IH _ _ _ _ _ HW) as [pre ->]. by exists (e :: pre).
Qed.

Definition block_ok (b : DiskBlock) : Prop := 0 <= DiskBlock_lba b < 2 ^ 48 /\ 0 < DiskBlock_size b < 2 ^ 16.
Fixpoint total_size (bs : list DiskBlock) : Z := match bs with [] => 0 | b :: bs' => DiskBlock_size b + total_size bs' end.
Definition block_sectors (b : DiskBlock) : list Z := sectors (DiskBlock_lba b) (DiskBlock_size b).

Lemma total_size_nonneg bs : Forall block_ok bs -> 0 <= total_size bs.
Proof. induction 1 as [|b bs [_ Hb] _ IH]; cbn; lia. Qed.

Lemma sector_count bs n : Forall block_ok bs -> 0 <= n -> n + total_size bs < 2 ^ 64 ->
  foldl (fun n block => n [+] DiskBlock_size block) n bs = n + total_size bs.
Proof.
  intros HF. revert n. induction HF as [|b bs [_ Hb] HF IH]; intros n Hn Hlt; cbn [foldl total_size] in *; [lia|].
  pose proof (total_size_nonneg bs HF). rewrite u64_small by lia. rewrite IH by lia. lia.
Qed.

(** The loop over the blocks: the regions follow each other, so the sectors do. *)
Lemma read_blocks_reads bs : forall paddr evs w d r w' evs',
  Forall block_ok bs -> idle_disk w d -> 0 <= paddr -> paddr + 512 * total_size bs < 2 ^ 64 -> verdict true evs ->
  read_blocks dma d bs paddr evs w = Ret (r, w', evs') ->
  r = EOk tt /\ idle_disk w' d /\ mem_range (w_mem w') paddr (Z.to_nat (512 * total_size bs)) = concat (block_sectors <$> bs) /\
  (forall a, a < paddr \/ paddr + 512 * total_size bs <= a -> w_mem w' a = w_mem w a).
Proof.
  induction bs as [|b bs IH]; intros paddr evs w d r w' evs' HF Hidle Hp Hfit Hver HR; cbn [read_blocks] in HR.
  { injection HR as <- <- <-. cbn. by split_and!. }
  apply Forall_cons in HF as [[Hl Hs] HF]. pose proof (total_size_nonneg bs HF). cbn [total_size] in Hfit |- *.
  destruct (read_once w d _ _ paddr Hidle Hl Hs) as (w1 & HI & HS & _). rewrite HI in HR. cbn [mbind res_bind] in HR.
  destruct (Wait dma d 0 evs w1) as [[w2 evs2]| | |] eqn:EW; try done. cbn [mbind res_bind] in HR.
  destruct (HS true _ _ _ Hver EW) as (Hidle2 & _ & Hmem & Hout). pose proof (Wait_suffix _ _ _ _ _ _ EW) as [pre ->]. rewrite (u64_small (DiskBlock_size b * 512)), u64_small in HR by lia.
  destruct (IH (paddr + DiskBlock_size b * 512) evs2 w2 d r w' evs' HF Hidle2 ltac:(lia) ltac:(lia) (verdict_suffix _ _ _ Hver) HR) as (-> & Hidle' & Hmem' & Hout').
  split; [done|]. split; [done|]. split.
  - cbn [fmap list_fmap concat]. replace (Z.to_nat (512 * (DiskBlock_size b + total_size bs)))
      with (Z.to_nat (512 * DiskBlock_size b) + Z.to_nat (512 * total_size bs))%nat by lia.
    rewrite mem_range_app. f_equal.
    + unfold block_sectors. rewrite <- Hmem. apply mem_range_ext. intros i Hi. apply Hout'. lia.
    + rewrite <- Hmem'. f_equal. lia.
  - intros a Ha. rewrite Hout', Hout by lia. done.
Qed.

Lemma read_blocks_returns bs : forall paddr evs w d,
  Forall block_ok bs -> idle_disk w d -> good_schedule evs -> serves_many d (length bs) evs ->
  exists r, read_blocks dma d bs paddr evs w = Ret r.
Proof.
  induction bs as [|b bs IH]; intros paddr evs w d HF Hidle Hg Hev; cbn [read_blocks]; [by eexists|].
  apply Forall_cons in HF as [[Hl Hs] HF]. destruct Hev as (e1 & e2 & -> & H1 & H2).
  destruct (read_once w d _ _ paddr Hidle Hl Hs) as (w1 & HI & HS & HL). rewrite HI. cbn [mbind res_bind].
  destruct (HL e1 H1) as [[w2 rest] Hw]. pose proof (Wait_app e1 e2 d 0 w1 w2 rest Hw) as Happ. rewrite Happ. cbn [mbind res_bind].
  destruct (HS true _ _ _ (good_verdict _ (proj2 H1)) Hw) as (Hidle2 & _). apply Wait_suffix in Hw as [pre ->]. apply IH; [done|done| |].
  - intros port slot f irq Hel. apply (Hg port slot f irq). rewrite <- app_assoc. apply elem_of_app. by right.
  - apply serves_many_prefix; [|done]. intros port slot f irq Hel. apply (Hg port slot f irq). rewrite <- !app_assoc. apply elem_of_app. right. apply elem_of_app. by left.
Qed.

(** What [HandleRead] leaves when it returns, and that it returns. *)
Lemma HandleRead_spec w d lba size resp evs :
  idle_disk w d -> 0 <= lba < 2 ^ 48 -> 0 < size < 2 ^ 16 ->
  let req := mkReadRequest (Z.of_nat d) (mkDiskBlock lba size) in
  let '(cap, paddr) := contiguous (w_regions w) (512 * size) in
  (forall ok st resp' w' evs', verdict ok evs -> HandleRead dma contiguous req resp evs w = Ret (st, resp', w', evs') ->
     st = Status_Ok /\ resp' = mkReadResponse (Z.of_nat d) size cap /\ idle_disk w' d /\
     (if ok then mem_range (w_mem w') paddr (Z.to_nat (512 * size)) = sectors lba size /\
                 (forall a, a < paddr \/ paddr + 512 * size <= a -> w_mem w' a = w_mem w a)
      else w_mem w' = w_mem w)) /\
  (serves d evs -> exists r, HandleRead dma contiguous req resp evs w = Ret r).
Proof.
  intros Hidle Hl Hs req. destruct (contiguous (w_regions w) (512 * size)) as [cap paddr] eqn:EC. unfold HandleRead, req, ContiguousPhysical.
  cbn [ReadRequest_device_id ReadRequest_block DiskBlock_size DiskBlock_lba].
  rewrite (GetDevice_idle w d Hidle). cbn [mbind res_bind]. rewrite u64_small, (Z.mul_comm size 512), EC by lia. set (w0 := mkWorld _ _ _ _).
  assert (idle_disk w0 d) as Hidle0 by exact Hidle. destruct (read_once w0 d lba size paddr Hidle0 Hl Hs) as (w1 & -> & HS & HL).
  cbn [mbind res_bind]. split.
  - intros ok st resp' w' evs' Hver HR. destruct (Wait dma d 0 evs w1) as [[w2 evs2]| | |] eqn:EW; try done. cbn [mbind res_bind] in HR.
    injection HR as <- <- <- <-. destruct (HS ok _ _ _ Hver EW) as (H1 & _ & H2). destruct resp. done.
  - intros Hev. destruct (HL evs Hev) as [[w2 evs2] ->]. by eexists.
Qed.


(** The same of [HandleReadMany]. *)
Lemma HandleReadMany_spec w d blocks resp evs :
  idle_disk w d -> Forall block_ok blocks ->
  let req := mkReadManyRequest (Z.of_nat d) blocks in
  let '(cap, paddr) := contiguous (w_regions w) (512 * total_size blocks) in
  0 <= paddr -> paddr + 512 * total_size blocks < 2 ^ 64 ->
  (forall st resp' w' evs', verdict true evs -> HandleReadMany dma contiguous req resp evs w = Ret (st, resp', w', evs') ->
     st = Status_Ok /\ resp' = mkReadResponse (Z.of_nat d) (total_size blocks) cap /\ idle_disk w' d /\
     mem_range (w_mem w') paddr (Z.to_nat (512 * total_size blocks)) = concat (block_sectors <$> blocks) /\
     (forall a, a < paddr \/ paddr + 512 * total_size blocks <= a -> w_mem w' a = w_mem w a)) /\
  (good_schedule evs -> serves_many d (length blocks) evs -> exists r, HandleReadMany dma contiguous req resp evs w = Ret r).
Proof.
  intros Hidle HF req. destruct (contiguous (w_regions w) (512 * total_size blocks)) as [cap paddr] eqn:EC. intros Hp Hfit.
  pose proof (total_size_nonneg blocks HF). unfold HandleReadMany, req, ContiguousPhysical.
  cbn [ReadManyRequest_device_id ReadManyRequest_blocks]. rewrite (GetDevice_idle w d Hidle). cbn [mbind res_bind].
  rewrite (sector_count blocks 0 HF) by lia. rewrite Z.add_0_l, u64_small, (Z.mul_comm (total_size blocks) 512), EC by lia.
  set (w0 := mkWorld _ _ _ _). assert (idle_disk w0 d) as Hidle0 by exact Hidle. split.
  - intros st resp' w' evs' Hver HR. destruct (read_blocks dma d blocks paddr evs w0) as [[[r w2] evs2]| | |] eqn:EW; try done.
    cbn [mbind res_bind] in HR. destruct (read_blocks_reads blocks paddr evs w0 d r w2 evs2 HF Hidle0 Hp Hfit Hver EW) as (-> & H1 & H2 & H3).
    injection HR as <- <- <- <-. destruct resp. done.
  - intros Hg Hev. destruct (read_blocks_returns blocks paddr evs w0 d HF Hidle0 Hg Hev) as [[[r w2] evs2] EW]. rewrite EW. cbn [mbind res_bind].
    destruct (read_blocks_reads blocks paddr evs w0 d r w2 evs2 HF Hidle0 Hp Hfit (good_verdict _ Hg) EW) as (-> & _). by eexists.
Qed.


(** The sector count of a read is passed on as a uint16_t: a request for 65536 + n sectors is answered Ok with its own
    size, but only n sectors were read. *)
Lemma HandleRead_truncates w d lba n resp evs st resp' w' evs' :
  idle_disk w d -> 0 <= lba < 2 ^ 48 -> 0 < n < 2 ^ 16 -> verdict true evs ->
  HandleRead dma contiguous (mkReadRequest (Z.of_nat d) (mkDiskBlock lba (2 ^ 16 + n))) resp evs w = Ret (st, resp', w', evs') ->
  st = Status_Ok /\ ReadResponse_size resp' = 2 ^ 16 + n /\
  forall a, a < (contiguous (w_regions w) (512 * (2 ^ 16 + n))).2 \/ (contiguous (w_regions w) (512 * (2 ^ 16 + n))).2 + 512 * n <= a ->
    w_mem w' a = w_mem w a.
Proof.
  intros Hidle Hl Hs Hver HR. unfold HandleRead, ContiguousPhysical in HR. cbn [ReadRequest_device_id ReadRequest_block DiskBlock_size DiskBlock_lba] in HR.
  rewrite (GetDevice_idle w d Hidle) in HR. cbn [mbind res_bind] in HR. rewrite u64_small, (Z.mul_comm _ 512) in HR by lia.
  destruct (contiguous (w_regions w) (512 * (2 ^ 16 + n))) as [cap paddr] eqn:EC. set (w0 := mkWorld _ _ _ _) in HR.
  assert (device_IssueRead dma d lba (2 ^ 16 + n) paddr w0 = device_IssueRead dma d lba n paddr w0) as Heq.
  { unfold device_IssueRead, u16. replace ((2 ^ 16 + n) mod 2 ^ 16) with (n mod 2 ^ 16); [done|].
    rewrite Z.add_mod, Z.mod_same, Z.add_0_l, Z.mod_mod by lia. done. }
  assert (idle_disk w0 d) as Hidle0 by exact Hidle. destruct (read_once w0 d lba n paddr Hidle0 Hl Hs) as (w1 & HI & HS & _).
  rewrite Heq, HI in HR. cbn [mbind res_bind] in HR. destruct (Wait dma d 0 evs w1) as [[w2 evs2]| | |] eqn:EW; try done.
  cbn [mbind res_bind] in HR. injection HR as <- <- <- <-. destruct (HS true _ _ _ Hver EW) as (_ & _ & _ & H3). destruct resp. done.
Qed.
End reading.

(** ** A machine with a disk *)
Definition demo_disk (a : Z) : Z := (a * 7) mod 256.
Definition demo_dma (f : HostToDeviceRegisterFis) (prd : PhysicalRegionDescriptor) (mem : Z -> Z) (a : Z) : Z :=
  if (region_address prd <=? a) && (a <? region_address prd + 512 * count f) then demo_disk (512 * fis_lba f + (a - region_address prd)) else mem a.
Definition demo_contiguous (n size : Z) : Z * Z := (n + 40, 0x100000 * (n + 1)).
Definition demo_controller : AhciController := mkController (mkHba 0 0 0 1) (Some demo_port :: replicate 31 None) 1 32.
Definition demo_world : World := mkWorld demo_controller (fun _ => 0) 0 [[EvComplete 0 0 (mkReceived 0 0 0 0 0 0 0) 1]].
Definition demo_frames : ReceivedFis := mkReceived FIS_TYPE_REG_D2H 0 FIS_TYPE_PIO_SETUP 0 FIS_TYPE_DMA_SETUP FIS_TYPE_DEV_BITS 0.
Definition demo_events : list event := [EvInterrupt; EvComplete 0 0 demo_frames 1; EvInterrupt].

Lemma demo_idle : idle_disk demo_world 0.
Proof.
  split; [|repeat constructor; by intros ?%list_elem_of_singleton].
  exists demo_port. split; [|apply (fresh_port_slots demo_hba 0x10000); reflexivity]. split; try done.
  - intros [|j] q Hj; [done|]. change (replicate 31 None !! j = Some (Some q)) in Hj. by apply lookup_replicate in Hj as [? _].
  - intros j _ _. cbn. apply Z.bits_0.
Qed.

Lemma demo_serves : serves 0 demo_events.
Proof.
  split.
  - exists [EvInterrupt], demo_frames, 1, [EvInterrupt]. split; [done|]. by left.
  - intros port slot f irq Hel. repeat (apply elem_of_cons in Hel as [Hel|Hel]; [try done; by injection Hel as -> -> -> ->|]). by apply not_elem_of_nil in Hel.
Qed.


(** An interrupt between the two stores: after a first read, whose bit stays set in the controller, the interrupt thread runs
    inside the next command.  The read is answered Ok without any event of the device, and nothing was transferred. *)
Definition windy_world : World := mkWorld demo_controller (fun _ => 0) 0 [[]; [EvInterrupt]].
Example read_returns_without_data :
  match HandleRead demo_dma demo_contiguous (mkReadRequest 0 (mkDiskBlock 2048 1)) (mkReadResponse 0 0 0) demo_events windy_world with
  | Ret (_, _, w, _) =>
      match HandleRead demo_dma demo_contiguous (mkReadRequest 0 (mkDiskBlock 7 1)) (mkReadResponse 0 0 0) [] w with
      | Ret (st, resp, w', _) => st = Status_Ok /\ resp = mkReadResponse 0 1 41 /\ mem_range (w_mem w') 0x200000 16 = replicate 16 0 /\ mem_range demo_disk (512 * 7) 16 <> replicate 16 0
      | _ => False
      end
  | _ => False
  end.
Proof. vm_compute. repeat split; done. Qed.

Lemma demo_serves_twice : good_schedule (demo_events ++ demo_events) /\ serves_many 0 2 (demo_events ++ demo_events).
Proof.
  split.
  - intros port slot f irq [Hel|Hel]%elem_of_app; by eapply (proj2 demo_serves).
  - exists demo_events, demo_events. split; [done|]. split; [exact demo_serves|]. exists demo_events, []. split; [done|]. split; [exact demo_serves|done].
Qed.


(** Two disks, both with a finished command and both interrupting: the store that should acknowledge port 0 acknowledges
    port 1 instead (the register clears the bits written as ones), so the second disk's command stays unsignalled and the
    first disk's bit stays set. *)
Definition finished_port : AhciPort :=
  match issue_prepare (mkCommandInfo kDmaReadExt 0 1 0x5000) demo_port with
  | Ret (EOk (slot, p)) => device_complete 0 demo_frames 1 (issue_commit slot p)
  | _ => demo_port
  end.
Definition two_disks : AhciController := mkController (mkHba 1 0 3 3) (Some finished_port :: Some finished_port :: replicate 30 None) 2 32.

Lemma interrupt_of_second_disk_lost :
  match InterruptTurn two_disks with
  | Ret c => (commands_issued_ <$> mjoin (ports_ c !! 0%nat), commands_issued_ <$> mjoin (ports_ c !! 1%nat), hba_interrupt_status (ahci_hba_ c)) = (Some 0, Some 1, 1)
  | _ => False
  end.
Proof. vm_compute. reflexivity. Qed.
