(* ===== verification/Ext2.v ===== *)
(** * The ext2 driver (sys/victoriafalls/fs/ext2)

    [Ext2BlockReader] turns blocks into sectors, [InodeTable] finds inodes,
    [Ext2Driver] reads files and directories and keeps a cache of the inodes it
    read.  The disk service is the class [DiskClient] (its promise is proved of
    the service in Mount.v).  A memory region is its bytes, [None] the empty
    region at address 0; a pointer into a region is the region and an offset,
    and an access outside of it faults. *)

From Stdlib Require Import ZArith Lia.
From stdpp Require Import base tactics numbers list strings gmap.
From S2P Require Import Prelude Status Buffer LinkedList Hash HashMap.

Notation region := (option (list Z)).

(** ** The disk service, over a state [K] of everything behind it *)
Class DiskClient (K : Type) : Type := {
  (* device, first sector, number of sectors *)
  Denali_Read : Z -> Z -> Z -> K -> res (ErrorOr (list Z) * K);
  (* device, runs of sectors *)
  Denali_ReadMany : Z -> list (Z * Z) -> K -> res (ErrorOr (list Z) * K);
}.

(** Computations that call the disk: [ErrorOr] results over the state. *)
Definition io (K A : Type) : Type := K -> res (ErrorOr A * K).
#[export] Instance io_ret K : MRet (io K) := fun A a k => Ret (EOk a, k).
#[export] Instance io_bind K : MBind (io K) := fun A B f m k =>
  '(r, k) ← m k; match r with EErr e => Ret (EErr e, k) | EOk a => f a k end.
Definition lift {K A} (m : res A) : io K A := fun k => a ← m; Ret (EOk a, k).
Definition fail {K A} (e : ErrorCode) : io K A := fun k => Ret (EErr e, k).

(** ** Accesses *)
Definition bytes_of (r : region) : res (list Z) := deref r.
Definition u32_at (off : Z) (r : list Z) : res Z := At_u32 off r.
Definition u16_at (off : Z) (r : list Z) : res Z := l ← load_bytes off 2 r; Ret (le_val l).
Definition u8_at (off : Z) (r : list Z) : res Z := l ← load_bytes off 1 r; Ret (le_val l).

(** The value of an int expression [x << n] as a uint64_t. *)
Definition s32 (z : Z) : Z := if z <? 2 ^ 31 then z else z - 2 ^ 32.
Definition shl_int (x n : Z) : res Z := if n <? 32 then Ret (u64 (s32 (u32 (x * 2 ^ n)))) else Fault.

(** Division in the code's unsigned types; a zero divisor traps. *)
Definition udiv (a b : Z) : res Z := if b =? 0 then Fault else Ret (a / b).

(** ** ext2.h: the fields the driver reads, by their offset *)
Definition sb_blocks_count (sb : list Z) : res Z := u32_at 4 sb.
Definition sb_log_block_size (sb : list Z) : res Z := u32_at 24 sb.
Definition sb_blocks_per_group (sb : list Z) : res Z := u32_at 32 sb.
Definition sb_inodes_per_group (sb : list Z) : res Z := u32_at 40 sb.
Definition sb_magic (sb : list Z) : res Z := u16_at 56 sb.
Definition sb_rev_level (sb : list Z) : res Z := u32_at 76 sb.
Definition sb_inode_size (sb : list Z) : res Z := u16_at 88 sb.

Definition bgd_size : Z := 32.
Definition bgd_inode_table (n : Z) (bgdt : list Z) : res Z := u32_at (bgd_size * n + 8) bgdt.

(** An [Inode*]: the region it points into and the offset. *)
Record Inode : Type := mkInode { in_region : list Z; in_offset : Z }.
Definition inode_mode (i : Inode) : res Z := u16_at (in_offset i) (in_region i).
Definition inode_file_size (i : Inode) : res Z := u32_at (in_offset i + 4) (in_region i).
Definition inode_blocks (i : Inode) : res Z := u32_at (in_offset i + 28) (in_region i).
Definition inode_block (n : Z) (i : Inode) : res Z := u32_at (in_offset i + 40 + 4 * n) (in_region i).

Record DirEntry : Type := mkDirEntry { de_inode : Z; record_length : Z; name_len : Z; file_type : Z; de_name : list Z }.

(** A copy of the 264 bytes of the struct. *)
Definition read_DirEntry (addr : Z) (r : list Z) : res DirEntry :=
  l ← load_bytes addr 264 r;
  Ret (mkDirEntry (le_val (take 4 l)) (le_val (take 2 (drop 4 l))) (le_val (take 1 (drop 6 l))) (le_val (take 1 (drop 7 l))) (drop 8 l)).

(** ** Ext2BlockReader *)
Record Ext2BlockReader : Type := mkReader { device_id_ : Z; lba_offset_ : Z; super_block_region_ : list Z }.

Section reader.
Context {K : Type} `{DiskClient K}.
Implicit Types r : Ext2BlockReader.

Definition Ext2BlockReader_Init (device_id lba_offset : Z) : io K Ext2BlockReader :=
  superblock ← (Denali_Read device_id (lba_offset [+] 2) 2 : io K _);
  mret (mkReader device_id lba_offset superblock).

Definition SectorsPerBlock r : res Z := l ← sb_log_block_size (super_block_region_ r); shl_int 1 (u32 (l + 1)).
Definition BlockSize r : res Z := l ← sb_log_block_size (super_block_region_ r); shl_int 1024 l.

Definition NumberOfBlockGroups r : res Z :=
  n ← sb_blocks_count (super_block_region_ r);
  per ← sb_blocks_per_group (super_block_region_ r);
  q ← udiv (u32 (n - 1)) per;
  Ret (u32 (q + 1)).

Definition BgdtBlockNum r : res Z := b ← BlockSize r; Ret (if b =? 1024 then 2 else 1).

Definition BgdtBlockSize r : res Z :=
  n ← NumberOfBlockGroups r;
  b ← BlockSize r;
  q ← udiv (n [*] bgd_size [-] 1) b;
  Ret (q [+] 1).

Definition kDefaultInodeSize : Z := 0x80.
Definition InodeSize r : res Z :=
  rev ← sb_rev_level (super_block_region_ r);
  if 1 <=? rev then sb_inode_size (super_block_region_ r) else Ret kDefaultInodeSize.

Definition InodeTableBlockSize r : res Z :=
  s ← InodeSize r;
  n ← sb_inodes_per_group (super_block_region_ r);
  b ← BlockSize r;
  udiv (s [*] n) b.

Definition ReadBlocks r (block_number num_blocks : Z) : io K (list Z) :=
  spb ← lift (SectorsPerBlock r);
  Denali_Read (device_id_ r) (lba_offset_ r [+] block_number [*] spb) (num_blocks [*] spb).

Definition ReadBlock r (block_number : Z) : io K (list Z) := ReadBlocks r block_number 1.

(** The inner loop: the length of the run that starts at [cur], and what follows it. *)
Fixpoint run_loop (cur len : Z) (rest : list Z) : Z * list Z :=
  match rest with
  | next :: rest' => if next =? cur [+] 1 then run_loop next (len [+] 1) rest' else (len, rest)
  | [] => (len, [])
  end.

(** The outer loop, one request per run; every turn consumes a block. *)
Fixpoint request_loop (fuel : nat) (lba_offset spb : Z) (block_list : list Z) (blocks : list (Z * Z)) : res (list (Z * Z)) :=
  match block_list with
  | [] => Ret blocks
  | b :: rest =>
      match fuel with
      | O => NoFuel
      | S fuel' =>
          let curr_start := lba_offset [+] b [*] spb in
          let '(curr_run_len, rest) := run_loop b 1 rest in
          request_loop fuel' lba_offset spb rest (blocks ++ [(curr_start, curr_run_len [*] spb)])
      end
  end.

Definition ReadBlocks_list r (block_list : list Z) : io K (list Z) :=
  spb ← lift (SectorsPerBlock r);
  req ← lift (request_loop (length block_list) (lba_offset_ r) spb block_list []);
  Denali_ReadMany (device_id_ r) req.

(** ** InodeTable *)
Record InodeTable : Type := mkInodeTable { bgdt_region_ : list Z; inode_tables_ : list region }.

(** [Resize] gives the vector room for a region per group, all of them empty. *)
Definition InodeTable_new r (bgdt_region : list Z) : res InodeTable :=
  n ← NumberOfBlockGroups r;
  Ret (mkInodeTable bgdt_region (replicate (Z.to_nat n) None)).

Definition GetRootOfInodeTable r (block_group_num : Z) (t : InodeTable) : io K (list Z * InodeTable) :=
  n ← lift (NumberOfBlockGroups r);
  if n <? block_group_num then fail INVALID_ARGUMENT else
  table ← lift (deref (inode_tables_ t !! Z.to_nat block_group_num));
  match table with
  | Some root => mret (root, t)
  | None =>
      b ← lift (bgd_inode_table block_group_num (bgdt_region_ t));
      size ← lift (InodeTableBlockSize r);
      root ← ReadBlocks r b size;
      mret (root, mkInodeTable (bgdt_region_ t) (<[Z.to_nat block_group_num := Some root]> (inode_tables_ t)))
  end.

Definition InodeTable_GetInode r (inode_num : Z) (t : InodeTable) : io K (Inode * InodeTable) :=
  inodes_per_group ← lift (sb_inodes_per_group (super_block_region_ r));
  block_group_num ← lift (udiv (u32 (inode_num - 1)) inodes_per_group);
  '(root, t) ← GetRootOfInodeTable r block_group_num t;
  let local_index := u32 (inode_num - 1) mod inodes_per_group in
  size ← lift (InodeSize r);
  mret (mkInode root (local_index [*] size), t).

(** ** Ext2Driver *)
Record Ext2Driver : Type := mkDriver {
  ext2_reader_ : Ext2BlockReader;
  inode_table_ : InodeTable;
  inode_cache_ : HashMap Z region;
}.
Implicit Types d : Ext2Driver.

Definition Ext2Driver_Init (device_id lba_offset : Z) : io K Ext2Driver :=
  reader ← Ext2BlockReader_Init device_id lba_offset;
  n ← lift (BgdtBlockNum reader);
  size ← lift (BgdtBlockSize reader);
  bgdt ← ReadBlocks reader n size;
  table ← lift (InodeTable_new reader bgdt);
  mret (mkDriver reader table hm_new).

Definition ProbePartition d : res ErrorCode :=
  magic ← sb_magic (super_block_region_ (ext2_reader_ d));
  Ret (if negb (magic =? 0xEF53) then INVALID_ARGUMENT else OK).

Definition with_table (t : InodeTable) d : Ext2Driver := mkDriver (ext2_reader_ d) t (inode_cache_ d).
Definition with_cache (c : HashMap Z region) d : Ext2Driver := mkDriver (ext2_reader_ d) (inode_table_ d) c.

(** The driver's methods change the driver, also when they fail later. *)
Notation dio := (io (Ext2Driver * K)).
Definition get_driver : dio Ext2Driver := fun dk => Ret (EOk dk.1, dk).
Definition put_driver (d : Ext2Driver) : dio unit := fun dk => Ret (EOk tt, (d, dk.2)).
Definition disk {A} (m : io K A) : dio A := fun dk => '(r, k) ← m dk.2; Ret (r, (dk.1, k)).

(** The parameter is a uint32_t. *)
Definition GetInode (inode_number : Z) : dio Inode :=
  d ← get_driver;
  '(i, t) ← disk (InodeTable_GetInode (ext2_reader_ d) (u32 inode_number) (inode_table_ d));
  _ ← put_driver (with_table t d);
  mret i.

(** The loops of [ReadInode] that collect block numbers. *)
Fixpoint direct_loop (n : nat) (i : Z) (inode : Inode) (cnt : Z) (blocks : list Z) : res (list Z) :=
  match n with
  | O => Ret blocks
  | S n' => if i <? cnt then b ← inode_block i inode; direct_loop n' (i + 1) inode cnt (blocks ++ [b]) else Ret blocks
  end.

Fixpoint indirect_loop (n : nat) (i : Z) (indirect : region) (cnt : Z) (blocks : list Z) : res (list Z) :=
  match n with
  | O => Ret blocks
  | S n' =>
      if i <? cnt then
        r ← bytes_of indirect;
        b ← u32_at (4 * (i - 12)) r;
        indirect_loop n' (i + 1) indirect cnt (blocks ++ [b])
      else Ret blocks
  end.

Fixpoint inner_loop (n : nat) (j block : Z) (single : list Z) (cnt : Z) (blocks : list Z) : res (list Z) :=
  match n with
  | O => Ret blocks
  | S n' =>
      if cnt <=? block + j then Ret blocks else
      b ← u32_at (4 * j) single;
      inner_loop n' (j + 1) block single cnt (if negb (b =? 0) then blocks ++ [b] else blocks)
  end.

Fixpoint double_loop (n : nat) (i : Z) (double_indirect : region) r (cnt : Z) (blocks : list Z) : io K (list Z) :=
  match n with
  | O => mret blocks
  | S n' =>
      let block := 268 + 256 * i in
      if cnt <=? block then mret blocks else
      dbl ← lift (bytes_of double_indirect);
      b ← lift (u32_at (4 * i) dbl);
      single ← ReadBlock r b;
      blocks ← lift (inner_loop 256 0 block single cnt blocks);
      double_loop n' (i + 1) double_indirect r cnt blocks
  end.

Definition read_if (b : Z) r : io K region := if b =? 0 then mret None else x ← ReadBlock r b; mret (Some x).

Definition ReadInode (inode_num : Z) (inode : Inode) : dio region :=
  d ← get_driver;
  cached ← lift (Contains inode_num (inode_cache_ d));
  if (cached : bool) then
    '(v, c) ← lift (at_ None inode_num (inode_cache_ d));
    _ ← put_driver (with_cache c d);
    mret v
  else
  let r := ext2_reader_ d in
  blocks ← lift (inode_blocks inode);
  bs ← lift (BlockSize r);
  q ← lift (udiv (u32 (blocks - 1)) (bs / 512));
  let real_block_cnt := q [+] 1 in
  b14 ← lift (inode_block 14 inode);
  if negb (b14 =? 0) then fail UNIMPLEMENTED else
  b13 ← lift (inode_block 13 inode);
  double_indirect_block ← disk (read_if b13 r);
  b12 ← lift (inode_block 12 inode);
  indirect_block ← disk (read_if b12 r);
  to_read ← lift (direct_loop 12 0 inode real_block_cnt []);
  to_read ← lift (indirect_loop 256 12 indirect_block real_block_cnt to_read);
  to_read ← disk (double_loop 256 0 double_indirect_block r real_block_cnt to_read);
  inode_mem ← disk (ReadBlocks_list r to_read);
  '(err, c) ← lift (Insert inode_num (Some inode_mem) (inode_cache_ d));
  _ ← put_driver (with_cache c d);
  if negb (bool_decide (err = OK)) then fail err else
  mret (Some inode_mem).

(** The loop of [ReadDirectory]; [addr] is relative to the region. *)
Fixpoint dir_loop (fuel : nat) (addr block_size : Z) (dir : list Z) (directory : list DirEntry) : res (list DirEntry) :=
  if addr <? block_size then
    match fuel with
    | O => NoFuel
    | S fuel' =>
        entry ← read_DirEntry addr dir;
        dir_loop fuel' (addr + record_length entry) block_size dir (directory ++ [entry])
    end
  else Ret directory.

Definition ReadDirectory (inode_number : Z) : dio (list DirEntry) :=
  inode ← GetInode inode_number;
  mode ← lift (inode_mode inode);
  if Z.land mode 0x4000 =? 0 then fail INVALID_ARGUMENT else
  dir ← ReadInode (u32 inode_number) inode;
  d ← get_driver;
  bs ← lift (BlockSize (ext2_reader_ d));
  bytes ← lift (bytes_of dir);
  lift (dir_loop (S (Z.to_nat bs)) 0 bs bytes []).

Definition ReadFile (inode_number : Z) : dio region :=
  inode ← GetInode inode_number;
  mode ← lift (inode_mode inode);
  if Z.land mode 0x8000 =? 0 then fail INVALID_ARGUMENT else
  ReadInode inode_number inode.
End reader.

(** ** What the disk service promises

    On a request it can serve, it returns: an error, if requests can fail
    ([fails]), or a region that starts with the sectors asked for.  [dsk] is the
    disk, a byte per address. *)
Definition sectors (dsk : Z -> Z) (lba n : Z) : list Z := mem_range dsk (512 * lba) (Z.to_nat (512 * n)).

Definition run_ok (b : Z * Z) : Prop := 0 <= b.1 < 2 ^ 48 /\ 0 < b.2 < 2 ^ 16.

(** The answer is an error, where one is possible, or starts with [bytes]. *)
Definition answers (fails : Prop) (r : ErrorOr (list Z)) (bytes : list Z) : Prop :=
  match r with EErr _ => fails | EOk l => bytes `prefix_of` l end.

Class DiskClientLaws (K : Type) `{DiskClient K} (dev : Z) (dsk : Z -> Z) (fails : Prop) : Type := {
  disk_up : K -> Prop;
  Read_law lba n k : disk_up k -> run_ok (lba, n) ->
    exists r k', Denali_Read dev lba n k = Ret (r, k') /\ disk_up k' /\ answers fails r (sectors dsk lba n);
  ReadMany_law runs k : disk_up k -> runs <> [] -> Forall run_ok runs -> Z.of_nat (length runs) < 2 ^ 16 ->
    exists r k', Denali_ReadMany dev runs k = Ret (r, k') /\ disk_up k' /\ answers fails r (concat ((fun b => sectors dsk b.1 b.2) <$> runs));
}.

(** ** Steps of the monad *)
Lemma io_ok {K A B} (m : io K A) (f : A -> io K B) k a k' : m k = Ret (EOk a, k') -> (m ≫= f) k = f a k'.
Proof. intros Hm. unfold mbind, io_bind. by rewrite Hm. Qed.

Lemma io_err {K A B} (m : io K A) (f : A -> io K B) k e k' : m k = Ret (EErr e, k') -> (m ≫= f) k = Ret (EErr e, k').
Proof. intros Hm. unfold mbind, io_bind. by rewrite Hm. Qed.

Lemma lift_ok {K A B} (m : res A) (f : A -> io K B) k a : m = Ret a -> (lift m ≫= f) k = f a k.
Proof. intros ->. done. Qed.

Lemma disk_eq {K A} `{DiskClient K} (m : io K A) d k r k' : m k = Ret (r, k') -> disk m (d, k) = Ret (r, (d, k')).
Proof. intros Hm. unfold disk. cbn. by rewrite Hm. Qed.

(** One step of a chain of reads: an error ends it, an answer goes on. *)
Lemma io_step {K A B} (m : io K A) (f : A -> io K B) k r k1 (P : ErrorOr B -> K -> Prop) :
  m k = Ret (r, k1) -> (forall e, r = EErr e -> P (EErr e) k1) ->
  (forall a, r = EOk a -> exists res k', f a k1 = Ret (res, k') /\ P res k') ->
  exists res k', (m ≫= f) k = Ret (res, k') /\ P res k'.
Proof.
  intros Hm Herr Hok. destruct r as [e|a].
  - rewrite (io_err _ _ _ _ _ Hm). do 2 eexists. split; [done|]. by apply Herr.
  - rewrite (io_ok _ _ _ _ _ Hm). by apply Hok.
Qed.

(** ** Runs of blocks *)
Lemma sectors_app dsk lba n m : 0 <= n -> 0 <= m -> sectors dsk lba (n + m) = sectors dsk lba n ++ sectors dsk (lba + n) m.
Proof.
  intros Hn Hm. unfold sectors. replace (Z.to_nat (512 * (n + m))) with (Z.to_nat (512 * n) + Z.to_nat (512 * m))%nat by lia.
  rewrite mem_range_app. do 2 f_equal. lia.
Qed.

Lemma length_sectors dsk lba n : length (sectors dsk lba n) = Z.to_nat (512 * n).
Proof. apply length_mem_range. Qed.

(** The bytes of block [b] of the partition. *)
Definition block_data (dsk : Z -> Z) (off spb b : Z) : list Z := sectors dsk (off + b * spb) spb.

Lemma run_sectors dsk off spb b n : 0 <= spb -> sectors dsk (off + b * spb) (Z.of_nat n * spb) = concat (block_data dsk off spb <$> seqZ b (Z.of_nat n)).
Proof.
  intros Hs. revert b. induction n as [|n IH]; intros b.
  - cbn. unfold sectors. done.
  - rewrite seqZ_cons by lia. replace (Z.pred (Z.of_nat (S n))) with (Z.of_nat n) by lia. cbn [fmap list_fmap concat].
    rewrite <- IH. unfold block_data. replace (Z.of_nat (S n) * spb) with (spb + Z.of_nat n * spb) by lia.
    rewrite sectors_app by nia. do 2 f_equal. lia.
Qed.

Definition block_number (b : Z) : Prop := 0 <= b < 2 ^ 32.

Lemma run_loop_spec rest : forall cur len,
  block_number cur -> Forall block_number rest -> 0 <= len -> len + Z.of_nat (length rest) < 2 ^ 64 ->
  exists (n : nat) rest', run_loop cur len rest = (len + Z.of_nat n, rest') /\ rest = seqZ (cur + 1) (Z.of_nat n) ++ rest'.
Proof.
  unfold block_number. induction rest as [|b rest IH]; intros cur len Hc HF Hl Hsum; cbn [run_loop].
  { exists 0%nat, []. split; [f_equal; lia|done]. }
  apply Forall_cons in HF as [Hb HF]. rewrite u64_small by lia. destruct (Z.eqb_spec b (cur + 1)) as [->|Hne].
  - cbn [length] in Hsum. rewrite u64_small by lia. destruct (IH (cur + 1) (len + 1)) as (n & rest' & -> & ->); [done|done|lia|lia|].
    exists (S n), rest'. split; [f_equal; lia|]. rewrite (seqZ_cons _ (Z.of_nat (S n))) by lia. cbn. f_equal. f_equal. f_equal; lia.
  - exists 0%nat, (b :: rest). split; [f_equal; lia|done].
Qed.

(** The requests cover the blocks in order, each of them a run that the service accepts. *)
Lemma request_loop_spec dsk fuel : forall off spb l acc,
  (length l <= fuel)%nat -> 0 <= off -> 0 < spb -> off + 2 ^ 33 * spb <= 2 ^ 48 -> Forall block_number l -> Z.of_nat (length l) * spb < 2 ^ 16 ->
  exists runs, request_loop fuel off spb l acc = Ret (acc ++ runs) /\ Forall run_ok runs /\ (length runs <= length l)%nat /\ (l <> [] -> runs <> []) /\
    concat ((fun b => sectors dsk b.1 b.2) <$> runs) = concat (block_data dsk off spb <$> l).
Proof.
  induction fuel as [|fuel IH]; intros off spb l acc Hf Ho Hs Hlim HF Hlen; destruct l as [|b l]; cbn [request_loop];
    try (exists []; rewrite app_nil_r; by split_and!); [cbn in Hf; lia|].
  apply Forall_cons in HF as [Hb HF]. cbn [length] in *. unfold block_number in *.
  destruct (run_loop_spec l b 1 Hb HF) as (n & rest & Hrun & Hl); [lia|nia|]. rewrite Hrun.
  assert (length l = (n + length rest)%nat) as Hll by (rewrite Hl, length_app, length_seqZ; lia).
  assert (Forall block_number rest) as HFr by (rewrite Hl in HF; by apply Forall_app in HF as [_ HF]).
  rewrite (u64_small (b * spb)), (u64_small (off + b * spb)), (u64_small ((1 + Z.of_nat n) * spb)) by nia.
  destruct (IH off spb rest (acc ++ [(off + b * spb, (1 + Z.of_nat n) * spb)])) as (runs & Hreq & Hok & Hlr & _ & Hcat); [lia|done|done|done|done|nia|].
  exists ((off + b * spb, (1 + Z.of_nat n) * spb) :: runs). rewrite Hreq, <- app_assoc. split; [done|]. split; [|split; [cbn; lia|split; [done|]]].
  - constructor; [|done]. unfold run_ok. cbn. nia.
  - cbn [fmap list_fmap concat fst snd]. rewrite Hcat, Hl, fmap_app, concat_app, app_assoc. f_equal.
    replace (1 + Z.of_nat n) with (Z.of_nat (S n)) by lia. rewrite run_sectors, seqZ_cons by lia. cbn. f_equal. do 3 f_equal; lia.
Qed.

Section reading.
Context {K : Type} `{DiskClient K} (dev : Z) (dsk : Z -> Z) (fails : Prop) `{!DiskClientLaws K dev dsk fails}.

(** The reader of a partition at sector [off] with [spb] sectors per block. *)
Record reader_ok (r : Ext2BlockReader) (off spb : Z) : Prop := {
  ro_device : device_id_ r = dev;
  ro_offset : lba_offset_ r = off;
  ro_sectors : SectorsPerBlock r = Ret spb;
  ro_size : BlockSize r = Ret (512 * spb);
  ro_pos : 0 <= off /\ 0 < spb < 2 ^ 16;
  ro_limit : off + 2 ^ 33 * spb <= 2 ^ 48;
}.

Notation block_data := (block_data dsk).

Lemma ReadBlock_reads r off spb b k :
  reader_ok r off spb -> disk_up k -> block_number b ->
  exists res k', ReadBlock r b k = Ret (res, k') /\ disk_up k' /\ answers fails res (block_data off spb b).
Proof.
  intros [Hd Ho Hs Hbs Hp Hlim] Hup Hb. unfold block_number in Hb. unfold ReadBlock, ReadBlocks. rewrite (lift_ok _ _ _ _ Hs), Hd, Ho.
  rewrite (u64_small (b * spb)), (u64_small (off + b * spb)), Z.mul_1_l, (u64_small spb) by nia. apply Read_law; [done|]. unfold run_ok. cbn. nia.
Qed.

(** The optimised list read is the blocks one after the other. *)
Lemma ReadBlocks_list_reads r off spb l k :
  reader_ok r off spb -> disk_up k -> l <> [] -> Forall block_number l -> Z.of_nat (length l) * spb < 2 ^ 16 ->
  exists res k', ReadBlocks_list r l k = Ret (res, k') /\ disk_up k' /\ answers fails res (concat (block_data off spb <$> l)).
Proof.
  intros [Hd Ho Hs Hbs Hp Hlim] Hup Hne HF Hlen. unfold ReadBlocks_list. rewrite (lift_ok _ _ _ _ Hs), Ho, Hd.
  destruct (request_loop_spec dsk (length l) off spb l []) as (runs & Hreq & Hok & Hlr & Hrne & Hcat); [lia|lia|lia|done|done|done|].
  cbn [app] in Hreq. rewrite (lift_ok _ _ _ _ Hreq), <- Hcat. apply ReadMany_law; [done|by apply Hrne|done|]. nia.
Qed.

(** C33.  Reading a list of blocks: consecutive blocks are merged into one request each, and yet the answer is exactly the
    bytes of the blocks in the order of the list, for every list of block numbers that the service can serve in runs (a
    request may carry fewer than 65536 sectors); the loop always ends. *)
Theorem ReadBlocks_coalesces r off spb l k :
  reader_ok r off spb -> disk_up k -> l <> [] -> Forall block_number l -> Z.of_nat (length l) * spb < 2 ^ 16 ->
  exists res k', ReadBlocks_list r l k = Ret (res, k') /\ disk_up k' /\ answers fails res (concat (block_data off spb <$> l)).
Proof. apply ReadBlocks_list_reads. Qed.

(** ** The block map of an inode *)

(** A pointer in a region that starts with [blk]. *)
Lemma u32_prefix off blk l : blk `prefix_of` l -> off + 4 <= Z.of_nat (length blk) -> u32_at off l = u32_at off blk.
Proof.
  intros [t ->] Hoff. unfold u32_at, At_u32, load_bytes, in_bounds. rewrite length_app. destruct (Z.leb_spec 0 off); [|done]. cbn [andb].
  rewrite !(proj2 (Z.leb_le _ _)) by lia. cbn [mbind res_bind]. do 2 f_equal. rewrite drop_app_le, take_app_le by (rewrite ?length_drop; lia). done.
Qed.

(** [bm n] is the block that holds block [n] of the file, for the [cnt] blocks of a file on a partition with 1 KiB blocks:
    twelve direct blocks, 256 through block 12 and 256 * 256 through block 13. *)
Record block_map (inode : Inode) (off cnt : Z) (bm : Z -> Z) : Prop := {
  bm_direct n : 0 <= n < 12 -> n < cnt -> inode_block n inode = Ret (bm n);
  bm_blocks n : 0 <= n < cnt -> block_number (bm n);
  bm_indirect : exists b12, inode_block 12 inode = Ret b12 /\ block_number b12 /\ (12 < cnt -> b12 <> 0) /\
    forall n, 12 <= n < 268 -> n < cnt -> u32_at (4 * (n - 12)) (block_data off 2 b12) = Ret (bm n);
  bm_double : exists b13, inode_block 13 inode = Ret b13 /\ block_number b13 /\ (268 < cnt -> b13 <> 0) /\
    forall i, 0 <= i < 256 -> 268 + 256 * i < cnt -> exists s, u32_at (4 * i) (block_data off 2 b13) = Ret s /\ block_number s /\
      forall j, 0 <= j < 256 -> 268 + 256 * i + j < cnt ->
        u32_at (4 * j) (block_data off 2 s) = Ret (bm (268 + 256 * i + j)) /\ bm (268 + 256 * i + j) <> 0;
}.

(** Blocks [i] to [min (i + n) cnt]. *)
Definition upto (bm : Z -> Z) (i n cnt : Z) : list Z := bm <$> seqZ i (Z.min n (cnt - i)).

Lemma upto_nil bm i n cnt : n <= 0 \/ cnt <= i -> upto bm i n cnt = [].
Proof. intros H'. unfold upto. by rewrite seqZ_nil by lia. Qed.

Lemma upto_cons bm i n cnt : 0 < n -> i < cnt -> upto bm i n cnt = bm i :: upto bm (i + 1) (n - 1) cnt.
Proof. intros Hn Hi. unfold upto. rewrite seqZ_cons by lia. cbn. f_equal. f_equal. f_equal; lia. Qed.

Lemma upto_app bm i n m cnt : 0 <= n -> 0 <= m -> upto bm i n cnt ++ upto bm (i + n) m cnt = upto bm i (n + m) cnt.
Proof.
  intros Hn Hm. unfold upto. rewrite <- fmap_app. f_equal. destruct (decide (n <= cnt - i)).
  - rewrite Z.min_l by lia. rewrite <- seqZ_app by lia. f_equal. lia.
  - rewrite (seqZ_nil (i + n)), app_nil_r by lia. f_equal. lia.
Qed.

Lemma direct_loop_spec inode bm cnt n : forall i acc,
  (forall j, i <= j < i + Z.of_nat n -> j < cnt -> inode_block j inode = Ret (bm j)) ->
  direct_loop n i inode cnt acc = Ret (acc ++ upto bm i (Z.of_nat n) cnt).
Proof.
  induction n as [|n IH]; intros i acc Hj; cbn [direct_loop]; [by rewrite upto_nil, app_nil_r by lia|].
  destruct (Z.ltb_spec i cnt); [|by rewrite upto_nil, app_nil_r by lia].
  rewrite Hj, ret_bind, IH by (intros; try apply Hj; lia). rewrite (upto_cons _ i), <- app_assoc by lia. do 4 f_equal; lia.
Qed.

Lemma indirect_loop_spec ind bm cnt n : forall i acc, 12 <= i ->
  (forall j, i <= j < i + Z.of_nat n -> j < cnt -> exists r, ind = Some r /\ u32_at (4 * (j - 12)) r = Ret (bm j)) ->
  indirect_loop n i ind cnt acc = Ret (acc ++ upto bm i (Z.of_nat n) cnt).
Proof.
  induction n as [|n IH]; intros i acc Hi Hj; cbn [indirect_loop]; [by rewrite upto_nil, app_nil_r by lia|].
  destruct (Z.ltb_spec i cnt); [|by rewrite upto_nil, app_nil_r by lia].
  destruct (Hj i) as (r & Hr & Hu); [lia|lia|]. rewrite Hr. cbn [bytes_of deref mbind res_bind]. rewrite Hu. cbn [mbind res_bind].
  rewrite <- Hr, IH by (intros; try apply Hj; lia). rewrite (upto_cons _ i), <- app_assoc by lia. do 4 f_equal; lia.
Qed.

Lemma inner_loop_spec single bm cnt block n : forall j acc, 0 <= j ->
  (forall x, j <= x < j + Z.of_nat n -> block + x < cnt -> u32_at (4 * x) single = Ret (bm (block + x)) /\ bm (block + x) <> 0) ->
  inner_loop n j block single cnt acc = Ret (acc ++ upto bm (block + j) (Z.of_nat n) cnt).
Proof.
  induction n as [|n IH]; intros j acc Hj0 Hj; cbn [inner_loop]; [by rewrite upto_nil, app_nil_r by lia|].
  destruct (Z.leb_spec cnt (block + j)); [by rewrite upto_nil, app_nil_r by lia|].
  destruct (Hj j) as [Hu Hnz]; [lia|lia|]. rewrite Hu. cbn [mbind res_bind]. rewrite (proj2 (Z.eqb_neq _ _) Hnz). cbn [negb].
  rewrite IH by (intros; try apply Hj; lia). rewrite (upto_cons _ (block + j)), <- app_assoc by lia. do 4 f_equal; lia.
Qed.

Lemma length_block off b : length (block_data off 2 b) = 1024%nat.
Proof. apply length_sectors. Qed.

Lemma double_loop_spec r off cnt bm dbl n : forall i acc k,
  reader_ok r off 2 -> disk_up k -> 0 <= i -> i + Z.of_nat n <= 256 ->
  (forall x, i <= x < i + Z.of_nat n -> 268 + 256 * x < cnt -> exists l s, dbl = Some l /\ u32_at (4 * x) l = Ret s /\ block_number s /\
     forall j, 0 <= j < 256 -> 268 + 256 * x + j < cnt ->
       u32_at (4 * j) (block_data off 2 s) = Ret (bm (268 + 256 * x + j)) /\ bm (268 + 256 * x + j) <> 0) ->
  exists res k', double_loop n i dbl r cnt acc k = Ret (res, k') /\ disk_up k' /\
    match res with EErr _ => fails | EOk l => l = acc ++ upto bm (268 + 256 * i) (256 * Z.of_nat n) cnt end.
Proof.
  induction n as [|n IH]; intros i acc k Hr Hup Hi Hn Hx; cbn [double_loop].
  { do 2 eexists. split; [done|]. split; [done|]. by rewrite upto_nil, app_nil_r by lia. }
  destruct (Z.leb_spec cnt (268 + 256 * i)).
  { do 2 eexists. split; [done|]. split; [done|]. by rewrite upto_nil, app_nil_r by lia. }
  destruct (Hx i) as (l & s & Hl & Hs & Hsb & Hj); [lia|lia|]. rewrite (lift_ok (bytes_of dbl) _ _ l) by (by rewrite Hl). rewrite (lift_ok _ _ _ _ Hs).
  destruct (ReadBlock_reads r off 2 s k Hr Hup Hsb) as (res & k1 & HR & Hup1 & Hans).
  eapply (io_step _ _ k res k1 (fun res k' => disk_up k' /\ match res with EErr _ => fails | EOk l => l = acc ++ _ end)); [exact HR|by intros e ->|].
  intros single ->. cbn [answers] in Hans. rewrite (lift_ok _ _ _ (acc ++ upto bm (268 + 256 * i) 256 cnt)).
  - destruct (IH (i + 1) (acc ++ upto bm (268 + 256 * i) 256 cnt) k1) as (res & k' & -> & Hup' & Hres); [done|done|lia|lia|intros; apply Hx; lia|].
    do 2 eexists. split; [done|]. split; [done|]. destruct res as [|l']; [done|]. rewrite Hres, <- app_assoc. f_equal.
    replace (268 + 256 * (i + 1)) with (268 + 256 * i + 256) by lia. rewrite upto_app by lia. f_equal. lia.
  - rewrite (inner_loop_spec single bm cnt (268 + 256 * i) 256 0 acc); [by rewrite Z.add_0_r|lia|].
    intros x Hx0 Hx1. destruct (Hj x) as [Hu Hnz]; [lia|lia|]. rewrite (u32_prefix _ _ _ Hans) by (rewrite length_block; lia). done.
Qed.

(** The optional blocks: what is read of them, when they are needed. *)
Lemma read_if_spec r off b k :
  reader_ok r off 2 -> disk_up k -> block_number b ->
  exists res k', read_if b r k = Ret (res, k') /\ disk_up k' /\
    match res with EErr _ => fails | EOk o => b <> 0 -> exists l, o = Some l /\ block_data off 2 b `prefix_of` l end.
Proof.
  intros Hr Hup Hb. unfold read_if. destruct (Z.eqb_spec b 0); [by do 2 eexists|].
  destruct (ReadBlock_reads r off 2 b k Hr Hup Hb) as (res & k1 & HR & Hup1 & Hans).
  eapply (io_step _ _ k res k1 (fun res k' => disk_up k' /\ match res with EErr _ => fails | EOk o => _ end)); [exact HR|by intros e ->|].
  intros l ->. do 2 eexists. split; [done|]. split; [done|]. intros _. by exists l.
Qed.

(** The blocks that [ReadInode] collects. *)
Lemma collect_blocks inode off cnt bm d12 :
  block_map inode off cnt bm ->
  (12 < cnt -> exists b12 l, inode_block 12 inode = Ret b12 /\ d12 = Some l /\ block_data off 2 b12 `prefix_of` l) ->
  direct_loop 12 0 inode cnt [] = Ret (upto bm 0 12 cnt) /\
  indirect_loop 256 12 d12 cnt (upto bm 0 12 cnt) = Ret (upto bm 0 268 cnt).
Proof.
  intros [Hdir _ (b12 & Hb12 & _ & _ & Hind) _] H12. split.
  - rewrite (direct_loop_spec inode bm cnt 12 0 []); [done|]. intros j Hj. apply Hdir. lia.
  - rewrite (indirect_loop_spec d12 bm cnt 256 12); [|lia|].
    + by rewrite (upto_app bm 0 12 256) by lia.
    + intros j Hj Hc. destruct (H12 ltac:(lia)) as (b & l & Hb & -> & Hpre). rewrite Hb12 in Hb. injection Hb as <-.
      exists l. split; [done|]. rewrite (u32_prefix _ _ _ Hpre) by (rewrite length_block; lia). apply Hind; lia.
Qed.

(** What [ReadInode] leaves: an error and the cache as it was, or the region, now in the cache. *)
Definition inode_read (d : Ext2Driver) (num : Z) (bytes : list Z) (res : ErrorOr region) (dk : Ext2Driver * K) : Prop :=
  disk_up dk.2 /\ ext2_reader_ dk.1 = ext2_reader_ d /\ inode_table_ dk.1 = inode_table_ d /\ hm_wf (inode_cache_ dk.1) /\
  match res with
  | EErr _ => dk.1 = d /\ fails
  | EOk r => exists l, r = Some l /\ bytes `prefix_of` l /\ hm_model (inode_cache_ dk.1) = <[num := Some l]> (hm_model (inode_cache_ d))
  end.

Lemma ReadInode_miss d k num inode off nb cnt bm :
  reader_ok (ext2_reader_ d) off 2 -> disk_up k -> hm_wf (inode_cache_ d) -> hm_size (inode_cache_ d) < 2 ^ 56 - 1 ->
  hm_model (inode_cache_ d) !! num = None -> inode_blocks inode = Ret nb -> 1 <= nb < 2 ^ 32 -> cnt = (nb - 1) / 2 + 1 -> cnt < 2 ^ 15 ->
  inode_block 14 inode = Ret 0 -> block_map inode off cnt bm ->
  exists res dk', ReadInode num inode (d, k) = Ret (res, dk') /\ inode_read d num (concat (block_data off 2 <$> (bm <$> seqZ 0 cnt))) res dk'.
Proof.
  intros Hr Hup Hwf Hsz Hmiss Hnb Hnbr Hcnt Hlim H14 Hbm. unfold ReadInode. set (r := ext2_reader_ d) in *.
  rewrite (io_ok get_driver _ _ d (d, k)) by done. rewrite (lift_ok _ _ _ false).
  2: { rewrite Contains_spec by done. by rewrite Hmiss. }
  rewrite (lift_ok _ _ _ _ Hnb). fold r. rewrite (lift_ok _ _ _ _ (ro_size _ _ _ Hr)). change (512 * 2 / 512) with 2.
  rewrite (lift_ok _ _ _ ((nb - 1) / 2)) by (unfold udiv; cbn; by rewrite u32_small by lia).
  assert (1 <= cnt) as Hpos by (clear -Hnbr Hcnt; Z.to_euclidean_division_equations; lia).
  replace ((nb - 1) / 2 [+] 1) with cnt by (rewrite u64_small; lia). rewrite (lift_ok _ _ _ _ H14). cbn [negb Z.eqb].
  destruct (bm_double _ _ _ _ Hbm) as (b13 & H13 & Hb13 & Hn13 & Hdbl). destruct (bm_indirect _ _ _ _ Hbm) as (b12 & H12 & Hb12 & Hn12 & _).
  rewrite (lift_ok _ _ _ _ H13). assert (forall e k', disk_up k' -> fails -> inode_read d num (concat (block_data off 2 <$> (bm <$> seqZ 0 cnt))) (EErr e) (d, k')) as Hfail by done.
  destruct (read_if_spec r off b13 k Hr Hup Hb13) as (o13 & k1 & HR1 & Hup1 & Ho13).
  eapply (io_step _ _ _ o13 (d, k1)); [by apply disk_eq|intros e ->; by apply Hfail|]. intros d13 ->. rewrite (lift_ok _ _ _ _ H12).
  destruct (read_if_spec r off b12 k1 Hr Hup1 Hb12) as (o12 & k2 & HR2 & Hup2 & Ho12).
  eapply (io_step _ _ _ o12 (d, k2)); [by apply disk_eq|intros e ->; by apply Hfail|]. intros d12 ->.
  destruct (collect_blocks inode off cnt bm d12 Hbm) as [Hdir Hind].
  { intros Hc. destruct (Ho12 (Hn12 Hc)) as (l & -> & Hpre). by exists b12, l. }
  rewrite (lift_ok _ _ _ _ Hdir), (lift_ok _ _ _ _ Hind).
  destruct (double_loop_spec r off cnt bm d13 256 0 (upto bm 0 268 cnt) k2 Hr Hup2) as (o3 & k3 & HR3 & Hup3 & Ho3); [lia|lia| |].
  { intros x Hx Hc. destruct (Ho13 (Hn13 ltac:(lia))) as (l & -> & Hpre). destruct (Hdbl x) as (s & Hs & Hsb & Hj); [lia|lia|].
    exists l, s. split; [done|]. rewrite (u32_prefix _ _ _ Hpre) by (rewrite length_block; lia). done. }
  eapply (io_step _ _ _ o3 (d, k3)); [by apply disk_eq|intros e ->; by apply Hfail|]. intros to_read ->.
  rewrite (upto_app bm 0 268) in Ho3 by lia.
  assert (to_read = bm <$> seqZ 0 cnt) as -> by (rewrite Ho3; unfold upto; do 2 f_equal; lia).
  destruct (ReadBlocks_list_reads r off 2 (bm <$> seqZ 0 cnt) k3 Hr Hup3) as (o4 & k4 & HR4 & Hup4 & Ho4).
  { rewrite seqZ_cons by lia. done. }
  { apply Forall_fmap, Forall_forall. intros n Hn. apply elem_of_seqZ in Hn. apply (bm_blocks _ _ _ _ Hbm). lia. }
  { rewrite length_fmap, length_seqZ. lia. }
  eapply (io_step _ _ _ o4 (d, k4)); [by apply disk_eq|intros e ->; by apply Hfail|]. intros mem ->.
  destruct (Insert_spec (inode_cache_ d) num (Some mem) Hwf Hsz) as (c & Hc & HI & _). rewrite Hmiss in HI. destruct HI as [HI Hmod].
  rewrite (lift_ok _ _ _ _ HI). rewrite (io_ok (put_driver _) _ _ tt (with_cache c d, k4)) by done. do 2 eexists. split; [done|].
  split_and!; try done. cbn. by exists mem.
Qed.

Lemma ReadInode_hit d k num inode r :
  hm_wf (inode_cache_ d) -> hm_model (inode_cache_ d) !! num = Some r -> ReadInode num inode (d, k) = Ret (EOk r, (d, k)).
Proof.
  intros Hwf Hhit. unfold ReadInode. rewrite (io_ok get_driver _ _ d (d, k)) by done. rewrite (lift_ok _ _ _ true).
  2: { rewrite Contains_spec by done. by rewrite Hhit. }
  rewrite (lift_ok _ _ _ (r, inode_cache_ d)) by (by apply at_spec). rewrite (io_ok (put_driver _) _ _ tt (d, k)) by (by destruct d). done.
Qed.

End reading.

(** ** Directories *)

(** The records of the first block of a directory, each with a positive length. *)
Inductive records (dir : list Z) (block_size : Z) : Z -> list DirEntry -> Prop :=
| records_end addr : block_size <= addr -> records dir block_size addr []
| records_entry addr e es : addr < block_size -> read_DirEntry addr dir = Ret e -> 0 < record_length e ->
    records dir block_size (addr + record_length e) es -> records dir block_size addr (e :: es).

(** The loop returns the records, with a turn of fuel per byte of the block. *)
Lemma dir_loop_spec dir bs addr es : records dir bs addr es -> forall fuel acc,
  bs - addr <= Z.of_nat fuel -> dir_loop fuel addr bs dir acc = Ret (acc ++ es).
Proof.
  induction 1 as [addr Hend|addr e es Hlt Hread Hpos _ IH]; intros fuel acc Hf.
  - destruct fuel; cbn [dir_loop]; rewrite (proj2 (Z.ltb_ge _ _)), app_nil_r by lia; done.
  - destruct fuel as [|fuel]; [lia|]. cbn [dir_loop]. rewrite (proj2 (Z.ltb_lt _ _)) by lia. rewrite Hread. cbn [mbind res_bind].
    rewrite IH by lia. by rewrite <- app_assoc.
Qed.

(** A record of length zero is read again and again: no number of turns is enough. *)
Lemma dir_loop_zero_record dir bs addr e : addr < bs -> read_DirEntry addr dir = Ret e -> record_length e = 0 ->
  forall fuel acc, dir_loop fuel addr bs dir acc = NoFuel.
Proof.
  intros Hlt Hread Hz. induction fuel as [|fuel IH]; intros acc; cbn [dir_loop]; rewrite (proj2 (Z.ltb_lt _ _)) by lia; [done|].
  rewrite Hread. cbn [mbind res_bind]. by rewrite Hz, Z.add_0_r.
Qed.

(** The check of [GetRootOfInodeTable] lets the number of groups itself through, one past the vector. *)
Lemma GetRootOfInodeTable_past_end {K} `{DiskClient K} r n bgdt (k : K) :
  NumberOfBlockGroups r = Ret n -> 0 <= n ->
  GetRootOfInodeTable r n (mkInodeTable bgdt (replicate (Z.to_nat n) None)) k = Fault.
Proof.
  intros Hn Hpos. unfold GetRootOfInodeTable. rewrite (lift_ok _ _ _ _ Hn), Z.ltb_irrefl. cbn [inode_tables_].
  unfold lift, mbind, io_bind. by rewrite lookup_ge_None_2 by (rewrite length_replicate; lia).
Qed.

(** ** A disk in memory

    Witnesses run against a disk whose service always answers. *)
Module MemDisk.
#[export] Instance MemDisk_client (dsk : Z -> Z) : DiskClient unit := {
  Denali_Read := fun _ lba n k => Ret (EOk (sectors dsk lba n), k);
  Denali_ReadMany := fun _ runs k => Ret (EOk (concat ((fun b => sectors dsk b.1 b.2) <$> runs)), k);
}.

#[export] Program Instance MemDisk_laws (dev : Z) (dsk : Z -> Z) : @DiskClientLaws unit (MemDisk_client dsk) dev dsk False := { disk_up := fun _ => True }.
Next Obligation. intros. do 2 eexists. split_and!; [done|done|]. cbn. reflexivity. Qed.
Next Obligation. intros. do 2 eexists. split_and!; [done|done|]. cbn. reflexivity. Qed.

(** A 1 KiB-block partition at sector 0; block 20 is an indirect block whose first pointer is 30. *)
Definition bytes_at (a : Z) : Z := if a =? 20480 then 30 else if a <? 30000 then 0 else a mod 251.
Definition reader : Ext2BlockReader := mkReader 0 0 (replicate 1024 0).
Lemma reader_good : reader_ok 0 reader 0 2.
Proof. split; try lia; by vm_compute. Qed.

(** A file of 26 sectors: blocks 1 to 12, then block 30 through block 20. *)
Definition le32 (z : Z) : list Z := [z; 0; 0; 0].
Definition file_inode : Inode := mkInode (replicate 28 0 ++ le32 26 ++ replicate 8 0 ++ concat (le32 <$> seqZ 1 12 ++ [20; 0; 0]) ++ replicate 28 0) 0.
Definition file_map (n : Z) : Z := if n <? 12 then n + 1 else 30.

Lemma file_map_good : block_map bytes_at file_inode 0 13 file_map.
Proof.
  split.
  - intros n Hn _. assert (Forall (fun i => inode_block i file_inode = Ret (file_map i)) (seqZ 0 12)) as HF by (vm_compute; repeat constructor).
    eapply (proj1 (Forall_forall _ _) HF). by apply elem_of_seqZ.
  - intros n Hn. unfold file_map, block_number. destruct (Z.ltb_spec n 12); lia.
  - exists 20. split_and!; [by vm_compute|split; lia|lia|]. intros n Hn Hc. assert (n = 12) as -> by lia. by vm_compute.
  - exists 0. split_and!; [by vm_compute|split; lia|lia|]. intros i Hi Hc. lia.
Qed.
End MemDisk.
Import MemDisk.

Lemma ReadBlocks_coalesces_witness :
  exists res k', ReadBlocks_list (H := MemDisk.MemDisk_client MemDisk.bytes_at) MemDisk.reader [4; 5; 6; 9; 2] tt = Ret (res, k') /\
    answers False res (concat (block_data MemDisk.bytes_at 0 2 <$> [4; 5; 6; 9; 2])).
Proof.
  destruct (ReadBlocks_coalesces (H := MemDisk.MemDisk_client MemDisk.bytes_at) 0 MemDisk.bytes_at False MemDisk.reader 0 2 [4; 5; 6; 9; 2] tt)
    as (res & k' & HR & _ & Ha); [exact MemDisk.reader_good|exact I|done| |by vm_compute|by exists res, k'].
  repeat constructor; unfold block_number; lia.
Defined.

