(* ===== verification/Vfs.v ===== *)
(** * The file system service (sys/victoriafalls/victoriafalls_server.cpp)

    The two handlers resolve absolute paths one component at a time through the
    driver.  They are written against [FsDriver], the three methods of
    [Ext2Driver] they call; Ext2.v gives the instance.  The memory capability of
    a response stands for the region it names. *)

From Stdlib Require Import ZArith Lia.
From stdpp Require Import base tactics numbers list strings.
From S2P Require Import Prelude Status Buffer LinkedList Hash HashMap Vector Strings Ext2.

Class FsDriver (S : Type) : Type := {
  fs_ReadDirectory : Z -> io S (list DirEntry);
  fs_ReadFile : Z -> io S region;
  fs_GetInode : Z -> io S Inode;
}.

#[export] Instance Ext2_FsDriver {K} `{DiskClient K} : FsDriver (Ext2Driver * K) := {
  fs_ReadDirectory := ReadDirectory;
  fs_ReadFile := ReadFile;
  fs_GetInode := GetInode;
}.

Record FileResponse : Type := mkFile { f_path : list Z; f_size : Z; f_memory : region }.

(** The character '/', and the text of a status message. *)
Definition slash : Z := 47.
Definition view_of (l : list Z) : StringView := mkView l (Z.of_nat (length l)).
Definition chars_string (l : list Z) : string := foldr (fun c s => String.String (Ascii.ascii_of_N (Z.to_N c)) s) EmptyString l.

(** [StrFormat] with one placeholder between two texts. *)
Definition quoted (before : string) (v : StringView) (after : string) : string := (before ++ chars_string (view_chars v) ++ after)%string.

Definition entry_name (e : DirEntry) : StringView := mkView (de_name e) (name_len e).

Section handlers.
Context {S : Type} `{FsDriver S}.

(** A handler's result: the status, the response it filled, the state. *)
Definition handler (R : Type) : Type := S -> res (Status * R * S).

(** [ASSIGN_OR_RETURN] in a handler. *)
Definition try {A R} (m : io S A) (resp : R) (f : A -> handler R) : handler R := fun s =>
  '(r, s) ← m s;
  match r with
  | EErr e => Ret (mkStatus e "", resp, s)
  | EOk a => f a s
  end.
Definition stop {R} (st : Status) (resp : R) : handler R := fun s => Ret (st, resp, s).

(** The search loop over the entries: the first whose name is the token. *)
Fixpoint match_entry (token : StringView) (files : list DirEntry) : res (option DirEntry) :=
  match files with
  | [] => Ret None
  | e :: files' => b ← view_eq token (entry_name e); if (b : bool) then Ret (Some e) else match_entry token files'
  end.

(** The loop over the directories of the path, [n] tokens from index [i]. *)
Fixpoint walk {R} (n : nat) (i : Z) (path_tokens : Vector StringView) (files : list DirEntry) (resp : R)
    (k : list DirEntry -> handler R) : handler R :=
  match n with
  | O => k files
  | Datatypes.S n' => fun s =>
      token ← vec_at path_tokens i;
      found ← match_entry token files;
      match found with
      | None => stop (NotFound (quoted "Directory '" token "' not found.")) resp s
      | Some e => try (fs_ReadDirectory (de_inode e)) resp (fun files => walk n' (i + 1) path_tokens files resp k) s
      end
  end.

(** The end of [HandleOpenFile]: the file named [name] in the directory that was reached. *)
Definition open_last (path : list Z) (response : FileResponse) (name : StringView) (files : list DirEntry) : handler FileResponse := fun s =>
  found ← match_entry name files;
  match found with
  | None => stop (NotFound (quoted "File '" name "' not found.")) response s
  | Some e =>
      try (fs_ReadFile (de_inode e)) response (fun region s =>
      match region with
      | None => stop (NotFound (quoted "File '" name "' not found.")) response s
      | Some _ =>
          let response := mkFile path (f_size response) region in
          try (fs_GetInode (de_inode e)) response (fun inode s =>
          size ← inode_file_size inode;
          stop Status_Ok (mkFile path size region) s) s
      end) s
  end.

Definition HandleOpenFile (path : list Z) (response : FileResponse) : handler FileResponse := fun s =>
  path_tokens ← StrSplit (view_of path) slash;
  t0 ← vec_at path_tokens 0;
  absolute ← view_eq t0 StringView_empty;
  if negb absolute then stop (InvalidArgument "Open file supports only absolute paths.") response s else
  try (fs_ReadDirectory 2) response (fun files =>
  walk (Z.to_nat (vsize_ path_tokens [-] 1 - 1)) 1 path_tokens files response (fun files s =>
  name ← vec_at path_tokens (vsize_ path_tokens [-] 1);
  open_last path response name files s)) s.

(** The listing: the names, each followed by a comma, then the last comma removed. *)
Fixpoint list_names (files : list DirEntry) (filelist : Vector Z) : res (Vector Z) :=
  match files with
  | [] => Ret filelist
  | file :: files' =>
      filelist ← VariableStringBuilder_PushBack (entry_name file) filelist;
      filelist ← vec_PushBack 44 filelist;
      list_names files' filelist
  end.

Definition HandleGetDirectory (path : list Z) (response : list Z) : handler (list Z) := fun s =>
  path_tokens ← StrSplit (view_of path) slash;
  t0 ← vec_at path_tokens 0;
  absolute ← view_eq t0 StringView_empty;
  if negb absolute then stop (InvalidArgument "Get Directory only supports absolute path.") response s else
  last ← vec_at path_tokens (vsize_ path_tokens [-] 1);
  trailing ← view_eq last StringView_empty;
  path_tokens ← (if (trailing : bool) then '(_, v) ← vec_PopBack path_tokens; Ret v else Ret path_tokens);
  try (fs_ReadDirectory 2) response (fun files =>
  walk (Z.to_nat (vsize_ path_tokens - 1)) 1 path_tokens files response (fun files s =>
  filelist ← list_names files vec_new;
  filelist ← (if vsize_ filelist >? 0 then VariableStringBuilder_DeleteLast filelist else Ret filelist);
  str ← VariableStringBuilder_ToString filelist;
  stop Status_Ok (view_chars (String_view str)) s)) s.
End handlers.

(** ** The file system behind the driver

    [dirs] and [files] are what the driver answers for each inode that exists
    ([known]), [sizes] the file size an inode holds; a file's memory starts with
    its bytes. *)
Definition entry_ok (e : DirEntry) : Prop := 0 <= name_len e <= Z.of_nat (length (de_name e)) /\ name_len e < 256.

(** A directory the driver can return. *)
Definition dir_ok (es : list DirEntry) : Prop := Forall entry_ok es /\ Z.of_nat (length es) < 2 ^ 32.

Definition entry_chars (e : DirEntry) : list Z := take (Z.to_nat (name_len e)) (de_name e).

Class FsDriverLaws (S : Type) `{FsDriver S} (dirs : Z -> ErrorOr (list DirEntry)) (files : Z -> ErrorOr (list Z)) (sizes : Z -> Z) : Type := {
  fs_inv : S -> Prop;
  known : Z -> Prop;
  root_known : known 2;
  ReadDirectory_law i s : fs_inv s -> known i -> exists s', fs_ReadDirectory i s = Ret (dirs i, s') /\ fs_inv s';
  dirs_ok i es : known i -> dirs i = EOk es -> dir_ok es /\ Forall (fun e => known (de_inode e)) es;
  ReadFile_law i s : fs_inv s -> known i ->
    exists r s', fs_ReadFile i s = Ret (r, s') /\ fs_inv s' /\
      match files i with EErr e => r = EErr e | EOk l => exists l', r = EOk (Some l') /\ l `prefix_of` l' end;
  GetInode_law i l s : fs_inv s -> known i -> files i = EOk l ->
    exists inode s', fs_GetInode i s = Ret (EOk inode, s') /\ inode_file_size inode = Ret (sizes i) /\ fs_inv s';
}.

(** Reference resolution of a path, a list of names, from a directory. *)
Definition lookup_name (n : list Z) (es : list DirEntry) : option DirEntry := snd <$> list_find (fun e => entry_chars e = n) es.

Fixpoint resolve (dirs : Z -> ErrorOr (list DirEntry)) (names : list (list Z)) (es : list DirEntry) : ErrorOr (list DirEntry) :=
  match names with
  | [] => EOk es
  | n :: names' =>
      match lookup_name n es with
      | None => EErr NOT_FOUND
      | Some e => match dirs (de_inode e) with EErr c => EErr c | EOk es' => resolve dirs names' es' end
      end
  end.

(** A file by the components of its path: all but the last are directories below the root, inode 2. *)
Definition open_path (dirs : Z -> ErrorOr (list DirEntry)) (files : Z -> ErrorOr (list Z)) (comps : list (list Z)) : ErrorOr (Z * list Z) :=
  match dirs 2 with
  | EErr c => EErr c
  | EOk es =>
      match resolve dirs (drop 1 (take (length comps - 1) comps)) es with
      | EErr c => EErr c
      | EOk es =>
          match lookup_name (List.last comps []) es with
          | None => EErr NOT_FOUND
          | Some e => match files (de_inode e) with EErr c => EErr c | EOk l => EOk (de_inode e, l) end
          end
      end
  end.

Definition list_path (dirs : Z -> ErrorOr (list DirEntry)) (comps : list (list Z)) : ErrorOr (list DirEntry) :=
  match dirs 2 with
  | EErr c => EErr c
  | EOk es => resolve dirs (drop 1 (if bool_decide (List.last comps [] = []) then take (length comps - 1) comps else comps)) es
  end.

Lemma length_split_on d l : (length (split_on d l) <= S (length l))%nat.
Proof.
  induction l as [|c l IH]; cbn [split_on length]; [done|]. destruct (c =? d); cbn [length]; [lia|].
  destruct (split_on d l); cbn [length] in *; lia.
Qed.

Section resolution.
Context {S : Type} `{FsDriver S} (dirs : Z -> ErrorOr (list DirEntry)) (files : Z -> ErrorOr (list Z)) (sizes : Z -> Z) `{!FsDriverLaws S dirs files sizes}.
Implicit Types s : S.

(** A directory whose entries exist. *)
Definition dir_known (es : list DirEntry) : Prop := dir_ok es /\ Forall (fun e => known (de_inode e)) es.

Lemma vec_at_spec {A} (v : Vector A) l i x z : vec_is v l -> l !! i = Some x -> z = Z.of_nat i -> vec_at v z = Ret x.
Proof. intros Hv Hl ->. by apply (slot_load_spec v l). Qed.

Lemma entry_view_ok e : entry_ok e -> view_ok (entry_name e) /\ view_chars (entry_name e) = entry_chars e.
Proof. intros [H1 H2]. split; [split; cbn; lia|done]. Qed.

Lemma match_entry_spec token es : view_ok token -> Forall entry_ok es -> match_entry token es = Ret (lookup_name (view_chars token) es).
Proof.
  intros Ht. induction 1 as [|e es He HF IH]; cbn [match_entry]; [done|]. destruct (entry_view_ok e He) as [Hv Hc].
  rewrite view_eq_spec by done. cbn [mbind res_bind]. unfold lookup_name. cbn [list_find]. rewrite Hc. case_bool_decide as Hd.
  - rewrite decide_True by done. done.
  - rewrite decide_False by congruence. rewrite IH. unfold lookup_name. by destruct (list_find _ es) as [[]|].
Qed.

Lemma lookup_name_ok n es e : lookup_name n es = Some e -> e ∈ es.
Proof.
  unfold lookup_name. destruct (list_find _ es) as [[j x]|] eqn:E; [|done]. intros [= <-]. apply list_find_Some in E as (E & _). by eapply list_elem_of_lookup_2.
Qed.

Lemma walk_spec {R} (resp : R) (k : list DirEntry -> handler R) tokens ts n : forall i es s,
  vec_is tokens ts -> Forall view_ok ts -> (n = 0 \/ i + n <= length ts)%nat -> dir_known es -> fs_inv s ->
  exists s', fs_inv s' /\
    match resolve dirs (view_chars <$> take n (drop i ts)) es with
    | EErr c => exists st, walk n (Z.of_nat i) tokens es resp k s = Ret (st, resp, s') /\ code_ st = c
    | EOk es' => walk n (Z.of_nat i) tokens es resp k s = k es' s' /\ dir_known es'
    end.
Proof.
  induction n as [|n IH]; intros i es s Hv Hts Hn Hes Hinv; cbn [walk take]; [by exists s|].
  destruct (lookup_lt_is_Some_2 ts i) as [t Ht]; [lia|]. rewrite (drop_S _ _ _ Ht), firstn_cons, fmap_cons. cbn [resolve].
  rewrite (vec_at_spec _ _ _ _ _ Hv Ht eq_refl). cbn [mbind res_bind].
  assert (view_ok t) as Htok by (by eapply Forall_lookup_1). rewrite (match_entry_spec t es Htok (proj1 (proj1 Hes))). cbn [mbind res_bind].
  destruct (lookup_name (view_chars t) es) as [e|] eqn:El; [|exists s; split; [done|]; cbn; by eexists].
  assert (known (de_inode e)) as Hkn by (eapply (proj1 (Forall_forall _ _) (proj2 Hes)); by eapply lookup_name_ok).
  unfold try. destruct (ReadDirectory_law (de_inode e) s Hinv Hkn) as (s1 & -> & Hinv1). cbn [mbind res_bind].
  destruct (dirs (de_inode e)) as [c|es1] eqn:Ed; [exists s1; split; [done|]; cbn; by eexists|].
  replace (Z.of_nat i + 1) with (Z.of_nat (Datatypes.S i)) by lia. apply IH; [done|done|lia|by apply (dirs_ok _ _ Hkn Ed)|done].
Qed.

Definition path_ok (path : list Z) : Prop := Z.of_nat (length path) < 2 ^ 61.

(** The tokens of a path are its components. *)
Lemma path_tokens path : path_ok path ->
  exists v ts, StrSplit (view_of path) slash = Ret v /\ vec_is v ts /\ Forall view_ok ts /\ view_chars <$> ts = split_on slash path /\ ts <> [].
Proof.
  intros Hp. destruct (StrSplit_spec (view_of path) slash) as (v & ts & HS & Hv & Hne & Hok & Hj & Hn).
  { split; cbn; unfold path_ok in Hp; lia. }
  exists v, ts. split_and!; [done|done|done| |done]. rewrite <- (split_join slash (view_chars <$> ts)).
  - rewrite Hj. f_equal. unfold view_chars, view_of. cbn. by rewrite Nat2Z.id, firstn_all.
  - by destruct ts.
  - by apply Forall_fmap.
Qed.

Lemma view_empty_ok : view_ok StringView_empty.
Proof. split; cbn; lia. Qed.

Lemma token_empty t : view_ok t -> view_eq t StringView_empty = Ret (bool_decide (view_chars t = [])).
Proof. intros Ht. rewrite (view_eq_spec t StringView_empty Ht view_empty_ok). f_equal. by apply bool_decide_ext. Qed.

Lemma last_token (ts : list StringView) t : List.last (view_chars <$> ts ++ [t]) [] = view_chars t.
Proof. rewrite fmap_app. cbn. by rewrite last_last. Qed.

(** The directories of a path, as the loop takes them. *)
Lemma dir_tokens (ts : list StringView) :
  drop 1 (take (length ts - 1) (view_chars <$> ts)) = view_chars <$> take (length ts - 2) (drop 1 ts).
Proof.
  rewrite take_drop_commute, fmap_drop, fmap_take. destruct ts as [|a [|b ts]]; [done|done|]. f_equal. f_equal. cbn. lia.
Qed.

(** The final part of [HandleOpenFile]: the file in the directory that was reached. *)
Lemma open_file_spec path response name es s :
  view_ok name -> dir_known es -> fs_inv s ->
  exists st s' resp, open_last path response name es s = Ret (st, resp, s') /\ fs_inv s' /\
    match lookup_name (view_chars name) es with
    | None => code_ st = NOT_FOUND /\ resp = response
    | Some e => match files (de_inode e) with
                | EErr c => code_ st = c /\ resp = response
                | EOk l => st = Status_Ok /\ exists l', resp = mkFile path (sizes (de_inode e)) (Some l') /\ l `prefix_of` l'
                end
    end.
Proof.
  intros Hn Hes Hinv. unfold open_last. rewrite match_entry_spec by (done || apply Hes). cbn [mbind res_bind].
  destruct (lookup_name (view_chars name) es) as [e|] eqn:El; [|by do 3 eexists]. unfold try.
  assert (known (de_inode e)) as Hkn by (eapply (proj1 (Forall_forall _ _) (proj2 Hes)); by eapply lookup_name_ok).
  destruct (ReadFile_law (de_inode e) s Hinv Hkn) as (r & s1 & -> & Hinv1 & Hr). cbn [mbind res_bind].
  destruct (files (de_inode e)) as [c|l] eqn:Ef; [rewrite Hr; by do 3 eexists|]. destruct Hr as (l' & -> & Hl').
  destruct (GetInode_law _ _ s1 Hinv1 Hkn Ef) as (inode & s2 & -> & Hsz & Hinv2). cbn [mbind res_bind]. rewrite Hsz. cbn [mbind res_bind]. do 3 eexists. split; [done|]. split; [done|]. split; [done|]. by exists l'.
Qed.

(** ** Listings *)
Lemma list_names_spec es : forall b l,
  Forall entry_ok es -> vec_is b l -> Z.of_nat (length l) + 257 * Z.of_nat (length es) < 2 ^ 61 ->
  exists b', list_names es b = Ret b' /\ vec_is b' (l ++ concat ((fun e => entry_chars e ++ [44]) <$> es)).
Proof.
  induction es as [|e es IH]; intros b l HF Hb Hl; cbn [list_names]; [exists b; by rewrite app_nil_r|].
  apply Forall_cons in HF as [He HF]. destruct (entry_view_ok e He) as [Hv Hc]. cbn [length] in Hl.
  pose proof (length_view_chars _ Hv) as Hlen. cbn [entry_name size_] in Hlen. destruct He as [He1 He2].
  destruct (Variable_PushBack_spec b l (entry_name e) Hb Hv) as (b1 & -> & Hb1); [cbn [entry_name size_]; lia|]. cbn [mbind res_bind].
  destruct (vec_PushBack_spec b1 _ 44 Hb1) as (b2 & -> & Hb2 & _); [rewrite length_app; lia|]. cbn [mbind res_bind].
  destruct (IH b2 _ HF Hb2) as (b' & Hn & Hb'); [rewrite !length_app; cbn [length]; lia|]. exists b'. split; [done|].
  rewrite fmap_cons. cbn [concat]. by rewrite Hc, <- !app_assoc in *.
Qed.

Lemma concat_join d (ps : list (list Z)) : ps <> [] -> concat ((fun p => p ++ [d]) <$> ps) = join d ps ++ [d].
Proof.
  induction ps as [|p ps IH]; intros Hne; [done|]. destruct ps as [|q ps]; [cbn; by rewrite app_nil_r|].
  rewrite fmap_cons. cbn [concat]. rewrite IH by done. rewrite (join_cons d p) by done. by rewrite <- !app_assoc.
Qed.

(** The text of a directory: the names with commas between them. *)
Lemma listing_spec es :
  Forall entry_ok es -> Z.of_nat (length es) < 2 ^ 32 ->
  exists b b' str, list_names es vec_new = Ret b /\ (if vsize_ b >? 0 then VariableStringBuilder_DeleteLast b else Ret b) = Ret b' /\
    VariableStringBuilder_ToString b' = Ret str /\ view_chars (String_view str) = join 44 (entry_chars <$> es).
Proof.
  intros HF Hl. destruct (list_names_spec es vec_new [] HF vec_new_is) as (b & Hn & Hb); [cbn; lia|]. exists b. cbn [app] in Hb.
  assert (Z.of_nat (length (concat ((fun e => entry_chars e ++ [44]) <$> es))) <= 257 * Z.of_nat (length es)) as Hlen.
  { clear -HF. induction HF as [|e es [He1 He2] _ IH]; [done|]. rewrite fmap_cons. cbn [concat length]. rewrite !length_app. unfold entry_chars at 1.
    rewrite length_take. cbn [length]. lia. }
  pose proof (vi_size _ _ Hb) as Hsz. destruct (decide (es = [])) as [->|Hne].
  - cbn in Hsz. rewrite Hsz. cbn. destruct (ToString_spec b []) as (str & Hs & _ & Hc); [done|cbn; lia|]. by exists b, str.
  - assert (concat ((fun e => entry_chars e ++ [44]) <$> es) = join 44 (entry_chars <$> es) ++ [44]) as Hcat.
    { rewrite <- concat_join by (by destruct es). by rewrite <- list_fmap_compose. }
    rewrite Hcat in *. rewrite length_app in Hsz, Hlen. cbn [length] in Hsz, Hlen. rewrite (proj2 (Z.gtb_lt _ _)) by lia. unfold VariableStringBuilder_DeleteLast.
    rewrite (proj2 (Z.gtb_lt _ _)) by lia. destruct (vec_PopBack_spec b _ 44 Hb) as (_ & b' & -> & Hb'); [lia|]. cbn [mbind res_bind].
    destruct (ToString_spec b' _ Hb') as (str & Hs & _ & Hc); [lia|]. by exists b', str.
Qed.

(** The result of [HandleOpenFile] for every path. *)
Lemma HandleOpenFile_spec path response s :
  path_ok path -> fs_inv s ->
  exists st resp s', HandleOpenFile path response s = Ret (st, resp, s') /\ fs_inv s' /\
    let comps := split_on slash path in
    if bool_decide (head comps = Some []) then
      match open_path dirs files comps with
      | EErr c => code_ st = c /\ resp = response
      | EOk (i, l) => st = Status_Ok /\ exists l', resp = mkFile path (sizes i) (Some l') /\ l `prefix_of` l'
      end
    else code_ st = INVALID_ARGUMENT /\ resp = response.
Proof.
  intros Hp Hinv. destruct (path_tokens path Hp) as (v & ts & HS & Hv & Hok & Hcs & Hne). unfold HandleOpenFile. rewrite HS. cbn [mbind res_bind].
  rewrite <- Hcs. cbn zeta. assert (exists t0 ts', ts = t0 :: ts') as (t0 & ts' & Ets) by (destruct ts; [done|eauto]).
  rewrite (vec_at_spec v ts 0 t0 0 Hv) by (by rewrite ?Ets). cbn [mbind res_bind].
  assert (view_ok t0) as Ht0 by (rewrite Ets in Hok; by apply Forall_cons in Hok as [? _]). rewrite token_empty by done. cbn [mbind res_bind].
  assert (head (view_chars <$> ts) = Some (view_chars t0)) as -> by (by rewrite Ets).
  case_bool_decide as Hd; cbn [negb]; [rewrite Hd, bool_decide_true by done|rewrite bool_decide_false by congruence; by do 3 eexists].
  unfold try at 1, open_path. destruct (ReadDirectory_law 2 s Hinv root_known) as (s1 & -> & Hinv1). cbn [mbind res_bind].
  destruct (dirs 2) as [c|es] eqn:Ed; [by do 3 eexists|]. pose proof (dirs_ok _ _ root_known Ed) as Hes.
  assert (1 <= length ts)%nat as Hlen by (rewrite Ets; cbn; lia). pose proof (vi_size _ _ Hv) as Hsz.
  assert (Z.of_nat (length ts) < 2 ^ 64) as Hl64 by (pose proof (vi_cap _ _ Hv); lia).
  rewrite Hsz. rewrite !(u64_small (Z.of_nat (length ts) - 1)) by lia. replace (Z.to_nat (Z.of_nat (length ts) - 1 - 1)) with (length ts - 2)%nat by lia.
  match goal with |- context [walk _ _ _ _ _ ?k] => destruct (walk_spec response k v ts (length ts - 2) 1 es s1) as (s2 & Hinv2 & Hw) end;
    [done|done|lia|done|done|].
  rewrite <- (dir_tokens ts) in Hw. change (Z.of_nat 1) with 1 in Hw. rewrite length_fmap.
  destruct (resolve dirs _ es) as [c|es']; [destruct Hw as (st & -> & Hc); by do 3 eexists|]. destruct Hw as [-> Hes'].
  destruct (exists_last Hne) as (init & name & Hts). rewrite (vec_at_spec v ts (length init) name _ Hv)
    by (rewrite Hts; first [by apply list_lookup_middle|rewrite length_app; cbn; lia]).
  cbn [mbind res_bind]. destruct (open_file_spec path response name es' s2) as (st & s3 & resp & -> & Hinv3 & Hres); [|done|done|].
  { rewrite Hts in Hok. apply Forall_app in Hok as [_ Hok]. by apply Forall_cons in Hok as [? _]. }
  do 3 eexists. split; [done|]. split; [done|]. rewrite Hts, last_token. destruct (lookup_name (view_chars name) es') as [e|]; [|done].
  by destruct (files (de_inode e)).
Qed.

(** C22.  Opening a file resolves its path: for every path, the service answers INVALID_ARGUMENT when its first component is
    not empty, that is when it does not start with a slash; otherwise it follows the components from the root, each time into the first entry of that name, and answers
    with memory that starts with the contents of the file the last component names, and its size, or with the error of the component that could not
    be found or read; the response is only filled on success. *)
Theorem HandleOpenFile_resolves path response s :
  path_ok path -> fs_inv s ->
  exists st resp s', HandleOpenFile path response s = Ret (st, resp, s') /\ fs_inv s' /\
    let comps := split_on slash path in
    if bool_decide (head comps = Some []) then
      match open_path dirs files comps with
      | EErr c => code_ st = c /\ resp = response
      | EOk (i, l) => st = Status_Ok /\ exists l', resp = mkFile path (sizes i) (Some l') /\ l `prefix_of` l'
      end
    else code_ st = INVALID_ARGUMENT /\ resp = response.
Proof. apply HandleOpenFile_spec. Qed.

(** The tokens left when a trailing empty one is dropped. *)
Lemma dropped_tokens (ts : list StringView) t v :
  vec_is v (ts ++ [t]) -> view_ok t -> Z.of_nat (length ts) < 2 ^ 62 ->
  exists v' ts', (if bool_decide (view_chars t = []) then '(_, v) ← vec_PopBack v; Ret v else Ret v) = Ret v' /\ vec_is v' ts' /\
    ts' `prefix_of` ts ++ [t] /\
    view_chars <$> ts' = let comps := view_chars <$> ts ++ [t] in
      if bool_decide (List.last comps [] = []) then take (length comps - 1) comps else comps.
Proof.
  intros Hv Ht Hl. cbn zeta. rewrite last_token. case_bool_decide as Hd.
  - destruct (vec_PopBack_spec v ts t Hv Hl) as (_ & v' & -> & Hv'). exists v', ts. split_and!; [done|done|by exists [t]|].
    rewrite fmap_app, length_app, length_fmap. cbn [fmap list_fmap length]. rewrite take_app_le, take_ge by (rewrite length_fmap; lia). done.
  - exists v, (ts ++ [t]). split_and!; [done|done|reflexivity|done].
Qed.

(** Listing a directory: for every path whose first component is empty, the service follows the components from the
    root, a trailing slash ignored, and answers the names of the directory it reaches, with commas between them, or the
    error of the component that could not be found or read. *)
Theorem HandleGetDirectory_lists path response s :
  path_ok path -> fs_inv s ->
  exists st resp s', HandleGetDirectory path response s = Ret (st, resp, s') /\ fs_inv s' /\
    let comps := split_on slash path in
    if bool_decide (head comps = Some []) then
      match list_path dirs comps with
      | EErr c => code_ st = c /\ resp = response
      | EOk es => st = Status_Ok /\ resp = join 44 (entry_chars <$> es)
      end
    else code_ st = INVALID_ARGUMENT /\ resp = response.
Proof.
  intros Hp Hinv. destruct (path_tokens path Hp) as (v & ts & HS & Hv & Hok & Hcs & Hne). unfold HandleGetDirectory. rewrite HS. cbn [mbind res_bind].
  rewrite <- Hcs. cbn zeta. assert (exists t0 ts', ts = t0 :: ts') as (t0 & ts' & Ets) by (destruct ts; [done|eauto]).
  rewrite (vec_at_spec v ts 0 t0 0 Hv) by (by rewrite ?Ets). cbn [mbind res_bind].
  assert (view_ok t0) as Ht0 by (rewrite Ets in Hok; by apply Forall_cons in Hok as [? _]). rewrite token_empty by done. cbn [mbind res_bind].
  assert (head (view_chars <$> ts) = Some (view_chars t0)) as -> by (by rewrite Ets).
  case_bool_decide as Hd; cbn [negb]; [rewrite Hd, bool_decide_true by done|rewrite bool_decide_false by congruence; by do 3 eexists].
  pose proof (vi_size _ _ Hv) as Hsz. pose proof (vi_cap _ _ Hv) as Hcap. destruct (exists_last Hne) as (init & name & Hts).
  assert (Z.of_nat (length ts) = Z.of_nat (length init) + 1) as Hlen by (rewrite Hts, length_app; cbn; lia).
  rewrite (vec_at_spec v ts (length init) name _ Hv) by (rewrite ?Hts; first [by apply list_lookup_middle|rewrite Hsz, u64_small; lia]).
  cbn [mbind res_bind]. assert (view_ok name) as Hname by (rewrite Hts in Hok; apply Forall_app in Hok as [_ Hok]; by apply Forall_cons in Hok as [? _]).
  rewrite token_empty by done. cbn [mbind res_bind]. rewrite Hts in Hv. destruct (dropped_tokens init name v Hv Hname) as (v' & us & -> & Hv' & Hpre & Hus).
  { pose proof (length_split_on slash path) as Hsl. rewrite <- Hcs, length_fmap in Hsl. unfold path_ok in Hp. lia. }
  cbn [mbind res_bind]. unfold try at 1, list_path. destruct (ReadDirectory_law 2 s Hinv root_known) as (s1 & -> & Hinv1). cbn [mbind res_bind].
  destruct (dirs 2) as [c|es] eqn:Ed; [by do 3 eexists|]. pose proof (dirs_ok _ _ root_known Ed) as Hes.
  cbn zeta in Hus. rewrite <- Hts in *. rewrite <- Hus, <- fmap_drop. rewrite (vi_size _ _ Hv'). replace (Z.to_nat (Z.of_nat (length us) - 1)) with (length us - 1)%nat by lia.
  match goal with |- context [walk _ _ _ _ _ ?k] => destruct (walk_spec response k v' us (length us - 1) 1 es s1) as (s2 & Hinv2 & Hw) end;
    [done|destruct Hpre as [us' ->]; by apply Forall_app in Hok as [? _]|lia|done|done|].
  rewrite take_ge in Hw by (rewrite length_drop; lia). change (Z.of_nat 1) with 1 in Hw.
  destruct (resolve dirs _ es) as [c|es']; [destruct Hw as (st & -> & Hc); by do 3 eexists|]. destruct Hw as [-> [[Hes' Hl'] _]].
  destruct (listing_spec es' Hes' Hl') as (b & b' & str & -> & Hb & Hs & Hstr). cbn [mbind res_bind]. rewrite Hb. cbn [mbind res_bind].
  rewrite Hs. cbn [mbind res_bind]. rewrite Hstr. by do 3 eexists.
Qed.
End resolution.

(** ** A file system in memory, for the witnesses

    The root holds the directory "d" (inode 11), which holds the file "x" (inode 12) and the name "y". *)
Module MemFs.
Definition entry (inode c : Z) : DirEntry := mkDirEntry inode 12 1 0 [c; 0; 0; 0].
Definition mem_dirs (i : Z) : ErrorOr (list DirEntry) :=
  if i =? 2 then EOk [entry 11 100] else if i =? 11 then EOk [entry 12 120; entry 13 121] else EErr INVALID_ARGUMENT.
Definition mem_files (i : Z) : ErrorOr (list Z) := if i =? 12 then EOk [1; 2; 3] else EErr INVALID_ARGUMENT.
Definition mem_inode : Inode := mkInode [0; 0; 0; 0; 3; 0; 0; 0] 0.

#[export] Instance MemFs_driver : FsDriver unit := {
  fs_ReadDirectory := fun i s => Ret (mem_dirs i, s);
  fs_ReadFile := fun i s => Ret (match mem_files i with EErr e => EErr e | EOk l => EOk (Some l) end, s);
  fs_GetInode := fun _ s => Ret (EOk mem_inode, s);
}.

#[export] Program Instance MemFs_laws : FsDriverLaws unit mem_dirs mem_files (fun _ => 3) := { fs_inv := fun _ => True; known := fun _ => True }.
Next Obligation. done. Qed.
Next Obligation. intros. by eexists. Qed.
Next Obligation.
  intros i es _. unfold mem_dirs. destruct (i =? 2); [|destruct (i =? 11); [|done]]; intros [= <-]; (split; [split; [|cbn; lia]|]);
    repeat constructor; cbn; lia.
Qed.
Next Obligation. intros i s _ _. do 2 eexists. split; [done|]. split; [done|]. destruct (mem_files i); [done|]. by eexists. Qed.
Next Obligation. intros. by do 2 eexists. Qed.
End MemFs.
Import MemFs.

(** "/d/x" *)
Lemma HandleOpenFile_resolves_witness :
  exists s' l, HandleOpenFile [47; 100; 47; 120] (mkFile [] 0 None) tt = Ret (Status_Ok, mkFile [47; 100; 47; 120] 3 (Some l), s') /\ [1; 2; 3] `prefix_of` l.
Proof.
  destruct (HandleOpenFile_resolves mem_dirs mem_files (fun _ => 3) [47; 100; 47; 120] (mkFile [] 0 None) tt) as (st & resp & s' & HR & _ & Hres);
    [unfold path_ok; cbn; lia|exact I|].
  change (st = Status_Ok /\ exists l, resp = mkFile [47; 100; 47; 120] 3 (Some l) /\ [1; 2; 3] `prefix_of` l) in Hres. destruct Hres as (-> & l & -> & Hl). by exists s', l.
Defined.

(** "/d/" lists "x,y" *)
Lemma HandleGetDirectory_lists_witness : exists s', HandleGetDirectory [47; 100; 47] [] tt = Ret (Status_Ok, [120; 44; 121], s').
Proof.
  destruct (HandleGetDirectory_lists mem_dirs mem_files (fun _ => 3) [47; 100; 47] [] tt) as (st & resp & s' & HR & _ & Hres);
    [unfold path_ok; cbn; lia|exact I|].
  change (st = Status_Ok /\ resp = [120; 44; 121]) in Hres. destruct Hres as [-> ->]. by exists s'.
Defined.
