(* ===== verification/Keyboard.v ===== *)
(** * The keyboard driver (sys/voyageurs/keyboard/keyboard_driver.cpp,
    sys/voyageurs/voyageurs_server.cpp)

    The driver receives the eight-byte reports of a USB keyboard, remembers the
    keys that are down in a bit map, and writes the keys that went down to the
    ports of its listeners.  What is written is a list of port and value, in
    order; the check of the result of a write is left to the port. *)

From Stdlib Require Import ZArith Lia.
From stdpp Require Import base tactics numbers list sets gmap.
From S2P Require Import Prelude Status Buffer LinkedList Ext2.

Record KeyboardDriver : Type := mkKeyboard { port_cap_ : Z; listeners_ : LinkedList Z; bitmap_ : Z }.

Implicit Types d : KeyboardDriver.

Definition KeyboardDriver_new (port_cap : Z) : KeyboardDriver := mkKeyboard port_cap ll_new 0.

Definition RegisterListener (port_cap : Z) d : KeyboardDriver := mkKeyboard (port_cap_ d) (ll_PushFront port_cap (listeners_ d)) (bitmap_ d).

(** [VoyageursServer::HandleRegisterKeyboardListener] *)
Definition HandleRegisterKeyboardListener (port_capability : Z) d : Status * KeyboardDriver := (Status_Ok, RegisterListener port_capability d).

(** [SendKeypress]: a write of two bytes to every listener. *)
Definition SendKeypress (scancode : Z) d : list (Z * Z) := (fun client => (client, scancode)) <$> front_ (listeners_ d).

(** The loop of [ProcessInput], [n] codes from index [i] on; a code of 64 or more only draws a message. *)
Fixpoint input_loop (n : nat) (i input modifiers new_bitmap : Z) d : res (list (Z * Z) * Z) :=
  match n with
  | O => Ret ([], new_bitmap)
  | S n' =>
      let code := Z.land (Z.shiftr input (8 * i)) 0xFF in
      if code =? 0 then Ret ([], new_bitmap) else
      bit ← shl_int 1 code;
      let new_bitmap := Z.lor new_bitmap bit in
      let sent := if negb (Z.land (bitmap_ d) bit =? bit) then SendKeypress (Z.lor modifiers code) d else [] in
      '(out, new_bitmap) ← input_loop n' (i + 1) input modifiers new_bitmap d;
      Ret (sent ++ out, new_bitmap)
  end.

Definition ProcessInput (input : Z) d : res (list (Z * Z) * KeyboardDriver) :=
  let modifiers := Z.land input 0xFF * 2 ^ 8 in
  '(out, new_bitmap) ← input_loop 6 2 input modifiers 0 d;
  Ret (out, mkKeyboard (port_cap_ d) (listeners_ d) new_bitmap).

(** The first turns of [InterruptLoop], for the reports that arrive. *)
Fixpoint InterruptTurns (reports : list Z) d : res (list (Z * Z) * KeyboardDriver) :=
  match reports with
  | [] => Ret ([], d)
  | scancode :: reports' =>
      '(out, d) ← ProcessInput scancode d;
      '(out', d) ← InterruptTurns reports' d;
      Ret (out ++ out', d)
  end.

(** ** The keys of a report *)

(** The codes in front of the first empty place. *)
Fixpoint codes_from (n : nat) (i input : Z) : list Z :=
  match n with
  | O => []
  | S n' => let code := Z.land (Z.shiftr input (8 * i)) 0xFF in if code =? 0 then [] else code :: codes_from n' (i + 1) input
  end.
Definition report_codes (input : Z) : list Z := codes_from 6 2 input.

(** The bit map stands for a set of codes. *)
Definition bitmap_is (b : Z) (keys : gset Z) : Prop := 0 <= b /\ forall c, 0 <= c -> Z.testbit b c = bool_decide (c ∈ keys).

(** What a report means: the keys that were not down before are sent, with the modifiers, in the order of the report, and a
    key that is repeated in a report is sent for every place it has. *)
Definition press (down : gset Z) (input : Z) : list Z := filter (fun c => c ∉ down) (report_codes input).

(** The specification of a sequence of reports: the keys that are down and what every listener is sent. *)
Fixpoint presses (down : gset Z) (reports : list Z) : list Z :=
  match reports with
  | [] => []
  | r :: reports' => ((fun c => Z.lor (Z.land r 0xFF * 2 ^ 8) c) <$> press down r) ++ presses (list_to_set (report_codes r)) reports'
  end.

(** The codes for which the bit of the map is the code's own. *)
Definition small_codes (input : Z) : Prop := Forall (fun c => c < 31) (report_codes input).

Lemma code_range input i : 0 <= i -> 0 <= Z.land (Z.shiftr input (8 * i)) 0xFF < 256.
Proof. intros Hi. change 0xFF with (Z.ones 8). rewrite Z.land_ones by lia. apply Z.mod_pos_bound. lia. Qed.

Lemma shl_bit c : 0 <= c < 31 -> shl_int 1 c = Ret (2 ^ c).
Proof.
  intros Hc. unfold shl_int. rewrite (proj2 (Z.ltb_lt _ _)) by lia. assert (0 < 2 ^ c < 2 ^ 31) by (split; [lia|apply Z.pow_lt_mono_r; lia]).
  rewrite Z.mul_1_l, (u32_small (2 ^ c)) by lia. unfold s32. rewrite (proj2 (Z.ltb_lt _ _)) by lia. by rewrite u64_small by lia.
Qed.

Lemma bit_in b keys c : bitmap_is b keys -> 0 <= c -> (Z.land b (2 ^ c) =? 2 ^ c) = bool_decide (c ∈ keys).
Proof.
  intros [_ Hb] Hc. rewrite <- Hb by done. apply eq_true_iff_eq. rewrite Z.eqb_eq. split.
  - intros H. apply (f_equal (fun z => Z.testbit z c)) in H. rewrite Z.land_spec, Z.pow2_bits_true in H by done. by apply andb_true_iff in H as [? _].
  - intros H. apply Z.bits_inj'. intros n Hn. rewrite Z.land_spec. destruct (Z.eq_dec n c) as [->|Hne].
    + by rewrite H, Z.pow2_bits_true.
    + by rewrite Z.pow2_bits_false, andb_false_r by congruence.
Qed.

Lemma bitmap_add b keys c : bitmap_is b keys -> 0 <= c -> bitmap_is (Z.lor b (2 ^ c)) ({[c]} ∪ keys).
Proof.
  intros [Hp Hb] Hc. split; [apply Z.lor_nonneg; lia|]. intros n Hn. rewrite Z.lor_spec, Hb by done. destruct (Z.eq_dec n c) as [->|Hne].
  - rewrite Z.pow2_bits_true, orb_true_r by done. symmetry. apply bool_decide_eq_true. set_solver.
  - rewrite Z.pow2_bits_false, orb_false_r by congruence. apply bool_decide_ext. set_solver.
Qed.

Definition to_listeners d (codes : list Z) : list (Z * Z) := codes ≫= (fun c => SendKeypress c d).

Lemma input_loop_spec d down n : forall i input m b keys,
  0 <= i -> bitmap_is (bitmap_ d) down -> bitmap_is b keys -> Forall (fun c => c < 31) (codes_from n i input) ->
  exists b', input_loop n i input m b d = Ret (to_listeners d (Z.lor m <$> filter (fun c => c ∉ down) (codes_from n i input)), b') /\
    bitmap_is b' (list_to_set (codes_from n i input) ∪ keys).
Proof.
  induction n as [|n IH]; intros i input m b keys Hi Hd Hb HF; cbn [input_loop codes_from] in *; [exists b; by rewrite list_to_set_nil, union_empty_l_L|].
  set (code := Z.land (Z.shiftr input (8 * i)) 0xFF) in *. pose proof (code_range input i Hi) as Hr. fold code in Hr.
  destruct (Z.eqb_spec code 0); [exists b; by rewrite list_to_set_nil, union_empty_l_L|]. apply Forall_cons in HF as [Hc HF].
  rewrite shl_bit by lia. cbn [mbind res_bind]. rewrite (bit_in _ down) by (done || lia).
  destruct (IH (i + 1) input m (Z.lor b (2 ^ code)) ({[code]} ∪ keys)) as (b' & -> & Hb'); [lia|done|apply bitmap_add; [done|lia]|done|].
  cbn [mbind res_bind]. exists b'. split.
  - do 2 f_equal. case_bool_decide as Hin; cbn [negb].
    + by rewrite filter_cons_False by tauto.
    + by rewrite filter_cons_True.
  - by replace (list_to_set (code :: codes_from n (i + 1) input) ∪ keys : gset Z) with (list_to_set (codes_from n (i + 1) input) ∪ ({[code]} ∪ keys) : gset Z) by set_solver.
Qed.

Lemma ProcessInput_spec d down input :
  bitmap_is (bitmap_ d) down -> small_codes input ->
  exists b, ProcessInput input d = Ret (to_listeners d (Z.lor (Z.land input 0xFF * 2 ^ 8) <$> press down input), mkKeyboard (port_cap_ d) (listeners_ d) b) /\
    bitmap_is b (list_to_set (report_codes input)).
Proof.
  intros Hd HF. unfold ProcessInput.
  destruct (input_loop_spec d down 6 2 input (Z.land input 0xFF * 2 ^ 8) 0 ∅) as (b & -> & Hb); [lia|done| |done|].
  - split; [done|]. intros c Hc. rewrite Z.bits_0. symmetry. apply bool_decide_eq_false. set_solver.
  - rewrite union_empty_r_L in Hb. by exists b.
Qed.

(** Reports with codes below 31. *)
Lemma keyboard_turns reports : forall d down,
  bitmap_is (bitmap_ d) down -> Forall small_codes reports ->
  exists b, InterruptTurns reports d = Ret (to_listeners d (presses down reports), mkKeyboard (port_cap_ d) (listeners_ d) b) /\
    bitmap_is b (default down (list_to_set ∘ report_codes <$> last reports)).
Proof.
  induction reports as [|r rs IH]; intros d down Hd HF; cbn [InterruptTurns presses]; [exists (bitmap_ d); by destruct d|].
  apply Forall_cons in HF as [Hr HF]. destruct (ProcessInput_spec d down r Hd Hr) as (b1 & -> & Hb1). cbn [mbind res_bind].
  destruct (IH (mkKeyboard (port_cap_ d) (listeners_ d) b1) _ Hb1 HF) as (b & -> & Hb). cbn [mbind res_bind port_cap_ listeners_]. exists b. split.
  - unfold to_listeners. by rewrite bind_app.
  - destruct rs as [|r' rs]; [done|]. rewrite last_cons_cons. by destruct (last (r' :: rs)) eqn:E; [|by apply last_None in E].
Qed.

(** A code of 32 or more shifts an int by its width or more: what the code then does is undefined. *)
Lemma large_code_undefined d input :
  let code := Z.land (Z.shiftr input 16) 0xFF in 32 <= code -> ProcessInput input d = Fault.
Proof.
  intros code Hc. unfold ProcessInput. cbn [input_loop]. change (Z.land (Z.shiftr input (8 * 2)) 0xFF) with code. clearbody code.
  destruct (Z.eqb_spec code 0); [lia|]. unfold shl_int. by destruct (Z.ltb_spec code 32); [lia|].
Qed.

Lemma turns_undefined reports r rest : forall d es d', InterruptTurns reports d = Ret (es, d') -> 32 <= Z.land (Z.shiftr r 16) 0xFF -> InterruptTurns (reports ++ r :: rest) d = Fault.
Proof.
  induction reports as [|x xs IH]; intros d es d' HR Hr; cbn [app InterruptTurns] in *; [by rewrite large_code_undefined|].
  apply bind_Ret in HR as ([e1 d1] & -> & HR). rewrite ret_bind. apply bind_Ret in HR as ([e2 d2] & HR & _). by rewrite (IH _ _ _ HR Hr).
Qed.

(** C29.  For every sequence of reports with codes below 31 (the letters and the key 1 among them), every listener is sent
    exactly the keys that went down, in order and with the modifiers of their report, where a key that was held in the
    previous report is not sent again; and the driver remembers the keys of the last report.  A report whose first code is 32
    or more (most digits, Enter, space and punctuation) shifts an int by its width or more, which is undefined. *)
Theorem keyboard_reports reports d down :
  bitmap_is (bitmap_ d) down -> Forall small_codes reports ->
  (exists b, InterruptTurns reports d = Ret (to_listeners d (presses down reports), mkKeyboard (port_cap_ d) (listeners_ d) b) /\
    bitmap_is b (default down (list_to_set ∘ report_codes <$> last reports))) /\
  forall r rest, 32 <= Z.land (Z.shiftr r 16) 0xFF -> InterruptTurns (reports ++ r :: rest) d = Fault.
Proof.
  intros Hd HF. destruct (keyboard_turns reports d down Hd HF) as (b & HR & Hb). split; [by exists b|]. intros r rest Hr. by eapply turns_undefined.
Qed.

(** Key "a" goes down, then "b" while "a" is held with shift: the listener gets 4 and 0x205. *)
Lemma keyboard_reports_witness :
  exists b, InterruptTurns [0x40000; 0x5040002] (RegisterListener 9 (KeyboardDriver_new 1)) = Ret ([(9, 4); (9, 0x205)], mkKeyboard 1 (mkLL [9] 1) b).
Proof.
  destruct (keyboard_reports [0x40000; 0x5040002] (RegisterListener 9 (KeyboardDriver_new 1)) ∅) as [(b & HR & _) _].
  - split; [done|]. intros c Hc. cbn. rewrite Z.bits_0. symmetry. apply bool_decide_eq_false. set_solver.
  - repeat constructor; vm_compute; done.
  - exists b. exact HR.
Defined.
