(* ===== verification/Xhci.v ===== *)
(** * The xHCI driver (sys/voyageurs/xhci)

    Transfer request blocks, the rings they live in, device slots with their
    endpoints, and the handling of the controller's events.  What the driver
    does to the outside (doorbells, semaphores, ports, threads) is a list of
    effects.  The physical addresses of new regions and the contents of a new
    context page are parameters. *)

From Stdlib Require Import ZArith Lia.
From stdpp Require Import base tactics numbers list gmap.
From S2P Require Import Prelude Status Buffer LinkedList Hash HashMap.

(** ** Transfer request blocks (xhci.h, trb.cpp) *)
Record XhciTrb : Type := mkTrb { parameter : Z; trb_status : Z; type_and_cycle : Z; control : Z }.

Definition zero_trb : XhciTrb := mkTrb 0 0 0 0.

(** [TrbType], by its values. *)
Definition TRB_Normal : Z := 1.
Definition TRB_Link : Z := 6.
Definition TRB_EnableSlot : Z := 9.
Definition TRB_AddressDevice : Z := 11.
Definition TRB_ConfigureEndpoint : Z := 12.
Definition TRB_NoOpCommand : Z := 23.
Definition TRB_Transfer : Z := 32.
Definition TRB_CommandCompletion : Z := 33.
Definition TRB_PortStatusChange : Z := 34.

Definition kTrb_Cycle : Z := 1.
Definition kTrb_ToggleCycle : Z := 2.
Definition kTrb_InterruptShortPacket : Z := 4.
Definition kTrb_Interrupt : Z := 32.

Definition TypeToInt (type : Z) : Z := u16 (type * 2 ^ 10).

(** The conversion to the enumeration keeps eight bits. *)
Definition GetType (trb : XhciTrb) : Z := u8 (type_and_cycle trb / 2 ^ 10).

Definition CreateNormalTrb (physical_address size : Z) : XhciTrb :=
  mkTrb physical_address size (Z.lor (Z.lor (Z.lor (TypeToInt TRB_Normal) kTrb_Cycle) kTrb_Interrupt) kTrb_InterruptShortPacket) 0.
Definition CreateLinkTrb (physical_address : Z) : XhciTrb := mkTrb physical_address 0 (Z.lor (TypeToInt TRB_Link) kTrb_ToggleCycle) 0.
Definition CreateEnableSlotTrb : XhciTrb := mkTrb 0 0 (Z.lor (TypeToInt TRB_EnableSlot) kTrb_Cycle) 0.
Definition CreateAddressDeviceCommand (input_context slot_id : Z) : XhciTrb :=
  mkTrb input_context 0 (Z.lor (TypeToInt TRB_AddressDevice) kTrb_Cycle) (u16 (slot_id * 2 ^ 8)).
Definition CreateConfigureEndpointCommand (input_context slot_id : Z) : XhciTrb :=
  mkTrb input_context 0 (Z.lor (TypeToInt TRB_ConfigureEndpoint) kTrb_Cycle) (u16 (slot_id * 2 ^ 8)).
Definition CreateNoOpCommandTrb : XhciTrb := mkTrb 0 0 (Z.lor (TypeToInt TRB_NoOpCommand) kTrb_Cycle) 0.

(** ** Rings (trb_ring.cpp) *)
Definition number_trbs : nat := 256.

Record TrbRing : Type := mkRing { phys_address_ : Z; trb_list_ : list XhciTrb }.

(** A zeroed page whose last entry points back to the first. *)
Definition TrbRing_new (phys : Z) : TrbRing := mkRing phys (replicate (number_trbs - 1) zero_trb ++ [CreateLinkTrb phys]).

Definition GetTrbFromPhysical (address : Z) (r : TrbRing) : res XhciTrb :=
  let offset := address [-] phys_address_ r in
  if 0x1000 <=? offset then Panic else deref (trb_list_ r !! Z.to_nat (offset / 16)).

Record TrbRingWriter : Type := mkWriter { w_ring : TrbRing; enqueue_ptr_ : Z }.
Definition TrbRingWriter_new (phys : Z) : TrbRingWriter := mkWriter (TrbRing_new phys) 0.

Definition EnqueueTrb (trb : XhciTrb) (w : TrbRingWriter) : res (Z * TrbRingWriter) :=
  let ptr := enqueue_ptr_ w in
  let enqueue := ptr [+] 1 in
  if enqueue =? Z.of_nat (length (trb_list_ (w_ring w))) then Panic else
  _ ← deref (trb_list_ (w_ring w) !! Z.to_nat ptr);
  Ret (phys_address_ (w_ring w) [+] ptr [*] 16,
       mkWriter (mkRing (phys_address_ (w_ring w)) (<[Z.to_nat ptr := trb]> (trb_list_ (w_ring w)))) enqueue).

Record TrbRingReader : Type := mkReader { r_ring : TrbRing; dequeue_ptr_ : Z; cycle_bit_ : Z }.
Definition TrbRingReader_new (phys : Z) : TrbRingReader := mkReader (TrbRing_new phys) 0 1.

Definition HasNext (r : TrbRingReader) : res bool :=
  trb ← deref (trb_list_ (r_ring r) !! Z.to_nat (dequeue_ptr_ r));
  Ret (Z.land (type_and_cycle trb) 0x1 =? cycle_bit_ r).

Definition Read (r : TrbRingReader) : res (XhciTrb * TrbRingReader) :=
  trb ← deref (trb_list_ (r_ring r) !! Z.to_nat (dequeue_ptr_ r));
  Ret (trb, mkReader (r_ring r) (dequeue_ptr_ r [+] 1) (cycle_bit_ r)).

(** The index is added to the address, not sixteen times the index. *)
Definition DequeuePtr (r : TrbRingReader) : Z := phys_address_ (r_ring r) [+] dequeue_ptr_ r.

(** ** What the driver does to its surroundings *)
Inductive effect : Type :=
| Doorbell (index value : Z)
| Signal (semaphore : positive)
| PortWrite (port data : Z)
| ConfigureThread (slot : Z)          (* a thread running configure_device *)
| EventRingDequeue (pointer : Z).     (* the interrupter's registers *)

(** ** Contexts, endpoints and device slots *)
Record XhciEndpointContext : Type := mkEpContext { ep_state : Z; error_and_type : Z; tr_dequeue_ptr : Z }.

Record XhciInputContext : Type := mkInput {
  add_contexts : Z;
  configuration_value : Z;
  interface_number : Z;
  route_speed_entries : Z;
  latency_port_number : Z;
  endpoint_contexts : list XhciEndpointContext;
}.

Record Endpoint : Type := mkEndpoint {
  ep_enabled_ : bool;
  trb_ring_ : option TrbRingWriter;
  recv_phys_ : Z;
  offset_ : Z;
  client_ : option Z;
}.
Definition Endpoint_new : Endpoint := mkEndpoint false None 0 0 None.

Record DeviceSlot : Type := mkSlot {
  enabled_ : bool;
  slot_index_ : Z;
  context_phys_ : Z;
  input_context_ : option XhciInputContext;
  control_endpoint_transfer_trb_ : option TrbRingWriter;
  control_completion_sempahores_ : HashMap Z (option positive);
  configure_device_semaphore_ : positive;
  endpoints_ : list Endpoint;
}.

Definition kInputSlotContextOffset : Z := 0x400.

Record XhciDriver : Type := mkDriver {
  command_ring_ : TrbRingWriter;
  event_ring_ : TrbRingReader;
  device_context_base_array_ : list Z;
  devices_ : list DeviceSlot;
  regions : nat;                 (* regions mapped so far *)
  effects : list effect;
}.

Definition with_command_ring (w : TrbRingWriter) (d : XhciDriver) : XhciDriver :=
  mkDriver w (event_ring_ d) (device_context_base_array_ d) (devices_ d) (regions d) (effects d).
Definition with_event_ring (r : TrbRingReader) (d : XhciDriver) : XhciDriver :=
  mkDriver (command_ring_ d) r (device_context_base_array_ d) (devices_ d) (regions d) (effects d).
Definition with_base_array (l : list Z) (d : XhciDriver) : XhciDriver :=
  mkDriver (command_ring_ d) (event_ring_ d) l (devices_ d) (regions d) (effects d).
Definition with_slot (i : nat) (s : DeviceSlot) (d : XhciDriver) : XhciDriver :=
  mkDriver (command_ring_ d) (event_ring_ d) (device_context_base_array_ d) (<[i := s]> (devices_ d)) (regions d) (effects d).
Definition emit (e : effect) (d : XhciDriver) : XhciDriver :=
  mkDriver (command_ring_ d) (event_ring_ d) (device_context_base_array_ d) (devices_ d) (regions d) (effects d ++ [e]).
Definition next_region (d : XhciDriver) : XhciDriver :=
  mkDriver (command_ring_ d) (event_ring_ d) (device_context_base_array_ d) (devices_ d) (S (regions d)) (effects d).

Section driver.
(** The physical address of the n-th contiguous region, and what a new context page holds. *)
Variable contiguous : nat -> Z.
Variable fresh_context : XhciInputContext.

(** *** endpoint.cpp *)
Fixpoint enqueue_normals (n : nat) (recv_phys offset : Z) (w : TrbRingWriter) : res (Z * TrbRingWriter) :=
  match n with
  | O => Ret (offset, w)
  | S n' => '(_, w) ← EnqueueTrb (CreateNormalTrb (recv_phys [+] offset) 8) w; enqueue_normals n' recv_phys (offset [+] 8) w
  end.

(** [Initialize]: the endpoint, its context and the two regions it takes, the first at [n]. *)
Definition Endpoint_Initialize (client : Z) (n : nat) (ctx : XhciEndpointContext) (ep : Endpoint) : res (Endpoint * XhciEndpointContext) :=
  let ring := TrbRingWriter_new (contiguous n) in
  let recv_phys := contiguous (S n) in
  let ctx := mkEpContext (ep_state ctx) (Z.lor (Z.lor (0x3 * 2) (0x7 * 2 ^ 3)) (0x8 * 2 ^ 16)) (Z.lor (contiguous n) 1) in
  '(offset, ring) ← enqueue_normals 10 recv_phys (offset_ ep) ring;
  Ret (mkEndpoint true (Some ring) recv_phys offset (Some client), ctx).

(** [TransferComplete]; [recv_mem] is the receive buffer, as 64-bit words. *)
Definition Endpoint_TransferComplete (recv_mem : list Z) (trb_phys : Z) (ep : Endpoint) : res (effect * Endpoint) :=
  ring ← deref (trb_ring_ ep);
  let phys_offset := (trb_phys [-] phys_address_ (w_ring ring)) / 16 in
  data ← deref (recv_mem !! Z.to_nat phys_offset);
  client ← deref (client_ ep);
  '(_, ring) ← EnqueueTrb (CreateNormalTrb (recv_phys_ ep [+] offset_ ep) 8) ring;
  Ret (PortWrite client data, mkEndpoint (ep_enabled_ ep) (Some ring) (recv_phys_ ep) (offset_ ep [+] 8) (client_ ep)).

(** *** device_slot.cpp *)

(** The element of an [Array] at an int index; a negative one is far outside. *)
Definition slot_at (i : Z) (d : XhciDriver) : res DeviceSlot := if i <? 0 then Fault else deref (devices_ d !! Z.to_nat i).

(** [EnableAndInitializeDataStructures]: takes two regions. *)
Definition EnableAndInitializeDataStructures (slot_index : Z) (d : XhciDriver) : res XhciDriver :=
  s ← slot_at (slot_index - 1) d;
  _ ← deref (device_context_base_array_ d !! Z.to_nat slot_index);
  let context_phys := contiguous (regions d) in
  let ring := TrbRingWriter_new (contiguous (S (regions d))) in
  let s := mkSlot true slot_index context_phys (Some fresh_context) (Some ring) (control_completion_sempahores_ s) (configure_device_semaphore_ s) (endpoints_ s) in
  Ret (next_region (next_region (with_base_array (<[Z.to_nat slot_index := context_phys]> (device_context_base_array_ d)) (with_slot (Z.to_nat (slot_index - 1)) s d)))).

(** [DeviceSlot::State]: the answer is only printed, but it is read from the context page, which only a set-up slot has. *)
Definition Slot_State (s : DeviceSlot) : res unit := _ ← deref (input_context_ s); Ret tt.

(** [DeviceSlot::CreateAddressDeviceCommand] *)
Definition Slot_CreateAddressDeviceCommand (root_port route_string max_packet_size : Z) (s : DeviceSlot) : res (XhciTrb * DeviceSlot) :=
  inp ← deref (input_context_ s);
  _ ← deref (endpoint_contexts inp !! 0%nat);
  ring ← deref (control_endpoint_transfer_trb_ s);
  let ctx := mkEpContext 0 (u32 (Z.lor (Z.lor (0x3 * 2) (0x4 * 2 ^ 3)) (max_packet_size * 2 ^ 16))) (Z.lor (phys_address_ (w_ring ring)) 0x1) in
  let inp := mkInput 0x3 (configuration_value inp) (interface_number inp) (Z.lor (2 ^ 27) route_string) (root_port * 2 ^ 16) (<[0%nat := ctx]> (endpoint_contexts inp)) in
  let s := mkSlot (enabled_ s) (slot_index_ s) (context_phys_ s) (Some inp) (Some ring) (control_completion_sempahores_ s) (configure_device_semaphore_ s)
             (replicate 32 Endpoint_new) in
  Ret (CreateAddressDeviceCommand (context_phys_ s [+] kInputSlotContextOffset) (slot_index_ s), s).

Definition Slot_TransferComplete (recv_mem : list Z) (endpoint_index trb_phys : Z) (s : DeviceSlot) : res (list effect * DeviceSlot) :=
  let put eps sems := mkSlot (enabled_ s) (slot_index_ s) (context_phys_ s) (input_context_ s) (control_endpoint_transfer_trb_ s) sems (configure_device_semaphore_ s) eps in
  if 32 <=? endpoint_index then Ret ([], s) else
  if negb (endpoint_index =? 1) then
    ep ← deref (endpoints_ s !! Z.to_nat endpoint_index);
    if negb (ep_enabled_ ep) then Ret ([], s) else
    '(e, ep) ← Endpoint_TransferComplete recv_mem trb_phys ep;
    Ret ([e], put (<[Z.to_nat endpoint_index := ep]> (endpoints_ s)) (control_completion_sempahores_ s))
  else
  known ← Contains trb_phys (control_completion_sempahores_ s);
  if negb known then Ret ([], s) else
  '(sem, m) ← at_ None trb_phys (control_completion_sempahores_ s);
  sem ← deref sem;
  '(err, m) ← Delete trb_phys m;
  if decide (err = OK) then Ret ([Signal sem], put (endpoints_ s) m) else Panic.

(** *** control_command.h *)
Definition SetupTrb (request_type request value : Z) : XhciTrb :=
  mkTrb (Z.lor (Z.lor (Z.lor request_type (request * 2 ^ 8)) (value * 2 ^ 16)) (0x1000 * 2 ^ 48)) 8 (1 + 2 ^ 5 + 2 ^ 6 + 2 * 2 ^ 10) 3.
Definition DataTrb (output_phys : Z) : XhciTrb := mkTrb output_phys 0x1000 (1 + 2 ^ 5 + 3 * 2 ^ 10) 1.
Definition StatusTrb : XhciTrb := mkTrb 0 0 (1 + 2 ^ 5 + 4 * 2 ^ 10) 0.

(** [ExecuteReadControlCommand] for a command with its output region and semaphore. *)
Definition ExecuteReadControlCommand (request_type request value output_phys : Z) (sem : positive) (s : DeviceSlot) : res (list effect * DeviceSlot) :=
  ring ← deref (control_endpoint_transfer_trb_ s);
  '(_, ring) ← EnqueueTrb (SetupTrb request_type request value) ring;
  '(_, ring) ← EnqueueTrb (DataTrb output_phys) ring;
  '(last_phys, ring) ← EnqueueTrb StatusTrb ring;
  '(err, m) ← Insert last_phys (Some sem) (control_completion_sempahores_ s);
  if decide (err = OK) then
    Ret ([Doorbell (slot_index_ s) 1],
         mkSlot (enabled_ s) (slot_index_ s) (context_phys_ s) (input_context_ s) (Some ring) m (configure_device_semaphore_ s) (endpoints_ s))
  else Panic.

(** *** xhci_driver.cpp *)
Definition IssueCommand (command : XhciTrb) (d : XhciDriver) : res XhciDriver :=
  '(_, w) ← EnqueueTrb command (command_ring_ d);
  Ret (emit (Doorbell 0 0) (with_command_ring w d)).

Definition NoOpCommand (d : XhciDriver) : res XhciDriver := IssueCommand CreateNoOpCommandTrb d.

(** [DeviceSlot::IssueConfigureDeviceCommand] on slot [slot]; the semaphore to wait for is the slot's. *)
Definition IssueConfigureDeviceCommand (slot config_value client : Z) (d : XhciDriver) : res (positive * XhciDriver) :=
  s ← slot_at (slot - 1) d;
  inp ← deref (input_context_ s);
  let route := Z.lor (Z.land (route_speed_entries inp) 0xFFFFFF) (0x3 * 2 ^ 27) in
  ep ← deref (endpoints_ s !! 3%nat);
  ctx ← deref (endpoint_contexts inp !! 2%nat);
  '(ep, ctx) ← Endpoint_Initialize client (regions d) ctx ep;
  let inp := mkInput (0x1 * 2 ^ 3 + 0x1) config_value 0 route (latency_port_number inp) (<[2%nat := ctx]> (endpoint_contexts inp)) in
  let s := mkSlot (enabled_ s) (slot_index_ s) (context_phys_ s) (Some inp) (control_endpoint_transfer_trb_ s) (control_completion_sempahores_ s)
             (configure_device_semaphore_ s) (<[3%nat := ep]> (endpoints_ s)) in
  d ← IssueCommand (CreateConfigureEndpointCommand (context_phys_ s [+] kInputSlotContextOffset) (slot_index_ s))
        (next_region (next_region (with_slot (Z.to_nat (slot - 1)) s d)));
  Ret (configure_device_semaphore_ s, d).

(** The port's speed is read but not used. *)
Definition InitializeSlot (slot_index : Z) (d : XhciDriver) : res XhciDriver :=
  d ← EnableAndInitializeDataStructures slot_index d;
  s ← slot_at (slot_index - 1) d;
  '(address_device, s) ← Slot_CreateAddressDeviceCommand 0x5 0 8 s;
  IssueCommand address_device (with_slot (Z.to_nat (slot_index - 1)) s d).

Definition HandleCommandCompletion (trb : XhciTrb) (d : XhciDriver) : res XhciDriver :=
  if negb (u8 (trb_status trb / 2 ^ 24) =? 1) then Panic else
  orig_trb ← GetTrbFromPhysical (parameter trb) (w_ring (command_ring_ d));
  let slot := u8 (control trb / 2 ^ 8) in
  let type := GetType orig_trb in
  if type =? TRB_EnableSlot then InitializeSlot slot d
  else if type =? TRB_AddressDevice then s ← slot_at (slot - 1) d; _ ← Slot_State s; Ret (emit (ConfigureThread slot) d)
  else if type =? TRB_ConfigureEndpoint then s ← slot_at (slot - 1) d; _ ← Slot_State s; Ret (emit (Signal (configure_device_semaphore_ s)) d)
  else Ret d.

Definition HandleTransferCompletion (recv_mem : list Z) (trb : XhciTrb) (d : XhciDriver) : res XhciDriver :=
  let status := u8 (trb_status trb / 2 ^ 24) in
  if negb (status =? 1) && negb (status =? 0xD) then Ret d else
  let slot_id := u8 (control trb / 2 ^ 8) in
  let endpoint_id := Z.land (control trb) 0x1F in
  s ← slot_at (slot_id - 1) d;
  '(es, s) ← Slot_TransferComplete recv_mem endpoint_id (parameter trb) s;
  Ret (foldl (fun d e => emit e d) (with_slot (Z.to_nat (slot_id - 1)) s d) es).

(** The switch of [InterruptLoop]. *)
Definition handle_event (recv_mem : list Z) (trb : XhciTrb) (d : XhciDriver) : res XhciDriver :=
  let type := GetType trb in
  if type =? TRB_Transfer then HandleTransferCompletion recv_mem trb d
  else if type =? TRB_CommandCompletion then HandleCommandCompletion trb d
  else if type =? TRB_PortStatusChange then IssueCommand CreateEnableSlotTrb d
  else Ret d.

(** [while (event_ring_.HasNext())]; every turn moves on in the ring. *)
Fixpoint event_loop (fuel : nat) (recv_mem : list Z) (d : XhciDriver) : res XhciDriver :=
  more ← HasNext (event_ring_ d);
  if negb more then Ret d else
  match fuel with
  | O => NoFuel
  | S fuel' =>
      '(trb, r) ← Read (event_ring_ d);
      d ← handle_event recv_mem trb (with_event_ring r d);
      event_loop fuel' recv_mem d
  end.

(** A turn of the outer loop, once the interrupter is pending. *)
Definition InterruptTurn (recv_mem : list Z) (d : XhciDriver) : res XhciDriver :=
  d ← event_loop number_trbs recv_mem d;
  Ret (emit (EventRingDequeue (Z.lor (DequeuePtr (event_ring_ d)) 0x8)) d).
End driver.

(** *** The walk over the descriptors in [configure_device] *)

(** Endpoint descriptors of an interface: those of another type are stepped over without being counted. *)
Fixpoint endpoint_loop (fuel : nat) (j next : Z) (mem : list Z) : res Z :=
  if j <=? 0 then Ret next else
  match fuel with
  | O => NoFuel
  | S fuel' =>
      type ← deref (mem !! Z.to_nat (next + 1));
      length ← deref (mem !! Z.to_nat next);
      endpoint_loop fuel' (if type =? 5 then j - 1 else j) (next + length) mem
  end.

Fixpoint interface_loop (n : nat) (next : Z) (mem : list Z) : res Z :=
  match n with
  | O => Ret next
  | S n' =>
      num_endpoints ← deref (mem !! Z.to_nat (next + 4));
      length ← deref (mem !! Z.to_nat next);
      next ← endpoint_loop (List.length mem + 256) num_endpoints (next + length) mem;
      interface_loop n' next mem
  end.

(** ** Rings *)

(** The ring after the commands [cs] were entered. *)
Record ring_is (w : TrbRingWriter) (cs : list XhciTrb) : Prop := {
  ri_room : (length cs <= 254)%nat;
  ri_ptr : enqueue_ptr_ w = Z.of_nat (length cs);
  ri_list : exists rest, trb_list_ (w_ring w) = cs ++ rest /\ length (trb_list_ (w_ring w)) = number_trbs;
  ri_phys : 0 <= phys_address_ (w_ring w) /\ phys_address_ (w_ring w) + 0x1000 <= 2 ^ 64;
}.

Lemma new_ring_is phys : 0 <= phys -> phys + 0x1000 <= 2 ^ 64 -> ring_is (TrbRingWriter_new phys) [].
Proof. intros H1 H2. split; [cbn; lia|done|by eexists|done]. Qed.

(** Entering a command: it gets the next address; the 256th stops the driver. *)
Lemma EnqueueTrb_spec w cs c :
  ring_is w cs ->
  if decide (length cs < 254)%nat then
    exists w', EnqueueTrb c w = Ret (phys_address_ (w_ring w) + 16 * Z.of_nat (length cs), w') /\ ring_is w' (cs ++ [c]) /\
      phys_address_ (w_ring w') = phys_address_ (w_ring w)
  else exists w', EnqueueTrb c w = Ret (phys_address_ (w_ring w) + 16 * Z.of_nat (length cs), w') /\
      forall c', EnqueueTrb c' w' = Panic.
Proof.
  intros [Hr Hp (rest & Hl & Hn) Hph]. unfold EnqueueTrb. rewrite Hp, Hn. unfold number_trbs. rewrite u64_small by lia.
  destruct (Z.eqb_spec (Z.of_nat (length cs) + 1) (Z.of_nat 256)); [lia|]. rewrite Nat2Z.id.
  assert (exists x rest', rest = x :: rest') as (x & rest' & ->) by (destruct rest; [rewrite Hl, app_nil_r in Hn; unfold number_trbs in Hn; lia|eauto]).
  rewrite Hl, list_lookup_middle by done. cbn [deref mbind res_bind]. rewrite (u64_small (_ * 16)), u64_small by lia.
  replace (Z.of_nat (length cs) * 16) with (16 * Z.of_nat (length cs)) by lia. assert (<[length cs := c]> (cs ++ x :: rest') = cs ++ c :: rest') as -> by (rewrite insert_app_r_alt by done; by rewrite Nat.sub_diag).
  case_decide; eexists; (split; [done|]).
  - split; [|done]. split; [rewrite length_app; cbn; lia|cbn; rewrite length_app; cbn; lia| |done].
    exists rest'. cbn [w_ring trb_list_]. rewrite <- app_assoc. split; [done|]. rewrite Hl in Hn. rewrite length_app in *. cbn in *. lia.
  - intros c'. cbn [w_ring trb_list_ enqueue_ptr_]. rewrite Hl, length_app in Hn. cbn in Hn.
    assert (length (cs ++ c :: rest') = 256%nat) as -> by (rewrite length_app; cbn; unfold number_trbs in Hn; lia).
    rewrite u64_small by lia. by rewrite (proj2 (Z.eqb_eq _ _)) by lia.
Qed.

(** The address of a command finds it again. *)
Lemma GetTrb_spec w cs i c :
  ring_is w cs -> cs !! i = Some c -> GetTrbFromPhysical (phys_address_ (w_ring w) + 16 * Z.of_nat i) (w_ring w) = Ret c.
Proof.
  intros [Hr Hp (rest & Hl & Hn) Hph] Hc. pose proof (lookup_lt_Some _ _ _ Hc). unfold GetTrbFromPhysical. rewrite u64_small by lia.
  replace (phys_address_ (w_ring w) + 16 * Z.of_nat i - phys_address_ (w_ring w)) with (Z.of_nat i * 16) by lia.
  destruct (Z.leb_spec 0x1000 (Z.of_nat i * 16)); [lia|]. rewrite Z.div_mul, Nat2Z.id, Hl, lookup_app_l, Hc by lia. done.
Qed.

(** ** Commands and their completions *)
Section commands.
Context (contiguous : nat -> Z) (fresh_context : XhciInputContext).
Implicit Types (d : XhciDriver) (cs : list XhciTrb).

(** The controller's event that the [i]-th command of the ring succeeded for [slot]. *)
Record completes (trb : XhciTrb) d (i : nat) (slot : Z) : Prop := {
  cp_type : GetType trb = TRB_CommandCompletion;
  cp_status : u8 (trb_status trb / 2 ^ 24) = 1;
  cp_slot : u8 (control trb / 2 ^ 8) = slot;
  cp_command : parameter trb = phys_address_ (w_ring (command_ring_ d)) + 16 * Z.of_nat i;
}.

Lemma IssueCommand_enters d cs c :
  ring_is (command_ring_ d) cs -> (length cs < 254)%nat ->
  exists w, IssueCommand c d = Ret (emit (Doorbell 0 0) (with_command_ring w d)) /\ ring_is w (cs ++ [c]) /\
    phys_address_ (w_ring w) = phys_address_ (w_ring (command_ring_ d)).
Proof.
  intros Hr Hl. unfold IssueCommand. pose proof (EnqueueTrb_spec _ _ c Hr) as HE. rewrite decide_True in HE by done.
  destruct HE as (w & -> & Hw & Hp). by exists w.
Qed.

Lemma handle_completion mem trb d cs i c slot :
  ring_is (command_ring_ d) cs -> cs !! i = Some c -> completes trb d i slot ->
  handle_event contiguous fresh_context mem trb d =
    (if GetType c =? TRB_EnableSlot then InitializeSlot contiguous fresh_context slot d
     else if GetType c =? TRB_AddressDevice then s ← slot_at (slot - 1) d; _ ← Slot_State s; Ret (emit (ConfigureThread slot) d)
     else if GetType c =? TRB_ConfigureEndpoint then s ← slot_at (slot - 1) d; _ ← Slot_State s; Ret (emit (Signal (configure_device_semaphore_ s)) d)
     else Ret d).
Proof.
  intros Hr Hc [Ht Hs Hsl Hp]. unfold handle_event. rewrite Ht. cbn [Z.eqb TRB_CommandCompletion TRB_Transfer Pos.eqb].
  unfold HandleCommandCompletion. rewrite Hs, Hp, (GetTrb_spec _ _ _ _ Hr Hc), Hsl. done.
Qed.

(** A slot of the controller. *)
Definition slot_known d (slot : Z) (s : DeviceSlot) : Prop :=
  1 <= slot <= 255 /\ devices_ d !! Z.to_nat (slot - 1) = Some s /\ length (device_context_base_array_ d) = 512%nat.

Lemma slot_at_spec d slot s : slot_known d slot s -> slot_at (slot - 1) d = Ret s.
Proof. intros (Hr & Hs & _). unfold slot_at. destruct (Z.ltb_spec (slot - 1) 0); [lia|]. by rewrite Hs. Qed.

(** The slot after it was initialised and its address command issued. *)
Record slot_started d d' (slot : Z) : Prop := {
  ss_slot : exists s, devices_ d' = <[Z.to_nat (slot - 1) := s]> (devices_ d) /\ enabled_ s = true /\ slot_index_ s = slot /\
    context_phys_ s = contiguous (regions d) /\ length (endpoints_ s) = 32%nat /\
    exists inp, input_context_ s = Some inp /\ add_contexts inp = 0x3 /\
      tr_dequeue_ptr <$> endpoint_contexts inp !! 0%nat = Some (Z.lor (contiguous (S (regions d))) 0x1);
  ss_base : device_context_base_array_ d' = <[Z.to_nat slot := contiguous (regions d)]> (device_context_base_array_ d);
  ss_effects : effects d' = effects d ++ [Doorbell 0 0];
}.

Lemma InitializeSlot_spec d cs slot s ctx rest :
  ring_is (command_ring_ d) cs -> (length cs < 254)%nat -> slot_known d slot s -> endpoint_contexts fresh_context = ctx :: rest ->
  exists d', InitializeSlot contiguous fresh_context slot d = Ret d' /\ slot_started d d' slot /\
    ring_is (command_ring_ d') (cs ++ [CreateAddressDeviceCommand (contiguous (regions d) [+] kInputSlotContextOffset) slot]) /\
    phys_address_ (w_ring (command_ring_ d')) = phys_address_ (w_ring (command_ring_ d)).
Proof.
  intros Hr Hl Hs Hctx. unfold InitializeSlot, EnableAndInitializeDataStructures. rewrite (slot_at_spec d slot s Hs). destruct Hs as (Hsl & Hs & Hb).
  destruct (lookup_lt_is_Some_2 (device_context_base_array_ d) (Z.to_nat slot)) as [b Hbb]; [lia|]. cbn [mbind res_bind]. rewrite Hbb. cbn [deref mbind res_bind].
  set (s1 := mkSlot true slot _ _ _ _ _ _). set (d1 := next_region _).
  assert (devices_ d1 !! Z.to_nat (slot - 1) = Some s1) as Hs1 by (cbn; apply list_lookup_insert_eq; by eapply lookup_lt_Some).
  unfold slot_at. destruct (Z.ltb_spec (slot - 1) 0); [lia|]. rewrite Hs1. cbn [deref mbind res_bind].
  unfold Slot_CreateAddressDeviceCommand. cbn [input_context_ s1 deref mbind res_bind]. rewrite Hctx. cbn [lookup list_lookup deref mbind res_bind control_endpoint_transfer_trb_ s1].
  set (s2 := mkSlot _ _ _ _ _ _ _ _). destruct (IssueCommand_enters (with_slot (Z.to_nat (slot - 1)) s2 d1) cs
    (CreateAddressDeviceCommand (contiguous (regions d) [+] kInputSlotContextOffset) slot) Hr Hl) as (w & HI & Hw & Hp).
  eexists. split; [exact HI|]. split; [|by split]. split; [|done|done].
  exists s2. split; [cbn; by rewrite list_insert_insert_eq|]. split_and!; try done. eexists. split_and!; [done|done|]. done.
Qed.

(** C26.  Enumerating a device: a port change makes the driver issue an EnableSlot command, and when a command completes,
    however many commands were issued since, the driver does what that command asks for next: for EnableSlot it sets the
    slot up, enters its context page and issues AddressDevice for it, for AddressDevice it starts the configuration thread
    of that slot, and for ConfigureEndpoint it signals the slot's semaphore. *)
Theorem xhci_enumeration mem trb d cs i slot s ctx rest :
  ring_is (command_ring_ d) cs -> (length cs < 254)%nat -> slot_known d slot s -> endpoint_contexts fresh_context = ctx :: rest ->
  (GetType trb = TRB_PortStatusChange ->
     exists w, handle_event contiguous fresh_context mem trb d = Ret (emit (Doorbell 0 0) (with_command_ring w d)) /\ ring_is w (cs ++ [CreateEnableSlotTrb])) /\
  (completes trb d i slot -> cs !! i = Some CreateEnableSlotTrb ->
     exists d', handle_event contiguous fresh_context mem trb d = Ret d' /\ slot_started d d' slot /\
       ring_is (command_ring_ d') (cs ++ [CreateAddressDeviceCommand (contiguous (regions d) [+] kInputSlotContextOffset) slot])) /\
  (forall input n, is_Some (input_context_ s) -> completes trb d i slot -> cs !! i = Some (CreateAddressDeviceCommand input n) ->
     handle_event contiguous fresh_context mem trb d = Ret (emit (ConfigureThread slot) d)) /\
  (forall input n, is_Some (input_context_ s) -> completes trb d i slot -> cs !! i = Some (CreateConfigureEndpointCommand input n) ->
     handle_event contiguous fresh_context mem trb d = Ret (emit (Signal (configure_device_semaphore_ s)) d)).
Proof.
  intros Hr Hl Hs Hctx. split_and!.
  - intros Ht. unfold handle_event. rewrite Ht. destruct (IssueCommand_enters d cs CreateEnableSlotTrb Hr Hl) as (w & HI & Hw & _). by exists w.
  - intros Hc Hi. rewrite (handle_completion mem trb d cs i _ slot Hr Hi Hc). change (GetType CreateEnableSlotTrb =? TRB_EnableSlot) with true. cbv iota.
    destruct (InitializeSlot_spec d cs slot s ctx rest Hr Hl Hs Hctx) as (d' & HI & Hst & Hw & _). by exists d'.
  - intros input n [inp Hin] Hc Hi. rewrite (handle_completion mem trb d cs i _ slot Hr Hi Hc). change (GetType (CreateAddressDeviceCommand input n)) with TRB_AddressDevice.
    cbn [Z.eqb Pos.eqb TRB_AddressDevice TRB_EnableSlot]. rewrite (slot_at_spec d slot s Hs). unfold Slot_State. cbn [mbind res_bind]. by rewrite Hin.
  - intros input n [inp Hin] Hc Hi. rewrite (handle_completion mem trb d cs i _ slot Hr Hi Hc). change (GetType (CreateConfigureEndpointCommand input n)) with TRB_ConfigureEndpoint.
    cbn [Z.eqb Pos.eqb TRB_AddressDevice TRB_EnableSlot TRB_ConfigureEndpoint]. rewrite (slot_at_spec d slot s Hs). unfold Slot_State. cbn [mbind res_bind]. by rewrite Hin.
Qed.
End commands.

(** ** Control transfers *)

(** The semaphore of a control command is signalled by the completion of its last block, once, and by no other block. *)
Lemma control_transfer_signals s w cs rt r v out sem mem :
  control_endpoint_transfer_trb_ s = Some w -> ring_is w cs -> (length cs < 252)%nat ->
  hm_wf (control_completion_sempahores_ s) -> hm_size (control_completion_sempahores_ s) < 2 ^ 56 - 1 ->
  let last := phys_address_ (w_ring w) + 16 * Z.of_nat (length cs + 2) in
  hm_model (control_completion_sempahores_ s) !! last = None ->
  exists s', ExecuteReadControlCommand rt r v out sem s = Ret ([Doorbell (slot_index_ s) 1], s') /\
    (exists s'', Slot_TransferComplete mem 1 last s' = Ret ([Signal sem], s'') /\ Slot_TransferComplete mem 1 last s'' = Ret ([], s'')) /\
    forall a, a <> last -> hm_model (control_completion_sempahores_ s) !! a = None -> Slot_TransferComplete mem 1 a s' = Ret ([], s').
Proof.
  intros Hw Hr Hl Hwf Hsz last Hnone. unfold ExecuteReadControlCommand. rewrite Hw. cbn [deref mbind res_bind].
  pose proof (EnqueueTrb_spec w cs (SetupTrb rt r v) Hr) as H1. rewrite decide_True in H1 by lia. destruct H1 as (w1 & -> & Hr1 & Hp1). cbn [mbind res_bind].
  pose proof (EnqueueTrb_spec w1 _ (DataTrb out) Hr1) as H2. rewrite length_app in H2. cbn in H2. rewrite decide_True in H2 by lia. destruct H2 as (w2 & -> & Hr2 & Hp2).
  cbn [mbind res_bind]. pose proof (EnqueueTrb_spec w2 _ StatusTrb Hr2) as H3. rewrite !length_app in H3. cbn in H3. rewrite decide_True in H3 by lia.
  destruct H3 as (w3 & -> & Hr3 & Hp3). cbn [mbind res_bind]. rewrite Hp2, Hp1. replace (length cs + 1 + 1)%nat with (length cs + 2)%nat by lia. fold last.
  destruct (Insert_spec _ last (Some sem) Hwf Hsz) as (m & Hm & HI & Hd). rewrite Hnone in HI. destruct HI as [HI Hmod]. rewrite HI. cbn [mbind res_bind].
  rewrite decide_True by done. eexists. split; [done|]. unfold Slot_TransferComplete.
  destruct (Delete_spec m last Hm Hd) as (m' & Hm' & Hmod' & Hd' & HD). rewrite Hmod, lookup_insert_eq in HD. rewrite decide_True in HD by (by eexists).
  cbn [control_completion_sempahores_ Z.leb Z.eqb Pos.eqb Pos.compare Pos.compare_cont Z.compare negb]. split.
  - eexists. rewrite Contains_spec, Hmod, lookup_insert_eq by done. rewrite bool_decide_true by (by eexists). cbn [negb mbind res_bind].
    rewrite (at_spec _ None last (Some sem)) by (done || by rewrite Hmod, lookup_insert_eq). cbn [mbind res_bind deref]. rewrite HD. cbn [mbind res_bind].
    rewrite decide_True by done. split; [done|]. cbn [control_completion_sempahores_]. rewrite Contains_spec, Hmod', lookup_delete_eq by done. done.
  - intros a Ha Hna. rewrite Contains_spec, Hmod, lookup_insert_ne, Hna by done. done.
Qed.

(** The reader never wraps: after the last entry it looks outside of the ring. *)
Lemma event_ring_overruns r : length (trb_list_ (r_ring r)) = number_trbs -> dequeue_ptr_ r = 256 -> HasNext r = Fault.
Proof. intros Hl Hd. unfold HasNext. rewrite Hd, lookup_ge_None_2; [done|]. rewrite Hl. unfold number_trbs. lia. Qed.

(** A descriptor of length zero is stepped over forever. *)
Lemma endpoint_loop_stuck mem j next t :
  0 < j -> mem !! Z.to_nat next = Some 0 -> mem !! Z.to_nat (next + 1) = Some t -> t <> 5 -> forall fuel, endpoint_loop fuel j next mem = NoFuel.
Proof.
  intros Hj Hl Ht Hne. induction fuel as [|fuel IH]; cbn [endpoint_loop]; (destruct (Z.leb_spec j 0); [lia|]); [done|].
  rewrite Ht, Hl. cbn [deref mbind res_bind]. rewrite (proj2 (Z.eqb_neq _ _) Hne), Z.add_0_r. exact IH.
Qed.

(** *** Witness: the first command of a new driver, for slot 2 of four *)
Definition empty_slot : DeviceSlot := mkSlot false 0 0 None None hm_new 1 [].
Definition blank_context : XhciInputContext := mkInput 0 0 0 0 0 (replicate 31 (mkEpContext 0 0 0)).
Definition demo_pages (n : nat) : Z := 0x100000 + 0x1000 * Z.of_nat n.
Definition demo_driver : XhciDriver :=
  match EnqueueTrb CreateEnableSlotTrb (TrbRingWriter_new 0x80000) with
  | Ret (_, w) => mkDriver w (TrbRingReader_new 0x81000) (replicate 512 0) (replicate 4 empty_slot) 0 []
  | _ => mkDriver (TrbRingWriter_new 0x80000) (TrbRingReader_new 0x81000) [] [] 0 []
  end.
Definition demo_completion : XhciTrb := mkTrb 0x80000 (2 ^ 24) (TypeToInt TRB_CommandCompletion + 1) 0x200.

Lemma demo_ring : ring_is (command_ring_ demo_driver) [CreateEnableSlotTrb].
Proof.
  destruct (EnqueueTrb_spec (TrbRingWriter_new 0x80000) [] CreateEnableSlotTrb (new_ring_is 0x80000 ltac:(lia) ltac:(lia))) as (w & HE & Hw & _).
  unfold demo_driver. rewrite HE. exact Hw.
Qed.

Lemma xhci_enumeration_witness :
  exists d', handle_event demo_pages blank_context [] demo_completion demo_driver = Ret d' /\
    device_context_base_array_ d' !! 2%nat = Some 0x100000 /\ effects d' = [Doorbell 0 0].
Proof.
  destruct (xhci_enumeration demo_pages blank_context [] demo_completion demo_driver [CreateEnableSlotTrb] 0 2 empty_slot (mkEpContext 0 0 0)
    (replicate 30 (mkEpContext 0 0 0)) demo_ring) as (_ & HE & _).
  - cbn. lia.
  - split_and!; [lia|lia|by vm_compute|by vm_compute].
  - done.
  - destruct HE as (d' & HH & Hst & _); [split; by vm_compute|done|]. exists d'. split; [exact HH|]. split.
    + rewrite (ss_base _ _ _ _ Hst). by vm_compute.
    + rewrite (ss_effects _ _ _ _ Hst). by vm_compute.
Defined.
