(* ===== verification/RefPtr.v ===== *)
(** * Smart pointers (lib/glacier/memory)

    [RefPtr] over intrusively counted objects, [SharedPtr] with its counter
    cell, and [UniquePtr].  A program is a store of counted objects and a store
    of pointer variables: the local ones and the members of the objects.  The
    destructor of an object destroys its members, which may delete further
    objects.  The main theorem is about every sequence of operations: no
    pointer dangles, nothing is deleted twice, and an object lives exactly as
    long as a pointer refers to it. *)

From Stdlib Require Import ZArith Lia.
From stdpp Require Import base tactics numbers list gmap sets fin_maps.
From S2P Require Import Prelude.

Notation loc := positive (only parsing).

(** A pointer variable: a local one, or a member of an object. *)
Inductive var : Type := Local (x : positive) | Member (l : loc) (i : nat).

#[export] Instance var_eq_dec : EqDecision var.
Proof. solve_decision. Defined.
#[export] Instance var_countable : Countable var.
Proof.
  refine (inj_countable' (fun v => match v with Local x => inl x | Member l i => inr (l, i) end)
            (fun p => match p with inl x => Local x | inr (l, i) => Member l i end) _). by intros [].
Defined.

(** ** RefCounted and RefPtr *)

(** A counted object: [ref_count_] and the number of its members that are pointers. *)
Record RefCounted : Type := mkRC { ref_count_ : Z; members : nat }.

(** The objects that are allocated, and the variables in scope with their [ptr_]. *)
Record rstate : Type := mkRS { objects : gmap loc RefCounted; vars : gmap var (option loc) }.

Implicit Types (s : rstate) (v w : var) (l : loc) (p : option loc).

Definition with_var v p s : rstate := mkRS (objects s) (<[v := p]> (vars s)).
Definition without_var v s : rstate := mkRS (objects s) (delete v (vars s)).
Definition with_object l (o : RefCounted) s : rstate := mkRS (<[l := o]> (objects s)) (vars s).
Definition without_object l s : rstate := mkRS (delete l (objects s)) (vars s).

Definition AcquirePtr l s : res rstate :=
  o ← deref (objects s !! l);
  Ret (with_object l (mkRC (ref_count_ o [+] 1) (members o)) s).

Definition ReleasePtr l s : res (bool * rstate) :=
  o ← deref (objects s !! l);
  let n := ref_count_ o [-] 1 in
  Ret (n =? 0, with_object l (mkRC n (members o)) s).

(** The members of an object, in the order in which its destructor destroys them: the last one first. *)
Definition member_vars l (n : nat) : list var := Member l <$> reverse (seq 0 n).

(** The destructors of the variables [work], one after the other.  [delete ptr_] runs the destructors of the members
    before the next variable's; the storage is given up first here, so that an access to it in between would fault. *)
Fixpoint destroy (fuel : nat) (work : list var) s : res rstate :=
  match work with
  | [] => Ret s
  | v :: work =>
      match fuel with
      | O => NoFuel
      | S fuel' =>
          p ← deref (vars s !! v);
          let s := without_var v s in
          match p with
          | None => destroy fuel' work s
          | Some l =>
              '(zero, s) ← ReleasePtr l s;
              if (zero : bool) then
                o ← deref (objects s !! l);
                destroy fuel' (member_vars l (members o) ++ work) (without_object l s)
              else destroy fuel' work s
          end
      end
  end.

(** [delete old] in an assignment: the destructors of the members. *)
Definition delete_object l s : res rstate :=
  o ← deref (objects s !! l);
  destroy (S (size (vars s))) (member_vars l (members o)) (without_object l s).

Definition RefPtr_destroy v s : res rstate := destroy (S (size (vars s))) [v] s.

Definition RefPtr_null v s : res rstate := Ret (with_var v None s).

Definition RefPtr_copy v w s : res rstate :=
  p ← deref (vars s !! w);
  let s := with_var v p s in
  match p with Some l => AcquirePtr l s | None => Ret s end.

Definition RefPtr_move v w s : res rstate :=
  p ← deref (vars s !! w);
  Ret (with_var w None (with_var v p s)).

Definition RefPtr_assign v w s : res rstate :=
  old ← deref (vars s !! v);
  p ← deref (vars s !! w);
  let s := with_var v p s in
  s ← match p with Some l => AcquirePtr l s | None => Ret s end;
  match old with
  | None => Ret s
  | Some l =>
      '(zero, s) ← ReleasePtr l s;
      if (zero : bool) then delete_object l s else Ret s
  end.

(** The move assignment swaps. *)
Definition RefPtr_move_assign v w s : res rstate :=
  ptr ← deref (vars s !! v);
  p ← deref (vars s !! w);
  Ret (with_var w ptr (with_var v p s)).

(** The constructor from a plain pointer, which does not look whether it is null. *)
Definition RefPtr_dont_adopt v p s : res rstate :=
  l ← deref p;
  AcquirePtr l (with_var v (Some l) s).

Definition StaticCastRefPtr v w s : res rstate :=
  p ← deref (vars s !! w);
  RefPtr_dont_adopt v p s.

(** [AdoptPtr(new T(...))]: the allocator returns [l], the members start as null pointers. *)
Definition MakeRefCounted v l (n : nat) s : res rstate :=
  let s := foldr (fun w => with_var w None) s (member_vars l n) in
  Ret (with_var v (Some l) (with_object l (mkRC 1 n) s)).

Definition get v s : res (option loc) := deref (vars s !! v).

(** ** Programs *)
Inductive op : Type :=
| OMake (x : positive) (l : loc) (n : nat)
| ONull (x : positive)
| OCopy (x : positive) (w : var)
| OMove (x : positive) (w : var)
| OCast (x : positive) (w : var)
| OAssign (v w : var)
| OMoveAssign (v w : var)
| OScopeEnd (x : positive).

Definition step (o : op) s : res rstate :=
  match o with
  | OMake x l n => MakeRefCounted (Local x) l n s
  | ONull x => RefPtr_null (Local x) s
  | OCopy x w => RefPtr_copy (Local x) w s
  | OMove x w => RefPtr_move (Local x) w s
  | OCast x w => StaticCastRefPtr (Local x) w s
  | OAssign v w => RefPtr_assign v w s
  | OMoveAssign v w => RefPtr_move_assign v w s
  | OScopeEnd x => RefPtr_destroy (Local x) s
  end.

Definition in_scope v s : Prop := is_Some (vars s !! v).

(** A program names variables that are in scope, declares new ones under new names, and gets unused storage from
    [new]; a static cast is applied to a pointer that is not null. *)
Definition op_ok s (o : op) : Prop :=
  match o with
  | OMake x l n => ~ in_scope (Local x) s /\ objects s !! l = None
  | ONull x => ~ in_scope (Local x) s
  | OCopy x w | OMove x w => ~ in_scope (Local x) s /\ in_scope w s
  | OCast x w => ~ in_scope (Local x) s /\ exists l, vars s !! w = Some (Some l)
  | OAssign v w | OMoveAssign v w => in_scope v s /\ in_scope w s
  | OScopeEnd x => in_scope (Local x) s
  end.

#[export] Instance op_ok_dec s o : Decision (op_ok s o).
Proof.
  destruct o; cbn; unfold in_scope; try apply _.
  destruct (vars s !! w) as [[l|]|]; [|right; naive_solver..].
  destruct (decide (is_Some (vars s !! Local x))); [right; naive_solver|left; naive_solver].
Defined.

Definition empty_state : rstate := mkRS ∅ ∅.

(** The states of well-behaved programs; a machine has room for fewer than 2^64 pointers. *)
Inductive reachable : rstate -> Prop :=
| reach_start : reachable empty_state
| reach_step s o s' : reachable s -> op_ok s o -> Z.of_nat (size (vars s)) < 2 ^ 64 - 1 -> step o s = Ret s' -> reachable s'.

(** How many variables refer to an object. *)
Definition refs l (m : gmap var (option loc)) : nat := size (filter (fun kv => kv.2 = Some l) m).

Lemma refs_insert l m v p : refs l (<[v := p]> m) = ((if decide (p = Some l) then 1 else 0) + refs l (delete v m))%nat.
Proof.
  unfold refs. case_decide as Hp.
  - rewrite map_filter_insert_True by done. rewrite <- insert_delete_eq, map_size_insert_None, <- map_filter_delete; [done|]. by rewrite lookup_delete_eq.
  - by rewrite map_filter_insert_False.
Qed.

Lemma refs_delete l m v p : m !! v = Some p -> refs l m = ((if decide (p = Some l) then 1 else 0) + refs l (delete v m))%nat.
Proof. intros Hv. rewrite <- (insert_id m v p Hv) at 1. apply refs_insert. Qed.

Lemma refs_delete_None l m v : m !! v = None -> refs l (delete v m) = refs l m.
Proof. intros Hv. by rewrite delete_id. Qed.

Lemma refs_size l m : (refs l m <= size m)%nat.
Proof. apply map_subseteq_size, map_filter_subseteq. Qed.

Lemma refs_pos l m v : m !! v = Some (Some l) -> (0 < refs l m)%nat.
Proof. intros Hv. rewrite (refs_delete l m v _ Hv), decide_True by done. lia. Qed.

Lemma refs_some l m : (0 < refs l m)%nat -> exists v, m !! v = Some (Some l).
Proof.
  intros Hp. assert (filter (fun kv => kv.2 = Some l) m ≠ ∅) as Hne by (intros He; unfold refs in Hp; rewrite He, map_size_empty in Hp; lia).
  apply map_choose in Hne as (v & p & Hv). apply map_lookup_filter_Some in Hv as [Hv Hpl]. cbn in Hpl. subst p. by exists v.
Qed.

Lemma refs_zero l m v : refs l m = 0%nat -> m !! v <> Some (Some l).
Proof. intros H0 Hv. pose proof (refs_pos _ _ _ Hv). lia. Qed.

Lemma elem_of_member_vars l n v : v ∈ member_vars l n <-> exists i, v = Member l i /\ (i < n)%nat.
Proof. unfold member_vars. rewrite list_elem_of_fmap. setoid_rewrite elem_of_reverse. setoid_rewrite elem_of_seq. naive_solver lia. Qed.

Lemma NoDup_member_vars l n : NoDup (member_vars l n).
Proof. apply NoDup_fmap_2; [intros i j; congruence|]. rewrite reverse_Permutation. apply NoDup_seq. Qed.

(** ** The invariant, while the variables [work] are still to be destroyed *)
Record inv (work : list var) s : Prop := {
  inv_live : forall v l, vars s !! v = Some (Some l) -> is_Some (objects s !! l);
  inv_count : forall l o, objects s !! l = Some o -> ref_count_ o = Z.of_nat (refs l (vars s)) /\ (0 < refs l (vars s))%nat;
  inv_members : forall l i, in_scope (Member l i) s <-> (exists o, objects s !! l = Some o /\ (i < members o)%nat) \/ Member l i ∈ work;
  inv_work : NoDup work /\ forall v, v ∈ work -> in_scope v s;
  inv_orphans : forall l i, Member l i ∈ work -> objects s !! l = None;
}.

Lemma inv_empty : inv [] empty_state.
Proof.
  split; cbn; try set_solver.
  - intros l i. unfold in_scope. cbn. rewrite lookup_empty. split; [by intros []|intros [(o & Ho & _)|Hw]; [done|by apply not_elem_of_nil in Hw]].
  - split; [constructor|]. intros v Hv. by apply not_elem_of_nil in Hv.
Qed.

(** Taking a variable out of scope: the count of what it referred to is now one too high. *)
Lemma drop_var v work s p : inv (v :: work) s -> vars s !! v = Some p ->
  (forall w l, vars (without_var v s) !! w = Some (Some l) -> is_Some (objects s !! l)) /\
  (forall l o, objects s !! l = Some o -> ref_count_ o = Z.of_nat ((if decide (p = Some l) then 1 else 0) + refs l (delete v (vars s)))) /\
  (forall l i, in_scope (Member l i) (without_var v s) <-> (exists o, objects s !! l = Some o /\ (i < members o)%nat) \/ Member l i ∈ work) /\
  (NoDup work /\ forall w, w ∈ work -> in_scope w (without_var v s)).
Proof.
  intros [H1 H2 H3 [H4 H4'] H5] Hv. apply NoDup_cons in H4 as [Hnv H4]. unfold in_scope. cbn. split_and!; try done.
  - intros w l Hw. apply lookup_delete_Some in Hw as [_ Hw]. eauto.
  - intros l o Ho. by rewrite <- (refs_delete l _ v p Hv), (proj1 (H2 l o Ho)).
  - intros l i. destruct (decide (v = Member l i)) as [->|Hne].
    + rewrite lookup_delete_eq. split; [by intros []|]. intros [(o & Ho & Hi)|Hw]; [|done]. rewrite (H5 l i) in Ho; [done|constructor].
    + rewrite lookup_delete_ne by done. unfold in_scope in H3. rewrite H3, elem_of_cons. naive_solver.
  - intros w Hw. rewrite lookup_delete_ne by (by intros ->). apply H4'. by constructor.
Qed.

(** What the destructors leave: the other local variables and nothing new. *)
Record keeps (work : list var) s s' : Prop := {
  keep_locals : forall x, Local x ∉ work -> vars s' !! Local x = vars s !! Local x;
  keep_gone : forall v, v ∈ work -> vars s' !! v = None;
  keep_vars : vars s' ⊆ vars s;
  keep_objects : dom (objects s') ⊆ dom (objects s);
}.

(** A reference to [l] was dropped that was not the last. *)
Lemma inv_released v work s l o :
  inv (v :: work) s -> vars s !! v = Some (Some l) -> objects s !! l = Some o -> (0 < refs l (delete v (vars s)))%nat ->
  inv work (with_object l (mkRC (Z.of_nat (refs l (delete v (vars s)))) (members o)) (without_var v s)).
Proof.
  intros HI Hv Ho Hpos. destruct (drop_var v work s _ HI Hv) as (D1 & D2 & D3 & D4). pose proof (inv_count _ _ HI) as Hc. split; cbn.
  - intros w l' Hw. destruct (decide (l = l')) as [->|]; [rewrite lookup_insert_eq; eauto|rewrite lookup_insert_ne by done; eauto].
  - intros l' o'. destruct (decide (l = l')) as [<-|Hne]; [rewrite lookup_insert_eq; intros [= <-]; done|].
    rewrite lookup_insert_ne by done. intros Ho'. pose proof (D2 _ _ Ho') as Hcnt. destruct (Hc _ _ Ho') as [Hcnt' Hp'].
    rewrite decide_False in Hcnt by congruence. split; [done|]. lia.
  - intros l' i. change (in_scope (Member l' i) (without_var v s) <-> (exists o0, <[l:=mkRC (Z.of_nat (refs l (delete v (vars s)))) (members o)]> (objects s) !! l' = Some o0 /\ (i < members o0)%nat) \/ Member l' i ∈ work).
    rewrite D3. destruct (decide (l = l')) as [<-|Hne]; [rewrite lookup_insert_eq; naive_solver|by rewrite lookup_insert_ne].
  - exact D4.
  - intros l' i Hw. pose proof (inv_orphans _ _ HI l' i ltac:(by constructor)) as Hn. rewrite lookup_insert_ne; [done|congruence].
Qed.

(** The last reference to [l] was dropped: the object goes and its members are to be destroyed. *)
Lemma inv_last v work s l o :
  inv (v :: work) s -> vars s !! v = Some (Some l) -> objects s !! l = Some o -> refs l (delete v (vars s)) = 0%nat ->
  inv (member_vars l (members o) ++ work) (without_object l (without_var v s)).
Proof.
  intros HI Hv Ho Hz. destruct (drop_var v work s _ HI Hv) as (D1 & D2 & D3 & [D4 D5]). pose proof (inv_count _ _ HI) as Hc. split; cbn.
  - intros w l' Hw. rewrite lookup_delete_ne; [eauto|]. intros <-. by apply (refs_zero _ _ w Hz).
  - intros l' o' Ho'. apply lookup_delete_Some in Ho' as [Hne Ho']. pose proof (D2 _ _ Ho') as Hcnt. destruct (Hc _ _ Ho') as [Hcnt' Hp'].
    rewrite decide_False in Hcnt by congruence. split; [done|]. lia.
  - intros l' i. change (in_scope (Member l' i) (without_var v s) <-> (exists o0, delete l (objects s) !! l' = Some o0 /\ (i < members o0)%nat) \/ Member l' i ∈ member_vars l (members o) ++ work).
    rewrite D3, elem_of_app, elem_of_member_vars. destruct (decide (l = l')) as [<-|Hne].
    + rewrite lookup_delete_eq, Ho. naive_solver.
    + rewrite lookup_delete_ne by done. naive_solver.
  - split.
    + apply NoDup_app. split_and!; [apply NoDup_member_vars| |done]. intros w (i & -> & _)%elem_of_member_vars Hw.
      rewrite (inv_orphans _ _ HI l i) in Ho; [done|by constructor].
    + intros w [(i & -> & Hi)%elem_of_member_vars|Hw]%elem_of_app; [|by apply D5]. apply D3. left. eauto.
  - intros l' i [(j & [= -> ->] & Hj)%elem_of_member_vars|Hw]%elem_of_app; [apply lookup_delete_eq|].
    pose proof (inv_orphans _ _ HI l' i ltac:(by constructor)). rewrite lookup_delete_ne; [done|congruence].
Qed.

Lemma inv_null v work s : inv (v :: work) s -> vars s !! v = Some None -> inv work (without_var v s).
Proof.
  intros HI Hv. destruct (drop_var v work s _ HI Hv) as (D1 & D2 & D3 & D4). pose proof (inv_count _ _ HI) as Hc. split; cbn; try done.
  - intros l o Ho. pose proof (D2 _ _ Ho) as Hcnt. destruct (Hc _ _ Ho) as [Hcnt' Hp']. rewrite decide_False in Hcnt by done. split; [done|]. lia.
  - intros l i Hw. apply (inv_orphans _ _ HI l i). by constructor.
Qed.

Lemma keeps_step v work work' s s1 s' :
  NoDup (v :: work) -> vars s1 = delete v (vars s) -> dom (objects s1) ⊆ dom (objects s) -> (forall x, Local x ∈ work' <-> Local x ∈ work) -> work ⊆ work' ->
  keeps work' s1 s' -> keeps (v :: work) s s'.
Proof.
  intros [Hnv _]%NoDup_cons Hvars Hobj Hloc Hsub [K1 K2 K3 K4]. split.
  - intros x Hx. apply not_elem_of_cons in Hx as [Hx1 Hx2]. rewrite K1 by (by rewrite Hloc). rewrite Hvars, lookup_delete_ne; [done|congruence].
  - intros w [->|Hw]%elem_of_cons; [|by apply K2, Hsub]. apply (lookup_weaken_None _ (vars s1)); [|done]. by rewrite Hvars, lookup_delete_eq.
  - etrans; [exact K3|]. rewrite Hvars. apply delete_subseteq.
  - by etrans.
Qed.

(** The destructors return, and delete exactly what nothing refers to any more. *)
Lemma destroy_spec fuel : forall work s,
  inv work s -> (size (vars s) <= fuel)%nat -> Z.of_nat (size (vars s)) < 2 ^ 64 ->
  exists s', destroy fuel work s = Ret s' /\ inv [] s' /\ keeps work s s'.
Proof.
  induction fuel as [|fuel IH]; intros [|v work] s HI Hf Hsz;
    try (exists s; split; [done|split; [done|split; [done|by intros v Hv%not_elem_of_nil|done|done]]]).
  - destruct (proj2 (inv_work _ _ HI) v) as [p Hp]; [constructor|]. exfalso. assert (vars s = ∅) as He by (apply map_size_empty_iff; lia). by rewrite He in Hp.
  - destruct (proj2 (inv_work _ _ HI) v) as [p Hp]; [constructor|]. pose proof (proj1 (inv_work _ _ HI)) as Hnd.
    assert (size (delete v (vars s)) = pred (size (vars s))) as Hsd by (by apply map_size_delete_Some).
    assert (0 < size (vars s))%nat as Hs0 by (destruct (size (vars s)) eqn:E; [apply map_size_empty_iff in E; by rewrite E in Hp|lia]).
    cbn [destroy]. rewrite Hp. cbn [deref mbind res_bind]. destruct p as [l|].
    + destruct (inv_live _ _ HI _ _ Hp) as [o Ho]. destruct (inv_count _ _ HI _ _ Ho) as [Hc Hpos]. unfold ReleasePtr. cbn [objects without_var]. rewrite Ho.
      cbn [deref mbind res_bind]. pose proof (refs_delete l _ v _ Hp) as Hr. rewrite decide_True in Hr by done. pose proof (refs_size l (vars s)) as Hle.
      rewrite Hc, u64_small by lia. replace (Z.of_nat (refs l (vars s)) - 1) with (Z.of_nat (refs l (delete v (vars s)))) by lia.
      destruct (Z.eqb_spec (Z.of_nat (refs l (delete v (vars s)))) 0) as [Hz|Hnz].
      * cbn [objects with_object without_var vars]. rewrite lookup_insert_eq. cbn [deref mbind res_bind members].
        replace (without_object l _) with (without_object l (without_var v s)) by (unfold without_object; cbn; by rewrite delete_insert_eq).
        destruct (IH _ _ (inv_last v work s l o HI Hp Ho ltac:(lia))) as (s' & HD & HI' & HK); [cbn; lia|cbn; lia|].
        exists s'. split; [exact HD|split; [done|]]. eapply keeps_step; [done| | | | |exact HK]; [done|cbn; set_solver| |].
        -- intros x. rewrite elem_of_app, elem_of_member_vars. naive_solver.
        -- intros w Hw. apply elem_of_app. by right.
      * destruct (IH _ _ (inv_released v work s l o HI Hp Ho ltac:(lia))) as (s' & HD & HI' & HK); [cbn; lia|cbn; lia|].
        exists s'. split; [exact HD|split; [done|]]. eapply keeps_step; [done| | | | |exact HK]; [done| |done|done].
        cbn. rewrite dom_insert_lookup_L; [done|by rewrite Ho].
    + destruct (IH _ _ (inv_null v work s HI Hp)) as (s' & HD & HI' & HK); [cbn; lia|cbn; lia|].
      exists s'. split; [exact HD|split; [done|]]. by eapply keeps_step; [done| | | | |exact HK].
Qed.

(** ** Operations *)

Lemma inv_local_work x s : inv [] s -> in_scope (Local x) s -> inv [Local x] s.
Proof.
  intros [H1 H2 H3 H4 H5] Hx. split; try done.
  - intros l i. rewrite H3. split; (intros [?|Hw]; [by left|exfalso; set_solver]).
  - split; [apply NoDup_singleton|]. by intros v ->%list_elem_of_singleton.
  - intros l i Hw. set_solver.
Qed.

(** A new variable with a pointer to a live object, whose count goes up. *)
Lemma acquire_spec x p s :
  inv [] s -> ~ in_scope (Local x) s -> Z.of_nat (size (vars s)) < 2 ^ 64 - 1 -> (forall l, p = Some l -> is_Some (objects s !! l)) ->
  exists objs, (forall m, match p with Some l => AcquirePtr l (mkRS (objects s) m) | None => Ret (mkRS (objects s) m) end = Ret (mkRS objs m)) /\
    inv [] (mkRS objs (<[Local x := p]> (vars s))).
Proof.
  intros HI Hx Hsz Hl. apply eq_None_not_Some in Hx.
  assert (forall l, refs l (<[Local x := p]> (vars s)) = ((if decide (p = Some l) then 1 else 0) + refs l (vars s))%nat) as Hr
    by (intros l; by rewrite refs_insert, refs_delete_None).
  assert (forall l i, in_scope (Member l i) (mkRS (objects s) (<[Local x := p]> (vars s))) <-> in_scope (Member l i) s) as Hm
    by (intros l i; unfold in_scope; cbn; by rewrite lookup_insert_ne).
  destruct HI as [H1 H2 H3 [H4 H4'] H5]. destruct p as [l|].
  - destruct (Hl l eq_refl) as [o Ho]. destruct (H2 l o Ho) as [Hc Hp]. pose proof (refs_size l (vars s)).
    exists (<[l := mkRC (Z.of_nat (S (refs l (vars s)))) (members o)]> (objects s)). split.
    { intros m. unfold AcquirePtr. cbn. rewrite Ho. cbn. rewrite Hc, u64_small by lia. by replace (Z.of_nat (refs l (vars s)) + 1) with (Z.of_nat (S (refs l (vars s)))) by lia. }
    split; cbn; try done; [| | |by split; [|intros v Hv%not_elem_of_nil]|by intros l' i Hv%not_elem_of_nil].
    + intros v l' Hv. assert (is_Some (objects s !! l')) as Hs by (apply lookup_insert_Some in Hv as [[_ [= <-]]|[_ Hv]]; [by eexists|by eapply H1]).
      destruct (decide (l = l')) as [->|]; [rewrite lookup_insert_eq; eauto|by rewrite lookup_insert_ne].
    + intros l' o' Ho'. rewrite Hr. apply lookup_insert_Some in Ho' as [[<- <-]|[Hne Ho']]; [rewrite decide_True by done; cbn; lia|].
      rewrite decide_False by congruence. by apply H2.
    + intros l' i. change (in_scope (Member l' i) (mkRS (objects s) (<[Local x := Some l]> (vars s))) <-> (exists o0, <[l:=mkRC (Z.of_nat (S (refs l (vars s)))) (members o)]> (objects s) !! l' = Some o0 /\ (i < members o0)%nat) \/ Member l' i ∈ []).
      rewrite Hm, H3. destruct (decide (l = l')) as [<-|]; [rewrite lookup_insert_eq; naive_solver|by rewrite lookup_insert_ne].
  - exists (objects s). split; [done|]. split; cbn; try done.
    + intros v l' [[_ ?]|[_ Hv]]%lookup_insert_Some; [done|eauto].
    + intros l' o' Ho'. rewrite Hr. rewrite decide_False by done. by apply H2.
    + intros l' i. rewrite <- H3. apply Hm.
    + by split; [|intros v Hv%not_elem_of_nil].
Qed.

Lemma refs_swap l m v w a b : m !! v = Some a -> m !! w = Some b -> refs l (<[w := a]> (<[v := b]> m)) = refs l m.
Proof.
  intros Hv Hw. destruct (decide (v = w)) as [->|Hne].
  - assert (a = b) as -> by congruence. by rewrite insert_insert_eq, insert_id.
  - rewrite refs_insert, delete_insert_ne, refs_insert, (refs_delete l m w b Hw), (refs_delete l (delete w m) v a) by (done || by rewrite lookup_delete_ne). lia.
Qed.

Lemma inv_swap v w a b s :
  inv [] s -> vars s !! v = Some a -> vars s !! w = Some b -> inv [] (mkRS (objects s) (<[w := a]> (<[v := b]> (vars s)))).
Proof.
  intros [H1 H2 H3 [H4 H4'] H5] Hv Hw. split; cbn; try done.
  - intros u l [[_ ->]|[_ [[_ ->]|[_ Hu]]%lookup_insert_Some]]%lookup_insert_Some; eauto.
  - intros l o Ho. rewrite (refs_swap l _ v w a b) by done. by apply H2.
  - intros l i. rewrite <- H3. unfold in_scope. cbn. destruct (decide (w = Member l i)) as [->|]; [rewrite lookup_insert_eq, Hw; split; eauto|].
    rewrite lookup_insert_ne by done. destruct (decide (v = Member l i)) as [->|]; [rewrite lookup_insert_eq, Hv; split; eauto|by rewrite lookup_insert_ne].
  - by split; [|intros u Hu%not_elem_of_nil].
Qed.

(** What an assignment does to a reference that is given up. *)
Lemma release_spec x old s :
  inv [] (mkRS (objects s) (<[Local x := old]> (vars s))) -> vars s !! Local x = None -> Z.of_nat (size (vars s)) < 2 ^ 64 - 1 ->
  exists s', match old with
    | None => Ret s
    | Some l => '(zero, s) ← ReleasePtr l s; if (zero : bool) then delete_object l s else Ret s
    end = Ret s' /\ inv [] s' /\ forall y, vars s' !! Local y = vars s !! Local y.
Proof.
  intros HI Hx Hsz. set (s1 := mkRS _ _) in HI. assert (vars s1 !! Local x = Some old) as Hold by apply lookup_insert_eq.
  assert (delete (Local x) (vars s1) = vars s) as Hd by (cbn; by rewrite delete_insert_id).
  assert (without_var (Local x) s1 = s) as Hs by (unfold without_var; rewrite Hd; by destruct s).
  apply (inv_local_work x) in HI; [|by eexists]. destruct old as [l|].
  - destruct (inv_live _ _ HI _ _ Hold) as [o Ho]. destruct (inv_count _ _ HI _ _ Ho) as [Hc Hpos]. unfold ReleasePtr. change (objects s1) with (objects s) in *. rewrite Ho.
    pose proof (refs_delete l _ _ _ Hold) as Hr. rewrite decide_True in Hr by done. rewrite Hd in Hr. pose proof (refs_size l (vars s)) as Hle.
    cbn [deref mbind res_bind]. rewrite Hc, u64_small by lia. replace (Z.of_nat (refs l (vars s1)) - 1) with (Z.of_nat (refs l (vars s))) by lia.
    destruct (Z.eqb_spec (Z.of_nat (refs l (vars s))) 0) as [Hz|Hnz].
    + unfold delete_object. cbn [objects with_object]. rewrite lookup_insert_eq. cbn [deref mbind res_bind members vars].
      replace (without_object l _) with (without_object l s) by (unfold without_object; cbn; by rewrite delete_insert_eq).
      pose proof (inv_last _ _ _ l o HI Hold Ho) as HL. rewrite Hd, Hs, app_nil_r in HL.
      destruct (destroy_spec (S (size (vars s))) _ _ (HL ltac:(lia))) as (s' & HD & HI' & HK); [cbn; lia|cbn; lia|].
      exists s'. split; [exact HD|]. split; [done|]. intros y. rewrite (keep_locals _ _ _ HK); [done|]. rewrite elem_of_member_vars. naive_solver.
    + eexists. split; [done|]. pose proof (inv_released _ _ _ l o HI Hold Ho) as HL. rewrite Hd, Hs in HL. split; [apply HL; lia|done].
  - exists s. split; [done|]. split; [|done]. pose proof (inv_null _ _ _ HI Hold) as HL. by rewrite Hs in HL.
Qed.

(** The members of a new object. *)
Lemma null_members_spec ws s :
  NoDup ws -> (forall v, v ∈ ws -> ~ in_scope v s) ->
  let s' := foldr (fun w => with_var w None) s ws in
  objects s' = objects s /\ (forall v, vars s' !! v = if decide (v ∈ ws) then Some None else vars s !! v) /\ forall l, refs l (vars s') = refs l (vars s).
Proof.
  induction ws as [|w ws IH]; intros Hnd Hns; cbn [foldr]; [split_and!; try done; intros v; by rewrite decide_False by apply not_elem_of_nil|].
  apply NoDup_cons in Hnd as [Hnw Hnd]. destruct IH as (IH1 & IH2 & IH3); [done|intros v Hv; apply Hns; by constructor|]. cbn. split_and!; [done| |].
  - intros v. destruct (decide (w = v)) as [->|Hne]; [rewrite lookup_insert_eq, decide_True by constructor; done|]. rewrite lookup_insert_ne, IH2 by done.
    apply decide_ext. rewrite elem_of_cons. naive_solver.
  - intros l. rewrite refs_insert, decide_False, refs_delete_None by (done || rewrite IH2, decide_False by done; apply eq_None_not_Some, Hns; constructor). apply IH3.
Qed.

Lemma MakeRefCounted_spec x l n s :
  inv [] s -> ~ in_scope (Local x) s -> objects s !! l = None ->
  exists s', MakeRefCounted (Local x) l n s = Ret s' /\ inv [] s'.
Proof.
  intros [H1 H2 H3 [H4 H4'] H5] Hx Hl. eexists. split; [done|].
  assert (forall v, v ∈ member_vars l n -> ~ in_scope v s) as Hns.
  { intros v (i & -> & _)%elem_of_member_vars Hv. apply H3 in Hv as [(o & Ho & _)|Hw]; [congruence|by apply not_elem_of_nil in Hw]. }
  destruct (null_members_spec _ s (NoDup_member_vars l n) Hns) as (N1 & N2 & N3). set (s1 := foldr _ _ _) in *. clearbody s1.
  assert (vars s1 !! Local x = None) as Hx1 by (rewrite N2, decide_False by (rewrite elem_of_member_vars; naive_solver); by apply eq_None_not_Some).
  assert (forall l', refs l' (<[Local x := Some l]> (vars s1)) = ((if decide (l = l') then 1 else 0) + refs l' (vars s))%nat) as Hr.
  { intros l'. rewrite refs_insert, refs_delete_None, N3 by done. f_equal. apply decide_ext. naive_solver. }
  assert (refs l (vars s) = 0%nat) as Hz.
  { destruct (refs l (vars s)) eqn:E; [done|]. destruct (refs_some l (vars s)) as [v Hp]; [lia|]. destruct (H1 _ _ Hp). congruence. }
  split; cbn; rewrite ?N1.
  - intros v l' [[_ [= <-]]|[_ Hv]]%lookup_insert_Some; [rewrite lookup_insert_eq; eauto|]. rewrite N2 in Hv. case_decide; [done|].
    apply lookup_insert_is_Some. destruct (decide (l = l')); [by left|right]. eauto.
  - intros l' o [[<- <-]|[Hne Ho]]%lookup_insert_Some; rewrite Hr; [rewrite decide_True, Hz by done; cbn; lia|rewrite decide_False by done; by apply H2].
  - intros l' i. unfold in_scope. cbn. rewrite lookup_insert_ne, N2 by done. case_decide as Hm; [|fold (in_scope (Member l' i) s); rewrite H3].
    + apply elem_of_member_vars in Hm as (j & [= -> ->] & Hj). rewrite lookup_insert_eq. naive_solver.
    + destruct (decide (l = l')) as [<-|Hne]; [|by rewrite lookup_insert_ne]. rewrite lookup_insert_eq, Hl. rewrite elem_of_member_vars in Hm. naive_solver.
  - by split; [|intros u Hu%not_elem_of_nil].
  - by intros l' i Hu%not_elem_of_nil.
Qed.

(** Every operation of a well-behaved program returns and keeps the invariant. *)
Lemma step_spec o s :
  inv [] s -> op_ok s o -> Z.of_nat (size (vars s)) < 2 ^ 64 - 1 -> exists s', step o s = Ret s' /\ inv [] s'.
Proof.
  intros HI Hok Hsz. assert (forall v l, vars s !! v = Some (Some l) -> is_Some (objects s !! l)) as Hlive by apply (inv_live _ _ HI).
  destruct o as [x l n|x|x w|x w|x w|v w|v w|x]; cbn [step op_ok] in *.
  - destruct Hok. by apply MakeRefCounted_spec.
  - destruct (acquire_spec x None s HI Hok Hsz) as (objs & HA & HI'); [done|]. specialize (HA (vars s)). injection HA as <-. by eexists.
  - destruct Hok as [Hx [p Hp]]. destruct (acquire_spec x p s HI Hx Hsz) as (objs & HA & HI'); [by intros l ->; eauto|].
    unfold RefPtr_copy. rewrite Hp. cbn [deref mbind res_bind]. eexists. split; [apply HA|done].
  - destruct Hok as [Hx [p Hp]]. destruct (acquire_spec x None s HI Hx Hsz) as (objs & HA & HI'); [done|]. specialize (HA (vars s)). injection HA as <-.
    unfold RefPtr_move. rewrite Hp. cbn [deref mbind res_bind]. eexists. split; [done|]. assert (Local x ≠ w) by (intros <-; apply Hx; by eexists).
    pose proof (inv_swap (Local x) w None p _ HI') as HS. cbn [vars objects] in HS. rewrite lookup_insert_eq, lookup_insert_ne, insert_insert_eq in HS by done. by apply HS.
  - destruct Hok as [Hx [l Hp]]. destruct (acquire_spec x (Some l) s HI Hx Hsz) as (objs & HA & HI'); [by intros ? [= <-]; eauto|].
    unfold StaticCastRefPtr, RefPtr_dont_adopt. rewrite Hp. cbn [deref mbind res_bind]. eexists. split; [apply HA|done].
  - destruct Hok as [[old Ho] [p Hp]]. set (x := fresh (A := positive) (set_map (fun v => match v with Local y => y | _ => 1%positive end) (dom (vars s)) : gset positive)).
    assert (vars s !! Local x = None) as Hx.
    { destruct (vars s !! Local x) eqn:E; [|done]. exfalso. apply (is_fresh (set_map (fun v => match v with Local y => y | _ => 1%positive end) (dom (vars s)) : gset positive)).
      apply elem_of_map. exists (Local x). split; [done|]. apply elem_of_dom. by eexists. }
    clearbody x. assert (~ in_scope (Local x) s) as Hx' by (intros [? ?]; congruence). assert (Local x ≠ v) as Hxv by congruence.
    destruct (acquire_spec x p s HI Hx' Hsz) as (objs & HA & HI'); [by intros l ->; eauto|]. unfold RefPtr_assign. rewrite Ho, Hp. cbn [deref mbind res_bind].
    unfold with_var. rewrite HA. cbn [mbind res_bind]. pose proof (inv_swap v (Local x) old p _ HI') as HS. cbn [vars objects] in HS.
    rewrite lookup_insert_eq, lookup_insert_ne, insert_insert_ne, insert_insert_eq in HS by done.
    destruct (release_spec x old (mkRS objs (<[v := p]> (vars s)))) as (s' & HR & HI2 & _); [cbn; rewrite insert_insert_ne by done; by apply HS|cbn; by rewrite lookup_insert_ne|cbn; rewrite map_size_insert_Some; [done|by eexists]|].
    by exists s'.
  - destruct Hok as [[a Ha] [b Hb]]. unfold RefPtr_move_assign. rewrite Ha, Hb. cbn [deref mbind res_bind]. eexists. split; [done|]. exact (inv_swap v w a b s HI Ha Hb).
  - unfold RefPtr_destroy. destruct (destroy_spec (S (size (vars s))) [Local x] s) as (s' & HD & HI' & _); [by apply inv_local_work|lia|lia|]. by exists s'.
Qed.

Lemma reachable_inv s : reachable s -> inv [] s.
Proof. induction 1 as [|s o s' _ IH Hok Hsz Hs]; [apply inv_empty|]. destruct (step_spec o s IH Hok Hsz) as (s1 & Hs1 & HI). rewrite Hs in Hs1. by injection Hs1 as <-. Qed.

(** C13.  In every state a program over counted pointers can reach, with objects that hold pointers to each other and are
    deleted in cascades, every non-null pointer refers to an object that is not deleted, the count of every object is the
    number of pointers to it, an object that exists has at least one pointer to it, and every further operation returns
    (no access to freed memory, no double deletion, and destructors end). *)
Theorem refptr_safe s :
  reachable s ->
  (forall v l, vars s !! v = Some (Some l) -> is_Some (objects s !! l)) /\
  (forall l o, objects s !! l = Some o -> ref_count_ o = Z.of_nat (refs l (vars s)) /\ exists v, vars s !! v = Some (Some l)) /\
  (forall o, op_ok s o -> Z.of_nat (size (vars s)) < 2 ^ 64 - 1 -> exists s', step o s = Ret s').
Proof.
  intros HI%reachable_inv. split_and!.
  - apply (inv_live _ _ HI).
  - intros l o Ho. destruct (inv_count _ _ HI _ _ Ho) as [Hc Hp]. split; [done|]. by apply refs_some.
  - intros o Hok Hsz. destruct (step_spec o s HI Hok Hsz) as (s' & ? & _). by exists s'.
Qed.

(** Two objects, the first holding the second; both go when the local pointer to the first goes out of scope. *)
Definition demo_ops : list op := [OMake 1 10 1; OMake 2 20 0; OAssign (Member 10 0) (Local 2); OScopeEnd 2; OCopy 3 (Local 1); OScopeEnd 1].
Definition run (os : list op) s : res rstate := foldl (fun m o => s ← m; step o s) (Ret s) os.

(** Every operation of the program is allowed where it runs. *)
Fixpoint run_ok (os : list op) s : Prop :=
  match os with
  | [] => True
  | o :: os => op_ok s o /\ Z.of_nat (size (vars s)) < 2 ^ 64 - 1 /\ match step o s with Ret s => run_ok os s | _ => False end
  end.

Lemma run_reachable os : forall s s', reachable s -> run os s = Ret s' -> run_ok os s -> reachable s'.
Proof.
  induction os as [|o os IH]; intros s s' Hr Hrun Hok; [by injection Hrun as <-|]. destruct Hok as (Ho & Hsz & Hok).
  unfold run in Hrun. cbn [foldl mbind res_bind] in Hrun. destruct (step o s) as [s1| | |] eqn:E; try done. apply (IH s1); [by eapply reach_step|done|done].
Qed.

Lemma refptr_safe_witness :
  exists s, run demo_ops empty_state = Ret s /\ vars s !! Member 10 0 = Some (Some 20%positive) /\ is_Some (objects s !! 20%positive) /\
    run [OScopeEnd 3] s = Ret empty_state.
Proof.
  destruct (is_ret_Ret (run demo_ops empty_state) eq_refl) as [s Hs]. exists s. split; [done|].
  assert (vars s !! Member 10 0 = Some (Some 20%positive)) as Hm by (vm_compute in Hs; injection Hs as <-; by vm_compute). split; [done|]. split.
  - destruct (refptr_safe s) as (Hlive & _ & _); [|by apply (Hlive (Member 10 0))]. apply (run_reachable demo_ops empty_state); [constructor|done|].
    unfold demo_ops. repeat split; try (vm_compute; naive_solver); try (by vm_compute; eexists).
  - vm_compute in Hs. injection Hs as <-. by vm_compute.
Defined.

(** Objects that refer to each other are never deleted: here one that refers to itself. *)
Lemma cycles_leak :
  exists s, run [OMake 1 10 1; OAssign (Member 10 0) (Local 1); OScopeEnd 1] empty_state = Ret s /\
    objects s !! 10%positive = Some (mkRC 1 1) /\ forall x, vars s !! Local x = None.
Proof.
  exists (mkRS {[10%positive := mkRC 1 1]} {[Member 10 0 := Some 10%positive]}). split; [by vm_compute|]. split; [done|].
  intros x. cbn. by apply lookup_singleton_ne.
Qed.

(** ** SharedPtr (shared_ptr.h)

    The object and its counter cell are allocated apart; here the object has no shared pointers of its own. *)
Record SharedPtr : Type := mkShared { init_ : bool; ptr_ : option loc; ref_cnt_ : option loc }.

Record shstate : Type := mkSh { targets : gset loc; counters : gmap loc Z }.

Implicit Types (q : SharedPtr) (h : shstate).

Definition SharedPtr_default : SharedPtr := mkShared false None None.

(** [SharedPtr(T* ptr)]: [c] is the new counter cell. *)
Definition SharedPtr_new l (c : loc) h : SharedPtr * shstate := (mkShared true (Some l) (Some c), mkSh (targets h) (<[c := 1]> (counters h))).

(** [( *ref_cnt_)++]; an empty pointer has no counter. *)
Definition count_up q h : res shstate :=
  c ← deref (ref_cnt_ q);
  n ← deref (counters h !! c);
  Ret (mkSh (targets h) (<[c := n [+] 1]> (counters h))).

Definition SharedPtr_copy q h : res (SharedPtr * shstate) := h ← count_up q h; Ret (q, h).

Definition SharedPtr_Cleanup q h : res shstate :=
  if negb (init_ q) then Ret h else
  c ← deref (ref_cnt_ q);
  n ← deref (counters h !! c);
  let n := n [-] 1 in
  if n =? 0 then
    l ← deref (ptr_ q);
    if decide (l ∈ targets h) then Ret (mkSh (targets h ∖ {[l]}) (delete c (counters h))) else Fault
  else Ret (mkSh (targets h) (<[c := n]> (counters h))).

Definition SharedPtr_assign q (other : SharedPtr) h : res (SharedPtr * shstate) :=
  h ← SharedPtr_Cleanup q h;
  h ← count_up other h;
  Ret (other, h).

Definition SharedPtr_destroy q h : res shstate := SharedPtr_Cleanup q h.

Definition MakeShared l (c : loc) h : SharedPtr * shstate := SharedPtr_new l c (mkSh ({[l]} ∪ targets h) (counters h)).

(** A pointer with [n] references to it. *)
Definition shares q (n : Z) h : Prop :=
  exists l c, q = mkShared true (Some l) (Some c) /\ l ∈ targets h /\ counters h !! c = Some n /\ 1 <= n < 2 ^ 64 - 1.

(** Copying adds a reference, destroying takes it away again, and the last one frees the object and the counter. *)
Lemma SharedPtr_counts q n h :
  shares q n h ->
  exists h', SharedPtr_copy q h = Ret (q, h') /\ SharedPtr_destroy q h' = Ret h /\
    (n = 1 -> exists h0, SharedPtr_destroy q h = Ret h0 /\ default true ((fun l => bool_decide (l ∈ targets h0)) <$> ptr_ q) = false /\ ((fun c => counters h0 !! c) <$> ref_cnt_ q) = Some None).
Proof.
  intros (l & c & -> & Hl & Hc & Hn). unfold SharedPtr_copy, count_up, SharedPtr_destroy, SharedPtr_Cleanup. cbn. rewrite Hc. cbn.
  eexists. split; [done|]. cbn. rewrite lookup_insert_eq. cbn. rewrite (u64_small (n + 1)) by lia. rewrite u64_small by lia. replace (n + 1 - 1) with n by lia.
  destruct (Z.eqb_spec n 0); [lia|]. split; [rewrite insert_insert_eq, insert_id by done; by destruct h|].
  intros ->. cbn. rewrite decide_True by done. eexists. split; [done|]. cbn. rewrite lookup_delete_eq, bool_decide_false by set_solver. done.
Qed.

(** Assigning the only reference to itself frees the object and its counter and then counts in the freed cell. *)
Lemma SharedPtr_self_assign_faults q h : shares q 1 h -> SharedPtr_assign q q h = Fault.
Proof.
  intros (l & c & -> & Hl & Hc & _). unfold SharedPtr_assign, SharedPtr_Cleanup, count_up. cbn. rewrite Hc. cbn. rewrite decide_True by done. change (1 [-] 1 =? 0) with true. cbn [mbind res_bind deref ref_cnt_ counters]. by rewrite lookup_delete_eq.
Qed.

(** A default-constructed pointer cannot be copied. *)
Lemma SharedPtr_copy_empty_faults h : SharedPtr_copy SharedPtr_default h = Fault.
Proof. done. Qed.

(** ** UniquePtr (unique_ptr.h) *)
Record ustate : Type := mkU { owned : gset loc; uvars : gmap positive (option loc) }.

Definition UniquePtr_new (x : positive) p (u : ustate) : ustate := mkU (owned u) (<[x := p]> (uvars u)).

Definition MakeUnique (x : positive) l (u : ustate) : ustate := UniquePtr_new x (Some l) (mkU ({[l]} ∪ owned u) (uvars u)).

Definition UniquePtr_move (x y : positive) (u : ustate) : res ustate :=
  p ← deref (uvars u !! y);
  Ret (mkU (owned u) (<[y := None]> (<[x := p]> (uvars u)))).

Definition UniquePtr_move_assign (x y : positive) (u : ustate) : res ustate :=
  temp ← deref (uvars u !! x);
  p ← deref (uvars u !! y);
  Ret (mkU (owned u) (<[y := temp]> (<[x := p]> (uvars u)))).

Definition UniquePtr_destroy (x : positive) (u : ustate) : res ustate :=
  p ← deref (uvars u !! x);
  match p with
  | None => Ret (mkU (owned u) (delete x (uvars u)))
  | Some l => if decide (l ∈ owned u) then Ret (mkU (owned u ∖ {[l]}) (delete x (uvars u))) else Fault
  end.

Definition UniquePtr_release (x : positive) (u : ustate) : res (option loc * ustate) :=
  tmp ← deref (uvars u !! x);
  Ret (tmp, mkU (owned u) (<[x := None]> (uvars u))).

(** Every pointer owns an allocated object, and no two the same. *)
Definition uinv (u : ustate) : Prop :=
  (forall x l, uvars u !! x = Some (Some l) -> l ∈ owned u) /\
  (forall x y l, uvars u !! x = Some (Some l) -> uvars u !! y = Some (Some l) -> x = y).

Lemma UniquePtr_ops (u : ustate) x y l :
  uinv u ->
  (uvars u !! x = None -> l ∉ owned u -> uinv (MakeUnique x l u)) /\
  (uvars u !! x = None -> is_Some (uvars u !! y) -> exists u', UniquePtr_move x y u = Ret u' /\ uinv u') /\
  (is_Some (uvars u !! x) -> is_Some (uvars u !! y) -> exists u', UniquePtr_move_assign x y u = Ret u' /\ uinv u') /\
  (is_Some (uvars u !! x) -> exists u', UniquePtr_destroy x u = Ret u' /\ uinv u').
Proof.
  intros [H1 H2]. split_and!.
  - intros Hx Hl. split; cbn.
    + intros z l'. rewrite lookup_insert_Some. set_solver.
    + intros z z' l'. rewrite !lookup_insert_Some. intros [[<- [= <-]]|[? Hz]] [[<- ?]|[? Hz']]; try done; [destruct Hl; eauto|simplify_eq; destruct Hl; eauto|eauto].
  - intros Hx [p Hp]. unfold UniquePtr_move. rewrite Hp. cbn. eexists. split; [done|]. assert (x ≠ y) by congruence. split; cbn.
    + intros z l'. rewrite !lookup_insert_Some. intros [[_ ?]|[_ [[_ ->]|[_ ?]]]]; [done|eauto..].
    + intros z z' l'. rewrite !lookup_insert_Some. intros [[? ?]|[? [[? Hz1]|[? Hz1]]]] [[? ?]|[? [[? Hz2]|[? Hz2]]]]; try done; subst; try done.
      * by destruct (H2 y z' l' Hp Hz2).
      * by destruct (H2 z y l' Hz1 Hp).
      * eauto.
  - intros [a Ha] [b Hb]. unfold UniquePtr_move_assign. rewrite Ha, Hb. cbn. eexists. split; [done|]. split; cbn.
    + intros z l'. rewrite !lookup_insert_Some. intros [[_ ->]|[_ [[_ ->]|[_ ?]]]]; eauto.
    + intros z z' l'. rewrite !lookup_insert_Some. intros [[? Hz1]|[? [[? Hz1]|[? Hz1]]]] [[? Hz2]|[? [[? Hz2]|[? Hz2]]]]; subst; try done;
      repeat match goal with
        | A : uvars u !! ?i = Some (Some l'), B : uvars u !! ?j = Some (Some l') |- _ => assert_fails (constr_eq i j); pose proof (H2 i j l' A B); subst; try done
        end.
  - intros [p Hp]. unfold UniquePtr_destroy. rewrite Hp. cbn. destruct p as [l'|]; [rewrite decide_True by eauto|]; eexists; (split; [done|]); split; cbn.
    + intros z l2 [Hne Hz]%lookup_delete_Some. apply elem_of_difference. split; [eauto|]. intros ->%elem_of_singleton. by apply Hne, (H2 _ _ l').
    + intros z z' l2 [_ Hz]%lookup_delete_Some [_ Hz']%lookup_delete_Some. eauto.
    + intros z l2 [_ Hz]%lookup_delete_Some. eauto.
    + intros z z' l2 [_ Hz]%lookup_delete_Some [_ Hz']%lookup_delete_Some. eauto.
Qed.
