(* ===== verification/RawMem.v ===== *)
(** * Memory the kernel reads through plain pointers

    Firmware tables and program images are read by casting addresses.  Memory
    is a partial function from addresses to bytes; reading an address that is
    not mapped is a fault. *)

From Stdlib Require Import ZArith Lia.
From stdpp Require Import base tactics numbers list.
From S2P Require Import Prelude Buffer.

Definition memory : Type := Z -> option Z.

Implicit Types (mem : memory) (bs : list Z).

(** [n] bytes from address [a] on. *)
Fixpoint read_bytes mem (a : Z) (n : nat) : res (list Z) :=
  match n with
  | O => Ret []
  | S n' => b ← deref (mem a); bs ← read_bytes mem (a + 1) n'; Ret (b :: bs)
  end.

(** An unsigned field of [n] bytes. *)
Definition read_int mem (a : Z) (n : nat) : res Z := bs ← read_bytes mem a n; Ret (le_val bs).

(** The bytes [bs] are at address [a]. *)
Definition holds mem (a : Z) bs : Prop := forall i b, bs !! i = Some b -> mem (a + Z.of_nat i) = Some b.

(** A part of a block, and a field in it. *)
Definition part (off n : nat) bs : list Z := take n (drop off bs).
Definition field (off n : nat) bs : Z := le_val (part off n bs).

Lemma length_part off n bs : (off + n <= length bs)%nat -> length (part off n bs) = n.
Proof. intros H. unfold part. rewrite length_take, length_drop. lia. Qed.

Lemma holds_cons mem a b bs : holds mem a (b :: bs) <-> mem a = Some b /\ holds mem (a + 1) bs.
Proof.
  split.
  - intros H. split; [specialize (H 0%nat b eq_refl); by rewrite Z.add_0_r in H|]. intros i x Hx. rewrite <- (H (S i) x Hx). f_equal. lia.
  - intros [H0 H] [|i] x Hx; [injection Hx as <-; by rewrite Z.add_0_r|]. rewrite <- (H i x Hx). f_equal. lia.
Qed.

Lemma holds_drop mem a bs n : holds mem a bs -> holds mem (a + Z.of_nat n) (drop n bs).
Proof. intros H i b Hi. rewrite lookup_drop in Hi. rewrite <- (H _ _ Hi). f_equal. lia. Qed.

Lemma holds_app mem a bs bs' : holds mem a (bs ++ bs') <-> holds mem a bs /\ holds mem (a + Z.of_nat (length bs)) bs'.
Proof.
  split.
  - intros H. split; [intros i b Hi; apply H; by apply lookup_app_l_Some|]. pose proof (holds_drop _ _ _ (length bs) H) as Hd. by rewrite drop_app_length in Hd.
  - intros [H1 H2] i b [Hi|[Hle Hi]]%lookup_app_Some; [by apply H1|]. rewrite <- (H2 _ _ Hi). f_equal. lia.
Qed.

Lemma read_holds mem a bs n : holds mem a bs -> (n <= length bs)%nat -> read_bytes mem a n = Ret (take n bs).
Proof.
  revert a bs. induction n as [|n IH]; intros a bs H Hn; [done|]. destruct bs as [|b bs]; [cbn in Hn; lia|]. apply holds_cons in H as [Hb H].
  cbn [read_bytes take]. rewrite Hb. cbn [deref mbind res_bind]. rewrite (IH _ _ H) by (cbn in Hn; lia). done.
Qed.

Lemma read_part mem a bs off n : holds mem a bs -> (off + n <= length bs)%nat -> read_bytes mem (a + Z.of_nat off) n = Ret (part off n bs).
Proof. intros H Hn. apply (read_holds _ _ (drop off bs)); [by apply holds_drop|]. rewrite length_drop. lia. Qed.

Lemma read_field mem a bs off n : holds mem a bs -> (off + n <= length bs)%nat -> read_int mem (a + Z.of_nat off) n = Ret (field off n bs).
Proof. intros H Hn. unfold read_int. by rewrite (read_part _ _ bs). Qed.

(** A number that was written in [n] bytes. *)
Lemma read_le mem a n z : holds mem a (le_bytes n z) -> read_int mem a n = Ret (z mod 2 ^ (8 * Z.of_nat n)).
Proof.
  intros H. unfold read_int. rewrite (read_holds mem a (le_bytes n z)) by (done || by rewrite length_le_bytes). cbn [mbind res_bind].
  rewrite take_ge by (by rewrite length_le_bytes). by rewrite le_val_bytes.
Qed.

Lemma field_range off n bs : bytes_ok bs -> (off + n <= length bs)%nat -> 0 <= field off n bs < 2 ^ (8 * Z.of_nat n).
Proof. intros Hb Hn. rewrite <- (length_part off n bs Hn) at 3. apply le_val_range. by apply Forall_take, Forall_drop. Qed.

(** A memory with the blocks of a list in it, for concrete runs: the first that contains the address counts. *)
Fixpoint blocks (l : list (Z * list Z)) : memory := fun a =>
  match l with
  | [] => None
  | (b, bs) :: l' => if (b <=? a) && (a <? b + Z.of_nat (length bs)) then bs !! Z.to_nat (a - b) else blocks l' a
  end.

(** Whether a block is there, for concrete memories. *)
Fixpoint holdsb mem (a : Z) bs : bool :=
  match bs with
  | [] => true
  | b :: bs' => bool_decide (mem a = Some b) && holdsb mem (a + 1) bs'
  end.

Lemma holdsb_holds mem a bs : holdsb mem a bs = true -> holds mem a bs.
Proof.
  revert a. induction bs as [|b bs IH]; intros a H; [by intros i x Hx|]. cbn in H. apply andb_true_iff in H as [H1%bool_decide_eq_true H2].
  apply holds_cons. split; [done|]. by apply IH.
Qed.

(** ** Polling a device

    A driver that waits for a register reads it again and again; the device
    changes its registers between two reads ([tick]). *)
Section polling.
Context {R : Type} (tick : R -> R) (busy : R -> bool).

Fixpoint poll_loop (fuel : nat) (r : R) : res R :=
  match fuel with
  | O => NoFuel
  | S fuel' => if busy r then poll_loop fuel' (tick r) else Ret r
  end.

(** The device is no longer busy at the [n]-th poll, with the registers [r']. *)
Inductive polls : nat -> R -> R -> Prop :=
| polls_done r : busy r = false -> polls 0 r r
| polls_again n r r' : busy r = true -> polls n (tick r) r' -> polls (S n) r r'.

Lemma poll_loop_spec n r r' fuel : polls n r r' -> (n < fuel)%nat -> poll_loop fuel r = Ret r'.
Proof.
  intros Hp. revert fuel. induction Hp as [r Hb|n r r' Hb _ IH]; intros [|fuel] Hf; try lia; cbn [poll_loop]; rewrite Hb; [done|]. apply IH. lia.
Qed.

Lemma polls_idle n r r' : polls n r r' -> busy r' = false.
Proof. by induction 1. Qed.
End polling.
