(* ===== verification/Acpi.v ===== *)
(** * Firmware tables (zion/boot/acpi.cpp)

    The kernel finds the PCI configuration space and the interrupt controllers
    in the ACPI tables: the root pointer leads to the root table, which lists
    the others.  The tables are read from memory as the firmware left them. *)

From Stdlib Require Import ZArith Lia.
From stdpp Require Import base tactics numbers list.
From S2P Require Import Prelude Status Buffer RawMem.

(** ** State and tables *)

Record Acpi : Type := mkAcpi { gPcieEcBase : Z; gPcieEcSize : Z; gLApicBase : Z; gIOApicBase : Z }.
Definition Acpi_start : Acpi := mkAcpi 0 0 0 0.

Definition sizeof_SdtHeader : Z := 36.

(** Fields of the packed structures, by their offsets. *)
Definition rsdp_revision (mem : memory) (rsdp : Z) : res Z := read_int mem (rsdp + 15) 1.
Definition rsdp_rsdt_addr (mem : memory) (rsdp : Z) : res Z := read_int mem (rsdp + 16) 4.
Definition rsdp_length (mem : memory) (rsdp : Z) : res Z := read_int mem (rsdp + 20) 4.
Definition sdt_length (mem : memory) (sdt : Z) : res Z := read_int mem (sdt + 4) 4.
Definition madt_local_apic_address (mem : memory) (sdt : Z) : res Z := read_int mem (sdt + 36) 4.
Definition madt_first_entry (sdt : Z) : Z := sdt + 44.
Definition entry_type (mem : memory) (entry : Z) : res Z := read_int mem entry 1.
Definition entry_length (mem : memory) (entry : Z) : res Z := read_int mem (entry + 1) 1.
Definition io_apic_address (mem : memory) (entry : Z) : res Z := read_int mem (entry + 4) 4.

Section probe.
Variable mem : memory.
Implicit Types g : Acpi.

(** [streq], against the bytes of a literal. *)
Fixpoint streq (a : Z) (b : list Z) : res bool :=
  match b with
  | [] => Ret true
  | c :: b' => x ← deref (mem a); if negb (x =? c) then Ret false else streq (a + 1) b'
  end.

Fixpoint check_loop (n : nat) (addr check_cnt : Z) : res Z :=
  match n with
  | O => Ret check_cnt
  | S n' => x ← deref (mem addr); check_loop n' (addr + 1) (u8 (check_cnt + x))
  end.

(** The number of bytes is a uint8_t. *)
Definition checksum (addr num_bytes : Z) : res bool :=
  check_cnt ← check_loop (Z.to_nat (u8 num_bytes)) addr 0;
  Ret (check_cnt =? 0).

Definition SdtDataStart (sdt : Z) : Z := sdt + sizeof_SdtHeader.

(** The loop of [ParseMcfg] from entry [i] on; the index [2 * i] is a uint32_t. *)
Fixpoint mcfg_loop (n : nat) (i entries : Z) g : res Acpi :=
  match n with
  | O => Ret g
  | S n' =>
      base_ecm_addr ← read_int mem (entries + 8 * u32 (2 * i)) 8;
      bus_info ← read_int mem (entries + 8 * u32 (u32 (2 * i) + 1)) 8;
      mcfg_loop n' (i + 1) entries (mkAcpi base_ecm_addr (0x100 * 0x20 * 0x8 * 0x1000) (gLApicBase g) (gIOApicBase g))
  end.

Definition ParseMcfg (rsdt : Z) g : res Acpi :=
  length ← sdt_length mem rsdt;
  let size := u32 ((length [-] sizeof_SdtHeader) / 16) in
  mcfg_loop (Z.to_nat size) 0 (SdtDataStart rsdt + 8) g.

(** The loop of [ParseMadt]: only entries of type 1 change anything. *)
Fixpoint madt_loop (fuel : nat) (entry max_addr : Z) g : res Acpi :=
  if negb (entry <? max_addr) then Ret g else
  match fuel with
  | O => NoFuel
  | S fuel' =>
      type ← entry_type mem entry;
      g ← (if type =? 1 then io ← io_apic_address mem entry; Ret (mkAcpi (gPcieEcBase g) (gPcieEcSize g) (gLApicBase g) io) else Ret g);
      length ← entry_length mem entry;
      madt_loop fuel' (entry [+] length) max_addr g
  end.

Definition ParseMadt (rsdt : Z) g : res Acpi :=
  length ← sdt_length mem rsdt;
  let max_addr := rsdt [+] length in
  lapic ← madt_local_apic_address mem rsdt;
  madt_loop (Z.to_nat length) (madt_first_entry rsdt) max_addr (mkAcpi (gPcieEcBase g) (gPcieEcSize g) lapic (gIOApicBase g)).

Definition sig_MCFG : list Z := [0x4D; 0x43; 0x46; 0x47].
Definition sig_APIC : list Z := [0x41; 0x50; 0x49; 0x43].
Definition sig_RSDP : list Z := [0x52; 0x53; 0x44; 0x20; 0x50; 0x54; 0x52; 0x20].

Definition ParseSdt (rsdt : Z) g : res Acpi :=
  length ← sdt_length mem rsdt;
  good ← checksum rsdt length;
  if negb good then Ret g else
  mcfg ← streq rsdt sig_MCFG;
  if mcfg : bool then ParseMcfg rsdt g else
  apic ← streq rsdt sig_APIC;
  if apic : bool then ParseMadt rsdt g else Ret g.

Fixpoint rsdt_loop (n : nat) (entries : Z) g : res Acpi :=
  match n with
  | O => Ret g
  | S n' => table ← read_int mem entries 4; g ← ParseSdt table g; rsdt_loop n' (entries + 4) g
  end.

Definition ProbeRsdt (rsdt : Z) g : res Acpi :=
  length ← sdt_length mem rsdt;
  good ← checksum rsdt length;
  if negb good then Ret g else
  let size := u32 ((length [-] sizeof_SdtHeader) / 4) in
  rsdt_loop (Z.to_nat size) (SdtDataStart rsdt) g.

(** [ProbeRsdp] with the address the boot loader gives; the extended checksum has no effect but a message. *)
Definition ProbeRsdp (rsdp_addr : Z) g : res Acpi :=
  magic ← streq rsdp_addr sig_RSDP;
  if negb magic then Ret g else
  good ← checksum rsdp_addr 20;
  if negb good then Ret g else
  rsdt ← rsdp_rsdt_addr mem rsdp_addr;
  g ← ProbeRsdt rsdt g;
  revision ← rsdp_revision mem rsdp_addr;
  if revision =? 0 then Ret g else
  length ← rsdp_length mem rsdp_addr;
  _ ← checksum rsdp_addr length;
  Ret g.
End probe.

Definition GetPciExtendedConfiguration (g : Acpi) : ErrorOr (Z * Z) :=
  if gPcieEcSize g =? 0 then EErr NOT_FOUND else EOk (gPcieEcBase g, gPcieEcSize g).

Definition GetApicConfiguration (g : Acpi) : ErrorOr (Z * Z) :=
  if (gLApicBase g =? 0) || (gIOApicBase g =? 0) then EErr NOT_FOUND else EOk (gLApicBase g, gIOApicBase g).

(** ** The tables, as the firmware writes them *)
Inductive body : Type :=
| Mcfg (reserved : list Z) (spaces : list (Z * Z))
| Madt (lapic flags : Z) (entries : list (list Z))
| Other (sig data : list Z).

(** A table: what follows the length in the header (revision, checksum, names), and the body. *)
Record sdt : Type := mkSdt { hdr : list Z; contents : body }.

Definition signature (b : body) : list Z := match b with Mcfg _ _ => sig_MCFG | Madt _ _ _ => sig_APIC | Other sig _ => sig end.
Definition space_bytes (s : Z * Z) : list Z := le_bytes 8 s.1 ++ le_bytes 8 s.2.
Definition body_bytes (b : body) : list Z :=
  match b with
  | Mcfg reserved spaces => reserved ++ (spaces ≫= space_bytes)
  | Madt lapic flags entries => le_bytes 4 lapic ++ le_bytes 4 flags ++ mjoin entries
  | Other _ data => data
  end.
Definition sdt_size (t : sdt) : Z := 36 + Z.of_nat (length (body_bytes (contents t))).
Definition sdt_bytes (t : sdt) : list Z := signature (contents t) ++ le_bytes 4 (sdt_size t) ++ hdr t ++ body_bytes (contents t).

(** An entry of the interrupt table: its type, its length and its data. *)
Definition entry_ok (e : list Z) : Prop :=
  (2 <= length e)%nat /\ e !! 1%nat = Some (Z.of_nat (length e)) /\ (e !! 0%nat = Some 1 -> (8 <= length e)%nat).

Definition body_ok (b : body) : Prop :=
  match b with
  | Mcfg reserved spaces => length reserved = 8%nat /\ Forall (fun s => is_u64 s.1) spaces
  | Madt lapic flags entries => 0 <= lapic < 2 ^ 32 /\ Forall entry_ok entries
  | Other sig data => length sig = 4%nat /\ sig <> sig_MCFG /\ sig <> sig_APIC
  end.

Definition sdt_ok (t : sdt) : Prop := length (hdr t) = 28%nat /\ body_ok (contents t) /\ sdt_size t < 2 ^ 32.

Definition sum (l : list Z) : Z := foldr Z.add 0 l.

(** What the kernel checks: the sum of the first bytes, as many as the length leaves modulo 256. *)
Definition sum_ok (bs : list Z) : bool := sum (take (Z.to_nat (u8 (Z.of_nat (length bs)))) bs) mod 256 =? 0.

(** What a table says. *)
Definition last_io (entries : list (list Z)) (io : Z) : Z :=
  foldl (fun io e => if decide (e !! 0%nat = Some 1) then field 4 4 e else io) io entries.
Definition learn (t : sdt) (g : Acpi) : Acpi :=
  if sum_ok (sdt_bytes t) then
    match contents t with
    | Mcfg _ spaces => match last spaces with Some s => mkAcpi s.1 0x10000000 (gLApicBase g) (gIOApicBase g) | None => g end
    | Madt lapic _ entries => mkAcpi (gPcieEcBase g) (gPcieEcSize g) lapic (last_io entries (gIOApicBase g))
    | Other _ _ => g
    end
  else g.

(** ** Reading back what the firmware wrote *)
Section parse.
Context (mem : memory).
Implicit Types (t : sdt) (g : Acpi) (bs : list Z).

Lemma streq_spec a bs b : holds mem a bs -> (length b <= length bs)%nat -> streq mem a b = Ret (bool_decide (take (length b) bs = b)).
Proof.
  revert a bs. induction b as [|c b IH]; intros a bs H Hl; [by rewrite bool_decide_true|]. destruct bs as [|x bs]; [cbn in Hl; lia|].
  apply holds_cons in H as [Hx H]. cbn [streq]. rewrite Hx. cbn [deref mbind res_bind length take]. destruct (Z.eqb_spec x c) as [->|Hne]; cbn [negb].
  - rewrite (IH _ _ H) by (cbn in Hl; lia). f_equal. apply bool_decide_ext. split; [intros Hb; f_equal; exact Hb|intros Hb; injection Hb; done].
  - rewrite bool_decide_false; [done|]. intros Hb. injection Hb. done.
Qed.

Lemma check_loop_spec n : forall a bs c, holds mem a bs -> (n <= length bs)%nat -> check_loop mem n a (u8 c) = Ret (u8 (c + sum (take n bs))).
Proof.
  induction n as [|n IH]; intros a bs c H Hn; [cbn; by rewrite Z.add_0_r|]. destruct bs as [|x bs]; [cbn in Hn; lia|].
  apply holds_cons in H as [Hx H]. cbn [check_loop take sum foldr]. rewrite Hx. cbn [deref mbind res_bind]. replace (u8 (u8 c + x)) with (u8 (c + x)) by (unfold u8; by rewrite Zplus_mod_idemp_l).
  rewrite (IH _ _ _ H) by (cbn in Hn; lia). do 2 f_equal. fold (sum (take n bs)). lia.
Qed.

Lemma checksum_spec a bs n : holds mem a bs -> u8 n <= Z.of_nat (length bs) -> checksum mem a n = Ret (sum (take (Z.to_nat (u8 n)) bs) mod 256 =? 0).
Proof.
  intros H Hn. unfold checksum. pose proof (u8_range n). pose proof (check_loop_spec (Z.to_nat (u8 n)) a bs 0 H ltac:(lia)) as HC.
  change (u8 0) with 0 in HC. by rewrite HC.
Qed.

Lemma length_sdt t : sdt_ok t -> Z.of_nat (length (sdt_bytes t)) = sdt_size t /\ length (signature (contents t)) = 4%nat.
Proof.
  intros (Hh & Hb & _). assert (length (signature (contents t)) = 4%nat) as Hs by (destruct (contents t); cbn in *; [done|done|by destruct Hb]).
  split; [|done]. unfold sdt_bytes, sdt_size. rewrite !length_app, length_le_bytes, Hh, Hs. lia.
Qed.

Lemma sdt_layout t a : sdt_ok t -> holds mem a (sdt_bytes t) ->
  sdt_length mem a = Ret (sdt_size t) /\ holds mem (a + 36) (body_bytes (contents t)) /\ 36 <= sdt_size t < 2 ^ 32 /\ holds mem a (signature (contents t)).
Proof.
  intros Hok H. destruct (length_sdt t Hok) as [Hl Hs]. destruct Hok as (Hh & Hb & Hsz). assert (36 <= sdt_size t) as Hge by (unfold sdt_size; lia).
  unfold sdt_bytes in H. apply holds_app in H as [H0 H]. rewrite Hs in H. apply holds_app in H as [H1 H]. rewrite length_le_bytes in H. apply holds_app in H as [_ H2]. rewrite Hh in H2.
  split_and!; try done; [|by replace (a + 36) with (a + Z.of_nat 4 + Z.of_nat 4 + Z.of_nat 28) by lia].
  unfold sdt_length. rewrite (read_le mem (a + 4) 4 (sdt_size t)) by done. by rewrite Z.mod_small by lia.
Qed.

Lemma mcfg_loop_spec entries spaces : forall i g,
  holds mem (entries + 16 * i) (spaces ≫= space_bytes) -> Forall (fun s => is_u64 s.1) spaces -> 0 <= i -> i + Z.of_nat (length spaces) < 2 ^ 31 ->
  mcfg_loop mem (length spaces) i entries g =
    Ret (match last spaces with Some s => mkAcpi s.1 0x10000000 (gLApicBase g) (gIOApicBase g) | None => g end).
Proof.
  induction spaces as [|s spaces IH]; intros i g H Hf Hi Hn; [done|]. apply Forall_cons in Hf as [Hs Hf]. cbn [length] in *.
  change ((s :: spaces) ≫= space_bytes) with (space_bytes s ++ (spaces ≫= space_bytes)) in H. apply holds_app in H as [H1 H2]. unfold space_bytes in H1 at 1. apply holds_app in H1 as [H1 H1'].
  cbn [mcfg_loop]. rewrite (u32_small (2 * i)), u32_small by lia. replace (entries + 8 * (2 * i)) with (entries + 16 * i) by lia.
  rewrite (read_le mem (entries + 16 * i) 8 s.1) by done. cbn [mbind res_bind].
  rewrite length_le_bytes in H1'. replace (entries + 8 * (2 * i + 1)) with (entries + 16 * i + Z.of_nat 8) by lia.
  rewrite (read_le mem _ 8 s.2) by done. cbn [mbind res_bind]. rewrite (Z.mod_small s.1) by exact Hs.
  unfold space_bytes in H2 at 1. rewrite length_app, !length_le_bytes in H2. rewrite IH; [|by replace (entries + 16 * (i + 1)) with (entries + 16 * i + Z.of_nat (8 + 8)) by lia|done|lia|lia].
  destruct spaces as [|s' spaces]; [done|]. rewrite last_cons_cons. by destruct (last (s' :: spaces)) eqn:E; [|apply last_None in E].
Qed.

Lemma entry_fields e rest a : entry_ok e -> holds mem a (e ++ rest) ->
  exists ty, e !! 0%nat = Some ty /\ entry_type mem a = Ret ty /\ entry_length mem a = Ret (Z.of_nat (length e)) /\
    (ty = 1 -> io_apic_address mem a = Ret (field 4 4 e)) /\ holds mem (a + Z.of_nat (length e)) rest.
Proof.
  intros (Hl & H1 & H8) H. apply holds_app in H as [He Hr]. destruct e as [|ty [|n e]]; [cbn in Hl; lia..|]. exists ty. split; [done|].
  assert (forall x, le_val [x] = x) as Hone by (intros x; cbn; lia). cbn in H1. injection H1 as Hn. pose proof (proj1 (holds_cons _ _ _ _) He) as [Ha He1]. apply holds_cons in He1 as [Hb _].
  unfold entry_type, entry_length, read_int. cbn [read_bytes]. rewrite Ha, Hb. cbn [deref mbind res_bind]. rewrite !Hone. split_and!; try done.
  - cbn [length]. by rewrite Hn.
  - intros ->. apply (read_field mem a (1 :: n :: e) 4 4); [done|]. by apply H8.
Qed.

Lemma madt_loop_spec es : forall fuel a g,
  holds mem a (mjoin es) -> Forall entry_ok es -> (length es <= fuel)%nat -> 0 <= a -> a + Z.of_nat (length (mjoin es)) < 2 ^ 64 ->
  madt_loop mem fuel a (a + Z.of_nat (length (mjoin es))) g =
    Ret (mkAcpi (gPcieEcBase g) (gPcieEcSize g) (gLApicBase g) (last_io es (gIOApicBase g))).
Proof.
  induction es as [|e es IH]; intros fuel a g H Hf Hfu Ha Hmax.
  - cbn [mjoin list_join length]. rewrite Z.add_0_r. destruct fuel; cbn [madt_loop]; rewrite Z.ltb_irrefl; by destruct g.
  - apply Forall_cons in Hf as [He Hf]. change (mjoin (e :: es)) with (e ++ mjoin es) in *. rewrite length_app in *. destruct fuel as [|fuel]; [cbn in Hfu; lia|].
    destruct (entry_fields e _ a He H) as (ty & Hty & Ht & Hlen & Hio & Hr). pose proof He as (Hl2 & _ & _). cbn [madt_loop].
    destruct (Z.ltb_spec a (a + Z.of_nat (length e + length (mjoin es)))); [|lia]. cbn [negb]. rewrite Ht. cbn [mbind res_bind].
    set (g' := mkAcpi (gPcieEcBase g) (gPcieEcSize g) (gLApicBase g) (if decide (e !! 0%nat = Some 1) then field 4 4 e else gIOApicBase g)).
    assert ((if ty =? 1 then io ← io_apic_address mem a; Ret (mkAcpi (gPcieEcBase g) (gPcieEcSize g) (gLApicBase g) io) else Ret g) = Ret g') as ->.
    { unfold g'. rewrite Hty. destruct (Z.eqb_spec ty 1) as [->|Hne]; [rewrite (Hio eq_refl), decide_True by done; done|rewrite decide_False by congruence; by destruct g]. }
    cbn [mbind res_bind]. rewrite Hlen. cbn [mbind res_bind]. rewrite u64_small by lia.
    replace (a + Z.of_nat (length e + length (mjoin es))) with (a + Z.of_nat (length e) + Z.of_nat (length (mjoin es))) by lia. cbn in Hfu. rewrite (IH fuel _ g') by (done || lia). done.
Qed.

Lemma entries_length es : Forall entry_ok es -> (length es <= length (mjoin es))%nat.
Proof. induction 1 as [|e es He _ IH]; [done|]. change (mjoin (e :: es)) with (e ++ mjoin es). rewrite length_app. destruct He as [He _]. cbn [length]. lia. Qed.

(** A table is understood as it was written. *)
Lemma ParseSdt_spec t a g : sdt_ok t -> holds mem a (sdt_bytes t) -> 0 <= a -> a + sdt_size t < 2 ^ 64 -> ParseSdt mem a g = Ret (learn t g).
Proof.
  intros Hok H Ha Hm. destruct (sdt_layout t a Hok H) as (Hlen & Hbody & Hsz & Hsig). destruct (length_sdt t Hok) as [Hl Hs]. unfold ParseSdt. rewrite Hlen. cbn [mbind res_bind].
  rewrite (checksum_spec a (sdt_bytes t)); [|done|unfold u8; rewrite Hl; apply Z.mod_le; lia]. cbn [mbind res_bind]. unfold learn, sum_ok. rewrite Hl.
  destruct (_ =? 0); [|done]. cbn [negb]. rewrite (streq_spec a (signature (contents t)) sig_MCFG) by (done || by rewrite Hs). cbn [mbind res_bind].
  change (length sig_MCFG) with 4%nat. rewrite take_ge by (by rewrite Hs). destruct Hok as (_ & Hb & _). destruct (contents t) as [reserved spaces|lapic flags es|sig data] eqn:E; cbn [signature body_ok body_bytes] in *.
  - rewrite bool_decide_true by done. unfold ParseMcfg. rewrite Hlen. cbn [mbind res_bind]. destruct Hb as [Hr Hsp]. apply holds_app in Hbody as [_ Hbody].
    assert (Z.of_nat (length (spaces ≫= space_bytes)) = 16 * Z.of_nat (length spaces)) as Hls.
    { clear. induction spaces as [|s l IH]; [done|]. change ((s :: l) ≫= space_bytes) with (space_bytes s ++ (l ≫= space_bytes)). unfold space_bytes at 1. rewrite !length_app, !length_le_bytes. cbn. lia. }
    assert (sdt_size t = 44 + 16 * Z.of_nat (length spaces)) as Hsize by (unfold sdt_size; rewrite E; cbn [body_bytes]; rewrite length_app; lia).
    rewrite Hsize. unfold sizeof_SdtHeader. rewrite (u64_small (_ - 36)) by lia. replace ((44 + 16 * Z.of_nat (length spaces) - 36) / 16) with (Z.of_nat (length spaces))
      by (replace (44 + 16 * Z.of_nat (length spaces) - 36) with (8 + Z.of_nat (length spaces) * 16) by lia; rewrite Z.div_add by lia; change (8 / 16) with 0; lia).
    rewrite u32_small, Nat2Z.id by lia. apply mcfg_loop_spec; [|done|lia|lia]. unfold SdtDataStart, sizeof_SdtHeader. rewrite Hr in Hbody. by replace (a + 36 + 8 + 16 * 0) with (a + 36 + Z.of_nat 8) by lia.
  - rewrite bool_decide_false by done. rewrite (streq_spec a sig_APIC) by done. cbn [mbind res_bind]. rewrite bool_decide_true by done. unfold ParseMadt. rewrite Hlen. cbn [mbind res_bind].
    destruct Hb as [Hla Hes]. pose proof Hbody as Hb36. apply holds_app in Hbody as [H1 Hbody]. rewrite length_le_bytes in Hbody. apply holds_app in Hbody as [_ Hbody]. rewrite length_le_bytes in Hbody.
    unfold madt_local_apic_address. rewrite (read_le mem (a + 36) 4 lapic) by done. cbn [mbind res_bind]. rewrite Z.mod_small, u64_small by lia.
    assert (sdt_size t = 44 + Z.of_nat (length (mjoin es))) as Hsize by (unfold sdt_size; rewrite E; cbn [body_bytes]; rewrite !length_app, !length_le_bytes; lia).
    unfold madt_first_entry. replace (a + sdt_size t) with (a + 44 + Z.of_nat (length (mjoin es))) by lia. pose proof (entries_length es Hes).
    rewrite madt_loop_spec; [done|by replace (a + 44) with (a + 36 + Z.of_nat 4 + Z.of_nat 4) by lia|done|lia|lia|lia].
  - destruct Hb as (Hl4 & Hn1 & Hn2). rewrite bool_decide_false by done. rewrite (streq_spec a sig) by (done || by rewrite Hl4). cbn [mbind res_bind].
    change (length sig_APIC) with 4%nat. rewrite take_ge by lia. by rewrite bool_decide_false by done.
Qed.
End parse.

(** ** The root pointer and the root table *)
Record rsdp : Type := mkRsdp { r_names : list Z; r_revision : Z; r_rsdt : Z; r_extended : list Z }.

Definition rsdp_bytes (r : rsdp) : list Z := sig_RSDP ++ r_names r ++ [r_revision r] ++ le_bytes 4 (r_rsdt r) ++ r_extended r.

(** The sizes of the fields; the length of the extended part must not point outside of it. *)
Definition rsdp_ok (r : rsdp) : Prop :=
  length (r_names r) = 7%nat /\ length (r_extended r) = 16%nat /\ 0 <= r_rsdt r < 2 ^ 32 /\
  (r_revision r <> 0 -> u8 (field 0 4 (r_extended r)) <= 36).

(** Version 1 is covered by the first checksum. *)
Definition rsdp_sum_ok (r : rsdp) : bool := sum (take 20 (rsdp_bytes r)) mod 256 =? 0.

(** The root table: the addresses of the others. *)
Definition sig_RSDT : list Z := [0x52; 0x53; 0x44; 0x54].
Definition rsdt_body (addrs : list Z) : body := Other sig_RSDT (addrs ≫= le_bytes 4).

Section probing.
Context (mem : memory).
Implicit Types (tables : list (Z * sdt)) (g : Acpi).

(** The tables are where the root table says. *)
Definition tables_at tables : Prop :=
  Forall (fun p => 0 <= p.1 < 2 ^ 32 /\ sdt_ok p.2 /\ holds mem p.1 (sdt_bytes p.2)) tables.

Lemma rsdt_loop_spec tables : forall a g,
  holds mem a (tables.*1 ≫= le_bytes 4) -> tables_at tables -> rsdt_loop mem (length tables) a g = Ret (foldl (fun g p => learn p.2 g) g tables).
Proof.
  induction tables as [|[ta t] tables IH]; intros a g H Hf; [done|]. apply Forall_cons in Hf as [(Ha & Hok & Ht) Hf]. cbn [fst snd] in *.
  change (((ta, t) :: tables).*1 ≫= le_bytes 4) with (le_bytes 4 ta ++ (tables.*1 ≫= le_bytes 4)) in H. apply holds_app in H as [H1 H2]. rewrite length_le_bytes in H2.
  cbn [rsdt_loop length foldl]. rewrite (read_le mem a 4 ta H1). cbn [mbind res_bind]. rewrite Z.mod_small by lia.
  rewrite (ParseSdt_spec mem t ta g Hok Ht) by (destruct Hok; lia). cbn [mbind res_bind]. by apply IH.
Qed.

Lemma ProbeRsdt_spec a h tables g :
  let t := mkSdt h (rsdt_body tables.*1) in
  sdt_ok t -> holds mem a (sdt_bytes t) -> 0 <= a < 2 ^ 32 -> tables_at tables ->
  ProbeRsdt mem a g = Ret (if sum_ok (sdt_bytes t) then foldl (fun g p => learn p.2 g) g tables else g).
Proof.
  intros t Hok H Ha Htab. destruct (sdt_layout mem t a Hok H) as (Hlen & Hbody & Hsz & _). destruct (length_sdt t Hok) as [Hl _]. unfold ProbeRsdt. rewrite Hlen. cbn [mbind res_bind].
  rewrite (checksum_spec mem a (sdt_bytes t)); [|done|unfold u8; rewrite Hl; apply Z.mod_le; lia]. cbn [mbind res_bind]. unfold sum_ok. rewrite Hl. destruct (_ =? 0); [|done]. cbn [negb].
  assert (Z.of_nat (length (tables.*1 ≫= le_bytes 4)) = 4 * Z.of_nat (length tables)) as Hls.
  { clear. induction tables as [|[ta t] l IH]; [done|]. change (((ta, t) :: l).*1 ≫= le_bytes 4) with (le_bytes 4 ta ++ (l.*1 ≫= le_bytes 4)). rewrite !length_app, !length_le_bytes. cbn [length]. lia. }
  assert (sdt_size t = 36 + 4 * Z.of_nat (length tables)) as Hs by (unfold sdt_size, t, rsdt_body; cbn [contents body_bytes]; lia). rewrite Hs. unfold sizeof_SdtHeader. rewrite u64_small by lia.
  replace ((36 + 4 * Z.of_nat (length tables) - 36) / 4) with (Z.of_nat (length tables)) by (replace (36 + 4 * Z.of_nat (length tables) - 36) with (Z.of_nat (length tables) * 4) by lia; by rewrite Z.div_mul).
  rewrite u32_small, Nat2Z.id by lia. by apply rsdt_loop_spec.
Qed.

End probing.

(** A table whose length is a multiple of 256 is not checked at all. *)
Lemma checksum_skipped mem a n : u8 n = 0 -> checksum mem a n = Ret true.
Proof. intros Hn. unfold checksum. by rewrite Hn. Qed.

(** An interrupt entry of length zero is looked at forever. *)
Lemma madt_loop_stuck mem entry max_addr g :
  is_u64 entry -> entry < max_addr -> mem entry = Some 0 -> mem (entry + 1) = Some 0 -> forall fuel, madt_loop mem fuel entry max_addr g = NoFuel.
Proof.
  intros He Hlt H0 H1. induction fuel as [|fuel IH]; cbn [madt_loop]; (destruct (Z.ltb_spec entry max_addr); [|lia]); cbn [negb]; [done|].
  unfold entry_type, entry_length, read_int. cbn [read_bytes]. rewrite H0, H1. cbn. rewrite Z.add_0_r, u64_small by done. exact IH.
Qed.

(** *** Witness: a root table with an MCFG and an APIC table *)
Definition demo_mcfg : sdt := mkSdt (0xF8 :: replicate 27 0) (Mcfg (replicate 8 0) [(0xB0000000, 0xFF000000)]).
Definition demo_madt : sdt := mkSdt (0xF0 :: replicate 27 0) (Madt 0xFEE00000 1 [[0; 8; 0; 0; 1; 0; 0; 0]; [1; 12; 0; 0; 0; 0; 0xC0; 0xFE; 0; 0; 0; 0]]).
Definition demo_rsdt : sdt := mkSdt (0x47 :: replicate 27 0) (rsdt_body [0x2000; 0x3000]).
Definition demo_rsdp : rsdp := mkRsdp (0xD1 :: replicate 6 0) 0 0x1000 (replicate 16 0).
Definition demo_firmware : memory :=
  blocks [(0x500, rsdp_bytes demo_rsdp); (0x1000, sdt_bytes demo_rsdt); (0x2000, sdt_bytes demo_mcfg); (0x3000, sdt_bytes demo_madt)].

