(* ===== verification/Apic.v ===== *)
(** * Interrupt hardware (zion/interrupt/apic.cpp, apic_timer.cpp, timer.cpp,
    the descriptor tables of interrupt.cpp and common/gdt.cpp)

    The registers of the interrupt controllers, the calibration of the local
    timer with the old one, and the tables the processor reads.  A register
    page is a map from offsets to 32-bit values; what is written to I/O ports
    is a list.  The addresses of the assembly entry points and of the kernel's
    own tables are parameters. *)

From Stdlib Require Import ZArith Lia.
From stdpp Require Import base tactics numbers list gmap.
From S2P Require Import Prelude Status RawMem Acpi.

(** ** Registers *)
Record hardware : Type := mkHw {
  local_regs : gmap Z Z;
  io_select : Z;
  io_regs : gmap Z Z;
  port_writes : list (Z * Z);
}.

Implicit Types h : hardware.

Definition reg (m : gmap Z Z) (i : Z) : Z := default 0 (m !! i).

Definition outb (port value : Z) h : hardware := mkHw (local_regs h) (io_select h) (io_regs h) (port_writes h ++ [(port, value)]).

Definition GetLocalReg (offset : Z) h : Z := reg (local_regs h) offset.
Definition SetLocalReg (offset value : Z) h : hardware := mkHw (<[offset := u32 value]> (local_regs h)) (io_select h) (io_regs h) (port_writes h).

(** [*io_apic_addr_ = offset], and the data register behind it. *)
Definition select (offset : Z) h : hardware := mkHw (local_regs h) (u8 offset) (io_regs h) (port_writes h).
Definition io_data h : Z := reg (io_regs h) (io_select h).
Definition set_io_data (v : Z) h : hardware := mkHw (local_regs h) (io_select h) (<[io_select h := u32 v]> (io_regs h)) (port_writes h).

Definition GetIoReg (offset : Z) h : Z * hardware := let h := select offset h in (io_data h, h).

Definition GetIoDoubleReg (offset : Z) h : Z * hardware :=
  let h := select offset h in
  let entry := io_data h in
  let h := select (offset + 1) h in
  (Z.lor entry (Z.shiftl (io_data h) 32), h).

Definition SetIoDoubleReg (offset value : Z) h : hardware :=
  let h := set_io_data (Z.land value 0xFFFFFFFF) (select offset h) in
  set_io_data (Z.shiftr value 32) (select (offset + 1) h).

(** ** The controllers (apic.cpp) *)
Definition kEoiOffset : Z := 0xB0.
Definition kLvtTimerOffset : Z := 0x320.
Definition kTimerInitOffset : Z := 0x380.
Definition kTimerCurrOffset : Z := 0x390.
Definition APIC_MASK : Z := 0x10000.

Definition MaskPic h : hardware :=
  foldl (fun h '(p, v) => outb p v h) h
    [(0x21, 0xFF); (0xA1, 0xFF); (0x20, 0x11); (0xA0, 0x11); (0x21, 0x80); (0xA1, 0x80);
     (0x21, 0x4); (0xA1, 0x2); (0x21, 0x1); (0xA1, 0x1); (0x21, 0xFF); (0xA1, 0xFF)].

Inductive TimerMode : Type := ONESHOT | PERIODIC.

Definition GetLocalTimerValue h : Z := GetLocalReg kTimerCurrOffset h.

Definition InitializeLocalTimer (init_cnt : Z) (mode : TimerMode) h : hardware :=
  let vector := match mode with ONESHOT => Z.lor 0x21 0 | PERIODIC => Z.lor 0x21 (2 ^ 17) end in
  SetLocalReg kTimerInitOffset init_cnt (SetLocalReg kLvtTimerOffset vector h).

Definition SignalEOI h : hardware := SetLocalReg kEoiOffset 0 h.

(** [~(APIC_MASK)] of an int, widened with its sign. *)
Definition UnmaskPit h : hardware :=
  let '(entry, h) := GetIoDoubleReg 0x14 h in SetIoDoubleReg 0x14 (Z.land entry (not64 APIC_MASK)) h.
Definition MaskPit h : hardware :=
  let '(entry, h) := GetIoDoubleReg 0x14 h in SetIoDoubleReg 0x14 (Z.lor entry APIC_MASK) h.

(** The constructor of [Apic]. *)
Definition Apic_new h : hardware :=
  let h := MaskPic h in
  let h := SetIoDoubleReg 0x14 (Z.lor 0x20 APIC_MASK) h in
  let h := SetIoDoubleReg 0x12 0x22 h in
  let h := SetIoDoubleReg 0x30 0x30 h in
  let h := SetIoDoubleReg 0x32 0x31 h in
  let h := SetIoDoubleReg 0x34 0x32 h in
  SetIoDoubleReg 0x36 0x33 h.

(** [Apic::Init]: without the configuration the kernel stops. *)
Definition Apic_Init (g : Acpi) h : res hardware :=
  match GetApicConfiguration g with
  | EErr _ => Panic
  | EOk _ => Ret (Apic_new h)
  end.

(** ** Timers (timer.cpp, apic_timer.cpp) *)
Definition kPitFrequency : Z := 1193182.
Definition kScheduleFrequency : Z := 20.

(** [kPitMode3 | kCmdRwBoth | kSelect0] to the command port, then the reload value; [hertz] of zero divides by zero. *)
Definition SetFrequency (hertz : Z) h : res hardware :=
  if hertz =? 0 then Fault else
  let reload := u16 (kPitFrequency / hertz) in
  Ret (outb 0x40 (Z.shiftr reload 8) (outb 0x40 (Z.land reload 0xFF) (outb 0x43 (Z.lor (Z.lor 0x06 0x30) 0x00) h))).

Record ApicTimer : Type := mkTimer { initial_measurement : Z; tick_count : Z; calculated_frequency_ : Z }.
Definition ApicTimer_new : ApicTimer := mkTimer 0 0 0.

Definition StartCalibration h : res hardware :=
  h ← SetFrequency 100 h;
  Ret (UnmaskPit (InitializeLocalTimer 0xFFFFFFFF ONESHOT h)).

Definition FinishCalibration (t : ApicTimer) h : hardware :=
  InitializeLocalTimer (calculated_frequency_ t / kScheduleFrequency) PERIODIC (MaskPit h).

Definition Calibrate (t : ApicTimer) h : ApicTimer * hardware :=
  if initial_measurement t =? 0 then (mkTimer (GetLocalTimerValue h) (tick_count t) (calculated_frequency_ t), h) else
  let t := mkTimer (initial_measurement t) (u32 (tick_count t + 1)) (calculated_frequency_ t) in
  if tick_count t =? 10 then
    let t := mkTimer (initial_measurement t) (tick_count t) (u32 (10 * u32 (initial_measurement t - GetLocalTimerValue h))) in
    (t, FinishCalibration t h)
  else (t, h).

(** [interrupt_timer], when the old timer fires and the local one stands at [now]. *)
Definition interrupt_timer (now : Z) (st : ApicTimer * hardware) : ApicTimer * hardware :=
  let h := SetLocalReg kTimerCurrOffset now st.2 in
  let '(t, h) := Calibrate st.1 h in
  (t, SignalEOI h).

(** ** The interrupt table (interrupt.cpp) *)
Record InterruptDescriptor : Type := mkGate {
  offset_low : Z; selector : Z; ist : Z; flags : Z; offset_medium : Z; offset_high : Z; gate_zero : Z;
}.

Definition KERNEL_CS : Z := 0x8.
Definition IDT_INTERRUPT_GATE : Z := 0x8E.
Definition empty_gate : InterruptDescriptor := mkGate 0 0 0 0 0 0 0.

Definition CreateDescriptor (isr ist : Z) : InterruptDescriptor :=
  mkGate (u16 isr) KERNEL_CS ist IDT_INTERRUPT_GATE (u16 (isr / 2 ^ 16)) (u32 (isr / 2 ^ 32)) 0.

(** The assembly entry points. *)
Inductive isr : Type :=
| isr_divide_by_zero | isr_invalid_opcode | isr_protection_fault | isr_page_fault | isr_fpe_fault
| isr_timer | isr_apic_timer | isr_keyboard | isr_pci1 | isr_pci2 | isr_pci3 | isr_pci4.

Section idt.
Variable address : isr -> Z.

Definition gate (v : nat) (i : isr) (idt : list InterruptDescriptor) : list InterruptDescriptor := <[v := CreateDescriptor (address i) 0]> idt.

(** [InitIdt] on the zeroed table, up to loading it. *)
Definition InitIdt : list InterruptDescriptor :=
  let idt := replicate 256 empty_gate in
  let idt := gate 0 isr_divide_by_zero idt in
  let idt := gate 0x6 isr_invalid_opcode idt in
  let idt := gate 0xD isr_protection_fault idt in
  let idt := gate 0xE isr_page_fault idt in
  let idt := gate 0x13 isr_fpe_fault idt in
  let idt := gate 0x20 isr_timer idt in
  let idt := gate 0x21 isr_apic_timer idt in
  let idt := gate 0x22 isr_keyboard idt in
  let idt := gate 0x30 isr_pci1 idt in
  let idt := gate 0x31 isr_pci2 idt in
  let idt := gate 0x32 isr_pci3 idt in
  gate 0x33 isr_pci4 idt.

Definition UpdateFaultHandlersToIst1 (idt : list InterruptDescriptor) : list InterruptDescriptor :=
  <[14%nat := CreateDescriptor (address isr_page_fault) 1]> (<[13%nat := CreateDescriptor (address isr_protection_fault) 1]> idt).
End idt.

(** ** The segments (gdt.cpp) *)
Definition CreateSegment (access flags : Z) : Z :=
  let access := Z.land access 0xFF in
  let flags := Z.lor (Z.land flags 0xF0) 0xF in
  Z.lor (Z.lor 0xFFFF (u64 (Z.shiftl access 40))) (u64 (Z.shiftl flags 48)).

Definition sizeof_TaskStateSegment : Z := 104.
Definition GDT_ACCESSED : Z := 1.
Definition GDT_READ_WRITE : Z := 2.
Definition GDT_EXECUTABLE : Z := 8.
Definition GDT_SEGMENT : Z := 16.
Definition GDT_RING3 : Z := 0x60.
Definition GDT_PRESENT : Z := 0x80.
Definition GDT_FLAGS : Z := Z.lor 0x80 0x20.

Definition CreateTssSegment (base : Z) : Z :=
  let access := Z.lor (Z.lor GDT_ACCESSED GDT_PRESENT) GDT_EXECUTABLE in
  Z.lor (Z.lor (Z.lor (Z.lor sizeof_TaskStateSegment (Z.shiftl (Z.land base 0xFFFF) 16)) (Z.shiftl (Z.land (Z.shiftr base 16) 0xFF) 32))
    (Z.shiftl access 40)) (Z.shiftl (Z.land (Z.shiftr base 24) 0xFF) 56).

(** [InitGdt] up to loading it; [tss] is the address of the task state segment. *)
Definition InitGdt (tss : Z) : list Z :=
  let default_bits := Z.lor (Z.lor GDT_PRESENT GDT_SEGMENT) GDT_READ_WRITE in
  let user_cs := CreateSegment (Z.lor (Z.lor default_bits GDT_RING3) GDT_EXECUTABLE) GDT_FLAGS in
  [CreateSegment 0 0;
   CreateSegment (Z.lor default_bits GDT_EXECUTABLE) GDT_FLAGS;
   CreateSegment default_bits GDT_FLAGS;
   user_cs;
   CreateSegment (Z.lor default_bits GDT_RING3) GDT_FLAGS;
   user_cs;
   CreateTssSegment tss;
   Z.shiftr tss 32].

(** The fields of the task state segment the kernel sets. *)
Record TaskStateSegment : Type := mkTss { rsp0 : Z; ist1 : Z; iomap_base : Z }.
Definition SetIst1 (v : Z) (t : TaskStateSegment) : TaskStateSegment := mkTss (rsp0 t) v (iomap_base t).
Definition SetRsp0 (v : Z) (t : TaskStateSegment) : TaskStateSegment := mkTss v (ist1 t) (iomap_base t).

(** ** Registers read back *)

(** The entry a pair of registers makes. *)
Definition io_entry (i : Z) h : Z := Z.lor (reg (io_regs h) i) (Z.shiftl (reg (io_regs h) (i + 1)) 32).

Lemma reg_insert m i j v : reg (<[i := v]> m) j = if decide (i = j) then v else reg m j.
Proof. unfold reg. case_decide as E; [subst; by rewrite lookup_insert_eq|by rewrite lookup_insert_ne]. Qed.

Lemma lor_shiftl k lo hi : 0 <= k -> 0 <= lo < 2 ^ k -> 0 <= hi -> Z.lor lo (Z.shiftl hi k) = lo + 2 ^ k * hi.
Proof.
  intros Hk Hl Hh. rewrite Z.shiftl_mul_pow2 by lia. rewrite <- Z.add_nocarry_lor; [lia|].
  apply Z.bits_inj'. intros n Hn. rewrite Z.bits_0, Z.land_spec. destruct (Z.lt_ge_cases n k).
  - by rewrite (Z.mul_pow2_bits_low hi) by lia; rewrite andb_false_r.
  - rewrite <- (Z.mod_small lo (2 ^ k)) by lia. by rewrite Z.mod_pow2_bits_high by lia.
Qed.

Lemma lor_halves lo hi : 0 <= lo < 2 ^ 32 -> 0 <= hi -> Z.lor lo (Z.shiftl hi 32) = lo + 2 ^ 32 * hi.
Proof. intros. apply lor_shiftl; lia. Qed.

Lemma SetIoDoubleReg_regs i v h : 0 <= i < 255 ->
  io_regs (SetIoDoubleReg i v h) = <[i + 1 := u32 (Z.shiftr v 32)]> (<[i := u32 (Z.land v 0xFFFFFFFF)]> (io_regs h)) /\
  local_regs (SetIoDoubleReg i v h) = local_regs h.
Proof. intros Hi. unfold SetIoDoubleReg, set_io_data, select. cbn. unfold u8. by rewrite !Z.mod_small by lia. Qed.

Lemma GetIoDoubleReg_entry i h : 0 <= i < 255 -> fst (GetIoDoubleReg i h) = io_entry i h.
Proof. intros Hi. unfold GetIoDoubleReg, io_entry, io_data, select. cbn. unfold u8. by rewrite !Z.mod_small by lia. Qed.

(** An entry reads back as it was written, and no other entry changes. *)
Lemma SetIoDoubleReg_entry i j v h : 0 <= i < 255 -> is_u64 v -> (i = j \/ j + 1 < i \/ i + 1 < j) ->
  io_entry j (SetIoDoubleReg i v h) = if decide (i = j) then v else io_entry j h.
Proof.
  intros Hi Hv Hj. unfold io_entry. rewrite (proj1 (SetIoDoubleReg_regs i v h Hi)). destruct (decide (i = j)) as [<-|Hne]; rewrite !reg_insert.
  - rewrite (decide_False (P := i + 1 = i)), (decide_True (P := i = i)), (decide_True (P := i + 1 = i + 1)) by lia. change 0xFFFFFFFF with (2 ^ 32 - 1). rewrite land_low, Z.shiftr_div_pow2 by lia. unfold is_u64 in Hv.
    unfold u32. rewrite Z.mod_mod by lia. pose proof (Z.mod_pos_bound v (2 ^ 32)). pose proof (Z.div_pos v (2 ^ 32)).
    rewrite (Z.mod_small (v / 2 ^ 32)) by (split; [lia|apply Z.div_lt_upper_bound; lia]). rewrite lor_halves by lia. pose proof (Z.div_mod v (2 ^ 32)). lia.
  - rewrite !decide_False by lia. done.
Qed.

(** ** Where interrupts go *)

(** The address in a gate, as the processor puts it together. *)
Definition target (g : InterruptDescriptor) : Z := offset_low g + 2 ^ 16 * offset_medium g + 2 ^ 32 * offset_high g.

Lemma target_CreateDescriptor a i : is_u64 a -> target (CreateDescriptor a i) = a.
Proof.
  intros Ha. unfold is_u64 in Ha. unfold target, CreateDescriptor, u16, u32. cbn [offset_low offset_medium offset_high].
  pose proof (Z.div_mod a (2 ^ 16)) as H1. pose proof (Z.div_mod (a / 2 ^ 16) (2 ^ 16)) as H2. rewrite Z.div_div in H2 by lia. change (2 ^ 16 * 2 ^ 16) with (2 ^ 32) in H2.
  rewrite (Z.mod_small (a / 2 ^ 32)) by (split; [apply Z.div_pos; lia|apply Z.div_lt_upper_bound; lia]). lia.
Qed.

(** A gate that is present, runs kernel code with interrupts off, and enters at [a]. *)
Definition enters (g : InterruptDescriptor) (a : Z) : Prop := flags g = IDT_INTERRUPT_GATE /\ selector g = KERNEL_CS /\ target g = a.

(** Lines of the I/O controller, the handler each is for, and whether it starts masked. *)
Definition routes : list (Z * isr * bool) :=
  [(0x12, isr_keyboard, false); (0x14, isr_timer, true); (0x30, isr_pci1, false); (0x32, isr_pci2, false); (0x34, isr_pci3, false); (0x36, isr_pci4, false)].

Definition entry_vector (e : Z) : nat := Z.to_nat (Z.land e 0xFF).
Definition entry_masked (e : Z) : bool := Z.testbit e 16.

(** The vector of each handler. *)
Definition vector_of (i : isr) : nat :=
  match i with
  | isr_divide_by_zero => 0 | isr_invalid_opcode => 6 | isr_protection_fault => 13 | isr_page_fault => 14 | isr_fpe_fault => 19
  | isr_timer => 0x20 | isr_apic_timer => 0x21 | isr_keyboard => 0x22 | isr_pci1 => 0x30 | isr_pci2 => 0x31 | isr_pci3 => 0x32 | isr_pci4 => 0x33
  end%nat.

Lemma InitIdt_gates a i : InitIdt a !! vector_of i = Some (CreateDescriptor (a i) 0).
Proof. by destruct i. Qed.

Lemma Update_gates a i : UpdateFaultHandlersToIst1 a (InitIdt a) !! vector_of i =
  Some (CreateDescriptor (a i) (match i with isr_protection_fault | isr_page_fault => 1 | _ => 0 end)).
Proof. by destruct i. Qed.

(** The entries the constructor of [Apic] leaves. *)
Definition line_entry (i : isr) : Z :=
  match i with isr_keyboard => 0x22 | isr_timer => 0x10020 | isr_pci1 => 0x30 | isr_pci2 => 0x31 | isr_pci3 => 0x32 | isr_pci4 => 0x33 | _ => 0 end.

Lemma Apic_new_entries h : Forall (fun '(line, i, _) => io_entry line (Apic_new h) = line_entry i) routes.
Proof.
  unfold Apic_new, routes. repeat (apply Forall_cons_2; [|]); [..|by apply Forall_nil];
    repeat (rewrite SetIoDoubleReg_entry by first [lia|split; by vm_compute]); (repeat rewrite decide_False by done); by rewrite decide_True by done.
Qed.

Lemma line_entries : Forall (fun '(_, i, masked) => entry_masked (line_entry i) = masked /\ entry_vector (line_entry i) = vector_of i) routes.
Proof. unfold routes. repeat (apply Forall_cons_2; [split; reflexivity|]). by apply Forall_nil. Qed.

(** Segments, as the processor decodes them: present, of the ring [ring], and code or data. *)
Definition seg_dpl (seg : Z) : Z := Z.land (Z.shiftr seg 45) 3.
Definition decodes_to (seg ring : Z) (code : bool) : Prop :=
  Z.testbit seg 47 = true /\ Z.testbit seg 44 = true /\ Z.testbit seg 43 = code /\ Z.testbit seg 41 = true /\ Z.testbit seg 53 = true /\ seg_dpl seg = ring.

(** The selectors that are loaded: the kernel's code and data (load_gdt.s), the user's (jump_user_space.s), and the code
    segment [sysret] takes; each with the ring it must have and whether it is code. *)
Definition selectors : list (Z * Z * bool) := [(KERNEL_CS, 0, true); (0x10, 0, false); (0x1B, 3, true); (0x23, 3, false); (0x2B, 3, true)].

(** The base and the limit in the two halves of a task state descriptor. *)
Definition tss_base (lo hi : Z) : Z := (lo / 2 ^ 16) mod 2 ^ 16 + 2 ^ 16 * ((lo / 2 ^ 32) mod 2 ^ 8) + 2 ^ 24 * ((lo / 2 ^ 56) mod 2 ^ 8) + 2 ^ 32 * hi.
Definition tss_limit (lo : Z) : Z := lo mod 2 ^ 16.
Definition tss_access (lo : Z) : Z := (lo / 2 ^ 40) mod 2 ^ 8.

Lemma CreateTssSegment_sum base : is_u64 base ->
  CreateTssSegment base = 104 + 2 ^ 16 * (base mod 2 ^ 16) + 2 ^ 32 * ((base / 2 ^ 16) mod 2 ^ 8) + 2 ^ 40 * 0x89 + 2 ^ 56 * ((base / 2 ^ 24) mod 2 ^ 8).
Proof.
  intros Hb. unfold is_u64 in Hb. unfold CreateTssSegment, sizeof_TaskStateSegment. change (Z.lor (Z.lor GDT_ACCESSED GDT_PRESENT) GDT_EXECUTABLE) with 0x89.
  change 0xFFFF with (Z.ones 16). change 0xFF with (Z.ones 8). rewrite !Z.land_ones, !Z.shiftr_div_pow2 by lia.
  pose proof (Z.mod_pos_bound base (2 ^ 16) ltac:(lia)). pose proof (Z.mod_pos_bound (base / 2 ^ 16) (2 ^ 8) ltac:(lia)). pose proof (Z.mod_pos_bound (base / 2 ^ 24) (2 ^ 8) ltac:(lia)).
  rewrite (lor_shiftl 16), (lor_shiftl 32), (lor_shiftl 40), (lor_shiftl 56) by lia. done.
Qed.

Lemma CreateTssSegment_decodes base : is_u64 base ->
  tss_base (CreateTssSegment base) (Z.shiftr base 32) = base /\ tss_limit (CreateTssSegment base) = sizeof_TaskStateSegment /\ tss_access (CreateTssSegment base) = 0x89.
Proof.
  intros Hb. rewrite CreateTssSegment_sum by done. unfold is_u64 in Hb. rewrite Z.shiftr_div_pow2 by lia. unfold tss_base, tss_limit, tss_access, sizeof_TaskStateSegment.
  split_and!; Z.to_euclidean_division_equations; lia.
Qed.

Lemma InitGdt_selectors tss : Forall (fun '(sel, ring, code) => exists seg, InitGdt tss !! Z.to_nat (sel / 8) = Some seg /\ decodes_to seg ring code) selectors.
Proof. unfold selectors. repeat (apply Forall_cons_2; [eexists; split; [reflexivity|split_and!; reflexivity]|]). by apply Forall_nil. Qed.

(** C18.  Interrupts arrive where they should: after start-up every line of the I/O controller that is programmed carries the
    vector of a gate that is present and enters its own handler in the kernel's code segment, no two lines carry the same
    vector, only the old timer starts masked; the exceptions and the local timer enter their handlers too, and of all
    handlers exactly the two fault handlers run on a stack of their own.  The segments are what the selectors in use
    need: present, the code and the data segment of the kernel of ring 0, those of user space and the one [sysret] takes
    of ring 3; and the task descriptor is an available 64-bit task state segment with the base and size of the kernel's. *)
Theorem interrupts_routed address tss h :
  (forall i, is_u64 (address i)) -> is_u64 tss ->
  let idt := UpdateFaultHandlersToIst1 address (InitIdt address) in
  Forall (fun '(line, i, masked) => let e := io_entry line (Apic_new h) in
      entry_masked e = masked /\ exists g, idt !! entry_vector e = Some g /\ enters g (address i)) routes /\
  NoDup ((fun '(line, _, _) => entry_vector (io_entry line (Apic_new h))) <$> routes) /\
  (forall i, exists g, idt !! vector_of i = Some g /\ enters g (address i) /\ (ist g = 1 <-> i = isr_protection_fault \/ i = isr_page_fault)) /\
  (forall n mode, exists g, idt !! Z.to_nat (Z.land (GetLocalReg kLvtTimerOffset (InitializeLocalTimer n mode h)) 0xFF) = Some g /\ enters g (address isr_apic_timer)) /\
  Forall (fun '(sel, ring, code) => exists seg, InitGdt tss !! Z.to_nat (sel / 8) = Some seg /\ decodes_to seg ring code) selectors /\
  (exists lo hi, InitGdt tss !! 6%nat = Some lo /\ InitGdt tss !! 7%nat = Some hi /\
     tss_base lo hi = tss /\ tss_limit lo = sizeof_TaskStateSegment /\ tss_access lo = 0x89).
Proof.
  intros Ha Htss idt. assert (forall i, exists g, idt !! vector_of i = Some g /\ enters g (address i) /\ (ist g = 1 <-> i = isr_protection_fault \/ i = isr_page_fault)) as Hall.
  { intros i. eexists. split; [apply Update_gates|]. split; [split_and!; [done|done|by apply target_CreateDescriptor]|]. destruct i; cbn; naive_solver. }
  split_and!; [| |exact Hall| |apply InitGdt_selectors|].
  - eapply Forall_impl; [apply Forall_and; split; [apply (Apic_new_entries h)|apply line_entries]|]. intros [[line i] masked] (H1 & Hm & Hv). cbv zeta. rewrite H1, Hv. split; [done|].
    destruct (Hall i) as (g & Hg & He & _). by exists g.
  - replace ((fun '(line, _, _) => entry_vector (io_entry line (Apic_new h))) <$> routes) with ((fun '(_, i, _) => vector_of i) <$> routes);
      [apply (bool_decide_unpack _); by vm_compute|].
    apply list_fmap_ext. intros k [[line i] masked] Hk. pose proof (proj1 (Forall_lookup _ _) (Apic_new_entries h) _ _ Hk) as H1. pose proof (proj1 (Forall_lookup _ _) line_entries _ _ Hk) as [_ Hv].
    cbn in H1, Hv. by rewrite H1, Hv.
  - intros n mode. destruct (Hall isr_apic_timer) as (g & Hg & He & _). exists g. split; [|done]. rewrite <- Hg. f_equal.
    unfold InitializeLocalTimer, GetLocalReg, SetLocalReg. cbn [local_regs]. rewrite !reg_insert. rewrite decide_False, decide_True by done. by destruct mode.
  - do 2 eexists. split; [done|]. split; [done|]. by apply CreateTssSegment_decodes.
Qed.

(** ** Calibrating the local timer *)
Definition run_ticks (readings : list Z) (st : ApicTimer * hardware) : ApicTimer * hardware := foldl (fun st now => interrupt_timer now st) st readings.

Lemma reading_regs now h : io_regs (SetLocalReg kTimerCurrOffset now h) = io_regs h /\ GetLocalTimerValue (SetLocalReg kTimerCurrOffset now h) = u32 now.
Proof. split; [done|]. unfold GetLocalTimerValue, GetLocalReg, SetLocalReg. cbn. by rewrite reg_insert, decide_True. Qed.

(** The ticks before the tenth only count. *)
Lemma early_ticks vs : forall n v0 h, 0 < v0 -> 0 <= n -> n + Z.of_nat (length vs) < 10 ->
  exists h', run_ticks vs (mkTimer v0 n 0, h) = (mkTimer v0 (n + Z.of_nat (length vs)) 0, h') /\ io_regs h' = io_regs h.
Proof.
  induction vs as [|v vs IH]; intros n v0 h Hv0 Hn Hl; [exists h; by rewrite Z.add_0_r|]. cbn [length] in *. unfold run_ticks. cbn [foldl].
  unfold interrupt_timer at 2. cbn [fst snd]. unfold Calibrate. cbn [initial_measurement tick_count calculated_frequency_].
  destruct (Z.eqb_spec v0 0); [lia|]. rewrite u32_small by lia. destruct (Z.eqb_spec (n + 1) 10); [lia|].
  destruct (IH (n + 1) v0 (SignalEOI (SetLocalReg kTimerCurrOffset v h)) Hv0) as (h' & Hh & Hio); [lia|lia|]. exists h'.
  split; [|done]. unfold run_ticks in Hh. rewrite Hh. do 2 f_equal. lia.
Qed.

(** Calibration: the first tick of the 100 Hz timer takes a measurement and the tenth one after it finishes; the result
    is the number of counts per second, the old timer's line is masked again and nothing else of its entry changes, and
    the local timer is started periodically with twenty interrupts per second. *)
Theorem calibration_result v0 vs v10 h :
  0 < v0 < 2 ^ 32 -> length vs = 9%nat -> 0 <= v10 <= v0 -> 10 * (v0 - v10) < 2 ^ 32 -> is_u64 (io_entry 0x14 h) ->
  exists t h', run_ticks (v0 :: vs ++ [v10]) (ApicTimer_new, h) = (t, h') /\
    calculated_frequency_ t = 10 * (v0 - v10) /\
    (forall ws, (length ws < 10)%nat -> calculated_frequency_ (run_ticks (v0 :: ws) (ApicTimer_new, h)).1 = 0) /\
    io_entry 0x14 h' = Z.lor (io_entry 0x14 h) APIC_MASK /\
    GetLocalReg kTimerInitOffset h' = 10 * (v0 - v10) / 20 /\ GetLocalReg kLvtTimerOffset h' = Z.lor 0x21 (2 ^ 17).
Proof.
  intros Hv0 Hvs Hv10 Hmul He.
  assert (exists h1, interrupt_timer v0 (ApicTimer_new, h) = (mkTimer v0 0 0, h1) /\ io_regs h1 = io_regs h) as (h1 & H1 & Hio1).
  { unfold interrupt_timer. cbn [fst snd]. unfold Calibrate. cbn [initial_measurement ApicTimer_new Z.eqb].
    rewrite (proj2 (reading_regs v0 h)), u32_small by lia. by eexists. }
  assert (forall ws, (length ws < 10)%nat -> calculated_frequency_ (run_ticks (v0 :: ws) (ApicTimer_new, h)).1 = 0) as Hearly.
  { intros ws Hws. change (run_ticks (v0 :: ws) (ApicTimer_new, h)) with (run_ticks ws (interrupt_timer v0 (ApicTimer_new, h))). rewrite H1.
    destruct (early_ticks ws 0 v0 h1) as (h' & -> & _); [lia|lia|lia|done]. }
  unfold run_ticks at 1. cbn [foldl]. rewrite H1, foldl_app. destruct (early_ticks vs 0 v0 h1) as (h2 & H2 & Hio2); [lia|lia|lia|]. unfold run_ticks in H2. rewrite H2, Hvs. cbn [foldl].
  unfold interrupt_timer. cbn [fst snd]. unfold Calibrate. cbn [initial_measurement tick_count calculated_frequency_].
  destruct (Z.eqb_spec v0 0); [lia|]. change (u32 (0 + Z.of_nat 9 + 1) =? 10) with true. cbv iota. rewrite (proj2 (reading_regs v10 h2)).
  rewrite (u32_small v10), (u32_small (v0 - v10)), (u32_small (10 * _)) by lia. set (h3 := SetLocalReg kTimerCurrOffset v10 h2). do 2 eexists. split; [done|]. split; [done|]. split; [exact Hearly|].
  assert (io_regs h3 = io_regs h) as Hio3 by (unfold h3, SetLocalReg; cbn; congruence).
  assert (io_entry 0x14 h3 = io_entry 0x14 h) as He3 by (unfold io_entry; by rewrite Hio3).
  unfold FinishCalibration. cbn [calculated_frequency_]. assert (MaskPit h3 = SetIoDoubleReg 0x14 (Z.lor (io_entry 0x14 h) APIC_MASK) (GetIoDoubleReg 0x14 h3).2) as ->.
  { unfold MaskPit. rewrite <- He3, <- (GetIoDoubleReg_entry 0x14 h3) by lia. by destruct (GetIoDoubleReg 0x14 h3). }
  split_and!.
  - change (io_entry 0x14 (SetIoDoubleReg 0x14 (Z.lor (io_entry 0x14 h) APIC_MASK) (GetIoDoubleReg 0x14 h3).2) = Z.lor (io_entry 0x14 h) APIC_MASK).
    rewrite SetIoDoubleReg_entry, decide_True; [done|done|lia| |by left]. unfold is_u64 in *. split; [apply Z.lor_nonneg; split; [lia|done]|].
    assert (0 <= Z.lor (io_entry 20 h) APIC_MASK) as Hn by (apply Z.lor_nonneg; split; [lia|done]). destruct (Z.eq_dec (Z.lor (io_entry 20 h) APIC_MASK) 0); [lia|].
    apply Z.log2_lt_cancel. rewrite Z.log2_lor by (lia || done). change (Z.log2 (2 ^ 64)) with 64. apply Z.max_lub_lt; [|by vm_compute].
    destruct (Z.eq_dec (io_entry 20 h) 0) as [->|]; [by vm_compute|]. apply Z.log2_lt_pow2; lia.
  - unfold SignalEOI, InitializeLocalTimer, GetLocalReg, SetLocalReg. cbn [local_regs]. rewrite reg_insert, decide_False, reg_insert, decide_True by done.
    apply u32_small. split; [apply Z.div_pos; unfold kScheduleFrequency; lia|]. apply Z.div_lt_upper_bound; unfold kScheduleFrequency; lia.
  - unfold SignalEOI, InitializeLocalTimer, GetLocalReg, SetLocalReg. cbn [local_regs]. rewrite reg_insert, decide_False, reg_insert, decide_False, reg_insert, decide_True by done. done.
Qed.

(** *** Witnesses *)
Definition idle_hardware : hardware := mkHw ∅ 0 ∅ [].

Lemma interrupts_routed_witness :
  exists g, UpdateFaultHandlersToIst1 (fun i => 0xFFFFFFFF80001000 + Z.of_nat (vector_of i)) (InitIdt (fun i => 0xFFFFFFFF80001000 + Z.of_nat (vector_of i)))
      !! entry_vector (io_entry 0x12 (Apic_new idle_hardware)) = Some g /\ target g = 0xFFFFFFFF80001022.
Proof.
  destruct (interrupts_routed (fun i => 0xFFFFFFFF80001000 + Z.of_nat (vector_of i)) 0 idle_hardware) as (HF & _).
  - intros i. unfold is_u64. destruct i; cbn; lia.
  - split; by vm_compute.
  - apply Forall_cons in HF as [(_ & g & Hg & _ & _ & Ht) _]. by exists g.
Defined.

Lemma calibration_result_witness :
  exists t h, run_ticks [4000000; 3900000; 3800000; 3700000; 3600000; 3500000; 3400000; 3300000; 3200000; 3100000; 3000000] (ApicTimer_new, Apic_new idle_hardware) = (t, h) /\
    calculated_frequency_ t = 10000000 /\ GetLocalReg kTimerInitOffset h = 500000.
Proof.
  destruct (calibration_result 4000000 [3900000; 3800000; 3700000; 3600000; 3500000; 3400000; 3300000; 3200000; 3100000] 3000000 (Apic_new idle_hardware)) as (t & h & HR & Hf & _ & _ & Hi & _);
    [lia|done|lia|lia|split; by vm_compute|].
  exists t, h. split; [exact HR|]. split; [rewrite Hf; reflexivity|rewrite Hi; reflexivity].
Defined.
