(* ===== verification/Interrupt.v ===== *)
(** * Interrupt and exception handlers (zion/interrupt/interrupt.cpp,
    zion/common/stack_unwind.cpp)

    The handlers the entry points of Apic.v call, over the state of the whole
    kernel (Process.v) and the registers of the interrupt controllers.  Messages
    to the debug port are left out, except for the walk along the frame
    pointers, which reads memory: the memory the kernel can read when the
    handler runs is a parameter. *)

From Stdlib Require Import ZArith Lia.
From stdpp Require Import base tactics numbers list gmap.
From S2P Require Import Prelude Status LinkedList Hash HashMap PhysMem MemObject BinaryTree OrderedMap MappingTree Paging AddressSpace Capability Sched Ipc Process RawMem Acpi Apic.

(** The registers of the frame that the handlers use. *)
Record InterruptFrame : Type := mkFrame { cr2 : Z; rbp : Z; error_code : Z; rip : Z }.

Definition IsUserSpace (addr : Z) : bool := Z.land addr (2 ^ 63) =? 0.

Definition kStackBaseSentinel : Z := 0xABBACDCD12345678.

Definition kZIrqKbd : Z := 0x22.
Definition kZIrqPci1 : Z := 0x30.
Definition kZIrqPci2 : Z := 0x31.
Definition kZIrqPci3 : Z := 0x32.
Definition kZIrqPci4 : Z := 0x33.

Section handlers.
(** Whether [gScheduler] is set yet, and the memory. *)
Variable gScheduler : bool.
Variable mem : memory.
Implicit Types (f : InterruptFrame) (y : system) (h : hardware).

(** *** stack_unwind.cpp *)
Definition IsValid (rbp : Z) : res bool :=
  if rbp =? 0 then Ret false else
  next ← read_int mem rbp 8;
  Ret (negb (next =? kStackBaseSentinel)).

(** The instruction pointers [StackUnwind] prints, at most [depth_limit] of them. *)
Fixpoint unwind_loop (depth_limit : nat) (rbp : Z) : res (list Z) :=
  valid ← IsValid rbp;
  if negb valid then Ret [] else
  match depth_limit with
  | O => Ret []
  | S n =>
      rip ← read_int mem (rbp [+] 8) 8;
      next ← read_int mem rbp 8;
      rips ← unwind_loop n next;
      Ret (rip :: rips)
  end.

Definition StackUnwind (rbp : Z) : res (list Z) := unwind_loop 10 rbp.

(** *** Exceptions *)

(** The end of every exception handler: a process that faulted in user mode exits, a fault of the kernel stops it. *)
Definition exit_or_panic f : Sys unit :=
  if IsUserSpace (rip f) then (if gScheduler then ProcessExit (ErrorCode_val INTERNAL) else sys_lift Fault) else panic.

Definition interrupt_divide_by_zero f : Sys unit := _ ← sys_lift (StackUnwind (rbp f)); exit_or_panic f.
Definition interrupt_invalid_opcode f : Sys unit := _ ← sys_lift (StackUnwind (rbp f)); exit_or_panic f.
Definition interrupt_protection_fault f : Sys unit := _ ← sys_lift (StackUnwind (rbp f)); exit_or_panic f.
Definition interrupt_fpe_fault f : Sys unit := exit_or_panic f.

(** [gScheduler->CurrentProcess().vmas()->HandlePageFault(vaddr)] *)
Definition page_fault (vaddr : Z) : Sys bool :=
  p ← CurrentProcess;
  x ← get_proc p;
  updates (fun y =>
    a ← deref (vmas_ x);
    sp ← deref (spaces y !! a);
    '(handled, objs, m) ← HandlePageFault vaddr (mem_objects y) sp (pmem y);
    Ret (handled, with_mem_objects objs (with_pmem m y))).

Definition interrupt_page_fault f : Sys unit :=
  handled ← (if (Z.land (error_code f) 0x1 =? 0) && gScheduler then page_fault (cr2 f) else mret false);
  if (handled : bool) then mret tt else
  _ ← sys_lift (StackUnwind (rbp f));
  exit_or_panic f.

(** *** Interrupts *)

(** The ticks counted and the controller's registers afterwards; what is printed every twentieth tick is left out. *)
Definition interrupt_apic_timer (cnt : Z) h : Sys (Z * hardware) :=
  let h := SignalEOI h in
  on_kernel (on_sched Preempt);;
  mret (cnt [+] 1, h).

(** [data] is the byte read from port 0x60. *)
Definition interrupt_keyboard (data : Z) h : Sys hardware :=
  on_kernel (WriteMessage kZIrqKbd (mkMsg [data] [] None));;
  mret (SignalEOI h).

Definition interrupt_pci1 h : Sys hardware := on_kernel (WriteMessage kZIrqPci1 empty_msg);; mret (SignalEOI h).
Definition interrupt_pci2 h : Sys hardware := on_kernel (WriteMessage kZIrqPci2 empty_msg);; mret (SignalEOI h).
Definition interrupt_pci3 h : Sys hardware := on_kernel (WriteMessage kZIrqPci3 empty_msg);; mret (SignalEOI h).
Definition interrupt_pci4 h : Sys hardware := on_kernel (WriteMessage kZIrqPci4 empty_msg);; mret (SignalEOI h).

(** ** What a faulting program can do *)
Inductive exception : Type := DivideByZero | InvalidOpcode | ProtectionFault | PageFault | FpeFault.

Definition handle_exception (e : exception) f : Sys unit :=
  match e with
  | DivideByZero => interrupt_divide_by_zero f
  | InvalidOpcode => interrupt_invalid_opcode f
  | ProtectionFault => interrupt_protection_fault f
  | PageFault => interrupt_page_fault f
  | FpeFault => interrupt_fpe_fault f
  end.

(** The process that runs can be stopped: the conditions of [ProcessExit_spec]. *)
Record stoppable y (p : positive) (x : Process.Process) : Prop := {
  sp_current : process_ (ker y) (current_thread_ (sch (ker y))) = p;
  sp_known : proc_known y p x;
  sp_sched : sched_inv (sch (ker y));
  sp_running : current_thread_ (sch (ker y)) <> sleep_thread_ (sch (ker y));
  sp_idle : sleep_thread_ (sch (ker y)) ∉ threads_ x;
  sp_cleanup : exists m, locks (sch (ker y)) !! semaphore_ (cleanup y) = Some m /\ forall t, t ∈ blocked_threads_ m -> t ∉ threads_ x;
}.

(** The state after a page fault was looked up: only memory changes. *)
Definition after_fault y (objs : objects) (m : phys) : system := with_mem_objects objs (with_pmem m y).

Lemma sys_bind_ext {A B} (m1 m2 : Sys A) (g : A -> Sys B) y : m1 y = m2 y -> (m1 ≫= g) y = (m2 ≫= g) y.
Proof. intros Hm. unfold mbind, Sys_bind. by rewrite Hm. Qed.

Lemma page_fault_run y p x a sp v :
  process_ (ker y) (current_thread_ (sch (ker y))) = p -> procs y !! p = Some x -> vmas_ x = Some a -> spaces y !! a = Some sp ->
  page_fault v y = '(handled, objs, m) ← HandlePageFault v (mem_objects y) sp (pmem y); Ret (Val handled, after_fault y objs m).
Proof.
  intros Hc Hp Ha Hs. unfold page_fault. rewrite (sys_val CurrentProcess _ y p y) by (unfold CurrentProcess, asks; by rewrite Hc).
  rewrite (sys_proc p x) by done. unfold updates. rewrite Ha. cbn [deref mbind res_bind]. rewrite Hs. cbn [deref mbind res_bind].
  by destruct (HandlePageFault v (mem_objects y) sp (pmem y)) as [[[h objs] m]| | |].
Qed.

Lemma stoppable_after_fault y p x objs m : stoppable y p x -> stoppable (after_fault y objs m) p x.
Proof. intros [H1 [K1 K2 K3 K4] H3 H4 H5 H6]. split; try done. Qed.
End handlers.

(** Whether the handler of [e] asks the address space first. *)
Definition may_resolve (e : exception) (f : InterruptFrame) : bool :=
  match e with PageFault => Z.land (error_code f) 0x1 =? 0 | _ => false end.

(** The handlers that walk along the frame pointers, and the chains they can walk to the end. *)
Definition walks (e : exception) : bool := match e with FpeFault => false | _ => true end.

Inductive readable_chain (mem : memory) : nat -> Z -> Prop :=
| chain_null n : readable_chain mem n 0
| chain_base n a : a <> 0 -> read_int mem a 8 = Ret kStackBaseSentinel -> readable_chain mem n a
| chain_limit a next : a <> 0 -> read_int mem a 8 = Ret next -> readable_chain mem O a
| chain_frame n a rip next : a <> 0 -> read_int mem a 8 = Ret next -> next <> kStackBaseSentinel -> read_int mem (a [+] 8) 8 = Ret rip ->
    readable_chain mem n next -> readable_chain mem (S n) a.

Lemma read_int_fails mem a n : (exists v, read_int mem a n = Ret v) \/ read_int mem a n = Fault.
Proof.
  unfold read_int. assert ((exists l, read_bytes mem a n = Ret l) \/ read_bytes mem a n = Fault) as [(l & ->)| ->]; [|by left; eexists|by right].
  revert a. induction n as [|n IH]; intros a; cbn [read_bytes]; [by left; eexists|]. destruct (mem a); cbn [deref]; [|by right]. rewrite ret_bind.
  destruct (IH (a + 1)) as [(l & ->)| ->]; [left; by eexists|by right].
Qed.

Lemma unwind_readable mem n a : readable_chain mem n a -> exists rips, unwind_loop mem n a = Ret rips.
Proof.
  induction 1 as [n|n a Ha Hr|a next Ha Hr|n a rip next Ha Hr Hne Hrip _ [rips IH]].
  - exists []. by destruct n.
  - exists []. destruct n; cbn [unwind_loop]; unfold IsValid; by rewrite (proj2 (Z.eqb_neq _ _) Ha), Hr.
  - exists []. cbn [unwind_loop]. unfold IsValid. rewrite (proj2 (Z.eqb_neq _ _) Ha), Hr. cbn. by destruct (next =? kStackBaseSentinel).
  - exists (rip :: rips). cbn [unwind_loop]. unfold IsValid. rewrite (proj2 (Z.eqb_neq _ _) Ha), Hr. cbn [mbind res_bind]. rewrite (proj2 (Z.eqb_neq _ _) Hne). cbn [negb mbind res_bind].
    rewrite Hrip. cbn [mbind res_bind]. by rewrite IH.
Qed.

Lemma unwind_unreadable mem n : forall a, ~ readable_chain mem n a -> unwind_loop mem n a = Fault.
Proof.
  induction n as [|n IH]; intros a Hn; (destruct (decide (a = 0)) as [->|Ha]; [by destruct Hn; constructor|]); cbn [unwind_loop]; unfold IsValid; rewrite (proj2 (Z.eqb_neq _ _) Ha);
    (destruct (read_int_fails mem a 8) as [(next & Hr)|Hr]; rewrite Hr; [|done]); cbn [mbind res_bind].
  - destruct Hn. by eapply chain_limit.
  - destruct (Z.eqb_spec next kStackBaseSentinel) as [->|Hne]; [destruct Hn; by apply chain_base|]. cbn [negb mbind res_bind].
    destruct (read_int_fails mem (a [+] 8) 8) as [(rip & Hrip)|Hrip]; rewrite Hrip; [|done]. cbn [mbind res_bind].
    rewrite IH; [done|]. intros Hc. apply Hn. by eapply chain_frame.
Qed.

(** An exception whose page fault, if it is one, was not resolved: what is left to do. *)
Lemma unresolved mem e f y y1 :
  (may_resolve e f = true -> page_fault (cr2 f) y = Ret (Val false, y1)) -> (may_resolve e f = false -> y1 = y) ->
  (walks e = true -> ~ readable_chain mem 10 (rbp f) -> handle_exception true mem e f y = Fault) /\
  ((walks e = true -> readable_chain mem 10 (rbp f)) -> handle_exception true mem e f y = exit_or_panic true f y1).
Proof.
  intros Hr Hn.
  assert (handle_exception true mem e f y = (if walks e then (_ ← sys_lift (StackUnwind mem (rbp f)); exit_or_panic true f) else exit_or_panic true f) y1) as ->.
  { destruct e; cbn [may_resolve handle_exception walks] in *; try (by rewrite (Hn eq_refl)). unfold interrupt_page_fault. rewrite andb_true_r. destruct (Z.land (error_code f) 0x1 =? 0).
    - by rewrite (sys_val _ _ y _ _ (Hr eq_refl)).
    - rewrite (Hn eq_refl). by rewrite (sys_val (mret false) _ y false y) by done. }
  split.
  - intros -> Hc%unwind_unreadable. unfold mbind, Sys_bind, sys_lift, StackUnwind. by rewrite Hc.
  - intros Hc. destruct (walks e); [|done]. destruct (unwind_readable mem 10 (rbp f) (Hc eq_refl)) as [rips Hu]. by rewrite (sys_lifted _ _ y1 rips Hu).
Qed.


(** Before there is a scheduler no page fault is looked up. *)
Lemma page_fault_before_scheduler mem f y :
  readable_chain mem 10 (rbp f) -> IsUserSpace (rip f) = false -> handle_exception false mem PageFault f y = Panic.
Proof.
  intros [rips Hc]%unwind_readable Hu. cbn [handle_exception]. unfold interrupt_page_fault. rewrite andb_false_r. rewrite (sys_val (mret false) _ y false y) by done.
  rewrite (sys_lifted _ _ y rips Hc). unfold exit_or_panic. by rewrite Hu.
Qed.

(** *** Witness: a division by zero at 0x400000, with an empty frame chain *)
Lemma demo_stoppable : stoppable demo_running 20 demo_proc.
Proof.
  split; [done| |exact sample_sched_inv|done|cbn; set_solver|].
  - split; [by vm_compute|apply demo_map_spec| |].
    + cbn [proc_map_ demo_running demo_system]. by rewrite (proj2 demo_map_spec).
    + intros t Ht. cbn in Ht. repeat (apply elem_of_cons in Ht as [->|Ht]; [vm_compute; by eexists|]). by apply not_elem_of_nil in Ht.
  - exists (mkLock 1 [4%positive]). split; [by vm_compute|]. intros t ->%list_elem_of_singleton. cbn. set_solver.
Qed.


(** The same division with a frame pointer of the program that is not mapped takes the kernel down. *)
Example bad_frame_pointer_stops_kernel : handle_exception true (fun _ => None) DivideByZero (mkFrame 0x10 0x1000 0 0x400000) demo_running = Fault.
Proof. reflexivity. Qed.
