(* ===== verification/Loader.v ===== *)
(** * The program loader (zion/loader/init_loader.cpp)

    The kernel starts the first program: it creates a process, puts the
    segments of its ELF image into memory objects and maps them, writes the
    capabilities the program starts with to a port, and starts a thread.  What
    the boot loader hands over (modules, framebuffer) is data of the model; the
    image is read from memory. *)

From Stdlib Require Import ZArith Lia.
From stdpp Require Import base tactics numbers list gmap.
From S2P Require Import Prelude Status LinkedList Hash HashMap PhysMem MemObject BinaryTree OrderedMap MappingTree Paging AddressSpace Capability Sched Ipc Process Buffer RawMem Acpi.

(** ** What the boot loader provides *)
Record limine_file : Type := mkFile { file_path : list Z; file_address : Z; file_size : Z }.

Record limine_framebuffer : Type := mkFb {
  fb_address : Z; fb_width : Z; fb_height : Z; fb_pitch : Z; fb_bpp : Z; fb_memory_model : Z;
  fb_red_mask_size : Z; fb_red_mask_shift : Z; fb_green_mask_size : Z; fb_green_mask_shift : Z; fb_blue_mask_size : Z; fb_blue_mask_shift : Z;
}.

(** [ZFramebufferInfo], as the program reads it: 41 bytes and padding. *)
Definition ZFramebufferInfo (hhdm : Z) (b : limine_framebuffer) : list Z :=
  le_bytes 8 (fb_address b [-] hhdm) ++ le_bytes 8 (fb_width b) ++ le_bytes 8 (fb_height b) ++ le_bytes 8 (fb_pitch b) ++ le_bytes 2 (fb_bpp b) ++
  [fb_memory_model b; fb_red_mask_size b; fb_red_mask_shift b; fb_green_mask_size b; fb_green_mask_shift b; fb_blue_mask_size b; fb_blue_mask_shift b].
Definition sizeof_ZFramebufferInfo : Z := 48.

Definition Z_INIT_SELF_PROC : Z := 0x40000000.
Definition Z_INIT_SELF_VMAS : Z := 0x40000001.
Definition Z_INIT_ENDPOINT : Z := 0x41000000.
Definition Z_BOOT_DENALI_VMMO : Z := 0x42000000.
Definition Z_BOOT_VICTORIA_FALLS_VMMO : Z := 0x42000001.
Definition Z_BOOT_PCI_VMMO : Z := 0x42000002.
Definition Z_BOOT_FRAMEBUFFER_INFO_VMMO : Z := 0x42000003.

(** ** Images *)

(** The fields of [Elf64Header] and of [Elf64ProgramHeader] that are used. *)
Record Elf64Header : Type := mkElf { e_entry : Z; e_phoff : Z; e_phnum : Z }.
Record Elf64ProgramHeader : Type := mkPh { p_type : Z; p_offset : Z; p_vaddr : Z; p_filesz : Z; p_memsz : Z }.

Definition sizeof_Elf64ProgramHeader : Z := 56.

Section loader.
Variable mem : memory.
Variable hhdm : Z.

Definition read_header (base : Z) : res Elf64Header :=
  entry ← read_int mem (base + 24) 8;
  phoff ← read_int mem (base + 32) 8;
  phnum ← read_int mem (base + 56) 2;
  Ret (mkElf entry phoff phnum).

Definition read_program (a : Z) : res Elf64ProgramHeader :=
  type ← read_int mem a 4;
  offset ← read_int mem (a + 8) 8;
  vaddr ← read_int mem (a + 16) 8;
  filesz ← read_int mem (a + 32) 8;
  memsz ← read_int mem (a + 40) 8;
  Ret (mkPh type offset vaddr filesz memsz).

(** [mem_obj->CopyBytesToObject(source, length)]: the copies that are made. *)
Definition copy_to_object (r : positive) (source length : Z) : Sys (list copy) := updates (fun y =>
  o ← deref (mem_objects y !! r);
  '(cs, o, m) ← CopyBytesToObject source length o (pmem y);
  Ret (cs, with_mem_objects (<[r := o]> (mem_objects y)) (with_pmem m y))).

(** The body of the loop of [LoadElfProgram] for a segment to load. *)
Definition load_segment (p : positive) (base : Z) (ph : Elf64ProgramHeader) : Sys (list copy) :=
  let page_offset := Z.land (p_vaddr ph) 0xFFF in
  r ← new_memory_object (VariableMemoryObject_new (p_memsz ph [+] page_offset));
  cs ← copy_to_object r (base [+] p_offset ph [-] page_offset) (p_filesz ph [+] page_offset);
  x ← get_proc p;
  objs ← asks mem_objects;
  map_res ← on_space (vmas_ x) (fun a m => '(err, a) ← MapInMemoryObjectAt (p_vaddr ph [-] page_offset) r objs a; Ret (err, a, m));
  if decide (map_res = OK) then mret cs else panic.

Fixpoint program_loop (n : nat) (p : positive) (base programs : Z) : Sys (list copy) :=
  match n with
  | O => mret []
  | S n' =>
      ph ← sys_lift (read_program programs);
      cs ← (if negb (p_type ph =? 1) then mret [] else load_segment p base ph);
      cs' ← program_loop n' p base (programs + sizeof_Elf64ProgramHeader);
      mret (cs ++ cs')
  end.

(** The entry point, and the copies made. *)
Definition LoadElfProgram (p : positive) (base : Z) : Sys (Z * list copy) :=
  header ← sys_lift (read_header base);
  cs ← program_loop (Z.to_nat (e_phnum header)) p base (base [+] e_phoff header);
  mret (e_entry header, cs).

(** ** Starting the first program *)
Definition GetInitProgram (modules : list limine_file) (path : list Z) : Sys limine_file :=
  match list_find (fun f => path = file_path f) modules with
  | Some (_, f) => mret f
  | None => panic
  end.

(** [port->WriteKernel(id, MakeRefCounted<Capability>(object))] *)
Definition write_kernel (port : positive) (id : Z) (t : ObjectType) (perms : Z) (r : positive) : Sys unit :=
  on_kernel (WriteKernel port id (Some (mkCap (mkObj t r) perms))).

Definition WriteInitProgram (modules : list limine_file) (port : positive) (name : list Z) (id : Z) : Sys (list copy) :=
  prog ← GetInitProgram modules name;
  r ← new_memory_object (VariableMemoryObject_new (file_size prog));
  cs ← copy_to_object r (file_address prog) (file_size prog);
  write_kernel port id MEMORY_OBJECT memory_permissions r;;
  mret cs.

Definition WritePciVmmo (g : Acpi) (port : positive) (id : Z) : Sys ErrorCode :=
  match GetPciExtendedConfiguration g with
  | EErr e => mret e
  | EOk (base, offset) =>
      r ← new_memory_object (ViewMemoryObject offset base);
      write_kernel port id MEMORY_OBJECT memory_permissions r;;
      mret OK
  end.

(** [ubuf] is the address of the structure on the kernel's stack.  Its fields are filled in from the boot loader's answer before
    the memory is copied: [mem] is then a memory with [ZFramebufferInfo] at [ubuf] (see [start_scheduler] in Startup.v). *)
Definition WriteFramebufferVmmo (ubuf : Z) (port : positive) : Sys (list copy) :=
  r ← new_memory_object (VariableMemoryObject_new sizeof_ZFramebufferInfo);
  cs ← copy_to_object r ubuf sizeof_ZFramebufferInfo;
  write_kernel port Z_BOOT_FRAMEBUFFER_INFO_VMMO MEMORY_OBJECT memory_permissions r;;
  mret cs.

Definition path_denali : list Z := [0x2F; 0x73; 0x79; 0x73; 0x2F; 0x64; 0x65; 0x6E; 0x61; 0x6C; 0x69].
Definition path_victoriafalls : list Z :=
  [0x2F; 0x73; 0x79; 0x73; 0x2F; 0x76; 0x69; 0x63; 0x74; 0x6F; 0x72; 0x69; 0x61; 0x66; 0x61; 0x6C; 0x6C; 0x73].
Definition path_yellowstone : list Z :=
  [0x2F; 0x73; 0x79; 0x73; 0x2F; 0x79; 0x65; 0x6C; 0x6C; 0x6F; 0x77; 0x73; 0x74; 0x6F; 0x6E; 0x65].

(** [proc->AddNewCapability(object)] on the table of the new process. *)
Definition proc_add_new (p : positive) (t : ObjectType) (perms : Z) (r : positive) : Sys Z := updates (fun y =>
  tb ← deref (tables (ker y) !! p);
  '(id, tb) ← AddNewCapability (mkObj t r) perms tb;
  Ret (id, with_ker (with_tables (<[p := tb]> (tables (ker y))) (ker y)) y)).

(** What the new program finds in its port; the copies made into the new memory objects. *)
Definition write_init_data (modules : list limine_file) (ubuf : Z) (g : Acpi) (proc vmas port : positive) : Sys (list copy) :=
  write_kernel port Z_INIT_SELF_PROC PROCESS process_permissions proc;;
  write_kernel port Z_INIT_SELF_VMAS ADDRESS_SPACE space_permissions vmas;;
  cs ← WriteInitProgram modules port path_denali Z_BOOT_DENALI_VMMO;
  cs' ← WriteInitProgram modules port path_victoriafalls Z_BOOT_VICTORIA_FALLS_VMMO;
  cs'' ← WriteFramebufferVmmo ubuf port;
  err ← WritePciVmmo g port Z_BOOT_PCI_VMMO;
  PANIC_ON_ERR err;;
  mret (cs ++ cs' ++ cs'').

Definition LoadInitProgram (modules : list limine_file) (ubuf : Z) (g : Acpi) : Sys unit :=
  proc ← Process_Create hhdm;
  InsertProcess proc;;
  port ← on_kernel Port_new;
  port_cap ← proc_add_new proc PORT ipc_permissions port;
  x ← get_proc proc;
  vmas ← sys_lift (deref (vmas_ x));
  _ ← write_init_data modules ubuf g proc vmas port;
  init_prog ← GetInitProgram modules path_yellowstone;
  '(entry, _) ← LoadElfProgram proc (file_address init_prog);
  t ← CreateThread proc;
  Thread_Start t entry port_cap 0.
End loader.

(** ** Copying into a new object *)
Definition chunks (len : Z) : Z := (len + 0xFFF) / 0x1000.

Lemma chunks_step len : 0 < len -> chunks len = chunks (len - (if 0x1000 <=? len then 0x1000 else len)) + 1.
Proof.
  intros Hl. unfold chunks. destruct (Z.leb_spec 0x1000 len).
  - replace (len + 0xFFF) with (len - 0x1000 + 0xFFF + 1 * 0x1000) by lia. by rewrite Z.div_add by lia.
  - rewrite Z.sub_diag. change ((0 + 0xFFF) / 0x1000) with 0. symmetry. apply (Z.div_unique _ _ _ (len + 0xFFF - 0x1000)); lia.
Qed.

Lemma chunks_nonneg len : 0 <= len -> 0 <= chunks len.
Proof. intros. apply Z.div_pos; lia. Qed.

Lemma AllocatePage_returns k s : phys_wf k s -> phys_free s <> [] -> exists page s', AllocatePage s = Ret (page, s').
Proof.
  intros [[m Hm] Hwf] Hne. unfold AllocatePage, phys_free, pmm_of in *. rewrite Hm in *. pose proof (Pmm_AllocatePage_spec k m Hwf) as H.
  destruct (Pmm_AllocatePage m) as [[page m']| | |]; [by do 2 eexists|done..].
Qed.

(** The pages of a new object, as far as they are copied to, come from the free pages, one per chunk. *)
Lemma copy_loop_fresh k fuel : forall source len pn sz l s,
  phys_wf k s -> no_page_0 s -> 0 <= len < 2 ^ 64 -> (Z.to_nat (chunks len) < fuel)%nat -> 0 <= pn -> pn + chunks len < 2 ^ 64 ->
  pn + chunks len <= Z.of_nat (length l) -> (forall i, pn <= Z.of_nat i < Z.of_nat (length l) -> l !! i = Some 0) -> chunks len <= Z.of_nat (length (phys_free s)) ->
  exists cs l' s', copy_loop fuel source len pn (VariableMemoryObject sz l) s = Ret (cs, VariableMemoryObject sz l', s') /\
    Z.of_nat (length cs) = chunks len /\ length l' = length l /\
    (forall i, l' !! i = if decide (pn <= Z.of_nat i < pn + chunks len) then copy_to <$> cs !! (i - Z.to_nat pn)%nat else l !! i) /\
    phys_wf k s' /\ no_page_0 s' /\ phys_free s ≡ₚ (copy_to <$> cs) ++ phys_free s'.
Proof.
  induction fuel as [|fuel IH]; intros source len pn sz l s Hwf H0 Hl Hf Hpn Hpn2 Hlen Hz Hfree; [lia|]. cbn [copy_loop].
  destruct (Z.ltb_spec 0 len) as [Hpos|Hnp].
  2:{ assert (len = 0) as -> by lia. change (chunks 0) with 0 in *. exists [], l, s. split_and!; try done. intros i. by rewrite decide_False by lia. }
  pose proof (chunks_step len Hpos) as Hst. set (b := if 0x1000 <=? len then 0x1000 else len) in *. assert (0 < b <= len) as Hb by (unfold b; destruct (Z.leb_spec 0x1000 len); lia).
  pose proof (chunks_nonneg (len - b) ltac:(lia)) as Hnn.
  cbn [PageNumberToPhysAddr]. rewrite (Hz (Z.to_nat pn)) by lia. cbn [deref mbind res_bind Z.eqb].
  destruct (AllocatePage_returns k s Hwf) as (page & s1 & Ha); [intros He; rewrite He in Hfree; cbn in Hfree; lia|]. rewrite Ha. cbn [mbind res_bind].
  destruct (AllocatePage_spec k s page s1 Hwf Ha) as (Hwf1 & Hperm & _). rewrite (u64_small (len - b)), (u64_small (pn + 1)) by lia.
  assert (no_page_0 s1 /\ page <> 0) as [H01 Hp0] by (unfold no_page_0 in *; rewrite Hperm in H0; apply not_elem_of_cons in H0; naive_solver).
  pose proof (Permutation_length Hperm) as Hpl. cbn [length] in Hpl.
  destruct (IH (source [+] 0x1000) (len - b) (pn + 1) sz (<[Z.to_nat pn := page]> l) s1 Hwf1 H01) as (cs & l' & s' & HC & Hlc & Hll & Hl' & Hwf' & H0' & Hp'); [lia|lia|lia|lia|rewrite length_insert; lia| |lia|].
  { intros i. rewrite length_insert. intros Hi. rewrite list_lookup_insert_ne by lia. apply Hz. lia. }
  rewrite HC. cbn [mbind res_bind]. rewrite length_insert in Hll. eexists _, l', s'. split; [done|]. cbn [length fmap list_fmap copy_to]. split_and!; try done; [lia| |rewrite Hperm, Hp'; done].
  intros i. rewrite Hl'. destruct (decide (Z.of_nat i = pn)) as [Heq|Hne].
  - rewrite decide_False, decide_True by lia. replace (i - Z.to_nat pn)%nat with 0%nat by lia. cbn. replace i with (Z.to_nat pn) by lia. apply list_lookup_insert_eq. lia.
  - rewrite list_lookup_insert_ne by lia. destruct (decide (pn + 1 <= Z.of_nat i < pn + 1 + chunks (len - b))).
    + rewrite decide_True by lia. replace (i - Z.to_nat pn)%nat with (S (i - Z.to_nat (pn + 1)))%nat by lia. done.
    + by rewrite decide_False by lia.
Qed.

(** The object after its first [len] bytes were filled. *)
Lemma fill_new_object k source len sz s :
  phys_wf k s -> no_page_0 s -> is_u64 source -> is_u64 sz -> sz <= 2 ^ 64 - 0x1000 -> 0 <= len <= sz -> chunks len <= Z.of_nat (length (phys_free s)) ->
  let n := MemoryObject_size (VariableMemoryObject_new sz) in
  exists cs l s', CopyBytesToObject source len (VariableMemoryObject_new sz) s = Ret (cs, VariableMemoryObject n l, s') /\
    Z.of_nat (length cs) = chunks len /\ (forall i c, cs !! i = Some c -> l !! i = Some (copy_to c)) /\
    copy_bytes <$> cs = chunk_sizes len /\ copy_from <$> cs = (fun i => source [+] 0x1000 * i) <$> seqZ 0 (Z.of_nat (length cs)) /\
    phys_wf k s' /\ no_page_0 s' /\ phys_free s ≡ₚ (copy_to <$> cs) ++ phys_free s'.
Proof.
  intros Hwf H0 Hsrc Hsz Hmax Hlen Hfree n. destruct (size_new sz Hsz Hmax) as [Hmod Hrange]. fold n in Hmod, Hrange. unfold is_u64 in Hsz.
  assert (chunks len <= n / 0x1000) as Hch.
  { unfold chunks. apply Z.div_le_lower_bound; [lia|]. pose proof (Z.div_mod n 0x1000). pose proof (Z.mul_div_le (len + 0xFFF) 0x1000). assert ((len + 0xFFF) / 0x1000 <= n / 0x1000); [|lia].
    replace n with (0x1000 * (n / 0x1000)) in Hrange by lia. apply Z.lt_succ_r. apply Z.div_lt_upper_bound; lia. }
  unfold CopyBytesToObject. fold n. destruct (Z.ltb_spec n len); [lia|].
  assert (VariableMemoryObject_new sz = VariableMemoryObject n (replicate (Z.to_nat (n / 0x1000)) 0)) as -> by done.
  pose proof (chunks_nonneg len ltac:(lia)) as Hnn. assert (chunks len <= len / 0x1000 + 1) as Hcl.
  { unfold chunks. replace (len / 0x1000 + 1) with ((len + 1 * 0x1000) / 0x1000) by (rewrite Z.div_add; lia). apply Z.div_le_mono; lia. }
  pose proof (Z.div_pos len 0x1000). assert (n / 0x1000 < 2 ^ 64 - 1) as Hnp by (apply Z.div_lt_upper_bound; lia).
  destruct (copy_loop_fresh k (S (Z.to_nat (len / 0x1000) + 1)) source len 0 n (replicate (Z.to_nat (n / 0x1000)) 0) s Hwf H0) as (cs & l & s' & HC & Hlc & Hll & Hl & Hwf' & H0' & Hp);
    [lia|lia|lia|lia|rewrite length_replicate; lia| |done|].
  { intros i. rewrite length_replicate. intros Hi. apply lookup_replicate_2. lia. }
  pose proof (copy_loop_spec k (S (Z.to_nat (len / 0x1000) + 1)) source len 0 (VariableMemoryObject n (replicate (Z.to_nat (n / 0x1000)) 0)) s Hwf ltac:(lia) Hsrc) as HS.
  rewrite HC in HS. destruct HS as [Hcb Hcf]; [unfold chunks in Hcl; lia|]. exists cs, l, s'. split_and!; try done.
  intros i c Hc. rewrite Hl. pose proof (lookup_lt_Some _ _ _ Hc). rewrite decide_True by lia. change (Z.to_nat 0) with 0%nat. by rewrite Nat.sub_0_r, Hc.
Qed.

(** Every byte below [len] is in one copy. *)
Lemma copied_byte source len (cs : list copy) q :
  copy_bytes <$> cs = chunk_sizes len -> copy_from <$> cs = (fun i => source [+] 0x1000 * i) <$> seqZ 0 (Z.of_nat (length cs)) -> 0 <= q < len ->
  exists c, cs !! Z.to_nat (q / 0x1000) = Some c /\ q mod 0x1000 < copy_bytes c /\ copy_from c = source [+] 0x1000 * (q / 0x1000).
Proof.
  intros Hb Hf Hq. pose proof (Z.div_mod q 0x1000) as Hd. pose proof (Z.mod_pos_bound q 0x1000) as Hm. pose proof (Z.div_pos q 0x1000) as Hp.
  assert (exists sz, chunk_sizes len !! Z.to_nat (q / 0x1000) = Some sz /\ q mod 0x1000 < sz) as (sz & Hsz & Hlt).
  { unfold chunk_sizes. pose proof (Z.div_mod len 0x1000). pose proof (Z.mod_pos_bound len 0x1000). assert (q / 0x1000 <= len / 0x1000) as Hle by (apply Z.div_le_mono; lia).
    destruct (decide (q / 0x1000 = len / 0x1000)) as [Heq|Hne].
    - exists (len mod 0x1000). destruct (Z.eqb_spec (len mod 0x1000) 0); [lia|]. split; [|lia]. rewrite lookup_app_r, length_replicate, Heq, Nat.sub_diag by (rewrite length_replicate; lia). done.
    - exists 0x1000. split; [|lia]. rewrite lookup_app_l by (rewrite length_replicate; lia). apply lookup_replicate_2. lia. }
  rewrite <- Hb, list_lookup_fmap in Hsz. destruct (cs !! Z.to_nat (q / 0x1000)) as [c|] eqn:Ec; [|done]. injection Hsz as Hsz. exists c. split; [done|]. split; [lia|].
  assert ((copy_from <$> cs) !! Z.to_nat (q / 0x1000) = Some (copy_from c)) as Hc by (by rewrite list_lookup_fmap, Ec).
  rewrite Hf, list_lookup_fmap, lookup_seqZ_lt in Hc by (apply lookup_lt_Some in Ec; lia). injection Hc as <-. do 2 f_equal. lia.
Qed.

(** ** Loading a segment *)
Definition page_offset (ph : Elf64ProgramHeader) : Z := p_vaddr ph mod 0x1000.
Definition seg_start (ph : Elf64ProgramHeader) : Z := p_vaddr ph - page_offset ph.
Definition seg_size (ph : Elf64ProgramHeader) : Z := MemoryObject_size (VariableMemoryObject_new (p_memsz ph + page_offset ph)).

(** A segment whose addresses do not wrap around. *)
Record seg_ok (base : Z) (ph : Elf64ProgramHeader) : Prop := {
  so_fields : is_u64 (p_vaddr ph) /\ 0 <= p_filesz ph <= p_memsz ph /\ 0 < p_memsz ph;
  so_memory : p_vaddr ph + p_memsz ph + 0x1000 < 2 ^ 64;
  so_source : page_offset ph <= base + p_offset ph /\ base + p_offset ph + p_filesz ph < 2 ^ 64 /\ 0 <= base /\ 0 <= p_offset ph;
}.

(** The segment is in memory: an object is mapped at the page the segment starts in, and every byte of the segment in the
    file was copied from its place in the image to the page of the object that the mapping puts it in. *)
Record loaded (y : system) (m : gmap Z MemoryMapping) (base : Z) (ph : Elf64ProgramHeader) (cs : list copy) : Prop := {
  ld_mapping : exists r l, m !! seg_start ph = Some (mkMapping (seg_start ph) (seg_start ph + seg_size ph) r) /\
    mem_objects y !! r = Some (VariableMemoryObject (seg_size ph) l) /\
    forall k, 0 <= k < p_filesz ph -> exists c, c ∈ cs /\ l !! Z.to_nat ((page_offset ph + k) / 0x1000) = Some (copy_to c) /\
      (page_offset ph + k) mod 0x1000 < copy_bytes c /\ copy_from c + (page_offset ph + k) mod 0x1000 = base + p_offset ph + k;
  ld_covers : p_vaddr ph + p_memsz ph <= seg_start ph + seg_size ph;
}.

(** The process that is loaded into: its address space with the mappings [m], and memory. *)
Record target_ok (k : nat) (y : system) (p : positive) (x : Process) (a : positive) (sp : AddressSpace) (m : gmap Z MemoryMapping) : Prop := {
  tk_proc : procs y !! p = Some x;
  tk_vmas : vmas_ x = Some a;
  tk_space : spaces y !! a = Some sp;
  tk_tree : tree_wf (mem_objects y) (mapping_tree_ sp) m;
  tk_phys : phys_wf k (pmem y) /\ no_page_0 (pmem y);
}.

Lemma mappings_wf_objs objs objs' m :
  mappings_wf objs m -> (forall r o, objs !! r = Some o -> exists o', objs' !! r = Some o' /\ MemoryObject_size o' = MemoryObject_size o) -> mappings_wf objs' m.
Proof.
  intros [Hok Hd] Hsz. split; [|done]. intros a x Hx. destruct (Hok a x Hx) as (H1 & H2 & o & Ho & H3). destruct (Hsz _ _ Ho) as (o' & Ho' & He).
  split_and!; [done|done|]. exists o'. by rewrite He.
Qed.

(** What is left as it was. *)
Definition same_rest (y y' : system) : Prop :=
  ker y' = ker y /\ procs y' = procs y /\ infos y' = infos y /\ kernel_stacks y' = kernel_stacks y /\ proc_map_ y' = proc_map_ y /\ cleanup y' = cleanup y /\ gNextId y' = gNextId y.

Lemma same_rest_trans y1 y2 y3 : same_rest y1 y2 -> same_rest y2 y3 -> same_rest y1 y3.
Proof. intros (? & ? & ? & ? & ? & ? & ?) (? & ? & ? & ? & ? & ? & ?). unfold same_rest. by split_and!; etransitivity. Qed.

Lemma load_segment_spec k y p x a sp m base ph :
  target_ok k y p x a sp m -> seg_ok base ph -> (forall b z, m !! b = Some z -> ~ conflicts (seg_start ph) (seg_start ph + seg_size ph) b z) ->
  chunks (p_filesz ph + page_offset ph) <= Z.of_nat (length (phys_free (pmem y))) ->
  exists cs y' sp' r, load_segment p base ph y = Ret (Val cs, y') /\
    let m' := <[seg_start ph := mkMapping (seg_start ph) (seg_start ph + seg_size ph) r]> m in
    target_ok k y' p x a sp' m' /\ loaded y' m' base ph cs /\ same_rest y y' /\ Z.of_nat (length cs) = chunks (p_filesz ph + page_offset ph) /\
    (forall r' o, mem_objects y !! r' = Some o -> mem_objects y' !! r' = Some o) /\
    phys_free (pmem y) ≡ₚ (copy_to <$> cs) ++ phys_free (pmem y').
Proof.
  intros [Hp Hv Hs Ht [Hph H0]] [(Hva & Hfm & Hmp) Hmem (Hsrc1 & Hsrc2 & Hsrc3 & Hsrc4)] Hnc Hfree. unfold is_u64 in Hva.
  assert (Z.land (p_vaddr ph) 0xFFF = page_offset ph) as Hpo by (change 0xFFF with (2 ^ 12 - 1); by rewrite land_low). pose proof (Z.mod_pos_bound (p_vaddr ph) 0x1000 ltac:(lia)) as Hpr. fold (page_offset ph) in Hpr.
  pose proof (Z.mod_le (p_vaddr ph) 0x1000 ltac:(lia) ltac:(lia)) as Hple. fold (page_offset ph) in Hple.
  destruct (size_new (p_memsz ph + page_offset ph)) as [_ Hsz]; [unfold is_u64; lia|lia|]. fold (seg_size ph) in Hsz.
  destruct (fill_new_object k (base + p_offset ph - page_offset ph) (p_filesz ph + page_offset ph) (p_memsz ph + page_offset ph) (pmem y) Hph H0) as (cs & l & s' & HC & Hlc & Hl & Hcb & Hcf & Hph' & H0' & Hperm);
    [unfold is_u64; lia|unfold is_u64; lia|lia|lia|done|]. fold (seg_size ph) in HC.
  set (r := fresh (dom (mem_objects y))). assert (r ∉ dom (mem_objects y)) as Hr by apply is_fresh. apply not_elem_of_dom in Hr as Hrn.
  set (o' := VariableMemoryObject (seg_size ph) l). set (objs' := <[r := o']> (mem_objects y)).
  assert (forall r' o, mem_objects y !! r' = Some o -> objs' !! r' = Some o) as Hkeep by (intros r' o Ho; unfold objs'; rewrite lookup_insert_ne; [done|congruence]).
  assert (tree_wf objs' (mapping_tree_ sp) m) as Ht' by (destruct Ht as [Hom Hwf]; split; [done|]; eapply mappings_wf_objs; [done|]; eauto).
  assert (0 <= seg_start ph) as Hst0 by (unfold seg_start; lia).
  destruct (AddInMemoryObject_spec objs' (mapping_tree_ sp) m (seg_start ph) r o' Ht') as [(t' & HA & _ & Htw)|[_ (b & z & Hb & Hc)]];
    [apply lookup_insert_eq|done|change (MemoryObject_size o') with (seg_size ph); lia|change (MemoryObject_size o') with (seg_size ph); unfold seg_start; lia| |by destruct (Hnc _ _ Hb)].
  change (MemoryObject_size o') with (seg_size ph) in Htw.
  eexists cs, _, (with_tree sp t'), r. split; [|split_and!].
  - unfold load_segment. rewrite Hpo, (u64_small (p_memsz ph + _)) by lia. unfold new_memory_object. rewrite (sys_updates _ _ y r _ eq_refl).
    unfold copy_to_object. rewrite (sys_updates _ _ _ cs (with_mem_objects objs' (with_pmem s' y))).
    2:{ cbn [mem_objects with_mem_objects pmem]. rewrite lookup_insert_eq. cbn [deref mbind res_bind]. rewrite u64_add_l || idtac. rewrite (u64_small (base + p_offset ph)), (u64_small (base + p_offset ph - page_offset ph)), (u64_small (p_filesz ph + _)) by lia.
        rewrite HC. cbn [mbind res_bind]. unfold with_mem_objects, with_pmem. cbn. by rewrite insert_insert_eq. }
    rewrite (sys_proc p x) by done. rewrite (sys_val (asks mem_objects) _ _ objs' _) by done. rewrite Hv, (u64_small (p_vaddr ph - _)) by lia. fold (seg_start ph).
    rewrite (sys_space a _ _ (with_mem_objects objs' (with_pmem s' y)) sp OK (with_tree sp t') s'); [|done|unfold MapInMemoryObjectAt; rewrite HA; done]. rewrite decide_True by done. reflexivity.
  - split; try done. cbn. apply lookup_insert_eq.
  - split; [|unfold seg_start; lia]. exists r, l. split; [apply lookup_insert_eq|]. split; [cbn; apply lookup_insert_eq|].
    intros j Hj. destruct (copied_byte (base + p_offset ph - page_offset ph) (p_filesz ph + page_offset ph) cs (page_offset ph + j) Hcb Hcf) as (c & Hc & Hlt & Hfrom); [lia|].
    exists c. split; [by eapply list_elem_of_lookup_2|]. split; [by apply Hl|]. split; [done|]. pose proof (Z.div_mod (page_offset ph + j) 0x1000 ltac:(lia)) as Hdm. pose proof (Z.mod_pos_bound (page_offset ph + j) 0x1000 ltac:(lia)).
    pose proof (Z.div_pos (page_offset ph + j) 0x1000 ltac:(lia) ltac:(lia)). rewrite Hfrom, u64_small by lia. lia.
  - done.
  - done.
  - exact Hkeep.
  - done.
Qed.

(** ** Images in memory *)

(** A program header, all fields of it. *)
Definition ph_at (mem : memory) (a : Z) (ph : Elf64ProgramHeader) : Prop :=
  (0 <= p_type ph < 2 ^ 32 /\ is_u64 (p_offset ph) /\ is_u64 (p_vaddr ph) /\ is_u64 (p_filesz ph) /\ is_u64 (p_memsz ph)) /\
  exists flags paddr align, holds mem a (le_bytes 4 (p_type ph) ++ le_bytes 4 flags ++ le_bytes 8 (p_offset ph) ++ le_bytes 8 (p_vaddr ph) ++
    le_bytes 8 paddr ++ le_bytes 8 (p_filesz ph) ++ le_bytes 8 (p_memsz ph) ++ le_bytes 8 align).

(** The header and the program headers of an image. *)
Record elf_at (mem : memory) (base : Z) (h : Elf64Header) (phs : list Elf64ProgramHeader) : Prop := {
  ea_fields : is_u64 (e_entry h) /\ is_u64 (e_phoff h) /\ e_phnum h = Z.of_nat (length phs) /\ e_phnum h < 2 ^ 16 /\ 0 <= base /\ base + e_phoff h < 2 ^ 64;
  ea_header : exists ident middle, length ident = 24%nat /\ length middle = 16%nat /\
    holds mem base (ident ++ le_bytes 8 (e_entry h) ++ le_bytes 8 (e_phoff h) ++ middle ++ le_bytes 2 (e_phnum h));
  ea_programs : forall i ph, phs !! i = Some ph -> ph_at mem (base + e_phoff h + 56 * Z.of_nat i) ph;
}.

(** Splits what is known to be in memory into its fields. *)
Ltac split_holds H :=
  repeat match type of H with
  | holds _ _ (_ ++ _) => let H1 := fresh "Hh" in apply holds_app in H as [H1 H]; rewrite ?length_le_bytes in H
  end.

Lemma read_le_at mem a b n z : holds mem b (le_bytes n z) -> a = b -> 0 <= z < 2 ^ (8 * Z.of_nat n) -> read_int mem a n = Ret z.
Proof. intros H -> Hz. rewrite (read_le mem b n z H). by rewrite Z.mod_small. Qed.

Lemma read_program_spec mem a ph : ph_at mem a ph -> read_program mem a = Ret ph.
Proof.
  intros ((R1 & R2 & R3 & R4 & R5) & flags & paddr & align & H). split_holds H. unfold read_program.
  rewrite (read_le_at mem a a 4 (p_type ph)) by done. cbn [mbind res_bind].
  rewrite (read_le_at mem (a + 8) _ 8 (p_offset ph) Hh1) by (done || lia). cbn [mbind res_bind].
  rewrite (read_le_at mem (a + 16) _ 8 (p_vaddr ph) Hh2) by (done || lia). cbn [mbind res_bind].
  rewrite (read_le_at mem (a + 32) _ 8 (p_filesz ph) Hh4) by (done || lia). cbn [mbind res_bind].
  rewrite (read_le_at mem (a + 40) _ 8 (p_memsz ph) Hh5) by (done || lia). by destruct ph.
Qed.

Lemma read_header_spec mem base h phs : elf_at mem base h phs -> read_header mem base = Ret h.
Proof.
  intros [(R1 & R2 & R3 & R4 & R5 & _) (ident & middle & Hi & Hm & H) _]. split_holds H. rewrite Hi in *. rewrite Hm in H. unfold read_header.
  rewrite (read_le_at mem (base + 24) _ 8 (e_entry h) Hh0) by (done || lia). cbn [mbind res_bind].
  rewrite (read_le_at mem (base + 32) _ 8 (e_phoff h) Hh1) by (done || lia). cbn [mbind res_bind].
  rewrite (read_le_at mem (base + 56) _ 2 (e_phnum h) H) by (lia || done). by destruct h.
Qed.

(** ** Loading all segments *)
Definition loads (phs : list Elf64ProgramHeader) : list Elf64ProgramHeader := filter (fun ph => p_type ph = 1) phs.

Definition apart (ph ph' : Elf64ProgramHeader) : Prop :=
  seg_start ph + seg_size ph <= seg_start ph' \/ seg_start ph' + seg_size ph' <= seg_start ph.

Fixpoint all_apart (segs : list Elf64ProgramHeader) : Prop :=
  match segs with
  | [] => True
  | ph :: segs' => Forall (apart ph) segs' /\ all_apart segs'
  end.

(** Nothing is mapped where the segments go. *)
Definition room_for (m : gmap Z MemoryMapping) (segs : list Elf64ProgramHeader) : Prop :=
  Forall (fun ph => forall b z, m !! b = Some z -> ~ conflicts (seg_start ph) (seg_start ph + seg_size ph) b z) segs.

Fixpoint pages_needed (segs : list Elf64ProgramHeader) : Z :=
  match segs with
  | [] => 0
  | ph :: segs' => chunks (p_filesz ph + page_offset ph) + pages_needed segs'
  end.

Lemma page_offset_range ph : 0 <= page_offset ph < 0x1000.
Proof. apply Z.mod_pos_bound. lia. Qed.

Lemma seg_size_pos base ph : seg_ok base ph -> 0 < seg_size ph.
Proof.
  intros [(Hva & Hfm & Hmp) Hmem _]. unfold is_u64 in Hva. pose proof (page_offset_range ph). pose proof (Z.mod_le (p_vaddr ph) 0x1000). fold (page_offset ph) in *.
  destruct (size_new (p_memsz ph + page_offset ph)) as [_ Hsz]; [unfold is_u64; lia|lia|]. fold (seg_size ph) in Hsz. lia.
Qed.

Lemma pages_needed_nonneg base segs : Forall (seg_ok base) segs -> 0 <= pages_needed segs.
Proof.
  induction 1 as [|ph segs [(_ & Hf & _) _ _] _ IH]; [done|]. cbn [pages_needed]. pose proof (page_offset_range ph). pose proof (chunks_nonneg (p_filesz ph + page_offset ph)). lia.
Qed.

(** The mapping of a loaded segment is in nobody else's way. *)
Lemma room_after base m ph segs r :
  seg_ok base ph -> Forall (seg_ok base) segs -> Forall (apart ph) segs -> room_for m (ph :: segs) ->
  room_for (<[seg_start ph := mkMapping (seg_start ph) (seg_start ph + seg_size ph) r]> m) segs.
Proof.
  intros Hph Hok Hap [_ Hroom]%Forall_cons. unfold room_for. rewrite Forall_lookup in *. intros i ph' Hi b z [[<- <-]|[_ Hb]]%lookup_insert_Some; [|by eapply Hroom].
  pose proof (seg_size_pos _ _ Hph). pose proof (seg_size_pos _ _ (Hok _ _ Hi)). destruct (Hap _ _ Hi); unfold conflicts; cbn [vaddr_limit]; lia.
Qed.

Lemma loaded_keep y y' m m' base ph cs :
  loaded y m base ph cs -> (forall r o, mem_objects y !! r = Some o -> mem_objects y' !! r = Some o) -> (forall b z, m !! b = Some z -> m' !! b = Some z) ->
  loaded y' m' base ph cs.
Proof. intros [(r & l & Hm & Ho & Hb) Hc] Hobj Hmap. split; [|done]. exists r, l. eauto. Qed.

Lemma program_loop_spec mem k p x a base phs : forall y sp m programs,
  target_ok k y p x a sp m -> (forall i ph, phs !! i = Some ph -> ph_at mem (programs + 56 * Z.of_nat i) ph) ->
  Forall (seg_ok base) (loads phs) -> all_apart (loads phs) -> room_for m (loads phs) -> pages_needed (loads phs) <= Z.of_nat (length (phys_free (pmem y))) ->
  exists css y' sp' m', program_loop mem (length phs) p base programs y = Ret (Val (mjoin css), y') /\
    target_ok k y' p x a sp' m' /\ Forall2 (loaded y' m' base) (loads phs) css /\ same_rest y y' /\
    (forall r o, mem_objects y !! r = Some o -> mem_objects y' !! r = Some o) /\ (forall b z, m !! b = Some z -> m' !! b = Some z) /\
    phys_free (pmem y) ≡ₚ (copy_to <$> mjoin css) ++ phys_free (pmem y').
Proof.
  induction phs as [|ph phs IH]; intros y sp m programs Ht Hph Hok Hap Hroom Hfree.
  { exists [], y, sp, m. by split_and!. }
  cbn [length program_loop]. rewrite (sys_lifted _ _ y ph) by (apply read_program_spec; specialize (Hph 0%nat ph eq_refl); by rewrite Z.add_0_r in Hph).
  assert (forall i ph', phs !! i = Some ph' -> ph_at mem (programs + sizeof_Elf64ProgramHeader + 56 * Z.of_nat i) ph') as Hph'.
  { intros i ph' Hi. specialize (Hph (S i) ph' Hi). unfold sizeof_Elf64ProgramHeader. by replace (programs + 56 + 56 * Z.of_nat i) with (programs + 56 * Z.of_nat (S i)) by lia. }
  unfold loads in *. destruct (Z.eqb_spec (p_type ph) 1) as [H1|H1].
  - rewrite filter_cons_True in * by done. cbn [pages_needed] in Hfree. apply Forall_cons in Hok as [Hok1 Hok]. destruct Hap as [Hap1 Hap].
    pose proof (pages_needed_nonneg _ _ Hok) as Hpn. cbn [negb]. destruct (load_segment_spec k y p x a sp m base ph Ht Hok1) as (cs & y1 & sp1 & r & HL & Ht1 & Hld & Hsr & Hlc & Hobj & Hperm);
      [by apply Forall_cons in Hroom as [? _]|lia|].
    set (m1 := <[_ := _]> m) in *. rewrite (sys_val _ _ y cs y1 HL). pose proof (Permutation_length Hperm) as Hpl. rewrite length_app, length_fmap in Hpl.
    assert (forall b z, m !! b = Some z -> m1 !! b = Some z) as Hmm.
    { intros b z Hb. unfold m1. rewrite lookup_insert_ne; [done|]. intros <-. apply Forall_cons in Hroom as [Hn _]. apply (Hn _ _ Hb). right. by left. }
    destruct (IH y1 sp1 m1 (programs + sizeof_Elf64ProgramHeader) Ht1 Hph' Hok Hap) as (css & y' & sp' & m' & HP & Ht' & Hall & Hsr' & Hobj' & Hmm' & Hperm'); [by apply (room_after base)|lia|].
    rewrite (sys_val _ _ y1 _ y' HP). exists (cs :: css), y', sp', m'. split_and!; [done|done| |by eapply same_rest_trans|auto|auto|].
    + constructor; [|done]. by eapply loaded_keep.
    + cbn [mjoin list_join]. rewrite fmap_app, Hperm, Hperm'. by rewrite app_assoc.
  - rewrite filter_cons_False in * by done. cbn [negb]. rewrite (sys_val _ _ y [] y) by done.
    destruct (IH y sp m (programs + sizeof_Elf64ProgramHeader) Ht Hph' Hok Hap Hroom Hfree) as (css & y' & sp' & m' & HP & Hrest). rewrite (sys_val _ _ y _ y' HP). by exists css, y', sp', m'.
Qed.

(** C15.  Loading a program puts its image where its headers say: for an image whose segments do not wrap around and do not
    overlap, and with enough free pages, the loader returns the entry point; each segment has a memory object mapped at its
    page that covers it, every byte of its file part was copied from its place in the image to the frame that the mapping
    shows at its address, no frame is used twice, each comes from the free pages, and nothing else of the system changed. *)
Theorem LoadElfProgram_loads mem k y p x a sp m base h phs :
  elf_at mem base h phs -> target_ok k y p x a sp m -> NoDup (phys_free (pmem y)) ->
  Forall (seg_ok base) (loads phs) -> all_apart (loads phs) -> room_for m (loads phs) -> pages_needed (loads phs) <= Z.of_nat (length (phys_free (pmem y))) ->
  exists css y' sp' m', LoadElfProgram mem p base y = Ret (Val (e_entry h, mjoin css), y') /\
    target_ok k y' p x a sp' m' /\ Forall2 (loaded y' m' base) (loads phs) css /\ same_rest y y' /\ m ⊆ m' /\
    NoDup (copy_to <$> mjoin css) /\ phys_free (pmem y) ≡ₚ (copy_to <$> mjoin css) ++ phys_free (pmem y').
Proof.
  intros He Ht Hnd Hok Hap Hroom Hfree. pose proof He as [(_ & Hoff & Hn & _ & Hb & Hlim) _ Hph]. unfold is_u64 in Hoff.
  destruct (program_loop_spec mem k p x a base phs y sp m (base + e_phoff h) Ht Hph Hok Hap Hroom Hfree) as (css & y' & sp' & m' & HP & Ht' & Hld & Hsr & _ & Hmm & Hperm).
  exists css, y', sp', m'. split_and!; try done.
  - unfold LoadElfProgram. rewrite (sys_lifted _ _ y h) by (by apply (read_header_spec _ _ _ phs)). rewrite Hn, Nat2Z.id, u64_small by lia. by rewrite (sys_val _ _ y _ y' HP).
  - by apply map_subseteq_spec.
  - rewrite Hperm in Hnd. by apply NoDup_app in Hnd as [? _].
Qed.

(** *** Witness: an image with one segment that starts in the middle of a page *)
Definition demo_segment : Elf64ProgramHeader := mkPh 1 0x123 0x400123 0x1010 0x3000.
Definition demo_note : Elf64ProgramHeader := mkPh 4 0 0 0 0.
Definition demo_elf : Elf64Header := mkElf 0x400130 64 2.

Definition ph_bytes (ph : Elf64ProgramHeader) : list Z :=
  le_bytes 4 (p_type ph) ++ le_bytes 4 5 ++ le_bytes 8 (p_offset ph) ++ le_bytes 8 (p_vaddr ph) ++ le_bytes 8 0 ++ le_bytes 8 (p_filesz ph) ++ le_bytes 8 (p_memsz ph) ++ le_bytes 8 0x1000.
Definition demo_image : memory :=
  blocks [(0x10000, replicate 24 0 ++ le_bytes 8 (e_entry demo_elf) ++ le_bytes 8 (e_phoff demo_elf) ++ replicate 16 0 ++ le_bytes 2 (e_phnum demo_elf) ++ replicate 6 0 ++
    ph_bytes demo_segment ++ ph_bytes demo_note)].

Lemma demo_elf_at : elf_at demo_image 0x10000 demo_elf [demo_segment; demo_note].
Proof.
  split; [unfold is_u64; cbn; lia| |].
  - exists (replicate 24 0), (replicate 16 0). split_and!; [done|done|]. apply holdsb_holds. by vm_compute.
  - intros [|[|i]] ph Hi; [injection Hi as <-|injection Hi as <-|done]; (split; [unfold is_u64; cbn; lia|]); exists 5, 0, 0x1000; apply holdsb_holds; by vm_compute.
Qed.

Lemma LoadElfProgram_loads_witness :
  exists css y', LoadElfProgram demo_image 20 0x10000 demo_running = Ret (Val (0x400130, mjoin css), y') /\ NoDup (copy_to <$> mjoin css).
Proof.
  destruct (LoadElfProgram_loads demo_image 2 demo_running 20 demo_proc 30 demo_space ∅ 0x10000 demo_elf [demo_segment; demo_note] demo_elf_at)
    as (css & y' & _ & _ & HL & _ & _ & _ & _ & Hnd & _).
  - split; [done..| |exact (conj sample_phys_wf (proj1 sample_phys_free))]. split; [exact (om_new_ok (M:=BinaryTree) MemoryMapping)|]. split; [apply map_Forall_empty|]. intros b z ? ? Hb. exfalso. by rewrite lookup_empty in Hb.
  - exact (proj2 sample_phys_free).
  - change (loads _) with [demo_segment]. constructor; [|constructor]. split; try change (page_offset demo_segment) with 0x123; unfold is_u64, demo_segment; cbn [p_vaddr p_filesz p_memsz p_offset]; lia.
  - split; constructor.
  - change (loads _) with [demo_segment]. constructor; [|constructor]. intros b z Hb. by rewrite lookup_empty in Hb.
  - by vm_compute.
  - exists css, y'. exact (conj HL Hnd).
Defined.
