(* ===== verification/Runtime.v ===== *)
(** * The runtime of user programs (lib/mammoth)

    Ports as programs use them (ipc/port_server.cpp, ipc/port_client.cpp), the
    capabilities a program starts with (util/init.cpp) and the hand-off of them
    at boot: what the kernel's loader wrote into the port of the first program
    is what the program finds in its variables. *)

From Stdlib Require Import ZArith Lia.
From stdpp Require Import base tactics numbers list gmap.
From S2P Require Import Prelude Status LinkedList Hash HashMap PhysMem MemObject BinaryTree OrderedMap MappingTree Paging AddressSpace Capability Sched Ipc Process Buffer RawMem Acpi Loader.

(** ** Ports (ipc/port_server.cpp, ipc/port_client.cpp)

    A stub of a system call returns the error code of the call; the object keeps the capability of the port. *)
Record PortServer : Type := mkPortServer { server_cap : Z }.
Record PortClient : Type := mkPortClient { client_cap : Z }.

Definition PortServer_Create : K PortServer := port ← PortCreate; mret (mkPortServer port).
Definition PortServer_AdoptCap (cap : Z) : PortServer := mkPortServer cap.
Definition AdoptPort (cap : Z) : PortClient := mkPortClient cap.

(** The call [CapDuplicate] on the table of the current process. *)
Definition ZCapDuplicate (cap_in perm_mask : Z) : K Z :=
  '(err, cap) ← on_table (fun t => '(err, cap, t) ← CapDuplicate cap_in perm_mask t; Ret ((err, cap), t));
  RET_ERR err;;
  lift (deref cap).

(** [~(kZionPerm_Read)], 64 bits wide. *)
Definition CreateClient (s : PortServer) : K PortClient :=
  new_port ← ZCapDuplicate (server_cap s) (Z.lxor (2 ^ 64 - 1) kZionPerm_Read);
  mret (AdoptPort new_port).

(** The buffer [old] after the received bytes were copied to its start. *)
Definition overlay (bytes old : list Z) : list Z := bytes ++ drop (length bytes) old.

(** The bytes received, the number of them and the capability. *)
Definition RecvCap (s : PortServer) (num_bytes : Z) (msg : list Z) : K (Z * list Z * Z) :=
  resp ← PortRecv (server_cap s) (mkRecv num_bytes 1);
  match resp_caps resp with
  | [cap] => mret (Z.of_nat (length (resp_data resp)), overlay (resp_data resp) msg, cap)
  | _ => fail FAILED_PRECONDITION
  end.

Definition PollForIntCap (s : PortServer) : K (Z * Z) :=
  resp ← PortPoll (server_cap s) (mkRecv 8 1);
  if negb (Z.of_nat (length (resp_data resp)) =? 8) then fail FAILED_PRECONDITION else
  match resp_caps resp with
  | [cap] => mret (le_val (resp_data resp), cap)
  | _ => fail FAILED_PRECONDITION
  end.

(** [byte] and [data] are what the local variable holds before. *)
Definition RecvChar (s : PortServer) (byte : list Z) : K Z :=
  resp ← PortRecv (server_cap s) (mkRecv 1 0);
  mret (le_val (overlay (resp_data resp) byte)).

Definition RecvUint16 (s : PortServer) (data : list Z) : K Z :=
  resp ← PortRecv (server_cap s) (mkRecv 2 0);
  mret (le_val (overlay (resp_data resp) data)).

Definition PortClient_WriteMessage (c : PortClient) (obj : list Z) (cap : Z) : K unit :=
  PortSend (client_cap c) (mkSend (Z.of_nat (length obj)) obj 1 [cap]).

(** The characters with the zero that ends them. *)
Definition WriteString (c : PortClient) (str : list Z) (cap : Z) : K unit :=
  PortSend (client_cap c) (mkSend (Z.of_nat (length str) + 1) (str ++ [0]) 1 [cap]).

Definition WriteByte (c : PortClient) (byte : Z) : K unit := PortSend (client_cap c) (mkSend 1 (le_bytes 1 byte) 0 []).
Definition Write16 (c : PortClient) (data : Z) : K unit := PortSend (client_cap c) (mkSend 2 (le_bytes 2 data) 0 []).
Definition Write64 (c : PortClient) (data : Z) : K unit := PortSend (client_cap c) (mkSend 8 (le_bytes 8 data) 0 []).

(** *** Answers (ipc/response_context.h) *)
Record ResponseContext : Type := mkContext { reply_port_ : Z; written_ : bool }.
Definition ResponseContext_new (reply_port : Z) : ResponseContext := mkContext reply_port false.

(** The context counts as written also when the send fails. *)
Definition WriteStruct (x : ResponseContext) (response : list Z) : ResponseContext * K unit :=
  (mkContext (reply_port_ x) true, ReplyPortSend (reply_port_ x) (mkSend (Z.of_nat (length response)) response 0 [])).
Definition WriteStructWithCap (x : ResponseContext) (response : list Z) (capability : Z) : ResponseContext * K unit :=
  (mkContext (reply_port_ x) true, ReplyPortSend (reply_port_ x) (mkSend (Z.of_nat (length response)) response 1 [capability])).
Definition Context_WriteError (x : ResponseContext) (code : Z) : ResponseContext * K unit :=
  (mkContext (reply_port_ x) true, ReplyPortSend (reply_port_ x) (mkSend 16 (le_bytes 8 (2 ^ 64 - 1) ++ le_bytes 8 code) 0 [])).
Definition HasWritten (x : ResponseContext) : bool := written_ x.

(** ** The capabilities a program starts with (util/init.cpp) *)
Record InitCaps : Type := mkInit {
  gSelfProcCap : Z; gSelfVmasCap : Z; gInitEndpointCap : Z;
  gBootDenaliVmmoCap : Z; gBootVictoriaFallsVmmoCap : Z; gBootPciVmmoCap : Z; gBootFramebufferVmmoCap : Z;
}.
Definition no_caps : InitCaps := mkInit 0 0 0 0 0 0 0.

(** The [switch] of [ParseInitPort]. *)
Definition assign_init (init_sig init_cap : Z) (g : InitCaps) : InitCaps :=
  let '(mkInit proc vmas ep denali vf pci fb) := g in
  if init_sig =? Z_INIT_SELF_PROC then mkInit init_cap vmas ep denali vf pci fb
  else if init_sig =? Z_INIT_SELF_VMAS then mkInit proc init_cap ep denali vf pci fb
  else if init_sig =? Z_INIT_ENDPOINT then mkInit proc vmas init_cap denali vf pci fb
  else if init_sig =? Z_BOOT_DENALI_VMMO then mkInit proc vmas ep init_cap vf pci fb
  else if init_sig =? Z_BOOT_VICTORIA_FALLS_VMMO then mkInit proc vmas ep denali init_cap pci fb
  else if init_sig =? Z_BOOT_PCI_VMMO then mkInit proc vmas ep denali vf init_cap fb
  else if init_sig =? Z_BOOT_FRAMEBUFFER_INFO_VMMO then mkInit proc vmas ep denali vf pci init_cap
  else g.

Fixpoint parse_loop (fuel : nat) (port : PortServer) (g : InitCaps) : K InitCaps := fun k =>
  match fuel with
  | O => NoFuel
  | S fuel' =>
      '(ret, k) ← PollForIntCap port k;
      match ret with
      | Err EMPTY => Ret (Val g, k)
      | Err e => Ret (Err e, k)
      | Blocked => Ret (Blocked, k)
      | Val (init_sig, init_cap) => parse_loop fuel' port (assign_init init_sig init_cap g) k
      end
  end.

Definition ParseInitPort (fuel : nat) (init_port_cap : Z) (g : InitCaps) : K InitCaps :=
  parse_loop fuel (PortServer_AdoptCap init_port_cap) g.

(** ** Reading the port *)
Definition init_msg (e : Z * Capability) : IpcMessage := mkMsg (init_bytes e.1) [Some e.2] None.

Lemma init_bytes_le id : init_bytes id = le_bytes 8 id.
Proof.
  assert (forall i, Z.land (Z.shiftr id (8 * Z.of_nat i)) 0xff = (id / 2 ^ (8 * Z.of_nat i)) mod 256) as H.
  { intros i. rewrite Z.shiftr_div_pow2 by lia. change 0xff with (2 ^ 8 - 1). by rewrite land_low. }
  unfold init_bytes. cbn [seq fmap list_fmap le_bytes]. rewrite !H, !Z.div_div by lia. repeat f_equal. by rewrite Z.div_1_r.
Qed.

Definition may_read (t : CapabilityTable) (pcap : Z) (port : positive) : Prop :=
  exists c, caps t !! pcap = Some (Some c) /\ obj_ c = mkObj PORT port /\ HasPermissions c kZionPerm_Read = true.

(** The process that reads: its table, and the port it may read from. *)
Record reader k (pcap : Z) (port : positive) (t : CapabilityTable) (pending : list IpcMessage) : Prop := {
  rd_table : tables k !! cur k = Some t;
  rd_wf : table_wf t;
  rd_cap : may_read t pcap port;
  rd_port : exists x, ipc_objects k !! port = Some x /\ message_queue_ x = UnboundedMessageQueue pending;
}.

Lemma reader_holds k pcap port t pending : reader k pcap port t pending -> holds_cap k pcap PORT port kZionPerm_Read.
Proof. intros [Ht _ (c & Hc & Ho & Hp) _]. exists c. split; [|done]. unfold cap_at. rewrite Ht. cbn. by rewrite Hc. Qed.

(** What has been received, and what is left. *)
Record received k k' (port : positive) (t t' : CapabilityTable) (cs : list Capability) : Prop := {
  rv_tables : tables k' = <[cur k := t']> (tables k);
  rv_cur : cur k' = cur k;
  rv_next : next_cap_id_ t' = next_cap_id_ t + Z.of_nat (length cs);
  rv_old : forall id, id < next_cap_id_ t -> caps t' !! id = caps t !! id;
  rv_new : forall i c, cs !! i = Some c -> caps t' !! (next_cap_id_ t + Z.of_nat i) = Some (Some c);
}.

Lemma poll_empty k pcap port t : reader k pcap port t [] -> PollForIntCap (mkPortServer pcap) k = Ret (Err EMPTY, k).
Proof.
  intros Hr. unfold PollForIntCap. apply K_bind_Err. unfold PortPoll. cbn [server_cap].
  rewrite (K_bind_Ret _ _ _ _ _ (validated_table k t pcap PORT port _ (rd_table _ _ _ _ _ Hr) (rd_wf _ _ _ _ _ Hr) (reader_holds _ _ _ _ _ Hr))).
  destruct (rd_port _ _ _ _ _ Hr) as (x & Hx & Hq). unfold HasMessages. rewrite (K_bind_Ret _ _ k false k); [done|].
  rewrite (K_bind_Ret _ _ k x k) by (unfold get_object; by rewrite Hx). by rewrite Hq.
Qed.

Lemma poll_next k pcap port t e rest :
  reader k pcap port t (init_msg e :: rest) -> is_u64 e.1 -> next_cap_id_ t + 1 < 2 ^ 55 ->
  exists k' t', PollForIntCap (mkPortServer pcap) k = Ret (Val (e.1, next_cap_id_ t), k') /\ received k k' port t t' [e.2] /\ reader k' pcap port t' rest.
Proof.
  intros Hr He Hn. destruct (rd_port _ _ _ _ _ Hr) as (x & Hx & Hq). set (req := mkRecv 8 1). unfold PollForIntCap. cbn [server_cap]. fold req.
  assert (fits (init_msg e) req) as Hf by (split; cbn; lia).
  set (k1 := with_objects (<[port := mkIpc (ipc_type x) (peer_ x) (UnboundedMessageQueue rest)]> (ipc_objects k)) k).
  destruct (TranslateResp_eq k1 (init_msg e) req t) as (t' & Heq & Hw & Hn' & Hold & Hnew); [apply Hr|apply Hr|by repeat constructor|done|cbn; lia|].
  set (k' := with_tables (<[cur k := t']> (tables k)) k1). change (length (msg_caps (init_msg e))) with 1%nat in Heq, Hn'. change (seqZ (next_cap_id_ t) (Z.of_nat 1)) with [0 + next_cap_id_ t] in Heq. rewrite Z.add_0_l in Heq.
  assert (PortPoll pcap req k = Ret (Val (mkResp (init_bytes e.1) [next_cap_id_ t] None), k')) as HP.
  { unfold PortPoll. rewrite (K_bind_Ret _ _ _ _ _ (validated_table k t pcap PORT port _ (rd_table _ _ _ _ _ Hr) (rd_wf _ _ _ _ _ Hr) (reader_holds _ _ _ _ _ Hr))).
    rewrite (K_bind_Ret _ _ k true k). 2:{ unfold HasMessages. rewrite (K_bind_Ret _ _ k x k) by (unfold get_object; by rewrite Hx). by rewrite Hq. }
    cbn [negb]. unfold recv_and_translate. rewrite (K_bind_Ret _ _ _ _ _ (PopFront_eq k port x _ rest req Hx Hq Hf)). exact Heq. }
  rewrite (K_bind_Ret _ _ _ _ _ HP). cbn [resp_data resp_caps]. exists k', t'. split; [|split].
  - rewrite init_bytes_le, length_le_bytes. cbn [Z.of_nat Z.eqb negb Pos.of_succ_nat Pos.succ Pos.eqb]. by rewrite le_val_bytes8.
  - split; [done|done|done|done|]. intros i c [-> <-]%list_lookup_singleton_Some. exact (Hnew 0%nat (Some e.2) eq_refl).
  - split; [by apply lookup_insert_eq|done| |].
    + destruct (rd_cap _ _ _ _ _ Hr) as (c & Hc & Hrest). exists c. split; [|done]. rewrite Hold; [done|]. destruct (tbl_ids _ (rd_wf _ _ _ _ _ Hr) _ _ Hc). lia.
    + eexists. split; [by apply lookup_insert_eq|done].
Qed.

(** The variables after the messages [l], when the first capability becomes [n]. *)
Fixpoint assign_all (l : list (Z * Capability)) (n : Z) (g : InitCaps) : InitCaps :=
  match l with
  | [] => g
  | e :: l' => assign_all l' (n + 1) (assign_init e.1 n g)
  end.

Lemma parse_loop_spec l : forall fuel k pcap port t g,
  reader k pcap port t (init_msg <$> l) -> Forall (fun e => is_u64 e.1) l -> next_cap_id_ t + Z.of_nat (length l) < 2 ^ 55 -> (length l < fuel)%nat ->
  exists k' t', parse_loop fuel (mkPortServer pcap) g k = Ret (Val (assign_all l (next_cap_id_ t) g), k') /\
    received k k' port t t' (snd <$> l) /\ reader k' pcap port t' [].
Proof.
  induction l as [|e l IH]; intros [|fuel] k pcap port t g Hr Hl Hn Hf; try (cbn in Hf; lia); cbn [parse_loop].
  - rewrite (poll_empty _ _ _ _ Hr), ret_bind. exists k, t. split_and!; [done| |done]. split; [by rewrite insert_id by apply Hr|done|cbn; lia|done|done].
  - apply Forall_cons in Hl as [He Hl]. cbn [length fmap list_fmap] in *.
    destruct (poll_next k pcap port t e (init_msg <$> l) Hr He) as (k1 & t1 & HP & Hv & Hr1); [lia|]. rewrite HP, ret_bind. destruct Hv as [Htb Hcur Hnx Hold Hnew]. cbn [length] in Hnx.
    destruct (IH fuel k1 pcap port t1 (assign_init e.1 (next_cap_id_ t) g) Hr1 Hl) as (k' & t' & HL & [Htb' Hcur' Hnx' Hold' Hnew'] & Hr'); [lia|lia|].
    exists k', t'. split_and!; [|split|done].
    + rewrite HL. cbn [assign_all]. by rewrite Hnx.
    + by rewrite Htb', Htb, Hcur, insert_insert_eq.
    + by rewrite Hcur'.
    + cbn [length]. rewrite length_fmap in Hnx' |- *. lia.
    + intros id Hid. rewrite Hold' by lia. by apply Hold.
    + intros [|i] c Hi; cbn in Hi.
      * injection Hi as <-. rewrite Hold' by lia. exact (Hnew 0%nat e.2 eq_refl).
      * specialize (Hnew' i c Hi). rewrite <- Hnew'. f_equal. lia.
Qed.

(** ** A port and its client *)
Record port_owner k (pcap : Z) (port : positive) (t : CapabilityTable) : Prop := {
  po_table : tables k !! cur k = Some t;
  po_wf : table_wf t;
  po_cap : caps t !! pcap = Some (Some (mkCap (mkObj PORT port) ipc_permissions));
  po_port : ipc_objects k !! port = Some (mkIpc PORT None (UnboundedMessageQueue []));
  po_sched : sched_inv (sch k) /\ is_Some (locks (sch k) !! port);
}.

Definition client_permissions : Z := Z.land ipc_permissions (Z.lxor (2 ^ 64 - 1) kZionPerm_Read).

Lemma CreateClient_spec k pcap port t :
  port_owner k pcap port t -> next_cap_id_ t < 2 ^ 55 - 1 ->
  exists t', let k' := with_tables (<[cur k := t']> (tables k)) k in
    CreateClient (mkPortServer pcap) k = Ret (Val (mkPortClient (next_cap_id_ t)), k') /\ port_owner k' pcap port t' /\
    caps t' !! next_cap_id_ t = Some (Some (mkCap (mkObj PORT port) client_permissions)).
Proof.
  intros [Ht Hw Hc Hp Hs] Hn. pose proof (CapDuplicate_spec t pcap (Z.lxor (2 ^ 64 - 1) kZionPerm_Read) Hw Hn) as HD. rewrite Hc in HD. cbn [default from_option id permissions_ obj_] in HD.
  change (Z.land ipc_permissions kZionPerm_Duplicate =? 0) with false in HD. destruct HD as (t' & HD & Hw' & Hn' & Hnone & Hcaps). exists t'. cbv zeta. split; [|split].
  - unfold CreateClient. cbn [server_cap]. set (k' := with_tables _ k). rewrite (K_bind_Ret _ _ k (next_cap_id_ t) k'); [done|]. unfold ZCapDuplicate.
    rewrite (K_bind_Ret _ _ k (OK, Some (next_cap_id_ t)) k'); [done|]. apply on_table_Ret with t; [done|]. by rewrite HD.
  - split; try done; [by apply lookup_insert_eq|]. rewrite Hcaps, lookup_insert_ne; [done|]. intros He. by rewrite He, Hc in Hnone.
  - rewrite Hcaps. apply lookup_insert_eq.
Qed.

Lemma port_reader k pcap port t pending :
  tables k !! cur k = Some t -> table_wf t -> caps t !! pcap = Some (Some (mkCap (mkObj PORT port) ipc_permissions)) ->
  ipc_objects k !! port = Some (mkIpc PORT None (UnboundedMessageQueue pending)) -> reader k pcap port t pending.
Proof. intros Ht Hw Hc Hp. split; [done|done| |by eexists]. eexists. by split_and!. Qed.

(** A port carries what its clients write: the server of a port creates a client that can write to the port but not read
    from it; a value the client writes to the empty port arrives unchanged whenever the server reads next, and the port is empty again. *)
Theorem port_values_round_trip k pcap port t v data :
  port_owner k pcap port t -> next_cap_id_ t < 2 ^ 55 - 1 -> 0 <= v < 2 ^ 16 -> length data = 2%nat ->
  exists c k1 k2, CreateClient (mkPortServer pcap) k = Ret (Val c, k1) /\
    RecvUint16 (mkPortServer (client_cap c)) data k1 = Ret (Err CAP_PERMISSION_DENIED, k1) /\
    Write16 c v k1 = Ret (Val tt, k2) /\
    forall k2', tables k2' = tables k2 -> ipc_objects k2' = ipc_objects k2 -> cur k2' = cur k ->
      RecvUint16 (mkPortServer pcap) data k2' = Ret (Val v, with_objects (ipc_objects k) k2').
Proof.
  intros Ho Hn Hv Hd. destruct (CreateClient_spec k pcap port t Ho Hn) as (t' & HC & Ho1 & Hcc). cbv zeta in *. set (k1 := with_tables _ k) in *.
  pose proof Ho1 as [Ht1 Hw1 Hc1 Hp1 [Hs1 Hl1]]. set (m := mkMsg (le_bytes 2 v) [] None).
  destruct (Send_eq k1 port _ [] m Hs1 Hl1 Hp1 ltac:(done) eq_refl) as (s & _ & HS). set (k2 := with_sch s _) in HS.
  assert (forall perms, holds_cap k1 (next_cap_id_ t) PORT port perms <-> HasPermissions (mkCap (mkObj PORT port) client_permissions) perms = true) as Hholds.
  { assert (cap_at k1 (next_cap_id_ t) = Some (mkCap (mkObj PORT port) client_permissions)) as Hat by (unfold cap_at; rewrite Ht1; cbn; by rewrite Hcc).
    intros perms. unfold holds_cap. rewrite Hat. split; [by intros (? & [= <-] & _ & ?)|]. intros H. eexists. by split_and!. }
  exists (mkPortClient (next_cap_id_ t)), k1, k2. split; [exact HC|]. split; [|split].
  - unfold RecvUint16. apply K_bind_Err. unfold PortRecv. cbn [server_cap client_cap]. apply K_bind_Err. unfold validated.
    rewrite (K_bind_Ret _ _ k1 (Some (mkCap (mkObj PORT port) client_permissions)) k1) by (rewrite (on_table_Get k1 t') by done; by rewrite Hcc). by apply K_bind_Err.
  - unfold Write16, PortSend. cbn [client_cap]. rewrite (K_bind_Ret _ _ k1 port k1) by (apply validated_table with t'; [done|done|by apply Hholds]).
    rewrite (K_bind_Ret _ _ k1 m k1); [exact HS|]. rewrite (Translate_eq _ (le_bytes 2 v) [] k1); [done|]. split; [cbn; lia|]. split; [split; cbn; lia|done].
  - intros k2' Htb Hob Hcur. unfold RecvUint16, PortRecv. cbn [server_cap].
    assert (ipc_objects k2' !! port = Some (mkIpc PORT None (UnboundedMessageQueue [m]))) as Hq by (rewrite Hob; apply lookup_insert_eq).
    assert (reader k2' pcap port t' [m]) as Hr by (apply port_reader; [by rewrite Htb, Hcur|done..]).
    assert (fits m (mkRecv 2 0)) as Hf by (split; cbn; lia).
    assert ((port ← validated PORT pcap kZionPerm_Read; recv_and_translate port (mkRecv 2 0)) k2' = Ret (Val (mkResp (le_bytes 2 v) [] None), with_objects (ipc_objects k) k2')) as HR.
    { rewrite (K_bind_Ret _ _ k2' port k2') by (apply validated_table with t'; [apply Hr|done|by eapply reader_holds]). unfold recv_and_translate.
      rewrite (K_bind_Ret _ _ _ _ _ (PopFront_eq k2' port _ m [] (mkRecv 2 0) Hq eq_refl Hf)). rewrite Hob. cbn. rewrite insert_insert_eq, insert_id by apply Ho. done. }
    rewrite (K_bind_Ret _ _ _ _ _ HR). cbn [resp_data]. unfold overlay. rewrite length_le_bytes, (drop_ge data) by lia. rewrite app_nil_r, le_val_bytes, Z.mod_small by lia. done.
Qed.

(** ** Writing the port *)

(** A port with the messages [l], and memory. *)
Record port_state (n : nat) (y : system) (port : positive) (l : list (Z * Capability)) : Prop := {
  ps_phys : phys_wf n (pmem y) /\ no_page_0 (pmem y);
  ps_port : ipc_objects (ker y) !! port = Some (mkIpc PORT None (UnboundedMessageQueue (init_msg <$> l)));
}.

Lemma port_state_objects n y port l o : port_state n y port l -> port_state n (with_mem_objects o y) port l.
Proof. by intros [? ?]. Qed.

(** The object holds the [len] bytes at [source]: each was copied to the page of the object it belongs to. *)
Definition holds_image (y : system) (r : positive) (source len : Z) (cs : list copy) : Prop :=
  exists sz pages, mem_objects y !! r = Some (VariableMemoryObject sz pages) /\ len <= sz /\
    forall q, 0 <= q < len -> exists c, c ∈ cs /\ pages !! Z.to_nat (q / 0x1000) = Some (copy_to c) /\
      q mod 0x1000 < copy_bytes c /\ copy_from c + q mod 0x1000 = source + q.

Definition vmmo_cap (r : positive) : Capability := mkCap (mkObj MEMORY_OBJECT r) memory_permissions.

Lemma write_kernel_spec n y port l id t perms r {B} (f : unit -> Sys B) :
  port_state n y port l ->
  exists y', (write_kernel port id t perms r ≫= f) y = f tt y' /\ port_state n y' port (l ++ [(id, mkCap (mkObj t r) perms)]) /\
    mem_objects y' = mem_objects y /\ pmem y' = pmem y.
Proof.
  intros [Hph Hp]. unfold write_kernel. eexists. split_and!; [apply sys_kernel| |done|done].
  - unfold WriteKernel. rewrite (K_bind_Ret _ _ (ker y) _ (ker y)) by (unfold get_object; by rewrite Hp). cbn [message_queue_]. unfold set_queue. by rewrite Hp.
  - split; [done|]. cbn. rewrite lookup_insert_eq, fmap_app. done.
Qed.

(** A new object filled with the bytes at [source], and its capability written to the port. *)
Definition write_filled (port : positive) (id source len : Z) : Sys (list copy) :=
  r ← new_memory_object (VariableMemoryObject_new len);
  cs ← copy_to_object r source len;
  write_kernel port id MEMORY_OBJECT memory_permissions r;;
  mret cs.

Definition source_ok (source len : Z) : Prop := is_u64 source /\ 0 <= len <= 2 ^ 64 - 0x1000 /\ source + len < 2 ^ 64.

Lemma write_filled_spec n y port l id source len :
  port_state n y port l -> source_ok source len -> chunks len <= Z.of_nat (length (phys_free (pmem y))) ->
  exists cs y' r, write_filled port id source len y = Ret (Val cs, y') /\ port_state n y' port (l ++ [(id, vmmo_cap r)]) /\
    holds_image y' r source len cs /\ mem_objects y ⊆ mem_objects y' /\
    Z.of_nat (length (phys_free (pmem y'))) = Z.of_nat (length (phys_free (pmem y))) - chunks len /\
    phys_free (pmem y) ≡ₚ (copy_to <$> cs) ++ phys_free (pmem y').
Proof.
  intros [[Hph H0] Hp] (Hs & Hl & Hsl) Hfree. destruct (size_new len) as [_ Hsz]; [unfold is_u64; lia|lia|].
  destruct (fill_new_object n source len len (pmem y) Hph H0) as (cs & pages & s' & HC & Hlc & Hpg & Hcb & Hcf & Hph' & H0' & Hperm); [done|unfold is_u64; lia|lia|lia|done|].
  set (sz := MemoryObject_size (VariableMemoryObject_new len)) in *. set (r := fresh (dom (mem_objects y))).
  assert (mem_objects y !! r = None) as Hr by (apply not_elem_of_dom, is_fresh).
  set (objs' := <[r := VariableMemoryObject sz pages]> (mem_objects y)).
  unfold write_filled, new_memory_object. rewrite (sys_updates _ _ y r _ eq_refl). unfold copy_to_object.
  rewrite (sys_updates _ _ _ cs (with_mem_objects objs' (with_pmem s' y))).
  2:{ cbn [mem_objects with_mem_objects pmem]. rewrite lookup_insert_eq. cbn [deref mbind res_bind]. rewrite HC. cbn [mbind res_bind]. unfold with_mem_objects, with_pmem. cbn. by rewrite insert_insert_eq. }
  destruct (write_kernel_spec n (with_mem_objects objs' (with_pmem s' y)) port l id MEMORY_OBJECT memory_permissions r (fun _ => mret cs)) as (y' & HW & Hps & Hmo & Hpm); [by split|].
  exists cs, y', r. split; [exact HW|]. split; [done|]. rewrite Hpm. cbn [pmem with_pmem with_mem_objects]. pose proof (Permutation_length Hperm) as Hpl. rewrite length_app, length_fmap in Hpl. split_and!; [| |lia|done].
  - exists sz, pages. rewrite Hmo. split; [apply lookup_insert_eq|]. split; [lia|]. intros q Hq.
    destruct (copied_byte source len cs q Hcb Hcf Hq) as (c & Hc & Hlt & Hfrom). exists c. split; [by eapply list_elem_of_lookup_2|]. split; [by apply Hpg|]. split; [done|].
    pose proof (Z.div_mod q 0x1000 ltac:(lia)). pose proof (Z.mod_pos_bound q 0x1000 ltac:(lia)). pose proof (Z.div_pos q 0x1000 ltac:(lia) ltac:(lia)). unfold is_u64 in Hs. rewrite Hfrom, u64_small by lia. lia.
  - rewrite Hmo. by apply insert_subseteq.
Qed.

Lemma holds_image_mono y y' r source len cs cs' : holds_image y r source len cs -> mem_objects y ⊆ mem_objects y' -> cs ⊆ cs' -> holds_image y' r source len cs'.
Proof.
  intros (sz & pages & Hr & Hsz & Hq) Hsub Hcs. exists sz, pages. split; [by eapply lookup_weaken|]. split; [done|]. intros q H. destruct (Hq q H) as (c & Hc & Hrest). eauto.
Qed.

Definition finds (modules : list limine_file) (path : list Z) (f : limine_file) : Prop := exists i, list_find (fun f => path = file_path f) modules = Some (i, f).

(** What the loader needs to write the port of the first program. *)
Record boot_ok (n : nat) (y : system) (modules : list limine_file) (ubuf : Z) (g : Acpi) (port : positive) (denali vf : limine_file) (base size : Z) : Prop := {
  bo_port : port_state n y port [];
  bo_denali : finds modules path_denali denali /\ source_ok (file_address denali) (file_size denali);
  bo_vf : finds modules path_victoriafalls vf /\ source_ok (file_address vf) (file_size vf);
  bo_fb : source_ok ubuf sizeof_ZFramebufferInfo;
  bo_pci : GetPciExtendedConfiguration g = EOk (base, size);
  bo_pages : chunks (file_size denali) + chunks (file_size vf) + 1 <= Z.of_nat (length (phys_free (pmem y)));
}.

Lemma WriteInitProgram_filled modules port name id f y : finds modules name f -> WriteInitProgram modules port name id y = write_filled port id (file_address f) (file_size f) y.
Proof. intros [i Hf]. unfold WriteInitProgram, GetInitProgram. rewrite Hf. done. Qed.

(** The messages the loader writes. *)
Definition boot_messages (proc vmas rd rv rf rp : positive) : list (Z * Capability) :=
  [(Z_INIT_SELF_PROC, mkCap (mkObj PROCESS proc) process_permissions); (Z_INIT_SELF_VMAS, mkCap (mkObj ADDRESS_SPACE vmas) space_permissions);
   (Z_BOOT_DENALI_VMMO, vmmo_cap rd); (Z_BOOT_VICTORIA_FALLS_VMMO, vmmo_cap rv); (Z_BOOT_FRAMEBUFFER_INFO_VMMO, vmmo_cap rf); (Z_BOOT_PCI_VMMO, vmmo_cap rp)].

Lemma write_init_data_spec n y modules ubuf g proc vmas port denali vf base size :
  boot_ok n y modules ubuf g port denali vf base size ->
  exists cs y' rd rv rf rp, write_init_data modules ubuf g proc vmas port y = Ret (Val cs, y') /\
    port_state n y' port (boot_messages proc vmas rd rv rf rp) /\
    holds_image y' rd (file_address denali) (file_size denali) cs /\ holds_image y' rv (file_address vf) (file_size vf) cs /\
    holds_image y' rf ubuf sizeof_ZFramebufferInfo cs /\ mem_objects y' !! rp = Some (ViewMemoryObject size base) /\
    mem_objects y ⊆ mem_objects y' /\ phys_free (pmem y) ≡ₚ (copy_to <$> cs) ++ phys_free (pmem y').
Proof.
  intros [Hps [Hfd Hsd] [Hfv Hsv] Hsf Hpci Hpages]. unfold write_init_data.
  assert (chunks sizeof_ZFramebufferInfo = 1) as Hc1 by done. pose proof (chunks_nonneg (file_size denali)) as Hc2. pose proof (chunks_nonneg (file_size vf)) as Hc3. pose proof Hsd as (_ & Hd & _). pose proof Hsv as (_ & Hv & _).
  edestruct (write_kernel_spec n y port []) as (y1 & E1 & Hps1 & Hm1 & Hp1); [done|]. rewrite E1. clear E1.
  edestruct (write_kernel_spec n y1 port) as (y2 & E2 & Hps2 & Hm2 & Hp2); [done|]. rewrite E2. clear E2.
  destruct (write_filled_spec n y2 port _ Z_BOOT_DENALI_VMMO _ _ Hps2 Hsd) as (cs1 & y3 & rd & E3 & Hps3 & Hi3 & Hm3 & Hl3 & Hf3); [rewrite Hp2, Hp1; lia|].
  rewrite (sys_val _ _ y2 cs1 y3) by (by rewrite (WriteInitProgram_filled _ _ _ _ _ _ Hfd)).
  destruct (write_filled_spec n y3 port _ Z_BOOT_VICTORIA_FALLS_VMMO _ _ Hps3 Hsv) as (cs2 & y4 & rv & E4 & Hps4 & Hi4 & Hm4 & Hl4 & Hf4); [rewrite Hl3, Hp2, Hp1; lia|].
  rewrite (sys_val _ _ y3 cs2 y4) by (by rewrite (WriteInitProgram_filled _ _ _ _ _ _ Hfv)).
  destruct (write_filled_spec n y4 port _ Z_BOOT_FRAMEBUFFER_INFO_VMMO _ _ Hps4 Hsf) as (cs3 & y5 & rf & E5 & Hps5 & Hi5 & Hm5 & Hl5 & Hf5); [rewrite Hl4, Hl3, Hp2, Hp1, Hc1; lia|].
  rewrite (sys_val _ _ y4 cs3 y5 E5). set (rp := fresh (dom (mem_objects y5))). assert (mem_objects y5 !! rp = None) as Hrp by (apply not_elem_of_dom, is_fresh).
  set (y6 := with_mem_objects (<[rp := ViewMemoryObject size base]> (mem_objects y5)) y5).
  destruct (write_kernel_spec n y6 port _ Z_BOOT_PCI_VMMO MEMORY_OBJECT memory_permissions rp (fun _ => mret OK) (port_state_objects n y5 port _ _ Hps5)) as (y7 & E7 & Hps7 & Hm7 & Hp7).
  rewrite (sys_val _ _ y5 OK y7); [|unfold WritePciVmmo; rewrite Hpci; unfold new_memory_object; rewrite (sys_updates _ _ y5 rp _ eq_refl); exact E7].
  assert (mem_objects y5 ⊆ mem_objects y7) as Hm57 by (rewrite Hm7; by apply insert_subseteq).
  exists (cs1 ++ cs2 ++ cs3), y7, rd, rv, rf, rp. split_and!.
  - by rewrite (sys_val _ _ y7 tt y7).
  - exact Hps7.
  - eapply holds_image_mono; [exact Hi3|by do 2 (etransitivity; [eassumption|])|set_solver].
  - eapply holds_image_mono; [exact Hi4|by etransitivity|set_solver].
  - eapply holds_image_mono; [exact Hi5|done|set_solver].
  - rewrite Hm7. apply lookup_insert_eq.
  - rewrite <- Hm1, <- Hm2. by do 3 (etransitivity; [eassumption|]).
  - rewrite <- Hp1, <- Hp2, Hp7. change (pmem y6) with (pmem y5). rewrite Hf3, Hf4, Hf5, !fmap_app, <- !app_assoc. done.
Qed.

(** ** The hand-off *)
Definition names (t : CapabilityTable) (id : Z) (ty : ObjectType) (r : positive) (perms : Z) : Prop := caps t !! id = Some (Some (mkCap (mkObj ty r) perms)).

(** [id] names a memory object with the [len] bytes at [source]. *)
Definition names_image (y : system) (t : CapabilityTable) (id source len : Z) (cs : list copy) : Prop :=
  exists r, names t id MEMORY_OBJECT r memory_permissions /\ holds_image y r source len cs.

(** C16.  The boot hand-off: the loader fills the port of the first program, and whenever the program reads its port
    afterwards its variables name exactly what the loader put there: its process, its address space, memory objects with the
    bytes of the two service images and of the framebuffer description, each byte in a frame of its own taken from the free
    pages, and the window of the PCI configuration; reading ends with the seventh poll and keeps the other capabilities. *)
Theorem boot_handoff n y modules ubuf g proc vmas port denali vf base size :
  boot_ok n y modules ubuf g port denali vf base size ->
  exists cs y', write_init_data modules ubuf g proc vmas port y = Ret (Val cs, y') /\ phys_free (pmem y) ≡ₚ (copy_to <$> cs) ++ phys_free (pmem y') /\
  forall k pcap t, tables k !! cur k = Some t -> table_wf t -> may_read t pcap port -> ipc_objects k !! port = ipc_objects (ker y') !! port -> next_cap_id_ t + 6 < 2 ^ 55 ->
  exists v k' t', ParseInitPort 7 pcap no_caps k = Ret (Val v, k') /\ tables k' !! cur k = Some t' /\
    (forall id c, caps t !! id = Some c -> caps t' !! id = Some c) /\
    names t' (gSelfProcCap v) PROCESS proc process_permissions /\ names t' (gSelfVmasCap v) ADDRESS_SPACE vmas space_permissions /\
    names_image y' t' (gBootDenaliVmmoCap v) (file_address denali) (file_size denali) cs /\
    names_image y' t' (gBootVictoriaFallsVmmoCap v) (file_address vf) (file_size vf) cs /\
    names_image y' t' (gBootFramebufferVmmoCap v) ubuf sizeof_ZFramebufferInfo cs /\
    (exists r, names t' (gBootPciVmmoCap v) MEMORY_OBJECT r memory_permissions /\ mem_objects y' !! r = Some (ViewMemoryObject size base)) /\
    gInitEndpointCap v = 0.
Proof.
  intros Hok. destruct (write_init_data_spec n y modules ubuf g proc vmas port denali vf base size Hok) as (cs & y' & rd & rv & rf & rp & HW & Hps & Hid & Hiv & Hif & Hpci & _ & Hfree).
  exists cs, y'. split_and!; [done|done|]. intros k pcap t Htk Hwf Hmay Hport Hn. set (l := boot_messages proc vmas rd rv rf rp) in *.
  assert (reader k pcap port t (init_msg <$> l)) as Hr' by (split; [done..|]; eexists; split; [by rewrite Hport, (ps_port _ _ _ _ Hps)|done]).
  destruct (parse_loop_spec l 7 k pcap port t no_caps Hr') as (k' & t' & HP & [Htb _ _ Hold Hnew] & _); [do 6 (apply Forall_cons; split; [unfold is_u64, Z_INIT_SELF_PROC, Z_INIT_SELF_VMAS, Z_BOOT_DENALI_VMMO, Z_BOOT_VICTORIA_FALLS_VMMO, Z_BOOT_PCI_VMMO, Z_BOOT_FRAMEBUFFER_INFO_VMMO; cbn [fst]; lia|]); by apply Forall_nil|cbn; lia|cbn; lia|].
  set (i := next_cap_id_ t) in *. assert (assign_all l i no_caps = mkInit i (i + 1) 0 (i + 2) (i + 3) (i + 5) (i + 4)) as Hv by (cbn; f_equal; lia). rewrite Hv in HP.
  exists (mkInit i (i + 1) 0 (i + 2) (i + 3) (i + 5) (i + 4)), k', t'. split; [exact HP|]. split; [by rewrite Htb, lookup_insert_eq|].
  split; [intros id c Hc; rewrite Hold; [done|destruct (tbl_ids _ Hwf _ _ Hc); lia]|].
  cbn [gSelfProcCap gSelfVmasCap gInitEndpointCap gBootDenaliVmmoCap gBootVictoriaFallsVmmoCap gBootPciVmmoCap gBootFramebufferVmmoCap]. split_and!.
  - specialize (Hnew 0%nat _ eq_refl). by rewrite Z.add_0_r in Hnew.
  - exact (Hnew 1%nat _ eq_refl).
  - exists rd. split; [exact (Hnew 2%nat _ eq_refl)|done].
  - exists rv. split; [exact (Hnew 3%nat _ eq_refl)|done].
  - exists rf. split; [exact (Hnew 4%nat _ eq_refl)|done].
  - exists rp. split; [exact (Hnew 5%nat _ eq_refl)|done].
  - done.
Qed.

(** *** Witness: two small modules, process 20 reads *)
Definition boot_port_cap : Capability := mkCap (mkObj PORT 50) ipc_permissions.
Definition boot_table : CapabilityTable := Eval vm_compute in table_of [boot_port_cap].
Definition boot_system : system :=
  with_ker (with_tables (<[20%positive := boot_table]> (tables (ker demo_running)))
    (with_objects {[ 50%positive := mkIpc PORT None (UnboundedMessageQueue []) ]} (ker demo_running))) demo_running.
Definition boot_modules : list limine_file := [mkFile path_victoriafalls 0x10000 0x800; mkFile path_denali 0x20000 0x234].
Definition boot_acpi : Acpi := mkAcpi 0xB0000000 0x10000000 0xFEE00000 0xFEC00000.

Lemma boot_system_ok : boot_ok 2 boot_system boot_modules 0x9000 boot_acpi 50 (mkFile path_denali 0x20000 0x234) (mkFile path_victoriafalls 0x10000 0x800) 0xB0000000 0x10000000.
Proof.
  split.
  - split; [exact (conj sample_phys_wf (proj1 sample_phys_free))|done].
  - split; [by exists 1%nat|]. unfold source_ok, is_u64. cbn. lia.
  - split; [by exists 0%nat|]. unfold source_ok, is_u64. cbn. lia.
  - unfold source_ok, is_u64, sizeof_ZFramebufferInfo. lia.
  - done.
  - by vm_compute.
Qed.

Lemma boot_table_wf : table_wf boot_table.
Proof.
  replace boot_table with (table_of [boot_port_cap]) by (vm_compute; reflexivity).
  by destruct (table_of_wf [boot_port_cap]) as (H1 & _); [|exact H1].
Qed.

Lemma boot_handoff_witness :
  exists cs y' v k', write_init_data boot_modules 0x9000 boot_acpi 20 30 50 boot_system = Ret (Val cs, y') /\
    ParseInitPort 7 0x100 no_caps (with_objects (ipc_objects (ker y')) (ker boot_system)) = Ret (Val v, k').
Proof.
  destruct (boot_handoff 2 boot_system boot_modules 0x9000 boot_acpi 20 30 50 _ _ _ _ boot_system_ok) as (cs & y' & HW & _ & HP).
  destruct (HP (with_objects (ipc_objects (ker y')) (ker boot_system)) 0x100 boot_table) as (v & k' & _ & HR & _).
  - by vm_compute.
  - exact boot_table_wf.
  - exists boot_port_cap. split; [by vm_compute|]. split; [done|by vm_compute].
  - done.
  - by vm_compute.
  - exists cs, y', v, k'. exact (conj HW HR).
Defined.

(** *** Witness: process 20 owns port 50 *)
Lemma boot_port_owner : port_owner (with_sch (with_lock 50 (mkLock 0 []) sample_sched) (ker boot_system)) 0x100 50 boot_table.
Proof.
  split; [by vm_compute|exact boot_table_wf|by vm_compute|done|]. split; [|by vm_compute; eexists]. apply new_lock_inv; [exact sample_sched_inv|done].
Qed.

Lemma port_values_round_trip_witness :
  exists c k1 k2, CreateClient (mkPortServer 0x100) (with_sch (with_lock 50 (mkLock 0 []) sample_sched) (ker boot_system)) = Ret (Val c, k1) /\ Write16 c 0x161 k1 = Ret (Val tt, k2).
Proof.
  destruct (port_values_round_trip _ 0x100 50 boot_table 0x161 [0; 0] boot_port_owner) as (c & k1 & k2 & HC & _ & HW & _).
  - by vm_compute.
  - lia.
  - reflexivity.
  - exists c, k1, k2. exact (conj HC HW).
Defined.
