(* ===== verification/Region.v ===== *)
(** * Resources of user programs (lib/mammoth/util/memory_region.cpp, proc/thread.cpp, sync/semaphore.cpp)

    A region owns a capability to a memory object and the range of the address
    space it is mapped at, and gives both back when it goes out of scope.  The
    operations are sequences of the system calls of Process.v. *)

From Stdlib Require Import ZArith Lia.
From stdpp Require Import base tactics numbers list gmap.
From S2P Require Import Prelude Status LinkedList Hash HashMap PhysMem MemObject BinaryTree OrderedMap MappingTree Paging AddressSpace Capability Sched Ipc Process Buffer RawMem Acpi Loader Runtime.

(** [check(call)] (util/debug.cpp): a program whose call fails exits with the error code. *)
Definition check {A} (call : Sys A) : Sys A := fun y =>
  '(o, y) ← call y;
  match o with
  | Err e => (ProcessExit (ErrorCode_val e);; sys_blocked) y
  | Val a => Ret (Val a, y)
  | Blocked => Ret (Blocked, y)
  end.

Definition ZCapRelease (cap : Z) : Sys unit :=
  err ← on_kernel (on_table (CapRelease cap));
  on_kernel (RET_ERR err).

Record OwnedMemoryRegion : Type := mkRegion { vmmo_cap_ : Z; vaddr_ : Z; size_ : Z }.
Definition no_region : OwnedMemoryRegion := mkRegion 0 0 0.
Definition region_empty (r : OwnedMemoryRegion) : bool := vmmo_cap_ r =? 0.

(** The move constructor: the new region, and what is left of [other]. *)
Definition Region_move (other : OwnedMemoryRegion) : OwnedMemoryRegion * OwnedMemoryRegion :=
  (mkRegion (vmmo_cap_ other) (vaddr_ other) (size_ other), no_region).

Definition Region_move_assign (this other : OwnedMemoryRegion) : Sys (OwnedMemoryRegion * OwnedMemoryRegion) :=
  (if negb (vmmo_cap_ this =? 0) then check (ZCapRelease (vmmo_cap_ this)) else mret tt);;
  mret (mkRegion (vmmo_cap_ other) (vaddr_ other) (size_ other), no_region).

Section region.
(** [gSelfVmasCap] *)
Variable gSelfVmasCap : Z.

Definition Region_destroy (r : OwnedMemoryRegion) : Sys unit :=
  if negb (vmmo_cap_ r =? 0) then
    check (AddressSpaceUnmap gSelfVmasCap (vaddr_ r) (vaddr_ r [+] size_ r));;
    check (ZCapRelease (vmmo_cap_ r))
  else mret tt.

Definition FromCapability (vmmo_cap : Z) : Sys OwnedMemoryRegion :=
  vaddr ← check (AddressSpaceMap gSelfVmasCap 0 vmmo_cap 0);
  size ← check (MemoryObjectInspect vmmo_cap);
  mret (mkRegion vmmo_cap vaddr size).

(** The region and the physical address. *)
Definition ContiguousPhysical (size : Z) : Sys (OwnedMemoryRegion * Z) :=
  '(vmmo_cap, paddr) ← check (MemoryObjectCreateContiguous size);
  vaddr ← check (AddressSpaceMap gSelfVmasCap 0 vmmo_cap 0);
  mret (mkRegion vmmo_cap vaddr size, paddr).

Definition DirectPhysical (paddr size : Z) : Sys OwnedMemoryRegion :=
  vmmo_cap ← check (MemoryObjectCreatePhysical paddr size);
  vaddr ← check (AddressSpaceMap gSelfVmasCap 0 vmmo_cap 0);
  mret (mkRegion vmmo_cap vaddr size).

Definition DuplicateCap (r : OwnedMemoryRegion) : Sys Z := check (on_kernel (ZCapDuplicate (vmmo_cap_ r) (2 ^ 64 - 1))).

Definition Region_Duplicate (r : OwnedMemoryRegion) : Sys OwnedMemoryRegion :=
  cap ← DuplicateCap r;
  FromCapability cap.
End region.

(** ** Threads and semaphores (proc/thread.cpp, sync/semaphore.cpp) *)

(** [thread_entry] calls the entry and leaves the thread; its address is a constant of the program. *)
Definition Thread_new (gSelfProcCap thread_entry e arg1 : Z) : Sys Z :=
  thread_cap ← check (ThreadCreate gSelfProcCap);
  check (ThreadStart thread_cap thread_entry e arg1);;
  mret thread_cap.
Definition Thread_Join (thread_cap : Z) : Sys unit := ThreadWait thread_cap.

Definition Semaphore_new : Sys Z := check (on_kernel SemaphoreCreate).
Definition Semaphore_destroy (semaphore_cap : Z) : Sys unit := check (ZCapRelease semaphore_cap).
Definition Semaphore_Wait (semaphore_cap : Z) : Sys unit := check (on_kernel (SemaphoreWait semaphore_cap)).
Definition Semaphore_Signal (semaphore_cap : Z) : Sys unit := check (on_kernel (SemaphoreSignal semaphore_cap)).

(** ** The calling process *)

(** Its table [t], and its address space [sp] with the mappings [m], which [vcap] names; no mapping is where the next region goes. *)
Record owner (y : system) (t : CapabilityTable) (vcap : Z) (a : positive) (sp : AddressSpace) (m : gmap Z MemoryMapping) : Prop := {
  ow_table : tables (ker y) !! cur (ker y) = Some t;
  ow_wf : table_wf t;
  ow_vmas : exists c, caps t !! vcap = Some (Some c) /\ obj_ c = mkObj ADDRESS_SPACE a /\ HasPermissions c kZionPerm_Write = true;
  ow_space : spaces y !! a = Some sp;
  ow_tree : tree_wf (mem_objects y) (mapping_tree_ sp) m;
  ow_memmap : memmap_wf sp;
  ow_free : forall b z, m !! b = Some z -> b < vaddr_limit z /\ (vaddr_limit z <= next_memmap_addr_ sp \/ 0x3000000000 <= b);
}.

Definition names_memory (t : CapabilityTable) (cap : Z) (r : positive) : Prop :=
  exists c, caps t !! cap = Some (Some c) /\ obj_ c = mkObj MEMORY_OBJECT r /\ HasPermissions c kZionPerm_Write = true /\ HasPermissions c kZionPerm_Read = true.

Lemma check_val {A} (m : Sys A) y a y' : m y = Ret (Val a, y') -> check m y = Ret (Val a, y').
Proof. intros Hm. unfold check. by rewrite Hm. Qed.

Lemma on_table_known {B} (t : CapabilityTable) id c (f : option Capability -> Sys B) y :
  tables (ker y) !! cur (ker y) = Some t -> table_wf t -> caps t !! id = Some (Some c) -> (on_kernel (on_table (GetCapability id)) ≫= f) y = f (Some c) y.
Proof.
  intros Ht Hw Hc. rewrite (sys_kernel _ _ y (Some c) (ker y)) by (rewrite (on_table_Get (ker y) t) by done; by rewrite Hc). by destruct y.
Qed.

Lemma ret_ok {B} (f : unit -> Sys B) e y : e = OK -> (on_kernel (RET_ERR e) ≫= f) y = f tt y.
Proof. intros ->. by destruct y. Qed.

Lemma validate_ok ty c r perms : obj_ c = mkObj ty r -> HasPermissions c perms = true -> ValidateCapability ty (Some c) perms = OK.
Proof. intros Ho Hp. unfold ValidateCapability. by rewrite Ho, bool_decide_eq_true_2, Hp. Qed.

Lemma Capability_obj_ok ty c r : obj_ c = mkObj ty r -> Capability_obj ty c = Ret r.
Proof. intros Ho. unfold Capability_obj. rewrite Ho. cbn. by rewrite decide_True || rewrite bool_decide_eq_true_2. Qed.

(** ** Mapping and unmapping *)
Lemma align_up_aligned n : n mod kPageSize = 0 -> align_up n (2 ^ 12) = n.
Proof.
  unfold kPageSize, align_up. intros Hm. pose proof (Z.div_mod n 0x1000 ltac:(lia)) as Hd. change (2 ^ 12) with 0x1000. rewrite Hd at 1.
  replace (0x1000 * (n / 0x1000) + n mod 0x1000 + 0x1000 - 1) with (0xFFF + (n / 0x1000) * 0x1000) by lia. rewrite Z.div_add by lia. change (0xFFF / 0x1000) with 0. lia.
Qed.

(** Where the next region goes, and where the one after it. *)
Definition next_after (sp : AddressSpace) (size : Z) : Z := next_memmap_addr_ sp + align_up size kPageSize.

Lemma map_object_spec objs sp m r o :
  tree_wf objs (mapping_tree_ sp) m -> memmap_wf sp -> (forall b z, m !! b = Some z -> b < vaddr_limit z /\ (vaddr_limit z <= next_memmap_addr_ sp \/ 0x3000000000 <= b)) ->
  objs !! r = Some o -> 0 < MemoryObject_size o < 2 ^ 62 -> next_after sp (MemoryObject_size o) < 0x3000000000 ->
  let addr := next_memmap_addr_ sp in let m' := <[addr := mkMapping addr (addr + MemoryObject_size o) r]> m in
  exists sp', MapInMemoryObject r 0 objs sp = Ret (EOk addr, sp') /\ tree_wf objs (mapping_tree_ sp') m' /\ memmap_wf sp' /\
    next_memmap_addr_ sp' = next_after sp (MemoryObject_size o) /\ addr + MemoryObject_size o <= next_after sp (MemoryObject_size o) /\ cr3_ sp' = cr3_ sp.
Proof.
  intros Ht Hmm Hfree Ho Hsz Hnext addr m'. unfold next_after in *. pose proof Hmm as [Hrange Hal]. destruct (GetNextMemMapAddr_fresh (MemoryObject_size o) 0 12 sp Hmm Hsz ltac:(by left)) as (_ & _ & Hle & Hcases). cbv zeta in Hle, Hcases.
  rewrite (align_up_aligned _ Hal) in Hle, Hcases. destruct Hcases as [[HG Hmm']|[_ Hbad]]; [|lia].
  destruct (AddInMemoryObject_spec objs (mapping_tree_ sp) m addr r o Ht Ho) as [(t' & HA & _ & Ht')|[_ (b & z & Hb & Hc)]]; [unfold addr; lia|lia|unfold addr; lia| |].
  - exists (with_tree (with_memmap sp (addr + align_up (MemoryObject_size o) kPageSize)) t'). split; [|by split_and!].
    unfold MapInMemoryObject, object_size. rewrite Ho. cbn [deref mbind res_bind]. rewrite HG. cbn [mbind res_bind]. change (mapping_tree_ (with_memmap sp _)) with (mapping_tree_ sp). fold addr. rewrite HA. done.
  - exfalso. destruct (Hfree _ _ Hb) as [Hbz Hlim]. unfold conflicts, addr in Hc. lia.
Qed.

Lemma AddressSpaceMap_spec y t vcap a sp m cap r o :
  owner y t vcap a sp m -> names_memory t cap r -> mem_objects y !! r = Some o -> 0 < MemoryObject_size o < 2 ^ 62 -> next_after sp (MemoryObject_size o) < 0x3000000000 ->
  let addr := next_memmap_addr_ sp in
  exists sp', AddressSpaceMap vcap 0 cap 0 y = Ret (Val addr, with_space a sp' y) /\
    owner (with_space a sp' y) t vcap a sp' (<[addr := mkMapping addr (addr + MemoryObject_size o) r]> m).
Proof.
  intros [Ht Hw (vc & Hvc & Hvo & Hvp) Hs Htree Hmm Hfree] (mc & Hmc & Hmo & Hmp & _) Ho Hsz Hnext addr.
  destruct (map_object_spec _ _ _ _ _ Htree Hmm Hfree Ho Hsz Hnext) as (sp' & HM & Ht' & Hmm' & Hn' & Hle & _). cbv zeta in *. fold addr in HM, Ht', Hle. exists sp'. split.
  - unfold AddressSpaceMap. rewrite (on_table_known t vcap vc), (on_table_known t cap mc) by done. rewrite !ret_ok by (by eapply validate_ok).
    rewrite (sys_lifted _ _ y vc), (sys_lifted _ _ y a) by (done || by apply Capability_obj_ok). rewrite (sys_lifted _ _ y mc), (sys_lifted _ _ y r) by (done || by apply Capability_obj_ok).
    rewrite (sys_val (asks mem_objects) _ y (mem_objects y) y) by done. cbn [Z.eqb negb].
    rewrite (sys_space a _ _ y sp (EOk addr) sp' (pmem y)); [by destruct y|done|]. by rewrite HM.
  - split; try done; [by exists vc|cbn; apply lookup_insert_eq|]. intros b z [[<- <-]|[_ Hb]]%lookup_insert_Some; cbn [vaddr_limit]; [rewrite Hn'; lia|].
    rewrite Hn'. destruct (Hfree _ _ Hb). unfold addr in Hle. lia.
Qed.

(** A range that is exactly a mapping cuts no mapping in two. *)
Lemma whole_mapping objs m addr x : mappings_wf objs m -> m !! addr = Some x -> addr < vaddr_limit x -> ~ straddles m addr (vaddr_limit x).
Proof.
  intros [Hok Hd] Hx Hlt0 (b & z & Hb & Hs). destruct (Z.lt_trichotomy b addr) as [Hlt|[->|Hgt]].
  - pose proof (Hd _ _ _ _ Hb Hx Hlt). lia.
  - simplify_eq. lia.
  - pose proof (Hd _ _ _ _ Hx Hb Hgt). lia.
Qed.

Lemma AddressSpaceUnmap_spec y t vcap a sp m addr size r :
  owner y t vcap a sp m -> m !! addr = Some (mkMapping addr (addr + size) r) -> 0 < size ->
  exists sp' m', AddressSpaceUnmap vcap addr (addr + size) y = Ret (Val tt, with_space a sp' y) /\ owner (with_space a sp' y) t vcap a sp' m' /\
    m' ⊆ m /\ (forall b z, m' !! b = Some z -> vaddr_limit z <= addr \/ addr + size <= b) /\ cr3_ sp' = cr3_ sp.
Proof.
  intros [Ht Hw (vc & Hvc & Hvo & Hvp) Hs Htree Hmm Hfree] Hx Hsz.
  destruct (FreeMemoryRange_spec _ _ _ addr (addr + size) Htree) as [[Hbad _]|[(_ & Hbad & _)|(_ & _ & t' & m' & HF & Ht' & Hsub & Hgone)]]; [lia|by destruct (whole_mapping _ _ _ _ (proj2 Htree) Hx ltac:(cbn; lia))|].
  exists (with_tree sp t'), m'. split_and!; [| |done| |done].
  - unfold AddressSpaceUnmap. rewrite (sys_kernel _ _ y a (ker y)).
    2:{ apply validated_table with t; [done|done|]. exists vc. split; [|done]. unfold cap_at. rewrite Ht. cbn. by rewrite Hvc. }
    assert (with_ker (ker y) y = y) as -> by (by destruct y).
    rewrite (sys_space a _ _ y sp OK (with_tree sp t') (pmem y)); [by destruct y|done|]. unfold FreeAddressRange. rewrite HF. cbn [mbind res_bind]. by rewrite bool_decide_true.
  - split; try done; [by exists vc|cbn; apply lookup_insert_eq|]. intros b z Hb. apply Hfree. by eapply lookup_weaken.
  - intros b z Hb. destruct (Hgone _ _ Hb) as [[? _]|?]; [by left|by right].
Qed.

Lemma ZCapRelease_spec y t cap c :
  tables (ker y) !! cur (ker y) = Some t -> table_wf t -> caps t !! cap = Some (Some c) ->
  exists t', ZCapRelease cap y = Ret (Val tt, with_ker (with_tables (<[cur (ker y) := t']> (tables (ker y))) (ker y)) y) /\ table_wf t' /\ caps t' = delete cap (caps t).
Proof.
  intros Ht Hw Hc. destruct (ReleaseCapability_spec t cap Hw) as (t' & HR & Hw' & Hcaps & _). exists t'. split; [|done]. unfold ZCapRelease.
  assert (CapRelease cap t = Ret (OK, t')) as HC by (unfold CapRelease; rewrite HR, Hc; done).
  rewrite (sys_kernel _ _ y OK _ (on_table_Ret _ (ker y) t OK t' Ht HC)). done.
Qed.

Lemma FromCapability_spec y t vcap a sp m cap r o :
  owner y t vcap a sp m -> names_memory t cap r -> mem_objects y !! r = Some o -> 0 < MemoryObject_size o < 2 ^ 62 -> next_after sp (MemoryObject_size o) < 0x3000000000 ->
  let addr := next_memmap_addr_ sp in
  exists sp', FromCapability vcap cap y = Ret (Val (mkRegion cap addr (MemoryObject_size o)), with_space a sp' y) /\
    owner (with_space a sp' y) t vcap a sp' (<[addr := mkMapping addr (addr + MemoryObject_size o) r]> m).
Proof.
  intros Ho Hn Hr Hsz Hnext addr. destruct (AddressSpaceMap_spec _ _ _ _ _ _ _ _ _ Ho Hn Hr Hsz Hnext) as (sp' & HM & Ho'). exists sp'. split; [|done].
  unfold FromCapability. rewrite (sys_val _ _ y addr (with_space a sp' y)) by (by apply check_val).
  rewrite (sys_val _ _ _ (MemoryObject_size o) (with_space a sp' y)); [done|]. apply check_val. unfold MemoryObjectInspect. destruct Hn as (mc & Hmc & Hmo & _ & Hmr).
  rewrite (sys_kernel _ _ (with_space a sp' y) r (ker y)).
  2:{ apply validated_table with t; [apply Ho|apply Ho|]. exists mc. split; [|done]. unfold cap_at. change (ker (with_space a sp' y)) with (ker y). rewrite (ow_table _ _ _ _ _ _ Ho). cbn. by rewrite Hmc. }
  unfold reads, object_size. cbn. by rewrite Hr.
Qed.

Lemma Region_destroy_spec y t vcap a sp m cap r addr size :
  owner y t vcap a sp m -> names_memory t cap r -> m !! addr = Some (mkMapping addr (addr + size) r) -> 0 < size -> addr + size < 2 ^ 64 ->
  exists y' t' sp' m', Region_destroy vcap (mkRegion cap addr size) y = Ret (Val tt, y') /\ owner y' t' vcap a sp' m' /\ caps t' = delete cap (caps t) /\
    m' ⊆ m /\ (forall b z, m' !! b = Some z -> vaddr_limit z <= addr \/ addr + size <= b) /\ mem_objects y' = mem_objects y /\ pmem y' = pmem y /\ cr3_ sp' = cr3_ sp.
Proof.
  intros Ho Hn Hx Hsz Hlim. destruct Hn as (mc & Hmc & Hmo & _). destruct (tbl_ids _ (ow_wf _ _ _ _ _ _ Ho) _ _ Hmc) as [Hid _].
  assert (0 <= addr) as Ha by (destruct (mw_ok _ _ (proj2 (ow_tree _ _ _ _ _ _ Ho)) _ _ Hx) as (H1 & H2 & _); cbn in *; lia).
  destruct (AddressSpaceUnmap_spec _ _ _ _ _ _ _ _ _ Ho Hx Hsz) as (sp' & m' & HU & Ho1 & Hsub & Hgone & Hcr3). set (y1 := with_space a sp' y) in *.
  destruct (ZCapRelease_spec y1 t cap mc (ow_table _ _ _ _ _ _ Ho1) (ow_wf _ _ _ _ _ _ Ho1) Hmc) as (t' & HR & Hw' & Hcaps).
  exists (with_ker (with_tables (<[cur (ker y1) := t']> (tables (ker y1))) (ker y1)) y1), t', sp', m'. split_and!; [|split| | | | | |]; try done.
  - unfold Region_destroy. cbn [vmmo_cap_ vaddr_ size_]. rewrite (proj2 (Z.eqb_neq cap 0)) by lia. cbn [negb]. rewrite u64_small by lia.
    rewrite (sys_val _ _ y tt y1) by (by apply check_val). exact (check_val _ _ _ _ HR).
  - cbn. apply lookup_insert_eq.
  - destruct (ow_vmas _ _ _ _ _ _ Ho1) as (vc & Hvc & Hvo & Hvp). exists vc. split; [|done]. rewrite Hcaps, lookup_delete_ne; [done|]. intros ->. rewrite Hmc in Hvc. injection Hvc as <-. by rewrite Hmo in Hvo.
  - apply Ho1.
  - apply Ho1.
  - apply Ho1.
  - apply Ho1.
Qed.

(** C28.  A region is in the mapping tree of its address space for as long as it is in scope: making a region of a capability
    enters its memory object, whole, at a range where no mapping was, and leaves the other mappings as they are; when the
    region goes out of scope, whatever happened to the process in between, provided its mapping and its capability are still
    there, no mapping of the tree meets its range any more, no other mapping appeared, and exactly its capability is gone.
    This is about the tree only: frames that were already entered in the page tables stay there. *)
Theorem region_lifecycle y t vcap a sp m cap r o :
  owner y t vcap a sp m -> names_memory t cap r -> mem_objects y !! r = Some o -> 0 < MemoryObject_size o < 2 ^ 62 -> next_after sp (MemoryObject_size o) < 0x3000000000 ->
  exists addr sp', let size := MemoryObject_size o in let reg := mkRegion cap addr size in let x := mkMapping addr (addr + size) r in
    FromCapability vcap cap y = Ret (Val reg, with_space a sp' y) /\ owner (with_space a sp' y) t vcap a sp' (<[addr := x]> m) /\
    (forall b z, m !! b = Some z -> vaddr_limit z <= addr \/ addr + size <= b) /\
    forall y2 t2 sp2 m2, owner y2 t2 vcap a sp2 m2 -> names_memory t2 cap r -> m2 !! addr = Some x ->
    exists y3 t3 sp3 m3, Region_destroy vcap reg y2 = Ret (Val tt, y3) /\ owner y3 t3 vcap a sp3 m3 /\ caps t3 = delete cap (caps t2) /\
      m3 ⊆ m2 /\ forall b z, m3 !! b = Some z -> vaddr_limit z <= addr \/ addr + size <= b.
Proof.
  intros Ho Hn Hr Hsz Hnext. destruct (FromCapability_spec _ _ _ _ _ _ _ _ _ Ho Hn Hr Hsz Hnext) as (sp' & HF & Ho'). exists (next_memmap_addr_ sp), sp'. cbv zeta. split_and!; [done|done| |].
  - destruct (map_object_spec _ _ _ _ _ (ow_tree _ _ _ _ _ _ Ho) (ow_memmap _ _ _ _ _ _ Ho) (ow_free _ _ _ _ _ _ Ho) Hr Hsz Hnext) as (_ & _ & _ & _ & _ & Hle & _). cbv zeta in Hle.
    intros b z Hb. destruct (ow_free _ _ _ _ _ _ Ho _ _ Hb) as [_ [?|?]]; [by left|right; lia].
  - intros y2 t2 sp2 m2 Ho2 Hn2 Hx2. pose proof (proj1 (ow_memmap _ _ _ _ _ _ Ho)).
    destruct (Region_destroy_spec _ _ _ _ _ _ _ _ _ _ Ho2 Hn2 Hx2) as (y3 & t3 & sp3 & m3 & HD & Ho3 & Hc & Hsub & Hgone & _); [lia|lia|]. by exists y3, t3, sp3, m3.
Qed.

(** Assigning to a region gives its capability back, but leaves the range mapped: the address space does not change. *)
Lemma move_assign_stays_mapped y t vcap a sp m r other c :
  owner y t vcap a sp m -> vmmo_cap_ r <> 0 -> caps t !! vmmo_cap_ r = Some (Some c) ->
  exists y' t', Region_move_assign r other y = Ret (Val (other, no_region), y') /\ spaces y' = spaces y /\ tables (ker y') = <[cur (ker y) := t']> (tables (ker y)) /\ caps t' = delete (vmmo_cap_ r) (caps t).
Proof.
  intros Ho Hr Hc. destruct (ZCapRelease_spec y t _ c (ow_table _ _ _ _ _ _ Ho) (ow_wf _ _ _ _ _ _ Ho) Hc) as (t' & HR & _ & Hcaps).
  eexists _, t'. split; [|split; [|split; [|done]]].
  - unfold Region_move_assign. rewrite (proj2 (Z.eqb_neq _ 0) Hr). cbn [negb]. rewrite (sys_val _ _ y tt _ (check_val _ _ _ _ HR)). by destruct other.
  - done.
  - done.
Qed.

(** *** Witness: a region of 0x1234 bytes *)
Definition region_cap : Capability := mkCap (mkObj MEMORY_OBJECT 1) memory_permissions.
Definition space_cap : Capability := mkCap (mkObj ADDRESS_SPACE 30) space_permissions.
Definition region_table : CapabilityTable := Eval vm_compute in table_of [space_cap; region_cap].
Definition region_system : system :=
  with_mem_objects {[ 1%positive := VariableMemoryObject_new 0x1234 ]} (with_ker (with_tables (<[20%positive := region_table]> (tables (ker demo_running))) (ker demo_running)) demo_running).

Lemma region_owner : owner region_system region_table 0x100 30 demo_space ∅.
Proof.
  split.
  - by vm_compute.
  - replace region_table with (table_of [space_cap; region_cap]) by (vm_compute; reflexivity). by destruct (table_of_wf [space_cap; region_cap]) as (H1 & _); [|exact H1].
  - exists space_cap. split; [by vm_compute|]. split; [done|by vm_compute].
  - done.
  - split; [exact (om_new_ok (M:=BinaryTree) MemoryMapping)|]. split; [apply map_Forall_empty|]. intros b z ? ? Hb. exfalso. by rewrite lookup_empty in Hb.
  - split; [cbn; lia|done].
  - intros b z Hb. by rewrite lookup_empty in Hb.
Qed.

Lemma region_lifecycle_witness :
  exists addr sp', FromCapability 0x100 0x101 region_system = Ret (Val (mkRegion 0x101 addr 0x2000), with_space 30 sp' region_system).
Proof.
  destruct (region_lifecycle region_system region_table 0x100 30 demo_space ∅ 0x101 1 (VariableMemoryObject_new 0x1234) region_owner) as (addr & sp' & HF & _).
  - exists region_cap. split_and!; [by vm_compute|done|by vm_compute|by vm_compute].
  - done.
  - by vm_compute.
  - by vm_compute.
  - exists addr, sp'. exact HF.
Defined.
