(* ===== verification/AhciInit.v ===== *)
(** * Starting the disk controller (sys/denali/ahci/ahci_controller.cpp)

    The controller is found through its PCI configuration space, reset, hooked
    up to its interrupt line, and its ports are set up and identified.  The
    device is a parameter: what its registers hold, what it does while the
    driver polls ([tick]) and what its transfers write ([dma]).  Events happen
    while the driver waits for an identification, as in Denali.v. *)

From Stdlib Require Import ZArith Lia.
From stdpp Require Import base tactics numbers list.
From S2P Require Import Prelude Status Buffer Yunq YunqMessages RawMem Interrupt Ahci Denali.

(** ** The configuration space *)

(** The fields of [PciDeviceHeader] that are used. *)
Definition pci_status_reg (mem : memory) (base : Z) : res Z := read_int mem (base + 6) 2.
Definition pci_abar (mem : memory) (base : Z) : res Z := read_int mem (base + 36) 4.
Definition pci_cap_ptr (mem : memory) (base : Z) : res Z := read_int mem (base + 52) 1.
Definition pci_interrupt_pin (mem : memory) (base : Z) : res Z := read_int mem (base + 61) 1.

(** The [do] loop of [LoadCapabilities]: the ids of the capabilities, in order (the code prints their names). *)
Fixpoint cap_loop (fuel : nat) (mem : memory) (base offset : Z) : res (list Z) :=
  match fuel with
  | O => NoFuel
  | S fuel' =>
      cap ← read_int mem (base + offset) 2;
      let next := Z.shiftr (Z.land cap 0xFF00) 8 in
      ids ← (if negb (next =? 0) then cap_loop fuel' mem base next else Ret []);
      Ret (Z.land cap 0xFF :: ids)
  end.

Definition LoadCapabilities (fuel : nat) (mem : memory) (base : Z) : res (ErrorOr (list Z)) :=
  status ← pci_status_reg mem base;
  if Z.land status 0x10 =? 0 then Ret (EErr FAILED_PRECONDITION) else
  offset ← pci_cap_ptr mem base;
  ids ← cap_loop fuel mem base offset;
  Ret (EOk ids).

(** ** The controller *)
Definition kGlobalHostControl_HW_Reset : Z := 1.
Definition kGlobalHostControl_AHCI_Enable : Z := 2 ^ 31.
Definition kGhc_InteruptEnable : Z := 2.

Definition with_ghc (v : Z) (h : AhciHba) : AhciHba := mkHba (capabilities h) v (hba_interrupt_status h) (port_implemented h).

Definition no_controller : AhciController := mkController (mkHba 0 0 0 0) (replicate 32 None) 0 0.

Section init.
Context (dma : HostToDeviceRegisterFis -> PhysicalRegionDescriptor -> (Z -> Z) -> (Z -> Z)).
Context (contiguous : Z -> Z -> Z * Z).
(** What the controller does between two reads of its registers. *)
Context (tick : AhciHba -> AhciHba).
(** The registers at a physical address, and those of the ports behind them. *)
Context (hba_at : Z -> AhciHba) (regs : list AhciPortHba).
(** The answers of the kernel to [ZThreadSleep] and to [ZIrqRegister]. *)
Context (sleep : Z -> ErrorCode) (irq_register : Z -> ErrorOr Z).
Implicit Types (w : World) (h : AhciHba).

Definition resetting h : bool := negb (Z.land (global_host_control h) kGlobalHostControl_HW_Reset =? 0).

Definition ResetHba (fuel : nat) h : res (ErrorCode * AhciHba) :=
  h ← poll_loop tick resetting fuel (with_ghc (Z.lor (global_host_control h) kGlobalHostControl_HW_Reset) h);
  Ret (sleep 50, with_ghc (Z.lor (global_host_control h) kGlobalHostControl_AHCI_Enable) h).

(** The port of the interrupt; a controller without an interrupt pin stops the program. *)
Definition RegisterIrq (interrupt_pin : Z) h : res (ErrorOr Z * AhciHba) :=
  if interrupt_pin =? 0 then Panic else
  let irq_num := if interrupt_pin =? 1 then kZIrqPci1 else if interrupt_pin =? 2 then kZIrqPci2
    else if interrupt_pin =? 3 then kZIrqPci3 else if interrupt_pin =? 4 then kZIrqPci4 else 0 in
  match irq_register irq_num with
  | EErr e => Ret (EErr e, h)
  | EOk irq_port_cap => Ret (EOk irq_port_cap, with_ghc (Z.lor (global_host_control h) kGhc_InteruptEnable) h)
  end.

Definition Identify (port : nat) (evs : list event) w : res (ErrorCode * World * list event) :=
  match ports_ (w_driver w) !! port with
  | Some (Some p) =>
      if negb (IsSata p) then Ret (OK, w, evs) else
      let '(_, paddr, w) := ContiguousPhysical contiguous 0x200 w in
      '(r, w) ← device_IssueCommand dma port (identify_command paddr) w;
      match r with
      | EErr e => Ret (e, w, evs)
      | EOk slot =>
          '(w, evs) ← Wait dma port slot evs w;
          p ← deref (ports_ (w_driver w) !! port);
          p ← deref p;
          p ← identify_parse (mem_range (w_mem w) paddr 512) p;
          Ret (OK, set_port port p w, evs)
      end
  | _ => Fault
  end.

(** The loop runs to [num_ports_] inclusive; a shift of an int by 32 is undefined. *)
Fixpoint load_ports (n : nat) (i : Z) (evs : list event) w : res (ErrorCode * World * list event) :=
  match n with
  | O => Ret (OK, w, evs)
  | S n' =>
      if 32 <=? i then Fault else
      if Z.land (port_implemented (ahci_hba_ (w_driver w))) (bit i) =? 0 then load_ports n' (i + 1) evs w else
      port ← deref (regs !! Z.to_nat i);
      if negb (Z.land (sata_status port) 0x103 =? 0x103) then load_ports n' (i + 1) evs w else
      let '(_, paddr, w) := ContiguousPhysical contiguous 0x2500 w in
      p ← AhciPort_new port paddr;
      _ ← deref (ports_ (w_driver w) !! Z.to_nat i);
      '(err, w, evs) ← Identify (Z.to_nat i) evs (set_port (Z.to_nat i) p w);
      if negb (bool_decide (err = OK)) then Ret (err, w, evs) else load_ports n' (i + 1) evs w
  end.

Definition LoadPorts (evs : list event) w : res (ErrorCode * World * list event) := load_ports (S (Z.to_nat (num_ports_ (w_driver w)))) 0 evs w.

(** [Init]: the configuration space is at [pci] in memory.  Events happen during the waits and inside the commands. *)
Definition AhciController_Init (fuel : nat) (mem : memory) (pci : Z) (evs : list event) (mem0 : Z -> Z) (regions : Z) (windows : list (list event)) : res (ErrorCode * World * list event) :=
  abar ← pci_abar mem pci;
  let c := LoadHbaRegisters (hba_at abar) no_controller in
  '(err, h) ← ResetHba fuel (ahci_hba_ c);
  if negb (bool_decide (err = OK)) then Ret (err, mkWorld (with_ahci_hba h c) mem0 regions windows, evs) else
  pin ← pci_interrupt_pin mem pci;
  '(irq, h) ← RegisterIrq pin h;
  let w := mkWorld (with_ahci_hba h c) mem0 regions windows in
  match irq with
  | EErr e => Ret (e, w, evs)
  | EOk _ => LoadPorts evs w
  end.
End init.

(** A capability that names itself as the next one is read forever. *)
Lemma cap_loop_stuck mem base offset cap fuel :
  read_int mem (base + offset) 2 = Ret cap -> Z.shiftr (Z.land cap 0xFF00) 8 = offset -> offset <> 0 -> cap_loop fuel mem base offset = NoFuel.
Proof. intros Hr Hn H0. induction fuel as [|fuel IH]; [done|]. cbn [cap_loop]. rewrite Hr. cbn [mbind res_bind]. rewrite Hn, (proj2 (Z.eqb_neq _ _) H0). cbn [negb]. by rewrite IH. Qed.

(** ** What a wait leaves alone *)
Definition same_setup (c c' : AhciController) : Prop :=
  num_ports_ c' = num_ports_ c /\ port_implemented (ahci_hba_ c') = port_implemented (ahci_hba_ c) /\ global_host_control (ahci_hba_ c') = global_host_control (ahci_hba_ c).

Lemma interrupt_turn_setup n : forall i c c', interrupt_turn n i c = Ret c' -> same_setup c c'.
Proof.
  induction n as [|n IH]; intros i c c' H; cbn [interrupt_turn] in H; [by injection H as <-|].
  apply bind_Ret in H as (o & _ & H). destruct o as [p|]; [|by eapply IH]. case_match; [|by eapply IH]. apply bind_Ret in H as (p' & _ & H). by apply IH in H.
Qed.

Lemma Wait_setup dma port slot evs : forall w w' evs', Wait dma port slot evs w = Ret (w', evs') -> same_setup (w_driver w) (w_driver w').
Proof.
  induction evs as [|e evs IH]; intros w w' evs' H; cbn [Wait] in H;
    (destruct (ports_ (w_driver w) !! port) as [[p|]|]; [|done|done]); apply bind_Ret in H as (n & _ & H); case_match; try done; [by injection H as <- _|by injection H as <- _|].
  apply bind_Ret in H as (w1 & H1 & H). apply IH in H. destruct e as [pt sl f irq|]; cbn [run_event] in H1.
  - injection H1 as <-. unfold complete in H. repeat (case_match; try done).
  - apply bind_Ret in H1 as (c & Hc & H1). injection H1 as <-. apply interrupt_turn_setup in Hc. destruct H as (? & ? & ?), Hc as (? & ? & ?). cbn in *. unfold same_setup. by split_and!; etransitivity.
Qed.

Section ready.
Context (dma : HostToDeviceRegisterFis -> PhysicalRegionDescriptor -> (Z -> Z) -> (Z -> Z)).
Context (contiguous : Z -> Z -> Z * Z).
(** What the ATA command IDENTIFY DEVICE does: it transfers the 512 bytes that describe the device. *)
Context (identity : Z -> Z).
Hypothesis dma_identifies : forall f prd mem a,
  fis_command f = kIdentifyDevice -> dma f prd mem a = if (region_address prd <=? a) && (a <? region_address prd + 512) then identity (a - region_address prd) else mem a.
Implicit Types w : World.

Definition identity_bytes : list Z := mem_range identity 0 512.

(** The 16-bit words of the identity, and what the port takes from them: the number of sectors from words 100 to 103 when bit
    10 of word 83 says that the device has 48-bit addresses, otherwise from words 60 and 61; the sector size from words
    117 and 118, as they are, when bit 12 of word 106 says that they are valid, otherwise 512. *)
Definition word (i : Z) : Z := identity (2 * i) + 2 ^ 8 * identity (2 * i + 1).

Definition identified (p : AhciPort) : Prop :=
  is_init_ p = true /\
  lba_count_ p = (if Z.testbit (word 83) 10 then word 100 + 2 ^ 16 * word 101 + 2 ^ 32 * word 102 + 2 ^ 48 * word 103 else word 60 + 2 ^ 16 * word 61) /\
  sector_size_ p = (if Z.testbit (word 106) 12 then word 117 + 2 ^ 16 * word 118 else 512).

Ltac word_eq :=
  unfold word; cbn [le_val]; f_equal;
  repeat match goal with |- context [identity ?e] => let e' := eval vm_compute in e in progress change (identity e) with (identity e') end; lia.

Lemma identify_parse_words p : exists lbas sector, identify_parse identity_bytes p = Ret (with_identity lbas sector p) /\ identified (with_identity lbas sector p).
Proof.
  assert (forall i j, 0 <= j -> negb (Z.land (le_val [identity (2 * i); identity (2 * i + 1)]) (bit j) =? 0) = Z.testbit (word i) j) as Hflag.
  { intros i j Hj. rewrite land_bit, negb_involutive by done. assert (le_val [identity (2 * i); identity (2 * i + 1)] = word i) as -> by (unfold word; cbn [le_val]; lia). done. }
  assert (load_bytes (2 * 106) 2 identity_bytes = Ret [identity 212; identity 213]) as H106 by (vm_compute; reflexivity).
  assert (load_bytes (2 * 83) 2 identity_bytes = Ret [identity 166; identity 167]) as H83 by (vm_compute; reflexivity).
  assert (At_u32 (2 * 117) identity_bytes = Ret (word 117 + 2 ^ 16 * word 118)) as H117.
  { unfold At_u32. assert (load_bytes (2 * 117) 4 identity_bytes = Ret [identity 234; identity 235; identity 236; identity 237]) as -> by (vm_compute; reflexivity). rewrite ret_bind. word_eq. }
  assert (At_u32 (2 * 60) identity_bytes = Ret (word 60 + 2 ^ 16 * word 61)) as H60.
  { unfold At_u32. assert (load_bytes (2 * 60) 4 identity_bytes = Ret [identity 120; identity 121; identity 122; identity 123]) as -> by (vm_compute; reflexivity). rewrite ret_bind. word_eq. }
  assert (At_u64 (2 * 100) identity_bytes = Ret (word 100 + 2 ^ 16 * word 101 + 2 ^ 32 * word 102 + 2 ^ 48 * word 103)) as H100.
  { unfold At_u64. assert (load_bytes (2 * 100) 8 identity_bytes = Ret [identity 200; identity 201; identity 202; identity 203; identity 204; identity 205; identity 206; identity 207]) as -> by (vm_compute; reflexivity).
    rewrite ret_bind. word_eq. }
  pose proof (Hflag 106 12 ltac:(lia) : negb (Z.land (le_val [identity 212; identity 213]) (bit 12) =? 0) = _) as F12.
  pose proof (Hflag 83 10 ltac:(lia) : negb (Z.land (le_val [identity 166; identity 167]) (bit 10) =? 0) = _) as F10.
  unfold identify_parse, identified. rewrite H106, ret_bind, F12, H117.
  assert ((if Z.testbit (word 106) 12 then Ret (word 117 + 2 ^ 16 * word 118) else Ret 512) = Ret (if Z.testbit (word 106) 12 then word 117 + 2 ^ 16 * word 118 else 512)) as -> by (by case_match).
  rewrite ret_bind, H83, ret_bind, F10, H100, H60. destruct (Z.testbit (word 83) 10); rewrite ret_bind; eauto 10.
Qed.

Lemma identify_transfer paddr mem : let c := identify_command paddr in
  mem_range (dma (command_fis_of c) (prdt0 (table_of c)) mem) paddr 512 = identity_bytes.
Proof.
  intros c. apply mem_range_ext. intros i Hi. rewrite dma_identifies by done. cbn [region_address prdt0 table_of c identify_command ci_paddr].
  rewrite (proj2 (Z.leb_le _ _)), (proj2 (Z.ltb_lt _ _)) by lia. cbn [andb]. f_equal. lia.
Qed.

Lemma device_IssueCommand_setup d c w w' r : idle_disk w d -> device_IssueCommand dma d c w = Ret (r, w') -> same_setup (w_driver w) (w_driver w').
Proof.
  intros [(p & HO & HR) Hcalm]. unfold device_IssueCommand. rewrite (od_port _ _ _ HO).
  destruct (issue_prepare_spec c p free32 HR) as [(i & n & p' & Hi & _ & -> & HR' & _)|[_ ->]]; rewrite ret_bind; [|intros [= _ <-]; done].
  intros (w1 & Hw1 & H)%bind_Ret. apply bind_Ret in H as (o & _ & H). apply bind_Ret in H as (q & _ & H). injection H as _ <-.
  enough (w_driver w1 = w_driver (set_port d p' w)) as Hd by (cbn; rewrite Hd; done).
  unfold run_window in Hw1. cbn [set_port with_driver w_windows] in Hw1. unfold calm in Hcalm. destruct (w_windows w) as [|win rest]; [by injection Hw1 as <-|].
  apply Forall_cons in Hcalm as [Hwin _]. rewrite (run_events_none dma win _ d p' (<[i := (Prepared c, n)]> free32)) in Hw1; [by injection Hw1 as <-|by eapply one_disk_set|exact HR'| |done].
  intros j c' m Hj. destruct (decide (i = j)) as [<-|Hne]; [|rewrite list_lookup_insert_ne in Hj by done; unfold free32 in Hj; by apply lookup_replicate in Hj as [[=] _]].
  by rewrite list_lookup_insert_eq in Hj by (by eapply lookup_lt_Some).
Qed.

Lemma Identify_spec w d p evs :
  one_disk (w_driver w) d p -> port_slots p free32 -> calm w -> IsSata p = true -> serves d evs ->
  exists w' evs' p', Identify dma contiguous d evs w = Ret (OK, w', evs') /\ one_disk (w_driver w') d p' /\ port_slots p' free32 /\ calm w' /\ identified p' /\ same_setup (w_driver w) (w_driver w').
Proof.
  intros HO HR Hcalm Hs [Hev Hgood]. unfold Identify, ContiguousPhysical. rewrite (od_port _ _ _ HO), Hs. cbn [negb]. destruct (contiguous (w_regions w) 0x200) as [cap paddr].
  set (w0 := mkWorld (w_driver w) (w_mem w) (w_regions w + 1) (w_windows w)). assert (idle_disk w0 d) as Hidle by (split; [by exists p|done]).
  destruct (issue_idle_command dma true w0 d (identify_command paddr) Hidle) as (w1 & HI & _ & HW). rewrite HI, ret_bind.
  destruct (Wait_live dma true evs _ _ _ _ _ HW (good_verdict _ Hgood) Hgood Hev) as [[w2 evs2] Hwait]. rewrite Hwait, ret_bind.
  destruct (Wait_safe dma true evs _ _ _ _ _ _ _ HW (good_verdict _ Hgood) Hwait) as ([(p2 & HO2 & HR2) Hcalm2] & Hm & _). rewrite (od_port _ _ _ HO2). cbn [deref]. rewrite ret_bind. cbn [deref]. rewrite ret_bind.
  rewrite Hm, identify_transfer. destruct (identify_parse_words p2) as (lbas & sector & -> & Hid).
  rewrite ret_bind. eexists _, evs2, _. split; [done|]. split; [by eapply one_disk_set|]. split; [by destruct HR2|]. split; [done|]. split; [done|].
  destruct (device_IssueCommand_setup _ _ _ _ _ Hidle HI) as (A1 & A2 & A3), (Wait_setup _ _ _ _ _ _ _ Hwait) as (B1 & B2 & B3). unfold same_setup. cbn in *. by rewrite B1, B2, B3.
Qed.

(** ** Loading the ports *)
Variable regs : list AhciPortHba.

(** No device at port [i]: not implemented, or no link. *)
Definition quiet (c : AhciController) (i : Z) : Prop :=
  Z.testbit (port_implemented (ahci_hba_ c)) i = false \/ exists r, regs !! Z.to_nat i = Some r /\ Z.land (sata_status r) 0x103 <> 0x103.

Lemma load_ports_quiet n : forall i evs w, 0 <= i -> i + Z.of_nat n <= 32 -> (forall j, i <= j < i + Z.of_nat n -> quiet (w_driver w) j) ->
  load_ports dma contiguous regs n i evs w = Ret (OK, w, evs).
Proof.
  induction n as [|n IH]; intros i evs w Hi Hn Hq; [done|]. cbn [load_ports]. rewrite (proj2 (Z.leb_gt 32 i)), land_bit by lia.
  assert (load_ports dma contiguous regs n (i + 1) evs w = Ret (OK, w, evs)) as Hrest by (apply IH; [lia|lia|]; intros j Hj; apply Hq; lia).
  destruct (Hq i ltac:(lia)) as [->|(r & Hr & Hl)]; [done|]. case_match; [done|]. rewrite Hr. cbn [deref mbind res_bind]. by rewrite (proj2 (Z.eqb_neq _ _) Hl).
Qed.

Lemma load_ports_skip k : forall n i evs w, 0 <= i -> i + Z.of_nat k <= 32 -> (forall j, i <= j < i + Z.of_nat k -> quiet (w_driver w) j) ->
  load_ports dma contiguous regs (k + n) i evs w = load_ports dma contiguous regs n (i + Z.of_nat k) evs w.
Proof.
  induction k as [|k IH]; intros n i evs w Hi Hn Hq; [by rewrite Z.add_0_r|]. cbn [Nat.add load_ports]. rewrite (proj2 (Z.leb_gt 32 i)), land_bit by lia.
  replace (i + Z.of_nat (S k)) with (i + 1 + Z.of_nat k) by lia. rewrite <- (IH n (i + 1)) by (lia || (intros j Hj; apply Hq; lia)).
  destruct (Hq i ltac:(lia)) as [->|(r & Hr & Hl)]; [done|]. case_match; [done|]. rewrite Hr. cbn [deref mbind res_bind]. by rewrite (proj2 (Z.eqb_neq _ _) Hl).
Qed.

(** With 32 ports the loop goes one too far. *)
Lemma load_ports_overruns evs w :
  num_ports_ (w_driver w) = 32 -> (forall j, 0 <= j < 32 -> quiet (w_driver w) j) -> LoadPorts dma contiguous regs evs w = Fault.
Proof. intros Hn Hq. unfold LoadPorts. rewrite Hn. change (S (Z.to_nat 32)) with (32 + 1)%nat. rewrite load_ports_skip by (lia || (intros j Hj; apply Hq; lia)). done. Qed.

(** A disk at port [d], and none anywhere else. *)
Record one_link (c : AhciController) (d : nat) (r : AhciPortHba) : Prop := {
  ol_num : Z.of_nat d < num_ports_ c <= 31;
  ol_implemented : Z.testbit (port_implemented (ahci_hba_ c)) (Z.of_nat d) = true;
  ol_regs : regs !! d = Some r;
  ol_link : Z.land (sata_status r) 0x103 = 0x103 /\ signature r = 0x101 /\ command_issue r = 0;
  ol_others j : 0 <= j <= num_ports_ c -> j <> Z.of_nat d -> quiet c j;
}.

Lemma LoadPorts_spec w d r evs :
  one_link (w_driver w) d r -> ports_ (w_driver w) = replicate 32 None -> hba_interrupt_status (ahci_hba_ (w_driver w)) = 0 -> calm w -> serves d evs ->
  exists w' evs' p, LoadPorts dma contiguous regs evs w = Ret (OK, w', evs') /\ one_disk (w_driver w') d p /\ port_slots p free32 /\ calm w' /\ identified p /\ same_setup (w_driver w) (w_driver w').
Proof.
  intros [Hnum Himp Hr (Hl & Hsig & Hci) Hoth] Hp Hst Hcalm Hev. unfold LoadPorts. set (n := num_ports_ (w_driver w)) in *.
  replace (S (Z.to_nat n)) with (d + S (Z.to_nat n - d))%nat by lia. rewrite load_ports_skip by (lia || (intros j Hj; apply Hoth; lia)). rewrite Z.add_0_l.
  cbn [load_ports]. rewrite (proj2 (Z.leb_gt 32 (Z.of_nat d))), land_bit, Himp, Nat2Z.id, Hr by lia. cbn [negb deref mbind res_bind]. rewrite Hl. cbn [Z.eqb Pos.eqb negb].
  unfold ContiguousPhysical. destruct (contiguous (w_regions w) 0x2500) as [cap paddr]. set (w0 := mkWorld (w_driver w) (w_mem w) (w_regions w + 1) (w_windows w)).
  destruct (AhciPort_new r paddr) as [p| | |] eqn:EP; [|unfold AhciPort_new in EP; rewrite Hl in EP; done..]. cbn [mbind res_bind].
  assert (IsSata p = true) as Hsata by (unfold AhciPort_new in EP; rewrite Hl in EP; injection EP as <-; unfold IsSata; cbn; by rewrite Hsig).
  change (w_driver w0) with (w_driver w). rewrite Hp, lookup_replicate_2 by lia. cbn [deref mbind res_bind].
  assert (one_disk (w_driver (set_port d p w0)) d p) as HO.
  { split; cbn; rewrite ?Hp, ?length_insert, ?length_replicate; fold n; [done|lia|apply list_lookup_insert_eq; rewrite length_replicate; lia| |].
    - intros j q Hj. destruct (decide (j = d)); [done|]. rewrite list_lookup_insert_ne in Hj by done. by apply lookup_replicate in Hj as [? _].
    - intros j _ _. rewrite Hst. apply Z.bits_0. }
  destruct (Identify_spec (set_port d p w0) d p evs HO (fresh_port_slots _ _ _ Hci EP) Hcalm Hsata Hev) as (w1 & evs1 & p1 & -> & HO1 & HR1 & Hcalm1 & Hid & Hset). cbn [mbind res_bind].
  rewrite bool_decide_true by done. cbn [negb]. rewrite load_ports_quiet; [by exists w1, evs1, p1|lia|lia|].
  intros j Hj. destruct (Hoth j) as [Hq|Hq]; [lia|lia| |by right]. left. destruct Hset as (_ & -> & _). done.
Qed.
End ready.

(** C25.  Start-up leaves a disk that can be read.  For a controller with at most 31 ports that ends its reset, has an interrupt
    pin and a SATA device with a link on exactly one port, when the device serves the identification without error and no
    interrupt is handled between the two stores that issue it: the start-up succeeds; the controller runs in AHCI mode with
    interrupts enabled; the port has the number of sectors and the sector size that the words of the identity give; no
    command is in flight, and the device is the one the disk service finds, idle, under the number of its port. *)
Theorem ahci_init_ready dma contiguous tick hba_at regs sleep irq_register identity fuel n mem pci abar pin irq h1 d r evs mem0 regions windows :
  (forall f prd mem a, fis_command f = kIdentifyDevice -> dma f prd mem a = if (region_address prd <=? a) && (a <? region_address prd + 512) then identity (a - region_address prd) else mem a) ->
  pci_abar mem pci = Ret abar -> pci_interrupt_pin mem pci = Ret pin -> 1 <= pin <= 4 -> sleep 50 = OK -> irq_register (0x2F + pin) = EOk irq ->
  polls tick resetting n (with_ghc (Z.lor (global_host_control (hba_at abar)) 1) (hba_at abar)) h1 -> (n < fuel)%nat -> hba_interrupt_status h1 = 0 ->
  one_link regs (with_ahci_hba h1 (LoadHbaRegisters (hba_at abar) no_controller)) d r -> Forall (fun win => EvInterrupt ∉ win) windows -> serves d evs ->
  exists w' evs' p, AhciController_Init dma contiguous tick hba_at regs sleep irq_register fuel mem pci evs mem0 regions windows = Ret (OK, w', evs') /\
    idle_disk w' d /\ GetDevice (Z.of_nat d) (w_driver w') = Ret (EOk d) /\ ports_ (w_driver w') !! d = Some (Some p) /\ identified identity p /\
    Z.testbit (global_host_control (ahci_hba_ (w_driver w'))) 31 = true /\ Z.testbit (global_host_control (ahci_hba_ (w_driver w'))) 1 = true.
Proof.
  intros Hdma Habar Hpin Hp Hsleep Hirq Hres Hn Hst HL Hcalm Hev. unfold AhciController_Init. rewrite Habar. cbn [mbind res_bind]. set (c := LoadHbaRegisters (hba_at abar) no_controller).
  unfold ResetHba. change (ahci_hba_ c) with (hba_at abar). unfold kGlobalHostControl_HW_Reset at 1. rewrite (poll_loop_spec _ _ _ _ _ _ Hres Hn), Hsleep. cbn [mbind res_bind]. rewrite bool_decide_true by done. cbn [negb].
  rewrite Hpin. cbn [mbind res_bind]. set (g1 := Z.lor (global_host_control h1) kGlobalHostControl_AHCI_Enable).
  assert (RegisterIrq irq_register pin (with_ghc g1 h1) = Ret (EOk irq, with_ghc (Z.lor g1 kGhc_InteruptEnable) h1)) as ->.
  { unfold RegisterIrq. assert (pin = 1 \/ pin = 2 \/ pin = 3 \/ pin = 4) as [->|[->|[->| ->]]] by lia; cbn [Z.eqb Pos.eqb]; unfold kZIrqPci1, kZIrqPci2, kZIrqPci3, kZIrqPci4; (match type of Hirq with irq_register ?z = _ => let z' := eval vm_compute in z in change z with z' in Hirq end); by rewrite Hirq. }
  cbn [mbind res_bind]. set (w := mkWorld _ mem0 regions windows).
  destruct (LoadPorts_spec dma contiguous identity Hdma regs w d r evs) as (w' & evs' & p & -> & HO & HR & Hcalm' & Hid & (_ & _ & Hg)); [by destruct HL|done|done|done|done|].
  exists w', evs', p. assert (idle_disk w' d) as Hidle by (split; [by exists p|done]). split_and!; [done|done|by apply GetDevice_idle|apply HO|done|..]; rewrite Hg; cbn [w w_driver ahci_hba_ with_ahci_hba global_host_control with_ghc];
    unfold g1, kGlobalHostControl_AHCI_Enable, kGhc_InteruptEnable; rewrite !Z.lor_spec; change (Z.testbit 2 1) with true; change (Z.testbit (2 ^ 31) 31) with true; by rewrite ?orb_true_r.
Qed.

(** *** Witness: a controller with one port, whose reset ends at the first poll *)
Definition init_dma (f : HostToDeviceRegisterFis) (prd : PhysicalRegionDescriptor) (mem : Z -> Z) (a : Z) : Z :=
  if (region_address prd <=? a) && (a <? region_address prd + 512) then demo_disk (a - region_address prd) else mem a.
Definition init_config : memory := fun a => if a =? 0x103D then Some 1 else blocks [(0x1024, le_bytes 4 0xFEBD0000)] a.
Definition init_registers (abar : Z) : AhciHba := mkHba 0 0x80000000 0 1.
Definition init_tick (h : AhciHba) : AhciHba := with_ghc 0 h.

Lemma init_one_link : one_link [demo_hba] (with_ahci_hba (with_ghc 0 (init_registers 0)) (LoadHbaRegisters (init_registers 0) no_controller)) 0 demo_hba.
Proof.
  split; [by vm_compute|done|done|by vm_compute|]. intros j Hj Hne. left. change (num_ports_ _) with 1 in Hj. assert (j = 1) as -> by lia. done.
Qed.

Lemma ahci_init_ready_witness :
  exists w' evs', AhciController_Init init_dma demo_contiguous init_tick init_registers [demo_hba] (fun _ => OK) (fun _ => EOk 0x105) 2 init_config 0x1000 demo_events (fun _ => 0) 0 [[EvComplete 0 0 demo_frames 0]] = Ret (OK, w', evs') /\ idle_disk w' 0.
Proof.
  destruct (ahci_init_ready init_dma demo_contiguous init_tick init_registers [demo_hba] (fun _ => OK) (fun _ => EOk 0x105) demo_disk 2 1 init_config 0x1000 0xFEBD0000 1 0x105
    (with_ghc 0 (init_registers 0)) 0 demo_hba demo_events (fun _ => 0) 0 [[EvComplete 0 0 demo_frames 0]]) as (w' & evs' & p & HI & Hidle & _).
  - reflexivity.
  - by vm_compute.
  - by vm_compute.
  - lia.
  - reflexivity.
  - reflexivity.
  - apply polls_again; [by vm_compute|]. apply polls_done. by vm_compute.
  - lia.
  - reflexivity.
  - exact init_one_link.
  - repeat constructor. by intros ?%list_elem_of_singleton.
  - exact demo_serves.
  - exists w', evs'. exact (conj HI Hidle).
Defined.
