(* ===== verification/XhciInit.v ===== *)
(** * Starting the USB controller (sys/voyageurs/xhci/xhci_driver.cpp)

    The controller's registers are found through its PCI configuration space;
    it is stopped and reset, its rings and tables are entered, it is started,
    and the ports with a device are reset.  What the controller does while the
    driver polls is a parameter ([tick]), and so is what the interrupt thread,
    which runs from the reset on, finds in the event ring at each of its turns.
    The last part is the thread that configures a device. *)

From Stdlib Require Import ZArith Lia.
From stdpp Require Import base tactics numbers list.
From S2P Require Import Prelude Status LinkedList Hash HashMap Buffer RawMem Xhci.

(** ** Registers *)

(** The fields of [XhciCapabilities] that are used. *)
Record XhciCapabilities : Type := mkCapabilities { length_and_version : Z; hcs_params_1 : Z; doorbell_offset : Z; runtime_offset : Z }.

(** The operational registers, the registers of interrupter 0 and the ports.  A register holds what was written last (but see
    [write_portsc]); what the controller makes of a write shows at its next [tick]. *)
Record XhciRegs : Type := mkRegs {
  usb_command : Z; usb_status : Z; command_ring_control : Z; device_context_base : Z; configure : Z;
  management : Z; moderation : Z; event_ring_segment_table_size : Z; event_ring_segment_table_base_address : Z; event_ring_dequeue_pointer : Z;
  status_and_control : list Z;
}.

Definition with_usb_command (v : Z) (r : XhciRegs) : XhciRegs :=
  mkRegs v (usb_status r) (command_ring_control r) (device_context_base r) (configure r) (management r) (moderation r)
    (event_ring_segment_table_size r) (event_ring_segment_table_base_address r) (event_ring_dequeue_pointer r) (status_and_control r).
Definition with_port_status (l : list Z) (r : XhciRegs) : XhciRegs :=
  mkRegs (usb_command r) (usb_status r) (command_ring_control r) (device_context_base r) (configure r) (management r) (moderation r)
    (event_ring_segment_table_size r) (event_ring_segment_table_base_address r) (event_ring_dequeue_pointer r) l.

(** ~m in 32 bits, applied to a register. *)
Definition clear32 (m v : Z) : Z := Z.land v (Z.lxor (2 ^ 32 - 1) m).

(** A store to the status and control register of a port.  Connection, over-current, speed and the like are read-only; the
    bit that says the port is enabled (1) and the change bits (17 to 23) are cleared by writing ones; reset (4 and 31) is
    started by writing a one; the link state (5 to 8) is only taken over when bit 16 is written as one, which itself reads as
    zero; power, indicators and wake bits are plain. *)
Definition portsc_read_only : Z := 0x41003C09.
Definition portsc_write_one_to_clear : Z := 0x00FE0002.
Definition portsc_write_one_to_set : Z := 0x80000010.
Definition portsc_link_state : Z := 0x1E0.
Definition portsc_plain : Z := 0x0E00C200.

Definition write_portsc (old v : Z) : Z :=
  Z.lor (Z.land old portsc_read_only)
    (Z.lor (clear32 v (Z.land old portsc_write_one_to_clear))
      (Z.lor (Z.land (Z.lor old v) portsc_write_one_to_set)
        (Z.lor (Z.land (if Z.testbit v 16 then v else old) portsc_link_state) (Z.land v portsc_plain)))).

(** The controller, the driver, and the entry of the event ring segment table: base and size. *)
Record xhci : Type := mkXhci { x_regs : XhciRegs; x_driver : XhciDriver; x_segment : Z * Z }.

(** Where the structures are. *)
Record mmio : Type := mkMmio { operational_ : Z; runtime_ : Z; doorbells_ : Z; max_device_slots : Z }.

Definition pci_bar0 (mem : memory) (pci : Z) : res Z := read_int mem (pci + 16) 4.

Definition read_capabilities (mem : memory) (a : Z) : res XhciCapabilities :=
  lv ← read_int mem a 4;
  p1 ← read_int mem (a + 4) 4;
  db ← read_int mem (a + 20) 4;
  rt ← read_int mem (a + 24) 4;
  Ret (mkCapabilities lv p1 db rt).

Section init.
(** Where the [n]-th contiguous region is, and where a physical range is mapped. *)
Context (contiguous : nat -> Z) (map_physical : Z -> Z).
Context (tick : XhciRegs -> XhciRegs) (sleep : Z -> ErrorCode).
(** The semaphore of each new slot. *)
Context (new_semaphore : nat -> positive).
(** What a new context page and the receive buffer hold. *)
Context (fresh_context : XhciInputContext) (recv_mem : list Z).
Implicit Types (r : XhciRegs) (x : xhci).

(** [bars[0] & ~0xFFF] is an unsigned operation in 32 bits. *)
Definition ParseMmioStructures (mem : memory) (pci : Z) : res (XhciCapabilities * mmio) :=
  bar ← pci_bar0 mem pci;
  let vaddr := map_physical (clear32 0xFFF bar) in
  caps ← read_capabilities mem vaddr;
  Ret (caps, mkMmio (vaddr [+] Z.land (length_and_version caps) 0xFF) (vaddr [+] runtime_offset caps) (vaddr [+] doorbell_offset caps) (Z.land (hcs_params_1 caps) 0xFF)).

(** [DeviceSlot()] *)
Definition DeviceSlot_new (sem : positive) : DeviceSlot := mkSlot false 0 0 None None hm_new sem [].

(** The driver after [ParseMmioStructures]: two rings and the slots. *)
Definition XhciDriver_new (slots : Z) : XhciDriver :=
  mkDriver (TrbRingWriter_new (contiguous 0)) (TrbRingReader_new (contiguous 1)) [] (DeviceSlot_new ∘ new_semaphore <$> seq 0 (Z.to_nat slots)) 2 [].

(** A loop that sleeps while the controller is busy; [None] when it went on, otherwise the error of the sleep. *)
Fixpoint wait_loop (fuel : nat) (busy : XhciRegs -> bool) r : res (option ErrorCode * XhciRegs) :=
  match fuel with
  | O => NoFuel
  | S fuel' =>
      if busy r then
        if negb (bool_decide (sleep 50 = OK)) then Ret (Some (sleep 50), r) else wait_loop fuel' busy (tick r)
      else Ret (None, r)
  end.

Definition not_halted r : bool := negb (Z.land (usb_status r) 0x1 =? 0x1).
Definition in_reset r : bool := negb (Z.land (usb_command r) 0x2 =? 0).
(** The code tests bit 11 of the command register. *)
Definition not_ready r : bool := negb (Z.land (usb_command r) (2 ^ 11) =? 0).

Definition InitiateCommandRing x : xhci :=
  let r := x_regs x in
  mkXhci (mkRegs (usb_command r) (usb_status r) (phys_address_ (w_ring (command_ring_ (x_driver x)))) (device_context_base r) (configure r) (management r) (moderation r)
    (event_ring_segment_table_size r) (event_ring_segment_table_base_address r) (event_ring_dequeue_pointer r) (status_and_control r)) (x_driver x) (x_segment x).

(** The array is a new region; [old] is what is in it. *)
Definition InitiateDeviceContextBaseArray (params1 : Z) (old : list Z) x : xhci :=
  let d := x_driver x in
  let r := x_regs x in
  let dcba_phys := contiguous (regions d) in
  let max_slots := 0x1000 / 8 - 1 in
  let max_slots := if Z.land params1 0xFF <? max_slots then Z.land params1 0xFF else max_slots in
  mkXhci (mkRegs (usb_command r) (usb_status r) (command_ring_control r) dcba_phys (Z.lor (clear32 0xFF (configure r)) (Z.land max_slots 0xFF)) (management r) (moderation r)
    (event_ring_segment_table_size r) (event_ring_segment_table_base_address r) (event_ring_dequeue_pointer r) (status_and_control r))
    (next_region (with_base_array old d)) (x_segment x).

Definition InitiateEventRingSegmentTable x : xhci :=
  let d := x_driver x in
  let r := x_regs x in
  let erst_phys := contiguous (regions d) in
  let ring := phys_address_ (r_ring (event_ring_ d)) in
  mkXhci (mkRegs (Z.lor (usb_command r) 0x4) (usb_status r) (command_ring_control r) (device_context_base r) (configure r) (Z.lor (management r) 0x2) 4000
    1 erst_phys (Z.lor ring 0x8) (status_and_control r)) (next_region d) (ring, Z.land (0x1000 / 16) 0xFFFF).

Definition ResetController (fuel : nat) (params1 : Z) (old : list Z) x : res (ErrorCode * xhci) :=
  let r := with_usb_command (clear32 0x1 (usb_command (x_regs x))) (x_regs x) in
  '(err, r) ← wait_loop fuel not_halted r;
  match err with Some e => Ret (e, mkXhci r (x_driver x) (x_segment x)) | None =>
  let r := with_usb_command (Z.lor (usb_command r) 0x2) r in
  '(err, r) ← wait_loop fuel in_reset r;
  match err with Some e => Ret (e, mkXhci r (x_driver x) (x_segment x)) | None =>
  '(err, r) ← wait_loop fuel not_ready r;
  match err with Some e => Ret (e, mkXhci r (x_driver x) (x_segment x)) | None =>
  let x := InitiateCommandRing (mkXhci r (x_driver x) (x_segment x)) in
  let x := InitiateDeviceContextBaseArray params1 old x in
  let x := InitiateEventRingSegmentTable x in
  Ret (OK, mkXhci (with_usb_command (Z.lor (usb_command (x_regs x)) 0x1) (x_regs x)) (x_driver x) (x_segment x))
  end end end.

(** The loop of [InitiateDevices] from port [i] on. *)
Fixpoint ports_loop (n i : nat) (l : list Z) : res (list Z) :=
  match n with
  | O => Ret l
  | S n' =>
      status ← deref (l !! i);
      let status := write_portsc status (clear32 0x10000 status) in
      let status := if Z.land status 0x3 =? 0x1 then write_portsc status (Z.lor status 0x10) else status in
      ports_loop n' (S i) (<[i := status]> l)
  end.

Definition InitiateDevices (params1 : Z) x : res xhci :=
  let max_ports := Z.shiftr (Z.land params1 0xFF000000) 24 in
  l ← ports_loop (Z.to_nat max_ports) 0 (status_and_control (x_regs x));
  Ret (mkXhci (with_port_status l (x_regs x)) (x_driver x) (x_segment x)).

(** Turns of the interrupt thread: what the controller has in the event ring at each of them. *)
Fixpoint interrupt_turns (turns : list (list XhciTrb)) (d : XhciDriver) : res XhciDriver :=
  match turns with
  | [] => Ret d
  | l :: turns' =>
      let r := event_ring_ d in
      d ← InterruptTurn contiguous fresh_context recv_mem (with_event_ring (mkReader (mkRing (phys_address_ (r_ring r)) l) (dequeue_ptr_ r) (cycle_bit_ r)) d);
      interrupt_turns turns' d
  end.

(** [InitiateDriver]: the error codes of the steps are dropped.  The interrupt thread is started after the reset: it takes the turns
    [before] until the no-op command is entered and the turns [after] until the function returns. *)
Definition InitiateDriver (fuel : nat) (mem : memory) (pci : Z) (old : list Z) (r : XhciRegs) (before after : list (list XhciTrb)) : res (mmio * xhci) :=
  '(caps, places) ← ParseMmioStructures mem pci;
  '(_, x) ← ResetController fuel (hcs_params_1 caps) old (mkXhci r (XhciDriver_new (max_device_slots places)) (0, 0));
  d ← interrupt_turns before (x_driver x);
  d ← NoOpCommand d;
  d ← interrupt_turns after d;
  x ← InitiateDevices (hcs_params_1 caps) (mkXhci (x_regs x) d (x_segment x));
  Ret (places, x).
End init.

(** ** Waiting *)
Lemma wait_loop_spec tick sleep busy n r r' fuel :
  sleep 50 = OK -> polls tick busy n r r' -> (n < fuel)%nat -> wait_loop tick sleep fuel busy r = Ret (None, r').
Proof.
  intros Hs Hp. revert fuel. induction Hp as [r Hb|n r r' Hb _ IH]; intros [|fuel] Hf; try lia; cbn [wait_loop]; rewrite Hb; [done|].
  rewrite Hs. cbn [negb]. rewrite bool_decide_true by done. apply IH. lia.
Qed.

(** ** Ports *)

(** What the loop makes of the register of a port. *)
Definition port_started (s : Z) : Z :=
  let s := write_portsc s (clear32 0x10000 s) in if Z.land s 0x3 =? 0x1 then write_portsc s (Z.lor s 0x10) else s.

Lemma testbit_portsc old v i : 0 <= i < 32 ->
  Z.testbit (write_portsc old v) i =
    Z.testbit old i && Z.testbit portsc_read_only i || (Z.testbit old i && Z.testbit portsc_write_one_to_clear i && negb (Z.testbit v i) ||
      ((Z.testbit old i || Z.testbit v i) && Z.testbit portsc_write_one_to_set i ||
        ((if Z.testbit v 16 then Z.testbit v i else Z.testbit old i) && Z.testbit portsc_link_state i || Z.testbit v i && Z.testbit portsc_plain i))).
Proof.
  intros Hi. unfold write_portsc, clear32. rewrite !Z.lor_spec, !Z.land_spec, !Z.lor_spec, Z.lxor_spec. change (2 ^ 32 - 1) with (Z.ones 32). rewrite (Z.ones_spec_low 32 i) by lia. cbn [xorb]. by destruct (Z.testbit v 16).
Qed.

(** A port in reset, with its bits: connected as before, not enabled, in reset if connected (or if it was), and no change pending. *)
Record port_reset (s s' : Z) : Prop := {
  pr_connected : Z.testbit s' 0 = Z.testbit s 0;
  pr_disabled : Z.testbit s' 1 = false;
  pr_reset : Z.testbit s' 4 = Z.testbit s 0 || Z.testbit s 4;
  pr_changes i : 17 <= i <= 23 -> Z.testbit s' i = false;
  pr_power : Z.testbit s' 9 = Z.testbit s 9;
}.

Lemma low_two s : Z.testbit s 1 = false -> (Z.land s 0x3 =? 0x1) = Z.testbit s 0.
Proof.
  intros H1. destruct (Z.testbit s 0) eqn:H0.
  - apply Z.eqb_eq, Z.bits_inj'. intros n Hn. rewrite Z.land_spec. destruct (decide (n = 0)) as [->|]; [by rewrite H0|].
    destruct (decide (n = 1)) as [->|]; [by rewrite H1|]. rewrite (Z.bits_above_log2 3 n), (Z.bits_above_log2 1 n), andb_false_r by (cbn; lia). done.
  - apply Z.eqb_neq. intros E. apply (f_equal (fun z => Z.testbit z 0)) in E. by rewrite Z.land_spec, H0 in E.
Qed.

Lemma testbit_unlink s i : 0 <= i < 32 -> i <> 16 -> Z.testbit (clear32 0x10000 s) i = Z.testbit s i.
Proof.
  intros Hi Hne. unfold clear32. rewrite Z.land_spec, Z.lxor_spec. change (2 ^ 32 - 1) with (Z.ones 32). rewrite Z.ones_spec_low by lia.
  change 0x10000 with (2 ^ 16). rewrite Z.pow2_bits_false by lia. by rewrite andb_true_r.
Qed.

(** The first store disables the port and acknowledges its changes, so that the test sees a connected port as one to reset. *)
Lemma port_started_reset s : port_reset s (port_started s).
Proof.
  unfold port_started. set (s1 := write_portsc s _).
  assert (forall i, 0 <= i < 32 -> i <> 16 -> Z.testbit s1 i = Z.testbit s i && (Z.testbit portsc_read_only i || Z.testbit portsc_write_one_to_set i || Z.testbit portsc_link_state i || Z.testbit portsc_plain i)) as H1.
  { intros i Hi Hne. unfold s1. rewrite testbit_portsc, testbit_unlink by done. unfold clear32. rewrite Z.land_spec. change (Z.testbit (Z.lxor (2 ^ 32 - 1) 0x10000) 16) with false. rewrite andb_false_r.
    destruct (Z.testbit s i); cbn; rewrite ?andb_false_r; cbn; rewrite ?andb_true_r, ?orb_assoc; done. }
  assert (Z.testbit s1 1 = false) as E1 by (rewrite H1 by lia; apply andb_false_r). rewrite (low_two _ E1).
  assert (forall i, 17 <= i <= 23 -> Z.testbit s1 i = false) as Ech.
  { intros i Hi. rewrite H1 by lia. assert (i = 17 \/ i = 18 \/ i = 19 \/ i = 20 \/ i = 21 \/ i = 22 \/ i = 23) as Hc by lia. by destruct Hc as [->|[->|[->|[->|[->|[->| ->]]]]]]; apply andb_false_r. }
  assert (Z.testbit s1 0 = Z.testbit s 0) as E0 by (rewrite H1 by lia; apply andb_true_r). assert (Z.testbit s1 4 = Z.testbit s 4) as E4 by (rewrite H1 by lia; apply andb_true_r).
  assert (Z.testbit s1 9 = Z.testbit s 9) as E9 by (rewrite H1 by lia; apply andb_true_r). rewrite E0. destruct (Z.testbit s 0) eqn:Hc; [|by split; rewrite ?Hc].
  assert (forall i, Z.testbit (Z.lor s1 0x10) i = Z.testbit s1 i || (4 =? i)) as Hor by (intros i; change 0x10 with (2 ^ 4); by rewrite Z.lor_spec, Z.pow2_bits_eqb by lia).
  split; rewrite ?Hc.
  - rewrite testbit_portsc, Hor, E0 by lia. done.
  - rewrite testbit_portsc, Hor, E1 by lia. by destruct (Z.testbit (Z.lor s1 0x10) 16).
  - rewrite testbit_portsc, Hor by lia. cbn. by rewrite !orb_true_r.
  - intros i Hi. rewrite testbit_portsc, Hor, (Ech i Hi), (proj2 (Z.eqb_neq 4 i)) by lia. destruct (Z.testbit (Z.lor s1 0x10) 16); done.
  - rewrite testbit_portsc, Hor, E9 by lia. by destruct (Z.testbit (Z.lor s1 0x10) 16), (Z.testbit s 9).
Qed.

Lemma ports_loop_spec n : forall i l, (i + n <= length l)%nat ->
  exists l', ports_loop n i l = Ret l' /\ length l' = length l /\ forall j s, l !! j = Some s -> l' !! j = Some (if decide (i <= j < i + n)%nat then port_started s else s).
Proof.
  induction n as [|n IH]; intros i l Hl; cbn [ports_loop].
  { exists l. split_and!; [done|done|]. intros j s Hj. by rewrite decide_False by lia. }
  destruct (lookup_lt_is_Some_2 l i) as [s Hs]; [lia|]. rewrite Hs. cbn [deref mbind res_bind]. fold (port_started s).
  destruct (IH (S i) (<[i := port_started s]> l)) as (l' & HP & Hlen & Hj); [rewrite length_insert; lia|]. rewrite length_insert in Hlen. exists l'. split_and!; [exact HP|done|].
  intros j s' Hs'. destruct (decide (j = i)) as [->|Hne].
  - simplify_eq. rewrite (Hj i (port_started s)) by (apply list_lookup_insert_eq; lia). by rewrite decide_False, decide_True by lia.
  - rewrite (Hj j s') by (by rewrite list_lookup_insert_ne). destruct (decide (S i <= j < S i + n)%nat); [by rewrite decide_True by lia|by rewrite decide_False by lia].
Qed.

Lemma low_byte_set c m : Z.land (Z.lor (clear32 0xFF c) (Z.land m 0xFF)) 0xFF = Z.land m 0xFF.
Proof.
  unfold clear32. rewrite Z.land_lor_distr_l, <- !Z.land_assoc. change (Z.land (Z.lxor (2 ^ 32 - 1) 0xFF) 0xFF) with 0. by rewrite Z.land_0_r, Z.lor_0_l.
Qed.

(** ** The interrupt thread during start-up *)

(** In the ring [l] there are [n] port changes from [dq] on, and then an entry of the other cycle. *)
Definition changes_at (l : list XhciTrb) (dq n : nat) : Prop :=
  (forall i, (i < n)%nat -> exists trb, l !! (dq + i)%nat = Some trb /\ GetType trb = TRB_PortStatusChange /\ Z.land (type_and_cycle trb) 0x1 = 1) /\
  (exists trb, l !! (dq + n)%nat = Some trb /\ Z.land (type_and_cycle trb) 0x1 <> 1) /\ length l = number_trbs.

(** Turn after turn, the controller reports port changes, [ns] of them. *)
Inductive reports : nat -> list (list XhciTrb) -> list nat -> Prop :=
| reports_none dq : reports dq [] []
| reports_turn dq l n turns ns : changes_at l dq n -> reports (dq + n) turns ns -> reports dq (l :: turns) (n :: ns).

(** What the thread does: a doorbell for each command, and the dequeue pointer at the end of a turn. *)
Fixpoint turn_effects (phys : Z) (dq : nat) (ns : list nat) : list effect :=
  match ns with
  | [] => []
  | n :: ns' => replicate n (Doorbell 0 0) ++ EventRingDequeue (Z.lor (phys [+] Z.of_nat (dq + n)) 0x8) :: turn_effects phys (dq + n) ns'
  end.

Section turns.
Context (contiguous : nat -> Z) (fresh_context : XhciInputContext) (recv_mem : list Z).
Implicit Types d : XhciDriver.

(** The driver after [n] port changes and the effects [es]. *)
Record commands_entered d d' (cs : list XhciTrb) (dq n : nat) (es : list effect) : Prop := {
  ce_ring : ring_is (command_ring_ d') (cs ++ replicate n CreateEnableSlotTrb);
  ce_phys : phys_address_ (w_ring (command_ring_ d')) = phys_address_ (w_ring (command_ring_ d));
  ce_events : dequeue_ptr_ (event_ring_ d') = Z.of_nat (dq + n) /\ cycle_bit_ (event_ring_ d') = 1 /\ phys_address_ (r_ring (event_ring_ d')) = phys_address_ (r_ring (event_ring_ d));
  ce_rest : device_context_base_array_ d' = device_context_base_array_ d /\ devices_ d' = devices_ d /\ regions d' = regions d;
  ce_effects : effects d' = effects d ++ es;
}.

Lemma event_loop_changes n : forall fuel d cs dq,
  ring_is (command_ring_ d) cs -> (length cs + n <= 254)%nat -> dequeue_ptr_ (event_ring_ d) = Z.of_nat dq -> cycle_bit_ (event_ring_ d) = 1 ->
  changes_at (trb_list_ (r_ring (event_ring_ d))) dq n -> (n <= fuel)%nat ->
  exists d', event_loop contiguous fresh_context fuel recv_mem d = Ret d' /\ commands_entered d d' cs dq n (replicate n (Doorbell 0 0)).
Proof.
  induction n as [|n IH]; intros fuel d cs dq Hr Hroom Hdq Hcyc (Hev & (e & He & Hend) & Hlen) Hf.
  { destruct fuel; cbn [event_loop]; unfold HasNext; rewrite Hdq, Nat2Z.id; rewrite Nat.add_0_r in He; rewrite He; cbn [deref]; rewrite !ret_bind, Hcyc, (proj2 (Z.eqb_neq _ _) Hend); cbn [negb];
      exists d; (split; [done|]); split; rewrite ?app_nil_r, ?Nat.add_0_r; done. }
  destruct (Hev 0%nat ltac:(lia)) as (trb & Ht & Hty & Hc). rewrite Nat.add_0_r in Ht. destruct fuel as [|fuel]; [lia|]. cbn [event_loop]. unfold HasNext, Read.
  rewrite Hdq, Nat2Z.id, Ht. cbn [deref]. rewrite !ret_bind, Hcyc, Hc, Z.eqb_refl. cbn [negb]. unfold handle_event. rewrite Hty. cbn [Z.eqb Pos.eqb TRB_PortStatusChange TRB_Transfer TRB_CommandCompletion].
  assert (dq < 256)%nat as Hdq' by (apply lookup_lt_Some in Ht; unfold number_trbs in Hlen; lia).
  set (d1 := with_event_ring _ d). destruct (IssueCommand_enters d1 cs CreateEnableSlotTrb Hr ltac:(lia)) as (w & -> & Hw & Hph). rewrite ret_bind.
  destruct (IH fuel (emit (Doorbell 0 0) (with_command_ring w d1)) (cs ++ [CreateEnableSlotTrb]) (S dq)) as (d' & HE & [C1 C2 C3 C4 C5]).
  - exact Hw.
  - rewrite length_app. cbn. lia.
  - cbn. rewrite u64_small by lia. lia.
  - done.
  - split; [|split; [|exact Hlen]]; [|exists e; by replace (S dq + n)%nat with (dq + S n)%nat by lia]. intros i Hi. destruct (Hev (S i) ltac:(lia)) as (t & Q). exists t. by replace (S dq + i)%nat with (dq + S i)%nat by lia.
  - lia.
  - exists d'. split; [exact HE|]. split.
    + by rewrite <- app_assoc in C1.
    + rewrite C2. exact Hph.
    + by replace (dq + S n)%nat with (S dq + n)%nat by lia.
    + exact C4.
    + rewrite C5. cbn. by rewrite <- app_assoc.
Qed.

Lemma interrupt_turns_spec turns : forall ns d cs dq,
  reports dq turns ns -> ring_is (command_ring_ d) cs -> (length cs + sum_list ns <= 254)%nat -> dequeue_ptr_ (event_ring_ d) = Z.of_nat dq -> cycle_bit_ (event_ring_ d) = 1 ->
  exists d', interrupt_turns contiguous fresh_context recv_mem turns d = Ret d' /\
    commands_entered d d' cs dq (sum_list ns) (turn_effects (phys_address_ (r_ring (event_ring_ d))) dq ns).
Proof.
  induction turns as [|l turns IH]; intros ns d cs dq HR Hr Hroom Hdq Hcyc; inversion HR as [|? ? n ? ns' Hat HR']; subst; cbn [interrupt_turns turn_effects].
  { exists d. split; [done|]. split; rewrite ?app_nil_r, ?Nat.add_0_r; done. }
  change (sum_list (n :: ns')) with (n + sum_list ns')%nat in *. unfold InterruptTurn.
  assert (n <= number_trbs)%nat as Hn by (destruct Hat as (_ & (t & Ht & _) & Hlen); apply lookup_lt_Some in Ht; lia).
  set (d0 := with_event_ring _ d). destruct (event_loop_changes n number_trbs d0 cs dq Hr ltac:(lia) Hdq Hcyc Hat Hn) as (d1 & -> & [C1 C2 C3 C4 C5]).
  rewrite !ret_bind. set (d2 := emit _ d1). destruct C3 as (E1 & E2 & E3). destruct (IH ns' d2 (cs ++ replicate n CreateEnableSlotTrb) (dq + n)%nat HR' C1) as (d' & HI & [D1 D2 D3 D4 D5]).
  - rewrite length_app, length_replicate. lia.
  - exact E1.
  - exact E2.
  - exists d'. split; [exact HI|]. split.
    + rewrite <- app_assoc, <- replicate_add in D1. exact D1.
    + rewrite D2. exact C2.
    + destruct D3 as (F1 & F2 & F3). rewrite F1, F2, F3. split_and!; [lia|done|exact E3].
    + destruct D4 as (-> & -> & ->). exact C4.
    + rewrite D5. cbn [effects emit d2 event_ring_]. rewrite C5, E3. unfold DequeuePtr. rewrite E1, E3. cbn [effects with_event_ring d0 r_ring event_ring_ phys_address_]. by rewrite <- !app_assoc.
Qed.
End turns.

Section start.
Context (contiguous : nat -> Z) (map_physical : Z -> Z) (tick : XhciRegs -> XhciRegs) (sleep : Z -> ErrorCode) (new_semaphore : nat -> positive).

(** The controller halts, resets and becomes ready, each within the number of polls. *)
Record controller_resets (fuel : nat) (r r1 r2 r3 : XhciRegs) : Prop := {
  cr_halts : exists n, (n < fuel)%nat /\ polls tick not_halted n (with_usb_command (clear32 0x1 (usb_command r)) r) r1;
  cr_resets : exists n, (n < fuel)%nat /\ polls tick in_reset n (with_usb_command (Z.lor (usb_command r1) 0x2) r1) r2;
  cr_ready : exists n, (n < fuel)%nat /\ polls tick not_ready n r2 r3;
}.

(** The registers and tables of a controller that was set up from the registers [r]. *)
Record set_up (slots : Z) (r : XhciRegs) (x : xhci) : Prop := {
  su_running : Z.testbit (usb_command (x_regs x)) 0 = true /\ Z.testbit (usb_command (x_regs x)) 2 = true;
  su_commands : command_ring_control (x_regs x) = phys_address_ (w_ring (command_ring_ (x_driver x)));
  su_contexts : device_context_base (x_regs x) = contiguous 2 /\ Z.land (configure (x_regs x)) 0xFF = slots;
  su_events : x_segment x = (phys_address_ (r_ring (event_ring_ (x_driver x))), 256) /\ event_ring_segment_table_base_address (x_regs x) = contiguous 3 /\
    event_ring_segment_table_size (x_regs x) = 1 /\ event_ring_dequeue_pointer (x_regs x) = Z.lor (DequeuePtr (event_ring_ (x_driver x))) 0x8;
  su_interrupts : Z.testbit (management (x_regs x)) 1 = true;
  su_ports : status_and_control (x_regs x) = status_and_control r;
}.

Lemma ResetController_spec fuel params1 old r r1 r2 r3 :
  sleep 50 = OK -> controller_resets fuel r r1 r2 r3 -> is_u64 (contiguous 1) ->
  let slots := Z.land params1 0xFF in let d := XhciDriver_new contiguous new_semaphore slots in
  exists x, ResetController contiguous tick sleep fuel params1 old (mkXhci r d (0, 0)) = Ret (OK, x) /\ set_up slots r3 x /\
    x_driver x = next_region (next_region (with_base_array old d)).
Proof.
  intros Hs [(n1 & Hf1 & H1) (n2 & Hf2 & H2) (n3 & Hf3 & H3)] Hu slots d. unfold ResetController. cbn [x_regs x_driver x_segment].
  rewrite (wait_loop_spec _ _ _ _ _ _ _ Hs H1 Hf1). cbn [mbind res_bind]. rewrite (wait_loop_spec _ _ _ _ _ _ _ Hs H2 Hf2). cbn [mbind res_bind].
  rewrite (wait_loop_spec _ _ _ _ _ _ _ Hs H3 Hf3). cbn [mbind res_bind]. eexists. split; [done|]. split; [|done].
  assert (0 <= slots < 256) as Hsl by (unfold slots; change 0xFF with (2 ^ 8 - 1); rewrite land_low by lia; apply Z.mod_pos_bound; lia).
  split; cbn -[Z.lor Z.land Z.testbit Z.ltb clear32 Z.div Z.sub]; try done.
  - rewrite !Z.lor_spec. change (Z.testbit 1 0) with true. change (Z.testbit 4 2) with true. split; [apply orb_true_r|by rewrite orb_true_r].
  - split; [done|]. rewrite low_byte_set. fold slots. destruct (Z.ltb_spec slots (0x1000 / 8 - 1)) as [_|Hb]; [|change (0x1000 / 8 - 1) with 511 in Hb; lia].
    unfold slots. by rewrite <- Z.land_assoc.
  - split_and!; try done. unfold DequeuePtr. cbn. by rewrite Z.add_0_r, u64_small.
  - rewrite Z.lor_spec. apply orb_true_r.
Qed.
End start.

(** C27.  Start-up leaves a running controller.  When the controller halts, resets and becomes ready, and the interrupt thread,
    which runs from then on, finds port changes in the event ring (at most 253 in all; commands are entered one at a time), the start-up
    returns; the controller runs with interrupts enabled, its registers name the driver's command ring, the context array and
    the table with the driver's event ring, and as many slots are enabled as the driver has.  The command ring holds the
    no-op between the EnableSlot commands for the port changes handled before and after it, and the doorbell was rung for
    each.  The stores to the port registers clear the bits that are cleared by writing ones: every port is disabled
    and has no change pending, and every connected port is in reset. *)
Theorem xhci_init_ready contiguous map_physical tick sleep new_semaphore fresh_context recv_mem fuel mem pci bar caps old r r1 r2 r3 before after ns1 ns2 :
  sleep 50 = OK -> controller_resets tick fuel r r1 r2 r3 -> 0 <= contiguous 0%nat -> contiguous 0%nat + 0x1000 <= 2 ^ 64 -> is_u64 (contiguous 1%nat) ->
  pci_bar0 mem pci = Ret bar -> read_capabilities mem (map_physical (clear32 0xFFF bar)) = Ret caps ->
  reports 0 before ns1 -> reports (sum_list ns1) after ns2 -> (sum_list ns1 + sum_list ns2 <= 253)%nat ->
  let slots := Z.land (hcs_params_1 caps) 0xFF in let ports := Z.to_nat (Z.shiftr (Z.land (hcs_params_1 caps) 0xFF000000) 24) in
  (ports <= length (status_and_control r3))%nat ->
  exists places x x0, InitiateDriver contiguous map_physical tick sleep new_semaphore fresh_context recv_mem fuel mem pci old r before after = Ret (places, x) /\
    set_up contiguous slots r3 x0 /\ x_regs x = with_port_status (status_and_control (x_regs x)) (x_regs x0) /\ x_segment x = x_segment x0 /\
    ring_is (command_ring_ (x_driver x)) (replicate (sum_list ns1) CreateEnableSlotTrb ++ CreateNoOpCommandTrb :: replicate (sum_list ns2) CreateEnableSlotTrb) /\
    phys_address_ (w_ring (command_ring_ (x_driver x))) = command_ring_control (x_regs x) /\
    device_context_base_array_ (x_driver x) = old /\ Z.of_nat (length (devices_ (x_driver x))) = slots /\
    effects (x_driver x) = turn_effects (contiguous 1%nat) 0 ns1 ++ Doorbell 0 0 :: turn_effects (contiguous 1%nat) (sum_list ns1) ns2 /\
    forall i s, status_and_control r3 !! i = Some s ->
      exists s', status_and_control (x_regs x) !! i = Some s' /\ if decide (i < ports)%nat then port_reset s s' else s' = s.
Proof.
  intros Hs Hr Hc0 Hc0' Hc1 Hbar Hcaps Hrep1 Hrep2 Hroom slots ports Hports. unfold InitiateDriver, ParseMmioStructures. rewrite Hbar, ret_bind, Hcaps, !ret_bind. cbn [max_device_slots].
  destruct (ResetController_spec contiguous tick sleep new_semaphore fuel (hcs_params_1 caps) old r r1 r2 r3 Hs Hr Hc1) as (x0 & HR & Hset & Hd). rewrite HR, ret_bind. fold slots in Hset, Hd.
  assert (ring_is (command_ring_ (x_driver x0)) []) as Hring by (rewrite Hd; by apply new_ring_is).
  destruct (interrupt_turns_spec contiguous fresh_context recv_mem before ns1 (x_driver x0) [] 0 Hrep1 Hring) as (d1 & -> & [C1 C2 (E1 & E2 & E3) C4 C5]); [cbn; lia|by rewrite Hd|by rewrite Hd|].
  rewrite ret_bind. cbn [app] in C1. unfold NoOpCommand. destruct (IssueCommand_enters d1 _ CreateNoOpCommandTrb C1) as (w & -> & Hw & Hph); [rewrite length_replicate; lia|]. rewrite ret_bind.
  set (d2 := emit _ _). destruct (interrupt_turns_spec contiguous fresh_context recv_mem after ns2 d2 _ (sum_list ns1) Hrep2 Hw) as (d3 & -> & [D1 D2 _ D4 D5]);
    [rewrite length_app, length_replicate; cbn; lia|exact E1|exact E2|]. rewrite ret_bind.
  unfold InitiateDevices. cbn [x_regs x_driver x_segment]. fold ports. destruct (ports_loop_spec ports 0 (status_and_control (x_regs x0))) as (l & HP & _ & Hl); [rewrite (su_ports _ _ _ _ Hset); lia|].
  rewrite HP, !ret_bind. eexists _, _, x0. split; [done|]. split; [done|]. cbn [x_regs x_driver x_segment]. split; [done|]. split; [done|]. split; [by rewrite <- app_assoc in D1|].
  assert (phys_address_ (r_ring (event_ring_ (x_driver x0))) = contiguous 1%nat) as Hev by (by rewrite Hd).
  split. { rewrite D2. change (command_ring_ d2) with w. rewrite Hph, C2. by rewrite <- (su_commands _ _ _ _ Hset). }
  destruct C4 as (B1 & B2 & _), D4 as (B3 & B4 & _). change (device_context_base_array_ d2) with (device_context_base_array_ d1) in B3. change (devices_ d2) with (devices_ d1) in B4.
  split; [by rewrite B3, B1, Hd|]. split.
  { rewrite B4, B2, Hd. cbn. rewrite length_fmap, length_seq. assert (0 <= slots) by (unfold slots; apply Z.land_nonneg; lia). lia. }
  split. { rewrite D5. change (event_ring_ d2) with (event_ring_ d1). rewrite E3, Hev. cbn [effects d2 emit with_command_ring]. assert (effects (x_driver x0) = []) as He0 by (by rewrite Hd). rewrite C5, He0, Hev, <- app_assoc. done. }
  intros i s Hi. rewrite (su_ports _ _ _ _ Hset) in Hl. cbn [status_and_control with_port_status]. rewrite (Hl i s Hi). eexists. split; [done|]. cbn [Nat.add].
  destruct (decide (i < ports)%nat); [rewrite decide_True by lia; apply port_started_reset|by rewrite decide_False by lia].
Qed.

(** ** Configuring a device (the thread [configure_device])

    The thread asks for two descriptors and waits for each; [request_descriptor] is a request, and
    [configure_finish] what follows the second wait, with the page the device wrote. *)
Definition GET_DESCRIPTOR : Z * Z := (0x80, 0x6).
Definition DeviceDescriptor_Value : Z := 0x100.
Definition ConfigurationDescriptor_Value : Z := 0x200.

Definition request_descriptor (contiguous : nat -> Z) (slot value : Z) (sem : positive) (d : XhciDriver) : res XhciDriver :=
  let output_phys := contiguous (regions d) in
  s ← slot_at (slot - 1) d;
  '(es, s) ← ExecuteReadControlCommand GET_DESCRIPTOR.1 GET_DESCRIPTOR.2 value output_phys sem s;
  Ret (foldl (fun d e => emit e d) (next_region (with_slot (Z.to_nat (slot - 1)) s d)) es).

Definition configure_finish (contiguous : nat -> Z) (slot : Z) (config : list Z) (client : Z) (d : XhciDriver) : res (positive * XhciDriver) :=
  length ← deref (config !! 0%nat);
  num_interfaces ← deref (config !! 4%nat);
  configuration_value ← deref (config !! 5%nat);
  _ ← interface_loop (Z.to_nat num_interfaces) length config;
  IssueConfigureDeviceCommand contiguous slot configuration_value client d.

(** *** The walk over well-formed descriptors *)

(** A descriptor starts with its length and its type. *)
Definition desc_ok (x : list Z) : Prop := (2 <= length x)%nat /\ x !! 0%nat = Some (Z.of_nat (length x)).
Definition desc_type (x : list Z) : Z := default 0 (x !! 1%nat).
Definition endpoints_of (xs : list (list Z)) : list (list Z) := filter (fun x => desc_type x = 5) xs.

Lemma lookup_behind (pre x post : list Z) i b : x !! i = Some b -> (pre ++ x ++ post) !! (length pre + i)%nat = Some b.
Proof. intros Hx. rewrite lookup_app_r by lia. replace (length pre + i - length pre)%nat with i by lia. by apply lookup_app_l_Some. Qed.

Lemma endpoint_loop_spec xs : forall mem pre post fuel,
  mem = pre ++ mjoin xs ++ post -> Forall desc_ok xs -> (forall x, last xs = Some x -> desc_type x = 5) -> (length xs < fuel)%nat ->
  endpoint_loop fuel (Z.of_nat (length (endpoints_of xs))) (Z.of_nat (length pre)) mem = Ret (Z.of_nat (length (pre ++ mjoin xs))).
Proof.
  induction xs as [|x xs IH]; intros mem pre post fuel -> Hok Hlast Hf; [destruct fuel; [lia|]; cbn; by rewrite app_nil_r|].
  apply Forall_cons in Hok as [[Hlen H0] Hok]. destruct fuel as [|fuel]; [cbn in Hf; lia|]. cbn [length] in Hf.
  assert (0 < Z.of_nat (length (endpoints_of (x :: xs)))) as Hpos.
  { assert (exists e, e ∈ endpoints_of (x :: xs)) as [e He]; [|destruct (endpoints_of (x :: xs)); [by apply not_elem_of_nil in He|cbn; lia]].
    destruct (last (x :: xs)) as [e|] eqn:El; [|by apply last_None in El]. exists e. apply list_elem_of_filter. split; [by apply Hlast|]. by apply last_Some_elem_of. }
  cbn [endpoint_loop]. destruct (Z.leb_spec (Z.of_nat (length (endpoints_of (x :: xs)))) 0); [lia|].
  destruct (lookup_lt_is_Some_2 x 1) as [ty Hty]; [lia|]. cbn [mjoin list_join].
  replace (pre ++ (x ++ mjoin xs) ++ post) with (pre ++ x ++ mjoin xs ++ post) by (by rewrite <- !app_assoc).
  replace (Z.to_nat (Z.of_nat (length pre) + 1)) with (length pre + 1)%nat by lia. rewrite Nat2Z.id.
  rewrite (lookup_behind pre x _ 1 ty Hty). cbn [deref mbind res_bind]. pose proof (lookup_behind pre x (mjoin xs ++ post) 0 _ H0) as Hb. rewrite Nat.add_0_r in Hb. rewrite Hb. cbn [deref mbind res_bind].
  replace (Z.of_nat (length pre) + Z.of_nat (length x)) with (Z.of_nat (length (pre ++ x))) by (rewrite length_app; lia).
  assert ((if ty =? 5 then Z.of_nat (length (endpoints_of (x :: xs))) - 1 else Z.of_nat (length (endpoints_of (x :: xs)))) = Z.of_nat (length (endpoints_of xs))) as ->.
  { unfold endpoints_of, desc_type. rewrite filter_cons, Hty. cbn [default from_option id]. destruct (Z.eqb_spec ty 5); [rewrite decide_True by done; cbn [length]; lia|by rewrite decide_False]. }
  rewrite (app_assoc pre x). rewrite (IH _ (pre ++ x) post fuel); [by rewrite <- app_assoc|by rewrite <- app_assoc|done| |lia].
  intros y Hy. apply Hlast. destruct xs; [done|exact Hy].
Qed.

(** An interface: its descriptor, which counts its endpoints, and the descriptors that follow it, the last of them an endpoint. *)
Definition interface : Type := list Z * list (list Z).
Definition interface_bytes (f : interface) : list Z := f.1 ++ mjoin f.2.
Definition interface_ok (f : interface) : Prop :=
  (5 <= length f.1)%nat /\ f.1 !! 0%nat = Some (Z.of_nat (length f.1)) /\ f.1 !! 4%nat = Some (Z.of_nat (length (endpoints_of f.2))) /\
  Forall desc_ok f.2 /\ (forall x, last f.2 = Some x -> desc_type x = 5).

Lemma length_mjoin_ge (xs : list (list Z)) : Forall desc_ok xs -> (length xs <= length (mjoin xs))%nat.
Proof. induction 1 as [|x xs [Hx _] _ IH]; [done|]. change (mjoin (x :: xs)) with (x ++ mjoin xs). rewrite length_app. cbn [length]. lia. Qed.

(** The walk over the interfaces of a configuration ends behind the last of them. *)
Lemma interface_loop_spec fs : forall mem pre post,
  mem = pre ++ (fs ≫= interface_bytes) ++ post -> Forall interface_ok fs ->
  interface_loop (length fs) (Z.of_nat (length pre)) mem = Ret (Z.of_nat (length (pre ++ (fs ≫= interface_bytes)))).
Proof.
  induction fs as [|f fs IH]; intros mem pre post -> Hok; [cbn; by rewrite app_nil_r|]. apply Forall_cons in Hok as [(Hlen & H0 & H4 & Hds & Hlast) Hok].
  cbn [interface_loop length]. rewrite bind_cons. change (interface_bytes f) with (f.1 ++ mjoin f.2). rewrite <- !app_assoc.
  replace (Z.to_nat (Z.of_nat (length pre) + 4)) with (length pre + 4)%nat by lia. rewrite Nat2Z.id.
  rewrite (lookup_behind pre f.1 _ 4 _ H4). cbn [deref mbind res_bind]. pose proof (lookup_behind pre f.1 (mjoin f.2 ++ (fs ≫= interface_bytes) ++ post) 0 _ H0) as Hb. rewrite Nat.add_0_r in Hb. rewrite Hb. cbn [deref mbind res_bind].
  replace (Z.of_nat (length pre) + Z.of_nat (length f.1)) with (Z.of_nat (length (pre ++ f.1))) by (rewrite length_app; lia).
  rewrite (endpoint_loop_spec f.2 _ (pre ++ f.1) ((fs ≫= interface_bytes) ++ post)); [|by rewrite <- app_assoc|done|done|rewrite !length_app; pose proof (length_mjoin_ge _ Hds); lia].
  cbn [mbind res_bind]. rewrite (IH _ ((pre ++ f.1) ++ mjoin f.2) post); [by rewrite <- !app_assoc|by rewrite <- !app_assoc|done].
Qed.

(** *** Witness: a controller that halts at once and resets at the first poll, with an enabled device at the second of two ports *)
Definition init_regs : XhciRegs := mkRegs 1 1 0 0 0 0 0 0 0 0 [0x2A0; 0x20203].
Definition init_tick (r : XhciRegs) : XhciRegs := with_usb_command (clear32 0x2 (usb_command r)) r.
Definition init_memory : memory := blocks [(0x1010, le_bytes 4 0xFEB00004); (0x5000, le_bytes 4 0x01000040 ++ le_bytes 4 0x02000108 ++ replicate 12 0 ++ le_bytes 4 0x2000 ++ le_bytes 4 0x1000)].

(** The event ring at the first turn: a port change. *)
Definition init_events : list XhciTrb := mkTrb 0x2000000 0 (TypeToInt TRB_PortStatusChange + 1) 0 :: replicate 255 zero_trb.

Lemma init_reports : reports 0 [init_events] [1%nat].
Proof.
  apply reports_turn; [|apply reports_none]. split; [|by split; [eexists; split; [by vm_compute|done]|vm_compute]].
  intros [|i] Hi; [|lia]. eexists. split; [done|]. by vm_compute.
Qed.

Lemma xhci_init_ready_witness :
  exists places x s', InitiateDriver demo_pages (fun _ => 0x5000) init_tick (fun _ => OK) (fun n => Pos.of_succ_nat n) blank_context [] 5 init_memory 0x1000 (replicate 512 0) init_regs [init_events] [] = Ret (places, x) /\
    ring_is (command_ring_ (x_driver x)) [CreateEnableSlotTrb; CreateNoOpCommandTrb] /\
    status_and_control (x_regs x) !! 1%nat = Some s' /\ Z.testbit s' 4 = true.
Proof.
  destruct (xhci_init_ready demo_pages (fun _ => 0x5000) init_tick (fun _ => OK) (fun n => Pos.of_succ_nat n) blank_context [] 5 init_memory 0x1000 0xFEB00004 (mkCapabilities 0x01000040 0x02000108 0x2000 0x1000)
    (replicate 512 0) init_regs (with_usb_command 0 init_regs) (with_usb_command 0 init_regs) (with_usb_command 0 init_regs) [init_events] [] [1%nat] []) as (places & x & _ & HI & _ & _ & _ & Hring & _ & _ & _ & _ & Hp).
  - reflexivity.
  - split; [exists 0%nat|exists 1%nat|exists 0%nat]; (split; [lia|]); [apply polls_done; by vm_compute|apply polls_again; [by vm_compute|]; apply polls_done; by vm_compute|apply polls_done; by vm_compute].
  - by vm_compute.
  - by vm_compute.
  - by vm_compute.
  - by vm_compute.
  - by vm_compute.
  - exact init_reports.
  - apply reports_none.
  - vm_compute. lia.
  - vm_compute. lia.
  - destruct (Hp 1%nat 0x20203 eq_refl) as (s' & Hs' & [_ _ Hpr _ _]). exists places, x, s'. split; [exact HI|]. split; [exact Hring|]. split; [exact Hs'|exact Hpr].
Defined.
