(* ===== verification/Mount.v ===== *)
(** * Mounting a disk and reading its files

    The file system driver over the disk service: [mounted] is what the driver
    knows of a partition after [Ext2Driver::Init] and after any number of
    reads, [node_at] what the bytes of the disk say an inode is.  The first part
    is proved against the interface of the disk service, the second part shows
    that the handlers of the service, run by the device and its interrupts,
    meet the interface. *)

From Stdlib Require Import ZArith Lia.
From stdpp Require Import base tactics numbers list strings gmap.
From S2P Require Import Prelude Status Buffer Yunq YunqMessages LinkedList Hash HashMap Vector Strings Ahci Denali Ext2 Vfs.

(** ** Reading what a region starts with *)
Lemma region_load_prefix off n blk l : blk `prefix_of` l -> off + Z.of_nat n <= Z.of_nat (length blk) -> load_bytes off n l = load_bytes off n blk.
Proof.
  intros [t ->] Hoff. unfold load_bytes, in_bounds. rewrite length_app. destruct (Z.leb_spec 0 off); [|done]. cbn [andb].
  rewrite !(proj2 (Z.leb_le _ _)) by lia. f_equal. rewrite drop_app_le, take_app_le by (rewrite ?length_drop; lia). done.
Qed.

Lemma u16_prefix off blk l : blk `prefix_of` l -> off + 2 <= Z.of_nat (length blk) -> u16_at off l = u16_at off blk.
Proof. intros Hp Hoff. unfold u16_at. by rewrite (region_load_prefix off 2 blk l). Qed.

(** A map with keys below [n] has at most [n] entries. *)
Lemma size_below {A} (m : gmap Z A) n : (forall k, is_Some (m !! k) -> 0 <= k < n) -> 0 <= n -> Z.of_nat (size m) <= n.
Proof.
  intros Hk Hn. rewrite <- size_dom. assert (dom m ⊆ (list_to_set (seqZ 0 n) : gset Z)) as Hsub.
  { intros k Hd%elem_of_dom%Hk. apply elem_of_list_to_set, elem_of_seqZ. lia. }
  apply subseteq_size in Hsub. rewrite size_list_to_set, length_seqZ in Hsub by apply NoDup_seqZ. lia.
Qed.

Lemma hm_size_model {V} (m : HashMap Z V) : hm_wf m -> hm_size m = Z.of_nat (size (hm_model m)).
Proof. intros Hwf. rewrite (wf_size _ Hwf). unfold hm_model. rewrite map_size_list_to_map; [done|apply Hwf]. Qed.

(** ** A partition *)

(** The numbers of a partition with 1 KiB blocks: its first sector, its groups, the inodes of a group, the bytes of an inode,
    and the first block of each group's inode table. *)
Record geometry : Type := mkGeometry { first_sector : Z; groups : Z; per_group : Z; inode_bytes : Z; table_of_group : Z -> Z }.

Definition table_blocks (g : geometry) : Z := inode_bytes g * per_group g / 1024.
Definition descriptor_blocks (g : geometry) : Z := (groups g * 32 - 1) / 1024 + 1.

Section partition.
Context (dsk : Z -> Z) (dev : Z) (g : geometry).

(** Bytes of [n] blocks from block [b] on. *)
Definition blocks_at (b n : Z) : list Z := sectors dsk (first_sector g + b * 2) (n * 2).
Definition superblock : list Z := sectors dsk (first_sector g + 2) 2.
Definition disk_reader : Ext2BlockReader := mkReader dev (first_sector g) superblock.

Record ext2_disk : Prop := {
  ed_first : 0 <= first_sector g /\ first_sector g + 2 ^ 34 <= 2 ^ 48;
  ed_magic : sb_magic superblock = Ret 0xEF53;
  ed_log : sb_log_block_size superblock = Ret 0;
  ed_groups : NumberOfBlockGroups disk_reader = Ret (groups g);
  ed_groups_pos : 0 < groups g /\ descriptor_blocks g * 2 < 2 ^ 16;
  ed_per_group : sb_inodes_per_group superblock = Ret (per_group g);
  ed_per_group_pos : 0 < per_group g;
  ed_inode : InodeSize disk_reader = Ret (inode_bytes g);
  ed_inode_min : 128 <= inode_bytes g;
  ed_table : inode_bytes g * per_group g = 1024 * table_blocks g /\ table_blocks g * 2 < 2 ^ 16;
  ed_tables i : 0 <= i < groups g -> bgd_inode_table i (blocks_at 2 (descriptor_blocks g)) = Ret (table_of_group g i) /\ block_number (table_of_group g i);
}.

(** Inode [num], as it is on the disk. *)
Definition disk_inode (num : Z) : Inode :=
  mkInode (blocks_at (table_of_group g ((num - 1) / per_group g)) (table_blocks g)) ((num - 1) mod per_group g * inode_bytes g).

(** An inode: its mode, its size, the bytes of its blocks and, for a directory, the entries in its first block. *)
Record node : Type := mkNode { n_mode : Z; n_size : Z; n_bytes : list Z; n_entries : list DirEntry }.
Definition is_dir (n : node) : bool := negb (Z.land (n_mode n) 0x4000 =? 0).
Definition is_file (n : node) : bool := negb (Z.land (n_mode n) 0x8000 =? 0).

(** Inode [num] of the disk is [n]. *)
Record node_at (num : Z) (n : node) : Prop := {
  na_num : 1 <= num <= groups g * per_group g /\ num < 2 ^ 32;
  na_mode : inode_mode (disk_inode num) = Ret (n_mode n);
  na_size : inode_file_size (disk_inode num) = Ret (n_size n);
  na_small : inode_block 14 (disk_inode num) = Ret 0;
  na_map : exists nb cnt bm, inode_blocks (disk_inode num) = Ret nb /\ 1 <= nb < 2 ^ 32 /\ cnt = (nb - 1) / 2 + 1 /\ cnt < 2 ^ 15 /\
    block_map dsk (disk_inode num) (first_sector g) cnt bm /\ n_bytes n = concat (block_data dsk (first_sector g) 2 <$> (bm <$> seqZ 0 cnt));
  na_entries : is_dir n = true -> records (n_bytes n) 1024 0 (n_entries n);
}.

(** The inodes of the partition that are considered. *)
Context (nodes : gmap Z node).

(** The driver of the partition, with whatever it has cached. *)
Record mounted (d : Ext2Driver) : Prop := {
  mo_reader : exists l, ext2_reader_ d = mkReader dev (first_sector g) l /\ superblock `prefix_of` l;
  mo_descriptors : blocks_at 2 (descriptor_blocks g) `prefix_of` bgdt_region_ (inode_table_ d);
  mo_groups : length (inode_tables_ (inode_table_ d)) = Z.to_nat (groups g);
  mo_tables i root : inode_tables_ (inode_table_ d) !! i = Some (Some root) -> blocks_at (table_of_group g (Z.of_nat i)) (table_blocks g) `prefix_of` root;
  mo_cache : hm_wf (inode_cache_ d);
  mo_keys num : is_Some (hm_model (inode_cache_ d) !! num) -> 0 <= num < 2 ^ 32;
  mo_files num r n : hm_model (inode_cache_ d) !! num = Some r -> nodes !! num = Some n -> exists l, r = Some l /\ n_bytes n `prefix_of` l;
}.

Lemma length_blocks_at b n : length (blocks_at b n) = Z.to_nat (1024 * n).
Proof. unfold blocks_at. rewrite length_sectors. f_equal. lia. Qed.

Lemma length_superblock : length superblock = 1024%nat.
Proof. apply length_sectors. Qed.

(** What the driver reads of a superblock is what is on the disk. *)
Lemma reader_prefix l r : superblock `prefix_of` l -> r = mkReader dev (first_sector g) l ->
  SectorsPerBlock r = SectorsPerBlock disk_reader /\ BlockSize r = BlockSize disk_reader /\ NumberOfBlockGroups r = NumberOfBlockGroups disk_reader /\
  InodeSize r = InodeSize disk_reader /\ sb_inodes_per_group (super_block_region_ r) = sb_inodes_per_group superblock /\ sb_magic (super_block_region_ r) = sb_magic superblock.
Proof.
  intros Hp ->. pose proof length_superblock as Hlen.
  unfold SectorsPerBlock, BlockSize, NumberOfBlockGroups, InodeSize, sb_log_block_size, sb_blocks_count, sb_blocks_per_group, sb_rev_level, sb_inode_size, sb_inodes_per_group, sb_magic.
  cbn [super_block_region_ disk_reader]. rewrite !(fun o H => u32_prefix o _ _ Hp H), !(fun o H => u16_prefix o _ _ Hp H) by lia. done.
Qed.

(** An inode in a table that was read is the inode on the disk. *)
Lemma inode_prefix data root o : data `prefix_of` root -> o + 100 <= Z.of_nat (length data) ->
  inode_mode (mkInode root o) = inode_mode (mkInode data o) /\ inode_file_size (mkInode root o) = inode_file_size (mkInode data o) /\
  inode_blocks (mkInode root o) = inode_blocks (mkInode data o) /\ forall n, n < 15 -> inode_block n (mkInode root o) = inode_block n (mkInode data o).
Proof.
  intros Hp Ho. unfold inode_mode, inode_file_size, inode_blocks, inode_block. cbn [in_region in_offset].
  split_and!; [apply u16_prefix|apply u32_prefix..|intros n Hn; apply u32_prefix]; try done; lia.
Qed.

Lemma block_map_same inode inode' off cnt bm :
  (forall n, n < 15 -> inode_block n inode' = inode_block n inode) -> block_map dsk inode off cnt bm -> block_map dsk inode' off cnt bm.
Proof.
  intros Heq [Hd Hb Hi Hdb]. split; [|done|by rewrite Heq by lia|by rewrite Heq by lia]. intros n Hn Hc. rewrite Heq by lia. by apply Hd.
Qed.
End partition.

(** ** Mounting and reading, against the interface of the disk service *)
Section driver.
Context {K : Type} `{DiskClient K} (dsk : Z -> Z) (dev : Z) (g : geometry) (nodes : gmap Z node) (fails : Prop) `{!DiskClientLaws K dev dsk fails}.
Hypothesis Hdisk : ext2_disk dsk dev g.
Hypothesis Hnodes : map_Forall (node_at dsk g) nodes.
Notation mounted := (mounted dsk dev g nodes).
Notation blocks_at := (blocks_at dsk g).

Lemma prefix_reader_ok l : superblock dsk g `prefix_of` l -> reader_ok dev (mkReader dev (first_sector g) l) (first_sector g) 2.
Proof.
  intros Hp. destruct (reader_prefix dsk dev g l _ Hp eq_refl) as (Hs & Hb & _). pose proof (ed_first _ _ _ Hdisk). split; try done; try lia.
  - rewrite Hs. unfold SectorsPerBlock. cbn [super_block_region_ disk_reader]. by rewrite (ed_log _ _ _ Hdisk).
  - rewrite Hb. unfold BlockSize. cbn [super_block_region_ disk_reader]. by rewrite (ed_log _ _ _ Hdisk).
Qed.

Lemma mounted_reader d : mounted d -> reader_ok dev (ext2_reader_ d) (first_sector g) 2.
Proof. intros Hm. destruct (mo_reader _ _ _ _ _ Hm) as (l & -> & Hp). by apply prefix_reader_ok. Qed.

Lemma ReadBlocks_reads r b n k :
  reader_ok dev r (first_sector g) 2 -> disk_up k -> block_number b -> 0 < n * 2 < 2 ^ 16 ->
  exists res k', ReadBlocks r b n k = Ret (res, k') /\ disk_up k' /\ answers fails res (blocks_at b n).
Proof.
  intros [Hd Ho Hs Hbs Hp Hlim] Hup Hb Hn. unfold block_number in Hb. unfold ReadBlocks. rewrite (lift_ok _ _ _ _ Hs), Hd, Ho.
  rewrite (u64_small (b * 2)), (u64_small (first_sector g + b * 2)), (u64_small (n * 2)) by lia. apply Read_law; [done|]. unfold run_ok. cbn. lia.
Qed.

Lemma descriptors_size : 0 < descriptor_blocks g /\ (groups g [*] 32 [-] 1) / 1024 [+] 1 = descriptor_blocks g.
Proof.
  destruct (ed_groups_pos _ _ _ Hdisk) as [Hg Hd]. unfold descriptor_blocks in *.
  assert (groups g * 32 < 2 ^ 30) as Hlt by (Z.to_euclidean_division_equations; lia).
  assert (0 <= (groups g * 32 - 1) / 1024) as Hpos by (apply Z.div_pos; lia). split; [lia|].
  rewrite (u64_small (groups g * 32)), (u64_small (groups g * 32 - 1)) by lia. apply u64_small. lia.
Qed.

Lemma Init_mounts k : disk_up k ->
  exists res k', Ext2Driver_Init dev (first_sector g) k = Ret (res, k') /\ disk_up k' /\
    match res with EErr _ => fails | EOk d => mounted d /\ ProbePartition d = Ret OK end.
Proof.
  intros Hup. pose proof (ed_first _ _ _ Hdisk) as Hf. unfold Ext2Driver_Init, Ext2BlockReader_Init. rewrite (u64_small (first_sector g + 2)) by lia.
  destruct (Read_law (first_sector g + 2) 2 k Hup) as (res & k1 & HR & Hup1 & Ha); [split; cbn; lia|].
  destruct res as [e|l]; [do 2 eexists; split; [by apply io_err, io_err|done]|]. cbn [answers] in Ha.
  rewrite (io_ok _ _ k (mkReader dev (first_sector g) l) k1) by (by rewrite (io_ok _ _ _ _ _ HR)). set (r := mkReader _ _ l).
  pose proof (prefix_reader_ok l Ha) as Hr. fold r in Hr. destruct (reader_prefix dsk dev g l r Ha eq_refl) as (_ & _ & Hn & _ & _ & Hmag).
  rewrite (ed_groups _ _ _ Hdisk) in Hn. rewrite (ed_magic _ _ _ Hdisk) in Hmag. destruct descriptors_size as [Hdpos Hdeq].
  rewrite (lift_ok _ _ _ 2) by (unfold BgdtBlockNum; by rewrite (ro_size _ _ _ _ Hr)).
  rewrite (lift_ok _ _ _ (descriptor_blocks g)) by (unfold BgdtBlockSize; rewrite Hn, (ro_size _ _ _ _ Hr); cbn [mbind res_bind]; unfold udiv, bgd_size; change (512 * 2) with 1024; cbn [Z.eqb mbind res_bind]; by rewrite Hdeq).
  destruct (ReadBlocks_reads r 2 (descriptor_blocks g) k1 Hr Hup1) as (res & k2 & HR2 & Hup2 & Ha2); [unfold block_number; lia|pose proof (ed_groups_pos _ _ _ Hdisk); lia|].
  destruct res as [e|bgdt]; [do 2 eexists; split; [by apply io_err|done]|]. cbn [answers] in Ha2. rewrite (io_ok _ _ _ _ _ HR2).
  rewrite (lift_ok _ _ _ (mkInodeTable bgdt (replicate (Z.to_nat (groups g)) None))) by (unfold InodeTable_new; by rewrite Hn).
  do 2 eexists. split; [done|]. split; [done|]. split.
  - split; cbn [ext2_reader_ inode_table_ bgdt_region_ inode_tables_ inode_cache_].
    + by exists l.
    + done.
    + apply length_replicate.
    + intros i root Hi. by apply lookup_replicate in Hi as [? _].
    + apply hm_new_wf.
    + intros num [x Hx]. rewrite (hm_new_model (K := Z) (V := region)) in Hx. done.
    + intros num x bytes Hx. rewrite (hm_new_model (K := Z) (V := region)) in Hx. done.
  - unfold ProbePartition. cbn [ext2_reader_]. by rewrite Hmag.
Qed.

(** The group of an inode and its place in the group's table. *)
Lemma inode_place num : 1 <= num <= groups g * per_group g ->
  0 <= (num - 1) / per_group g < groups g /\ 0 <= (num - 1) mod per_group g * inode_bytes g /\
  (num - 1) mod per_group g * inode_bytes g + inode_bytes g <= 1024 * table_blocks g.
Proof.
  intros Hn. pose proof (ed_per_group_pos _ _ _ Hdisk). pose proof (ed_inode_min _ _ _ Hdisk). destruct (ed_table _ _ _ Hdisk) as [<- _].
  pose proof (Z.mod_pos_bound (num - 1) (per_group g)). split; [split; [apply Z.div_pos; lia|apply Z.div_lt_upper_bound; lia]|nia].
Qed.

Lemma inode_table_size : 0 < table_blocks g * 2 < 2 ^ 16 /\ inode_bytes g * per_group g < 2 ^ 26.
Proof.
  pose proof (ed_per_group_pos _ _ _ Hdisk). pose proof (ed_inode_min _ _ _ Hdisk). destruct (ed_table _ _ _ Hdisk) as [He Hlt].
  assert (0 < inode_bytes g * per_group g) by nia. lia.
Qed.

(** The table of a group, read or cached. *)
Lemma GetRoot_reads d k i : mounted d -> disk_up k -> 0 <= i < groups g ->
  exists res k', GetRootOfInodeTable (ext2_reader_ d) i (inode_table_ d) k = Ret (res, k') /\ disk_up k' /\
    match res with
    | EErr _ => fails
    | EOk (root, t) => blocks_at (table_of_group g i) (table_blocks g) `prefix_of` root /\ mounted (with_table t d)
    end.
Proof.
  intros Hm Hup Hi. destruct (mo_reader _ _ _ _ _ Hm) as (l & Hr & Hp). destruct (reader_prefix dsk dev g l _ Hp eq_refl) as (_ & _ & Hn & Hsz & Hper & _).
  unfold GetRootOfInodeTable. rewrite Hr. set (r := mkReader _ _ l) in *. rewrite (ed_groups _ _ _ Hdisk) in Hn. rewrite (lift_ok _ _ _ _ Hn), (proj2 (Z.ltb_ge _ _)) by lia.
  destruct (lookup_lt_is_Some_2 (inode_tables_ (inode_table_ d)) (Z.to_nat i)) as [o Ho]; [rewrite (mo_groups _ _ _ _ _ Hm); lia|].
  rewrite (lift_ok _ _ _ o) by (by rewrite Ho). destruct o as [root|].
  { do 2 eexists. split; [done|]. split; [done|]. split; [|by destruct d]. rewrite <- (Z2Nat.id i) by lia. by apply (mo_tables _ _ _ _ _ Hm). }
  destruct (ed_tables _ _ _ Hdisk i Hi) as [Htab Hb]. destruct descriptors_size as [Hdpos _].
  assert (32 * i + 12 <= 1024 * descriptor_blocks g) as Hfit by (unfold descriptor_blocks; Z.to_euclidean_division_equations; lia).
  rewrite (lift_ok _ _ _ (table_of_group g i)).
  2: { rewrite <- Htab. unfold bgd_inode_table, bgd_size. apply u32_prefix; [apply (mo_descriptors _ _ _ _ _ Hm)|]. rewrite length_blocks_at. lia. }
  destruct inode_table_size as [Hts Hprod]. pose proof (prefix_reader_ok l Hp) as Hok. fold r in Hok.
  rewrite (lift_ok _ _ _ (table_blocks g)).
  2: { unfold InodeTableBlockSize. rewrite Hsz, (ed_inode _ _ _ Hdisk), Hper, (ed_per_group _ _ _ Hdisk), (ro_size _ _ _ _ Hok). cbn [mbind res_bind].
       pose proof (ed_per_group_pos _ _ _ Hdisk). pose proof (ed_inode_min _ _ _ Hdisk). rewrite u64_small by nia. done. }
  destruct (ReadBlocks_reads r (table_of_group g i) (table_blocks g) k Hok Hup Hb Hts) as (res & k' & HR & Hup' & Ha).
  destruct res as [e|root]; [do 2 eexists; split; [by apply io_err|done]|]. rewrite (io_ok _ _ _ _ _ HR). do 2 eexists. split; [done|]. split; [done|]. split; [done|].
  destruct Hm as [_ H2 H3 H4 H5 H6 H7]. split; cbn [with_table ext2_reader_ inode_table_ bgdt_region_ inode_tables_ inode_cache_]; try done.
  - by exists l.
  - by rewrite length_insert.
  - intros j root' Hj. destruct (decide (j = Z.to_nat i)) as [->|Hne].
    + rewrite list_lookup_insert_eq in Hj by (by eapply lookup_lt_Some). injection Hj as <-. by rewrite Z2Nat.id by lia.
    + rewrite list_lookup_insert_ne in Hj by done. by apply H4.
Qed.

Lemma GetInode_reads d k num : mounted d -> disk_up k -> 1 <= num <= groups g * per_group g -> num < 2 ^ 32 ->
  exists res d' k', GetInode num (d, k) = Ret (res, (d', k')) /\ disk_up k' /\ mounted d' /\ inode_cache_ d' = inode_cache_ d /\
    match res with
    | EErr _ => fails
    | EOk i => exists root, i = mkInode root ((num - 1) mod per_group g * inode_bytes g) /\
        blocks_at (table_of_group g ((num - 1) / per_group g)) (table_blocks g) `prefix_of` root
    end.
Proof.
  intros Hm Hup Hnum Hlt. unfold GetInode. rewrite (io_ok get_driver _ _ d (d, k)) by done. rewrite (u32_small num) by lia.
  destruct (inode_place num Hnum) as (Hg & Ho & Hfit). destruct inode_table_size as [Hts Hprod]. pose proof (ed_table _ _ _ Hdisk).
  destruct (mo_reader _ _ _ _ _ Hm) as (l & Hr & Hp). destruct (reader_prefix dsk dev g l _ Hp eq_refl) as (_ & _ & _ & Hsz & Hper & _).
  destruct (GetRoot_reads d k _ Hm Hup Hg) as (res & k1 & HR & Hup1 & Ha).
  assert (InodeTable_GetInode (ext2_reader_ d) num (inode_table_ d) k = Ret (match res with EErr e => EErr e | EOk (root, t) => EOk (mkInode root ((num - 1) mod per_group g * inode_bytes g), t) end, k1)) as HG.
  { unfold InodeTable_GetInode. rewrite <- Hr in Hsz, Hper. rewrite (lift_ok _ _ _ (per_group g)) by (by rewrite Hper, (ed_per_group _ _ _ Hdisk)).
    pose proof (ed_per_group_pos _ _ _ Hdisk). rewrite (u32_small (num - 1)) by lia. rewrite (lift_ok _ _ _ ((num - 1) / per_group g)) by (unfold udiv; by rewrite (proj2 (Z.eqb_neq _ 0)) by lia).
    destruct res as [e|[root t]]; [by apply io_err|]. rewrite (io_ok _ _ _ _ _ HR). rewrite (lift_ok _ _ _ (inode_bytes g)) by (by rewrite Hsz, (ed_inode _ _ _ Hdisk)).
    rewrite u64_small by (pose proof (ed_inode_min _ _ _ Hdisk); lia). done. }
  destruct res as [e|[root t]].
  - exists (EErr e), d, k1. split; [apply io_err; by rewrite (disk_eq _ _ _ _ _ HG)|done].
  - rewrite (io_ok _ _ _ _ _ (disk_eq _ _ _ _ _ HG)). rewrite (io_ok (put_driver _) _ _ tt (with_table t d, k1)) by done. destruct Ha as [Ha Hm'].
    eexists _, _, k1. split; [done|]. split_and!; [done|done|done|]. by exists root.
Qed.

Lemma mounted_cache_size d : mounted d -> hm_size (inode_cache_ d) < 2 ^ 56 - 1.
Proof. intros Hm. rewrite hm_size_model by apply Hm. pose proof (size_below _ (2 ^ 32) (mo_keys _ _ _ _ _ Hm)). lia. Qed.

(** The inode in its table, as it was read. *)
Definition inode_of (num : Z) (i : Inode) : Prop :=
  exists root, i = mkInode root ((num - 1) mod per_group g * inode_bytes g) /\ blocks_at (table_of_group g ((num - 1) / per_group g)) (table_blocks g) `prefix_of` root.

Lemma inode_fields num n i : nodes !! num = Some n -> inode_of num i ->
  inode_mode i = Ret (n_mode n) /\ inode_file_size i = Ret (n_size n) /\ inode_blocks i = inode_blocks (disk_inode dsk g num) /\
  forall j, j < 15 -> inode_block j i = inode_block j (disk_inode dsk g num).
Proof.
  intros Hn (root & -> & Hp). destruct (Hnodes _ _ Hn) as [[Hnum _] Hmode Hsize _ _ _].
  destruct (inode_place num Hnum) as (Hg & Ho & Hfit). pose proof (ed_inode_min _ _ _ Hdisk). destruct inode_table_size as [Hts _].
  destruct (inode_prefix _ root ((num - 1) mod per_group g * inode_bytes g) Hp) as (Hmd & Hsz & Hbl & Hbk); [rewrite length_blocks_at; lia|].
  change (mkInode (blocks_at _ _) _) with (disk_inode dsk g num) in Hmd, Hsz, Hbl, Hbk. by rewrite Hmd, Hsz.
Qed.

Lemma GetInode_node d k num n : mounted d -> disk_up k -> nodes !! num = Some n ->
  exists res d' k', GetInode num (d, k) = Ret (res, (d', k')) /\ disk_up k' /\ mounted d' /\
    match res with EErr _ => fails | EOk i => inode_of num i end.
Proof.
  intros Hm Hup Hn. destruct (na_num _ _ _ _ (Hnodes _ _ Hn)) as [Hnum Hlt].
  destruct (GetInode_reads d k num Hm Hup Hnum Hlt) as (res & d1 & k1 & HG & Hup1 & Hm1 & _ & Hres). by exists res, d1, k1.
Qed.

(** Reading an inode gives its bytes, from the disk or from the cache. *)
Lemma ReadInode_node d k num n i : mounted d -> disk_up k -> nodes !! num = Some n -> inode_of num i ->
  exists res d' k', ReadInode num i (d, k) = Ret (res, (d', k')) /\ disk_up k' /\ mounted d' /\
    match res with EErr _ => fails | EOk r => exists l, r = Some l /\ n_bytes n `prefix_of` l end.
Proof.
  intros Hm Hup Hn Hi. destruct (inode_fields num n i Hn Hi) as (_ & _ & Hbl & Hbk).
  destruct (Hnodes _ _ Hn) as [[Hnum Hlt] _ _ H14 (nb & cnt & bm & Hnb & Hnbr & Hcnt & Hlim & Hbm & Hbytes) _].
  destruct (hm_model (inode_cache_ d) !! num) as [r|] eqn:Ecache.
  - destruct (mo_files _ _ _ _ _ Hm _ _ _ Ecache Hn) as (l & -> & Hl). exists (EOk (Some l)), d, k. split; [by apply ReadInode_hit; [apply Hm|]|]. by split_and!; [..|exists l].
  - destruct (ReadInode_miss dev dsk fails d k num i (first_sector g) nb cnt bm) as (res & [d2 k2] & HR & Hup2 & Hrd & Htb & Hwf & Hres);
      [by apply mounted_reader|done|apply Hm|by apply mounted_cache_size|done|by rewrite Hbl|done|done|done|by rewrite Hbk by lia|by eapply block_map_same|].
    exists res, d2, k2. split; [done|]. split; [done|]. cbn [fst] in *. destruct res as [e|r]; [by destruct Hres as [-> ?]|]. destruct Hres as (l & -> & Hl & Hmod). rewrite <- Hbytes in Hl.
    split; [|by exists l]. destruct Hm as [H1 H2 H3 H4 H5 H6 H7]. split; rewrite ?Hrd, ?Htb; try done.
    + intros j. rewrite Hmod. destruct (decide (j = num)) as [->|Hne]; [lia|]. rewrite lookup_insert_ne by done. apply H6.
    + intros j r n'. rewrite Hmod. destruct (decide (j = num)) as [->|Hne]; [|by rewrite lookup_insert_ne by done; apply H7].
      rewrite lookup_insert_eq, Hn. intros [= <-] [= <-]. by exists l.
Qed.

Lemma ReadFile_node d k num n : mounted d -> disk_up k -> nodes !! num = Some n ->
  exists res d' k', ReadFile num (d, k) = Ret (res, (d', k')) /\ disk_up k' /\ mounted d' /\
    (if is_file n then match res with EErr _ => fails | EOk r => exists l, r = Some l /\ n_bytes n `prefix_of` l end else res = EErr INVALID_ARGUMENT \/ fails).
Proof.
  intros Hm Hup Hn. destruct (GetInode_node d k num n Hm Hup Hn) as (res & d1 & k1 & HG & Hup1 & Hm1 & Hres). unfold ReadFile.
  destruct res as [e|i]; [exists (EErr e), d1, k1; split; [by apply io_err|]; split_and!; [done|done|]; case_match; by auto|]. rewrite (io_ok _ _ _ _ _ HG).
  destruct (inode_fields num n i Hn Hres) as (Hmd & _). rewrite (lift_ok _ _ _ _ Hmd). unfold is_file. destruct (Z.land (n_mode n) 0x8000 =? 0); cbn [negb].
  - exists (EErr INVALID_ARGUMENT), d1, k1. split; [done|]. split_and!; [done|done|by left].
  - by apply ReadInode_node.
Qed.

Lemma records_prefix blk l bs addr es : blk `prefix_of` l -> records blk bs addr es -> records l bs addr es.
Proof.
  intros Hp. induction 1 as [addr Hend|addr e es Hlt Hread Hpos _ IH]; [by constructor|]. econstructor; [done| |done|done].
  unfold read_DirEntry in *. destruct (load_bytes addr 264 blk) as [x| | |] eqn:EL; try done. rewrite (region_load_prefix addr 264 blk l Hp), EL; [done|].
  unfold load_bytes, in_bounds in EL. destruct ((0 <=? addr) && _) eqn:EB; [|done]. apply andb_prop in EB as [_ EB]. apply Z.leb_le in EB. lia.
Qed.

Lemma ReadDirectory_node d k num n : mounted d -> disk_up k -> nodes !! num = Some n ->
  exists res d' k', ReadDirectory num (d, k) = Ret (res, (d', k')) /\ disk_up k' /\ mounted d' /\
    (if is_dir n then match res with EErr _ => fails | EOk es => es = n_entries n end else res = EErr INVALID_ARGUMENT \/ fails).
Proof.
  intros Hm Hup Hn. destruct (GetInode_node d k num n Hm Hup Hn) as (res & d1 & k1 & HG & Hup1 & Hm1 & Hres). unfold ReadDirectory.
  destruct res as [e|i]; [exists (EErr e), d1, k1; split; [by apply io_err|]; split_and!; [done|done|]; case_match; by auto|]. rewrite (io_ok _ _ _ _ _ HG).
  destruct (inode_fields num n i Hn Hres) as (Hmd & _). rewrite (lift_ok _ _ _ _ Hmd).
  destruct (na_num _ _ _ _ (Hnodes _ _ Hn)) as [Hnum Hlt]. rewrite (u32_small num) by lia.
  pose proof (na_entries _ _ _ _ (Hnodes _ _ Hn)) as Hent. unfold is_dir in *. destruct (Z.land (n_mode n) 0x4000 =? 0); cbn [negb] in *.
  - exists (EErr INVALID_ARGUMENT), d1, k1. split; [done|]. split_and!; [done|done|by left].
  - destruct (ReadInode_node d1 k1 num n i Hm1 Hup1 Hn Hres) as (res & d2 & k2 & HR & Hup2 & Hm2 & Hr2).
    destruct res as [e|r]; [exists (EErr e), d2, k2; split; [by apply io_err|done]|]. destruct Hr2 as (l & -> & Hl). rewrite (io_ok _ _ _ _ _ HR).
    rewrite (io_ok get_driver _ _ d2 (d2, k2)) by done. rewrite (lift_ok _ _ _ _ (ro_size _ _ _ _ (mounted_reader d2 Hm2))), (lift_ok _ _ _ l) by done.
    exists (EOk (n_entries n)), d2, k2. split; [|done]. unfold lift. rewrite (dir_loop_spec l _ 0 (n_entries n)); [done| |lia].
    change (512 * 2) with 1024. eapply records_prefix; [done|by apply Hent].
Qed.
End driver.

(** ** The driver behind the file server *)
Definition dirs_of (nodes : gmap Z node) (num : Z) : ErrorOr (list DirEntry) :=
  match nodes !! num with Some n => if is_dir n then EOk (n_entries n) else EErr INVALID_ARGUMENT | None => EErr INVALID_ARGUMENT end.
Definition files_of (nodes : gmap Z node) (num : Z) : ErrorOr (list Z) :=
  match nodes !! num with Some n => if is_file n then EOk (n_bytes n) else EErr INVALID_ARGUMENT | None => EErr INVALID_ARGUMENT end.
Definition sizes_of (nodes : gmap Z node) (num : Z) : Z := match nodes !! num with Some n => n_size n | None => 0 end.

(** There is a root, and directories name inodes that exist. *)
Record fs_tree (nodes : gmap Z node) : Prop := {
  ft_root : is_Some (nodes !! 2);
  ft_dirs num n : nodes !! num = Some n -> is_dir n = true -> dir_ok (n_entries n) /\ Forall (fun e => is_Some (nodes !! de_inode e)) (n_entries n);
}.

(** A driver over a disk that does not fail keeps the promise the file server relies on. *)
Section laws.
Context {K : Type} `{DiskClient K} (dsk : Z -> Z) (dev : Z) (g : geometry) (nodes : gmap Z node) `{!DiskClientLaws K dev dsk False}.
Hypothesis Hdisk : ext2_disk dsk dev g.
Hypothesis Hnodes : map_Forall (node_at dsk g) nodes.
Hypothesis Htree : fs_tree nodes.

Program Definition Ext2_laws : FsDriverLaws (Ext2Driver * K) (dirs_of nodes) (files_of nodes) (sizes_of nodes) :=
  {| fs_inv := fun s => mounted dsk dev g nodes s.1 /\ disk_up s.2; known := fun num => is_Some (nodes !! num) |}.
Next Obligation. apply Htree. Qed.
Next Obligation.
  intros num [d k] [Hm Hup] [n Hn]. cbn in *. destruct (ReadDirectory_node dsk dev g nodes False Hdisk Hnodes d k num n Hm Hup Hn) as (res & d' & k' & HR & Hup' & Hm' & Hres).
  exists (d', k'). split; [|done]. rewrite HR. unfold dirs_of. rewrite Hn. destruct (is_dir n); [by destruct res; [|subst]|by destruct Hres as [->|?]].
Qed.
Next Obligation.
  intros num es [n Hn]. unfold dirs_of. rewrite Hn. destruct (is_dir n) eqn:Ed; [|done]. intros [= <-]. by apply (ft_dirs _ Htree num).
Qed.
Next Obligation.
  intros num [d k] [Hm Hup] [n Hn]. cbn in *. destruct (ReadFile_node dsk dev g nodes False Hdisk Hnodes d k num n Hm Hup Hn) as (res & d' & k' & HR & Hup' & Hm' & Hres).
  exists res, (d', k'). split; [done|]. split; [done|]. unfold files_of. rewrite Hn. destruct (is_file n); [|by destruct Hres as [->|?]].
  destruct res as [|r]; [done|]. destruct Hres as (l & -> & Hl). by exists l.
Qed.
Next Obligation.
  intros num l [d k] [Hm Hup] [n Hn] _. cbn in *. destruct (GetInode_node dsk dev g nodes False Hdisk Hnodes d k num n Hm Hup Hn) as (res & d' & k' & HR & Hup' & Hm' & Hres).
  destruct res as [|i]; [done|]. exists i, (d', k'). split; [done|]. split; [|done]. unfold sizes_of. rewrite Hn. by apply (inode_fields dsk dev g nodes Hdisk Hnodes num n i Hn Hres).
Qed.
End laws.

(** ** The disk service as the client sees it

    A call runs the handler of the service; [schedule i n] is what the device
    and the interrupt thread do while request [i], of [n] commands, is handled
    (that a call through the generated client is a call of the handler is
    shown in Services.v).  The client maps the memory object that the
    capability in the answer names; [object_at] is where the object is and how
    long.  A region is the bytes at the time of the answer: the frames of a
    memory object are its own for as long as it is mapped. *)
Record machine : Type := mkMachine { m_world : World; m_requests : nat }.

Section service.
Context (dma : HostToDeviceRegisterFis -> PhysicalRegionDescriptor -> (Z -> Z) -> (Z -> Z)).
Context (contiguous : Z -> Z -> Z * Z) (object_at : Z -> Z * Z) (schedule : nat -> nat -> list event).

Definition mapped (w : World) (cap : Z) : list Z := mem_range (w_mem w) (object_at cap).1 (Z.to_nat (object_at cap).2).

Definition answer (i : nat) (r : res (Status * ReadResponse * World * list event)) : res (ErrorOr (list Z) * machine) :=
  '(st, resp, w, _) ← r;
  Ret (if Status_ok st then EOk (mapped w (ReadResponse_memory resp)) else EErr (code_ st), mkMachine w (S i)).

#[local] Instance Denali_client : DiskClient machine := {
  Denali_Read := fun dev lba n m =>
    answer (m_requests m) (HandleRead dma contiguous (mkReadRequest dev (mkDiskBlock lba n)) (mkReadResponse 0 0 0) (schedule (m_requests m) 1) (m_world m));
  Denali_ReadMany := fun dev runs m =>
    answer (m_requests m) (HandleReadMany dma contiguous (mkReadManyRequest dev ((fun b => mkDiskBlock b.1 b.2) <$> runs)) (mkReadResponse 0 0 0)
      (schedule (m_requests m) (length runs)) (m_world m));
}.

(** The hardware reads the sectors it is asked for; a region is where its object is, fits into memory, and the object is at
    least as long; and every request is served. *)
Record machine_ok (dsk : Z -> Z) (d : nat) : Prop := {
  mk_reads f prd mem a : fis_command f = kDmaReadExt -> 0 < count f < 2 ^ 16 ->
    dma f prd mem a = if (region_address prd <=? a) && (a <? region_address prd + 512 * count f)
                      then dsk (512 * fis_lba f + (a - region_address prd)) else mem a;
  mk_object i size : 0 <= size < 2 ^ 42 -> (object_at (contiguous i size).1).1 = (contiguous i size).2 /\ size <= (object_at (contiguous i size).1).2;
  mk_fits i size : 0 <= size < 2 ^ 42 -> 0 <= (contiguous i size).2 /\ (contiguous i size).2 + size < 2 ^ 64;
  mk_served i n : good_schedule (schedule i n) /\ serves_many d n (schedule i n);
}.

Lemma mapped_prefix w cap paddr n bytes :
  (object_at cap).1 = paddr -> 0 <= n <= (object_at cap).2 -> mem_range (w_mem w) paddr (Z.to_nat n) = bytes -> bytes `prefix_of` mapped w cap.
Proof.
  intros <- Hn <-. unfold mapped. replace (Z.to_nat (object_at cap).2) with (Z.to_nat n + (Z.to_nat (object_at cap).2 - Z.to_nat n))%nat by lia.
  rewrite mem_range_app. by eexists.
Qed.

Lemma serves_one d evs : good_schedule evs -> serves_many d 1 evs -> serves d evs.
Proof.
  intros Hg (e1 & e2 & -> & [(pre & f & irq & post & -> & Hin) _] & _). split; [|exact Hg].
  exists pre, f, irq, (post ++ e2). split; [by rewrite <- app_assoc|]. apply elem_of_app. by left.
Qed.

Lemma total_size_bound (runs : list (Z * Z)) : Forall run_ok runs -> total_size ((fun b => mkDiskBlock b.1 b.2) <$> runs) <= 2 ^ 16 * Z.of_nat (length runs).
Proof. induction 1 as [|b runs [_ Hb] _ IH]; [done|]. rewrite fmap_cons. cbn [total_size length DiskBlock_size]. lia. Qed.

(** The service keeps the promise the driver relies on, and no request fails. *)
Program Definition Denali_laws (dsk : Z -> Z) (d : nat) (Hok : machine_ok dsk d) : DiskClientLaws machine (Z.of_nat d) dsk False :=
  {| disk_up := fun m => idle_disk (m_world m) d |}.
Next Obligation.
  intros dsk d Hok lba n [w i] Hidle [Hl Hn]. cbn in *. destruct (mk_served _ _ Hok i 1) as [Hg Hs].
  pose proof (HandleRead_spec dma contiguous dsk (mk_reads _ _ Hok) w d lba n (mkReadResponse 0 0 0) (schedule i 1) Hidle Hl Hn) as HH.
  destruct (mk_object _ _ Hok (w_regions w) (512 * n)) as [Ha Hsz]; [lia|]. cbv zeta in HH. destruct (contiguous (w_regions w) (512 * n)) as [cap paddr]. cbn in Ha, Hsz.
  destruct HH as [HS HL]. destruct (HL (serves_one _ _ Hg Hs)) as [[[[st resp] w'] evs'] HR]. destruct (HS true _ _ _ _ (good_verdict _ Hg) HR) as (-> & -> & Hidle' & Hmem & _).
  do 2 eexists. split; [by rewrite HR|]. split; [done|]. cbn. eapply mapped_prefix; [done|split; [|done]; lia|done].
Qed.
Next Obligation.
  intros dsk d Hok runs [w i] Hidle _ HF Hlen. cbn in *. destruct (mk_served _ _ Hok i (length runs)) as [Hg Hs].
  set (bs := (fun b : Z * Z => mkDiskBlock b.1 b.2) <$> runs).
  assert (Forall block_ok bs) as HB by (apply Forall_fmap; by eapply Forall_impl; [exact HF|]).
  pose proof (total_size_bound runs HF) as Hb. fold bs in Hb. pose proof (total_size_nonneg bs HB) as H0.
  pose proof (HandleReadMany_spec dma contiguous dsk (mk_reads _ _ Hok) w d bs (mkReadResponse 0 0 0) (schedule i (length runs)) Hidle HB) as HH.
  destruct (mk_object _ _ Hok (w_regions w) (512 * total_size bs)) as [Ha Hsz]; [lia|]. destruct (mk_fits _ _ Hok (w_regions w) (512 * total_size bs)) as [Hp Hf]; [lia|].
  cbv zeta in HH. destruct (contiguous (w_regions w) (512 * total_size bs)) as [cap paddr]. cbn in Ha, Hsz, Hp, Hf.
  destruct (HH Hp Hf) as [HS HL]. destruct HL as [[[[st resp] w'] evs'] HR]; [done|unfold bs; by rewrite length_fmap|]. destruct (HS _ _ _ _ (good_verdict _ Hg) HR) as (-> & -> & Hidle' & Hmem & _).
  do 2 eexists. split; [by rewrite HR|]. split; [done|]. cbn. eapply mapped_prefix; [done|split; [|done]; lia|]. rewrite Hmem. unfold bs. by rewrite <- list_fmap_compose.
Qed.
End service.

(** ** Files from a path to the platters *)
Fixpoint open_files {S} `{FsDriver S} (paths : list (list Z)) (s : S) : res (list (Status * FileResponse) * S) :=
  match paths with
  | [] => Ret ([], s)
  | path :: paths' =>
      '(st, resp, s) ← HandleOpenFile path (mkFile [] 0 None) s;
      '(rs, s) ← open_files paths' s;
      Ret ((st, resp) :: rs, s)
  end.

(** What the inodes of the partition say a path is. *)
Definition opened (nodes : gmap Z node) (path : list Z) (r : Status * FileResponse) : Prop :=
  let comps := split_on slash path in
  if bool_decide (head comps = Some []) then
    match open_path (dirs_of nodes) (files_of nodes) comps with
    | EErr c => code_ r.1 = c /\ r.2 = mkFile [] 0 None
    | EOk (i, l) => r.1 = Status_Ok /\ exists l', r.2 = mkFile path (sizes_of nodes i) (Some l') /\ l `prefix_of` l'
    end
  else code_ r.1 = INVALID_ARGUMENT /\ r.2 = mkFile [] 0 None.

Lemma open_files_spec {S} `{FsDriver S} nodes (HL : FsDriverLaws S (dirs_of nodes) (files_of nodes) (sizes_of nodes)) paths : forall s,
  Forall path_ok paths -> fs_inv s -> exists rs s', open_files paths s = Ret (rs, s') /\ Forall2 (opened nodes) paths rs /\ fs_inv s'.
Proof.
  induction paths as [|path paths IH]; intros s HF Hs; cbn [open_files]; [by exists [], s|]. apply Forall_cons in HF as [Hp HF].
  destruct (HandleOpenFile_spec _ _ _ path (mkFile [] 0 None) s Hp Hs) as (st & resp & s1 & -> & Hs1 & Hres). cbn [mbind res_bind].
  destruct (IH s1 HF Hs1) as (rs & s2 & -> & Hrs & Hs2). cbn [mbind res_bind]. exists ((st, resp) :: rs), s2. split; [done|]. split; [|done]. constructor; [exact Hres|done].
Qed.


(** *** Witness: a partition with a root directory (inode 2) that holds the file "x" (inode 11), three bytes long *)
Module DemoFs.
(** The bytes that are not zero: superblock, group descriptor, the two inodes, the directory block, the file's block. *)
Definition image : list (Z * Z) :=
  [(1028, 100); (1057, 32); (1064, 16); (1080, 0x53); (1081, 0xEF); (2056, 5);
   (5249, 0x40); (5276, 2); (5288, 10); (6401, 0x80); (6404, 3); (6428, 2); (6440, 20);
   (10240, 11); (10245, 4); (10246, 1); (10248, 120); (20480, 1); (20481, 2); (20482, 3)].
Definition demo_platter (a : Z) : Z := default 0 (snd <$> (snd <$> list_find (fun p => p.1 = a) image)).
Definition demo_geometry : geometry := mkGeometry 0 1 16 128 (fun _ => 5).
Definition demo_entry : DirEntry := mkDirEntry 11 1024 1 0 (120 :: replicate 255 0).
Definition demo_nodes : gmap Z node :=
  {[2 := mkNode 0x4000 0 (mem_range demo_platter 10240 1024) [demo_entry]; 11 := mkNode 0x8000 3 (mem_range demo_platter 20480 1024) []]}.

Definition platter_dma (f : HostToDeviceRegisterFis) (prd : PhysicalRegionDescriptor) (mem : Z -> Z) (a : Z) : Z :=
  if (region_address prd <=? a) && (a <? region_address prd + 512 * count f) then demo_platter (512 * fis_lba f + (a - region_address prd)) else mem a.
Definition sized_contiguous (n size : Z) : Z * Z := (size, 0x100000).
Definition sized_object (cap : Z) : Z * Z := (0x100000, cap).
Definition demo_schedule (i n : nat) : list event := concat (replicate n demo_events).

Lemma demo_schedule_serves n : good_schedule (concat (replicate n demo_events)) /\ serves_many 0 n (concat (replicate n demo_events)).
Proof.
  induction n as [|n [IHg IHs]]; [split; [intros ? ? ? ? ?%not_elem_of_nil|]; done|]. cbn [replicate concat]. split.
  - intros port slot f irq [Hel|Hel]%elem_of_app; [by eapply (proj2 demo_serves)|by eapply IHg].
  - exists demo_events, (concat (replicate n demo_events)). split; [done|]. split; [exact demo_serves|done].
Qed.

Lemma demo_machine : machine_ok platter_dma sized_contiguous sized_object demo_schedule demo_platter 0.
Proof. split; [done|cbn; lia|cbn; lia|intros i n; apply demo_schedule_serves]. Qed.

Lemma demo_image : ext2_disk demo_platter 0 demo_geometry.
Proof.
  split; try (by vm_compute); try (cbn; lia). intros i Hi. cbn in Hi. assert (i = 0) as -> by lia. split; [by vm_compute|unfold block_number; cbn; lia].
Qed.

(** An inode with one block. *)
Lemma one_block inode b nb : inode_blocks inode = Ret nb -> 1 <= nb <= 2 -> inode_block 0 inode = Ret b -> inode_block 12 inode = Ret 0 -> inode_block 13 inode = Ret 0 -> block_number b ->
  exists nb cnt bm, inode_blocks inode = Ret nb /\ 1 <= nb < 2 ^ 32 /\ cnt = (nb - 1) / 2 + 1 /\ cnt < 2 ^ 15 /\
    block_map demo_platter inode 0 cnt bm /\ mem_range demo_platter (1024 * b) 1024 = concat (block_data demo_platter 0 2 <$> (bm <$> seqZ 0 cnt)).
Proof.
  intros Hnb Hr H0 H12 H13 Hb. assert ((nb - 1) / 2 + 1 = 1) as Hc by (Z.to_euclidean_division_equations; lia).
  exists nb, 1, (fun _ => b). split_and!; [done|lia|lia|done|done| |].
  - split.
    + intros n Hn Hn1. by assert (n = 0) as -> by lia.
    + done.
    + exists 0. split_and!; [done|unfold block_number; lia|lia|lia].
    + exists 0. split_and!; [done|unfold block_number; lia|lia|lia].
  - change (seqZ 0 1) with [0]. cbn [fmap list_fmap concat]. rewrite app_nil_r. unfold block_data, sectors. f_equal. lia.
Qed.

Lemma demo_nodes_ok : map_Forall (node_at demo_platter demo_geometry) demo_nodes.
Proof.
  apply map_Forall_insert; [by vm_compute|]. split; [|apply map_Forall_singleton].
  - split; [cbn; lia|by vm_compute|by vm_compute|by vm_compute| |].
    + apply (one_block _ 10 2); [by vm_compute|lia|by vm_compute|by vm_compute|by vm_compute|unfold block_number; lia].
    + intros _. eapply records_entry; [lia|by vm_compute|cbn; lia|]. apply records_end. cbn. lia.
  - split; [cbn; lia|by vm_compute|by vm_compute|by vm_compute| |done].
    apply (one_block _ 20 2); [by vm_compute|lia|by vm_compute|by vm_compute|by vm_compute|unfold block_number; lia].
Qed.

Lemma demo_tree : fs_tree demo_nodes.
Proof.
  split; [by eexists|]. intros num n Hn Hd. unfold demo_nodes in Hn. apply lookup_insert_Some in Hn as [[<- <-]|[_ Hn]].
  - cbn [n_entries]. split; [split; [repeat constructor; cbn; lia|cbn; lia]|]. repeat constructor. by eexists.
  - apply lookup_singleton_Some in Hn as [<- <-]. done.
Qed.
End DemoFs.
Import DemoFs.

