(* ===== verification/Syscall.v ===== *)
(** * The system-call interface (zion/include/zcall.h, zcall_macros.h, ztypes.h, zion/syscall/syscall.cpp)

    A program fills a request structure in its memory and enters the kernel
    with a call number and the address of the structure.  The kernel picks the
    handler by the number, reads the fields of the request through that
    address, and writes results through the pointers it finds there.  This file
    models both sides on a memory of bytes, and shows that together they are
    the calls of Ipc.v and Process.v. *)

From Stdlib Require Import ZArith Lia.
From stdpp Require Import base tactics numbers list gmap.
From S2P Require Import Prelude Status Buffer LinkedList Hash HashMap Capability Sched Ipc PhysMem MemObject AddressSpace Process RawMem.

(** ** Memory that is written *)
Implicit Types mem : memory.

(** The first [n] addresses from [a] on are mapped. *)
Definition is_mapped mem (a : Z) (n : nat) : bool := forallb (fun i => bool_decide (is_Some (mem (a + Z.of_nat i)))) (seq 0 n).

Definition store (a : Z) (bs : list Z) mem : memory := fun x => if (a <=? x) && (x <? a + Z.of_nat (length bs)) then bs !! Z.to_nat (x - a) else mem x.

(** A store to memory that is not mapped faults. *)
Definition write_bytes (a : Z) (bs : list Z) mem : res memory := if is_mapped mem a (length bs) then Ret (store a bs mem) else Fault.

(** ** Call numbers *)
Definition kZionProcessExit : Z := 0x1.
Definition kZionProcessSpawn : Z := 0x2.
Definition kZionProcessWait : Z := 0x3.
Definition kZionThreadCreate : Z := 0x10.
Definition kZionThreadStart : Z := 0x11.
Definition kZionThreadExit : Z := 0x12.
Definition kZionThreadWait : Z := 0x13.
Definition kZionThreadSleep : Z := 0x14.
Definition kZionAddressSpaceMap : Z := 0x21.
Definition kZionAddressSpaceUnmap : Z := 0x22.
Definition kZionMemoryObjectCreate : Z := 0x30.
Definition kZionMemoryObjectCreatePhysical : Z := 0x31.
Definition kZionMemoryObjectCreateContiguous : Z := 0x32.
Definition kZionMemoryObjectDuplicate : Z := 0x38.
Definition kZionMemoryObjectInspect : Z := 0x39.
Definition kZionChannelCreate : Z := 0x40.
Definition kZionChannelSend : Z := 0x41.
Definition kZionChannelRecv : Z := 0x42.
Definition kZionChannelSendRecv : Z := 0x43.
Definition kZionPortCreate : Z := 0x50.
Definition kZionPortSend : Z := 0x51.
Definition kZionPortRecv : Z := 0x52.
Definition kZionPortPoll : Z := 0x53.
Definition kZionIrqRegister : Z := 0x58.
Definition kZionEndpointCreate : Z := 0x60.
Definition kZionEndpointSend : Z := 0x61.
Definition kZionEndpointRecv : Z := 0x62.
Definition kZionReplyPortSend : Z := 0x63.
Definition kZionReplyPortRecv : Z := 0x64.
Definition kZionEndpointCall : Z := 0x65.
Definition kZionCapDuplicate : Z := 0x70.
Definition kZionCapRelease : Z := 0x71.
Definition kZionMutexCreate : Z := 0x80.
Definition kZionMutexLock : Z := 0x81.
Definition kZionMutexRelease : Z := 0x82.
Definition kZionSemaphoreCreate : Z := 0x83.
Definition kZionSemaphoreWait : Z := 0x84.
Definition kZionSemaphoreSignal : Z := 0x85.
Definition kZionDebug : Z := 0x10000.

(** ** The program's side *)

(** The calls of zcall.h with their arguments; a pointer is an address. *)
Inductive zcall : Type :=
| SysProcessExit (code : Z)
| SysProcessSpawn (proc_cap bootstrap_cap new_proc_cap new_vmas_cap new_bootstrap_cap : Z)
| SysProcessWait (proc_cap exit_code : Z)
| SysThreadCreate (proc_cap thread_cap : Z)
| SysThreadStart (thread_cap entry arg1 arg2 : Z)
| SysThreadExit
| SysThreadWait (thread_cap : Z)
| SysThreadSleep (millis : Z)
| SysAddressSpaceMap (vmas_cap vmas_offset vmmo_cap align vaddr : Z)
| SysAddressSpaceUnmap (vmas_cap lower_addr upper_addr : Z)
| SysMemoryObjectCreate (size vmmo_cap : Z)
| SysMemoryObjectCreatePhysical (paddr size vmmo_cap : Z)
| SysMemoryObjectCreateContiguous (size vmmo_cap paddr : Z)
| SysMemoryObjectDuplicate (vmmo_cap base_offset length new_vmmo_cap : Z)
| SysMemoryObjectInspect (vmmo_cap size : Z)
| SysChannelCreate (channel1 channel2 : Z)
| SysChannelSend (chan_cap num_bytes data num_caps caps : Z)
| SysChannelRecv (chan_cap num_bytes data num_caps caps : Z)
| SysPortCreate (port_cap : Z)
| SysPortSend (port_cap num_bytes data num_caps caps : Z)
| SysPortRecv (port_cap num_bytes data num_caps caps : Z)
| SysPortPoll (port_cap num_bytes data num_caps caps : Z)
| SysIrqRegister (irq_num port_cap : Z)
| SysEndpointCreate (endpoint_cap : Z)
| SysEndpointSend (endpoint_cap num_bytes data num_caps caps reply_port_cap : Z)
| SysEndpointRecv (endpoint_cap num_bytes data num_caps caps reply_port_cap : Z)
| SysReplyPortSend (reply_port_cap num_bytes data num_caps caps : Z)
| SysReplyPortRecv (reply_port_cap num_bytes data num_caps caps : Z)
| SysCapDuplicate (cap_in perm_mask cap_out : Z)
| SysCapRelease (cap : Z)
| SysMutexCreate (mutex_cap : Z)
| SysMutexLock (mutex_cap : Z)
| SysMutexRelease (mutex_cap : Z)
| SysSemaphoreCreate (semaphore_cap : Z)
| SysSemaphoreWait (semaphore_cap : Z)
| SysSemaphoreSignal (semaphore_cap : Z)
| SysDebug (message size : Z).

(** [kZion##name], and the fields of [Z##name##Req] in their order. *)
Definition request (c : zcall) : Z * list Z :=
  match c with
  | SysProcessExit code => (kZionProcessExit, [code])
  | SysProcessSpawn a b p v n => (kZionProcessSpawn, [a; b; p; v; n])
  | SysProcessWait a x => (kZionProcessWait, [a; x])
  | SysThreadCreate a t => (kZionThreadCreate, [a; t])
  | SysThreadStart t e a1 a2 => (kZionThreadStart, [t; e; a1; a2])
  | SysThreadExit => (kZionThreadExit, [])
  | SysThreadWait t => (kZionThreadWait, [t])
  | SysThreadSleep ms => (kZionThreadSleep, [ms])
  | SysAddressSpaceMap v o m al r => (kZionAddressSpaceMap, [v; o; m; al; r])
  | SysAddressSpaceUnmap v lo hi => (kZionAddressSpaceUnmap, [v; lo; hi])
  | SysMemoryObjectCreate s r => (kZionMemoryObjectCreate, [s; r])
  | SysMemoryObjectCreatePhysical p s r => (kZionMemoryObjectCreatePhysical, [p; s; r])
  | SysMemoryObjectCreateContiguous s r p => (kZionMemoryObjectCreateContiguous, [s; r; p])
  | SysMemoryObjectDuplicate v o l r => (kZionMemoryObjectDuplicate, [v; o; l; r])
  | SysMemoryObjectInspect v r => (kZionMemoryObjectInspect, [v; r])
  | SysChannelCreate r1 r2 => (kZionChannelCreate, [r1; r2])
  | SysChannelSend c n d m l => (kZionChannelSend, [c; n; d; m; l])
  | SysChannelRecv c n d m l => (kZionChannelRecv, [c; n; d; m; l])
  | SysPortCreate r => (kZionPortCreate, [r])
  | SysPortSend c n d m l => (kZionPortSend, [c; n; d; m; l])
  | SysPortRecv c n d m l => (kZionPortRecv, [c; n; d; m; l])
  | SysPortPoll c n d m l => (kZionPortPoll, [c; n; d; m; l])
  | SysIrqRegister i r => (kZionIrqRegister, [i; r])
  | SysEndpointCreate r => (kZionEndpointCreate, [r])
  | SysEndpointSend c n d m l r => (kZionEndpointSend, [c; n; d; m; l; r])
  | SysEndpointRecv c n d m l r => (kZionEndpointRecv, [c; n; d; m; l; r])
  | SysReplyPortSend c n d m l => (kZionReplyPortSend, [c; n; d; m; l])
  | SysReplyPortRecv c n d m l => (kZionReplyPortRecv, [c; n; d; m; l])
  | SysCapDuplicate c p r => (kZionCapDuplicate, [c; p; r])
  | SysCapRelease c => (kZionCapRelease, [c])
  | SysMutexCreate r => (kZionMutexCreate, [r])
  | SysMutexLock c => (kZionMutexLock, [c])
  | SysMutexRelease c => (kZionMutexRelease, [c])
  | SysSemaphoreCreate r => (kZionSemaphoreCreate, [r])
  | SysSemaphoreWait c => (kZionSemaphoreWait, [c])
  | SysSemaphoreSignal c => (kZionSemaphoreSignal, [c])
  | SysDebug m s => (kZionDebug, [m; s])
  end.

(** The structure: every field is 8 bytes. *)
Definition request_bytes (c : zcall) : list Z := concat (le_bytes 8 <$> (request c).2).

(** ** The kernel's side: the memory of the program and the kernel's state *)
Definition machine_state : Type := memory * system.
Definition U (A : Type) : Type := machine_state -> res (outcome A * machine_state).

#[export] Instance U_ret : MRet U := fun A a s => Ret (Val a, s).
#[export] Instance U_bind : MBind U := fun A B f m s =>
  '(o, s) ← m s;
  match o with
  | Val a => f a s
  | Err e => Ret (Err e, s)
  | Blocked => Ret (Blocked, s)
  end.

Definition sys {A} (m : Sys A) : U A := fun s => '(o, y) ← m s.2; Ret (o, (s.1, y)).
Definition kern {A} (m : K A) : U A := sys (on_kernel m).
Definition load_range (a : Z) (n : nat) : U (list Z) := fun s => bs ← read_bytes s.1 a n; Ret (Val bs, s).
Definition load (a : Z) : U Z := fun s => v ← read_int s.1 a 8; Ret (Val v, s).
Definition write (a : Z) (bs : list Z) : U unit := fun s => mem ← write_bytes a bs s.1; Ret (Val tt, (mem, s.2)).

(** [req->field], the field with index [i]; [*req->field = v]. *)
Definition get (req i : Z) : U Z := load (req + 8 * i).
Definition put (req i v : Z) : U unit := p ← get req i; write p (le_bytes 8 v).
Definition u_fault {A} : U A := fun _ => Fault.
Definition look {A} (f : memory -> A) : U A := fun s => Ret (Val (f s.1), s).
Definition u_fail {A} (e : ErrorCode) : U A := fun s => Ret (Err e, s).

Section kernel_side.
(** The offset of the direct map. *)
Variable hhdm : Z.

(** *** zion/syscall/process.cpp and thread.cpp *)
Definition h_ProcessExit (req : Z) : U unit := code ← get req 0; sys (ProcessExit code).

(** The first two results are written before the bootstrap capability is looked at. *)
Definition h_ProcessSpawn (req : Z) : U unit :=
  proc_cap ← get req 0;
  _ ← kern (validated PROCESS proc_cap kZionPerm_SpawnProcess);
  proc ← sys (Process_Create hhdm);
  sys (InsertProcess proc);;
  new_proc_cap ← sys (add_new PROCESS process_permissions proc);
  put req 2 new_proc_cap;;
  x ← sys (get_proc proc);
  vmas ← sys (sys_lift (deref (vmas_ x)));
  new_vmas_cap ← sys (add_new ADDRESS_SPACE space_permissions vmas);
  put req 3 new_vmas_cap;;
  bootstrap_cap ← get req 1;
  if bootstrap_cap =? 0 then mret tt else
  cap ← kern (on_table (GetCapability bootstrap_cap));
  match cap with
  | None => u_fail CAP_NOT_FOUND
  | Some c =>
      if negb (HasPermissions c kZionPerm_Transmit) then u_fail CAP_PERMISSION_DENIED else
      released ← kern (on_table (ReleaseCapability bootstrap_cap));
      id ← sys (give proc released);
      put req 4 id
  end.

Definition h_ProcessWait (req : Z) : U unit := proc_cap ← get req 0; code ← sys (ProcessWait proc_cap); put req 1 code.
Definition h_ThreadCreate (req : Z) : U unit := proc_cap ← get req 0; id ← sys (ThreadCreate proc_cap); put req 1 id.
Definition h_ThreadStart (req : Z) : U unit :=
  thread_cap ← get req 0; entry ← get req 1; arg1 ← get req 2; arg2 ← get req 3; sys (ThreadStart thread_cap entry arg1 arg2).
Definition h_ThreadExit (req : Z) : U unit := sys ThreadExit.
Definition h_ThreadWait (req : Z) : U unit := thread_cap ← get req 0; sys (ThreadWait thread_cap).
Definition h_ThreadSleep (req : Z) : U unit := millis ← get req 0; sys (ThreadSleep millis).

(** *** zion/syscall/address_space.cpp and memory_object.cpp *)
Definition h_AddressSpaceMap (req : Z) : U unit :=
  vmas_cap ← get req 0; vmmo_cap ← get req 2; vmas_offset ← get req 1; align ← get req 3;
  vaddr ← sys (AddressSpaceMap vmas_cap vmas_offset vmmo_cap align);
  put req 4 vaddr.
Definition h_AddressSpaceUnmap (req : Z) : U unit :=
  vmas_cap ← get req 0; lower_addr ← get req 1; upper_addr ← get req 2; sys (AddressSpaceUnmap vmas_cap lower_addr upper_addr).
Definition h_MemoryObjectCreate (req : Z) : U unit := size ← get req 0; id ← sys (MemoryObjectCreate size); put req 1 id.
Definition h_MemoryObjectCreatePhysical (req : Z) : U unit :=
  paddr ← get req 0; size ← get req 1; id ← sys (MemoryObjectCreatePhysical paddr size); put req 2 id.
Definition h_MemoryObjectCreateContiguous (req : Z) : U unit :=
  size ← get req 0; '(id, paddr) ← sys (MemoryObjectCreateContiguous size); put req 1 id;; put req 2 paddr.
Definition h_MemoryObjectDuplicate (req : Z) : U unit :=
  vmmo_cap ← get req 0; base_offset ← get req 1; length ← get req 2;
  id ← sys (MemoryObjectDuplicate vmmo_cap base_offset length);
  put req 3 id.
Definition h_MemoryObjectInspect (req : Z) : U unit := vmmo_cap ← get req 0; size ← sys (MemoryObjectInspect vmmo_cap); put req 1 size.

(** *** zion/syscall/ipc.cpp *)

(** What can be read at [a], up to [n] bytes, and up to [n] numbers. *)
Fixpoint readable mem (a : Z) (n : nat) : list Z :=
  match n with
  | O => []
  | S n' => match mem a with Some b => b :: readable mem (a + 1) n' | None => [] end
  end.
Fixpoint readable_ids mem (a : Z) (n : nat) : list Z :=
  match n with
  | O => []
  | S n' => match read_int mem a 8 with Ret v => v :: readable_ids mem (a + 8) n' | _ => [] end
  end.

(** The buffers of a send request.  More than 0x1000 bytes are refused before they are read. *)
Definition send_buffers mem (num_bytes data num_caps caps : Z) : SendReq :=
  mkSend num_bytes (readable mem data (Z.to_nat (Z.min num_bytes 0x1000))) num_caps (readable_ids mem caps (Z.to_nat num_caps)).

Definition send_req (req : Z) : U SendReq :=
  num_bytes ← get req 1; data ← get req 2; num_caps ← get req 3; caps ← get req 4;
  look (fun mem => send_buffers mem num_bytes data num_caps caps).

(** [*req->field] *)
Definition load_at (req i : Z) : U Z := p ← get req i; load p.

(** The loops of [TranslateIpcMessageToResponse], from index [i] on. *)
Fixpoint copy_data (req i : Z) (data : list Z) : U unit :=
  match data with
  | [] => mret tt
  | b :: data' => p ← get req 2; write (p + i) [b];; copy_data req (i + 1) data'
  end.

Fixpoint copy_caps (req i : Z) (cs : list (option Capability)) : U unit :=
  n ← load_at req 3;
  if n <=? i then mret tt else
  match cs with
  | [] => u_fault
  | c :: cs' =>
      id ← kern (on_table (AddExistingCapability c));
      p ← get req 4;
      write (p + 8 * i) (le_bytes 8 id);;
      copy_caps req (i + 1) cs'
  end.

Definition write_response (req : Z) (message : IpcMessage) : U unit :=
  n ← load_at req 1;
  if Z.of_nat (length (msg_data message)) >? n then u_fail BUFFER_SIZE else
  m ← load_at req 3;
  if Z.of_nat (length (msg_caps message)) >? m then u_fail BUFFER_SIZE else
  put req 1 (Z.of_nat (length (msg_data message)));;
  copy_data req 0 (msg_data message);;
  put req 3 (Z.of_nat (length (msg_caps message)));;
  copy_caps req 0 (msg_caps message).

(** An error of [TranslateIpcMessageToResponse] is dropped. *)
Definition write_response_with_reply (req : Z) (message : IpcMessage) : U unit := fun s =>
  '(_, s) ← write_response req message s;
  match reply_cap message with
  | None => Ret (Err INTERNAL, s)
  | Some c => (id ← kern (on_table (AddExistingCapability (Some c))); put req 5 id) s
  end.

Definition receive (req : Z) (o : positive) : U IpcMessage := n ← load_at req 1; m ← load_at req 3; kern (Recv o n m).

Definition h_ChannelCreate (req : Z) : U unit :=
  '(c1, c2) ← kern CreateChannelPair;
  id1 ← kern (AddNew CHANNEL ipc_permissions c1);
  put req 0 id1;;
  id2 ← kern (AddNew CHANNEL ipc_permissions c2);
  put req 1 id2.
Definition h_ChannelSend (req : Z) : U unit := c ← get req 0; r ← send_req req; kern (ChannelSend c r).
Definition h_ChannelRecv (req : Z) : U unit :=
  c ← get req 0; chan ← kern (validated CHANNEL c kZionPerm_Read); msg ← receive req chan; write_response req msg.
Definition h_PortCreate (req : Z) : U unit := id ← kern PortCreate; put req 0 id.
Definition h_PortSend (req : Z) : U unit := c ← get req 0; r ← send_req req; kern (PortSend c r).
Definition h_PortRecv (req : Z) : U unit :=
  c ← get req 0; port ← kern (validated PORT c kZionPerm_Read); msg ← receive req port; write_response req msg.
Definition h_PortPoll (req : Z) : U unit :=
  c ← get req 0;
  port ← kern (validated PORT c kZionPerm_Read);
  pending ← kern (HasMessages port);
  if negb pending then u_fail EMPTY else msg ← receive req port; write_response req msg.

(** The result is written before the registration. *)
Definition h_IrqRegister (req : Z) : U unit :=
  port ← kern Port_new;
  id ← kern (AddNew PORT ipc_permissions port);
  put req 1 id;;
  irq_num ← get req 0;
  kern (RegisterListener irq_num port).
Definition h_EndpointCreate (req : Z) : U unit := id ← kern EndpointCreate; put req 0 id.

(** The result is written before the message is translated. *)
Definition h_EndpointSend (req : Z) : U unit :=
  c ← get req 0;
  endpoint ← kern (validated ENDPOINT c kZionPerm_Write);
  reply_port ← kern ReplyPort_Create;
  id ← kern (AddNew REPLY_PORT kZionPerm_Read reply_port);
  put req 5 id;;
  r ← send_req req;
  message ← kern (TranslateRequestToIpcMessage r);
  kern (Send endpoint (mkMsg (msg_data message) (msg_caps message)
    (Some (mkCap (mkObj REPLY_PORT reply_port) (Z.lor kZionPerm_Write kZionPerm_Transmit))))).
Definition h_EndpointRecv (req : Z) : U unit :=
  c ← get req 0; endpoint ← kern (validated ENDPOINT c kZionPerm_Read); msg ← receive req endpoint; write_response_with_reply req msg.
Definition h_ReplyPortSend (req : Z) : U unit := c ← get req 0; r ← send_req req; kern (ReplyPortSend c r).
Definition h_ReplyPortRecv (req : Z) : U unit :=
  c ← get req 0; port ← kern (validated REPLY_PORT c kZionPerm_Read); msg ← receive req port; write_response req msg.

(** *** zion/syscall/capability.cpp, synchronization.cpp and debug.cpp *)
Definition h_CapDuplicate (req : Z) : U unit :=
  cap_in ← get req 0; perm_mask ← get req 1;
  '(e, id) ← kern (on_table (CapDuplicate cap_in perm_mask));
  kern (RET_ERR e);;
  match id with Some id => put req 2 id | None => mret tt end.
Definition h_CapRelease (req : Z) : U unit := cap ← get req 0; e ← kern (on_table (CapRelease cap)); kern (RET_ERR e).
Definition h_MutexCreate (req : Z) : U unit := id ← kern MutexCreate; put req 0 id.
Definition h_MutexLock (req : Z) : U unit := c ← get req 0; kern (MutexLock c).
Definition h_MutexRelease (req : Z) : U unit := c ← get req 0; kern (MutexRelease c).
Definition h_SemaphoreCreate (req : Z) : U unit := id ← kern SemaphoreCreate; put req 0 id.
Definition h_SemaphoreWait (req : Z) : U unit := c ← get req 0; kern (SemaphoreWait c).
Definition h_SemaphoreSignal (req : Z) : U unit := c ← get req 0; kern (SemaphoreSignal c).

(** The message is copied into a string, which is printed. *)
Definition h_Debug (req : Z) : U unit :=
  message ← get req 0; size ← get req 1;
  load_range message (Z.to_nat size);;
  mret tt.

(** [SyscallHandler]: the switch on the call number. *)
Definition dispatch (call_id req : Z) : U unit :=
  if call_id =? kZionProcessExit then h_ProcessExit req
  else if call_id =? kZionProcessSpawn then h_ProcessSpawn req
  else if call_id =? kZionProcessWait then h_ProcessWait req
  else if call_id =? kZionThreadCreate then h_ThreadCreate req
  else if call_id =? kZionThreadStart then h_ThreadStart req
  else if call_id =? kZionThreadExit then h_ThreadExit req
  else if call_id =? kZionThreadWait then h_ThreadWait req
  else if call_id =? kZionThreadSleep then h_ThreadSleep req
  else if call_id =? kZionAddressSpaceMap then h_AddressSpaceMap req
  else if call_id =? kZionAddressSpaceUnmap then h_AddressSpaceUnmap req
  else if call_id =? kZionMemoryObjectCreate then h_MemoryObjectCreate req
  else if call_id =? kZionMemoryObjectCreatePhysical then h_MemoryObjectCreatePhysical req
  else if call_id =? kZionMemoryObjectCreateContiguous then h_MemoryObjectCreateContiguous req
  else if call_id =? kZionMemoryObjectDuplicate then h_MemoryObjectDuplicate req
  else if call_id =? kZionMemoryObjectInspect then h_MemoryObjectInspect req
  else if call_id =? kZionChannelCreate then h_ChannelCreate req
  else if call_id =? kZionChannelSend then h_ChannelSend req
  else if call_id =? kZionChannelRecv then h_ChannelRecv req
  else if call_id =? kZionPortCreate then h_PortCreate req
  else if call_id =? kZionPortSend then h_PortSend req
  else if call_id =? kZionPortRecv then h_PortRecv req
  else if call_id =? kZionPortPoll then h_PortPoll req
  else if call_id =? kZionIrqRegister then h_IrqRegister req
  else if call_id =? kZionEndpointCreate then h_EndpointCreate req
  else if call_id =? kZionEndpointSend then h_EndpointSend req
  else if call_id =? kZionEndpointRecv then h_EndpointRecv req
  else if call_id =? kZionReplyPortSend then h_ReplyPortSend req
  else if call_id =? kZionReplyPortRecv then h_ReplyPortRecv req
  else if call_id =? kZionCapDuplicate then h_CapDuplicate req
  else if call_id =? kZionCapRelease then h_CapRelease req
  else if call_id =? kZionMutexCreate then h_MutexCreate req
  else if call_id =? kZionMutexLock then h_MutexLock req
  else if call_id =? kZionMutexRelease then h_MutexRelease req
  else if call_id =? kZionSemaphoreCreate then h_SemaphoreCreate req
  else if call_id =? kZionSemaphoreWait then h_SemaphoreWait req
  else if call_id =? kZionSemaphoreSignal then h_SemaphoreSignal req
  else if call_id =? kZionDebug then h_Debug req
  else u_fail UNIMPLEMENTED.

(** The stub of zcall.h: the structure is on the stack at [sp]; then [SysCall1]. *)
Definition stub (sp : Z) (c : zcall) : U unit := write sp (request_bytes c);; dispatch (request c).1 sp.

(** ** What a call does

    The call as Ipc.v and Process.v have it, and what it leaves in the memory
    of the program when it succeeds: addresses with the bytes that are there. *)
Definition cell (p v : Z) : Z * list Z := (p, le_bytes 8 v).

Definition response_cells (num_bytes data num_caps caps : Z) (r : RecvResp) : list (Z * list Z) :=
  [cell num_bytes (Z.of_nat (length (resp_data r))); (data, resp_data r); cell num_caps (Z.of_nat (length (resp_caps r))); (caps, concat (le_bytes 8 <$> resp_caps r))].

Definition recv_limits mem (num_bytes num_caps : Z) : RecvReq :=
  mkRecv (match read_int mem num_bytes 8 with Ret v => v | _ => 0 end) (match read_int mem num_caps 8 with Ret v => v | _ => 0 end).

Definition returns {A} (m : Sys A) (f : A -> list (Z * list Z)) : Sys (list (Z * list Z)) := a ← m; mret (f a).

Definition meaning mem (c : zcall) : Sys (list (Z * list Z)) :=
  match c with
  | SysProcessExit code => returns (ProcessExit code) (fun _ => [])
  | SysProcessSpawn a b p v n =>
      returns (ProcessSpawn hhdm a b) (fun '(x, y, z) => [cell p x; cell v y] ++ match z with Some id => [cell n id] | None => [] end)
  | SysProcessWait a r => returns (ProcessWait a) (fun v => [cell r v])
  | SysThreadCreate a r => returns (ThreadCreate a) (fun v => [cell r v])
  | SysThreadStart t e a1 a2 => returns (ThreadStart t e a1 a2) (fun _ => [])
  | SysThreadExit => returns ThreadExit (fun _ => [])
  | SysThreadWait t => returns (ThreadWait t) (fun _ => [])
  | SysThreadSleep ms => returns (ThreadSleep ms) (fun _ => [])
  | SysAddressSpaceMap v o m al r => returns (AddressSpaceMap v o m al) (fun x => [cell r x])
  | SysAddressSpaceUnmap v lo hi => returns (AddressSpaceUnmap v lo hi) (fun _ => [])
  | SysMemoryObjectCreate s r => returns (MemoryObjectCreate s) (fun v => [cell r v])
  | SysMemoryObjectCreatePhysical p s r => returns (MemoryObjectCreatePhysical p s) (fun v => [cell r v])
  | SysMemoryObjectCreateContiguous s r p => returns (MemoryObjectCreateContiguous s) (fun '(x, y) => [cell r x; cell p y])
  | SysMemoryObjectDuplicate v o l r => returns (MemoryObjectDuplicate v o l) (fun x => [cell r x])
  | SysMemoryObjectInspect v r => returns (MemoryObjectInspect v) (fun x => [cell r x])
  | SysChannelCreate r1 r2 => returns (on_kernel ChannelCreate) (fun '(x, y) => [cell r1 x; cell r2 y])
  | SysChannelSend c n d m l => returns (on_kernel (ChannelSend c (send_buffers mem n d m l))) (fun _ => [])
  | SysChannelRecv c n d m l => returns (on_kernel (ChannelRecv c (recv_limits mem n m))) (response_cells n d m l)
  | SysPortCreate r => returns (on_kernel PortCreate) (fun v => [cell r v])
  | SysPortSend c n d m l => returns (on_kernel (PortSend c (send_buffers mem n d m l))) (fun _ => [])
  | SysPortRecv c n d m l => returns (on_kernel (PortRecv c (recv_limits mem n m))) (response_cells n d m l)
  | SysPortPoll c n d m l => returns (on_kernel (PortPoll c (recv_limits mem n m))) (response_cells n d m l)
  | SysIrqRegister i r => returns (on_kernel (IrqRegister i)) (fun v => [cell r v])
  | SysEndpointCreate r => returns (on_kernel EndpointCreate) (fun v => [cell r v])
  | SysEndpointSend c n d m l r => returns (on_kernel (EndpointSend c (send_buffers mem n d m l))) (fun v => [cell r v])
  | SysEndpointRecv c n d m l r => returns (on_kernel (EndpointRecv c (recv_limits mem n m)))
      (fun '(x, v) => match x with Some x => response_cells n d m l x | None => [] end ++ [cell r v])
  | SysReplyPortSend c n d m l => returns (on_kernel (ReplyPortSend c (send_buffers mem n d m l))) (fun _ => [])
  | SysReplyPortRecv c n d m l => returns (on_kernel (ReplyPortRecv c (recv_limits mem n m))) (response_cells n d m l)
  | SysCapDuplicate c p r => '(e, id) ← on_kernel (on_table (CapDuplicate c p)); on_kernel (RET_ERR e);; mret (match id with Some id => [cell r id] | None => [] end)
  | SysCapRelease c => e ← on_kernel (on_table (CapRelease c)); on_kernel (RET_ERR e);; mret []
  | SysMutexCreate r => returns (on_kernel MutexCreate) (fun v => [cell r v])
  | SysMutexLock c => returns (on_kernel (MutexLock c)) (fun _ => [])
  | SysMutexRelease c => returns (on_kernel (MutexRelease c)) (fun _ => [])
  | SysSemaphoreCreate r => returns (on_kernel SemaphoreCreate) (fun v => [cell r v])
  | SysSemaphoreWait c => returns (on_kernel (SemaphoreWait c)) (fun _ => [])
  | SysSemaphoreSignal c => returns (on_kernel (SemaphoreSignal c)) (fun _ => [])
  | SysDebug message size => returns (sys_lift (read_bytes mem message (Z.to_nat size))) (fun _ => [])
  end.
End kernel_side.

(** ** Areas of memory *)

(** An area is an address and a length. *)
Definition inside (x : Z) (a : Z * Z) : Prop := a.1 <= x < a.1 + a.2.
Definition apart (a b : Z * Z) : Prop := forall x, inside x a -> inside x b -> False.
Definition within (a b : Z * Z) : Prop := forall x, inside x a -> inside x b.

(** Outside of [areas] nothing changed, and what was mapped still is. *)
Record unchanged (areas : list (Z * Z)) mem mem' : Prop := {
  uc_same x : (forall a, a ∈ areas -> ~ inside x a) -> mem' x = mem x;
  uc_mapped x : is_Some (mem x) -> is_Some (mem' x);
}.

Lemma unchanged_refl areas mem : unchanged areas mem mem.
Proof. done. Qed.

Lemma unchanged_trans areas mem1 mem2 mem3 : unchanged areas mem1 mem2 -> unchanged areas mem2 mem3 -> unchanged areas mem1 mem3.
Proof. intros [H1 H1'] [H2 H2']. split; [intros x Hx; by rewrite H2, H1|eauto]. Qed.

Lemma unchanged_weaken areas areas' mem mem' : unchanged areas mem mem' -> (forall a, a ∈ areas -> exists b, b ∈ areas' /\ within a b) -> unchanged areas' mem mem'.
Proof. intros [H1 H2] Hs. split; [|done]. intros x Hx. apply H1. intros a Ha Hin. destruct (Hs a Ha) as (b & Hb & Hw). apply (Hx b Hb), Hw, Hin. Qed.

Definition area_of (p : Z) (bs : list Z) : Z * Z := (p, Z.of_nat (length bs)).

Lemma store_eq p bs mem x : store p bs mem x = if decide (inside x (area_of p bs)) then bs !! Z.to_nat (x - p) else mem x.
Proof.
  unfold store, inside, area_of. cbn. destruct (decide _) as [H|H].
  - rewrite (proj2 (Z.leb_le _ _)), (proj2 (Z.ltb_lt _ _)) by lia. done.
  - destruct (Z.leb_spec p x), (Z.ltb_spec x (p + Z.of_nat (length bs))); try done. lia.
Qed.

Lemma store_holds p bs mem : holds (store p bs mem) p bs.
Proof.
  intros i b Hi. rewrite store_eq. apply lookup_lt_Some in Hi as Hlt. rewrite decide_True by (unfold inside, area_of; cbn; lia).
  by replace (Z.to_nat (p + Z.of_nat i - p)) with i by lia.
Qed.

Lemma store_unchanged p bs mem : unchanged [area_of p bs] mem (store p bs mem).
Proof.
  split; intros x; rewrite store_eq; destruct (decide _) as [Hin|Hin].
  - intros H. by destruct (H _ (list_elem_of_here _ _)).
  - done.
  - intros _. apply lookup_lt_is_Some. unfold inside, area_of in Hin. cbn in Hin. lia.
  - done.
Qed.

Lemma holds_unchanged areas mem mem' p bs : unchanged areas mem mem' -> (forall a, a ∈ areas -> apart a (area_of p bs)) -> holds mem p bs -> holds mem' p bs.
Proof.
  intros [Hs _] Ha Hh i b Hi. rewrite Hs; [by apply Hh|]. intros a Hin Hx. apply (Ha a Hin _ Hx). apply lookup_lt_Some in Hi. unfold inside, area_of. cbn. lia.
Qed.

Lemma is_mapped_true mem a n : (forall x, inside x (a, Z.of_nat n) -> is_Some (mem x)) -> is_mapped mem a n = true.
Proof. intros H. apply forallb_forall. intros i Hi. apply in_seq in Hi. apply bool_decide_eq_true. apply H. unfold inside. cbn. lia. Qed.

(** ** The request and the areas of the results, while the handler runs *)
Record env mem (sp : Z) (args : list Z) (outs : list (Z * Z)) : Prop := {
  en_fields : holds mem sp (concat (le_bytes 8 <$> args));
  en_args : Forall is_u64 args;
  en_mapped a x : a ∈ outs -> inside x a -> is_Some (mem x);
  en_apart a : a ∈ outs -> apart a (sp, 8 * Z.of_nat (length args));
}.

Lemma length_fields args : length (concat (le_bytes 8 <$> args)) = (8 * length args)%nat.
Proof. induction args as [|v args IH]; [done|]. rewrite fmap_cons. cbn [concat]. rewrite length_app, IH, length_le_bytes. cbn [length]. lia. Qed.

Lemma env_unchanged mem mem' sp args outs areas :
  env mem sp args outs -> unchanged areas mem mem' -> (forall a, a ∈ areas -> exists b, b ∈ outs /\ within a b) -> env mem' sp args outs.
Proof.
  intros [Hf Hu Hm Ha] Hun Hin. split; [|done| |done].
  - eapply holds_unchanged; [done| |done]. intros a Hel. destruct (Hin a Hel) as (b & Hb & Hw). intros x Hx Hx2. apply (Ha b Hb x); [by apply Hw|].
    unfold area_of in Hx2. rewrite length_fields in Hx2. unfold inside in *. cbn in *. lia.
  - intros a x Hel Hx. eapply uc_mapped; [done|]. by apply (Hm a).
Qed.

Lemma holds_args mem sp args i v : holds mem sp (concat (le_bytes 8 <$> args)) -> args !! i = Some v -> holds mem (sp + 8 * Z.of_nat i) (le_bytes 8 v).
Proof.
  revert sp i. induction args as [|w args IH]; intros sp [|i] Hh Hi; try done; rewrite fmap_cons in Hh; cbn [concat] in Hh; apply holds_app in Hh as [H1 H2].
  - injection Hi as ->. by rewrite Z.mul_0_r, Z.add_0_r.
  - rewrite length_le_bytes in H2. specialize (IH _ _ H2 Hi). by replace (sp + 8 * Z.of_nat (S i)) with (sp + Z.of_nat 8 + 8 * Z.of_nat i) by lia.
Qed.

Section steps.
Context {B : Type}.
Implicit Types y : system.

Lemma u_sys {A} (m : Sys A) (f : A -> U B) mem y a y' : m y = Ret (Val a, y') -> (sys m ≫= f) (mem, y) = f a (mem, y').
Proof. intros Hm. unfold mbind, U_bind, sys. cbn. by rewrite Hm. Qed.

Lemma u_load (f : Z -> U B) mem y p v : holds mem p (le_bytes 8 v) -> is_u64 v -> (load p ≫= f) (mem, y) = f v (mem, y).
Proof. intros Hh Hv. unfold mbind, U_bind, load. cbn [fst snd]. rewrite (read_le _ _ _ _ Hh). cbn [mbind res_bind]. by rewrite Z.mod_small by exact Hv. Qed.

Lemma u_get (f : Z -> U B) mem sp args outs y i v : env mem sp args outs -> args !! Z.to_nat i = Some v -> 0 <= i -> (get sp i ≫= f) (mem, y) = f v (mem, y).
Proof.
  intros [Hf Hu _ _] Hi H0. apply u_load; [|by eapply Forall_lookup_1]. rewrite <- (Z2Nat.id i) by done. by eapply holds_args.
Qed.

Lemma u_write (f : unit -> U B) mem y p bs : (forall x, inside x (area_of p bs) -> is_Some (mem x)) -> (write p bs ≫= f) (mem, y) = f tt (store p bs mem, y).
Proof. intros Hm. unfold mbind, U_bind, write, write_bytes. cbn [fst snd]. by rewrite is_mapped_true. Qed.
End steps.

Lemma u_bind_assoc {A B C} (m : U A) (f : A -> U B) (g : B -> U C) s : ((m ≫= f) ≫= g) s = (m ≫= (fun a => f a ≫= g)) s.
Proof. unfold mbind, U_bind. destruct (m s) as [[[] ?]| | |]; done. Qed.

Lemma u_bind_ret (m : U unit) s : (m ≫= (fun _ => mret tt)) s = m s.
Proof. unfold mbind, U_bind, mret, U_ret. destruct (m s) as [[[[]| |] ?]| | |]; done. Qed.

Lemma u_put {B} (f : unit -> U B) mem sp args outs y i v p :
  env mem sp args outs -> args !! Z.to_nat i = Some p -> 0 <= i -> (p, 8) ∈ outs -> (put sp i v ≫= f) (mem, y) = f tt (store p (le_bytes 8 v) mem, y).
Proof.
  intros He Hi H0 Hp. unfold put. rewrite u_bind_assoc. erewrite u_get by done. apply u_write. intros x Hx. by apply (en_mapped _ _ _ _ He (p, 8)).
Qed.

Lemma u_put_last mem sp args outs y i v p :
  env mem sp args outs -> args !! Z.to_nat i = Some p -> 0 <= i -> (p, 8) ∈ outs -> put sp i v (mem, y) = Ret (Val tt, (store p (le_bytes 8 v) mem, y)).
Proof. intros. rewrite <- u_bind_ret. by erewrite u_put. Qed.

Lemma within_cell (areas : list (Z * Z)) p v : (p, 8) ∈ areas -> forall a, a ∈ [area_of p (le_bytes 8 v)] -> exists b, b ∈ areas /\ within a b.
Proof. intros Hp a ->%list_elem_of_singleton. exists (p, 8). split; [done|]. by intros x Hx. Qed.

(** Storing a result keeps the request and the areas. *)
Lemma env_put mem sp args outs p v : env mem sp args outs -> (p, 8) ∈ outs -> env (store p (le_bytes 8 v) mem) sp args outs.
Proof. intros He Hp. eapply env_unchanged; [done|apply store_unchanged|by apply within_cell]. Qed.

Lemma put_unchanged (areas : list (Z * Z)) mem p v : (p, 8) ∈ areas -> unchanged areas mem (store p (le_bytes 8 v) mem).
Proof. intros Hp. eapply unchanged_weaken; [apply store_unchanged|by apply within_cell]. Qed.

(** A cell that was written earlier. *)
Lemma put_holds mem p v q bs : apart (p, 8) (area_of q bs) -> holds mem q bs -> holds (store p (le_bytes 8 v) mem) q bs.
Proof. intros Ha. eapply holds_unchanged; [apply store_unchanged|]. by intros a ->%list_elem_of_singleton. Qed.

(** ** Refinement: the handler ends as the call does, and the results are in memory *)
Definition ending (o : outcome (list (Z * list Z))) : outcome unit := match o with Val _ => Val tt | Err e => Err e | Blocked => Blocked end.
Definition results (mem : memory) (o : outcome (list (Z * list Z))) : Prop := match o with Val ws => Forall (fun w => holds mem w.1 w.2) ws | _ => True end.

Definition refines (areas : list (Z * Z)) mem (m : res (outcome (list (Z * list Z)) * system)) (r : res (outcome unit * machine_state)) : Prop :=
  match m with
  | Ret (o, y') => exists mem', r = Ret (ending o, (mem', y')) /\ unchanged areas mem mem' /\ results mem' o
  | Panic => r = Panic
  | Fault => r = Fault
  | NoFuel => r = NoFuel
  end.

(** A step that the call and the handler share; the memory of the program may have changed before it. *)
Lemma refines_sys {A} areas mem0 mem y (m : Sys A) k (k' : A -> U unit) :
  unchanged areas mem0 mem -> (forall a y', m y = Ret (Val a, y') -> refines areas mem0 (k a y') (k' a (mem, y'))) ->
  refines areas mem0 ((m ≫= k) y) ((sys m ≫= k') (mem, y)).
Proof.
  intros Hu Hk. unfold mbind, Sys_bind, U_bind, sys. cbn [fst snd]. destruct (m y) as [[[a|e|] y']| | |] eqn:Em; cbn; try done.
  - by apply Hk.
  - by exists mem.
  - by exists mem.
Qed.

Lemma returns_bind {A B} (m : Sys A) (k : A -> Sys B) f y : returns (m ≫= k) f y = (m ≫= (fun a => returns (k a) f)) y.
Proof. unfold returns, mbind, Sys_bind. destruct (m y) as [[[] ?]| | |]; done. Qed.

Lemma refines_none {A} areas mem y (m : Sys A) : refines areas mem (returns m (fun _ => []) y) ((_ ← sys m; mret tt) (mem, y)).
Proof. apply refines_sys; [done|]. intros a y' _. exists mem. split; [done|]. split; [done|]. by apply Forall_nil. Qed.

Lemma refines_unit areas mem y (m : Sys unit) : refines areas mem (returns m (fun _ => []) y) (sys m (mem, y)).
Proof. rewrite <- u_bind_ret. apply refines_none. Qed.

Lemma refines_one areas mem y (m : Sys Z) sp args i p :
  env mem sp args areas -> args !! Z.to_nat i = Some p -> 0 <= i -> (p, 8) ∈ areas ->
  refines areas mem (returns m (fun v => [cell p v]) y) ((v ← sys m; put sp i v) (mem, y)).
Proof.
  intros He Hi H0 Hp. apply refines_sys; [done|]. intros v y' _. eexists. split; [by eapply u_put_last|]. split; [by apply put_unchanged|].
  apply Forall_singleton. apply store_holds.
Qed.

Lemma refines_two areas mem y (m : Sys (Z * Z)) sp args i j p q :
  env mem sp args areas -> args !! Z.to_nat i = Some p -> 0 <= i -> (p, 8) ∈ areas -> args !! Z.to_nat j = Some q -> 0 <= j -> (q, 8) ∈ areas -> apart (q, 8) (p, 8) ->
  refines areas mem (returns m (fun '(v, w) => [cell p v; cell q w]) y) (('(v, w) ← sys m; put sp i v;; put sp j w) (mem, y)).
Proof.
  intros He Hi H0 Hp Hj H0' Hq Ha. apply refines_sys; [done|]. intros [v w] y' _. eexists. split; [erewrite u_put by done; eapply u_put_last; [by apply env_put|done..]|].
  split; [eapply unchanged_trans; by apply put_unchanged|]. apply Forall_cons. split; [|apply Forall_singleton; apply store_holds]. apply put_holds; [done|apply store_holds].
Qed.

(** ** Receiving *)
Lemma on_kernel_bind {A B} (m : K A) (k : A -> K B) y : on_kernel (m ≫= k) y = (on_kernel m ≫= (fun a => on_kernel (k a))) y.
Proof. unfold on_kernel, mbind, Sys_bind, K_bind. by destruct (m (ker y)) as [[[] ?]| | |]. Qed.

Lemma u_step {A B} (m : U A) (f : A -> U B) s a s' : m s = Ret (Val a, s') -> (m ≫= f) s = f a s'.
Proof. intros Hm. unfold mbind, U_bind. by rewrite Hm. Qed.

Lemma u_sys_eq {A B} (m : Sys A) (f : A -> U B) mem y :
  (sys m ≫= f) (mem, y) = '(o, y1) ← m y; match o with Val a => f a (mem, y1) | Err e => Ret (Err e, (mem, y1)) | Blocked => Ret (Blocked, (mem, y1)) end.
Proof. unfold mbind at 1, U_bind, sys. cbn [fst snd]. by destruct (m y) as [[[] ?]| | |]. Qed.

Lemma sys_bind_eq {A B} (m : Sys A) (f : A -> Sys B) y :
  (m ≫= f) y = '(o, y1) ← m y; match o with Val a => f a y1 | Err e => Ret (Err e, y1) | Blocked => Ret (Blocked, y1) end.
Proof. done. Qed.

Lemma u_load_at {B} (f : Z -> U B) mem sp args outs y i p v :
  env mem sp args outs -> args !! Z.to_nat i = Some p -> 0 <= i -> read_int mem p 8 = Ret v -> (load_at sp i ≫= f) (mem, y) = f v (mem, y).
Proof.
  intros He Hi H0 Hr. unfold load_at. rewrite u_bind_assoc. erewrite u_get by done. unfold mbind, U_bind, load. cbn [fst snd]. by rewrite Hr.
Qed.

Lemma apart_sym a b : apart a b -> apart b a.
Proof. intros H x H1 H2. by apply (H x). Qed.

Lemma apart_within a b c : within a b -> apart b c -> apart a c.
Proof. intros Hw Ha x Hx. apply Ha. by apply Hw. Qed.

Lemma within_part p n q m : p <= q -> q + m <= p + n -> within (q, m) (p, n).
Proof. intros H1 H2 x [Hx1 Hx2]. unfold inside. cbn in *. lia. Qed.

(** Appending a block to what is there already. *)
Lemma holds_step mem mem' p bs bs' : holds mem p bs -> unchanged [area_of (p + Z.of_nat (length bs)) bs'] mem mem' -> holds mem' (p + Z.of_nat (length bs)) bs' -> holds mem' p (bs ++ bs').
Proof.
  intros H1 Hu H2. apply holds_app. split; [|done]. eapply holds_unchanged; [done| |done]. intros a ->%list_elem_of_singleton x [Hx1 Hx2] [Hx3 Hx4]. unfold area_of in *. cbn in *. lia.
Qed.

Lemma copy_data_spec data : forall mem sp args outs y i d n,
  env mem sp args outs -> args !! 2%nat = Some d -> (d, n) ∈ outs -> 0 <= i -> i + Z.of_nat (length data) <= n ->
  exists mem', copy_data sp i data (mem, y) = Ret (Val tt, (mem', y)) /\ unchanged [area_of (d + i) data] mem mem' /\ holds mem' (d + i) data.
Proof.
  induction data as [|b data IH]; intros mem sp args outs y i d n He Hd Hin Hi Hlen; cbn [copy_data length] in *; [exists mem; split; [done|]; split; [done|by intros [] ?]|].
  erewrite u_get by (done || lia). rewrite u_write; [|intros x [Hx1 Hx2]; apply (en_mapped _ _ _ _ He (d, n)); [done|unfold inside; cbn in *; lia]].
  set (mem1 := store (d + i) [b] mem). pose proof (store_unchanged (d + i) [b] mem) as Hu1. fold mem1 in Hu1.
  assert (env mem1 sp args outs) as He1.
  { eapply env_unchanged; [done..|]. intros a ->%list_elem_of_singleton. exists (d, n). split; [done|]. apply within_part; cbn; lia. }
  destruct (IH mem1 sp args outs y (i + 1) d n He1 Hd Hin) as (mem' & -> & Hu2 & Hh); [lia|lia|]. exists mem'. split; [done|]. rewrite Z.add_assoc in *. split.
  - eapply unchanged_trans; (eapply unchanged_weaken; [done|]); intros a ->%list_elem_of_singleton; eexists; (split; [by apply list_elem_of_singleton|]); apply within_part; cbn; lia.
  - apply (holds_step mem1 mem' (d + i) [b] data); [apply store_holds|done|done].
Qed.

Lemma on_table_cases {A} (f : CapabilityTable -> res (A * CapabilityTable)) k :
  match on_table f k with Ret (o, _) => exists a, o = Val a | _ => True end.
Proof. unfold on_table. destruct (tables k !! _) as [t|]; [|done]. cbn. destruct (f t) as [[a t']| | |]; cbn; eauto. Qed.

(** The loop over the capabilities: the kernel's part is [receive_caps]. *)
Lemma copy_caps_spec cs : forall mem sp args outs y i m l lim n,
  env mem sp args outs -> args !! 3%nat = Some m -> args !! 4%nat = Some l -> (l, 8 * lim) ∈ outs -> apart (l, 8 * lim) (m, 8) ->
  holds mem m (le_bytes 8 n) -> is_u64 n -> 0 <= i -> n = i + Z.of_nat (length cs) -> n <= lim ->
  match on_kernel (receive_caps cs) y with
  | Ret (Val ids, y') => length ids = length cs /\ exists mem', copy_caps sp i cs (mem, y) = Ret (Val tt, (mem', y')) /\
      unchanged [(l + 8 * i, 8 * Z.of_nat (length cs))] mem mem' /\ holds mem' (l + 8 * i) (concat (le_bytes 8 <$> ids))
  | Ret (_, _) => False
  | Panic => copy_caps sp i cs (mem, y) = Panic | Fault => copy_caps sp i cs (mem, y) = Fault | NoFuel => copy_caps sp i cs (mem, y) = NoFuel
  end.
Proof.
  induction cs as [|c cs IH]; intros mem sp args outs y i m l lim n He Hm Hl Hin Ha Hh Hn Hi Hlen Hle; cbn [copy_caps receive_caps length] in *.
  - erewrite (u_load_at _ _ _ _ _ _ 3) by (done || lia || (rewrite (read_le _ _ _ _ Hh), Z.mod_small by exact Hn; done)).
    cbn. split; [done|]. exists mem. rewrite (proj2 (Z.leb_le n i)) by lia. destruct y. split; [done|]. split; [done|by intros [] ?].
  - erewrite (u_load_at _ _ _ _ _ _ 3) by (done || lia || (rewrite (read_le _ _ _ _ Hh), Z.mod_small by exact Hn; done)). rewrite (proj2 (Z.leb_gt n i)) by lia.
    rewrite on_kernel_bind, sys_bind_eq. unfold kern. rewrite u_sys_eq.
    assert (match on_kernel (on_table (AddExistingCapability c)) y with Ret (o, _) => exists a, o = Val a | _ => True end) as Hv.
    { unfold on_kernel. pose proof (on_table_cases (AddExistingCapability c) (ker y)) as Hv. by destruct (on_table _ _) as [[]| | |]. }
    destruct (on_kernel (on_table (AddExistingCapability c)) y) as [[o y1]| | |]; try done. destruct Hv as [id ->]. cbn [mbind res_bind].
    erewrite u_get by (done || lia). rewrite u_write.
    2: { intros x [Hx1 Hx2]. apply (en_mapped _ _ _ _ He (l, 8 * lim)); [done|]. unfold area_of, inside in *. cbn in *. lia. }
    set (mem1 := store (l + 8 * i) (le_bytes 8 id) mem). pose proof (store_unchanged (l + 8 * i) (le_bytes 8 id) mem) as Hu1. fold mem1 in Hu1.
    assert (within (area_of (l + 8 * i) (le_bytes 8 id)) (l, 8 * lim)) as Hw by (apply within_part; cbn; lia).
    assert (env mem1 sp args outs) as He1 by (eapply env_unchanged; [done..|]; intros a ->%list_elem_of_singleton; by exists (l, 8 * lim)).
    assert (holds mem1 m (le_bytes 8 n)) as Hh1 by (eapply holds_unchanged; [done| |done]; intros a ->%list_elem_of_singleton; by eapply apart_within).
    specialize (IH mem1 sp args outs y1 (i + 1) m l lim n He1 Hm Hl Hin Ha Hh1 Hn ltac:(lia) ltac:(lia) Hle). rewrite on_kernel_bind, sys_bind_eq.
    destruct (on_kernel (receive_caps cs) y1) as [[[ids| |] y2]| | |]; try done. destruct IH as (Hlids & mem' & HC & Hu2 & Hh2). cbn [mbind res_bind].
    split; [cbn; lia|]. exists mem'. split; [by destruct y2|]. replace (l + 8 * (i + 1)) with (l + 8 * i + 8) in * by lia. split.
    + eapply unchanged_trans; (eapply unchanged_weaken; [done|]); intros a ->%list_elem_of_singleton; eexists; (split; [by apply list_elem_of_singleton|]); apply within_part; cbn; lia.
    + rewrite fmap_cons. cbn [concat]. apply (holds_step mem1 mem' (l + 8 * i) (le_bytes 8 id)); [apply store_holds| |done].
      eapply unchanged_weaken; [done|]. intros a ->%list_elem_of_singleton. eexists. split; [by apply list_elem_of_singleton|]. unfold area_of. rewrite length_fields, Hlids. apply within_part; cbn; lia.
Qed.

(** The four areas of a receive request: two cells that hold the limits and then the counts, and the two buffers. *)
Definition recv_areas (n d m l : Z) (lim : RecvReq) : list (Z * Z) := [(n, 8); (d, max_bytes lim); (m, 8); (l, 8 * max_caps lim)].

Definition pairwise_apart (areas : list (Z * Z)) : Prop := forall i j a b, areas !! i = Some a -> areas !! j = Some b -> i <> j -> apart a b.

Record recv_env mem (sp : Z) (args : list Z) (outs : list (Z * Z)) (n d m l : Z) (lim : RecvReq) : Prop := {
  re_env : env mem sp args outs;
  re_args : args !! 1%nat = Some n /\ args !! 2%nat = Some d /\ args !! 3%nat = Some m /\ args !! 4%nat = Some l;
  re_limits : read_int mem n 8 = Ret (max_bytes lim) /\ read_int mem m 8 = Ret (max_caps lim) /\ is_u64 (max_caps lim);
  re_in a : a ∈ recv_areas n d m l lim -> a ∈ outs;
  re_apart : pairwise_apart (recv_areas n d m l lim);
}.

(** The last step of the translation. *)
Lemma returns_kernel {A} (m : K (list Z)) (f : list Z -> A) (g : A -> list (Z * list Z)) y :
  returns (on_kernel (ids ← m; mret (f ids))) g y = '(o, y') ← on_kernel m y; Ret (match o with Val ids => Val (g (f ids)) | Err e => Err e | Blocked => Blocked end, y').
Proof. unfold returns, on_kernel, mbind, Sys_bind, K_bind. by destruct (m (ker y)) as [[[] ?]| | |]. Qed.

Lemma write_response_spec mem sp args outs n d m l lim msg y :
  recv_env mem sp args outs n d m l lim ->
  refines (recv_areas n d m l lim) mem (returns (on_kernel (TranslateIpcMessageToResponse msg lim)) (response_cells n d m l) y) (write_response sp msg (mem, y)).
Proof.
  intros [He (Hn & Hd & Hm & Hl) (Hln & Hlm & Hu) Hin Hap]. unfold TranslateIpcMessageToResponse, write_response.
  erewrite (u_load_at _ _ _ _ _ _ 1) by (done || lia). rewrite Z.gtb_ltb. destruct (Z.ltb_spec (max_bytes lim) (Z.of_nat (length (msg_data msg)))).
  { cbn. exists mem. by destruct y. }
  erewrite (u_load_at _ _ _ _ _ _ 3) by (done || lia). rewrite Z.gtb_ltb. destruct (Z.ltb_spec (max_caps lim) (Z.of_nat (length (msg_caps msg)))).
  { cbn. exists mem. by destruct y. }
  assert (forall i a, recv_areas n d m l lim !! i = Some a -> a ∈ outs) as Hel by (intros i a Hi; by eapply Hin, list_elem_of_lookup_2).
  erewrite u_put by (done || lia || by apply (Hel 0%nat)). set (mem1 := store n _ mem). assert (env mem1 sp args outs) as He1 by (apply env_put; [done|by apply (Hel 0%nat)]).
  destruct (copy_data_spec (msg_data msg) mem1 sp args outs y 0 d (max_bytes lim) He1 Hd (Hel 1%nat _ eq_refl)) as (mem2 & HC & Hu2 & Hh2); [lia|lia|].
  rewrite Z.add_0_r in Hu2, Hh2. rewrite (u_step _ _ _ _ _ HC).
  assert (forall a, a ∈ [area_of d (msg_data msg)] -> exists b, b ∈ outs /\ within a b) as Hw2.
  { intros a ->%list_elem_of_singleton. exists (d, max_bytes lim). split; [by apply (Hel 1%nat)|]. apply within_part; lia. }
  assert (env mem2 sp args outs) as He2 by (by eapply env_unchanged).
  erewrite u_put by (done || lia || by apply (Hel 2%nat)). set (mem3 := store m _ mem2). assert (env mem3 sp args outs) as He3 by (apply env_put; [done|by apply (Hel 2%nat)]).
  pose proof (copy_caps_spec (msg_caps msg) mem3 sp args outs y 0 m l (max_caps lim) (Z.of_nat (length (msg_caps msg))) He3 Hm Hl (Hel 3%nat _ eq_refl)) as Hcaps.
  assert (apart (l, 8 * max_caps lim) (m, 8)) as Hlm' by (by apply (Hap 3%nat 2%nat)).
  specialize (Hcaps Hlm' (store_holds _ _ _) ltac:(unfold is_u64 in *; lia) ltac:(lia) ltac:(lia) ltac:(lia)).
  rewrite returns_kernel. destruct (on_kernel (receive_caps (msg_caps msg)) y) as [[[ids| |] y']| | |]; try done. destruct Hcaps as (Hlen & mem4 & -> & Hu4 & Hh4).
  rewrite Z.mul_0_r, Z.add_0_r in Hu4, Hh4. cbn [refines]. exists mem4. split; [done|].
  assert (within (area_of d (msg_data msg)) (d, max_bytes lim)) as HA by (apply within_part; lia).
  assert (within (l, 8 * Z.of_nat (length (msg_caps msg))) (l, 8 * max_caps lim)) as HB by (apply within_part; lia).
  assert (forall p bs, apart (d, max_bytes lim) (area_of p bs) -> holds mem1 p bs -> holds mem2 p bs) as K2.
  { intros p bs Ha. eapply holds_unchanged; [exact Hu2|]. intros a ->%list_elem_of_singleton. by eapply apart_within. }
  assert (forall p bs, apart (l, 8 * max_caps lim) (area_of p bs) -> holds mem3 p bs -> holds mem4 p bs) as K4.
  { intros p bs Ha. eapply holds_unchanged; [exact Hu4|]. intros a ->%list_elem_of_singleton. by eapply apart_within. }
  assert (forall i a, recv_areas n d m l lim !! i = Some a -> a ∈ recv_areas n d m l lim) as Hr by (intros i a Hi; by eapply list_elem_of_lookup_2).
  split.
  - eapply unchanged_trans; [apply put_unchanged; by apply (Hr 0%nat)|]. eapply unchanged_trans; [eapply unchanged_weaken; [exact Hu2|]; intros a ->%list_elem_of_singleton; exists (d, max_bytes lim); split; [by apply (Hr 1%nat)|done]|].
    eapply unchanged_trans; [apply put_unchanged; by apply (Hr 2%nat)|]. eapply unchanged_weaken; [exact Hu4|]. intros a ->%list_elem_of_singleton. exists (l, 8 * max_caps lim). split; [by apply (Hr 3%nat)|done].
  - cbn [results]. unfold response_cells. cbn [resp_data resp_caps]. rewrite Hlen. repeat (apply Forall_cons; split); [..|by apply Forall_nil]; cbn [cell fst snd].
    + apply K4; [by apply (Hap 3%nat 0%nat)|]. apply put_holds; [by apply (Hap 2%nat 0%nat)|]. apply K2; [by apply (Hap 1%nat 0%nat)|]. apply store_holds.
    + assert (forall a, apart a (d, max_bytes lim) -> apart a (area_of d (msg_data msg))) as HA' by (intros a Ha; apply apart_sym; eapply apart_within; [exact HA|by apply apart_sym]).
      apply K4; [apply HA'; by apply (Hap 3%nat 1%nat)|]. apply put_holds; [apply HA'; by apply (Hap 2%nat 1%nat)|done].
    + apply K4; [by apply (Hap 3%nat 2%nat)|]. apply store_holds.
    + done.
Qed.

(** The kernel's part of a chain, one step at a time. *)
Lemma refines_kern {A B} areas mem0 mem y (m : K A) (k : A -> K B) f (k' : A -> U unit) :
  unchanged areas mem0 mem -> (forall a y', refines areas mem0 (returns (on_kernel (k a)) f y') (k' a (mem, y'))) ->
  refines areas mem0 (returns (on_kernel (m ≫= k)) f y) ((kern m ≫= k') (mem, y)).
Proof.
  intros Hu Hk. assert (returns (on_kernel (m ≫= k)) f y = (on_kernel m ≫= (fun a => returns (on_kernel (k a)) f)) y) as ->.
  { unfold returns. rewrite (sys_bind_eq (on_kernel (m ≫= k))), on_kernel_bind. unfold mbind, Sys_bind. by destruct (on_kernel m y) as [[[] ?]| | |]. }
  apply refines_sys; [done|]. intros a y' _. apply Hk.
Qed.

Lemma receive_refines mem sp args outs n d m l lim o y :
  recv_env mem sp args outs n d m l lim ->
  refines (recv_areas n d m l lim) mem (returns (on_kernel (recv_and_translate o lim)) (response_cells n d m l) y) ((msg ← receive sp o; write_response sp msg) (mem, y)).
Proof.
  intros Hr. pose proof Hr as [He (Hn & Hd & Hm & Hl) (Hln & Hlm & Hu) Hin Hap]. unfold recv_and_translate, receive. rewrite u_bind_assoc.
  erewrite (u_load_at _ _ _ _ _ _ 1) by (done || lia). rewrite u_bind_assoc. erewrite (u_load_at _ _ _ _ _ _ 3) by (done || lia).
  apply refines_kern; [done|]. intros msg y'. by eapply write_response_spec.
Qed.

Lemma receive_caps_length cs : forall k ids k', receive_caps cs k = Ret (Val ids, k') -> length ids = length cs.
Proof.
  induction cs as [|c cs IH]; intros k ids k'; cbn [receive_caps]; [by intros [= <- <-]|]. unfold mbind at 1, K_bind.
  destruct (on_table (AddExistingCapability c) k) as [[[id| |] k1]| | |]; try done. cbn [mbind res_bind]. unfold mbind, K_bind.
  destruct (receive_caps cs k1) as [[[ids1| |] k2]| | |] eqn:E; try done. cbn. intros [= <- <-]. cbn. by rewrite (IH _ _ _ E).
Qed.

Lemma translated_cells msg lim k x k' n d m l w :
  TranslateIpcMessageToResponse msg lim k = Ret (Val x, k') -> w ∈ response_cells n d m l x -> exists a, a ∈ recv_areas n d m l lim /\ within (area_of w.1 w.2) a.
Proof.
  unfold TranslateIpcMessageToResponse. rewrite !Z.gtb_ltb. destruct (Z.ltb_spec (max_bytes lim) (Z.of_nat (length (msg_data msg)))); [done|].
  destruct (Z.ltb_spec (max_caps lim) (Z.of_nat (length (msg_caps msg)))); [done|]. unfold mbind, K_bind. destruct (receive_caps (msg_caps msg) k) as [[[ids| |] k1]| | |] eqn:E; try done.
  intros [= <- <-]. apply receive_caps_length in E. unfold response_cells, recv_areas. cbn [resp_data resp_caps]. rewrite !elem_of_cons. intros [->|[->|[->|[->|[]%elem_of_nil]]]].
  - exists (n, 8). split; [set_solver|]. by intros y Hy.
  - exists (d, max_bytes lim). split; [set_solver|]. apply within_part; cbn; lia.
  - exists (m, 8). split; [set_solver|]. by intros y Hy.
  - exists (l, 8 * max_caps lim). split; [set_solver|]. apply within_part; cbn [fst snd]; rewrite ?length_fields; lia.
Qed.

Lemma recv_reply_refines mem sp args outs n d m l r lim o y :
  recv_env mem sp args outs n d m l lim -> args !! 5%nat = Some r -> outs = recv_areas n d m l lim ++ [(r, 8)] -> pairwise_apart outs ->
  refines outs mem (returns (on_kernel (recv_with_reply o lim)) (fun '(x, v) => match x with Some x => response_cells n d m l x | None => [] end ++ [cell r v]) y)
    ((msg ← receive sp o; write_response_with_reply sp msg) (mem, y)).
Proof.
  intros Hr H5 Houts Hap. pose proof Hr as [He (Hn & Hd & Hm & Hl) (Hln & Hlm & Hu) _ _]. unfold recv_with_reply, receive. rewrite u_bind_assoc.
  erewrite (u_load_at _ _ _ _ _ _ 1) by (done || lia). rewrite u_bind_assoc. erewrite (u_load_at _ _ _ _ _ _ 3) by (done || lia).
  apply refines_kern; [done|]. intros msg y'. pose proof (write_response_spec mem sp args outs n d m l lim msg y' Hr) as Hw.
  unfold TranslateIpcMessageToResponseWithReplyPort, write_response_with_reply, returns, on_kernel, refines in *.
  unfold mbind at 1, Sys_bind in Hw. unfold mbind at 1, Sys_bind. destruct (TranslateIpcMessageToResponse msg lim (ker y')) as [[o1 k1]| | |] eqn:ET; cbn [mbind res_bind] in Hw |- *.
  2,3,4: by rewrite Hw.
  assert (exists mem1, write_response sp msg (mem, y') = Ret (match o1 with Val _ => Val tt | Err e => Err e | Blocked => Blocked end, (mem1, with_ker k1 y')) /\
    unchanged (recv_areas n d m l lim) mem mem1 /\ (forall x, o1 = Val x -> Forall (fun w => holds mem1 w.1 w.2) (response_cells n d m l x))) as (mem1 & -> & Hu1 & Hres).
  { destruct o1; cbn in Hw; destruct Hw as (mem1 & Hw & Hu1 & Hres); exists mem1; (split; [done|]); (split; [done|]); intros x [= ->]; done. }
  clear Hw. cbn [mbind res_bind].
  assert (unchanged outs mem mem1) as Hu2 by (eapply unchanged_weaken; [exact Hu1|]; intros a Ha; exists a; split; [rewrite Houts; apply elem_of_app; by left|by intros ?]).
  destruct (reply_cap msg) as [c|]; cbn [mbind res_bind].
  2: { exists mem1. done. }
  unfold kern. rewrite u_sys_eq. unfold on_kernel. cbn [ker with_ker]. unfold mbind, K_bind, res_bind.
  pose proof (on_table_cases (AddExistingCapability (Some c)) k1) as Hv. destruct (on_table (AddExistingCapability (Some c)) k1) as [[o2 k2]| | |]; [|by cbn..]. destruct Hv as [id ->].
  assert (env mem1 sp args outs) as He1.
  { eapply env_unchanged; [exact He|exact Hu2|]. intros a Ha. exists a. split; [done|by intros ?]. }
  assert ((r, 8) ∈ outs) as Hr8 by (rewrite Houts; apply elem_of_app; right; by apply list_elem_of_singleton).
  cbn [mbind res_bind mret K_ret Sys_ret]. rewrite (u_put_last mem1 sp args outs _ 5 id r He1 H5) by (done || lia). eexists. split; [done|].
  split; [eapply unchanged_trans; [exact Hu2|by apply put_unchanged]|]. cbn [results]. apply Forall_app. split; [|apply Forall_singleton; apply store_holds].
  destruct o1 as [x|e|]; [|by apply Forall_nil..]. specialize (Hres x eq_refl). apply Forall_forall. intros w Hw.
  apply put_holds; [|by apply (proj1 (Forall_forall _ _) Hres w Hw)].
  destruct (translated_cells _ _ _ _ _ n d m l w ET Hw) as (a & Ha & Hwi). apply apart_sym. eapply apart_within; [exact Hwi|].
  apply list_elem_of_lookup in Ha as [i Hi]. apply (Hap i 4%nat); [rewrite Houts; by apply lookup_app_l_Some|by rewrite Houts|]. apply lookup_lt_Some in Hi. cbn in Hi. lia.
Qed.

(** ** Sending *)
Lemma read_bytes_same mem mem' a n : (forall x, inside x (a, Z.of_nat n) -> mem' x = mem x) -> read_bytes mem' a n = read_bytes mem a n.
Proof.
  revert a. induction n as [|n IH]; intros a H; cbn [read_bytes]; [done|]. rewrite H by (unfold inside; cbn; lia). destruct (mem a); [|done]. cbn [deref mbind res_bind].
  rewrite IH; [done|]. intros x Hx. apply H. unfold inside in *. cbn in *. lia.
Qed.

Lemma readable_same mem mem' a n : (forall x, inside x (a, Z.of_nat n) -> mem' x = mem x) -> readable mem' a n = readable mem a n.
Proof.
  revert a. induction n as [|n IH]; intros a H; cbn [readable]; [done|]. rewrite H by (unfold inside; cbn; lia). destruct (mem a); [|done]. f_equal. apply IH.
  intros x Hx. apply H. unfold inside in *. cbn in *. lia.
Qed.

Lemma readable_ids_same mem mem' a n : (forall x, inside x (a, 8 * Z.of_nat n) -> mem' x = mem x) -> readable_ids mem' a n = readable_ids mem a n.
Proof.
  revert a. induction n as [|n IH]; intros a H; cbn [readable_ids]; [done|]. unfold read_int. rewrite (read_bytes_same mem mem' a 8) by (intros x Hx; apply H; unfold inside in *; cbn in *; lia).
  destruct (read_bytes mem a 8); try done. cbn [mbind res_bind]. f_equal. apply IH. intros x Hx. apply H. unfold inside in *. cbn in *. lia.
Qed.

Lemma send_buffers_same mem mem' n d m l : 0 <= n -> 0 <= m ->
  (forall x, inside x (d, n) \/ inside x (l, 8 * m) -> mem' x = mem x) -> send_buffers mem' n d m l = send_buffers mem n d m l.
Proof.
  intros Hn Hm H. unfold send_buffers. f_equal; [apply readable_same|apply readable_ids_same]; intros x Hx; apply H; [left|right]; unfold inside in *; cbn in *; lia.
Qed.

Lemma u_send_req {B} (f : SendReq -> U B) mem sp args outs y n d m l :
  env mem sp args outs -> args !! 1%nat = Some n -> args !! 2%nat = Some d -> args !! 3%nat = Some m -> args !! 4%nat = Some l ->
  (send_req sp ≫= f) (mem, y) = f (send_buffers mem n d m l) (mem, y).
Proof.
  intros He H1 H2 H3 H4. unfold send_req. rewrite u_bind_assoc. erewrite u_get by (done || lia). rewrite u_bind_assoc. erewrite u_get by (done || lia).
  rewrite u_bind_assoc. erewrite u_get by (done || lia). rewrite u_bind_assoc. erewrite u_get by (done || lia). done.
Qed.

Lemma send_refines mem sp args outs y n d m l (send : SendReq -> K unit) :
  env mem sp args outs -> args !! 1%nat = Some n -> args !! 2%nat = Some d -> args !! 3%nat = Some m -> args !! 4%nat = Some l ->
  refines outs mem (returns (on_kernel (send (send_buffers mem n d m l))) (fun _ => []) y) ((r ← send_req sp; kern (send r)) (mem, y)).
Proof. intros He H1 H2 H3 H4. erewrite u_send_req by done. apply refines_unit. Qed.

(** ** The areas of a call *)

(** Where a call writes. *)
Definition outs mem (c : zcall) : list (Z * Z) :=
  match c with
  | SysProcessSpawn _ b p v n => [(p, 8); (v, 8)] ++ if b =? 0 then [] else [(n, 8)]
  | SysProcessWait _ r | SysThreadCreate _ r | SysAddressSpaceMap _ _ _ _ r | SysMemoryObjectCreate _ r | SysMemoryObjectCreatePhysical _ _ r
  | SysMemoryObjectDuplicate _ _ _ r | SysMemoryObjectInspect _ r | SysPortCreate r | SysIrqRegister _ r | SysEndpointCreate r
  | SysEndpointSend _ _ _ _ _ r | SysCapDuplicate _ _ r | SysMutexCreate r | SysSemaphoreCreate r => [(r, 8)]
  | SysMemoryObjectCreateContiguous _ r p => [(r, 8); (p, 8)]
  | SysChannelCreate r1 r2 => [(r1, 8); (r2, 8)]
  | SysChannelRecv _ n d m l | SysPortRecv _ n d m l | SysPortPoll _ n d m l | SysReplyPortRecv _ n d m l => recv_areas n d m l (recv_limits mem n m)
  | SysEndpointRecv _ n d m l r => recv_areas n d m l (recv_limits mem n m) ++ [(r, 8)]
  | _ => []
  end.

(** Where a call reads its message. *)
Definition inputs (c : zcall) : list (Z * Z) :=
  match c with
  | SysChannelSend _ n d m l | SysPortSend _ n d m l | SysReplyPortSend _ n d m l | SysEndpointSend _ n d m l _ => [(d, n); (l, 8 * m)]
  | SysDebug message size => [(message, size)]
  | _ => []
  end.

(** Memory holds bytes. *)
Definition bytes_memory mem : Prop := forall x b, mem x = Some b -> 0 <= b < 256.

(** The program passes proper pointers: the request is at [sp], what the call writes is mapped and in places of its own. *)
Record call_ok mem (sp : Z) (c : zcall) : Prop := {
  co_env : env mem sp (request c).2 (outs mem c);
  co_apart : pairwise_apart (outs mem c);
  co_inputs a b : a ∈ outs mem c -> b ∈ inputs c -> apart a b;
  co_bytes : bytes_memory mem;
}.

Lemma read_mapped mem p n : (forall x, inside x (p, Z.of_nat n) -> is_Some (mem x)) -> bytes_memory mem -> exists bs, read_bytes mem p n = Ret bs /\ length bs = n /\ bytes_ok bs.
Proof.
  intros Hm Hb. revert p Hm. induction n as [|n IH]; intros p Hm; cbn [read_bytes]; [exists []; split_and!; [done|done|by apply Forall_nil]|].
  destruct (Hm p) as [b Hp]; [unfold inside; cbn; lia|]. rewrite Hp. cbn [deref mbind res_bind]. destruct (IH (p + 1)) as (bs & -> & Hl & Hok); [intros x Hx; apply Hm; unfold inside in *; cbn in *; lia|].
  cbn. exists (b :: bs). split_and!; [done|cbn; lia|apply Forall_cons; split; [by eapply Hb|done]].
Qed.

Lemma read_cell mem p : (forall x, inside x (p, 8) -> is_Some (mem x)) -> bytes_memory mem -> exists v, read_int mem p 8 = Ret v /\ is_u64 v.
Proof.
  intros Hm Hb. destruct (read_mapped mem p 8 Hm Hb) as (bs & Hr & Hl & Hok). exists (le_val bs). unfold read_int. rewrite Hr. split; [done|].
  pose proof (le_val_range bs Hok) as Hv. rewrite Hl in Hv. exact Hv.
Qed.

Lemma recv_env_of mem sp args areas n d m l :
  env mem sp args areas -> args !! 1%nat = Some n -> args !! 2%nat = Some d -> args !! 3%nat = Some m -> args !! 4%nat = Some l -> bytes_memory mem ->
  (forall a, a ∈ recv_areas n d m l (recv_limits mem n m) -> a ∈ areas) -> pairwise_apart (recv_areas n d m l (recv_limits mem n m)) ->
  recv_env mem sp args areas n d m l (recv_limits mem n m).
Proof.
  intros He H1 H2 H3 H4 Hb Hin Hap. destruct (read_cell mem n) as (vn & Hn & Hun); [intros x Hx; apply (en_mapped _ _ _ _ He (n, 8)); [apply Hin; by left|done]|done|].
  destruct (read_cell mem m) as (vm & Hm & Hum); [intros x Hx; apply (en_mapped _ _ _ _ He (m, 8)); [apply Hin; do 2 right; by left|done]|done|].
  split; [done|done| |done|done]. unfold recv_limits. rewrite Hn, Hm. done.
Qed.

(** ** The handlers that write before they are done *)
Section handlers.
Variable hhdm : Z.

Lemma spawn_refines mem sp a b p v n y : call_ok mem sp (SysProcessSpawn a b p v n) ->
  refines (outs mem (SysProcessSpawn a b p v n)) mem (meaning hhdm mem (SysProcessSpawn a b p v n) y) (h_ProcessSpawn hhdm sp (mem, y)).
Proof.
  intros [He Hap _ _]. cbn [request snd] in He.
  assert (exists areas, areas = outs mem (SysProcessSpawn a b p v n) /\ areas !! 0%nat = Some (p, 8) /\ areas !! 1%nat = Some (v, 8) /\ (b <> 0 -> areas !! 2%nat = Some (n, 8))) as (areas & HE & A0 & A1 & A2).
  { eexists. split; [done|]. split; [done|]. split; [done|]. intros Hb. unfold outs. by rewrite (proj2 (Z.eqb_neq b 0) Hb). }
  rewrite <- HE in *. clear HE. assert ((p, 8) ∈ areas) as Hp by (by eapply list_elem_of_lookup_2). assert ((v, 8) ∈ areas) as Hv by (by eapply list_elem_of_lookup_2).
  unfold h_ProcessSpawn, meaning, ProcessSpawn. erewrite u_get by (done || lia).
  rewrite returns_bind. apply refines_sys; [done|]. intros o y1 _. rewrite returns_bind. apply refines_sys; [done|]. intros proc y2 _.
  rewrite returns_bind. apply refines_sys; [done|]. intros _ y3 _. rewrite returns_bind. apply refines_sys; [done|]. intros id y4 _.
  erewrite u_put by (done || lia). set (mem1 := store p (le_bytes 8 id) mem). assert (env mem1 sp [a; b; p; v; n] areas) as He1 by (by apply env_put).
  assert (unchanged areas mem mem1) as Hu1 by (by apply put_unchanged).
  rewrite returns_bind. apply refines_sys; [done|]. intros x y5 _. rewrite returns_bind. apply refines_sys; [done|]. intros vmas y6 _.
  rewrite returns_bind. apply refines_sys; [done|]. intros vid y7 _.
  erewrite u_put by (done || lia). set (mem2 := store v (le_bytes 8 vid) mem1). assert (env mem2 sp [a; b; p; v; n] areas) as He2 by (by apply env_put).
  assert (unchanged areas mem mem2) as Hu2 by (eapply unchanged_trans; [done|by apply put_unchanged]).
  assert (holds mem2 p (le_bytes 8 id)) as Hh1 by (apply put_holds; [by apply (Hap 1%nat 0%nat)|apply store_holds]).
  assert (holds mem2 v (le_bytes 8 vid)) as Hh2 by apply store_holds.
  erewrite u_get by (done || lia). destruct (Z.eqb_spec b 0) as [->|Hb]; [exists mem2; split; [done|]; split; [done|]; by repeat (apply Forall_cons; split)|].
  specialize (A2 Hb). rewrite returns_bind. apply refines_sys; [done|]. intros [c|] y8 _; [|by exists mem2].
  destruct (HasPermissions c kZionPerm_Transmit); cbn [negb]; [|by exists mem2]. rewrite returns_bind. apply refines_sys; [done|]. intros rel y9 _.
  rewrite returns_bind. apply refines_sys; [done|]. intros nid y10 _. assert ((n, 8) ∈ areas) as Hn by (by eapply list_elem_of_lookup_2).
  eexists. split; [eapply u_put_last; done || lia|]. split; [eapply unchanged_trans; [done|by apply put_unchanged]|].
  repeat (apply Forall_cons; split); [..|by apply Forall_nil]; cbn [cell fst snd]; [apply put_holds; [by apply (Hap 2%nat 0%nat)|done]|apply put_holds; [by apply (Hap 2%nat 1%nat)|done]|apply store_holds].
Qed.

Lemma channel_refines mem sp r1 r2 y : call_ok mem sp (SysChannelCreate r1 r2) ->
  refines (outs mem (SysChannelCreate r1 r2)) mem (meaning hhdm mem (SysChannelCreate r1 r2) y) (h_ChannelCreate sp (mem, y)).
Proof.
  intros [He Hap _ _]. cbn [request snd] in He. unfold h_ChannelCreate, meaning, ChannelCreate. set (areas := outs mem _) in *.
  assert ((r1, 8) ∈ areas) as H1 by (by left). assert ((r2, 8) ∈ areas) as H2 by (right; by left).
  apply refines_kern; [done|]. intros [c1 c2] y1. apply refines_kern; [done|]. intros id1 y2. erewrite u_put by (done || lia).
  apply refines_kern; [by apply put_unchanged|]. intros id2 y3. eexists. split; [destruct y3; eapply u_put_last; [by apply env_put|done || lia..]|].
  split; [eapply unchanged_trans; by apply put_unchanged|]. repeat (apply Forall_cons; split); [..|by apply Forall_nil]; [|apply store_holds].
  apply put_holds; [by apply (Hap 1%nat 0%nat)|apply store_holds].
Qed.

Lemma irq_refines mem sp i r y : call_ok mem sp (SysIrqRegister i r) ->
  refines (outs mem (SysIrqRegister i r)) mem (meaning hhdm mem (SysIrqRegister i r) y) (h_IrqRegister sp (mem, y)).
Proof.
  intros [He Hap _ _]. cbn [request snd] in He. unfold h_IrqRegister, meaning, IrqRegister. set (areas := outs mem _) in *.
  assert ((r, 8) ∈ areas) as H1 by (by left). apply refines_kern; [done|]. intros port y1. apply refines_kern; [done|]. intros id y2. erewrite u_put by (done || lia).
  erewrite u_get by (done || lia || by apply env_put). rewrite <- u_bind_ret. apply refines_kern; [by apply put_unchanged|]. intros _ y3.
  eexists. split; [by destruct y3|]. split; [by apply put_unchanged|]. apply Forall_singleton. apply store_holds.
Qed.

Lemma endpoint_send_refines mem sp c n d m l r y : call_ok mem sp (SysEndpointSend c n d m l r) ->
  refines (outs mem (SysEndpointSend c n d m l r)) mem (meaning hhdm mem (SysEndpointSend c n d m l r) y) (h_EndpointSend sp (mem, y)).
Proof.
  intros [He Hap Hin _]. cbn [request snd] in He. unfold h_EndpointSend, meaning, EndpointSend. set (areas := outs mem _) in *.
  assert ((r, 8) ∈ areas) as H1 by (by left). pose proof (en_args _ _ _ _ He) as Hargs. erewrite u_get by (done || lia).
  apply refines_kern; [done|]. intros e y1. apply refines_kern; [done|]. intros reply y2. apply refines_kern; [done|]. intros id y3. erewrite u_put by (done || lia).
  set (mem1 := store r (le_bytes 8 id) mem). assert (env mem1 sp [c; n; d; m; l; r] areas) as He1 by (by apply env_put). erewrite u_send_req by done.
  assert (send_buffers mem1 n d m l = send_buffers mem n d m l) as ->.
  { apply send_buffers_same; [by apply (proj1 (Forall_lookup_1 _ _ 1 n Hargs eq_refl))|by apply (proj1 (Forall_lookup_1 _ _ 3 m Hargs eq_refl))|].
    intros x Hx. apply (uc_same _ _ _ (store_unchanged r (le_bytes 8 id) mem)). intros a ->%list_elem_of_singleton Ha.
    destruct Hx as [Hx|Hx]; [apply (Hin (r, 8) (d, n) H1 ltac:(by left) x)|apply (Hin (r, 8) (l, 8 * m) H1 ltac:(right; by left) x)]; done. }
  apply refines_kern; [by apply put_unchanged|]. intros msg y4. rewrite <- u_bind_ret. apply refines_kern; [by apply put_unchanged|]. intros _ y5.
  eexists. split; [by destruct y5|]. split; [by apply put_unchanged|]. apply Forall_singleton. apply store_holds.
Qed.

Lemma duplicate_refines mem sp c p r y : call_ok mem sp (SysCapDuplicate c p r) ->
  refines (outs mem (SysCapDuplicate c p r)) mem (meaning hhdm mem (SysCapDuplicate c p r) y) (h_CapDuplicate sp (mem, y)).
Proof.
  intros [He Hap _ _]. cbn [request snd] in He. unfold h_CapDuplicate, meaning. set (areas := outs mem _) in *. assert ((r, 8) ∈ areas) as H1 by (by left).
  erewrite u_get by (done || lia). erewrite u_get by (done || lia). apply refines_sys; [done|]. intros [e id] y1 _. apply refines_sys; [done|]. intros _ y2 _.
  destruct id as [id|]; [|exists mem; split; [done|]; split; [done|by apply Forall_nil]]. eexists. split; [by eapply u_put_last|]. split; [by apply put_unchanged|].
  apply Forall_singleton. apply store_holds.
Qed.

Lemma release_refines mem sp c y : call_ok mem sp (SysCapRelease c) -> refines (outs mem (SysCapRelease c)) mem (meaning hhdm mem (SysCapRelease c) y) (h_CapRelease sp (mem, y)).
Proof.
  intros [He _ _ _]. cbn [request snd] in He. unfold h_CapRelease, meaning. erewrite u_get by (done || lia). apply refines_sys; [done|]. intros e y1 _.
  rewrite <- u_bind_ret. apply refines_sys; [done|]. intros _ y2 _. exists mem. split; [done|]. split; [done|by apply Forall_nil].
Qed.

(** The requests that receive, with what each of them does before. *)
Lemma recv_refines mem sp args n d m l o y :
  args !! 1%nat = Some n -> args !! 2%nat = Some d -> args !! 3%nat = Some m -> args !! 4%nat = Some l ->
  env mem sp args (recv_areas n d m l (recv_limits mem n m)) -> pairwise_apart (recv_areas n d m l (recv_limits mem n m)) -> bytes_memory mem ->
  refines (recv_areas n d m l (recv_limits mem n m)) mem (returns (on_kernel (recv_and_translate o (recv_limits mem n m))) (response_cells n d m l) y)
    ((msg ← receive sp o; write_response sp msg) (mem, y)).
Proof. intros H1 H2 H3 H4 He Hap Hb. eapply receive_refines. by eapply recv_env_of. Qed.

Lemma endpoint_recv_refines mem sp c n d m l r y : call_ok mem sp (SysEndpointRecv c n d m l r) ->
  refines (outs mem (SysEndpointRecv c n d m l r)) mem (meaning hhdm mem (SysEndpointRecv c n d m l r) y) (h_EndpointRecv sp (mem, y)).
Proof.
  intros [He Hap _ Hb]. cbn [request snd] in He. unfold h_EndpointRecv, meaning, EndpointRecv. erewrite u_get by (done || lia). apply refines_kern; [done|]. intros e y1.
  eapply (recv_reply_refines mem sp [c; n; d; m; l; r]); [|done|done|done]. eapply recv_env_of; try done.
  - intros a Ha. apply elem_of_app. by left.
  - intros i j a b Hi Hj. apply Hap; by apply lookup_app_l_Some.
Qed.
End handlers.

(** The handler of each call. *)
Definition handler_of (hhdm : Z) (c : zcall) : Z -> U unit :=
  match c with
  | SysProcessExit _ => h_ProcessExit
  | SysProcessSpawn _ _ _ _ _ => h_ProcessSpawn hhdm
  | SysProcessWait _ _ => h_ProcessWait
  | SysThreadCreate _ _ => h_ThreadCreate
  | SysThreadStart _ _ _ _ => h_ThreadStart
  | SysThreadExit => h_ThreadExit
  | SysThreadWait _ => h_ThreadWait
  | SysThreadSleep _ => h_ThreadSleep
  | SysAddressSpaceMap _ _ _ _ _ => h_AddressSpaceMap
  | SysAddressSpaceUnmap _ _ _ => h_AddressSpaceUnmap
  | SysMemoryObjectCreate _ _ => h_MemoryObjectCreate
  | SysMemoryObjectCreatePhysical _ _ _ => h_MemoryObjectCreatePhysical
  | SysMemoryObjectCreateContiguous _ _ _ => h_MemoryObjectCreateContiguous
  | SysMemoryObjectDuplicate _ _ _ _ => h_MemoryObjectDuplicate
  | SysMemoryObjectInspect _ _ => h_MemoryObjectInspect
  | SysChannelCreate _ _ => h_ChannelCreate
  | SysChannelSend _ _ _ _ _ => h_ChannelSend
  | SysChannelRecv _ _ _ _ _ => h_ChannelRecv
  | SysPortCreate _ => h_PortCreate
  | SysPortSend _ _ _ _ _ => h_PortSend
  | SysPortRecv _ _ _ _ _ => h_PortRecv
  | SysPortPoll _ _ _ _ _ => h_PortPoll
  | SysIrqRegister _ _ => h_IrqRegister
  | SysEndpointCreate _ => h_EndpointCreate
  | SysEndpointSend _ _ _ _ _ _ => h_EndpointSend
  | SysEndpointRecv _ _ _ _ _ _ => h_EndpointRecv
  | SysReplyPortSend _ _ _ _ _ => h_ReplyPortSend
  | SysReplyPortRecv _ _ _ _ _ => h_ReplyPortRecv
  | SysCapDuplicate _ _ _ => h_CapDuplicate
  | SysCapRelease _ => h_CapRelease
  | SysMutexCreate _ => h_MutexCreate
  | SysMutexLock _ => h_MutexLock
  | SysMutexRelease _ => h_MutexRelease
  | SysSemaphoreCreate _ => h_SemaphoreCreate
  | SysSemaphoreWait _ => h_SemaphoreWait
  | SysSemaphoreSignal _ => h_SemaphoreSignal
  | SysDebug _ _ => h_Debug
  end.

Lemma dispatch_handler hhdm c sp : dispatch hhdm (request c).1 sp = handler_of hhdm c sp.
Proof. by destruct c. Qed.

(** What each handler that does not write early does: it fetches its fields, runs the call, and stores the result. *)
Ltac fetch := repeat (erewrite u_get by (done || lia)).
Ltac recv_finish := match goal with H : env ?mem ?sp ?args _ |- _ => by apply (recv_refines mem sp args) end.

Section plain_handlers.
Variables (hhdm : Z) (mem : memory) (sp : Z) (y : system).

Lemma unit_refines c : call_ok mem sp c ->
  match c with
  | SysProcessExit _ | SysThreadStart _ _ _ _ | SysThreadExit | SysThreadWait _ | SysThreadSleep _ | SysAddressSpaceUnmap _ _ _
  | SysMutexLock _ | SysMutexRelease _ | SysSemaphoreWait _ | SysSemaphoreSignal _ => refines (outs mem c) mem (meaning hhdm mem c y) (handler_of hhdm c sp (mem, y))
  | _ => True
  end.
Proof.
  intros [He _ _ _]. destruct c; try done; cbn [request snd] in He; unfold meaning; cbn [handler_of];
    unfold h_ProcessExit, h_ThreadStart, h_ThreadExit, h_ThreadWait, h_ThreadSleep, h_AddressSpaceUnmap, h_MutexLock, h_MutexRelease, h_SemaphoreWait, h_SemaphoreSignal;
    fetch; apply refines_unit.
Qed.

Lemma one_refines c : call_ok mem sp c ->
  match c with
  | SysProcessWait _ _ | SysThreadCreate _ _ | SysAddressSpaceMap _ _ _ _ _ | SysMemoryObjectCreate _ _ | SysMemoryObjectCreatePhysical _ _ _
  | SysMemoryObjectDuplicate _ _ _ _ | SysMemoryObjectInspect _ _ | SysPortCreate _ | SysEndpointCreate _ | SysMutexCreate _ | SysSemaphoreCreate _ =>
      refines (outs mem c) mem (meaning hhdm mem c y) (handler_of hhdm c sp (mem, y))
  | _ => True
  end.
Proof.
  intros [He _ _ _]. destruct c; try done; cbn [request snd] in He; unfold meaning; cbn [handler_of outs] in *;
    unfold h_ProcessWait, h_ThreadCreate, h_AddressSpaceMap, h_MemoryObjectCreate, h_MemoryObjectCreatePhysical, h_MemoryObjectDuplicate, h_MemoryObjectInspect,
      h_PortCreate, h_EndpointCreate, h_MutexCreate, h_SemaphoreCreate, kern;
    fetch; (eapply refines_one; [exact He|done|lia|by left]).
Qed.

Lemma contiguous_refines s r p : call_ok mem sp (SysMemoryObjectCreateContiguous s r p) ->
  refines (outs mem (SysMemoryObjectCreateContiguous s r p)) mem (meaning hhdm mem (SysMemoryObjectCreateContiguous s r p) y) (h_MemoryObjectCreateContiguous sp (mem, y)).
Proof.
  intros [He Hap _ _]. cbn [request snd outs] in *. unfold meaning, h_MemoryObjectCreateContiguous. fetch.
  eapply refines_two; [exact He|done|lia|by left|done|lia|right; by left|by apply (Hap 1%nat 0%nat)].
Qed.

Lemma sends_refine c : call_ok mem sp c ->
  match c with
  | SysChannelSend _ _ _ _ _ | SysPortSend _ _ _ _ _ | SysReplyPortSend _ _ _ _ _ => refines (outs mem c) mem (meaning hhdm mem c y) (handler_of hhdm c sp (mem, y))
  | _ => True
  end.
Proof.
  intros [He _ _ _]. destruct c; try done; cbn [request snd] in He; unfold meaning; cbn [handler_of outs] in *; unfold h_ChannelSend, h_PortSend, h_ReplyPortSend; fetch.
  - by eapply (send_refines _ _ _ _ _ _ _ _ _ (ChannelSend chan_cap)).
  - by eapply (send_refines _ _ _ _ _ _ _ _ _ (PortSend port_cap)).
  - by eapply (send_refines _ _ _ _ _ _ _ _ _ (ReplyPortSend reply_port_cap)).
Qed.

Lemma recvs_refine c : call_ok mem sp c ->
  match c with
  | SysChannelRecv _ _ _ _ _ | SysPortRecv _ _ _ _ _ | SysReplyPortRecv _ _ _ _ _ | SysPortPoll _ _ _ _ _ => refines (outs mem c) mem (meaning hhdm mem c y) (handler_of hhdm c sp (mem, y))
  | _ => True
  end.
Proof.
  intros [He Hap _ Hb]. destruct c; try done; cbn [request snd outs] in *; unfold meaning; cbn [handler_of];
    unfold h_ChannelRecv, h_PortRecv, h_ReplyPortRecv, h_PortPoll; fetch; (apply refines_kern; [done|]; intros o y1).
  - recv_finish.
  - recv_finish.
  - apply refines_kern; [done|]. intros pending y2. destruct pending; cbn [negb]; [recv_finish|exists mem; by destruct y2].
  - recv_finish.
Qed.

Lemma debug_refines message size : call_ok mem sp (SysDebug message size) ->
  refines (outs mem (SysDebug message size)) mem (meaning hhdm mem (SysDebug message size) y) (h_Debug sp (mem, y)).
Proof.
  intros [He _ _ _]. cbn [request snd] in He. unfold h_Debug, meaning. fetch. unfold returns, sys_lift, load_range, mbind, Sys_bind, U_bind. cbn [fst snd].
  destruct (read_bytes mem message (Z.to_nat size)); try done. exists mem. split; [done|]. split; [done|by apply Forall_nil].
Qed.
End plain_handlers.

Lemma dispatch_refines hhdm mem sp c y : call_ok mem sp c -> refines (outs mem c) mem (meaning hhdm mem c y) (dispatch hhdm (request c).1 sp (mem, y)).
Proof.
  intros Hc. rewrite dispatch_handler.
  pose proof (unit_refines hhdm mem sp y c Hc) as H1. pose proof (one_refines hhdm mem sp y c Hc) as H2.
  pose proof (sends_refine hhdm mem sp y c Hc) as H3. pose proof (recvs_refine hhdm mem sp y c Hc) as H4.
  destruct c; first [exact H1|exact H2|exact H3|exact H4|idtac]; cbn [handler_of].
  - by apply spawn_refines.
  - by apply contiguous_refines.
  - by apply channel_refines.
  - by apply irq_refines.
  - by apply endpoint_send_refines.
  - by apply endpoint_recv_refines.
  - by apply duplicate_refines.
  - by apply release_refines.
  - by apply debug_refines.
Qed.

(** ** The whole call: the program's stub and the kernel *)
Definition request_area (sp : Z) (c : zcall) : Z * Z := (sp, 8 * Z.of_nat (length (request c).2)).

(** What a program has to provide: arguments of 64 bits, room for the request at [sp], and pointers to mapped memory,
    where the places the call writes, the places it reads and the request are apart. *)
Record pointers_ok mem (sp : Z) (c : zcall) : Prop := {
  po_args : Forall is_u64 (request c).2;
  po_request x : inside x (request_area sp c) -> is_Some (mem x);
  po_mapped a x : a ∈ outs mem c -> inside x a -> is_Some (mem x);
  po_outs a : a ∈ outs mem c -> apart a (request_area sp c);
  po_inputs a : a ∈ inputs c -> apart a (request_area sp c);
  po_apart : pairwise_apart (outs mem c);
  po_separate a b : a ∈ outs mem c -> b ∈ inputs c -> apart a b;
  po_bytes : bytes_memory mem;
}.

Lemma recv_limits_same mem mem' n m : (forall x, inside x (n, 8) \/ inside x (m, 8) -> mem' x = mem x) -> recv_limits mem' n m = recv_limits mem n m.
Proof. intros H. unfold recv_limits, read_int. by rewrite !(read_bytes_same mem mem') by (intros x Hx; apply H; auto). Qed.

Lemma le_bytes_range n z : bytes_ok (le_bytes n z).
Proof. revert z. induction n as [|n IH]; intros z; cbn [le_bytes]; [by apply Forall_nil|]. apply Forall_cons. split; [apply Z.mod_pos_bound; lia|apply IH]. Qed.

Lemma request_bytes_range c : bytes_ok (request_bytes c).
Proof. unfold request_bytes. induction (request c).2 as [|v l IH]; [by apply Forall_nil|]. rewrite fmap_cons. cbn [concat]. apply Forall_app. split; [apply le_bytes_range|done]. Qed.

Lemma request_area_of sp c : area_of sp (request_bytes c) = request_area sp c.
Proof. unfold area_of, request_area, request_bytes. rewrite length_fields. f_equal. lia. Qed.

Section stubs.
Variables (mem : memory) (sp : Z) (c : zcall).
Context (Hok : pointers_ok mem sp c).
Let mem1 := store sp (request_bytes c) mem.

Lemma outside_request x a : apart a (request_area sp c) -> inside x a -> mem1 x = mem x.
Proof.
  intros Ha Hx. apply (uc_same _ _ _ (store_unchanged sp (request_bytes c) mem)). intros b ->%list_elem_of_singleton Hb.
  rewrite request_area_of in Hb. by apply (Ha x).
Qed.

Lemma limits_same n m : (n, 8) ∈ outs mem c -> (m, 8) ∈ outs mem c -> recv_limits mem1 n m = recv_limits mem n m.
Proof. intros Hn Hm. apply recv_limits_same. intros x [Hx|Hx]; (eapply outside_request; [|exact Hx]; by apply (po_outs _ _ _ Hok)). Qed.

Lemma buffers_same n d m l : (d, n) ∈ inputs c -> (l, 8 * m) ∈ inputs c -> is_u64 n -> is_u64 m -> send_buffers mem1 n d m l = send_buffers mem n d m l.
Proof.
  intros Hn Hm [Un _] [Um _]. apply send_buffers_same; [done|done|]. intros x [Hx|Hx]; (eapply outside_request; [|exact Hx]; by apply (po_inputs _ _ _ Hok)).
Qed.
End stubs.

Ltac pick := first [by left|right; pick].

Lemma outs_same mem sp c : pointers_ok mem sp c -> outs (store sp (request_bytes c) mem) c = outs mem c.
Proof. intros Hok. destruct c; try done; cbn [outs]; by rewrite (limits_same _ _ _ Hok) by (cbn [outs]; pick). Qed.

Lemma meaning_same hhdm mem sp c : pointers_ok mem sp c -> meaning hhdm (store sp (request_bytes c) mem) c = meaning hhdm mem c.
Proof.
  intros Hok. pose proof (po_args _ _ _ Hok) as Ha. destruct c; try done; unfold meaning;
    first [by rewrite (limits_same _ _ _ Hok) by (cbn [outs]; pick)
          |cbn [request snd] in Ha; rewrite (buffers_same _ _ _ Hok);
             [done|cbn [inputs]; pick|cbn [inputs]; pick|exact (Forall_lookup_1 _ _ 1 _ Ha eq_refl)|exact (Forall_lookup_1 _ _ 3 _ Ha eq_refl)]|idtac].
  rewrite (read_bytes_same mem); [done|]. intros x Hx. eapply outside_request; [apply (po_inputs _ _ _ Hok); pick|].
  pose proof (Forall_lookup_1 _ _ 1 _ Ha eq_refl) as [Hs _]. unfold inside in *. cbn in *. lia.
Qed.

Lemma stub_call_ok mem sp c : pointers_ok mem sp c -> call_ok (store sp (request_bytes c) mem) sp c.
Proof.
  intros Hok. pose proof Hok as [Hargs Hreq Hmap Hout Hinp Hap Hsep Hb]. pose proof (store_unchanged sp (request_bytes c) mem) as Hu.
  split; rewrite ?(outs_same _ _ _ Hok); [split| | |]; try done.
  - apply store_holds.
  - intros a x Ha Hx. eapply uc_mapped; [done|]. by apply (Hmap a).
  - intros x b. rewrite store_eq. case_decide as Hx; [|apply Hb]. intros Hl. eapply Forall_lookup_1 in Hl; [|apply request_bytes_range]. done.
Qed.

Lemma refines_before areas a mem mem1 m r : unchanged [a] mem mem1 -> refines areas mem1 m r -> refines (a :: areas) mem m r.
Proof.
  intros Hu. destruct m as [[o y']| | |]; try done. intros (mem' & Hr & Hu' & Hres). exists mem'. split; [done|]. split; [|done].
  eapply unchanged_trans; eapply unchanged_weaken; try done; intros b Hb; exists b; (split; [|by intros x Hx]).
  - apply list_elem_of_singleton in Hb as ->. by left.
  - by right.
Qed.

(** The call as Process.v numbers it. *)
Definition call_of mem (c : zcall) : call :=
  match c with
  | SysProcessExit code => ZProcessExit code
  | SysProcessSpawn a b _ _ _ => ZProcessSpawn a b
  | SysProcessWait a _ => ZProcessWait a
  | SysThreadCreate a _ => ZThreadCreate a
  | SysThreadStart t e a1 a2 => Process.ZThreadStart t e a1 a2
  | SysThreadExit => ZThreadExit
  | SysThreadWait t => ZThreadWait t
  | SysThreadSleep ms => ZIpc (ZThreadSleep ms)
  | SysAddressSpaceMap v o m al _ => ZAddressSpaceMap v o m al
  | SysAddressSpaceUnmap v lo hi => ZAddressSpaceUnmap v lo hi
  | SysMemoryObjectCreate s _ => ZMemoryObjectCreate s
  | SysMemoryObjectCreatePhysical p s _ => ZMemoryObjectCreatePhysical p s
  | SysMemoryObjectCreateContiguous s _ _ => ZMemoryObjectCreateContiguous s
  | SysMemoryObjectDuplicate v o l _ => ZMemoryObjectDuplicate v o l
  | SysMemoryObjectInspect v _ => ZMemoryObjectInspect v
  | SysChannelCreate _ _ => ZIpc ZChannelCreate
  | SysChannelSend c n d m l => ZIpc (ZChannelSend c (send_buffers mem n d m l))
  | SysChannelRecv c n d m l => ZIpc (ZChannelRecv c (recv_limits mem n m))
  | SysPortCreate _ => ZIpc ZPortCreate
  | SysPortSend c n d m l => ZIpc (ZPortSend c (send_buffers mem n d m l))
  | SysPortRecv c n d m l => ZIpc (ZPortRecv c (recv_limits mem n m))
  | SysPortPoll c n d m l => ZIpc (ZPortPoll c (recv_limits mem n m))
  | SysIrqRegister i _ => ZIpc (ZIrqRegister i)
  | SysEndpointCreate _ => ZIpc ZEndpointCreate
  | SysEndpointSend c n d m l _ => ZIpc (ZEndpointSend c (send_buffers mem n d m l))
  | SysEndpointRecv c n d m l _ => ZIpc (ZEndpointRecv c (recv_limits mem n m))
  | SysReplyPortSend c n d m l => ZIpc (ZReplyPortSend c (send_buffers mem n d m l))
  | SysReplyPortRecv c n d m l => ZIpc (ZReplyPortRecv c (recv_limits mem n m))
  | SysCapDuplicate c p _ => ZIpc (ZCapDuplicate c p)
  | SysCapRelease c => ZIpc (ZCapRelease c)
  | SysMutexCreate _ => ZIpc ZMutexCreate
  | SysMutexLock c => ZIpc (ZMutexLock c)
  | SysMutexRelease c => ZIpc (ZMutexRelease c)
  | SysSemaphoreCreate _ => ZIpc ZSemaphoreCreate
  | SysSemaphoreWait c => ZIpc (ZSemaphoreWait c)
  | SysSemaphoreSignal c => ZIpc (ZSemaphoreSignal c)
  | SysDebug _ _ => ZDebug
  end.

(** [m] and [m'] leave the same state. *)
Definition same_state {A B} (m : Sys A) (m' : Sys B) : Prop := forall y o y', m y = Ret (o, y') -> exists o', m' y = Ret (o', y').

Lemma same_returns {A} (m : Sys A) f : same_state (returns m f) (sys_discard m).
Proof. intros y o y'. unfold returns, sys_discard, mbind, Sys_bind. destruct (m y) as [[[] ?]| | |]; try done; cbn; intros [= <- <-]; eauto. Qed.

Lemma same_returns_unit {A} (m : Sys A) f : same_state (returns m f) m.
Proof. intros y o y'. unfold returns, mbind, Sys_bind. destruct (m y) as [[[] ?]| | |]; try done; cbn; intros [= <- <-]; eauto. Qed.

Lemma same_returns_kernel {A} (m : K A) f : same_state (returns (on_kernel m) f) (on_kernel (discard m)).
Proof.
  intros y o y'. unfold returns, on_kernel, discard, mbind, Sys_bind, K_bind. destruct (m (ker y)) as [[[] ?]| | |]; try done; cbn; intros [= <- <-]; eauto.
Qed.
#[local] Hint Resolve same_returns same_returns_unit same_returns_kernel : core.

Lemma same_checked {A} (m : K A) (k : A -> Sys (list (Z * list Z))) :
  (forall a y o y', k a y = Ret (o, y') -> y' = y) -> same_state (on_kernel m ≫= k) (on_kernel (discard m)).
Proof.
  intros Hk y o y'. unfold on_kernel, discard, mbind, Sys_bind, K_bind. destruct (m (ker y)) as [[[a| |] ?]| | |]; try done; cbn; [|intros [= <- <-]; eauto..].
  intros ->%Hk. eauto.
Qed.

Lemma check_keeps e (ws : list (Z * list Z)) y o y' : (on_kernel (RET_ERR e);; mret ws : Sys _) y = Ret (o, y') -> y' = y.
Proof. unfold RET_ERR, on_kernel, mbind, Sys_bind, mret, Sys_ret. destruct y. case_decide; cbn; by intros [= <- <-]. Qed.

Lemma meaning_handled hhdm mem c : same_state (meaning hhdm mem c) (handle hhdm (call_of mem c)).
Proof.
  destruct c; unfold meaning, handle; cbn [call_of SyscallHandler]; auto.
  - apply same_checked. intros [e id] y o y'. apply check_keeps.
  - apply same_checked. intros e y o y'. apply check_keeps.
  - intros y o y'. unfold returns, sys_lift, mbind, Sys_bind, mret, Sys_ret, res_bind. destruct (read_bytes mem message (Z.to_nat size)); try done; intros [= <- <-]. by eexists.
Qed.

(** The numbers with a case in the switch, and all others. *)
Definition served : list Z :=
  [kZionProcessExit; kZionProcessSpawn; kZionProcessWait; kZionThreadCreate; kZionThreadStart; kZionThreadExit; kZionThreadWait; kZionThreadSleep; kZionAddressSpaceMap; kZionAddressSpaceUnmap; kZionMemoryObjectCreate; kZionMemoryObjectCreatePhysical; kZionMemoryObjectCreateContiguous; kZionMemoryObjectDuplicate; kZionMemoryObjectInspect; kZionChannelCreate; kZionChannelSend; kZionChannelRecv; kZionPortCreate; kZionPortSend; kZionPortRecv; kZionPortPoll; kZionIrqRegister; kZionEndpointCreate; kZionEndpointSend; kZionEndpointRecv; kZionReplyPortSend; kZionReplyPortRecv; kZionCapDuplicate; kZionCapRelease; kZionMutexCreate; kZionMutexLock; kZionMutexRelease; kZionSemaphoreCreate; kZionSemaphoreWait; kZionSemaphoreSignal; kZionDebug].

Lemma eqb_served n k : n ∉ served -> k ∈ served -> (n =? k) = false.
Proof. intros Hn Hk. apply Z.eqb_neq. by intros ->. Qed.

Lemma dispatch_unknown hhdm n sp s : n ∉ served -> dispatch hhdm n sp s = Ret (Err UNIMPLEMENTED, s).
Proof. intros Hn. unfold dispatch. repeat (rewrite (eqb_served n) by (done || unfold served; pick)). done. Qed.

(** C3.  The system-call interface implements the calls.  When a program calls any of the 37 functions of zcall.h with
    arguments of 64 bits and pointers to mapped memory that do not overlap each other or the request on its stack, then
    the request structure, the switch on the call number and the handler that reads the fields and writes through the
    pointers together do what the call means: the same outcome (success, error code, blocking, panic or fault), the same
    kernel state, which is the one the call of Process.v reaches, the results of a call that succeeds in the memory
    the program pointed to, and no other byte of its memory changed except for the request.  A number without a case is
    answered UNIMPLEMENTED and changes nothing. *)
Theorem syscalls_refine hhdm mem sp c y :
  pointers_ok mem sp c ->
  refines (request_area sp c :: outs mem c) mem (meaning hhdm mem c y) (stub hhdm sp c (mem, y)) /\
  same_state (meaning hhdm mem c) (handle hhdm (call_of mem c)) /\
  (forall n, n ∉ served -> dispatch hhdm n sp (mem, y) = Ret (Err UNIMPLEMENTED, (mem, y))).
Proof.
  intros Hok. split; [|split; [apply meaning_handled|intros n; apply dispatch_unknown]]. unfold stub.
  rewrite u_write by (intros x; rewrite request_area_of; apply Hok). eapply refines_before; [rewrite <- request_area_of; apply store_unchanged|].
  rewrite <- (meaning_same _ _ _ _ Hok), <- (outs_same _ _ _ Hok). by apply dispatch_refines, stub_call_ok.
Qed.

(** A page of the program, with the request at its start. *)
Definition demo_page : memory := fun x => if (0x1000 <=? x) && (x <? 0x2000) then Some 0 else None.

Lemma demo_pointers : pointers_ok demo_page 0x1000 (SysPortCreate 0x1800).
Proof.
  assert (forall x, 0x1000 <= x < 0x2000 -> demo_page x = Some 0) as Hm.
  { intros x Hx. unfold demo_page. by rewrite (proj2 (Z.leb_le _ _)), (proj2 (Z.ltb_lt _ _)) by lia. }
  split; cbn [outs request snd].
  - by repeat constructor.
  - intros x Hx. rewrite Hm; [done|]. unfold inside, request_area in Hx. cbn in Hx. lia.
  - intros a x ->%list_elem_of_singleton Hx. rewrite Hm; [done|]. unfold inside in Hx. cbn in Hx. lia.
  - intros a ->%list_elem_of_singleton x. unfold inside, request_area. cbn. lia.
  - by intros a ?%elem_of_nil.
  - intros [|i] [|j] a b; done.
  - by intros a b _ ?%elem_of_nil.
  - intros x b. unfold demo_page. case_match; [|done]. intros [= <-]. lia.
Qed.

Lemma demo_port_create : exists y', meaning 0 demo_page (SysPortCreate 0x1800) demo_running = Ret (Val [cell 0x1800 258], y').
Proof. eexists. vm_compute. reflexivity. Qed.

Lemma syscalls_refine_witness :
  exists mem' y', stub 0 0x1000 (SysPortCreate 0x1800) (demo_page, demo_running) = Ret (Val tt, (mem', y')) /\ holds mem' 0x1800 (le_bytes 8 258) /\
    (forall x, x < 0x1000 -> mem' x = None).
Proof.
  destruct (syscalls_refine 0 demo_page 0x1000 (SysPortCreate 0x1800) demo_running demo_pointers) as [H _].
  destruct demo_port_create as [y' Hy]. rewrite Hy in H. destruct H as (mem' & Hs & Hu & Hr). exists mem', y'. split; [exact Hs|]. split; [exact (Forall_inv Hr)|].
  intros x Hx. rewrite (uc_same _ _ _ Hu); [unfold demo_page; by rewrite (proj2 (Z.leb_gt _ _)) by lia|].
  intros a [->| ->%list_elem_of_singleton]%elem_of_cons; unfold inside, request_area; cbn; lia.
Defined.

(** The kernel does not ask whether a pointer is the program's: the result of a call is stored wherever the request says,
    also at an address of the kernel. *)
Lemma result_in_kernel_memory hhdm mem sp r y ws y' :
  2 ^ 63 <= r -> call_ok mem sp (SysPortCreate r) -> meaning hhdm mem (SysPortCreate r) y = Ret (Val ws, y') ->
  exists mem' id, dispatch hhdm kZionPortCreate sp (mem, y) = Ret (Val tt, (mem', y')) /\ holds mem' r (le_bytes 8 id).
Proof.
  intros _ Hc Hm. pose proof (dispatch_refines hhdm _ _ _ y Hc) as H. rewrite Hm in H. destruct H as (mem' & Hd & _ & Hr).
  unfold meaning, returns, mbind, Sys_bind in Hm. destruct (on_kernel PortCreate y) as [[[id| |] ?]| | |]; try done. injection Hm as <- <-.
  exists mem', id. split; [exact Hd|exact (Forall_inv Hr)].
Qed.
