(* ===== verification/Startup.v ===== *)
(** * Starting the kernel (zion/zion.cpp, boot/boot_info.cpp, common/cpu.cpp, syscall/syscall.cpp, memory/kernel_vmm.cpp)

    The start-up of the kernel puts the components together: segments and
    interrupt gates, physical memory, the stack for faults, the tables of the
    firmware, the interrupt controllers and their timer, the entry of system
    calls, the root process, the scheduler, the cleanup thread and the first
    program.  Whenever it gets to the scheduler, the kernel is in the one state
    described here, and that state satisfies the invariant which the theorems on
    kernel entries start from. *)

From Stdlib Require Import ZArith Lia.
From stdpp Require Import base tactics numbers list gmap.
From S2P Require Import Prelude Status LinkedList Hash HashMap PhysMem MemObject BinaryTree OrderedMap MappingTree Paging AddressSpace Capability Sched Ipc Process Buffer RawMem Acpi Apic Loader Runtime Syscall.

(** ** What the boot loader answers (boot_info.cpp); a request without an answer stops the kernel *)
Record responses : Type := mkResponses {
  memmap_response : option (list memmap_entry);
  hhdm_response : option Z;
  module_response : option (list limine_file);
  rsdp_response : option Z;
  framebuffer_response : option (list limine_framebuffer);
}.

Definition answered {A} (r : option A) : res A := match r with Some a => Ret a | None => Panic end.

Definition GetMemoryMap (b : responses) : res (list memmap_entry) := answered (memmap_response b).
Definition GetHigherHalfDirectMap (b : responses) : res Z := answered (hhdm_response b).
Definition GetModules (b : responses) : res (list limine_file) := answered (module_response b).
Definition GetRsdpAddr (b : responses) : res Z := answered (rsdp_response b).
Definition GetFramebuffer (b : responses) : res limine_framebuffer :=
  l ← answered (framebuffer_response b);
  match l with [] => Panic | fb :: _ => Ret fb end.

(** ** The processor (cpu.cpp, syscall.cpp) *)

(** The control registers after the features are enabled; [ecx] and [edx] are what cpuid answers.  The arithmetic is on
    the low 16 bits. *)
Definition ProbeCpuAndEnableFeatures (ecx edx cr0 cr4 : Z) : res (Z * Z) :=
  if Z.land edx (Z.shiftl 0x3 25) =? 0 then Panic else
  if Z.land ecx (Z.lor 0x1 (Z.shiftl 0x1 9)) =? 0 then Panic else
  Ret (Z.lor (Z.ldiff cr0 0x4) 0x2, Z.lor cr4 0x600).

Definition EFER : Z := 0xC0000080.
Definition STAR : Z := 0xC0000081.
Definition LSTAR : Z := 0xC0000082.

Definition GetMSR (msr : Z) (m : gmap Z Z) : Z := default 0 (m !! msr).
Definition SetMSR (msr val : Z) (m : gmap Z Z) : gmap Z Z := <[msr := val]> m.

Definition InitSyscall (syscall_enter : Z) (m : gmap Z Z) : res (gmap Z Z) :=
  let efer_val := Z.lor (GetMSR EFER m) 1 in
  let m := SetMSR EFER efer_val m in
  if negb (GetMSR EFER m =? efer_val) then Panic else
  let star_val := Z.lor (GetMSR STAR m) (Z.lor (Z.shiftl 0x8 32) (Z.shiftl 0x18 48)) in
  Ret (SetMSR LSTAR syscall_enter (SetMSR STAR star_val m)).

(** ** The stack for faults (kernel_vmm.cpp, kernel_stack_manager.cpp) *)

(** [SetupInterruptStack]; the gates are switched to the new stack. *)
Definition SetupInterruptStack (address : isr -> Z) (cr3 : Z) (ks : KernelStackManager) (pm : phys) (tss : TaskStateSegment) (idt : list InterruptDescriptor) :
    res (KernelStackManager * phys * TaskStateSegment * list InterruptDescriptor) :=
  '(stack, ks, pm) ← AllocateKernelStack cr3 ks pm;
  Ret (ks, pm, SetIst1 stack tss, UpdateFaultHandlersToIst1 address idt).

(** The constructor; [gKernelVmm] is the stack manager of the one that exists. *)
Definition KernelVmm_new (gKernelVmm : option KernelStackManager) (address : isr -> Z) (cr3 : Z) (pm : phys) (tss : TaskStateSegment) (idt : list InterruptDescriptor) :
    res (KernelStackManager * phys * TaskStateSegment * list InterruptDescriptor) :=
  match gKernelVmm with
  | Some _ => Panic
  | None => SetupInterruptStack address cr3 Ksm_new pm tss idt
  end.

(** The stacks of threads come from the one that exists. *)
Definition AcquireKernelStack (gKernelVmm : option KernelStackManager) (cr3 : Z) (pm : phys) : res (Z * KernelStackManager * phys) :=
  ks ← deref gKernelVmm; AllocateKernelStack cr3 ks pm.
Definition Vmm_FreeKernelStack (gKernelVmm : option KernelStackManager) (stack_addr : Z) : res KernelStackManager :=
  ks ← deref gKernelVmm; Ret (FreeKernelStack stack_addr ks).

(** ** The timer (apic_timer.cpp): the old timer fires with the local one at the values [readings] *)
Fixpoint WaitCalibration (readings : list Z) (st : ApicTimer * hardware) : res (ApicTimer * hardware) :=
  if negb (calculated_frequency_ st.1 =? 0) then Ret st else
  match readings with
  | [] => NoFuel
  | now :: readings' => WaitCalibration readings' (interrupt_timer now st)
  end.

Definition ApicTimer_Init (readings : list Z) (h : hardware) : res (ApicTimer * hardware) :=
  h ← StartCalibration h;
  WaitCalibration readings (ApicTimer_new, h).

(** ** The scheduler (scheduler.cpp) *)

(** [Scheduler::Init] *)
Definition Scheduler_Init : Sys unit :=
  root ← proc_of_id 0;
  t ← GetThread root 0;
  on_kernel (on_sched (fun s => Ret (mkSched (threads s) t t [] [] false (locks s)))).

Definition Enable : Sys unit :=
  on_kernel (on_sched (fun s => Ret (mkSched (threads s) (current_thread_ s) (sleep_thread_ s) (runnable_threads_ s) (sleeping_threads_ s) true (locks s)))).

(** ** The machine *)

(** What the kernel finds: cpuid, control and model-specific registers, interrupt controllers, page tables in [words],
    other memory, the answers of the boot loader, addresses of its own symbols, and the readings of the timer. *)
Record platform : Type := mkPlatform {
  cpuid_ecx : Z; cpuid_edx : Z;
  cr0_0 : Z; cr3_0 : Z; cr4_0 : Z; msrs_0 : gmap Z Z;
  hw_0 : hardware;
  words_0 : gmap Z Z;
  mem_0 : memory;
  boot_0 : responses;
  isr_addr : isr -> Z; tss_addr : Z; syscall_enter_addr : Z; cleanup_entry_addr : Z; cleanup_addr : Z; ubuf_addr : Z;
  timer_readings : list Z;
}.

Record zion_state : Type := mkZion {
  z_gdt : list Z; z_idt : list InterruptDescriptor; z_tss : TaskStateSegment;
  z_cr0 : Z; z_cr4 : Z; z_msrs : gmap Z Z;
  z_hw : hardware; z_timer : ApicTimer; z_acpi : Acpi;
  z_sys : system;
}.

(** No process and no thread yet.  Reference 1 is the semaphore inside of the process manager. *)
Definition empty_kernel : kernel :=
  mkKernel (mkSched ∅ 1 1 [] [] false {[ 1%positive := mkLock 0 [] ]}) (fun _ => 2%positive) ∅ ∅ hm_new 2.
Definition empty_system (pm : phys) (ks : KernelStackManager) : system :=
  mkSystem empty_kernel ∅ ∅ ∅ ∅ pm ks hm_new (mkCleanup 1 ll_new ll_new) 1.

(** From [ProcessManager::Init] on. *)
Definition start_scheduler (p : platform) (hhdm : Z) (g : Acpi) : Sys unit :=
  ProcessManager_Init (cr3_0 p);;
  Scheduler_Init;;
  InitCleanup (cleanup_entry_addr p) (cleanup_addr p);;
  modules ← sys_lift (GetModules (boot_0 p));
  fb ← sys_lift (GetFramebuffer (boot_0 p));
  LoadInitProgram (store (ubuf_addr p) (ZFramebufferInfo hhdm fb) (mem_0 p)) hhdm modules (ubuf_addr p) g;;
  Enable;;
  on_kernel (on_sched Yield).

(** [SwapToCurrent] sets the stack for interrupts to the one of the thread. *)
Definition current_rsp0 (y : system) : Z := default 0 (x ← infos y !! current_thread_ (sch (ker y)); rsp0_start_ x).

Definition zion (p : platform) : res (outcome unit * zion_state) :=
  let gdt := InitGdt (tss_addr p) in
  let idt := InitIdt (isr_addr p) in
  '(cr0, cr4) ← ProbeCpuAndEnableFeatures (cpuid_ecx p) (cpuid_edx p) (cr0_0 p) (cr4_0 p);
  memmap ← GetMemoryMap (boot_0 p);
  let pm := InitBootstrapPageAllocation memmap (mkPhys None (mkBoot 0 0 0) false (words_0 p)) in
  hhdm ← GetHigherHalfDirectMap (boot_0 p);
  '(ks, pm, tss, idt) ← KernelVmm_new None (isr_addr p) (cr3_0 p) pm (mkTss 0 0 sizeof_TaskStateSegment) idt;
  let pm := InitPhysicalMemoryManager memmap pm in
  rsdp ← GetRsdpAddr (boot_0 p);
  g ← ProbeRsdp (mem_0 p) rsdp Acpi_start;
  h ← Apic_Init g (hw_0 p);
  '(t, h) ← ApicTimer_Init (timer_readings p) h;
  msrs ← InitSyscall (syscall_enter_addr p) (msrs_0 p);
  '(o, y) ← start_scheduler p hhdm g (empty_system pm ks);
  Ret (o, mkZion gdt idt (SetRsp0 (current_rsp0 y) tss) cr0 cr4 msrs h t g y).

(** ** Runs that end with a value *)

(** However [m] returns from [y], it returns a value that satisfies [Q]. *)
Definition ends {A} (m : Sys A) (y : system) (Q : A -> system -> Prop) : Prop := forall o y', m y = Ret (o, y') -> exists a, o = Val a /\ Q a y'.

Section ends.
Context {A B : Type}.

Lemma ends_bind (m : Sys A) (f : A -> Sys B) y Q R : ends m y Q -> (forall a y1, Q a y1 -> ends (f a) y1 R) -> ends (m ≫= f) y R.
Proof.
  intros Hm Hf o y'. unfold mbind, Sys_bind. destruct (m y) as [[o1 y1]| | |] eqn:E; try done. destruct (Hm _ _ E) as (a & -> & HQ). cbn. by apply Hf.
Qed.

Lemma ends_assoc {C} (m : Sys C) (f : C -> Sys A) (g : A -> Sys B) y R : ends ((m ≫= f) ≫= g) y R -> ends (m ≫= (fun a => f a ≫= g)) y R.
Proof. intros H o y' E. apply H. rewrite <- E. unfold mbind, Sys_bind. destruct (m y) as [[[] ?]| | |]; done. Qed.

Lemma ends_ret (a : A) y (Q : A -> system -> Prop) : Q a y -> ends (mret a) y Q.
Proof. intros HQ o y' [= <- <-]. eauto. Qed.

Lemma ends_mono (m : Sys A) y (Q R : A -> system -> Prop) : ends m y Q -> (forall a y', Q a y' -> R a y') -> ends m y R.
Proof. intros Hm HQ o y' E. destruct (Hm _ _ E) as (a & -> & H). eauto. Qed.

Lemma ends_updates (g : system -> res (A * system)) y (Q : A -> system -> Prop) : (forall a y', g y = Ret (a, y') -> Q a y') -> ends (updates g) y Q.
Proof. intros HQ o y'. unfold updates. destruct (g y) as [[a y1]| | |] eqn:E; try done. intros [= <- <-]. eauto. Qed.

Lemma ends_reads (g : system -> res A) y (Q : A -> system -> Prop) : (forall a, g y = Ret a -> Q a y) -> ends (reads g) y Q.
Proof. intros HQ o y'. unfold reads. destruct (g y) as [a| | |] eqn:E; try done. intros [= <- <-]. eauto. Qed.

Lemma ends_lift (r : res A) y (Q : A -> system -> Prop) : (forall a, r = Ret a -> Q a y) -> ends (sys_lift r) y Q.
Proof. intros HQ o y'. unfold sys_lift. destruct r as [a| | |] eqn:E; try done. intros [= <- <-]. eauto. Qed.

Lemma ends_asks (g : system -> A) y (Q : A -> system -> Prop) : Q (g y) y -> ends (asks g) y Q.
Proof. intros HQ o y' [= <- <-]. eauto. Qed.

Lemma ends_kernel (m : K A) y (Q : A -> system -> Prop) : (forall o k, m (ker y) = Ret (o, k) -> exists a, o = Val a /\ Q a (with_ker k y)) -> ends (on_kernel m) y Q.
Proof. intros HQ o y'. unfold on_kernel. destruct (m (ker y)) as [[o1 k]| | |] eqn:E; try done. intros [= <- <-]. by apply HQ. Qed.

Lemma ends_step (m : Sys A) (f : A -> Sys B) y a y1 R : m y = Ret (Val a, y1) -> ends (f a) y1 R -> ends (m ≫= f) y R.
Proof. intros Hm Hf. eapply ends_bind with (Q := fun b y' => b = a /\ y' = y1); [|by intros ? ? [-> ->]]. intros o y'. rewrite Hm. intros [= <- <-]. eauto. Qed.

Lemma ends_panic y (Q : A -> system -> Prop) : ends panic y Q.
Proof. done. Qed.
End ends.

Lemma run_get_proc p x y : procs y !! p = Some x -> get_proc p y = Ret (Val x, y).
Proof. intros H. unfold get_proc, reads. by rewrite H. Qed.

Lemma run_get_info t x y : infos y !! t = Some x -> get_info t y = Ret (Val x, y).
Proof. intros H. unfold get_info, reads. by rewrite H. Qed.

Lemma ends_modify g y (Q : unit -> system -> Prop) : Q tt (g y) -> ends (modify g) y Q.
Proof. intros HQ o y' [= <- <-]. eauto. Qed.

(** ** Operations that leave processes and threads alone *)
Record same (y y' : system) : Prop := {
  sm_ker : ker y' = ker y;
  sm_infos : infos y' = infos y;
  sm_procs : procs y' = procs y;
  sm_stacks : kernel_stacks y' = kernel_stacks y;
}.

#[export] Instance same_preorder : PreOrder same.
Proof. split; [done|]. intros y1 y2 y3 [] []. split; congruence. Qed.

Definition quiet {A} (m : Sys A) : Prop := forall y, ends m y (fun _ y' => same y y').

Lemma quiet_bind {A B} (m : Sys A) (f : A -> Sys B) : quiet m -> (forall a, quiet (f a)) -> quiet (m ≫= f).
Proof. intros Hm Hf y. eapply ends_bind; [apply Hm|]. intros a y1 H1. eapply ends_mono; [apply Hf|]. intros b y2 H2. cbn in *. etrans; [exact H1|exact H2]. Qed.

Lemma quiet_ret {A} (a : A) : quiet (mret a).
Proof. intros y. by apply ends_ret. Qed.

Lemma quiet_panic {A} : quiet (panic : Sys A).
Proof. intros y. apply ends_panic. Qed.

Lemma quiet_lift {A} (r : res A) : quiet (sys_lift r).
Proof. intros y. by apply ends_lift. Qed.

Lemma quiet_asks {A} (g : system -> A) : quiet (asks g).
Proof. intros y. by apply ends_asks. Qed.

Lemma quiet_reads {A} (g : system -> res A) : quiet (reads g).
Proof. intros y. by apply ends_reads. Qed.

Lemma quiet_updates {A} (g : system -> res (A * system)) : (forall y a y', g y = Ret (a, y') -> same y y') -> quiet (updates g).
Proof. intros H y. apply ends_updates. eauto. Qed.

Lemma quiet_decide {A} (P : Prop) `{!Decision P} (m m' : Sys A) : quiet m -> quiet m' -> quiet (if decide P then m else m').
Proof. intros. by case_decide. Qed.

Create HintDb quiet.
#[export] Hint Resolve quiet_bind quiet_ret quiet_panic quiet_lift quiet_asks quiet_reads quiet_decide : quiet.

Ltac inverse_binds := repeat (match goal with
  | H : (?m ≫= _) = Ret _ |- _ => let E := fresh "E" in destruct m eqn:E; try discriminate H; cbn [mbind res_bind] in H
  | H : Ret _ = Ret _ |- _ => injection H; clear H; intros; subst
  | a : (_ * _)%type |- _ => destruct a
  end).

Lemma new_memory_object_quiet o : quiet (new_memory_object o).
Proof. apply quiet_updates. intros y a y'. by intros [= <- <-]. Qed.

Lemma copy_to_object_quiet r source length : quiet (copy_to_object r source length).
Proof. apply quiet_updates. intros y a y' H. inverse_binds. done. Qed.

Lemma on_space_quiet {A} vmas (f : AddressSpace -> phys -> res (A * AddressSpace * phys)) : quiet (on_space vmas f).
Proof. apply quiet_updates. intros y a y' H. inverse_binds. done. Qed.

Lemma InsertProcess_quiet p : quiet (InsertProcess p).
Proof.
  apply quiet_bind; [apply quiet_reads|]. intros x. apply quiet_bind; [|intros e; apply quiet_decide; auto with quiet].
  apply quiet_updates. intros y a y' H. inverse_binds. done.
Qed.

Lemma GetInitProgram_quiet modules path : quiet (GetInitProgram modules path).
Proof. unfold GetInitProgram. destruct (list_find _ modules) as [[]|]; auto with quiet. Qed.
#[export] Hint Resolve new_memory_object_quiet copy_to_object_quiet on_space_quiet InsertProcess_quiet GetInitProgram_quiet : quiet.

Lemma LoadElfProgram_quiet mem p base : quiet (LoadElfProgram mem p base).
Proof.
  unfold LoadElfProgram. apply quiet_bind; [apply quiet_lift|]. intros h. apply quiet_bind; [|intros; apply quiet_ret].
  generalize (base [+] e_phoff h). induction (Z.to_nat (e_phnum h)) as [|n IH]; intros a; cbn [program_loop]; [apply quiet_ret|].
  apply quiet_bind; [apply quiet_lift|]. intros ph. apply quiet_bind; [|intros cs; apply quiet_bind; [apply IH|intros; apply quiet_ret]].
  destruct (negb _); [apply quiet_ret|]. unfold load_segment, get_proc. repeat (apply quiet_bind; [auto with quiet|intros ?]). apply quiet_decide; auto with quiet.
Qed.

(** ** What the other operations change *)
Definition add_lock (k : kernel) : kernel :=
  mkKernel (with_lock (next_ref k) (mkLock 0 []) (sch k)) (process_ k) (tables k) (ipc_objects k) (driver_map_ k) (Pos.succ (next_ref k)).
Definition add_thread (p t : positive) (k : kernel) : kernel :=
  mkKernel (with_thread t (mkThread CREATED 0) (sch k)) (fun x => if decide (x = t) then p else process_ k x) (tables k) (ipc_objects k) (driver_map_ k) (next_ref k).
Definition start_thread (t : positive) (k : kernel) : kernel :=
  with_sch (with_runnable (runnable_threads_ (sch k) ++ [t]) (with_thread t (mkThread RUNNABLE 0) (sch k))) k.

(** Stacks are taken one after the other as long as none was freed. *)
Definition stacks_at (n : Z) : KernelStackManager := mkKsm n ll_new.

Lemma AllocateKernelStack_next cr3 n pm stack ks pm' :
  AllocateKernelStack cr3 (stacks_at n) pm = Ret (stack, ks, pm') -> stack = n [+] kKernelStackOffset [-] 8 /\ ks = stacks_at (n [+] kKernelStackOffset).
Proof. unfold AllocateKernelStack. change (ll_empty _) with true. cbn [negb next_stack_addr_ free_stacks_ stacks_at]. destruct (_ <=? _); [done|]. intros E0. inverse_binds. done. Qed.

Lemma current_cr3_quiet : quiet current_cr3.
Proof. unfold current_cr3, CurrentProcess, get_proc. repeat (apply quiet_bind; [auto with quiet|intros ?]). auto with quiet. Qed.

Lemma CreateThread_ends p x n y : procs y !! p = Some x -> kernel_stacks y = stacks_at n ->
  ends (CreateThread p) y (fun t y' => t = next_ref (ker y) /\ ker y' = add_thread p t (add_lock (ker y)) /\
    infos y' = <[t := mkInfo p (next_thread_id_ x) false None None (Some (n [+] kKernelStackOffset [-] 8))]> (infos y) /\
    procs y' = <[p := mkProcess (id_ x) (vmas_ x) (pstate_ x) (exit_code_ x) (next_thread_id_ x [+] 1) (threads_ x ++ [t])]> (procs y) /\
    kernel_stacks y' = stacks_at (n [+] kKernelStackOffset)).
Proof.
  intros Hp Hks. unfold CreateThread, Thread_new. eapply ends_step; [by apply run_get_proc|]. eapply ends_step; [done|]. set (y1 := with_proc p _ y).
  eapply ends_bind with (Q := fun t y' => t = next_ref (ker y) /\ ker y' = add_thread p t (add_lock (ker y)) /\
    infos y' = <[t := mkInfo p (next_thread_id_ x) false None None (Some (n [+] kKernelStackOffset [-] 8))]> (infos y) /\ procs y' = procs y1 /\
    kernel_stacks y' = stacks_at (n [+] kKernelStackOffset)).
  - eapply ends_bind with (Q := fun t y' => t = next_ref (ker y) /\ same (with_ker (add_lock (ker y)) y1) y').
    { apply ends_kernel. intros o k [= <- <-]. eexists. split; [done|]. done. }
    intros t y2 [-> H2]. eapply ends_bind; [apply current_cr3_quiet|]. intros cr3 y3 H3.
    eapply ends_bind with (Q := fun _ => same y3); [by apply ends_reads|]. intros x' y4 H4.
    assert (same (with_ker (add_lock (ker y)) y1) y4) as [Hk Hi Hpr Hs] by (etrans; [exact H2|etrans; [exact H3|exact H4]]).
    apply ends_updates. intros t y5 H. rewrite Hs in H. change (kernel_stacks (with_ker (add_lock (ker y)) y1)) with (kernel_stacks y) in H. rewrite Hks in H. inverse_binds.
    match goal with E : AllocateKernelStack _ _ _ = _ |- _ => destruct (AllocateKernelStack_next _ _ _ _ _ _ E) as [-> ->] end.
    cbn [ker infos procs kernel_stacks with_info with_kstacks with_pmem with_ker]. by rewrite Hk, Hi, Hpr.
  - intros t y2 (-> & Hk & Hi & Hpr & Hs). eapply (ends_step _ _ _ (mkProcess (id_ x) (vmas_ x) (pstate_ x) (exit_code_ x) (next_thread_id_ x [+] 1) (threads_ x)));
      [apply run_get_proc; rewrite Hpr; apply lookup_insert_eq|].
    eapply ends_step; [done|]. apply ends_ret. cbn [ker infos procs kernel_stacks with_proc id_ vmas_ pstate_ exit_code_ next_thread_id_ threads_]. rewrite Hpr. cbn [procs with_proc y1]. rewrite insert_insert_eq. done.
Qed.

(** While the scheduler is disabled, starting a thread only queues it. *)
Lemma Thread_Start_ends t i x entry arg1 arg2 y :
  infos y !! t = Some i -> procs y !! t_process i = Some x -> threads_ x !! Z.to_nat (tid i) = Some t -> 0 <= tid i ->
  threads (sch (ker y)) !! t = Some (mkThread CREATED 0) -> enabled_ (sch (ker y)) = false -> current_thread_ (sch (ker y)) = sleep_thread_ (sch (ker y)) ->
  ends (Thread_Start t entry arg1 arg2) y (fun _ y' => ker y' = start_thread t (ker y) /\
    infos y' = <[t := mkInfo (t_process i) (tid i) (is_kernel_ i) (user_stack_base_ i) (Some (entry, arg1, arg2)) (rsp0_start_ i)]> (infos y) /\
    procs y' = procs y /\ kernel_stacks y' = kernel_stacks y).
Proof.
  intros Hi Hx Ht Htid Hth Hen Hcur. unfold Thread_Start. eapply ends_step; [by apply run_get_info|]. eapply ends_step; [done|]. set (y1 := with_info t _ y).
  eapply (ends_step _ _ _ tt (with_ker (with_sch (with_thread t (mkThread RUNNABLE 0) (sch (ker y))) (ker y)) y1)); [unfold put_state, on_kernel, on_sched, Sched.get; cbn [ker y1 with_info]; by rewrite Hth|].
  unfold GetThread. set (y2 := with_ker _ y1). assert (procs y2 !! t_process i = Some x) as Hx2 by done. eapply ends_bind with (Q := fun a y' => a = t /\ y' = y2).
  { eapply ends_step; [by apply run_get_proc|]. apply lookup_lt_Some in Ht as Hlt. rewrite (proj2 (Z.leb_gt _ _)) by lia. apply ends_lift. rewrite Ht. by intros a [= <-]. }
  intros a y3 [-> ->]. apply ends_kernel. intros o k H. unfold on_sched, Enqueue in H. cbn [ker y2 with_ker sch with_sch] in H.
  cbn [current_thread_ sleep_thread_ with_runnable with_thread] in H. rewrite decide_True in H by done. unfold Yield in H. cbn [enabled_ with_runnable with_thread] in H. rewrite Hen in H. cbn in H.
  injection H as <- <-. exists tt. split; [done|]. done.
Qed.

Lemma Process_Create_ends hhdm y :
  ends (Process_Create hhdm) y (fun p y' => p = next_ref (ker y) /\ ker y' = with_tables (<[p := CapabilityTable_new]> (tables (ker y))) (add_lock (ker y)) /\
    infos y' = infos y /\ kernel_stacks y' = kernel_stacks y /\
    exists vmas, procs y' = <[p := mkProcess (gNextId y) (Some vmas) (Some PROC_RUNNING) (2 ^ 64 - 1) 0 []]> (procs y)).
Proof.
  unfold Process_Create. eapply ends_bind with (Q := fun t y' => t = next_ref (ker y) /\ same (with_ker (add_lock (ker y)) y) y' /\ gNextId y' = gNextId y).
  { apply ends_kernel. intros o k [= <- <-]. eexists. split; [done|]. done. }
  intros p y1 (-> & H1 & Hg). eapply ends_bind with (Q := fun _ y' => same y1 y' /\ gNextId y' = gNextId y1).
  { unfold current_cr3, CurrentProcess, get_proc. eapply ends_step; [done|]. eapply ends_bind with (Q := fun _ y' => y' = y1); [by apply ends_reads|].
    intros ? ? ->. by apply ends_reads. }
  intros cr3 y2 [H2 Hg2]. assert (same (with_ker (add_lock (ker y)) y) y2) as [Hk Hi Hpr Hs] by (etrans; [exact H1|exact H2]).
  apply ends_updates. intros p y3 H. inverse_binds. cbn [ker infos procs kernel_stacks with_next_id with_proc with_space with_pmem with_ker]. rewrite Hk, Hi, Hpr, Hs, Hg2, Hg. split_and!; try done. by eexists.
Qed.

(** ** The first program *)
Definition rest_same (y y' : system) : Prop := infos y' = infos y /\ procs y' = procs y /\ kernel_stacks y' = kernel_stacks y.

Lemma rest_trans y1 y2 y3 : rest_same y1 y2 -> rest_same y2 y3 -> rest_same y1 y3.
Proof. intros (? & ? & ?) (? & ? & ?). split_and!; congruence. Qed.

(** The kernel [k] with the port [port] that holds the messages [l]. *)
Definition port_with (port : positive) (l : list (Z * Capability)) (k : kernel) : kernel :=
  with_objects (<[port := mkIpc PORT None (UnboundedMessageQueue (init_msg <$> l))]> (ipc_objects k)) k.

Lemma WriteKernel_port port l id c k : WriteKernel port id (Some c) (port_with port l k) = Ret (Val tt, port_with port (l ++ [(id, c)]) k).
Proof.
  assert (ipc_objects (port_with port l k) !! port = Some (mkIpc PORT None (UnboundedMessageQueue (init_msg <$> l)))) as Hp by apply lookup_insert_eq.
  unfold WriteKernel. rewrite (K_bind_Ret _ _ _ _ (port_with port l k)) by (unfold get_object; by rewrite Hp). cbn [message_queue_]. unfold set_queue. rewrite Hp.
  cbn. unfold port_with, with_objects. cbn. by rewrite insert_insert_eq, fmap_app.
Qed.

Lemma write_kernel_ends port l id t perms r k y : ker y = port_with port l k ->
  ends (write_kernel port id t perms r) y (fun _ y' => ker y' = port_with port (l ++ [(id, mkCap (mkObj t r) perms)]) k /\ rest_same y y').
Proof.
  intros Hk. apply ends_kernel. intros o k'. rewrite Hk, WriteKernel_port. intros [= <- <-]. exists tt. done.
Qed.

Section writes.
Variables (port : positive) (k : kernel).
Implicit Types (l : list (Z * Capability)) (y : system).

(** Writing leads from one list of messages to the next. *)
Definition writes {A} (m : Sys A) l (new : positive -> Z * Capability) : Prop := forall y, ker y = port_with port l k ->
  ends m y (fun _ y' => (exists r, ker y' = port_with port (l ++ [new r]) k) /\ rest_same y y').

Lemma filled_writes {A} (m : Sys A) (f : A -> Sys (list copy)) id l :
  quiet m -> (forall a, exists r source len, f a = (cs ← copy_to_object r source len; write_kernel port id MEMORY_OBJECT memory_permissions r;; mret cs)) ->
  writes (m ≫= f) l (fun r => (id, vmmo_cap r)).
Proof.
  intros Hm Hf y Hk. eapply ends_bind; [apply Hm|]. intros a y1 [Hk1 Hi1 Hp1 Hs1]. destruct (Hf a) as (r & source & len & ->).
  eapply ends_bind; [apply copy_to_object_quiet|]. intros cs y2 [Hk2 Hi2 Hp2 Hs2]. eapply ends_bind; [apply write_kernel_ends; by rewrite Hk2, Hk1|].
  intros [] y3 [Hk3 (Hi3 & Hp3 & Hs3)]. apply ends_ret. split; [by exists r|]. split_and!; congruence.
Qed.

Lemma WriteInitProgram_writes modules name id l : writes (WriteInitProgram modules port name id) l (fun r => (id, vmmo_cap r)).
Proof.
  intros y Hk. unfold WriteInitProgram. eapply ends_bind; [apply GetInitProgram_quiet|]. intros f y1 [Hk1 Hi1 Hp1 Hs1].
  eapply ends_mono; [apply (filled_writes _ _ id l); [apply new_memory_object_quiet|by intros r; exists r, (file_address f), (file_size f)|by rewrite Hk1]|].
  intros cs y2 [HE (Hi2 & Hp2 & Hs2)]. split; [done|]. split_and!; congruence.
Qed.

Lemma WritePciVmmo_writes g id l y : ker y = port_with port l k ->
  ends (WritePciVmmo g port id) y (fun e y' => e = OK -> (exists r, ker y' = port_with port (l ++ [(id, vmmo_cap r)]) k) /\ rest_same y y').
Proof.
  intros Hk. unfold WritePciVmmo. destruct (GetPciExtendedConfiguration g) as [e|[base offset]] eqn:E.
  - apply ends_ret. unfold GetPciExtendedConfiguration in E. case_match; [|done]. by injection E as <-.
  - eapply ends_bind; [apply new_memory_object_quiet|]. intros r y1 [Hk1 Hi1 Hp1 Hs1]. eapply ends_bind; [apply write_kernel_ends; by rewrite Hk1|].
    intros [] y2 [Hk2 (Hi2 & Hp2 & Hs2)]. apply ends_ret. intros _. split; [by exists r|]. split_and!; congruence.
Qed.
End writes.

Lemma write_init_data_ends modules ubuf g proc vmas port k y : ker y = port_with port [] k ->
  ends (write_init_data modules ubuf g proc vmas port) y (fun _ y' => (exists rd rv rf rp, ker y' = port_with port (boot_messages proc vmas rd rv rf rp) k) /\ rest_same y y').
Proof.
  intros Hk. unfold write_init_data. eapply ends_bind; [by apply write_kernel_ends|]. intros [] y1 [Hk1 R1].
  eapply ends_bind; [apply write_kernel_ends; exact Hk1|]. intros [] y2 [Hk2 R2]. eapply ends_bind; [apply WriteInitProgram_writes; exact Hk2|].
  intros cs1 y3 [[rd Hk3] R3]. eapply ends_bind; [apply WriteInitProgram_writes; exact Hk3|]. intros cs2 y4 [[rv Hk4] R4].
  eapply ends_bind; [apply (filled_writes port k _ _ Z_BOOT_FRAMEBUFFER_INFO_VMMO); [apply new_memory_object_quiet|by intros r; exists r, ubuf, sizeof_ZFramebufferInfo|exact Hk4]|].
  intros cs3 y5 [[rf Hk5] R5]. eapply ends_bind; [apply WritePciVmmo_writes; exact Hk5|]. intros e y6 HQ.
  unfold PANIC_ON_ERR. case_decide as He; [|eapply ends_bind with (Q := fun _ _ => False); [apply ends_panic|done]]. destruct (HQ He) as [[rp Hk6] R6].
  eapply ends_step; [done|]. apply ends_ret. split; [by exists rd, rv, rf, rp|]. by do 5 (eapply rest_trans; [eassumption|]).
Qed.

(** The table of a process whose only capability is its port. *)
Definition init_table (port : positive) : CapabilityTable := table_of [mkCap (mkObj PORT port) ipc_permissions].

Lemma AddNew_init port : AddNewCapability (mkObj PORT port) ipc_permissions CapabilityTable_new = Ret (0x100, init_table port).
Proof. reflexivity. Qed.

Definition program_kernel (port proc : positive) (l : list (Z * Capability)) (k : kernel) : kernel :=
  port_with port l (with_tables (<[proc := init_table port]> (tables k)) (add_lock (add_lock k))).

Lemma LoadInitProgram_ends mem hhdm modules ubuf g n y :
  kernel_stacks y = stacks_at n -> enabled_ (sch (ker y)) = false -> current_thread_ (sch (ker y)) = sleep_thread_ (sch (ker y)) ->
  let proc := next_ref (ker y) in let port := Pos.succ proc in let t := Pos.succ port in
  ends (LoadInitProgram mem hhdm modules ubuf g) y (fun _ y' => exists vmas rd rv rf rp entry,
    ker y' = start_thread t (add_thread proc t (add_lock (program_kernel port proc (boot_messages proc vmas rd rv rf rp) (ker y)))) /\
    infos y' = <[t := mkInfo proc 0 false None (Some (entry, 0x100, 0)) (Some (n [+] kKernelStackOffset [-] 8))]> (infos y)).
Proof.
  intros Hks Hen Hcur proc port t. unfold LoadInitProgram. eapply ends_bind; [apply Process_Create_ends|]. intros p y1 (-> & Hk1 & Hi1 & Hs1 & vmas & Hp1). fold proc in Hk1, Hp1 |- *.
  eapply ends_bind; [apply InsertProcess_quiet|]. intros [] y2 [Hk2 Hi2 Hp2 Hs2].
  eapply ends_bind with (Q := fun r y' => r = port /\ ker y' = port_with port [] (add_lock (ker y2)) /\ rest_same y2 y').
  { apply ends_kernel. intros o k. unfold Port_new, new_object. rewrite (K_bind_Ret _ _ _ (next_ref (ker y2)) (add_lock (ker y2)) eq_refl). intros [= <- <-].
    eexists. split; [done|]. rewrite Hk2, Hk1. done. }
  intros r y3 (-> & Hk3 & Hi3 & Hp3 & Hs3).
  eapply ends_bind with (Q := fun id y' => id = 0x100 /\ ker y' = program_kernel port proc [] (ker y) /\ rest_same y3 y').
  { apply ends_updates. intros id y' H. rewrite Hk3, Hk2, Hk1 in H. cbn [tables port_with with_objects add_lock with_tables] in H. rewrite lookup_insert_eq in H.
    cbn [deref mbind res_bind] in H. rewrite AddNew_init in H. unfold program_kernel. remember (init_table port) as tb eqn:Htb. clear Htb. cbn [mbind res_bind] in H. injection H as <- <-.
    split; [done|]. split; [|done]. cbn [ker with_ker]. unfold port_with, with_objects, with_tables, add_lock. cbn. by rewrite insert_insert_eq. }
  intros id y4 (-> & Hk4 & R4). assert (procs y4 !! proc = Some (mkProcess (gNextId y) (Some vmas) (Some PROC_RUNNING) (2 ^ 64 - 1) 0 [])) as Hp4.
  { destruct R4 as (_ & -> & _). rewrite Hp3, Hp2, Hp1. apply lookup_insert_eq. }
  eapply ends_step; [by apply run_get_proc|]. eapply ends_step; [done|]. eapply ends_bind; [by apply write_init_data_ends|].
  intros cs y5 [(rd & rv & rf & rp & Hk5) R5]. eapply ends_bind; [apply GetInitProgram_quiet|]. intros f y6 [Hk6 Hi6 Hp6 Hs6].
  eapply ends_bind; [apply LoadElfProgram_quiet|]. intros [entry cs'] y7 [Hk7 Hi7 Hp7 Hs7].
  assert (infos y7 = infos y /\ procs y7 !! proc = Some (mkProcess (gNextId y) (Some vmas) (Some PROC_RUNNING) (2 ^ 64 - 1) 0 []) /\ kernel_stacks y7 = stacks_at n) as (Hi & Hp & Hs).
  { destruct R4 as (Hi4 & _ & Hs4), R5 as (Hi5 & Hp5 & Hs5). split_and!; [congruence|by rewrite Hp7, Hp6, Hp5|congruence]. }
  rewrite Hk6, Hk5 in Hk7. clear - Hen Hcur Hk7 Hi Hp Hs. eapply ends_bind; [by eapply CreateThread_ends|]. intros t' y8 (-> & Hk8 & Hi8 & Hp8 & Hs8).
  rewrite Hk7 in Hk8, Hi8, Hp8 |- *. change (next_ref _) with t in Hk8, Hi8, Hp8 |- *.
  eapply ends_mono; [eapply Thread_Start_ends|].
  - rewrite Hi8. apply lookup_insert_eq.
  - rewrite Hp8. apply lookup_insert_eq.
  - done.
  - done.
  - rewrite Hk8. cbn. apply lookup_insert_eq.
  - by rewrite Hk8.
  - by rewrite Hk8.
  - cbn [t_process tid is_kernel_ user_stack_base_ rsp0_start_ next_thread_id_]. intros [] y9 (Hk9 & Hi9 & _ & _). exists vmas, rd, rv, rf, rp, entry. rewrite Hk9, Hk8, Hi9, Hi8, Hi, insert_insert_eq. done.
Qed.

(** ** The root process and the cleanup thread *)
Definition some_locks (l : list positive) : gmap positive Lockable := list_to_map ((fun r => (r, mkLock 0 [])) <$> l).

(** After [Scheduler::Init]: process 2 with thread 3, which is the idle thread. *)
Definition root_kernel : kernel :=
  mkKernel (mkSched {[ 3%positive := mkThread CREATED 0 ]} 3 3 [] [] false (some_locks [1; 2; 3]%positive)) (fun x => if decide (x = 3%positive) then 2%positive else 2%positive)
    {[ 2%positive := CapabilityTable_new ]} ∅ hm_new 4.
Definition root_map : HashMap Z (option positive) := Eval vm_compute in match HashMap.Insert 0 (Some 2%positive) hm_new with Ret (_, m) => m | _ => hm_new end.
Definition root_info : ThreadInfo := mkInfo 2 0 false None None None.
Definition root_system (cr3 : Z) (pm : phys) (ks : KernelStackManager) : system :=
  mkSystem root_kernel {[ 2%positive := mkProcess 0 (Some 1%positive) None (2 ^ 64 - 1) 1 [3%positive] ]} {[ 3%positive := root_info ]}
    {[ 1%positive := AddressSpace_ForRoot cr3 ]} ∅ pm ks root_map (mkCleanup 1 ll_new ll_new) 1.

Lemma root_started cr3 pm ks : (ProcessManager_Init cr3;; Scheduler_Init) (empty_system pm ks) = Ret (Val tt, root_system cr3 pm ks).
Proof. vm_compute. reflexivity. Qed.

Definition cleanup_kernel : kernel := start_thread 4 (add_thread 2 4 (add_lock root_kernel)).
Definition cleanup_info (entry arg stack : Z) : ThreadInfo := mkInfo 2 1 true None (Some (entry, arg, 0)) (Some stack).

Lemma InitCleanup_ends cr3 pm n entry arg :
  ends (InitCleanup entry arg) (root_system cr3 pm (stacks_at n)) (fun _ y' => ker y' = cleanup_kernel /\
    infos y' = <[4%positive := cleanup_info entry arg (n [+] kKernelStackOffset [-] 8)]> {[ 3%positive := root_info ]} /\ kernel_stacks y' = stacks_at (n [+] kKernelStackOffset)).
Proof.
  unfold InitCleanup. eapply (ends_step _ _ _ 2%positive (root_system cr3 pm (stacks_at n))); [vm_compute; reflexivity|].
  eapply ends_bind; [by eapply CreateThread_ends|]. intros t y1 (-> & Hk1 & Hi1 & Hp1 & Hs1). change (next_ref _) with 4%positive in *.
  eapply ends_step; [apply run_get_info; rewrite Hi1; apply lookup_insert_eq|]. eapply ends_step; [done|].
  eapply ends_mono; [eapply Thread_Start_ends|].
  - apply lookup_insert_eq.
  - cbn [procs with_info]. rewrite Hp1. apply lookup_insert_eq.
  - done.
  - done.
  - cbn [ker with_info]. rewrite Hk1. done.
  - cbn [ker with_info]. by rewrite Hk1.
  - cbn [ker with_info]. by rewrite Hk1.
  - cbn [t_process tid is_kernel_ user_stack_base_ rsp0_start_ next_thread_id_ ker infos procs kernel_stacks with_info]. intros [] y2 (Hk2 & Hi2 & _ & Hs2).
    rewrite Hk2, Hk1, Hi2, Hs2, Hs1, insert_insert_eq, Hi1, insert_insert_eq. done.
Qed.

(** ** The state after start-up *)

(** The cleanup thread runs, the first program is next, and the root thread idles. *)
Definition booted_sched : sched :=
  mkSched {[ 3%positive := mkThread RUNNABLE 0; 4%positive := mkThread RUNNING 0; 7%positive := mkThread RUNNABLE 0 ]} 4 3 [7%positive] [] true
    (some_locks [1; 2; 3; 4; 5; 6; 7]%positive).
Definition loaded_kernel (l : list (Z * Capability)) : kernel := start_thread 7 (add_thread 5 7 (add_lock (program_kernel 6 5 l cleanup_kernel))).
Definition booted_kernel (l : list (Z * Capability)) : kernel := with_sch booted_sched (loaded_kernel l).
Definition booted_infos (p : platform) (entry : Z) : gmap positive ThreadInfo :=
  <[7%positive := mkInfo 5 0 false None (Some (entry, 0x100, 0)) (Some (kKernelStackStart + 3 * kKernelStackOffset - 8))]>
    (<[4%positive := cleanup_info (cleanup_entry_addr p) (cleanup_addr p) (kKernelStackStart + 2 * kKernelStackOffset - 8)]> {[ 3%positive := root_info ]}).

Lemma first_yield l : let s := sch (loaded_kernel l) in
  Yield (mkSched (threads s) (current_thread_ s) (sleep_thread_ s) (runnable_threads_ s) (sleeping_threads_ s) true (locks s)) = Ret booted_sched.
Proof. vm_compute. reflexivity. Qed.

Lemma with_sch_twice s s' k : with_sch s (with_sch s' k) = with_sch s k.
Proof. done. Qed.

Lemma second_stack : kKernelStackStart + kKernelStackOffset [+] kKernelStackOffset [-] 8 = kKernelStackStart + 2 * kKernelStackOffset - 8.
Proof. vm_compute. reflexivity. Qed.

Lemma third_stack : kKernelStackStart + kKernelStackOffset [+] kKernelStackOffset [+] kKernelStackOffset [-] 8 = kKernelStackStart + 3 * kKernelStackOffset - 8.
Proof. vm_compute. reflexivity. Qed.

Lemma start_scheduler_ends p hhdm g pm :
  ends (start_scheduler p hhdm g) (empty_system pm (stacks_at (kKernelStackStart + kKernelStackOffset))) (fun _ y' => exists vmas rd rv rf rp entry,
    ker y' = booted_kernel (boot_messages 5 vmas rd rv rf rp) /\ infos y' = booted_infos p entry).
Proof.
  apply (ends_assoc _ _ (fun _ => _)). eapply ends_step; [apply root_started|]. eapply ends_bind; [apply InitCleanup_ends|]. intros [] y1 (Hk1 & Hi1 & Hs1).
  eapply ends_bind with (Q := fun _ y' => y' = y1); [by apply ends_lift|]. intros modules ? ->. eapply ends_bind with (Q := fun _ y' => y' = y1); [by apply ends_lift|]. intros fb ? ->.
  eapply ends_bind; [eapply LoadInitProgram_ends; [exact Hs1|by rewrite Hk1|by rewrite Hk1]|]. intros [] y2 (vmas & rd & rv & rf & rp & entry & Hk2 & Hi2).
  rewrite Hk1 in Hk2, Hi2. rewrite Hi1 in Hi2. change (ker y2 = loaded_kernel (boot_messages 5 vmas rd rv rf rp)) in Hk2. eapply ends_step; [done|]. apply ends_kernel. intros o k H. unfold on_sched in H. cbn [ker with_ker sch with_sch] in H. rewrite Hk2 in H.
  rewrite first_yield in H. injection H as <- <-. exists tt. split; [done|]. exists vmas, rd, rv, rf, rp, entry. split; [cbn [ker with_ker]; rewrite with_sch_twice; unfold booted_kernel; reflexivity|].
  rewrite second_stack, third_stack in Hi2. exact Hi2.
Qed.

(** *** The invariant of kernel entries *)
Definition first_port_cap : Capability := mkCap (mkObj PORT 6) ipc_permissions.
Definition no_ipc (c : Capability) : Prop := is_ipc (TypeTag (obj_ c)) = false /\ is_lock (TypeTag (obj_ c)) = false.

Lemma booted_sched_inv : sched_inv booted_sched.
Proof.
  assert (forall t x, st booted_sched t = Some x -> (t = 3 /\ x = RUNNABLE \/ t = 4 /\ x = RUNNING \/ t = 7 /\ x = RUNNABLE)%positive) as Hst.
  { intros t x. unfold st, booted_sched. cbn [threads]. intros H. apply fmap_Some in H as (y & Hy & ->). repeat (apply lookup_insert_Some in Hy as [[<- <-]|[_ Hy]]; [auto|]). apply lookup_singleton_Some in Hy as [<- <-]. auto. }
  assert (forall o m, locks booted_sched !! o = Some m -> blocked_threads_ m = []) as Hl.
  { intros o m Hm. apply elem_of_list_to_map_2 in Hm. apply list_elem_of_fmap in Hm as (r & [= -> ->] & _). done. }
  split; [|by left]. split.
  - intros t Ht. by destruct (Hst _ _ Ht) as [[_ ?]|[[-> _]|[_ ?]]].
  - split; [apply NoDup_singleton|]. by intros t ->%list_elem_of_singleton.
  - split; [by constructor|]. by intros t ?%elem_of_nil.
  - intros o m ->%Hl. split; [by constructor|]. by intros t ?%elem_of_nil.
  - intros o1 o2 m1 m2 t ->%Hl _ ?%elem_of_nil. done.
  - done.
  - done.
Qed.

Lemma booted_tables l p t : tables (booted_kernel l) !! p = Some t -> p = 5%positive /\ t = init_table 6 \/ p = 2%positive /\ t = CapabilityTable_new.
Proof. cbn. intros [[<- <-]|[_ H]]%lookup_insert_Some; [by left|]. apply lookup_singleton_Some in H as [<- <-]. by right. Qed.

Lemma booted_objects l r x : ipc_objects (booted_kernel l) !! r = Some x -> r = 6%positive /\ x = mkIpc PORT None (UnboundedMessageQueue (init_msg <$> l)).
Proof. cbn. intros [[<- <-]|[_ H]]%lookup_insert_Some; [done|]. by rewrite lookup_empty in H. Qed.

(** The capabilities in the system: the port of the first program and those written to it. *)
Lemma booted_caps l c : cap_in (booted_kernel l) c -> c = first_port_cap \/ c ∈ l.*2.
Proof.
  intros [(p & t & id & Ht & Hc)|(r & x & m & Hx & Hm & Hh)].
  - left. apply booted_tables in Ht as [[-> ->]|[-> ->]]; [|by rewrite CapabilityTable_new_caps in Hc].
    destruct (table_of_wf [first_port_cap]) as (_ & _ & H); [cbn; lia|]. by apply H, list_elem_of_singleton in Hc.
  - right. apply booted_objects in Hx as [-> ->]. cbn in Hm. apply list_elem_of_fmap in Hm as (e & -> & He).
    destruct Hh as [Hh|Hh]; [|done]. apply list_elem_of_singleton in Hh as [= ->]. by apply list_elem_of_fmap_2.
Qed.

Lemma booted_kinv l : Forall no_ipc l.*2 -> kinv (booted_kernel l).
Proof.
  intros Hl. split.
  - apply booted_sched_inv.
  - intros p t [[-> ->]|[-> ->]]%booted_tables; [|apply CapabilityTable_new_wf]. by apply (table_of_wf [first_port_cap]).
  - intros t. cbn. repeat case_decide; rewrite ?lookup_insert_eq; try (by eexists); rewrite lookup_insert_ne by done; by eexists.
  - intros r x [-> ->]%booted_objects. split_and!; [by eexists|by split|done].
  - intros c [->|Hc]%booted_caps.
    + split; [|done]. intros _. done.
    + rewrite Forall_forall in Hl. destruct (Hl c Hc) as [H1 H2]. split; congruence.
  - intros r x m [-> ->]%booted_objects Hm. cbn in Hm. apply list_elem_of_fmap in Hm as (e & -> & _). by repeat constructor.
  - intros r [m Hm]. apply elem_of_list_to_map_2 in Hm. apply list_elem_of_fmap in Hm as (r' & [= -> ->] & Hr). cbn. repeat (apply elem_of_cons in Hr as [->|Hr]; [lia|]). by apply elem_of_nil in Hr.
  - apply hm_new_wf.
  - intros irq v Hv. change (driver_map_ _) with (@hm_new Z (option positive)) in Hv. by rewrite hm_new_model, lookup_empty in Hv.
Qed.

Lemma boot_messages_no_ipc proc vmas rd rv rf rp : Forall no_ipc (boot_messages proc vmas rd rv rf rp).*2.
Proof. by repeat constructor. Qed.

(** *** The processor *)

(** A code or data segment of the given ring that is present. *)
Definition segment (code : bool) (ring seg : Z) : Prop :=
  Z.testbit seg 47 = true /\ Z.testbit seg 44 = true /\ Z.testbit seg 43 = code /\ Z.land (Z.shiftr seg 45) 3 = ring.

(** What SYSCALL and SYSRET do with the registers: the segments by selector, and the entry point. *)
Definition selected (gdt : list Z) (selector : Z) (code : bool) (ring : Z) : Prop := exists seg, gdt !! Z.to_nat (selector / 8) = Some seg /\ segment code ring seg.

Record syscalls_enabled (gdt : list Z) (msrs : gmap Z Z) (entry : Z) : Prop := {
  se_enabled : Z.testbit (GetMSR EFER msrs) 0 = true;
  se_entry : GetMSR LSTAR msrs = entry;
  se_kernel_cs : selected gdt (Z.land (Z.shiftr (GetMSR STAR msrs) 32) 0xFFFF) true 0;
  se_kernel_ss : selected gdt (Z.land (Z.shiftr (GetMSR STAR msrs) 32) 0xFFFF + 8) false 0;
  se_user_cs : selected gdt (Z.shiftr (GetMSR STAR msrs) 48 + 16) true 3;
  se_user_ss : selected gdt (Z.shiftr (GetMSR STAR msrs) 48 + 8) false 3;
}.

Lemma InitSyscall_enables entry tss m : exists m', InitSyscall entry m = Ret m' /\ (forall r, r ∉ [EFER; STAR; LSTAR] -> m' !! r = m !! r) /\
  (GetMSR STAR m = 0 -> syscalls_enabled (InitGdt tss) m' entry).
Proof.
  unfold InitSyscall. set (e := Z.lor (GetMSR EFER m) 1). assert (GetMSR EFER (SetMSR EFER e m) = e) as He by (unfold GetMSR, SetMSR; by rewrite lookup_insert_eq).
  rewrite He, Z.eqb_refl. cbn [negb]. eexists. split; [done|]. split.
  - intros r Hr. unfold SetMSR. rewrite !lookup_insert_ne; [done|set_solver..].
  - intros Hs. assert (GetMSR STAR (SetMSR EFER e m) = 0) as -> by (unfold GetMSR, SetMSR in *; by rewrite lookup_insert_ne).
    set (star := Z.lor 0 _). assert (forall v w, GetMSR EFER (SetMSR LSTAR v (SetMSR STAR w (SetMSR EFER e m))) = e) as H1 by (intros; unfold GetMSR, SetMSR; by rewrite lookup_insert_ne, lookup_insert_ne, lookup_insert_eq by done).
    assert (forall v, GetMSR STAR (SetMSR LSTAR v (SetMSR STAR star (SetMSR EFER e m))) = star) as H2 by (intros; unfold GetMSR, SetMSR; by rewrite lookup_insert_ne, lookup_insert_eq by done).
    split; rewrite ?H1, ?H2; [unfold e; by rewrite Z.lor_spec, orb_true_r|unfold GetMSR, SetMSR; by rewrite lookup_insert_eq|..];
      (eexists; split; [reflexivity|split_and!; vm_compute; reflexivity]).
Qed.

Lemma WaitCalibration_done readings st st' : WaitCalibration readings st = Ret st' -> calculated_frequency_ st'.1 <> 0.
Proof.
  revert st. induction readings as [|now readings IH]; intros st; cbn [WaitCalibration]; destruct (Z.eqb_spec (calculated_frequency_ st.1) 0); cbn [negb]; try done; [by intros [= <-]| |by intros [= <-]].
  apply IH.
Qed.

(** The processor must have SSE or SSE2, not both: a processor with only one of them passes. *)
Lemma cpu_check_needs_one : is_ret (ProbeCpuAndEnableFeatures 0x201 (Z.shiftl 1 25) 0 0) = true /\ is_ret (ProbeCpuAndEnableFeatures 0x201 (Z.shiftl 1 26) 0 0) = true.
Proof. done. Qed.

(** Interrupts stay enabled when a program enters the kernel: the register that masks flags on entry is left as it was. *)
Lemma flags_not_masked entry m m' : InitSyscall entry m = Ret m' -> m' !! 0xC0000084 = m !! 0xC0000084.
Proof.
  intros H. destruct (InitSyscall_enables entry 0 m) as (m1 & H1 & Hr & _). rewrite H in H1. injection H1 as <-. apply Hr. unfold EFER, STAR, LSTAR. set_solver by lia.
Qed.

(** What a start-up that returns went through. *)
Lemma zion_phases p o z : zion p = Ret (o, z) -> exists hhdm pm pm' ks h,
  ProbeCpuAndEnableFeatures (cpuid_ecx p) (cpuid_edx p) (cr0_0 p) (cr4_0 p) = Ret (z_cr0 z, z_cr4 z) /\
  (exists tss, KernelVmm_new None (isr_addr p) (cr3_0 p) pm (mkTss 0 0 sizeof_TaskStateSegment) (InitIdt (isr_addr p)) = Ret (ks, pm', tss, z_idt z) /\
     z_tss z = SetRsp0 (current_rsp0 (z_sys z)) tss) /\
  ApicTimer_Init (timer_readings p) h = Ret (z_timer z, z_hw z) /\ InitSyscall (syscall_enter_addr p) (msrs_0 p) = Ret (z_msrs z) /\ z_gdt z = InitGdt (tss_addr p) /\
  exists pm, start_scheduler p hhdm (z_acpi z) (empty_system pm ks) = Ret (o, z_sys z).
Proof.
  unfold zion. intros H. apply bind_Ret in H as ([cr0 cr4] & Hcpu & H). apply bind_Ret in H as (memmap & _ & H). apply bind_Ret in H as (hhdm & _ & H).
  apply bind_Ret in H as ([[[ks pm] tss] idt] & Hvmm & H). apply bind_Ret in H as (rsdp & _ & H). apply bind_Ret in H as (g & _ & H). apply bind_Ret in H as (h & _ & H).
  apply bind_Ret in H as ([t h'] & Htimer & H). apply bind_Ret in H as (msrs & Hmsr & H). apply bind_Ret in H as ([o' y] & Hs & H). injection H as <- <-.
  exists hhdm. do 3 eexists. exists h. split_and!; [exact Hcpu|exists tss; split; [exact Hvmm|done]|exact Htimer|exact Hmsr|done|by eexists].
Qed.

Lemma fault_stack address cr3 pm t idt ks pm' tss idt' : KernelVmm_new None address cr3 pm t idt = Ret (ks, pm', tss, idt') ->
  ks = stacks_at (kKernelStackStart + kKernelStackOffset) /\ ist1 tss = kKernelStackStart + kKernelStackOffset - 8 /\ idt' = UpdateFaultHandlersToIst1 address idt.
Proof.
  unfold KernelVmm_new, SetupInterruptStack. intros H. apply bind_Ret in H as ([[stack ks1] pm1] & HA & H). injection H as <- <- <- <-.
  apply AllocateKernelStack_next in HA as [-> ->]. done.
Qed.

Lemma features_enabled ecx edx cr0 cr4 cr0' cr4' : ProbeCpuAndEnableFeatures ecx edx cr0 cr4 = Ret (cr0', cr4') -> Z.testbit cr4' 9 = true /\ Z.testbit cr0' 2 = false.
Proof.
  unfold ProbeCpuAndEnableFeatures. do 2 (destruct (_ =? 0); [done|]). intros [= <- <-]. rewrite !Z.lor_spec, Z.ldiff_spec. split; [apply orb_true_r|]. by rewrite andb_false_r.
Qed.

(** A stack that was freed is the next one handed out. *)
Lemma kernel_stack_reused cr3 ks pm stack ks' : Vmm_FreeKernelStack (Some ks) stack = Ret ks' -> 0 <= size_ (free_stacks_ ks) < 2 ^ 64 - 1 ->
  exists ks'', AcquireKernelStack (Some ks') cr3 pm = Ret (stack, ks'', pm) /\ front_ (free_stacks_ ks'') = front_ (free_stacks_ ks).
Proof.
  intros [= <-] Hs. unfold AcquireKernelStack, AllocateKernelStack, FreeKernelStack. cbn [deref mbind res_bind free_stacks_ next_stack_addr_].
  unfold ll_empty, ll_PushFront, ll_PopFront. cbn [size_ front_]. rewrite u64_small by lia.
  destruct (Z.eqb_spec (size_ (free_stacks_ ks) + 1) 0); [lia|]. cbn. eauto.
Qed.

(** C2.  Starting the kernel leads to one state.  On any platform (firmware tables, boot loader data, memory, registers) for
    which the start-up returns, that is, gets to the scheduler: the processor has its features enabled and the timer a frequency; faults and interrupts
    have kernel stacks of their own, the first and the second of the stack region; if the register STAR was
    zero before, system calls enter the kernel at [syscall_enter] and return to the segments of user mode; the cleanup thread runs on the second stack, the thread of the
    first program is next, on the third, with the capability of its port as argument, and the root thread idles; the only
    capabilities are that port and the six written to it.  That state satisfies the invariant of the IPC, capability,
    lock and interrupt entries, so that no sequence of those entries after start-up, each uninterrupted and under the
    conditions of [Ipc.entry_ok], panics, breaks it, or yields authority that was not given then.  (Process, thread and memory
    system calls are not among them.) *)
Theorem zion_starts p o z :
  zion p = Ret (o, z) ->
  o = Val tt /\ exists vmas rd rv rf rp entry, let l := boot_messages 5 vmas rd rv rf rp in let k := ker (z_sys z) in
  k = booted_kernel l /\ infos (z_sys z) = booted_infos p entry /\ (forall c, cap_in k c -> c = first_port_cap \/ c ∈ l.*2) /\
  ist1 (z_tss z) = kKernelStackStart + kKernelStackOffset - 8 /\ rsp0 (z_tss z) = kKernelStackStart + 2 * kKernelStackOffset - 8 /\
  z_idt z = UpdateFaultHandlersToIst1 (isr_addr p) (InitIdt (isr_addr p)) /\
  (GetMSR STAR (msrs_0 p) = 0 -> syscalls_enabled (z_gdt z) (z_msrs z) (syscall_enter_addr p)) /\
  calculated_frequency_ (z_timer z) <> 0 /\ Z.testbit (z_cr4 z) 9 = true /\ Z.testbit (z_cr0 z) 2 = false /\
  forall k', rtc kernel_step k k' -> kinv k' /\ (forall c, cap_in k' c -> cap_ok k' c /\ from k c) /\
    forall e, Ipc.entry_ok e k' -> exists o' k'', SyscallHandler e k' = Ret (o', k'') /\ kinv k''.
Proof.
  intros H. destruct (zion_phases p o z H) as (hhdm & pm & pm' & ks & h & Hcpu & (tss & Hvmm & Htss) & Htimer & Hmsr & Hgdt & pm2 & Hs). clear H.
  apply fault_stack in Hvmm as (-> & Hist & Hidt). destruct (start_scheduler_ends p hhdm (z_acpi z) pm2 _ _ Hs) as (u & -> & vmas & rd & rv & rf & rp & entry & Hk & Hi).
  split; [by destruct u|]. exists vmas, rd, rv, rf, rp, entry. cbv zeta. set (l := boot_messages 5 vmas rd rv rf rp) in *.
  assert (kinv (booted_kernel l)) as Hinv by apply booted_kinv, boot_messages_no_ipc. rewrite Hk. split_and!; [done|done|apply booted_caps|by rewrite Htss| |done| | | | |].
  - rewrite Htss. cbn [rsp0 SetRsp0]. unfold current_rsp0. rewrite Hk, Hi. reflexivity.
  - intros H0. destruct (InitSyscall_enables (syscall_enter_addr p) (tss_addr p) (msrs_0 p)) as (m' & Hm & _ & Hse). rewrite Hmsr in Hm. injection Hm as <-. rewrite Hgdt. by apply Hse.
  - unfold ApicTimer_Init in Htimer. apply bind_Ret in Htimer as (h' & _ & Ht). exact (WaitCalibration_done _ _ _ Ht).
  - apply (proj1 (features_enabled _ _ _ _ _ _ Hcpu)).
  - apply (proj2 (features_enabled _ _ _ _ _ _ Hcpu)).
  - intros k' Hsteps. destruct (kernel_steps_good _ k' Hinv Hsteps) as [Hk' Hh _]. split; [done|]. split; [intros c Hc; split; [by apply Hk'|by apply Hh]|].
    intros e He. destruct (SyscallHandler_runs k' e k' (good_refl k' Hk') He) as (o' & k'' & Hr & Hg & _). exists o', k''. split; [done|apply Hg].
Qed.

(** ** A small machine *)
Definition demo_responses : responses :=
  mkResponses (Some [mkEntry 0 0x1000 1; mkEntry 0x100000 0x400000 0]) (Some 0xFFFF800000000000)
    (Some [mkFile path_yellowstone 0x10000 0x5000; mkFile path_denali 0x20000 0x234; mkFile path_victoriafalls 0x30000 0x800])
    (Some 0x500) (Some [mkFb 0xFFFF8000FD000000 1024 768 4096 32 1 8 16 8 8 8 0]).
Definition demo_memory : memory := fun x => match demo_firmware x with Some b => Some b | None => demo_image x end.
Definition demo_platform : platform :=
  mkPlatform 0x201 0x6000000 0x80000013 0x200000 0x20 ∅ idle_hardware ∅ demo_memory demo_responses
    (fun i => 0xFFFFFFFF80001000 + 16 * Z.of_nat (vector_of i)) 0xFFFFFFFF80010000 0xFFFFFFFF80002000 0xFFFFFFFF80003000 0xFFFFFFFF40000000 0xFFFFFFFF7FFFFF00
    ((fun i => 4000000000 - 1000000 * Z.of_nat i) <$> seq 0 12).

Lemma demo_starts : is_ret (zion demo_platform) = true.
Proof. vm_compute. reflexivity. Qed.

Lemma zion_starts_witness : exists z, zion demo_platform = Ret (Val tt, z) /\ kinv (ker (z_sys z)) /\ rsp0 (z_tss z) = 0xFFFFFFFF90007FF8.
Proof.
  destruct (is_ret_Ret _ demo_starts) as [[o z] E].
  destruct (zion_starts demo_platform o z E) as (Ho & vmas & rd & rv & rf & rp & entry & Hk & _ & _ & _ & Hr & _ & _ & _ & _ & _ & Hs).
  exists z. exact (conj (eq_trans E (f_equal (fun o => Ret (o, z)) Ho)) (conj (proj1 (Hs _ (rtc_refl _ _))) Hr)).
Defined.
