(* ===== verification/Mains.v ===== *)
(** * The main programs of the services (sys/denali/denali.cpp, sys/victoriafalls/victoriafalls.cpp, sys/voyageurs/voyageurs.cpp)

    A service reads its start-up capabilities, starts its driver, makes an
    endpoint, starts the thread that serves it and hands a capability to the
    endpoint to the name server.  The programs are sequences of the system calls
    of Process.v; calls to the name server go through the generated stubs of
    Services.v. *)

From Stdlib Require Import ZArith Lia.
From stdpp Require Import base tactics numbers list gmap strings.
From S2P Require Import Prelude Status Buffer Yunq YunqMessages Rpc Services.
From S2P Require Import LinkedList Hash HashMap PhysMem MemObject BinaryTree OrderedMap MappingTree Paging AddressSpace Capability Sched Ipc Process RawMem Acpi Loader Runtime Region.

(** ** Programs *)

(** [_start] of zion/usr/crt0.s: the value that [main] returns is the exit code of the process. *)
Definition start (main : Sys Z) : Sys unit := fun y =>
  '(o, y) ← main y;
  match o with
  | Val code => ProcessExit code y
  | Err e => ProcessExit (ErrorCode_val e) y
  | Blocked => Ret (Blocked, y)
  end.

(** The rest of a block whose local object has the destructor [dtor]: it runs however the block is left, but not when the
    process stopped inside of it. *)
Definition scope {A} (dtor : Sys unit) (body : Sys A) : Sys A := fun y =>
  '(o, y) ← body y;
  match o with
  | Blocked => Ret (Blocked, y)
  | _ => '(d, y) ← dtor y; Ret (match d with Val _ => o | Err e => Err e | Blocked => Blocked end, y)
  end.

(** Destructors of the generated clients and server bases. *)
Definition endpoint_destroy (endpoint : Z) : Sys unit := if negb (endpoint =? 0) then check (Region.ZCapRelease endpoint) else mret tt.

(** [ParseInitPort] with its effect on the variables, which stays when it fails. *)
Fixpoint init_loop (fuel : nat) (port : PortServer) (g : InitCaps) : K (ErrorCode * InitCaps) := fun k =>
  match fuel with
  | O => NoFuel
  | S fuel' =>
      '(ret, k) ← PollForIntCap port k;
      match ret with
      | Err EMPTY => Ret (Val (OK, g), k)
      | Err e => Ret (Val (e, g), k)
      | Blocked => Ret (Blocked, k)
      | Val (init_sig, init_cap) => init_loop fuel' port (assign_init init_sig init_cap g) k
      end
  end.

Definition InitPort (fuel : nat) (init_port_cap : Z) (g : InitCaps) : K (ErrorCode * InitCaps) := init_loop fuel (PortServer_AdoptCap init_port_cap) g.

(** ** Servers *)

(** [Create]: the endpoint of the new server. *)
Definition DenaliServer_Create : Sys Z := on_kernel EndpointCreate.
Definition VFSServer_Create : Sys Z := on_kernel EndpointCreate.
Definition VoyageursServer_Create : Sys Z := on_kernel EndpointCreate.
Definition Server_CreateClientCap (endpoint : Z) : Sys Z := on_kernel (Runtime.ZCapDuplicate endpoint (Z.lxor (2 ^ 64 - 1) kZionPerm_Read)).

Section mains.
Context `{Zcalls system}.
(** Addresses of the program: [thread_entry], the bootstrap function of the server thread, and the server object. *)
Variables (thread_entry bootstrap this : Z).

(** [RunServer] *)
Definition RunServer (g : InitCaps) : Sys Z := Region.Thread_new (gSelfProcCap g) thread_entry bootstrap this.

(** [check(stub.Method(...))] *)
Definition check_call {Rsp} (call : Client -> system -> res (RpcStatus * Rsp * Client * system)) (stub : Client) : Sys (Rsp * Client) := fun y =>
  '(status, rsp, stub, y) ← call stub y;
  if rpc_code status =? ErrorCode_val OK then Ret (Val (rsp, stub), y) else (ProcessExit (rpc_code status);; sys_blocked) y.

(** From the creation of the server on; [join] is what [main] does with the server's thread. *)
Definition serve (Create : Sys Z) (g : InitCaps) (stub : Client) (name : list Z) (join : Z -> Sys Z) : Sys Z :=
  endpoint ← Create;
  scope (endpoint_destroy endpoint) (
    server_thread ← RunServer g;
    client_cap ← Server_CreateClientCap endpoint;
    '(_, stub) ← check_call (YellowstoneClient_RegisterEndpoint (mkRegisterEndpointRequest name client_cap)) stub;
    join server_thread).

(** The bytes of the names. *)
Definition denali_name : list Z := [100; 101; 110; 97; 108; 105].
Definition victoriafalls_name : list Z := [118; 105; 99; 116; 111; 114; 105; 97; 102; 97; 108; 108; 115].
Definition voyageurs_name : list Z := [118; 111; 121; 97; 103; 101; 117; 114; 115].

(** The drivers: their start-up, against the devices, is in AhciInit.v, Mount.v and XhciInit.v. *)
Context {AhciController Ext2Driver XhciDriver : Type}.
Variables (AhciController_Init : OwnedMemoryRegion -> Sys AhciController) (AhciController_destroy : AhciController -> Sys unit).
Variables (Ext2Driver_Init : DenaliInfo -> Sys Ext2Driver) (Ext2Driver_destroy : Ext2Driver -> Sys unit).
Variables (XhciDriver_InitiateDriver : Client -> Sys (XhciDriver * Client)) (XhciDriver_destroy : XhciDriver -> Sys unit).

(** The room a start-up port can need. *)
Variable fuel : nat.

Definition denali_main (init_port_cap : Z) : Sys Z :=
  g ← check (on_kernel (ParseInitPort fuel init_port_cap no_caps));
  let stub := Client_new (gInitEndpointCap g) in
  scope (endpoint_destroy (gInitEndpointCap g)) (
    '(ahci, stub) ← check_call (YellowstoneClient_GetAhciInfo (mkAhciInfo 0 0)) stub;
    ahci_region ← FromCapability (gSelfVmasCap g) (AhciInfo_ahci_region ahci);
    driver ← AhciController_Init ahci_region;
    scope (AhciController_destroy driver) (
      serve DenaliServer_Create g stub denali_name (fun server_thread => check (Thread_Join server_thread);; mret 0))).

Definition victoriafalls_main (init_cap : Z) : Sys Z :=
  '(_, g) ← on_kernel (InitPort fuel init_cap no_caps);
  let yellowstone := Client_new (gInitEndpointCap g) in
  scope (endpoint_destroy (gInitEndpointCap g)) (
    '(denali_info, yellowstone) ← check_call (YellowstoneClient_GetDenali (mkDenaliInfo 0 0 0)) yellowstone;
    ext2 ← Ext2Driver_Init denali_info;
    scope (Ext2Driver_destroy ext2) (
      serve VFSServer_Create g yellowstone victoriafalls_name (fun server_thread => Thread_Join server_thread;; mret 0))).

(** [InterruptEnter] and the keyboard driver. *)
Variables (InterruptEnter keyboard : Z).

(** [KeyboardDriver::KeyboardDriver] and [KeyboardDriver::StartInterruptLoop]; the destructor of the driver frees the list only. *)
Definition KeyboardDriver_port : Sys Z := check (on_kernel PortCreate).
Definition StartInterruptLoop (g : InitCaps) : Sys Z := Region.Thread_new (gSelfProcCap g) thread_entry InterruptEnter keyboard.

Definition voyageurs_main (init_port : Z) : Sys Z :=
  '(_, g) ← on_kernel (InitPort fuel init_port no_caps);
  let yellowstone := Client_new (gInitEndpointCap g) in
  scope (endpoint_destroy (gInitEndpointCap g)) (
    _ ← KeyboardDriver_port;
    '(xhci, yellowstone) ← XhciDriver_InitiateDriver yellowstone;
    scope (XhciDriver_destroy xhci) (
      keyboard_thread ← StartInterruptLoop g;
      serve VoyageursServer_Create g yellowstone voyageurs_name (fun server_thread =>
        check (Thread_Join server_thread);; check (Thread_Join keyboard_thread);; mret (ErrorCode_val OK)))).
End mains.

(** ** A process that can serve *)

(** The process that runs: its table, its address space and its threads, numbered in order; it may start threads, and the
    addresses it uses are its own. *)
Record runs (y : system) (g : InitCaps) (t : CapabilityTable) (x : Process) (a : positive) (sp : AddressSpace) : Prop := {
  ru_table : tables (ker y) !! cur (ker y) = Some t;
  ru_wf : table_wf t;
  ru_self : holds_cap (ker y) (gSelfProcCap g) PROCESS (cur (ker y)) kZionPerm_SpawnThread;
  ru_proc : procs y !! cur (ker y) = Some x;
  ru_vmas : vmas_ x = Some a;
  ru_space : spaces y !! a = Some sp;
  ru_threads : next_thread_id_ x = Z.of_nat (length (threads_ x));
  ru_awake : current_thread_ (sch (ker y)) <> sleep_thread_ (sch (ker y));
  ru_current : (current_thread_ (sch (ker y)) < next_ref (ker y))%positive;
}.

Definition user_address (v : Z) : Prop := IsKernel v = false.

(** The process with one thread more. *)
Definition add_thread (x : Process) (th : positive) : Process :=
  mkProcess (id_ x) (vmas_ x) (pstate_ x) (exit_code_ x) (next_thread_id_ x [+] 1) (threads_ x ++ [th]).

(** What starting a thread changes. *)
Record thread_started (y y' : system) (t t' : CapabilityTable) (x : Process) (e a1 a2 : Z) (stack : Z) : Prop := {
  ts_caps : caps t' = <[next_cap_id_ t := Some (mkCap (mkObj THREAD (next_ref (ker y))) thread_permissions)]> (caps t);
  ts_next : next_cap_id_ t' = next_cap_id_ t + 1;
  ts_wf : table_wf t';
  ts_tables : tables (ker y') = <[cur (ker y) := t']> (tables (ker y));
  ts_procs : procs y' = <[cur (ker y) := add_thread x (next_ref (ker y))]> (procs y);
  ts_infos : infos y' = <[next_ref (ker y) := mkInfo (cur (ker y)) (next_thread_id_ x) false None (Some (e, a1, a2)) (Some stack)]> (infos y);
  ts_queue : runnable_threads_ (sch (ker y')) = runnable_threads_ (sch (ker y)) ++ [next_ref (ker y)] /\
             st (sch (ker y')) (next_ref (ker y)) = Some RUNNABLE;
  ts_others : forall u, u <> next_ref (ker y) -> st (sch (ker y')) u = st (sch (ker y)) u;
  ts_current : current_thread_ (sch (ker y')) = current_thread_ (sch (ker y)) /\ cur (ker y') = cur (ker y) /\ sleep_thread_ (sch (ker y')) = sleep_thread_ (sch (ker y));
  ts_rest : spaces y' = spaces y /\ mem_objects y' = mem_objects y /\ ipc_objects (ker y') = ipc_objects (ker y) /\ next_ref (ker y') = Pos.succ (next_ref (ker y));
}.

Lemma put_twice p x x' th i ks pm k k' y :
  with_proc p x (with_info th i (with_kstacks ks (with_pmem pm (with_ker k (with_ker k' (with_proc p x' y)))))) =
  with_proc p x (with_info th i (with_kstacks ks (with_pmem pm (with_ker k y)))).
Proof. unfold with_proc at 1 3. cbn. by rewrite insert_insert_eq. Qed.

Lemma CreateThread_spec y g t x a sp stack ks pm :
  runs y g t x a sp -> AllocateKernelStack (cr3_ sp) (kernel_stacks y) (pmem y) = Ret (stack, ks, pm) ->
  let th := next_ref (ker y) in let k := ker y in
  CreateThread (cur (ker y)) y = Ret (Val th,
    with_proc (cur (ker y)) (add_thread x th) (with_info th (mkInfo (cur (ker y)) (next_thread_id_ x) false None None (Some stack))
      (with_kstacks ks (with_pmem pm (with_ker (mkKernel (with_thread th (mkThread CREATED 0) (with_lock th (mkLock 0 []) (sch k)))
        (fun u => if decide (u = th) then cur k else process_ k u) (tables k) (ipc_objects k) (driver_map_ k) (Pos.succ th)) y))))).
Proof.
  intros [Ht Hw Hs Hp Hv Hsp Hth Ha Hc] HK th k. unfold CreateThread. rewrite (sys_proc _ x) by done. rewrite sys_modify.
  set (x1 := mkProcess _ _ _ _ _ _). set (y1 := with_proc _ x1 y).
  set (k1 := mkKernel (with_lock th (mkLock 0 []) (sch k)) (process_ k) (tables k) (ipc_objects k) (driver_map_ k) (Pos.succ th)).
  set (y2 := with_ker k1 y1).
  match goal with |- context [Process.Thread_new ?p ?i] => rewrite (sys_val (Process.Thread_new p i) _ y1 th
    (with_info th (mkInfo (cur k) (next_thread_id_ x) false None None (Some stack)) (with_kstacks ks (with_pmem pm (with_ker
       (mkKernel (with_thread th (mkThread CREATED 0) (sch k1)) (fun u => if decide (u = th) then cur k else process_ k1 u) (tables k1) (ipc_objects k1) (driver_map_ k1) (next_ref k1)) y2))))) end.
  2: { unfold Process.Thread_new. rewrite (sys_kernel new_lock _ y1 th k1) by done. fold y2.
       assert (procs y2 !! cur k = Some x1) as Hp2 by (cbn; by rewrite lookup_insert_eq).
       rewrite (sys_val current_cr3 _ y2 (cr3_ sp) y2).
       2: { unfold current_cr3. rewrite (sys_val CurrentProcess _ y2 (cur k) y2) by done. rewrite (sys_proc _ x1) by done. unfold reads. cbn [vmas_ x1]. rewrite Hv. cbn. by rewrite Hsp. }
       rewrite (sys_proc _ x1) by done. unfold updates. cbn [pmem kernel_stacks y2 y1 with_ker with_proc]. rewrite HK. cbn [vmas_ x1 mbind res_bind]. rewrite Hv. cbn. by rewrite Hsp. }
  rewrite (sys_proc _ x1) by (cbn; by rewrite lookup_insert_eq). rewrite sys_modify. unfold mret, Sys_ret, y2, y1. rewrite put_twice. reflexivity.
Qed.

Lemma ThreadCreate_spec y g t x a sp stack ks pm :
  runs y g t x a sp -> next_cap_id_ t < 2 ^ 55 - 1 -> AllocateKernelStack (cr3_ sp) (kernel_stacks y) (pmem y) = Ret (stack, ks, pm) ->
  let th := next_ref (ker y) in let k := ker y in
  exists t', ThreadCreate (gSelfProcCap g) y = Ret (Val (next_cap_id_ t),
    with_proc (cur k) (add_thread x th) (with_info th (mkInfo (cur k) (next_thread_id_ x) false None None (Some stack))
      (with_kstacks ks (with_pmem pm (with_ker (mkKernel (with_thread th (mkThread CREATED 0) (with_lock th (mkLock 0 []) (sch k)))
        (fun u => if decide (u = th) then cur k else process_ k u) (<[cur k := t']> (tables k)) (ipc_objects k) (driver_map_ k) (Pos.succ th)) y))))) /\
    caps t' = <[next_cap_id_ t := Some (mkCap (mkObj THREAD th) thread_permissions)]> (caps t) /\ next_cap_id_ t' = next_cap_id_ t + 1 /\ table_wf t'.
Proof.
  intros Hr Hn HK th k. pose proof (CreateThread_spec _ _ _ _ _ _ _ _ _ Hr HK) as HC. destruct Hr as [Ht Hw Hs Hp Hv Hsp Hth Ha Hc].
  unfold ThreadCreate. rewrite (sys_kernel _ _ y (cur k) k) by (by apply validated_table with t).
  assert (with_ker k y = y) as -> by (by destruct y). rewrite (sys_val _ _ _ _ _ HC). set (y1 := with_proc _ _ _).
  assert (cur (ker y1) = cur k) as Hcur.
  { unfold cur at 1. cbn. rewrite decide_False by (intros ?; lia). done. }
  destruct (add_new_spec THREAD thread_permissions th y1 t) as (t' & HA & Hw' & Hn' & Hc'); [by rewrite Hcur|done|done|].
  exists t'. split; [|done]. etrans; [exact HA|]. rewrite Hcur. reflexivity.
Qed.

(** Starting the thread of a capability just created: the process keeps it as its last. *)
Lemma Thread_Start_spec y th i x e a1 a2 z :
  infos y !! th = Some i -> procs y !! t_process i = Some x -> threads_ x !! Z.to_nat (tid i) = Some th -> 0 <= tid i ->
  threads (sch (ker y)) !! th = Some z -> current_thread_ (sch (ker y)) <> sleep_thread_ (sch (ker y)) ->
  let s := with_thread th (mkThread RUNNABLE (sleep_ticks_ z)) (sch (ker y)) in
  Thread_Start th e a1 a2 y = Ret (Val tt, with_ker (with_sch (with_runnable (runnable_threads_ (sch (ker y)) ++ [th]) s) (ker y))
    (with_info th (mkInfo (t_process i) (tid i) (is_kernel_ i) (user_stack_base_ i) (Some (e, a1, a2)) (rsp0_start_ i)) y)).
Proof.
  intros Hi Hx Ht H0 Hz Hc s. unfold Thread_Start. rewrite (sys_info th i) by done. rewrite sys_modify. set (y1 := with_info _ _ y).
  rewrite (sys_val _ _ y1 _ _ (put_state_eq th RUNNABLE y1 z Hz)). set (y2 := with_ker _ y1).
  rewrite (sys_val (GetThread (t_process i) (tid i)) _ y2 th y2).
  2: { unfold GetThread. rewrite (sys_proc _ x) by done. apply lookup_lt_Some in Ht as Hl. rewrite (proj2 (Z.leb_gt _ _)) by lia. unfold sys_lift. by rewrite Ht. }
  unfold on_kernel, on_sched, Enqueue. cbn [sch ker y2 with_ker with_sch current_thread_ sleep_thread_ with_runnable with_thread y1 with_info].
  by rewrite decide_False.
Qed.

Lemma user_entry e a1 a2 : user_address e -> user_address a1 -> user_address a2 -> IsKernel e || IsKernel a1 || IsKernel a2 = false.
Proof. unfold user_address. by intros -> -> ->. Qed.

Lemma Thread_new_spec y g t x a sp stack ks pm te e arg :
  runs y g t x a sp -> next_cap_id_ t < 2 ^ 55 - 1 -> AllocateKernelStack (cr3_ sp) (kernel_stacks y) (pmem y) = Ret (stack, ks, pm) ->
  user_address te -> user_address e -> user_address arg ->
  exists y' t', Region.Thread_new (gSelfProcCap g) te e arg y = Ret (Val (next_cap_id_ t), y') /\ thread_started y y' t t' x te e arg stack.
Proof.
  intros Hr Hn HK H1 H2 H3. destruct (ThreadCreate_spec _ _ _ _ _ _ _ _ _ Hr Hn HK) as (t' & HT & Hc' & Hn' & Hw'). destruct Hr as [Ht Hw Hs Hp Hv Hsp Hth Ha Hc].
  set (th := next_ref (ker y)) in *. set (k := ker y) in *. unfold Region.Thread_new. rewrite (sys_val _ _ y _ _ (check_val _ _ _ _ HT)). set (y1 := with_proc _ _ _).
  assert (cur (ker y1) = cur k) as Hcur by (unfold cur at 1; cbn; rewrite decide_False by (intros ?; lia); done).
  assert (infos y1 !! th = Some (mkInfo (cur k) (next_thread_id_ x) false None None (Some stack))) as Hi by (cbn; by rewrite lookup_insert_eq).
  assert (ThreadStart (next_cap_id_ t) te e arg y1 = Thread_Start th te e arg y1) as HC.
  { unfold ThreadStart. rewrite (sys_kernel _ _ y1 th (ker y1)); [by rewrite user_entry|].
    apply validated_table with t'; [rewrite Hcur; cbn; by rewrite lookup_insert_eq|done|]. eexists. unfold cap_at. rewrite Hcur. cbn. rewrite lookup_insert_eq. cbn.
    rewrite Hc', lookup_insert_eq. by split_and!. }
  rewrite (Thread_Start_spec y1 th _ (add_thread x th) te e arg (mkThread CREATED 0) Hi) in HC.
  2: { cbn. by rewrite lookup_insert_eq. }
  2: { cbn. rewrite Hth, Nat2Z.id. by rewrite lookup_app_r, Nat.sub_diag. }
  2: { cbn. rewrite Hth. lia. }
  2: { cbn. by rewrite lookup_insert_eq. }
  2: { done. }
  rewrite (sys_val _ _ y1 _ _ (check_val _ _ _ _ HC)). do 2 eexists. split; [reflexivity|].
  split; try done; cbn [ker with_ker sch with_sch infos with_info procs with_proc with_kstacks with_pmem y1 tables runnable_threads_ with_runnable with_thread with_lock].
  - by rewrite insert_insert_eq.
  - split; [done|]. unfold st. cbn. by rewrite lookup_insert_eq.
  - intros u Hu. unfold st. cbn. by rewrite !lookup_insert_ne.
Qed.

Lemma EndpointCreate_spec y t :
  tables (ker y) !! cur (ker y) = Some t -> table_wf t -> next_cap_id_ t < 2 ^ 55 - 1 ->
  let e := next_ref (ker y) in let k := ker y in
  exists t', on_kernel EndpointCreate y = Ret (Val (next_cap_id_ t),
    with_ker (mkKernel (with_lock e (mkLock 0 []) (sch k)) (process_ k) (<[cur k := t']> (tables k)) (<[e := mkIpc ENDPOINT None (UnboundedMessageQueue [])]> (ipc_objects k))
      (driver_map_ k) (Pos.succ e)) y) /\
    caps t' = <[next_cap_id_ t := Some (mkCap (mkObj ENDPOINT e) ipc_permissions)]> (caps t) /\ next_cap_id_ t' = next_cap_id_ t + 1 /\ table_wf t'.
Proof.
  intros Ht Hw Hn e k. destruct (AddExisting_spec t (mkCap (mkObj ENDPOINT e) ipc_permissions) Hw Hn) as (t' & HA & Hw' & Hn' & Hc).
  exists t'. split; [|done]. unfold on_kernel, EndpointCreate, Endpoint_Create.
  set (k1 := mkKernel (with_lock e (mkLock 0 []) (sch k)) (process_ k) (tables k) (<[e := mkIpc ENDPOINT None (UnboundedMessageQueue [])]> (ipc_objects k)) (driver_map_ k) (Pos.succ e)).
  rewrite (K_bind_Ret _ _ k e k1) by done. unfold AddNew. rewrite (on_table_Ret (AddNewCapability (mkObj ENDPOINT e) ipc_permissions) k1 t _ t' Ht HA). reflexivity.
Qed.

Lemma CreateClientCap_spec y t cap e :
  tables (ker y) !! cur (ker y) = Some t -> table_wf t -> next_cap_id_ t < 2 ^ 55 - 1 -> caps t !! cap = Some (Some (mkCap (mkObj ENDPOINT e) ipc_permissions)) ->
  exists t', Server_CreateClientCap cap y = Ret (Val (next_cap_id_ t), with_ker (with_tables (<[cur (ker y) := t']> (tables (ker y))) (ker y)) y) /\
    caps t' = <[next_cap_id_ t := Some (mkCap (mkObj ENDPOINT e) client_permissions)]> (caps t) /\ next_cap_id_ t' = next_cap_id_ t + 1 /\ table_wf t'.
Proof.
  intros Ht Hw Hn Hc. pose proof (CapDuplicate_spec t cap (Z.lxor (2 ^ 64 - 1) kZionPerm_Read) Hw Hn) as HD. rewrite Hc in HD. cbn [default from_option id permissions_ obj_] in HD.
  change (Z.land ipc_permissions kZionPerm_Duplicate =? 0) with false in HD. destruct HD as (t' & HD & Hw' & Hn' & _ & Hcaps). exists t'. split; [|done].
  unfold Server_CreateClientCap, on_kernel, Runtime.ZCapDuplicate. set (k' := with_tables _ (ker y)). rewrite (K_bind_Ret _ _ (ker y) (OK, Some (next_cap_id_ t)) k'); [done|].
  apply on_table_Ret with t; [done|]. by rewrite HD.
Qed.

(** What a service has set up when it registers: the endpoint [e] with no message, its own capability to it, a started thread
    that will run [bootstrap] on the server object, and a second capability to [e]. *)
Record serving (y y' : system) (t : CapabilityTable) (x : Process) (te bootstrap this stack : Z) : Prop := {
  se_objects : ipc_objects (ker y') = <[next_ref (ker y) := mkIpc ENDPOINT None (UnboundedMessageQueue [])]> (ipc_objects (ker y));
  se_caps : exists t', tables (ker y') = <[cur (ker y) := t']> (tables (ker y)) /\ table_wf t' /\
    caps t' = <[next_cap_id_ t + 2 := Some (mkCap (mkObj ENDPOINT (next_ref (ker y))) client_permissions)]>
             (<[next_cap_id_ t + 1 := Some (mkCap (mkObj THREAD (Pos.succ (next_ref (ker y)))) thread_permissions)]>
             (<[next_cap_id_ t := Some (mkCap (mkObj ENDPOINT (next_ref (ker y))) ipc_permissions)]> (caps t)));
  se_procs : procs y' = <[cur (ker y) := add_thread x (Pos.succ (next_ref (ker y)))]> (procs y);
  se_infos : infos y' = <[Pos.succ (next_ref (ker y)) := mkInfo (cur (ker y)) (next_thread_id_ x) false None (Some (te, bootstrap, this)) (Some stack)]> (infos y);
  se_queue : runnable_threads_ (sch (ker y')) = runnable_threads_ (sch (ker y)) ++ [Pos.succ (next_ref (ker y))] /\
             st (sch (ker y')) (Pos.succ (next_ref (ker y))) = Some RUNNABLE;
  se_others : forall u, u <> Pos.succ (next_ref (ker y)) -> st (sch (ker y')) u = st (sch (ker y)) u;
  se_rest : spaces y' = spaces y /\ mem_objects y' = mem_objects y /\ cur (ker y') = cur (ker y) /\ current_thread_ (sch (ker y')) = current_thread_ (sch (ker y));
}.

Section serve.
Context `{Zcalls system}.
Context {y : system} {g : InitCaps} {t : CapabilityTable} {x : Process} {a : positive} {sp : AddressSpace}.
Context {stack : Z} {ks : KernelStackManager} {pm : phys} {te bootstrap this : Z}.
Context (Hr : runs y g t x a sp) (Hroom : next_cap_id_ t < 2 ^ 55 - 3).
Context (HK : AllocateKernelStack (cr3_ sp) (kernel_stacks y) (pmem y) = Ret (stack, ks, pm)).
Context (Hte : user_address te) (Hbootstrap : user_address bootstrap) (Hthis : user_address this).

Lemma runs_with_endpoint t1 e lck objs :
  table_wf t1 -> caps t1 = <[next_cap_id_ t := Some e]> (caps t) -> caps t !! next_cap_id_ t = None ->
  runs (with_ker (mkKernel (with_lock (next_ref (ker y)) lck (sch (ker y))) (process_ (ker y)) (<[cur (ker y) := t1]> (tables (ker y))) objs (driver_map_ (ker y))
    (Pos.succ (next_ref (ker y)))) y) g t1 x a sp.
Proof using Hr.
  intros Hw1 Hc1 Hnone. destruct Hr as [Ht Hw Hs Hp Hv Hsp Hth Ha Hc]. split; try done.
  - cbn. by rewrite lookup_insert_eq.
  - destruct Hs as (c & Hcap & Ho & Hperm). exists c. split; [|done]. unfold cap_at in *. change (cur (ker (with_ker _ y))) with (cur (ker y)). cbn. rewrite lookup_insert_eq. cbn.
    rewrite Ht in Hcap. cbn in Hcap. rewrite Hc1, lookup_insert_ne; [done|]. intros E. by rewrite <- E, Hnone in Hcap.
  - cbn. lia.
Qed.

Lemma serve_spec stub name join : exists y',
  serving y y' t x te bootstrap this stack /\
  serve te bootstrap this (on_kernel EndpointCreate) g stub name join y = scope (endpoint_destroy (next_cap_id_ t))
    ('(_, stub) ← check_call (YellowstoneClient_RegisterEndpoint (mkRegisterEndpointRequest name (next_cap_id_ t + 2))) stub; join (next_cap_id_ t + 1)) y'.
Proof using All.
  pose proof Hr as [Ht Hw _ _ _ _ _ _ _].
  destruct (EndpointCreate_spec y t Ht Hw ltac:(lia)) as (t1 & H1 & Hc1 & Hn1 & Hw1). set (y1 := with_ker _ y) in H1.
  assert (caps t !! next_cap_id_ t = None) as Hnone.
  { destruct (caps t !! next_cap_id_ t) as [c|] eqn:E; [|done]. apply (tbl_ids _ Hw) in E. lia. }
  pose proof (runs_with_endpoint t1 _ (mkLock 0 []) (<[next_ref (ker y) := mkIpc ENDPOINT None (UnboundedMessageQueue [])]> (ipc_objects (ker y))) Hw1 Hc1 Hnone) as Hr1. fold y1 in Hr1.
  destruct (Thread_new_spec y1 g t1 x a sp stack ks pm te bootstrap this Hr1 ltac:(lia) HK Hte Hbootstrap Hthis) as (y2 & t2 & H2 & T).
  destruct T as [Tc Tn Tw Tt Tp Ti Tq To [Tcur1 [Tcur Tsl]] [Ts [Tm [Tio Tr]]]].
  destruct (CreateClientCap_spec y2 t2 (next_cap_id_ t) (next_ref (ker y))) as (t3 & H3 & Hc3 & Hn3 & Hw3); [rewrite Tcur, Tt; apply lookup_insert_eq|done|lia| |].
  { rewrite Tc, lookup_insert_ne by lia. rewrite Hc1. apply lookup_insert_eq. }
  exists (with_ker (with_tables (<[cur (ker y2) := t3]> (tables (ker y2))) (ker y2)) y2). split.
  - change (cur (ker y1)) with (cur (ker y)) in *. change (next_ref (ker y1)) with (Pos.succ (next_ref (ker y))) in *.
    split; cbn [ker with_ker ipc_objects with_tables tables procs infos sch spaces mem_objects]; try done.
    + exists t3. rewrite Tcur, Tt. split; [|split; [done|]].
      * change (tables (ker y1)) with (<[cur (ker y) := t1]> (tables (ker y))). by rewrite !insert_insert_eq.
      * rewrite Hc3, Tc, Hc1, Tn, Hn1. by replace (next_cap_id_ t + 1 + 1) with (next_cap_id_ t + 2) by lia.
  - unfold serve. rewrite (sys_val _ _ _ _ _ H1). unfold scope. f_equal. unfold RunServer.
    rewrite (sys_val _ _ _ _ _ H2), (sys_val _ _ _ _ _ H3), Tn, Hn1. by replace (next_cap_id_ t + 1 + 1) with (next_cap_id_ t + 2) by lia.
Qed.
End serve.

(** ** Properties *)

(** Both forms of [ParseInitPort] agree. *)
Lemma init_loop_parses fuel : forall port g k o k', parse_loop fuel port g k = Ret (o, k') ->
  match o with
  | Val g' => init_loop fuel port g k = Ret (Val (OK, g'), k')
  | Err e => exists g', init_loop fuel port g k = Ret (Val (e, g'), k')
  | Blocked => init_loop fuel port g k = Ret (Blocked, k')
  end.
Proof.
  induction fuel as [|fuel IH]; intros port g k o k'; [done|]. cbn [parse_loop init_loop]. destruct (PollForIntCap port k) as [[ret k1]| | |] eqn:E; try done.
  rewrite !ret_bind. destruct ret as [[sig cap]|e|]; [apply IH| |by intros [= <- <-]].
  destruct e; intros [= <- <-]; eauto.
Qed.

Lemma check_call_bind {Rsp A} call stub (f : Rsp -> Client -> Sys A) y status rsp stub' y2 :
  call stub y = Ret (status, rsp, stub', y2) ->
  ('(r, s) ← check_call call stub; f r s) y = (if rpc_code status =? ErrorCode_val OK then f rsp stub' else ProcessExit (rpc_code status);; sys_blocked) y2.
Proof.
  intros Hc. unfold mbind at 1, Sys_bind at 1, check_call. rewrite Hc, ret_bind. destruct (_ =? _); [done|].
  unfold mbind, Sys_bind. destruct (ProcessExit _ y2) as [[[]]| | |]; done.
Qed.

(** A service, whatever its name server answers: when it registers it has an endpoint with an empty queue and a thread that is
    ready to run its server loop on it, and the capability it registers is one to that endpoint which can be used to send and
    to be passed on, but not to receive.  Registration that fails ends the process with the code of the answer; one that
    succeeds leads to waiting for the server thread. *)
Theorem service_registers `{Zcalls system} y g t x a sp stack ks pm te bootstrap this stub name join :
  runs y g t x a sp -> next_cap_id_ t < 2 ^ 55 - 3 -> AllocateKernelStack (cr3_ sp) (kernel_stacks y) (pmem y) = Ret (stack, ks, pm) ->
  user_address te -> user_address bootstrap -> user_address this ->
  let n := next_cap_id_ t in
  exists y', serving y y' t x te bootstrap this stack /\
    cap_at (ker y') n = Some (mkCap (mkObj ENDPOINT (next_ref (ker y))) ipc_permissions) /\
    cap_at (ker y') (n + 2) = Some (mkCap (mkObj ENDPOINT (next_ref (ker y))) client_permissions) /\
    (forall status stub' y2 Create, Create ∈ [DenaliServer_Create; VFSServer_Create; VoyageursServer_Create] -> YellowstoneClient_RegisterEndpoint (mkRegisterEndpointRequest name (n + 2)) stub y' = Ret (status, tt, stub', y2) ->
       serve te bootstrap this Create g stub name join y = scope (endpoint_destroy n)
         (if rpc_code status =? ErrorCode_val OK then join (n + 1) else ProcessExit (rpc_code status);; sys_blocked) y2).
Proof.
  intros Hr Hroom HK H1 H2 H3 n. destruct (serve_spec Hr Hroom HK H1 H2 H3 stub name join) as (y' & HS & HE). exists y'. split; [done|].
  destruct HS as [_ (t' & Ht & _ & Hc) _ _ _ _ (_ & _ & Hcur & _)]. unfold cap_at. rewrite Hcur, Ht, lookup_insert_eq. cbn. rewrite Hc. split_and!.
  - by rewrite !lookup_insert_ne, lookup_insert_eq by lia.
  - by rewrite lookup_insert_eq.
  - intros status stub' y2 Create HC HY. assert (Create = on_kernel EndpointCreate) as -> by set_solver. rewrite HE. unfold scope. by rewrite (check_call_bind _ _ _ _ _ _ _ _ HY).
Qed.

Lemma client_cap_sends : Z.land client_permissions kZionPerm_Read = 0 /\ Z.land client_permissions kZionPerm_Write = kZionPerm_Write /\
  Z.land client_permissions kZionPerm_Transmit = kZionPerm_Transmit.
Proof. done. Qed.

(** *** A run: the file server, whose name server (endpoint 60) answers every call *)
Definition vf_messages : list IpcMessage :=
  init_msg <$> [(Z_INIT_SELF_PROC, mkCap (mkObj PROCESS 20) process_permissions); (Z_INIT_ENDPOINT, mkCap (mkObj ENDPOINT 60) client_permissions)].
Definition vf_system : system :=
  with_kstacks (mkKsm kKernelStackStart (ll_PushFront 0xFFFFFFFF9000BFF8 ll_new))
    (with_ker (with_sch (with_lock 60 (mkLock 0 []) (with_lock 50 (mkLock 2 []) sample_sched))
      (with_objects {[ 50%positive := mkIpc PORT None (UnboundedMessageQueue vf_messages); 60%positive := mkIpc ENDPOINT None (UnboundedMessageQueue []) ]} (ker boot_system))) boot_system).

(** The answer: a header with the code [OK], and a message. *)
Definition vf_answer : list Z :=
  match ('(_, (b, _)) ← SerializeToBytes (mkDenaliInfo 0 7 2048) (ByteBuffer_new 0x1000) 0x10 None; WriteReplyHeader b 48) with Ret b => b | _ => [] end.

#[local] Instance vf_calls : Zcalls system := {
  ZEndpointSend e bytes caps y :=
    '(o, k) ← EndpointSend e (mkSend (Z.of_nat (length bytes)) bytes (Z.of_nat (length caps)) caps) (ker y);
    Ret (match o with Val r => (0, r) | Err c => (ErrorCode_val c, 0) | Blocked => (1, 0) end, with_ker k y);
  ZEndpointRecv e nb nc y := NoFuel;
  ZReplyPortSend rp bytes caps y := NoFuel;
  ZReplyPortRecv rp nb nc y := Ret (0, (take 64 vf_answer, []), y);
  ZCapDuplicate cap mask y := NoFuel;
  ZCapRelease cap y := Ret (0, y) }.

Definition vf_run : res (outcome unit * system) :=
  start (victoriafalls_main 0x401000 0x402000 0x10000 mret (fun _ => mret tt) 10 0x100) vf_system.

(** [main] waits for its server thread, which is queued to run; the registration, with the capability, is in the queue of the
    name server behind the first call. *)
Example vf_registers :
  ('(o, y) ← vf_run;
   x ← deref (ipc_objects (ker y) !! 60%positive);
   Ret (o, runnable_threads_ (sch (ker y)), match message_queue_ x with UnboundedMessageQueue l => msg_caps <$> l | _ => [] end)) =
  Ret (Blocked, [42%positive], [[]; [Some (mkCap (mkObj ENDPOINT 41) client_permissions)]]).
Proof. vm_compute. reflexivity. Qed.

(** A start-up port with a message of the wrong size: the disk server reports it, the file server does not look at the result
    and stops at its first call, which has no endpoint. *)
Definition broken_system : system :=
  with_ker (with_objects {[ 50%positive := mkIpc PORT None (UnboundedMessageQueue [mkMsg [1; 2; 3] [Some boot_port_cap] None]) ]} (ker vf_system)) vf_system.

Definition exit_code_of (r : res (outcome unit * system)) : res Z := '(_, y) ← r; x ← deref (procs y !! 20%positive); Ret (exit_code_ x).

Example broken_port :
  exit_code_of (start (denali_main 0x401000 0x402000 0x10000 mret (fun _ => mret tt) 10 0x100) broken_system) = Ret (ErrorCode_val FAILED_PRECONDITION) /\
  exit_code_of (start (victoriafalls_main 0x401000 0x402000 0x10000 mret (fun _ => mret tt) 10 0x100) broken_system) = Ret (ErrorCode_val CAP_NOT_FOUND).
Proof. split; vm_compute; reflexivity. Qed.
