(* ===== verification/NewDelete.v ===== *)
(** * The operators (zion/memory/kernel_heap.cpp, lib/mammoth/util/new.cpp)

    [new] and [delete] as code calls them: the kernel's fills the block it hands
    out, the programs' starts their allocator with the first call.  Here too are
    the statistics of the kernel heap. *)

From Stdlib Require Import ZArith Lia.
From stdpp Require Import base tactics numbers list gmap fin_maps relations.
From S2P Require Import Prelude Buddy KernelHeap.

(** ** The kernel *)

(** Bytes by address. *)
Notation bytes := (gmap Z Z).

Definition GetKernelHeap (gKernelHeap : option KernelHeap) : res KernelHeap :=
  match gKernelHeap with None => Panic | Some h => Ret h end.

Definition kNewByte : Z := 0xAB.

Fixpoint fill_loop (n : nat) (addr : Z) (m : bytes) : bytes :=
  match n with O => m | S n' => fill_loop n' (addr + 1) (<[addr := kNewByte]> m) end.
Definition InitMemory (addr size : Z) (m : bytes) : bytes := fill_loop (Z.to_nat size) addr m.

Definition kernel_new (size : Z) (gKernelHeap : option KernelHeap) (m : bytes) : res (Z * KernelHeap * bytes) :=
  h ← GetKernelHeap gKernelHeap;
  '(addr, h) ← Heap_Allocate size h;
  Ret (addr, h, InitMemory addr size m).

Definition kernel_new_array (size : Z) (gKernelHeap : option KernelHeap) (m : bytes) : res (Z * KernelHeap * bytes) :=
  h ← GetKernelHeap gKernelHeap;
  '(addr, h) ← Heap_Allocate size h;
  Ret (addr, h, InitMemory addr size m).

(** ** Statistics *)
Definition SlabCount (elem_size : Z) (h : KernelHeap) : res Z :=
  l ← deref (slabs_ h !! elem_size); Ret (foldl (fun count _ => count [+] 1) 0 l).

Fixpoint sum_allocated (l : list Z) (count : Z) (h : KernelHeap) : res Z :=
  match l with
  | [] => Ret count
  | slab :: l => sl ← deref (slab_headers h !! slab); sum_allocated l (count [+] num_allocated_ sl) h
  end.
Definition Allocations (elem_size : Z) (h : KernelHeap) : res Z := l ← deref (slabs_ h !! elem_size); sum_allocated l 0 h.

(** The loop [while (size && index < 5)]. *)
Fixpoint class_loop (fuel : nat) (size index : Z) : res Z :=
  match fuel with
  | O => NoFuel
  | S fuel' => if negb (size =? 0) && (index <? 5) then class_loop fuel' (Z.shiftr size 1) (index + 1) else Ret index
  end.

(** [distributions] is an array of six counters. *)
Definition RecordSize (size : Z) (distributions : list Z) : res (list Z) :=
  let size := Z.shiftr (size [-] 1) 8 in
  index ← class_loop 6 size 0;
  d ← deref (distributions !! Z.to_nat index);
  Ret (<[Z.to_nat index := d [+] 1]> distributions).

(** ** Programs *)
Definition User_Allocate (size : Z) (gHasInit : bool) (gAllocator : BuddyAllocator) : res (Z * bool * BuddyAllocator) :=
  '(gHasInit, gAllocator) ← (if negb gHasInit then s ← Init gAllocator; Ret (true, s) else Ret (gHasInit, gAllocator));
  '(ptr, gAllocator) ← Buddy.Allocate size gAllocator;
  Ret (ptr, gHasInit, gAllocator).

Definition User_Free (ptr : Z) (gHasInit : bool) (gAllocator : BuddyAllocator) : res (bool * BuddyAllocator) :=
  s ← Buddy.Free ptr gAllocator; Ret (gHasInit, s).

(** Uses of the operators; the results of [new] are collected. *)
Inductive use : Type := UNew (size : Z) | UDelete (ptr : Z).

Fixpoint run_uses (us : list use) (gHasInit : bool) (s : BuddyAllocator) : res (list Z * bool * BuddyAllocator) :=
  match us with
  | [] => Ret ([], gHasInit, s)
  | UNew size :: us => '(p, gHasInit, s) ← User_Allocate size gHasInit s; '(l, gHasInit, s) ← run_uses us gHasInit s; Ret (p :: l, gHasInit, s)
  | UDelete p :: us => '(gHasInit, s) ← User_Free p gHasInit s; run_uses us gHasInit s
  end.

(** The same on an allocator that was started. *)
Fixpoint run_started (us : list use) (s : BuddyAllocator) : res (list Z * BuddyAllocator) :=
  match us with
  | [] => Ret ([], s)
  | UNew size :: us => '(p, s) ← Buddy.Allocate size s; '(l, s) ← run_started us s; Ret (p :: l, s)
  | UDelete p :: us => s ← Buddy.Free p s; run_started us s
  end.

(** ** The fill *)
Lemma fill_loop_lookup n : forall addr (m : bytes) a,
  fill_loop n addr m !! a = if decide (addr <= a < addr + Z.of_nat n) then Some kNewByte else m !! a.
Proof.
  induction n as [|n IH]; intros addr m a; cbn [fill_loop]; [by rewrite decide_False by lia|].
  rewrite IH. repeat case_decide; try lia; try done.
  - destruct (decide (a = addr)) as [->|]; [by rewrite lookup_insert_eq|lia].
  - rewrite lookup_insert_ne by lia. done.
Qed.

Lemma InitMemory_lookup addr size m a : 0 <= size ->
  InitMemory addr size m !! a = if decide (addr <= a < addr + size) then Some kNewByte else m !! a.
Proof. intros Hs. unfold InitMemory. by rewrite fill_loop_lookup, Z2Nat.id. Qed.

(** Elements of slabs that start apart do not overlap. *)
Lemma elems_disjoint h b1 s1 b2 s2 p q :
  kh_inv h -> slab_headers h !! b1 = Some s1 -> slab_headers h !! b2 = Some s2 ->
  is_elem b1 (elem_size_ s1) p -> is_elem b2 (elem_size_ s2) q -> p <> q -> p + elem_size_ s1 <= q \/ q + elem_size_ s2 <= p.
Proof.
  intros Hi Hs1 Hs2 (Hm1 & H1 & H1') (Hm2 & H2 & H2') Hne.
  destruct (kh_slab _ Hi _ _ Hs1) as (C1 & M1 & _). destruct (kh_slab _ Hi _ _ Hs2) as (C2 & M2 & _).
  pose proof (elem_class_bound _ C1) as B1. pose proof (elem_class_bound _ C2) as B2. unfold sizeof_Slab, kSlabSize in *.
  destruct (decide (b1 = b2)) as [<-|Hb].
  - assert (s2 = s1) as -> by congruence. set (c := elem_size_ s1) in *.
    pose proof (Z.div_mod p c). pose proof (Z.div_mod q c). assert (p / c <> q / c) by (intros E; rewrite E in *; lia). nia.
  - pose proof (Z.div_mod b1 4096). pose proof (Z.div_mod b2 4096). lia.
Qed.

(** Free elements, with the word that chains them, are apart from the blocks in use. *)
Lemma free_word_apart h p n base sl l a :
  kh_inv h -> slab_live h p n \/ bump_live h p n -> slab_headers h !! base = Some sl -> chain (entries h) (first_free_ sl) l -> a ∈ l ->
  a + 8 <= p \/ p + n <= a.
Proof.
  intros Hi Hp Hs Hl Ha. pose proof (kh_slab _ Hi _ _ Hs) as (C & Hm & Hlo & Hhi & l' & Hl' & _ & Hel).
  pose proof (elem_class_bound _ C) as B. assert (l' = l) as -> by (by eapply chain_fun). specialize (Hel _ Ha).
  destruct Hp as [(b & s & Hsb & Hep & Hn & Hfree)|(Hq & _)].
  - assert (p <> a) as Hne.
    { intros ->. destruct (same_slab _ _ _ _ _ _ Hi Hsb Hs Hep Hel) as [-> ->]. by eapply Hfree. }
    destruct (elems_disjoint _ _ _ _ _ _ _ Hi Hsb Hs Hep Hel Hne); lia.
  - destruct Hel as (_ & _ & He). destruct (kh_page _ Hi) as (_ & _ & Hpg). unfold kKernelSlabHeapEnd, kKernelBuddyHeapStart in *. lia.
Qed.

(** [new] in the kernel: with a heap and room in it, the block is apart from every block in use, filled with the byte 0xAB, and
    nothing else changed: not the blocks in use and not the words that chain the free elements.  Without a heap it panics. *)
Theorem kernel_new_fills h L size m :
  KernelHeap.live_inv h L -> 0 <= size < 2 ^ 31 -> next_slab_heap_page_ h < kKernelSlabHeapEnd -> (128 < size -> next_addr_ h + size < kKernelBuddyHeapEnd) ->
  exists p h' m', kernel_new size (Some h) m = Ret (p, h', m') /\ kernel_new_array size (Some h) m = Ret (p, h', m') /\
    KernelHeap.live_inv h' (<[p := size]> L) /\
    (forall a, p <= a < p + size -> m' !! a = Some kNewByte) /\
    (forall q n a, L !! q = Some n -> q <= a < q + n -> m' !! a = m !! a) /\
    (forall base sl l a i, slab_headers h' !! base = Some sl -> chain (entries h') (first_free_ sl) l -> a ∈ l -> 0 <= i < 8 -> m' !! (a + i) = m !! (a + i)).
Proof.
  intros HI Hs Hpage Hroom. destruct (Heap_Allocate_live h L size HI Hs Hpage Hroom) as (p & h' & HA & Hf & HI').
  exists p, h', (InitMemory p size m). unfold kernel_new, kernel_new_array. cbn [GetKernelHeap]. rewrite !ret_bind, HA, !ret_bind. do 3 (split; [done|]). split_and!.
  - intros a Ha. rewrite InitMemory_lookup by lia. by rewrite decide_True.
  - intros q n a Hq Ha. rewrite InitMemory_lookup by lia. destruct (Hf q n Hq) as [_ Hd]. by rewrite decide_False by lia.
  - intros base sl l a i Hb Hl Ha Hi. rewrite InitMemory_lookup by lia.
    destruct (free_word_apart h' p size base sl l a (li_inv _ _ HI')) as [|]; [|done|done|done| |]; [|by rewrite decide_False by lia..].
    apply (li_live _ _ HI'). apply lookup_insert_eq.
Qed.

Lemma kernel_new_without_heap size m : kernel_new size None m = Panic.
Proof. done. Qed.

(** ** Statistics *)
Lemma class_loop_spec fuel : forall size index, 0 <= size -> 0 <= index <= 5 -> (Z.to_nat (5 - index) < fuel)%nat ->
  exists r, class_loop fuel size index = Ret r /\ index <= r <= 5 /\ (index < r -> 2 ^ (r - index - 1) <= size) /\ (r < 5 -> size < 2 ^ (r - index)).
Proof.
  induction fuel as [|fuel IH]; intros size index Hs Hi Hf; [lia|]. cbn [class_loop].
  destruct (Z.eqb_spec size 0) as [->|Hz]; cbn [negb andb].
  { exists index. split; [done|]. split; [lia|]. split; [lia|]. intros _. rewrite Z.sub_diag. done. }
  destruct (Z.ltb_spec index 5) as [Hlt|Hge].
  2: { exists index. split; [done|]. split; [lia|]. split; lia. }
  rewrite Z.shiftr_div_pow2, Z.pow_1_r by lia. destruct (IH (size / 2) (index + 1)) as (r & Hr & H1 & H2 & H3); [apply Z.div_pos; lia|lia|lia|].
  exists r. split; [done|]. split; [lia|]. split.
  - intros _. destruct (decide (index + 1 < r)) as [Hlt'|].
    + specialize (H2 Hlt'). replace (r - index - 1) with (Z.succ (r - (index + 1) - 1)) by lia. rewrite Z.pow_succ_r by lia. pose proof (Z.div_mod size 2). pose proof (Z.mod_pos_bound size 2). lia.
    + replace (r - index - 1) with 0 by lia. lia.
  - intros Hr5. specialize (H3 Hr5). replace (r - index) with (Z.succ (r - (index + 1))) by lia. rewrite Z.pow_succ_r by lia.
    pose proof (Z.div_mod size 2). pose proof (Z.mod_pos_bound size 2). lia.
Qed.

(** A size is counted in the class the header names: class [i] is for sizes up to [256 * 2 ^ i], the last for all others; the
    access stays inside of the six counters. *)
Theorem RecordSize_classes size d :
  0 < size < 2 ^ 64 -> length d = 6%nat ->
  exists i, (i < 6)%nat /\ RecordSize size d = Ret (<[i := default 0 (d !! i) [+] 1]> d) /\
    (i <> 5%nat -> size <= 256 * 2 ^ Z.of_nat i) /\ (i <> 0%nat -> 256 * 2 ^ (Z.of_nat i - 1) < size).
Proof.
  intros Hs Hd. unfold RecordSize. rewrite u64_small by lia. rewrite Z.shiftr_div_pow2 by lia. change (2 ^ 8) with 256.
  pose proof (Z.div_mod (size - 1) 256 ltac:(lia)). pose proof (Z.mod_pos_bound (size - 1) 256 ltac:(lia)).
  destruct (class_loop_spec 6 ((size - 1) / 256) 0) as (r & -> & H1 & H2 & H3); [apply Z.div_pos; lia|lia|lia|]. rewrite ret_bind.
  rewrite Z.sub_0_r in *. exists (Z.to_nat r). split; [lia|]. destruct (lookup_lt_is_Some_2 d (Z.to_nat r) ltac:(lia)) as [v Hv]. rewrite Hv. cbn [deref default from_option].
  rewrite ret_bind. split; [done|]. rewrite Z2Nat.id by lia. split.
  - intros Hn. specialize (H3 ltac:(lia)). pose proof (Z.pow_pos_nonneg 2 r). nia.
  - intros Hn. specialize (H2 ltac:(lia)). nia.
Qed.

(** Size zero wraps and counts as large. *)
Example RecordSize_zero : RecordSize 0 [0; 0; 0; 0; 0; 0] = Ret [0; 0; 0; 0; 0; 1].
Proof. reflexivity. Qed.

(** ** The allocator of a program is started once, by the first [new] *)
Lemma run_uses_started us : forall s, run_uses us true s = ('(l, s) ← run_started us s; Ret (l, true, s)).
Proof.
  induction us as [|[size|p] us IH]; intros s; [done| |]; cbn [run_uses run_started].
  - unfold User_Allocate. cbn [negb]. rewrite ret_bind. destruct (Buddy.Allocate size s) as [[p s']| | |]; try done. cbn [mbind res_bind]. rewrite IH.
    by destruct (run_started us s') as [[l s'']| | |].
  - unfold User_Free. destruct (Buddy.Free p s) as [s'| | |]; try done. cbn [mbind res_bind]. apply IH.
Qed.

Theorem user_heap_starts_once size us s :
  run_uses (UNew size :: us) false s = (s ← Init s; '(l, s) ← run_started (UNew size :: us) s; Ret (l, true, s)).
Proof.
  cbn [run_uses]. unfold User_Allocate. cbn [negb]. destruct (Init s) as [s'| | |]; try done. cbn [mbind res_bind run_started].
  destruct (Buddy.Allocate size s') as [[p s'']| | |]; try done. cbn [mbind res_bind]. rewrite run_uses_started. by destruct (run_started us s'') as [[l s3]| | |].
Qed.
